(* ===== verification/_CoqProject ===== *)
-Q . S2P
Prelude.v
Effects.v
Net.v
Ports.v
Discovery.v
Sessions.v
SessionInv.v
SessionOps.v
SessionThms.v
SessionConc.v
Locks.v
Position.v
Entities.v
ServiceIdentity.v
Patterns.v
PatternSpec.v
Definitions.v
Registry.v
Buffer.v
Lldp.v
Access.v
Versions.v
Bindings.v
Services.v
Hosts.v
HostMatch.v
Subnets.v
Consolidate.v
Interfaces.v
Neighbors.v
HostCreate.v
HostCreateThms.v
RustFloat.v
Plans.v
Billing.v
BillingData.v
BillingThms.v
Topology.v
TopologySample.v
ElementRules.v
ElementRulesThms.v
EdgeBuilder.v
EdgeThms.v
L2Builder.v
L3Builder.v
L3Thms.v
L2Thms.v
ApplicationBuilder.v
AppThms.v
WorkloadsBuilder.v
WorkloadThms.v
Graph.v
GraphThms.v
Credentials.v
CredentialStore.v
Warnings.v
Dispatch.v
CredentialThms.v
CredentialStoreThms.v
DispatchThms.v
WarningThms.v
SnmpWalk.v
SnmpWalkThms.v
SnmpQueries.v
SnmpCollect.v
SnmpThms.v
SnmpCollectThms.v
Snapshots.v
SnapshotTables.v
SnapshotThms.v
SnapshotSpec.v
SnapshotRefs.v
SnapshotOps.v
SnapshotOpsThms.v
