(* ===== verification/Prelude.v ===== *)
(** * A verification of Scanopy's core

    Scanopy discovers the hosts and services of networks.  A server keeps an
    inventory; daemons inside the networks scan, buffer what they find and
    report it.  The server starts scans ("discovery sessions") on its daemons,
    at most one at a time on each, merges the reports into the inventory and
    serves it.  Paths below are relative to [src/backend/src].

    ** Parts, files and how they correspond to the code

    - [Prelude]: results, machine integers, Rust's collections (iteration order
      of a hash map as the class [HashOrder], stable sort, dedup), strings,
      shared lemmas and tactics.
    - [Effects]: the state and error monad of the operations that write tables,
      with rules for postconditions and for relations every step keeps.
    - [Net]: [std::net::IpAddr] as a 32- or 128-bit value and the guard on
      requests to daemon URLs ([server/daemons/ssrf.rs]).
    - [Ports]: the well-known ports, their equality and serialization
      ([server/ports/impl/base.rs]).
    - [Discovery]: phases, discovery and run types, scan settings, the payload
      exchanged with daemons ([daemon/discovery/types/base.rs],
      [server/discovery/impl/*.rs], [server/daemons/impl/api.rs]).
    - [Sessions]: the session manager [DiscoveryService]
      ([server/discovery/service/{mod,dispatch,sessions,cleanup}.rs], and the
      daemon poll of [server/daemons/service/processing.rs]).  The record has
      the service's maps; each method is a function of the state and of an
      [Env] with the clock, the fresh identifiers and the outcome of each call
      that can fail.  [SessionInv] has the invariant and the map lemmas,
      [SessionOps] proves that every method preserves it, [SessionThms] has the
      system in which operations run one at a time and the properties of each
      operation, [SessionConc] the system in which the lock sections of calls
      interleave.
    - [Locks]: the database locks that serialize entity operations between
      backend processes ([server/shared/storage/lock.rs]), as a system of tasks
      that request, acquire, time out and release.
    - [Position]: ordered children of a host ([server/shared/position.rs]),
      generic in the two traits, which are classes; [Entities] has the rows of
      the inventory and the instances for addresses, address inputs and
      services.
    - [ServiceIdentity]: when two service rows are the same service
      ([server/services/impl/base.rs]), against the class [DefinitionFacts];
      [Patterns] supplies its instance from a registry of definitions.
    - [Patterns]: the service matcher, the scan lists and
      [Service::from_discovery]
      ([server/services/impl/{patterns,endpoints,definitions,base}.rs]);
      [PatternSpec]: what a pattern means, written without the matcher.
    - [Definitions]: all service definitions
      ([server/services/definitions/*.rs]), one per file; [Registry]: the
      endpoint scan ([scan_endpoints] of [daemon/utils/scanner.rs]) and what a
      scan can find of the catalogue.
    - [Buffer]: the daemon's buffer of discovered entities
      ([daemon/discovery/buffer.rs]).
    - [Lldp]: decoding and resolving LLDP neighbour identities
      ([server/snmp/resolution/lldp.rs]).
    - [Access]: organization roles ([server/users/impl/permissions.rs]);
      [Versions]: the daemon version policy and the gate on daemon requests
      ([server/daemons/impl/version.rs], [server/auth/middleware/auth.rs]).
    - [Hosts]: host names and their ranks, and the merge of a rediscovered host
      ([server/hosts/impl/{name,base}.rs], [upsert_host] of
      [server/hosts/service/consolidate.rs]).
    - [HostMatch]: which stored host a report is about
      ([select_matching_host] of [server/hosts/service/mod.rs]) and the pure
      helpers of host creation ([server/hosts/service/create.rs]).
    - [Bindings]: the rules on service bindings
      ([server/services/service/{binding_validation,binding_mutation,upsert,
      transfer}.rs]); [Services]: creating, updating, deleting and
      rediscovering services over a store
      ([server/services/service/{mod,upsert,dependencies}.rs]).
    - [Consolidate]: merging two hosts and deleting one
      ([server/hosts/service/{consolidate,delete}.rs]), in a state and error
      monad over the tables, on top of [Hosts] and [Services].
    - [Interfaces]: interface rows, their identity across scans, the batch loop
      and the prune of host creation, links to addresses
      ([server/interfaces], [server/hosts/service/{create,discovery}.rs]).
    - [Neighbors]: the pass that resolves link-layer neighbours
      ([server/hosts/service/topology/{mod,reciprocal}.rs]) over [Interfaces]
      and [Lldp].
    - [Subnets]: types of subnets, the subnet a scan derives from an address,
      and the creation that deduplicates ([server/subnets]).
    - [HostCreate]: the composition of all of these, [create_with_children] and
      [discover_host] ([server/hosts/service/{create,discovery}.rs]), over the
      tables and their unique and foreign keys; [HostCreateThms] has its
      theorems.
    - [RustFloat]: the [f32] operations of prices; [Plans]: the billing plans,
      their features, tiers and prices ([server/billing/{types/base,plans,
      types/features}.rs]); [Billing]: the events of a subscription, the
      subscriber that keeps the organization row, the provider's webhooks and
      the guards of the requests ([server/billing/service/*.rs],
      [server/organizations]), and plan limit mails; [BillingData] has the round
      trip of the metadata, pause credits and limits, [BillingThms] the row as a
      function of the event log.
    - [Topology]: nodes, edges, rules, views, metadata filters and the lookups of
      a build ([server/topology/types/*.rs], [context.rs] and
      [metadata_filter.rs] of [server/topology/service]); [TopologySample]: sample
      networks.  [ElementRules] and [ElementRulesThms]: the grouping of elements
      ([element_rules.rs]); [EdgeBuilder] and [EdgeThms]: the edges
      ([edge_builder.rs]).  The views: [L2Builder], [L2Thms] ([l2_builder.rs]);
      [L3Builder], [L3Thms] ([l3_builder.rs], [subnet_graph_builder.rs]);
      [ApplicationBuilder], [AppThms] ([application_builder.rs]);
      [WorkloadsBuilder], [WorkloadThms] ([workloads_builder.rs]).  [Graph] and
      [GraphThms]: the pipeline from rows to the graphs of all views ([view.rs],
      [main.rs]).
    - [Credentials]: credential types, secrets and their redaction, validation,
      the payloads daemons are sent ([server/credentials/impl/types/*.rs],
      [mapping.rs]); [CredentialStore]: where credentials are assigned, the
      handlers that write them and the mappings of a scan
      ([server/credentials/{service,handlers}.rs], [junction.rs]).
      [CredentialThms], [CredentialStoreThms] have their theorems.
    - [Dispatch], [DispatchThms]: trying credentials on a host and collecting
      with those that work ([daemon/discovery/credentials.rs],
      [daemon/discovery/integration/{dispatch,mod}.rs]); an integration's probe
      and collection are arguments.  [Warnings], [WarningThms]: the warnings of a
      scan ([daemon/discovery/service/warnings.rs]).
    - [SnmpWalk], [SnmpWalkThms]: the values of SNMP and the walk that reads one
      column from an agent, a class nothing is assumed of
      ([daemon/discovery/integration/snmp/{values,oids,queries,session}.rs]);
      [SnmpQueries], [SnmpThms]: the tables, each query a fold over the rows its
      columns gave ([queries.rs], [types.rs]); [SnmpCollect], [SnmpCollectThms]: the
      host being filled in ([daemon/discovery/service/ops.rs]), the probe, the
      placing of neighbours and the whole collection ([mod.rs] of the integration).
    - [Snapshots]: copying the live rows of a network
      ([server/snapshots/service.rs], [server/shared/storage/{snapshot,generic}.rs]
      and the [Snapshotable] implementations, which are instances of a class);
      [SnapshotTables]: one table of it, against the laws of that class;
      [SnapshotThms], [SnapshotSpec], [SnapshotRefs]: the whole copy, against a
      renaming written field by field.  [SnapshotOps],
      [SnapshotOpsThms]: the request ([handlers.rs]), deletion and retention.

    ** What the theorems show

    - Sessions.  In every interleaving of the lock sections of any number of
      calls, and for whatever daemons report, a network taken for a snapshot has
      no live session and gets none until it is released but waiting ones; the
      entry that refuses a second start points at a session that exists or is
      about to; and every session is in a queue or about to be.  The lock sections
      of a start in a row are the start.  When operations run one at a time, and
      daemons report on the sessions they were given, the indexes agree, a daemon
      runs at most one session, a discovery has at most one, and whatever waits,
      waits behind something running.  Starting, polling, finishing, cancelling
      and the stall clean-up are characterised on every branch; after a clean-up
      nothing is stalled.  Five theorems show runs that go wrong: two concurrent
      starts of a discovery; a session queued behind one that ends meanwhile, which
      blocks its daemon; a cancellation that meets a start, which does too; a
      promotion during a snapshot; and an event bus that refuses an event (its
      interface allows it, the present channels never do).
    - Locks.  No two guards hold one key; with sorted acquisition there is
      always a step that needs no timeout, and every run of such steps ends
      with all tasks done; the polling loop returns within its deadline.
    - Matching.  The matcher decides the statement its pattern denotes about the
      ports, responses and addresses of a scan, wherever code and documentation
      agree on the default range of status codes; it binds only ports that were
      observed, and the scan lists cover the registry; the
      endpoint scan is sound and complete for its plan.  For every definition of
      the catalogue it is decided whether some scan can match it: nine have no
      pattern, seven ask for responses no scan can contain.  Names identify
      definitions in any collection order, and the constraint of the generic
      gateway is characterised.
    - Positions.  Validation accepts exactly the permutations of 0..n-1;
      renumbering, reordering and resolution are related to list operations.
    - Guards.  The address classifier equals its CIDR blocks; roles never
      escalate by granting; the version floor is bounded and monotone and the
      displayed stage agrees with the gate.
    - Data.  Ports sort and deduplicate to sets; a MAC address has one identity
      in all encodings; buffered reports accumulate and confirmations are
      reported.  Equality of services is not an equivalence and hashing does
      not follow it, shown by concrete rows.
    - Hosts.  The matcher implements its two-pass rule and never merges the
      peers of a redundancy group; a merge keeps what is known, and repeating it
      is silent unless the name contests the stored hostname, in which case it
      is announced on every scan.
    - Services.  The checks decide the conflict relation on bindings; the store
      stays well formed under creation, update and deletion, and a deletion
      leaves no dangling dependency.
    - Consolidation.  A merge that succeeds loses no endpoint and leaves no row
      of the other host; one that fails on a service is left half done.
    - Interfaces.  A scan never collapses two interfaces onto one row, pruning
      acts on authoritative scans only, and a group of columns that was not
      read is kept.
    - Neighbours.  Ports are paired exactly when each is the only one that
      names the other's device; a pass never loses a link, and its counters add
      up.
    - Subnets.  Rescans neither multiply bridges nor overwrite a subnet.
    - Submissions.  Whatever a daemon sends, the rows of other networks are the same
      rows afterwards, but for when a port or an address was last seen;
      names given by people survive, bridges get owners that exist, and ports
      and addresses are merged without tripping over an index.  Three theorems
      show what is lost: an address that moved, the metadata of a container,
      and the exclusive claim on a port.
    - Billing.  An organization's row is a function of its own events however
      events interleave; webhooks delivered twice do nothing the second time and
      never touch another organization; perks are granted once; metadata survive
      the round trip; yearly prices in [f32] are exact.  Two theorems show what a
      webhook misses: a change of rate, and a first payment that failed.
    - Topology.  Every address, port and service that should be shown is one
      element in a box of its view; the links of the physical view are the pairs of
      shown ports of which one names the other, once each, and
      hiding unlinked ports takes none away; a container is connected to its
      runtime whatever the grouping; the boxes of the workloads view are those in
      use; an edge ends at nodes and is one its view shows.  Five theorems show
      nodes without a box, a lost adjacency, an empty box and an edge from a
      machine to itself.
    - Credentials.  Secrets are not shown and survive a form that sends them back
      redacted; creating and updating keep the credentials of a one-per-host
      integration apart; a daemon is sent exactly what is assigned to its network
      and addresses, and only credentials of its organization as long as targets
      name no others.  No assigned credential goes quiet, but for SNMP the assigned
      one is preferred, a collection that does not finish leaves the host alone, and the
      warnings cover what was recorded and nothing else.  Seven theorems show where
      the code departs from that, among them a target that sends another
      organization's secret and the community "public" that is recorded over an
      assigned SNMP credential.
    - SNMP.  A walk returns whatever the agent does, hands over each row once and
      reads all of a table served in any order.  The interface table is what its
      index column named, if it named anything, every LLDP row is kept or accounted for, VLANs follow the
      port lists bit by bit, and every neighbour is placed or counted.  A collection
      only fills a host in, and vouches for exactly the groups of data it does not
      report, but for an LLDP table the device does not serve and an empty list.
      Four theorems show a truncated interface list and lost VLAN names that are
      called complete, CDP data vouched for by a device without CDP, and a
      management address read as another neighbour's.
    - Snapshots.  Copying table by table is renaming every reference but the tagged
      VLANs at once; through their columns the
      rows of a snapshot refer to each other, and at no time are more or fewer
      versions of an entity seen than before.  A request gives the network back on
      every path, and the sweep deletes exactly what is past its documented retention
      where no override meets a hosted plan.  Five
      theorems show a network too large to copy, tagged VLANs that are not renamed,
      a failed snapshot that stays listed, a retention that stops the sweep, and an
      override that reaches every plan.

    ** Bounds and fuel

    Recursion is structural except for two polling loops, the climb from an
    element to the box of its host, which [WorkloadThms.workloads_boxes] shows to
    end within its fuel, and an SNMP walk, whose fuel [SnmpWalk.walk_fuel] is the
    entry cap, the retries and two more; [SnmpWalkThms.walk_returns] proves it
    sufficient for every agent.  [Buffer.await_fuel]
    and [Locks.lock_fuel] are the number of polls that fit into the timeout,
    plus one; [await_subnet_returns] and [session_lock_returns] prove them
    sufficient on every clock whose ticks are at least as long as the sleep.
    [Lldp.lossy_from], [Lldp.valid_from], [SnmpCollect.words_from] and
    [Snapshots.chunks] recurse on the length of the input.
    [i32] positions are kept at their width with [as_i32]; the theorems assume
    fewer than 2^31 children.  Times are integers in milliseconds.

    ** Parameters

    The URL parser and DNS ([Net]), the outcomes of storage, credential and
    event bus calls ([Sessions.Env]), uuid printing and key derivation
    ([Locks]), the vendor database, the HTTP client and, but for
    the catalogue, the registry ([Patterns], [Registry]), the MAC
    address parser and the resolver's lookups ([Lldp]), semantic versions
    with date formatting ([Versions]), fresh identifiers ([Services]), and which
    interface rows the database refuses ([Interfaces]).  The answers of the
    payment provider and the text of uuids and plans ([Billing.WebhookEnv],
    [Billing.Codec]); the text of uuids and name-based ids, with the laws
    [Topology.UuidLaws], and the order of hash maps ([Topology.MapOrder]).  The
    PEM parser and the file system ([Credentials]), the derived validator of
    entities ([CredentialStore]), the integrations ([Dispatch]).  An SNMP agent
    ([SnmpWalk.SnmpWalkTransport], [SnmpQueries.SnmpGet]), which queries run out of
    time, the server behind the daemon and netmasks ([SnmpCollect.SnmpOutside]).
    The ids a snapshot mints, the first date there is and the networks of an
    organization ([SnapshotOps]).

    ** Not modelled

    Storage and SQL (the statements of a snapshot are list operations), HTTP
    handlers other than those named, authentication flows, port scanners and SNMP
    sessions (input and output), payment, mail and analytics clients, metadata for
    display, serialization other than ports, billing metadata and secrets; the
    container, UniFi and Instant On integrations, whose clients are external. *)

From Stdlib Require Export ZArith Lia.
From stdpp Require Export base gmap sets list strings sorting decidable.

(** ** Identifiers, clocks, results *)

(** A [Uuid] is a 128-bit number; [Uuid::nil()] is zero. *)
Abbreviation Uuid := N (only parsing).
Definition uuid_nil : Uuid := 0%N.

(** [DateTime<Utc>] and [Instant]: milliseconds on an integer time line. *)
Abbreviation DateTime := Z (only parsing).

(** Rust's [Result]. *)
Inductive result (A E : Type) : Type :=
| Ok (a : A)
| Err (e : E).
Arguments Ok {A E} a.
Arguments Err {A E} e.

Definition is_ok {A E} (r : result A E) : bool :=
  match r with Ok _ => true | Err _ => false end.

Definition result_bind {A B E} (r : result A E) (k : A → result B E) : result B E :=
  match r with Ok a => k a | Err e => Err e end.

Declare Scope rust_scope.
Delimit Scope rust_scope with rust.
Notation "'let?' x ':=' r 'in' k" := (result_bind r (λ x, k))
  (at level 10, x name, r at level 100, k at level 200) : rust_scope.

(** ** Machine integers *)

Definition wrap (w : Z) (z : Z) : Z := (z `mod` 2 ^ w)%Z.
Definition as_i32 (z : Z) : Z :=
  let m := (z `mod` 2 ^ 32)%Z in if (m <? 2 ^ 31)%Z then m else (m - 2 ^ 32)%Z.
Definition i32_max : Z := (2 ^ 31 - 1)%Z.
Definition is_i32 (z : Z) : Prop := (- 2 ^ 31 ≤ z < 2 ^ 31)%Z.

Lemma as_i32_id z : is_i32 z → as_i32 z = z.
Proof.
  unfold is_i32, as_i32. intros [Hl Hu].
  destruct (decide (0 ≤ z)%Z) as [Hz|Hz].
  - rewrite Z.mod_small by lia. destruct (Z.ltb_spec z (2 ^ 31)); lia.
  - assert ((z `mod` 2 ^ 32)%Z = (z + 2 ^ 32)%Z) as ->.
    { symmetry. apply Z.mod_unique with (q := (-1)%Z); lia. }
    destruct (Z.ltb_spec (z + 2 ^ 32) (2 ^ 31)); lia.
Qed.

Lemma as_i32_nat_id n : (Z.of_nat n < 2 ^ 31)%Z → as_i32 (Z.of_nat n) = Z.of_nat n.
Proof. intros H. apply as_i32_id. unfold is_i32. lia. Qed.

(** ** Hash maps

    Rust's [HashMap] and [HashSet] fix no iteration order.  Code that iterates
    one is modelled against this interface: [hash_iter] is some enumeration of
    the entries, and theorems hold for every enumeration. *)
Class HashOrder : Type := {
  hash_iter : ∀ {V : Type}, gmap Uuid V → list (Uuid * V);
  hash_iter_perm : ∀ {V : Type} (m : gmap Uuid V), hash_iter m ≡ₚ map_to_list m
}.

#[export] Program Instance canonical_order : HashOrder := {|
  hash_iter V m := map_to_list m
|}.
Next Obligation. done. Qed.

Section HashOrderFacts.
Context `{HashOrder}.

Lemma elem_of_hash_iter {V} (m : gmap Uuid V) k v : (k, v) ∈ hash_iter m ↔ m !! k = Some v.
Proof. rewrite (hash_iter_perm m). apply elem_of_map_to_list. Qed.

Lemma NoDup_hash_iter_keys {V} (m : gmap Uuid V) : NoDup (hash_iter m).*1.
Proof. rewrite (hash_iter_perm m). apply NoDup_fst_map_to_list. Qed.

Lemma NoDup_hash_iter {V} (m : gmap Uuid V) : NoDup (hash_iter m).
Proof. rewrite (hash_iter_perm m). apply NoDup_map_to_list. Qed.

Lemma length_hash_iter {V} (m : gmap Uuid V) : length (hash_iter m) = size m.
Proof. rewrite (hash_iter_perm m). apply length_map_to_list. Qed.
End HashOrderFacts.

(** [HashMap::values]. *)
Definition hash_values `{HashOrder} {V} (m : gmap Uuid V) : list V := (hash_iter m).*2.

Lemma elem_of_hash_values `{HashOrder} {V} (m : gmap Uuid V) v :
  v ∈ hash_values m ↔ ∃ k, m !! k = Some v.
Proof.
  unfold hash_values. rewrite list_elem_of_fmap. split.
  - intros [[k w] [-> Hin]]. exists k. by apply elem_of_hash_iter.
  - intros [k Hk]. exists (k, v). split; [done|]. by apply elem_of_hash_iter.
Qed.

(** ** Stable sorting ([slice::sort_by_key]) and [Vec::dedup] *)
Section SortBy.
Context {A : Type} (leb : A → A → bool).

Fixpoint insert_by (x : A) (l : list A) : list A :=
  match l with
  | [] => [x]
  | y :: l' => if leb x y then x :: y :: l' else y :: insert_by x l'
  end.

Fixpoint sort_by (l : list A) : list A :=
  match l with
  | [] => []
  | x :: l' => insert_by x (sort_by l')
  end.

Lemma insert_by_perm x l : insert_by x l ≡ₚ x :: l.
Proof.
  induction l as [|y l IH]; simpl; [done|].
  destruct (leb x y); [done|]. rewrite IH. by rewrite Permutation_swap.
Qed.

Lemma sort_by_perm l : sort_by l ≡ₚ l.
Proof. induction l as [|x l IH]; simpl; [done|]. by rewrite insert_by_perm, IH. Qed.

Lemma length_sort_by l : length (sort_by l) = length l.
Proof. by rewrite sort_by_perm. Qed.

Context (leb_total : ∀ x y, leb x y = true ∨ leb y x = true).
Context (leb_trans : ∀ x y z, leb x y = true → leb y z = true → leb x z = true).

Lemma insert_by_sorted x l :
  StronglySorted (λ a b, leb a b = true) l →
  StronglySorted (λ a b, leb a b = true) (insert_by x l).
Proof.
  induction 1 as [|y l Hs IH Hall]; simpl; [by repeat constructor|].
  destruct (leb x y) eqn:E.
  - constructor; [by constructor|]. constructor; [done|].
    eapply Forall_impl; [|exact Hall]. simpl. eauto.
  - constructor; [done|]. rewrite insert_by_perm. constructor; [|done].
    destruct (leb_total x y); congruence.
Qed.

Lemma sort_by_sorted l : StronglySorted (λ a b, leb a b = true) (sort_by l).
Proof. induction l as [|x l IH]; simpl; [constructor|]. by apply insert_by_sorted. Qed.

Lemma sort_by_id l : StronglySorted (λ a b, leb a b = true) l → sort_by l = l.
Proof.
  induction 1 as [|x l Hs IH Hall]; simpl; [done|]. rewrite IH.
  destruct l as [|y l]; simpl; [done|]. inversion Hall; subst. by rewrite H1.
Qed.
End SortBy.

(** Sorting by a key that tells the elements apart forgets their order. *)
Lemma sort_by_perm_eq {A} (leb : A → A → bool) l1 l2 :
  (∀ x y, leb x y = true ∨ leb y x = true) →
  (∀ x y z, leb x y = true → leb y z = true → leb x z = true) →
  (∀ x y, x ∈ l1 → y ∈ l2 → leb x y = true → leb y x = true → x = y) →
  l1 ≡ₚ l2 → sort_by leb l1 = sort_by leb l2.
Proof.
  intros Htot Htr Hanti Hp.
  eapply StronglySorted_unique_strong; [|by apply sort_by_sorted|by apply sort_by_sorted|].
  - intros x y Hx Hy. rewrite sort_by_perm in Hx. rewrite sort_by_perm in Hy. by apply Hanti.
  - by rewrite !sort_by_perm.
Qed.

Lemma existsb_elem {A} (f : A → bool) l : existsb f l = true ↔ ∃ x, x ∈ l ∧ f x = true.
Proof. rewrite existsb_exists. by setoid_rewrite list_elem_of_In. Qed.

Lemma forallb_elem {A} (f : A → bool) l : forallb f l = true ↔ ∀ x, x ∈ l → f x = true.
Proof. rewrite forallb_forall. by setoid_rewrite list_elem_of_In. Qed.

Lemma existsb_elem_false {A} (f : A → bool) l :
  existsb f l = false ↔ ∀ x, x ∈ l → f x = false.
Proof.
  rewrite <- not_true_iff_false, existsb_elem. split.
  - intros H x Hx. apply not_true_is_false. eauto.
  - intros H (x & Hx & Hf). by rewrite (H x Hx) in Hf.
Qed.

Lemma elem_of_list_filter_bool {A} (f : A → bool) l x :
  x ∈ List.filter f l ↔ f x = true ∧ x ∈ l.
Proof. rewrite !list_elem_of_In, filter_In. tauto. Qed.

Lemma sublist_fmap_of {A B} (f : A → B) l1 l2 : l1 `sublist_of` l2 → f <$> l1 `sublist_of` f <$> l2.
Proof. induction 1; by constructor. Qed.

Lemma sublist_same_length {A} (l1 l2 : list A) :
  l1 `sublist_of` l2 → (length l2 ≤ length l1)%nat → l1 = l2.
Proof.
  induction 1 as [|x l1 l2 H IH|x l1 l2 H IH]; simpl; intros Hl; [done| |].
  - f_equal. apply IH. lia.
  - apply sublist_length in H. lia.
Qed.

Lemma filter_bool_sublist {A} (f : A → bool) l : List.filter f l `sublist_of` l.
Proof. induction l as [|a l IH]; simpl; [constructor|]. destruct (f a); by constructor. Qed.

(** [Iterator::partition], by the two filters it computes. *)
Lemma partition_as_filter {A} (f : A → bool) l :
  List.partition f l = (List.filter f l, List.filter (λ x, negb (f x)) l).
Proof.
  induction l as [|a l IH]; simpl; [done|]. rewrite IH. by destruct (f a).
Qed.

Lemma filter_split_perm {A} (f : A → bool) l :
  l ≡ₚ List.filter f l ++ List.filter (λ x, negb (f x)) l.
Proof.
  induction l as [|a l IH]; simpl; [done|]. destruct (f a); simpl.
  - by constructor.
  - rewrite <- Permutation_middle. by constructor.
Qed.

Lemma NoDup_fmap_snoc {A B} (f : A → B) (l : list A) x :
  NoDup (f <$> l) → f x ∉ f <$> l → NoDup (f <$> l ++ [x]).
Proof.
  intros Hl Hx. rewrite fmap_app. apply list.NoDup_app. split_and!; [done| |apply list.NoDup_singleton].
  by intros y Hy ->%list_elem_of_singleton.
Qed.

Lemma elem_of_fmap_snoc {A B} (f : A → B) (l : list A) x y :
  y ∈ f <$> l ++ [x] ↔ y ∈ f <$> l ∨ y = f x.
Proof. rewrite fmap_app, elem_of_app. simpl. by rewrite list_elem_of_singleton. Qed.

(** A key without duplicates tells the elements apart. *)
Lemma NoDup_key_inj {A B} (f : A → B) (l : list A) x y :
  NoDup (f <$> l) → x ∈ l → y ∈ l → f x = f y → x = y.
Proof.
  induction l as [|a l IH]; simpl; [by intros _ ?%not_elem_of_nil|].
  intros [Ha Hl]%list.NoDup_cons [->|Hx]%elem_of_cons [->|Hy]%elem_of_cons E; auto.
  - destruct Ha. rewrite E. apply list_elem_of_fmap. eauto.
  - destruct Ha. rewrite <- E. apply list_elem_of_fmap. eauto.
Qed.

(** [Iterator::find] returns the first element the test accepts. *)
Lemma find_Some_split {A} (f : A → bool) l x :
  List.find f l = Some x ↔
  ∃ pre post, l = pre ++ x :: post ∧ f x = true ∧ Forall (λ y, f y = false) pre.
Proof.
  induction l as [|a l IH]; simpl.
  - split; [done|]. intros (pre & post & H & _). by destruct pre.
  - destruct (f a) eqn:E.
    + split.
      * intros [= ->]. by exists [], l.
      * intros ([|b pre] & post & [= -> ?] & Hx & Hp); [done|]. inversion Hp; congruence.
    + rewrite IH. split.
      * intros (pre & post & -> & Hx & Hp). exists (a :: pre), post. by repeat constructor.
      * intros ([|b pre] & post & [= -> ?] & Hx & Hp); [congruence|].
        inversion Hp. by exists pre, post.
Qed.

Lemma find_elem {A} (f : A → bool) l x : List.find f l = Some x → x ∈ l ∧ f x = true.
Proof. intros [H ?]%find_some. by rewrite list_elem_of_In. Qed.

Lemma omap_fmap_same {A B} (g : A → option B) (f : A → A) (l : list A) :
  (∀ x, x ∈ l → g (f x) = g x) → omap g (f <$> l) = omap g l.
Proof.
  induction l as [|x l IH]; intros H; [done|]. csimpl. rewrite H by left.
  rewrite IH; [done|]. intros y Hy. apply H. by right.
Qed.

Lemma find_fmap {A} (p : A → bool) (f : A → A) l :
  List.find p (f <$> l) = f <$> List.find (λ x, p (f x)) l.
Proof. induction l as [|x l IH]; [done|]. csimpl. by destruct (p (f x)). Qed.

Lemma find_app {A} (p : A → bool) (l1 l2 : list A) :
  List.find p (l1 ++ l2) = match List.find p l1 with Some x => Some x | None => List.find p l2 end.
Proof. induction l1 as [|x l1 IH]; [done|]. simpl. by destruct (p x). Qed.

Lemma find_ext {A} (p q : A → bool) (l : list A) :
  (∀ x, x ∈ l → p x = q x) → List.find p l = List.find q l.
Proof.
  induction l as [|x l IH]; intros H; [done|]. simpl. rewrite H by left.
  rewrite IH; [done|]. intros y Hy. apply H. by right.
Qed.

Lemma filter_filter_imp {A} (p q : A → bool) l :
  (∀ x, x ∈ l → p x = true → q x = true) → List.filter p (List.filter q l) = List.filter p l.
Proof.
  induction l as [|x l IH]; intros Hpq; [done|]. simpl. assert (∀ y, y ∈ l → p y = true → q y = true) as Hl.
  { intros y Hy. apply Hpq. by right. }
  destruct (q x) eqn:Eq; simpl.
  - by rewrite IH.
  - destruct (p x) eqn:Ep; [|by apply IH]. rewrite (Hpq x) in Eq; [done|left|done].
Qed.

Lemma filter_none {A} (f : A → bool) l : (∀ x, x ∈ l → f x = false) → List.filter f l = [].
Proof.
  induction l as [|x l IH]; intros H; [done|]. simpl. rewrite (H x) by left. apply IH. intros y Hy. apply H. by right.
Qed.

Lemma filter_all {A} (f : A → bool) l : (∀ x, x ∈ l → f x = true) → List.filter f l = l.
Proof.
  induction l as [|x l IH]; intros H; [done|]. simpl. rewrite (H x) by left. f_equal. apply IH. intros y Hy. apply H. by right.
Qed.

Lemma filter_fmap {A} (p : A → bool) (f : A → A) (l : list A) :
  (∀ x, x ∈ l → p (f x) = p x) → List.filter p (f <$> l) = f <$> List.filter p l.
Proof.
  induction l as [|x l IH]; intros H; [done|]. csimpl. rewrite H by left.
  rewrite IH by (intros y Hy; apply H; by right). by destruct (p x).
Qed.

Lemma find_None_Forall {A} (f : A → bool) l :
  List.find f l = None ↔ Forall (λ y, f y = false) l.
Proof.
  induction l as [|a l IH]; simpl; [by split|]. destruct (f a) eqn:E.
  - split; [done|]. inversion 1. congruence.
  - rewrite IH. split; [by constructor|]. by inversion 1.
Qed.

Section Dedup.
Context {A : Type} (eqb : A → A → bool).

Fixpoint dedup_from (last : A) (l : list A) : list A :=
  match l with
  | [] => [last]
  | y :: l' => if eqb y last then dedup_from last l' else last :: dedup_from y l'
  end.

(** [Vec::dedup]: of each run of equal elements the first is retained. *)
Definition dedup (l : list A) : list A :=
  match l with
  | [] => []
  | x :: l' => dedup_from x l'
  end.

Lemma dedup_from_subset last l x : x ∈ dedup_from last l → x ∈ last :: l.
Proof.
  revert last. induction l as [|y l IH]; intros last; simpl; [done|].
  destruct (eqb y last); rewrite !elem_of_cons.
  - intros Hin%IH. rewrite elem_of_cons in Hin. tauto.
  - intros [->|Hin%IH]; [tauto|]. rewrite elem_of_cons in Hin. tauto.
Qed.

Lemma dedup_subset l x : x ∈ dedup l → x ∈ l.
Proof. destruct l as [|y l]; simpl; [done|]. apply dedup_from_subset. Qed.

Lemma dedup_from_head last l : ∃ l', dedup_from last l = last :: l'.
Proof. induction l as [|y l IH]; simpl; [by eauto|]. destruct (eqb y last); eauto. Qed.

Lemma dedup_from_covers last l x :
  (∀ a, eqb a a = true) →
  x ∈ last :: l → ∃ y, y ∈ dedup_from last l ∧ eqb x y = true.
Proof.
  intros Hrefl. revert last. induction l as [|z l IH]; intros last.
  { intros ->%list_elem_of_singleton. exists last. split; [left|apply Hrefl]. }
  rewrite !elem_of_cons. simpl. destruct (eqb z last) eqn:E.
  - intros Hin. destruct (dedup_from_head last l) as [l' Hl'].
    destruct Hin as [->|[->|Hin]].
    + exists last. rewrite Hl'. split; [left|done].
    + exists last. rewrite Hl'. split; [left|done].
    + apply IH. by right.
  - intros [->|Hin]; [exists last; split; [left|done]|].
    destruct (IH z) as (y & Hy & Hxy); [by rewrite elem_of_cons|].
    exists y. split; [by right|done].
Qed.

Lemma dedup_covers l x :
  (∀ a, eqb a a = true) →
  x ∈ l → ∃ y, y ∈ dedup l ∧ eqb x y = true.
Proof. destruct l as [|y l]; simpl; [by intros _ ?%not_elem_of_nil|]. apply dedup_from_covers. Qed.
End Dedup.

(** ** Rust strings

    A [str] is its byte string; [to_lowercase] and [eq_ignore_ascii_case] act
    on the ASCII letters. *)
Definition ascii_lower (c : Ascii.ascii) : Ascii.ascii :=
  let n := Ascii.N_of_ascii c in
  if (65 <=? n)%N && (n <=? 90)%N then Ascii.ascii_of_N (n + 32) else c.

Fixpoint to_lowercase (s : string) : string :=
  match s with
  | EmptyString => EmptyString
  | String c s' => String (ascii_lower c) (to_lowercase s')
  end.

Definition eq_ignore_ascii_case (a b : string) : bool :=
  String.eqb (to_lowercase a) (to_lowercase b).

(** [str::contains]. *)
Fixpoint str_contains (s pat : string) : bool :=
  String.prefix pat s ||
  match s with
  | EmptyString => false
  | String _ s' => str_contains s' pat
  end.

(** ** Automation *)

Create HintDb scanopy.

(** [lia] with division and remainder by constants. *)
Ltac dlia := Z.to_euclidean_division_equations; lia.

Ltac inv H := inversion H; subst; clear H.

(** Split the hypotheses on booleans into propositions. *)
Ltac bool_hyps :=
  repeat match goal with
  | H : _ && _ = true |- _ => apply andb_true_iff in H; destruct H
  | H : _ || _ = false |- _ => apply orb_false_iff in H; destruct H
  | H : negb _ = true |- _ => apply negb_true_iff in H
  | H : negb _ = false |- _ => apply negb_false_iff in H
  | H : bool_decide _ = true |- _ => apply bool_decide_eq_true in H
  | H : bool_decide _ = false |- _ => apply bool_decide_eq_false in H
  | H : (_ <=? _)%Z = true |- _ => apply Z.leb_le in H
  | H : (_ <=? _)%Z = false |- _ => apply Z.leb_gt in H
  | H : (_ <? _)%Z = true |- _ => apply Z.ltb_lt in H
  | H : (_ <? _)%Z = false |- _ => apply Z.ltb_ge in H
  | H : (_ =? _)%Z = true |- _ => apply Z.eqb_eq in H
  | H : (_ =? _)%Z = false |- _ => apply Z.eqb_neq in H
  | H : (_ =? _)%N = true |- _ => apply N.eqb_eq in H
  | H : (_ =? _)%N = false |- _ => apply N.eqb_neq in H
  end.

(** Case analysis on the scrutinee of some [match] or [if]. *)
Ltac case_any :=
  match goal with
  | |- context [match ?x with _ => _ end] => destruct x eqn:?
  | H : context [match ?x with _ => _ end] |- _ => destruct x eqn:?
  end.
