(* ===== verification/Effects.v ===== *)
(** Stateful operations that can fail.

    A handler of the server reads and writes tables and stops at the first error,
    keeping the writes made so far (there is no transaction around them).  [SM]
    is that effect: state passing with a result, where an error comes with the
    state it was raised in.  [triple] states what a computation does from states
    that satisfy a precondition, for both outcomes, with the cut rule and the loop
    rule the handlers need. *)

From S2P Require Import Prelude.

Create HintDb effects.

Definition SM (S E A : Type) : Type := S → S * result A E.

#[export] Instance SM_ret {S E} : MRet (SM S E) := λ A a s, (s, Ok a).
#[export] Instance SM_bind {S E} : MBind (SM S E) := λ A B k m s,
  match m s with (s', Ok a) => k a s' | (s', Err e) => (s', Err e) end.

Definition throw {S E A} (e : E) : SM S E A := λ s, (s, Err e).
Definition get {S E} : SM S E S := λ s, (s, Ok s).
Definition put {S E} (f : S → S) : SM S E unit := λ s, (f s, Ok tt).

(** A result as a computation that leaves the state alone. *)
Definition lift {S E A} (r : result A E) : SM S E A := λ s, (s, r).

(** [for x in l { f(x, acc)? }], threading an accumulator. *)
Fixpoint for_each {S E A B} (f : A → B → SM S E B) (l : list A) (acc : B) : SM S E B :=
  match l with
  | [] => mret acc
  | x :: l' => b ← f x acc; for_each f l' b
  end.

(** A computation on a part of the state. *)
Definition zoom {S T E A} (view : S → T) (upd : T → S → S) (m : SM T E A) : SM S E A :=
  λ s, let '(t, r) := m (view s) in (upd t s, r).

(** ** Running a computation *)

Section Run.
Context {S E : Type}.

Lemma bind_ok {A B} (m : SM S E A) (k : A → SM S E B) w w' b :
  (m ≫= k) w = (w', Ok b) ↔ ∃ w1 a, m w = (w1, Ok a) ∧ k a w1 = (w', Ok b).
Proof. unfold mbind, SM_bind. destruct (m w) as [w1 [a|e]]; naive_solver. Qed.

Lemma bind_err {A B} (m : SM S E A) (k : A → SM S E B) w w' e :
  (m ≫= k) w = (w', Err e) ↔
  m w = (w', Err e) ∨ ∃ w1 a, m w = (w1, Ok a) ∧ k a w1 = (w', Err e).
Proof. unfold mbind, SM_bind. destruct (m w) as [w1 [a|e']]; naive_solver. Qed.

Lemma bind_get {A} (k : S → SM S E A) w : (get ≫= k) w = k w w.
Proof. done. Qed.

Lemma bind_put {A} f (k : unit → SM S E A) w : (put f ≫= k) w = k tt (f w).
Proof. done. Qed.

Lemma bind_ret {A B} (a : A) (k : A → SM S E B) w : (mret a ≫= k) w = k a w.
Proof. done. Qed.

Lemma bind_throw {A B} e (k : A → SM S E B) w : (throw e ≫= k) w = (w, Err e).
Proof. done. Qed.

Lemma bind_run {A B} (m : SM S E A) (k : A → SM S E B) w w' a :
  m w = (w', Ok a) → (m ≫= k) w = k a w'.
Proof. intros H. unfold mbind, SM_bind. by rewrite H. Qed.

(** ** Triples *)

Definition triple {A} (P : S → Prop) (m : SM S E A) (Q : A → S → Prop) (R : E → S → Prop) : Prop :=
  ∀ s, P s → match m s with (s', Ok a) => Q a s' | (s', Err e) => R e s' end.

Lemma triple_ok {A} P (m : SM S E A) Q R s s' a :
  triple P m Q R → P s → m s = (s', Ok a) → Q a s'.
Proof. intros H Hp Hm. specialize (H s Hp). by rewrite Hm in H. Qed.

Lemma triple_err {A} P (m : SM S E A) Q R s s' e :
  triple P m Q R → P s → m s = (s', Err e) → R e s'.
Proof. intros H Hp Hm. specialize (H s Hp). by rewrite Hm in H. Qed.

Lemma triple_weaken {A} (P P' : S → Prop) (m : SM S E A) (Q Q' : A → S → Prop) (R R' : E → S → Prop) :
  (∀ s, P' s → P s) → (∀ a s, Q a s → Q' a s) → (∀ e s, R e s → R' e s) →
  triple P m Q R → triple P' m Q' R'.
Proof.
  intros HP HQ HR H s Hs. specialize (H s (HP s Hs)). destruct (m s) as [s' [a|e]]; auto.
Qed.

Lemma triple_ret {A} (a : A) (Q : A → S → Prop) (R : E → S → Prop) :
  triple (Q a) (mret a) Q R.
Proof. by intros s Hs. Qed.

Lemma triple_put (f : S → S) (Q : unit → S → Prop) (R : E → S → Prop) :
  triple (λ s, Q tt (f s)) (put f) Q R.
Proof. by intros s Hs. Qed.

Lemma triple_throw {A} e (Q : A → S → Prop) (R : E → S → Prop) :
  triple (R e) (throw e) Q R.
Proof. by intros s Hs. Qed.

Lemma triple_get {A} (P : S → Prop) (k : S → SM S E A) (Q : A → S → Prop) (R : E → S → Prop) :
  (∀ s, triple (λ s', s' = s ∧ P s) (k s) Q R) → triple P (s ← get; k s) Q R.
Proof. intros H s Hs. exact (H s s (conj eq_refl Hs)). Qed.

Lemma triple_bind {A B} (P : S → Prop) (m : SM S E A) (k : A → SM S E B)
    (Mid : A → S → Prop) (Q : B → S → Prop) (R : E → S → Prop) :
  triple P m Mid R → (∀ a, triple (Mid a) (k a) Q R) → triple P (m ≫= k) Q R.
Proof.
  intros Hm Hk s Hs. unfold mbind, SM_bind. specialize (Hm s Hs).
  destruct (m s) as [s' [a|e]]; [|done]. by apply Hk.
Qed.

(** A loop keeps what every iteration keeps; the invariant sees the elements
    done so far. *)
Lemma triple_for_each {A B} (f : A → B → SM S E B) (Inv : list A → B → S → Prop)
    (R : E → S → Prop) (l : list A) (acc : B) :
  (∀ pre x post acc, l = pre ++ x :: post → triple (Inv pre acc) (f x acc) (Inv (pre ++ [x])) R) →
  triple (Inv [] acc) (for_each f l acc) (Inv l) R.
Proof.
  assert (∀ l2 pre acc, l = pre ++ l2 →
    (∀ pre x post acc, l = pre ++ x :: post → triple (Inv pre acc) (f x acc) (Inv (pre ++ [x])) R) →
    triple (Inv pre acc) (for_each f l2 acc) (Inv l) R) as Hgen.
  { induction l2 as [|x l2 IH]; intros pre acc0 Hl Hf; simpl.
    - rewrite app_nil_r in Hl. subst pre. apply triple_ret.
    - eapply triple_bind; [by eapply Hf|]. intros a.
      apply IH; [by rewrite <- app_assoc|done]. }
  intros Hf. by apply Hgen.
Qed.

(** ** What a computation leaves alone

    [steps R m]: whatever the outcome, [m] moves the state along [R].  With [R]
    an equivalence on part of the state this says [m] does not touch that part. *)

Definition steps {A} (R : S → S → Prop) (m : SM S E A) : Prop := ∀ s, R s (m s).1.

Section Steps.
Context (R : S → S → Prop) `{!Reflexive R, !Transitive R}.

Lemma steps_ret {A} (a : A) : steps R (mret a).
Proof. intros s. reflexivity. Qed.

Lemma steps_throw {A} e : steps R (throw e : SM S E A).
Proof. intros s. reflexivity. Qed.

Lemma steps_lift {A} (r : result A E) : steps R (lift r).
Proof. intros s. reflexivity. Qed.

Lemma steps_get : steps R get.
Proof. intros s. reflexivity. Qed.

Lemma steps_put f : (∀ s, R s (f s)) → steps R (put f).
Proof. intros H s. apply H. Qed.

Lemma steps_bind {A B} (m : SM S E A) (k : A → SM S E B) :
  steps R m → (∀ a, steps R (k a)) → steps R (m ≫= k).
Proof.
  intros Hm Hk s. unfold mbind, SM_bind. specialize (Hm s). destruct (m s) as [s' [a|e]]; [|done].
  simpl in *. by etransitivity; [|apply Hk].
Qed.

Lemma steps_for_each {A B} (f : A → B → SM S E B) l acc :
  (∀ x acc, steps R (f x acc)) → steps R (for_each f l acc).
Proof.
  intros Hf. revert acc. induction l as [|x l IH]; intros acc; simpl; [apply steps_ret|].
  apply steps_bind; [apply Hf|apply IH].
Qed.

(** A loop whose accumulator needs an invariant as well. *)
Lemma steps_loop {A B} (f : A → B → SM S E B) (P : S → B → Prop) l acc s0 :
  (∀ x acc s, R s0 s → P s0 acc →
     match f x acc s with (s', Ok acc') => R s0 s' ∧ P s0 acc' | (s', Err _) => R s0 s' end) →
  P s0 acc →
  match for_each f l acc s0 with (s', Ok acc') => R s0 s' ∧ P s0 acc' | (s', Err _) => R s0 s' end.
Proof.
  intros Hf. assert (∀ l acc s, R s0 s → P s0 acc →
    match for_each f l acc s with (s', Ok acc') => R s0 s' ∧ P s0 acc' | (s', Err _) => R s0 s' end) as Hgen.
  { induction l0 as [|x l0 IH]; intros acc0 s HR HP; [done|]. simpl. unfold mbind, SM_bind.
    specialize (Hf x acc0 s HR HP). destruct (f x acc0 s) as [s' [acc'|e]]; [|done].
    destruct Hf. by apply IH. }
  intros HP. by apply Hgen.
Qed.
End Steps.
End Run.

#[export] Hint Resolve steps_ret steps_throw steps_lift steps_get : effects.

(** Decompose a [steps] goal along the program; calls are solved by hints. *)
Ltac steps_tac :=
  repeat first
    [ solve [apply steps_ret; apply _ | apply steps_throw; apply _
            | apply steps_lift; apply _ | apply steps_get; apply _]
    | solve [eauto with effects]
    | apply steps_bind; [apply _| |intros ?]
    | apply steps_for_each; [apply _|apply _|intros ? ?]
    | progress cbv zeta
    | match goal with
      | |- steps _ (match ?x with _ => _ end) => destruct x
      | |- steps _ (let '_ := ?x in _) => destruct x
      end ].

(** Run the next effects of a computation. *)
Ltac run := repeat first [rewrite bind_get | rewrite bind_put | rewrite bind_ret | rewrite bind_throw].
