(* ===== verification/Net.v ===== *)
(** IP addresses and the SSRF guard.

    [IpAddr] models [std::net::IpAddr] (an address is its 32-bit or 128-bit
    value, octets and segments are read off with shifts and masks), the
    classification methods of the standard library that the source calls, and
    [server/daemons/ssrf.rs]: the private-address classifier and the guard on
    server-originated requests to daemon URLs. *)

From S2P Require Import Prelude.
Local Open Scope Z_scope.

(** ** [std::net::IpAddr] *)

Inductive IpAddr :=
| V4 (bits : Z)
| V6 (bits : Z).

#[export] Instance IpAddr_eq_dec : EqDecision IpAddr.
Proof. solve_decision. Defined.

Definition ip_wf (ip : IpAddr) : Prop :=
  match ip with
  | V4 b => 0 ≤ b < 2 ^ 32
  | V6 b => 0 ≤ b < 2 ^ 128
  end.

(** [Ipv4Addr::new(a, b, c, d)] and [Ipv4Addr::octets]. *)
Definition ipv4 (a b c d : Z) : IpAddr := V4 (a * 2 ^ 24 + b * 2 ^ 16 + c * 2 ^ 8 + d).
Definition octet (bits : Z) (i : Z) : Z := Z.land (Z.shiftr bits (24 - 8 * i)) 255.

(** [Ipv6Addr::segments]. *)
Definition segment (bits : Z) (i : Z) : Z := Z.land (Z.shiftr bits (112 - 16 * i)) 65535.

(** [IpAddr::to_canonical]: an IPv4-mapped IPv6 address becomes the IPv4
    address, any other address is unchanged. *)
Definition to_canonical (ip : IpAddr) : IpAddr :=
  match ip with
  | V4 b => V4 b
  | V6 b => if Z.shiftr b 32 =? 65535 then V4 (Z.land b (Z.ones 32)) else V6 b
  end.

Definition v4_is_loopback (b : Z) : bool := octet b 0 =? 127.
Definition v4_is_private (b : Z) : bool :=
  (octet b 0 =? 10)
  || ((octet b 0 =? 172) && ((16 <=? octet b 1) && (octet b 1 <=? 31)))
  || ((octet b 0 =? 192) && (octet b 1 =? 168)).
Definition v4_is_link_local (b : Z) : bool := (octet b 0 =? 169) && (octet b 1 =? 254).
Definition v4_is_unspecified (b : Z) : bool := b =? 0.
Definition v4_is_broadcast (b : Z) : bool := b =? Z.ones 32.
Definition v4_is_documentation (b : Z) : bool :=
  ((octet b 0 =? 192) && (octet b 1 =? 0) && (octet b 2 =? 2))
  || ((octet b 0 =? 198) && (octet b 1 =? 51) && (octet b 2 =? 100))
  || ((octet b 0 =? 203) && (octet b 1 =? 0) && (octet b 2 =? 113)).
Definition v6_is_loopback (b : Z) : bool := b =? 1.
Definition v6_is_unspecified (b : Z) : bool := b =? 0.

(** ** CIDR blocks *)

(** [cidr::IpCidr]: an address and a prefix length of the same family. *)
Record IpCidr := { cidr_addr : IpAddr; cidr_prefix : Z }.

(** [IpCidr::contains]. *)
Definition cidr_contains (c : IpCidr) (ip : IpAddr) : bool :=
  match cidr_addr c, ip with
  | V4 n, V4 b => Z.shiftr b (32 - cidr_prefix c) =? Z.shiftr n (32 - cidr_prefix c)
  | V6 n, V6 b => Z.shiftr b (128 - cidr_prefix c) =? Z.shiftr n (128 - cidr_prefix c)
  | _, _ => false
  end.

(** ** [server/daemons/ssrf.rs] *)
Module Ssrf.

Definition is_private_ip (addr : IpAddr) : bool :=
  match to_canonical addr with
  | V4 ip =>
      v4_is_loopback ip
      || v4_is_private ip
      || v4_is_link_local ip
      || v4_is_unspecified ip
      || v4_is_broadcast ip
      || v4_is_documentation ip
      || ((octet ip 0 =? 100) && (Z.land (octet ip 1) 0xC0 =? 0x40))
  | V6 ip =>
      let first := segment ip 0 in
      v6_is_loopback ip
      || v6_is_unspecified ip
      || (Z.land first 0xfe00 =? 0xfc00)
      || (Z.land first 0xffc0 =? 0xfe80)
  end.

Inductive DeploymentType := Cloud | Commercial | Community.

#[export] Instance DeploymentType_eq_dec : EqDecision DeploymentType.
Proof. solve_decision. Defined.

Inductive GuardError :=
| InvalidUrl
| NoHost
| CouldNotResolve
| PrivateAddress.

(** The URL parser and the resolver are third-party code: [url_parse] gives the
    host and port of a parsed URL, [lookup_host] the resolved addresses. *)
Section Guard.
Context (url_parse : string → option (option string * option Z)).
Context (lookup_host : string → Z → option (list IpAddr)).

Definition guard_daemon_url (url : string) (deployment_type : DeploymentType)
    : result unit GuardError :=
  if bool_decide (deployment_type ≠ Cloud) then Ok tt
  else
    match url_parse url with
    | None => Err InvalidUrl
    | Some (None, _) => Err NoHost
    | Some (Some host, port) =>
        match lookup_host host (default 80 port) with
        | None => Err CouldNotResolve
        | Some addrs => if existsb is_private_ip addrs then Err PrivateAddress else Ok tt
        end
    end.
End Guard.

(** The ranges the guard is documented to reject, as CIDR blocks. *)
Definition blocked_v4 : list IpCidr :=
  [ {| cidr_addr := ipv4 127 0 0 0; cidr_prefix := 8 |};
    {| cidr_addr := ipv4 10 0 0 0; cidr_prefix := 8 |};
    {| cidr_addr := ipv4 172 16 0 0; cidr_prefix := 12 |};
    {| cidr_addr := ipv4 192 168 0 0; cidr_prefix := 16 |};
    {| cidr_addr := ipv4 169 254 0 0; cidr_prefix := 16 |};
    {| cidr_addr := ipv4 0 0 0 0; cidr_prefix := 32 |};
    {| cidr_addr := ipv4 255 255 255 255; cidr_prefix := 32 |};
    {| cidr_addr := ipv4 192 0 2 0; cidr_prefix := 24 |};
    {| cidr_addr := ipv4 198 51 100 0; cidr_prefix := 24 |};
    {| cidr_addr := ipv4 203 0 113 0; cidr_prefix := 24 |};
    {| cidr_addr := ipv4 100 64 0 0; cidr_prefix := 10 |} ].

Definition blocked_v6 : list IpCidr :=
  [ {| cidr_addr := V6 1; cidr_prefix := 128 |};
    {| cidr_addr := V6 0; cidr_prefix := 128 |};
    {| cidr_addr := V6 (0xfc00 * 2 ^ 112); cidr_prefix := 7 |};
    {| cidr_addr := V6 (0xfe80 * 2 ^ 112); cidr_prefix := 10 |} ].

Definition in_blocked_range (ip : IpAddr) : bool :=
  existsb (λ c, cidr_contains c ip) (blocked_v4 ++ blocked_v6).

End Ssrf.

(** ** Lemmas: masks and shifts as arithmetic *)

Lemma land_ones_mod x n : 0 ≤ n → Z.land x (Z.ones n) = x mod 2 ^ n.
Proof. apply Z.land_ones. Qed.

Lemma octet_div b i : 0 ≤ i ≤ 3 → octet b i = (b / 2 ^ (24 - 8 * i)) mod 256.
Proof.
  intros Hi. unfold octet. change 255 with (Z.ones 8).
  rewrite land_ones_mod by lia. by rewrite Z.shiftr_div_pow2 by lia.
Qed.

Lemma segment_div b i : 0 ≤ i ≤ 7 → segment b i = (b / 2 ^ (112 - 16 * i)) mod 65536.
Proof.
  intros Hi. unfold segment. change 65535 with (Z.ones 16).
  rewrite land_ones_mod by lia. by rewrite Z.shiftr_div_pow2 by lia.
Qed.

(** Masking the high [w - k] bits of a [w]-bit number rounds it down. *)
Lemma land_high_mask x w k :
  0 ≤ k ≤ w → 0 ≤ x < 2 ^ w → Z.land x (Z.shiftl (Z.ones (w - k)) k) = x / 2 ^ k * 2 ^ k.
Proof.
  intros Hk Hx. rewrite <- Z.shiftl_mul_pow2 by lia. rewrite <- Z.shiftr_div_pow2 by lia.
  apply Z.bits_inj'. intros n Hn.
  rewrite Z.land_spec, !Z.shiftl_spec by lia.
  destruct (decide (n < k)) as [Hlt|Hge].
  { rewrite !(Z.testbit_neg_r _ (n - k)) by lia. by rewrite andb_false_r. }
  rewrite Z.shiftr_spec by lia. replace (n - k + k) with n by lia.
  destruct (decide (n < w)) as [Hw|Hw].
  { rewrite Z.ones_spec_low by lia. by rewrite andb_true_r. }
  assert (Z.testbit x n = false) as ->; [|done].
  destruct (decide (x = 0)) as [->|Hx0]; [apply Z.bits_0|].
  apply Z.bits_above_log2; [lia|]. apply Z.log2_lt_pow2; [lia|].
  apply Z.lt_le_trans with (2 ^ w); [lia|]. apply Z.pow_le_mono_r; lia.
Qed.

Lemma mask_fe00 x : 0 ≤ x < 65536 → Z.land x 0xfe00 = x / 512 * 512.
Proof. intros. by apply (land_high_mask x 16 9); lia. Qed.
Lemma mask_ffc0 x : 0 ≤ x < 65536 → Z.land x 0xffc0 = x / 64 * 64.
Proof. intros. by apply (land_high_mask x 16 6); lia. Qed.
Lemma mask_c0 x : 0 ≤ x < 256 → Z.land x 0xC0 = x / 64 * 64.
Proof. intros. by apply (land_high_mask x 8 6); lia. Qed.

(** Evaluate the shifts of numerals. *)
Ltac eval_shifts :=
  repeat match goal with
  | |- context [Z.shiftr ?x ?n] =>
      let v := eval vm_compute in (Z.shiftr x n) in change (Z.shiftr x n) with v
  end.

(** A 32-bit address by its four octets: what each prefix length reads. *)
Lemma v4_octets b :
  0 ≤ b < 2 ^ 32 →
  ∃ a0 a1 a2 a3,
    (0 ≤ a0 < 256 ∧ 0 ≤ a1 < 256 ∧ 0 ≤ a2 < 256 ∧ 0 ≤ a3 < 256)
    ∧ b = a0 * 2 ^ 24 + a1 * 2 ^ 16 + a2 * 2 ^ 8 + a3
    ∧ (octet b 0 = a0 ∧ octet b 1 = a1 ∧ octet b 2 = a2)
    ∧ (Z.shiftr b 24 = a0 ∧ Z.shiftr b 16 = a0 * 256 + a1
       ∧ Z.shiftr b 8 = (a0 * 256 + a1) * 256 + a2
       ∧ Z.shiftr b 20 = a0 * 16 + a1 / 16 ∧ Z.shiftr b 22 = a0 * 4 + a1 / 64).
Proof.
  intros Hb. change (2 ^ 32) with 4294967296 in Hb.
  exists (b / 2 ^ 24), (b / 2 ^ 16 mod 256), (b / 2 ^ 8 mod 256), (b mod 256).
  rewrite !octet_div by lia. rewrite !Z.shiftr_div_pow2 by lia.
  change (2 ^ (24 - 8 * 0)) with 16777216; change (2 ^ (24 - 8 * 1)) with 65536;
  change (2 ^ (24 - 8 * 2)) with 256; change (2 ^ 24) with 16777216;
  change (2 ^ 16) with 65536; change (2 ^ 8) with 256;
  change (2 ^ 20) with 1048576; change (2 ^ 22) with 4194304.
  repeat split; try apply Z.mod_pos_bound; dlia.
Qed.

Lemma eqb_pair x y c d :
  0 ≤ y < 256 → 0 ≤ d < 256 → (x * 256 + y =? c * 256 + d) = (x =? c) && (y =? d).
Proof. intros. apply eq_true_iff_eq. rewrite andb_true_iff, !Z.eqb_eq. lia. Qed.

Lemma eqb_172_16 a0 a1 :
  0 ≤ a1 < 256 →
  (a0 * 16 + a1 / 16 =? 172 * 16 + 1) = (a0 =? 172) && ((16 <=? a1) && (a1 <=? 31)).
Proof.
  intros. apply eq_true_iff_eq. rewrite !andb_true_iff, !Z.eqb_eq, !Z.leb_le. dlia.
Qed.

Lemma eqb_100_64 a0 a1 :
  0 ≤ a1 < 256 → (a0 * 4 + a1 / 64 =? 100 * 4 + 1) = (a0 =? 100) && (a1 / 64 * 64 =? 64).
Proof. intros. apply eq_true_iff_eq. rewrite !andb_true_iff, !Z.eqb_eq. dlia. Qed.

Lemma v4_blocked b :
  0 ≤ b < 2 ^ 32 → Ssrf.is_private_ip (V4 b) = Ssrf.in_blocked_range (V4 b).
Proof.
  intros Hb. destruct (v4_octets b Hb)
    as (a0 & a1 & a2 & a3 & Hr & Heq & (Ho0 & Ho1 & Ho2) & (H24 & H16 & H8 & H20 & H22)).
  unfold Ssrf.is_private_ip, Ssrf.in_blocked_range, v4_is_loopback, v4_is_private,
    v4_is_link_local, v4_is_unspecified, v4_is_broadcast, v4_is_documentation.
  cbn [to_canonical Ssrf.blocked_v4 Ssrf.blocked_v6 app existsb cidr_contains cidr_addr cidr_prefix ipv4].
  rewrite Ho0, Ho1, Ho2, (mask_c0 a1) by lia.
  change (32 - 8) with 24; change (32 - 12) with 20; change (32 - 16) with 16;
  change (32 - 32) with 0; change (32 - 24) with 8; change (32 - 10) with 22.
  rewrite H24, H16, H8, H20, H22, !Z.shiftr_0_r.
  change (Z.ones 32) with 4294967295. eval_shifts.
  change 49320 with (192 * 256 + 168); change 43518 with (169 * 256 + 254);
  change 12582914 with ((192 * 256 + 0) * 256 + 2);
  change 12989284 with ((198 * 256 + 51) * 256 + 100);
  change 13303921 with ((203 * 256 + 0) * 256 + 113);
  change 2753 with (172 * 16 + 1); change 401 with (100 * 4 + 1).
  rewrite (eqb_pair a0 a1 192 168), (eqb_pair a0 a1 169 254) by lia.
  rewrite !(eqb_pair (a0 * 256 + a1) a2) by lia.
  rewrite (eqb_pair a0 a1 192 0), (eqb_pair a0 a1 198 51), (eqb_pair a0 a1 203 0) by lia.
  rewrite (eqb_172_16 a0 a1), (eqb_100_64 a0 a1) by lia.
  by rewrite !orb_assoc, !orb_false_r.
Qed.

Lemma v6_blocked b :
  0 ≤ b < 2 ^ 128 → Z.shiftr b 32 ≠ 65535 →
  Ssrf.is_private_ip (V6 b) = Ssrf.in_blocked_range (V6 b).
Proof.
  intros Hb Hmap. unfold Ssrf.is_private_ip, Ssrf.in_blocked_range. unfold to_canonical.
  destruct (Z.eqb_spec (Z.shiftr b 32) 65535) as [|_]; [done|].
  unfold v6_is_loopback, v6_is_unspecified.
  assert (segment b 0 = b / 2 ^ 112) as Hseg.
  { rewrite segment_div by lia. apply Z.mod_small. split; [apply Z.div_pos; lia|].
    apply Z.div_lt_upper_bound; lia. }
  assert (0 ≤ b / 2 ^ 112 < 65536) as Hs.
  { split; [apply Z.div_pos; lia|]. apply Z.div_lt_upper_bound; lia. }
  rewrite Hseg, mask_fe00, mask_ffc0 by done.
  cbn [Ssrf.blocked_v4 Ssrf.blocked_v6 app existsb cidr_contains cidr_addr cidr_prefix ipv4].
  rewrite !Z.shiftr_div_pow2 by lia.
  change (128 - 128) with 0; change (128 - 7) with 121; change (128 - 10) with 118.
  replace (b / 2 ^ 121) with (b / 2 ^ 112 / 512) by (rewrite Z.div_div by lia; done).
  replace (b / 2 ^ 118) with (b / 2 ^ 112 / 64) by (rewrite Z.div_div by lia; done).
  generalize dependent (b / 2 ^ 112). intros s _ Hs.
  change (0xfc00 * 2 ^ 112 / 2 ^ 121) with 126. change (0xfe80 * 2 ^ 112 / 2 ^ 118) with 1018.
  apply eq_true_iff_eq.
  rewrite !orb_true_iff, !Z.eqb_eq, Z.pow_0_r, !Z.div_1_r. dlia.
Qed.

Lemma private_is_blocked (addr : IpAddr) :
  ip_wf addr → Ssrf.is_private_ip addr = Ssrf.in_blocked_range (to_canonical addr).
Proof.
  intros Hwf.
  destruct addr as [b|b]; simpl in Hwf; [by apply v4_blocked|].
  unfold to_canonical. destruct (Z.eqb_spec (Z.shiftr b 32) 65535) as [Hm|Hm].
  - rewrite <- v4_blocked.
    + unfold Ssrf.is_private_ip, to_canonical. by rewrite (proj2 (Z.eqb_eq _ _) Hm).
    + rewrite land_ones_mod by lia. apply Z.mod_pos_bound. lia.
  - by apply v6_blocked.
Qed.

(** C22. The SSRF classifier decides exactly the documented ranges: an address
    is private iff its canonical form (IPv4-mapped IPv6 read as IPv4) lies in
    one of the blocked CIDR blocks, so every bit mask of the code reads the
    range its comment names. *)
Theorem is_private_ip_ranges (addr : IpAddr) (Hwf : ip_wf addr) :
  Ssrf.is_private_ip addr = Ssrf.in_blocked_range (to_canonical addr).
Proof. by apply private_is_blocked. Qed.

Lemma is_private_ip_ranges_witness :
  Ssrf.is_private_ip (V6 (65535 * 2 ^ 32 + (169 * 2 ^ 24 + 254 * 2 ^ 16 + 169 * 2 ^ 8 + 254)))
  = Ssrf.in_blocked_range (ipv4 169 254 169 254).
Proof. rewrite is_private_ip_ranges; [reflexivity|]. split; vm_compute; congruence. Defined.

(** In a cloud deployment a URL passes the guard only when it parses, has a
    host, the host resolves, and no resolved address is in a blocked range. *)
Theorem guard_cloud_blocks_internal url_parse lookup_host url
    (Hres : ∀ h p addrs, lookup_host h p = Some addrs → Forall ip_wf addrs) :
  Ssrf.guard_daemon_url url_parse lookup_host url Ssrf.Cloud = Ok tt ↔
  ∃ host port addrs,
    url_parse url = Some (Some host, port)
    ∧ lookup_host host (default 80 port) = Some addrs
    ∧ Forall (λ a, Ssrf.in_blocked_range (to_canonical a) = false) addrs.
Proof.
  unfold Ssrf.guard_daemon_url. rewrite bool_decide_eq_false_2 by naive_solver.
  assert (∀ addrs, Forall ip_wf addrs →
    existsb Ssrf.is_private_ip addrs = false ↔
    Forall (λ a, Ssrf.in_blocked_range (to_canonical a) = false) addrs) as Hex.
  { induction 1 as [|a l Ha Hl IH]; simpl; [by split; constructor|].
    rewrite orb_false_iff, IH, (private_is_blocked a Ha), Forall_cons_iff. done. }
  destruct (url_parse url) as [[[host|] port]|] eqn:Hu;
    [|split; [done|by intros (?&?&?&?&?)]..].
  destruct (lookup_host host (default 80 port)) as [addrs|] eqn:Hl.
  - destruct (existsb Ssrf.is_private_ip addrs) eqn:He.
    + split; [done|]. intros (h & p & a & [= -> ->] & Ha & Hf). exfalso.
      assert (addrs = a) as -> by congruence.
      apply Hex in Hf; [congruence|]. by eapply Hres.
    + split; [|done]. intros _. exists host, port, addrs. split_and!; [done..|].
      apply Hex; [by eapply Hres|done].
  - split; [done|]. intros (h & p & a & [= -> ->] & Ha & _). congruence.
Qed.

Lemma guard_cloud_blocks_internal_witness :
  Ssrf.guard_daemon_url (λ _, Some (Some "daemon"%string, None))
    (λ _ _, Some [ipv4 8 8 8 8]) "http://daemon"%string Ssrf.Cloud = Ok tt.
Proof.
  apply guard_cloud_blocks_internal.
  - intros h p addrs [= <-]. repeat constructor; vm_compute; congruence.
  - exists "daemon"%string, None, [ipv4 8 8 8 8]. repeat constructor.
Defined.
