(* ===== verification/Ports.v ===== *)
(** Ports: [server/ports/impl/base.rs].

    [PortType] is a well-known port or a custom number and protocol.  Equality
    and hashing go through [config]; serialization writes number, protocol and
    the variant's name, deserialization ignores the name and looks the number
    and protocol up among the well-known ports. *)

From S2P Require Import Prelude.
Local Open Scope Z_scope.

Inductive TransportProtocol := Udp | Tcp.

#[export] Instance TransportProtocol_eq_dec : EqDecision TransportProtocol.
Proof. solve_decision. Defined.

(** The derived [Ord]: [Udp < Tcp]. *)
Definition protocol_rank (p : TransportProtocol) : Z :=
  match p with Udp => 0 | Tcp => 1 end.

Record PortConfig := { number : Z; protocol : TransportProtocol }.

#[export] Instance PortConfig_eq_dec : EqDecision PortConfig.
Proof. solve_decision. Defined.

Inductive PortType :=
| Ssh | Telnet | DnsUdp | DnsTcp | Samba | Nfs | Ftp | Ipp | LdpTcp | LdpUdp | Ldap
| Ldaps | Kerberos | Snmp | SnmpAlt | Rdp | Ntp | Sip | SipTls | Rtsp | Dhcp | Http
| MySql | PostgreSQL | MongoDB | Redis | MsSql | Docker | DockerTls | Kubernetes | RabbitMqMgmt
| Cassandra | Elasticsearch | InfluxDb | CouchDb | Kafka | Http3000 | Http5000 | Http8080
| Http8081 | Http8082 | Http8888 | Http9000 | Https | Https8443 | Https9443 | Https10443
| Mqtt | MqttTls | AMQP | AMQPTls | Wireguard | OpenVPN | BACnet | JetDirect
| Custom (config : PortConfig).

#[export] Instance PortType_eq_dec : EqDecision PortType.
Proof. solve_decision. Defined.

Definition config (p : PortType) : PortConfig :=
  match p with
  | Ssh => {| number := 22; protocol := Tcp |}
  | Telnet => {| number := 23; protocol := Tcp |}
  | DnsTcp => {| number := 53; protocol := Tcp |}
  | DnsUdp => {| number := 53; protocol := Udp |}
  | Samba => {| number := 445; protocol := Tcp |}
  | Sip => {| number := 5060; protocol := Tcp |}
  | SipTls => {| number := 5061; protocol := Tcp |}
  | Ldap => {| number := 389; protocol := Tcp |}
  | Ldaps => {| number := 636; protocol := Tcp |}
  | Kerberos => {| number := 88; protocol := Tcp |}
  | Nfs => {| number := 2049; protocol := Tcp |}
  | Ftp => {| number := 21; protocol := Tcp |}
  | Ipp => {| number := 631; protocol := Tcp |}
  | LdpTcp => {| number := 515; protocol := Tcp |}
  | LdpUdp => {| number := 515; protocol := Udp |}
  | Snmp => {| number := 161; protocol := Udp |}
  | SnmpAlt => {| number := 1161; protocol := Udp |}
  | Rdp => {| number := 3389; protocol := Tcp |}
  | Ntp => {| number := 123; protocol := Udp |}
  | Rtsp => {| number := 554; protocol := Tcp |}
  | Dhcp => {| number := 67; protocol := Udp |}
  | Http => {| number := 80; protocol := Tcp |}
  | Http8080 => {| number := 8080; protocol := Tcp |}
  | Https => {| number := 443; protocol := Tcp |}
  | Https8443 => {| number := 8443; protocol := Tcp |}
  | MySql => {| number := 3306; protocol := Tcp |}
  | PostgreSQL => {| number := 5432; protocol := Tcp |}
  | MongoDB => {| number := 27017; protocol := Tcp |}
  | Redis => {| number := 6379; protocol := Tcp |}
  | MsSql => {| number := 1433; protocol := Tcp |}
  | Docker => {| number := 2375; protocol := Tcp |}
  | DockerTls => {| number := 2376; protocol := Tcp |}
  | Kubernetes => {| number := 6443; protocol := Tcp |}
  | RabbitMqMgmt => {| number := 15672; protocol := Tcp |}
  | Kafka => {| number := 9092; protocol := Tcp |}
  | Http3000 => {| number := 3000; protocol := Tcp |}
  | Http5000 => {| number := 5000; protocol := Tcp |}
  | Http8081 => {| number := 8081; protocol := Tcp |}
  | Http8082 => {| number := 8082; protocol := Tcp |}
  | Http8888 => {| number := 8888; protocol := Tcp |}
  | Http9000 => {| number := 9000; protocol := Tcp |}
  | Https9443 => {| number := 9443; protocol := Tcp |}
  | Https10443 => {| number := 10443; protocol := Tcp |}
  | Cassandra => {| number := 9042; protocol := Tcp |}
  | Elasticsearch => {| number := 9200; protocol := Tcp |}
  | InfluxDb => {| number := 8086; protocol := Tcp |}
  | CouchDb => {| number := 5984; protocol := Tcp |}
  | Mqtt => {| number := 1883; protocol := Tcp |}
  | MqttTls => {| number := 8883; protocol := Tcp |}
  | AMQP => {| number := 5672; protocol := Tcp |}
  | AMQPTls => {| number := 5671; protocol := Tcp |}
  | Wireguard => {| number := 51820; protocol := Udp |}
  | OpenVPN => {| number := 1194; protocol := Udp |}
  | BACnet => {| number := 47808; protocol := Udp |}
  | JetDirect => {| number := 9100; protocol := Tcp |}
  | Custom c => c
  end.

Definition port_number (p : PortType) : Z := number (config p).
Definition port_protocol (p : PortType) : TransportProtocol := protocol (config p).

(** [impl PartialEq for PortType]: equality of configurations. *)
Definition port_eqb (p q : PortType) : bool :=
  (number (config p) =? number (config q))
  && bool_decide (protocol (config p) = protocol (config q)).

(** [impl Hash for PortType]: the values fed to the hasher. *)
Definition port_hash_input (p : PortType) : Z * TransportProtocol :=
  (number (config p), protocol (config p)).

(** [PortType::new], [new_tcp], [new_udp]. *)
Definition port_new (n : Z) (proto : TransportProtocol) : PortType :=
  Custom {| number := n; protocol := proto |}.
Definition new_tcp (n : Z) : PortType := Custom {| number := n; protocol := Tcp |}.
Definition new_udp (n : Z) : PortType := Custom {| number := n; protocol := Udp |}.

Definition is_tcp (p : PortType) : bool := bool_decide (port_protocol p = Tcp).
Definition is_udp (p : PortType) : bool := bool_decide (port_protocol p = Udp).
Definition is_custom (p : PortType) : bool :=
  match p with Custom _ => true | _ => false end.
Definition is_https (p : PortType) : bool :=
  match p with Https | Https10443 | Https8443 | Https9443 => true | _ => false end.
Definition is_raw_socket (p : PortType) : bool :=
  (9100 <=? port_number p) && (port_number p <=? 9107).

(** Order used by every [sort_by_key(|p| (p.number(), p.protocol()))]. *)
Definition port_leb (p q : PortType) : bool :=
  (port_number p <? port_number q)
  || ((port_number p =? port_number q)
      && (protocol_rank (port_protocol p) <=? protocol_rank (port_protocol q))).

Definition sort_dedup_ports (l : list PortType) : list PortType :=
  dedup port_eqb (sort_by port_leb l).

Definition port_type_id (p : PortType) : string :=
  match p with
  | Ssh => "Ssh"%string
  | Telnet => "Telnet"%string
  | DnsUdp => "DnsUdp"%string
  | DnsTcp => "DnsTcp"%string
  | Samba => "Samba"%string
  | Nfs => "Nfs"%string
  | Ftp => "Ftp"%string
  | Ipp => "Ipp"%string
  | LdpTcp => "LdpTcp"%string
  | LdpUdp => "LdpUdp"%string
  | Ldap => "Ldap"%string
  | Ldaps => "Ldaps"%string
  | Kerberos => "Kerberos"%string
  | Snmp => "Snmp"%string
  | SnmpAlt => "SnmpAlt"%string
  | Rdp => "Rdp"%string
  | Ntp => "Ntp"%string
  | Sip => "Sip"%string
  | SipTls => "SipTls"%string
  | Rtsp => "Rtsp"%string
  | Dhcp => "Dhcp"%string
  | Http => "Http"%string
  | MySql => "MySql"%string
  | PostgreSQL => "PostgreSQL"%string
  | MongoDB => "MongoDB"%string
  | Redis => "Redis"%string
  | MsSql => "MsSql"%string
  | Docker => "Docker"%string
  | DockerTls => "DockerTls"%string
  | Kubernetes => "Kubernetes"%string
  | RabbitMqMgmt => "RabbitMqMgmt"%string
  | Cassandra => "Cassandra"%string
  | Elasticsearch => "Elasticsearch"%string
  | InfluxDb => "InfluxDb"%string
  | CouchDb => "CouchDb"%string
  | Kafka => "Kafka"%string
  | Http3000 => "Http3000"%string
  | Http5000 => "Http5000"%string
  | Http8080 => "Http8080"%string
  | Http8081 => "Http8081"%string
  | Http8082 => "Http8082"%string
  | Http8888 => "Http8888"%string
  | Http9000 => "Http9000"%string
  | Https => "Https"%string
  | Https8443 => "Https8443"%string
  | Https9443 => "Https9443"%string
  | Https10443 => "Https10443"%string
  | Mqtt => "Mqtt"%string
  | MqttTls => "MqttTls"%string
  | AMQP => "AMQP"%string
  | AMQPTls => "AMQPTls"%string
  | Wireguard => "Wireguard"%string
  | OpenVPN => "OpenVPN"%string
  | BACnet => "BACnet"%string
  | JetDirect => "JetDirect"%string
  | Custom _ => "Custom"%string
  end.

(** The well-known variants, in the declaration order [EnumIter] follows. *)
Definition predefined : list PortType :=
  [Ssh; Telnet; DnsUdp; DnsTcp; Samba; Nfs; Ftp; Ipp;
   LdpTcp; LdpUdp; Ldap; Ldaps; Kerberos; Snmp; SnmpAlt; Rdp;
   Ntp; Sip; SipTls; Rtsp; Dhcp; Http; MySql; PostgreSQL;
   MongoDB; Redis; MsSql; Docker; DockerTls; Kubernetes; RabbitMqMgmt; Cassandra;
   Elasticsearch; InfluxDb; CouchDb; Kafka; Http3000; Http5000; Http8080; Http8081;
   Http8082; Http8888; Http9000; Https; Https8443; Https9443; Https10443; Mqtt;
   MqttTls; AMQP; AMQPTls; Wireguard; OpenVPN; BACnet; JetDirect].

(** [impl Serialize for PortType] and [TempPortType]. *)
Record PortJson := { json_number : Z; json_protocol : TransportProtocol; json_type : string }.

Definition serialize_port (p : PortType) : PortJson :=
  {| json_number := number (config p);
     json_protocol := protocol (config p);
     json_type := port_type_id p |}.

(** [PortType::iter]: the variants in order, [Custom] with its default
    configuration last. *)
Definition port_type_iter : list PortType :=
  predefined ++ [Custom {| number := 0; protocol := Udp |}].

Definition deserialize_port (j : PortJson) : PortType :=
  default (Custom {| number := json_number j; protocol := json_protocol j |})
    (List.find
       (λ v, if is_custom v then false
             else (number (config v) =? json_number j)
                  && bool_decide (protocol (config v) = json_protocol j))
       port_type_iter).

(** ** Equality, order, hashing *)

Lemma port_eqb_config p q : port_eqb p q = true ↔ config p = config q.
Proof.
  unfold port_eqb. destruct (config p) as [n1 t1], (config q) as [n2 t2]; simpl.
  rewrite andb_true_iff, Z.eqb_eq, bool_decide_eq_true. naive_solver.
Qed.

Lemma port_eqb_refl p : port_eqb p p = true.
Proof. by apply port_eqb_config. Qed.

Lemma port_eqb_hash p q : port_eqb p q = true ↔ port_hash_input p = port_hash_input q.
Proof.
  rewrite port_eqb_config. unfold port_hash_input.
  destruct (config p), (config q); simpl. naive_solver.
Qed.

Lemma port_leb_total p q : port_leb p q = true ∨ port_leb q p = true.
Proof.
  unfold port_leb. rewrite !orb_true_iff, !andb_true_iff, !Z.ltb_lt, !Z.eqb_eq, !Z.leb_le. lia.
Qed.

Lemma port_leb_trans p q r : port_leb p q = true → port_leb q r = true → port_leb p r = true.
Proof.
  unfold port_leb. rewrite !orb_true_iff, !andb_true_iff, !Z.ltb_lt, !Z.eqb_eq, !Z.leb_le. lia.
Qed.

Lemma port_leb_antisym p q : port_leb p q = true → port_leb q p = true → config p = config q.
Proof.
  unfold port_leb, port_number, port_protocol, protocol_rank.
  destruct (config p) as [n1 []], (config q) as [n2 []]; simpl;
    rewrite !orb_true_iff, !andb_true_iff, !Z.ltb_lt, !Z.eqb_eq, !Z.leb_le; intros;
    f_equal; lia.
Qed.

(** [sort_by_key] then [dedup] keeps one representative of each open port, in
    strictly increasing order. *)
Definition port_ltb (p q : PortType) : bool := port_leb p q && negb (port_eqb p q).

Lemma dedup_from_sorted last l :
  StronglySorted (λ a b, port_leb a b = true) (last :: l) →
  StronglySorted (λ a b, port_ltb a b = true) (dedup_from port_eqb last l).
Proof.
  revert last. induction l as [|y l IH]; intros last Hs; simpl; [by repeat constructor|].
  inversion Hs as [|? ? Hs' Hall]; subst. inversion Hs' as [|? ? Hs'' Hally]; subst.
  inversion Hall as [|? ? Hly Hall']; subst.
  destruct (port_eqb y last) eqn:E.
  - apply IH. by constructor.
  - constructor; [by apply IH|]. apply Forall_forall. intros x Hx%list_elem_of_In%dedup_from_subset.
    unfold port_ltb. apply andb_true_iff.
    assert (port_leb y x = true) as Hyx.
    { apply elem_of_cons in Hx as [->|Hx]; [by destruct (port_leb_total y y)|].
      rewrite Forall_forall in Hally. apply Hally. by apply list_elem_of_In. }
    split; [by eapply port_leb_trans|]. apply negb_true_iff, not_true_iff_false.
    intros Heq%port_eqb_config.
    assert (port_leb y last = true) as Hyl.
    { unfold port_leb, port_number, port_protocol in *. by rewrite Heq. }
    assert (config y = config last) as Hc by by apply port_leb_antisym.
    apply not_true_iff_false in E. apply E. by apply port_eqb_config.
Qed.

(** The ports collected by a composite match are returned sorted by
    (number, protocol) without duplicates, and as a set of ports they are
    exactly the collected ones: sorting then deduplicating loses no port and
    invents none. *)
Theorem sort_dedup_ports_spec (l : list PortType) :
  StronglySorted (λ a b, port_ltb a b = true) (sort_dedup_ports l)
  ∧ (∀ p, p ∈ sort_dedup_ports l → p ∈ l)
  ∧ (∀ p, p ∈ l → ∃ q, q ∈ sort_dedup_ports l ∧ port_eqb p q = true).
Proof.
  unfold sort_dedup_ports. split_and!.
  - pose proof (sort_by_sorted port_leb port_leb_total port_leb_trans l) as Hs.
    destruct (sort_by port_leb l) as [|x s]; [constructor|]. by apply dedup_from_sorted.
  - intros p Hp%dedup_subset. by rewrite sort_by_perm in Hp.
  - intros p Hp. apply dedup_covers; [apply port_eqb_refl|]. by rewrite sort_by_perm.
Qed.

(** ** Serialization *)

Definition no_shadow (l : list PortType) : bool :=
  forallb (λ p, forallb (λ q, bool_decide (p = q) || negb (port_eqb p q)) l) l.

(** No two well-known variants share number and protocol. *)
Lemma predefined_no_shadow : no_shadow predefined = true.
Proof. vm_compute. reflexivity. Qed.

Lemma predefined_unique p q : p ∈ predefined → q ∈ predefined → port_eqb p q = true → p = q.
Proof.
  intros Hp Hq Heq. pose proof predefined_no_shadow as H. unfold no_shadow in H.
  rewrite forallb_forall in H. specialize (H p). rewrite forallb_forall in H.
  specialize (H (proj1 (list_elem_of_In _ _) Hp) q (proj1 (list_elem_of_In _ _) Hq)).
  rewrite Heq, orb_false_r in H. by apply bool_decide_eq_true in H.
Qed.

Lemma predefined_complete p : is_custom p = false → p ∈ predefined.
Proof.
  destruct p; try discriminate; intros _;
    apply (bool_decide_eq_true_1 (_ ∈ predefined)); vm_compute; reflexivity.
Qed.

Lemma deserialize_port_config j :
  config (deserialize_port j) = {| number := json_number j; protocol := json_protocol j |}.
Proof.
  unfold deserialize_port. destruct (List.find _ _) as [v|] eqn:Hf; simpl; [|done].
  apply List.find_some in Hf as [_ Hv]. destruct (is_custom v); [done|]. bool_hyps.
  destruct (config v); simpl in *. congruence.
Qed.

Lemma deserialize_port_known j p :
  is_custom p = false →
  config p = {| number := json_number j; protocol := json_protocol j |} →
  deserialize_port j = p.
Proof.
  intros Hc Hcfg. unfold deserialize_port. destruct (List.find _ _) as [v|] eqn:Hf; simpl.
  - apply List.find_some in Hf as [Hin Hv].
    destruct (is_custom v) eqn:Hcv; [done|]. bool_hyps.
    apply predefined_unique; [by apply predefined_complete..|].
    apply port_eqb_config. rewrite Hcfg. destruct (config v); simpl in *. congruence.
  - exfalso. assert (In p port_type_iter) as Hin.
    { apply list_elem_of_In. unfold port_type_iter. apply elem_of_app. left.
      by apply predefined_complete. }
    pose proof (List.find_none _ _ Hf p Hin) as Hp. cbv beta in Hp.
    rewrite Hc, Hcfg in Hp. simpl in Hp.
    rewrite Z.eqb_refl, bool_decide_eq_true_2 in Hp; done.
Qed.

(** Port serialization round trip: deserializing a serialized port yields an
    equal port (same number and protocol); a well-known port comes back as the
    very same variant, and a custom port comes back as the well-known variant of
    its number and protocol when there is one, as itself otherwise. *)
Theorem port_serde_roundtrip (p : PortType) :
  port_eqb (deserialize_port (serialize_port p)) p = true
  ∧ (is_custom p = false → deserialize_port (serialize_port p) = p)
  ∧ (∀ q, is_custom q = false → port_eqb q p = true → deserialize_port (serialize_port p) = q)
  ∧ (is_custom p = true → (∀ q, is_custom q = false → port_eqb q p = false) →
     deserialize_port (serialize_port p) = p).
Proof.
  split_and!.
  - apply port_eqb_config. rewrite deserialize_port_config. simpl. by destruct (config p).
  - intros Hc. apply deserialize_port_known; [done|]. simpl. by destruct (config p).
  - intros q Hq Heq%port_eqb_config. apply deserialize_port_known; [done|].
    rewrite Heq. simpl. by destruct (config p).
  - intros Hc Hno. unfold deserialize_port. destruct (List.find _ _) as [v|] eqn:Hf; simpl.
    + apply List.find_some in Hf as [_ Hv]. destruct (is_custom v) eqn:Hcv; [done|]. bool_hyps.
      specialize (Hno v Hcv). apply not_true_iff_false in Hno. destruct Hno.
      apply port_eqb_config. simpl in *. destruct (config v), (config p); simpl in *. congruence.
    + destruct p; try discriminate. simpl. by match goal with c : PortConfig |- _ => destruct c end.
Qed.
