(* ===== verification/Discovery.v ===== *)
(** Discovery data model.

    The phases of a discovery session ([daemon/discovery/types/base.rs]), the
    discovery and run types ([server/discovery/impl/types.rs],
    [scan_settings.rs]), the discovery entity ([server/discovery/impl/base.rs])
    and the session payload exchanged with daemons
    ([server/daemons/impl/api.rs]). *)

From S2P Require Import Prelude Net Ports.
Local Open Scope Z_scope.

(** ** Phases *)

Inductive DiscoveryPhase :=
| AwaitingSnapshot
| Queued
| Pending
| Starting
| Started
| Scanning
| Complete
| Failed
| Cancelled.

#[export] Instance DiscoveryPhase_eq_dec : EqDecision DiscoveryPhase.
Proof. solve_decision. Defined.

Definition is_terminal (p : DiscoveryPhase) : bool :=
  match p with Complete | Cancelled | Failed => true | _ => false end.

Definition can_be_cleaned_up (p : DiscoveryPhase) : bool :=
  match p with Pending | Starting | Started | Scanning => true | _ => false end.

(** ** Scan settings *)

Record ScanSettings := {
  arp_retries : option Z;
  arp_rate_pps : option Z;
  scan_rate_pps : option Z;
  port_scan_batch_size : option Z;
  probe_raw_socket_ports : bool;
  use_npcap_arp : bool;
  full_scan_interval : option Z;
  is_full_scan : bool;
  arp_scan_cutoff : option Z;
  max_discovery_duration : option Z
}.

Definition default_full_scan_interval : Z := 3.

Definition default_scan_settings : ScanSettings := {|
  arp_retries := None; arp_rate_pps := None; scan_rate_pps := None;
  port_scan_batch_size := None; probe_raw_socket_ports := false;
  use_npcap_arp := false; full_scan_interval := None; is_full_scan := false;
  arp_scan_cutoff := None; max_discovery_duration := None |}.

Definition set_is_full_scan (b : bool) (s : ScanSettings) : ScanSettings := {|
  arp_retries := arp_retries s; arp_rate_pps := arp_rate_pps s;
  scan_rate_pps := scan_rate_pps s; port_scan_batch_size := port_scan_batch_size s;
  probe_raw_socket_ports := probe_raw_socket_ports s;
  use_npcap_arp := use_npcap_arp s; full_scan_interval := full_scan_interval s;
  is_full_scan := b;
  arp_scan_cutoff := arp_scan_cutoff s; max_discovery_duration := max_discovery_duration s |}.

Record RescanSettings := {
  r_arp_retries : option Z;
  r_scan_rate_pps : option Z;
  r_port_scan_batch_size : option Z;
  r_probe_raw_socket_ports : bool;
  r_use_npcap_arp : bool
}.

(** [impl From<&ScanSettings> for RescanSettings] and back. *)
Definition rescan_of_scan (s : ScanSettings) : RescanSettings := {|
  r_arp_retries := arp_retries s;
  r_scan_rate_pps := scan_rate_pps s;
  r_port_scan_batch_size := port_scan_batch_size s;
  r_probe_raw_socket_ports := probe_raw_socket_ports s;
  r_use_npcap_arp := use_npcap_arp s |}.

Definition scan_of_rescan (r : RescanSettings) : ScanSettings := {|
  arp_retries := r_arp_retries r; arp_rate_pps := None;
  scan_rate_pps := r_scan_rate_pps r; port_scan_batch_size := r_port_scan_batch_size r;
  probe_raw_socket_ports := r_probe_raw_socket_ports r;
  use_npcap_arp := r_use_npcap_arp r; full_scan_interval := None; is_full_scan := false;
  arp_scan_cutoff := None; max_discovery_duration := None |}.

(** ** SNMP credentials carried by the legacy [Network] type *)

Inductive SnmpVersion := SnmpV1 | SnmpV2c | SnmpV3.
Inductive SecretValue := Inline (value : string) | FilePath (path : string).
Inductive SnmpV3AuthProtocol := Sha1 | Sha256.
Inductive SnmpV3PrivProtocol := Aes128 | Aes256.

Record SnmpV3Params := {
  security_name : string;
  auth_protocol : SnmpV3AuthProtocol;
  auth_password : SecretValue;
  priv_protocol : SnmpV3PrivProtocol;
  priv_password : SecretValue;
  context_name : option string
}.

Record SnmpQueryCredential := {
  snmp_version : SnmpVersion;
  community : SecretValue;
  v3 : option SnmpV3Params
}.

Record IpOverride (T : Type) := { ov_ip : IpAddr; ov_credential : T; ov_credential_id : Uuid }.
Record CredentialMapping (T : Type) := {
  default_credential : option T;
  ip_overrides : list (IpOverride T)
}.
Arguments default_credential {T}.
Arguments ip_overrides {T}.
Definition SnmpCredentialMapping : Type := CredentialMapping SnmpQueryCredential.
Definition no_snmp_credentials : SnmpCredentialMapping :=
  {| default_credential := None; ip_overrides := [] |}.

(** ** Discovery types and run types *)

Inductive HostNamingFallback := Ip | BestService.

Inductive DiscoveryType :=
| SelfReport (host_id : Uuid)
| Network (subnet_ids : option (list Uuid)) (host_naming_fallback : HostNamingFallback)
    (snmp_credentials : SnmpCredentialMapping)
| DockerDiscovery (host_id : Uuid) (host_naming_fallback : HostNamingFallback)
| Rescan (host_id target_host_id : Uuid) (ips : list IpAddr) (ports : list PortType)
    (settings : RescanSettings)
| Unified (host_id : Uuid) (subnet_ids : option (list Uuid))
    (host_naming_fallback : HostNamingFallback) (scan_settings : ScanSettings).

Definition is_legacy (t : DiscoveryType) : bool :=
  match t with SelfReport _ | Network _ _ _ | DockerDiscovery _ _ => true | _ => false end.

Definition rescan_target_host_id (t : DiscoveryType) : option Uuid :=
  match t with Rescan _ target _ _ _ => Some target | _ => None end.

Definition runs_network_scan (t : DiscoveryType) : bool :=
  match t with Unified _ _ _ _ | Rescan _ _ _ _ _ => true | _ => false end.

(** ** Payloads *)

Record ScannedEntityIds := {
  host_ids : list Uuid;
  subnet_ids : list Uuid;
  vlan_ids : list Uuid;
  ip_address_ids : list Uuid;
  port_ids : list Uuid;
  service_ids : list Uuid;
  interface_ids : list Uuid;
  binding_ids : list Uuid
}.

Record DiscoveryUpdatePayload := {
  session_id : Uuid;
  daemon_id : Uuid;
  network_id : Uuid;
  phase : DiscoveryPhase;
  discovery_type : DiscoveryType;
  progress : Z;
  error : option string;
  warnings : list string;
  started_at : option DateTime;
  finished_at : option DateTime;
  hosts_discovered : option Z;
  estimated_remaining_secs : option Z;
  discovery_id : option Uuid;
  scanned : option ScannedEntityIds
}.

(** [DiscoveryUpdatePayload::new]. *)
Definition new_payload (sid did nid : Uuid) (ty : DiscoveryType) (disc : option Uuid)
    : DiscoveryUpdatePayload := {|
  session_id := sid; daemon_id := did; network_id := nid;
  phase := Queued; discovery_type := ty; progress := 0;
  error := None; warnings := []; started_at := None; finished_at := None;
  hosts_discovered := None; estimated_remaining_secs := None;
  discovery_id := disc; scanned := None |}.

Definition set_phase (p : DiscoveryPhase) (s : DiscoveryUpdatePayload) : DiscoveryUpdatePayload := {|
  session_id := session_id s; daemon_id := daemon_id s; network_id := network_id s;
  phase := p; discovery_type := discovery_type s; progress := progress s;
  error := error s; warnings := warnings s; started_at := started_at s;
  finished_at := finished_at s; hosts_discovered := hosts_discovered s;
  estimated_remaining_secs := estimated_remaining_secs s;
  discovery_id := discovery_id s; scanned := scanned s |}.

Definition set_discovery_id (d : option Uuid) (s : DiscoveryUpdatePayload) : DiscoveryUpdatePayload := {|
  session_id := session_id s; daemon_id := daemon_id s; network_id := network_id s;
  phase := phase s; discovery_type := discovery_type s; progress := progress s;
  error := error s; warnings := warnings s; started_at := started_at s;
  finished_at := finished_at s; hosts_discovered := hosts_discovered s;
  estimated_remaining_secs := estimated_remaining_secs s;
  discovery_id := d; scanned := scanned s |}.

Definition set_discovery_type (t : DiscoveryType) (s : DiscoveryUpdatePayload) : DiscoveryUpdatePayload := {|
  session_id := session_id s; daemon_id := daemon_id s; network_id := network_id s;
  phase := phase s; discovery_type := t; progress := progress s;
  error := error s; warnings := warnings s; started_at := started_at s;
  finished_at := finished_at s; hosts_discovered := hosts_discovered s;
  estimated_remaining_secs := estimated_remaining_secs s;
  discovery_id := discovery_id s; scanned := scanned s |}.

(** The state a stalled session is recorded with: failed, with the stall error. *)
Definition set_failed (msg : string) (at_ : DateTime) (s : DiscoveryUpdatePayload)
    : DiscoveryUpdatePayload := {|
  session_id := session_id s; daemon_id := daemon_id s; network_id := network_id s;
  phase := Failed; discovery_type := discovery_type s; progress := progress s;
  error := Some msg; warnings := warnings s; started_at := started_at s;
  finished_at := Some at_; hosts_discovered := hosts_discovered s;
  estimated_remaining_secs := estimated_remaining_secs s;
  discovery_id := discovery_id s; scanned := scanned s |}.

Inductive RunType :=
| Scheduled (cron_schedule : string) (last_run : option DateTime) (enabled : bool)
    (timezone : option string)
| Historical (results : DiscoveryUpdatePayload)
| AdHoc (last_run : option DateTime).

Definition last_run (r : RunType) : option DateTime :=
  match r with
  | Scheduled _ l _ _ | AdHoc l => l
  | Historical _ => None
  end.

Definition set_last_run (at_ : DateTime) (r : RunType) : RunType :=
  match r with
  | Scheduled c _ e t => Scheduled c (Some at_) e t
  | AdHoc _ => AdHoc (Some at_)
  | Historical p => Historical p
  end.

Definition never_ran (r : RunType) : bool :=
  match r with
  | Scheduled _ l _ _ | AdHoc l => match l with None => true | Some _ => false end
  | Historical _ => false
  end.

Definition is_scheduled_enabled (r : RunType) : bool :=
  match r with Scheduled _ _ e _ => e | _ => false end.

Definition is_server_managed (r : RunType) : bool :=
  match r with Historical _ => true | _ => false end.

(** ** The discovery entity *)

Inductive IntegrationTarget :=
| TargetDaemonHost (credential_id : Uuid)
| TargetNetwork (credential_id : Uuid)
| TargetHosts (credential_id : Uuid) (ips : list IpAddr).

Record Discovery := {
  d_id : Uuid;
  d_created_at : DateTime;
  d_updated_at : DateTime;
  d_discovery_type : DiscoveryType;
  d_run_type : RunType;
  d_name : string;
  d_daemon_id : Uuid;
  d_network_id : Uuid;
  d_tags : list Uuid;
  scan_count : Z;
  force_full_scan : bool;
  integration_targets : list IntegrationTarget
}.

Definition set_run_type (r : RunType) (upd : DateTime) (d : Discovery) : Discovery := {|
  d_id := d_id d; d_created_at := d_created_at d; d_updated_at := upd;
  d_discovery_type := d_discovery_type d; d_run_type := r; d_name := d_name d;
  d_daemon_id := d_daemon_id d; d_network_id := d_network_id d; d_tags := d_tags d;
  scan_count := scan_count d; force_full_scan := force_full_scan d;
  integration_targets := integration_targets d |}.

Definition set_scan_state (n : Z) (force : bool) (ts : list IntegrationTarget) (upd : DateTime)
    (d : Discovery) : Discovery := {|
  d_id := d_id d; d_created_at := d_created_at d; d_updated_at := upd;
  d_discovery_type := d_discovery_type d; d_run_type := d_run_type d; d_name := d_name d;
  d_daemon_id := d_daemon_id d; d_network_id := d_network_id d; d_tags := d_tags d;
  scan_count := n; force_full_scan := force; integration_targets := ts |}.

(** [Discovery::take_network_scope_credential_ids]: the broadcast credentials
    and the entity without them. *)
Definition take_network_scope_credential_ids (d : Discovery) : list Uuid * Discovery :=
  (omap (λ t, match t with TargetNetwork c => Some c | _ => None end) (integration_targets d),
   set_scan_state (scan_count d) (force_full_scan d)
     (List.filter (λ t, match t with TargetNetwork _ => false | _ => true end)
        (integration_targets d))
     (d_updated_at d) d).

(** [Discovery::apply_successful_scan]; [scan_count] is a [u32]. *)
Definition apply_successful_scan (d : Discovery) : Discovery :=
  set_scan_state (wrap 32 (scan_count d + 1)) false [] (d_updated_at d) d.

(** [Discovery::disable]. *)
Definition disable (d : Discovery) : Discovery :=
  match d_run_type d with
  | Scheduled c l _ t => set_run_type (Scheduled c l false t) (d_updated_at d) d
  | _ => d
  end.

(** The full-scan decision of [start_session]. *)
Definition full_scan_due (force : bool) (interval count : Z) : bool :=
  force
  || (negb (interval =? 0)
      && ((interval =? 1) || (count =? 1) || ((1 <? count) && (count `mod` interval =? 0)))).

(** [start_session] computes the flag on a [Unified] type only. *)
Definition mark_full_scan (d : Discovery) (t : DiscoveryType) : DiscoveryType :=
  match t with
  | Unified h subs fb st =>
      let interval := default default_full_scan_interval (full_scan_interval st) in
      Unified h subs fb
        (set_is_full_scan (full_scan_due (force_full_scan d) interval (scan_count d)) st)
  | _ => t
  end.

(** ** Properties of the data model *)

(** The full-scan schedule: with interval [n >= 1] every window of [n]
    consecutive scans after the first contains a full scan, interval 1 makes
    every scan full, interval 0 none unless forced, and a forced scan is always
    full. *)
Theorem full_scan_schedule (n k : Z) (Hn : 1 ≤ n) (Hk : 1 ≤ k) :
  (∃ j, k ≤ j < k + n ∧ full_scan_due false n j = true)
  ∧ full_scan_due false 1 k = true
  ∧ full_scan_due false 0 k = false
  ∧ full_scan_due true n k = true.
Proof.
  split_and!; [|by unfold full_scan_due|by unfold full_scan_due|done].
  assert (∀ j, full_scan_due false n j
    = ((n =? 1) || (j =? 1) || ((1 <? j) && (j `mod` n =? 0)))) as Hdue.
  { intros j. unfold full_scan_due. by rewrite (proj2 (Z.eqb_neq n 0)) by lia. }
  destruct (decide (k = 1)) as [->|Hk1].
  { exists 1. split; [lia|]. rewrite Hdue. by rewrite orb_true_r. }
  exists (n * ((k + n - 1) / n)). rewrite Hdue.
  pose proof (Z.div_mod (k + n - 1) n ltac:(lia)).
  pose proof (Z.mod_pos_bound (k + n - 1) n ltac:(lia)).
  split; [lia|].
  rewrite (Z.mul_comm n), Z_mod_mult, Z.eqb_refl, andb_true_r.
  rewrite (proj2 (Z.ltb_lt 1 _)) by lia. by rewrite orb_true_r.
Qed.

Lemma full_scan_schedule_witness :
  ∃ j, 4 ≤ j < 4 + 3 ∧ full_scan_due false 3 j = true.
Proof. apply (full_scan_schedule 3 4); lia. Defined.

(** A rescan never carries the full-scan mechanism: widening its settings
    back for the scan pipeline gives a light scan with no interval, and the
    conversion loses none of the settings a rescan may carry. *)
Theorem rescan_settings_roundtrip (s : ScanSettings) (r : RescanSettings) :
  rescan_of_scan (scan_of_rescan r) = r
  ∧ is_full_scan (scan_of_rescan (rescan_of_scan s)) = false
  ∧ full_scan_interval (scan_of_rescan (rescan_of_scan s)) = None
  ∧ rescan_of_scan (scan_of_rescan (rescan_of_scan s)) = rescan_of_scan s.
Proof. by destruct r, s. Qed.
