(* ===== verification/Sessions.v ===== *)
(** The discovery session manager: [server/discovery/service/*.rs].

    [DiscoveryService] keeps, per backend process, the live sessions, one queue
    of sessions per daemon, the session of each discovery, the cancellations to
    hand to polling daemons, the networks being snapshotted and the time each
    session was last heard of.  Every operation is a function of the state and
    of an [Env] holding what the operation reads from outside: the clock, fresh
    identifiers, and the outcome of each fallible call.  [update_tx] and
    [bus_events] record what was broadcast and published, in order. *)

From S2P Require Import Prelude Net Ports Discovery.
Local Open Scope Z_scope.

(** [DiscoveryUpdatePayload::into_discovery_event]. *)
Record DiscoveryEvent := {
  ev_network_id : Uuid;
  ev_session_id : Uuid;
  ev_daemon_id : Uuid;
  ev_discovery_type : DiscoveryType;
  ev_error_reason : option string;
  ev_phase : DiscoveryPhase
}.

Definition into_discovery_event (p : DiscoveryUpdatePayload) : DiscoveryEvent := {|
  ev_network_id := network_id p; ev_session_id := session_id p;
  ev_daemon_id := daemon_id p; ev_discovery_type := discovery_type p;
  ev_error_reason := error p; ev_phase := phase p |}.

Inductive BusEvent :=
| PhaseEvent (e : DiscoveryEvent)
| HistoricalCreated (d : Discovery)
| FirstDiscoveryCompleted (organization_id : Uuid) (t : DiscoveryType).

Record DiscoveryService := {
  sessions : gmap Uuid DiscoveryUpdatePayload;
  daemon_sessions : gmap Uuid (list Uuid);
  discovery_sessions : gmap Uuid Uuid;
  daemon_pull_cancellations : gmap Uuid (bool * Uuid);
  running_snapshots : gset Uuid;
  session_last_updated : gmap Uuid DateTime;
  discovery_storage : gmap Uuid Discovery;
  update_tx : list DiscoveryUpdatePayload;
  bus_events : list BusEvent
}.

Definition with_sessions f st := {|
  sessions := f (sessions st); daemon_sessions := daemon_sessions st;
  discovery_sessions := discovery_sessions st;
  daemon_pull_cancellations := daemon_pull_cancellations st;
  running_snapshots := running_snapshots st; session_last_updated := session_last_updated st;
  discovery_storage := discovery_storage st; update_tx := update_tx st; bus_events := bus_events st |}.
Definition with_daemon_sessions f st := {|
  sessions := sessions st; daemon_sessions := f (daemon_sessions st);
  discovery_sessions := discovery_sessions st;
  daemon_pull_cancellations := daemon_pull_cancellations st;
  running_snapshots := running_snapshots st; session_last_updated := session_last_updated st;
  discovery_storage := discovery_storage st; update_tx := update_tx st; bus_events := bus_events st |}.
Definition with_discovery_sessions f st := {|
  sessions := sessions st; daemon_sessions := daemon_sessions st;
  discovery_sessions := f (discovery_sessions st);
  daemon_pull_cancellations := daemon_pull_cancellations st;
  running_snapshots := running_snapshots st; session_last_updated := session_last_updated st;
  discovery_storage := discovery_storage st; update_tx := update_tx st; bus_events := bus_events st |}.
Definition with_cancellations f st := {|
  sessions := sessions st; daemon_sessions := daemon_sessions st;
  discovery_sessions := discovery_sessions st;
  daemon_pull_cancellations := f (daemon_pull_cancellations st);
  running_snapshots := running_snapshots st; session_last_updated := session_last_updated st;
  discovery_storage := discovery_storage st; update_tx := update_tx st; bus_events := bus_events st |}.
Definition with_running f st := {|
  sessions := sessions st; daemon_sessions := daemon_sessions st;
  discovery_sessions := discovery_sessions st;
  daemon_pull_cancellations := daemon_pull_cancellations st;
  running_snapshots := f (running_snapshots st); session_last_updated := session_last_updated st;
  discovery_storage := discovery_storage st; update_tx := update_tx st; bus_events := bus_events st |}.
Definition with_last_updated f st := {|
  sessions := sessions st; daemon_sessions := daemon_sessions st;
  discovery_sessions := discovery_sessions st;
  daemon_pull_cancellations := daemon_pull_cancellations st;
  running_snapshots := running_snapshots st; session_last_updated := f (session_last_updated st);
  discovery_storage := discovery_storage st; update_tx := update_tx st; bus_events := bus_events st |}.
Definition with_storage f st := {|
  sessions := sessions st; daemon_sessions := daemon_sessions st;
  discovery_sessions := discovery_sessions st;
  daemon_pull_cancellations := daemon_pull_cancellations st;
  running_snapshots := running_snapshots st; session_last_updated := session_last_updated st;
  discovery_storage := f (discovery_storage st); update_tx := update_tx st; bus_events := bus_events st |}.
Definition broadcast p st := {|
  sessions := sessions st; daemon_sessions := daemon_sessions st;
  discovery_sessions := discovery_sessions st;
  daemon_pull_cancellations := daemon_pull_cancellations st;
  running_snapshots := running_snapshots st; session_last_updated := session_last_updated st;
  discovery_storage := discovery_storage st; update_tx := update_tx st ++ [p]; bus_events := bus_events st |}.
Definition publish e st := {|
  sessions := sessions st; daemon_sessions := daemon_sessions st;
  discovery_sessions := discovery_sessions st;
  daemon_pull_cancellations := daemon_pull_cancellations st;
  running_snapshots := running_snapshots st; session_last_updated := session_last_updated st;
  discovery_storage := discovery_storage st; update_tx := update_tx st; bus_events := bus_events st ++ [e] |}.

Definition empty_service : DiscoveryService := {|
  sessions := ∅; daemon_sessions := ∅; discovery_sessions := ∅;
  daemon_pull_cancellations := ∅; running_snapshots := ∅; session_last_updated := ∅;
  discovery_storage := ∅; update_tx := []; bus_events := [] |}.

(** What one operation reads from outside the service. *)
Record Env := {
  now : DateTime;
  (** the [i]-th [Uuid::new_v4()] of the operation *)
  fresh : nat → Uuid;
  (** whether writes to [discovery_storage] succeed *)
  db_ok : bool;
  (** whether the [i]-th [event_bus.publish] of the operation succeeds *)
  bus_ok : nat → bool;
  (** [build_snmp_credentials_for_discovery] *)
  snmp_credentials_for : Uuid → option SnmpCredentialMapping;
  (** name of a network, [None] when it cannot be read *)
  network_name : Uuid → option string;
  (** the organization still to be told of its first finished discovery *)
  not_onboarded_org : Uuid → option Uuid;
  (** whether a credential's type may be assigned to a network *)
  network_promotable : Uuid → bool;
  (** whether [merge_network_credentials] succeeds *)
  merge_ok : bool;
  (** whether the daemon row still exists *)
  daemon_exists : Uuid → bool
}.

Inductive ServiceError := Conflict | Internal | NotFound | StillStarting.

(** [Storage::update] and [delete]: SQL statements keyed by id. *)
Definition storage_update (d : Discovery) (m : gmap Uuid Discovery) : gmap Uuid Discovery :=
  match m !! d_id d with Some _ => <[d_id d := d]> m | None => m end.

(** [retain(|_, sid| *sid != session_id)] on the discovery map. *)
Definition retain_not (sid : Uuid) (m : gmap Uuid Uuid) : gmap Uuid Uuid :=
  filter (λ kv, kv.2 ≠ sid) m.

(** [queue.retain(|id| *id != session_id)]. *)
Definition queue_retain (sid : Uuid) (q : list Uuid) : list Uuid := filter (λ x, x ≠ sid) q.

Section Operations.
Context `{HashOrder}.

(** ** Lookups *)

Definition lookup_discovery_id (st : DiscoveryService) (sid : Uuid) : option Uuid :=
  fst <$> List.find (λ kv, (kv.2 =? sid)%N) (hash_iter (discovery_sessions st)).

Definition get_session (st : DiscoveryService) (sid : Uuid) : option DiscoveryUpdatePayload :=
  sessions st !! sid.

Definition get_all_sessions (st : DiscoveryService) (network_ids : list Uuid)
    : list DiscoveryUpdatePayload :=
  filter (λ v, network_id v ∈ network_ids ∧ is_terminal (phase v) = false)
    (hash_values (sessions st)).

Definition daemon_queue (st : DiscoveryService) (did : Uuid) : list Uuid :=
  default [] (daemon_sessions st !! did).

Definition get_sessions_for_daemon (st : DiscoveryService) (did : Uuid)
    : list DiscoveryUpdatePayload :=
  filter (λ s, phase s = Pending) (omap (λ sid, sessions st !! sid) (daemon_queue st did)).

Definition has_active_session_for_daemon (st : DiscoveryService) (did : Uuid) : bool :=
  existsb (λ sid,
    match sessions st !! sid with
    | Some s => negb (is_terminal (phase s)) && bool_decide (phase s ≠ Queued)
                && bool_decide (phase s ≠ Pending)
    | None => false
    end) (daemon_queue st did).

Definition has_active_session_for_discovery (st : DiscoveryService) (disc : Uuid) : bool :=
  bool_decide (is_Some (discovery_sessions st !! disc)).

(** ** Starting a session *)

(** The SNMP hydration of a legacy [Network] discovery. *)
Definition hydrate (env : Env) (d : Discovery) : option DiscoveryType :=
  match d_discovery_type d with
  | Network subs fb _ =>
      match snmp_credentials_for env (d_network_id d) with
      | Some m => Some (Network subs fb m)
      | None => None
      end
  | t => Some t
  end.

(** [start_session] after its duplicate check. *)
Definition start_commit (env : Env) (d : Discovery) (st : DiscoveryService)
    : result DiscoveryUpdatePayload ServiceError * DiscoveryService :=
  let d := set_run_type (set_last_run (now env) (d_run_type d)) (now env) d in
  let st := if db_ok env then with_storage (storage_update d) st else st in
  match hydrate env d with
  | None => (Err Internal, st)
  | Some ty =>
      let sid := fresh env 0 in
      let p := new_payload sid (d_daemon_id d) (d_network_id d) ty (Some (d_id d)) in
      let p := set_discovery_type (mark_full_scan d (discovery_type p)) p in
      let st := with_discovery_sessions (<[d_id d := sid]>) st in
      let snapshot_blocked := bool_decide (d_network_id d ∈ running_snapshots st) in
      let daemon_is_running :=
        match daemon_sessions st !! d_daemon_id d with
        | Some q => negb (bool_decide (q = []))
        | None => false
        end in
      let '(p, st) :=
        if snapshot_blocked then (set_phase AwaitingSnapshot p, st)
        else if negb daemon_is_running then
          (set_phase Pending p, with_last_updated (<[sid := now env]>) st)
        else (p, st) in
      let st := with_sessions (<[sid := p]>) st in
      let st := with_daemon_sessions (λ m, <[d_daemon_id d := default [] (m !! d_daemon_id d) ++ [sid]]> m) st in
      if negb snapshot_blocked && negb daemon_is_running then
        if bus_ok env 0 then
          (Ok p, broadcast p (publish (PhaseEvent (into_discovery_event p)) st))
        else (Err Internal, st)
      else (Ok p, broadcast p st)
  end.

(** The duplicate check that opens [start_session]. *)
Definition start_blocked (d : Discovery) (st : DiscoveryService) : bool :=
  has_active_session_for_discovery st (d_id d).

Definition start_session (env : Env) (d : Discovery) (st : DiscoveryService)
    : result DiscoveryUpdatePayload ServiceError * DiscoveryService :=
  if start_blocked d st then (Err Conflict, st) else start_commit env d st.

(** ** Dispatch to a daemon *)

Definition transition_session_to_starting (env : Env) (sid : Uuid) (st : DiscoveryService)
    : DiscoveryService :=
  match sessions st !! sid with
  | Some s =>
      if bool_decide (phase s = Pending) then
        with_last_updated (<[sid := now env]>) (with_sessions (<[sid := set_phase Starting s]>) st)
      else st
  | None => st
  end.

(** [start_initial_discovery_sessions]: the live discoveries of the daemon with
    the environment each [start_session] runs in. *)
Fixpoint start_initial_discovery_sessions (work : list (Env * Discovery)) (st : DiscoveryService)
    : DiscoveryService :=
  match work with
  | [] => st
  | (env, d) :: rest =>
      start_initial_discovery_sessions rest
        (if never_ran (d_run_type d) then (start_session env d st).2 else st)
  end.

(** [DaemonService::get_pending_work]. *)
Definition get_pending_work (env : Env) (initial : list (Env * Discovery)) (did : Uuid)
    (st : DiscoveryService) : option DiscoveryUpdatePayload * DiscoveryService :=
  if has_active_session_for_daemon st did then (None, st)
  else
    let st := start_initial_discovery_sessions initial st in
    match get_sessions_for_daemon st did with
    | work :: _ => (Some work, transition_session_to_starting env (session_id work) st)
    | [] => (None, st)
    end.

(** ** Snapshots *)

Definition try_acquire_network_for_snapshot (nid : Uuid) (st : DiscoveryService)
    : bool * DiscoveryService :=
  if bool_decide (nid ∈ running_snapshots st) then (false, st)
  else if existsb (λ s, (network_id s =? nid)%N && negb (is_terminal (phase s)))
            (hash_values (sessions st)) then (false, st)
  else (true, with_running (λ r, {[nid]} ∪ r) st).

(** Is anything but [sid] already dispatched on this daemon? *)
Definition daemon_has_active (st : DiscoveryService) (did sid : Uuid) : bool :=
  match daemon_sessions st !! did with
  | Some queue =>
      existsb (λ x,
        if (x =? sid)%N then false
        else match sessions st !! x with
             | Some s => negb (is_terminal (phase s)) && bool_decide (phase s ≠ Queued)
                         && bool_decide (phase s ≠ AwaitingSnapshot)
             | None => false
             end) queue
  | None => false
  end.

(** One iteration of the release loop; the payloads to publish are collected. *)
Definition release_one (env : Env) (sid : Uuid)
    (acc : DiscoveryService * list DiscoveryUpdatePayload)
    : DiscoveryService * list DiscoveryUpdatePayload :=
  let '(st, to_publish) := acc in
  match sessions st !! sid with
  | None => (st, to_publish)
  | Some s =>
      if daemon_has_active st (daemon_id s) sid then
        let s' := set_phase Queued s in
        (broadcast s' (with_sessions (<[sid := s']>) st), to_publish)
      else
        let s' := set_phase Pending s in
        (broadcast s' (with_last_updated (<[sid := now env]>) (with_sessions (<[sid := s']>) st)),
         to_publish ++ [s'])
  end.

Definition awaiting_session_ids (st : DiscoveryService) (nid : Uuid) : list Uuid :=
  session_id <$>
    filter (λ s, network_id s = nid ∧ phase s = AwaitingSnapshot) (hash_values (sessions st)).

Definition publish_all (env : Env) (ps : list DiscoveryUpdatePayload) (st : DiscoveryService)
    : DiscoveryService :=
  foldl (λ st ip, if bus_ok env ip.1 then publish (PhaseEvent (into_discovery_event ip.2)) st else st)
    st (imap pair ps).

(** The part of a release under the lock of the session map. *)
Definition release_sessions (env : Env) (nid : Uuid) (st : DiscoveryService) : DiscoveryService :=
  let '(st, to_publish) :=
    foldl (λ acc sid, release_one env sid acc) (st, []) (awaiting_session_ids st nid) in
  publish_all env to_publish st.

Definition release_network_for_snapshot (env : Env) (nid : Uuid) (st : DiscoveryService)
    : DiscoveryService :=
  release_sessions env nid (with_running (λ r, r ∖ {[nid]}) st).

(** ** Cancellation hand-over *)

Definition pull_cancellation_for_daemon (did : Uuid) (st : DiscoveryService)
    : (bool * Uuid) * DiscoveryService :=
  (default (false, uuid_nil) (daemon_pull_cancellations st !! did),
   with_cancellations (delete did) st).

Definition get_pending_cancellation (did : Uuid) (st : DiscoveryService)
    : option Uuid * DiscoveryService :=
  let '((has, sid), st) := pull_cancellation_for_daemon did st in
  (if has then Some sid else None, st).

(** ** Progress updates *)

(** [finalize_successful_scan] on the stored row. *)
Definition finalize_successful_scan (env : Env) (disc : Uuid) (m : gmap Uuid Discovery)
    : gmap Uuid Discovery :=
  match m !! disc with
  | None => m
  | Some parent =>
      let '(ids, parent) := take_network_scope_credential_ids parent in
      let promotable := List.filter (network_promotable env) ids in
      let migration_failed := negb (bool_decide (promotable = [])) && negb (merge_ok env) in
      let parent := apply_successful_scan parent in
      let targets := if migration_failed then TargetNetwork <$> promotable
                     else integration_targets parent in
      let parent := set_scan_state (scan_count parent) (force_full_scan parent) targets (now env) parent in
      if db_ok env then <[disc := parent]> m else m
  end.

Definition type_label (t : DiscoveryType) : string :=
  match t with
  | SelfReport _ => "Self Report"
  | Network _ _ _ => "Network Discovery"
  | DockerDiscovery _ _ => "Docker Discovery"
  | Rescan _ _ _ _ _ => "Rescan"
  | Unified _ _ _ _ => "Unified Discovery"
  end%string.

(** The historical row recording a finished session. *)
Definition historical_discovery (env : Env) (i : nat) (rescan_name : option string)
    (s : DiscoveryUpdatePayload) : Discovery := {|
  d_id := fresh env i;
  d_created_at := default (now env) (started_at s);
  d_updated_at := now env;
  d_discovery_type := discovery_type s;
  d_run_type := Historical s;
  d_name :=
    match rescan_name with
    | Some name => name
    | None =>
        match discovery_type s with
        | Unified _ _ _ _ => "Discovery"%string
        | t => String.append (type_label t)
                 (String.append " — " (default "Unknown Network" (network_name env (network_id s))))%string
        end
    end;
  d_daemon_id := daemon_id s;
  d_network_id := network_id s;
  d_tags := [];
  scan_count := 0;
  force_full_scan := false;
  integration_targets := [] |}.

(** Promotion of the head of a daemon's queue when a session leaves it. *)
Definition promote_head (env : Env) (q : list Uuid) (st : DiscoveryService)
    : option DiscoveryUpdatePayload * DiscoveryService :=
  match head q with
  | Some next =>
      match sessions st !! next with
      | Some s =>
          let s' := set_phase Pending s in
          (Some s', with_last_updated (<[session_id s := now env]>)
                      (with_sessions (<[next := s']>) st))
      | None => (None, st)
      end
  | None => (None, st)
  end.

(** Terminal processing of [update_session]: [session] is the updated session,
    [old_daemon_id] and [old_network_id] were read before the update. *)
Definition finish_session (env : Env) (session : DiscoveryUpdatePayload)
    (old_daemon_id old_network_id : Uuid) (st : DiscoveryService)
    : result unit ServiceError * DiscoveryService :=
  let is_rescan := bool_decide (is_Some (rescan_target_host_id (discovery_type session))) in
  if negb (bus_ok env 0) then (Err Internal, st) else
  let st := publish (PhaseEvent (into_discovery_event session)) st in
  let st := (pull_cancellation_for_daemon (daemon_id session) st).2 in
  let parent_id := lookup_discovery_id st (session_id session) in
  let rescan_name :=
    match is_rescan, parent_id with
    | true, Some p => d_name <$> discovery_storage st !! p
    | _, _ => None
    end in
  let hist := historical_discovery env 0 rescan_name session in
  let st :=
    match parent_id with
    | Some p => if bool_decide (phase session = Complete) && negb is_rescan
                then with_storage (finalize_successful_scan env p) st else st
    | None => st
    end in
  if db_ok env && negb (bus_ok env 1) then (Err Internal, with_storage (<[d_id hist := hist]>) st) else
  let st := if db_ok env
            then publish (HistoricalCreated hist) (with_storage (<[d_id hist := hist]>) st) else st in
  let st :=
    match is_rescan, parent_id with
    | true, Some p => if db_ok env then with_storage (delete p) st else st
    | _, _ => st
    end in
  let '(next, st) :=
    match daemon_sessions st !! daemon_id session with
    | Some q =>
        let q' := queue_retain (session_id session) q in
        promote_head env q' (with_daemon_sessions (<[daemon_id session := q']>) st)
    | None => (None, st)
    end in
  let st := with_sessions (delete (session_id session)) st in
  let st := with_discovery_sessions (retain_not (session_id session)) st in
  match next with
  | Some n =>
      let started := set_phase Pending
        (new_payload (session_id n) old_daemon_id old_network_id (discovery_type n) (discovery_id n)) in
      if bus_ok env 2 then (Ok tt, publish (PhaseEvent (into_discovery_event started)) st)
      else (Err Internal, st)
  | None => (Ok tt, st)
  end.

(** The first-discovery milestone published before the update is broadcast. *)
Definition onboarding (env : Env) (nid : Uuid) (u : DiscoveryUpdatePayload) (st : DiscoveryService)
    : DiscoveryService :=
  match phase u, discovery_type u with
  | Complete, (Network _ _ _ | Unified _ _ _ _) =>
      match not_onboarded_org env nid with
      | Some org => if bus_ok env 3 then publish (FirstDiscoveryCompleted org (discovery_type u)) st
                    else st
      | None => st
      end
  | _, _ => st
  end.

(** [update_session] once the discovery id is filled in: from here on the session map is
    locked. *)
Definition update_section (env : Env) (u : DiscoveryUpdatePayload) (st : DiscoveryService)
    : result unit ServiceError * DiscoveryService :=
  let sid := session_id u in
  let already_seen := bool_decide (is_Some (session_last_updated st !! sid)) in
  let st := with_last_updated (<[sid := now env]>) st in
  let create :=
    match sessions st !! sid with
    | Some s => Some (s, st)
    | None =>
        if is_terminal (phase u) && already_seen then None
        else
          let st := with_daemon_sessions
                      (λ m, <[daemon_id u := default [] (m !! daemon_id u) ++ [sid]]> m) st in
          let st := match discovery_id u with
                    | Some d => with_discovery_sessions (<[d := sid]>) st
                    | None => st
                    end in
          Some (u, with_sessions (<[sid := u]>) st)
    end in
  match create with
  | None => (Ok tt, st)
  | Some (session, st) =>
      let st := onboarding env (network_id session) u st in
      let st := broadcast u st in
      let st := with_sessions (<[sid := u]>) st in
      if is_terminal (phase u) then
        finish_session env u (daemon_id session) (network_id session) st
      else (Ok tt, st)
  end.

Definition update_session (env : Env) (u : DiscoveryUpdatePayload) (st : DiscoveryService)
    : result unit ServiceError * DiscoveryService :=
  let u := match discovery_id u with
           | None => set_discovery_id (lookup_discovery_id st (session_id u)) u
           | Some _ => u
           end in
  update_section env u st.

(** ** Cancellation *)

(** The update a cancelled session is reported with. *)
Definition cancelled_payload (s : DiscoveryUpdatePayload) (prog : Z) (at_ : DateTime)
    (disc : option Uuid) : DiscoveryUpdatePayload := {|
  session_id := session_id s; daemon_id := daemon_id s; network_id := network_id s;
  phase := Cancelled; discovery_type := discovery_type s; progress := prog;
  error := None; warnings := []; started_at := started_at s; finished_at := Some at_;
  hosts_discovered := None; estimated_remaining_secs := None;
  discovery_id := disc; scanned := None |}.

(** Removing a session that was not handed out: [was_pending] and the rest of its payload were
    read before the maps were locked. *)
Definition cancel_removal (env : Env) (sid did : Uuid) (was_pending is_rescan : bool)
    (disc : option Uuid) (update : DiscoveryUpdatePayload) (st : DiscoveryService) : DiscoveryService :=
  let st := with_sessions (delete sid) st in
  let st :=
    match daemon_sessions st !! did with
    | Some q =>
        let q' := queue_retain sid q in
        let st := with_daemon_sessions (<[did := q']>) st in
        if was_pending then (promote_head env q' st).2 else st
    | None => st
    end in
  let st := with_discovery_sessions (retain_not sid) st in
  let st := broadcast update st in
  match is_rescan, disc with
  | true, Some d => if db_ok env then with_storage (delete d) st else st
  | _, _ => st
  end.

Definition cancel_session (env : Env) (sid : Uuid) (st : DiscoveryService)
    : result unit ServiceError * DiscoveryService :=
  match get_session st sid with
  | None => (Err NotFound, st)
  | Some s =>
      let did := daemon_id s in
      let disc := lookup_discovery_id st sid in
      let is_rescan := bool_decide (is_Some (rescan_target_host_id (discovery_type s))) in
      let update := cancelled_payload s 0 (now env) disc in
      match phase s with
      | Queued | Pending | AwaitingSnapshot =>
          (Ok tt, cancel_removal env sid did (bool_decide (phase s = Pending)) is_rescan disc update st)
      | Starting => (Err StillStarting, st)
      | Started | Scanning =>
          if bus_ok env 0 then
            (Ok tt, with_cancellations (<[did := (true, sid)]>)
                      (publish (PhaseEvent (into_discovery_event update)) st))
          else (Err Internal, st)
      | Complete | Failed | Cancelled => (Ok tt, st)
      end
  end.

(** ** Cleanup *)

(** [clear_sessions_for_daemon]. *)
Definition clear_sessions_for_daemon (did : Uuid) (st : DiscoveryService) : DiscoveryService :=
  let st :=
    match daemon_sessions st !! did with
    | Some ids =>
        let st := with_daemon_sessions (delete did) st in
        foldl (λ st sid,
          with_discovery_sessions (retain_not sid)
            (with_last_updated (delete sid) (with_sessions (delete sid) st))) st ids
    | None => st
    end in
  with_cancellations (delete did) st.

(** [cleanup_old_sessions]. *)
Definition old_session_ids (cutoff : DateTime) (st : DiscoveryService) : list Uuid :=
  fst <$> List.filter
    (λ kv, match finished_at kv.2 with Some t => t <? cutoff | None => false end)
    (hash_iter (sessions st)).

Definition cleanup_one (st : DiscoveryService) (sid : Uuid) : DiscoveryService :=
  match sessions st !! sid with
  | None => st
  | Some s =>
      let st := with_sessions (delete sid) st in
      let st := with_cancellations (delete (daemon_id s)) st in
      let st := with_daemon_sessions (alter (queue_retain (session_id s)) (daemon_id s)) st in
      with_discovery_sessions (retain_not sid) st
  end.

Definition cleanup_old_sessions (env : Env) (max_age_hours : Z) (st : DiscoveryService)
    : DiscoveryService :=
  foldl cleanup_one st (old_session_ids (now env - max_age_hours * 3600000) st).

Definition stall_threshold : Z := 5 * 60 * 1000.

Definition is_stalled (env : Env) (st : DiscoveryService) (sid : Uuid) (s : DiscoveryUpdatePayload)
    : bool :=
  can_be_cleaned_up (phase s) &&
  match session_last_updated st !! sid with
  | Some t => stall_threshold <? now env - t
  | None =>
      match started_at s with
      | Some t => stall_threshold <? now env - t
      | None => true
      end
  end.

Definition stalled_sessions (env : Env) (st : DiscoveryService) : list DiscoveryUpdatePayload :=
  snd <$> List.filter (λ kv, is_stalled env st kv.1 kv.2) (hash_iter (sessions st)).

(** Second pass: request the cancellation of each stalled session. *)
Definition request_cancellation (env : Env) (st : DiscoveryService) (ip : nat * DiscoveryUpdatePayload)
    : DiscoveryService :=
  let s := ip.2 in
  let update := cancelled_payload s (progress s) (now env) (lookup_discovery_id st (session_id s)) in
  let st := if bus_ok env ip.1 then publish (PhaseEvent (into_discovery_event update)) st else st in
  with_cancellations (<[daemon_id s := (true, session_id s)]>) st.

Definition stall_error : string :=
  "Session stalled - no updates received from daemon for more than 5 minutes"%string.

(** Third pass, one session. *)
Definition cleanup_stalled_one (env : Env) (st : DiscoveryService)
    (ip : nat * DiscoveryUpdatePayload) : DiscoveryService :=
  let s0 := ip.2 in
  match sessions st !! session_id s0 with
  | None => st
  | Some s =>
      let did := daemon_id s in
      let sid := session_id s in
      let st := with_sessions (delete (session_id s0)) st in
      let s := set_failed stall_error (now env) s in
      let st :=
        match daemon_sessions st !! did with
        | Some q =>
            let q' := queue_retain sid q in
            let st := with_daemon_sessions (<[did := q']>) st in
            match head q' ≫= (λ n, sessions st !! n) with
            | Some n => if bool_decide (phase n = Queued) then (promote_head env q' st).2 else st
            | None => st
            end
        | None => st
        end in
      let st := with_discovery_sessions (retain_not sid) st in
      let st := with_last_updated (delete sid) st in
      let st := broadcast s st in
      let st :=
        match daemon_pull_cancellations st !! did with
        | Some (_, c) => if (c =? sid)%N then with_cancellations (delete did) st else st
        | None => st
        end in
      if daemon_exists env did && db_ok env
      then with_storage (<[fresh env ip.1 := historical_discovery env ip.1 None s]>) st else st
  end.

(** Eviction of the tombstones of finished sessions. *)
Definition evict_tombstones (env : Env) (st : DiscoveryService) : DiscoveryService :=
  with_last_updated
    (filter (λ kv : Uuid * DateTime,
       is_Some (sessions st !! kv.1) ∨ (now env - kv.2 < stall_threshold)%Z)) st.

Definition cleanup_stalled_sessions (env : Env) (st : DiscoveryService) : DiscoveryService :=
  match stalled_sessions env st with
  | [] => st
  | stalled =>
      let st := foldl (request_cancellation env) st (imap pair stalled) in
      let st := foldl (cleanup_stalled_one env) st (imap pair stalled) in
      evict_tombstones env st
  end.

End Operations.
