(* ===== verification/SessionInv.v ===== *)
(** Invariants of the session manager.

    [Inv] relates the maps of [DiscoveryService]: sessions are keyed by their
    id and sit in exactly the queue of their daemon, the discovery map is the
    index of the sessions by discovery, a network being snapshotted has only
    [AwaitingSnapshot] sessions, and a daemon has at most one dispatched
    session.  [Served] says a waiting session waits behind a dispatched one.
    The first half proves the effect on them of the map updates the operations
    are made of; the second half proves every operation preserves them. *)

From S2P Require Import Prelude Net Ports Discovery Sessions.
Local Open Scope Z_scope.
Set Default Proof Using "Type".

Abbreviation payload := DiscoveryUpdatePayload (only parsing).

(** Dispatched: the phases that count as work in progress on the daemon. *)
Definition active (s : payload) : Prop := can_be_cleaned_up (phase s) = true.

Section Maps.
(** The network of each daemon (a daemon's key is bound to one network). *)
Context (net_of : Uuid → Uuid).

Record Inv (S : gmap Uuid payload) (Q : gmap Uuid (list Uuid)) (D : gmap Uuid Uuid)
    (R : gset Uuid) (T : list Uuid) : Prop := {
  inv_key : ∀ k s, S !! k = Some s → session_id s = k;
  inv_net : ∀ k s, S !! k = Some s → network_id s = net_of (daemon_id s);
  inv_queued : ∀ k s, S !! k = Some s → ∃ q, Q !! daemon_id s = Some q ∧ k ∈ q;
  inv_nodup : ∀ d q, Q !! d = Some q → NoDup q;
  inv_member : ∀ d q k, Q !! d = Some q → k ∈ q → ∃ s, S !! k = Some s ∧ daemon_id s = d;
  inv_disc : ∀ d k, D !! d = Some k ↔ ∃ s, S !! k = Some s ∧ discovery_id s = Some d;
  inv_live : ∀ k s, S !! k = Some s → is_terminal (phase s) = false ∧ finished_at s = None;
  inv_snap : ∀ k s, S !! k = Some s →
    phase s = AwaitingSnapshot ↔ network_id s ∈ R ∨ k ∈ T;
  inv_unique : ∀ k1 k2 s1 s2, S !! k1 = Some s1 → S !! k2 = Some s2 →
    active s1 → active s2 → daemon_id s1 = daemon_id s2 → k1 = k2
}.

Definition Served (S : gmap Uuid payload) : Prop :=
  ∀ k s, S !! k = Some s → phase s = Queued →
    ∃ k' s', S !! k' = Some s' ∧ active s' ∧ daemon_id s' = daemon_id s.

Definition ServedExcept (d : Uuid) (S : gmap Uuid payload) : Prop :=
  ∀ k s, S !! k = Some s → phase s = Queued → daemon_id s ≠ d →
    ∃ k' s', S !! k' = Some s' ∧ active s' ∧ daemon_id s' = daemon_id s.

Lemma phase_cases s :
  is_terminal (phase s) = false → phase s = AwaitingSnapshot ∨ phase s = Queued ∨ active s.
Proof. unfold active. destruct (phase s); naive_solver. Qed.

Lemma active_not_awaiting s : active s → phase s ≠ AwaitingSnapshot ∧ phase s ≠ Queued.
Proof. unfold active. destruct (phase s); naive_solver. Qed.

Lemma active_set_pending s : active (set_phase Pending s).
Proof. done. Qed.

Lemma inv_empty R : Inv ∅ ∅ ∅ R [].
Proof.
  constructor; try by intros; simplify_map_eq.
  intros d k. rewrite !lookup_empty. split; [done|]. by intros (s & Hs & _).
Qed.

(** *** Replacing the payload of a session *)
Lemma inv_update S Q D R T T' k s s' :
  Inv S Q D R T → S !! k = Some s →
  session_id s' = session_id s → daemon_id s' = daemon_id s →
  network_id s' = network_id s → discovery_id s' = discovery_id s →
  is_terminal (phase s') = false → finished_at s' = None →
  (phase s' = AwaitingSnapshot ↔ network_id s ∈ R ∨ k ∈ T') →
  (∀ j, j ≠ k → j ∈ T ↔ j ∈ T') →
  (active s' → ∀ j t, j ≠ k → S !! j = Some t → daemon_id t = daemon_id s → ¬ active t) →
  Inv (<[k := s']> S) Q D R T'.
Proof.
  intros [Hk Hn Hq Hnd Hm Hd Hl Hs Hu] HS Eid Ed En Edisc Hterm Hfin Hsnap HT Huniq.
  constructor.
  - intros j t. rewrite lookup_insert_Some. intros [[<- <-]|[? ?]]; [|eauto].
    rewrite Eid. eauto.
  - intros j t. rewrite lookup_insert_Some. intros [[<- <-]|[? ?]]; [|eauto].
    rewrite En, Ed. eauto.
  - intros j t. rewrite lookup_insert_Some. intros [[<- <-]|[? ?]]; [|eauto].
    rewrite Ed. eauto.
  - done.
  - intros d q j Hdq Hj. destruct (Hm d q j Hdq Hj) as (t & Ht & Htd).
    destruct (decide (k = j)) as [<-|Hne].
    + exists s'. rewrite lookup_insert_eq. split; [done|]. congruence.
    + exists t. by rewrite lookup_insert_ne.
  - intros d j. rewrite Hd. split; intros (t & Ht & Htd).
    + destruct (decide (k = j)) as [<-|Hne].
      * exists s'. rewrite lookup_insert_eq. split; [done|]. congruence.
      * exists t. by rewrite lookup_insert_ne.
    + apply lookup_insert_Some in Ht as [[<- <-]|[? ?]]; [|eauto].
      exists s. split; [done|]. congruence.
  - intros j t. rewrite lookup_insert_Some. intros [[<- <-]|[? ?]]; [done|eauto].
  - intros j t. rewrite lookup_insert_Some. intros [[<- <-]|[Hne Ht]].
    + by rewrite En.
    + rewrite (Hs j t Ht). by rewrite HT.
  - intros k1 k2 s1 s2. rewrite !lookup_insert_Some.
    intros [[<- <-]|[? H1]] [[<- <-]|[? H2]] A1 A2 E; [done| | |by eapply Hu].
    + exfalso. eapply (Huniq A1 k2 s2); eauto. congruence.
    + exfalso. eapply (Huniq A2 k1 s1); eauto. congruence.
Qed.

(** *** A new session *)
Lemma inv_insert S Q D R k s :
  Inv S Q D R [] → S !! k = None → session_id s = k →
  network_id s = net_of (daemon_id s) →
  (∀ d, discovery_id s = Some d → D !! d = None) →
  is_terminal (phase s) = false → finished_at s = None →
  (phase s = AwaitingSnapshot ↔ network_id s ∈ R) →
  (active s → ∀ j t, S !! j = Some t → daemon_id t = daemon_id s → ¬ active t) →
  Inv (<[k := s]> S) (<[daemon_id s := default [] (Q !! daemon_id s) ++ [k]]> Q)
    (match discovery_id s with Some d => <[d := k]> D | None => D end) R [].
Proof.
  intros [Hk Hn Hq Hnd Hm Hd Hl Hs Hu] HS Ek En Edisc Hterm Hfin Hsnap Huniq.
  assert (∀ d q, Q !! d = Some q → k ∉ q) as Hfresh.
  { intros d q Hdq Hin. destruct (Hm d q k Hdq Hin) as (t & Ht & _). congruence. }
  constructor.
  - intros j t. rewrite lookup_insert_Some. intros [[<- <-]|[? ?]]; eauto.
  - intros j t. rewrite lookup_insert_Some. intros [[<- <-]|[? ?]]; eauto.
  - intros j t. rewrite lookup_insert_Some. intros [[<- <-]|[Hne Ht]].
    { eexists. rewrite lookup_insert_eq. split; [done|]. set_solver. }
    destruct (Hq j t Ht) as (q & Hdq & Hin).
    destruct (decide (daemon_id s = daemon_id t)) as [E|E].
    + rewrite E, lookup_insert_eq, Hdq. eexists. split; [done|]. simpl. set_solver.
    + rewrite lookup_insert_ne by done. eauto.
  - intros d q. rewrite lookup_insert_Some. intros [[<- <-]|[? ?]]; [|eauto].
    destruct (Q !! daemon_id s) as [q|] eqn:E; simpl; [|repeat constructor; set_solver].
    apply list.NoDup_app. split; [eauto|]. split; [|repeat constructor; set_solver].
    intros x Hx Hx'. apply list_elem_of_singleton in Hx' as ->. by eapply Hfresh.
  - intros d q j. rewrite lookup_insert_Some. intros [[<- <-]|[Hne Hdq]] Hj.
    + apply elem_of_app in Hj as [Hj|Hj].
      * destruct (Q !! daemon_id s) as [q|] eqn:E; simpl in Hj; [|set_solver].
        destruct (Hm _ _ _ E Hj) as (t & Ht & Htd). exists t.
        rewrite lookup_insert_ne by congruence. done.
      * apply list_elem_of_singleton in Hj as ->. exists s. by rewrite lookup_insert_eq.
    + destruct (Hm d q j Hdq Hj) as (t & Ht & Htd). exists t.
      rewrite lookup_insert_ne by congruence. done.
  - intros d j. destruct (discovery_id s) as [d0|] eqn:E0.
    + rewrite lookup_insert_Some. split.
      * intros [[<- <-]|[Hne Hdj]]; [exists s; by rewrite lookup_insert_eq|].
        apply Hd in Hdj as (t & Ht & Htd). exists t. by rewrite lookup_insert_ne by congruence.
      * intros (t & Ht & Htd). apply lookup_insert_Some in Ht as [[<- <-]|[Hne Ht]].
        { left. split; congruence. }
        right. assert (D !! d = Some j) as HD by (apply Hd; eauto). split; [|done].
        intros ->. rewrite (Edisc d) in HD; done.
    + rewrite Hd. split; intros (t & Ht & Htd).
      * exists t. by rewrite lookup_insert_ne by congruence.
      * apply lookup_insert_Some in Ht as [[<- <-]|[Hne Ht]]; [congruence|eauto].
  - intros j t. rewrite lookup_insert_Some. intros [[<- <-]|[? ?]]; [done|eauto].
  - intros j t. rewrite lookup_insert_Some. intros [[<- <-]|[? ?]]; [|eauto].
    rewrite Hsnap. set_solver.
  - intros k1 k2 s1 s2. rewrite !lookup_insert_Some.
    intros [[<- <-]|[? H1]] [[<- <-]|[? H2]] A1 A2 E; [done| | |by eapply Hu].
    + exfalso. eapply (Huniq A1 k2 s2); eauto.
    + exfalso. eapply (Huniq A2 k1 s1); eauto.
Qed.

(** *** Removing a session *)
Lemma elem_of_queue_retain k x q : x ∈ queue_retain k q ↔ x ≠ k ∧ x ∈ q.
Proof. unfold queue_retain. by rewrite list_elem_of_filter. Qed.

Lemma lookup_retain_not k D d j : retain_not k D !! d = Some j ↔ D !! d = Some j ∧ j ≠ k.
Proof. unfold retain_not. by rewrite map_lookup_filter_Some. Qed.

Lemma inv_delete S Q D R T k s q :
  Inv S Q D R T → S !! k = Some s → Q !! daemon_id s = Some q →
  Inv (delete k S) (<[daemon_id s := queue_retain k q]> Q) (retain_not k D) R T.
Proof.
  intros [Hk Hn Hq Hnd Hm Hd Hl Hs Hu] HS HQ.
  constructor; try (intros j t; rewrite lookup_delete_Some; intros [? ?]; by eauto).
  - intros j t. rewrite lookup_delete_Some. intros [Hne Ht].
    destruct (Hq j t Ht) as (q' & Hq' & Hin).
    destruct (decide (daemon_id s = daemon_id t)) as [E|E].
    + rewrite E, lookup_insert_eq. eexists. split; [done|].
      apply elem_of_queue_retain. split; [done|]. congruence.
    + rewrite lookup_insert_ne by done. eauto.
  - intros d q'. rewrite lookup_insert_Some. intros [[<- <-]|[? ?]]; [|eauto].
    unfold queue_retain. apply list.NoDup_filter. eauto.
  - intros d q' j. rewrite lookup_insert_Some. intros [[<- <-]|[Hne Hdq]] Hj.
    + apply elem_of_queue_retain in Hj as [Hne Hj].
      destruct (Hm _ _ _ HQ Hj) as (t & Ht & Htd). exists t. by rewrite lookup_delete_ne.
    + destruct (Hm _ _ _ Hdq Hj) as (t & Ht & Htd). exists t.
      rewrite lookup_delete_ne; [done|]. intros <-. congruence.
  - intros d j. rewrite lookup_retain_not, Hd. split.
    + intros [(t & Ht & Htd) Hne]. exists t. by rewrite lookup_delete_ne.
    + intros (t & Ht & Htd). apply lookup_delete_Some in Ht as [Hne Ht]. eauto.
  - intros k1 k2 s1 s2. rewrite !lookup_delete_Some. intros [? ?] [? ?]. by eapply Hu.
Qed.

(** *** Promoting the head of a queue *)
Definition promoted (q : list Uuid) (S : gmap Uuid payload) : gmap Uuid payload :=
  match head q with
  | Some h => match S !! h with Some s => <[h := set_phase Pending s]> S | None => S end
  | None => S
  end.

Lemma inv_promote S Q D R d q :
  Inv S Q D R [] → Q !! d = Some q →
  (∀ k s, S !! k = Some s → daemon_id s = d → ¬ active s) →
  net_of d ∉ R →
  Inv (promoted q S) Q D R [].
Proof.
  intros HI HQ Hidle Hnet. unfold promoted.
  destruct q as [|h q]; simpl; [done|]. destruct (S !! h) as [s|] eqn:Hh; [|done].
  destruct (inv_member _ _ _ _ _ HI d (h :: q) h HQ) as (s' & Hs' & Hd'); [set_solver|].
  assert (s' = s) as -> by congruence.
  eapply inv_update; eauto; simpl; try done.
  - by apply (inv_live _ _ _ _ _ HI h s).
  - rewrite (inv_net _ _ _ _ _ HI h s Hh), Hd'. set_solver.
  - intros _ j t Hne Ht Htd. eapply Hidle; eauto. congruence.
Qed.

Lemma served_promote S Q D R d q :
  Inv S Q D R [] → Q !! d = Some q → ServedExcept d S → Served (promoted q S).
Proof.
  intros HI HQ HX k s. unfold promoted. destruct q as [|h q']; simpl.
  { intros Hk Hph. apply (HX k s Hk Hph). intros E.
    destruct (inv_queued _ _ _ _ _ HI k s Hk) as (q & Hq & Hin).
    rewrite E, HQ in Hq. inv Hq. by apply not_elem_of_nil in Hin. }
  destruct (inv_member _ _ _ _ _ HI d _ h HQ) as (s0 & Hh & Hd); [left|].
  rewrite Hh. intros Hk Hph. destruct (decide (daemon_id s = d)) as [E|E].
  - exists h, (set_phase Pending s0). rewrite lookup_insert_eq. split; [done|].
    split; [done|]. simpl. congruence.
  - assert (h ≠ k) as Hne.
    { intros <-. rewrite lookup_insert_eq in Hk. by inv Hk. }
    rewrite lookup_insert_ne in Hk by done.
    destruct (HX k s Hk Hph E) as (k' & s' & Hk' & Ha & He).
    exists k', s'. rewrite lookup_insert_ne; [done|]. intros <-. congruence.
Qed.

Lemma served_delete_inactive S k s :
  Served S → S !! k = Some s → ¬ active s → Served (delete k S).
Proof.
  intros HS Hk Hna j t. rewrite lookup_delete_Some. intros [Hne Ht] Hph.
  destruct (HS j t Ht Hph) as (k' & s' & Hk' & Ha & He). exists k', s'.
  rewrite lookup_delete_ne; [done|]. intros <-. congruence.
Qed.

Lemma served_delete_except S k s :
  Served S → S !! k = Some s → ServedExcept (daemon_id s) (delete k S).
Proof.
  intros HS Hk j t. rewrite lookup_delete_Some. intros [Hne Ht] Hph Hd.
  destruct (HS j t Ht Hph) as (k' & s' & Hk' & Ha & He). exists k', s'.
  rewrite lookup_delete_ne; [done|]. intros <-. congruence.
Qed.

(** Removing the dispatched session of a daemon and promoting its next one. *)
Lemma inv_replace_active S Q D R k s q :
  Inv S Q D R [] → Served S → S !! k = Some s → active s → Q !! daemon_id s = Some q →
  let q' := queue_retain k q in
  Inv (promoted q' (delete k S)) (<[daemon_id s := q']> Q) (retain_not k D) R []
  ∧ Served (promoted q' (delete k S)).
Proof.
  intros HI HV Hk Ha HQ q'.
  pose proof (inv_delete _ _ _ _ _ _ _ _ HI Hk HQ) as HI'. fold q' in HI'.
  assert (<[daemon_id s := q']> Q !! daemon_id s = Some q') as HQ' by apply lookup_insert_eq.
  split.
  - eapply inv_promote; [done|exact HQ'| |].
    + intros j t. rewrite lookup_delete_Some. intros [Hne Ht] Hd Hact. apply Hne.
      by eapply (inv_unique _ _ _ _ _ HI k j).
    + rewrite <- (inv_net _ _ _ _ _ HI k s Hk). intros Hin.
      apply (proj1 (active_not_awaiting s Ha)). apply (inv_snap _ _ _ _ _ HI k s Hk). by left.
  - eapply served_promote; [exact HI'|exact HQ'|]. by apply served_delete_except.
Qed.
End Maps.
