(* ===== verification/SessionOps.v ===== *)
(** Every operation of the session manager preserves the invariants.

    [Good] is the invariant of [SessionInv] on a whole service.  Each lemma
    states what the operation needs from its caller: fresh identifiers for a
    new session, a daemon that reports on the session it was given for a
    progress update. *)

From S2P Require Import Prelude Net Ports Discovery Sessions SessionInv.
Local Open Scope Z_scope.
Set Default Proof Using "Type".

Section Preservation.
Context `{HashOrder} (net_of : Uuid → Uuid).

Definition Good (st : DiscoveryService) : Prop :=
  Inv net_of (sessions st) (daemon_sessions st) (discovery_sessions st)
    (running_snapshots st) []
  ∧ Served (sessions st).

(** Two services with the same queues and sessions. *)
Definition same_core (a b : DiscoveryService) : Prop :=
  sessions a = sessions b ∧ daemon_sessions a = daemon_sessions b
  ∧ discovery_sessions a = discovery_sessions b ∧ running_snapshots a = running_snapshots b.

#[export] Instance same_core_equivalence : Equivalence same_core.
Proof. unfold same_core. split; red; naive_solver congruence. Qed.

#[export] Instance good_proper : Proper (same_core ==> iff) Good.
Proof. intros a b (E1 & E2 & E3 & E4). unfold Good. by rewrite E1, E2, E3, E4. Qed.

Lemma good_empty : Good empty_service.
Proof. split; [apply inv_empty|]. by intros k s; simpl; rewrite lookup_empty. Qed.

(** *** Starting a session *)

Lemma start_commit_state env d st ty :
  hydrate env d = Some ty →
  let st' := (start_commit env d st).2 in
  let blocked := bool_decide (d_network_id d ∈ running_snapshots st) in
  let running := negb (bool_decide (daemon_queue st (d_daemon_id d) = [])) in
  ∃ p, sessions st' = <[fresh env 0 := p]> (sessions st)
    ∧ daemon_sessions st'
      = <[d_daemon_id d := daemon_queue st (d_daemon_id d) ++ [fresh env 0%nat]]> (daemon_sessions st)
    ∧ discovery_sessions st' = <[d_id d := fresh env 0]> (discovery_sessions st)
    ∧ running_snapshots st' = running_snapshots st
    ∧ session_id p = fresh env 0 ∧ daemon_id p = d_daemon_id d ∧ network_id p = d_network_id d
    ∧ discovery_id p = Some (d_id d) ∧ finished_at p = None
    ∧ phase p = (if blocked then AwaitingSnapshot else if running then Queued else Pending)
    ∧ (start_commit env d st).1
      = (if bool_decide (phase p = Pending) && negb (bus_ok env 0) then Err Internal else Ok p).
Proof.
  intros Hh. unfold start_commit.
  change (hydrate env (set_run_type _ _ d)) with (hydrate env d). rewrite Hh.
  unfold daemon_queue.
  destruct (db_ok env); simpl; (case_bool_decide; [|
    destruct (daemon_sessions st !! d_daemon_id d) as [q|] eqn:Eq; simpl; [case_bool_decide|]]);
    simpl; try (destruct (bus_ok env 0)); simpl; eexists; split_and!; eauto; by rewrite Eq.
Qed.

Lemma start_commit_fails env d st :
  hydrate env d = None → same_core (start_commit env d st).2 st
  ∧ (start_commit env d st).1 = Err Internal.
Proof.
  intros Hh. unfold start_commit.
  change (hydrate env (set_run_type _ _ d)) with (hydrate env d). rewrite Hh.
  by destruct (db_ok env).
Qed.

Lemma queue_nonempty_session st d :
  Good st → daemon_queue st d ≠ [] → ∃ k s, sessions st !! k = Some s ∧ daemon_id s = d.
Proof.
  intros [HI _] Hne. unfold daemon_queue in Hne.
  destruct (daemon_sessions st !! d) as [[|k q]|] eqn:E; simpl in Hne; try done.
  destruct (inv_member _ _ _ _ _ _ HI d _ k E) as (s & Hs & Hd); [left|]. eauto.
Qed.

Lemma queue_empty_no_session st d :
  Good st → daemon_queue st d = [] → ∀ k s, sessions st !! k = Some s → daemon_id s ≠ d.
Proof.
  intros [HI _] He k s Hk <-. destruct (inv_queued _ _ _ _ _ _ HI k s Hk) as (q & Hq & Hin).
  unfold daemon_queue in He. rewrite Hq in He. simpl in He. subst. by apply not_elem_of_nil in Hin.
Qed.

(** A daemon with sessions on a network not being snapshotted is working. *)
Lemma busy_has_active st d k s :
  Good st → net_of d ∉ running_snapshots st → sessions st !! k = Some s → daemon_id s = d →
  ∃ k' s', sessions st !! k' = Some s' ∧ active s' ∧ daemon_id s' = d.
Proof.
  intros [HI HV] Hnet Hk Hd.
  destruct (phase_cases s) as [Hp|[Hp|Ha]].
  - by apply (inv_live _ _ _ _ _ _ HI k s).
  - apply (inv_snap _ _ _ _ _ _ HI k s Hk) in Hp as [Hp|Hp%not_elem_of_nil]; [|done].
    rewrite (inv_net _ _ _ _ _ _ HI k s Hk), Hd in Hp. done.
  - destruct (HV k s Hk Hp) as (k' & s' & ? & ? & ?). exists k', s'. by rewrite <- Hd.
  - eauto.
Qed.

Lemma served_insert_new S k (s : payload) :
  Served S → S !! k = None →
  (phase s = Queued → ∃ j t, S !! j = Some t ∧ active t ∧ daemon_id t = daemon_id s) →
  Served (<[k := s]> S).
Proof.
  intros HV Hk Hq j t. rewrite lookup_insert_Some.
  intros [[<- <-]|[Hne Ht]] Hp;
    [destruct (Hq Hp) as (j' & t' & ? & ? & ?)|destruct (HV j t Ht Hp) as (j' & t' & ? & ? & ?)];
    exists j', t'; (rewrite lookup_insert_ne by congruence); done.
Qed.

Lemma good_start_commit env d st :
  Good st → sessions st !! fresh env 0 = None → discovery_sessions st !! d_id d = None →
  d_network_id d = net_of (d_daemon_id d) → Good (start_commit env d st).2.
Proof.
  intros HG Hfresh Hdisc Hnet. destruct (hydrate env d) as [ty|] eqn:Hh.
  2:{ by apply (good_proper _ _ (proj1 (start_commit_fails env d st Hh))). }
  destruct (start_commit_state env d st ty Hh)
    as (p & E1 & E2 & E3 & E4 & Ep1 & Ep2 & Ep3 & Ep4 & Ep5 & Ep6 & _).
  unfold Good. rewrite E1, E2, E3, E4. pose proof HG as [HI HV]. split.
  - pose proof (inv_insert net_of _ _ _ _ (fresh env 0) p HI Hfresh) as HX.
    rewrite Ep4, Ep2 in HX. apply HX; clear HX; try congruence.
    + by rewrite Ep6; case_bool_decide; [|destruct (negb _)].
    + rewrite Ep6, Ep3. case_bool_decide; [done|]. by destruct (negb _).
    + unfold active. rewrite Ep6. case_bool_decide; [done|]. case_bool_decide; [|done].
      intros _ j t Ht Hd. exfalso. by eapply queue_empty_no_session.
  - apply served_insert_new; [done..|]. rewrite Ep6, Ep2.
    case_bool_decide as Hb; [done|]. case_bool_decide as Hq; [done|]. intros _.
    destruct (queue_nonempty_session st _ HG Hq) as (k & s & Hk & Hd).
    eapply busy_has_active; eauto. congruence.
Qed.

Lemma good_start env d st :
  Good st → sessions st !! fresh env 0 = None → d_network_id d = net_of (d_daemon_id d) →
  Good (start_session env d st).2.
Proof.
  intros HG Hf Hn. unfold start_session, start_blocked, has_active_session_for_discovery.
  case_bool_decide as Hb; [done|]. apply good_start_commit; auto.
  by apply eq_None_not_Some.
Qed.

(** *** Dispatch *)

Lemma served_update S k (s s' : payload) :
  Served S → S !! k = Some s → daemon_id s' = daemon_id s → (active s → active s') →
  (phase s' = Queued → phase s = Queued ∨
     ∃ j t, j ≠ k ∧ S !! j = Some t ∧ active t ∧ daemon_id t = daemon_id s) →
  Served (<[k := s']> S).
Proof.
  intros HV Hk Ed Ha Hq.
  assert (∀ j t, S !! j = Some t → active t → ∃ t', <[k:=s']> S !! j = Some t' ∧ active t'
    ∧ daemon_id t' = daemon_id t) as Hstep.
  { intros j t Ht Hat. destruct (decide (k = j)) as [<-|Hne].
    - exists s'. rewrite lookup_insert_eq. assert (t = s) as -> by congruence. auto.
    - exists t. by rewrite lookup_insert_ne. }
  assert (∀ j t, S !! j = Some t → active t → daemon_id t = daemon_id s →
    ∃ k' t', <[k:=s']> S !! k' = Some t' ∧ active t' ∧ daemon_id t' = daemon_id s') as Hout.
  { intros j t Ht Hat Hd. destruct (Hstep j t Ht Hat) as (t' & ? & ? & ?).
    exists j, t'. split_and!; congruence. }
  intros j t. rewrite lookup_insert_Some. intros [[<- <-]|[Hne Ht]] Hp.
  - destruct (Hq Hp) as [Hp'|(j & t & ? & Ht & Hat & Hd)]; [|by eapply Hout].
    destruct (HV k s Hk Hp') as (j & t & Ht & Hat & Hd). by eapply Hout.
  - destruct (HV j t Ht Hp) as (j' & u & Hu & Hau & Hd).
    destruct (Hstep j' u Hu Hau) as (u' & ? & ? & ?). exists j', u'. split_and!; congruence.
Qed.

(** An active session may move to any other active phase. *)
Lemma good_active_update S Q D R k (s s' : payload) :
  Inv net_of S Q D R [] → Served S → S !! k = Some s → active s → active s' →
  session_id s' = session_id s → daemon_id s' = daemon_id s → network_id s' = network_id s →
  discovery_id s' = discovery_id s → finished_at s' = None →
  Inv net_of (<[k := s']> S) Q D R [] ∧ Served (<[k := s']> S).
Proof.
  intros HI HV Hk Ha Ha' ? ? ? ? ?.
  pose proof (active_not_awaiting s Ha) as [Hna _].
  pose proof (active_not_awaiting s' Ha') as [Hna' Hnq'].
  assert (network_id s ∉ R) as Hnr.
  { intros Hin. apply Hna, (inv_snap _ _ _ _ _ _ HI k s Hk). by left. }
  split.
  - eapply inv_update; eauto.
    + unfold active in Ha'. by destruct (phase s').
    + set_solver.
    + intros _ j t Hne Ht Hd Hat. apply Hne. by eapply (inv_unique _ _ _ _ _ _ HI j k).
  - eapply served_update; eauto. done.
Qed.

Lemma good_transition env sid st : Good st → Good (transition_session_to_starting env sid st).
Proof.
  intros HG. unfold transition_session_to_starting.
  destruct (sessions st !! sid) as [s|] eqn:E; [|done].
  case_bool_decide as Hp; [|done]. destruct HG as [HI HV]. unfold Good. simpl.
  eapply good_active_update; eauto; try done.
  - unfold active. by rewrite Hp.
  - by apply (inv_live _ _ _ _ _ _ HI sid s).
Qed.

(** What [start_initial_discovery_sessions] needs: identifiers nobody uses yet
    and discoveries on the network of their daemon. *)
Definition fresh_work (work : list (Env * Discovery)) (st : DiscoveryService) : Prop :=
  NoDup ((λ w : Env * Discovery, fresh w.1 0) <$> work)
  ∧ Forall (λ w, sessions st !! fresh w.1 0 = None
                 ∧ d_network_id w.2 = net_of (d_daemon_id w.2)) work.

Lemma start_session_dom env d st k :
  k ≠ fresh env 0 → sessions (start_session env d st).2 !! k = sessions st !! k.
Proof.
  intros Hne. unfold start_session. destruct (start_blocked d st); [done|].
  destruct (hydrate env d) as [ty|] eqn:Hh.
  - destruct (start_commit_state env d st ty Hh) as (p & E & _). rewrite E.
    by rewrite lookup_insert_ne.
  - by destruct (start_commit_fails env d st Hh) as [(-> & _) _].
Qed.

Lemma good_start_initial work st :
  Good st → fresh_work work st → Good (start_initial_discovery_sessions work st).
Proof.
  revert st. induction work as [|[env d] work IH]; intros st HG [Hnd Hall]; simpl; [done|].
  apply list.NoDup_cons in Hnd as [Hnin Hnd]. apply Forall_cons_iff in Hall as [[Hf Hn] Hall].
  apply IH; [destruct (never_ran _); [by apply good_start|done]|].
  split; [done|]. apply Forall_forall. intros w Hw.
  rewrite Forall_forall in Hall. destruct (Hall w Hw) as [Hwf Hwn]. split; [|done].
  destruct (never_ran _); [|done]. rewrite start_session_dom; [done|].
  intros E. apply Hnin. simpl. rewrite <- E.
  apply list_elem_of_fmap. exists w. split; [done|]. by apply list_elem_of_In.
Qed.

Lemma good_get_pending_work env work did st :
  Good st → fresh_work work st → Good (get_pending_work env work did st).2.
Proof.
  intros HG Hw. unfold get_pending_work. destruct (has_active_session_for_daemon st did); [done|].
  pose proof (good_start_initial work st HG Hw) as HG'.
  destruct (get_sessions_for_daemon _ did); [done|]. by apply good_transition.
Qed.

(** *** Snapshots *)

Lemma good_try_acquire nid st : Good st → Good (try_acquire_network_for_snapshot nid st).2.
Proof.
  intros HG. unfold try_acquire_network_for_snapshot. case_bool_decide; [done|].
  destruct (existsb _ _) eqn:E; [done|]. destruct HG as [[] HV]. split; [|done].
  constructor; simpl; auto. intros k s Hk. rewrite inv_snap by done.
  assert (network_id s ≠ nid) as Hne; [|set_solver]. intros Hn.
  assert (existsb (λ s, (network_id s =? nid)%N && negb (is_terminal (phase s)))
            (hash_values (sessions st)) = true) as Ht; [|congruence].
  apply existsb_exists. exists s. split; [apply list_elem_of_In, elem_of_hash_values; eauto|].
  destruct (inv_live k s Hk) as [-> _]. by rewrite Hn, N.eqb_refl.
Qed.

Lemma inv_shrink S Q D R k T :
  Inv net_of S Q D R (k :: T) → S !! k = None → Inv net_of S Q D R T.
Proof.
  intros [] Hk. constructor; auto. intros j s Hj. rewrite inv_snap by done.
  rewrite elem_of_cons. split; [|tauto]. intros [?|[->|?]]; [tauto|congruence|tauto].
Qed.

(** What the release loop keeps: the sessions still to be released are [T]. *)
Definition Releasing (nid : Uuid) (T : list Uuid) (st : DiscoveryService) : Prop :=
  Inv net_of (sessions st) (daemon_sessions st) (discovery_sessions st) (running_snapshots st) T
  ∧ Served (sessions st) ∧ NoDup T ∧ nid ∉ running_snapshots st
  ∧ ∀ k s, k ∈ T → sessions st !! k = Some s → network_id s = nid.

Lemma daemon_has_active_spec st T sid s :
  Inv net_of (sessions st) (daemon_sessions st) (discovery_sessions st) (running_snapshots st) T →
  sessions st !! sid = Some s →
  daemon_has_active st (daemon_id s) sid = true ↔
  ∃ j t, j ≠ sid ∧ sessions st !! j = Some t ∧ active t ∧ daemon_id t = daemon_id s.
Proof.
  intros HI Hs. unfold daemon_has_active.
  destruct (inv_queued _ _ _ _ _ _ HI sid s Hs) as (q & Hq & _). rewrite Hq.
  rewrite existsb_exists. split.
  - intros (j & Hj%list_elem_of_In & Hb). destruct (N.eqb_spec j sid) as [|Hne]; [done|].
    destruct (inv_member _ _ _ _ _ _ HI _ _ j Hq Hj) as (t & Ht & Hd). rewrite Ht in Hb.
    bool_hyps. exists j, t. split_and!; auto. unfold active. by destruct (phase t).
  - intros (j & t & Hne & Ht & Ha & Hd). exists j.
    destruct (inv_queued _ _ _ _ _ _ HI j t Ht) as (q' & Hq' & Hin).
    rewrite Hd, Hq in Hq'. inv Hq'. split; [by apply list_elem_of_In|].
    rewrite (proj2 (N.eqb_neq j sid)) by done. rewrite Ht. unfold active in Ha.
    by destruct (phase t).
Qed.

Lemma releasing_one env nid sid T acc :
  Releasing nid (sid :: T) acc.1 → Releasing nid T (release_one env sid acc).1.
Proof.
  destruct acc as [st ps]; simpl fst at 1.
  intros (HI & HV & Hnd & Hnr & Hnet). apply list.NoDup_cons in Hnd as [Hnin Hnd].
  unfold release_one. destruct (sessions st !! sid) as [s|] eqn:Hs.
  2:{ split_and!; [by eapply inv_shrink|done..|]. intros k s Hk. apply Hnet. by right. }
  assert (network_id s = nid) as En by (apply (Hnet sid s); [left|done]).
  assert (¬ active s) as Hna.
  { intros Ha. apply (proj1 (active_not_awaiting s Ha)), (inv_snap _ _ _ _ _ _ HI sid s Hs). right. left. }
  assert (finished_at s = None) as Hfin by apply (inv_live _ _ _ _ _ _ HI sid s Hs).
  pose proof (daemon_has_active_spec st (sid :: T) sid s HI Hs) as Hspec.
  assert (∀ s', network_id s' = network_id s →
    ∀ k t, k ∈ T → <[sid := s']> (sessions st) !! k = Some t → network_id t = nid) as Hnet'.
  { intros s' Es' k t Hk. rewrite lookup_insert_Some.
    intros [[<- <-]|[_ Ht]]; [congruence|]. apply (Hnet k t); [by right|done]. }
  destruct (daemon_has_active st (daemon_id s) sid) eqn:Eact; simpl.
  - split_and!; simpl; [..|done|done|by apply Hnet'].
    + eapply inv_update; eauto; simpl; try done; set_solver.
    + eapply served_update; eauto; [done|]. intros _. right. by apply Hspec.
  - split_and!; simpl; [..|done|done|by apply Hnet'].
    + eapply inv_update; eauto; simpl; try done; [set_solver..|].
      intros _ j t Hne Ht Hd Ha. assert (false = true); [|done]. apply Hspec. eauto 6.
    + eapply served_update; eauto; done.
Qed.

Lemma releasing_all env nid T acc :
  Releasing nid T acc.1 →
  Releasing nid [] (foldl (λ acc sid, release_one env sid acc) acc T).1.
Proof.
  revert acc. induction T as [|sid T IH]; intros acc HR; [done|].
  apply IH. by apply releasing_one.
Qed.

Lemma awaiting_session_ids_spec st nid T0 k :
  Inv net_of (sessions st) (daemon_sessions st) (discovery_sessions st) (running_snapshots st) T0 →
  k ∈ awaiting_session_ids st nid ↔
  ∃ s, sessions st !! k = Some s ∧ network_id s = nid ∧ phase s = AwaitingSnapshot.
Proof.
  intros HI. unfold awaiting_session_ids. rewrite list_elem_of_fmap. split.
  - intros (s & -> & Hs). apply list_elem_of_filter in Hs as [[? ?] [j Hj]%elem_of_hash_values].
    rewrite (inv_key _ _ _ _ _ _ HI j s Hj). eauto.
  - intros (s & Hk & ? & ?). exists s. split; [by rewrite (inv_key _ _ _ _ _ _ HI k s Hk)|].
    apply list_elem_of_filter. split; [done|]. apply elem_of_hash_values. eauto.
Qed.

(** Session ids read off the values of the map are its keys. *)
Lemma session_ids_NoDup (S : gmap Uuid payload) :
  (∀ k s, S !! k = Some s → session_id s = k) → NoDup (session_id <$> hash_values S).
Proof.
  intros Hk. unfold hash_values. rewrite <- list_fmap_compose.
  replace ((session_id ∘ snd) <$> hash_iter S) with (hash_iter S).*1;
    [apply NoDup_hash_iter_keys|].
  apply list_fmap_ext. intros i [k s] Hi. symmetry. apply Hk.
  apply elem_of_hash_iter. by eapply list_elem_of_lookup_2.
Qed.

Lemma fmap_filter_NoDup {A B} (f : A → B) (P : A → Prop) `{∀ x, Decision (P x)} l :
  NoDup (f <$> l) → NoDup (f <$> filter P l).
Proof.
  intros Hnd. eapply sublist_NoDup; [exact Hnd|]. apply fmap_sublist, sublist_filter.
Qed.

Lemma same_core_publish_all env ps st : same_core (publish_all env ps st) st.
Proof.
  unfold publish_all. generalize (imap pair ps). intros l. revert st.
  induction l as [|[i p] l IH]; intros st; simpl; [done|].
  rewrite IH. by destruct (bus_ok env i).
Qed.

Lemma good_release env nid st : Good st → Good (release_network_for_snapshot env nid st).
Proof.
  intros [HI HV]. unfold release_network_for_snapshot, release_sessions.
  set (st1 := with_running _ st). set (T := awaiting_session_ids st1 nid).
  assert (∀ k, k ∈ T ↔ ∃ s, sessions st !! k = Some s ∧ network_id s = nid
            ∧ phase s = AwaitingSnapshot) as HT.
  { intros k. apply (awaiting_session_ids_spec st nid []). done. }
  assert (Releasing nid T st1) as HR.
  { split_and!; [|done| | |].
    - pose proof HI as []. constructor; simpl; auto. intros k s Hk.
      rewrite inv_snap by done. rewrite HT. split.
      + intros Hp. destruct (decide (network_id s = nid)); [|set_solver].
        right. exists s. split_and!; auto. by apply (inv_snap k).
      + intros [?|(s' & Hs' & ? & Hp)]; [set_solver|]. rewrite <- (inv_snap k s Hk). congruence.
    - apply fmap_filter_NoDup, session_ids_NoDup. apply (inv_key _ _ _ _ _ _ HI).
    - simpl. set_solver.
    - intros k s Hk Hs. apply HT in Hk as (s' & Hs' & <- & _). simpl in Hs. congruence. }
  apply (releasing_all env nid T (st1, [])) in HR.
  destruct (foldl _ (st1, []) T) as [st2 ps]. simpl in HR.
  apply (good_proper _ _ (same_core_publish_all env ps st2)). by destruct HR as (? & ? & _).
Qed.

(** *** Leaving the queue *)

Lemma promote_head_core env q st :
  let st' := (promote_head env q st).2 in
  sessions st' = promoted q (sessions st) ∧ daemon_sessions st' = daemon_sessions st
  ∧ discovery_sessions st' = discovery_sessions st ∧ running_snapshots st' = running_snapshots st.
Proof.
  unfold promote_head, promoted. destruct (head q) as [h|]; [|done].
  by destruct (sessions st !! h).
Qed.

Lemma delete_promoted k u q (S : gmap Uuid payload) :
  k ∉ q → delete k (promoted q (<[k := u]> S)) = promoted q (delete k S).
Proof.
  intros Hk. unfold promoted. destruct q as [|h q]; simpl; [by rewrite delete_insert_eq|].
  assert (h ≠ k) by (intros ->; apply Hk; left). rewrite lookup_insert_ne, lookup_delete_ne by done.
  destruct (S !! h); [|by rewrite delete_insert_eq].
  by rewrite delete_insert_ne, delete_insert_eq by done.
Qed.

Lemma finish_core env u od on st q :
  bus_ok env 0 = true → bus_ok env 1 = true → daemon_sessions st !! daemon_id u = Some q →
  let st' := (finish_session env u od on st).2 in
  let q' := queue_retain (session_id u) q in
  sessions st' = delete (session_id u) (promoted q' (sessions st))
  ∧ daemon_sessions st' = <[daemon_id u := q']> (daemon_sessions st)
  ∧ discovery_sessions st' = retain_not (session_id u) (discovery_sessions st)
  ∧ running_snapshots st' = running_snapshots st.
Proof.
  intros Hb0 Hb1 Hq. unfold finish_session. rewrite Hb0, Hb1. simpl.
  rewrite andb_false_r.
  match goal with |- context [lookup_discovery_id ?x ?y] =>
    generalize (lookup_discovery_id x y); intros par end.
  generalize (historical_discovery env 0 match bool_decide
    (is_Some (rescan_target_host_id (discovery_type u))) with
    | true => match par with Some p => d_name <$> discovery_storage st !! p | None => None end
    | false => None end u). intros hist.
  match goal with |- context [daemon_sessions ?x !! daemon_id u] =>
    assert (sessions x = sessions st ∧ daemon_sessions x = daemon_sessions st
      ∧ discovery_sessions x = discovery_sessions st ∧ running_snapshots x = running_snapshots st)
      as (E1 & E2 & E3 & E4);
    [destruct par; repeat (case_match; simpl); done|generalize dependent x] end.
  intros x E1 E2 E3 E4. rewrite E2, Hq.
  destruct (promote_head_core env (queue_retain (session_id u) q)
    (with_daemon_sessions <[daemon_id u:=queue_retain (session_id u) q]> x)) as (F1 & F2 & F3 & F4).
  destruct (promote_head _ _ _) as [next st2]. simpl in *. rewrite <- E1, <- E2, <- E3, <- E4.
  rewrite <- F1, <- F2, <- F3, <- F4.
  destruct next; [destruct (bus_ok env 2)|]; done.
Qed.

(** The discovery map is the inverse of the sessions' [discovery_id]. *)
Lemma lookup_discovery_id_Some st sid d :
  lookup_discovery_id st sid = Some d → discovery_sessions st !! d = Some sid.
Proof.
  unfold lookup_discovery_id. rewrite fmap_Some. intros ([d' k] & Hf & ->).
  apply find_some in Hf as [Hin He]. apply N.eqb_eq in He. simpl in *. subst.
  apply elem_of_hash_iter. by apply list_elem_of_In.
Qed.

Lemma lookup_discovery_id_None st sid d :
  lookup_discovery_id st sid = None → discovery_sessions st !! d ≠ Some sid.
Proof.
  unfold lookup_discovery_id. rewrite fmap_None. intros Hf Hd.
  apply elem_of_hash_iter, list_elem_of_In in Hd.
  apply (find_none _ _ Hf) in Hd. simpl in Hd. by rewrite N.eqb_refl in Hd.
Qed.

Lemma lookup_discovery_id_live st sid s :
  Good st → sessions st !! sid = Some s → lookup_discovery_id st sid = discovery_id s.
Proof.
  intros [HI _] Hs. destruct (lookup_discovery_id st sid) as [d|] eqn:E.
  - apply lookup_discovery_id_Some, (inv_disc _ _ _ _ _ _ HI) in E as (s' & Hs' & Hd). congruence.
  - destruct (discovery_id s) as [d|] eqn:Ed; [|done]. exfalso.
    apply (lookup_discovery_id_None st sid d E), (inv_disc _ _ _ _ _ _ HI). eauto.
Qed.

Lemma lookup_discovery_id_unknown st sid :
  Good st → sessions st !! sid = None → lookup_discovery_id st sid = None.
Proof.
  intros [HI _] Hs. destruct (lookup_discovery_id st sid) as [d|] eqn:E; [|done].
  apply lookup_discovery_id_Some, (inv_disc _ _ _ _ _ _ HI) in E as (s' & Hs' & _). congruence.
Qed.

(** *** Progress updates *)

(** What a daemon may report: either that it is still working or that it is done. *)
Definition reportable (u : payload) : Prop :=
  is_terminal (phase u) = true ∨ (active u ∧ finished_at u = None).

(** An update on the session the daemon was given. *)
Definition reports_on (st : DiscoveryService) (u s : payload) : Prop :=
  sessions st !! session_id u = Some s ∧ active s
  ∧ daemon_id u = daemon_id s ∧ network_id u = network_id s
  ∧ (discovery_id u = None ∨ discovery_id u = discovery_id s) ∧ reportable u.

(** An update on a session this process never saw, from an idle daemon. *)
Definition adopted (st : DiscoveryService) (u : payload) : Prop :=
  sessions st !! session_id u = None ∧ daemon_queue st (daemon_id u) = []
  ∧ network_id u = net_of (daemon_id u) ∧ network_id u ∉ running_snapshots st
  ∧ (∀ d, discovery_id u = Some d → discovery_sessions st !! d = None) ∧ reportable u.

Definition bus_reliable (env : Env) : Prop := bus_ok env 0 = true ∧ bus_ok env 1 = true.

Lemma same_core_onboarding env nid u st : same_core (onboarding env nid u st) st.
Proof. unfold onboarding. repeat (case_match; simpl); done. Qed.

(** Terminal processing of a session that held its daemon. *)
Lemma good_finish_active env st st1 u s od on :
  bus_reliable env → Good st → sessions st !! session_id u = Some s → active s →
  daemon_id u = daemon_id s →
  same_core st1 (with_sessions (<[session_id u := u]>) st) →
  Good (finish_session env u od on st1).2.
Proof.
  intros [Hb0 Hb1] [HI HV] Hs Ha Hd (E1 & E2 & E3 & E4). simpl in *.
  destruct (inv_queued _ _ _ _ _ _ HI _ s Hs) as (q & Hq & Hin).
  destruct (finish_core env u od on st1 q Hb0 Hb1) as (F1 & F2 & F3 & F4).
  { by rewrite E2, Hd. }
  unfold Good. rewrite F1, F2, F3, F4, E1, E2, E3, E4, delete_promoted, Hd.
  2:{ rewrite elem_of_queue_retain. tauto. }
  by eapply inv_replace_active.
Qed.

Lemma good_update_known env u s st :
  bus_reliable env → Good st → reports_on st u s → Good (update_session env u st).2.
Proof.
  intros Hb HG (Hs & Ha & Hd & Hn & Hdisc & Hrep). unfold update_session, update_section.
  rewrite (lookup_discovery_id_live st _ s HG Hs).
  set (u' := match discovery_id u with Some _ => u | None => _ end).
  assert (session_id u' = session_id u ∧ daemon_id u' = daemon_id s ∧ network_id u' = network_id s
    ∧ phase u' = phase u ∧ finished_at u' = finished_at u ∧ discovery_id u' = discovery_id s)
    as (Eu1 & Eu2 & Eu3 & Eu4 & Eu5 & Eu6).
  { unfold u'. destruct (discovery_id u) eqn:E; simpl; split_and!; auto.
    destruct Hdisc; congruence. }
  clearbody u'. rewrite Eu1. simpl. rewrite Hs.
  set (st1 := with_sessions _ (broadcast u' _)).
  assert (same_core st1 (with_sessions (<[session_id u' := u']>) st)) as Hc.
  { rewrite Eu1. unfold st1, same_core. simpl.
    destruct (same_core_onboarding env (network_id s) u' (with_last_updated
      <[session_id u:=now env]> st)) as (-> & -> & -> & ->). done. }
  clearbody st1. destruct Hrep as [Ht|[Hact Hfin]].
  - rewrite Eu4, Ht. eapply good_finish_active; eauto. by rewrite Eu1.
  - assert (is_terminal (phase u') = false) as ->.
    { unfold active in Hact. rewrite Eu4. by destruct (phase u). }
    apply (good_proper _ _ Hc). destruct HG as [HI HV]. unfold Good. simpl. rewrite Eu1.
    assert (active u') by (unfold active; by rewrite Eu4).
    eapply good_active_update; eauto; try congruence.
    by rewrite Eu1, (inv_key _ _ _ _ _ _ HI _ s Hs).
Qed.

Lemma inv_idle_queue S Q D R d :
  Inv net_of S Q D R [] → (∀ k s, S !! k = Some s → daemon_id s ≠ d) →
  Inv net_of S (<[d := []]> Q) D R [].
Proof.
  intros [] Hno. constructor; auto.
  - intros k s Hk. rewrite lookup_insert_ne by (intros E; by apply (Hno k s)). eauto.
  - intros d' q. rewrite lookup_insert_Some. intros [[<- <-]|[? ?]]; [constructor|eauto].
  - intros d' q k. rewrite lookup_insert_Some.
    intros [[<- <-]|[? ?]]; [by intros ?%not_elem_of_nil|eauto].
Qed.

Lemma retain_not_fresh sid D : (∀ d, D !! d ≠ Some sid) → retain_not sid D = D.
Proof.
  intros Hf. apply map_eq. intros d. apply option_eq. intros k.
  rewrite lookup_retain_not. split; [by intros [? _]|]. intros Hd. split; [done|]. intros ->. by apply (Hf d).
Qed.

Lemma retain_not_insert sid d D :
  (∀ d, D !! d ≠ Some sid) → D !! d = None → retain_not sid (<[d := sid]> D) = D.
Proof.
  intros Hf Hd. apply map_eq. intros d'. apply option_eq. intros k.
  rewrite lookup_retain_not, lookup_insert_Some. split.
  - intros [[[<- <-]|[? ?]] ?]; done.
  - intros Hk. split; [right; split; congruence|]. intros ->. by apply (Hf d').
Qed.

Lemma queue_retain_tail k : queue_retain k [k] = [].
Proof. unfold queue_retain. by rewrite filter_cons_False by (intros ?; done). Qed.

(** The service after an unknown session [u] was created on an idle daemon. *)
Definition with_adopted (u : payload) (st : DiscoveryService) : DiscoveryService :=
  with_sessions (<[session_id u := u]>)
    (with_discovery_sessions
       (λ D, match discovery_id u with Some d => <[d := session_id u]> D | None => D end)
       (with_daemon_sessions (<[daemon_id u := [session_id u]]>) st)).

Lemma good_adopt_active u st :
  Good st → adopted st u → active u → finished_at u = None → Good (with_adopted u st).
Proof.
  intros HG (Hs & Hq & Hn & Hr & Hd & _) Ha Hf. pose proof HG as [HI HV]. unfold Good. simpl.
  pose proof (active_not_awaiting u Ha) as [Hna Hnq]. split.
  - replace [session_id u] with (default [] (daemon_sessions st !! daemon_id u) ++ [session_id u])
      by (unfold daemon_queue in Hq; by rewrite Hq).
    apply inv_insert; auto.
    + unfold active in Ha. by destruct (phase u).
    + tauto.
    + intros _ j t Ht Hdt. exfalso. by eapply queue_empty_no_session.
  - by apply served_insert_new.
Qed.

Lemma good_adopt_terminal env u od on st st1 :
  bus_reliable env → Good st → adopted st u → same_core st1 (with_adopted u st) →
  Good (finish_session env u od on st1).2.
Proof.
  intros [Hb0 Hb1] HG (Hs & Hq & Hn & Hr & Hd & _) (E1 & E2 & E3 & E4). simpl in *.
  pose proof HG as [HI HV].
  assert (∀ d, discovery_sessions st !! d ≠ Some (session_id u)) as Hf.
  { intros d (s & Hs' & _)%(inv_disc _ _ _ _ _ _ HI). congruence. }
  destruct (finish_core env u od on st1 [session_id u] Hb0 Hb1) as (F1 & F2 & F3 & F4).
  { by rewrite E2, lookup_insert_eq. }
  rewrite queue_retain_tail in F1, F2. unfold promoted in F1. simpl in F1.
  unfold Good. rewrite F1, F2, F3, F4, E1, E2, E3, E4.
  rewrite delete_insert_id by done. rewrite insert_insert_eq.
  assert (retain_not (session_id u) match discovery_id u with
    | Some d => <[d:=session_id u]> (discovery_sessions st)
    | None => discovery_sessions st end = discovery_sessions st) as ->.
  { destruct (discovery_id u) as [d|]; [by apply retain_not_insert; auto|by apply retain_not_fresh]. }
  split; [|done]. apply inv_idle_queue; [done|]. by apply queue_empty_no_session.
Qed.

Lemma good_update_adopted env u st :
  bus_reliable env → Good st → adopted st u → Good (update_session env u st).2.
Proof.
  intros Hb HG Hadopt. pose proof Hadopt as (Hs & Hq & Hn & Hr & Hd & Hrep).
  unfold update_session, update_section. rewrite (lookup_discovery_id_unknown st _ HG Hs).
  replace (match discovery_id u with Some _ => u | None => set_discovery_id None u end) with u
    by (destruct u; simpl; by destruct discovery_id).
  simpl. rewrite Hs. destruct (is_terminal (phase u)) eqn:Ht; simpl.
  - case_bool_decide as Hseen; [by apply (good_proper _ st)|].
    eapply good_adopt_terminal; eauto. unfold same_core. simpl.
    match goal with |- context [onboarding env ?a u ?b] =>
      destruct (same_core_onboarding env a u b) as (-> & -> & -> & ->) end.
    unfold daemon_queue in Hq.
    destruct (discovery_id u); simpl; rewrite Hq, insert_insert_eq; done.
  - destruct Hrep as [?|[Hact Hfin]]; [congruence|].
    apply (good_proper _ (with_adopted u st)); [|by apply good_adopt_active].
    unfold same_core. simpl.
    match goal with |- context [onboarding env ?a u ?b] =>
      destruct (same_core_onboarding env a u b) as (-> & -> & -> & ->) end.
    unfold daemon_queue in Hq.
    destruct (discovery_id u); simpl; rewrite Hq, insert_insert_eq; done.
Qed.

(** A late report on a session already finished is ignored. *)
Lemma update_session_late env u st :
  sessions st !! session_id u = None → is_terminal (phase u) = true →
  is_Some (session_last_updated st !! session_id u) →
  (update_session env u st).1 = Ok tt ∧ same_core (update_session env u st).2 st
  ∧ update_tx (update_session env u st).2 = update_tx st
  ∧ bus_events (update_session env u st).2 = bus_events st.
Proof.
  intros Hs Ht Hseen. unfold update_session, update_section.
  set (u' := match discovery_id u with Some _ => u | None => _ end).
  assert (session_id u' = session_id u ∧ phase u' = phase u) as [E1 E2]
    by (unfold u'; by destruct (discovery_id u)).
  clearbody u'. rewrite E1. simpl. rewrite Hs, E2, Ht.
  rewrite bool_decide_eq_true_2 by done. done.
Qed.

(** *** Cancellation *)

Lemma good_cancel env sid st : Good st → Good (cancel_session env sid st).2.
Proof.
  intros HG. unfold cancel_session, cancel_removal, get_session. pose proof HG as [HI HV].
  destruct (sessions st !! sid) as [s|] eqn:Hs; [|done]. simpl.
  destruct (inv_queued _ _ _ _ _ _ HI sid s Hs) as (q & Hq & Hin). rewrite Hq.
  generalize (lookup_discovery_id st sid). intros par.
  pose proof (inv_delete net_of _ _ _ _ _ _ _ q HI Hs Hq) as HI'.
  assert (¬ active s → Good (with_discovery_sessions (retain_not sid)
    (with_daemon_sessions <[daemon_id s := queue_retain sid q]> (with_sessions (delete sid) st))))
    as Hwait.
  { intros Hna. split; [done|]. by eapply served_delete_inactive. }
  destruct (phase s) eqn:Hp; simpl; try (by destruct (bus_ok env 0)); try done.
  - eapply good_proper; [|apply Hwait; unfold active; by rewrite Hp].
    by destruct (bool_decide _), par; simpl; try destruct (db_ok env).
  - eapply good_proper; [|apply Hwait; unfold active; by rewrite Hp].
    by destruct (bool_decide _), par; simpl; try destruct (db_ok env).
  - set (st2 := with_daemon_sessions _ (with_sessions (delete sid) st)).
    destruct (promote_head_core env (queue_retain sid q) st2) as (F1 & F2 & F3 & F4).
    destruct (inv_replace_active net_of _ _ _ _ sid s q HI HV Hs) as [HI2 HV2];
      [unfold active; by rewrite Hp|done|].
    apply (good_proper _ (with_discovery_sessions (retain_not sid)
      (promote_head env (queue_retain sid q) st2).2)).
    { by destruct (bool_decide _), par; simpl; try destruct (db_ok env). }
    unfold Good. simpl. rewrite F1, F2, F3, F4. done.
Qed.

(** *** Clearing a daemon *)

Definition forget (st : DiscoveryService) (sid : Uuid) : DiscoveryService :=
  with_discovery_sessions (retain_not sid)
    (with_last_updated (delete sid) (with_sessions (delete sid) st)).

Lemma forget_all ids st :
  let st' := foldl forget st ids in
  (∀ k s, sessions st' !! k = Some s ↔ sessions st !! k = Some s ∧ k ∉ ids)
  ∧ (∀ d k, discovery_sessions st' !! d = Some k ↔ discovery_sessions st !! d = Some k ∧ k ∉ ids)
  ∧ daemon_sessions st' = daemon_sessions st ∧ running_snapshots st' = running_snapshots st.
Proof.
  clear net_of. revert st. induction ids as [|i ids IH]; intros st; simpl; [set_solver|].
  destruct (IH (forget st i)) as (H1 & H2 & H3 & H4). split_and!; [..|done|done].
  - intros k s. rewrite H1. simpl. rewrite lookup_delete_Some, not_elem_of_cons. naive_solver.
  - intros d k. rewrite H2. simpl. rewrite lookup_retain_not, not_elem_of_cons. naive_solver.
Qed.

Lemma clear_sessions_spec did st :
  let st' := clear_sessions_for_daemon did st in
  let ids := daemon_queue st did in
  (∀ k s, sessions st' !! k = Some s ↔ sessions st !! k = Some s ∧ k ∉ ids)
  ∧ (∀ d k, discovery_sessions st' !! d = Some k ↔ discovery_sessions st !! d = Some k ∧ k ∉ ids)
  ∧ daemon_sessions st' = delete did (daemon_sessions st)
  ∧ running_snapshots st' = running_snapshots st
  ∧ daemon_pull_cancellations st' !! did = None.
Proof.
  clear net_of. unfold clear_sessions_for_daemon, daemon_queue.
  destruct (daemon_sessions st !! did) as [ids|] eqn:E; simpl.
  - pose proof (forget_all ids (with_daemon_sessions (delete did) st)) as (H1 & H2 & H3 & H4).
    simpl in *. split_and!; [done..|]. by rewrite lookup_delete_eq.
  - split_and!; [set_solver..| |done|by rewrite lookup_delete_eq].
    by rewrite delete_id.
Qed.

Lemma good_clear did st : Good st → Good (clear_sessions_for_daemon did st).
Proof.
  intros [HI HV]. destruct (clear_sessions_spec did st) as (H1 & H2 & H3 & H4 & _).
  assert (∀ k s, sessions st !! k = Some s → k ∉ daemon_queue st did ↔ daemon_id s ≠ did) as Hin.
  { intros k s Hk. destruct (inv_queued _ _ _ _ _ _ HI k s Hk) as (q & Hq & Hkq).
    unfold daemon_queue. split.
    - intros Hn <-. rewrite Hq in Hn. done.
    - intros Hne Hin. destruct (daemon_sessions st !! did) as [q'|] eqn:E; [|set_solver].
      destruct (inv_member _ _ _ _ _ _ HI _ _ _ E Hin) as (t & Ht & Hd). congruence. }
  pose proof HI as []. split.
  - constructor; rewrite ?H3, ?H4.
    + intros k s [? _]%H1. eauto.
    + intros k s [? _]%H1. eauto.
    + intros k s [Hk Hn]%H1. rewrite lookup_delete_ne; [eauto|].
      intros E. by apply (Hin k s Hk) in Hn.
    + intros d q. rewrite lookup_delete_Some. intros [_ ?]. eauto.
    + intros d q k. rewrite lookup_delete_Some. intros [Hne Hq] Hk.
      destruct (inv_member d q k Hq Hk) as (s & Hs & Hd). exists s. split; [|done].
      apply H1. split; [done|]. apply (Hin k s Hs). congruence.
    + intros d k. rewrite H2, inv_disc. setoid_rewrite H1. naive_solver.
    + intros k s [? _]%H1. eauto.
    + intros k s [? _]%H1. eauto.
    + intros k1 k2 s1 s2 [? _]%H1 [? _]%H1. eauto.
  - intros k s [Hk Hn]%H1 Hp. destruct (HV k s Hk Hp) as (k' & s' & Hk' & Ha & Hd).
    exists k', s'. split; [|done]. apply H1. split; [done|]. apply (Hin k' s' Hk').
    rewrite Hd. by apply (Hin k s Hk).
Qed.

(** *** Periodic cleanup *)

(** Sessions are removed the moment they finish, so the age-based cleanup
    never finds one. *)
Lemma cleanup_old_noop env h st : Good st → cleanup_old_sessions env h st = st.
Proof.
  intros [HI _]. unfold cleanup_old_sessions.
  assert (old_session_ids (now env - h * 3600000) st = []) as ->; [|done].
  unfold old_session_ids. destruct (List.filter _ _) as [|[k s] l] eqn:E; [done|].
  assert (In (k, s) ((k, s) :: l)) as Hin by (by left). rewrite <- E in Hin.
  apply filter_In in Hin as [Hin%list_elem_of_In%elem_of_hash_iter Hb]. simpl in Hb.
  by destruct (inv_live _ _ _ _ _ _ HI k s Hin) as [_ Hf]; rewrite Hf in Hb.
Qed.

Lemma same_core_request env l st : same_core (foldl (request_cancellation env) st l) st
  ∧ session_last_updated (foldl (request_cancellation env) st l) = session_last_updated st.
Proof.
  revert st. induction l as [|[i s] l IH]; intros st; simpl; [done|].
  destruct (IH (request_cancellation env st (i, s))) as [Hc Hl]. rewrite Hl. split.
  - rewrite Hc. unfold request_cancellation. by destruct (bus_ok env _).
  - unfold request_cancellation. by destruct (bus_ok env _).
Qed.

(** After the active session left, the next one in the queue was waiting. *)
Lemma next_is_queued st k s q n t :
  Good st → sessions st !! k = Some s → active s → daemon_sessions st !! daemon_id s = Some q →
  head (queue_retain k q) = Some n → delete k (sessions st) !! n = Some t → phase t = Queued.
Proof.
  intros [HI HV] Hk Ha Hq Hh Ht. apply lookup_delete_Some in Ht as [Hne Ht].
  assert (n ∈ q) as Hin.
  { destruct (queue_retain k q) eqn:E; simplify_eq/=.
    apply (elem_of_queue_retain k n q). rewrite E. left. }
  destruct (inv_member _ _ _ _ _ _ HI _ _ n Hq Hin) as (t' & Ht' & Hd).
  assert (t' = t) as -> by congruence.
  destruct (phase_cases t) as [Hp|[Hp|Hact]]; [by apply (inv_live _ _ _ _ _ _ HI n t)| |done|].
  - exfalso. apply (inv_snap _ _ _ _ _ _ HI n t Ht) in Hp as [Hp|Hp%not_elem_of_nil]; [|done].
    apply (proj1 (active_not_awaiting s Ha)), (inv_snap _ _ _ _ _ _ HI k s Hk). left.
    rewrite (inv_net _ _ _ _ _ _ HI k s Hk), <- Hd, <- (inv_net _ _ _ _ _ _ HI n t Ht). done.
  - exfalso. apply Hne. by eapply (inv_unique _ _ _ _ _ _ HI k n).
Qed.

Lemma cleanup_stalled_one_core env i s st q :
  Good st → sessions st !! session_id s = Some s → active s →
  daemon_sessions st !! daemon_id s = Some q →
  let st' := cleanup_stalled_one env st (i, s) in
  let q' := queue_retain (session_id s) q in
  sessions st' = promoted q' (delete (session_id s) (sessions st))
  ∧ daemon_sessions st' = <[daemon_id s := q']> (daemon_sessions st)
  ∧ discovery_sessions st' = retain_not (session_id s) (discovery_sessions st)
  ∧ running_snapshots st' = running_snapshots st
  ∧ session_last_updated st' = delete (session_id s)
      (match head q' ≫= (λ n, delete (session_id s) (sessions st) !! n) with
       | Some n => <[session_id n := now env]> (session_last_updated st)
       | None => session_last_updated st
       end).
Proof.
  intros HG Hs Ha Hq. unfold cleanup_stalled_one. simpl. rewrite Hs. simpl. rewrite Hq.
  set (q' := queue_retain (session_id s) q).
  set (st2 := with_daemon_sessions <[daemon_id s:=q']> (with_sessions (delete (session_id s)) st)).
  set (st3 := match head q' ≫= _ with Some _ => _ | None => st2 end).
  assert (sessions st3 = promoted q' (sessions st2) ∧ daemon_sessions st3 = daemon_sessions st2
    ∧ discovery_sessions st3 = discovery_sessions st2
    ∧ running_snapshots st3 = running_snapshots st2
    ∧ session_last_updated st3 = match head q' ≫= (λ n, sessions st2 !! n) with
       | Some n => <[session_id n := now env]> (session_last_updated st)
       | None => session_last_updated st end) as (E1 & E2 & E3 & E4 & E5).
  { unfold st3, promoted, promote_head. change (sessions st2) with (delete (session_id s) (sessions st)).
    destruct (head q') as [n|] eqn:Hh; simpl; [|done].
    destruct (delete (session_id s) (sessions st) !! n) as [t|] eqn:Ht; simpl; [|done].
    rewrite bool_decide_eq_true_2 by (by eapply (next_is_queued st (session_id s) s q n t)). simpl.
    done. }
  clearbody st3. simpl in E1, E2, E3, E4, E5. rewrite <- E1, <- E2, <- E3, <- E4.
  change (delete (session_id s) (sessions st)) with (sessions st2).
  destruct (daemon_pull_cancellations st3 !! daemon_id s) as [[b c]|];
    [destruct (c =? session_id s)%N|]; destruct (daemon_exists env (daemon_id s) && db_ok env);
    simpl; rewrite E5; done.
Qed.

(** What the clean-up loop keeps: every stalled session is still to be treated. *)
Definition Cleaning (env : Env) (rest : list payload) (st : DiscoveryService) : Prop :=
  Good st ∧ NoDup (session_id <$> rest)
  ∧ (∀ s, s ∈ rest → sessions st !! session_id s = Some s ∧ active s)
  ∧ (∀ k s, sessions st !! k = Some s → is_stalled env st k s = true → k ∈ session_id <$> rest).

Lemma is_stalled_now env st k s :
  session_last_updated st !! k = Some (now env) → is_stalled env st k s = false.
Proof.
  intros E. unfold is_stalled. rewrite E, Z.sub_diag. by rewrite andb_false_r.
Qed.

Lemma is_stalled_ext env a b k s :
  session_last_updated a !! k = session_last_updated b !! k →
  is_stalled env a k s = is_stalled env b k s.
Proof. intros E. unfold is_stalled. by rewrite E. Qed.

Lemma promoted_cases q (S : gmap Uuid payload) :
  (promoted q S = S ∧ head q ≫= (λ n, S !! n) = None)
  ∨ ∃ h t, head q = Some h ∧ S !! h = Some t ∧ promoted q S = <[h := set_phase Pending t]> S
     ∧ head q ≫= (λ n, S !! n) = Some t.
Proof.
  unfold promoted. destruct (head q) as [h|]; simpl; [|by left].
  destruct (S !! h) eqn:E; [right; eauto 6|by left].
Qed.

Lemma cleaning_one env i s rest st :
  Cleaning env (s :: rest) st → Cleaning env rest (cleanup_stalled_one env st (i, s)).
Proof.
  intros (HG & Hnd & Hlive & Hst). apply list.NoDup_cons in Hnd as [Hnin Hnd].
  destruct (Hlive s) as [Hs Ha]; [left|]. pose proof HG as [HI HV].
  destruct (inv_queued _ _ _ _ _ _ HI _ s Hs) as (q & Hq & _).
  destruct (cleanup_stalled_one_core env i s st q HG Hs Ha Hq) as (E1 & E2 & E3 & E4 & E5).
  set (st' := cleanup_stalled_one env st (i, s)) in *. clearbody st'.
  assert (∀ t, t ∈ rest → session_id t ≠ session_id s) as Hrest.
  { intros t Ht E. apply Hnin. rewrite <- E. apply list_elem_of_fmap. eauto. }
  split_and!; [|done|..].
  { unfold Good. rewrite E1, E2, E3, E4. by eapply inv_replace_active. }
  - intros t Ht. destruct (Hlive t) as [Htl Hta]; [by right|]. split; [|done]. rewrite E1.
    destruct (promoted_cases (queue_retain (session_id s) q) (delete (session_id s) (sessions st)))
      as [[-> _]|(h & n & Hh & Hn & -> & _)].
    + rewrite lookup_delete_ne; [done|]. intros E. by apply (Hrest t Ht).
    + rewrite lookup_insert_ne, lookup_delete_ne; [done|intros E; by apply (Hrest t Ht)|].
      intros ->. pose proof (next_is_queued st _ s q _ n HG Hs Ha Hq Hh Hn) as Hp.
      apply lookup_delete_Some in Hn as [_ Hn]. rewrite Htl in Hn. inv Hn.
      by apply (active_not_awaiting n Hta).
  - intros k t. rewrite E1. destruct (promoted_cases (queue_retain (session_id s) q)
      (delete (session_id s) (sessions st))) as [[-> En]|(h & n & Hh & Hn & -> & En)];
      rewrite En in E5.
    + intros [Hne Hk]%lookup_delete_Some. rewrite (is_stalled_ext env st' st).
      2:{ rewrite E5. by rewrite lookup_delete_ne. }
      intros Hb. apply (Hst k t Hk), elem_of_cons in Hb as [->|]; done.
    + apply lookup_delete_Some in Hn as [Hhne Hn].
      rewrite (inv_key _ _ _ _ _ _ HI h n Hn) in E5.
      rewrite lookup_insert_Some. intros [[<- <-]|[Hkh [Hne Hk]%lookup_delete_Some]].
      { rewrite is_stalled_now; [done|]. rewrite E5.
        by rewrite lookup_delete_ne, lookup_insert_eq. }
      rewrite (is_stalled_ext env st' st).
      2:{ rewrite E5. by rewrite lookup_delete_ne, lookup_insert_ne. }
      intros Hb. apply (Hst k t Hk), elem_of_cons in Hb as [->|]; done.
Qed.

Lemma cleaning_all env rest st n :
  Cleaning env rest st →
  Cleaning env [] (foldl (cleanup_stalled_one env) st (imap (λ i s, (n + i, s)%nat) rest)).
Proof.
  revert st n. induction rest as [|s rest IH]; intros st n HC; [done|].
  rewrite imap_cons. cbn [foldl]. apply (cleaning_one env (n + 0)) in HC.
  apply (IH _ (S n)) in HC. erewrite imap_ext; [exact HC|].
  intros i x _. simpl. f_equal. lia.
Qed.

Lemma stalled_sessions_spec env st s :
  Good st → s ∈ stalled_sessions env st ↔
  sessions st !! session_id s = Some s ∧ is_stalled env st (session_id s) s = true.
Proof.
  intros [HI _]. unfold stalled_sessions. rewrite list_elem_of_fmap. split.
  - intros ([k t] & -> & Hin%list_elem_of_In%filter_In). destruct Hin as [Hin Hb]. simpl in *.
    apply list_elem_of_In, elem_of_hash_iter in Hin.
    by rewrite (inv_key _ _ _ _ _ _ HI k t Hin).
  - intros [Hs Hb]. exists (session_id s, s). split; [done|]. apply list_elem_of_In, filter_In.
    split; [|done]. by apply list_elem_of_In, elem_of_hash_iter.
Qed.

Lemma list_filter_sublist {A} (f : A → bool) l : List.filter f l `sublist_of` l.
Proof. induction l as [|x l IH]; simpl; [done|]. destruct (f x); by constructor. Qed.

Lemma cleaning_init env st : Good st → Cleaning env (stalled_sessions env st) st.
Proof.
  intros HG. split_and!; [done|..].
  - unfold stalled_sessions. eapply sublist_NoDup.
    + apply (session_ids_NoDup (sessions st)), HG.
    + apply fmap_sublist. unfold hash_values. apply fmap_sublist, list_filter_sublist.
  - intros s Hs%stalled_sessions_spec; [|done]. destruct Hs as [Hs Hb].
    split; [done|]. unfold is_stalled in Hb. by apply andb_prop in Hb as [? _].
  - intros k s Hk Hb. apply list_elem_of_fmap. exists s.
    rewrite (inv_key _ _ _ _ _ _ (proj1 HG) k s Hk). split; [done|].
    apply stalled_sessions_spec; [done|]. by rewrite (inv_key _ _ _ _ _ _ (proj1 HG) k s Hk).
Qed.

(** What clean-up may do to a session it does not remove. *)
Definition kept (s s' : payload) : Prop :=
  s' = s ∨ (phase s = Queued ∧ s' = set_phase Pending s).

Lemma kept_trans a b c : kept a b → kept b c → kept a c.
Proof.
  intros [->|[Ha ->]] [->|[Hb ->]]; [by left|by right|by right|].
  simpl in Hb. done.
Qed.

Lemma cleaning_one_keeps env i s rest st k t :
  Cleaning env (s :: rest) st → k ≠ session_id s → sessions st !! k = Some t →
  ∃ t', sessions (cleanup_stalled_one env st (i, s)) !! k = Some t' ∧ kept t t'.
Proof.
  intros (HG & _ & Hlive & _) Hne Hk. destruct (Hlive s) as [Hs Ha]; [left|].
  destruct (inv_queued _ _ _ _ _ _ (proj1 HG) _ s Hs) as (q & Hq & _).
  destruct (cleanup_stalled_one_core env i s st q HG Hs Ha Hq) as (E1 & _). rewrite E1.
  destruct (promoted_cases (queue_retain (session_id s) q) (delete (session_id s) (sessions st)))
    as [[-> _]|(h & n & Hh & Hn & -> & _)].
  { rewrite lookup_delete_ne by done. exists t. by split; [|left]. }
  destruct (decide (h = k)) as [->|Hhk].
  - exists (set_phase Pending n). rewrite lookup_insert_eq. split; [done|]. right.
    pose proof (next_is_queued st _ s q _ n HG Hs Ha Hq Hh Hn).
    apply lookup_delete_Some in Hn as [_ Hn]. assert (n = t) as -> by congruence. done.
  - rewrite lookup_insert_ne, lookup_delete_ne by done. exists t. by split; [|left].
Qed.

Lemma cleaning_all_keeps env rest st n k t :
  Cleaning env rest st → k ∉ session_id <$> rest → sessions st !! k = Some t →
  ∃ t', sessions (foldl (cleanup_stalled_one env) st (imap (λ i s, (n + i, s)%nat) rest)) !! k
        = Some t' ∧ kept t t'.
Proof.
  revert st n t. induction rest as [|s rest IH]; intros st n t HC Hk Ht.
  { exists t. by split; [|left]. }
  rewrite fmap_cons, not_elem_of_cons in Hk. destruct Hk as [Hne Hk].
  destruct (cleaning_one_keeps env (n + 0) s rest st k t HC Hne Ht) as (t1 & Ht1 & Hk1).
  apply (cleaning_one env (n + 0)) in HC.
  destruct (IH _ (S n) t1 HC Hk Ht1) as (t2 & Ht2 & Hk2).
  exists t2. split; [|by eapply kept_trans]. rewrite <- Ht2, imap_cons. cbn [foldl].
  do 3 f_equal. apply imap_ext. intros i x _. simpl. f_equal. lia.
Qed.

(** The clean-up pass keeps the invariant and leaves no stalled session. *)
Lemma cleanup_stalled_clean env st :
  Good st → Good (cleanup_stalled_sessions env st)
  ∧ (∀ k s, sessions st !! k = Some s → is_stalled env st k s = false →
       ∃ s', sessions (cleanup_stalled_sessions env st) !! k = Some s' ∧ kept s s')
  ∧ stalled_sessions env (cleanup_stalled_sessions env st) = [].
Proof.
  intros HG. unfold cleanup_stalled_sessions.
  destruct (stalled_sessions env st) as [|s0 rest] eqn:Est.
  { split_and!; [done| |done]. intros k s Hk _. exists s. by split; [|left]. }
  pose proof (cleaning_init env st HG) as HC. rewrite Est in HC.
  assert (∀ k s, sessions st !! k = Some s → is_stalled env st k s = false →
    k ∉ session_id <$> s0 :: rest) as Hnot.
  { rewrite <- Est. intros k s Hk Hb (t & -> & Ht)%list_elem_of_fmap.
    apply stalled_sessions_spec in Ht as [Ht1 Ht2]; [|done].
    assert (t = s) as -> by congruence. congruence. }
  revert HC Hnot. generalize (s0 :: rest). intros l HC Hnot.
  destruct (same_core_request env (imap pair l) st) as [Hc Hl].
  set (st1 := foldl (request_cancellation env) st (imap pair l)) in *. clearbody st1.
  assert (Cleaning env l st1) as HC1.
  { destruct HC as (_ & Hnd & Hlive & Hst). split_and!; [by apply (good_proper _ st)|done|..].
    - destruct Hc as (-> & _). done.
    - intros k s. destruct Hc as (-> & _). rewrite (is_stalled_ext env st1 st) by (by rewrite Hl).
      apply Hst. }
  pose proof (λ k t, cleaning_all_keeps env l st1 0 k t HC1) as Hkeep.
  apply (cleaning_all env l st1 0) in HC1. cbn [Nat.add] in HC1, Hkeep.
  change (imap (λ (i : nat) (s : payload), (i, s)) l) with (imap pair l) in HC1, Hkeep.
  set (st2 := foldl (cleanup_stalled_one env) st1 (imap pair l)) in *. clearbody st2.
  destruct HC1 as (HG2 & _ & _ & Hst2).
  assert (Good (evict_tombstones env st2)) as HG3 by (by apply (good_proper _ st2)).
  split_and!; [done| |].
  { intros k s Hk Hb. apply Hkeep; [by eapply Hnot|]. by destruct Hc as (-> & _). }
  destruct (stalled_sessions env (evict_tombstones env st2)) as [|s l'] eqn:E; [done|].
  exfalso. assert (s ∈ stalled_sessions env (evict_tombstones env st2)) as Hin by (rewrite E; left).
  apply stalled_sessions_spec in Hin as [Hs Hb]; [|done]. simpl in Hs.
  apply (not_elem_of_nil (session_id s)), (Hst2 (session_id s) s Hs). rewrite <- Hb.
  apply is_stalled_ext. simpl. destruct (session_last_updated st2 !! session_id s) eqn:Elu.
  - symmetry. apply map_lookup_filter_Some. split; [done|]. left. simpl. eauto.
  - symmetry. apply map_lookup_filter_None. by left.
Qed.
End Preservation.
