(* ===== verification/SessionThms.v ===== *)
(** The session manager as a transition system, and its properties.

    [step] has one constructor per entry point of [DiscoveryService]: the HTTP
    handlers, the daemon poll, the scheduler and the periodic clean-ups, each run to
    its end before the next one starts ([SessionConc] has the interleavings).  Its
    guards: identifiers are new, a discovery's daemon is on its network, and a daemon
    reports on the session it was given ([reports_on]), or on one of a previous process
    while it has nothing else and its network is not being snapshotted ([adopted]).  The
    handlers check that a report comes from the daemon and network it names; that it is
    about the session the daemon was given is left to the daemons.  The second half holds
    the interleavings and failures in which a guard does not hold. *)

From S2P Require Import Prelude Net Ports Discovery Sessions SessionInv SessionOps.
Local Open Scope Z_scope.
Set Default Proof Using "Type".

Section System.
Context `{HashOrder} (net_of : Uuid → Uuid).

Inductive step (st : DiscoveryService) : DiscoveryService → Prop :=
| step_start env d :
    sessions st !! fresh env 0 = None → d_network_id d = net_of (d_daemon_id d) →
    step st (start_session env d st).2
| step_poll env work did :
    fresh_work net_of work st → step st (get_pending_work env work did st).2
| step_poll_cancellation did : step st (get_pending_cancellation did st).2
| step_acquire nid : step st (try_acquire_network_for_snapshot nid st).2
| step_release env nid : step st (release_network_for_snapshot env nid st)
| step_report env u s :
    bus_reliable env → reports_on st u s → step st (update_session env u st).2
| step_adopt env u :
    bus_reliable env → adopted net_of st u → step st (update_session env u st).2
| step_late_report env u :
    sessions st !! session_id u = None → is_terminal (phase u) = true →
    is_Some (session_last_updated st !! session_id u) → step st (update_session env u st).2
| step_cancel env sid : step st (cancel_session env sid st).2
| step_clear did : step st (clear_sessions_for_daemon did st)
| step_cleanup_old env hours : step st (cleanup_old_sessions env hours st)
| step_cleanup_stalled env : step st (cleanup_stalled_sessions env st).

Definition reachable (st : DiscoveryService) : Prop := rtc step empty_service st.

Lemma good_step st st' : Good net_of st → step st st' → Good net_of st'.
Proof.
  intros HG Hstep. destruct Hstep.
  - by apply good_start.
  - by apply good_get_pending_work.
  - unfold get_pending_cancellation, pull_cancellation_for_daemon.
    by destruct (default _ _).
  - by apply good_try_acquire.
  - by apply good_release.
  - by eapply good_update_known.
  - by apply good_update_adopted.
  - by apply (good_proper _ _ st (proj1 (proj2 (update_session_late env u st H0 H1 H2)))).
  - by apply good_cancel.
  - by apply good_clear.
  - by rewrite (cleanup_old_noop net_of).
  - by apply cleanup_stalled_clean.
Qed.

Lemma reachable_good st : reachable st → Good net_of st.
Proof.
  intros Hr. unfold reachable in Hr. revert Hr.
  generalize (good_empty net_of). generalize empty_service. intros st0 HG Hr.
  induction Hr; eauto using good_step.
Qed.


(** *** Starting *)

(** [start_session], on every branch: a discovery with a live session is
    refused and nothing changes; a legacy network discovery whose credentials
    cannot be read fails without a session; otherwise one session with the new
    id is recorded, last in the queue of its daemon, waiting for the snapshot
    of its network if there is one, dispatched if its daemon is idle and queued
    otherwise.  When the event bus fails for a dispatched session the caller
    sees an error although the session is recorded. *)
Theorem start_session_outcomes env d st :
  let r := start_session env d st in
  (is_Some (discovery_sessions st !! d_id d) → r = (Err Conflict, st))
  ∧ (discovery_sessions st !! d_id d = None → hydrate env d = None →
       r.1 = Err Internal ∧ sessions r.2 = sessions st
       ∧ daemon_sessions r.2 = daemon_sessions st ∧ discovery_sessions r.2 = discovery_sessions st)
  ∧ (discovery_sessions st !! d_id d = None → hydrate env d ≠ None →
       ∃ p, sessions r.2 = <[fresh env 0 := p]> (sessions st)
       ∧ discovery_sessions r.2 = <[d_id d := fresh env 0]> (discovery_sessions st)
       ∧ daemon_queue r.2 (d_daemon_id d) = daemon_queue st (d_daemon_id d) ++ [fresh env 0%nat]
       ∧ phase p = (if bool_decide (d_network_id d ∈ running_snapshots st) then AwaitingSnapshot
                    else if bool_decide (daemon_queue st (d_daemon_id d) = []) then Pending
                    else Queued)
       ∧ r.1 = (if bool_decide (phase p = Pending) && negb (bus_ok env 0)
                then Err Internal else Ok p)).
Proof.
  simpl. unfold start_session, start_blocked, has_active_session_for_discovery. split_and!.
  - intros Hs. by rewrite bool_decide_eq_true_2.
  - intros Hs Hh. rewrite bool_decide_eq_false_2 by (by rewrite Hs; intros [? ?]).
    destruct (start_commit_fails env d st Hh) as [(? & ? & ? & ?) ?]. done.
  - intros Hs Hh. rewrite bool_decide_eq_false_2 by (by rewrite Hs; intros [? ?]).
    destruct (hydrate env d) as [ty|] eqn:E; [|done].
    destruct (start_commit_state env d st ty E)
      as (p & E1 & E2 & E3 & _ & _ & _ & _ & _ & _ & Ep & Er).
    exists p. split_and!; auto.
    + unfold daemon_queue at 1. by rewrite E2, lookup_insert_eq.
    + rewrite Ep. by repeat case_bool_decide.
Qed.

(** *** Dispatch *)

Lemma pending_work_member st did w rest :
  Good net_of st → get_sessions_for_daemon st did = w :: rest →
  sessions st !! session_id w = Some w ∧ phase w = Pending ∧ daemon_id w = did
  ∧ session_id w ∈ daemon_queue st did.
Proof.
  intros [HI _] E. assert (w ∈ get_sessions_for_daemon st did) as Hin by (rewrite E; left).
  unfold get_sessions_for_daemon in Hin.
  apply list_elem_of_filter in Hin as [Hp Hin].
  apply list_elem_of_omap in Hin as (k & Hk & Hw). unfold daemon_queue in *.
  rewrite (inv_key _ _ _ _ _ _ HI k w Hw).
  destruct (daemon_sessions st !! did) as [q|] eqn:Eq; [|by apply not_elem_of_nil in Hk].
  destruct (inv_member _ _ _ _ _ _ HI did q k Eq Hk) as (t & Ht & Hd).
  assert (t = w) as -> by congruence. done.
Qed.

Lemma has_active_starting st did k s :
  k ∈ daemon_queue st did → sessions st !! k = Some s → phase s = Starting →
  has_active_session_for_daemon st did = true.
Proof.
  intros Hk Hs Hp. unfold has_active_session_for_daemon. apply existsb_exists. exists k.
  rewrite Hs, Hp. split; [by apply list_elem_of_In|done].
Qed.

(** Work is handed out once: what a poll returns was pending for that very
    daemon, it is marked starting, and until its phase changes every further
    poll of the daemon returns nothing. *)
Theorem poll_dispatches_once st (Hr : Good net_of st) env work did w st'
    (Hw : fresh_work net_of work st) (Hp : get_pending_work env work did st = (Some w, st')) :
  phase w = Pending ∧ daemon_id w = did
  ∧ sessions st' !! session_id w = Some (set_phase Starting w)
  ∧ ∀ env' work', get_pending_work env' work' did st' = (None, st').
Proof.
  unfold get_pending_work in Hp.
  destruct (has_active_session_for_daemon st did) eqn:Ea; [done|].
  pose proof (good_start_initial net_of work st Hr Hw) as HG.
  destruct (get_sessions_for_daemon _ did) as [|x rest] eqn:Eg; [done|].
  injection Hp as -> Est. destruct (pending_work_member _ _ _ _ HG Eg) as (Hs & Hph & Hd & Hq).
  unfold transition_session_to_starting in Est. rewrite Hs in Est.
  rewrite bool_decide_eq_true_2 in Est by done. subst st'.
  split_and!; [done..|by simpl; rewrite lookup_insert_eq|].
  intros env' work'. unfold get_pending_work.
  rewrite (has_active_starting _ did (session_id w) (set_phase Starting w)); [done| | |done].
  - done.
  - simpl. by rewrite lookup_insert_eq.
Qed.

(** Pending work is delivered: if a session is pending for a daemon, the
    next poll of the daemon returns that session. *)
Theorem pending_is_delivered st (Hr : Good net_of st) env k s
    (Hk : sessions st !! k = Some s) (Hp : phase s = Pending) :
  (get_pending_work env [] (daemon_id s) st).1 = Some s.
Proof.
  pose proof Hr as [HI _]. unfold get_pending_work. simpl.
  destruct (inv_queued _ _ _ _ _ _ HI k s Hk) as (q & Hq & Hin).
  assert (active s) as Ha by (unfold active; by rewrite Hp).
  assert (has_active_session_for_daemon st (daemon_id s) = false) as ->.
  { apply not_true_is_false. unfold has_active_session_for_daemon, daemon_queue.
    rewrite Hq. intros (j & Hj%list_elem_of_In & Hb)%existsb_exists.
    destruct (inv_member _ _ _ _ _ _ HI _ _ j Hq Hj) as (t & Ht & Hd).
    rewrite Ht in Hb. bool_hyps.
    destruct (phase_cases t) as [Hpt|[Hpt|Hat]]; try done.
    - apply (inv_snap _ _ _ _ _ _ HI j t Ht) in Hpt as [Hpt|Hpt%not_elem_of_nil]; [|done].
      apply (proj1 (active_not_awaiting s Ha)), (inv_snap _ _ _ _ _ _ HI k s Hk). left.
      by rewrite (inv_net _ _ _ _ _ _ HI k s Hk), <- Hd, <- (inv_net _ _ _ _ _ _ HI j t Ht).
    - assert (j = k) as -> by (by eapply (inv_unique _ _ _ _ _ _ HI)).
      congruence. }
  assert (s ∈ get_sessions_for_daemon st (daemon_id s)) as Hs.
  { unfold get_sessions_for_daemon, daemon_queue. rewrite Hq. apply list_elem_of_filter.
    split; [done|]. apply list_elem_of_omap. eauto. }
  destruct (get_sessions_for_daemon st (daemon_id s)) as [|w rest] eqn:Eg;
    [by apply not_elem_of_nil in Hs|]. simpl. f_equal.
  destruct (pending_work_member _ _ _ _ Hr Eg) as (Hw & Hph & Hd & _).
  assert (session_id w = k) as Hwk.
  { eapply (inv_unique _ _ _ _ _ _ HI); eauto. unfold active. by rewrite Hph. }
  congruence.
Qed.

(** *** Finishing *)

Lemma finish_result env u od on st :
  (∀ i, bus_ok env i = true) → (finish_session env u od on st).1 = Ok tt.
Proof.
  intros Hb. unfold finish_session. rewrite !Hb. simpl. rewrite andb_false_r.
  match goal with |- context [match ?x with Some q => promote_head _ _ _ | None => _ end] =>
    destruct x end; [|done].
  destruct (promote_head _ _ _) as [[n|] st']; done.
Qed.

Lemma not_in_queue_retain k q : k ∉ queue_retain k q.
Proof. by intros [? _]%elem_of_queue_retain. Qed.

(** Cancelling a session that was not handed out. *)
Lemma cancel_undispatched env sid st s q :
  sessions st !! sid = Some s → daemon_sessions st !! daemon_id s = Some q →
  is_terminal (phase s) = false →
  negb (can_be_cleaned_up (phase s)) = true ∨ phase s = Pending →
  let r := cancel_session env sid st in
  let rest := delete sid (sessions st) in
  r.1 = Ok tt
  ∧ sessions r.2 = (if bool_decide (phase s = Pending) then promoted (queue_retain sid q) rest else rest)
  ∧ discovery_sessions r.2 = retain_not sid (discovery_sessions st)
  ∧ daemon_sessions r.2 = <[daemon_id s := queue_retain sid q]> (daemon_sessions st).
Proof.
  intros Hs Hq Hlive Hph.
  assert (cancel_session env sid st = (Ok tt, cancel_removal env sid (daemon_id s) (bool_decide (phase s = Pending))
    (bool_decide (is_Some (rescan_target_host_id (discovery_type s)))) (lookup_discovery_id st sid)
    (cancelled_payload s 0 (now env) (lookup_discovery_id st sid)) st)) as ->.
  { unfold cancel_session, get_session. rewrite Hs. destruct (phase s); try done; by destruct Hph. }
  cbv zeta. cbn [fst snd]. split; [done|]. unfold cancel_removal. cbv zeta.
  cbn [daemon_sessions with_sessions]. rewrite Hq.
  set (st2 := with_daemon_sessions <[daemon_id s:=queue_retain sid q]> (with_sessions (delete sid) st)).
  destruct (promote_head_core env (queue_retain sid q) st2) as (F1 & F2 & F3 & _).
  generalize (lookup_discovery_id st sid). intros par.
  destruct (bool_decide (phase s = Pending)), (bool_decide (is_Some _)), par; try destruct (db_ok env); simpl;
    rewrite ?F1, ?F2, ?F3; done.
Qed.

(** The sessions after a removal, one by one. *)
Lemma after_removal sid q (b : bool) (P : Prop) `{Decision P} (S : gmap Uuid payload) k :
  b = bool_decide P →
  (if b then promoted (queue_retain sid q) (delete sid S) else delete sid S) !! k =
  if bool_decide (k = sid) then None
  else if bool_decide (P ∧ head (queue_retain sid q) = Some k) then set_phase Pending <$> S !! k else S !! k.
Proof.
  intros ->. assert (delete sid S !! k = if bool_decide (k = sid) then None else S !! k) as Hd.
  { case_bool_decide as E; [subst; by rewrite lookup_delete_eq|by rewrite lookup_delete_ne]. }
  destruct (decide (P ∧ head (queue_retain sid q) = Some k)) as [[HP Hh]|Hn].
  - rewrite (bool_decide_eq_true_2 P) by done. rewrite (bool_decide_eq_true_2 (P ∧ _)) by done.
    assert (k ≠ sid) as Hne.
    { intros E. apply (not_in_queue_retain k q). rewrite E in Hh |- *.
      destruct (queue_retain sid q) as [|h l]; [done|]. injection Hh as ->. apply elem_of_cons. by left. }
    rewrite bool_decide_eq_false_2 by done. unfold promoted. rewrite Hh, lookup_delete_ne by done.
    destruct (S !! k) eqn:Ek; [by rewrite lookup_insert_eq|by rewrite lookup_delete_ne].
  - rewrite (bool_decide_eq_false_2 (P ∧ _)) by done. rewrite <- Hd. clear Hd. case_bool_decide as HP; [|done].
    destruct (promoted_cases (queue_retain sid q) (delete sid S)) as [[-> _]|(h & n & Hh & Hn' & -> & _)]; [done|].
    rewrite lookup_insert_ne; [done|]. intros ->. by apply Hn.
Qed.

(** C11. A terminal report frees the daemon.  In a consistent state, with the event bus up, the
    report a daemon sends on the session it was given, that it completed, failed or was
    cancelled, removes the session and frees its discovery, takes the session out of the
    daemon's queue, makes the session now first in that queue, which was queued, pending,
    and leaves every other session as it was. *)
Theorem finish_frees_daemon st (Hr : Good net_of st) env u s
    (Hb : ∀ i, bus_ok env i = true) (Hu : reports_on st u s)
    (Ht : is_terminal (phase u) = true) :
  let r := update_session env u st in
  let q' := queue_retain (session_id u) (daemon_queue st (daemon_id s)) in
  r.1 = Ok tt
  ∧ sessions r.2 !! session_id u = None
  ∧ (∀ d, discovery_id s = Some d → discovery_sessions r.2 !! d = None)
  ∧ daemon_queue r.2 (daemon_id s) = q'
  ∧ (∀ h, head q' = Some h → ∃ t, sessions st !! h = Some t ∧ phase t = Queued
       ∧ sessions r.2 !! h = Some (set_phase Pending t))
  ∧ (∀ k, k ≠ session_id u → head q' ≠ Some k → sessions r.2 !! k = sessions st !! k).
Proof.
  destruct Hu as (Hs & Ha & Hd & Hn & Hdisc & _).
  pose proof Hr as [HI _]. simpl. unfold update_session, update_section.
  rewrite (lookup_discovery_id_live net_of st _ s Hr Hs).
  set (u' := match discovery_id u with Some _ => u | None => _ end).
  assert (session_id u' = session_id u ∧ daemon_id u' = daemon_id s ∧ phase u' = phase u)
    as (Eu1 & Eu2 & Eu4) by (unfold u'; destruct (discovery_id u); done).
  clearbody u'. rewrite Eu1. simpl. rewrite Hs, Eu4, Ht.
  destruct (inv_queued _ _ _ _ _ _ HI _ s Hs) as (q & Hq & _).
  set (st1 := with_sessions _ (broadcast u' _)).
  assert (same_core st1 (with_sessions (<[session_id u := u']>) st)) as (C1 & C2 & C3 & C4).
  { unfold st1, same_core. simpl.
    destruct (same_core_onboarding env (network_id s) u' (with_last_updated
      <[session_id u:=now env]> st)) as (-> & -> & -> & ->). done. }
  clearbody st1. split; [by apply finish_result|].
  destruct (finish_core env u' (daemon_id s) (network_id s) st1 q) as (F1 & F2 & F3 & _);
    [done..|by rewrite C2, Eu2|].
  rewrite Eu1, Eu2 in *. rewrite F1, C1, F3, C3. unfold daemon_queue. simpl. rewrite F2, Hq. simpl.
  rewrite lookup_insert_eq. simpl. split_and!; [by rewrite lookup_delete_eq| |done|..].
  - intros d Hds. destruct (retain_not _ _ !! d) as [k|] eqn:E; [|done].
    apply lookup_retain_not in E as [E Hne].
    assert (discovery_sessions st !! d = Some (session_id u)); [|congruence].
    apply (inv_disc _ _ _ _ _ _ HI). eauto.
  - intros h Hh. rewrite (delete_promoted _ _ _ _ (not_in_queue_retain _ _)).
    assert (h ∈ queue_retain (session_id u) q) as Hin
      by (destruct (queue_retain _ q); simplify_eq/=; left).
    apply elem_of_queue_retain in Hin as [Hne Hin].
    destruct (inv_member _ _ _ _ _ _ HI _ _ h Hq Hin) as (t & Ht' & Hdt).
    assert (delete (session_id u) (sessions st) !! h = Some t) as Hdel
      by (by rewrite lookup_delete_ne).
    exists t. split_and!; [done|by eapply (next_is_queued net_of st _ s q h t)|].
    unfold promoted. rewrite Hh, Hdel. by rewrite lookup_insert_eq.
  - intros k Hne Hh. rewrite (delete_promoted _ _ _ _ (not_in_queue_retain _ _)).
    destruct (promoted_cases (queue_retain (session_id u) q) (delete (session_id u) (sessions st)))
      as [[-> _]|(h & n & Hh' & Hn' & -> & _)].
    + by rewrite lookup_delete_ne.
    + rewrite lookup_insert_ne by congruence. by rewrite lookup_delete_ne.
Qed.

(** C12. Cancelling, on every phase.  In a consistent state, with the event bus up: an unknown
    session is refused.  A session not yet handed out (waiting for a snapshot, queued or
    pending) is removed, its discovery is freed, it leaves its daemon's queue, and every other
    session is as it was, but that after a pending one the session now first in the queue
    becomes pending.  A session being handed out is refused and nothing changes.  One running
    at the daemon stays, and the next poll of that daemon for cancellations names it, once. *)
Theorem cancel_session_outcomes st (Hr : Good net_of st) env sid (Hb : bus_ok env 0 = true) :
  let r := cancel_session env sid st in
  match sessions st !! sid with
  | None => r = (Err NotFound, st)
  | Some s =>
      let q' := queue_retain sid (daemon_queue st (daemon_id s)) in
      match phase s with
      | AwaitingSnapshot | Queued | Pending =>
          r.1 = Ok tt ∧ sessions r.2 !! sid = None
          ∧ (∀ d, discovery_id s = Some d → discovery_sessions r.2 !! d = None)
          ∧ daemon_queue r.2 (daemon_id s) = q'
          ∧ ∀ k, k ≠ sid → sessions r.2 !! k =
              if bool_decide (phase s = Pending ∧ head q' = Some k)
              then set_phase Pending <$> sessions st !! k else sessions st !! k
      | Starting => r = (Err StillStarting, st)
      | _ => r.1 = Ok tt ∧ sessions r.2 = sessions st
             ∧ (get_pending_cancellation (daemon_id s) r.2).1 = Some sid
             ∧ (get_pending_cancellation (daemon_id s)
                  (get_pending_cancellation (daemon_id s) r.2).2).1 = None
      end
  end.
Proof.
  pose proof Hr as [HI _]. simpl.
  destruct (sessions st !! sid) as [s|] eqn:Hs; [|by unfold cancel_session, get_session; rewrite Hs].
  destruct (inv_live _ _ _ _ _ _ HI sid s Hs) as [Hlive _].
  destruct (inv_queued _ _ _ _ _ _ HI sid s Hs) as (q & Hq & _).
  assert (daemon_queue st (daemon_id s) = q) as -> by (unfold daemon_queue; by rewrite Hq).
  assert (negb (can_be_cleaned_up (phase s)) = true ∨ phase s = Pending →
    let r := cancel_session env sid st in
    r.1 = Ok tt ∧ sessions r.2 !! sid = None
    ∧ (∀ d, discovery_id s = Some d → discovery_sessions r.2 !! d = None)
    ∧ daemon_queue r.2 (daemon_id s) = queue_retain sid q
    ∧ ∀ k, k ≠ sid → sessions r.2 !! k =
        if bool_decide (phase s = Pending ∧ head (queue_retain sid q) = Some k)
        then set_phase Pending <$> sessions st !! k else sessions st !! k) as Hwait.
  { intros Hph. destruct (cancel_undispatched env sid st s q Hs Hq Hlive Hph) as (E1 & E2 & E3 & E4).
    assert (∀ k, sessions (cancel_session env sid st).2 !! k =
      if bool_decide (k = sid) then None
      else if bool_decide (phase s = Pending ∧ head (queue_retain sid q) = Some k)
           then set_phase Pending <$> sessions st !! k else sessions st !! k) as Hat.
    { intros k. rewrite E2. by apply after_removal. }
    split_and!; [done|by rewrite Hat, bool_decide_eq_true_2| | |].
    - intros d Hd. simpl. rewrite E3.
      destruct (retain_not _ _ !! d) as [k|] eqn:E; [|done]. apply lookup_retain_not in E as [E Hne].
      assert (discovery_sessions st !! d = Some sid); [|congruence].
      apply (inv_disc _ _ _ _ _ _ HI). eauto.
    - unfold daemon_queue. by rewrite E4, lookup_insert_eq.
    - intros k Hne. by rewrite Hat, bool_decide_eq_false_2. }
  destruct (phase s) eqn:Hp; try done; try (apply Hwait; by auto);
    unfold cancel_session, cancel_removal, get_session; rewrite Hs; simpl; rewrite Hp, ?Hb; try done;
    unfold get_pending_cancellation, pull_cancellation_for_daemon; simpl;
    by rewrite lookup_insert_eq; simpl; rewrite lookup_delete_eq.
Qed.

(** C13. One pass of the stall clean-up leaves no stalled session, and touches
    no session that was not stalled except to promote it from queued to
    pending. *)
Theorem stall_cleanup_complete st (Hr : reachable st) env :
  let st' := cleanup_stalled_sessions env st in
  stalled_sessions env st' = []
  ∧ ∀ k s, sessions st !! k = Some s → is_stalled env st k s = false →
      ∃ s', sessions st' !! k = Some s'
        ∧ (s' = s ∨ (phase s = Queued ∧ s' = set_phase Pending s)).
Proof.
  apply reachable_good in Hr. by destruct (cleanup_stalled_clean net_of env st Hr) as (_ & ? & ?).
Qed.

(** The age-based clean-up never has anything to do: finished sessions are
    dropped when they finish. *)
Theorem old_cleanup_is_noop st (Hr : reachable st) env hours :
  cleanup_old_sessions env hours st = st.
Proof. by apply (cleanup_old_noop net_of), reachable_good. Qed.
End System.

(** ** A run of the system

    Daemon 10 on network 20 is given discoveries 1 and 2 in turn, polls, and
    reports. *)

Definition run_env (t : Z) (id : Uuid) : Env := {|
  now := t; fresh := λ i, (id + N.of_nat i)%N; db_ok := true; bus_ok := λ _, true;
  snmp_credentials_for := λ _, Some no_snmp_credentials; network_name := λ _, None;
  not_onboarded_org := λ _, None; network_promotable := λ _, true; merge_ok := true;
  daemon_exists := λ _, true |}.

Definition run_discovery (id : Uuid) : Discovery := {|
  d_id := id; d_created_at := 0; d_updated_at := 0;
  d_discovery_type := Unified 30 None BestService default_scan_settings;
  d_run_type := AdHoc None; d_name := ""%string; d_daemon_id := 10; d_network_id := 20;
  d_tags := []; scan_count := 0; force_full_scan := false; integration_targets := [] |}.

Definition run_net (_ : Uuid) : Uuid := 20%N.

Definition run1 : DiscoveryService := (start_session (run_env 0 100) (run_discovery 1) empty_service).2.
Definition run2 : DiscoveryService := (start_session (run_env 1000 200) (run_discovery 2) run1).2.
Definition run3 : DiscoveryService := (get_pending_work (run_env 2000 300) [] 10 run2).2.

Definition run_report (ph : DiscoveryPhase) : DiscoveryUpdatePayload :=
  set_phase ph (new_payload 100 10 20 (Unified 30 None BestService default_scan_settings) None).

Lemma run2_reachable : reachable run_net run2.
Proof.
  eapply rtc_l; [apply (step_start run_net empty_service (run_env 0 100) (run_discovery 1)); done|].
  eapply rtc_l; [apply (step_start run_net run1 (run_env 1000 200) (run_discovery 2)); done|].
  apply rtc_refl.
Qed.

Lemma run3_reachable : reachable run_net run3.
Proof.
  eapply rtc_r; [exact run2_reachable|]. apply step_poll. split; constructor.
Qed.

Definition run_pending : DiscoveryUpdatePayload :=
  set_phase Pending (new_payload 100 10 20
    (Unified 30 None BestService default_scan_settings) (Some 1%N)).


Lemma poll_dispatches_once_witness :
  get_pending_work (run_env 3000 400) [] 10 run3 = (None, run3).
Proof.
  apply (poll_dispatches_once run_net run2 (reachable_good run_net run2 run2_reachable) (run_env 2000 300) [] 10 run_pending run3).
  - split; constructor.
  - by vm_compute.
Defined.

Lemma pending_is_delivered_witness :
  (get_pending_work (run_env 2000 300) [] 10 run2).1 = Some run_pending.
Proof.
  apply (pending_is_delivered run_net run2 (reachable_good run_net run2 run2_reachable) (run_env 2000 300) 100%N run_pending);
    by vm_compute.
Defined.

Lemma finish_frees_daemon_witness :
  sessions (update_session (run_env 4000 500) (run_report Complete) run3).2 !! 100%N = None.
Proof.
  apply (finish_frees_daemon run_net run3 (reachable_good run_net run3 run3_reachable) (run_env 4000 500) (run_report Complete)
    (set_phase Starting run_pending)); [done| |done].
  split_and!; try (by vm_compute); [by left|by left].
Defined.

Lemma cancel_session_outcomes_witness :
  cancel_session (run_env 4000 500) 100 run3 = (Err StillStarting, run3).
Proof. exact (cancel_session_outcomes run_net run3 (reachable_good run_net run3 run3_reachable) (run_env 4000 500) 100 eq_refl). Defined.

Lemma stall_cleanup_complete_witness :
  stalled_sessions (run_env 400000 500) (cleanup_stalled_sessions (run_env 400000 500) run3) = []
  ∧ length (stalled_sessions (run_env 400000 500) run3) = 1%nat.
Proof.
  split; [|by vm_compute].
  apply (stall_cleanup_complete run_net run3 run3_reachable).
Defined.

Lemma old_cleanup_is_noop_witness : cleanup_old_sessions (run_env 400000 500) 24 run3 = run3.
Proof. apply (old_cleanup_is_noop run_net run3 run3_reachable). Defined.

(** ** Interleavings and failures outside the guards of [step] *)

(** [start_session] tests the discovery map under one lock and writes it
    under another.  When two requests for one discovery both pass the test
    before either writes, both create a live session for it, and the map keeps
    the second only. *)
Theorem start_session_race :
  let d := run_discovery 1 in
  let st1 := (start_commit (run_env 0 100) d empty_service).2 in
  let st2 := (start_commit (run_env 1 200) d st1).2 in
  start_blocked d empty_service = false
  ∧ (discovery_id <$> sessions st2 !! 100%N) = Some (Some 1%N)
  ∧ (discovery_id <$> sessions st2 !! 200%N) = Some (Some 1%N)
  ∧ discovery_sessions st2 !! 1%N = Some 200%N.
Proof. by vm_compute. Qed.

(** A snapshot of network 20 runs; discovery 2 is started and waits for it;
    then daemon 10 reports that a session of an earlier process completed. *)
Definition snap1 : DiscoveryService := (try_acquire_network_for_snapshot 20 empty_service).2.
Definition snap2 : DiscoveryService := (start_session (run_env 0 200) (run_discovery 2) snap1).2.
Definition snap3 : DiscoveryService := (update_session (run_env 1000 300) (run_report Complete) snap2).2.

(** The completion of a session auto-created from a daemon update promotes
    the first session of the daemon's queue without looking at its phase, so a
    session that waits for a running snapshot is dispatched during it. *)
Theorem promotion_ignores_snapshot :
  (phase <$> sessions snap2 !! 200%N) = Some AwaitingSnapshot
  ∧ (phase <$> sessions snap3 !! 200%N) = Some Pending
  ∧ 20%N ∈ running_snapshots snap3
  ∧ (session_id <$> (get_pending_work (run_env 2000 400) [] 10 snap3).1) = Some 200%N.
Proof.
  by split_and!; vm_compute.
Qed.

(** The environment in which the event bus is down. *)
Definition bus_down (t : Z) (id : Uuid) : Env := {|
  now := t; fresh := λ i, (id + N.of_nat i)%N; db_ok := true; bus_ok := λ _, false;
  snmp_credentials_for := λ _, Some no_snmp_credentials; network_name := λ _, None;
  not_onboarded_org := λ _, None; network_promotable := λ _, true; merge_ok := true;
  daemon_exists := λ _, true |}.

Definition wedged : DiscoveryService :=
  (update_session (bus_down 4000 500) (run_report Complete) run3).2.

(** If the event bus refused the event of a finished session, which its interface
    allows although the channels of this revision never do, the terminal
    processing would be abandoned half way: the session stays, terminal, at the head
    of its daemon's queue, the next session stays queued, the daemon polls and
    gets nothing, and the stall clean-up never sees it. *)
Theorem bus_failure_wedges_queue :
  (phase <$> sessions wedged !! 100%N) = Some Complete
  ∧ (phase <$> sessions wedged !! 200%N) = Some Queued
  ∧ daemon_queue wedged 10 = [100%N; 200%N]
  ∧ ∀ env, (get_pending_work env [] 10 wedged).1 = None
           ∧ cleanup_stalled_sessions env wedged = wedged.
Proof.
  by split_and!; vm_compute.
Qed.

(** The tombstone of a session finished a day ago is still there after a
    clean-up pass, because the pass returns early when nothing is stalled. *)
Lemma tombstone_survives :
  let st := (update_session (run_env 4000 500) (run_report Complete) run3).2 in
  let st := (cancel_session (run_env 5000 600) 200 st).2 in
  let st := cleanup_stalled_sessions (run_env 86400000 700) st in
  sessions st = ∅ ∧ session_last_updated st !! 100%N = Some 4000.
Proof. by vm_compute. Qed.
