(* ===== verification/SessionConc.v ===== *)
(** Sessions under concurrency.

    [start_session] does not hold one lock over its run: it tests the discovery map, writes
    it, takes [running_snapshots.read], reads the daemon's queue, writes the session map and
    pushes onto the queue in separate lock sections, and any number of other calls run in
    between.  [start_next] is one such section, [Conc] the service with the calls in flight,
    and [cstep] every interleaving of their sections with the sections of the other
    operations.  An operation that keeps [sessions.write] over its writes is one step; what
    it read before taking the lock is an argument of the step, so that it may be stale, and
    nothing is assumed of the reports daemons send.

    [start_sections_refine] shows that the sections run without interruption are
    [Sessions.start_session].  [snapshot_handshake] and [guard_never_sticks] hold in every
    interleaving; the last section holds the interleavings that go wrong. *)

From S2P Require Import Prelude Net Ports Discovery Sessions SessionInv SessionOps SessionThms.
Local Open Scope Z_scope.
Set Default Proof Using "Type".

(** ** [start_session], one lock section at a time *)

(** Where a call is.  [p] is the local [session_payload], [b] is [snapshot_blocked], [r] is
    [daemon_is_running_discovery]. *)
Inductive StartPc :=
| Checked
| Prepared (p : payload)
| Tracked (p : payload)
| Locked (p : payload) (b : bool)
| Decided (p : payload) (b r : bool)
| Stamped (p : payload) (b r : bool)
| Inserted (p : payload) (b r : bool)
| Pushed (p : payload) (b r : bool)
| Dropped (p : payload) (b r : bool).

(** [snapshot_lock] is held from the decision to the push onto the queue. *)
Definition holds_lock (pc : StartPc) : bool :=
  match pc with
  | Locked _ _ | Decided _ _ _ | Stamped _ _ _ | Inserted _ _ _ | Pushed _ _ _ => true
  | _ => false
  end.

Inductive Progress :=
| Running (pc : StartPc)
| Finished (r : result payload ServiceError).

Definition queue_busy (did : Uuid) (st : DiscoveryService) : bool :=
  match daemon_sessions st !! did with
  | Some q => negb (bool_decide (q = []))
  | None => false
  end.

Definition start_next (env : Env) (d : Discovery) (pc : StartPc) (st : DiscoveryService)
    : Progress * DiscoveryService :=
  let sid := fresh env 0 in
  match pc with
  | Checked =>
      let d := set_run_type (set_last_run (now env) (d_run_type d)) (now env) d in
      let st := if db_ok env then with_storage (storage_update d) st else st in
      match hydrate env d with
      | None => (Finished (Err Internal), st)
      | Some ty =>
          let p := new_payload sid (d_daemon_id d) (d_network_id d) ty (Some (d_id d)) in
          (Running (Prepared (set_discovery_type (mark_full_scan d (discovery_type p)) p)), st)
      end
  | Prepared p => (Running (Tracked p), with_discovery_sessions (<[d_id d := sid]>) st)
  | Tracked p => (Running (Locked p (bool_decide (d_network_id d ∈ running_snapshots st))), st)
  | Locked p b => (Running (Decided p b (queue_busy (d_daemon_id d) st)), st)
  | Decided p b r =>
      if b then (Running (Stamped (set_phase AwaitingSnapshot p) b r), st)
      else if negb r
      then (Running (Stamped (set_phase Pending p) b r), with_last_updated (<[sid := now env]>) st)
      else (Running (Stamped p b r), st)
  | Stamped p b r => (Running (Inserted p b r), with_sessions (<[sid := p]>) st)
  | Inserted p b r =>
      (Running (Pushed p b r),
       with_daemon_sessions (λ m, <[d_daemon_id d := default [] (m !! d_daemon_id d) ++ [sid]]> m) st)
  | Pushed p b r => (Running (Dropped p b r), st)
  | Dropped p b r =>
      if negb b && negb r then
        if bus_ok env 0 then
          (Finished (Ok p), broadcast p (publish (PhaseEvent (into_discovery_event p)) st))
        else (Finished (Err Internal), st)
      else (Finished (Ok p), broadcast p st)
  end.



(** ** The service with calls in flight *)

Record StartCall := { c_env : Env; c_discovery : Discovery; c_pc : StartPc }.

(** Calls are known by the id of the session they create. *)
Record Conc := { svc : DiscoveryService; calls : gmap Uuid StartCall }.

(** The write lock of [running_snapshots] can be taken. *)
Definition unlocked (c : Conc) : Prop := map_Forall (λ _ x, holds_lock (c_pc x) = false) (calls c).

#[export] Instance unlocked_dec c : Decision (unlocked c).
Proof. unfold unlocked. apply _. Defined.

(** One section of the call for session [k]. *)
Definition advance (k : Uuid) (c : Conc) : option Conc :=
  x ← calls c !! k;
  Some match start_next (c_env x) (c_discovery x) (c_pc x) (svc c) with
       | (Running pc, st) =>
           {| svc := st; calls := <[k := {| c_env := c_env x; c_discovery := c_discovery x; c_pc := pc |}]> (calls c) |}
       | (Finished _, st) => {| svc := st; calls := delete k (calls c) |}
       end.

Definition on_svc (f : DiscoveryService → DiscoveryService) (c : Conc) : Conc := {| svc := f (svc c); calls := calls c |}.

(** What a step was, as far as the theorems look at it. *)
Inductive Label :=
| LStart (k : Uuid)
| LAcquire (nid : Uuid) (ok : bool)
| LRelease (nid : Uuid)
| LOther.

Section System.
Context `{HashOrder}.

Inductive cstep (c : Conc) : Label → Conc → Prop :=
| c_begin env d :
    calls c !! fresh env 0 = None → sessions (svc c) !! fresh env 0 = None → start_blocked d (svc c) = false →
    cstep c LOther {| svc := svc c;
                      calls := <[fresh env 0 := {| c_env := env; c_discovery := d; c_pc := Checked |}]> (calls c) |}
| c_start k c' : advance k c = Some c' → cstep c (LStart k) c'
| c_acquire nid : unlocked c →
    cstep c (LAcquire nid (try_acquire_network_for_snapshot nid (svc c)).1)
      (on_svc (λ st, (try_acquire_network_for_snapshot nid st).2) c)
| c_release nid : unlocked c → cstep c (LRelease nid) (on_svc (with_running (λ r, r ∖ {[nid]})) c)
| c_release_sessions env nid : cstep c LOther (on_svc (release_sessions env nid) c)
| c_update env u : cstep c LOther (on_svc (λ st, (update_section env u st).2) c)
| c_cancel env sid did was_pending is_rescan disc u :
    cstep c LOther (on_svc (cancel_removal env sid did was_pending is_rescan disc u) c)
| c_cancel_running env sid did u :
    cstep c LOther (on_svc (λ st, with_cancellations (<[did := (true, sid)]>)
                                    (if bus_ok env 0 then publish (PhaseEvent (into_discovery_event u)) st else st)) c)
| c_handed_out env sid : cstep c LOther (on_svc (transition_session_to_starting env sid) c)
| c_pull did : cstep c LOther (on_svc (λ st, (pull_cancellation_for_daemon did st).2) c)
| c_request env i u : cstep c LOther (on_svc (λ st, request_cancellation env st (i, u)) c)
| c_stalled env stale : cstep c LOther (on_svc (λ st, evict_tombstones env (foldl (cleanup_stalled_one env) st stale)) c)
| c_old env hours : cstep c LOther (on_svc (cleanup_old_sessions env hours) c)
| c_clear did : cstep c LOther (on_svc (clear_sessions_for_daemon did) c).

Definition idle : Conc := {| svc := empty_service; calls := ∅ |}.

Definition creachable (c : Conc) : Prop := rtc (λ a b, ∃ l, cstep a l b) idle c.

(** ** What every interleaving keeps *)

(** The maps, when the calls for [T] wrote the discovery map and not yet the session map and
    the calls for [I] wrote the session map and not yet the queue. *)
Record Indexed (T I : Uuid → Prop) (S : gmap Uuid payload) (Q : gmap Uuid (list Uuid)) (D : gmap Uuid Uuid) : Prop := {
  ix_key : ∀ k s, S !! k = Some s → session_id s = k;
  ix_guard : ∀ d k, D !! d = Some k → is_Some (S !! k) ∨ T k;
  ix_queue : ∀ k s, S !! k = Some s → (∃ d q, Q !! d = Some q ∧ k ∈ q) ∨ I k
}.

Section Maps.
Context (T I : Uuid → Prop).
Abbreviation Indexed := (Indexed T I).

Lemma ix_set S Q D k s s' : Indexed S Q D → S !! k = Some s → session_id s' = k → Indexed (<[k := s']> S) Q D.
Proof.
  intros [Hk Hg Hq] Hs Es. constructor.
  - intros j t [[<- <-]|[? ?]]%lookup_insert_Some; eauto.
  - intros d j Hd. destruct (Hg d j Hd) as [[t Ht]|]; [left|by right].
    rewrite lookup_insert_is_Some'. eauto.
  - intros j t [[<- <-]|[? ?]]%lookup_insert_Some; eauto.
Qed.

Lemma ix_promoted S Q D q : Indexed S Q D → Indexed (promoted q S) Q D.
Proof.
  intros HI. destruct (promoted_cases q S) as [[-> _]|(h & t & _ & Ht & -> & _)]; [done|].
  eapply ix_set; [exact HI|exact Ht|]. exact (ix_key _ _ _ _ _ HI h t Ht).
Qed.

Lemma ix_remove S Q Q' D k :
  Indexed S Q D → (∀ d q j, Q !! d = Some q → j ∈ q → j ≠ k → ∃ d' q', Q' !! d' = Some q' ∧ j ∈ q') →
  Indexed (delete k S) Q' (retain_not k D).
Proof.
  intros [Hk Hg Hq] Hk'. constructor.
  - intros j t [_ Ht]%lookup_delete_Some. eauto.
  - intros d j [Hd Hne]%lookup_retain_not. destruct (Hg d j Hd) as [[t Ht]|]; [left|by right].
    exists t. by rewrite lookup_delete_ne.
  - intros j t [Hne Ht]%lookup_delete_Some. destruct (Hq j t Ht) as [(d & q & Hd & Hin)|]; [left|by right]. eauto.
Qed.

(** A session that comes with its place in a queue, or takes it later. *)
Lemma ix_push S Q D did k : Indexed S Q D → Indexed S (<[did := default [] (Q !! did) ++ [k]]> Q) D.
Proof.
  intros [Hk Hg Hq]. constructor; [done..|]. intros j t Ht.
  destruct (Hq j t Ht) as [(d & q & Hd & Hin)|]; [left|by right]. destruct (decide (did = d)) as [->|Hne].
  - eexists d, _. rewrite lookup_insert_eq, Hd. split; [done|]. apply elem_of_app. by left.
  - exists d, q. by rewrite lookup_insert_ne.
Qed.

Lemma ix_track S Q D d k : Indexed S Q D → is_Some (S !! k) ∨ T k → Indexed S Q (<[d := k]> D).
Proof. intros [Hk Hg Hq] Hs. constructor; [done| |done]. intros d' j [[<- <-]|[? ?]]%lookup_insert_Some; eauto. Qed.

Lemma ix_insert S Q D k s :
  Indexed S Q D → session_id s = k → (∃ d q, Q !! d = Some q ∧ k ∈ q) ∨ I k → Indexed (<[k := s]> S) Q D.
Proof.
  intros [Hk Hg Hq] Es Hin. constructor.
  - intros j t [[<- <-]|[? ?]]%lookup_insert_Some; eauto.
  - intros d j Hd. destruct (Hg d j Hd) as [[t Ht]|]; [left|by right]. rewrite lookup_insert_is_Some'. eauto.
  - intros j t [[<- <-]|[? ?]]%lookup_insert_Some; eauto.
Qed.

(** A queue without [k] still holds the others. *)
Lemma retained S Q D d0 q0 k :
  Indexed S Q D → Q !! d0 = Some q0 → Indexed (delete k S) (<[d0 := queue_retain k q0]> Q) (retain_not k D).
Proof.
  intros HI E. eapply ix_remove; [done|]. intros d q j Hd Hj Hne. destruct (decide (d0 = d)) as [->|Hd0].
  - exists d, (queue_retain k q0). rewrite lookup_insert_eq. split; [done|]. apply elem_of_queue_retain.
    split; [done|]. congruence.
  - exists d, q. by rewrite lookup_insert_ne.
Qed.
End Maps.

Section Keeps.
Context (T I : Uuid → Prop).

Definition indexed (st : DiscoveryService) : Prop := Indexed T I (sessions st) (daemon_sessions st) (discovery_sessions st).

Definition keeps (a b : DiscoveryService) : Prop :=
  running_snapshots b = running_snapshots a ∧ (indexed a → indexed b).

#[local] Instance keeps_refl : Reflexive keeps.
Proof. by intros st. Qed.
#[local] Instance keeps_trans : Transitive keeps.
Proof. intros a b c [E1 H1] [E2 H2]. split; [congruence|auto]. Qed.

Lemma keeps_core a b : same_core b a → keeps a b.
Proof. intros (E1 & E2 & E3 & E4). split; [done|]. unfold indexed. by rewrite E1, E2, E3. Qed.

Lemma keeps_foldl {A} (f : DiscoveryService → A → DiscoveryService) l st :
  (∀ st x, keeps st (f st x)) → keeps st (foldl f st l).
Proof. intros Hf. revert st. induction l as [|x l IH]; intros st; [reflexivity|]. simpl. by etransitivity; [|apply IH]. Qed.

Lemma keeps_release_sessions env nid st : keeps st (release_sessions env nid st).
Proof.
  unfold release_sessions. generalize (awaiting_session_ids st nid). intros ids.
  assert (∀ acc, keeps acc.1 (foldl (λ acc sid, release_one env sid acc) acc ids).1) as Hl.
  { induction ids as [|sid ids IH]; intros acc; [reflexivity|]. simpl. etransitivity; [|apply IH].
    destruct acc as [a ps]. unfold release_one. destruct (sessions a !! sid) as [s|] eqn:Hs; [|reflexivity].
    assert (∀ ph, indexed a → Indexed T I (<[sid := set_phase ph s]> (sessions a)) (daemon_sessions a) (discovery_sessions a)) as Hset.
    { intros ph HI. eapply ix_set; [exact HI|exact Hs|]. exact (ix_key _ _ _ _ _ HI sid s Hs). }
    destruct (daemon_has_active _ _ _); (split; [done|]); apply Hset. }
  specialize (Hl (st, [])). destruct (foldl _ _ _) as [st' ps]. etransitivity; [exact Hl|].
  apply keeps_core, same_core_publish_all.
Qed.

Lemma keeps_promote env q st : keeps st (promote_head env q st).2.
Proof.
  destruct (promote_head_core env q st) as (E1 & E2 & E3 & E4). split; [done|].
  unfold indexed. rewrite E1, E2, E3. apply ix_promoted.
Qed.

Lemma keeps_cancel env sid did was_pending is_rescan disc u st :
  keeps st (cancel_removal env sid did was_pending is_rescan disc u st).
Proof.
  unfold cancel_removal. cbv zeta.
  set (st1 := match daemon_sessions _ !! did with Some q => _ | None => _ end).
  transitivity (with_discovery_sessions (retain_not sid) st1).
  2:{ apply keeps_core. destruct is_rescan, disc, (db_ok env); done. }
  unfold st1. simpl. destruct (daemon_sessions st !! did) as [q|] eqn:Eq.
  - assert (keeps st (with_discovery_sessions (retain_not sid)
      (with_daemon_sessions <[did:=queue_retain sid q]> (with_sessions (delete sid) st)))) as Hrem
      by (split; [done|]; intros HI; by apply retained).
    destruct was_pending; [|exact Hrem].
    destruct (promote_head_core env (queue_retain sid q)
      (with_daemon_sessions <[did:=queue_retain sid q]> (with_sessions (delete sid) st))) as (E1 & E2 & E3 & E4).
    split; [by rewrite <- (proj1 Hrem)|]. intros HI. unfold indexed. simpl. rewrite E1, E2, E3.
    apply ix_promoted, (proj2 Hrem HI).
  - split; [done|]. intros HI. eapply ix_remove; [exact HI|]. eauto.
Qed.

Lemma keeps_finish env u od on st : keeps st (finish_session env u od on st).2.
Proof.
  unfold finish_session. destruct (bus_ok env 0); [|reflexivity]. cbn [negb].
  match goal with |- context [lookup_discovery_id ?x ?y] => generalize (lookup_discovery_id x y); intros par end.
  cbv zeta. set (hist := historical_discovery _ _ _ _).
  destruct (db_ok env && negb (bus_ok env 1)).
  { apply keeps_core. simpl. destruct par; repeat (case_match; simpl); done. }
  match goal with |- context [daemon_sessions ?x !! daemon_id u] =>
    assert (same_core x st) as Hx; [destruct par; repeat (case_match; simpl); done|generalize dependent x] end.
  intros x Hx. transitivity x; [by apply keeps_core|]. clear Hx.
  destruct (daemon_sessions x !! daemon_id u) as [q|] eqn:Eq.
  - destruct (promote_head_core env (queue_retain (session_id u) q)
      (with_daemon_sessions <[daemon_id u:=queue_retain (session_id u) q]> x)) as (F1 & F2 & F3 & F4).
    destruct (promote_head _ _ _) as [next st2]. simpl in F1, F2, F3, F4.
    transitivity (with_discovery_sessions (retain_not (session_id u)) (with_sessions (delete (session_id u)) st2));
      [|apply keeps_core; destruct next; [destruct (bus_ok env 2)|]; done].
    split; [done|]. intros HI. unfold indexed. simpl. rewrite F1, F2, F3.
    apply (ix_promoted T I _ _ _ (queue_retain (session_id u) q)) in HI. 
    by apply retained.
  - split; [done|]. intros HI. eapply ix_remove; [exact HI|]. eauto.
Qed.

Lemma keeps_update env u st : keeps st (update_section env u st).2.
Proof.
  unfold update_section. cbv zeta. set (st0 := with_last_updated _ st).
  transitivity st0; [by apply keeps_core|]. generalize (bool_decide (is_Some (session_last_updated st !! session_id u))).
  intros seen. clearbody st0. clear st. rename st0 into st.
  assert (∀ s st1, keeps st st1 → is_Some (sessions st1 !! session_id u) →
    keeps st ((λ st : DiscoveryService,
       let st := onboarding env (network_id s) u st in
       let st := with_sessions <[session_id u:=u]> (broadcast u st) in
       if is_terminal (phase u) then finish_session env u (daemon_id s) (network_id s) st else (Ok tt, st)) st1).2) as Hrest.
  { intros s st1 H1 [t Ht]. etransitivity; [exact H1|]. cbv beta zeta.
    set (st2 := with_sessions _ (broadcast u _)). transitivity st2.
    - destruct (same_core_onboarding env (network_id s) u st1) as (E1 & E2 & E3 & E4).
      split; [done|]. intros HI. unfold indexed, st2. simpl. rewrite E1, E2, E3. by eapply ix_set.
    - destruct (is_terminal _); [apply keeps_finish|reflexivity]. }
  destruct (sessions st !! session_id u) as [s|] eqn:Es.
  { apply Hrest; [reflexivity|]. by rewrite Es. }
  destruct (_ && _); [reflexivity|]. apply Hrest.
  - assert (indexed st → Indexed T I (<[session_id u := u]> (sessions st))
      (<[daemon_id u := default [] (daemon_sessions st !! daemon_id u) ++ [session_id u]]> (daemon_sessions st))
      (discovery_sessions st)) as Hnew.
    { intros HI. apply ix_insert; [by apply ix_push|done|]. left. eexists _, _. rewrite lookup_insert_eq.
      split; [done|]. apply elem_of_app. right. by left. }
    destruct (discovery_id u) as [d|]; (split; [done|]); intros HI; unfold indexed; simpl; [|by apply Hnew].
    apply ix_track; [by apply Hnew|left]. rewrite lookup_insert_eq. eauto.
  - destruct (discovery_id u); simpl; rewrite lookup_insert_eq; eauto.
Qed.

Lemma keeps_handed_out env sid st : keeps st (transition_session_to_starting env sid st).
Proof.
  unfold transition_session_to_starting. destruct (sessions st !! sid) as [s|] eqn:Hs; [|reflexivity].
  case_bool_decide; [|reflexivity]. split; [done|]. intros HI. eapply ix_set; [exact HI|exact Hs|].
  exact (ix_key _ _ _ _ _ HI sid s Hs).
Qed.

Lemma keeps_request env i u st : keeps st (request_cancellation env st (i, u)).
Proof. apply keeps_core. unfold request_cancellation. by destruct (bus_ok env _). Qed.

Lemma keeps_stalled_one env st x : keeps st (cleanup_stalled_one env st x).
Proof.
  destruct x as [i s0]. unfold cleanup_stalled_one. cbn [snd fst].
  destruct (sessions st !! session_id s0) as [s|] eqn:Hs; [|reflexivity]. cbv zeta.
  set (st1 := match daemon_sessions _ !! _ with Some q => _ | None => _ end).
  transitivity (with_discovery_sessions (retain_not (session_id s)) st1).
  2:{ apply keeps_core. simpl. repeat case_match; done. }
  set (q' := λ q, queue_retain (session_id s) q).
  set (base := λ q, with_daemon_sessions <[daemon_id s := q' q]> (with_sessions (delete (session_id s0)) st)).
  assert (∀ q, daemon_sessions st !! daemon_id s = Some q →
    keeps st (with_discovery_sessions (retain_not (session_id s)) (base q))) as Hbase.
  { intros q Eq. split; [done|]. intros HI. unfold indexed, base, q'. simpl.
    rewrite (ix_key _ _ _ _ _ HI _ s Hs). by apply retained. }
  unfold st1. simpl. destruct (daemon_sessions st !! daemon_id s) as [q|] eqn:Eq.
  - fold (q' q) (base q). specialize (Hbase q eq_refl).
    repeat case_match; try exact Hbase. etransitivity; [exact Hbase|].
    destruct (promote_head_core env (q' q) (base q)) as (E1 & E2 & E3 & E4).
    split; [done|]. unfold indexed. simpl. rewrite E1, E2, E3. apply ix_promoted.
  - split; [done|]. intros HI. unfold indexed. simpl. rewrite (ix_key _ _ _ _ _ HI _ s Hs).
    eapply ix_remove; [exact HI|]. eauto.
Qed.

Lemma keeps_stalled env stale st : keeps st (evict_tombstones env (foldl (cleanup_stalled_one env) st stale)).
Proof. 
  transitivity (foldl (cleanup_stalled_one env) st stale); [|by apply keeps_core].
  apply keeps_foldl. intros ? ?. apply keeps_stalled_one.
 Qed.

Lemma keeps_old env hours st : keeps st (cleanup_old_sessions env hours st).
Proof.
  apply keeps_foldl. clear st. intros st sid. unfold cleanup_one.
  destruct (sessions st !! sid) as [s|] eqn:Hs; [|reflexivity]. split; [done|]. intros HI. unfold indexed. simpl.
  rewrite (ix_key _ _ _ _ _ HI _ s Hs). destruct (daemon_sessions st !! daemon_id s) as [q|] eqn:Eq.
  - assert (alter (queue_retain sid) (daemon_id s) (daemon_sessions st)
      = <[daemon_id s := queue_retain sid q]> (daemon_sessions st)) as ->; [|by apply retained].
    rewrite <- (insert_id (daemon_sessions st) (daemon_id s) q Eq) at 1. apply alter_insert_eq.
  - eapply ix_remove; [exact HI|]. intros d q j Hd Hj _. exists d, q. split; [|done].
    rewrite lookup_alter_ne; [done|]. congruence.
Qed.

Lemma keeps_clear did st : keeps st (clear_sessions_for_daemon did st).
Proof.
  destruct (clear_sessions_spec did st) as (E1 & E2 & E3 & E4 & _). split; [done|]. intros [Hk Hg Hq].
  constructor.
  - intros k s [Hs _]%E1. eauto.
  - intros d k [Hd Hn]%E2. destruct (Hg d k Hd) as [[s Hs]|]; [left|by right]. exists s. by apply E1.
  - intros k s [Hs Hn]%E1. destruct (Hq k s Hs) as [(d & q & Hd & Hin)|]; [left|by right].
    exists d, q. rewrite E3, lookup_delete_ne; [done|]. intros ->. apply Hn. unfold daemon_queue. by rewrite Hd.
Qed.
End Keeps.

(** ** The calls in flight *)

(** The call wrote the discovery map and not yet the session map. *)
Definition tracking (pc : StartPc) : bool :=
  match pc with Tracked _ | Locked _ _ | Decided _ _ _ | Stamped _ _ _ => true | _ => false end.
(** The call wrote the session map and not yet the queue. *)
Definition unqueued (pc : StartPc) : bool := match pc with Inserted _ _ _ => true | _ => false end.

Definition in_flight (f : StartPc → bool) (m : gmap Uuid StartCall) (k : Uuid) : Prop :=
  ∃ x, m !! k = Some x ∧ f (c_pc x) = true.

(** What a call's locals say, given the networks being snapshotted: while the lock is held,
    [snapshot_blocked] is true of the moment. *)
Definition call_ok (R : gset Uuid) (k : Uuid) (x : StartCall) : Prop :=
  let nid := d_network_id (c_discovery x) in
  let its p := session_id p = k ∧ network_id p = nid in
  fresh (c_env x) 0 = k ∧
  match c_pc x with
  | Checked | Dropped _ _ _ => True
  | Prepared p | Tracked p => its p ∧ phase p ≠ AwaitingSnapshot
  | Locked p b | Decided p b _ => its p ∧ phase p ≠ AwaitingSnapshot ∧ b = bool_decide (nid ∈ R)
  | Stamped p _ _ | Inserted p _ _ | Pushed p _ _ => its p ∧ (phase p = AwaitingSnapshot ↔ nid ∈ R)
  end.

Record CInv (c : Conc) : Prop := {
  ci_calls : map_Forall (call_ok (running_snapshots (svc c))) (calls c);
  ci_maps : indexed (in_flight tracking (calls c)) (in_flight unqueued (calls c)) (svc c)
}.

Lemma call_ok_unlocked R R' k x : holds_lock (c_pc x) = false → call_ok R k x → call_ok R' k x.
Proof. unfold call_ok. by destruct (c_pc x). Qed.

Lemma cinv_running c f :
  CInv c → unlocked c → CInv (on_svc (with_running f) c).
Proof.
  intros [Hc Hm] Hu. constructor; [|done]. intros k x Hx. eapply call_ok_unlocked; [by apply (Hu k)|by apply Hc].
Qed.

Lemma cinv_keeps c f :
  (∀ T I, keeps T I (svc c) (f (svc c))) → CInv c → CInv (on_svc f c).
Proof.
  intros Hf [Hc Hm]. constructor; simpl.
  - by rewrite (proj1 (Hf (λ _, True) (λ _, True))).
  - by apply Hf.
Qed.

Lemma ix_weaken (T I T' I' : Uuid → Prop) S Q D :
  Indexed T I S Q D → (∀ k, T k → T' k ∨ is_Some (S !! k)) →
  (∀ k, I k → I' k ∨ ∃ d q, Q !! d = Some q ∧ k ∈ q) → Indexed T' I' S Q D.
Proof.
  intros [Hk Hg Hq] HT HI. constructor; [done| |].
  - intros d k Hd. destruct (Hg d k Hd) as [|[|]%HT]; auto.
  - intros k s Hs. destruct (Hq k s Hs) as [|[|]%HI]; auto.
Qed.

Lemma in_flight_insert f m k x j : in_flight f m j → j = k ∨ in_flight f (<[k := x]> m) j.
Proof.
  intros (y & Hy & Hf). destruct (decide (j = k)) as [|Hne]; [by left|right]. exists y. by rewrite lookup_insert_ne.
Qed.

Lemma in_flight_new f m k x : f (c_pc x) = true → in_flight f (<[k := x]> m) k.
Proof. intros Hf. exists x. by rewrite lookup_insert_eq. Qed.

Lemma in_flight_delete f m k j : in_flight f m j → j = k ∨ in_flight f (delete k m) j.
Proof.
  intros (y & Hy & Hf). destruct (decide (j = k)) as [|Hne]; [by left|right]. exists y. by rewrite lookup_delete_ne.
Qed.

Lemma start_next_running env d pc st : running_snapshots (start_next env d pc st).2 = running_snapshots st.
Proof. unfold start_next. destruct pc; cbv zeta; repeat (case_match; simpl); done. Qed.

Lemma start_next_sessions env d pc st :
  sessions (start_next env d pc st).2
  = match pc with Stamped p _ _ => <[fresh env 0 := p]> (sessions st) | _ => sessions st end.
Proof. unfold start_next. destruct pc; cbv zeta; repeat (case_match; simpl); done. Qed.

(** A section keeps the call's locals true. *)
Lemma start_next_ok R k env d pc st :
  running_snapshots st = R → call_ok R k {| c_env := env; c_discovery := d; c_pc := pc |} →
  match (start_next env d pc st).1 with
  | Running pc' => call_ok R k {| c_env := env; c_discovery := d; c_pc := pc' |}
  | Finished _ => True
  end.
Proof.
  intros <- [Hk Hpc]. unfold call_ok. simpl in *. destruct pc; simpl in *; cbv zeta.
  - destruct (hydrate env _); [|done]. done.
  - tauto.
  - tauto.
  - tauto.
  - destruct Hpc as (Hp & Hph & ->). case_bool_decide as Hn; [|destruct r]; simpl; naive_solver.
  - done.
  - done.
  - done.
  - by repeat case_match.
Qed.

Lemma in_flight_at f m k x : m !! k = Some x → in_flight f m k → f (c_pc x) = true.
Proof. intros Hx (y & Hy & Hf). congruence. Qed.

(** The call for [k] moves on, when the maps have what it had on its account. *)
Lemma maps_step m k x x' S Q D :
  m !! k = Some x → Indexed (in_flight tracking m) (in_flight unqueued m) S Q D →
  (tracking (c_pc x) = true → tracking (c_pc x') = true ∨ is_Some (S !! k)) →
  (unqueued (c_pc x) = true → unqueued (c_pc x') = true ∨ ∃ d q, Q !! d = Some q ∧ k ∈ q) →
  Indexed (in_flight tracking (<[k := x']> m)) (in_flight unqueued (<[k := x']> m)) S Q D.
Proof.
  intros Hx Hm HT HI. eapply ix_weaken; [exact Hm|..]; intros j Hj.
  - destruct (in_flight_insert _ _ k x' _ Hj) as [->|]; [|by left].
    destruct (HT (in_flight_at _ _ _ _ Hx Hj)); [left; by apply in_flight_new|by right].
  - destruct (in_flight_insert _ _ k x' _ Hj) as [->|]; [|by left].
    destruct (HI (in_flight_at _ _ _ _ Hx Hj)); [left; by apply in_flight_new|by right].
Qed.

Lemma maps_done m k x S Q D :
  m !! k = Some x → Indexed (in_flight tracking m) (in_flight unqueued m) S Q D →
  tracking (c_pc x) = false → unqueued (c_pc x) = false →
  Indexed (in_flight tracking (delete k m)) (in_flight unqueued (delete k m)) S Q D.
Proof.
  intros Hx Hm HT HI. eapply ix_weaken; [exact Hm|..]; intros j Hj.
  - destruct (in_flight_delete _ _ k _ Hj) as [->|]; [|by left].
    apply (in_flight_at _ _ _ _ Hx) in Hj. congruence.
  - destruct (in_flight_delete _ _ k _ Hj) as [->|]; [|by left].
    apply (in_flight_at _ _ _ _ Hx) in Hj. congruence.
Qed.

(** The maps after a section of the call for [k]. *)
Lemma maps_advance k env d pc pc' st st' m :
  start_next env d pc st = (Running pc', st') → m !! k = Some {| c_env := env; c_discovery := d; c_pc := pc |} →
  call_ok (running_snapshots st) k {| c_env := env; c_discovery := d; c_pc := pc |} →
  indexed (in_flight tracking m) (in_flight unqueued m) st →
  let m' := <[k := {| c_env := env; c_discovery := d; c_pc := pc' |}]> m in
  indexed (in_flight tracking m') (in_flight unqueued m') st'.
Proof.
  intros E Hx [Hk Hpc] Hm. cbv zeta. unfold indexed in *. simpl in Hk, Hpc. subst k.
  destruct pc; simpl in E.
  - destruct (hydrate env _); [|done]. injection E as <- <-.
    assert (same_core (if db_ok env then with_storage (storage_update
      (set_run_type (set_last_run (now env) (d_run_type d)) (now env) d)) st else st) st) as (-> & -> & -> & _)
      by (by destruct (db_ok env)).
    by eapply maps_step.
  - injection E as <- <-. simpl. apply ix_track; [by eapply maps_step|]. right. by apply in_flight_new.
  - injection E as <- <-. eapply maps_step; [done..| |done]. by left.
  - injection E as <- <-. eapply maps_step; [done..| |done]. by left.
  - destruct b; [|destruct r]; simpl in E; injection E as <- <-; simpl; (eapply maps_step; [done..| |done]; by left).
  - injection E as <- <-. simpl. destruct Hpc as [[Hs _] _].
    eapply ix_weaken; [eapply (ix_insert _ (in_flight unqueued (<[fresh env 0 := _]> m)))|..].
    + eapply ix_weaken; [exact Hm|by left|]. intros j Hj. left.
      destruct (in_flight_insert _ _ (fresh env 0) {| c_env := env; c_discovery := d; c_pc := Inserted p b r |} _ Hj)
        as [->|]; [|done]. by apply in_flight_new.
    + exact Hs.
    + right. by apply in_flight_new.
    + intros j Hj. destruct (in_flight_insert _ _ (fresh env 0) {| c_env := env; c_discovery := d; c_pc := Inserted p b r |} _ Hj)
        as [->|]; [right|by left]. rewrite lookup_insert_eq. eauto.
    + by left.
  - injection E as <- <-. simpl. eapply maps_step; [exact Hx|by apply ix_push|done|]. right.
    eexists _, _. rewrite lookup_insert_eq. split; [done|]. apply elem_of_app. right. by left.
  - injection E as <- <-. by eapply maps_step.
  - by repeat case_match.
Qed.

Lemma maps_finish k env d pc r st st' m :
  start_next env d pc st = (Finished r, st') → m !! k = Some {| c_env := env; c_discovery := d; c_pc := pc |} →
  indexed (in_flight tracking m) (in_flight unqueued m) st →
  indexed (in_flight tracking (delete k m)) (in_flight unqueued (delete k m)) st'.
Proof.
  intros E Hx Hm. assert (same_core st' st ∧ tracking pc = false ∧ unqueued pc = false) as ((E1 & E2 & E3 & _) & ET & EI).
  { destruct pc; simpl in E; repeat case_match; simplify_eq; try done; by destruct (db_ok env). }
  unfold indexed in *. rewrite E1, E2, E3. by eapply maps_done.
Qed.

Lemma cinv_advance k c c' : advance k c = Some c' → CInv c → CInv c'.
Proof.
  unfold advance. destruct (calls c !! k) as [[env d pc]|] eqn:Hx; [|done]. cbn [c_env c_discovery c_pc]. simpl.
  intros [= <-] [Hc Hm]. pose proof (Hc k _ Hx) as Hok. destruct Hok as [Hk Hpc].
  pose proof (start_next_running env d pc (svc c)) as Hr.
  pose proof (start_next_ok _ k env d pc (svc c) eq_refl (Hc k _ Hx)) as Hn.
  destruct (start_next env d pc (svc c)) as [[pc'|r] st] eqn:E; simpl in Hr, Hn.
  - constructor; simpl.
    + rewrite Hr. by apply map_Forall_insert_2.
    + eapply maps_advance; eauto.
  - constructor; simpl.
    + rewrite Hr. by apply map_Forall_delete.
    + eapply maps_finish; eauto.
Qed.

Lemma cinv_step c l c' : CInv c → cstep c l c' → CInv c'.
Proof.
  intros HC Hs. destruct Hs.
  - destruct HC as [Hc Hm]. constructor; simpl.
    + by apply map_Forall_insert_2.
    + eapply ix_weaken; [exact Hm|..]; intros j Hj; left; (destruct (decide (j = fresh env 0)) as [->|Hne];
        [by destruct Hj as (x & Hx & _); congruence|destruct Hj as (x & Hx & Hf); exists x; by rewrite lookup_insert_ne]).
  - by eapply cinv_advance.
  - assert (∀ st, (try_acquire_network_for_snapshot nid st).2 = st
      ∨ (try_acquire_network_for_snapshot nid st).2 = with_running (λ r, {[nid]} ∪ r) st) as Hcase.
    { intros st. unfold try_acquire_network_for_snapshot. repeat case_match; auto. }
    unfold on_svc. destruct (Hcase (svc c)) as [->| ->]; [by destruct HC; constructor|by apply cinv_running].
  - by apply cinv_running.
  - apply cinv_keeps; [|done]. intros. apply keeps_release_sessions.
  - apply cinv_keeps; [|done]. intros. apply keeps_update.
  - apply cinv_keeps; [|done]. intros. apply keeps_cancel.
  - apply cinv_keeps; [|done]. intros. apply keeps_core. by destruct (bus_ok env 0).
  - apply cinv_keeps; [|done]. intros. apply keeps_handed_out.
  - apply cinv_keeps; [|done]. intros. by apply keeps_core.
  - apply cinv_keeps; [|done]. intros. apply keeps_request.
  - apply cinv_keeps; [|done]. intros. apply keeps_stalled.
  - apply cinv_keeps; [|done]. intros. apply keeps_old.
  - apply cinv_keeps; [|done]. intros. apply keeps_clear.
Qed.

Lemma cinv_idle : CInv idle.
Proof. constructor; [apply map_Forall_empty|]. constructor; intros *; simpl; by rewrite lookup_empty. Qed.

Lemma creachable_inv c : creachable c → CInv c.
Proof.
  unfold creachable. intros Hr. generalize cinv_idle. induction Hr as [|a b e [l Hl] _ IH]; [done|].
  intros Ha. by apply IH, (cinv_step a l b).
Qed.

(** ** Snapshots *)

(** The section of a start that puts its session into the map decides by what holds then. *)
Lemma insertion_decides c k c' s :
  CInv c → cstep c (LStart k) c' → sessions (svc c) !! k = None → sessions (svc c') !! k = Some s →
  (phase s = AwaitingSnapshot ↔ network_id s ∈ running_snapshots (svc c)).
Proof.
  intros [Hc _] Hs Hnone Hsome. inversion Hs as [|k' ? Ha| | | | | | | | | | | |]; subst.
  unfold advance in Ha. destruct (calls c !! k) as [[env d pc]|] eqn:Hx; [|done]. injection Ha as <-.
  destruct (Hc k _ Hx) as [Hk Hpc]. cbn [c_env c_discovery c_pc] in *.
  assert (sessions (start_next env d pc (svc c)).2 !! k = Some s) as Hi.
  { by destruct (start_next env d pc (svc c)) as [[]]. }
  rewrite start_next_sessions in Hi. destruct pc as [| | | | |p b r| | |]; try congruence.
  rewrite Hk, lookup_insert_eq in Hi. injection Hi as <-. destruct Hpc as [[_ ->] ?]. done.
Qed.

(** Steps other than the release of [nid]. *)
Definition quiet (nid : Uuid) (a b : Conc) : Prop := ∃ l, cstep a l b ∧ l ≠ LRelease nid.

Lemma step_running c l c' :
  cstep c l c' →
  match l with
  | LRelease nid => running_snapshots (svc c') = running_snapshots (svc c) ∖ {[nid]}
  | LAcquire nid true => running_snapshots (svc c') = {[nid]} ∪ running_snapshots (svc c)
  | _ => running_snapshots (svc c') = running_snapshots (svc c)
  end.
Proof.
  intros Hs. destruct Hs; try done; simpl.
  - unfold advance in H0. destruct (calls c !! k) as [x|]; [|done]. injection H0 as <-.
    pose proof (start_next_running (c_env x) (c_discovery x) (c_pc x) (svc c)) as Hr.
    by destruct (start_next _ _ _ _) as [[]].
  - unfold try_acquire_network_for_snapshot. repeat case_match; done.
  - apply (keeps_release_sessions (λ _, True) (λ _, True)).
  - apply (keeps_update (λ _, True) (λ _, True)).
  - apply (keeps_cancel (λ _, True) (λ _, True)).
  - by destruct (bus_ok env 0).
  - apply (keeps_handed_out (λ _, True) (λ _, True)).
  - apply (keeps_request (λ _, True) (λ _, True)).
  - apply (keeps_stalled (λ _, True) (λ _, True)).
  - apply (keeps_old (λ _, True) (λ _, True)).
  - apply (keeps_clear (λ _, True) (λ _, True)).
Qed.

(** C1. Scans and snapshots shake hands, in every interleaving.  Let any number of starts,
    reports, cancellations, clean-ups and snapshot requests run with their lock sections
    interleaved in any way.  When [try_acquire_network_for_snapshot] succeeds there is no
    live session of the network, and from then until the network is released it counts as
    being snapshotted and every start that puts a session of it into the session map, even
    one that was under way when the snapshot was taken, puts it there as waiting for the
    snapshot, not as work for a daemon. *)
Theorem snapshot_handshake nid c c1 c2 (Hr : creachable c) (Ha : cstep c (LAcquire nid true) c1)
    (Hq : rtc (quiet nid) c1 c2) :
  (∀ j t, sessions (svc c) !! j = Some t → network_id t = nid → is_terminal (phase t) = true)
  ∧ nid ∈ running_snapshots (svc c2)
  ∧ ∀ k c3 s, cstep c2 (LStart k) c3 → sessions (svc c2) !! k = None → sessions (svc c3) !! k = Some s →
      network_id s = nid → phase s = AwaitingSnapshot.
Proof.
  split; [|assert (nid ∈ running_snapshots (svc c2)) as Hrun; [|split; [done|]]].
  - assert ((try_acquire_network_for_snapshot nid (svc c)).1 = true) as Eok
      by (remember (LAcquire nid true) as l; destruct Ha; try done; by simplify_eq).
    unfold try_acquire_network_for_snapshot in Eok. repeat case_match; try done. intros j t Hj Hn. apply not_false_is_true. intros Ht.
    assert (existsb (λ s, (network_id s =? nid)%N && negb (is_terminal (phase s))) (hash_values (sessions (svc c)))
      = true); [|congruence].
    apply existsb_exists. exists t. rewrite Hn, N.eqb_refl, Ht. split; [|done].
    apply list_elem_of_In, elem_of_hash_values. eauto.
  - apply step_running in Ha. assert (nid ∈ running_snapshots (svc c1)) as H1 by (rewrite Ha; set_solver).
    clear Hr Ha. induction Hq as [|a b e [l [Hl Hne]] _ IH]; [done|]. apply IH. apply step_running in Hl.
    destruct l as [|n []|n|]; rewrite Hl; set_solver.
  - intros k c3 s Hs Hnone Hsome <-. eapply insertion_decides; [|done..].
    apply creachable_inv. unfold creachable. etransitivity; [exact Hr|]. eapply rtc_l; [by eexists|].
    eapply rtc_subrel; [|exact Hq]. intros a b (l & Hl & _). eauto.
Qed.

(** ** The duplicate guard *)

(** C2. A discovery is never locked out, in every interleaving and for whatever daemons
    report: every session is stored under its own id; an entry of the map that refuses a
    second start of a discovery points at a session that exists, or at one that a start under
    way is about to create; and every session is in the queue of a daemon, or about to be
    pushed onto it by the start that created it. *)
Theorem guard_never_sticks c (Hr : creachable c) :
  (∀ k s, sessions (svc c) !! k = Some s → session_id s = k)
  ∧ (∀ d k, discovery_sessions (svc c) !! d = Some k →
       is_Some (sessions (svc c) !! k) ∨ ∃ x, calls c !! k = Some x ∧ tracking (c_pc x) = true)
  ∧ (∀ k s, sessions (svc c) !! k = Some s →
       (∃ did, k ∈ daemon_queue (svc c) did) ∨ ∃ x, calls c !! k = Some x ∧ unqueued (c_pc x) = true).
Proof.
  apply creachable_inv in Hr as [_ [Hk Hg Hq]]. split; [done|]. split; [done|].
  intros k s Hs. destruct (Hq k s Hs) as [(d & q & Hd & Hin)|]; [left|by right].
  exists d. unfold daemon_queue. by rewrite Hd.
Qed.
End System.

(** ** Schedules

    The steps the examples are made of, as a function. *)

Inductive Action :=
| ABegin (env : Env) (d : Discovery)
| AStart (k : Uuid)
| AAcquire (nid : Uuid)
| AUpdate (env : Env) (u : payload)
| ACancel (env : Env) (s : payload)
| AHandedOut (env : Env) (k : Uuid).

Definition act (a : Action) (c : Conc) : option Conc :=
  match a with
  | ABegin env d =>
      if bool_decide (calls c !! fresh env 0 = None ∧ sessions (svc c) !! fresh env 0 = None)
         && negb (start_blocked d (svc c))
      then Some {| svc := svc c; calls := <[fresh env 0 := {| c_env := env; c_discovery := d; c_pc := Checked |}]> (calls c) |}
      else None
  | AStart k => advance k c
  | AAcquire nid =>
      if bool_decide (unlocked c) then Some (on_svc (λ st, (try_acquire_network_for_snapshot nid st).2) c) else None
  | AUpdate env u => Some (on_svc (λ st, (update_section env u st).2) c)
  | ACancel env s =>
      Some (on_svc (cancel_removal env (session_id s) (daemon_id s) (bool_decide (phase s = Pending)) false (discovery_id s)
                      (cancelled_payload s 0 (now env) (discovery_id s))) c)
  | AHandedOut env k => Some (on_svc (transition_session_to_starting env k) c)
  end.

Lemma act_step a c c' : act a c = Some c' → ∃ l, cstep c l c' ∧ ∀ nid, l ≠ LRelease nid.
Proof.
  destruct a; simpl.
  - case_bool_decide as Hn; simpl; [|done]. destruct (start_blocked _ _) eqn:Hb; simpl; [done|].
    intros [= <-]. destruct Hn. exists LOther. split; [by constructor|done].
  - intros Ha. exists (LStart k). split; [by constructor|done].
  - case_bool_decide; [|done]. intros [= <-]. eexists. split; [by constructor|done].
  - intros [= <-]. exists LOther. split; [by constructor|done].
  - intros [= <-]. exists LOther. split; [apply c_cancel|done].
  - intros [= <-]. exists LOther. split; [by constructor|done].
Qed.

Fixpoint schedule (l : list Action) (c : Conc) : option Conc :=
  match l with
  | [] => Some c
  | a :: l => act a c ≫= schedule l
  end.

Lemma schedule_quiet nid l c c' : schedule l c = Some c' → rtc (quiet nid) c c'.
Proof.
  revert c. induction l as [|a l IH]; intros c; simpl; [intros [= ->]; apply rtc_refl|].
  intros (c1 & Ha & Hl)%bind_Some. destruct (act_step _ _ _ Ha) as (x & Hx & Hne).
  eapply rtc_l; [exists x; by split|by apply IH].
Qed.

Lemma schedule_reachable l c : schedule l idle = Some c → creachable c.
Proof.
  intros Hl. eapply rtc_subrel; [|exact (schedule_quiet 0 l idle c Hl)]. intros a b (x & Hx & _). by exists x.
Qed.

(** [n] sections of the call for [k]. *)
Definition sections (n : nat) (k : Uuid) : list Action := replicate n (AStart k).

(** Discovery 1 is under way when network 20 is taken for a snapshot. *)
Definition taken : list Action := [ABegin (run_env 0 100) (run_discovery 1); AStart 100; AStart 100; AAcquire 20].

Definition after (l : list Action) : Conc := default idle (schedule l idle).

Lemma snapshot_handshake_witness :
  phase <$> sessions (svc (after (taken ++ sections 4 100))) !! 100%N = Some AwaitingSnapshot.
Proof.
  set (before := after [ABegin (run_env 0 100) (run_discovery 1); AStart 100; AStart 100]).
  destruct (snapshot_handshake 20 before (after taken) (after (taken ++ sections 3 100))) as (_ & _ & Hs).
  - apply (schedule_reachable [ABegin (run_env 0 100) (run_discovery 1); AStart 100; AStart 100]). by vm_compute.
  - assert (unlocked before) as Hu by (by apply (bool_decide_unpack _); vm_compute).
    exact (c_acquire before 20 Hu).
  - apply (schedule_quiet 20 (sections 3 100)). by vm_compute.
  - assert (∃ s, sessions (svc (after (taken ++ sections 4 100))) !! 100%N = Some s ∧ network_id s = 20%N) as (s & E & En)
      by (eexists; by vm_compute).
    rewrite E. simpl. f_equal. apply (Hs 100%N (after (taken ++ sections 4 100))); [|by vm_compute|done|done].
    apply c_start. by vm_compute.
Defined.

Lemma guard_never_sticks_witness :
  discovery_sessions (svc (after taken)) !! 1%N = Some 100%N
  ∧ (is_Some (sessions (svc (after taken)) !! 100%N)
     ∨ ∃ x, calls (after taken) !! 100%N = Some x ∧ tracking (c_pc x) = true).
Proof.
  split; [by vm_compute|].
  apply (proj1 (proj2 (guard_never_sticks (after taken) (schedule_reachable taken _ (eq_refl _)))) 1%N).
  by vm_compute.
Defined.

(** ** Interleavings that go wrong *)

(** Daemon 10 runs session 100.  A start of discovery 2 reads its queue and finds it busy;
    then session 100 completes; then the start goes on. *)
Definition end_meets_start : list Action :=
  [ABegin (run_env 0 100) (run_discovery 1)] ++ sections 9 100 ++ [AHandedOut (run_env 1000 300) 100]
  ++ [ABegin (run_env 2000 200) (run_discovery 2)] ++ sections 4 200
  ++ [AUpdate (run_env 3000 400) (run_report Complete)] ++ sections 5 200.

(** A session can be queued behind nobody.  The queue is read and pushed onto under two lock
    acquisitions; when the daemon's last session ends in between, nothing is promoted and the
    new session is pushed as queued onto an empty queue.  No poll hands it out, the stall
    clean-up does not look at queued sessions, and since the queue is no longer empty every
    later start for the daemon is queued behind it. *)
Theorem queued_behind_nobody :
  let c := after end_meets_start in
  creachable c ∧ calls c = ∅
  ∧ daemon_queue (svc c) 10 = [200%N] ∧ (phase <$> sessions (svc c) !! 200%N) = Some Queued
  ∧ (∀ env, get_pending_work env [] 10 (svc c) = (None, svc c) ∧ cleanup_stalled_sessions env (svc c) = svc c)
  ∧ (let st := (start_session (run_env 4000 500) (run_discovery 3) (svc c)).2 in
     (phase <$> sessions st !! 500%N) = Some Queued ∧ ∀ env, (get_pending_work env [] 10 st).1 = None).
Proof.
  split; [by apply (schedule_reachable end_meets_start); vm_compute|]. by split_and!; vm_compute.
Qed.

(** A start of discovery 1 has put its session into the map; the session is cancelled; then
    the start pushes it onto the queue. *)
Definition cancel_meets_start : list Action :=
  [ABegin (run_env 0 100) (run_discovery 1)] ++ sections 6 100 ++ [ACancel (run_env 1000 300) run_pending]
  ++ sections 3 100.

(** A cancelled session can stay in its daemon's queue.  Cancelling takes the session out of
    the map and out of a queue it is not in yet; the start then pushes the dead id, the queue
    of the idle daemon is never empty again, and later starts are queued behind it. *)
Theorem cancelled_id_queued :
  let c := after cancel_meets_start in
  creachable c ∧ calls c = ∅ ∧ sessions (svc c) = ∅ ∧ daemon_queue (svc c) 10 = [100%N]
  ∧ (let st := (start_session (run_env 2000 200) (run_discovery 2) (svc c)).2 in
     (phase <$> sessions st !! 200%N) = Some Queued
     ∧ ∀ env, (get_pending_work env [] 10 st).1 = None ∧ cleanup_stalled_sessions env st = st).
Proof.
  split; [by apply (schedule_reachable cancel_meets_start); vm_compute|]. by split_and!; vm_compute.
Qed.
