(* ===== verification/Locks.v ===== *)
(** Entity locks ([server/shared/storage/lock.rs]): the registry of lock keys,
    the polling loop of [session_lock], and concurrent [session_lock_many]
    calls as a step relation.

    The text of a [Uuid] and sqlx's derivation of the 64-bit key from the
    canonical string are parameters.  Time is in milliseconds. *)

From Stdlib Require Import Ascii.
From stdpp Require Import pretty.
From S2P Require Import Prelude.
Local Open Scope Z_scope.
Set Default Proof Using "Type".

(** The strum discriminants of [Entity] and their names. *)
Inductive EntityDiscriminants :=
  | E_Organization | E_Invite | E_Share | E_Network | E_DaemonApiKey | E_UserApiKey | E_User | E_Tag
  | E_Discovery | E_Daemon
  | E_Host | E_Service | E_Port | E_Binding | E_IPAddress | E_Interface
  | E_Credential | E_Subnet | E_Vlan | E_Dependency | E_Topology | E_Snapshot
  | E_Unknown.

#[export] Instance EntityDiscriminants_eq_dec : EqDecision EntityDiscriminants.
Proof. solve_decision. Defined.

Definition discriminant_str (d : EntityDiscriminants) : string :=
  match d with
  | E_Organization => "Organization" | E_Invite => "Invite" | E_Share => "Share"
  | E_Network => "Network" | E_DaemonApiKey => "DaemonApiKey" | E_UserApiKey => "UserApiKey"
  | E_User => "User" | E_Tag => "Tag" | E_Discovery => "Discovery" | E_Daemon => "Daemon"
  | E_Host => "Host" | E_Service => "Service" | E_Port => "Port" | E_Binding => "Binding"
  | E_IPAddress => "IPAddress" | E_Interface => "Interface" | E_Credential => "Credential"
  | E_Subnet => "Subnet" | E_Vlan => "Vlan" | E_Dependency => "Dependency"
  | E_Topology => "Topology" | E_Snapshot => "Snapshot" | E_Unknown => "Unknown"
  end%string.

Inductive LockKey :=
  | LK_Host (id : Uuid)
  | LK_HostDedup (network_id : Uuid)
  | LK_Service (id : Uuid)
  | LK_ServiceDedup (host_id : Uuid)
  | LK_DependencyMembers (network_id : Uuid)
  | LK_IpPositions (host_id : Uuid)
  | LK_JunctionSync (parent : EntityDiscriminants) (parent_id : Uuid)
  | LK_ApiKey (id : Uuid).

#[export] Instance LockKey_eq_dec : EqDecision LockKey.
Proof. solve_decision. Defined.

Definition DEFAULT_LOCK_TIMEOUT : Z := 30000.
Definition CONSOLIDATE_LOCK_TIMEOUT : Z := 10000.
Definition RETRY_INTERVAL : Z := 50.

(** ** The byte order of strings *)

Lemma ascii_compare_trans (c : comparison) (x y z : ascii) :
  Ascii.compare x y = c → Ascii.compare y z = c → Ascii.compare x z = c.
Proof.
  unfold Ascii.compare. destruct c; rewrite ?N.compare_eq_iff, ?N.compare_lt_iff, ?N.compare_gt_iff; lia.
Qed.

Lemma string_compare_lt_trans (a b c : string) :
  String.compare a b = Lt → String.compare b c = Lt → String.compare a c = Lt.
Proof.
  revert b c. induction a as [|x a IH]; intros [|y b] [|z c]; simpl; try done.
  destruct (Ascii.compare x y) eqn:Exy; destruct (Ascii.compare y z) eqn:Eyz; try done.
  - rewrite (ascii_compare_trans Eq x y z Exy Eyz). apply IH.
  - apply Ascii.compare_eq_iff in Exy as ->. by rewrite Eyz.
  - apply Ascii.compare_eq_iff in Eyz as ->. by rewrite Exy.
  - by rewrite (ascii_compare_trans Lt x y z Exy Eyz).
Qed.

Lemma string_leb_compare (a b : string) : String.leb a b = true ↔ a = b ∨ String.compare a b = Lt.
Proof.
  unfold String.leb. pose proof (String.compare_eq_iff a b) as Heq.
  assert (a = b → String.compare a b = Eq) as Hrefl.
  { intros ->. pose proof (String.compare_antisym b b). by destruct (String.compare b b). }
  destruct (String.compare a b); intuition congruence.
Qed.

Lemma string_leb_trans (a b c : string) :
  String.leb a b = true → String.leb b c = true → String.leb a c = true.
Proof.
  rewrite !string_leb_compare. intros [->|?] [->|?]; eauto using string_compare_lt_trans.
Qed.

Section Locks.
(** [uuid_str]: [Display] of [Uuid]; [hkdf]: [PgAdvisoryLock::new(s).key()]. *)
Context (uuid_str : Uuid → string) (hkdf : string → Z).

Definition canonical (k : LockKey) : string :=
  match k with
  | LK_Host id => "host:" +:+ uuid_str id
  | LK_HostDedup network_id => "host-dedup:" +:+ uuid_str network_id
  | LK_Service id => "service:" +:+ uuid_str id
  | LK_ServiceDedup host_id => "service-dedup:" +:+ uuid_str host_id
  | LK_DependencyMembers network_id => "dependency-members:" +:+ uuid_str network_id
  | LK_IpPositions host_id => "ip-positions:" +:+ uuid_str host_id
  | LK_JunctionSync parent parent_id =>
      "junction-sync:" +:+ discriminant_str parent +:+ ":" +:+ uuid_str parent_id
  | LK_ApiKey id => "api-key:" +:+ uuid_str id
  end.

Definition pg_key (k : LockKey) : Z := hkdf (canonical k).

(** ** One lock *)

(** What one poll finds: the lock is ours, someone else's, or the database
    fails (acquiring a connection, or the query). *)
Inductive Attempt := Acquired | Busy | DbFailed.

Inductive LockError := LockTimeout (timeout : Z) (key : LockKey) | Db.

(** The loop of [session_lock]: the [n]-th poll is answered by [attempt n] and
    the clock is then at [clock n].  The result is the number of the poll that
    got the lock. *)
Fixpoint session_lock_poll (fuel : nat) (attempt : nat → Attempt) (clock : nat → Z)
    (key : LockKey) (timeout deadline : Z) (n : nat) : option (result nat LockError) :=
  match fuel with
  | O => None
  | S fuel' =>
      match attempt n with
      | DbFailed => Some (Err Db)
      | Acquired => Some (Ok n)
      | Busy =>
          if clock n + RETRY_INTERVAL >? deadline then Some (Err (LockTimeout timeout key))
          else session_lock_poll fuel' attempt clock key timeout deadline (S n)
      end
  end.

(** Enough polls for any clock on which a sleep lasts [RETRY_INTERVAL]. *)
Definition lock_fuel (timeout : Z) : nat := S (Z.to_nat (timeout / RETRY_INTERVAL)).

Definition session_lock (attempt : nat → Attempt) (clock : nat → Z) (start : Z)
    (key : LockKey) (timeout : Z) : option (result nat LockError) :=
  session_lock_poll (lock_fuel timeout) attempt clock key timeout (start + timeout) 0.

(** ** Several locks, several tasks *)

(** The order of acquisition. *)
Definition canonical_leb (a b : LockKey) : bool := String.leb (canonical a) (canonical b).
Definition acquisition_order (keys : list LockKey) : list LockKey := sort_by canonical_leb keys.

(** A task inside [session_lock_many]: the keys still to lock, and the guards
    it holds.  With no key left it runs its critical section and releases. *)
Record task := { todo : list LockKey; guards : list LockKey }.

Definition idle : task := {| todo := []; guards := [] |}.

(** Session locks exclude each other by key; every guard has its own
    connection, so a task's own guards exclude it too. *)
Definition held (cs : list task) (k : LockKey) : bool :=
  existsb (λ c, existsb (λ g, pg_key g =? pg_key k) (guards c)) cs.

(** The call [session_lock_many(keys)]. *)
Definition request (cs : list task) (i : nat) (keys : list LockKey) : option (list task) :=
  match cs !! i with
  | Some {| todo := []; guards := [] |} =>
      Some (<[i := {| todo := acquisition_order keys; guards := [] |}]> cs)
  | _ => None
  end.

(** A poll that succeeds. *)
Definition acquire (cs : list task) (i : nat) : option (list task) :=
  match cs !! i with
  | Some {| todo := k :: rest; guards := gs |} =>
      if held cs k then None else Some (<[i := {| todo := rest; guards := gs ++ [k] |}]> cs)
  | _ => None
  end.

(** The deadline passes (or the database fails): the call returns its error and
    the guards taken so far are dropped, each released in its own time. *)
Definition time_out (cs : list task) (i : nat) : option (list task) :=
  match cs !! i with
  | Some {| todo := _ :: _; guards := gs |} => Some (<[i := {| todo := []; guards := gs |}]> cs)
  | _ => None
  end.

(** A guard is released, by [release_all] or by [Drop]. *)
Definition release (cs : list task) (i : nat) : option (list task) :=
  match cs !! i with
  | Some {| todo := []; guards := _ :: gs |} => Some (<[i := {| todo := []; guards := gs |}]> cs)
  | _ => None
  end.

(** The steps of a system of tasks whose requests satisfy [allowed]. *)
Inductive lock_step (allowed : list LockKey → Prop) : list task → list task → Prop :=
  | step_request cs cs' i keys :
      allowed keys → request cs i keys = Some cs' → lock_step allowed cs cs'
  | step_acquire cs cs' i : acquire cs i = Some cs' → lock_step allowed cs cs'
  | step_time_out cs cs' i : time_out cs i = Some cs' → lock_step allowed cs cs'
  | step_release cs cs' i : release cs i = Some cs' → lock_step allowed cs cs'.

(** A step that no one has to wait for. *)
Definition progress (cs cs' : list task) : Prop :=
  ∃ i, acquire cs i = Some cs' ∨ release cs i = Some cs'.

Definition all_idle (cs : list task) : Prop := Forall (λ c, c = idle) cs.

Definition lock_reachable (allowed : list LockKey → Prop) (cs : list task) : Prop :=
  ∃ n, rtc (lock_step allowed) (replicate n idle) cs.

(** ** Lemmas *)

Lemma canonical_leb_total (a b : LockKey) : canonical_leb a b = true ∨ canonical_leb b a = true.
Proof. apply String.leb_total. Qed.

Lemma canonical_leb_trans (a b c : LockKey) :
  canonical_leb a b = true → canonical_leb b c = true → canonical_leb a c = true.
Proof. apply string_leb_trans. Qed.

Lemma canonical_leb_refl (a : LockKey) : canonical_leb a a = true.
Proof. by destruct (canonical_leb_total a a). Qed.

#[local] Hint Resolve canonical_leb_refl canonical_leb_trans : scanopy.

Lemma held_true (cs : list task) (k : LockKey) :
  held cs k = true ↔ ∃ j c g, cs !! j = Some c ∧ g ∈ guards c ∧ pg_key g = pg_key k.
Proof.
  unfold held. rewrite existsb_exists. split.
  - intros (c & Hc & (g & Hg & E%Z.eqb_eq)%existsb_exists).
    apply list_elem_of_In, list_elem_of_lookup in Hc as [j Hj].
    exists j, c, g. by rewrite list_elem_of_In.
  - intros (j & c & g & Hj & Hg & E). exists c. split.
    + apply list_elem_of_In. by eapply list_elem_of_lookup_2.
    + apply existsb_exists. exists g. by rewrite <-list_elem_of_In, Z.eqb_eq.
Qed.

Lemma request_inv cs i keys cs' :
  request cs i keys = Some cs' →
  cs !! i = Some idle
  ∧ cs' = <[i := {| todo := acquisition_order keys; guards := [] |}]> cs.
Proof. unfold request. destruct (cs !! i) as [[[|] []]|]; naive_solver. Qed.

Lemma acquire_inv cs i cs' :
  acquire cs i = Some cs' →
  ∃ k rest gs, cs !! i = Some {| todo := k :: rest; guards := gs |} ∧ held cs k = false
  ∧ cs' = <[i := {| todo := rest; guards := gs ++ [k] |}]> cs.
Proof.
  unfold acquire. destruct (cs !! i) as [[[|k rest] gs]|]; [done| |done].
  destruct (held cs k) eqn:E; naive_solver.
Qed.

Lemma time_out_inv cs i cs' :
  time_out cs i = Some cs' →
  ∃ k rest gs, cs !! i = Some {| todo := k :: rest; guards := gs |}
  ∧ cs' = <[i := {| todo := []; guards := gs |}]> cs.
Proof. unfold time_out. destruct (cs !! i) as [[[|] ?]|]; naive_solver. Qed.

Lemma release_inv cs i cs' :
  release cs i = Some cs' →
  ∃ g gs, cs !! i = Some {| todo := []; guards := g :: gs |}
  ∧ cs' = <[i := {| todo := []; guards := gs |}]> cs.
Proof. unfold release. destruct (cs !! i) as [[[|] [|]]|]; naive_solver. Qed.

Ltac invert_lock_step :=
  match goal with
  | H : request _ _ _ = Some _ |- _ => apply request_inv in H as [? ->]
  | H : acquire _ _ = Some _ |- _ => apply acquire_inv in H as (?k & ?rest & ?gs & ? & ? & ->)
  | H : time_out _ _ = Some _ |- _ => apply time_out_inv in H as (?k & ?rest & ?gs & ? & ->)
  | H : release _ _ = Some _ |- _ => apply release_inv in H as (?g & ?gs & ? & ->)
  end.

(** All the guards of the system. *)
Definition all_guards (cs : list task) : list LockKey := cs ≫= guards.

Lemma elem_of_all_guards cs g : g ∈ all_guards cs ↔ ∃ j c, cs !! j = Some c ∧ g ∈ guards c.
Proof.
  unfold all_guards. rewrite list_elem_of_bind. setoid_rewrite list_elem_of_lookup. naive_solver.
Qed.

Lemma all_guards_insert cs i c c' :
  cs !! i = Some c →
  ∃ rest, all_guards cs ≡ₚ guards c ++ rest ∧ all_guards (<[i := c']> cs) ≡ₚ guards c' ++ rest.
Proof.
  intros Hi. pose proof (lookup_lt_Some _ _ _ Hi) as Hlt.
  exists (all_guards (take i cs) ++ all_guards (drop (S i) cs)). split.
  - rewrite <-(take_drop_middle cs i c Hi) at 1. unfold all_guards.
    rewrite bind_app. simpl. by rewrite Permutation_app_swap_app.
  - rewrite insert_take_drop by done. unfold all_guards.
    rewrite bind_app. simpl. by rewrite Permutation_app_swap_app.
Qed.

(** Any step keeps the advisory keys of the guards distinct. *)
Lemma exclusion_step allowed cs cs' :
  NoDup (pg_key <$> all_guards cs) → lock_step allowed cs cs' → NoDup (pg_key <$> all_guards cs').
Proof.
  intros Hnd Hstep. destruct Hstep; invert_lock_step;
    match goal with
    | H : ?cs !! ?i = Some ?c |- context [<[?i := ?c']> ?cs] =>
        destruct (all_guards_insert cs i c c' H) as (r & E1 & E2);
        rewrite E2; rewrite E1 in Hnd; simpl in *
    end.
  - done.
  - rewrite <-app_assoc, fmap_app. simpl. rewrite <-Permutation_middle, <-fmap_app.
    constructor; [|done]. rewrite <-E1, list_elem_of_fmap.
    intros (g & Hg & (j & c & Hj & Hin)%elem_of_all_guards).
    enough (held cs k = true) by congruence. apply held_true. eauto 10.
  - done.
  - by inversion Hnd.
Qed.

Section Ordered.
(** The keys in play do not collide under the derivation. *)
Context (U : LockKey → Prop) (collision_free : ∀ j k, U j → U k → pg_key j = pg_key k → j = k).

(** Requests name distinct keys in play. *)
Definition well_formed (keys : list LockKey) : Prop := NoDup keys ∧ Forall U keys.

Definition before (a b : LockKey) : Prop := canonical_leb a b = true ∧ a ≠ b.

(** Guards, then the keys to lock, in increasing order. *)
Definition task_ok (c : task) : Prop :=
  StronglySorted before (guards c ++ todo c) ∧ Forall U (guards c ++ todo c).
#[export] Instance task_eq_dec : EqDecision task.
Proof. solve_decision. Defined.

Lemma acquisition_order_before keys :
  NoDup keys → StronglySorted before (acquisition_order keys).
Proof.
  intros Hnd. unfold acquisition_order.
  pose proof (sort_by_sorted canonical_leb canonical_leb_total canonical_leb_trans keys) as Hs.
  rewrite <-(sort_by_perm canonical_leb keys) in Hnd. revert Hnd.
  induction Hs as [|k l Hs IH Hall]; intros Hnd; [constructor|].
  apply list.NoDup_cons in Hnd as [Hk Hnd]. constructor; [by apply IH|]. apply Forall_forall. intros x Hx. split.
  - by apply (proj1 (Forall_forall _ _) Hall).
  - intros <-. by apply Hk, list_elem_of_In.
Qed.

Lemma task_ok_step cs cs' :
  Forall task_ok cs → lock_step well_formed cs cs' → Forall task_ok cs'.
Proof.
  intros Hok Hstep.
  destruct Hstep as [? ? i keys [Hnd HU]| | |]; invert_lock_step; apply Forall_insert; try done;
    try match goal with
    | Hc : _ !! _ = Some _ |- _ =>
        pose proof (proj1 (Forall_lookup _ _) Hok _ _ Hc) as [Hsort HUs]; simpl in *
    end.
  - split; simpl; [by apply acquisition_order_before|]. unfold acquisition_order. by rewrite sort_by_perm.
  - split; simpl; by rewrite <-app_assoc.
  - split; simpl; rewrite app_nil_r.
    + by eapply StronglySorted_app_1_l.
    + by apply Forall_app in HUs as [? _].
  - split; simpl; rewrite app_nil_r in *; [by inversion Hsort|by inversion HUs].
Qed.

Lemma canonical_max (k : LockKey) (l : list LockKey) :
  ∃ m, m ∈ k :: l ∧ ∀ x, x ∈ k :: l → canonical_leb x m = true.
Proof.
  revert k. induction l as [|y l IH]; intros k.
  - exists k. split; [left|]. intros x ->%list_elem_of_singleton. auto with scanopy.
  - destruct (IH y) as (m & Hm & Hmax).
    destruct (canonical_leb_total k m) as [E|E].
    + exists m. split; [by right|]. intros x [->|Hx]%elem_of_cons; eauto.
    + exists k. split; [left|]. intros x [->|Hx]%elem_of_cons; eauto with scanopy.
Qed.

(** The task that waits for the greatest key is not waiting in vain. *)
Lemma can_progress cs : Forall task_ok cs → ¬ all_idle cs → ∃ cs', progress cs cs'.
Proof using collision_free.
  intros Hok Hbusy. destruct (omap (λ c, head (todo c)) cs) as [|k0 ks] eqn:Ew.
  - apply not_Forall_Exists in Hbusy; [|intros ?; apply _].
    apply Exists_exists in Hbusy as ([td gs] & Hc & Hne). apply list_elem_of_In in Hc.
    destruct td as [|k td].
    + destruct gs as [|g gs]; [by destruct Hne|]. apply list_elem_of_lookup in Hc as [i Hi].
      eexists _, i. right. unfold release. by rewrite Hi.
    + assert (k ∈ omap (λ c, head (todo c)) cs) as Hk by (apply list_elem_of_omap; by eexists).
      rewrite Ew in Hk. by apply elem_of_nil in Hk.
  - destruct (canonical_max k0 ks) as (m & Hm & Hmax). rewrite <-Ew in Hm, Hmax.
    apply list_elem_of_omap in Hm as ([td gs] & Hc & Hhd). destruct td as [|? td]; [done|].
    simplify_eq/=. apply list_elem_of_lookup in Hc as [i Hi].
    destruct (held cs m) eqn:Eh.
    2:{ eexists _, i. left. unfold acquire. by rewrite Hi, Eh. }
    apply held_true in Eh as (j & [td' gs'] & g & Hj & Hg & Epg).
    pose proof (proj1 (Forall_lookup _ _) Hok _ _ Hi) as [_ HU%Forall_app]; simpl in *.
    pose proof (proj1 (Forall_lookup _ _) Hok _ _ Hj) as [Hsort HU'%Forall_app]; simpl in *.
    assert (g = m) as ->.
    { apply collision_free; [|by destruct HU as [_ [? _]%Forall_cons_iff]|done].
      destruct HU' as [HU' _]. rewrite Forall_forall in HU'. by apply HU', list_elem_of_In. }
    destruct td' as [|k' td'].
    { destruct gs' as [|g' gs']; [by apply elem_of_nil in Hg|].
      eexists _, j. right. unfold release. by rewrite Hj. }
    exfalso. destruct (StronglySorted_app_1_elem_of before gs' (k' :: td') m k') as [Hle Hne];
      [done..|left|].
    apply Hne, collision_free;
      [by destruct HU as [_ [? _]%Forall_cons_iff]|by destruct HU' as [_ [? _]%Forall_cons_iff]|].
    unfold pg_key. f_equal. apply String.leb_antisym; [done|].
    apply Hmax, list_elem_of_omap. eexists. split; [by eapply list_elem_of_lookup_2|done].
Qed.
End Ordered.

(** ** Termination *)

(** The steps a task still has to take. *)
Definition work (c : task) : nat := 2 * length (todo c) + length (guards c).
Definition total_work (cs : list task) : nat := sum_list_with work cs.

Lemma total_work_insert cs i c c' :
  cs !! i = Some c → (total_work (<[i := c']> cs) + work c = total_work cs + work c')%nat.
Proof.
  unfold total_work. revert i. induction cs as [|d cs IH]; intros [|i] Hi; simplify_eq/=; [lia|].
  specialize (IH i Hi). lia.
Qed.

Lemma progress_work cs cs' : progress cs cs' → total_work cs = S (total_work cs').
Proof.
  intros [i [H|H]]; invert_lock_step;
    match goal with H : ?cs !! ?i = Some ?c |- context [<[?i := ?c']> ?cs] =>
      pose proof (total_work_insert cs i c c' H) as Hw end;
    unfold work in Hw; simpl in Hw; rewrite ?length_app in Hw; simpl in Hw; lia.
Qed.

Lemma progress_step allowed cs cs' : progress cs cs' → lock_step allowed cs cs'.
Proof. intros [i [?|?]]; eauto using lock_step. Qed.

Lemma idle_ok U n : Forall (task_ok U) (replicate n idle).
Proof. apply Forall_replicate. split; constructor. Qed.

Lemma reachable_ok U cs : lock_reachable (well_formed U) cs → Forall (task_ok U) cs.
Proof.
  intros [n Hn]. pose proof (idle_ok U n) as H0. revert H0.
  induction Hn; eauto using task_ok_step.
Qed.

Lemma progress_total n cs cs' : nsteps progress n cs cs' → total_work cs = (n + total_work cs')%nat.
Proof.
  induction 1 as [|n x y z Hxy%progress_work _ IH]; [done|]. rewrite Hxy, IH. lia.
Qed.

Lemma finish U cs :
  (∀ j k, U j → U k → pg_key j = pg_key k → j = k) → Forall (task_ok U) cs →
  ∃ cs', rtc progress cs cs' ∧ all_idle cs'.
Proof.
  intros HU. remember (total_work cs) as w eqn:Hw. revert cs Hw.
  induction w as [|w IH]; intros cs Hw Hok.
  all: destruct (decide (all_idle cs)) as [|Hbusy]; [by exists cs|].
  all: destruct (can_progress U HU cs Hok Hbusy) as [cs' Hp].
  all: pose proof (progress_work _ _ Hp) as Hlt.
  { lia. }
  destruct (IH cs') as (cs'' & ? & ?); [lia|by eapply task_ok_step, progress_step|].
  exists cs''. split; [by eapply rtc_l|done].
Qed.

Lemma poll_spec attempt clock key timeout start fuel n :
  start ≤ clock 0%nat → (∀ m, clock m + RETRY_INTERVAL ≤ clock (S m)) → 0 ≤ timeout →
  (∀ m, (m < n)%nat → attempt m = Busy) → Z.of_nat n * RETRY_INTERVAL ≤ timeout →
  (lock_fuel timeout ≤ n + fuel)%nat →
  ∃ r, session_lock_poll fuel attempt clock key timeout (start + timeout) n = Some r ∧
  match r with
  | Ok n => attempt n = Acquired ∧ ∀ m, (m < n)%nat → attempt m = Busy
  | Err (LockTimeout t k) => t = timeout ∧ k = key ∧
      ∃ n, (∀ m, (m ≤ n)%nat → attempt m = Busy) ∧ start + timeout < clock n + RETRY_INTERVAL
  | Err Db => ∃ n, attempt n = DbFailed ∧ ∀ m, (m < n)%nat → attempt m = Busy
  end.
Proof.
  intros H0 Hclock Ht. revert n. induction fuel as [|fuel IH]; intros n Hbusy Hn Hfuel.
  { unfold lock_fuel in Hfuel. exfalso. unfold RETRY_INTERVAL in *.
    pose proof (Z.mod_pos_bound timeout 50). pose proof (Z.div_mod timeout 50). lia. }
  assert (start + Z.of_nat n * RETRY_INTERVAL ≤ clock n) as Hn'.
  { clear -H0 Hclock. induction n as [|n IH]; [lia|]. specialize (Hclock n).
    rewrite Nat2Z.inj_succ. lia. }
  simpl. destruct (attempt n) eqn:E; [by eexists|..|by eexists; split; [done|]; exists n].
  assert (∀ m, (m ≤ n)%nat → attempt m = Busy) as Hbusy'.
  { intros m Hm. destruct (decide (m = n)) as [->|]; [done|]. apply Hbusy. lia. }
  destruct (clock n + RETRY_INTERVAL >? start + timeout) eqn:Ec.
  - eexists. split; [done|]. split_and!; [done..|]. exists n. split; [done|]. lia.
  - apply IH; [intros m Hm; apply Hbusy'; lia| |lia]. rewrite Nat2Z.inj_succ. lia.
Qed.

(** ** The properties *)

(** [session_lock] always returns: on any clock on which a sleep lasts at
    least the retry interval it polls at most [timeout / 50ms + 1] times, and it
    answers with the first poll that got the lock, the first database failure, or
    a timeout only after every poll up to the deadline found the lock taken. *)
Theorem session_lock_returns (attempt : nat → Attempt) (clock : nat → Z) (start : Z)
    (key : LockKey) (timeout : Z)
  (Hstart : start ≤ clock 0%nat) (Hclock : ∀ m, clock m + RETRY_INTERVAL ≤ clock (S m))
  (Htimeout : 0 ≤ timeout) :
  ∃ r, session_lock attempt clock start key timeout = Some r ∧
  match r with
  | Ok n => attempt n = Acquired ∧ ∀ m, (m < n)%nat → attempt m = Busy
  | Err (LockTimeout t k) => t = timeout ∧ k = key ∧
      ∃ n, (∀ m, (m ≤ n)%nat → attempt m = Busy) ∧ start + timeout < clock n + RETRY_INTERVAL
  | Err Db => ∃ n, attempt n = DbFailed ∧ ∀ m, (m < n)%nat → attempt m = Busy
  end.
Proof. apply poll_spec; try done; lia. Qed.

(** Mutual exclusion: in every reachable state of any number of tasks, with
    any requests, timeouts and releases interleaved, no two guards in the system
    hold the same advisory key; in particular no entity is locked twice. *)
Theorem locks_exclusive (allowed : list LockKey → Prop) (cs : list task) :
  lock_reachable allowed cs → NoDup (pg_key <$> all_guards cs).
Proof.
  intros [n Hn]. assert (NoDup (pg_key <$> all_guards (replicate n idle))) as H0.
  { replace (all_guards _) with (@nil LockKey); [constructor|].
    clear. induction n as [|n IH]; [done|exact IH]. }
  revert H0. induction Hn; eauto using exclusion_step.
Qed.

(** C20. Sorted acquisition never deadlocks: when the keys in play do not
    collide and no request names a key twice, then in every reachable state with
    unfinished tasks some task can take its next lock or release one without
    waiting for a timeout; every run of such steps ends, after a fixed number of
    steps, with all tasks finished. *)
Theorem locks_never_deadlock (U : LockKey → Prop) (cs : list task)
  (Hcollision : ∀ j k, U j → U k → pg_key j = pg_key k → j = k)
  (Hreach : lock_reachable (well_formed U) cs) :
  (¬ all_idle cs → ∃ cs', progress cs cs')
  ∧ (∀ n cs', nsteps progress n cs cs' → total_work cs = (n + total_work cs')%nat)
  ∧ ∃ cs', rtc progress cs cs' ∧ all_idle cs'.
Proof.
  apply reachable_ok in Hreach as Hok. split_and!.
  - by apply can_progress with U.
  - intros n cs'. apply progress_total.
  - by apply finish with U.
Qed.

(** Distinct lock keys have distinct canonical strings, so no two lock
    sites can mint overlapping keys, as long as distinct UUIDs print
    differently. *)
Theorem canonical_injective (j k : LockKey)
  (Huuid : ∀ a b, uuid_str a = uuid_str b → a = b) :
  canonical j = canonical k → j = k.
Proof.
  destruct j as [| | | | | |p i|], k as [| | | | | |p' i'|]; simpl; intros E; try discriminate E.
  all: try (f_equal; apply Huuid; by repeat (injection E as E)).
  destruct p, p'; simpl in E; try discriminate E; f_equal; apply Huuid; by repeat (injection E as E).
Qed.

(** A request that names a key twice can never be granted: the second
    guard would need its own connection, on which the first one excludes it.
    Whatever the other tasks do, the task stays short of that lock until it
    gives up. *)
Theorem duplicate_key_never_granted (cs : list task) (i : nat) (k : LockKey)
    (rest gs : list LockKey) :
  cs !! i = Some {| todo := k :: rest; guards := gs |} → k ∈ gs →
  acquire cs i = None
  ∧ ∀ allowed cs', lock_step allowed cs cs' →
      cs' !! i = Some {| todo := k :: rest; guards := gs |}
      ∨ cs' !! i = Some {| todo := []; guards := gs |}.
Proof.
  intros Hi Hk. assert (held cs k = true) as Hh by (apply held_true; by eauto 10).
  split; [unfold acquire; by rewrite Hi, Hh|].
  intros allowed cs' Hstep. destruct Hstep as [? ? j|? ? j|? ? j|? ? j]; invert_lock_step;
    (destruct (decide (j = i)) as [->|]; [|left; by rewrite list_lookup_insert_ne]);
    simplify_eq; try congruence.
  right. rewrite list_lookup_insert_eq; [done|]. by eapply lookup_lt_Some.
Qed.
End Locks.

(** ** Two tasks *)
Module TwoTasks.

Definition str (u : Uuid) : string := pretty u.
(** A derivation without collisions on the two keys. *)
Definition derive (s : string) : Z := if String.eqb s (canonical str (LK_Host 65)) then 0 else 1.
Definition a : LockKey := LK_Host 65.
Definition b : LockKey := LK_Host 66.
Definition in_play (k : LockKey) : Prop := k = a ∨ k = b.

Lemma derive_collision_free j k :
  in_play j → in_play k → pg_key str derive j = pg_key str derive k → j = k.
Proof. by intros [->| ->] [->| ->]. Qed.

(** Both tasks ask for both hosts, in opposite orders; the first holds [a]. *)
Definition contended : list task :=
  [{| todo := [b]; guards := [a] |}; {| todo := [a; b]; guards := [] |}].

Lemma contended_reachable : lock_reachable str derive (well_formed in_play) contended.
Proof.
  exists 2%nat. eapply rtc_l; [|eapply rtc_l; [|eapply rtc_l; [|apply rtc_refl]]].
  - apply (step_request str derive _ _ [{| todo := [a; b]; guards := [] |}; idle] 0 [a; b]); [|done].
    split; [by apply (bool_decide_unpack _)|by repeat constructor; unfold in_play; auto].
  - apply (step_request str derive _ _ [{| todo := [a; b]; guards := [] |};
      {| todo := [a; b]; guards := [] |}] 1 [b; a]); [|done].
    split; [by apply (bool_decide_unpack _)|by repeat constructor; unfold in_play; auto].
  - by apply (step_acquire str derive _ _ _ 0).
Qed.

Lemma locks_never_deadlock_witness : ∃ cs', rtc (progress str derive) contended cs' ∧ all_idle cs'.
Proof.
  exact (proj2 (proj2 (locks_never_deadlock str derive in_play contended
    derive_collision_free contended_reachable))).
Defined.

Lemma locks_exclusive_witness : NoDup (pg_key str derive <$> all_guards contended).
Proof. exact (locks_exclusive str derive _ contended contended_reachable). Defined.

(** Without the sorting the opposite orders block each other. *)
Example unsorted_deadlock :
  let cs := [{| todo := [b]; guards := [a] |}; {| todo := [a]; guards := [b] |}] in
  acquire str derive cs 0 = None ∧ acquire str derive cs 1 = None
  ∧ release cs 0 = None ∧ release cs 1 = None.
Proof. by vm_compute. Qed.

Lemma session_lock_returns_witness :
  ∃ r, session_lock (λ n, if decide (n < 3)%nat then Busy else Acquired)
         (λ n, Z.of_nat n * 50) 0 a 10000 = Some r ∧ r = Ok 3%nat.
Proof.
  destruct (session_lock_returns (λ n, if decide (n < 3)%nat then Busy else Acquired)
    (λ n, Z.of_nat n * 50) 0 a 10000) as (r & Hr & _);
    [lia|intros m; unfold RETRY_INTERVAL; lia|lia|].
  exists r. split; [exact Hr|]. vm_compute in Hr. by injection Hr as <-.
Defined.

Lemma canonical_injective_witness :
  canonical str (LK_JunctionSync E_User 7) ≠ canonical str (LK_JunctionSync E_UserApiKey 7).
Proof.
  intros E. assert (∀ x y, str x = str y → x = y) as Hinj by (intros x y; apply (inj pretty)).
  discriminate (canonical_injective str _ _ Hinj E).
Defined.

Lemma duplicate_key_never_granted_witness :
  acquire str derive [{| todo := [a]; guards := [a] |}] 0 = None.
Proof.
  apply (duplicate_key_never_granted str derive [{| todo := [a]; guards := [a] |}] 0 a [] [a]);
    [reflexivity|left].
Defined.
End TwoTasks.
