(* ===== verification/Position.v ===== *)
(** Positions of ordered children: [server/shared/position.rs].

    IP addresses and services of a host are ordered by an [i32] position.  The
    two traits become type classes whose laws are what the functions rely on;
    the functions are generic in them.  The text of an error is represented by
    the values interpolated into it. *)

From S2P Require Import Prelude.
Local Open Scope Z_scope.

Class Positioned (T : Type) : Type := {
  position : T → Z;
  set_position : Z → T → T;
  pos_id : T → Uuid;
  entity_name : string;
  position_set : ∀ z x, position (set_position z x) = z;
  pos_id_set : ∀ z x, pos_id (set_position z x) = pos_id x;
  set_position_same : ∀ x, set_position (position x) x = x
}.

Class PositionedInput (T : Type) : Type := {
  input_position : T → option Z;
  set_input_position : Z → T → T;
  input_id : T → Uuid;
  input_position_set : ∀ z x, input_position (set_input_position z x) = Some z;
  input_id_set : ∀ z x, input_id (set_input_position z x) = input_id x
}.

Inductive PositionError :=
| DuplicatePosition (name : string) (pos : Z)
| NotSequential (name : string) (expected actual last : Z)
| MixedPositions (name : string) (specified omitted : Z)
| NoEntities (name : string)
| PositionOutOfRange (name : string) (pos max_position : Z)
| PositionConflict (name : string) (pos : Z).

(** The first window of two equal neighbours. *)
Fixpoint first_duplicate (l : list Z) : option Z :=
  match l with
  | x :: ((y :: _) as l') => if x =? y then Some x else first_duplicate l'
  | _ => None
  end.

(** The first index whose value is not the index. *)
Fixpoint first_gap (i : nat) (l : list Z) : option (Z * Z) :=
  match l with
  | [] => None
  | x :: l' => if x =? as_i32 (Z.of_nat i) then first_gap (S i) l' else Some (Z.of_nat i, x)
  end.

Definition validate_sequential_positions (positions : list Z) (name : string)
    : result unit PositionError :=
  match positions with
  | [] => Ok tt
  | _ =>
      let sorted := sort_by Z.leb positions in
      match first_duplicate sorted with
      | Some p => Err (DuplicatePosition name p)
      | None =>
          match first_gap 0 sorted with
          | Some (e, a) => Err (NotSequential name e a (Z.of_nat (length positions) - 1))
          | None => Ok tt
          end
      end
  end.

Section Inputs.
Context {T : Type} `{PositionedInput T}.

Definition validate_input_positions (inputs : list T) (name : string) : result unit PositionError :=
  validate_sequential_positions (omap input_position inputs) name.

(** The loop that places inputs whose positions are omitted. *)
Fixpoint place_inputs (existing_by_id : gmap Uuid Z) (next_pos : Z) (inputs : list T) : list T :=
  match inputs with
  | [] => []
  | x :: rest =>
      match existing_by_id !! input_id x with
      | Some pos => set_input_position pos x :: place_inputs existing_by_id next_pos rest
      | None => set_input_position next_pos x :: place_inputs existing_by_id (as_i32 (next_pos + 1)) rest
      end
  end.

Definition specified_count (inputs : list T) : nat :=
  length (List.filter (λ i, bool_decide (is_Some (input_position i))) inputs).

(** The outcome and the inputs as the function leaves them. *)
Definition resolve_and_validate_input_positions {E} `{Positioned E} (inputs : list T)
    (existing : list E) (name : string) : result unit PositionError * list T :=
  match inputs with
  | [] => (Ok tt, inputs)
  | _ =>
      let n := specified_count inputs in
      if (0 <? n)%nat && (n <? length inputs)%nat then
        (Err (MixedPositions name (Z.of_nat n) (Z.of_nat (length inputs) - Z.of_nat n)), inputs)
      else if (n =? length inputs)%nat then
        (validate_sequential_positions (omap input_position inputs) name, inputs)
      else
        let existing_by_id : gmap Uuid Z :=
          list_to_map (reverse ((λ e, (pos_id e, position e)) <$> existing)) in
        (Ok tt, place_inputs existing_by_id (as_i32 (Z.of_nat (length existing))) inputs)
  end.
End Inputs.

Section Entities.
Context {T : Type} `{Positioned T}.

Definition validate_entity_positions (entities : list T) : result unit PositionError :=
  validate_sequential_positions (position <$> entities) (entity_name (T := T)).

Definition validate_position_range (new_position : Z) (count : nat) (name : string)
    : result unit PositionError :=
  if (count =? 0)%nat then Err (NoEntities name)
  else
    let max_position := as_i32 (Z.of_nat count) - 1 in
    if (new_position <? 0) || (max_position <? new_position)
    then Err (PositionOutOfRange name new_position max_position) else Ok tt.

Definition validate_no_position_conflict (new_position : Z) (exclude_id : option Uuid)
    (existing : list T) : result unit PositionError :=
  if existsb (λ e, (position e =? new_position) && bool_decide (Some (pos_id e) ≠ exclude_id)) existing
  then Err (PositionConflict (entity_name (T := T)) new_position) else Ok tt.

Definition position_leb (a b : T) : bool := position a <=? position b.

(** The assignment loop of [renumber_positions]. *)
Fixpoint renumber_from (i : nat) (l : list T) : bool * list T :=
  match l with
  | [] => (false, [])
  | x :: l' =>
      let expected := as_i32 (Z.of_nat i) in
      let '(changed, l'') := renumber_from (S i) l' in
      if position x =? expected then (changed, x :: l'')
      else (true, set_position expected x :: l'')
  end.

Definition renumber_positions (entities : list T) : bool * list T :=
  match entities with
  | [] => (false, [])
  | _ => renumber_from 0 (sort_by position_leb entities)
  end.

Definition next_position (existing : list T) : Z := as_i32 (Z.of_nat (length existing)).

Definition shift_down (from to : Z) (x : T) : T :=
  let pos := position x in
  if pos =? from then set_position to x
  else if (from <? pos) && (pos <=? to) then set_position (pos - 1) x else x.

Definition shift_up (from to : Z) (x : T) : T :=
  let pos := position x in
  if pos =? from then set_position to x
  else if (to <=? pos) && (pos <? from) then set_position (pos + 1) x else x.

Definition reorder_positions (entities : list T) (from to : Z) : bool * list T :=
  if from =? to then (false, entities)
  else
    let count := as_i32 (Z.of_nat (length entities)) in
    if (from <? 0) || (count <=? from) || (to <? 0) || (count <=? to) then (false, entities)
    else
      let sorted := sort_by position_leb entities in
      (true, (if from <? to then shift_down from to else shift_up from to) <$> sorted).
End Entities.

(** ** Sequences *)

Lemma zleb_sorted l : StronglySorted (λ a b, (a <=? b) = true) (sort_by Z.leb l).
Proof. apply sort_by_sorted; intros; rewrite ?Z.leb_le in *; lia. Qed.

Lemma seqZ_sorted m n : StronglySorted (λ a b, (a <=? b) = true) (seqZ m n).
Proof.
  destruct (decide (0 ≤ n)) as [Hn|Hn]; [|rewrite seqZ_nil by lia; constructor].
  revert m. pattern n. apply natlike_ind; [|clear n Hn; intros n Hn IH m|done].
  - intros m. rewrite seqZ_nil by lia. constructor.
  - rewrite seqZ_cons by lia. constructor; [by replace (Z.pred (Z.succ n)) with n by lia|].
    apply List.Forall_forall. intros x Hx%list_elem_of_In. apply elem_of_seqZ in Hx.
    apply Z.leb_le. lia.
Qed.

Lemma sort_seqZ l m n : l ≡ₚ seqZ m n → sort_by Z.leb l = seqZ m n.
Proof.
  intros Hp. eapply (StronglySorted_unique_strong (λ a b, (a <=? b) = true)).
  - intros x y _ _. rewrite !Z.leb_le. lia.
  - apply zleb_sorted.
  - apply seqZ_sorted.
  - by rewrite sort_by_perm.
Qed.

Lemma first_duplicate_None l :
  StronglySorted (λ a b, (a <=? b) = true) l → first_duplicate l = None ↔ NoDup l.
Proof.
  induction 1 as [|x l Hs IH Hall]; [split; [constructor|done]|].
  destruct l as [|y l]; [split; [intros _; apply NoDup_singleton|done]|].
  change (first_duplicate (x :: y :: l))
    with (if x =? y then Some x else first_duplicate (y :: l)).
  rewrite list.NoDup_cons. destruct (Z.eqb_spec x y) as [->|Hne].
  { split; [done|]. intros [Hn _]. exfalso. apply Hn. left. }
  rewrite IH. split; [|tauto]. intros Hnd. split; [|done]. intros Hin.
  inv Hs. inv Hall. rewrite Z.leb_le in *. apply elem_of_cons in Hin as [->|Hin]; [done|].
  rewrite List.Forall_forall in H2. apply list_elem_of_In, H2, Z.leb_le in Hin. lia.
Qed.

Lemma first_gap_None i l :
  (Z.of_nat (i + length l) ≤ 2 ^ 31) →
  first_gap i l = None ↔ l = seqZ (Z.of_nat i) (Z.of_nat (length l)).
Proof.
  revert i. induction l as [|x l IH]; intros i Hlen; [by rewrite seqZ_nil by (simpl; lia)|].
  cbn [first_gap length] in *. rewrite as_i32_nat_id by lia.
  rewrite seqZ_cons by lia. replace (Z.pred (Z.of_nat (S (length l)))) with (Z.of_nat (length l)) by lia.
  replace (Z.succ (Z.of_nat i)) with (Z.of_nat (S i)) by lia.
  destruct (Z.eqb_spec x (Z.of_nat i)) as [->|Hne].
  - rewrite IH by lia. split; [by intros <-|]. congruence.
  - split; [done|]. congruence.
Qed.

Lemma validate_sequential_full (l : list Z) name :
  Z.of_nat (length l) ≤ 2 ^ 31 →
  (validate_sequential_positions l name = Ok tt ↔ l ≡ₚ seqZ 0 (Z.of_nat (length l)))
  ∧ ((∃ p, validate_sequential_positions l name = Err (DuplicatePosition name p)) ↔ ¬ NoDup l).
Proof.
  intros Hlen. unfold validate_sequential_positions. destruct l as [|x0 l0].
  { split; [by rewrite seqZ_nil by done|]. split; [by intros [? ?]|]. intros []. constructor. }
  set (l := x0 :: l0) in *. clearbody l.
  pose proof (first_duplicate_None _ (zleb_sorted l)) as Hdup.
  assert (NoDup (sort_by Z.leb l) ↔ NoDup l) as Hnd by (by rewrite (sort_by_perm Z.leb l)).
  rewrite Hnd in Hdup.
  pose proof (first_gap_None 0 (sort_by Z.leb l)) as Hgap. rewrite (length_sort_by Z.leb) in Hgap.
  destruct (first_duplicate _) as [p|].
  { assert (¬ NoDup l) as Hn by (intros Hn; by apply Hdup in Hn). split; [|by split; eauto].
    split; [done|]. intros Hp. exfalso. apply Hn. rewrite Hp. apply NoDup_seqZ. }
  assert (NoDup l) by (by apply Hdup). destruct (first_gap _ _) as [[e a]|].
  - split; [|split; [by intros [? ?]|done]]. split; [done|]. intros Hp%sort_seqZ.
    assert (Some (e, a) = None); [|done]. apply Hgap; [simpl; lia|done].
  - split; [|split; [by intros [? ?]|done]]. split; [|done]. intros _.
    assert (sort_by Z.leb l = seqZ 0 (Z.of_nat (length l))) as E by (apply Hgap; [simpl; lia|done]).
    by rewrite <- E, sort_by_perm.
Qed.

Lemma validate_sequential_correct (l : list Z) name :
  Z.of_nat (length l) ≤ 2 ^ 31 →
  validate_sequential_positions l name = Ok tt ↔ l ≡ₚ seqZ 0 (Z.of_nat (length l)).
Proof. apply validate_sequential_full. Qed.

(** [validate_sequential_positions] accepts exactly the permutations of
    0, 1, ..., n-1, and blames a duplicate exactly when there is one. *)
Theorem validate_sequential_iff (l : list Z) name (Hlen : Z.of_nat (length l) ≤ 2 ^ 31) :
  (validate_sequential_positions l name = Ok tt ↔ l ≡ₚ seqZ 0 (Z.of_nat (length l)))
  ∧ ((∃ p, validate_sequential_positions l name = Err (DuplicatePosition name p)) ↔ ¬ NoDup l).
Proof. by apply validate_sequential_full. Qed.

Lemma validate_sequential_iff_witness :
  validate_sequential_positions [2; 0; 1] "ip_address" = Ok tt ∧ ¬ NoDup [1; 1].
Proof.
  split; [|by apply (validate_sequential_iff [1; 1] "service"%string);
    [simpl; lia|exists 1; vm_compute]].
  apply (validate_sequential_iff [2; 0; 1] "ip_address"%string); [simpl; lia|].
  vm_compute. etransitivity; [apply perm_swap|apply perm_skip, perm_swap].
Defined.

(** ** Renumbering *)
Section EntityFacts.
Context {T : Type} `{Positioned T}.

Lemma position_leb_total (x y : T) : position_leb x y = true ∨ position_leb y x = true.
Proof. unfold position_leb. rewrite !Z.leb_le. lia. Qed.

Lemma position_leb_trans (x y z : T) :
  position_leb x y = true → position_leb y z = true → position_leb x z = true.
Proof. unfold position_leb. rewrite !Z.leb_le. lia. Qed.

(** Sorting entities by position sorts their positions. *)
Lemma position_sort_by (l : list T) :
  position <$> sort_by position_leb l = sort_by Z.leb (position <$> l).
Proof.
  assert (∀ (x : T) k, position <$> insert_by position_leb x k
    = insert_by Z.leb (position x) (position <$> k)) as Hins.
  { intros x k. induction k as [|y k IH]; [done|]. cbn [insert_by fmap list_fmap].
    unfold position_leb at 1. destruct (position x <=? position y); [done|].
    cbn [fmap list_fmap]. by f_equal. }
  induction l as [|x l IH]; simpl; [done|]. by rewrite Hins, IH.
Qed.

Lemma renumber_from_spec i (l : list T) :
  Z.of_nat (i + length l) ≤ 2 ^ 31 →
  let r := renumber_from i l in
  position <$> r.2 = seqZ (Z.of_nat i) (Z.of_nat (length l))
  ∧ pos_id <$> r.2 = pos_id <$> l
  ∧ (r.1 = false ↔ position <$> l = seqZ (Z.of_nat i) (Z.of_nat (length l)))
  ∧ (r.1 = false → r.2 = l).
Proof.
  revert i. induction l as [|x l IH]; intros i Hlen; [by rewrite seqZ_nil by (simpl; lia)|].
  cbn [renumber_from length] in *. destruct (IH (S i)) as (H1 & H2 & H3 & H4); [lia|].
  rewrite as_i32_nat_id by lia. rewrite seqZ_cons by lia.
  replace (Z.pred (Z.of_nat (S (length l)))) with (Z.of_nat (length l)) by lia.
  replace (Z.succ (Z.of_nat i)) with (Z.of_nat (S i)) by lia.
  destruct (renumber_from (S i) l) as [changed l'']. cbn [fst snd] in *.
  destruct (Z.eqb_spec (position x) (Z.of_nat i)) as [E|E]; cbn [fst snd fmap list_fmap].
  - split_and!; [congruence|congruence| |].
    + rewrite H3, E. split; [congruence|]. by intros [=].
    + intros ->. by rewrite H4.
  - rewrite position_set, pos_id_set. split_and!; [congruence|congruence| |done].
    split; [done|]. by intros [=].
Qed.

(** Renumbering gives positions 0, 1, ..., n-1 to the entities in the order
    of their positions, keeps every entity, reports a change exactly when the
    positions were not sequential, and a second call changes nothing. *)
Theorem renumber_positions_spec (l : list T) (Hlen : Z.of_nat (length l) ≤ 2 ^ 31) :
  let r := renumber_positions l in
  position <$> r.2 = seqZ 0 (Z.of_nat (length l))
  ∧ pos_id <$> r.2 = pos_id <$> sort_by position_leb l
  ∧ (r.1 = false ↔ position <$> l ≡ₚ seqZ 0 (Z.of_nat (length l)))
  ∧ renumber_positions r.2 = (false, r.2).
Proof.
  destruct l as [|x0 l0]; [by rewrite seqZ_nil by (simpl; lia)|].
  set (l := x0 :: l0) in *.
  change (renumber_positions l) with (renumber_from 0 (sort_by position_leb l)). clearbody l.
  destruct (renumber_from_spec 0 (sort_by position_leb l)) as (H1 & H2 & H3 & _);
    [rewrite length_sort_by; simpl; lia|].
  rewrite length_sort_by in *. cbn zeta.
  set (r := renumber_from 0 (sort_by position_leb l)) in *. clearbody r. destruct r as [b l']. simpl in *.
  split_and!; [done|done| |].
  - rewrite H3, position_sort_by. split.
    + intros E. rewrite <- (sort_by_perm Z.leb (position <$> l)). by rewrite E.
    + apply sort_seqZ.
  - destruct l' as [|y l']; [done|]. unfold renumber_positions.
    assert (length (y :: l') = length l) as Hl.
    { apply (f_equal length) in H1. rewrite length_fmap, length_seqZ in H1. lia. }
    set (k := y :: l') in *. clearbody k.
    assert (sort_by position_leb k = k) as ->.
    { apply sort_by_id. revert H1. generalize (Z.of_nat (length l)). intros n Hk.
      pose proof (seqZ_sorted (Z.of_nat 0) n) as Hs. rewrite <- Hk in Hs.
      clear -Hs. induction k as [|x k IH]; [constructor|]. inversion Hs as [|? ? Hs1 Hs2]; subst.
      constructor; [by apply IH|]. by rewrite Forall_fmap in Hs2. }
    destruct (renumber_from_spec 0 k) as (_ & _ & H5 & H6); [simpl; lia|].
    rewrite Hl in H5. destruct (renumber_from 0 k) as [b2 k2]. simpl in *.
    assert (b2 = false) as -> by (by apply H5). by rewrite H6.
Qed.

(** ** Reordering *)

Lemma seqZ_sorted_by (M : list T) a b :
  position <$> M = seqZ a b → StronglySorted (λ x y, position_leb x y = true) M.
Proof.
  intros E. pose proof (seqZ_sorted a b) as Hs. rewrite <- E in Hs. clear E.
  induction M as [|x k IH]; [constructor|]. inversion Hs as [|? ? Hs1 Hs2]; subst.
  constructor; [by apply IH|]. by rewrite Forall_fmap in Hs2.
Qed.

Lemma position_injective (M : list T) a b x y :
  position <$> M = seqZ a b → x ∈ M → y ∈ M → position x = position y → x = y.
Proof.
  intros E (i & Hi)%list_elem_of_lookup (j & Hj)%list_elem_of_lookup Hxy.
  assert (NoDup (position <$> M)) as Hnd by (rewrite E; apply NoDup_seqZ).
  assert (i = j) as ->; [|congruence].
  eapply NoDup_lookup; [exact Hnd| |]; rewrite list_lookup_fmap.
  - by rewrite Hi.
  - by rewrite Hj, Hxy.
Qed.

(** Entities with positions 0, ..., n-1 have one sorted arrangement. *)
Lemma sort_by_position_unique (l M : list T) a b :
  l ≡ₚ M → position <$> M = seqZ a b → sort_by position_leb l = M.
Proof.
  intros Hp E. eapply (StronglySorted_unique_strong (λ x y, position_leb x y = true)).
  - intros x y Hx Hy. rewrite (sort_by_perm position_leb l), Hp in Hx.
    unfold position_leb. rewrite !Z.leb_le. intros ? ?. eapply position_injective; eauto. lia.
  - apply sort_by_sorted; [apply position_leb_total|apply position_leb_trans].
  - by eapply seqZ_sorted_by.
  - by rewrite sort_by_perm.
Qed.

Lemma positions_app (A B : list T) m n :
  position <$> (A ++ B) = seqZ m n →
  position <$> A = seqZ m (Z.of_nat (length A))
  ∧ position <$> B = seqZ (m + Z.of_nat (length A)) (Z.of_nat (length B)).
Proof.
  intros E. assert (seqZ m n = seqZ m (Z.of_nat (length A) + Z.of_nat (length B))) as En.
  { apply (f_equal length) in E as El. rewrite length_fmap, length_app, length_seqZ in El.
    destruct (decide (0 ≤ n)); [f_equal; lia|]. rewrite !seqZ_nil by lia. done. }
  rewrite En, seqZ_app, fmap_app in E by lia.
  apply app_inj_1 in E; [done|]. rewrite length_fmap, length_seqZ. lia.
Qed.

Lemma positions_shifted (g : T → T) (A : list T) m k d :
  position <$> A = seqZ m k → (∀ x, m ≤ position x < m + k → position (g x) = position x + d) →
  position <$> (g <$> A) = seqZ (m + d) k.
Proof.
  intros E Hg. transitivity (Z.add d <$> (position <$> A)).
  - rewrite <- !list_fmap_compose. apply list_fmap_ext. intros i x Hi. simpl.
    rewrite Hg; [lia|]. apply elem_of_seqZ. rewrite <- E. apply list_elem_of_fmap.
    exists x. split; [done|]. by eapply list_elem_of_lookup_2.
  - rewrite E, fmap_add_seqZ. f_equal. lia.
Qed.
End EntityFacts.

(** Reference: take the item at index [from] out and insert it at index [to]. *)
Definition move_item {A} (from to : nat) (l : list A) : list A :=
  match l !! from with
  | Some x => let r := delete from l in take to r ++ x :: drop to r
  | None => l
  end.

Lemma move_item_down {A} (a b c : list A) x :
  move_item (length a) (length a + length b) (a ++ x :: b ++ c) = a ++ b ++ x :: c.
Proof.
  unfold move_item. rewrite list_lookup_middle by done. rewrite delete_middle.
  rewrite app_assoc, take_app_length', drop_app_length' by (by rewrite length_app).
  by rewrite <- app_assoc.
Qed.

Lemma move_item_up {A} (a b c : list A) x :
  move_item (length a + length b) (length a) (a ++ b ++ x :: c) = a ++ x :: b ++ c.
Proof.
  unfold move_item. rewrite app_assoc, list_lookup_middle by (by rewrite length_app).
  rewrite <- length_app, delete_middle, <- app_assoc. by rewrite take_app_length, drop_app_length.
Qed.

(** A list cut before the items at indexes [i] and [i + k]. *)
Lemma cut_at {A} (l : list A) (i k : nat) :
  (i + k ≤ length l)%nat → ∃ a b c, l = a ++ b ++ c ∧ length a = i ∧ length b = k.
Proof.
  intros Hl. exists (take i l), (take k (drop i l)), (drop k (drop i l)).
  rewrite !take_drop. split_and!; [done| |]; rewrite ?length_take, ?length_drop; lia.
Qed.

Section Reorder.
Context {T : Type} `{Positioned T}.

Lemma pos_id_shift_down from to (l : list T) : pos_id <$> (shift_down from to <$> l) = pos_id <$> l.
Proof.
  rewrite <- list_fmap_compose. apply list_fmap_ext. intros i x _. simpl. unfold shift_down.
  repeat case_match; by rewrite ?pos_id_set.
Qed.

Lemma pos_id_shift_up from to (l : list T) : pos_id <$> (shift_up from to <$> l) = pos_id <$> l.
Proof.
  rewrite <- list_fmap_compose. apply list_fmap_ext. intros i x _. simpl. unfold shift_up.
  repeat case_match; by rewrite ?pos_id_set.
Qed.

Lemma position_shift_down from to (x : T) :
  position (shift_down from to x)
  = if position x =? from then to
    else if (from <? position x) && (position x <=? to) then position x - 1 else position x.
Proof. unfold shift_down. repeat case_match; by rewrite ?position_set. Qed.

Lemma position_shift_up from to (x : T) :
  position (shift_up from to x)
  = if position x =? from then to
    else if (to <=? position x) && (position x <? from) then position x + 1 else position x.
Proof. unfold shift_up. repeat case_match; by rewrite ?position_set. Qed.

Ltac decide_positions :=
  rewrite ?position_shift_down, ?position_shift_up; subst;
  repeat match goal with
  | |- context [?a =? ?b] => destruct (Z.eqb_spec a b)
  | |- context [?a <? ?b] => destruct (Z.ltb_spec a b)
  | |- context [?a <=? ?b] => destruct (Z.leb_spec a b)
  end; simpl; lia.

(** Positions of four consecutive segments. *)
Lemma positions_segments (a b c : list T) x m1 m2 m3 m4 :
  position <$> a = seqZ m1 (Z.of_nat (length a)) → position <$> b = seqZ m2 (Z.of_nat (length b)) →
  position x = m3 → position <$> c = seqZ m4 (Z.of_nat (length c)) →
  m2 = m1 + Z.of_nat (length a) → m3 = m2 + Z.of_nat (length b) → m4 = m3 + 1 →
  position <$> (a ++ b ++ x :: c)
  = seqZ m1 (Z.of_nat (length a) + (Z.of_nat (length b) + (1 + Z.of_nat (length c)))).
Proof.
  intros Ea Eb Ex Ec -> -> ->. rewrite !fmap_app, fmap_cons, Ea, Eb, Ec.
  rewrite seqZ_app by lia. f_equal. rewrite seqZ_app by lia. f_equal.
  rewrite (seqZ_cons _ (1 + _)) by lia. f_equal; [lia|]. f_equal; lia.
Qed.

Lemma shift_down_positions (a b c : list T) x n :
  position <$> (a ++ x :: b ++ c) = seqZ 0 n →
  let f := Z.of_nat (length a) in let t := f + Z.of_nat (length b) in
  position <$> (shift_down f t <$> (a ++ b ++ x :: c))
  = seqZ 0 (Z.of_nat (length (a ++ x :: b ++ c))).
Proof.
  intros E f t. apply positions_app in E as [Ea E]. change (x :: b ++ c) with ([x] ++ b ++ c) in E.
  apply positions_app in E as [Ex E]. apply positions_app in E as [Eb Ec]. simpl in Ex.
  injection Ex as Ex. rewrite Z.add_0_l in *. cbn [length] in *.
  replace (Z.of_nat (length (a ++ x :: b ++ c))) with
    (Z.of_nat (length (shift_down f t <$> a)) + (Z.of_nat (length (shift_down f t <$> b))
      + (1 + Z.of_nat (length (shift_down f t <$> c)))))
    by (rewrite !length_fmap, !length_app; cbn [length]; rewrite length_app; lia).
  rewrite !(fmap_app (shift_down f t)), (fmap_cons (shift_down f t)).
  eapply positions_segments; rewrite ?length_fmap.
  - apply (positions_shifted _ a 0 _ 0 Ea). intros y Hy. decide_positions.
  - apply (positions_shifted _ b _ _ (-1) Eb). intros y Hy. decide_positions.
  - rewrite position_shift_down, Ex, Z.eqb_refl. reflexivity.
  - apply (positions_shifted _ c _ _ 0 Ec). intros y Hy. decide_positions.
  - lia.
  - lia.
  - lia.
Qed.

Lemma shift_up_positions (a b c : list T) x n :
  position <$> (a ++ b ++ x :: c) = seqZ 0 n →
  let t := Z.of_nat (length a) in let f := t + Z.of_nat (length b) in
  position <$> (shift_up f t <$> (a ++ x :: b ++ c))
  = seqZ 0 (Z.of_nat (length (a ++ b ++ x :: c))).
Proof.
  intros E t f. apply positions_app in E as [Ea E]. apply positions_app in E as [Eb E].
  change (x :: c) with ([x] ++ c) in E. apply positions_app in E as [Ex Ec]. simpl in Ex.
  injection Ex as Ex. rewrite Z.add_0_l in *. cbn [length] in *.
  change (a ++ x :: b ++ c) with (a ++ [] ++ x :: b ++ c).
  replace (Z.of_nat (length (a ++ b ++ x :: c))) with
    (Z.of_nat (length (shift_up f t <$> a)) + (Z.of_nat (length (shift_up f t <$> []))
      + (1 + Z.of_nat (length (shift_up f t <$> (b ++ c))))))
    by (rewrite !length_fmap, !length_app; cbn [length]; lia).
  rewrite (fmap_app (shift_up f t) a), (fmap_app (shift_up f t) []), (fmap_cons (shift_up f t)).
  eapply positions_segments; rewrite ?length_fmap, ?length_app.
  - apply (positions_shifted _ a 0 _ 0 Ea). intros y Hy. decide_positions.
  - rewrite seqZ_nil by (simpl; lia). done.
  - rewrite position_shift_up, Ex, Z.eqb_refl. reflexivity.
  - rewrite fmap_app, fmap_app, Nat2Z.inj_add, seqZ_app by lia. f_equal.
    + apply (positions_shifted _ b _ _ 1 Eb). intros y Hy. decide_positions.
    + erewrite (positions_shifted _ c _ _ 0 Ec); [f_equal; lia|]. intros y Hy. decide_positions.
  - reflexivity.
  - simpl. lia.
  - lia.
Qed.

(** Reordering entities whose positions are 0, ..., n-1 is taking the one at
    [from] out of the list and putting it back at [to]: the ids in position
    order are moved accordingly and the positions are 0, ..., n-1 again.  Equal
    or out-of-range positions change nothing and report it. *)
Theorem reorder_positions_spec (l : list T) (from to : nat)
    (Hlen : Z.of_nat (length l) < 2 ^ 31)
    (Hseq : position <$> l ≡ₚ seqZ 0 (Z.of_nat (length l))) :
  let r := reorder_positions l (Z.of_nat from) (Z.of_nat to) in
  ((from < length l)%nat → (to < length l)%nat → from ≠ to →
     r.1 = true ∧ position <$> r.2 ≡ₚ seqZ 0 (Z.of_nat (length l))
     ∧ pos_id <$> sort_by position_leb r.2
       = move_item from to (pos_id <$> sort_by position_leb l))
  ∧ (from = to ∨ (length l ≤ from)%nat ∨ (length l ≤ to)%nat → r = (false, l)).
Proof.
  cbn zeta. unfold reorder_positions. rewrite as_i32_nat_id by done. split.
  2:{ intros Hout. destruct (Z.eqb_spec (Z.of_nat from) (Z.of_nat to)); [done|].
      destruct (Z.leb_spec (Z.of_nat (length l)) (Z.of_nat from));
        [by rewrite !orb_true_r|]. destruct (Z.leb_spec (Z.of_nat (length l)) (Z.of_nat to));
        [by rewrite !orb_true_r|]. lia. }
  intros Hf Ht Hne. rewrite (proj2 (Z.eqb_neq _ _)) by lia.
  rewrite (proj2 (Z.ltb_ge (Z.of_nat from) 0)), (proj2 (Z.ltb_ge (Z.of_nat to) 0)),
    (proj2 (Z.leb_gt _ (Z.of_nat from))), (proj2 (Z.leb_gt _ (Z.of_nat to))) by lia.
  cbn [orb fst snd].
  assert (position <$> sort_by position_leb l = seqZ 0 (Z.of_nat (length l))) as HL
    by (rewrite position_sort_by; by apply sort_seqZ).
  rewrite <- (length_sort_by position_leb l) in Hf, Ht, HL |- *.
  set (L := sort_by position_leb l) in *. clearbody L. split; [done|].
  destruct (Z.ltb_spec (Z.of_nat from) (Z.of_nat to)).
  - destruct (cut_at L from (to - from + 1)) as (a & b & c & -> & <- & Hb); [lia|].
    destruct b as [|x b]; [simpl in Hb; lia|]. simpl in Hb. replace to with (length a + length b)%nat by lia.
    cbn [app] in *. pose proof (shift_down_positions a b c x _ HL) as E. cbn zeta in E.
    rewrite <- Nat2Z.inj_add in E.
    assert (a ++ x :: b ++ c ≡ₚ a ++ b ++ x :: c) as Hp by (by rewrite (Permutation_middle b c x)).
    split; [by rewrite <- E, Hp|].
    erewrite sort_by_position_unique; [|by rewrite Hp|exact E].
    rewrite pos_id_shift_down, !fmap_app, !fmap_cons, !fmap_app.
    rewrite <- (length_fmap pos_id a), <- (length_fmap pos_id b). by rewrite move_item_down.
  - destruct (cut_at L to (from - to)) as (a & b & c & -> & <- & Hb); [lia|].
    rewrite !length_app in Hf. destruct c as [|x c]; [simpl in Hf; lia|].
    replace from with (length a + length b)%nat by lia.
    pose proof (shift_up_positions a b c x _ HL) as E. cbn zeta in E.
    rewrite <- Nat2Z.inj_add in E.
    assert (a ++ x :: b ++ c ≡ₚ a ++ b ++ x :: c) as Hp by (by rewrite (Permutation_middle b c x)).
    split; [by rewrite <- E, Hp|].
    erewrite sort_by_position_unique; [|by rewrite <- Hp|exact E].
    rewrite pos_id_shift_up, !fmap_app, !fmap_cons, !fmap_app.
    rewrite <- (length_fmap pos_id a), <- (length_fmap pos_id b). by rewrite move_item_up.
Qed.
End Reorder.

(** ** Resolving the positions of a request *)
Section Resolve.
Context {T : Type} `{PositionedInput T}.

Lemma place_inputs_ids m n (l : list T) : input_id <$> place_inputs m n l = input_id <$> l.
Proof.
  revert n. induction l as [|x l IH]; intros n; [done|]. cbn [place_inputs].
  destruct (m !! input_id x); cbn [fmap list_fmap]; rewrite input_id_set; f_equal; apply IH.
Qed.

Lemma place_inputs_existing m n (l : list T) x p :
  x ∈ place_inputs m n l → m !! input_id x = Some p → input_position x = Some p.
Proof.
  revert n. induction l as [|y l IH]; intros n; [by intros ?%not_elem_of_nil|]. cbn [place_inputs].
  destruct (m !! input_id y) as [q|] eqn:E; intros [->|Hin]%elem_of_cons Hx; eauto.
  - rewrite input_id_set in Hx. rewrite input_position_set. congruence.
  - rewrite input_id_set in Hx. congruence.
Qed.

(** The positions given: those of the known ids, and a run for the new ones. *)
Lemma place_inputs_positions m n (l : list T) :
  let fresh_ids := length (filter (λ k, m !! k = None) (input_id <$> l)) in
  0 ≤ n → n + Z.of_nat fresh_ids < 2 ^ 31 →
  omap input_position (place_inputs m n l)
  ≡ₚ omap (λ k, m !! k) (input_id <$> l) ++ seqZ n (Z.of_nat fresh_ids).
Proof.
  revert n. induction l as [|x l IH]; intros n; cbn [place_inputs fmap list_fmap].
  { cbn zeta. intros Hn Hb. simpl. by rewrite seqZ_nil by lia. }
  destruct (m !! input_id x) as [p|] eqn:E; cbn zeta.
  - rewrite filter_cons_False by congruence. intros Hn Hb. cbn [omap list_omap].
    rewrite input_position_set, E. cbn [app]. apply perm_skip. by apply IH.
  - rewrite filter_cons_True by done. cbn [length]. intros Hn Hb. cbn [omap list_omap].
    rewrite input_position_set, E, (as_i32_id (n + 1)) by (unfold is_i32; lia).
    rewrite seqZ_cons by lia. rewrite <- Permutation_middle. apply perm_skip.
    replace (Z.pred _) with (Z.of_nat (length (filter (λ k, m !! k = None) (input_id <$> l))))
      by lia.
    apply IH; lia.
Qed.

Lemma unknown_ids (m : gmap Uuid Z) ks :
  (∀ k, k ∈ ks → m !! k = None) →
  omap (λ k, m !! k) ks = [] ∧ filter (λ k, m !! k = None) ks = ks.
Proof.
  induction ks as [|k ks IH]; intros Hk; [done|].
  destruct IH as [IH1 IH2]; [intros j Hj; apply Hk; by right|].
  rewrite filter_cons_True by (apply Hk; left). rewrite IH2. split; [|done].
  cbn [omap list_omap]. by rewrite Hk by left.
Qed.

Context {E : Type} `{Positioned E}.

Lemma existing_lookup (existing : list E) :
  NoDup (pos_id <$> existing) →
  let m : gmap Uuid Z := list_to_map (reverse ((λ e, (pos_id e, position e)) <$> existing)) in
  (∀ e, e ∈ existing → m !! pos_id e = Some (position e))
  ∧ (∀ k, k ∉ pos_id <$> existing → m !! k = None).
Proof.
  intros Hnd m.
  assert ((reverse ((λ e, (pos_id e, position e)) <$> existing)).*1
    ≡ₚ pos_id <$> existing) as Hk by (by rewrite reverse_Permutation, <- list_fmap_compose).
  split.
  - intros e He. apply elem_of_list_to_map_1; [by rewrite Hk|]. rewrite reverse_Permutation.
    apply list_elem_of_fmap. eauto.
  - intros k Hn. apply not_elem_of_list_to_map_1. by rewrite Hk.
Qed.

Lemma known_ids (m : gmap Uuid Z) (l : list E) :
  (∀ e, e ∈ l → m !! pos_id e = Some (position e)) →
  omap (λ k, m !! k) (pos_id <$> l) = position <$> l
  ∧ filter (λ k, m !! k = None) (pos_id <$> l) = [].
Proof.
  induction l as [|e l IH]; intros Hl; [done|].
  destruct IH as [IH1 IH2]; [intros j Hj; apply Hl; by right|].
  cbn [fmap list_fmap]. rewrite filter_cons_False by (rewrite Hl by left; done).
  split; [|done]. cbn [omap list_omap]. rewrite Hl by left. by f_equal.
Qed.

(** A request that omits all positions and names every existing child keeps
    the positions of those children, appends the new ones in order, and so
    ends with positions 0, ..., n-1 again. *)
Theorem resolve_omitted_positions (inputs : list T) (existing : list E) name
    (Hlen : Z.of_nat (length inputs) < 2 ^ 31)
    (Hnone : ∀ i, i ∈ inputs → input_position i = None)
    (Hids : NoDup (input_id <$> inputs)) (Hex : NoDup (pos_id <$> existing))
    (Hsub : ∀ k, k ∈ pos_id <$> existing → k ∈ input_id <$> inputs)
    (Hseq : position <$> existing ≡ₚ seqZ 0 (Z.of_nat (length existing))) :
  let r := resolve_and_validate_input_positions inputs existing name in
  r.1 = Ok tt
  ∧ input_id <$> r.2 = input_id <$> inputs
  ∧ (∀ e x, e ∈ existing → x ∈ r.2 → input_id x = pos_id e → input_position x = Some (position e))
  ∧ omap input_position r.2 ≡ₚ seqZ 0 (Z.of_nat (length inputs)).
Proof.
  destruct (existing_lookup existing Hex) as [Hold Hnew]. cbn zeta.
  apply (NoDup_submseteq _ _ Hex) in Hsub as (rest & Hrest)%submseteq_Permutation.
  assert (length inputs = length existing + length rest)%nat as Hn.
  { rewrite <- (length_fmap input_id inputs), Hrest, length_app. by rewrite length_fmap. }
  unfold resolve_and_validate_input_positions. destruct inputs as [|i0 l0].
  { simpl in Hn. simpl. split_and!; [done|done|set_solver|by rewrite seqZ_nil by lia]. }
  set (inputs := i0 :: l0) in *.
  assert (specified_count inputs = 0%nat) as ->.
  { unfold specified_count. clearbody inputs. clear -Hnone. induction inputs as [|x l IH]; [done|].
    simpl. rewrite Hnone by left. rewrite bool_decide_eq_false_2 by (by intros [? ?]).
    apply IH. intros i Hi. apply Hnone. by right. }
  assert ((0 =? length inputs)%nat = false) as -> by done.
  clearbody inputs. cbn [Nat.ltb Nat.leb andb fst snd].
  set (m := list_to_map _) in *. rewrite as_i32_nat_id by lia.
  split; [done|]. split; [apply place_inputs_ids|]. split.
  { intros e x He Hx Hid. eapply place_inputs_existing; [exact Hx|]. rewrite Hid. by apply Hold. }
  assert (∀ k, k ∈ rest → m !! k = None) as Hrest0.
  { intros k Hk. apply Hnew. intros Hin. rewrite Hrest in Hids.
    apply list.NoDup_app in Hids as (_ & Hd & _). by apply (Hd k). }
  destruct (known_ids m existing Hold) as [Hk1 Hk2].
  destruct (unknown_ids m rest Hrest0) as [Hu1 Hu2].
  assert (length (filter (λ k, m !! k = None) (input_id <$> inputs)) = length rest) as Hfresh
    by (by rewrite Hrest, list.filter_app, Hk2, Hu2).
  rewrite place_inputs_positions by (rewrite ?Hfresh; lia). rewrite Hfresh, Hn, Nat2Z.inj_add.
  rewrite seqZ_app by lia. rewrite Z.add_0_l. apply Permutation_app; [|done].
  rewrite <- Hseq, Hrest, omap_app, Hk1, Hu1. by rewrite app_nil_r.
Qed.

(** A request that gives every position is accepted exactly when they are
    0, ..., n-1 in some order and is never modified; one that gives some and
    omits others is refused, counting both. *)
Theorem resolve_given_positions (inputs : list T) (existing : list E) name
    (Hlen : Z.of_nat (length inputs) < 2 ^ 31) :
  let r := resolve_and_validate_input_positions inputs existing name in
  let n := specified_count inputs in
  (n = length inputs → r.2 = inputs
     ∧ (r.1 = Ok tt ↔ omap input_position inputs ≡ₚ seqZ 0 (Z.of_nat (length inputs))))
  ∧ ((0 < n < length inputs)%nat →
     r = (Err (MixedPositions name (Z.of_nat n) (Z.of_nat (length inputs - n))), inputs)).
Proof.
  cbn zeta. unfold resolve_and_validate_input_positions. split.
  - intros Hn. assert (length (omap input_position inputs) = length inputs) as Hl.
    { revert Hn. clear. unfold specified_count. induction inputs as [|x l IH]; [done|].
      cbn [List.filter omap list_omap]. case_bool_decide as Hs; cbn [length].
      - destruct Hs as [p ->]. cbn [length]. intros [= Hn]. by rewrite IH.
      - intros Hn. pose proof (List.filter_length_le
          (λ i : T, bool_decide (is_Some (input_position i))) l). lia. }
    destruct inputs as [|i0 l0]; [split; [done|]; by rewrite seqZ_nil by done|].
    set (inputs := i0 :: l0) in *. clearbody inputs. rewrite Hn, Nat.ltb_irrefl, andb_false_r.
    rewrite Nat.eqb_refl. split; [done|]. cbn [fst].
    rewrite <- Hl. apply validate_sequential_correct. lia.
  - destruct inputs as [|i0 l0]; [simpl; lia|]. intros [H1 H2].
    rewrite (proj2 (Nat.ltb_lt 0 _)), (proj2 (Nat.ltb_lt _ _)) by done. cbn [andb].
    by rewrite Nat2Z.inj_sub by lia.
Qed.
End Resolve.
