(* ===== verification/Entities.v ===== *)
(** Rows of the inventory: bindings, ports, IP addresses, subnets, services.

    [server/bindings/impl/base.rs], [server/ports/impl/base.rs],
    [server/ip_addresses/impl/base.rs], [server/subnets/impl/{base,types}.rs],
    [server/services/impl/{base,virtualization,patterns}.rs] and the request
    inputs of [server/hosts/impl/api.rs].  The columns every row has for its
    revision history are collected in [RowMeta]. *)

From S2P Require Import Prelude Net Ports Position.
Local Open Scope Z_scope.

Record RowMeta := {
  created_at : DateTime;
  updated_at : DateTime;
  valid_from : DateTime;
  valid_to : option DateTime;
  lineage_id : option Uuid;
  last_seen_at : DateTime;
  last_discovery_id : option Uuid;
  first_discovery_id : option Uuid
}.

(** What every [new(base)] sets. *)
Definition fresh_meta (now : DateTime) : RowMeta := {|
  created_at := now; updated_at := now; valid_from := now; valid_to := None;
  lineage_id := None; last_seen_at := now; last_discovery_id := None;
  first_discovery_id := None |}.

(** ** Match evidence *)

Inductive MatchConfidence := NotApplicable | Low | Medium | High | Certain.

#[export] Instance MatchConfidence_eq_dec : EqDecision MatchConfidence.
Proof. solve_decision. Defined.

Definition confidence_rank (c : MatchConfidence) : Z :=
  match c with NotApplicable => 0 | Low => 1 | Medium => 2 | High => 3 | Certain => 4 end.

Inductive ClientProbe := ProbeDocker | ProbePodman | ProbeSnmp | ProbeUnifiController | ProbeInstantOn.

(** A message, as its format string with the values put into it; the parts a
    message only has on some branches are those whose values are present. *)
Inductive Text :=
| Msg (format : string) (args : list Arg)
with Arg :=
| AStr (s : string)
| ANum (z : Z)
| APort (p : PortType)
| AIp (ip : IpAddr)
| ACidr (c : IpCidr)
| ARange (lo hi : Z)
| AProbe (p : ClientProbe)
| AId (u : Uuid)
| AText (t : Text).

Inductive MatchReason :=
| Reason (reason : Text)
| Container (name : string) (reasons : list MatchReason).

Record MatchDetails := { reason : MatchReason; confidence : MatchConfidence }.

Inductive EntitySource :=
| SourceManual
| SourceSystem
| SourceDiscovery
| SourceDiscoveryWithMatch (details : MatchDetails)
| SourceUnknown.

Definition is_from_discovery (s : EntitySource) : bool :=
  match s with SourceDiscovery | SourceDiscoveryWithMatch _ => true | _ => false end.

(** ** Bindings *)

Inductive BindingType :=
| BindIPAddress (ip_address_id : Uuid)
| BindPort (port_id : Uuid) (ip_address_id : option Uuid).

#[export] Instance BindingType_eq_dec : EqDecision BindingType.
Proof. solve_decision. Defined.

Record BindingBase := { b_service_id : Uuid; b_network_id : Uuid; binding_type : BindingType }.
Record Binding := { b_id : Uuid; b_meta : RowMeta; b_base : BindingBase }.

Definition binding_new (id : Uuid) (now : DateTime) (base : BindingBase) : Binding :=
  {| b_id := id; b_meta := fresh_meta now; b_base := base |}.

Definition new_serviceless (id : Uuid) (now : DateTime) (t : BindingType) : Binding :=
  binding_new id now {| b_service_id := uuid_nil; b_network_id := uuid_nil; binding_type := t |}.

Definition new_ip_address_serviceless (id : Uuid) (now : DateTime) (ip : Uuid) : Binding :=
  new_serviceless id now (BindIPAddress ip).
Definition new_port_serviceless (id : Uuid) (now : DateTime) (p : Uuid) (ip : option Uuid) : Binding :=
  new_serviceless id now (BindPort p ip).

Definition ip_address_id (b : Binding) : option Uuid :=
  match binding_type (b_base b) with BindIPAddress ip => Some ip | BindPort _ ip => ip end.

Definition port_id (b : Binding) : option Uuid :=
  match binding_type (b_base b) with BindIPAddress _ => None | BindPort p _ => Some p end.

(** [PartialEq] compares the binding type, [Hash] hashes the id. *)
Definition binding_eqb (a b : Binding) : bool :=
  bool_decide (binding_type (b_base a) = binding_type (b_base b)).
Definition binding_hash_input (b : Binding) : Uuid := b_id b.

Definition rebound_to_ip_address (id : Uuid) (now : DateTime) (ip : Uuid) (b : Binding) : Binding :=
  binding_new id now
    {| b_service_id := b_service_id (b_base b); b_network_id := b_network_id (b_base b);
       binding_type := match binding_type (b_base b) with
                       | BindIPAddress _ => BindIPAddress ip
                       | BindPort p _ => BindPort p (Some ip)
                       end |}.

Definition with_service (sid nid : Uuid) (b : Binding) : Binding :=
  {| b_id := b_id b; b_meta := b_meta b;
     b_base := {| b_service_id := sid; b_network_id := nid;
                  binding_type := binding_type (b_base b) |} |}.

(** ** Ports *)

Record PortBase := { p_host_id : Uuid; p_network_id : Uuid; port_type : PortType }.
Record Port := { p_id : Uuid; p_meta : RowMeta; p_base : PortBase }.

Definition new_hostless (id : Uuid) (now : DateTime) (t : PortType) : Port :=
  {| p_id := id; p_meta := fresh_meta now;
     p_base := {| p_host_id := uuid_nil; p_network_id := uuid_nil; port_type := t |} |}.

(** ** IP addresses and subnets *)

Abbreviation MacAddress := Z (only parsing).

Record IPAddressBase := {
  ip_network_id : Uuid;
  ip_host_id : Uuid;
  subnet_id : Uuid;
  ip_address : IpAddr;
  mac_address : option MacAddress;
  ip_name : option string;
  ip_position : Z
}.

Record IPAddress := { ip_id : Uuid; ip_meta : RowMeta; ip_base : IPAddressBase }.

Definition ip_address_eqb (a b : IPAddress) : bool :=
  (bool_decide (ip_address (ip_base a) = ip_address (ip_base b))
   && (subnet_id (ip_base a) =? subnet_id (ip_base b))%N)
  || ((ip_id a =? ip_id b)%N && negb (ip_id a =? uuid_nil)%N && negb (ip_id b =? uuid_nil)%N).

Definition ip_address_hash_input (a : IPAddress) : IpAddr * Uuid :=
  (ip_address (ip_base a), subnet_id (ip_base a)).

Definition set_ip_position (z : Z) (a : IPAddress) : IPAddress :=
  {| ip_id := ip_id a; ip_meta := ip_meta a;
     ip_base := {| ip_network_id := ip_network_id (ip_base a); ip_host_id := ip_host_id (ip_base a);
                   subnet_id := subnet_id (ip_base a); ip_address := ip_address (ip_base a);
                   mac_address := mac_address (ip_base a); ip_name := ip_name (ip_base a);
                   ip_position := z |} |}.

#[export] Program Instance IPAddress_positioned : Positioned IPAddress := {|
  position a := ip_position (ip_base a);
  set_position := set_ip_position;
  pos_id := ip_id;
  entity_name := "ip_address"%string
|}.
Next Obligation. done. Qed.
Next Obligation. done. Qed.
Next Obligation. by intros [? ? []]. Qed.

Record IPAddressInput := {
  ii_id : Uuid;
  ii_subnet_id : Uuid;
  ii_ip_address : IpAddr;
  ii_mac_address : option MacAddress;
  ii_name : option string;
  ii_position : option Z
}.

Definition set_ii_position (z : Z) (i : IPAddressInput) : IPAddressInput :=
  {| ii_id := ii_id i; ii_subnet_id := ii_subnet_id i; ii_ip_address := ii_ip_address i;
     ii_mac_address := ii_mac_address i; ii_name := ii_name i; ii_position := Some z |}.

Definition into_ip_address (now : DateTime) (host network : Uuid) (i : IPAddressInput) : IPAddress :=
  {| ip_id := ii_id i; ip_meta := fresh_meta now;
     ip_base := {| ip_network_id := network; ip_host_id := host; subnet_id := ii_subnet_id i;
                   ip_address := ii_ip_address i; mac_address := ii_mac_address i;
                   ip_name := ii_name i; ip_position := default 0 (ii_position i) |} |}.

#[export] Program Instance IPAddressInput_positioned : PositionedInput IPAddressInput := {|
  input_position := ii_position;
  set_input_position := set_ii_position;
  input_id := ii_id
|}.
Next Obligation. done. Qed.
Next Obligation. done. Qed.

Inductive SubnetType :=
| SInternet | SRemote | SGateway | SVpnTunnel | SDmz | SLan | SWiFi | SIoT | SGuest
| SDockerBridge | SPodmanBridge | SMacVlan | SIpVlan | SManagement | SStorage | SLoopback | SUnknown.

#[export] Instance SubnetType_eq_dec : EqDecision SubnetType.
Proof. solve_decision. Defined.

Record SubnetBase := {
  cidr : IpCidr;
  s_network_id : Uuid;
  s_name : string;
  s_description : option string;
  subnet_type : SubnetType;
  s_virtualization_service_id : option Uuid;
  s_source : EntitySource;
  s_tags : list Uuid
}.
Record Subnet := { s_id : Uuid; s_meta : RowMeta; s_base : SubnetBase }.

(** ** Services *)

Record ContainerInfo := {
  info_name : option string;
  info_id : option string;
  info_compose_project : option string
}.

Inductive ServiceVirtualization :=
| VirtDocker (d : ContainerInfo)
| VirtPodman (p : ContainerInfo).

Definition container_info (v : ServiceVirtualization) : ContainerInfo :=
  match v with VirtDocker d => d | VirtPodman p => p end.
Definition container_id (v : ServiceVirtualization) : option string := info_id (container_info v).
Definition container_name (v : ServiceVirtualization) : option string := info_name (container_info v).
Definition compose_project (v : ServiceVirtualization) : option string :=
  info_compose_project (container_info v).
Definition runtime_service_definition_id (v : ServiceVirtualization) : string :=
  match v with VirtDocker _ => "Docker" | VirtPodman _ => "Podman" end%string.

(** A service names its definition by the id it is stored and looked up with. *)
Record ServiceBase := {
  sv_host_id : Uuid;
  sv_network_id : Uuid;
  service_definition : string;
  sv_name : string;
  bindings : list Binding;
  virtualization_metadata : option ServiceVirtualization;
  virtualization_service_id : option Uuid;
  source : EntitySource;
  sv_tags : list Uuid;
  sv_position : Z
}.
Record Service := { sv_id : Uuid; sv_meta : RowMeta; sv_base : ServiceBase }.

Definition service_new (id : Uuid) (now : DateTime) (base : ServiceBase) : Service :=
  {| sv_id := id; sv_meta := fresh_meta now; sv_base := base |}.

Definition set_sv_position (z : Z) (s : Service) : Service :=
  let b := sv_base s in
  {| sv_id := sv_id s; sv_meta := sv_meta s;
     sv_base := {| sv_host_id := sv_host_id b; sv_network_id := sv_network_id b;
                   service_definition := service_definition b; sv_name := sv_name b;
                   bindings := bindings b; virtualization_metadata := virtualization_metadata b;
                   virtualization_service_id := virtualization_service_id b;
                   source := source b; sv_tags := sv_tags b; sv_position := z |} |}.

#[export] Program Instance Service_positioned : Positioned Service := {|
  position s := sv_position (sv_base s);
  set_position := set_sv_position;
  pos_id := sv_id;
  entity_name := "service"%string
|}.
Next Obligation. done. Qed.
Next Obligation. done. Qed.
Next Obligation. by intros [? ? []]. Qed.

(** ** Witnesses of the position theorems on host addresses *)

Definition demo_ip (id : Uuid) (pos : Z) : IPAddress :=
  {| ip_id := id; ip_meta := fresh_meta 0;
     ip_base := {| ip_network_id := 1; ip_host_id := 2; subnet_id := 3;
                   ip_address := V4 (Z.of_N id); mac_address := None; ip_name := None;
                   ip_position := pos |} |}.

Definition demo_input (id : Uuid) (pos : option Z) : IPAddressInput :=
  {| ii_id := id; ii_subnet_id := 3; ii_ip_address := V4 (Z.of_N id); ii_mac_address := None;
     ii_name := None; ii_position := pos |}.

Lemma renumber_positions_witness :
  position <$> (renumber_positions [demo_ip 7 4; demo_ip 8 2]).2 = seqZ 0 2.
Proof. apply (renumber_positions_spec [demo_ip 7 4; demo_ip 8 2]). simpl. lia. Defined.

Lemma reorder_positions_witness :
  pos_id <$> sort_by position_leb (reorder_positions [demo_ip 7 1; demo_ip 8 0; demo_ip 9 2] 0 2).2
  = move_item 0 2 [8; 7; 9]%N.
Proof.
  exact (proj2 (proj2 (proj1 (reorder_positions_spec [demo_ip 7 1; demo_ip 8 0; demo_ip 9 2] 0 2
    ltac:(simpl; lia) (perm_swap _ _ _)) ltac:(simpl; lia) ltac:(simpl; lia) ltac:(lia)))).
Defined.

Lemma resolve_omitted_positions_witness :
  omap input_position (resolve_and_validate_input_positions
    [demo_input 9 None; demo_input 7 None] [demo_ip 7 0] "ip_address").2 ≡ₚ seqZ 0 2.
Proof.
  apply (resolve_omitted_positions [demo_input 9 None; demo_input 7 None] [demo_ip 7 0]
    "ip_address"%string).
  - simpl. lia.
  - intros i Hi. repeat (apply elem_of_cons in Hi as [->|Hi]; [done|]). by apply not_elem_of_nil in Hi.
  - by apply (bool_decide_unpack (NoDup [9%N; 7%N])).
  - by apply (bool_decide_unpack (NoDup [7%N])).
  - simpl. intros k ->%list_elem_of_singleton. right. left.
  - done.
Defined.

Lemma resolve_given_positions_witness :
  (resolve_and_validate_input_positions [demo_input 9 (Some 1); demo_input 7 (Some 0)]
     [demo_ip 7 0] "ip_address").1 = Ok tt.
Proof.
  apply (resolve_given_positions [demo_input 9 (Some 1); demo_input 7 (Some 0)] [demo_ip 7 0]
    "ip_address"%string); [simpl; lia|by vm_compute|apply perm_swap].
Defined.
