(* ===== verification/ServiceIdentity.v ===== *)
(** When two service records are the same service:
    [PartialEq], [Hash] and the staleness rules of [server/services/impl/base.rs],
    with those of the binding, port and address rows. *)

From S2P Require Import Prelude Net Ports Position Entities.
Local Open Scope Z_scope.

(** What service identity reads of a service definition
    ([ServiceDefinitionExt]), by definition id. *)
Class DefinitionFacts : Type := {
  is_generic : string → bool;
  is_gateway : string → bool;
  is_open_ports : string → bool
}.

Definition to_bound_ip_address_ids (s : Service) : list (option Uuid) :=
  ip_address_id <$> bindings (sv_base s).

Definition to_bound_port_ids (s : Service) : list Uuid := omap port_id (bindings (sv_base s)).

Definition port_id_set (s : Service) : gset Uuid := list_to_set (to_bound_port_ids s).

Definition has_shared_ports (a b : Service) : bool :=
  negb (bool_decide (port_id_set a = ∅)) && negb (bool_decide (port_id_set b = ∅))
  && negb (bool_decide (port_id_set a ## port_id_set b)).

Definition service_container_id (s : Service) : option string :=
  virtualization_metadata (sv_base s) ≫= container_id.

Section Identity.
Context `{DefinitionFacts}.

(** The generic services: containers by id, else by name, else by ports. *)
Definition generic_eqb (a b : Service) : bool :=
  match virtualization_metadata (sv_base a), virtualization_metadata (sv_base b) with
  | Some va, Some vb =>
      match container_id va, container_id vb with
      | Some ca, Some cb => String.eqb ca cb
      | None, None =>
          match container_name va, container_name vb with
          | Some na, Some nb => String.eqb na nb
          | _, _ => has_shared_ports a b
          end
      | _, _ => false
      end
  | Some _, None | None, Some _ => has_shared_ports a b
  | None, None => has_shared_ports a b
  end.

Definition service_eqb (a b : Service) : bool :=
  let ba := sv_base a in
  let bb := sv_base b in
  if (sv_id a =? sv_id b)%N then true
  else if negb (sv_host_id ba =? sv_host_id bb)%N || negb (sv_network_id ba =? sv_network_id bb)%N
  then false
  else if negb (String.eqb (service_definition ba) (service_definition bb)) then false
  else if negb (is_generic (service_definition ba)) then
    match service_container_id a, service_container_id b with
    | Some ca, Some cb => String.eqb ca cb
    | _, _ => true
    end
  else if is_gateway (service_definition ba) || is_open_ports (service_definition ba) then true
  else generic_eqb a b.
End Identity.

(** The values [Hash for Service] feeds to the hasher. *)
Definition service_hash_input (s : Service) : Uuid * string * string * Uuid :=
  (sv_id s, service_definition (sv_base s), sv_name (sv_base s), sv_host_id (sv_base s)).

(** ** Staleness: does a change of a row invalidate the topology? *)

Definition container_info_eqb (a b : ContainerInfo) : bool :=
  bool_decide (info_name a = info_name b) && bool_decide (info_id a = info_id b)
  && bool_decide (info_compose_project a = info_compose_project b).

Definition virtualization_eqb (a b : option ServiceVirtualization) : bool :=
  match a, b with
  | None, None => true
  | Some (VirtDocker x), Some (VirtDocker y) => container_info_eqb x y
  | Some (VirtPodman x), Some (VirtPodman y) => container_info_eqb x y
  | _, _ => false
  end.

(** [Vec<Binding> == Vec<Binding>]. *)
Fixpoint bindings_eqb (a b : list Binding) : bool :=
  match a, b with
  | [], [] => true
  | x :: a', y :: b' => binding_eqb x y && bindings_eqb a' b'
  | _, _ => false
  end.

Definition service_triggers_staleness (a : Service) (other : option Service) : bool :=
  match other with
  | Some b =>
      negb (bindings_eqb (bindings (sv_base a)) (bindings (sv_base b)))
      || negb (sv_host_id (sv_base a) =? sv_host_id (sv_base b))%N
      || negb (virtualization_eqb (virtualization_metadata (sv_base a))
                 (virtualization_metadata (sv_base b)))
      || negb (bool_decide (virtualization_service_id (sv_base a)
                            = virtualization_service_id (sv_base b)))
  | None => true
  end.

Definition binding_triggers_staleness (a : Binding) (other : option Binding) : bool :=
  match other with
  | Some b => negb (bool_decide (binding_type (b_base a) = binding_type (b_base b)))
              || negb (b_service_id (b_base a) =? b_service_id (b_base b))%N
  | None => true
  end.

Definition ip_address_triggers_staleness (a : IPAddress) (other : option IPAddress) : bool :=
  match other with
  | Some b => negb (bool_decide (ip_address (ip_base a) = ip_address (ip_base b)))
              || negb (subnet_id (ip_base a) =? subnet_id (ip_base b))%N
              || negb (ip_host_id (ip_base a) =? ip_host_id (ip_base b))%N
  | None => true
  end.

Definition port_triggers_staleness (a : Port) (other : option Port) : bool :=
  match other with
  | Some b => negb (port_eqb (port_type (p_base a)) (port_type (p_base b)))
              || negb (p_host_id (p_base a) =? p_host_id (p_base b))%N
              || negb (bool_decide (config (port_type (p_base a)) = config (port_type (p_base b))))
  | None => true
  end.

(** ** Properties *)
Section Facts.
Context `{DefinitionFacts}.

Lemma has_shared_ports_sym a b : has_shared_ports a b = has_shared_ports b a.
Proof.
  unfold has_shared_ports. rewrite (andb_comm (negb (bool_decide (port_id_set a = ∅)))).
  f_equal. f_equal. by apply bool_decide_ext.
Qed.

Lemma generic_eqb_sym a b : generic_eqb a b = generic_eqb b a.
Proof.
  unfold generic_eqb. rewrite (has_shared_ports_sym a b).
  destruct (virtualization_metadata (sv_base a)) as [va|],
    (virtualization_metadata (sv_base b)) as [vb|]; try done.
  destruct (container_id va), (container_id vb); try done; [apply String.eqb_sym|].
  destruct (container_name va), (container_name vb); try done. apply String.eqb_sym.
Qed.

(** Service equality is reflexive and symmetric. *)
Theorem service_eq_refl_sym (a b : Service) :
  service_eqb a a = true ∧ service_eqb a b = service_eqb b a.
Proof.
  unfold service_eqb. rewrite N.eqb_refl. split; [done|].
  rewrite (N.eqb_sym (sv_id b)). destruct (sv_id a =? sv_id b)%N; [done|].
  rewrite (N.eqb_sym (sv_host_id (sv_base b))), (N.eqb_sym (sv_network_id (sv_base b))).
  destruct (_ || _); [done|]. rewrite (String.eqb_sym (service_definition (sv_base b))).
  destruct (String.eqb_spec (service_definition (sv_base a)) (service_definition (sv_base b)))
    as [->|]; [|done]. simpl. destruct (negb _).
  - destruct (service_container_id a), (service_container_id b); try done. apply String.eqb_sym.
  - destruct (_ || _); [done|]. apply generic_eqb_sym.
Qed.

Definition bare_key (s : Service) : Uuid * Uuid * string :=
  (sv_host_id (sv_base s), sv_network_id (sv_base s), service_definition (sv_base s)).

(** Two records of services that are not containers are the same service
    when host, network and definition agree and, for a generic definition other
    than gateway and open ports, they share a port. *)
Theorem service_eq_bare (a b : Service) (Hid : sv_id a ≠ sv_id b)
    (Va : virtualization_metadata (sv_base a) = None)
    (Vb : virtualization_metadata (sv_base b) = None) :
  service_eqb a b = true ↔
  bare_key a = bare_key b
  ∧ (is_generic (service_definition (sv_base a)) = false
     ∨ is_gateway (service_definition (sv_base a)) = true
     ∨ is_open_ports (service_definition (sv_base a)) = true
     ∨ ∃ p, p ∈ to_bound_port_ids a ∧ p ∈ to_bound_port_ids b).
Proof.
  unfold service_eqb, bare_key, service_container_id, generic_eqb.
  rewrite Va, Vb. simpl. rewrite (proj2 (N.eqb_neq _ _) Hid).
  destruct (N.eqb_spec (sv_host_id (sv_base a)) (sv_host_id (sv_base b))) as [->|];
    [|simpl; naive_solver].
  destruct (N.eqb_spec (sv_network_id (sv_base a)) (sv_network_id (sv_base b))) as [->|];
    [|simpl; naive_solver].
  destruct (String.eqb_spec (service_definition (sv_base a)) (service_definition (sv_base b)))
    as [->|]; [|simpl; naive_solver]. simpl.
  destruct (is_generic _); simpl; [|naive_solver].
  destruct (is_gateway _); simpl; [naive_solver|]. destruct (is_open_ports _); simpl; [naive_solver|].
  assert (has_shared_ports a b = true ↔ ∃ p, p ∈ to_bound_port_ids a ∧ p ∈ to_bound_port_ids b)
    as Hsh; [|rewrite Hsh; naive_solver].
  unfold has_shared_ports, port_id_set. split.
  - intros Hb. bool_hyps.
    destruct (set_choose_or_empty (list_to_set (to_bound_port_ids a)
      ∩ list_to_set (to_bound_port_ids b) : gset Uuid)) as [[p Hp]|He]; [set_solver|].
    exfalso. apply H1. set_solver.
  - intros (p & Ha & Hb). rewrite !bool_decide_eq_false_2; [done|set_solver..].
Qed.
End Facts.

(** ** Where the relation is not an equivalence *)

Definition demo_facts : DefinitionFacts := {|
  is_generic d := String.eqb d "Generic"; is_gateway _ := false; is_open_ports _ := false |}.

Definition demo_service (id : Uuid) (def : string) (virt : option ServiceVirtualization)
    (ports : list Uuid) : Service :=
  service_new id 0
    {| sv_host_id := 1; sv_network_id := 2; service_definition := def; sv_name := "svc"%string;
       bindings := (λ p, new_port_serviceless p 0 p None) <$> ports;
       virtualization_metadata := virt; virtualization_service_id := None;
       source := SourceSystem; sv_tags := []; sv_position := 0 |}.

Definition demo_container (id : string) : option ServiceVirtualization :=
  Some (VirtDocker {| info_name := None; info_id := Some id; info_compose_project := None |}).

Lemma service_eq_bare_witness :
  @service_eqb demo_facts (demo_service 1 "Plex" None [5%N]) (demo_service 2 "Plex" None [6%N]) = true.
Proof.
  apply (@service_eq_bare demo_facts (demo_service 1 "Plex" None [5%N])
    (demo_service 2 "Plex" None [6%N])); [done|done|done|].
  split; [done|]. by left.
Defined.

(** Service equality is not transitive: a Plex record without container data
    equals the records of two containers that differ from each other, and a
    generic record can share a port with each of two records that share none. *)
Theorem service_eq_not_transitive :
  let eqb := @service_eqb demo_facts in
  let plain := demo_service 1 "Plex" None [] in
  let c1 := demo_service 2 "Plex" (demo_container "c1") [] in
  let c2 := demo_service 3 "Plex" (demo_container "c2") [] in
  let g1 := demo_service 4 "Generic" None [10%N] in
  let g12 := demo_service 5 "Generic" None [10%N; 11%N] in
  let g2 := demo_service 6 "Generic" None [11%N] in
  (eqb c1 plain = true ∧ eqb plain c2 = true ∧ eqb c1 c2 = false)
  ∧ (eqb g1 g12 = true ∧ eqb g12 g2 = true ∧ eqb g1 g2 = false).
Proof. by vm_compute. Qed.

(** Equal records need not hash alike: two records of one service differ in
    the id that [Hash for Service] hashes, two equal bindings in the id that
    [Hash for Binding] hashes, and two records of one address row in the
    address that [Hash for IPAddress] hashes, so a hash set may keep both. *)
Theorem equal_rows_hash_differently :
  (∃ a b, @service_eqb demo_facts a b = true ∧ service_hash_input a ≠ service_hash_input b)
  ∧ (∃ a b, binding_eqb a b = true ∧ binding_hash_input a ≠ binding_hash_input b)
  ∧ (∃ a b, ip_address_eqb a b = true ∧ ip_address_hash_input a ≠ ip_address_hash_input b).
Proof.
  split_and!.
  - exists (demo_service 1 "Plex" None []), (demo_service 2 "Plex" None []). by vm_compute.
  - exists (new_ip_address_serviceless 1 0 7), (new_ip_address_serviceless 2 0 7). by vm_compute.
  - exists (demo_ip 1 0), {| ip_id := 1; ip_meta := fresh_meta 0; ip_base :=
      {| ip_network_id := 1; ip_host_id := 2; subnet_id := 3; ip_address := V4 9;
         mac_address := None; ip_name := None; ip_position := 0 |} |}. by vm_compute.
Qed.

(** The staleness rules agree with row equality where it matters: an update
    that changes nothing they look at does not invalidate the topology, and a
    changed binding list, host or container always does. *)
Theorem service_staleness_iff (a b : Service) :
  service_triggers_staleness a (Some b) = false ↔
  (binding_type ∘ b_base <$> bindings (sv_base a) = binding_type ∘ b_base <$> bindings (sv_base b))
  ∧ sv_host_id (sv_base a) = sv_host_id (sv_base b)
  ∧ virtualization_metadata (sv_base a) = virtualization_metadata (sv_base b)
  ∧ virtualization_service_id (sv_base a) = virtualization_service_id (sv_base b).
Proof.
  assert (∀ x y, bindings_eqb x y = true ↔
    binding_type ∘ b_base <$> x = binding_type ∘ b_base <$> y) as Hb.
  { induction x as [|p x IH]; intros [|q y]; try (by split); cbn [bindings_eqb fmap list_fmap].
    rewrite andb_true_iff, IH. unfold binding_eqb. rewrite bool_decide_eq_true. simpl.
    split; [intros [-> ->]; done|]. by intros [= -> ->]. }
  assert (∀ x y, container_info_eqb x y = true ↔ x = y) as Hi.
  { intros [] []. unfold container_info_eqb. simpl. rewrite !andb_true_iff, !bool_decide_eq_true.
    naive_solver. }
  assert (∀ x y, virtualization_eqb x y = true ↔ x = y) as Hv.
  { intros [[]|] [[]|]; simpl; rewrite ?Hi; naive_solver. }
  unfold service_triggers_staleness. rewrite !orb_false_iff, !negb_false_iff.
  rewrite Hb, Hv, N.eqb_eq, bool_decide_eq_true. tauto.
Qed.
