(* ===== verification/Patterns.v ===== *)
(** The service matcher: [server/services/impl/{patterns,endpoints,definitions}.rs]
    and [Service::from_discovery] of [server/services/impl/base.rs].

    A service definition carries a [Pattern]; [matches] evaluates it on what a
    scan found out about a host.  The registry of definitions and the OUI
    database are parameters: every statement holds for every registry. *)

From S2P Require Import Prelude Net Ports Discovery Position Entities ServiceIdentity.
Local Open Scope Z_scope.

(** ** Endpoints *)

Inductive ApplicationProtocol := HttpProtocol | HttpsProtocol.

#[export] Instance ApplicationProtocol_eq_dec : EqDecision ApplicationProtocol.
Proof. solve_decision. Defined.

Record Endpoint := {
  ep_protocol : ApplicationProtocol;
  ep_ip : option IpAddr;
  ep_port_type : PortType;
  ep_path : string
}.

Definition for_pattern (p : PortType) (path : string) : Endpoint :=
  {| ep_protocol := HttpProtocol; ep_ip := None; ep_port_type := p; ep_path := path |}.

Definition use_ip (ip : IpAddr) (e : Endpoint) : Endpoint :=
  {| ep_protocol := ep_protocol e; ep_ip := Some ip; ep_port_type := ep_port_type e;
     ep_path := ep_path e |}.

Definition is_resolved (e : Endpoint) : bool := bool_decide (is_Some (ep_ip e)).

Definition endpoint_eqb (a b : Endpoint) : bool :=
  bool_decide (ep_protocol a = ep_protocol b)
  && (port_number (ep_port_type a) =? port_number (ep_port_type b))
  && String.eqb (ep_path a) (ep_path b).

Definition endpoint_hash_input (e : Endpoint) : ApplicationProtocol * (Z * TransportProtocol) * string :=
  (ep_protocol e, port_hash_input (ep_port_type e), ep_path e).

Record EndpointResponse := {
  endpoint : Endpoint;
  body : string;
  headers : list (string * string);
  status : Z
}.

(** ** Patterns *)

Record ManagedDevice := { device_type : string }.

(** [DiscoverySessionServiceMatchParams] with its two nested parameter structs. *)
Record MatchParams := {
  mp_host_id : Uuid;
  gateway_ips : list IpAddr;
  mp_daemon_id : Uuid;
  mp_network_id : Uuid;
  mp_discovery_type : DiscoveryType;
  mp_subnet : Subnet;
  mp_ip_address : IPAddress;
  all_ports : list PortType;
  endpoint_responses : list EndpointResponse;
  mp_virtualization_metadata : option ServiceVirtualization;
  mp_virtualization_service_id : option Uuid;
  client_responses : ClientProbe → option (list PortType);
  managed_device : option ManagedDevice;
  mp_service_definition : string;
  matched_services : list Service;
  unbound_ports : list PortType
}.

Inductive Pattern :=
| AnyOf (patterns : list Pattern)
| AllOf (patterns : list Pattern)
| Not (pattern : Pattern)
| PortPattern (port : PortType)
| EndpointPattern (port : PortType) (path body : string) (status_range : option (Z * Z))
| HeaderPattern (port : option PortType) (header value : string) (status_range : option (Z * Z))
| SubnetIsType (t : SubnetType)
| IsGateway
| MacVendor (vendor : string)
| CustomPattern (constraint : MatchParams → bool) (ports : MatchParams → list PortType)
    (match_reason no_match_reason : string) (conf : MatchConfidence)
| ClientResponse (probe : ClientProbe)
| ContainerVirtualization
| ManagedDeviceType (expected : string)
| NoPattern.

(** Induction through the lists of [AnyOf] and [AllOf]. *)
Lemma Pattern_ind' (P : Pattern → Prop)
    (Hany : ∀ ps, Forall P ps → P (AnyOf ps)) (Hall : ∀ ps, Forall P ps → P (AllOf ps))
    (Hnot : ∀ p, P p → P (Not p))
    (Hatom : ∀ p, (∀ ps, p ≠ AnyOf ps) → (∀ ps, p ≠ AllOf ps) → (∀ q, p ≠ Not q) → P p) :
  ∀ p, P p.
Proof.
  fix IH 1. intros p.
  destruct p as [ps|ps|q| | | | | | | | | | |]; try (apply Hatom; by intros).
  - apply Hany. induction ps as [|q ps IHps]; constructor; [apply IH|exact IHps].
  - apply Hall. induction ps as [|q ps IHps]; constructor; [apply IH|exact IHps].
  - apply Hnot, IH.
Qed.

Inductive ServiceCategory :=
| NetworkCore | NetworkAccess | NetworkAppliance | RemoteAccess | CatStorage | Backup | Media
| HomeAutomation | Hypervisor | ContainerRuntime | CatContainer | Orchestrator | DNS | VPN
| Monitoring | AdBlock | ReverseProxy | Workstation | Mobile | CatIoT | Printer | Database
| Development | Dashboard | MessageQueue | IdentityAndAccess | Integration | Office
| ProjectManagement | Messaging | Conferencing | Telephony | Email | Publishing | CatUnknown
| CatCustom | Scanopy | OpenPorts.

#[export] Instance ServiceCategory_eq_dec : EqDecision ServiceCategory.
Proof. solve_decision. Defined.

(** [ServiceDefinition]: its id is its name. *)
Record ServiceDefinition := {
  def_name : string;
  description : string;
  def_category : ServiceCategory;
  discovery_pattern : Pattern;
  def_is_generic : bool;
  logo_url : string;
  logo_needs_white_background : bool
}.

Definition DefaultServiceDefinition : ServiceDefinition := {|
  def_name := "Missing Service";
  description := "If you are seeing this, a service definition was removed. Please create an issue.";
  def_category := CatUnknown; discovery_pattern := NoPattern; def_is_generic := false;
  logo_url := ""; logo_needs_white_background := false |}.

Definition has_logo (d : ServiceDefinition) : bool := negb (String.eqb (logo_url d) "").

Definition can_be_manually_added (d : ServiceDefinition) : bool :=
  match def_category d with Scanopy | OpenPorts => false | _ => true end.

Record MatchResult := {
  ports : list PortType;
  mr_endpoint : option Endpoint;
  mac_vendor : option string;
  details : MatchDetails
}.

(** ** Ports and endpoints a pattern needs scanned *)

Fixpoint pattern_ports (p : Pattern) : list PortType :=
  match p with
  | PortPattern q => [q]
  | AnyOf ps | AllOf ps => List.concat (List.map pattern_ports ps)
  | _ => []
  end.

Fixpoint pattern_endpoints (p : Pattern) : list Endpoint :=
  match p with
  | EndpointPattern q path _ None => [for_pattern q path]
  | HeaderPattern (Some q) _ _ _ => [for_pattern q "/"%string]
  | HeaderPattern None _ _ _ => [for_pattern Http "/"%string]
  | AnyOf ps | AllOf ps => List.concat (List.map pattern_endpoints ps)
  | _ => []
  end.

Definition has_raw_socket_endpoint (p : Pattern) : bool :=
  existsb (λ e, is_raw_socket (ep_port_type e)) (pattern_endpoints p).

Fixpoint contains_gateway_ip_pattern (p : Pattern) : bool :=
  match p with
  | IsGateway => true
  | AnyOf ps | AllOf ps => existsb contains_gateway_ip_pattern ps
  | _ => false
  end.

(** ** Matching *)

(** [Range::contains]; a range excludes its end. *)
Definition in_range (r : Z * Z) (s : Z) : bool := (r.1 <=? s) && (s <? r.2).
Definition expected_range (r : option (Z * Z)) : Z * Z := default (200, 400) r.

(** The normalisation of vendor names: lower case letters and digits. *)
Definition is_alphanumeric (c : Ascii.ascii) : bool :=
  let n := Ascii.N_of_ascii c in
  ((48 <=? n) && (n <=? 57) || (65 <=? n) && (n <=? 90) || (97 <=? n) && (n <=? 122))%N.

Fixpoint keep_alphanumeric (s : string) : string :=
  match s with
  | EmptyString => EmptyString
  | String c s' => if is_alphanumeric c then String c (keep_alphanumeric s') else keep_alphanumeric s'
  end.

Definition normalize (s : string) : string := keep_alphanumeric (to_lowercase s).

Definition no_endpoint_result (ps : list PortType) (vendor : option string) (t : Text)
    (c : MatchConfidence) : MatchResult :=
  {| ports := ps; mr_endpoint := None; mac_vendor := vendor;
     details := {| reason := Reason t; confidence := c |} |}.

Definition header_matches (port : option PortType) (header value : string)
    (range : option (Z * Z)) (r : EndpointResponse) : bool :=
  match port with Some p => port_eqb (ep_port_type (endpoint r)) p | None => true end
  && in_range (expected_range range) (status r)
  && existsb (λ hv, String.eqb (to_lowercase hv.1) (to_lowercase header)
                    && str_contains (to_lowercase hv.2) (to_lowercase value)) (headers r).

Definition endpoint_matches (port : PortType) (path text : string)
    (range : option (Z * Z)) (r : EndpointResponse) : bool :=
  (bool_decide (ep_protocol (endpoint r) = ep_protocol (for_pattern port path))
   && (port_number (ep_port_type (endpoint r)) =? port_number port)
   && bool_decide (port_protocol (ep_port_type (endpoint r)) = port_protocol port)
   && String.eqb (ep_path (endpoint r)) path)
  && in_range (expected_range range) (status r)
  && str_contains (to_lowercase (body r)) (to_lowercase text).

Definition status_args (range : option (Z * Z)) (r : EndpointResponse) : list Arg :=
  match range with Some (lo, hi) => [ANum (status r); ARange lo hi] | None => [] end.

Definition response_result (r : EndpointResponse) (t : Text) : MatchResult :=
  {| ports := [ep_port_type (endpoint r)]; mr_endpoint := Some (endpoint r); mac_vendor := None;
     details := {| reason := Reason t; confidence := High |} |}.

(** The last group of the address is 1 or 254. *)
Definition last_octet_1_or_254 (ip : IpAddr) : bool :=
  match ip with
  | V4 b => (octet b 3 =? 1) || (octet b 3 =? 254)
  | V6 b => (segment b 7 =? 1) || (segment b 7 =? 254)
  end.

Definition gateways_in_subnet (params : MatchParams) : list IpAddr :=
  List.filter (cidr_contains (cidr (s_base (mp_subnet params)))) (gateway_ips params).

Definition SubnetType_name (t : SubnetType) : string :=
  match t with
  | SInternet => "Internet" | SRemote => "Remote" | SGateway => "Gateway" | SVpnTunnel => "VPN"
  | SDmz => "DMZ" | SLan => "LAN" | SWiFi => "WiFi" | SIoT => "IoT" | SGuest => "Guest"
  | SDockerBridge => "Docker Bridge" | SPodmanBridge => "Podman Bridge" | SMacVlan => "MacVLAN"
  | SIpVlan => "IpVLAN" | SManagement => "Management" | SStorage => "Storage"
  | SLoopback => "Loopback" | SUnknown => "Unknown"
  end%string.

(** [anyhow!("{}", reason)]: the derived [Display] of [MatchReason] prints the
    name of the variant. *)
Definition display_reason (r : MatchReason) : Text :=
  match r with
  | Reason _ => Msg "Reason" []
  | Container _ _ => Msg "Container" []
  end.

Definition oks {A E} (rs : list (result A E)) : list A :=
  omap (λ r, match r with Ok a => Some a | Err _ => None end) rs.
Definition errs {A E} (rs : list (result A E)) : list E :=
  omap (λ r, match r with Ok _ => None | Err e => Some e end) rs.

Definition max_confidence (c d : MatchConfidence) : MatchConfidence :=
  if confidence_rank c <? confidence_rank d then d else c.

Definition joined_errors (es : list Text) : Text := Msg ", " (AText <$> es).

Definition any_of (rs : list (result MatchResult Text)) : result MatchResult Text :=
  match oks rs with
  | [] => Err (joined_errors (errs rs))
  | ms =>
      Ok {| ports := sort_dedup_ports (List.concat (ports <$> ms));
            mr_endpoint := None; mac_vendor := None;
            details := {| reason := Container "Any of" (reason ∘ details <$> ms);
                          confidence := foldl (λ c m, max_confidence c (confidence (details m))) Low ms |} |}
  end.

(** The greatest of the sorted confidences, [Low] when there is none. *)
Definition last_confidence (cs : list MatchConfidence) : MatchConfidence :=
  default Low (list.last (sort_by (λ a b, confidence_rank a <=? confidence_rank b) cs)).

Definition boosted (cs : list MatchConfidence) : MatchConfidence :=
  let m := last_confidence cs in
  match m with
  | Low => if (3 <? length cs)%nat then Medium else m
  | Medium => if (3 <? length cs)%nat then High else m
  | _ => m
  end.

Definition all_of (rs : list (result MatchResult Text)) : result MatchResult Text :=
  match errs rs with
  | [] =>
      let ms := oks rs in
      Ok {| ports := sort_dedup_ports (List.concat (ports <$> ms));
            mr_endpoint := None; mac_vendor := None;
            details := {| reason := Container "All of" (reason ∘ details <$> ms);
                          confidence := boosted (confidence ∘ details <$> ms) |} |}
  | es => Err (joined_errors es)
  end.

Definition not_of (r : result MatchResult Text) : result MatchResult Text :=
  match r with
  | Ok m => Err (display_reason (reason (details m)))
  | Err e => Ok (no_endpoint_result [] None (Msg "{}" [AText e]) Low)
  end.

Section Matching.
(** [ServiceDefinitionRegistry::all_service_definitions] and the OUI database,
    keyed by the first three octets of a MAC address. *)
Context (registry : list ServiceDefinition) (oui_db : Z → option string).

Definition lookup_by_mac (mac : MacAddress) : option string := oui_db (Z.shiftr mac 24).

Definition other_services_ports (id : string) : list PortType :=
  sort_dedup_ports (List.concat
    ((λ d, pattern_ports (discovery_pattern d))
     <$> List.filter (λ d, negb (String.eqb (def_name d) id)) registry)).

Definition match_port (params : MatchParams) (p : PortType) : result MatchResult Text :=
  match List.find (λ q, port_eqb q p) (unbound_ports params) with
  | Some matched =>
      let unique := is_custom p
        && negb (existsb (λ q, port_eqb q p) (other_services_ports (mp_service_definition params))) in
      Ok (if is_custom p && unique
          then no_endpoint_result [matched] None
                 (Msg "Port {} is open and is not used in other service match patterns" [APort p]) Medium
          else no_endpoint_result [matched] None (Msg "Port {} is open" [APort p]) Low)
  | None => Err (Msg "Port {} is not open" [APort p])
  end.

Definition match_header (params : MatchParams) port header value range : result MatchResult Text :=
  match List.find (header_matches port header value range) (endpoint_responses params) with
  | Some r =>
      Ok (response_result r
            (Msg "Response from {} header {} contained {} and status code {} was in range {}"
               (match port with Some p => [ANum (port_number p)] | None => [] end
                ++ [AStr header; AStr value] ++ status_args range r)))
  | None => Err (Msg "Could not find an header response on port {}"
                   [ANum (port_number (default Http port))])
  end.

Definition match_endpoint (params : MatchParams) port path text range : result MatchResult Text :=
  match List.find (endpoint_matches port path text range) (endpoint_responses params) with
  | Some r =>
      Ok (response_result r
            (Msg "Response for {}:{}{} contained {} in body and status code was {} was in range {}"
               ([AIp (ip_address (ip_base (mp_ip_address params))); ANum (port_number port);
                 AStr path; AStr text] ++ status_args range r)))
  | None => Err (Msg "Could not find an endpoint response containing {}" [AStr text])
  end.

Definition match_mac_vendor (params : MatchParams) (vendor : string) : result MatchResult Text :=
  match mac_address (ip_base (mp_ip_address params)) with
  | Some mac =>
      match lookup_by_mac mac with
      | None => Err (Msg "Could not find vendor for mac address in OUI database" [])
      | Some company =>
          if String.eqb (normalize vendor) (normalize company)
          then Ok (no_endpoint_result [] (Some company)
                     (Msg "Mac address is from vendor {}" [AStr company]) Medium)
          else Err (Msg "Mac address is not from vendor {}" [AStr (normalize vendor)])
      end
  | None => Err (Msg "IPAddress {} does not have a mac address"
                   [AIp (ip_address (ip_base (mp_ip_address params)))])
  end.

Definition match_gateway (params : MatchParams) : result MatchResult Text :=
  let gws := gateways_in_subnet params in
  let ip := ip_address (ip_base (mp_ip_address params)) in
  if existsb (λ g, bool_decide (g = ip)) gws then
    Ok (no_endpoint_result [] None
          (Msg "Host IP address is in routing table of daemon {}" [AId (mp_daemon_id params)]) High)
  else if last_octet_1_or_254 ip && (length gws =? 0)%nat then
    Ok (no_endpoint_result [] None
          (Msg "No other gateways in subnet {} and IP address ends in 1 or 254"
             [ACidr (cidr (s_base (mp_subnet params)))]) High)
  else Err (Msg "IP address is not in routing table, and does not end in 1 or 254 with no other gateways identified in subnet" []).

Definition match_managed_device (params : MatchParams) (expected : string) : result MatchResult Text :=
  match managed_device params with
  | Some d =>
      if eq_ignore_ascii_case (device_type d) expected
      then Ok (no_endpoint_result [] None
                 (Msg "Controller reported device type '{}'" [AStr (device_type d)]) Certain)
      else Err (Msg "Controller reported device type '{}', not '{}'" [AStr (device_type d); AStr expected])
  | None => Err (Msg "Host was not reported by a management controller" [])
  end.

Definition match_subnet_type (params : MatchParams) (t : SubnetType) : result MatchResult Text :=
  let b := s_base (mp_subnet params) in
  if bool_decide (subnet_type b = t)
  then Ok (no_endpoint_result [] None (Msg "Subnet {} is type {}" [ACidr (cidr b); AStr (SubnetType_name t)]) Low)
  else Err (Msg "Subnet {} is not type {}" [ACidr (cidr b); AStr (SubnetType_name t)]).

Fixpoint matches (params : MatchParams) (p : Pattern) {struct p} : result MatchResult Text :=
  match p with
  | PortPattern q => match_port params q
  | HeaderPattern port header value range => match_header params port header value range
  | EndpointPattern port path text range => match_endpoint params port path text range
  | MacVendor v => match_mac_vendor params v
  | Not q => not_of (matches params q)
  | AnyOf ps => any_of (List.map (matches params) ps)
  | AllOf ps => all_of (List.map (matches params) ps)
  | IsGateway => match_gateway params
  | SubnetIsType t => match_subnet_type params t
  | CustomPattern constraint port_fn yes no conf =>
      if constraint params
      then Ok (no_endpoint_result (port_fn params) None (Msg yes []) conf)
      else Err (Msg no [])
  | ClientResponse probe =>
      match client_responses params probe with
      | Some ps => Ok (no_endpoint_result ps None (Msg "Client probe {} succeeded" [AProbe probe]) Certain)
      | None => Err (Msg "Client probe {} did not succeed" [AProbe probe])
      end
  | ContainerVirtualization =>
      match mp_virtualization_metadata params with
      | Some _ => Ok (no_endpoint_result [] None (Msg "Service is running in a container" []) Low)
      | None => Err (Msg "Service is not running in a container" [])
      end
  | ManagedDeviceType e => match_managed_device params e
  | NoPattern => Err (Msg "No match pattern provided" [])
  end.
End Matching.

(** ** The registry *)
Section Registry.
Context (registry : list ServiceDefinition) (oui_db : Z → option string).

Definition find_by_id (id : string) : option ServiceDefinition :=
  List.find (λ d, String.eqb (def_name d) id) registry.

(** What [Deserialize] falls back to for an unknown id. *)
Definition resolve_definition (id : string) : ServiceDefinition :=
  default DefaultServiceDefinition (find_by_id id).

(** The registry provides what service identity needs. *)
#[export] Instance registry_facts : DefinitionFacts := {|
  is_generic id := def_is_generic (resolve_definition id);
  is_gateway id := contains_gateway_ip_pattern (discovery_pattern (resolve_definition id));
  is_open_ports id := bool_decide (def_category (resolve_definition id) = OpenPorts)
|}.

Definition all_discovery_ports : list PortType :=
  sort_dedup_ports (List.concat ((λ d, pattern_ports (discovery_pattern d)) <$> registry)).

Definition protocol_string (p : ApplicationProtocol) : string :=
  match p with HttpProtocol => "http" | HttpsProtocol => "https" end%string.

(** The order of the sort key (protocol, port number, path). *)
Definition endpoint_leb (a b : Endpoint) : bool :=
  let pa := protocol_string (ep_protocol a) in
  let pb := protocol_string (ep_protocol b) in
  if String.eqb pa pb then
    let na := port_number (ep_port_type a) in
    let nb := port_number (ep_port_type b) in
    if na =? nb then String.leb (ep_path a) (ep_path b) else na <? nb
  else String.leb pa pb.

Definition all_discovery_endpoints : list Endpoint :=
  dedup endpoint_eqb (sort_by endpoint_leb
    (List.concat ((λ d, pattern_endpoints (discovery_pattern d)) <$> registry))).

Definition endpoint_only_ports : list PortType :=
  sort_dedup_ports
    (List.filter (λ p, negb (existsb (λ q, port_eqb q p) all_discovery_ports))
       (ep_port_type <$> all_discovery_endpoints)).

(** [Service::from_discovery] for a definition; [fresh] numbers the new ids. *)
Definition from_discovery (now : DateTime) (fresh : nat → Uuid) (def : ServiceDefinition)
    (params : MatchParams) : option (Service * list Port * option Endpoint) :=
  match matches registry oui_db params (discovery_pattern def) with
  | Err _ => None
  | Ok r =>
      let name :=
        if def_is_generic def
        then default (def_name def) (mp_virtualization_metadata params ≫= container_name)
        else def_name def in
      let det :=
        if def_is_generic def
        then {| reason := Container "Generic service" [reason (details r)]; confidence := NotApplicable |}
        else details r in
      let prts := imap (λ i p, new_hostless (fresh i) now p) (ports r) in
      let n := length (ports r) in
      let ip := ip_id (mp_ip_address params) in
      let bnds :=
        match ports r with
        | [] => [new_ip_address_serviceless (fresh n) now ip]
        | _ => imap (λ i p, new_port_serviceless (fresh (n + i)%nat) now (p_id p) (Some ip)) prts
        end in
      Some (service_new (fresh (n + length bnds)%nat) now
              {| sv_host_id := mp_host_id params; sv_network_id := mp_network_id params;
                 service_definition := def_name def; sv_name := name; bindings := bnds;
                 virtualization_metadata := mp_virtualization_metadata params;
                 virtualization_service_id := mp_virtualization_service_id params;
                 source := SourceDiscoveryWithMatch det; sv_tags := []; sv_position := 0 |},
            prts, mr_endpoint r)
  end.
End Registry.

(** ** Properties *)

(** Reference semantics: the pattern as a boolean formula over the evidence. *)
Section Semantics.
Context (registry : list ServiceDefinition) (oui_db : Z → option string).

Fixpoint holds (params : MatchParams) (p : Pattern) {struct p} : bool :=
  match p with
  | AnyOf ps => existsb (holds params) ps
  | AllOf ps => forallb (holds params) ps
  | Not q => negb (holds params q)
  | PortPattern q => existsb (λ u, port_eqb u q) (unbound_ports params)
  | EndpointPattern port path text range =>
      existsb (endpoint_matches port path text range) (endpoint_responses params)
  | HeaderPattern port header value range =>
      existsb (header_matches port header value range) (endpoint_responses params)
  | SubnetIsType t => bool_decide (subnet_type (s_base (mp_subnet params)) = t)
  | IsGateway =>
      let gws := gateways_in_subnet params in
      let ip := ip_address (ip_base (mp_ip_address params)) in
      existsb (λ g, bool_decide (g = ip)) gws || (last_octet_1_or_254 ip && (length gws =? 0)%nat)
  | MacVendor v =>
      match mac_address (ip_base (mp_ip_address params)) ≫= lookup_by_mac oui_db with
      | Some company => String.eqb (normalize v) (normalize company)
      | None => false
      end
  | CustomPattern constraint _ _ _ _ => constraint params
  | ClientResponse probe => bool_decide (is_Some (client_responses params probe))
  | ContainerVirtualization => bool_decide (is_Some (mp_virtualization_metadata params))
  | ManagedDeviceType e =>
      match managed_device params with
      | Some d => eq_ignore_ascii_case (device_type d) e
      | None => false
      end
  | NoPattern => false
  end.

Lemma find_existsb {A} (f : A → bool) l :
  match List.find f l with Some _ => true | None => false end = existsb f l.
Proof. induction l as [|x l IH]; simpl; [done|]. by destruct (f x). Qed.

Lemma any_of_ok rs : is_ok (any_of rs) = existsb is_ok rs.
Proof.
  transitivity (match oks rs with [] => false | _ => true end).
  - unfold any_of. by destruct (oks rs).
  - induction rs as [|[m|e] rs IH]; [done|done|exact IH].
Qed.

Lemma all_of_ok rs : is_ok (all_of rs) = forallb is_ok rs.
Proof.
  transitivity (match errs rs with [] => true | _ => false end).
  - unfold all_of. by destruct (errs rs).
  - induction rs as [|[m|e] rs IH]; [done|exact IH|done].
Qed.

Lemma matches_holds_aux params p : is_ok (matches registry oui_db params p) = holds params p.
Proof.
  induction p as [ps IH|ps IH|q IH|p H1 H2 H3] using Pattern_ind'; cbn [matches holds].
  - rewrite any_of_ok. induction IH as [|q ps Hq _ IHps]; simpl; [done|]. by rewrite Hq, IHps.
  - rewrite all_of_ok. induction IH as [|q ps Hq _ IHps]; simpl; [done|]. by rewrite Hq, IHps.
  - rewrite <- IH. by destruct (matches registry oui_db params q).
  - destruct p; [by destruct (H1 patterns)|by destruct (H2 patterns)|by destruct (H3 p)|..];
      cbn [matches holds].
    + unfold match_port. rewrite <- (find_existsb _ (unbound_ports params)).
      by destruct (List.find _ _).
    + unfold match_endpoint. rewrite <- find_existsb. by destruct (List.find _ _).
    + unfold match_header. rewrite <- find_existsb. by destruct (List.find _ _).
    + unfold match_subnet_type. by case_bool_decide.
    + unfold match_gateway. destruct (existsb _ _); simpl; [done|]. by destruct (_ && _).
    + unfold match_mac_vendor. destruct (mac_address _); simpl; [|done].
      destruct (lookup_by_mac _ _); [|done]. by destruct (String.eqb _ _).
    + by destruct (constraint params).
    + destruct (client_responses params probe); [by rewrite bool_decide_eq_true_2|].
      by rewrite bool_decide_eq_false_2 by (by intros [? ?]).
    + destruct (mp_virtualization_metadata params); [by rewrite bool_decide_eq_true_2|].
      by rewrite bool_decide_eq_false_2 by (by intros [? ?]).
    + unfold match_managed_device. destruct (managed_device params); [|done].
      by destruct (eq_ignore_ascii_case _ _).
    + done.
Qed.

(** A pattern matches exactly when the boolean formula it denotes holds of
    the evidence, so [Not], [AnyOf] and [AllOf] satisfy De Morgan's law, and
    registry and OUI data change only confidence and wording. *)
Theorem matches_holds params p ps :
  is_ok (matches registry oui_db params p) = holds params p
  ∧ is_ok (matches registry oui_db params (Not (AnyOf ps)))
    = is_ok (matches registry oui_db params (AllOf (Not <$> ps))).
Proof.
  rewrite !matches_holds_aux. split; [done|]. cbn [holds].
  induction ps as [|q ps IH]; simpl; [done|]. rewrite negb_orb, IH. done.
Qed.
End Semantics.

Section Evidence.
Context (registry : list ServiceDefinition) (oui_db : Z → option string).

(** A port the scan found: open and unclaimed, answering HTTP, or reported by a
    credentialed probe. *)
Definition evidenced (params : MatchParams) (q : PortType) : Prop :=
  q ∈ unbound_ports params
  ∨ (∃ r, r ∈ endpoint_responses params ∧ q = ep_port_type (endpoint r))
  ∨ (∃ probe ps, client_responses params probe = Some ps ∧ q ∈ ps).

(** Patterns without [Custom], which may invent ports. *)
Fixpoint custom_free (p : Pattern) : bool :=
  match p with
  | CustomPattern _ _ _ _ _ => false
  | AnyOf ps | AllOf ps => forallb custom_free ps
  | Not q => true
  | _ => true
  end.

Lemma sort_dedup_ports_subset l q : q ∈ sort_dedup_ports l → q ∈ l.
Proof. intros Hq%dedup_subset. by rewrite (sort_by_perm port_leb) in Hq. Qed.

Lemma oks_elem {A E} (rs : list (result A E)) m : m ∈ oks rs ↔ Ok m ∈ rs.
Proof.
  unfold oks. rewrite list_elem_of_omap. split.
  - intros ([a|e] & Hr & Hm); simplify_eq. done.
  - intros Hm. by exists (Ok m).
Qed.

Lemma concat_ports_elem (ms : list MatchResult) q :
  q ∈ List.concat (ports <$> ms) → ∃ m, m ∈ ms ∧ q ∈ ports m.
Proof.
  intros Hq%list_elem_of_In%in_concat. destruct Hq as (ps & Hps & Hq).
  apply list_elem_of_In, list_elem_of_fmap in Hps as (m & -> & Hm).
  exists m. split; [done|]. by apply list_elem_of_In.
Qed.

(** The ports of a composite come from its matched parts. *)
Lemma composite_ports rs m q :
  any_of rs = Ok m ∨ all_of rs = Ok m → q ∈ ports m → ∃ m', Ok m' ∈ rs ∧ q ∈ ports m'.
Proof.
  intros Hm Hq. assert (q ∈ List.concat (ports <$> oks rs)) as Hc.
  { destruct Hm as [Hm|Hm].
    - unfold any_of in Hm. destruct (oks rs) eqn:E; [done|]. inv Hm. by apply sort_dedup_ports_subset.
    - unfold all_of in Hm. destruct (errs rs) eqn:E; [|done]. inv Hm. by apply sort_dedup_ports_subset. }
  apply concat_ports_elem in Hc as (m' & Hin & Hq'). exists m'. by rewrite <- oks_elem.
Qed.

Lemma atom_evidenced params p m q :
  custom_free p = true → (∀ ps, p ≠ AnyOf ps) → (∀ ps, p ≠ AllOf ps) → (∀ r, p ≠ Not r) →
  matches registry oui_db params p = Ok m → q ∈ ports m → evidenced params q.
Proof.
  intros Hc H1 H2 H3 Hm Hq.
  destruct p; [by destruct (H1 patterns)|by destruct (H2 patterns)|by destruct (H3 p)|..];
    cbn [matches] in Hm.
  - unfold match_port in Hm. destruct (List.find _ _) as [x|] eqn:E; [|done].
    apply find_elem in E as [Hx _]. left.
    destruct (_ && _); inv Hm; simpl in Hq; by apply list_elem_of_singleton in Hq as ->.
  - unfold match_endpoint in Hm. destruct (List.find _ _) as [x|] eqn:E; [|done]. inv Hm.
    apply find_elem in E as [Hx _]. right. left. exists x. by apply list_elem_of_singleton in Hq.
  - unfold match_header in Hm. destruct (List.find _ _) as [x|] eqn:E; [|done]. inv Hm.
    apply find_elem in E as [Hx _]. right. left. exists x. by apply list_elem_of_singleton in Hq.
  - unfold match_subnet_type in Hm. case_bool_decide; [|done]. inv Hm. by apply not_elem_of_nil in Hq.
  - unfold match_gateway in Hm. repeat case_match; try done; inv Hm; by apply not_elem_of_nil in Hq.
  - unfold match_mac_vendor in Hm. repeat case_match; try done; inv Hm; by apply not_elem_of_nil in Hq.
  - done.
  - destruct (client_responses params probe) as [ps|] eqn:E; [|done]. inv Hm. right. right. eauto.
  - case_match; [|done]. inv Hm. by apply not_elem_of_nil in Hq.
  - unfold match_managed_device in Hm. repeat case_match; try done; inv Hm; by apply not_elem_of_nil in Hq.
  - done.
Qed.

(** The matcher invents no port: every port of a match, through any nesting
    of [AnyOf], [AllOf] and [Not], is an unclaimed open port of the host, the
    port of a recorded HTTP response, or one reported by a credentialed probe. *)
Theorem matched_ports_evidenced params p (Hc : custom_free p = true) m q
    (Hm : matches registry oui_db params p = Ok m) (Hq : q ∈ ports m) :
  evidenced params q.
Proof.
  revert m Hm Hq Hc. induction p as [ps IH|ps IH|p IH|p H1 H2 H3] using Pattern_ind';
    intros m Hm Hq Hc; [| | |by eapply atom_evidenced]; cbn [matches custom_free] in *.
  1, 2: destruct (composite_ports (List.map (matches registry oui_db params) ps) m q)
      as (m' & Hin & Hq'); [by auto|done|];
    apply list_elem_of_In, in_map_iff in Hin as (r & Hr & Hrin);
    rewrite forallb_forall in Hc; rewrite List.Forall_forall in IH;
    apply (IH r Hrin m'); [done|done|by apply Hc].
  destruct (matches registry oui_db params p); [done|]. inv Hm. by apply not_elem_of_nil in Hq.
Qed.

(** *** Confidence *)

Lemma foldl_max_bounds ms c0 :
  let c := foldl (λ c m, max_confidence c (confidence (details m))) c0 ms in
  confidence_rank c0 ≤ confidence_rank c
  ∧ (∀ m, m ∈ ms → confidence_rank (confidence (details m)) ≤ confidence_rank c)
  ∧ (c = c0 ∨ ∃ m, m ∈ ms ∧ c = confidence (details m)).
Proof.
  revert c0. induction ms as [|m ms IH]; intros c0; simpl.
  { split_and!; [lia|by intros m ?%not_elem_of_nil|by left]. }
  destruct (IH (max_confidence c0 (confidence (details m)))) as (H1 & H2 & H3).
  unfold max_confidence in *. set (c := foldl _ _ ms) in *. clearbody c.
  destruct (Z.ltb_spec (confidence_rank c0) (confidence_rank (confidence (details m)))).
  - split_and!; [lia| |].
    + intros m' [->|Hin]%elem_of_cons; [lia|]. by apply H2.
    + right. destruct H3 as [->|(m' & ? & ->)]; [exists m; split; [left|done]|].
      exists m'. split; [by right|done].
  - split_and!; [lia| |].
    + intros m' [->|Hin]%elem_of_cons; [lia|]. by apply H2.
    + destruct H3 as [->|(m' & ? & ->)]; [by left|]. right. exists m'. split; [by right|done].
Qed.

Lemma last_confidence_max cs c :
  c ∈ cs → confidence_rank c ≤ confidence_rank (last_confidence cs).
Proof.
  unfold last_confidence. intros Hc.
  rewrite <- (sort_by_perm (λ a b, confidence_rank a <=? confidence_rank b) cs) in Hc.
  pose proof (sort_by_sorted (λ a b, confidence_rank a <=? confidence_rank b)
    ltac:(intros; rewrite !Z.leb_le; lia) ltac:(intros ? ? ?; rewrite !Z.leb_le; lia) cs) as Hs.
  set (l := sort_by _ cs) in *. clearbody l. revert c Hc.
  induction Hs as [|x l Hs IH Hall]; intros c Hc; [by apply not_elem_of_nil in Hc|].
  destruct l as [|y l]; [by apply list_elem_of_singleton in Hc as ->|].
  change (list.last (x :: y :: l)) with (list.last (y :: l)).
  apply elem_of_cons in Hc as [->|Hc]; [|by apply IH].
  inv Hall. rewrite Z.leb_le in H1. specialize (IH y ltac:(left)). lia.
Qed.

Lemma boosted_bounds cs :
  confidence_rank (last_confidence cs) ≤ confidence_rank (boosted cs)
  ≤ confidence_rank (last_confidence cs) + 1.
Proof. unfold boosted. destruct (last_confidence cs); simpl; repeat case_match; simpl; lia. Qed.

(** A composite is at least as certain as each of its matched parts; an
    [AnyOf] is exactly as certain as its best part (never below [Low]), an
    [AllOf] at most one level above its best part. *)
Theorem composite_confidence rs m :
  (any_of rs = Ok m →
     (∀ m', Ok m' ∈ rs → confidence_rank (confidence (details m'))
                         ≤ confidence_rank (confidence (details m)))
     ∧ (confidence (details m) = Low
        ∨ ∃ m', Ok m' ∈ rs ∧ confidence (details m) = confidence (details m')))
  ∧ (all_of rs = Ok m →
     (∀ m', Ok m' ∈ rs → confidence_rank (confidence (details m'))
                         ≤ confidence_rank (confidence (details m)))
     ∧ confidence_rank (confidence (details m))
       ≤ confidence_rank (last_confidence (confidence ∘ details <$> oks rs)) + 1).
Proof.
  split.
  - unfold any_of. pose proof (foldl_max_bounds (oks rs) Low) as (_ & H2 & H3).
    pose proof (oks_elem rs) as Hel.
    destruct (oks rs) as [|m0 ms]; [done|]. intros Hm. inv Hm. split.
    + intros m' Hin. apply H2. by rewrite Hel.
    + destruct H3 as [H3|(m' & Hin & H3)]; [by left|]. right. exists m'. by rewrite <- Hel.
  - unfold all_of. destruct (errs rs) eqn:E; [|done]. intros Hm. inv Hm.
    cbn [confidence details]. pose proof (boosted_bounds (confidence ∘ details <$> oks rs)).
    split; [|lia]. intros m' Hin. etransitivity; [apply last_confidence_max|apply H].
    apply list_elem_of_fmap. exists m'. by rewrite oks_elem.
Qed.
End Evidence.

(** ** What the scanner is asked to probe *)
Section Coverage.
Context (registry : list ServiceDefinition).

Lemma endpoint_eqb_refl e : endpoint_eqb e e = true.
Proof.
  unfold endpoint_eqb. by rewrite bool_decide_eq_true_2, Z.eqb_refl, String.eqb_refl by done.
Qed.

Lemma concat_fmap_elem {A B} (f : A → list B) l x :
  x ∈ List.concat (f <$> l) ↔ ∃ a, a ∈ l ∧ x ∈ f a.
Proof.
  split.
  - intros Hx%list_elem_of_In%in_concat. destruct Hx as (ys & Hys & Hx).
    apply list_elem_of_In, list_elem_of_fmap in Hys as (a & -> & Ha).
    exists a. split; [done|]. by apply list_elem_of_In.
  - intros (a & Ha & Hx). apply list_elem_of_In, in_concat. exists (f a).
    split; apply list_elem_of_In; [|done]. apply list_elem_of_fmap. eauto.
Qed.

Lemma sort_dedup_ports_covers l q : q ∈ l → ∃ q', q' ∈ sort_dedup_ports l ∧ port_eqb q q' = true.
Proof.
  intros Hq. apply dedup_covers; [apply port_eqb_refl|]. by rewrite (sort_by_perm port_leb).
Qed.

(** The registry-wide scan lists miss nothing a definition asks for: each
    port of a definition's pattern, and each endpoint, is in the list up to
    equality; and the endpoint-only ports are exactly the ports of probed
    endpoints that the port scan does not cover. *)
Theorem scan_lists_cover d (Hd : d ∈ registry) :
  (∀ q, q ∈ pattern_ports (discovery_pattern d) →
     ∃ q', q' ∈ all_discovery_ports registry ∧ port_eqb q q' = true)
  ∧ (∀ e, e ∈ pattern_endpoints (discovery_pattern d) →
     ∃ e', e' ∈ all_discovery_endpoints registry ∧ endpoint_eqb e e' = true)
  ∧ (∀ q, q ∈ endpoint_only_ports registry →
     existsb (λ p, port_eqb p q) (all_discovery_ports registry) = false
     ∧ ∃ e, e ∈ all_discovery_endpoints registry ∧ ep_port_type e = q)
  ∧ (∀ e, e ∈ all_discovery_endpoints registry →
     existsb (λ p, port_eqb p (ep_port_type e)) (all_discovery_ports registry) = true
     ∨ ∃ q, q ∈ endpoint_only_ports registry ∧ port_eqb (ep_port_type e) q = true).
Proof.
  split_and!.
  - intros q Hq. apply sort_dedup_ports_covers, concat_fmap_elem. eauto.
  - intros e He. apply dedup_covers; [apply endpoint_eqb_refl|].
    rewrite (sort_by_perm endpoint_leb). apply concat_fmap_elem. eauto.
  - intros q Hq%sort_dedup_ports_subset. apply list_elem_of_In, filter_In in Hq as [Hq Hb].
    bool_hyps. split; [done|]. apply list_elem_of_In, list_elem_of_fmap in Hq as (e & -> & He). eauto.
  - intros e He. destruct (existsb _ _) eqn:Ee; [by left|]. right.
    apply sort_dedup_ports_covers, list_elem_of_In, filter_In. rewrite Ee.
    split; [|done]. apply list_elem_of_In, list_elem_of_fmap. eauto.
Qed.
End Coverage.

(** *** Discovery of a service *)

(** [from_discovery] yields a service exactly when the pattern matches; the
    service belongs to the scanned host and network, carries the definition, is
    bound to each matched port on the scanned address, or to the address alone
    when no port matched, and each binding points to a port returned with it. *)
Theorem from_discovery_spec registry oui_db now fresh def params :
  (from_discovery registry oui_db now fresh def params = None
     ↔ holds oui_db params (discovery_pattern def) = false)
  ∧ ∀ s prts e, from_discovery registry oui_db now fresh def params = Some (s, prts, e) →
     sv_host_id (sv_base s) = mp_host_id params
     ∧ sv_network_id (sv_base s) = mp_network_id params
     ∧ service_definition (sv_base s) = def_name def
     ∧ is_from_discovery (source (sv_base s)) = true
     ∧ (def_is_generic def = false → sv_name (sv_base s) = def_name def)
     ∧ (∃ m, matches registry oui_db params (discovery_pattern def) = Ok m
          ∧ port_type ∘ p_base <$> prts = ports m)
     ∧ (prts = [] → binding_type ∘ b_base <$> bindings (sv_base s)
                    = [BindIPAddress (ip_id (mp_ip_address params))])
     ∧ (prts ≠ [] → binding_type ∘ b_base <$> bindings (sv_base s)
          = (λ p, BindPort (p_id p) (Some (ip_id (mp_ip_address params)))) <$> prts).
Proof.
  rewrite <- (matches_holds_aux registry). unfold from_discovery.
  destruct (matches registry oui_db params (discovery_pattern def)) as [m|t] eqn:Em; simpl;
    [|by split].
  split; [by split|]. intros s prts e Hs. inv Hs. simpl. split_and!; try done.
  - intros ->. done.
  - exists m. split; [done|]. rewrite fmap_imap.
    transitivity (id <$> ports m); [|by rewrite list_fmap_id].
    by rewrite <- (imap_const id).
  - intros Hnil. destruct (ports m); [done|]. simpl in Hnil. done.
  - intros Hne. destruct (ports m) as [|p0 ps]; [done|].
    rewrite fmap_imap, <- imap_const. done.
Qed.

(** A composite pattern drops the endpoint and the vendor its parts
    matched with, although the loop collects them. *)
Theorem composite_drops_endpoint registry oui_db params ps m :
  matches registry oui_db params (AnyOf ps) = Ok m
  ∨ matches registry oui_db params (AllOf ps) = Ok m →
  mr_endpoint m = None ∧ mac_vendor m = None.
Proof.
  cbn [matches]. unfold any_of, all_of. intros [Hm|Hm].
  - destruct (oks _); [done|]. by inv Hm.
  - destruct (errs _); [|done]. by inv Hm.
Qed.
