(* ===== verification/Definitions.v ===== *)
(** The registry of service definitions ([server/services/definitions/*.rs]):
    one definition per file, in the order of the modules of [mod.rs].

    The name of a definition is its id.  Where two files declare a type of the
    same name the definition is named after its file. *)

From S2P Require Import Prelude Net Ports Discovery Entities ServiceIdentity Patterns.
Local Open Scope Z_scope.
Local Open Scope string_scope.

Module Catalog.

(** The double quote. *)
Definition dq : string := String (Ascii.ascii_of_nat 34) EmptyString.

(** No matched service belongs to the Docker container the scan is about. *)
Definition docker_unmatched (params : MatchParams) : bool :=
  match mp_virtualization_metadata params with
  | Some (VirtDocker info) =>
      match info_id info with
      | Some id =>
          forallb (λ s, match virtualization_metadata (sv_base s) with
                        | Some (VirtDocker other) =>
                            match info_id other with
                            | Some o => negb (String.eqb o id)
                            | None => true
                            end
                        | _ => true
                        end) (matched_services params)
      | None => false
      end
  | _ => false
  end.

Definition podman_unmatched (params : MatchParams) : bool :=
  match mp_virtualization_metadata params with
  | Some (VirtPodman info) =>
      match info_id info with
      | Some id =>
          forallb (λ s, match virtualization_metadata (sv_base s) with
                        | Some (VirtPodman other) =>
                            match info_id other with
                            | Some o => negb (String.eqb o id)
                            | None => true
                            end
                        | _ => true
                        end) (matched_services params)
      | None => false
      end
  | _ => false
  end.

(** The constraint of the generic gateway. *)
Definition gateways_only (gw : string → bool) (params : MatchParams) : bool :=
  negb (existsb (λ s, negb (gw (service_definition (sv_base s)))) (matched_services params)).

Definition DhcpServer : ServiceDefinition := {|
  def_name := "DHCP Server";
  description := "A generic DHCP server";
  def_category := Patterns.NetworkCore;
  discovery_pattern := PortPattern Ports.Dhcp;
  def_is_generic := true;
  logo_url := "";
  logo_needs_white_background := false |}.

(** [gw]: whether the definition of a matched service is a gateway. *)
Definition Gateway (gw : string → bool) : ServiceDefinition := {|
  def_name := "Gateway";
  description := "A generic gateway";
  def_category := Patterns.NetworkCore;
  discovery_pattern :=
    AllOf
      [IsGateway;
       CustomPattern (gateways_only gw) (λ _, [])
         "No other gateway services matched" "A gateway service has already been matched" Low];
  def_is_generic := true;
  logo_url := "";
  logo_needs_white_background := false |}.

Definition NtpServer : ServiceDefinition := {|
  def_name := "NTP Server";
  description := "Network Time Protocol server";
  def_category := Patterns.NetworkCore;
  discovery_pattern := PortPattern Ports.Ntp;
  def_is_generic := true;
  logo_url := "";
  logo_needs_white_background := false |}.

Definition RemoteDesktop : ServiceDefinition := {|
  def_name := "Remote Desktop";
  description := "Remote Desktop Protocol (RDP)";
  def_category := Patterns.RemoteAccess;
  discovery_pattern := PortPattern Ports.Rdp;
  def_is_generic := true;
  logo_url := "";
  logo_needs_white_background := false |}.

Definition RustDesk : ServiceDefinition := {|
  def_name := "RustDesk";
  description := "Self-hosted remote desktop server";
  def_category := Patterns.RemoteAccess;
  discovery_pattern := EndpointPattern (new_tcp 21114) "/" "RustDesk API Admin" None;
  def_is_generic := false;
  logo_url := "https://cdn.jsdelivr.net/gh/homarr-labs/dashboard-icons/svg/rustdesk.svg";
  logo_needs_white_background := false |}.

Definition SaltMaster : ServiceDefinition := {|
  def_name := "Salt Master";
  description := "A Salt master server acts as a central control bus for the clients, which are called minions.";
  def_category := Patterns.Development;
  discovery_pattern :=
    AllOf
      [PortPattern (new_tcp 4505);
       PortPattern (new_tcp 4506);
       Not (PortPattern (new_tcp 8022))];
  def_is_generic := false;
  logo_url := "https://cdn.jsdelivr.net/gh/homarr-labs/dashboard-icons/svg/salt-project.svg";
  logo_needs_white_background := false |}.

Definition SaltProxy : ServiceDefinition := {|
  def_name := "Salt Proxy";
  description := "A Salt Proxy server acts as a proxy between the Salt Master and the minions.";
  def_category := Patterns.Development;
  discovery_pattern :=
    AllOf [PortPattern (new_tcp 4505); PortPattern (new_tcp 4506); PortPattern (new_tcp 8022)];
  def_is_generic := false;
  logo_url := "https://cdn.jsdelivr.net/gh/homarr-labs/dashboard-icons/svg/salt-project.svg";
  logo_needs_white_background := false |}.

Definition Snmp : ServiceDefinition := {|
  def_name := "SNMP";
  description := "Simple Network Management Protocol";
  def_category := Patterns.NetworkCore;
  discovery_pattern := ClientResponse ProbeSnmp;
  def_is_generic := true;
  logo_url := "";
  logo_needs_white_background := false |}.

Definition Ssh : ServiceDefinition := {|
  def_name := "SSH";
  description := "Secure Shell remote access";
  def_category := Patterns.RemoteAccess;
  discovery_pattern := PortPattern Ports.Ssh;
  def_is_generic := true;
  logo_url := "";
  logo_needs_white_background := false |}.

Definition Switch : ServiceDefinition := {|
  def_name := "Switch";
  description := "Generic network switch for local area networking";
  def_category := Patterns.NetworkCore;
  discovery_pattern :=
    AllOf [Not (IsGateway); AllOf [PortPattern Ports.Http; PortPattern Ports.Telnet]];
  def_is_generic := true;
  logo_url := "";
  logo_needs_white_background := false |}.

Definition Telnet : ServiceDefinition := {|
  def_name := "Telnet";
  description := "Telnet remote access";
  def_category := Patterns.RemoteAccess;
  discovery_pattern := PortPattern Ports.Telnet;
  def_is_generic := true;
  logo_url := "";
  logo_needs_white_background := false |}.

Definition Termix : ServiceDefinition := {|
  def_name := "Termix";
  description := "Web-based server management with SSH terminal, tunneling, and file editing";
  def_category := Patterns.RemoteAccess;
  discovery_pattern :=
    AnyOf
      [EndpointPattern Ports.Http "/" "<title>Termix</title>" None;
       EndpointPattern Ports.Https "/" "<title>Termix</title>" None];
  def_is_generic := false;
  logo_url := "https://cdn.jsdelivr.net/gh/homarr-labs/dashboard-icons/svg/termix.svg";
  logo_needs_white_background := false |}.

Definition UnifiGateway : ServiceDefinition := {|
  def_name := "UniFi Gateway";
  description := "Ubiquiti UniFi security gateway or Dream Machine";
  def_category := Patterns.NetworkCore;
  discovery_pattern :=
    AllOf [MacVendor "Ubiquiti Inc"; AnyOf [ManagedDeviceType "ugw"; ManagedDeviceType "udm"]];
  def_is_generic := false;
  logo_url := "https://cdn.jsdelivr.net/gh/homarr-labs/dashboard-icons/svg/unifi.svg";
  logo_needs_white_background := false |}.

Definition UnifiSwitch : ServiceDefinition := {|
  def_name := "UniFi Switch";
  description := "Ubiquiti UniFi managed switch";
  def_category := Patterns.NetworkCore;
  discovery_pattern := AllOf [MacVendor "Ubiquiti Inc"; ManagedDeviceType "usw"];
  def_is_generic := false;
  logo_url := "https://cdn.jsdelivr.net/gh/homarr-labs/dashboard-icons/svg/unifi.svg";
  logo_needs_white_background := false |}.

Definition AccessPoint : ServiceDefinition := {|
  def_name := "Access Point";
  description := "A generic wireless access point for WiFi connectivity";
  def_category := Patterns.NetworkAccess;
  discovery_pattern := NoPattern;
  def_is_generic := true;
  logo_url := "";
  logo_needs_white_background := false |}.

Definition EeroGateway : ServiceDefinition := {|
  def_name := "Eero Gateway";
  description := "Eero device providing routing and gateway services";
  def_category := Patterns.NetworkAccess;
  discovery_pattern := AllOf [MacVendor "eero Inc"; IsGateway];
  def_is_generic := false;
  logo_url := "https://www.vectorlogo.zone/logos/eero/eero-icon.svg";
  logo_needs_white_background := true |}.

Definition EeroRepeater : ServiceDefinition := {|
  def_name := "Eero Repeater";
  description := "Eero device providing mesh network services";
  def_category := Patterns.NetworkAccess;
  discovery_pattern := AllOf [MacVendor "eero Inc"; Not (IsGateway)];
  def_is_generic := false;
  logo_url := "https://www.vectorlogo.zone/logos/eero/eero-icon.svg";
  logo_needs_white_background := true |}.

Definition FiosExtender : ServiceDefinition := {|
  def_name := "Fios Extender";
  description := "Fios device providing mesh networking services";
  def_category := Patterns.NetworkAccess;
  discovery_pattern := AllOf [EndpointPattern Ports.Http "/#/login/" "fios" None; Not (IsGateway)];
  def_is_generic := false;
  logo_url := "https://cdn.jsdelivr.net/gh/homarr-labs/dashboard-icons/svg/fios.svg";
  logo_needs_white_background := true |}.

Definition FiosGateway : ServiceDefinition := {|
  def_name := "Fios Gateway";
  description := "Fios device providing routing and gateway services";
  def_category := Patterns.NetworkAccess;
  discovery_pattern := AllOf [EndpointPattern Ports.Http "/#/login/" "fios" None; IsGateway];
  def_is_generic := false;
  logo_url := "https://cdn.jsdelivr.net/gh/homarr-labs/dashboard-icons/svg/fios.svg";
  logo_needs_white_background := true |}.

(** [google_nest_repeater.rs]. *)
Definition GoogleNestRepeater : ServiceDefinition := {|
  def_name := "Google Nest repeater";
  description := "Google Nest Wifi repeater";
  def_category := Patterns.NetworkAccess;
  discovery_pattern :=
    AllOf
      [AnyOf [MacVendor "Nest Labs Inc."; MacVendor "Google, Inc."];
       Not (IsGateway);
       EndpointPattern Ports.Http "/" "Nest Wifi" None];
  def_is_generic := false;
  logo_url := "https://cdn.jsdelivr.net/gh/homarr-labs/dashboard-icons/svg/google-home.svg";
  logo_needs_white_background := false |}.

(** [google_nest_router.rs]. *)
Definition GoogleNestRouter : ServiceDefinition := {|
  def_name := "Google Nest router";
  description := "Google Nest Wifi router";
  def_category := Patterns.NetworkAccess;
  discovery_pattern :=
    AllOf
      [AnyOf [MacVendor "Nest Labs Inc."; MacVendor "Google, Inc."];
       IsGateway;
       EndpointPattern Ports.Http "/" "Nest Wifi" None];
  def_is_generic := false;
  logo_url := "https://cdn.jsdelivr.net/gh/homarr-labs/dashboard-icons/svg/google-home.svg";
  logo_needs_white_background := false |}.

Definition InstantOn : ServiceDefinition := {|
  def_name := "Instant On";
  description := "Managed through the HPE Networking Instant On cloud portal";
  def_category := Patterns.NetworkAccess;
  discovery_pattern :=
    AnyOf
      [ClientResponse ProbeInstantOn;
       ManagedDeviceType "SWITCH";
       ManagedDeviceType "STACK";
       ManagedDeviceType "ACCESS_POINT";
       ManagedDeviceType "GATEWAY"];
  def_is_generic := false;
  logo_url := "https://cdn.jsdelivr.net/gh/homarr-labs/dashboard-icons/svg/hpe.svg";
  logo_needs_white_background := false |}.

Definition InstantOnAccessPoint : ServiceDefinition := {|
  def_name := "Instant On Access Point";
  description := "HPE Networking Instant On wireless access point";
  def_category := Patterns.NetworkAccess;
  discovery_pattern := ManagedDeviceType "ACCESS_POINT";
  def_is_generic := false;
  logo_url := "https://cdn.jsdelivr.net/gh/homarr-labs/dashboard-icons/svg/hpe.svg";
  logo_needs_white_background := false |}.

Definition InstantOnGateway : ServiceDefinition := {|
  def_name := "Instant On Gateway";
  description := "HPE Networking Instant On gateway";
  def_category := Patterns.NetworkAccess;
  discovery_pattern := ManagedDeviceType "GATEWAY";
  def_is_generic := false;
  logo_url := "https://cdn.jsdelivr.net/gh/homarr-labs/dashboard-icons/svg/hpe.svg";
  logo_needs_white_background := false |}.

Definition InstantOnSwitch : ServiceDefinition := {|
  def_name := "Instant On Switch";
  description := "HPE Networking Instant On switch";
  def_category := Patterns.NetworkAccess;
  discovery_pattern := AnyOf [ManagedDeviceType "SWITCH"; ManagedDeviceType "STACK"];
  def_is_generic := false;
  logo_url := "https://cdn.jsdelivr.net/gh/homarr-labs/dashboard-icons/svg/hpe.svg";
  logo_needs_white_background := false |}.

Definition Mikrotik : ServiceDefinition := {|
  def_name := "MikroTik";
  description := "MikroTik RouterOS network device";
  def_category := Patterns.NetworkAppliance;
  discovery_pattern := EndpointPattern Ports.Http "/" "MikroTik RouterOS" None;
  def_is_generic := false;
  logo_url := "https://cdn.jsdelivr.net/gh/homarr-labs/dashboard-icons/svg/mikrotik.svg";
  logo_needs_white_background := false |}.

Definition TpLinkEap : ServiceDefinition := {|
  def_name := "TP-Link EAP";
  description := "TP-Link EAP wireless access point";
  def_category := Patterns.NetworkAccess;
  discovery_pattern :=
    AllOf
      [MacVendor "TP-LINK TECHNOLOGIES CO.,LTD";
       EndpointPattern Ports.Http "/" "tp-link" None];
  def_is_generic := false;
  logo_url := "https://cdn.jsdelivr.net/gh/homarr-labs/dashboard-icons/svg/tp-link.svg";
  logo_needs_white_background := false |}.

Definition UbiquitiDiscovery : ServiceDefinition := {|
  def_name := "Ubiquiti Discovery";
  description := "Ubiquiti device discovery service";
  def_category := Patterns.NetworkAccess;
  discovery_pattern := AllOf [MacVendor "Ubiquiti Inc"; PortPattern (new_udp 10001)];
  def_is_generic := false;
  logo_url := "https://cdn.jsdelivr.net/gh/homarr-labs/dashboard-icons/svg/ubiquiti.svg";
  logo_needs_white_background := false |}.

Definition UnifiAccessPoint : ServiceDefinition := {|
  def_name := "Unifi Access Point";
  description := "Ubiquiti UniFi wireless access point";
  def_category := Patterns.NetworkAccess;
  discovery_pattern :=
    AllOf
      [MacVendor "Ubiquiti Inc";
       AnyOf [EndpointPattern Ports.Http "/" "Unifi" None; ManagedDeviceType "uap"]];
  def_is_generic := false;
  logo_url := "https://cdn.jsdelivr.net/gh/homarr-labs/dashboard-icons/svg/unifi.svg";
  logo_needs_white_background := false |}.

Definition UnifiController : ServiceDefinition := {|
  def_name := "UniFi Controller";
  description := "Ubiquiti UniFi network controller";
  def_category := Patterns.NetworkAccess;
  discovery_pattern :=
    AnyOf
      [EndpointPattern Ports.Https8443 "/manage" "UniFi" None;
       ClientResponse ProbeUnifiController];
  def_is_generic := false;
  logo_url := "https://cdn.jsdelivr.net/gh/homarr-labs/dashboard-icons/svg/unifi.svg";
  logo_needs_white_background := false |}.

Definition CrowdSec : ServiceDefinition := {|
  def_name := "CrowdSec";
  description := "Crowdsourced protection against malicious IPs";
  def_category := Patterns.Monitoring;
  discovery_pattern :=
    EndpointPattern Ports.Http8080 "/v1/allowlists" "cookie token is empty" (Some (401, 401));
  def_is_generic := false;
  logo_url := "https://cdn.jsdelivr.net/gh/homarr-labs/dashboard-icons/svg/crowdsec.svg";
  logo_needs_white_background := false |}.

Definition Firewall : ServiceDefinition := {|
  def_name := "Firewall";
  description := "Generic network security appliance";
  def_category := Patterns.NetworkAppliance;
  discovery_pattern := NoPattern;
  def_is_generic := true;
  logo_url := "";
  logo_needs_white_background := false |}.

Definition Fortinet : ServiceDefinition := {|
  def_name := "Fortinet";
  description := "Fortinet security appliance";
  def_category := Patterns.NetworkAppliance;
  discovery_pattern := EndpointPattern Ports.Http "/login" "fortinet" None;
  def_is_generic := false;
  logo_url := "https://cdn.jsdelivr.net/gh/homarr-labs/dashboard-icons/svg/fortinet.svg";
  logo_needs_white_background := false |}.

Definition OpnSense : ServiceDefinition := {|
  def_name := "OPNsense";
  description := "Open-source firewall and routing platform";
  def_category := Patterns.NetworkAppliance;
  discovery_pattern :=
    AllOf
      [AnyOf
         [EndpointPattern Ports.Http "/" "opnsense" None;
          EndpointPattern Ports.Https "/" "opnsense" None];
       AnyOf
         [PortPattern Ports.DnsTcp;
          PortPattern Ports.DnsUdp;
          PortPattern Ports.Ssh;
          PortPattern Ports.Ntp;
          PortPattern Ports.Dhcp]];
  def_is_generic := false;
  logo_url := "https://cdn.jsdelivr.net/gh/homarr-labs/dashboard-icons/svg/opnsense.svg";
  logo_needs_white_background := false |}.

Definition PfBlockerNg : ServiceDefinition := {|
  def_name := "pfBlockerNG";
  description := "PfSense package for DNS/IP blocking";
  def_category := Patterns.AdBlock;
  discovery_pattern :=
    AllOf
      [AllOf [PortPattern Ports.DnsTcp; PortPattern Ports.DnsUdp];
       EndpointPattern Ports.Http "/pfblockerng" "pfblockerng" None];
  def_is_generic := false;
  logo_url := "https://cdn.jsdelivr.net/gh/homarr-labs/dashboard-icons/svg/pfsense.svg";
  logo_needs_white_background := false |}.

Definition PfSense : ServiceDefinition := {|
  def_name := "pfSense";
  description := "Open-source firewall and router platform";
  def_category := Patterns.NetworkAppliance;
  discovery_pattern := AllOf [PortPattern Ports.Ssh; EndpointPattern Ports.Http "/" "pfsense" None];
  def_is_generic := false;
  logo_url := "https://cdn.jsdelivr.net/gh/homarr-labs/dashboard-icons/svg/pfsense.svg";
  logo_needs_white_background := false |}.

Definition Bind9 : ServiceDefinition := {|
  def_name := "Bind9";
  description := "Berkeley Internet Name Domain DNS server";
  def_category := Patterns.DNS;
  discovery_pattern := AllOf [PortPattern Ports.DnsUdp; PortPattern (new_tcp 8053)];
  def_is_generic := false;
  logo_url := "";
  logo_needs_white_background := false |}.

Definition DnsServer : ServiceDefinition := {|
  def_name := "DNS Server";
  description := "A generic DNS server";
  def_category := Patterns.DNS;
  discovery_pattern := AnyOf [PortPattern Ports.DnsTcp; PortPattern Ports.DnsUdp];
  def_is_generic := true;
  logo_url := "";
  logo_needs_white_background := false |}.

Definition PowerDNS : ServiceDefinition := {|
  def_name := "PowerDNS";
  description := "Authoritative DNS server with API";
  def_category := Patterns.DNS;
  discovery_pattern :=
    AllOf [PortPattern Ports.DnsUdp; PortPattern Ports.DnsTcp; PortPattern Ports.Http8081];
  def_is_generic := false;
  logo_url := "https://cdn.jsdelivr.net/gh/homarr-labs/dashboard-icons/svg/powerdns.svg";
  logo_needs_white_background := false |}.

Definition Unbound : ServiceDefinition := {|
  def_name := "Unbound DNS";
  description := "Recursive DNS resolver with control ip_address";
  def_category := Patterns.DNS;
  discovery_pattern := AllOf [PortPattern Ports.DnsUdp; PortPattern (new_tcp 8953)];
  def_is_generic := false;
  logo_url := "https://cdn.jsdelivr.net/gh/homarr-labs/dashboard-icons/svg/unbound.svg";
  logo_needs_white_background := false |}.

Definition Cloudflared : ServiceDefinition := {|
  def_name := "Cloudflared";
  description := "Cloudflare tunnel daemon";
  def_category := Patterns.ReverseProxy;
  discovery_pattern := EndpointPattern Ports.Http "/metrics" "cloudflared" None;
  def_is_generic := false;
  logo_url := "https://cdn.jsdelivr.net/gh/homarr-labs/dashboard-icons/svg/cloudflare.svg";
  logo_needs_white_background := false |}.

Definition OpenVpn : ServiceDefinition := {|
  def_name := "OpenVPN";
  description := "OpenVPN server";
  def_category := Patterns.VPN;
  discovery_pattern := PortPattern Ports.OpenVPN;
  def_is_generic := true;
  logo_url := "https://cdn.jsdelivr.net/gh/homarr-labs/dashboard-icons/svg/openvpn.svg";
  logo_needs_white_background := false |}.

Definition StrongSwan : ServiceDefinition := {|
  def_name := "StrongSwan";
  description := "Open-source IPsec VPN daemon (IKE / NAT-T)";
  def_category := Patterns.VPN;
  discovery_pattern := AllOf [PortPattern (new_udp 500); PortPattern (new_udp 4500)];
  def_is_generic := false;
  logo_url := "";
  logo_needs_white_background := false |}.

Definition WgDashboard : ServiceDefinition := {|
  def_name := "WGDashboard";
  description := "Wireguard dashboard for visualizing and managing wireguard clients and server";
  def_category := Patterns.Dashboard;
  discovery_pattern := AllOf [PortPattern (new_tcp 10086); Not (SubnetIsType SVpnTunnel)];
  def_is_generic := false;
  logo_url := "https://cdn.jsdelivr.net/gh/homarr-labs/dashboard-icons/svg/wireguard.svg";
  logo_needs_white_background := false |}.

Definition Wireguard : ServiceDefinition := {|
  def_name := "WireGuard";
  description := "WireGuard VPN";
  def_category := Patterns.VPN;
  discovery_pattern := PortPattern Ports.Wireguard;
  def_is_generic := true;
  logo_url := "https://cdn.jsdelivr.net/gh/homarr-labs/dashboard-icons/svg/wireguard.svg";
  logo_needs_white_background := false |}.

Definition Caddy : ServiceDefinition := {|
  def_name := "Caddy";
  description := "Lightweight & versatile reverse proxy, web & file server";
  def_category := Patterns.ReverseProxy;
  discovery_pattern := EndpointPattern (new_tcp 2019) "/reverse_proxy/upstreams" "num_requests" None;
  def_is_generic := false;
  logo_url := "https://cdn.jsdelivr.net/gh/homarr-labs/dashboard-icons/svg/caddy.svg";
  logo_needs_white_background := false |}.

Definition HAProxy : ServiceDefinition := {|
  def_name := "HAProxy";
  description := "Load balancer and proxy";
  def_category := Patterns.ReverseProxy;
  discovery_pattern := EndpointPattern (new_tcp 8404) "/stats" "haproxy" None;
  def_is_generic := false;
  logo_url := "https://cdn.jsdelivr.net/gh/homarr-labs/dashboard-icons/svg/haproxy.svg";
  logo_needs_white_background := false |}.

Definition Iis : ServiceDefinition := {|
  def_name := "Microsoft IIS";
  description := "Microsoft Internet Information Services web server";
  def_category := Patterns.ReverseProxy;
  discovery_pattern := HeaderPattern None "Server" "Microsoft-IIS" None;
  def_is_generic := false;
  logo_url := "";
  logo_needs_white_background := false |}.

Definition Kong : ServiceDefinition := {|
  def_name := "Kong";
  description := "API gateway";
  def_category := Patterns.ReverseProxy;
  discovery_pattern := EndpointPattern (new_tcp 8001) "/" "kong" None;
  def_is_generic := false;
  logo_url := "https://simpleicons.org/icons/kong.svg";
  logo_needs_white_background := true |}.

Definition NginxProxyManager : ServiceDefinition := {|
  def_name := "Nginx Proxy Manager";
  description := "Web-based Nginx proxy management ip_address";
  def_category := Patterns.ReverseProxy;
  discovery_pattern := EndpointPattern Ports.Http "" "nginx proxy manager" None;
  def_is_generic := false;
  logo_url := "https://cdn.jsdelivr.net/gh/homarr-labs/dashboard-icons/svg/nginx-proxy-manager.svg";
  logo_needs_white_background := false |}.

Definition Traefik : ServiceDefinition := {|
  def_name := "Traefik";
  description := "Modern reverse proxy and load balancer";
  def_category := Patterns.ReverseProxy;
  discovery_pattern := EndpointPattern Ports.Http "/dashboard" "traefik" None;
  def_is_generic := false;
  logo_url := "https://cdn.jsdelivr.net/gh/homarr-labs/dashboard-icons/svg/traefik.svg";
  logo_needs_white_background := false |}.

Definition Tyk : ServiceDefinition := {|
  def_name := "Tyk";
  description := "API gateway";
  def_category := Patterns.ReverseProxy;
  discovery_pattern := EndpointPattern Ports.Http8080 "/hello" "tyk" (Some (200, 300));
  def_is_generic := false;
  logo_url := "https://www.vectorlogo.zone/logos/tyk/tyk-icon.svg";
  logo_needs_white_background := false |}.

Definition AdguardHome : ServiceDefinition := {|
  def_name := "Adguard Home";
  description := "Network-wide ad and tracker blocking";
  def_category := Patterns.AdBlock;
  discovery_pattern :=
    AllOf
      [AllOf [PortPattern Ports.DnsUdp; PortPattern Ports.DnsTcp];
       EndpointPattern Ports.Http "/" "AdGuard Home" None];
  def_is_generic := false;
  logo_url := "https://cdn.jsdelivr.net/gh/homarr-labs/dashboard-icons/svg/adguard-home.svg";
  logo_needs_white_background := false |}.

Definition PiHole : ServiceDefinition := {|
  def_name := "Pi-Hole";
  description := "Network-wide ad blocking DNS service";
  def_category := Patterns.AdBlock;
  discovery_pattern :=
    AllOf
      [AnyOf [PortPattern Ports.DnsUdp; PortPattern Ports.DnsTcp];
       EndpointPattern Ports.Http "/admin" "pi-hole" None];
  def_is_generic := false;
  logo_url := "https://cdn.jsdelivr.net/gh/homarr-labs/dashboard-icons/svg/pi-hole.svg";
  logo_needs_white_background := false |}.

Definition Ceph : ServiceDefinition := {|
  def_name := "Ceph";
  description := "Distributed storage";
  def_category := Patterns.CatStorage;
  discovery_pattern := EndpointPattern Ports.Http8080 "/" "ceph dashboard" None;
  def_is_generic := false;
  logo_url := "https://cdn.jsdelivr.net/gh/homarr-labs/dashboard-icons/svg/ceph.svg";
  logo_needs_white_background := false |}.

Definition FileServer : ServiceDefinition := {|
  def_name := "FTP Server";
  description := "Generic FTP file sharing service";
  def_category := Patterns.CatStorage;
  discovery_pattern := PortPattern Ports.Ftp;
  def_is_generic := true;
  logo_url := "";
  logo_needs_white_background := false |}.

Definition FileZillaServer : ServiceDefinition := {|
  def_name := "FileZilla Server";
  description := "FTP server";
  def_category := Patterns.CatStorage;
  discovery_pattern := AllOf [PortPattern Ports.Ftp; PortPattern (new_tcp 14147)];
  def_is_generic := false;
  logo_url := "https://cdn.jsdelivr.net/gh/homarr-labs/dashboard-icons/svg/filezilla.svg";
  logo_needs_white_background := false |}.

Definition MinIO : ServiceDefinition := {|
  def_name := "MinIO";
  description := "Object storage";
  def_category := Patterns.CatStorage;
  discovery_pattern := EndpointPattern Ports.Http9000 "/minio/health/live" "" (Some (200, 300));
  def_is_generic := false;
  logo_url := "https://cdn.jsdelivr.net/gh/homarr-labs/dashboard-icons/svg/minio.svg";
  logo_needs_white_background := true |}.

Definition NextCloud : ServiceDefinition := {|
  def_name := "NextCloud";
  description := "Self-hosted cloud storage and collaboration platform";
  def_category := Patterns.Office;
  discovery_pattern := EndpointPattern Ports.Http "/core/css/server.css" "Nextcloud GmbH" None;
  def_is_generic := false;
  logo_url := "https://cdn.jsdelivr.net/gh/homarr-labs/dashboard-icons/svg/nextcloud.svg";
  logo_needs_white_background := false |}.

Definition NFSServer : ServiceDefinition := {|
  def_name := "NFS";
  description := "Generic network file system";
  def_category := Patterns.CatStorage;
  discovery_pattern := PortPattern Ports.Nfs;
  def_is_generic := true;
  logo_url := "";
  logo_needs_white_background := false |}.

Definition OpenMediaVault : ServiceDefinition := {|
  def_name := "OpenMediaVault";
  description := "Debian-based NAS solution";
  def_category := Patterns.CatStorage;
  discovery_pattern :=
    AllOf [PortPattern Ports.Samba; EndpointPattern Ports.Http "/" "openmediavault" None];
  def_is_generic := false;
  logo_url := "https://cdn.jsdelivr.net/gh/homarr-labs/dashboard-icons/svg/openmediavault.svg";
  logo_needs_white_background := false |}.

Definition OwnCloud : ServiceDefinition := {|
  def_name := "ownCloud";
  description := "File sync and share";
  def_category := Patterns.Office;
  discovery_pattern := EndpointPattern Ports.Http "/status.php" "owncloud" None;
  def_is_generic := false;
  logo_url := "https://cdn.jsdelivr.net/gh/homarr-labs/dashboard-icons/svg/owncloud.svg";
  logo_needs_white_background := true |}.

Definition QNAP : ServiceDefinition := {|
  def_name := "QNAP NAS";
  description := "QNAP network attached storage system";
  def_category := Patterns.CatStorage;
  discovery_pattern :=
    AnyOf
      [AllOf
         [PortPattern Ports.Ftp;
          AnyOf
            [EndpointPattern Ports.Http "/" "QNAP" None;
             EndpointPattern Ports.Http8080 "/" "QNAP" None]];
       HeaderPattern (Some Ports.Https) "server" "http server" None];
  def_is_generic := false;
  logo_url := "https://cdn.jsdelivr.net/gh/homarr-labs/dashboard-icons/svg/qnap.svg";
  logo_needs_white_background := false |}.

Definition Samba : ServiceDefinition := {|
  def_name := "Samba";
  description := "Generic SMB file server";
  def_category := Patterns.CatStorage;
  discovery_pattern := PortPattern Ports.Samba;
  def_is_generic := true;
  logo_url := "";
  logo_needs_white_background := false |}.

Definition Seafile : ServiceDefinition := {|
  def_name := "Seafile";
  description := "File hosting platform";
  def_category := Patterns.Office;
  discovery_pattern := EndpointPattern (new_tcp 8000) "/api2/ping" "seafile" None;
  def_is_generic := false;
  logo_url := "https://cdn.jsdelivr.net/gh/homarr-labs/dashboard-icons/svg/seafile.svg";
  logo_needs_white_background := false |}.

Definition Syncthing : ServiceDefinition := {|
  def_name := "Syncthing";
  description := "Continuous file synchronization service";
  def_category := Patterns.Backup;
  discovery_pattern :=
    AllOf [EndpointPattern Ports.Http "/" "Syncthing" None; PortPattern (new_tcp 22000)];
  def_is_generic := false;
  logo_url := "https://cdn.jsdelivr.net/gh/homarr-labs/dashboard-icons/svg/syncthing.svg";
  logo_needs_white_background := false |}.

Definition Synology : ServiceDefinition := {|
  def_name := "Synology DSM";
  description := "Synology DiskStation Manager NAS system";
  def_category := Patterns.CatStorage;
  discovery_pattern :=
    AnyOf
      [AllOf [EndpointPattern Ports.Http "/" "synology" None; PortPattern Ports.Ftp];
       EndpointPattern Ports.Http "/" "Synology Web Station" None];
  def_is_generic := false;
  logo_url := "https://cdn.jsdelivr.net/gh/homarr-labs/dashboard-icons/svg/synology.svg";
  logo_needs_white_background := false |}.

Definition TrueNAS : ServiceDefinition := {|
  def_name := "TrueNAS";
  description := "Open-source network attached storage system";
  def_category := Patterns.CatStorage;
  discovery_pattern :=
    AllOf [PortPattern Ports.Samba; EndpointPattern Ports.Http "/" "TrueNAS" None];
  def_is_generic := false;
  logo_url := "https://cdn.jsdelivr.net/gh/homarr-labs/dashboard-icons/svg/truenas.svg";
  logo_needs_white_background := false |}.

Definition Bacula : ServiceDefinition := {|
  def_name := "Bacula";
  description := "Network backup solution";
  def_category := Patterns.Backup;
  discovery_pattern := PortPattern (new_tcp 9101);
  def_is_generic := false;
  logo_url := "https://cdn.jsdelivr.net/gh/homarr-labs/dashboard-icons/png/bacula.png";
  logo_needs_white_background := false |}.

Definition Duplicati : ServiceDefinition := {|
  def_name := "Duplicati";
  description := "Cross-platform backup client with encryption";
  def_category := Patterns.Backup;
  discovery_pattern := EndpointPattern (new_tcp 8200) "/ngax/index.html" "Duplicati" None;
  def_is_generic := false;
  logo_url := "https://cdn.jsdelivr.net/gh/homarr-labs/dashboard-icons/svg/duplicati.svg";
  logo_needs_white_background := false |}.

Definition ProxmoxBackupServer : ServiceDefinition := {|
  def_name := "Proxmox Backup Server";
  description := "Encrypted, incremental and deduplicated backups for Proxmox VMs, LXCs, and hosts";
  def_category := Patterns.Backup;
  discovery_pattern :=
    AnyOf
      [EndpointPattern (new_tcp 8007) "/" "proxmox-backup-gui" None;
       PortPattern (new_tcp 8007)];
  def_is_generic := false;
  logo_url := "https://cdn.jsdelivr.net/gh/homarr-labs/dashboard-icons/svg/proxmox.svg";
  logo_needs_white_background := false |}.

Definition Restic : ServiceDefinition := {|
  def_name := "Restic";
  description := "Fast and secure backup program";
  def_category := Patterns.Backup;
  discovery_pattern :=
    AllOf [PortPattern (new_tcp 8000); EndpointPattern Ports.Http "/" "restic" None];
  def_is_generic := false;
  logo_url := "https://cdn.jsdelivr.net/gh/homarr-labs/dashboard-icons/png/restic.png";
  logo_needs_white_background := false |}.

Definition Unimus : ServiceDefinition := {|
  def_name := "Unimus";
  description := "Network device configuration backup and change management";
  def_category := Patterns.Backup;
  discovery_pattern := EndpointPattern (new_tcp 8085) "/" "<title>Unimus</title>" None;
  def_is_generic := false;
  logo_url := "https://cdn.jsdelivr.net/gh/homarr-labs/dashboard-icons/svg/unimus.svg";
  logo_needs_white_background := false |}.

Definition Veeam : ServiceDefinition := {|
  def_name := "Veeam";
  description := "Backup and replication";
  def_category := Patterns.Backup;
  discovery_pattern := PortPattern (new_tcp 9392);
  def_is_generic := false;
  logo_url := "https://cdn.jsdelivr.net/gh/homarr-labs/dashboard-icons/svg/veeam.svg";
  logo_needs_white_background := false |}.

Definition AudioBookShelf : ServiceDefinition := {|
  def_name := "AudioBookShelf";
  description := "Self-hosted audiobook and podcast server.";
  def_category := Patterns.Media;
  discovery_pattern := PortPattern (new_tcp 13378);
  def_is_generic := false;
  logo_url := "https://cdn.jsdelivr.net/gh/homarr-labs/dashboard-icons/svg/audiobookshelf.svg";
  logo_needs_white_background := false |}.

Definition Bazarr : ServiceDefinition := {|
  def_name := "Bazarr";
  description := "A companion application to Sonarr and Radarr that manages and downloads subtitles";
  def_category := Patterns.Media;
  discovery_pattern := PortPattern (new_tcp 6767);
  def_is_generic := false;
  logo_url := "https://cdn.jsdelivr.net/gh/homarr-labs/dashboard-icons/svg/bazarr.svg";
  logo_needs_white_background := false |}.

Definition BookLore : ServiceDefinition := {|
  def_name := "BookLore";
  description := "A self-hosted, multi-user digital library.";
  def_category := Patterns.Media;
  discovery_pattern := EndpointPattern (new_tcp 6060) "/" "booklore-app" None;
  def_is_generic := false;
  logo_url := "https://cdn.jsdelivr.net/gh/homarr-labs/dashboard-icons/svg/book-lore.svg";
  logo_needs_white_background := false |}.

Definition Emby : ServiceDefinition := {|
  def_name := "Emby";
  description := "Personal media server with streaming capabilities";
  def_category := Patterns.Media;
  discovery_pattern := EndpointPattern (new_tcp 8096) "/emby/System/Info/Public" "Emby" None;
  def_is_generic := false;
  logo_url := "https://cdn.jsdelivr.net/gh/homarr-labs/dashboard-icons/svg/emby.svg";
  logo_needs_white_background := false |}.

Definition Immich : ServiceDefinition := {|
  def_name := "Immich";
  description := "Self-hosted photo and video management solution";
  def_category := Patterns.Media;
  discovery_pattern := EndpointPattern (new_tcp 2283) "/photos" "Immich" None;
  def_is_generic := false;
  logo_url := "https://cdn.jsdelivr.net/gh/homarr-labs/dashboard-icons/svg/immich.svg";
  logo_needs_white_background := false |}.

Definition Jellyfin : ServiceDefinition := {|
  def_name := "Jellyfin";
  description := "Free media server for personal streaming";
  def_category := Patterns.Media;
  discovery_pattern := EndpointPattern Ports.Http "/System/Info/Public" "Jellyfin" None;
  def_is_generic := false;
  logo_url := "https://cdn.jsdelivr.net/gh/homarr-labs/dashboard-icons/svg/jellyfin.svg";
  logo_needs_white_background := false |}.

Definition Jellyseerr : ServiceDefinition := {|
  def_name := "Jellyseerr";
  description := "Open source software application for managing requests for your media library.";
  def_category := Patterns.Media;
  discovery_pattern := EndpointPattern (new_tcp 5055) "/" "Jellyseerr" None;
  def_is_generic := false;
  logo_url := "https://cdn.jsdelivr.net/gh/homarr-labs/dashboard-icons/svg/jellyseerr.svg";
  logo_needs_white_background := false |}.

Definition Jellystat : ServiceDefinition := {|
  def_name := "Jellystat";
  description := "Open source software application for managing requests for your media library.";
  def_category := Patterns.Media;
  discovery_pattern :=
    AllOf
      [EndpointPattern Ports.Http3000 "/" "Jellystat" None;
       EndpointPattern Ports.Http3000 "/" "Jellyfin stats for the masses" None];
  def_is_generic := false;
  logo_url := "https://cdn.jsdelivr.net/gh/homarr-labs/dashboard-icons/svg/jellystat.svg";
  logo_needs_white_background := false |}.

Definition Komga : ServiceDefinition := {|
  def_name := "Komga";
  description := "A media server for your comics, mangas, BDs, magazines and eBooks.";
  def_category := Patterns.Media;
  discovery_pattern := EndpointPattern (new_tcp 25600) "/" "Komga" None;
  def_is_generic := false;
  logo_url := "https://cdn.jsdelivr.net/gh/homarr-labs/dashboard-icons/svg/komga.svg";
  logo_needs_white_background := false |}.

Definition Overseerr : ServiceDefinition := {|
  def_name := "Overseerr";
  description := "Open source software application for managing requests for your media library.";
  def_category := Patterns.Media;
  discovery_pattern :=
    AllOf
      [EndpointPattern (new_tcp 5055) "/site.webmanifest" "Overseerr" None;
       Not (EndpointPattern (new_tcp 5055) "/" "Jellyseerr" None)];
  def_is_generic := false;
  logo_url := "https://cdn.jsdelivr.net/gh/homarr-labs/dashboard-icons/svg/overseerr.svg";
  logo_needs_white_background := false |}.

Definition Plex : ServiceDefinition := {|
  def_name := "Plex Media Server";
  description := "Media server for streaming personal content";
  def_category := Patterns.Media;
  discovery_pattern :=
    AnyOf
      [EndpointPattern (new_tcp 32400) "/web/index.html" "Plex" None;
       HeaderPattern (Some (new_tcp 32400)) "X-Plex-Protocol" "1.0" (Some (401, 401))];
  def_is_generic := false;
  logo_url := "https://cdn.jsdelivr.net/gh/homarr-labs/dashboard-icons/svg/plex.svg";
  logo_needs_white_background := false |}.

Definition SABnzbd : ServiceDefinition := {|
  def_name := "SABnzbd";
  description := "A NZB Files Downloader.";
  def_category := Patterns.Media;
  discovery_pattern := EndpointPattern Ports.Http8080 "/Content/manifest.json" "SABnzbd" None;
  def_is_generic := false;
  logo_url := "https://cdn.jsdelivr.net/gh/homarr-labs/dashboard-icons/svg/sabnzbd.svg";
  logo_needs_white_background := false |}.

Definition Serviio : ServiceDefinition := {|
  def_name := "Serviio";
  description := "DLNA media streaming server";
  def_category := Patterns.Media;
  discovery_pattern := EndpointPattern (new_tcp 23423) "/rest/application" "<serviioId>" None;
  def_is_generic := false;
  logo_url := "https://cdn.jsdelivr.net/gh/homarr-labs/dashboard-icons/svg/serviio.svg";
  logo_needs_white_background := false |}.

Definition Slskd : ServiceDefinition := {|
  def_name := "Slskd";
  description := "A modern client-server application for the Soulseek file-sharing network";
  def_category := Patterns.Media;
  discovery_pattern :=
    AllOf
      [EndpointPattern (new_tcp 5030) "/" "slskd" None;
       EndpointPattern (new_tcp 5030) "/api/v0/session/enabled" "true" None];
  def_is_generic := false;
  logo_url := "https://cdn.jsdelivr.net/gh/homarr-labs/dashboard-icons/svg/slskd.svg";
  logo_needs_white_background := false |}.

Definition Tautulli : ServiceDefinition := {|
  def_name := "Tautulli";
  description := "Monitor, view analytics, and receive notifications about your Plex Media Server.";
  def_category := Patterns.Media;
  discovery_pattern := EndpointPattern (new_tcp 8181) "/" "Tautulli" None;
  def_is_generic := false;
  logo_url := "https://cdn.jsdelivr.net/gh/homarr-labs/dashboard-icons/svg/tautulli.svg";
  logo_needs_white_background := false |}.

Definition Domoticz : ServiceDefinition := {|
  def_name := "Domoticz";
  description := "Home automation system";
  def_category := Patterns.HomeAutomation;
  discovery_pattern := EndpointPattern Ports.Http8080 "/json.htm" "domoticz" None;
  def_is_generic := false;
  logo_url := "https://cdn.jsdelivr.net/gh/homarr-labs/dashboard-icons/png/domoticz.png";
  logo_needs_white_background := false |}.

Definition ESPHome : ServiceDefinition := {|
  def_name := "ESPHome";
  description := "ESP device management";
  def_category := Patterns.HomeAutomation;
  discovery_pattern := PortPattern (new_tcp 6052);
  def_is_generic := false;
  logo_url := "https://cdn.jsdelivr.net/gh/homarr-labs/dashboard-icons/svg/esphome.svg";
  logo_needs_white_background := false |}.

Definition HomeAssistant : ServiceDefinition := {|
  def_name := "Home Assistant";
  description := "Open-source home automation platform";
  def_category := Patterns.HomeAutomation;
  discovery_pattern := EndpointPattern (new_tcp 8123) "/" "home assistant" None;
  def_is_generic := false;
  logo_url := "https://cdn.jsdelivr.net/gh/homarr-labs/dashboard-icons/svg/home-assistant.svg";
  logo_needs_white_background := false |}.

Definition OpenHAB : ServiceDefinition := {|
  def_name := "openHAB";
  description := "Home automation platform";
  def_category := Patterns.HomeAutomation;
  discovery_pattern := EndpointPattern Ports.Http8080 "/rest/" "openhab" None;
  def_is_generic := false;
  logo_url := "https://cdn.jsdelivr.net/gh/homarr-labs/dashboard-icons/svg/openhab.svg";
  logo_needs_white_background := false |}.

Definition PhilipsHueBridge : ServiceDefinition := {|
  def_name := "Philips Hue Bridge";
  description := "Philips Hue Bridge for lighting control";
  def_category := Patterns.CatIoT;
  discovery_pattern :=
    AllOf [MacVendor "Philips Lighting BV"; EndpointPattern Ports.Http "/" "hue" None];
  def_is_generic := false;
  logo_url := "https://simpleicons.org/icons/philipshue.svg";
  logo_needs_white_background := true |}.

Definition Zigbee2MQTT : ServiceDefinition := {|
  def_name := "Zigbee2MQTT";
  description := "Zigbee to MQTT bridge";
  def_category := Patterns.HomeAutomation;
  discovery_pattern := EndpointPattern Ports.Http8080 "/" "Zigbee2MQTT WindFront" None;
  def_is_generic := false;
  logo_url := "https://cdn.jsdelivr.net/gh/homarr-labs/dashboard-icons/svg/zigbee2mqtt.svg";
  logo_needs_white_background := false |}.

Definition ZWaveJS : ServiceDefinition := {|
  def_name := "Z-Wave JS";
  description := "Z-Wave controller server";
  def_category := Patterns.HomeAutomation;
  discovery_pattern := EndpointPattern (new_tcp 8091) "/health" "" None;
  def_is_generic := true;
  logo_url := "https://cdn.jsdelivr.net/gh/homarr-labs/dashboard-icons/svg/z-wave-js-ui.svg";
  logo_needs_white_background := false |}.

Definition DockerContainer : ServiceDefinition := {|
  def_name := "Docker Container";
  description := "A generic docker container";
  def_category := Patterns.CatContainer;
  discovery_pattern :=
    AllOf
      [ContainerVirtualization;
       CustomPattern docker_unmatched all_ports
         "No other services with this container's ID have been matched"
         "A service with this container's ID has already been matched" Low];
  def_is_generic := true;
  logo_url := "";
  logo_needs_white_background := false |}.

Definition Docker : ServiceDefinition := {|
  def_name := "Docker";
  description := "Docker";
  def_category := Patterns.ContainerRuntime;
  discovery_pattern := ClientResponse ProbeDocker;
  def_is_generic := false;
  logo_url := "https://cdn.jsdelivr.net/gh/homarr-labs/dashboard-icons/svg/docker.svg";
  logo_needs_white_background := false |}.

Definition DockerSwarm : ServiceDefinition := {|
  def_name := "Docker Swarm";
  description := "Docker native clustering and orchestration";
  def_category := Patterns.Orchestrator;
  discovery_pattern := AllOf [PortPattern (new_tcp 2377); PortPattern (new_tcp 7946)];
  def_is_generic := false;
  logo_url := "https://cdn.jsdelivr.net/gh/homarr-labs/dashboard-icons/svg/docker.svg";
  logo_needs_white_background := false |}.

Definition Dockge : ServiceDefinition := {|
  def_name := "Dockge";
  description := "Docker compose stack management UI";
  def_category := Patterns.Orchestrator;
  discovery_pattern := EndpointPattern (new_tcp 5001) "/" "Dockge" None;
  def_is_generic := false;
  logo_url := "https://cdn.jsdelivr.net/gh/homarr-labs/dashboard-icons/svg/dockge.svg";
  logo_needs_white_background := false |}.

Definition Esxi : ServiceDefinition := {|
  def_name := "ESXi";
  description := "VMware ESXi bare-metal hypervisor";
  def_category := Patterns.Hypervisor;
  discovery_pattern := EndpointPattern Ports.Https "/" "VMware ESXi" None;
  def_is_generic := false;
  logo_url := "https://cdn.jsdelivr.net/gh/homarr-labs/dashboard-icons/svg/vmware-esxi.svg";
  logo_needs_white_background := false |}.

Definition Kubernetes : ServiceDefinition := {|
  def_name := "Kubernetes";
  description := "Container orchestration platform";
  def_category := Patterns.Orchestrator;
  discovery_pattern :=
    AllOf
      [PortPattern Ports.Kubernetes;
       AnyOf
         [PortPattern (new_tcp 10250);
          PortPattern (new_tcp 10259);
          PortPattern (new_tcp 10257);
          PortPattern (new_tcp 10256)]];
  def_is_generic := false;
  logo_url := "https://cdn.jsdelivr.net/gh/homarr-labs/dashboard-icons/svg/kubernetes.svg";
  logo_needs_white_background := false |}.

Definition Nomad : ServiceDefinition := {|
  def_name := "Nomad";
  description := "Workload orchestration";
  def_category := Patterns.Orchestrator;
  discovery_pattern := EndpointPattern (new_tcp 4646) "/v1/status/leader" "" None;
  def_is_generic := false;
  logo_url := "https://cdn.jsdelivr.net/gh/homarr-labs/dashboard-icons/svg/nomad.svg";
  logo_needs_white_background := false |}.

Definition OpenShift : ServiceDefinition := {|
  def_name := "OpenShift";
  description := "Enterprise Kubernetes";
  def_category := Patterns.Orchestrator;
  discovery_pattern := EndpointPattern Ports.Kubernetes "/healthz" "openshift" None;
  def_is_generic := false;
  logo_url := "https://cdn.jsdelivr.net/gh/homarr-labs/dashboard-icons/svg/openshift.svg";
  logo_needs_white_background := false |}.

Definition Podman : ServiceDefinition := {|
  def_name := "Podman";
  description := "Daemonless container runtime";
  def_category := Patterns.ContainerRuntime;
  discovery_pattern := ClientResponse ProbePodman;
  def_is_generic := false;
  logo_url := "https://cdn.jsdelivr.net/gh/homarr-labs/dashboard-icons/svg/podman.svg";
  logo_needs_white_background := false |}.

Definition PodmanContainer : ServiceDefinition := {|
  def_name := "Podman Container";
  description := "A generic podman container";
  def_category := Patterns.CatContainer;
  discovery_pattern :=
    AllOf
      [ContainerVirtualization;
       CustomPattern podman_unmatched all_ports
         "No other services with this container's ID have been matched"
         "A service with this container's ID has already been matched" Low];
  def_is_generic := true;
  logo_url := "";
  logo_needs_white_background := false |}.

Definition Portainer : ServiceDefinition := {|
  def_name := "Portainer";
  description := "Orchestration platform for Docker, K8s, and Podman";
  def_category := Patterns.Orchestrator;
  discovery_pattern :=
    AnyOf
      [EndpointPattern Ports.Https9443 "/#!/auth" "portainer.io" None;
       EndpointPattern Ports.Http9000 "/" "portainer.io" None];
  def_is_generic := false;
  logo_url := "https://cdn.jsdelivr.net/gh/homarr-labs/dashboard-icons/svg/portainer.svg";
  logo_needs_white_background := false |}.

Definition Proxmox : ServiceDefinition := {|
  def_name := "Proxmox VE";
  description := "Open-source virtualization management platform";
  def_category := Patterns.Hypervisor;
  discovery_pattern :=
    AnyOf [EndpointPattern (new_tcp 8006) "/" "proxmox" None; PortPattern (new_tcp 8006)];
  def_is_generic := false;
  logo_url := "https://cdn.jsdelivr.net/gh/homarr-labs/dashboard-icons/svg/proxmox.svg";
  logo_needs_white_background := false |}.

Definition Rancher : ServiceDefinition := {|
  def_name := "Rancher";
  description := "Kubernetes management";
  def_category := Patterns.Orchestrator;
  discovery_pattern := EndpointPattern Ports.Http "/v3" "rancher" None;
  def_is_generic := false;
  logo_url := "https://cdn.jsdelivr.net/gh/homarr-labs/dashboard-icons/svg/rancher.svg";
  logo_needs_white_background := false |}.

Definition VCenter : ServiceDefinition := {|
  def_name := "vCenter";
  description := "VMware vCenter Server virtualization management platform";
  def_category := Patterns.Hypervisor;
  discovery_pattern := EndpointPattern Ports.Https "/" "VMware vCenter" None;
  def_is_generic := false;
  logo_url := "https://cdn.jsdelivr.net/gh/homarr-labs/dashboard-icons/svg/vmware.svg";
  logo_needs_white_background := false |}.

Definition Cassandra : ServiceDefinition := {|
  def_name := "Cassandra";
  description := "Distributed NoSQL database";
  def_category := Patterns.Database;
  discovery_pattern := PortPattern Ports.Cassandra;
  def_is_generic := true;
  logo_url := "https://cdn.jsdelivr.net/gh/homarr-labs/dashboard-icons/svg/apache-cassandra.svg";
  logo_needs_white_background := false |}.

Definition CouchDB : ServiceDefinition := {|
  def_name := "CouchDB";
  description := "NoSQL document database";
  def_category := Patterns.Database;
  discovery_pattern := EndpointPattern Ports.CouchDb "/" "couchdb" None;
  def_is_generic := true;
  logo_url := "https://cdn.jsdelivr.net/gh/homarr-labs/dashboard-icons/svg/couchdb.svg";
  logo_needs_white_background := false |}.

Definition Denodo : ServiceDefinition := {|
  def_name := "Denodo";
  description := "Data virtualization";
  def_category := Patterns.Database;
  discovery_pattern :=
    AllOf
      [PortPattern (new_tcp 9990);
       PortPattern (new_tcp 9996);
       PortPattern (new_tcp 9090);
       PortPattern (new_tcp 9099)];
  def_is_generic := false;
  logo_url := "https://cdn.jsdelivr.net/gh/homarr-labs/dashboard-icons/svg/denodo.svg";
  logo_needs_white_background := false |}.

Definition Elasticsearch : ServiceDefinition := {|
  def_name := "Elasticsearch";
  description := "Distributed search and analytics engine";
  def_category := Patterns.Database;
  discovery_pattern := EndpointPattern Ports.Elasticsearch "/" "lucene" None;
  def_is_generic := true;
  logo_url := "https://cdn.jsdelivr.net/gh/homarr-labs/dashboard-icons/svg/elasticsearch.svg";
  logo_needs_white_background := false |}.

Definition HyperFile : ServiceDefinition := {|
  def_name := "HyperFile Server";
  description := "PC SOFT HFSQL Client-Server database (WinDev/WebDev)";
  def_category := Patterns.Database;
  discovery_pattern := PortPattern (new_tcp 4900);
  def_is_generic := false;
  logo_url := "";
  logo_needs_white_background := false |}.

Definition InfluxDB : ServiceDefinition := {|
  def_name := "InfluxDB";
  description := "Time series database";
  def_category := Patterns.Database;
  discovery_pattern := PortPattern Ports.InfluxDb;
  def_is_generic := true;
  logo_url := "https://cdn.jsdelivr.net/gh/homarr-labs/dashboard-icons/svg/influxdb.svg";
  logo_needs_white_background := true |}.

Definition MariaDB : ServiceDefinition := {|
  def_name := "MariaDB";
  description := "MySQL-compatible relational database";
  def_category := Patterns.Database;
  discovery_pattern := NoPattern;
  def_is_generic := true;
  logo_url := "https://cdn.jsdelivr.net/gh/homarr-labs/dashboard-icons/svg/mariadb.svg";
  logo_needs_white_background := true |}.

Definition MongoDB : ServiceDefinition := {|
  def_name := "MongoDB";
  description := "NoSQL document database";
  def_category := Patterns.Database;
  discovery_pattern := PortPattern Ports.MongoDB;
  def_is_generic := true;
  logo_url := "https://cdn.jsdelivr.net/gh/homarr-labs/dashboard-icons/svg/mongodb.svg";
  logo_needs_white_background := true |}.

Definition MSSQLServer : ServiceDefinition := {|
  def_name := "Microsoft SQL Server";
  description := "Microsoft relational database";
  def_category := Patterns.Database;
  discovery_pattern := PortPattern Ports.MsSql;
  def_is_generic := true;
  logo_url := "https://cdn.jsdelivr.net/gh/homarr-labs/dashboard-icons/svg/microsoft-sql-server-light.svg";
  logo_needs_white_background := true |}.

Definition MySQL : ServiceDefinition := {|
  def_name := "MySQL";
  description := "Open-source relational database";
  def_category := Patterns.Database;
  discovery_pattern := PortPattern Ports.MySql;
  def_is_generic := true;
  logo_url := "https://cdn.jsdelivr.net/gh/homarr-labs/dashboard-icons/svg/mysql.svg";
  logo_needs_white_background := true |}.

Definition Neo4j : ServiceDefinition := {|
  def_name := "Neo4j";
  description := "Graph database";
  def_category := Patterns.Database;
  discovery_pattern := AnyOf [PortPattern (new_tcp 7473); PortPattern (new_tcp 7687)];
  def_is_generic := false;
  logo_url := "https://cdn.jsdelivr.net/gh/homarr-labs/dashboard-icons/png/neo4j.png";
  logo_needs_white_background := false |}.

Definition OracleDB : ServiceDefinition := {|
  def_name := "Oracle Database";
  description := "Enterprise relational database";
  def_category := Patterns.Database;
  discovery_pattern := PortPattern (new_tcp 1521);
  def_is_generic := false;
  logo_url := "https://cdn.jsdelivr.net/gh/homarr-labs/dashboard-icons/svg/oracle.svg";
  logo_needs_white_background := true |}.

Definition PostgreSQL : ServiceDefinition := {|
  def_name := "PostgreSQL";
  description := "Open-source relational database";
  def_category := Patterns.Database;
  discovery_pattern := PortPattern Ports.PostgreSQL;
  def_is_generic := true;
  logo_url := "https://cdn.jsdelivr.net/gh/homarr-labs/dashboard-icons/svg/postgresql.svg";
  logo_needs_white_background := true |}.

Definition RedisDB : ServiceDefinition := {|
  def_name := "Redis";
  description := "In-memory data store and cache";
  def_category := Patterns.Database;
  discovery_pattern := PortPattern Ports.Redis;
  def_is_generic := true;
  logo_url := "https://cdn.jsdelivr.net/gh/homarr-labs/dashboard-icons/svg/redis.svg";
  logo_needs_white_background := false |}.

Definition ActiveMQ : ServiceDefinition := {|
  def_name := "ActiveMQ";
  description := "Message broker";
  def_category := Patterns.MessageQueue;
  discovery_pattern := EndpointPattern (new_tcp 8161) "/admin" "activemq" None;
  def_is_generic := false;
  logo_url := "https://www.vectorlogo.zone/logos/apache_activemq/apache_activemq-icon.svg";
  logo_needs_white_background := false |}.

Definition Amqp : ServiceDefinition := {|
  def_name := "AMQP";
  description := "Advanced Message Queuing Protocol";
  def_category := Patterns.MessageQueue;
  discovery_pattern := AnyOf [PortPattern Ports.AMQP; PortPattern Ports.AMQPTls];
  def_is_generic := true;
  logo_url := "";
  logo_needs_white_background := false |}.

Definition Kafka : ServiceDefinition := {|
  def_name := "Kafka";
  description := "Event streaming platform";
  def_category := Patterns.MessageQueue;
  discovery_pattern := PortPattern Ports.Kafka;
  def_is_generic := true;
  logo_url := "https://simpleicons.org/icons/apachekafka.svg";
  logo_needs_white_background := true |}.

Definition MQTT : ServiceDefinition := {|
  def_name := "MQTT";
  description := "Generic MQTT broker";
  def_category := Patterns.MessageQueue;
  discovery_pattern := AnyOf [PortPattern Ports.Mqtt; PortPattern Ports.MqttTls];
  def_is_generic := true;
  logo_url := "https://cdn.jsdelivr.net/gh/homarr-labs/dashboard-icons/svg/mqtt.svg";
  logo_needs_white_background := false |}.

Definition Ntfy : ServiceDefinition := {|
  def_name := "Ntfy";
  description := "Simple HTTP-based pub-sub notification service";
  def_category := Patterns.MessageQueue;
  discovery_pattern :=
    AnyOf
      [EndpointPattern Ports.Http "/" "ntfy web" None;
       EndpointPattern (new_tcp 2856) "/" "ntfy web" None];
  def_is_generic := false;
  logo_url := "https://cdn.jsdelivr.net/gh/homarr-labs/dashboard-icons/svg/ntfy.svg";
  logo_needs_white_background := false |}.

Definition RabbitMQ : ServiceDefinition := {|
  def_name := "RabbitMQ";
  description := "Message broker";
  def_category := Patterns.MessageQueue;
  discovery_pattern := EndpointPattern Ports.RabbitMqMgmt "/" "rabbitmq" None;
  def_is_generic := true;
  logo_url := "https://cdn.jsdelivr.net/gh/homarr-labs/dashboard-icons/svg/rabbitmq.svg";
  logo_needs_white_background := false |}.

Definition ConfluenceServer : ServiceDefinition := {|
  def_name := "Confluence";
  description := "Team collaboration wiki";
  def_category := Patterns.ProjectManagement;
  discovery_pattern := EndpointPattern (new_tcp 8090) "/" "confluence" None;
  def_is_generic := false;
  logo_url := "https://cdn.jsdelivr.net/gh/homarr-labs/dashboard-icons/svg/confluence.svg";
  logo_needs_white_background := false |}.

Definition Discourse : ServiceDefinition := {|
  def_name := "Discourse";
  description := "Discussion platform";
  def_category := Patterns.Publishing;
  discovery_pattern := EndpointPattern Ports.Http "/srv/status" "discourse" None;
  def_is_generic := false;
  logo_url := "https://cdn.jsdelivr.net/gh/homarr-labs/dashboard-icons/svg/discourse.svg";
  logo_needs_white_background := false |}.

Definition JiraServer : ServiceDefinition := {|
  def_name := "Jira";
  description := "Project management platform";
  def_category := Patterns.ProjectManagement;
  discovery_pattern :=
    EndpointPattern Ports.Http8080 "/rest/api/2/serverInfo" "jira" (Some (200, 300));
  def_is_generic := false;
  logo_url := "https://cdn.jsdelivr.net/gh/homarr-labs/dashboard-icons/svg/jira.svg";
  logo_needs_white_background := false |}.

Definition Mattermost : ServiceDefinition := {|
  def_name := "Mattermost";
  description := "Team messaging platform";
  def_category := Patterns.Messaging;
  discovery_pattern := EndpointPattern (new_tcp 8065) "/api/v4/system/ping" "" None;
  def_is_generic := false;
  logo_url := "https://cdn.jsdelivr.net/gh/homarr-labs/dashboard-icons/svg/mattermost.svg";
  logo_needs_white_background := true |}.

Definition Radicale : ServiceDefinition := {|
  def_name := "Radicale";
  description := "Free and Open-Source CalDAV and CardDAV Server";
  def_category := Patterns.Office;
  discovery_pattern := EndpointPattern (new_tcp 5232) "/.web/" "Radicale Web Interface" None;
  def_is_generic := false;
  logo_url := "https://cdn.jsdelivr.net/gh/homarr-labs/dashboard-icons/svg/radicale.svg";
  logo_needs_white_background := false |}.

Definition RocketChat : ServiceDefinition := {|
  def_name := "Rocket.Chat";
  description := "Team communication platform";
  def_category := Patterns.Messaging;
  discovery_pattern := EndpointPattern Ports.Http3000 "/api/info" "rocket" None;
  def_is_generic := false;
  logo_url := "https://cdn.jsdelivr.net/gh/homarr-labs/dashboard-icons/svg/rocket-chat.svg";
  logo_needs_white_background := false |}.

Definition AnsibleAWX : ServiceDefinition := {|
  def_name := "AWX";
  description := "Ansible automation platform";
  def_category := Patterns.Development;
  discovery_pattern := EndpointPattern Ports.Http "/api/v2/" "awx" (Some (200, 300));
  def_is_generic := false;
  logo_url := "https://cdn.jsdelivr.net/gh/homarr-labs/dashboard-icons/svg/ansible.svg";
  logo_needs_white_background := false |}.

Definition Appwrite : ServiceDefinition := {|
  def_name := "Appwrite";
  description := "Open-source backend-as-a-service platform";
  def_category := Patterns.Development;
  discovery_pattern :=
    AnyOf
      [EndpointPattern Ports.Http "/" "appwrite.io" None;
       EndpointPattern Ports.Https "/" "appwrite.io" None];
  def_is_generic := false;
  logo_url := "https://cdn.jsdelivr.net/gh/homarr-labs/dashboard-icons/svg/appwrite.svg";
  logo_needs_white_background := false |}.

Definition ArgoCD : ServiceDefinition := {|
  def_name := "ArgoCD";
  description := "GitOps continuous delivery";
  def_category := Patterns.Development;
  discovery_pattern := EndpointPattern Ports.Http8080 "/api/version" "argocd" None;
  def_is_generic := false;
  logo_url := "https://cdn.jsdelivr.net/gh/homarr-labs/dashboard-icons/svg/argo-cd.svg";
  logo_needs_white_background := false |}.

Definition Bamboo : ServiceDefinition := {|
  def_name := "Bamboo";
  description := "CI/CD server";
  def_category := Patterns.Development;
  discovery_pattern := EndpointPattern (new_tcp 8085) "/" "bamboo" None;
  def_is_generic := false;
  logo_url := "https://cdn.jsdelivr.net/gh/homarr-labs/dashboard-icons/svg/atlassian-bamboo.svg";
  logo_needs_white_background := false |}.

Definition BitbucketServer : ServiceDefinition := {|
  def_name := "Bitbucket Server";
  description := "Git repository management";
  def_category := Patterns.Development;
  discovery_pattern := EndpointPattern (new_tcp 7990) "/" "bitbucket" None;
  def_is_generic := false;
  logo_url := "https://cdn.jsdelivr.net/gh/homarr-labs/dashboard-icons/svg/bitbucket.svg";
  logo_needs_white_background := false |}.

Definition DroneCI : ServiceDefinition := {|
  def_name := "Drone";
  description := "Container-native CI platform";
  def_category := Patterns.Development;
  discovery_pattern :=
    AllOf
      [EndpointPattern Ports.Http "/" "drone" None;
       EndpointPattern Ports.Http "/api/user" "" None];
  def_is_generic := false;
  logo_url := "https://cdn.jsdelivr.net/gh/homarr-labs/dashboard-icons/png/drone.png";
  logo_needs_white_background := true |}.

Definition Forgejo : ServiceDefinition := {|
  def_name := "Forgejo";
  description := "DevOps platform";
  def_category := Patterns.Development;
  discovery_pattern := EndpointPattern Ports.Http3000 "/explore/repos" "Powered by Forgejo" None;
  def_is_generic := false;
  logo_url := "https://cdn.jsdelivr.net/gh/homarr-labs/dashboard-icons/svg/forgejo.svg";
  logo_needs_white_background := false |}.

Definition Gitea : ServiceDefinition := {|
  def_name := "Gitea";
  description := "DevOps platform";
  def_category := Patterns.Development;
  discovery_pattern := EndpointPattern Ports.Http3000 "/explore/repos" "Powered by Gitea" None;
  def_is_generic := false;
  logo_url := "https://cdn.jsdelivr.net/gh/homarr-labs/dashboard-icons/svg/gitea.svg";
  logo_needs_white_background := false |}.

Definition GitHubEnterprise : ServiceDefinition := {|
  def_name := "GitHub";
  description := "Self-hosted GitHub";
  def_category := Patterns.Development;
  discovery_pattern := NoPattern;
  def_is_generic := false;
  logo_url := "https://cdn.jsdelivr.net/gh/homarr-labs/dashboard-icons/svg/github.svg";
  logo_needs_white_background := true |}.

Definition GitLab : ServiceDefinition := {|
  def_name := "GitLab";
  description := "DevOps platform";
  def_category := Patterns.Development;
  discovery_pattern :=
    AllOf
      [HeaderPattern None "content-security-policy" "gitlab" None;
       EndpointPattern Ports.Http "/" "gitlab" None];
  def_is_generic := false;
  logo_url := "https://cdn.jsdelivr.net/gh/homarr-labs/dashboard-icons/svg/gitlab.svg";
  logo_needs_white_background := false |}.

Definition Jenkins : ServiceDefinition := {|
  def_name := "Jenkins";
  description := "Automation server for CI/CD";
  def_category := Patterns.Development;
  discovery_pattern :=
    AnyOf
      [EndpointPattern Ports.Http8080 "/" "jenkins.io" None;
       HeaderPattern (Some Ports.Https) "x-jenkins" "" (Some (200, 500))];
  def_is_generic := false;
  logo_url := "https://cdn.jsdelivr.net/gh/homarr-labs/dashboard-icons/svg/jenkins.svg";
  logo_needs_white_background := false |}.

Definition N8n : ServiceDefinition := {|
  def_name := "n8n";
  description := "Open source workflow automation platform";
  def_category := Patterns.Development;
  discovery_pattern := EndpointPattern (new_tcp 5678) "/" "n8n" None;
  def_is_generic := false;
  logo_url := "https://cdn.jsdelivr.net/gh/homarr-labs/dashboard-icons/svg/n8n.svg";
  logo_needs_white_background := false |}.

Definition NATS : ServiceDefinition := {|
  def_name := "NATS";
  description := "Cloud-native messaging system";
  def_category := Patterns.MessageQueue;
  discovery_pattern := EndpointPattern (new_tcp 8222) "/varz" "" None;
  def_is_generic := false;
  logo_url := "https://simpleicons.org/icons/natsdotio.svg";
  logo_needs_white_background := true |}.

Definition Spinnaker : ServiceDefinition := {|
  def_name := "Spinnaker";
  description := "Multi-cloud CD platform";
  def_category := Patterns.Development;
  discovery_pattern := NoPattern;
  def_is_generic := false;
  logo_url := "https://simpleicons.org/icons/spinnaker.svg";
  logo_needs_white_background := true |}.

Definition TeamCity : ServiceDefinition := {|
  def_name := "TeamCity";
  description := "CI/CD server";
  def_category := Patterns.Development;
  discovery_pattern := EndpointPattern (new_tcp 8111) "/" "teamcity" None;
  def_is_generic := false;
  logo_url := "https://cdn.jsdelivr.net/gh/homarr-labs/dashboard-icons/svg/teamcity-light.svg";
  logo_needs_white_background := false |}.

Definition Ghost : ServiceDefinition := {|
  def_name := "Ghost";
  description := "Publishing platform";
  def_category := Patterns.Publishing;
  discovery_pattern := EndpointPattern (new_tcp 2368) "/" "ghost" None;
  def_is_generic := false;
  logo_url := "https://cdn.jsdelivr.net/gh/homarr-labs/dashboard-icons/png/ghost.png";
  logo_needs_white_background := true |}.

Definition MendelsonAs2 : ServiceDefinition := {|
  def_name := "Mendelson AS2";
  description := "Open-source AS2 server for B2B/EDI file exchange";
  def_category := Patterns.Integration;
  discovery_pattern :=
    EndpointPattern Ports.Https8443 "/as2/HttpReceiver" "mendelson opensource" None;
  def_is_generic := false;
  logo_url := "";
  logo_needs_white_background := false |}.

Definition Tomcat : ServiceDefinition := {|
  def_name := "Tomcat";
  description := "Java servlet container";
  def_category := Patterns.Development;
  discovery_pattern := EndpointPattern Ports.Http8080 "/" "apache tomcat" None;
  def_is_generic := false;
  logo_url := "https://cdn.jsdelivr.net/gh/homarr-labs/dashboard-icons/svg/apache-tomcat.svg";
  logo_needs_white_background := false |}.

(** [web_service.rs]. *)
Definition WebService : ServiceDefinition := {|
  def_name := "Web Service";
  description := "A generic web service";
  def_category := Patterns.CatUnknown;
  discovery_pattern := NoPattern;
  def_is_generic := false;
  logo_url := "";
  logo_needs_white_background := false |}.

Definition WordPress : ServiceDefinition := {|
  def_name := "WordPress";
  description := "Content management system";
  def_category := Patterns.Publishing;
  discovery_pattern := EndpointPattern Ports.Http "/" "wp-content" None;
  def_is_generic := false;
  logo_url := "https://cdn.jsdelivr.net/gh/homarr-labs/dashboard-icons/svg/wordpress.svg";
  logo_needs_white_background := false |}.

Definition ActiveDirectory : ServiceDefinition := {|
  def_name := "Active Directory";
  description := "Microsoft directory service";
  def_category := Patterns.IdentityAndAccess;
  discovery_pattern :=
    AllOf [PortPattern Ports.Ldap; PortPattern Ports.Samba; PortPattern Ports.Kerberos];
  def_is_generic := false;
  logo_url := "https://cdn.jsdelivr.net/gh/homarr-labs/dashboard-icons/svg/microsoft.svg";
  logo_needs_white_background := false |}.

Definition Authentik : ServiceDefinition := {|
  def_name := "Authentik";
  description := "A self-hosted, open source identity provider";
  def_category := Patterns.IdentityAndAccess;
  discovery_pattern :=
    AnyOf
      [EndpointPattern Ports.Http9000 "/" "window.authentik" None;
       EndpointPattern Ports.Https9443 "/" "window.authentik" None];
  def_is_generic := false;
  logo_url := "https://cdn.jsdelivr.net/gh/homarr-labs/dashboard-icons/svg/authentik.svg";
  logo_needs_white_background := false |}.

Definition Bitwarden : ServiceDefinition := {|
  def_name := "Bitwarden";
  description := "Password manager";
  def_category := Patterns.IdentityAndAccess;
  discovery_pattern := EndpointPattern Ports.Http "/api/config" "bitwarden" None;
  def_is_generic := false;
  logo_url := "https://cdn.jsdelivr.net/gh/homarr-labs/dashboard-icons/svg/bitwarden.svg";
  logo_needs_white_background := false |}.

Definition FreeIPA : ServiceDefinition := {|
  def_name := "FreeIPA";
  description := "Identity management system";
  def_category := Patterns.IdentityAndAccess;
  discovery_pattern := EndpointPattern Ports.Http "/ipa/ui" "" (Some (200, 300));
  def_is_generic := false;
  logo_url := "https://cdn.jsdelivr.net/gh/homarr-labs/dashboard-icons/svg/freeipa.svg";
  logo_needs_white_background := false |}.

Definition Kerberos : ServiceDefinition := {|
  def_name := "Kerberos";
  description := "Kerberos authentication service";
  def_category := Patterns.IdentityAndAccess;
  discovery_pattern := PortPattern Ports.Kerberos;
  def_is_generic := true;
  logo_url := "";
  logo_needs_white_background := false |}.

Definition Keycloak : ServiceDefinition := {|
  def_name := "Keycloak";
  description := "Identity and access management";
  def_category := Patterns.IdentityAndAccess;
  discovery_pattern := EndpointPattern Ports.Http8080 "/" "/keycloak/" None;
  def_is_generic := false;
  logo_url := "https://cdn.jsdelivr.net/gh/homarr-labs/dashboard-icons/svg/keycloak.svg";
  logo_needs_white_background := false |}.

Definition LDAP : ServiceDefinition := {|
  def_name := "Open LDAP";
  description := "Generic LDAP directory service";
  def_category := Patterns.IdentityAndAccess;
  discovery_pattern := AnyOf [PortPattern Ports.Ldap; PortPattern Ports.Ldaps];
  def_is_generic := true;
  logo_url := "https://cdn.jsdelivr.net/gh/homarr-labs/dashboard-icons/svg/openldap.svg";
  logo_needs_white_background := false |}.

Definition Vault : ServiceDefinition := {|
  def_name := "Vault";
  description := "Secrets management";
  def_category := Patterns.IdentityAndAccess;
  discovery_pattern := EndpointPattern (new_tcp 8200) "/v1/sys/health" "vault" None;
  def_is_generic := false;
  logo_url := "https://cdn.jsdelivr.net/gh/homarr-labs/dashboard-icons/svg/hashicorp-vault.svg";
  logo_needs_white_background := false |}.

Definition Vaultwarden : ServiceDefinition := {|
  def_name := "Vaultwarden";
  description := "Self-hosted Bitwarden-compatible server, written in Rust";
  def_category := Patterns.IdentityAndAccess;
  discovery_pattern := EndpointPattern (new_tcp 8000) "/manifest.json" "Vaultwarden Web" None;
  def_is_generic := false;
  logo_url := "https://cdn.jsdelivr.net/gh/homarr-labs/dashboard-icons/svg/vaultwarden.svg";
  logo_needs_white_background := true |}.

Definition GlanceApp : ServiceDefinition := {|
  def_name := "Glance";
  description := "A self-hosted dashboard that puts all your feeds in one place";
  def_category := Patterns.Dashboard;
  discovery_pattern := EndpointPattern Ports.Http8080 "/manifest.json" "Glance" None;
  def_is_generic := false;
  logo_url := "https://cdn.jsdelivr.net/gh/homarr-labs/dashboard-icons/svg/glance.svg";
  logo_needs_white_background := false |}.

Definition Homarr : ServiceDefinition := {|
  def_name := "Homarr";
  description := "A sleek, modern dashboard";
  def_category := Patterns.Dashboard;
  discovery_pattern := PortPattern (new_tcp 7575);
  def_is_generic := false;
  logo_url := "https://cdn.jsdelivr.net/gh/homarr-labs/dashboard-icons/svg/homarr.svg";
  logo_needs_white_background := false |}.

Definition Homepage : ServiceDefinition := {|
  def_name := "Homepage";
  description := "A self-hosted dashboard for your homelab";
  def_category := Patterns.Dashboard;
  discovery_pattern := EndpointPattern Ports.Http3000 "/site.webmanifest" "Homepage" None;
  def_is_generic := false;
  logo_url := "https://cdn.jsdelivr.net/gh/homarr-labs/dashboard-icons/webp/homepage.webp";
  logo_needs_white_background := false |}.

Definition Jump : ServiceDefinition := {|
  def_name := "Jump";
  description := "A self-hosted startpage and real-time status page";
  def_category := Patterns.Dashboard;
  discovery_pattern := EndpointPattern (new_tcp 8123) "/" "Jump" None;
  def_is_generic := false;
  logo_url := "";
  logo_needs_white_background := false |}.

Definition LinkStack : ServiceDefinition := {|
  def_name := "LinkStack";
  description := "A highly customizable link sharing platform";
  def_category := Patterns.Dashboard;
  discovery_pattern :=
    AllOf
      [HeaderPattern None "set-cookie" "linkstack_session" None;
       EndpointPattern Ports.Http8080 "/" "LinkStack" None];
  def_is_generic := false;
  logo_url := "https://cdn.jsdelivr.net/gh/homarr-labs/dashboard-icons/svg/linkstack.svg";
  logo_needs_white_background := false |}.

Definition ProxmoxDatacenterManager : ServiceDefinition := {|
  def_name := "Proxmox Datacenter Manager";
  description := "A single pane of glass for managing clustered & non-clustered Proxmox nodes";
  def_category := Patterns.Dashboard;
  discovery_pattern := EndpointPattern Ports.Https8443 "/" "pdm-ui_bundle.js" None;
  def_is_generic := false;
  logo_url := "https://cdn.jsdelivr.net/gh/homarr-labs/dashboard-icons/svg/proxmox.svg";
  logo_needs_white_background := false |}.

Definition APC : ServiceDefinition := {|
  def_name := "APC";
  description := "APC Network-Connected UPS";
  def_category := Patterns.Monitoring;
  discovery_pattern := EndpointPattern Ports.Http "/" "Schneider Electric" None;
  def_is_generic := false;
  logo_url := "https://cdn.jsdelivr.net/gh/homarr-labs/dashboard-icons/svg/apc.svg";
  logo_needs_white_background := false |}.

Definition BeszelAgent : ServiceDefinition := {|
  def_name := "Beszel Agent";
  description := "Lightweight server monitoring agent";
  def_category := Patterns.Monitoring;
  discovery_pattern := PortPattern (new_tcp 45876);
  def_is_generic := false;
  logo_url := "https://cdn.jsdelivr.net/gh/homarr-labs/dashboard-icons/svg/beszel.svg";
  logo_needs_white_background := false |}.

Definition Cadvisor : ServiceDefinition := {|
  def_name := "cAdvisor";
  description := "Monitoring for container";
  def_category := Patterns.Monitoring;
  discovery_pattern := EndpointPattern Ports.Http8080 "/api/v1.0/containers/" "cAdvisor" None;
  def_is_generic := false;
  logo_url := "https://cdn.jsdelivr.net/gh/homarr-labs/dashboard-icons/png/cadvisor.png";
  logo_needs_white_background := false |}.

Definition CheckmkAgent : ServiceDefinition := {|
  def_name := "CheckMK Agent";
  description := "Monitoring agent for CheckMK server";
  def_category := Patterns.Monitoring;
  discovery_pattern := PortPattern (new_tcp 6556);
  def_is_generic := false;
  logo_url := "https://cdn.jsdelivr.net/gh/homarr-labs/dashboard-icons/svg/checkmk.svg";
  logo_needs_white_background := false |}.

Definition CoolerControl : ServiceDefinition := {|
  def_name := "CoolerControl";
  description := "Monitor temperatures, fan speeds, and power in real time.";
  def_category := Patterns.Monitoring;
  discovery_pattern := EndpointPattern (new_tcp 11987) "/" "CoolerControl" None;
  def_is_generic := false;
  logo_url := "https://cdn.jsdelivr.net/gh/homarr-labs/dashboard-icons/svg/cooler-control.svg";
  logo_needs_white_background := false |}.

Definition ElasticAPM : ServiceDefinition := {|
  def_name := "Elastic APM";
  description := "Application performance monitoring";
  def_category := Patterns.Monitoring;
  discovery_pattern := EndpointPattern (new_tcp 8200) "/" "apm" None;
  def_is_generic := false;
  logo_url := "https://cdn.jsdelivr.net/gh/homarr-labs/dashboard-icons/svg/elastic.svg";
  logo_needs_white_background := false |}.

Definition Gatus : ServiceDefinition := {|
  def_name := "Gatus";
  description := "Automated developer-oriented status page";
  def_category := Patterns.Monitoring;
  discovery_pattern := EndpointPattern Ports.Http8080 "/manifest.json" "Gatus" None;
  def_is_generic := false;
  logo_url := "https://cdn.jsdelivr.net/gh/homarr-labs/dashboard-icons/svg/gatus.svg";
  logo_needs_white_background := false |}.

Definition Glances : ServiceDefinition := {|
  def_name := "Glances";
  description := "An open-source system cross-platform monitoring tool.";
  def_category := Patterns.Monitoring;
  discovery_pattern := EndpointPattern (new_tcp 61208) "/" "Glances" None;
  def_is_generic := false;
  logo_url := "https://cdn.jsdelivr.net/gh/homarr-labs/dashboard-icons/svg/glances.svg";
  logo_needs_white_background := false |}.

Definition Grafana : ServiceDefinition := {|
  def_name := "Grafana";
  description := "Analytics and monitoring visualization platform";
  def_category := Patterns.Monitoring;
  discovery_pattern :=
    AnyOf
      [EndpointPattern Ports.Http "/login" "app-grafana" None;
       EndpointPattern Ports.Http3000 "/login" "app-grafana" None;
       EndpointPattern Ports.Http "/" "grafana.com" None;
       EndpointPattern Ports.Http3000 "/" "grafana.com" None];
  def_is_generic := false;
  logo_url := "https://cdn.jsdelivr.net/gh/homarr-labs/dashboard-icons/svg/grafana.svg";
  logo_needs_white_background := false |}.

Definition Graylog : ServiceDefinition := {|
  def_name := "Graylog";
  description := "Security Information and Event Management (SIEM) solution and log analytics platform";
  def_category := Patterns.Monitoring;
  discovery_pattern :=
    AllOf
      [HeaderPattern None "content-security-policy" "graylog" None;
       EndpointPattern Ports.Http9000 "/" "Graylog" None];
  def_is_generic := false;
  logo_url := "https://cdn.jsdelivr.net/gh/homarr-labs/dashboard-icons/svg/graylog.svg";
  logo_needs_white_background := false |}.

Definition Icinga : ServiceDefinition := {|
  def_name := "Icinga";
  description := "Infrastructure monitoring";
  def_category := Patterns.Monitoring;
  discovery_pattern := EndpointPattern (new_tcp 5665) "/v1" "icinga" None;
  def_is_generic := false;
  logo_url := "https://cdn.jsdelivr.net/gh/homarr-labs/dashboard-icons/svg/icinga.svg";
  logo_needs_white_background := true |}.

Definition Jaeger : ServiceDefinition := {|
  def_name := "Jaeger";
  description := "Distributed tracing system";
  def_category := Patterns.Monitoring;
  discovery_pattern := EndpointPattern (new_tcp 16686) "/" "jaeger" None;
  def_is_generic := true;
  logo_url := "https://cdn.jsdelivr.net/gh/homarr-labs/dashboard-icons/svg/jaeger.svg";
  logo_needs_white_background := false |}.

Definition Loki : ServiceDefinition := {|
  def_name := "Loki";
  description := "Log aggregation system inspired by Prometheus";
  def_category := Patterns.Monitoring;
  discovery_pattern := AnyOf [EndpointPattern (new_tcp 3100) "/metrics" "loki_build_info" None];
  def_is_generic := false;
  logo_url := "https://cdn.jsdelivr.net/gh/homarr-labs/dashboard-icons/svg/loki.svg";
  logo_needs_white_background := false |}.

Definition Nagios : ServiceDefinition := {|
  def_name := "Nagios";
  description := "Infrastructure monitoring";
  def_category := Patterns.Monitoring;
  discovery_pattern := EndpointPattern Ports.Http "/nagios" "nagios" None;
  def_is_generic := true;
  logo_url := "https://cdn.jsdelivr.net/gh/homarr-labs/dashboard-icons/svg/nagios.svg";
  logo_needs_white_background := false |}.

Definition NcpaAgent : ServiceDefinition := {|
  def_name := "NCPA Agent";
  description := "Nagios Cross-Platform Agent for monitoring";
  def_category := Patterns.Monitoring;
  discovery_pattern := EndpointPattern (new_tcp 5693) "/" "NCPA" None;
  def_is_generic := false;
  logo_url := "https://cdn.jsdelivr.net/gh/homarr-labs/dashboard-icons/svg/nagios.svg";
  logo_needs_white_background := false |}.

Definition Netdata : ServiceDefinition := {|
  def_name := "Netdata";
  description := "Real-time performance monitoring";
  def_category := Patterns.Monitoring;
  discovery_pattern := EndpointPattern (new_tcp 19999) "/api/v1/info" "netdata" None;
  def_is_generic := true;
  logo_url := "https://cdn.jsdelivr.net/gh/homarr-labs/dashboard-icons/svg/netdata.svg";
  logo_needs_white_background := false |}.

Definition NvidiaGpuExporter : ServiceDefinition := {|
  def_name := "Nvidia GPU Exporter";
  description := "Prometheus exporter for Nvidia GPU metrics";
  def_category := Patterns.Monitoring;
  discovery_pattern := EndpointPattern (new_tcp 9835) "/metrics" "nvidia_gpu_exporter" None;
  def_is_generic := false;
  logo_url := "https://cdn.jsdelivr.net/gh/homarr-labs/dashboard-icons/svg/nvidia.svg";
  logo_needs_white_background := false |}.

Definition OpenSpeedTest : ServiceDefinition := {|
  def_name := "OpenSpeedTest";
  description := "Self-hosted network speed test application";
  def_category := Patterns.Monitoring;
  discovery_pattern :=
    AnyOf
      [EndpointPattern Ports.Http3000 "/" "OpenSpeedTest-Server" None;
       EndpointPattern (new_tcp 3001) "/" "OpenSpeedTest-Server" None];
  def_is_generic := false;
  logo_url := "https://cdn.jsdelivr.net/gh/homarr-labs/dashboard-icons/svg/openspeedtest.svg";
  logo_needs_white_background := false |}.

Definition Prometheus : ServiceDefinition := {|
  def_name := "Prometheus";
  description := "Time-series monitoring and alerting system";
  def_category := Patterns.Monitoring;
  discovery_pattern :=
    AnyOf
      [EndpointPattern Ports.Http "/metrics" "Prometheus" None;
       EndpointPattern Ports.Http "/graph" "Prometheus" None];
  def_is_generic := false;
  logo_url := "https://cdn.jsdelivr.net/gh/homarr-labs/dashboard-icons/svg/prometheus.svg";
  logo_needs_white_background := false |}.

Definition PrometheusNodeExporter : ServiceDefinition := {|
  def_name := "Prometheus Node Exporter";
  description := "Prometheus exporter for hardware and OS metrics";
  def_category := Patterns.Monitoring;
  discovery_pattern := EndpointPattern Ports.JetDirect "/metrics" "node_exporter" None;
  def_is_generic := false;
  logo_url := "https://cdn.jsdelivr.net/gh/homarr-labs/dashboard-icons/svg/prometheus.svg";
  logo_needs_white_background := false |}.

Definition Promtail : ServiceDefinition := {|
  def_name := "Promtail";
  description := "Agent which ships logs to Grafana Loki";
  def_category := Patterns.Monitoring;
  discovery_pattern :=
    AnyOf
      [EndpointPattern (new_tcp 9080) "/metrics" "promtail_build_info" None;
       EndpointPattern (new_tcp 9080) "/targets" "Promtail" None];
  def_is_generic := false;
  logo_url := "https://cdn.jsdelivr.net/gh/homarr-labs/dashboard-icons/svg/loki.svg";
  logo_needs_white_background := false |}.

Definition Pulse : ServiceDefinition := {|
  def_name := "Pulse";
  description := "Proxmox node/cluster/VM/LXC monitor";
  def_category := Patterns.Monitoring;
  discovery_pattern := EndpointPattern (new_tcp 7655) "/" "Pulse" None;
  def_is_generic := false;
  logo_url := "https://cdn.jsdelivr.net/gh/homarr-labs/dashboard-icons/svg/pulse.svg";
  logo_needs_white_background := false |}.

Definition Sensu : ServiceDefinition := {|
  def_name := "Sensu";
  description := "Monitoring framework";
  def_category := Patterns.Monitoring;
  discovery_pattern := EndpointPattern (new_tcp 4567) "/health" "sensu" None;
  def_is_generic := true;
  logo_url := "https://cdn.jsdelivr.net/gh/homarr-labs/dashboard-icons/svg/sensu.svg";
  logo_needs_white_background := false |}.

Definition Sentry : ServiceDefinition := {|
  def_name := "Sentry";
  description := "Error tracking platform";
  def_category := Patterns.Monitoring;
  discovery_pattern := EndpointPattern Ports.Http9000 "/api/0/" "sentry" None;
  def_is_generic := false;
  logo_url := "https://cdn.jsdelivr.net/gh/homarr-labs/dashboard-icons/svg/sentry.svg";
  logo_needs_white_background := true |}.

Definition Splunk : ServiceDefinition := {|
  def_name := "Splunk";
  description := "Data analytics platform";
  def_category := Patterns.Monitoring;
  discovery_pattern := EndpointPattern (new_tcp 8000) "/" "splunk" None;
  def_is_generic := false;
  logo_url := "https://cdn.jsdelivr.net/gh/homarr-labs/dashboard-icons/svg/splunk.svg";
  logo_needs_white_background := false |}.

Definition UptimeKuma : ServiceDefinition := {|
  def_name := "UptimeKuma";
  description := "Self-hosted uptime monitoring tool";
  def_category := Patterns.Monitoring;
  discovery_pattern := EndpointPattern Ports.Http "/" "Uptime Kuma" None;
  def_is_generic := false;
  logo_url := "https://cdn.jsdelivr.net/gh/homarr-labs/dashboard-icons/svg/uptime-kuma.svg";
  logo_needs_white_background := false |}.

Definition Wazuh : ServiceDefinition := {|
  def_name := "Wazuh";
  description := "Security platform";
  def_category := Patterns.Monitoring;
  discovery_pattern := EndpointPattern (new_tcp 55000) "/" "wazuh" None;
  def_is_generic := false;
  logo_url := "https://cdn.jsdelivr.net/gh/homarr-labs/dashboard-icons/svg/wazuh.svg";
  logo_needs_white_background := false |}.

Definition Zabbix : ServiceDefinition := {|
  def_name := "Zabbix";
  description := "Enterprise monitoring solution";
  def_category := Patterns.Monitoring;
  discovery_pattern := EndpointPattern Ports.Http "/zabbix" "zabbix" None;
  def_is_generic := false;
  logo_url := "https://cdn.jsdelivr.net/gh/homarr-labs/dashboard-icons/svg/zabbix.svg";
  logo_needs_white_background := false |}.

Definition ZabbixAgent : ServiceDefinition := {|
  def_name := "Zabbix Agent";
  description := "Monitoring agent for Zabbix server";
  def_category := Patterns.Monitoring;
  discovery_pattern := PortPattern (new_tcp 10050);
  def_is_generic := false;
  logo_url := "https://cdn.jsdelivr.net/gh/homarr-labs/dashboard-icons/svg/zabbix.svg";
  logo_needs_white_background := false |}.

Definition Zipkin : ServiceDefinition := {|
  def_name := "Zipkin";
  description := "Distributed tracing system";
  def_category := Patterns.Monitoring;
  discovery_pattern := EndpointPattern (new_tcp 9411) "/api/v2/services" "" None;
  def_is_generic := false;
  logo_url := "";
  logo_needs_white_background := false |}.

Definition Asterisk : ServiceDefinition := {|
  def_name := "Asterisk";
  description := "PBX and VoIP server";
  def_category := Patterns.Telephony;
  discovery_pattern := EndpointPattern (new_tcp 8088) "/httpstatus" "asterisk" None;
  def_is_generic := false;
  logo_url := "https://cdn.jsdelivr.net/gh/homarr-labs/dashboard-icons/png/asterisk.png";
  logo_needs_white_background := false |}.

Definition BigBlueButton : ServiceDefinition := {|
  def_name := "BigBlueButton";
  description := "Web conferencing system";
  def_category := Patterns.Conferencing;
  discovery_pattern := EndpointPattern Ports.Http "/bigbluebutton/api" "" (Some (200, 300));
  def_is_generic := false;
  logo_url := "https://simpleicons.org/icons/bigbluebutton.svg";
  logo_needs_white_background := false |}.

Definition FreePBX : ServiceDefinition := {|
  def_name := "FreePBX";
  description := "PBX web ip_address";
  def_category := Patterns.Telephony;
  discovery_pattern := AllOf [EndpointPattern Ports.Http "/" "freepbx" None; PortPattern Ports.Sip];
  def_is_generic := false;
  logo_url := "https://cdn.jsdelivr.net/gh/homarr-labs/dashboard-icons/svg/freepbx.svg";
  logo_needs_white_background := false |}.

Definition JitsiMeet : ServiceDefinition := {|
  def_name := "Jitsi Meet";
  description := "Video conferencing";
  def_category := Patterns.Conferencing;
  discovery_pattern := EndpointPattern Ports.Https8443 "/" "jitsilogo.png" None;
  def_is_generic := false;
  logo_url := "https://cdn.jsdelivr.net/gh/homarr-labs/dashboard-icons/svg/jitsi-meet.svg";
  logo_needs_white_background := false |}.

Definition Mailcow : ServiceDefinition := {|
  def_name := "mailcow";
  description := "Open-source mail server suite (Dockerized)";
  def_category := Patterns.Email;
  discovery_pattern := EndpointPattern Ports.Https "/api/v1/get/status" "mailcow" None;
  def_is_generic := false;
  logo_url := "https://cdn.jsdelivr.net/gh/homarr-labs/dashboard-icons/svg/mailcow.svg";
  logo_needs_white_background := false |}.

Definition SIPServer : ServiceDefinition := {|
  def_name := "SIP Server";
  description := "Session initiation protocol";
  def_category := Patterns.Telephony;
  discovery_pattern := AnyOf [PortPattern Ports.Sip; PortPattern Ports.SipTls];
  def_is_generic := true;
  logo_url := "";
  logo_needs_white_background := false |}.

Definition Workstation : ServiceDefinition := {|
  def_name := "Workstation";
  description := "Desktop computer for productivity work";
  def_category := Patterns.Workstation;
  discovery_pattern := AllOf [PortPattern Ports.Rdp; PortPattern Ports.Samba];
  def_is_generic := true;
  logo_url := "";
  logo_needs_white_background := false |}.

Definition Client : ServiceDefinition := {|
  def_name := "Client";
  description := "A generic client device that initiates connections to services";
  def_category := Patterns.Mobile;
  discovery_pattern := NoPattern;
  def_is_generic := false;
  logo_url := "";
  logo_needs_white_background := false |}.

Definition AmazonEcho : ServiceDefinition := {|
  def_name := "Amazon Echo";
  description := "Amazon Echo smart speaker";
  def_category := Patterns.CatIoT;
  discovery_pattern := AllOf [MacVendor "Amazon Technologies Inc."; PortPattern (new_tcp 40317)];
  def_is_generic := false;
  logo_url := "https://cdn.jsdelivr.net/gh/homarr-labs/dashboard-icons/svg/alexa.svg";
  logo_needs_white_background := false |}.

Definition BACnet : ServiceDefinition := {|
  def_name := "BACnet";
  description := "Building automation and control network protocol";
  def_category := Patterns.CatIoT;
  discovery_pattern := PortPattern Ports.BACnet;
  def_is_generic := true;
  logo_url := "";
  logo_needs_white_background := false |}.

(** [camera.rs]. *)
Definition Camera : ServiceDefinition := {|
  def_name := "RTSP Camera";
  description := "Camera with RTSP Streaming";
  def_category := Patterns.CatIoT;
  discovery_pattern := PortPattern Ports.Rtsp;
  def_is_generic := true;
  logo_url := "";
  logo_needs_white_background := false |}.

Definition ChromecastDevice : ServiceDefinition := {|
  def_name := "Chromecast";
  description := "Google Chromecast streaming device";
  def_category := Patterns.CatIoT;
  discovery_pattern :=
    AllOf [MacVendor "Google, Inc."; PortPattern (new_tcp 8008); PortPattern (new_tcp 8009)];
  def_is_generic := false;
  logo_url := "https://simpleicons.org/icons/googlecast.svg";
  logo_needs_white_background := true |}.

Definition Frigate : ServiceDefinition := {|
  def_name := "Frigate";
  description := "NVR with realtime object detection for IP Cameras";
  def_category := Patterns.CatIoT;
  discovery_pattern :=
    AnyOf
      [EndpointPattern Ports.Https "/" "<title>Frigate</title>" None;
       EndpointPattern Ports.Http5000 "/" "<title>Frigate</title>" None];
  def_is_generic := false;
  logo_url := "https://cdn.jsdelivr.net/gh/homarr-labs/dashboard-icons/svg/frigate.svg";
  logo_needs_white_background := false |}.

(** [google_home.rs]. *)
Definition GoogleHome : ServiceDefinition := {|
  def_name := "Google Home";
  description := "Google Home smart speaker or display";
  def_category := Patterns.CatIoT;
  discovery_pattern :=
    AllOf
      [AnyOf [MacVendor "Nest Labs Inc."; MacVendor "Google, Inc."];
       AllOf [PortPattern (new_tcp 8008); PortPattern (new_tcp 8009)]];
  def_is_generic := false;
  logo_url := "https://cdn.jsdelivr.net/gh/homarr-labs/dashboard-icons/svg/google-home.svg";
  logo_needs_white_background := false |}.

(** [iot.rs]. *)
Definition Iot : ServiceDefinition := {|
  def_name := "IoT";
  description := "A generic IoT Service";
  def_category := Patterns.CatIoT;
  discovery_pattern := NoPattern;
  def_is_generic := true;
  logo_url := "";
  logo_needs_white_background := false |}.

Definition NestProtect : ServiceDefinition := {|
  def_name := "Nest Protect";
  description := "Google Nest smoke and CO detector";
  def_category := Patterns.CatIoT;
  discovery_pattern :=
    AllOf
      [AnyOf [MacVendor "Nest Labs Inc."; MacVendor "Google, Inc."];
       PortPattern (new_tcp 11095)];
  def_is_generic := false;
  logo_url := "https://cdn.jsdelivr.net/gh/homarr-labs/dashboard-icons/svg/google-home.svg";
  logo_needs_white_background := false |}.

Definition NestThermostat : ServiceDefinition := {|
  def_name := "Nest Thermostat";
  description := "Google Nest smart thermostat";
  def_category := Patterns.CatIoT;
  discovery_pattern :=
    AllOf
      [AnyOf [MacVendor "Nest Labs Inc."; MacVendor "Google, Inc."];
       PortPattern (new_tcp 9543)];
  def_is_generic := false;
  logo_url := "https://cdn.jsdelivr.net/gh/homarr-labs/dashboard-icons/svg/google-home.svg";
  logo_needs_white_background := false |}.

Definition RingDoorbell : ServiceDefinition := {|
  def_name := "Ring Doorbell";
  description := "Ring video doorbell or security camera";
  def_category := Patterns.CatIoT;
  discovery_pattern :=
    AllOf
      [MacVendor "Amazon Technologies Inc.";
       AnyOf
         [PortPattern (new_tcp 8557);
          PortPattern (new_tcp 9998);
          PortPattern (new_tcp 19302);
          PortPattern (new_tcp 9999)]];
  def_is_generic := false;
  logo_url := "https://simpleicons.org/icons/ring.svg";
  logo_needs_white_background := true |}.

Definition RoborockVacuum : ServiceDefinition := {|
  def_name := "Roborock Vacuum";
  description := "Roborock robot vacuum cleaner";
  def_category := Patterns.CatIoT;
  discovery_pattern :=
    AllOf [MacVendor "Beijing Roborock Technology Co., Ltd."; PortPattern (new_tcp 58867)];
  def_is_generic := false;
  logo_url := "https://cdn.prod.website-files.com/6720fa7290112f642d0a83ac/674de5c03f0d05e27b16b2cf_roborock_logo.webp";
  logo_needs_white_background := false |}.

Definition RokuDevice : ServiceDefinition := {|
  def_name := "Roku Media Player";
  description := "Roku streaming device or TV";
  def_category := Patterns.CatIoT;
  discovery_pattern := AllOf [MacVendor "Roku, Inc"; PortPattern (new_tcp 8060)];
  def_is_generic := false;
  logo_url := "https://simpleicons.org/icons/roku.svg";
  logo_needs_white_background := true |}.

Definition SonosSpeaker : ServiceDefinition := {|
  def_name := "Sonos Speaker";
  description := "Sonos wireless speaker system";
  def_category := Patterns.CatIoT;
  discovery_pattern :=
    AllOf
      [MacVendor "Sonos, Inc.";
       AnyOf
         [PortPattern Ports.Samba;
          PortPattern (new_tcp 3445);
          PortPattern (new_tcp 1400);
          PortPattern (new_tcp 1410);
          PortPattern (new_tcp 1843);
          PortPattern (new_tcp 3400);
          PortPattern (new_tcp 3401);
          PortPattern (new_tcp 3500)]];
  def_is_generic := false;
  logo_url := "https://simpleicons.org/icons/sonos.svg";
  logo_needs_white_background := true |}.

Definition Tasmota : ServiceDefinition := {|
  def_name := "Tasmota";
  description := "ESP device firmware";
  def_category := Patterns.CatIoT;
  discovery_pattern := NoPattern;
  def_is_generic := false;
  logo_url := "https://cdn.jsdelivr.net/gh/homarr-labs/dashboard-icons/svg/tasmota.svg";
  logo_needs_white_background := true |}.

Definition TuyaSmart : ServiceDefinition := {|
  def_name := "Tuya Smart";
  description := "Tuya Smart IoT Devices";
  def_category := Patterns.CatIoT;
  discovery_pattern := AllOf [MacVendor "Tuya Smart Inc."; PortPattern (new_tcp 6668)];
  def_is_generic := false;
  logo_url := "https://cdn.jsdelivr.net/gh/homarr-labs/dashboard-icons/svg/tuya-smart-inc.svg";
  logo_needs_white_background := false |}.

Definition WiZ : ServiceDefinition := {|
  def_name := "Wiz";
  description := "Wiz IoT Devices";
  def_category := Patterns.CatIoT;
  discovery_pattern := MacVendor "WiZ";
  def_is_generic := false;
  logo_url := "https://cdn.jsdelivr.net/gh/homarr-labs/dashboard-icons/svg/wiz.svg";
  logo_needs_white_background := false |}.

Definition CUPS : ServiceDefinition := {|
  def_name := "CUPS";
  description := "Common Unix Printing System";
  def_category := Patterns.Printer;
  discovery_pattern := AllOf [PortPattern Ports.Ipp; EndpointPattern Ports.Http "/" "CUPS" None];
  def_is_generic := false;
  logo_url := "https://cdn.jsdelivr.net/gh/homarr-labs/dashboard-icons/svg/cups.svg";
  logo_needs_white_background := true |}.

Definition HpPrinter : ServiceDefinition := {|
  def_name := "HP Printer";
  description := "An HP Printer";
  def_category := Patterns.Printer;
  discovery_pattern :=
    AllOf
      [AnyOf
         [EndpointPattern Ports.Http "" "LaserJet" None;
          EndpointPattern Ports.Http "" "DeskJet" None;
          EndpointPattern Ports.Http "" "OfficeJet" None;
          EndpointPattern Ports.Http8080 "" "LaserJet" None;
          EndpointPattern Ports.Http8080 "" "DeskJet" None;
          EndpointPattern Ports.Http8080 "" "OfficeJet" None];
       AnyOf [PortPattern Ports.Ipp; PortPattern Ports.LdpTcp; PortPattern Ports.LdpUdp]];
  def_is_generic := false;
  logo_url := "https://cdn.jsdelivr.net/gh/homarr-labs/dashboard-icons/svg/hp.svg";
  logo_needs_white_background := true |}.

Definition JetDirect : ServiceDefinition := {|
  def_name := "JetDirect";
  description := "HP JetDirect RAW printing protocol";
  def_category := Patterns.Printer;
  discovery_pattern := PortPattern Ports.JetDirect;
  def_is_generic := true;
  logo_url := "";
  logo_needs_white_background := false |}.

Definition PrintServer : ServiceDefinition := {|
  def_name := "Print Server";
  description := "A generic printing service";
  def_category := Patterns.Printer;
  discovery_pattern :=
    AnyOf [PortPattern Ports.Ipp; PortPattern Ports.LdpTcp; PortPattern Ports.LdpUdp];
  def_is_generic := true;
  logo_url := "";
  logo_needs_white_background := false |}.

Definition ActualBudget : ServiceDefinition := {|
  def_name := "Actual Budget";
  description := "A local-first personal finance app";
  def_category := Patterns.Office;
  discovery_pattern := EndpointPattern (new_tcp 5006) "/manifest.webmanifest" "@actual-app/web" None;
  def_is_generic := false;
  logo_url := "https://cdn.jsdelivr.net/gh/homarr-labs/dashboard-icons/svg/actual-budget.svg";
  logo_needs_white_background := false |}.

Definition Autobrr : ServiceDefinition := {|
  def_name := "Autobrr";
  description := "The modern autodl-irssi replacement.";
  def_category := Patterns.Media;
  discovery_pattern := PortPattern (new_tcp 7474);
  def_is_generic := false;
  logo_url := "https://cdn.jsdelivr.net/gh/homarr-labs/dashboard-icons/svg/autobrr.svg";
  logo_needs_white_background := false |}.

Definition BackRest : ServiceDefinition := {|
  def_name := "BackRest";
  description := "Web UI and orchestrator for Restic";
  def_category := Patterns.Backup;
  discovery_pattern := EndpointPattern (new_tcp 9898) "/" "BackRest" None;
  def_is_generic := false;
  logo_url := "https://cdn.jsdelivr.net/gh/homarr-labs/dashboard-icons/svg/backrest-light.svg";
  logo_needs_white_background := false |}.

Definition Cleanuparr : ServiceDefinition := {|
  def_name := "Cleanuparr";
  description := "Torrent cleanup tool for Sonarr and Radarr";
  def_category := Patterns.Media;
  discovery_pattern := PortPattern (new_tcp 11011);
  def_is_generic := false;
  logo_url := "https://cdn.jsdelivr.net/gh/homarr-labs/dashboard-icons/svg/cleanuperr.svg";
  logo_needs_white_background := false |}.

Definition Docmost : ServiceDefinition := {|
  def_name := "Docmost";
  description := "Open-source collaborative wiki and documentation platform";
  def_category := Patterns.ProjectManagement;
  discovery_pattern :=
    AnyOf
      [EndpointPattern Ports.Http3000 "/" "<title>Docmost</title>" None;
       EndpointPattern Ports.Http "/" "<title>Docmost</title>" None;
       EndpointPattern Ports.Https "/" "<title>Docmost</title>" None];
  def_is_generic := false;
  logo_url := "https://cdn.jsdelivr.net/gh/homarr-labs/dashboard-icons/png/docmost.png";
  logo_needs_white_background := true |}.

Definition FireflyIii : ServiceDefinition := {|
  def_name := "Firefly III";
  description := "Open-source personal finance manager";
  def_category := Patterns.Office;
  discovery_pattern :=
    AnyOf
      [HeaderPattern None "set-cookie" "firefly_iii_session" None;
       EndpointPattern Ports.Http8080 "/" "Login to Firefly III" None;
       EndpointPattern Ports.Http "/" "Login to Firefly III" None;
       EndpointPattern Ports.Https "/" "Login to Firefly III" None];
  def_is_generic := false;
  logo_url := "https://cdn.jsdelivr.net/gh/homarr-labs/dashboard-icons/svg/firefly-iii.svg";
  logo_needs_white_background := false |}.

Definition FreshRSS : ServiceDefinition := {|
  def_name := "FreshRSS";
  description := "A free, self-hostable news aggregator";
  def_category := Patterns.Publishing;
  discovery_pattern :=
    EndpointPattern Ports.Http "/themes/manifest.json" "FreshRSS feed aggregator" None;
  def_is_generic := false;
  logo_url := "https://cdn.jsdelivr.net/gh/homarr-labs/dashboard-icons/svg/freshrss.svg";
  logo_needs_white_background := false |}.

Definition Grocy : ServiceDefinition := {|
  def_name := "Grocy";
  description := "Web-based self-hosted groceries & household management solution";
  def_category := Patterns.HomeAutomation;
  discovery_pattern :=
    AnyOf
      [EndpointPattern Ports.Http "/" "grocy.css" None;
       EndpointPattern Ports.Https "/" "grocy.css" None];
  def_is_generic := false;
  logo_url := "https://cdn.jsdelivr.net/gh/homarr-labs/dashboard-icons/svg/grocy.svg";
  logo_needs_white_background := false |}.

Definition Huntarr : ServiceDefinition := {|
  def_name := "Huntarr";
  description := "Finds missing media and upgrades your existing content.";
  def_category := Patterns.Media;
  discovery_pattern := PortPattern (new_tcp 9705);
  def_is_generic := false;
  logo_url := "https://cdn.jsdelivr.net/gh/homarr-labs/dashboard-icons/png/huntarr.png";
  logo_needs_white_background := false |}.

Definition Jotty : ServiceDefinition := {|
  def_name := "Jotty";
  description := "A simple, self-hosted app for your checklists and notes";
  def_category := Patterns.Office;
  discovery_pattern := EndpointPattern Ports.Http3000 "/site.webmanifest" "jotty" None;
  def_is_generic := false;
  logo_url := "https://cdn.jsdelivr.net/gh/homarr-labs/dashboard-icons/svg/jotty.svg";
  logo_needs_white_background := false |}.

Definition Karakeep : ServiceDefinition := {|
  def_name := "Karakeep";
  description := "The Bookmark Everything App";
  def_category := Patterns.Media;
  discovery_pattern := EndpointPattern Ports.Http3000 "/manifest.json" "Karakeep" None;
  def_is_generic := false;
  logo_url := "https://cdn.jsdelivr.net/gh/homarr-labs/dashboard-icons/svg/karakeep.svg";
  logo_needs_white_background := false |}.

Definition Lidarr : ServiceDefinition := {|
  def_name := "Lidarr";
  description := "A music collection manager for Usenet and BitTorrent users.";
  def_category := Patterns.Media;
  discovery_pattern := EndpointPattern (new_tcp 8686) "/Content/manifest.json" "Lidarr" None;
  def_is_generic := false;
  logo_url := "https://cdn.jsdelivr.net/gh/homarr-labs/dashboard-icons/svg/lidarr.svg";
  logo_needs_white_background := false |}.

Definition Lubelogger : ServiceDefinition := {|
  def_name := "Lubelogger";
  description := "Vehicle Maintenance Records and Fuel Mileage Tracker";
  def_category := Patterns.HomeAutomation;
  discovery_pattern := EndpointPattern Ports.Http8080 "/" "Garage - LubeLogger" None;
  def_is_generic := false;
  logo_url := "https://cdn.jsdelivr.net/gh/homarr-labs/dashboard-icons/png/lubelogger.png";
  logo_needs_white_background := false |}.

Definition MeTube : ServiceDefinition := {|
  def_name := "MeTube";
  description := "Self-hosted YouTube downloader";
  def_category := Patterns.Media;
  discovery_pattern := EndpointPattern Ports.Http8081 "/manifest.webmanifest" "MeTube" None;
  def_is_generic := false;
  logo_url := "https://cdn.jsdelivr.net/gh/homarr-labs/dashboard-icons/svg/metube.svg";
  logo_needs_white_background := false |}.

Definition Mealie : ServiceDefinition := {|
  def_name := "Mealie";
  description := "A self-hosted recipe manager and meal planner";
  def_category := Patterns.HomeAutomation;
  discovery_pattern :=
    AllOf
      [EndpointPattern Ports.Http9000 "/" "Mealie" None;
       EndpointPattern Ports.Http9000 "/" "recipe" None];
  def_is_generic := false;
  logo_url := "https://cdn.jsdelivr.net/gh/homarr-labs/dashboard-icons/svg/mealie.svg";
  logo_needs_white_background := false |}.

Definition Memos : ServiceDefinition := {|
  def_name := "Memos";
  description := "An open-source, self-hosted note-taking service.";
  def_category := Patterns.Office;
  discovery_pattern := EndpointPattern (new_tcp 5230) "/explore" "Memos" None;
  def_is_generic := false;
  logo_url := "https://cdn.jsdelivr.net/gh/homarr-labs/dashboard-icons/png/memos.png";
  logo_needs_white_background := false |}.

Definition Netbootxyz : ServiceDefinition := {|
  def_name := "Netbootxyz";
  description := "PXE Boot Server";
  def_category := Patterns.CatStorage;
  discovery_pattern := EndpointPattern (new_tcp 61208) "/" "Netbootxyz" None;
  def_is_generic := false;
  logo_url := "https://cdn.jsdelivr.net/gh/homarr-labs/dashboard-icons/svg/netbootxyz.svg";
  logo_needs_white_background := false |}.

Definition NUT : ServiceDefinition := {|
  def_name := "NUT";
  description := "Network UPS Tools";
  def_category := Patterns.Monitoring;
  discovery_pattern := PortPattern (new_tcp 3493);
  def_is_generic := false;
  logo_url := "https://cdn.jsdelivr.net/gh/homarr-labs/dashboard-icons/svg/nut.svg";
  logo_needs_white_background := false |}.

Definition Ollama : ServiceDefinition := {|
  def_name := "Ollama";
  description := "An easy way to get up and running with LLMs.";
  def_category := Patterns.Development;
  discovery_pattern := EndpointPattern (new_tcp 11434) "/" "Ollama is running" None;
  def_is_generic := false;
  logo_url := "https://cdn.jsdelivr.net/gh/homarr-labs/dashboard-icons/svg/ollama-dark.svg";
  logo_needs_white_background := false |}.

Definition OpenWebUI : ServiceDefinition := {|
  def_name := "Open WebUI";
  description := "Open, extensible, user-friendly ip_address for AI";
  def_category := Patterns.Development;
  discovery_pattern := EndpointPattern Ports.Http8080 "/manifest.json" "Open WebUI" None;
  def_is_generic := false;
  logo_url := "https://cdn.jsdelivr.net/gh/homarr-labs/dashboard-icons/svg/open-webui-light.svg";
  logo_needs_white_background := false |}.

Definition PaperlessNGX : ServiceDefinition := {|
  def_name := "Paperless-NGX";
  description := "Community-supported document management system";
  def_category := Patterns.Office;
  discovery_pattern :=
    EndpointPattern (new_tcp 8000) "/static/frontend/en-US/manifest.webmanifest" "Paperless-ngx"
        None;
  def_is_generic := false;
  logo_url := "https://cdn.jsdelivr.net/gh/homarr-labs/dashboard-icons/svg/paperless-ngx.svg";
  logo_needs_white_background := true |}.

Definition PeaNut : ServiceDefinition := {|
  def_name := "PeaNUT";
  description := "A tiny dashboard for Network UPS Tools";
  def_category := Patterns.Monitoring;
  discovery_pattern := EndpointPattern Ports.Http8080 "/api/v1/info" "peanut" None;
  def_is_generic := false;
  logo_url := "https://cdn.jsdelivr.net/gh/homarr-labs/dashboard-icons/svg/peanut.svg";
  logo_needs_white_background := false |}.

Definition PocketID : ServiceDefinition := {|
  def_name := "Pocket ID";
  description := "A Simple OIDC provider that uses passkeys for authentication";
  def_category := Patterns.IdentityAndAccess;
  discovery_pattern := EndpointPattern (new_tcp 1411) "/app.webmanifest" "Pocket ID" None;
  def_is_generic := false;
  logo_url := "https://cdn.jsdelivr.net/gh/homarr-labs/dashboard-icons/svg/pocket-id-light.svg";
  logo_needs_white_background := false |}.

Definition Prowlarr : ServiceDefinition := {|
  def_name := "Prowlarr";
  description := "The Ultimate Indexer Manager.";
  def_category := Patterns.Media;
  discovery_pattern :=
    EndpointPattern (new_tcp 3232) "/Content/Images/Icons/manifest.json" "Prowlarr" None;
  def_is_generic := false;
  logo_url := "https://cdn.jsdelivr.net/gh/homarr-labs/dashboard-icons/svg/prowlarr.svg";
  logo_needs_white_background := false |}.

Definition QBittorrent : ServiceDefinition := {|
  def_name := "qBittorrent";
  description := "Cross-platform open-source BitTorrent client";
  def_category := Patterns.Media;
  discovery_pattern :=
    AnyOf
      [EndpointPattern Ports.Http8080 "/" "qBittorrent logo" None;
       EndpointPattern (new_tcp 8090) "/" "qBittorrent logo" None];
  def_is_generic := false;
  logo_url := "https://cdn.jsdelivr.net/gh/homarr-labs/dashboard-icons/svg/qbittorrent.svg";
  logo_needs_white_background := false |}.

Definition Radarr : ServiceDefinition := {|
  def_name := "Radarr";
  description := "A movie collection manager for Usenet and BitTorrent users.";
  def_category := Patterns.Media;
  discovery_pattern :=
    AnyOf
      [EndpointPattern (new_tcp 7878) "/Content/manifest.json" "Radarr" None;
       EndpointPattern (new_tcp 9898) "/Content/manifest.json" "Radarr" None];
  def_is_generic := false;
  logo_url := "https://cdn.jsdelivr.net/gh/homarr-labs/dashboard-icons/svg/radarr.svg";
  logo_needs_white_background := false |}.

Definition Sonarr : ServiceDefinition := {|
  def_name := "Sonarr";
  description := "A TV collection manager for Usenet and BitTorrent users.";
  def_category := Patterns.Media;
  discovery_pattern := EndpointPattern (new_tcp 8989) "/Content/manifest.json" "Sonarr" None;
  def_is_generic := false;
  logo_url := "https://cdn.jsdelivr.net/gh/homarr-labs/dashboard-icons/svg/sonarr.svg";
  logo_needs_white_background := false |}.

Definition Wizarr : ServiceDefinition := {|
  def_name := "Wizarr";
  description := "User invitation and management system for Jellyfin, Plex, Emby etc";
  def_category := Patterns.Media;
  discovery_pattern := EndpointPattern (new_tcp 5690) "/static/manifest.json" "Wizarr" None;
  def_is_generic := false;
  logo_url := "https://cdn.jsdelivr.net/gh/homarr-labs/dashboard-icons/svg/wizarr.svg";
  logo_needs_white_background := false |}.

Definition OpenPorts : ServiceDefinition := {|
  def_name := "Unclaimed Open Ports";
  description := "Unclaimed open ports. Reassign to the correct service if known.";
  def_category := Patterns.OpenPorts;
  discovery_pattern :=
    CustomPattern (λ params, negb (bool_decide (unbound_ports params = []))) unbound_ports
    "Has unbound open ports" "No unbound ports remaining" NotApplicable;
  def_is_generic := true;
  logo_url := "";
  logo_needs_white_background := false |}.

Definition ScanopyDaemon : ServiceDefinition := {|
  def_name := "Scanopy Daemon";
  description := "Automatically discover and visually document network infrastructure";
  def_category := Patterns.Scanopy;
  discovery_pattern := EndpointPattern (new_tcp 60073) "/api/health" "scanopy" None;
  def_is_generic := false;
  logo_url := "https://cdn.jsdelivr.net/gh/scanopy/scanopy@main/media/logo.png";
  logo_needs_white_background := false |}.

Definition ScanopyServer : ServiceDefinition := {|
  def_name := "Scanopy Server";
  description := "Automatically discover and visually document network infrastructure";
  def_category := Patterns.Scanopy;
  discovery_pattern := EndpointPattern (new_tcp 60072) "/api/health" "scanopy" None;
  def_is_generic := false;
  logo_url := "https://cdn.jsdelivr.net/gh/scanopy/scanopy@main/media/logo.png";
  logo_needs_white_background := false |}.

Definition definitions_with (gw : string → bool) : list ServiceDefinition := [
  DhcpServer; Gateway gw; NtpServer; RemoteDesktop; RustDesk; SaltMaster; SaltProxy; Snmp; Ssh;
  Switch; Telnet; Termix; UnifiGateway; UnifiSwitch; AccessPoint; EeroGateway; EeroRepeater;
  FiosExtender; FiosGateway; GoogleNestRepeater; GoogleNestRouter; InstantOn;
  InstantOnAccessPoint; InstantOnGateway; InstantOnSwitch; Mikrotik; TpLinkEap;
  UbiquitiDiscovery; UnifiAccessPoint; UnifiController; CrowdSec; Firewall; Fortinet; OpnSense;
  PfBlockerNg; PfSense; Bind9; DnsServer; PowerDNS; Unbound; Cloudflared; OpenVpn; StrongSwan;
  WgDashboard; Wireguard; Caddy; HAProxy; Iis; Kong; NginxProxyManager; Traefik; Tyk;
  AdguardHome; PiHole; Ceph; FileServer; FileZillaServer; MinIO; NextCloud; NFSServer;
  OpenMediaVault; OwnCloud; QNAP; Samba; Seafile; Syncthing; Synology; TrueNAS; Bacula;
  Duplicati; ProxmoxBackupServer; Restic; Unimus; Veeam; AudioBookShelf; Bazarr; BookLore; Emby;
  Immich; Jellyfin; Jellyseerr; Jellystat; Komga; Overseerr; Plex; SABnzbd; Serviio; Slskd;
  Tautulli; Domoticz; ESPHome; HomeAssistant; OpenHAB; PhilipsHueBridge; Zigbee2MQTT; ZWaveJS;
  DockerContainer; Docker; DockerSwarm; Dockge; Esxi; Kubernetes; Nomad; OpenShift; Podman;
  PodmanContainer; Portainer; Proxmox; Rancher; VCenter; Cassandra; CouchDB; Denodo;
  Elasticsearch; HyperFile; InfluxDB; MariaDB; MongoDB; MSSQLServer; MySQL; Neo4j; OracleDB;
  PostgreSQL; RedisDB; ActiveMQ; Amqp; Kafka; MQTT; Ntfy; RabbitMQ; ConfluenceServer; Discourse;
  JiraServer; Mattermost; Radicale; RocketChat; AnsibleAWX; Appwrite; ArgoCD; Bamboo;
  BitbucketServer; DroneCI; Forgejo; Gitea; GitHubEnterprise; GitLab; Jenkins; N8n; NATS;
  Spinnaker; TeamCity; Ghost; MendelsonAs2; Tomcat; WebService; WordPress; ActiveDirectory;
  Authentik; Bitwarden; FreeIPA; Kerberos; Keycloak; LDAP; Vault; Vaultwarden; GlanceApp;
  Homarr; Homepage; Jump; LinkStack; ProxmoxDatacenterManager; APC; BeszelAgent; Cadvisor;
  CheckmkAgent; CoolerControl; ElasticAPM; Gatus; Glances; Grafana; Graylog; Icinga; Jaeger;
  Loki; Nagios; NcpaAgent; Netdata; NvidiaGpuExporter; OpenSpeedTest; Prometheus;
  PrometheusNodeExporter; Promtail; Pulse; Sensu; Sentry; Splunk; UptimeKuma; Wazuh; Zabbix;
  ZabbixAgent; Zipkin; Asterisk; BigBlueButton; FreePBX; JitsiMeet; Mailcow; SIPServer;
  Workstation; Client; AmazonEcho; BACnet; Camera; ChromecastDevice; Frigate; GoogleHome; Iot;
  NestProtect; NestThermostat; RingDoorbell; RoborockVacuum; RokuDevice; SonosSpeaker; Tasmota;
  TuyaSmart; WiZ; CUPS; HpPrinter; JetDirect; PrintServer; ActualBudget; Autobrr; BackRest;
  Cleanuparr; Docmost; FireflyIii; FreshRSS; Grocy; Huntarr; Jotty; Karakeep; Lidarr;
  Lubelogger; MeTube; Mealie; Memos; Netbootxyz; NUT; Ollama; OpenWebUI; PaperlessNGX; PeaNut;
  PocketID; Prowlarr; QBittorrent; Radarr; Sonarr; Wizarr; OpenPorts; ScanopyDaemon;
  ScanopyServer].

(** [ServiceDefinitionExt::is_gateway] of a definition, by its id: the pattern
    of [Gateway] is a gateway pattern whatever its constraint is. *)
Definition is_gateway_id : string → bool :=
  @is_gateway (registry_facts (definitions_with (λ _, false))).

(** [all_service_definitions], up to the order in which the linker collects. *)
Definition all_definitions : list ServiceDefinition := definitions_with is_gateway_id.
End Catalog.
