(* ===== verification/Registry.v ===== *)
(** What a scan can find: the endpoint scan ([scan_endpoints] of
    [daemon/utils/scanner.rs]) and properties of the registry of service
    definitions as a whole. *)

From S2P Require Import Prelude Net Ports Discovery Entities ServiceIdentity Patterns Definitions.
Local Open Scope Z_scope.
Local Open Scope string_scope.

(** ** The endpoint scan *)

(** What the HTTP client returns. *)
Record Reply := { re_status : Z; re_headers : list (string * string); re_body : string }.

Section Scan.
Context (registry : list ServiceDefinition).
(** [fetch https port path]: a request to the scanned address. *)
Context (fetch : bool → Z → string → option Reply).

(** The endpoints in question: raw socket ports only on request, and only the
    ports of the filter. *)
Definition wanted (filter_ports : option (list PortType)) (probe_raw_socket_ports : bool)
    (e : Endpoint) : bool :=
  if negb probe_raw_socket_ports && is_raw_socket (ep_port_type e) then false
  else match filter_ports with
       | Some ps => existsb (λ p, port_eqb p (ep_port_type e)) ps
       | None => true
       end.

(** The key of [unique_endpoints]. *)
Definition probe_key (e : Endpoint) : Z * string := (port_number (ep_port_type e), ep_path e).

(** The first endpoint with each key ([entry(key).or_insert(endpoint)]). *)
Fixpoint unique_endpoints (seen : list (Z * string)) (l : list Endpoint) : list Endpoint :=
  match l with
  | [] => []
  | e :: l' =>
      if bool_decide (probe_key e ∈ seen) then unique_endpoints seen l'
      else e :: unique_endpoints (probe_key e :: seen) l'
  end.

Definition probe_plan (filter_ports : option (list PortType)) (probe_raw_socket_ports : bool)
    : list Endpoint :=
  unique_endpoints []
    (List.filter (wanted filter_ports probe_raw_socket_ports) (all_discovery_endpoints registry)).

(** One probe: the preferred scheme first, then the other. *)
Definition probe (ip : IpAddr) (use_https_ports : option (gmap Z bool)) (e : Endpoint)
    : option EndpointResponse :=
  let number := port_number (ep_port_type e) in
  let https_first :=
    match use_https_ports with Some m => default false (m !! number) | None => false end in
  let respond r := {| endpoint := use_ip ip e; body := re_body r;
                      headers := (λ h, (to_lowercase h.1, h.2)) <$> re_headers r;
                      status := re_status r |} in
  match fetch https_first number (ep_path e) with
  | Some r => Some (respond r)
  | None => respond <$> fetch (negb https_first) number (ep_path e)
  end.

(** [scan_endpoints]; the batches complete in any order. *)
Definition scan_endpoints (ip : IpAddr) (filter_ports : option (list PortType))
    (use_https_ports : option (gmap Z bool)) (probe_raw_socket_ports : bool)
    : list EndpointResponse :=
  omap (probe ip use_https_ports) (probe_plan filter_ports probe_raw_socket_ports).
End Scan.

(** ** What a pattern needs from a scan *)
Section Feasible.
Context (plan : list Endpoint).

(** The responses of a scan come from its plan. *)
Definition planned (ip : IpAddr) (rs : list EndpointResponse) : Prop :=
  ∀ r, r ∈ rs → ∃ e, e ∈ plan ∧ endpoint r = use_ip ip e.

Definition nonempty_range (r : option (Z * Z)) : bool :=
  ((expected_range r).1 <? (expected_range r).2)%Z.

Definition endpoint_planned (port : PortType) (path : string) (e : Endpoint) : bool :=
  bool_decide (ep_protocol e = HttpProtocol)
  && (port_number (ep_port_type e) =? port_number port)%Z
  && bool_decide (port_protocol (ep_port_type e) = port_protocol port)
  && String.eqb (ep_path e) path.

Definition header_planned (port : option PortType) (e : Endpoint) : bool :=
  match port with Some p => port_eqb (ep_port_type e) p | None => true end.

(** Necessary for a match: the responses a pattern asks for can be in the scan. *)
Fixpoint feasible (p : Pattern) : bool :=
  match p with
  | AnyOf ps => existsb feasible ps
  | AllOf ps => forallb feasible ps
  | EndpointPattern port path _ range =>
      nonempty_range range && existsb (endpoint_planned port path) plan
  | HeaderPattern port _ _ range => nonempty_range range && existsb (header_planned port) plan
  | NoPattern => false
  | _ => true
  end.
End Feasible.

(** ** Evidence for a pattern

    The friendliest scan for a pattern: every port it names is open, every
    planned endpoint it names answers as it asks, and so on. *)
Section Evidence.
Context (plan : list Endpoint) (ip : IpAddr).

Definition answer (e : Endpoint) (text : string) (hs : list (string * string))
    (range : option (Z * Z)) : EndpointResponse :=
  {| endpoint := use_ip ip e; body := text; headers := hs; status := (expected_range range).1 |}.

Fixpoint clue_responses (p : Pattern) : list EndpointResponse :=
  match p with
  | AnyOf ps | AllOf ps => List.concat (List.map clue_responses ps)
  | EndpointPattern port path text range =>
      match List.find (endpoint_planned port path) plan with
      | Some e => [answer e text [] range]
      | None => []
      end
  | HeaderPattern port header value range =>
      match List.find (header_planned port) plan with
      | Some e => [answer e "" [(header, value)] range]
      | None => []
      end
  | _ => []
  end.

Fixpoint clue_ports (p : Pattern) : list PortType :=
  match p with
  | AnyOf ps | AllOf ps => List.concat (List.map clue_ports ps)
  | PortPattern q => [q]
  | CustomPattern _ _ _ _ _ => [Ports.Http]
  | _ => []
  end.

(** The first atom with a property. *)
Fixpoint first_clue {A} (f : Pattern → option A) (p : Pattern) : option A :=
  match p with
  | AnyOf ps | AllOf ps => head (omap (first_clue f) ps)
  | _ => f p
  end.

Definition evidence (gateway : bool) (v : ServiceVirtualization) (d : ServiceDefinition) : MatchParams :=
  let p := discovery_pattern d in {|
  mp_host_id := 1; gateway_ips := if gateway then [ip] else []; mp_daemon_id := 2; mp_network_id := 3;
  mp_discovery_type := SelfReport 1;
  mp_subnet := {| s_id := 4; s_meta := fresh_meta 0; s_base :=
    {| cidr := {| cidr_addr := ip; cidr_prefix := 24 |}; s_network_id := 3;
       s_name := "lan"; s_description := None;
       subnet_type := default SLan (first_clue (λ q, match q with SubnetIsType t => Some t | _ => None end) p);
       s_virtualization_service_id := None; s_source := SourceSystem; s_tags := [] |} |};
  mp_ip_address :=
    {| ip_id := 5; ip_meta := fresh_meta 0;
       ip_base := {| ip_network_id := 3; ip_host_id := 1; subnet_id := 4; ip_address := ip;
                     mac_address := Some 0; ip_name := None; ip_position := 0 |} |};
  all_ports := clue_ports p; endpoint_responses := clue_responses p;
  mp_virtualization_metadata := Some v; mp_virtualization_service_id := None;
  client_responses := λ _, Some [];
  managed_device :=
    first_clue (λ q, match q with ManagedDeviceType t => Some {| device_type := t |} | _ => None end) p;
  mp_service_definition := def_name d; matched_services := []; unbound_ports := clue_ports p |}.

Definition vendor_of (d : ServiceDefinition) (_ : Z) : option string :=
  first_clue (λ q, match q with MacVendor v => Some v | _ => None end) (discovery_pattern d).

Definition containers : list ServiceVirtualization :=
  let info := {| info_name := Some "c"; info_id := Some "1"; info_compose_project := None |} in
  [VirtDocker info; VirtPodman info].

(** The friendliest scans succeed. *)
Definition detects (d : ServiceDefinition) : bool :=
  existsb (λ g, existsb (λ v, holds (vendor_of d) (evidence g v d) (discovery_pattern d)) containers)
    [true; false].
End Evidence.

(** ** Lemmas *)

Lemma elem_of_concat_map {A B} (f : A → list B) l y :
  y ∈ List.concat (List.map f l) ↔ ∃ x, x ∈ l ∧ y ∈ f x.
Proof. exact (concat_fmap_elem f l y). Qed.

Lemma unique_endpoints_subset seen l e :
  e ∈ unique_endpoints seen l → e ∈ l ∧ probe_key e ∉ seen.
Proof.
  revert seen. induction l as [|x l IH]; intros seen; simpl; [by intros ?%elem_of_nil|].
  case_bool_decide as Hx.
  - intros [? ?]%IH. split; [by right|done].
  - intros [->|[? Hn]%IH]%elem_of_cons; [split; [left|done]|].
    split; [by right|]. set_solver.
Qed.

Lemma unique_endpoints_complete seen l e :
  e ∈ l → probe_key e ∈ seen ∨ ∃ e', e' ∈ unique_endpoints seen l ∧ probe_key e' = probe_key e.
Proof.
  revert seen. induction l as [|x l IH]; intros seen; simpl; [by intros ?%elem_of_nil|].
  intros [->|He]%elem_of_cons; case_bool_decide as Hx.
  - by left.
  - right. exists x. split; [left|done].
  - destruct (IH seen He); [by left|by right].
  - destruct (IH (probe_key x :: seen) He) as [[E|?]%elem_of_cons|(e' & ? & ?)].
    + right. exists x. split; [left|done].
    + by left.
    + right. exists e'. split; [by right|done].
Qed.

Lemma unique_endpoints_keys seen l : NoDup (probe_key <$> unique_endpoints seen l).
Proof.
  revert seen. induction l as [|x l IH]; intros seen; simpl; [constructor|].
  case_bool_decide; [done|]. simpl. apply list.NoDup_cons. split; [|done].
  intros (e & E & He%unique_endpoints_subset)%list_elem_of_fmap. rewrite <-E in *. set_solver.
Qed.

Lemma probe_key_response fetch ip https e r :
  probe fetch ip https e = Some r → probe_key (endpoint r) = probe_key e.
Proof.
  unfold probe. destruct (fetch _ _ _); [intros [= <-]; done|].
  destruct (fetch (negb _) _ _); [intros [= <-]; done|done].
Qed.

Lemma in_nonempty_range range s : in_range (expected_range range) s = true → nonempty_range range = true.
Proof. unfold in_range, nonempty_range. rewrite andb_true_iff, Z.leb_le, !Z.ltb_lt. lia. Qed.

Section FeasibleFacts.
Context (plan : list Endpoint) (oui_db : Z → option string) (params : MatchParams) (ip : IpAddr).
Context (Hplan : planned plan ip (endpoint_responses params)).

(** A pattern that holds of a planned scan was feasible. *)
Lemma feasible_sound p : holds oui_db params p = true → feasible plan p = true.
Proof using Hplan.
  induction p as [ps IH|ps IH|p IH|p H1 H2 H3] using Pattern_ind'; cbn [holds feasible].
  - rewrite !existsb_exists. rewrite List.Forall_forall in IH. naive_solver.
  - rewrite !forallb_forall. rewrite List.Forall_forall in IH. naive_solver.
  - done.
  - destruct p; try done; cbn [holds feasible]; [by destruct (H1 patterns)|by destruct (H2 patterns)|..].
    + intros (r & Hr & Hm)%existsb_elem. apply Hplan in Hr as (e & He & Hep).
      apply andb_true_iff in Hm as [[Hm Hs]%andb_true_iff _]. rewrite Hep in Hm.
      apply andb_true_iff. split; [by eapply in_nonempty_range|]. apply existsb_elem. by exists e.
    + intros (r & Hr & Hm)%existsb_elem. apply Hplan in Hr as (e & He & Hep).
      apply andb_true_iff in Hm as [[Hm Hs]%andb_true_iff _]. rewrite Hep in Hm.
      apply andb_true_iff. split; [by eapply in_nonempty_range|]. apply existsb_elem. by exists e.
Qed.
End FeasibleFacts.

Lemma clue_responses_planned plan ip p : planned plan ip (clue_responses plan ip p).
Proof.
  induction p as [ps IH|ps IH|p IH|p H1 H2 H3] using Pattern_ind'; cbn [clue_responses].
  1, 2: intros r (q & Hq%list_elem_of_In & Hr)%elem_of_concat_map;
    rewrite List.Forall_forall in IH; by apply (IH q).
  - by intros r ?%elem_of_nil.
  - destruct p; cbn [clue_responses];
      try (by intros r ?%elem_of_nil); [by destruct (H1 patterns)|by destruct (H2 patterns)|..];
      (destruct (List.find _ plan) as [e|] eqn:E; [|by intros r ?%elem_of_nil]);
      apply find_some in E as [He%list_elem_of_In _];
      intros r ->%list_elem_of_singleton; by exists e.
Qed.

(** ** The properties *)

Section ScanFacts.
Context (registry : list ServiceDefinition) (fetch : bool → Z → string → option Reply).

(** The endpoint scan is sound and complete for its plan: a response comes
    from a request actually made, for an endpoint of the registry on a wanted
    port, no port and path are requested twice, and every wanted endpoint whose
    port and path answer over either scheme has a response for them. *)
Theorem scan_endpoints_spec ip filter_ports https raw :
  let rs := scan_endpoints registry fetch ip filter_ports https raw in
  (∀ r, r ∈ rs → ∃ e scheme reply,
     e ∈ all_discovery_endpoints registry ∧ wanted filter_ports raw e = true
     ∧ endpoint r = use_ip ip e
     ∧ fetch scheme (port_number (ep_port_type e)) (ep_path e) = Some reply
     ∧ status r = re_status reply ∧ body r = re_body reply)
  ∧ NoDup ((λ r, probe_key (endpoint r)) <$> rs)
  ∧ (∀ e scheme, e ∈ all_discovery_endpoints registry → wanted filter_ports raw e = true →
     is_Some (fetch scheme (port_number (ep_port_type e)) (ep_path e)) →
     ∃ r, r ∈ rs ∧ probe_key (endpoint r) = probe_key e).
Proof.
  cbn zeta. unfold scan_endpoints, probe_plan. split_and!.
  - intros r (e & He & Hr)%list_elem_of_omap. apply unique_endpoints_subset in He as [He _].
    apply list_elem_of_In, filter_In in He as [He%list_elem_of_In Hw].
    unfold probe in Hr. destruct (fetch _ _ _) as [reply|] eqn:E1.
    + inv Hr. eauto 10.
    + destruct (fetch (negb _) _ _) as [reply|] eqn:E2; [|done]. inv Hr. eauto 10.
  - pose proof (unique_endpoints_keys []
      (List.filter (wanted filter_ports raw) (all_discovery_endpoints registry))) as Hnd.
    induction (unique_endpoints _ _) as [|e l IH]; simpl; [constructor|].
    apply list.NoDup_cons in Hnd as [Hn Hnd]. specialize (IH Hnd).
    destruct (probe fetch ip https e) as [r|] eqn:E; [|done]. simpl. apply list.NoDup_cons.
    split; [|done]. rewrite (probe_key_response _ _ _ _ _ E).
    intros (r' & Ek & (e' & He' & Er')%list_elem_of_omap)%list_elem_of_fmap.
    apply Hn, list_elem_of_fmap. exists e'. by rewrite Ek, (probe_key_response _ _ _ _ _ Er').
  - intros e scheme He Hw [reply Hf].
    assert (e ∈ List.filter (wanted filter_ports raw) (all_discovery_endpoints registry)) as Hin.
    { apply list_elem_of_In, filter_In. by rewrite <-list_elem_of_In. }
    destruct (unique_endpoints_complete [] _ e Hin) as [[]%elem_of_nil|(e' & He' & Ek)].
    destruct (probe fetch ip https e') as [r|] eqn:E.
    + exists r. split; [apply list_elem_of_omap; eauto|]. by rewrite (probe_key_response _ _ _ _ _ E).
    + exfalso. injection Ek as En Ep. unfold probe in E. rewrite En, Ep in E.
      destruct (fetch _ _ _) eqn:E1 in E; [done|].
      destruct (fetch (negb _) _ _) eqn:E2 in E; [done|].
      by destruct scheme, (match https with Some m => _ | None => _ end); simpl in *; congruence.
Qed.
End ScanFacts.

(** ** The catalogue *)
Import Catalog.

(** The endpoints a scan of all ports requests. *)
Definition full_plan : list Endpoint := probe_plan all_definitions None true.

(** Definitions without a pattern, kept for manual use. *)
Definition manual_only : list string :=
  ["Access Point"; "Firewall"; "MariaDB"; "GitHub"; "Spinnaker"; "Web Service"; "Client"; "IoT"; "Tasmota"].

(** Definitions whose pattern needs a response no scan requests. *)
Definition unreachable : list string :=
  ["CrowdSec"; "Tyk"; "MinIO"; "Jira"; "AWX"; "FreeIPA"; "BigBlueButton"].

Definition listed (l : list string) (d : ServiceDefinition) : bool := existsb (String.eqb (def_name d)) l.

Lemma listed_elem l d : listed l d = true ↔ def_name d ∈ l.
Proof.
  unfold listed. rewrite existsb_elem. setoid_rewrite String.eqb_eq. naive_solver.
Qed.

Definition lan_host : IpAddr := ipv4 192 168 1 7.

(** Both directions, by evaluation over the catalogue. *)
Lemma catalogue_evaluated :
  forallb (λ d, if listed (manual_only ++ unreachable)%list d
                then negb (feasible full_plan (discovery_pattern d))
                else detects full_plan lan_host d) all_definitions = true.
Proof. by vm_compute. Qed.

Lemma detects_evidence plan ip d :
  detects plan ip d = true →
  ∃ oui_db params, planned plan ip (endpoint_responses params)
  ∧ holds oui_db params (discovery_pattern d) = true.
Proof.
  unfold detects. intros (g & _ & (v & _ & Hv)%existsb_elem)%existsb_elem.
  exists (vendor_of d), (evidence plan ip g v d). split; [apply clue_responses_planned|done].
Qed.

(** Which services a scan can find: for every definition of the catalogue,
    some host makes a scan match it, with the HTTP responses limited to the
    endpoints a scan requests, except for the nine definitions that have no
    pattern and for seven whose pattern asks for a response that is never
    requested or for an empty range of status codes. *)
Theorem detectable_definitions (d : ServiceDefinition) (Hd : d ∈ all_definitions) :
  (∃ oui_db params ip, planned full_plan ip (endpoint_responses params)
     ∧ is_ok (matches all_definitions oui_db params (discovery_pattern d)) = true)
  ↔ (def_name d ∉ manual_only ++ unreachable)%list.
Proof.
  pose proof (proj1 (forallb_elem _ _) catalogue_evaluated d Hd) as Hc. cbv beta in Hc.
  setoid_rewrite matches_holds_aux. rewrite <-listed_elem.
  destruct (listed (manual_only ++ unreachable)%list d).
  - split; [|done]. intros (oui_db & params & ip & Hp & Hh) _.
    by rewrite (feasible_sound _ _ _ _ Hp _ Hh) in Hc.
  - split; [done|]. intros _. apply detects_evidence in Hc as (oui_db & params & Hp & Hh). eauto.
Qed.

Lemma detectable_definitions_witness :
  ¬ ∃ oui_db params ip, planned full_plan ip (endpoint_responses params)
     ∧ is_ok (matches all_definitions oui_db params (discovery_pattern MinIO)) = true.
Proof.
  intros Hm. refine (proj1 (detectable_definitions MinIO _) Hm _).
  - repeat first [left|right].
  - apply listed_elem. by vm_compute.
Defined.

Lemma find_by_id_nodup registry d :
  NoDup (def_name <$> registry) → d ∈ registry → find_by_id registry (def_name d) = Some d.
Proof.
  unfold find_by_id. induction registry as [|x l IH]; intros Hnd Hd; [by apply elem_of_nil in Hd|].
  apply list.NoDup_cons in Hnd as [Hx Hnd]. simpl.
  apply elem_of_cons in Hd as [->|Hd]; [by rewrite String.eqb_refl|].
  destruct (String.eqb_spec (def_name x) (def_name d)) as [E|]; [|by apply IH].
  exfalso. apply Hx. rewrite E. apply list_elem_of_fmap. eauto.
Qed.

Lemma catalogue_names : NoDup (def_name <$> all_definitions).
Proof. apply (bool_decide_unpack _). by vm_compute. Qed.

(** Names identify definitions: whatever order the linker collects the
    registry in, looking up a definition's name, as deserialization of a stored
    service does, returns that definition, and a name that no definition has
    gives the placeholder. *)
Theorem catalogue_lookup (registry : list ServiceDefinition) (Hperm : Permutation registry all_definitions) :
  (∀ d, d ∈ registry → find_by_id registry (def_name d) = Some d
                       ∧ resolve_definition registry (def_name d) = d)
  ∧ (∀ id, id ∉ def_name <$> all_definitions → resolve_definition registry id = DefaultServiceDefinition)
  ∧ length registry = 260%nat.
Proof.
  assert (NoDup (def_name <$> registry)) as Hnd by (rewrite Hperm; apply catalogue_names).
  split_and!.
  - intros d Hd. pose proof (find_by_id_nodup registry d Hnd Hd) as E. split; [done|].
    unfold resolve_definition. by rewrite E.
  - intros id Hid. unfold resolve_definition, find_by_id.
    destruct (List.find _ registry) as [d|] eqn:E; [|done]. exfalso. apply Hid.
    apply find_some in E as [Hd%list_elem_of_In <-%String.eqb_eq].
    rewrite <-Hperm. apply list_elem_of_fmap. eauto.
  - by rewrite Hperm.
Qed.

Lemma catalogue_lookup_witness : resolve_definition all_definitions "Plex Media Server" = Plex.
Proof.
  refine (proj2 (proj1 (catalogue_lookup all_definitions (reflexivity _)) Plex _)).
  repeat first [left|right].
Defined.

(** The generic gateway is matched exactly when the host is a gateway and
    every service already matched on it is a gateway service; so a host where
    any other service was found is not a gateway, while one that already has
    a gateway service gets a second one. *)
Theorem generic_gateway_inverted oui_db params :
  (holds oui_db params (discovery_pattern (Gateway is_gateway_id)) = true ↔
   holds oui_db params IsGateway = true
   ∧ ∀ s, s ∈ matched_services params → is_gateway_id (service_definition (sv_base s)) = true)
  ∧ is_gateway_id "SSH" = false ∧ is_gateway_id "Fios Gateway" = true.
Proof.
  split; [|by vm_compute]. cbn [discovery_pattern Gateway holds forallb].
  rewrite !andb_true_iff. unfold gateways_only.
  rewrite negb_true_iff, <-not_true_iff_false, existsb_elem. split.
  - intros (Hg & Hn & _). split; [done|]. intros s Hs. apply not_false_iff_true. intros Hf.
    apply Hn. exists s. by rewrite Hf.
  - intros [Hg Hall]. split_and!; [done| |done]. intros (s & Hs & Hf). by rewrite (Hall s Hs) in Hf.
Qed.

(** ** Witnesses for the matcher *)

(** A host on which MinIO answers its health check. *)
Definition minio_endpoint : Endpoint := for_pattern Ports.Http9000 "/minio/health/live".
Definition minio_host : MatchParams :=
  evidence [minio_endpoint] lan_host false (VirtDocker {| info_name := None; info_id := None;
    info_compose_project := None |}) MinIO.

Lemma matched_ports_evidenced_witness : evidenced minio_host Ports.Http9000.
Proof.
  eapply (matched_ports_evidenced [] (λ _, None) minio_host (AllOf [discovery_pattern MinIO]) eq_refl);
    [by vm_compute|]. left.
Defined.

Lemma scan_lists_cover_witness :
  ∃ e', e' ∈ all_discovery_endpoints all_definitions
    ∧ endpoint_eqb (for_pattern (new_tcp 32400) "/web/index.html") e' = true.
Proof.
  apply (scan_lists_cover all_definitions Plex); [repeat first [left|right]|left].
Defined.

(** A status range excludes its end: the header of the Plex definition, with
    the range 401..401, never matches. *)
Lemma plex_header_never oui_db params :
  holds oui_db params (discovery_pattern Plex)
  = holds oui_db params (EndpointPattern (new_tcp 32400) "/web/index.html" "Plex" None).
Proof.
  cbn [discovery_pattern Plex holds existsb]. rewrite orb_false_r.
  destruct (existsb (header_matches _ _ _ _) _) eqn:E; [|by rewrite orb_false_r].
  apply existsb_elem in E as (r & _ & Hm). apply andb_true_iff in Hm as [[_ Hs]%andb_true_iff _].
  by apply in_nonempty_range in Hs.
Qed.
