(* ===== verification/Buffer.v ===== *)
(** The daemon's buffer of discovered entities: [daemon/discovery/buffer.rs].

    Hosts and subnets are pending until the server confirms them, possibly
    under another id.  The buffer only looks at the ids, the children and the
    credential assignments of a host; the other columns of hosts and interfaces
    are parameters. *)

From S2P Require Import Prelude Net Ports Discovery Position Entities.
Local Open Scope Z_scope.

Inductive BufferedEntity (T : Type) :=
| PendingEntity (t : T)
| Created (pending_id : Uuid) (actual : T).
Arguments PendingEntity {T} t.
Arguments Created {T} pending_id actual.

Definition is_pending {T} (e : BufferedEntity T) : bool :=
  match e with PendingEntity _ => true | Created _ _ => false end.
Definition is_created {T} (e : BufferedEntity T) : bool :=
  match e with PendingEntity _ => false | Created _ _ => true end.
Definition get_data {T} (e : BufferedEntity T) : T :=
  match e with PendingEntity t => t | Created _ a => a end.

Record InterfaceDataComplete := {
  lldp_complete : bool; cdp_complete : bool; fdb_complete : bool; vlan_membership_complete : bool }.
Definition all_complete : InterfaceDataComplete := {|
  lldp_complete := true; cdp_complete := true; fdb_complete := true;
  vlan_membership_complete := true |}.

Section Buffer.
Context {HostData InterfaceData CredentialAssignment : Type}.

Record Host := {
  h_id : Uuid;
  credential_assignments : list CredentialAssignment;
  h_data : HostData
}.

Record Interface := { if_id : Uuid; if_data : InterfaceData }.

Record DiscoveryHostRequest := {
  host : Host;
  r_ip_addresses : list IPAddress;
  r_ports : list Port;
  r_services : list Service;
  r_interfaces : list Interface;
  r_subnets : list Subnet;
  interfaces_complete : bool;
  interface_data_complete : InterfaceDataComplete
}.

(** The server's answer: the stored host with its children. *)
Record HostResponse := {
  to_host : Host;
  a_ip_addresses : list IPAddress;
  a_ports : list Port;
  a_services : list Service;
  a_interfaces : list Interface
}.

Record EntityBuffer := {
  subnets : gmap Uuid (BufferedEntity Subnet);
  hosts : gmap Uuid (BufferedEntity DiscoveryHostRequest);
  vlans : gset Uuid
}.

Record BufferedEntities := { be_hosts : list DiscoveryHostRequest; be_subnets : list Subnet }.

Definition new_buffer : EntityBuffer := {| subnets := ∅; hosts := ∅; vlans := ∅ |}.

Definition set_subnets m b := {| subnets := m; hosts := hosts b; vlans := vlans b |}.
Definition set_hosts m b := {| subnets := subnets b; hosts := m; vlans := vlans b |}.

Definition push_subnet (s : Subnet) (b : EntityBuffer) : EntityBuffer :=
  set_subnets (<[s_id s := PendingEntity s]> (subnets b)) b.

Definition mark_subnet_created (pending_id : Uuid) (actual : Subnet) (b : EntityBuffer)
    : option (Uuid * Uuid) * EntityBuffer :=
  match subnets b !! pending_id with
  | Some _ =>
      (if (pending_id =? s_id actual)%N then None else Some (pending_id, s_id actual),
       set_subnets (<[pending_id := Created pending_id actual]> (subnets b)) b)
  | None => (None, b)
  end.

Definition get_subnet (b : EntityBuffer) (pending_id : Uuid) : option Subnet :=
  get_data <$> subnets b !! pending_id.

(** The merge of a second report into a pending host. *)
Definition merge_request (existing incoming : DiscoveryHostRequest) : DiscoveryHostRequest := {|
  host := {| h_id := h_id (host existing);
             credential_assignments :=
               credential_assignments (host existing) ++ credential_assignments (host incoming);
             h_data := h_data (host existing) |};
  r_ip_addresses := r_ip_addresses existing ++ r_ip_addresses incoming;
  r_ports := r_ports existing ++ r_ports incoming;
  r_services := r_services existing ++ r_services incoming;
  r_interfaces := r_interfaces existing ++ r_interfaces incoming;
  r_subnets := r_subnets existing;
  interfaces_complete := interfaces_complete existing;
  interface_data_complete := interface_data_complete existing |}.

Definition push_host (r : DiscoveryHostRequest) (b : EntityBuffer) : EntityBuffer :=
  let id := h_id (host r) in
  match hosts b !! id with
  | Some (PendingEntity existing) =>
      set_hosts (<[id := PendingEntity (merge_request existing r)]> (hosts b)) b
  | _ => set_hosts (<[id := PendingEntity r]> (hosts b)) b
  end.

Definition confirmed_request (a : HostResponse) : DiscoveryHostRequest := {|
  host := to_host a; r_ip_addresses := a_ip_addresses a; r_ports := a_ports a;
  r_services := a_services a; r_interfaces := a_interfaces a; r_subnets := [];
  interfaces_complete := true; interface_data_complete := all_complete |}.

Definition mark_host_created (pending_id : Uuid) (a : HostResponse) (b : EntityBuffer) : EntityBuffer :=
  match hosts b !! pending_id with
  | Some (PendingEntity _) =>
      set_hosts (<[pending_id := Created pending_id (confirmed_request a)]> (hosts b)) b
  | _ => b
  end.

Definition get_host (b : EntityBuffer) (pending_id : Uuid) : option DiscoveryHostRequest :=
  get_data <$> hosts b !! pending_id.

Definition push_scanned_vlans (ids : list Uuid) (b : EntityBuffer) : EntityBuffer :=
  {| subnets := subnets b; hosts := hosts b; vlans := vlans b ∪ list_to_set ids |}.

Definition clear_all (b : EntityBuffer) : EntityBuffer := new_buffer.

Definition is_empty (b : EntityBuffer) : bool :=
  bool_decide (hosts b = ∅) && bool_decide (subnets b = ∅).

Definition count (b : EntityBuffer) : nat * nat := (size (hosts b), size (subnets b)).

Section Iteration.
Context `{HashOrder}.

Definition pending_of {T} (m : gmap Uuid (BufferedEntity T)) : list T :=
  get_data <$> List.filter is_pending (hash_values m).

Definition get_pending (b : EntityBuffer) : BufferedEntities :=
  {| be_hosts := pending_of (hosts b); be_subnets := pending_of (subnets b) |}.

Definition pending_count (b : EntityBuffer) : nat * nat :=
  (length (List.filter is_pending (hash_values (hosts b))),
   length (List.filter is_pending (hash_values (subnets b)))).

Definition created_of {T} (m : gmap Uuid (BufferedEntity T)) : list T :=
  omap (λ e, match e with Created _ a => Some a | PendingEntity _ => None end) (hash_values m).

Definition get_scanned_ids (b : EntityBuffer) : ScannedEntityIds :=
  let hs := created_of (hosts b) in {|
  host_ids := (λ r, h_id (host r)) <$> hs;
  subnet_ids := s_id <$> created_of (subnets b);
  vlan_ids := elements (vlans b);
  ip_address_ids := List.concat ((λ r, ip_id <$> r_ip_addresses r) <$> hs);
  port_ids := List.concat ((λ r, p_id <$> r_ports r) <$> hs);
  service_ids := List.concat ((λ r, sv_id <$> r_services r) <$> hs);
  interface_ids := List.concat ((λ r, if_id <$> r_interfaces r) <$> hs);
  binding_ids := List.concat ((λ r, List.concat ((λ s, b_id <$> bindings (sv_base s)) <$> r_services r)) <$> hs)
|}.
End Iteration.

(** ** Waiting for a confirmation

    One iteration of [await_subnet] and [await_host] sees the cancellation
    token, the buffer and the clock; [obs i] is what iteration [i] sees. *)
Record Observation := { cancelled : bool; seen : EntityBuffer; clock : DateTime }.

Section Await.
Context {T : Type} (lookup : EntityBuffer → option (BufferedEntity T)).

Fixpoint await (obs : nat → Observation) (deadline : DateTime) (i fuel : nat) : option (option T) :=
  match fuel with
  | O => None
  | S fuel' =>
      if cancelled (obs i) then Some None
      else match lookup (seen (obs i)) with
           | Some (Created _ a) => Some (Some a)
           | _ => if deadline <? clock (obs i) then Some None
                  else await obs deadline (S i) fuel'
           end
  end.
End Await.

(** The fuel that is enough when an iteration takes at least 100 ms. *)
Definition await_fuel (timeout : Z) : nat := Z.to_nat (timeout / 100 + 2).

(** [start] is the clock when the call is made. *)
Definition await_subnet (start : DateTime) (obs : nat → Observation) (pending_id : Uuid) (timeout : Z)
    : option (option Subnet) :=
  await (λ b, subnets b !! pending_id) obs (start + timeout) 0 (await_fuel timeout).

Definition await_host (start : DateTime) (obs : nat → Observation) (pending_id : Uuid) (timeout : Z)
    : option (option Host) :=
  option_map (option_map host)
    (await (λ b, hosts b !! pending_id) obs (start + timeout) 0 (await_fuel timeout)).
End Buffer.
Arguments Host : clear implicits.
Arguments Interface : clear implicits.
Arguments DiscoveryHostRequest : clear implicits.
Arguments HostResponse : clear implicits.
Arguments EntityBuffer : clear implicits.
Arguments Observation : clear implicits.

(** ** Properties *)
Section BufferFacts.
Context {HD ID CA : Type} `{HashOrder}.

Notation buffer := (EntityBuffer HD ID CA).
Notation request := (DiscoveryHostRequest HD ID CA).

Definition entry_wf {T} (key : T → Uuid) (k : Uuid) (e : BufferedEntity T) : Prop :=
  match e with PendingEntity t => key t = k | Created p _ => p = k end.

(** Entries sit under the id the daemon gave them. *)
Definition wf (b : buffer) : Prop :=
  map_Forall (entry_wf s_id) (subnets b) ∧ map_Forall (entry_wf (λ r, h_id (host r))) (hosts b).

Inductive buffer_step (b : buffer) : buffer → Prop :=
| bs_push_subnet s : buffer_step b (push_subnet s b)
| bs_mark_subnet p a : buffer_step b (mark_subnet_created p a b).2
| bs_push_host r : buffer_step b (push_host r b)
| bs_mark_host p a : buffer_step b (mark_host_created p a b)
| bs_push_vlans ids : buffer_step b (push_scanned_vlans ids b)
| bs_clear : buffer_step b (clear_all b).

Lemma wf_step b b' : wf b → buffer_step b b' → wf b'.
Proof.
  intros [Hs Hh] Hstep. destruct Hstep as [s|p a|r|p a|ids|].
  - split; [|done]. by apply map_Forall_insert_2.
  - unfold mark_subnet_created. destruct (subnets b !! p); [|done].
    split; [|done]. by apply map_Forall_insert_2.
  - unfold push_host. destruct (hosts b !! h_id (host r)) as [[e|p a]|] eqn:E.
    + split; [done|]. apply map_Forall_insert_2; [|done]. by apply (Hh _ _ E).
    + split; [done|]. by apply map_Forall_insert_2.
    + split; [done|]. by apply map_Forall_insert_2.
  - unfold mark_host_created. destruct (hosts b !! p) as [[e|p' a']|] eqn:E; try done.
    split; [done|]. by apply map_Forall_insert_2.
  - done.
  - split; apply map_Forall_empty.
Qed.

Lemma reachable_wf b : rtc buffer_step new_buffer b → wf b.
Proof.
  assert (wf new_buffer) as H0 by (split; apply map_Forall_empty).
  generalize dependent (@new_buffer HD ID CA). intros b0 H0 Hr. induction Hr; eauto using wf_step.
Qed.

Lemma elem_of_pending {T} (m : gmap Uuid (BufferedEntity T)) t :
  t ∈ pending_of m ↔ ∃ k, m !! k = Some (PendingEntity t).
Proof.
  unfold pending_of. rewrite list_elem_of_fmap. split.
  - intros (e & -> & He%list_elem_of_In%filter_In). destruct He as [He Hp].
    apply list_elem_of_In, elem_of_hash_values in He as [k Hk]. exists k. by destruct e.
  - intros [k Hk]. exists (PendingEntity t). split; [done|]. apply list_elem_of_In, filter_In.
    split; [|done]. apply list_elem_of_In, elem_of_hash_values. eauto.
Qed.

Lemma elem_of_created {T} (m : gmap Uuid (BufferedEntity T)) t :
  t ∈ created_of m ↔ ∃ k p, m !! k = Some (Created p t).
Proof.
  unfold created_of. rewrite list_elem_of_omap. split.
  - intros ([?|p a] & [k Hk]%elem_of_hash_values & He); simplify_eq. eauto.
  - intros (k & p & Hk). exists (Created p t). split; [|done]. apply elem_of_hash_values. eauto.
Qed.

Lemma in_concat_fmap {A B} (f : A → list B) l a x : a ∈ l → x ∈ f a → x ∈ List.concat (f <$> l).
Proof.
  intros Ha Hx. apply list_elem_of_In, in_concat. exists (f a).
  split; apply list_elem_of_In; [|done]. apply list_elem_of_fmap. eauto.
Qed.

(** The lifecycle of a host: in every reachable buffer a confirmation takes
    exactly the confirmed host out of what is sent to the server and reports
    the server's ids of the host and of its children as scanned; every other
    pending host stays pending. *)
Theorem host_confirmation (b : buffer) (Hr : rtc buffer_step new_buffer b) k r a
    (Hk : hosts b !! k = Some (PendingEntity r)) :
  let b' := mark_host_created k a b in
  r ∈ be_hosts (get_pending b)
  ∧ (∀ r', r' ∈ be_hosts (get_pending b') ↔ r' ∈ be_hosts (get_pending b) ∧ h_id (host r') ≠ k)
  ∧ h_id (to_host a) ∈ host_ids (get_scanned_ids b')
  ∧ (∀ s, s ∈ a_services a → sv_id s ∈ service_ids (get_scanned_ids b')
       ∧ ∀ bd, bd ∈ bindings (sv_base s) → b_id bd ∈ binding_ids (get_scanned_ids b'))
  ∧ (∀ p, p ∈ a_ports a → p_id p ∈ port_ids (get_scanned_ids b')).
Proof.
  apply reachable_wf in Hr as [_ Hh]. cbn zeta. unfold mark_host_created. rewrite Hk.
  set (b' := set_hosts _ b).
  assert (confirmed_request a ∈ created_of (hosts b')) as Hc.
  { apply elem_of_created. exists k, k. simpl. by rewrite lookup_insert_eq. }
  split_and!.
  - apply elem_of_pending. eauto.
  - intros r'. simpl. rewrite !elem_of_pending. split.
    + intros [j Hj]. apply lookup_insert_Some in Hj as [[_ ?]|[Hne Hj]]; [done|].
      split; [eauto|]. pose proof (Hh j _ Hj) as E. simpl in E. congruence.
    + intros [[j Hj] Hne]. exists j. rewrite lookup_insert_ne; [done|]. intros <-.
      apply Hne. exact (Hh k _ Hj).
  - apply list_elem_of_fmap. by exists (confirmed_request a).
  - intros s Hs. split.
    + eapply in_concat_fmap; [exact Hc|]. apply list_elem_of_fmap. eauto.
    + intros bd Hbd. eapply in_concat_fmap; [exact Hc|]. eapply in_concat_fmap; [exact Hs|].
      apply list_elem_of_fmap. eauto.
  - intros p Hp. eapply in_concat_fmap; [exact Hc|]. apply list_elem_of_fmap. eauto.
Qed.

(** Reports on a pending host accumulate: whatever sequence of reports is
    pushed, the buffered host has all their addresses, ports, services,
    interfaces and credentials, in order. *)
Theorem reports_accumulate (b : buffer) k r0 rs
    (Hk : hosts b !! k = Some (PendingEntity r0)) (Hrs : Forall (λ r, h_id (host r) = k) rs) :
  ∃ r, hosts (foldl (λ b r, push_host r b) b rs) !! k = Some (PendingEntity r)
  ∧ h_id (host r) = h_id (host r0)
  ∧ r_ip_addresses r = List.concat (r_ip_addresses <$> r0 :: rs)
  ∧ r_ports r = List.concat (r_ports <$> r0 :: rs)
  ∧ r_services r = List.concat (r_services <$> r0 :: rs)
  ∧ r_interfaces r = List.concat (r_interfaces <$> r0 :: rs)
  ∧ credential_assignments (host r)
    = List.concat ((λ r, credential_assignments (host r)) <$> r0 :: rs).
Proof.
  revert b r0 Hk. induction Hrs as [|r rs Hr _ IH]; intros b r0 Hk.
  { exists r0. simpl. rewrite !app_nil_r. done. }
  simpl foldl. destruct (IH (push_host r b) (merge_request r0 r)) as (x & Hx & E).
  { unfold push_host. rewrite Hr, Hk. simpl. by rewrite lookup_insert_eq. }
  exists x. split; [exact Hx|]. destruct E as (-> & -> & -> & -> & -> & ->).
  simpl. rewrite <- !app_assoc. done.
Qed.

(** The counters agree with what is sent. *)
Theorem pending_count_spec (b : buffer) :
  pending_count b = (length (be_hosts (get_pending b)), length (be_subnets (get_pending b)))
  ∧ (is_empty b = true ↔ count b = (0, 0)%nat).
Proof.
  split; [unfold pending_count, get_pending, pending_of; simpl; by rewrite !length_fmap|].
  unfold is_empty, count. rewrite andb_true_iff, !bool_decide_eq_true. split.
  - intros [-> ->]. by rewrite !map_size_empty.
  - intros [= H1 H2]. by rewrite <- !map_size_empty_iff.
Qed.
End BufferFacts.

Section AwaitFacts.
Context {HD ID CA T : Type} (lookup : EntityBuffer HD ID CA → option (BufferedEntity T)).

Lemma await_sound obs deadline i fuel r :
  await lookup obs deadline i fuel = Some r →
  ∃ j, (i ≤ j)%nat ∧
    match r with
    | Some a => cancelled (obs j) = false ∧ ∃ p, lookup (seen (obs j)) = Some (Created p a)
    | None => cancelled (obs j) = true
              ∨ (deadline < clock (obs j) ∧ ∀ p a, lookup (seen (obs j)) ≠ Some (Created p a))
    end.
Proof.
  revert i. induction fuel as [|fuel IH]; intros i; simpl; [done|].
  destruct (cancelled (obs i)) eqn:Ec; [intros [= <-]; exists i; auto|].
  destruct (lookup (seen (obs i))) as [[t|p a]|] eqn:El.
  2:{ intros [= <-]. exists i. eauto. }
  all: destruct (Z.ltb_spec deadline (clock (obs i))); [intros [= <-]|intros (j & ? & ?)%IH];
    [exists i; split; [done|]; right; split; [done|]; intros; congruence
    |exists j; split; [lia|done]].
Qed.

Lemma await_enough obs deadline i fuel :
  (∀ j, clock (obs j) + 100 ≤ clock (obs (S j))) →
  deadline < clock (obs i) + 100 * (Z.of_nat fuel - 1) → (0 < fuel)%nat →
  is_Some (await lookup obs deadline i fuel).
Proof.
  intros Hclock. revert i. induction fuel as [|fuel IH]; intros i Hd Hpos; [lia|]. simpl.
  destruct (cancelled (obs i)); [by eexists|].
  destruct (lookup (seen (obs i))) as [[t|p a]|]; try (by eexists).
  all: destruct (Z.ltb_spec deadline (clock (obs i))); [by eexists|].
  all: apply IH; [specialize (Hclock i); lia|].
  all: destruct fuel; [lia|lia].
Qed.
End AwaitFacts.

(** Waiting for a subnet always ends: with iterations at least 100 ms apart
    the loop returns within its time-out, with the confirmed subnet as it was
    seen, or with nothing because of a cancellation or because the deadline
    passed without a confirmation. *)
Theorem await_subnet_returns {HD ID CA} start (obs : nat → Observation HD ID CA) k timeout
    (Ht : 0 ≤ timeout) (Hstart : start ≤ clock (obs 0%nat))
    (Hclock : ∀ j, clock (obs j) + 100 ≤ clock (obs (S j))) :
  ∃ r, await_subnet start obs k timeout = Some r
  ∧ ∃ j, match r with
         | Some s => cancelled (obs j) = false ∧ ∃ p, subnets (seen (obs j)) !! k = Some (Created p s)
         | None => cancelled (obs j) = true
                   ∨ (start + timeout < clock (obs j)
                      ∧ ∀ p a, subnets (seen (obs j)) !! k ≠ Some (Created p a))
         end.
Proof.
  destruct (await_enough (λ b, subnets b !! k) obs (start + timeout) 0 (await_fuel timeout))
    as [r Hr]; [done| | |].
  - unfold await_fuel. dlia.
  - unfold await_fuel. dlia.
  - exists r. split; [done|]. apply await_sound in Hr as (j & _ & Hj). by exists j.
Qed.

Definition demo_observation (j : nat) : Observation unit unit unit :=
  {| cancelled := false; seen := new_buffer; clock := 100 * Z.of_nat j |}.

Lemma await_subnet_returns_witness :
  ∃ r, await_subnet 0 demo_observation 7 1000 = Some r.
Proof.
  destruct (await_subnet_returns 0 demo_observation 7 1000) as (r & Hr & _);
    [lia|simpl; lia|intros j; unfold demo_observation; cbn [clock]; lia|]. by exists r.
Defined.

Definition demo_request (id : Uuid) (complete : bool) (nets : list Subnet)
    : DiscoveryHostRequest unit unit unit := {|
  host := {| h_id := id; credential_assignments := []; h_data := tt |};
  r_ip_addresses := []; r_ports := []; r_services := []; r_interfaces := []; r_subnets := nets;
  interfaces_complete := complete; interface_data_complete := all_complete |}.

Definition demo_response (id : Uuid) : HostResponse unit unit unit := {|
  to_host := {| h_id := id; credential_assignments := []; h_data := tt |};
  a_ip_addresses := []; a_ports := []; a_services := []; a_interfaces := [] |}.

Definition demo_subnet (id : Uuid) : Subnet := {|
  s_id := id; s_meta := fresh_meta 0; s_base :=
    {| cidr := {| cidr_addr := ipv4 172 17 0 0; cidr_prefix := 16 |}; s_network_id := 3;
       s_name := "docker0"; s_description := None; subnet_type := SDockerBridge;
       s_virtualization_service_id := None; s_source := SourceSystem; s_tags := [] |} |}.

Lemma host_confirmation_witness :
  9%N ∈ host_ids (get_scanned_ids
    (mark_host_created 5 (demo_response 9) (push_host (demo_request 5 true []) new_buffer))).
Proof.
  eapply (host_confirmation (push_host (demo_request 5 true []) new_buffer)
    (rtc_once _ _ (bs_push_host new_buffer (demo_request 5 true []))) 5%N (demo_request 5 true [])
    (demo_response 9)). by vm_compute.
Defined.

Lemma reports_accumulate_witness :
  ∃ r, hosts (push_host (demo_request 5 true []) (push_host (demo_request 5 true []) new_buffer))
       !! 5%N = Some (PendingEntity r).
Proof.
  destruct (reports_accumulate (push_host (demo_request 5 true []) new_buffer) 5%N
    (demo_request 5 true []) [demo_request 5 true []]) as (r & Hr & _);
    [by vm_compute|by repeat constructor|]. by exists r.
Defined.

(** The merge keeps the completeness flag and the subnets of the first
    report only: a later report of a partial interface walk is sent to the
    server as authoritative, and the bridge subnets a later report carries are
    lost. *)
Theorem merge_loses_flags_and_subnets :
  let b := push_host (demo_request 5 false [demo_subnet 8])
             (push_host (demo_request 5 true []) new_buffer) in
  ∃ r, be_hosts (get_pending b) = [r] ∧ interfaces_complete r = true ∧ r_subnets r = [].
Proof. eexists. by vm_compute. Qed.
