(* ===== verification/Lldp.v ===== *)
(** LLDP neighbour identities: [server/snmp/resolution/lldp.rs].

    Text and raw TLV values are lists of bytes (a Rust [str] is its UTF-8
    encoding).  The parser of the [mac_address] crate is a parameter, and so is
    the resolver trait, whose lookups go to the database. *)

From S2P Require Import Prelude Net.
Local Open Scope Z_scope.

Abbreviation bytes := (list Z) (only parsing).
Definition is_byte (b : Z) : Prop := 0 ≤ b < 256.

(** ** Text *)

Definition cont (b : Z) : bool := (128 <=? b) && (b <=? 191).
Definition between (lo hi b : Z) : bool := (lo <=? b) && (b <=? hi).

(** The sequence at the head of a byte string: whether it is a well-formed
    UTF-8 character and how many bytes it takes. *)
Definition utf8_tail (n : nat) (first : Z → bool) (l : bytes) : bool * nat :=
  match n, l with
  | 1%nat, b1 :: _ => if first b1 then (true, 2%nat) else (false, 1%nat)
  | 2%nat, b1 :: rest =>
      if first b1 then
        match rest with b2 :: _ => if cont b2 then (true, 3%nat) else (false, 2%nat) | [] => (false, 2%nat) end
      else (false, 1%nat)
  | 3%nat, b1 :: rest =>
      if first b1 then
        match rest with
        | b2 :: rest' =>
            if cont b2 then
              match rest' with b3 :: _ => if cont b3 then (true, 4%nat) else (false, 3%nat) | [] => (false, 3%nat) end
            else (false, 2%nat)
        | [] => (false, 2%nat)
        end
      else (false, 1%nat)
  | _, _ => (false, 1%nat)
  end.

Definition utf8_next (b : Z) (rest : bytes) : bool * nat :=
  if b <? 128 then (true, 1%nat)
  else if between 194 223 b then utf8_tail 1 cont rest
  else if b =? 224 then utf8_tail 2 (between 160 191) rest
  else if b =? 237 then utf8_tail 2 (between 128 159) rest
  else if between 225 239 b then utf8_tail 2 cont rest
  else if b =? 240 then utf8_tail 3 (between 144 191) rest
  else if between 241 243 b then utf8_tail 3 cont rest
  else if b =? 244 then utf8_tail 3 (between 128 143) rest
  else (false, 1%nat).

(** [String::from_utf8_lossy]: each maximal ill-formed part becomes U+FFFD. *)
Fixpoint lossy_from (fuel : nat) (l : bytes) : bytes :=
  match fuel, l with
  | S fuel', b :: rest =>
      let '(ok, n) := utf8_next b rest in
      (if ok then take n l else [239; 191; 189]) ++ lossy_from fuel' (drop n l)
  | _, _ => []
  end.
Definition from_utf8_lossy (l : bytes) : bytes := lossy_from (length l) l.

(** [str::from_utf8]. *)
Fixpoint valid_from (fuel : nat) (l : bytes) : bool :=
  match fuel, l with
  | S fuel', b :: rest => let '(ok, n) := utf8_next b rest in ok && valid_from fuel' (drop n l)
  | O, _ :: _ => false
  | _, [] => true
  end.
Definition from_utf8 (l : bytes) : option bytes := if valid_from (length l) l then Some l else None.

Definition strip_nuls (l : bytes) : bytes := List.filter (λ b, negb (b =? 0)) l.

(** The characters with the White_Space property, encoded. *)
Definition white_space : list bytes :=
  [[9]; [10]; [11]; [12]; [13]; [32]; [194; 133]; [194; 160]; [225; 154; 128];
   [226; 128; 128]; [226; 128; 129]; [226; 128; 130]; [226; 128; 131]; [226; 128; 132];
   [226; 128; 133]; [226; 128; 134]; [226; 128; 135]; [226; 128; 136]; [226; 128; 137];
   [226; 128; 138]; [226; 128; 168]; [226; 128; 169]; [226; 128; 175]; [226; 129; 159];
   [227; 128; 128]].

Fixpoint strip_prefix (p l : bytes) : option bytes :=
  match p, l with
  | [], _ => Some l
  | x :: p', y :: l' => if x =? y then strip_prefix p' l' else None
  | _ :: _, [] => None
  end.

Fixpoint strip_any (ps : list bytes) (l : bytes) : option bytes :=
  match ps with
  | [] => None
  | p :: ps' => match strip_prefix p l with Some r => Some r | None => strip_any ps' l end
  end.

Fixpoint trim_front (ps : list bytes) (fuel : nat) (l : bytes) : bytes :=
  match fuel with
  | O => l
  | S fuel' => match strip_any ps l with Some r => trim_front ps fuel' r | None => l end
  end.

Definition trim (l : bytes) : bytes :=
  let l := trim_front white_space (length l) l in
  reverse (trim_front (reverse <$> white_space) (length l) (reverse l)).

(** [str::split] on a one-byte separator. *)
Fixpoint split_on (sep : Z) (l : bytes) : list bytes :=
  match l with
  | [] => [[]]
  | b :: l' =>
      if b =? sep then [] :: split_on sep l'
      else match split_on sep l' with
           | g :: gs => (b :: g) :: gs
           | [] => [[b]]
           end
  end.

Fixpoint join_with (sep : Z) (gs : list bytes) : bytes :=
  match gs with
  | [] => []
  | [g] => g
  | g :: gs' => g ++ sep :: join_with sep gs'
  end.

(** ** Numbers in text *)

Definition hex_digit (c : Z) : option Z :=
  if between 48 57 c then Some (c - 48)
  else if between 97 102 c then Some (c - 87)
  else if between 65 70 c then Some (c - 55) else None.

Fixpoint digits_value (digit : Z → option Z) (radix acc : Z) (l : bytes) : option Z :=
  match l with
  | [] => Some acc
  | c :: l' => match digit c with Some d => digits_value digit radix (acc * radix + d) l' | None => None end
  end.

(** [u8::from_str_radix(_, 16)]: a leading plus sign is allowed. *)
Definition u8_from_hex (l : bytes) : option Z :=
  let body := match l with 43 :: (_ :: _) as r => tl l | _ => l end in
  match body with
  | [] => None
  | _ => match digits_value hex_digit 16 0 body with
         | Some v => if v <? 256 then Some v else None
         | None => None
         end
  end.

Definition dec_digit (c : Z) : option Z := if between 48 57 c then Some (c - 48) else None.

(** [str::parse::<i32>]. *)
Definition parse_i32 (l : bytes) : option Z :=
  let '(neg, body) := match l with
                      | 43 :: (_ :: _) => (false, tl l)
                      | 45 :: (_ :: _) => (true, tl l)
                      | _ => (false, l)
                      end in
  match body with
  | [] => None
  | _ => match digits_value dec_digit 10 0 body with
         | Some v => let z := if neg then - v else v in
                     if (- 2 ^ 31 <=? z) && (z <? 2 ^ 31) then Some z else None
         | None => None
         end
  end.

Definition hex_char (d : Z) : Z := if d <? 10 then d + 48 else d + 87.
Definition hex2 (b : Z) : bytes := [hex_char (b / 16); hex_char (b mod 16)].

(** ** MAC addresses *)

Definition format_mac (l : bytes) : bytes := join_with 58 (hex2 <$> l).

(** One group of the unpadded form. *)
Definition mac_group (g : bytes) : option Z :=
  match length g with 1%nat | 2%nat => u8_from_hex g | _ => None end.

Section Mac.
(** [str::parse::<mac_address::MacAddress>]. *)
Context (parse_mac : bytes → option bytes).

Definition canonical_mac (value : bytes) : option bytes :=
  let s := trim value in
  match parse_mac s with
  | Some mac => Some (format_mac mac)
  | None =>
      match mapM mac_group (split_on 58 s) with
      | Some octets => if (length octets =? 6)%nat then Some (format_mac octets) else None
      | None => None
      end
  end.

Definition parse_mac_id (value : bytes) : option bytes :=
  if (length value =? 6)%nat then Some (format_mac value)
  else match from_utf8 value with Some s => canonical_mac s | None => None end.
End Mac.

(** Big-endian octets of an address. *)
Fixpoint be_value (acc : Z) (l : bytes) : Z :=
  match l with [] => acc | b :: l' => be_value (acc * 256 + b) l' end.

Definition parse_network_address (value : bytes) : option IpAddr :=
  match value with
  | [] => None
  | family :: addr =>
      if (family =? 1) && (length addr =? 4)%nat then Some (V4 (be_value 0 addr))
      else if (family =? 2) && (length addr =? 16)%nat then Some (V6 (be_value 0 addr))
      else None
  end.

Definition decode_tlv_text (value : bytes) : bytes := strip_nuls (from_utf8_lossy value).

(** ** Addresses as text *)

Definition dec_text (n : Z) : bytes :=
  if n <? 10 then [n + 48]
  else if n <? 100 then [n / 10 + 48; n mod 10 + 48]
  else [n / 100 + 48; n / 10 mod 10 + 48; n mod 10 + 48].

(** Lower-case hexadecimal without leading zeros, for 16-bit segments. *)
Definition hex_text (n : Z) : bytes :=
  let ds := [n / 4096; n / 256 mod 16; n / 16 mod 16; n mod 16] in
  hex_char <$> (if n <? 16 then drop 3 ds else if n <? 256 then drop 2 ds
                else if n <? 4096 then drop 1 ds else ds).

(** The first longest run of zero segments: its start and length. *)
Fixpoint zero_run (i : nat) (segs : list Z) (current longest : nat * nat) : nat * nat :=
  match segs with
  | [] => longest
  | s :: segs' =>
      if s =? 0 then
        let current := if (current.2 =? 0)%nat then (i, 1%nat) else (current.1, S current.2) in
        zero_run (S i) segs' current (if (longest.2 <? current.2)%nat then current else longest)
      else zero_run (S i) segs' (0%nat, 0%nat) longest
  end.

Definition v4_text (b : Z) : bytes :=
  join_with 46 (dec_text <$> [octet b 0; octet b 1; octet b 2; octet b 3]).

Definition ip_text (ip : IpAddr) : bytes :=
  match ip with
  | V4 b => v4_text b
  | V6 b =>
      match to_canonical ip with
      | V4 m => [58; 58; 102; 102; 102; 102; 58] ++ v4_text m
      | V6 _ =>
          let segs := segment b <$> [0; 1; 2; 3; 4; 5; 6; 7] in
          let '(start, len) := zero_run 0 segs (0%nat, 0%nat) (0%nat, 0%nat) in
          if (1 <? len)%nat
          then join_with 58 (hex_text <$> take start segs) ++ [58; 58]
               ++ join_with 58 (hex_text <$> drop (start + len) segs)
          else join_with 58 (hex_text <$> segs)
      end
  end.

(** ** Identifiers *)

Inductive LldpChassisId :=
| ChassisComponent (s : bytes)
| ChassisInterfaceAlias (s : bytes)
| ChassisPortComponent (s : bytes)
| ChassisMacAddress (s : bytes)
| ChassisNetworkAddress (ip : IpAddr)
| ChassisInterfaceName (s : bytes)
| ChassisLocallyAssigned (s : bytes).

Inductive LldpPortId :=
| PortInterfaceAlias (s : bytes)
| PortComponent (s : bytes)
| PortMacAddress (s : bytes)
| PortNetworkAddress (ip : IpAddr)
| PortInterfaceName (s : bytes)
| AgentCircuitId (s : bytes)
| PortLocallyAssigned (s : bytes).

Inductive IdentityResolution := Resolved (id : Uuid) | NoStrategy | NotFound | Ambiguous.

Definition found (o : option Uuid) : IdentityResolution :=
  match o with Some id => Resolved id | None => NotFound end.

(** [LldpResolver]: lookups in one network, or among one host's interfaces. *)
Record LldpResolver := {
  find_host_by_mac : bytes → Uuid → option Uuid;
  find_host_by_ip : IpAddr → Uuid → option Uuid;
  find_host_by_if_name : bytes → Uuid → option Uuid;
  find_host_by_chassis_id : bytes → Uuid → option Uuid;
  find_host_by_sys_name : bytes → Uuid → option Uuid;
  find_if_entry_by_mac : bytes → Uuid → IdentityResolution;
  find_if_entry_by_ip : IpAddr → Uuid → option Uuid;
  find_if_entry_by_name : bytes → Uuid → option Uuid;
  find_if_entry_by_if_index : Z → Uuid → option Uuid
}.

Section Identity.
Context (parse_mac : bytes → option bytes).

Definition chassis_from_snmp (subtype : Z) (value : bytes) : option LldpChassisId :=
  if subtype =? 1 then Some (ChassisComponent (decode_tlv_text value))
  else if subtype =? 2 then Some (ChassisInterfaceAlias (decode_tlv_text value))
  else if subtype =? 3 then Some (ChassisPortComponent (decode_tlv_text value))
  else if subtype =? 4 then ChassisMacAddress <$> parse_mac_id parse_mac value
  else if subtype =? 5 then ChassisNetworkAddress <$> parse_network_address value
  else if subtype =? 6 then Some (ChassisInterfaceName (decode_tlv_text value))
  else if subtype =? 7 then Some (ChassisLocallyAssigned (decode_tlv_text value))
  else None.

Definition chassis_from_identifier_str (value : bytes) : LldpChassisId :=
  match canonical_mac parse_mac value with
  | Some mac => ChassisMacAddress mac
  | None => ChassisLocallyAssigned value
  end.

Definition port_from_snmp (subtype : Z) (value : bytes) : option LldpPortId :=
  if subtype =? 1 then Some (PortInterfaceAlias (decode_tlv_text value))
  else if subtype =? 2 then Some (PortComponent (decode_tlv_text value))
  else if subtype =? 3 then PortMacAddress <$> parse_mac_id parse_mac value
  else if subtype =? 4 then PortNetworkAddress <$> parse_network_address value
  else if subtype =? 5 then Some (PortInterfaceName (decode_tlv_text value))
  else if subtype =? 6 then Some (AgentCircuitId (decode_tlv_text value))
  else if subtype =? 7 then Some (PortLocallyAssigned (decode_tlv_text value))
  else None.

Definition port_from_identifier_str (value : bytes) : LldpPortId :=
  match canonical_mac parse_mac value with
  | Some mac => PortMacAddress mac
  | None => PortLocallyAssigned value
  end.
End Identity.

Definition identifier (c : LldpChassisId) : bytes :=
  match c with
  | ChassisNetworkAddress ip => ip_text ip
  | ChassisComponent s | ChassisInterfaceAlias s | ChassisPortComponent s | ChassisMacAddress s
  | ChassisInterfaceName s | ChassisLocallyAssigned s => s
  end.

(** The subtype's own strategy, and whether there is one. *)
Definition by_subtype (r : LldpResolver) (nid : Uuid) (c : LldpChassisId) : option Uuid :=
  match c with
  | ChassisMacAddress mac => find_host_by_mac r mac nid
  | ChassisNetworkAddress ip => find_host_by_ip r ip nid
  | ChassisInterfaceName name => find_host_by_if_name r name nid
  | ChassisComponent id | ChassisLocallyAssigned id => find_host_by_chassis_id r id nid
  | ChassisInterfaceAlias _ | ChassisPortComponent _ => None
  end.

Definition has_subtype_strategy (c : LldpChassisId) : bool :=
  match c with ChassisInterfaceAlias _ | ChassisPortComponent _ => false | _ => true end.

Definition resolve_host_id (r : LldpResolver) (nid : Uuid) (sys_name : option bytes)
    (c : LldpChassisId) : IdentityResolution :=
  match by_subtype r nid c with
  | Some h => Resolved h
  | None =>
      let ran := has_subtype_strategy c in
      let id := identifier c in
      let '(ran, hit) :=
        match id with
        | [] => (ran, None)
        | _ => (true, find_host_by_chassis_id r id nid)
        end in
      match hit with
      | Some h => Resolved h
      | None =>
          let '(ran, hit) :=
            match sys_name with
            | Some n => match trim n with
                        | [] => (ran, None)
                        | t => (true, find_host_by_sys_name r t nid)
                        end
            | None => (ran, None)
            end in
          match hit with
          | Some h => Resolved h
          | None => if ran then NotFound else NoStrategy
          end
      end
  end.

Definition resolve_device_local_port (r : LldpResolver) (id : bytes) (host : Uuid)
    : IdentityResolution :=
  let id := trim id in
  match id with
  | [] => NoStrategy
  | _ =>
      match find_if_entry_by_name r id host with
      | Some i => Resolved i
      | None =>
          match parse_i32 id with
          | Some n => found (find_if_entry_by_if_index r n host)
          | None => NotFound
          end
      end
  end.

Definition resolve_if_entry_id (r : LldpResolver) (host : Uuid) (p : LldpPortId)
    : IdentityResolution :=
  match p with
  | PortMacAddress mac => find_if_entry_by_mac r mac host
  | PortNetworkAddress ip => found (find_if_entry_by_ip r ip host)
  | PortInterfaceAlias id | PortInterfaceName id | PortComponent id | AgentCircuitId id
  | PortLocallyAssigned id => resolve_device_local_port r id host
  end.

Example ip_text_v6 : ip_text (V6 (0x20010db8 * 2 ^ 96 + 1)) = [50; 48; 48; 49; 58; 100; 98; 56; 58; 58; 49].
Proof. by vm_compute. Qed.
Example hex_group_plus : u8_from_hex [43; 102] = Some 15.
Proof. by vm_compute. Qed.

(** ** Text facts *)

Definition printable (b : Z) : Prop := 33 ≤ b < 127.

Lemma strip_any_none ps l :
  Forall (λ p, ∃ x p', p = x :: p' ∧ ¬ printable x) ps → Forall printable l → strip_any ps l = None.
Proof.
  intros Hps Hl. induction Hps as [|p ps (x & p' & -> & Hx) _ IH]; [done|]. simpl.
  destruct l as [|y l]; [done|]. destruct (Z.eqb_spec x y) as [->|]; [|done].
  by apply Forall_cons_iff in Hl as [? _].
Qed.

Lemma white_space_heads : Forall (λ p, ∃ x p', p = x :: p' ∧ ¬ printable x) white_space.
Proof. repeat constructor; (eexists _, _; split; [done|unfold printable; lia]). Qed.

Lemma white_space_tails : Forall (λ p, ∃ x p', p = x :: p' ∧ ¬ printable x) (reverse <$> white_space).
Proof. repeat constructor; (eexists _, _; split; [done|unfold printable; lia]). Qed.

Lemma trim_printable l : Forall printable l → trim l = l.
Proof.
  intros Hl. unfold trim.
  assert (∀ ps n k, Forall (λ p, ∃ x p', p = x :: p' ∧ ¬ printable x) ps → Forall printable k →
    trim_front ps n k = k) as Ht.
  { intros ps n k Hps Hk. destruct n; [done|]. simpl. by rewrite strip_any_none. }
  rewrite (Ht white_space) by (done || apply white_space_heads).
  rewrite Ht; [apply reverse_involutive|apply white_space_tails|].
  by rewrite reverse_Permutation.
Qed.

Lemma valid_ascii n l : Forall (λ b, 0 ≤ b < 128) l → (length l ≤ n)%nat → valid_from n l = true.
Proof.
  revert n. induction l as [|b l IH]; intros n Hl Hn; [by destruct n|].
  destruct n as [|n]; [simpl in Hn; lia|]. apply Forall_cons_iff in Hl as [Hb Hl]. simpl.
  unfold utf8_next. rewrite (proj2 (Z.ltb_lt b 128)) by lia. simpl. rewrite drop_0.
  apply IH; [done|]. simpl in Hn. lia.
Qed.

Lemma lossy_ascii n l : Forall (λ b, 0 ≤ b < 128) l → (length l ≤ n)%nat → lossy_from n l = l.
Proof.
  revert n. induction l as [|b l IH]; intros n Hl Hn; [by destruct n|].
  destruct n as [|n]; [simpl in Hn; lia|]. apply Forall_cons_iff in Hl as [Hb Hl]. simpl.
  unfold utf8_next. rewrite (proj2 (Z.ltb_lt b 128)) by lia. simpl. rewrite drop_0. simpl.
  rewrite IH; [done|done|]. simpl in Hn. lia.
Qed.

Lemma split_on_app sep g l :
  sep ∉ g → split_on sep (g ++ sep :: l) = g :: split_on sep l.
Proof.
  induction g as [|b g IH]; simpl; intros Hg; [by rewrite Z.eqb_refl|].
  apply not_elem_of_cons in Hg as [Hb Hg]. destruct (Z.eqb_spec b sep); [congruence|].
  by rewrite IH.
Qed.

Lemma split_on_none sep g : sep ∉ g → split_on sep g = [g].
Proof.
  induction g as [|b g IH]; simpl; intros Hg; [done|].
  apply not_elem_of_cons in Hg as [Hb Hg]. destruct (Z.eqb_spec b sep); [congruence|].
  by rewrite IH.
Qed.

Lemma split_join sep gs : gs ≠ [] → Forall (λ g, sep ∉ g) gs → split_on sep (join_with sep gs) = gs.
Proof.
  intros Hne Hall. induction gs as [|g gs IH]; [done|].
  apply Forall_cons_iff in Hall as [Hg Hall]. destruct gs as [|h gs]; [by apply split_on_none|].
  change (join_with sep (g :: h :: gs)) with (g ++ sep :: join_with sep (h :: gs)).
  rewrite split_on_app by done. by rewrite IH.
Qed.

Lemma join_forall (P : Z → Prop) sep gs :
  P sep → Forall (Forall P) gs → Forall P (join_with sep gs).
Proof.
  intros Hs Hall. induction Hall as [|g gs Hg Hall IH]; simpl; [constructor|].
  destruct gs; [done|]. apply Forall_app. split; [done|]. by constructor.
Qed.

Lemma length_join sep gs :
  gs ≠ [] → Z.of_nat (length (join_with sep gs))
  = Z.of_nat (length (List.concat gs)) + Z.of_nat (length gs) - 1.
Proof.
  induction gs as [|g gs IH]; [done|]. intros _. destruct gs as [|h gs].
  { simpl. rewrite app_nil_r. lia. }
  change (join_with sep (g :: h :: gs)) with (g ++ sep :: join_with sep (h :: gs)).
  change (List.concat (g :: h :: gs)) with (g ++ List.concat (h :: gs)).
  rewrite !length_app. cbn [length]. specialize (IH ltac:(done)). cbn [length] in IH. lia.
Qed.

(** ** MAC addresses: one canonical form *)

(** One or two hexadecimal digits, in either case, with value [b]. *)
Definition hex_group (g : bytes) (b : Z) : Prop :=
  (length g = 1 ∨ length g = 2)%nat ∧ Forall (λ c, is_Some (hex_digit c)) g
  ∧ digits_value hex_digit 16 0 g = Some b.

Lemma hex_digit_range c d : hex_digit c = Some d → 0 ≤ d < 16 ∧ printable c ∧ c ≠ 58 ∧ c ≠ 43.
Proof.
  unfold hex_digit, between, printable. intros Hc.
  repeat case_match; simplify_eq; bool_hyps; lia.
Qed.

(** A text that does not start with a plus sign is read as it is. *)
Lemma u8_from_hex_plain c g v :
  c ≠ 43 → digits_value hex_digit 16 0 (c :: g) = Some v → v < 256 → u8_from_hex (c :: g) = Some v.
Proof.
  intros Hc Hv Hlt. unfold u8_from_hex.
  assert ((match c :: g with 43 :: _ :: _ => tl (c :: g) | _ => c :: g end) = c :: g) as ->.
  { destruct c as [|c|c]; try done. do 7 (destruct c as [c|c|]; try done). }
  rewrite Hv. by rewrite (proj2 (Z.ltb_lt _ _)).
Qed.

Lemma hex_group_value g b : hex_group g b → mac_group g = Some b ∧ is_byte b.
Proof.
  intros (Hlen & Hdig & Hv). unfold mac_group, is_byte.
  destruct g as [|c g]; [simpl in Hlen; lia|].
  apply Forall_cons_iff in Hdig as [[d Hd] Hdig].
  destruct (hex_digit_range c d Hd) as (Hr & _ & _ & Hc).
  assert (0 ≤ b < 256) as Hb.
  { cbn [digits_value] in Hv. rewrite Hd in Hv. destruct g as [|c' [|? ?]]; simpl in Hlen; try lia.
    - simpl in Hv. inv Hv. lia.
    - apply Forall_cons_iff in Hdig as [[d' Hd'] _]. pose proof (hex_digit_range c' d' Hd').
      cbn [digits_value] in Hv. rewrite Hd' in Hv. inv Hv. lia. }
  split; [|done]. rewrite (u8_from_hex_plain c g b) by (done || lia).
  by destruct Hlen as [-> | ->].
Qed.

Lemma hex_group_chars g b : hex_group g b → Forall printable g ∧ 58 ∉ g.
Proof.
  intros (_ & Hdig & _). split.
  - eapply Forall_impl; [|exact Hdig]. intros c [d Hd].
    by destruct (hex_digit_range c d Hd) as (_ & ? & _).
  - intros Hin. rewrite List.Forall_forall in Hdig.
    apply list_elem_of_In, Hdig in Hin as [d Hd]. done.
Qed.

Lemma hex_groups gs bs :
  Forall2 hex_group gs bs →
  mapM mac_group gs = Some bs ∧ Forall (Forall printable) gs ∧ Forall (λ g, 58 ∉ g) gs
  ∧ Forall is_byte bs ∧ Z.of_nat (length gs) ≤ Z.of_nat (length (List.concat gs)).
Proof.
  induction 1 as [|g b gs bs Hg _ (IH1 & IH2 & IH3 & IH4 & IH5)]; [by repeat constructor|].
  destruct (hex_group_value g b Hg) as [Hv Hb]. destruct (hex_group_chars g b Hg) as [Hp Hc].
  split_and!; try (by constructor).
  - simpl. by rewrite Hv, IH1.
  - simpl. rewrite length_app. destruct Hg as [[Hl|Hl] _]; lia.
Qed.

Lemma hex_char_value d : 0 ≤ d < 16 → hex_digit (hex_char d) = Some d.
Proof.
  intros Hd. unfold hex_char, hex_digit, between.
  destruct (Z.ltb_spec d 10).
  - rewrite (proj2 (Z.leb_le 48 _)), (proj2 (Z.leb_le _ 57)) by lia. simpl. f_equal. lia.
  - rewrite (proj2 (Z.leb_gt _ 57)) by lia. rewrite andb_false_r.
    rewrite (proj2 (Z.leb_le 97 _)), (proj2 (Z.leb_le _ 102)) by lia. simpl. f_equal. lia.
Qed.

Lemma hex2_group b : is_byte b → hex_group (hex2 b) b.
Proof.
  unfold is_byte. intros Hb. unfold hex_group, hex2.
  assert (hex_digit (hex_char (b / 16)) = Some (b / 16)) as E1 by (apply hex_char_value; dlia).
  assert (hex_digit (hex_char (b mod 16)) = Some (b mod 16)) as E2 by (apply hex_char_value; dlia).
  split_and!; [by right|repeat constructor; by eexists|].
  cbn [digits_value]. rewrite E1. cbn [digits_value]. rewrite E2. f_equal. dlia.
Qed.

Lemma hex2_groups bs : Forall is_byte bs → Forall2 hex_group (hex2 <$> bs) bs.
Proof. induction 1; constructor; [by apply hex2_group|done]. Qed.

Lemma canonical_mac_groups parse_mac gs bs :
  Forall2 hex_group gs bs → length gs = 6%nat →
  parse_mac (join_with 58 gs) = None ∨ parse_mac (join_with 58 gs) = Some bs →
  canonical_mac parse_mac (join_with 58 gs) = Some (format_mac bs).
Proof.
  intros Hg Hlen Hpm. destruct (hex_groups gs bs Hg) as (H1 & H2 & H3 & _ & _).
  unfold canonical_mac. rewrite trim_printable by (apply join_forall; [unfold printable; lia|done]).
  destruct Hpm as [-> | ->]; [|done].
  rewrite split_join by (done || by destruct gs). rewrite H1.
  by rewrite <- (Forall2_length Hg), Hlen.
Qed.

(** A MAC address has one identity whatever way it is reported: six raw
    octets, or text whose groups have one or two digits in either case, give
    the same chassis and port identifiers, from SNMP or from a controller, and
    the canonical text of two MAC addresses is the same only if they are. *)
Theorem mac_identity parse_mac
    (Hparse : ∀ gs bs, Forall2 hex_group gs bs → length gs = 6%nat →
       parse_mac (join_with 58 gs) = None ∨ parse_mac (join_with 58 gs) = Some bs)
    gs bs (Hgs : Forall2 hex_group gs bs) (Hlen : length gs = 6%nat) :
  let text := join_with 58 gs in
  chassis_from_snmp parse_mac 4 bs = Some (ChassisMacAddress (format_mac bs))
  ∧ chassis_from_snmp parse_mac 4 text = Some (ChassisMacAddress (format_mac bs))
  ∧ chassis_from_identifier_str parse_mac text = ChassisMacAddress (format_mac bs)
  ∧ port_from_snmp parse_mac 3 text = Some (PortMacAddress (format_mac bs))
  ∧ canonical_mac parse_mac (format_mac bs) = Some (format_mac bs)
  ∧ ∀ bs', Forall is_byte bs' → length bs' = 6%nat → format_mac bs' = format_mac bs → bs' = bs.
Proof.
  cbn zeta. destruct (hex_groups gs bs Hgs) as (H1 & H2 & H3 & H4 & H5).
  pose proof (Forall2_length Hgs) as Hbl.
  assert (parse_mac_id parse_mac bs = Some (format_mac bs)) as Hraw
    by (unfold parse_mac_id; by rewrite <- Hbl, Hlen).
  assert (parse_mac_id parse_mac (join_with 58 gs) = Some (format_mac bs)) as Htext.
  { unfold parse_mac_id. pose proof (length_join 58 gs ltac:(by destruct gs)) as Hl.
    rewrite (proj2 (Nat.eqb_neq _ _)) by lia. unfold from_utf8. rewrite valid_ascii; [|..|done].
    - by apply canonical_mac_groups; auto.
    - apply join_forall; [lia|]. eapply Forall_impl; [|exact H2]. intros g Hg.
      eapply Forall_impl; [|exact Hg]. unfold printable. intros c Hc. lia. }
  pose proof (hex2_groups bs H4) as H6.
  assert (length (hex2 <$> bs) = 6%nat) as H7 by (rewrite length_fmap; lia).
  split_and!.
  - unfold chassis_from_snmp. simpl. by rewrite Hraw.
  - unfold chassis_from_snmp. simpl. by rewrite Htext.
  - unfold chassis_from_identifier_str. by rewrite canonical_mac_groups with (bs := bs) by auto.
  - unfold port_from_snmp. simpl. by rewrite Htext.
  - apply canonical_mac_groups; auto.
  - intros bs' Hb' Hl' E. pose proof (hex2_groups bs' Hb') as H8.
    destruct (hex_groups _ _ H6) as (M1 & _ & S1 & _). destruct (hex_groups _ _ H8) as (M2 & _ & S2 & _).
    apply (f_equal (split_on 58)) in E. unfold format_mac in E.
    rewrite !split_join in E by (done || by (destruct bs, bs')). rewrite E in M2. congruence.
Qed.

Lemma mac_identity_witness :
  chassis_from_snmp (λ _, None) 4
    (join_with 58 [[48]; [49; 65]; [50; 98]; [48]; [49; 48]; [48; 48]])
  = Some (ChassisMacAddress (format_mac [0; 26; 43; 0; 16; 0])).
Proof.
  apply (mac_identity (λ _, None) ltac:(by left)
    [[48]; [49; 65]; [50; 98]; [48]; [49; 48]; [48; 48]] [0; 26; 43; 0; 16; 0]); [|done].
  repeat (constructor;
    [split; [first [by left|by right]|split; [repeat constructor; by eexists|done]]|]).
  constructor.
Defined.

(** Text read from a TLV never carries a NUL, and ASCII text without NULs is
    kept as it is, so a NUL-terminated port name equals the bare one. *)
Theorem decode_tlv_text_spec (value : bytes) :
  0 ∉ decode_tlv_text value
  ∧ (Forall (λ b, 0 < b < 128) value →
     decode_tlv_text value = value ∧ decode_tlv_text (value ++ [0]) = value).
Proof.
  unfold decode_tlv_text, strip_nuls. split.
  - intros [_ Hb]%list_elem_of_In%filter_In. done.
  - intros Hv. unfold from_utf8_lossy.
    assert (Forall (λ b, 0 ≤ b < 128) value) as Ha
      by (eapply Forall_impl; [|exact Hv]; simpl; lia).
    assert (List.filter (λ b, negb (b =? 0)) value = value) as Hf.
    { clear Ha. induction Hv as [|b l Hb _ IH]; [done|]. simpl.
      rewrite (proj2 (Z.eqb_neq b 0)) by lia. simpl. by rewrite IH. }
    split; rewrite lossy_ascii; auto.
    + rewrite List.filter_app. simpl. by rewrite Hf, app_nil_r.
    + apply Forall_app. split; [done|]. repeat constructor; lia.
Qed.

(** ** Network addresses *)

Lemma be_value_bounds l acc n :
  Forall is_byte l → 0 ≤ acc < 2 ^ n → 0 ≤ n →
  0 ≤ be_value acc l < 2 ^ (n + 8 * Z.of_nat (length l)).
Proof.
  revert acc n. induction l as [|b l IH]; intros acc n Hl Hacc Hn; simpl be_value.
  { simpl length. by rewrite Z.mul_0_r, Z.add_0_r. }
  apply Forall_cons_iff in Hl as [Hb Hl]. unfold is_byte in Hb. cbn [length].
  replace (n + 8 * Z.of_nat (S (length l))) with (n + 8 + 8 * Z.of_nat (length l)) by lia.
  apply IH; [done| |lia]. rewrite Z.pow_add_r by lia. change (2 ^ 8) with 256. nia.
Qed.

(** A parsed network address is well formed and of the announced family, and
    anything but one family octet followed by exactly its 4 or 16 octets is
    rejected. *)
Theorem parse_network_address_spec (value : bytes) (Hv : Forall is_byte value) :
  (∀ ip, parse_network_address value = Some ip →
     ip_wf ip ∧ ∃ addr, (ip = V4 (be_value 0 addr) ∧ value = 1 :: addr ∧ length addr = 4%nat)
                        ∨ (ip = V6 (be_value 0 addr) ∧ value = 2 :: addr ∧ length addr = 16%nat))
  ∧ (∀ addr, length addr = 4%nat → parse_network_address (1 :: addr) = Some (V4 (be_value 0 addr)))
  ∧ (∀ addr, length addr = 16%nat → parse_network_address (2 :: addr) = Some (V6 (be_value 0 addr))).
Proof.
  unfold parse_network_address. split_and!.
  - intros ip. destruct value as [|f addr]; [done|]. apply Forall_cons_iff in Hv as [_ Hv].
    destruct (Z.eqb_spec f 1) as [->|]; simpl.
    + destruct (Nat.eqb_spec (length addr) 4) as [E|]; [|done]. intros [= <-].
      pose proof (be_value_bounds addr 0 0 Hv ltac:(lia) ltac:(lia)) as Hb. rewrite E in Hb.
      split; [simpl; unfold ip_wf; simpl in Hb; lia|]. exists addr. by left.
    + destruct (Z.eqb_spec f 2) as [->|]; simpl; [|done].
      destruct (Nat.eqb_spec (length addr) 16) as [E|]; [|done]. intros [= <-].
      pose proof (be_value_bounds addr 0 0 Hv ltac:(lia) ltac:(lia)) as Hb. rewrite E in Hb.
      split; [simpl; unfold ip_wf; simpl in Hb; lia|]. exists addr. by right.
  - intros addr ->. done.
  - intros addr ->. done.
Qed.

Lemma parse_network_address_spec_witness :
  ip_wf (V4 (be_value 0 [192; 168; 1; 7])).
Proof.
  apply (proj1 (parse_network_address_spec [1; 192; 168; 1; 7]
    ltac:(repeat constructor; unfold is_byte; lia)) (V4 (be_value 0 [192; 168; 1; 7]))).
  by vm_compute.
Defined.

(** ** Resolution *)

(** The lookups [resolve_host_id] tries, in order. *)
Definition host_lookups (r : LldpResolver) (nid : Uuid) (sys_name : option bytes)
    (c : LldpChassisId) : list (option Uuid) :=
  (if has_subtype_strategy c then [by_subtype r nid c] else [])
  ++ (match identifier c with [] => [] | id => [find_host_by_chassis_id r id nid] end)
  ++ (match trim <$> sys_name with Some ((_ :: _) as n) => [find_host_by_sys_name r n nid] | _ => [] end).

Lemma by_subtype_strategy r nid c :
  has_subtype_strategy c = false → by_subtype r nid c = None.
Proof. by destruct c. Qed.

(** Host resolution is the first hit of the ladder of lookups: it resolves
    to what the first successful lookup returned, reports "not found" exactly
    when there was something to look up and nothing was found, "no strategy"
    exactly when there was nothing to look up, and never "ambiguous". *)
Theorem resolve_host_id_first_hit r nid sys_name c :
  resolve_host_id r nid sys_name c =
  match host_lookups r nid sys_name c with
  | [] => NoStrategy
  | ls => match List.find (λ o, bool_decide (is_Some o)) ls with
          | Some (Some h) => Resolved h
          | _ => NotFound
          end
  end.
Proof.
  unfold resolve_host_id, host_lookups.
  assert (∀ (A : Type) (x : A), bool_decide (is_Some (Some x)) = true) as HS
    by (intros; apply bool_decide_eq_true_2; eauto).
  assert (∀ A : Type, bool_decide (is_Some (@None A)) = false) as HN
    by (intros; apply bool_decide_eq_false_2; by intros [? ?]).
  destruct (has_subtype_strategy c) eqn:Es; [|rewrite (by_subtype_strategy r nid c Es)].
  all: destruct (by_subtype r nid c) as [h|]; simpl; rewrite ?HS, ?HN; try done.
  all: destruct (identifier c) as [|b id]; simpl.
  all: try (destruct (find_host_by_chassis_id r (b :: id) nid) as [h'|]; simpl; rewrite ?HS, ?HN; try done).
  all: destruct sys_name as [n|]; simpl; rewrite ?HS, ?HN; try done.
  all: destruct (trim n) as [|t ts]; simpl; rewrite ?HS, ?HN; try done.
  all: destruct (find_host_by_sys_name r (t :: ts) nid); simpl; rewrite ?HS, ?HN; done.
Qed.

(** A device-local port name is tried as a name before it is tried as an
    index, blanks around it do not matter, and a blank name has no strategy;
    only the MAC lookup can be ambiguous. *)
Theorem resolve_if_entry_id_spec r host p :
  (resolve_if_entry_id r host p = Ambiguous →
     ∃ mac, p = PortMacAddress mac ∧ find_if_entry_by_mac r mac host = Ambiguous)
  ∧ (∀ id, p = PortInterfaceName id ∨ p = PortComponent id ∨ p = AgentCircuitId id
           ∨ p = PortLocallyAssigned id ∨ p = PortInterfaceAlias id →
     (trim id = [] → resolve_if_entry_id r host p = NoStrategy)
     ∧ (trim id ≠ [] → ∀ i, find_if_entry_by_name r (trim id) host = Some i →
          resolve_if_entry_id r host p = Resolved i)
     ∧ (trim id ≠ [] → find_if_entry_by_name r (trim id) host = None →
          resolve_if_entry_id r host p
          = match parse_i32 (trim id) with
            | Some n => found (find_if_entry_by_if_index r n host)
            | None => NotFound
            end)).
Proof.
  assert (∀ id, resolve_device_local_port r id host ≠ Ambiguous) as Hna.
  { intros id. unfold resolve_device_local_port, found. repeat case_match; done. }
  split.
  - destruct p; simpl; try (intros E; by apply Hna in E); [by eauto|].
    unfold found. by case_match.
  - intros id Hp. assert (resolve_if_entry_id r host p = resolve_device_local_port r id host) as ->
      by (by destruct Hp as [->|[->|[->|[->| ->]]]]).
    unfold resolve_device_local_port. split_and!.
    + by intros ->.
    + intros Hne i Hi. destruct (trim id); [done|]. by rewrite Hi.
    + intros Hne Hi. destruct (trim id); [done|]. by rewrite Hi.
Qed.

(** The fallback for unpadded MAC text accepts groups that are not hex
    digits: a sign before a digit is read as part of the number, so a name such
    as "+1:+2:+3:+4:+5:+6" becomes a MAC address. *)
Theorem signed_groups_accepted :
  canonical_mac (λ _, None) (join_with 58 ((λ d, [43; 48 + d]) <$> [1; 2; 3; 4; 5; 6]))
  = Some (format_mac [1; 2; 3; 4; 5; 6]).
Proof. by vm_compute. Qed.
