(* ===== verification/Access.v ===== *)
(** Organization roles and the permissions they may grant
    ([server/users/impl/permissions.rs]). *)

From S2P Require Import Prelude.
Local Open Scope Z_scope.

(** ** Roles *)
Module Permissions.

Inductive UserOrgPermissions := Owner | Admin | Member | Viewer.

#[export] Instance UserOrgPermissions_eq_dec : EqDecision UserOrgPermissions.
Proof. solve_decision. Defined.

Definition iter : list UserOrgPermissions := [Owner; Admin; Member; Viewer].

Definition rank (p : UserOrgPermissions) : Z :=
  match p with Owner => 4 | Admin => 3 | Member => 2 | Viewer => 1 end.

(** [Ord::cmp] through the ranks. *)
Definition cmp (a b : UserOrgPermissions) : comparison := rank a ?= rank b.
Definition le (a b : UserOrgPermissions) : bool := match cmp a b with Gt => false | _ => true end.
Definition lt (a b : UserOrgPermissions) : bool := match cmp a b with Lt => true | _ => false end.

Definition as_str (p : UserOrgPermissions) : string :=
  match p with Owner => "Owner" | Admin => "Admin" | Member => "Member" | Viewer => "Viewer" end%string.

Definition from_str (s : string) : result UserOrgPermissions unit :=
  if String.eqb s "Owner" then Ok Owner
  else if String.eqb s "Admin" then Ok Admin
  else if String.eqb s "Member" then Ok Member
  else if String.eqb s "Viewer" || String.eqb s "Visualizer" || String.eqb s "None" then Ok Viewer
  else Err tt.

Definition grantable_api_key_permissions (self : UserOrgPermissions) : list UserOrgPermissions :=
  List.filter (λ p, le p self) iter.

Definition grantable_user_permissions (self : UserOrgPermissions) : list UserOrgPermissions :=
  match self with
  | Owner => iter
  | Admin => List.filter (λ p, lt p self) iter
  | _ => []
  end.

Definition can_grant_api_key_permission (self target : UserOrgPermissions) : bool := le target self.

Definition can_grant_user_permission (self target : UserOrgPermissions) : bool :=
  bool_decide (target ∈ grantable_user_permissions self).

(** No role can be escalated by granting: along any chain of grants, to
    users or to API keys, the rank never rises, and a role handed to another
    user is strictly below the granter's unless the granter is an owner.
    Names survive the round trip through text. *)
Theorem grants_never_escalate (a b : UserOrgPermissions) :
  (rtc (λ x y, can_grant_user_permission x y = true ∨ can_grant_api_key_permission x y = true) a b
   → rank b ≤ rank a)
  ∧ (can_grant_user_permission a b = true → a ≠ Owner → rank b < rank a)
  ∧ (can_grant_api_key_permission a b = true ↔ b ∈ grantable_api_key_permissions a)
  ∧ from_str (as_str a) = Ok a.
Proof.
  assert (∀ x y, can_grant_user_permission x y = true ∨ can_grant_api_key_permission x y = true →
    rank y ≤ rank x) as Hone.
  { intros [] [] [?|?]; simpl; (lia || done). }
  split_and!.
  - induction 1 as [|x y z Hxy _ IH]; [done|]. specialize (Hone x y Hxy). lia.
  - by destruct a, b.
  - destruct a, b; simpl; unfold can_grant_api_key_permission, le, cmp; simpl; split; intros Hx;
      try done; try set_solver.
  - by destruct a.
Qed.
End Permissions.
