(* ===== verification/Versions.v ===== *)
(** The daemon version policy ([server/daemons/impl/version.rs]) and the gate
    that turns unsupported daemons away ([server/auth/middleware/auth.rs]).

    [semver::Version] is the class [SemVer]: a total order with constructor,
    parser and printer.  The announced cutovers are an argument wherever the
    source passes the list; [announced] is the list of this release. *)

From Stdlib Require Import Ascii DecimalString DecimalPos DecimalN.
From S2P Require Import Prelude.
Local Open Scope Z_scope.

(** What the policy uses of [semver::Version]. *)
Class SemVer (V : Type) : Type := {
  ver_leb : V → V → bool;
  ver_new : Z → Z → Z → V;
  ver_parse : string → option V;
  ver_show : V → string;
  ver_leb_total : ∀ a b, ver_leb a b = true ∨ ver_leb b a = true;
  ver_leb_trans : ∀ a b c, ver_leb a b = true → ver_leb b c = true → ver_leb a c = true;
  ver_leb_antisym : ∀ a b, ver_leb a b = true → ver_leb b a = true → a = b;
  ver_parse_show : ∀ v, ver_parse (ver_show v) = Some v
}.

(** An announced support cutover. *)
Record ScheduledFloor {V : Type} := { floor : V; effective_on : DateTime }.
Arguments ScheduledFloor : clear implicits.

Inductive VersionHealthStatus := Current | Outdated | Deprecated | Unsupported | UnknownVersion.

Inductive DeprecationSeverity := Info | Warning | Critical | UnknownSeverity.

Record DeprecationWarning := {
  message : string;
  warning_sunset_date : option string;
  severity : DeprecationSeverity
}.

Section Versions.
Context {V : Type} `{SemVer V}.
(** [own_version]: the version of this server; [format_date]: chrono's
    [format("%Y-%m-%d")]. *)
Context (own_version : V) (format_date : DateTime → string).
Implicit Types (v : V) (s : ScheduledFloor V) (sunsets : list (ScheduledFloor V)) (now : DateTime).

Definition ver_ltb (a b : V) : bool := negb (ver_leb b a).
(** [Ord::max] and [Ord::min]. *)
Definition ver_max (a b : V) : V := if ver_leb a b then b else a.
Definition ver_min (a b : V) : V := if ver_leb a b then a else b.

Definition baseline_floor : V := ver_new 0 12 0.

(** [scheduled_sunsets()]: no cutover is announced in this release. *)
Definition announced : list (ScheduledFloor V) := [].

Definition floor_from (sunsets : list (ScheduledFloor V)) (now : DateTime) : V :=
  ver_min (foldl ver_max baseline_floor
             (floor <$> List.filter (λ s, effective_on s <=? now) sunsets)) own_version.

Definition enforced_floor (now : DateTime) : V := floor_from announced now.

(** [Option<&Version> < Some(floor)]: no version is below every floor. *)
Definition below (v : option V) (f : V) : bool :=
  match v with None => true | Some v => ver_ltb v f end.

(** The comparison of [min_by]: soonest date, then lowest floor. *)
Definition sooner (a b : ScheduledFloor V) : bool :=
  (effective_on a <? effective_on b)
  || ((effective_on a =? effective_on b) && ver_leb (floor a) (floor b)).

(** [Iterator::min_by] keeps the first of equal minima. *)
Fixpoint min_from (best : ScheduledFloor V) (l : list (ScheduledFloor V)) : ScheduledFloor V :=
  match l with
  | [] => best
  | s :: l' => min_from (if sooner best s then best else s) l'
  end.

Definition applicable_sunset_in (sunsets : list (ScheduledFloor V)) (v : option V)
    : option (ScheduledFloor V) :=
  match List.filter (λ s, below v (floor s)) sunsets with
  | [] => None
  | s :: l => Some (min_from s l)
  end.

Definition applicable_sunset (v : option V) : option (ScheduledFloor V) :=
  applicable_sunset_in announced v.

Definition minimum_unified_discovery : V := ver_new 0 15 0.
Definition minimum_full_server_poll : V := ver_new 0 14 0.
Definition minimum_server_provisioned_identity : V := ver_new 0 17 5.
Definition minimum_targeted_rescan : V := ver_new 0 17 7.
Definition minimum_correct_docker_volume_mount : V := ver_new 0 16 1.

(** [version.is_some_and(|v| v >= &minimum)]. *)
Definition at_least (m : V) (v : option V) : bool :=
  match v with Some v => ver_leb m v | None => false end.
Definition supports_unified_discovery := at_least minimum_unified_discovery.
Definition supports_full_server_poll := at_least minimum_full_server_poll.
Definition supports_server_provisioned_identity := at_least minimum_server_provisioned_identity.
Definition supports_targeted_rescan := at_least minimum_targeted_rescan.
Definition has_correct_docker_volume_mount := at_least minimum_correct_docker_volume_mount.

Definition pre_interface_to_ip_address_rename (version : option string) : bool :=
  match version ≫= ver_parse with
  | Some v => ver_ltb v (ver_new 0 16 0)
  | None => true
  end.

Record DaemonVersionPolicy := {
  minimum_supported : V;
  recommended : V;
  latest : V;
  policy_now : DateTime;
  scheduled_sunsets : list (ScheduledFloor V)
}.

(** The policy over a list of cutovers, as both constructors build it. *)
Definition policy_with (sunsets : list (ScheduledFloor V)) (now : DateTime) : DaemonVersionPolicy := {|
  minimum_supported := floor_from sunsets now; recommended := own_version;
  latest := own_version; policy_now := now; scheduled_sunsets := sunsets |}.

(** [DaemonVersionPolicy::at]. *)
Definition policy_at (now : DateTime) : DaemonVersionPolicy := policy_with announced now.

Definition version_label (v : option V) : string :=
  match v with
  | Some v => "Daemon " +:+ ver_show v
  | None => "This daemon (no reported version)"
  end.

Definition lifecycle (p : DaemonVersionPolicy) (v : option V)
    : VersionHealthStatus * list DeprecationWarning * option string :=
  match applicable_sunset_in (scheduled_sunsets p) v with
  | Some s =>
      let sunset_str := format_date (effective_on s) in
      let '(status, msg) :=
        if effective_on s <=? policy_now p then
          (Unsupported,
           version_label v +:+ " is no longer supported (support ended " +:+ sunset_str
           +:+ "). Update to " +:+ ver_show (recommended p) +:+ " or later to reconnect.")
        else
          (Deprecated,
           version_label v +:+ " is deprecated and support ends " +:+ sunset_str
           +:+ ". Update to " +:+ ver_show (recommended p)
           +:+ " or later before then to avoid interruption.") in
      (status,
       [{| message := msg; warning_sunset_date := Some sunset_str; severity := Critical |}],
       Some sunset_str)
  | None =>
      match v with
      | None =>
          (UnknownVersion,
           [{| message := "Daemon version unknown. Update to " +:+ ver_show (recommended p)
                          +:+ " or later.";
               warning_sunset_date := None; severity := Warning |}], None)
      | Some v =>
          if ver_ltb v (minimum_supported p) then
            (Unsupported,
             [{| message := "Daemon " +:+ ver_show v +:+ " is no longer supported. Update to "
                            +:+ ver_show (recommended p) +:+ " or later to reconnect.";
                 warning_sunset_date := None; severity := Critical |}], None)
          else if ver_ltb v (recommended p) then
            (Outdated,
             [{| message := "Daemon " +:+ ver_show v +:+ " is outdated. Update to "
                            +:+ ver_show (recommended p) +:+ " for the latest features.";
                 warning_sunset_date := None; severity := Warning |}], None)
          else (Current, [], None)
      end
  end.

Record DaemonVersionStatus := {
  vs_version : option string;
  vs_status : VersionHealthStatus;
  vs_warnings : list DeprecationWarning;
  vs_sunset_date : option string;
  vs_supports_unified_discovery : bool;
  vs_has_correct_docker_volume_mount : bool;
  vs_supports_targeted_rescan : bool
}.

Definition evaluate (p : DaemonVersionPolicy) (v : option V) : DaemonVersionStatus :=
  let '(status, warnings, sunset_date) := lifecycle p v in
  {| vs_version := ver_show <$> v;
     vs_status := status;
     vs_warnings := warnings;
     vs_sunset_date := sunset_date;
     vs_supports_unified_discovery := supports_unified_discovery v;
     vs_has_correct_docker_volume_mount := has_correct_docker_volume_mount v;
     vs_supports_targeted_rescan := supports_targeted_rescan v |}.

(** [enforce_daemon_version] against a floor: the error carries what the
    [DaemonVersionTooOld] reply says, the reported version and the floor. *)
Definition enforce_floor (floor : V) (version : option string) : result unit (string * string) :=
  match version ≫= ver_parse with
  | Some v => if ver_ltb v floor then Err (ver_show v, ver_show floor) else Ok tt
  | None =>
      if ver_ltb (ver_new 0 14 10) floor then Err ("unknown"%string, ver_show floor) else Ok tt
  end.

Definition enforce_daemon_version (version : option string) (now : DateTime)
    : result unit (string * string) :=
  enforce_floor (enforced_floor now) version.

(** ** The order *)

Lemma ver_leb_refl (a : V) : ver_leb a a = true.
Proof. by destruct (ver_leb_total a a). Qed.

#[local] Hint Resolve ver_leb_refl ver_leb_trans : scanopy.

Lemma ver_ltb_true (a b : V) : ver_ltb a b = true ↔ ver_leb b a = false.
Proof. unfold ver_ltb. by destruct (ver_leb b a). Qed.

Lemma ver_ltb_false (a b : V) : ver_ltb a b = false ↔ ver_leb b a = true.
Proof. unfold ver_ltb. by destruct (ver_leb b a). Qed.

Lemma ver_leb_min (x a b : V) :
  ver_leb x (ver_min a b) = true ↔ ver_leb x a = true ∧ ver_leb x b = true.
Proof.
  unfold ver_min. destruct (ver_leb a b) eqn:E; [|destruct (ver_leb_total a b); [congruence|]];
    split; intuition eauto with scanopy.
Qed.

Lemma ver_min_leb (a b x : V) :
  ver_leb (ver_min a b) x = true ↔ ver_leb a x = true ∨ ver_leb b x = true.
Proof.
  unfold ver_min. destruct (ver_leb a b) eqn:E; [|destruct (ver_leb_total a b); [congruence|]];
    split; intuition eauto with scanopy.
Qed.

Lemma ver_max_leb (a b x : V) :
  ver_leb (ver_max a b) x = true ↔ ver_leb a x = true ∧ ver_leb b x = true.
Proof.
  unfold ver_max. destruct (ver_leb a b) eqn:E; [|destruct (ver_leb_total a b); [congruence|]];
    split; intuition eauto with scanopy.
Qed.

(** The fold of [floor_from] is the least upper bound. *)
Lemma foldl_max_leb (l : list V) (b x : V) :
  ver_leb (foldl ver_max b l) x = true ↔ ver_leb b x = true ∧ ∀ f, f ∈ l → ver_leb f x = true.
Proof.
  revert b. induction l as [|f l IH]; intros b; simpl.
  - set_solver.
  - rewrite IH, ver_max_leb. set_solver.
Qed.

Lemma elem_of_effective (f : V) sunsets now :
  f ∈ floor <$> List.filter (λ s, effective_on s <=? now) sunsets
  ↔ ∃ s, s ∈ sunsets ∧ effective_on s ≤ now ∧ floor s = f.
Proof.
  rewrite list_elem_of_fmap. setoid_rewrite list_elem_of_In. setoid_rewrite filter_In.
  setoid_rewrite Z.leb_le. naive_solver.
Qed.

(** The enforced floor lies below [x] exactly when the server does, or the
    baseline and every cutover in effect do. *)
Lemma floor_from_leb sunsets now (x : V) :
  ver_leb (floor_from sunsets now) x = true ↔
  ver_leb own_version x = true
  ∨ (ver_leb baseline_floor x = true
     ∧ ∀ s, s ∈ sunsets → effective_on s ≤ now → ver_leb (floor s) x = true).
Proof.
  unfold floor_from. rewrite ver_min_leb, foldl_max_leb. setoid_rewrite elem_of_effective.
  naive_solver.
Qed.

(** ** The nearest cutover *)

Lemma sooner_total (a b : ScheduledFloor V) : sooner a b = false → sooner b a = true.
Proof.
  unfold sooner. rewrite orb_true_iff, andb_true_iff, orb_false_iff, andb_false_iff.
  rewrite !Z.ltb_lt, !Z.ltb_ge, !Z.eqb_eq, !Z.eqb_neq.
  intros [? [?|E]]; [lia|]. destruct (ver_leb_total (floor a) (floor b)); [congruence|].
  destruct (decide (effective_on a = effective_on b)); [right; by split|lia].
Qed.

Lemma sooner_trans (a b c : ScheduledFloor V) :
  sooner a b = true → sooner b c = true → sooner a c = true.
Proof.
  unfold sooner. rewrite !orb_true_iff, !andb_true_iff, !Z.ltb_lt, !Z.eqb_eq.
  intros [?|[? ?]] [?|[? ?]]; [lia..|]. right. split; [lia|]. by eapply ver_leb_trans.
Qed.

Lemma sooner_refl (a : ScheduledFloor V) : sooner a a = true.
Proof. unfold sooner. rewrite Z.eqb_refl, ver_leb_refl. apply orb_true_r. Qed.

Lemma min_from_spec (l : list (ScheduledFloor V)) (b : ScheduledFloor V) :
  min_from b l ∈ b :: l ∧ ∀ s, s ∈ b :: l → sooner (min_from b l) s = true.
Proof.
  revert b. induction l as [|x l IH]; intros b; simpl.
  - split; [left|]. intros s ->%list_elem_of_singleton. apply sooner_refl.
  - destruct (IH (if sooner b x then b else x)) as [Hin Hmin].
    pose proof (Hmin _ (list_elem_of_here _ _)) as Hhd.
    destruct (sooner b x) eqn:E.
    + split; [set_solver|]. intros s [->|[->|Hs]%elem_of_cons]%elem_of_cons.
      * done.
      * by eapply sooner_trans.
      * apply Hmin. by right.
    + apply sooner_total in E. split; [set_solver|].
      intros s [->|[->|Hs]%elem_of_cons]%elem_of_cons.
      * by eapply sooner_trans.
      * done.
      * apply Hmin. by right.
Qed.

Lemma elem_of_facing (v : option V) sunsets s :
  s ∈ List.filter (λ s, below v (floor s)) sunsets ↔ s ∈ sunsets ∧ below v (floor s) = true.
Proof. by rewrite !list_elem_of_In, filter_In. Qed.

Lemma applicable_some (v : option V) sunsets s :
  applicable_sunset_in sunsets v = Some s →
  s ∈ sunsets ∧ below v (floor s) = true
  ∧ ∀ t, t ∈ sunsets → below v (floor t) = true → sooner s t = true.
Proof.
  unfold applicable_sunset_in. pose proof (elem_of_facing v sunsets) as Hin.
  destruct (List.filter _ _) as [|x l]; [done|]. intros [= <-].
  destruct (min_from_spec l x) as [H1 H2]. apply Hin in H1 as [? ?]. split_and!; [done..|].
  intros t Ht Hb. apply H2, Hin. by split.
Qed.

Lemma applicable_none (v : option V) sunsets :
  applicable_sunset_in sunsets v = None ↔ ∀ s, s ∈ sunsets → below v (floor s) = false.
Proof.
  unfold applicable_sunset_in. pose proof (elem_of_facing v sunsets) as Hin.
  destruct (List.filter _ _) as [|x l]; split; try done.
  - intros _ s Hs. apply not_true_is_false. intros Hb. by apply (not_elem_of_nil s), Hin.
  - intros Hall. destruct (proj1 (Hin x) (list_elem_of_here _ _)) as [Hx Hb].
    by rewrite Hall in Hb.
Qed.

Lemma sooner_date (a b : ScheduledFloor V) : sooner a b = true → effective_on a ≤ effective_on b.
Proof. unfold sooner. rewrite orb_true_iff, andb_true_iff, Z.ltb_lt, Z.eqb_eq. lia. Qed.

Lemma sooner_antisym (a b : ScheduledFloor V) : sooner a b = true → sooner b a = true → a = b.
Proof.
  unfold sooner. rewrite !orb_true_iff, !andb_true_iff, !Z.ltb_lt, !Z.eqb_eq.
  destruct a as [f e], b as [f' e']; simpl. intros [?|[He ?]] [?|[? ?]]; [lia..|].
  f_equal; [by apply ver_leb_antisym|done].
Qed.

(** ** The properties *)

(** The enforced floor is the least upper bound of the baseline and the
    cutovers in effect, capped at the server's own version: the server never
    rejects a daemon of its own generation, the floor never drops below the
    baseline, and it only rises as time passes. *)
Theorem floor_from_spec (sunsets : list (ScheduledFloor V)) (now : DateTime) :
  ver_leb (floor_from sunsets now) own_version = true
  ∧ (ver_leb baseline_floor own_version = true →
     ver_leb baseline_floor (floor_from sunsets now) = true)
  ∧ (∀ s, s ∈ sunsets → effective_on s ≤ now → ver_leb (floor s) own_version = true →
     ver_leb (floor s) (floor_from sunsets now) = true)
  ∧ (∀ later, now ≤ later → ver_leb (floor_from sunsets now) (floor_from sunsets later) = true)
  ∧ enforce_floor (floor_from sunsets now) (Some (ver_show own_version)) = Ok tt.
Proof.
  assert (ver_leb (floor_from sunsets now) own_version = true) as Hown.
  { apply floor_from_leb. auto with scanopy. }
  pose proof (λ t, proj1 (foldl_max_leb
    (floor <$> List.filter (λ s, effective_on s <=? t) sunsets) baseline_floor _)
    (ver_leb_refl _)) as Hub.
  split_and!; [done|..].
  - intros Hb. apply ver_leb_min. split; [apply (proj1 (Hub now))|done].
  - intros s Hs Heff Hle. apply ver_leb_min. split; [|done].
    apply Hub, elem_of_effective. eauto.
  - intros later Hlater. apply ver_leb_min. split; [|done]. apply ver_min_leb. left.
    apply foldl_max_leb. split; [apply (proj1 (Hub later))|]. intros f (s & Hs & Heff & <-)%elem_of_effective.
    apply Hub, elem_of_effective. exists s. split_and!; [done|lia|done].
  - unfold enforce_floor. simpl. rewrite ver_parse_show.
    rewrite (proj2 (ver_ltb_false _ _) Hown). done.
Qed.

(** A daemon is told about a cutover exactly when some announced floor is
    above its version (a daemon that reports none is below every floor); the
    cutover it is told about is the soonest of those, the lowest floor breaking
    a tie, whatever the order of the announcements. *)
Theorem applicable_sunset_spec (sunsets : list (ScheduledFloor V)) (v : option V) :
  (applicable_sunset_in sunsets v = None ↔ ∀ s, s ∈ sunsets → below v (floor s) = false)
  ∧ (∀ s, applicable_sunset_in sunsets v = Some s →
     s ∈ sunsets ∧ below v (floor s) = true
     ∧ ∀ t, t ∈ sunsets → below v (floor t) = true → effective_on s ≤ effective_on t)
  ∧ (∀ sunsets', Permutation sunsets sunsets' →
     applicable_sunset_in sunsets' v = applicable_sunset_in sunsets v).
Proof.
  split_and!; [apply applicable_none|..].
  - intros s (Hs & Hb & Hmin)%applicable_some. split_and!; [done..|].
    intros t Ht Hbt. by apply sooner_date, Hmin.
  - intros sunsets' Hperm.
    destruct (applicable_sunset_in sunsets v) as [s|] eqn:E.
    + destruct (applicable_sunset_in sunsets' v) as [s'|] eqn:E'.
      * apply applicable_some in E as (Hs & Hb & Hm). apply applicable_some in E' as (Hs' & Hb' & Hm').
        rewrite <-Hperm in Hs'. specialize (Hm s' Hs' Hb'). rewrite Hperm in Hs.
        f_equal. apply sooner_antisym; eauto.
      * apply applicable_some in E as (Hs & Hb & _). rewrite Hperm in Hs.
        by rewrite (proj1 (applicable_none v sunsets') E' s Hs) in Hb.
    + apply applicable_none. intros s Hs. rewrite <-Hperm in Hs.
      by apply (proj1 (applicable_none v sunsets) E).
Qed.

(** The stage of a known version. *)
Definition status_of (sunsets : list (ScheduledFloor V)) (now : DateTime) (v : option V)
    : VersionHealthStatus := vs_status (evaluate (policy_with sunsets now) v).

Lemma status_unsupported sunsets now (v : V) :
  status_of sunsets now (Some v) = Unsupported ↔
  match applicable_sunset_in sunsets (Some v) with
  | Some s => effective_on s ≤ now
  | None => ver_leb (floor_from sunsets now) v = false
  end.
Proof.
  unfold status_of, evaluate, lifecycle. simpl.
  destruct (applicable_sunset_in sunsets (Some v)) as [s|].
  - rewrite <-Z.leb_le. by destruct (effective_on s <=? now).
  - rewrite <-ver_ltb_true. destruct (ver_ltb v (floor_from _ _)); [done|].
    by destruct (ver_ltb v own_version).
Qed.

(** The stage shown for a daemon agrees with the gate: if no announced
    floor is newer than the server, a daemon at or above the baseline is shown
    as unsupported exactly when its requests are rejected, which is when some
    cutover in effect has a floor above its version. *)
Theorem status_agrees_with_gate (sunsets : list (ScheduledFloor V)) (now : DateTime) (v : V)
  (Hfloors : ∀ s, s ∈ sunsets → ver_leb (floor s) own_version = true)
  (Hbase : ver_leb baseline_floor v = true) :
  (status_of sunsets now (Some v) = Unsupported ↔
   enforce_floor (floor_from sunsets now) (Some (ver_show v))
   = Err (ver_show v, ver_show (floor_from sunsets now)))
  ∧ (status_of sunsets now (Some v) = Unsupported ↔
     ∃ s, s ∈ sunsets ∧ effective_on s ≤ now ∧ ver_ltb v (floor s) = true).
Proof.
  assert (status_of sunsets now (Some v) = Unsupported ↔
     ∃ s, s ∈ sunsets ∧ effective_on s ≤ now ∧ ver_ltb v (floor s) = true) as Hstat.
  { rewrite status_unsupported. destruct (applicable_sunset_in sunsets (Some v)) as [s|] eqn:E.
    - apply applicable_some in E as (Hs & Hb & Hm). split; [eauto|].
      intros (t & Ht & Heff & Hlt). apply (Z.le_trans _ (effective_on t)); [|done].
      by apply sooner_date, Hm.
    - pose proof (proj1 (applicable_none (Some v) sunsets) E) as Hnone. split.
      + intros Hf. exfalso. rewrite (proj2 (floor_from_leb sunsets now v)) in Hf; [done|].
        right. split; [done|]. intros s Hs _. by apply ver_ltb_false, Hnone.
      + intros (t & Ht & _ & Hlt). by rewrite (Hnone t Ht : ver_ltb v _ = _) in Hlt. }
  split; [|done]. rewrite Hstat. unfold enforce_floor. simpl. rewrite ver_parse_show.
  transitivity (ver_ltb v (floor_from sunsets now) = true); [|by destruct (ver_ltb _ _)].
  rewrite ver_ltb_true. split.
  - intros (s & Hs & Heff & Hlt%ver_ltb_true). apply not_true_iff_false.
    intros [Hown|[_ Hall]]%floor_from_leb; [|by rewrite Hall in Hlt].
    by rewrite (ver_leb_trans _ _ _ (Hfloors s Hs) Hown) in Hlt.
  - intros Hf.
    destruct (decide (Exists (λ s, effective_on s ≤ now ∧ ver_ltb v (floor s) = true) sunsets))
      as [(s & Hs%list_elem_of_In & ?)%Exists_exists|Hno]; [eauto|].
    rewrite (proj2 (floor_from_leb sunsets now v)) in Hf; [done|]. right. split; [done|].
    intros s Hs Heff. apply ver_ltb_false, not_true_iff_false. intros Hlt. apply Hno.
    apply Exists_exists. exists s. by rewrite <-list_elem_of_In.
Qed.
End Versions.

(** ** Release versions

    The versions without pre-release or build part, [major.minor.patch] in
    decimal, are an instance. *)
Module Release.

Definition release : Type := N * N * N.

Definition leb (a b : release) : bool :=
  let '(a1, a2, a3) := a in let '(b1, b2, b3) := b in
  (a1 <? b1)%N || ((a1 =? b1)%N && ((a2 <? b2)%N || ((a2 =? b2)%N && (a3 <=? b3)%N))).

Definition show_N (n : N) : string := NilZero.string_of_uint (N.to_uint n).
Definition parse_N (s : string) : option N := N.of_uint <$> NilZero.uint_of_string s.

Definition show (v : release) : string :=
  let '(a, b, c) := v in show_N a +:+ "." +:+ show_N b +:+ "." +:+ show_N c.

Fixpoint split_dot (s : string) : string * string :=
  match s with
  | EmptyString => (EmptyString, EmptyString)
  | String c s' =>
      if Ascii.eqb c "."%char then (EmptyString, s')
      else let '(a, b) := split_dot s' in (String c a, b)
  end.

Definition parse (s : string) : option release :=
  let '(a, s1) := split_dot s in
  let '(b, c) := split_dot s1 in
  a ← parse_N a; b ← parse_N b; c ← parse_N c; Some (a, b, c).

Lemma parse_show_N (n : N) : parse_N (show_N n) = Some n.
Proof.
  unfold parse_N, show_N. rewrite NilZero.usu; simpl.
  - by rewrite DecimalN.Unsigned.of_to.
  - destruct n; [done|apply DecimalPos.Unsigned.to_uint_nonnil].
Qed.

Lemma split_dot_uint (d : Decimal.uint) (s : string) :
  split_dot (NilEmpty.string_of_uint d +:+ String "."%char s) = (NilEmpty.string_of_uint d, s).
Proof. induction d; simpl; [done|by rewrite IHd..]. Qed.

Lemma split_dot_show_N (n : N) (s : string) : split_dot (show_N n +:+ String "."%char s) = (show_N n, s).
Proof.
  unfold show_N, NilZero.string_of_uint. destruct (N.to_uint n); [done|apply split_dot_uint..].
Qed.

Lemma leb_iff (a b : release) :
  leb a b = true ↔
  let '(a1, a2, a3) := a in let '(b1, b2, b3) := b in
  (a1 < b1 ∨ (a1 = b1 ∧ (a2 < b2 ∨ (a2 = b2 ∧ a3 ≤ b3))))%N.
Proof.
  destruct a as [[a1 a2] a3], b as [[b1 b2] b3]. unfold leb.
  by rewrite !orb_true_iff, !andb_true_iff, !orb_true_iff, !andb_true_iff, !N.ltb_lt, !N.eqb_eq, N.leb_le.
Qed.

#[export] Program Instance release_semver : SemVer release := {|
  ver_leb := leb; ver_new a b c := (Z.to_N a, Z.to_N b, Z.to_N c);
  ver_parse := parse; ver_show := show |}.
Next Obligation. intros [[? ?] ?] [[? ?] ?]. rewrite !leb_iff. lia. Qed.
Next Obligation. intros [[? ?] ?] [[? ?] ?] [[? ?] ?]. rewrite !leb_iff. lia. Qed.
Next Obligation.
  intros [[? ?] ?] [[? ?] ?]. rewrite !leb_iff. intros ? ?. f_equal; [f_equal|]; lia.
Qed.
Next Obligation.
  intros [[a b] c]. unfold parse.
  change (show (a, b, c)) with
    (show_N a +:+ String "."%char (show_N b +:+ String "."%char (show_N c))).
  by rewrite split_dot_show_N, split_dot_show_N, !parse_show_N.
Qed.

(** This server's release. *)
Definition server : release := (0, 17, 11)%N.
Definition cutover (m p : N) (t : DateTime) : ScheduledFloor release :=
  {| floor := (0%N, m, p); effective_on := t |}.
Definition no_dates (t : DateTime) : string := EmptyString.

(** At time 100 a cutover to 0.17.5 that took effect at 50 rejects 0.16.0 and
    keeps 0.17.6. *)
Lemma status_agrees_with_gate_witness :
  status_of server no_dates [cutover 17 5 50; cutover 17 9 200] 100 (Some (0, 16, 0)%N) = Unsupported
  ∧ status_of server no_dates [cutover 17 5 50; cutover 17 9 200] 100 (Some (0, 17, 6)%N) ≠ Unsupported.
Proof.
  split.
  - refine (proj2 (proj2 (status_agrees_with_gate server no_dates _ 100 (0, 16, 0)%N _ _)) _).
    + intros s Hs. repeat (apply elem_of_cons in Hs as [->|Hs]; [reflexivity|]). by apply elem_of_nil in Hs.
    + reflexivity.
    + exists (cutover 17 5 50). split_and!; [left|simpl; lia|reflexivity].
  - vm_compute. discriminate.
Defined.

(** Outside those hypotheses the stage and the gate disagree.  A daemon below
    the baseline with a cutover announced for later is shown as deprecated
    although its requests are already rejected; and once a cutover newer than
    the server takes effect, daemons up to the server's own version are shown
    as unsupported although the capped floor lets them through. *)
Theorem status_and_gate_disagree :
  let early := [cutover 17 5 200] in
  let newer := [cutover 18 0 50] in
  status_of server no_dates early 100 (Some (0, 11, 0)%N) = Deprecated
  ∧ enforce_floor (floor_from server early 100) (Some (show (0, 11, 0)%N))
    = Err ("0.11.0"%string, "0.12.0"%string)
  ∧ status_of server no_dates newer 100 (Some server) = Unsupported
  ∧ enforce_floor (floor_from server newer 100) (Some (show server)) = Ok tt.
Proof. by vm_compute. Qed.
End Release.
