(* ===== verification/Bindings.v ===== *)
(** Bindings of a service: conflicts, coverage, deduplication, merging.

    [server/services/service/binding_validation.rs],
    [server/services/service/binding_mutation.rs], the merge loop of
    [server/services/service/upsert.rs],
    [server/services/service/transfer.rs] and [bindings_overlap] of
    [server/hosts/service/mod.rs]. *)

From S2P Require Import Prelude Net Ports Position Entities.
Local Open Scope Z_scope.

Abbreviation Claim := (N * option N)%type (only parsing).

Definition bt (b : Binding) : BindingType := binding_type (b_base b).

(** ** Overlap of port claims *)

Definition bindings_overlap (claim_iface op_iface : option Uuid) : bool :=
  match claim_iface, op_iface with
  | None, _ | _, None => true
  | Some a, Some b => (a =? b)%N
  end.

(** The port a binding claims, with the address it claims it on. *)
Definition port_claim (b : Binding) : option (Uuid * option Uuid) :=
  match bt b with BindPort p i => Some (p, i) | BindIPAddress _ => None end.

Definition claims_overlap (a b : Uuid * option Uuid) : bool :=
  (a.1 =? b.1)%N && bindings_overlap a.2 b.2.

(** ** [binding_validation.rs] *)

Definition is_binding_covered_by_existing (new : Binding) (existing : list Binding) : bool :=
  match bt new with
  | BindPort p (Some _) =>
      existsb (λ e, match bt e with BindPort p' None => (p' =? p)%N | _ => false end) existing
  | _ => false
  end.

Inductive BindingConflict := IPAddressOverPort | PortOverIPAddress | AllPortsOverIPAddress.

(** The message of the first existing binding the new one conflicts with. *)
Definition validate_binding_no_conflict (new : BindingType) (existing : list Binding)
    : option BindingConflict :=
  match new with
  | BindIPAddress ip =>
      if existsb (λ e, match bt e with
                       | BindPort _ i => bool_decide (i = Some ip) || bool_decide (i = None)
                       | BindIPAddress _ => false
                       end) existing
      then Some IPAddressOverPort else None
  | BindPort _ (Some ip) =>
      if existsb (λ e, match bt e with BindIPAddress i => (i =? ip)%N | _ => false end) existing
      then Some PortOverIPAddress else None
  | BindPort _ None =>
      if existsb (λ e, match bt e with BindIPAddress _ => true | _ => false end) existing
      then Some AllPortsOverIPAddress else None
  end.

Definition all_interface_port_ids (bs : list Binding) : list Uuid :=
  omap (λ b, match bt b with BindPort p None => Some p | _ => None end) bs.

Definition superseded (all : list Uuid) (b : Binding) : bool :=
  match bt b with BindPort p (Some _) => bool_decide (p ∈ all) | _ => false end.

(** The loop over the bindings; [seen] holds the binding types kept so far. *)
Fixpoint dedup_loop (all : list Uuid) (seen : list BindingType) (bs : list Binding) : list Binding :=
  match bs with
  | [] => []
  | b :: bs' =>
      if superseded all b then dedup_loop all seen bs'
      else if bool_decide (bt b ∈ seen) then dedup_loop all seen bs'
      else b :: dedup_loop all (bt b :: seen) bs'
  end.

Definition deduplicate_bindings (bs : list Binding) : list Binding :=
  dedup_loop (all_interface_port_ids bs) [] bs.

(** Each binding against those before it. *)
Fixpoint no_conflicts_from (before rest : list Binding) : result unit BindingConflict :=
  match rest with
  | [] => Ok tt
  | b :: rest' =>
      match validate_binding_no_conflict (bt b) before with
      | Some e => Err e
      | None => no_conflicts_from (before ++ [b]) rest'
      end
  end.

Definition validate_bindings_no_conflicts (bs : list Binding) : result unit BindingConflict :=
  no_conflicts_from [] bs.

Inductive ForeignRef :=
| ForeignIPAddress (ip : Uuid)
| ForeignPort (port : Uuid)
| ForeignPortIPAddress (ip : Uuid).

Fixpoint validate_bindings_belong_to_host (host_ports host_ips : gset Uuid) (bs : list Binding)
    : result unit ForeignRef :=
  match bs with
  | [] => Ok tt
  | b :: bs' =>
      match bt b with
      | BindIPAddress ip =>
          if bool_decide (ip ∈ host_ips)
          then validate_bindings_belong_to_host host_ports host_ips bs'
          else Err (ForeignIPAddress ip)
      | BindPort p i =>
          if bool_decide (p ∈ host_ports)
          then match i with
               | Some ip =>
                   if bool_decide (ip ∈ host_ips)
                   then validate_bindings_belong_to_host host_ports host_ips bs'
                   else Err (ForeignPortIPAddress ip)
               | None => validate_bindings_belong_to_host host_ports host_ips bs'
               end
          else Err (ForeignPort p)
      end
  end.

(** ** The merge loop of [upsert_service]

    The merged bindings and the count of changes. *)

Definition dominated (p : Uuid) (e : Binding) : bool :=
  match bt e with BindPort p' i => bool_decide (is_Some i) && (p' =? p)%N | _ => false end.

Definition upsert_binding (acc : list Binding * nat) (new : Binding) : list Binding * nat :=
  let '(existing, updates) := acc in
  if is_binding_covered_by_existing new existing then acc
  else match validate_binding_no_conflict (bt new) existing with
  | Some _ => acc
  | None =>
      let kept := match bt new with
                  | BindPort p None => List.filter (λ e, negb (dominated p e)) existing
                  | _ => existing
                  end in
      let updates' := (updates + (length existing - length kept))%nat in
      if existsb (λ e, binding_eqb e new) kept then (kept, updates')
      else (kept ++ [new], S updates')
  end.

#[global] Arguments upsert_binding : simpl never.

Definition upsert_bindings (existing new : list Binding) : list Binding * nat :=
  foldl upsert_binding (existing, 0%nat) new.

(** ** [binding_mutation.rs] *)

Definition service_claims (services : list Service) (except : Uuid) : list (Uuid * option Uuid) :=
  s ← List.filter (λ s, negb (sv_id s =? except)%N) services; omap port_claim (bindings (sv_base s)).

Definition has_conflict (claimed : list (Uuid * option Uuid)) (b : Binding) : bool :=
  match port_claim b with Some c => existsb (claims_overlap c) claimed | None => false end.

(** [live] is the live services of the host, as the query returns them. *)
Definition partition_conflicting_bindings (live : list Service) (service_id : Uuid)
    (bs : list Binding) (batch_claimed : list (Uuid * option Uuid)) : list Binding * list Binding :=
  match bs with
  | [] => ([], [])
  | _ =>
      match service_claims live service_id ++ batch_claimed with
      | [] => (bs, [])
      | claimed => List.partition (λ b, negb (has_conflict claimed b)) bs
      end
  end.

(** The first binding claimed by another service, with that service's id. *)
Fixpoint bindings_available_from (others : list Service) (bs : list Binding)
    : result unit (Uuid * Uuid) :=
  match bs with
  | [] => Ok tt
  | b :: bs' =>
      match port_claim b with
      | None => bindings_available_from others bs'
      | Some c =>
          match List.find (λ s, existsb (claims_overlap c) (omap port_claim (bindings (sv_base s))))
                  others with
          | Some owner => Err (c.1, sv_id owner)
          | None => bindings_available_from others bs'
          end
      end
  end.

Definition validate_bindings_available (live : list Service) (service_id : Uuid) (bs : list Binding)
    : result unit (Uuid * Uuid) :=
  match bs with
  | [] => Ok tt
  | _ => bindings_available_from (List.filter (λ s, negb (sv_id s =? service_id)%N) live) bs
  end.

(** What [remove_port_bindings] keeps. *)
Definition remaining_bindings (claims : list (Uuid * option Uuid)) (bs : list Binding)
    : list Binding :=
  List.filter (λ b, negb (has_conflict claims b)) bs.

(** ** [transfer.rs] *)

Definition set_binding_type (t : BindingType) (b : Binding) : Binding :=
  {| b_id := b_id b; b_meta := b_meta b;
     b_base := {| b_service_id := b_service_id (b_base b); b_network_id := b_network_id (b_base b);
                  binding_type := t |} |}.

Section Reassign.
Context (original_ips updated_ips : list IPAddress) (original_ports updated_ports : list Port)
        (remap : gmap Uuid Uuid).

Definition find_equal_ip (o : IPAddress) : option IPAddress :=
  List.find (λ i, ip_address_eqb i o) updated_ips.

(** The address of a port binding on the new host; [None] is all addresses. *)
Definition reassign_port_ip (o : option IPAddress) : option Uuid :=
  match o with
  | None => None
  | Some orig =>
      match find_equal_ip orig with
      | Some i => Some (ip_id i)
      | None =>
          new_id ← remap !! ip_id orig;
          ip_id <$> List.find (λ i, (ip_id i =? new_id)%N) updated_ips
      end
  end.

Definition reassign_binding (b : Binding) : option Binding :=
  let original := ip_address_id b ≫= λ id, List.find (λ i, (ip_id i =? id)%N) original_ips in
  match bt b with
  | BindIPAddress ip =>
      match original ≫= find_equal_ip with
      | Some i => Some (set_binding_type (BindIPAddress (ip_id i)) b)
      | None => (λ n, set_binding_type (BindIPAddress n) b) <$> remap !! ip
      end
  | BindPort p _ =>
      op ← List.find (λ q, (p_id q =? p)%N) original_ports;
      np ← List.find (λ q, port_eqb (port_type (p_base q)) (port_type (p_base op))) updated_ports;
      Some (set_binding_type (BindPort (p_id np) (reassign_port_ip original)) b)
  end.

Definition reassign_service_interface_bindings (host_id network_id : Uuid) (s : Service) : Service :=
  let b := sv_base s in
  {| sv_id := sv_id s; sv_meta := sv_meta s;
     sv_base := {| sv_host_id := host_id; sv_network_id := network_id;
                   service_definition := service_definition b; sv_name := sv_name b;
                   bindings := omap reassign_binding (bindings b);
                   virtualization_metadata := virtualization_metadata b;
                   virtualization_service_id := virtualization_service_id b;
                   source := source b; sv_tags := sv_tags b; sv_position := sv_position b |} |}.
End Reassign.

(** ** Well-formed binding sets *)

(** An address binding and a port binding on that address exclude each other. *)
Definition conflict (a b : BindingType) : bool :=
  match a, b with
  | BindIPAddress ip, BindPort _ i | BindPort _ i, BindIPAddress ip =>
      bindings_overlap (Some ip) i
  | _, _ => false
  end.

Definition compatible (bs : list BindingType) : Prop :=
  ∀ a b, a ∈ bs → b ∈ bs → conflict a b = false.

(** No address-specific binding of a port that is bound on all addresses. *)
Definition unsuperseded (bs : list BindingType) : Prop :=
  ∀ p ip, BindPort p (Some ip) ∈ bs → BindPort p None ∉ bs.

Record wf_bindings (bs : list Binding) : Prop := {
  wf_compatible : compatible (bt <$> bs);
  wf_NoDup : NoDup (bt <$> bs);
  wf_unsuperseded : unsuperseded (bt <$> bs)
}.

(** The endpoints a set of bindings serves: whole addresses, and ports on one
    address (an address of the host is [Some]) or on all of them. *)
Definition serves (bs : list BindingType) (t : BindingType) : Prop :=
  t ∈ bs ∨ ∃ p ip, t = BindPort p (Some ip) ∧ BindPort p None ∈ bs.

Lemma overlap_sym a b : bindings_overlap a b = bindings_overlap b a.
Proof. destruct a, b; simpl; auto using N.eqb_sym. Qed.

Lemma claims_overlap_sym a b : claims_overlap a b = claims_overlap b a.
Proof. unfold claims_overlap. by rewrite N.eqb_sym, overlap_sym. Qed.

Lemma conflict_sym a b : conflict a b = conflict b a.
Proof. by destruct a, b. Qed.

Lemma elem_of_bt (bs : list Binding) t : t ∈ bt <$> bs ↔ ∃ b, b ∈ bs ∧ bt b = t.
Proof. rewrite list_elem_of_fmap. naive_solver. Qed.

Lemma no_conflict_spec new existing :
  validate_binding_no_conflict new existing = None ↔
  ∀ t, t ∈ bt <$> existing → conflict new t = false.
Proof.
  setoid_rewrite elem_of_bt.
  assert (∀ f : Binding → bool, (∀ e, f e = conflict new (bt e)) →
    (existsb f existing = false ↔ ∀ t, (∃ b, b ∈ existing ∧ bt b = t) → conflict new t = false)) as H.
  { intros f Hf. rewrite existsb_elem_false. setoid_rewrite Hf. naive_solver. }
  destruct new as [ip|p [ip|]]; simpl validate_binding_no_conflict.
  all: match goal with |- context [existsb ?f _] => rewrite <- (H f) end.
  all: try by destruct (existsb _ _).
  - intros e. simpl. destruct (bt e) as [|q [i|]]; simpl; try done.
    rewrite orb_false_r. destruct (N.eqb_spec ip i); case_bool_decide; congruence.
  - intros e. simpl. destruct (bt e); simpl; [|done]. done.
  - intros e. by destruct (bt e).
Qed.

Lemma covered_spec new existing :
  is_binding_covered_by_existing new existing = true ↔
  ∃ p ip, bt new = BindPort p (Some ip) ∧ BindPort p None ∈ bt <$> existing.
Proof.
  unfold is_binding_covered_by_existing. setoid_rewrite elem_of_bt.
  destruct (bt new) as [ip|p [ip|]]; [naive_solver| |naive_solver].
  rewrite existsb_elem. split.
  - intros (e & He & Ht). exists p, ip. split; [done|]. exists e. split; [done|].
    destruct (bt e) as [|q [|]]; try done. by apply N.eqb_eq in Ht as ->.
  - intros (p' & ip' & [= <- <-] & e & He & Ht). exists e. rewrite Ht, N.eqb_refl. done.
Qed.

(** *** Deduplication *)

Lemma all_interface_port_ids_elem bs p :
  p ∈ all_interface_port_ids bs ↔ BindPort p None ∈ bt <$> bs.
Proof.
  unfold all_interface_port_ids. rewrite list_elem_of_omap, elem_of_bt.
  split; intros (b & Hb & E); exists b; (split; [done|]).
  - destruct (bt b) as [|q [|]]; naive_solver.
  - by rewrite E.
Qed.

Lemma superseded_spec all b :
  superseded all b = true ↔ ∃ p ip, bt b = BindPort p (Some ip) ∧ p ∈ all.
Proof.
  unfold superseded. destruct (bt b) as [ip|p [ip|]]; rewrite ?bool_decide_eq_true; naive_solver.
Qed.

Lemma dedup_loop_spec all seen bs t :
  t ∈ bt <$> dedup_loop all seen bs ↔
  t ∉ seen ∧ ∃ b, b ∈ bs ∧ bt b = t ∧ superseded all b = false.
Proof.
  revert seen. induction bs as [|b bs IH]; intros seen; simpl.
  { split; [by intros ?%not_elem_of_nil|by intros (_ & ? & ?%not_elem_of_nil & _)]. }
  setoid_rewrite elem_of_cons. destruct (superseded all b) eqn:Es; [|case_bool_decide as Hs].
  - rewrite IH. split; intros (Hn & x & Hx & Ht & Hp); (split; [done|]); exists x; [by auto|].
    destruct Hx as [->|Hx]; [congruence|done].
  - rewrite IH. split; intros (Hn & x & Hx & Ht & Hp); (split; [done|]); exists x; [by auto|].
    destruct Hx as [->|Hx]; [congruence|done].
  - rewrite fmap_cons, elem_of_cons, IH, not_elem_of_cons. split.
    + intros [->|([Hne Hn] & x & Hx & Ht & Hp)]; [by split; [|exists b; auto]|].
      split; [done|]. exists x. auto.
    + intros (Hn & x & Hx & Ht & Hp). destruct (decide (t = bt b)) as [->|Hne]; [by left|right].
      split; [done|]. exists x. destruct Hx as [->|Hx]; [congruence|done].
Qed.

Lemma dedup_loop_NoDup all seen bs :
  NoDup (bt <$> dedup_loop all seen bs).
Proof.
  revert seen. induction bs as [|b bs IH]; intros seen; simpl; [constructor|].
  repeat case_match; auto. rewrite fmap_cons. constructor; [|done].
  rewrite dedup_loop_spec. intros [Hn _]. by apply Hn; left.
Qed.

Lemma dedup_loop_sublist all seen bs : dedup_loop all seen bs `sublist_of` bs.
Proof.
  revert seen. induction bs as [|b bs IH]; intros seen; simpl; [constructor|].
  repeat case_match; by constructor.
Qed.

(** A list that is already deduplicated is left alone. *)
Lemma dedup_loop_id all seen bs :
  NoDup (bt <$> bs) → (∀ t p ip, t ∈ bt <$> bs → t = BindPort p (Some ip) → p ∈ all → False) →
  (∀ t, t ∈ seen → t ∉ bt <$> bs) →
  dedup_loop all seen bs = bs.
Proof.
  revert seen. induction bs as [|b bs IH]; intros seen; simpl; [done|].
  intros [Hb Hnd]%list.NoDup_cons Hs Hseen.
  destruct (superseded all b) eqn:Es.
  { apply superseded_spec in Es as (p & ip & E & Hp). destruct (Hs (bt b) p ip); [left|done|done]. }
  rewrite bool_decide_eq_false_2 by (intros ?; eapply Hseen; [done|left]).
  f_equal. apply IH; [done| |].
  - intros t p ip Ht. apply Hs. by right.
  - intros t [->|Ht]%elem_of_cons; [done|]. intros ?. eapply Hseen; [done|by right].
Qed.

Lemma deduplicate_elem bs t :
  t ∈ bt <$> deduplicate_bindings bs ↔
  t ∈ bt <$> bs ∧ ∀ p ip, t = BindPort p (Some ip) → BindPort p None ∉ bt <$> bs.
Proof.
  unfold deduplicate_bindings. rewrite dedup_loop_spec, elem_of_bt.
  setoid_rewrite <- not_true_iff_false. setoid_rewrite superseded_spec.
  setoid_rewrite all_interface_port_ids_elem. split.
  - intros (_ & b & Hb & <- & Hs). split; [eauto|]. naive_solver.
  - intros [(b & Hb & <-) Hs]. split; [apply not_elem_of_nil|]. exists b. naive_solver.
Qed.

Lemma deduplicate_wf bs :
  NoDup (bt <$> deduplicate_bindings bs) ∧ unsuperseded (bt <$> deduplicate_bindings bs).
Proof.
  split; [apply dedup_loop_NoDup|].
  intros p ip [_ H1]%deduplicate_elem [H2 _]%deduplicate_elem. by apply (H1 p ip).
Qed.

(** Deduplication keeps what the bindings mean.  The result has no two
    bindings of the same type and no address-specific binding of a port that is
    bound on all addresses, it is a subsequence of the input, it serves exactly
    the endpoints the input serves, and deduplicating again changes nothing. *)
Theorem deduplicate_bindings_spec bs :
  let r := deduplicate_bindings bs in
  NoDup (bt <$> r) ∧ unsuperseded (bt <$> r) ∧ r `sublist_of` bs
  ∧ (∀ t, serves (bt <$> r) t ↔ serves (bt <$> bs) t)
  ∧ deduplicate_bindings r = r.
Proof.
  cbv zeta. destruct (deduplicate_wf bs) as [Hnd Hus].
  split_and!; [done|done|apply dedup_loop_sublist| |].
  - intros t. unfold serves. setoid_rewrite deduplicate_elem. split.
    + intros [[H _]|(p & ip & -> & H & _)]; [by left|right; by exists p, ip].
    + intros [H|(p & ip & -> & H)].
      * destruct t as [ip|p [ip|]].
        -- left. split; [done|congruence].
        -- destruct (decide (BindPort p None ∈ bt <$> bs)) as [Hp|Hp].
           ++ right. exists p, ip. split_and!; [done|done|congruence].
           ++ left. split; [done|]. by intros ? ? [= <- <-].
        -- left. split; [done|congruence].
      * right. exists p, ip. split_and!; [done|done|congruence].
  - apply dedup_loop_id; [done| |by intros t ?%not_elem_of_nil]. intros t p ip Ht -> Hp%all_interface_port_ids_elem.
    by apply (Hus p ip).
Qed.

(** *** Validation of a whole list *)

Lemma no_conflicts_from_spec before rest :
  compatible (bt <$> before) →
  no_conflicts_from before rest = Ok tt ↔ compatible (bt <$> before ++ rest).
Proof.
  revert before. induction rest as [|b rest IH]; intros before Hb; simpl.
  { rewrite app_nil_r. by split. }
  destruct (validate_binding_no_conflict (bt b) before) as [e|] eqn:E.
  - split; [done|]. intros Hc. exfalso.
    assert (validate_binding_no_conflict (bt b) before = None) as E'; [|congruence].
    apply no_conflict_spec. intros t Ht. apply Hc; rewrite fmap_app, elem_of_app; [|by left].
    right. by left.
  - pose proof (proj1 (no_conflict_spec _ _) E) as Hn. rewrite IH.
    + by rewrite <- app_assoc.
    + intros x y. rewrite fmap_app, !elem_of_app. simpl. rewrite !list_elem_of_singleton.
      intros [Hx| ->] [Hy| ->]; [by apply Hb|rewrite conflict_sym; auto|auto|by destruct (bt b)].
Qed.

Lemma no_conflicts_spec bs :
  validate_bindings_no_conflicts bs = Ok tt ↔ compatible (bt <$> bs).
Proof.
  unfold validate_bindings_no_conflicts. by rewrite no_conflicts_from_spec by (intros ? ? H; inv H).
Qed.

(** The pairwise check against the preceding bindings decides whole-list
    compatibility: it accepts a list of bindings exactly when no two of them, in
    either order, are an address binding and a port binding on that address. *)
Theorem validate_bindings_no_conflicts_iff bs :
  is_ok (validate_bindings_no_conflicts bs) = true ↔
  ∀ a b, a ∈ bs → b ∈ bs → conflict (bt a) (bt b) = false.
Proof.
  assert (is_ok (validate_bindings_no_conflicts bs) = true ↔
          validate_bindings_no_conflicts bs = Ok tt) as ->.
  { destruct (validate_bindings_no_conflicts bs) as [[]|]; naive_solver. }
  rewrite no_conflicts_spec. unfold compatible. simpl. setoid_rewrite elem_of_bt. naive_solver.
Qed.

(** *** Merging *)

Definition kept_by (new : Binding) (existing : list Binding) : list Binding :=
  match bt new with
  | BindPort p None => List.filter (λ e, negb (dominated p e)) existing
  | _ => existing
  end.

Lemma kept_by_elem new existing t :
  t ∈ bt <$> kept_by new existing ↔
  t ∈ bt <$> existing ∧ ∀ p ip, bt new = BindPort p None → t ≠ BindPort p (Some ip).
Proof.
  unfold kept_by. destruct (bt new) as [|p [|]]; [naive_solver|naive_solver|].
  rewrite !elem_of_bt. setoid_rewrite elem_of_list_filter_bool. setoid_rewrite negb_true_iff.
  assert (∀ b, dominated p b = false ↔ ∀ ip, bt b ≠ BindPort p (Some ip)) as Hd.
  { intros b. unfold dominated. destruct (bt b) as [|q [i|]]; simpl; try naive_solver.
    rewrite N.eqb_neq. naive_solver. }
  setoid_rewrite Hd. split.
  - intros (b & [Hn Hb] & <-). split; [eauto|]. intros p' ip [= <-]. apply Hn.
  - intros [(b & Hb & <-) Hn]. exists b. split; [|done]. split; [|done]. intros ip. by apply Hn.
Qed.

Lemma kept_by_sublist new existing : kept_by new existing `sublist_of` existing.
Proof.
  unfold kept_by. destruct (bt new) as [|p [|]]; [done|done|]. induction existing as [|e l IH]; simpl.
  - constructor.
  - destruct (negb _); by constructor.
Qed.

Lemma binding_eqb_elem new l : existsb (λ e, binding_eqb e new) l = true ↔ bt new ∈ bt <$> l.
Proof.
  rewrite existsb_elem, elem_of_bt. unfold binding_eqb, bt. setoid_rewrite bool_decide_eq_true. done.
Qed.

(** The step is a no-op or replaces the set by the kept bindings and the new one. *)
Lemma upsert_binding_cases existing n new :
  (upsert_binding (existing, n) new = (existing, n)
   ∧ (is_binding_covered_by_existing new existing = true
      ∨ ∃ e, e ∈ bt <$> existing ∧ conflict (bt new) e = true))
  ∨ (is_binding_covered_by_existing new existing = false
     ∧ (∀ t, t ∈ bt <$> existing → conflict (bt new) t = false)
     ∧ let k := kept_by new existing in
       let n' := (n + (length existing - length k))%nat in
       (bt new ∈ bt <$> k ∧ upsert_binding (existing, n) new = (k, n')
        ∨ bt new ∉ bt <$> k ∧ upsert_binding (existing, n) new = (k ++ [new], S n'))).
Proof.
  unfold upsert_binding. destruct (is_binding_covered_by_existing new existing) eqn:Ec; [by left; auto|].
  pose proof (no_conflict_spec (bt new) existing) as Hn.
  destruct (validate_binding_no_conflict (bt new) existing) as [c|] eqn:Ev.
  - left. split; [done|]. right.
    destruct (existsb (conflict (bt new)) (bt <$> existing)) eqn:Ex.
    + apply existsb_elem in Ex as (t & Ht & Hc). eauto.
    + exfalso. assert (Some c = None) as [=]. apply Hn. by apply existsb_elem_false.
  - right. split; [done|]. split; [by apply Hn|]. fold (kept_by new existing). cbv zeta.
    destruct (existsb _ (kept_by new existing)) eqn:Ee.
    + left. by apply binding_eqb_elem in Ee.
    + right. rewrite <- not_true_iff_false, binding_eqb_elem in Ee. done.
Qed.

Lemma wf_sublist bs bs' : bs' `sublist_of` bs → wf_bindings bs → wf_bindings bs'.
Proof.
  intros Hs [Hc Hn Hu]. assert (∀ t, t ∈ bt <$> bs' → t ∈ bt <$> bs) as Hsub.
  { intros t. rewrite !elem_of_bt. intros (b & Hb & E). exists b. split; [|done].
    eapply elem_of_submseteq; [done|]. by apply sublist_submseteq. }
  constructor.
  - intros a b Ha Hb. apply Hc; auto.
  - eapply sublist_NoDup; [exact Hn|]. by apply sublist_fmap_of.
  - intros p ip H1 H2. eapply Hu; eauto.
Qed.

Lemma upsert_binding_wf existing n new :
  wf_bindings existing → wf_bindings (upsert_binding (existing, n) new).1.
Proof.
  intros Hwf. destruct (upsert_binding_cases existing n new)
    as [[-> _]|(Hcov & Hnc & [[Hin ->]|[Hin ->]])]; [done| |]; simpl.
  { eapply wf_sublist; [apply kept_by_sublist|done]. }
  destruct (wf_sublist _ _ (kept_by_sublist new existing) Hwf) as [Hc Hn Hu].
  assert (∀ t, t ∈ bt <$> kept_by new existing → conflict (bt new) t = false) as Hnk
    by (intros t [Ht _]%kept_by_elem; auto).
  constructor; rewrite fmap_app; simpl.
  - intros a b. rewrite !elem_of_app, !list_elem_of_singleton.
    intros [Ha| ->] [Hb| ->]; [by apply Hc|rewrite conflict_sym; auto|auto|by destruct (bt new)].
  - apply list.NoDup_app. split_and!; [done| |apply list.NoDup_singleton].
    by intros t Ht ->%list_elem_of_singleton.
  - intros p ip. rewrite !elem_of_app, !list_elem_of_singleton.
    intros [H1|H1] [H2|H2].
    + by eapply Hu.
    + apply kept_by_elem in H1 as [_ H1]. by eapply H1.
    + apply kept_by_elem in H2 as [H2 _]. rewrite <- not_true_iff_false, covered_spec in Hcov.
      apply Hcov. by exists p, ip.
    + congruence.
Qed.

Lemma upsert_binding_serves existing n new t :
  serves (bt <$> existing) t → serves (bt <$> (upsert_binding (existing, n) new).1) t.
Proof.
  destruct (upsert_binding_cases existing n new)
    as [[-> _]|(_ & _ & Hcase)]; [done|]. cbv zeta in Hcase.
  set (k := kept_by new existing) in *.
  assert (bt new ∈ bt <$> (upsert_binding (existing, n) new).1 ∧
          ∀ x, x ∈ bt <$> k → x ∈ bt <$> (upsert_binding (existing, n) new).1) as [Hnew Hk].
  { destruct Hcase as [[Hin ->]|[_ ->]]; simpl; [done|].
    rewrite fmap_app. setoid_rewrite elem_of_app. split; [right; by left|auto]. }
  assert (∀ x, x ∈ bt <$> existing → serves (bt <$> (upsert_binding (existing, n) new).1) x) as Hall.
  { intros x Hx. destruct x as [ip|p [ip|]].
    - left. apply Hk, kept_by_elem. by split.
    - destruct (decide (bt new = BindPort p None)) as [E|E].
      + right. exists p, ip. rewrite <- E. done.
      + left. apply Hk, kept_by_elem. split; [done|]. intros p' ip' E' [= -> ->]. done.
    - left. apply Hk, kept_by_elem. by split. }
  intros [Ht|(p & ip & -> & Ht)]; [by apply Hall|].
  right. exists p, ip. split; [done|]. apply Hk, kept_by_elem. by split.
Qed.

Lemma upsert_binding_count existing n new :
  let r := upsert_binding (existing, n) new in
  (n ≤ r.2)%nat ∧ (r.2 = n ↔ r.1 = existing).
Proof.
  pose proof (sublist_length _ _ (kept_by_sublist new existing)) as Hl.
  destruct (upsert_binding_cases existing n new)
    as [[-> _]|(_ & _ & [[Hin ->]|[Hin ->]])]; simpl; [done| |].
  - split; [lia|]. split; [|intros ->; lia]. intros E.
    apply sublist_same_length; [apply kept_by_sublist|lia].
  - split; [lia|]. split; [lia|]. intros E. exfalso. apply Hin.
    assert (new ∈ existing) as Hx by (rewrite <- E; apply elem_of_app; right; by left).
    apply kept_by_elem. split; [apply elem_of_bt; eauto|congruence].
Qed.

(** A step that changes the set makes it serve an endpoint it did not serve. *)
Lemma upsert_binding_grows existing n new :
  wf_bindings existing → (upsert_binding (existing, n) new).1 ≠ existing →
  ¬ serves (bt <$> existing) (bt new) ∧ serves (bt <$> (upsert_binding (existing, n) new).1) (bt new).
Proof.
  intros Hwf. destruct (upsert_binding_cases existing n new)
    as [[-> _]|(Hcov & _ & [[Hin ->]|[Hin ->]])]; simpl; [done| |]; intros Hne.
  - exfalso. apply Hne. apply kept_by_elem in Hin as [Hin _].
    unfold kept_by. destruct (bt new) as [|p [|]] eqn:E; try done.
    assert (∀ l, (∀ e, e ∈ l → dominated p e = false) → List.filter (λ e, negb (dominated p e)) l = l)
      as Hid.
    { induction l as [|e l IH]; simpl; intros Hl; [done|]. rewrite (Hl e) by left. simpl.
      f_equal. apply IH. intros x Hx. apply Hl. by right. }
    apply Hid. intros e He. unfold dominated. destruct (bt e) as [|q [ip|]] eqn:Ee; try done. simpl.
    apply N.eqb_neq. intros ->. apply (wf_unsuperseded _ Hwf p ip); [|done]. apply elem_of_bt. eauto.
  - split; [|left; rewrite fmap_app; apply elem_of_app; right; by left].
    intros [H|(p & ip & E & H)].
    + apply Hin, kept_by_elem. split; [done|congruence].
    + rewrite <- not_true_iff_false, covered_spec in Hcov. apply Hcov. by exists p, ip.
Qed.

(** A binding that is not taken over conflicts with one that is served. *)
Lemma upsert_binding_represents existing n new :
  let r := (upsert_binding (existing, n) new).1 in
  serves (bt <$> r) (bt new) ∨ ∃ t, serves (bt <$> r) t ∧ conflict (bt new) t = true.
Proof.
  cbv zeta. destruct (upsert_binding_cases existing n new)
    as [[-> [Hc|(t & Ht & Hc)]]|(_ & _ & [[Hin ->]|[_ ->]])]; simpl.
  - left. right. apply covered_spec in Hc as (p & ip & E & Hp). by exists p, ip.
  - right. exists t. split; [by left|done].
  - left. by left.
  - left. left. rewrite fmap_app. apply elem_of_app. right. by left.
Qed.

Lemma upsert_fold_spec new existing n :
  wf_bindings existing →
  let r := foldl upsert_binding (existing, n) new in
  wf_bindings r.1
  ∧ (∀ t, serves (bt <$> existing) t → serves (bt <$> r.1) t)
  ∧ (∀ b, b ∈ new → serves (bt <$> r.1) (bt b)
                    ∨ ∃ t, serves (bt <$> r.1) t ∧ conflict (bt b) t = true)
  ∧ (n ≤ r.2)%nat ∧ (r.2 = n ↔ r.1 = existing).
Proof.
  revert existing n. induction new as [|b new IH]; intros existing n Hwf; cbv zeta; simpl.
  { split_and!; try done. by intros ? ?%not_elem_of_nil. }
  pose proof (upsert_binding_wf existing n b Hwf) as Hwf1.
  pose proof (upsert_binding_serves existing n b) as Hs1.
  pose proof (upsert_binding_represents existing n b) as Hr1.
  pose proof (upsert_binding_count existing n b) as [Hn1 Hc1].
  pose proof (upsert_binding_grows existing n b Hwf) as Hg1.
  destruct (upsert_binding (existing, n) b) as [ex1 n1] eqn:E. simpl in *.
  destruct (IH ex1 n1 Hwf1) as (Hwf2 & Hs2 & Hr2 & Hn2 & Hc2).
  set (r := foldl upsert_binding (ex1, n1) new) in *.
  split; [done|]. split; [auto|]. split; [|split; [lia|]].
  - intros x [->|Hx]%elem_of_cons; [|auto]. destruct Hr1 as [H|(t & Ht & Hc)]; [auto|].
    right. exists t. auto.
  - split; intros H.
    + assert (n1 = n) as -> by lia. rewrite (proj1 Hc2) by lia. by apply Hc1.
    + destruct (decide (n1 = n)) as [->|Hne].
      * apply Hc2. rewrite H. symmetry. by apply Hc1.
      * exfalso. destruct Hg1 as [Hno Hyes]; [by intros ?%Hc1|]. apply Hno. rewrite <- H. auto.
Qed.

(** Merging a rediscovered service's bindings keeps the set well formed: no
    address binding beside a port binding on that address, no duplicates, no
    address-specific binding of a port bound on all addresses.  Everything served
    before is still served, every reported binding is served or conflicts with a
    binding that is, and the count of changes, which gates the [Updated] event, is
    zero exactly when the set is unchanged. *)
Theorem upsert_bindings_spec existing new :
  wf_bindings existing →
  let r := upsert_bindings existing new in
  wf_bindings r.1
  ∧ (∀ t, serves (bt <$> existing) t → serves (bt <$> r.1) t)
  ∧ (∀ b, b ∈ new → serves (bt <$> r.1) (bt b)
                    ∨ ∃ t, serves (bt <$> r.1) t ∧ conflict (bt b) t = true)
  ∧ (r.2 = 0%nat ↔ r.1 = existing).
Proof.
  intros Hwf. destruct (upsert_fold_spec new existing 0 Hwf) as (? & ? & ? & _ & ?). done.
Qed.

(** ** Claims across services *)

Lemma has_conflict_spec claimed b :
  has_conflict claimed b = true ↔
  ∃ c d, port_claim b = Some c ∧ d ∈ claimed ∧ claims_overlap c d = true.
Proof.
  unfold has_conflict. destruct (port_claim b) as [c|]; [|naive_solver].
  rewrite existsb_elem. naive_solver.
Qed.

Lemma service_claims_elem services except d :
  d ∈ service_claims services except ↔
  ∃ s b, s ∈ services ∧ sv_id s ≠ except ∧ b ∈ bindings (sv_base s) ∧ port_claim b = Some d.
Proof.
  unfold service_claims. rewrite list_elem_of_bind.
  setoid_rewrite elem_of_list_filter_bool. setoid_rewrite negb_true_iff.
  setoid_rewrite N.eqb_neq. setoid_rewrite list_elem_of_omap. naive_solver.
Qed.

(** Partitioning loses no binding and separates exactly the contested ones:
    the two halves together are the bindings in order, and a binding is set apart
    exactly when it claims a port that another live service of the host, or an
    earlier service of the batch, claims on an overlapping address. *)
Theorem partition_conflicting_bindings_spec live sid bs batch :
  let r := partition_conflicting_bindings live sid bs batch in
  bs ≡ₚ r.1 ++ r.2 ∧ r.1 `sublist_of` bs ∧ r.2 `sublist_of` bs
  ∧ ∀ b, b ∈ bs → (b ∈ r.2 ↔ ∃ c d, port_claim b = Some c ∧ claims_overlap c d = true ∧
      (d ∈ batch ∨ ∃ s b', s ∈ live ∧ sv_id s ≠ sid ∧ b' ∈ bindings (sv_base s)
                           ∧ port_claim b' = Some d)).
Proof.
  assert (partition_conflicting_bindings live sid bs batch
          = List.partition (λ b, negb (has_conflict (service_claims live sid ++ batch) b)) bs) as ->.
  { unfold partition_conflicting_bindings. destruct bs as [|b0 bs0]; [done|].
    destruct (service_claims live sid ++ batch) eqn:E; [|done].
    generalize (b0 :: bs0). induction l as [|b l IH]; [done|]. cbn [List.partition].
    rewrite <- IH. unfold has_conflict. by destruct (port_claim b). }
  set (claimed := service_claims live sid ++ batch). cbv zeta.
  rewrite (partition_as_filter (λ b, negb (has_conflict claimed b)) bs). cbn [fst snd].
  split_and!; [apply filter_split_perm|apply filter_bool_sublist|apply filter_bool_sublist|].
  intros b Hb. rewrite elem_of_list_filter_bool, negb_involutive, has_conflict_spec.
  subst claimed. setoid_rewrite elem_of_app. setoid_rewrite service_claims_elem.
  naive_solver.
Qed.

(** What the availability check accepts. *)
Lemma bindings_available_spec live sid bs :
  is_ok (validate_bindings_available live sid bs) = true ↔
  ∀ b c d, b ∈ bs → port_claim b = Some c → d ∈ service_claims live sid → claims_overlap c d = false.
Proof.
  assert (is_ok (validate_bindings_available live sid bs)
          = forallb (λ b, negb (has_conflict (service_claims live sid) b)) bs) as ->.
  { unfold validate_bindings_available, service_claims.
    set (others := List.filter _ live). destruct bs as [|b0 bs0]; [done|].
    generalize (b0 :: bs0). induction l as [|b l IH]; [done|]. simpl. unfold has_conflict at 1.
    destruct (port_claim b) as [c|]; [|done].
    assert (existsb (claims_overlap c) (others ≫= λ s, omap port_claim (bindings (sv_base s)))
      = existsb (λ s, existsb (claims_overlap c) (omap port_claim (bindings (sv_base s)))) others) as ->.
    { clear. induction others as [|s l IH]; [done|]. rewrite bind_cons, existsb_app, IH. done. }
    destruct (List.find _ others) as [o|] eqn:Ef.
    - apply find_some in Ef as [Hin Ho]. simpl. symmetry. apply andb_false_iff. left.
      apply negb_false_iff, existsb_exists. eauto.
    - rewrite (proj2 (existsb_elem_false _ _)); [done|]. intros s Hs.
      by apply (find_none _ _ Ef), list_elem_of_In. }
  rewrite forallb_elem. setoid_rewrite negb_true_iff. setoid_rewrite <- not_true_iff_false.
  setoid_rewrite has_conflict_spec. naive_solver.
Qed.

(** ** References *)

Definition refs_on (ports ips : gset Uuid) (t : BindingType) : Prop :=
  match t with
  | BindIPAddress ip => ip ∈ ips
  | BindPort p None => p ∈ ports
  | BindPort p (Some ip) => p ∈ ports ∧ ip ∈ ips
  end.

Lemma belong_spec ports ips bs :
  validate_bindings_belong_to_host ports ips bs = Ok tt ↔ ∀ b, b ∈ bs → refs_on ports ips (bt b).
Proof.
  induction bs as [|b bs IH]; simpl.
  { split; [by intros _ ? ?%not_elem_of_nil|done]. }
  assert ((∀ x, x ∈ b :: bs → refs_on ports ips (bt x)) ↔
          refs_on ports ips (bt b) ∧ ∀ x, x ∈ bs → refs_on ports ips (bt x)) as ->.
  { setoid_rewrite elem_of_cons. naive_solver. }
  rewrite <- IH. destruct (bt b) as [ip|p [ip|]]; simpl; repeat case_bool_decide; naive_solver.
Qed.

Lemma reassign_binding_refs oips uips oports uports remap b b' :
  (∀ k v, remap !! k = Some v → v ∈ ip_id <$> uips) →
  reassign_binding oips uips oports uports remap b = Some b' →
  refs_on (list_to_set (p_id <$> uports)) (list_to_set (ip_id <$> uips)) (bt b').
Proof.
  intros Hremap. unfold reassign_binding.
  set (orig := ip_address_id b ≫= _).
  assert (∀ i, i ∈ uips → ip_id i ∈ (list_to_set (ip_id <$> uips) : gset Uuid)) as Hids.
  { intros i Hi. apply elem_of_list_to_set, list_elem_of_fmap. eauto. }
  destruct (bt b) as [ip|p i].
  - destruct (orig ≫= find_equal_ip uips) as [n|] eqn:E.
    + intros [= <-]. apply bind_Some in E as (o & _ & [Hn _]%find_elem). by apply Hids.
    + intros (n & Hn & ->)%fmap_Some. simpl. apply elem_of_list_to_set. by eapply Hremap.
  - intros (op & _ & (np & [Hnp _]%find_elem & [= <-])%bind_Some)%bind_Some. simpl.
    assert (p_id np ∈ (list_to_set (p_id <$> uports) : gset Uuid)) as Hp.
    { apply elem_of_list_to_set, list_elem_of_fmap. eauto. }
    destruct (reassign_port_ip uips remap orig) as [n|] eqn:E; [|done]. split; [done|].
    unfold reassign_port_ip in E. destruct orig as [o|]; [|done].
    destruct (find_equal_ip uips o) as [x|] eqn:Ex.
    + injection E as <-. apply find_elem in Ex as [Hx _]. by apply Hids.
    + apply bind_Some in E as (k & _ & (x & [Hx _]%find_elem & ->)%fmap_Some). by apply Hids.
Qed.

(** Reassigned bindings always pass the ownership check.  Moving a service's
    bindings onto a host's stored ports and addresses drops or redirects every
    binding that does not resolve, so whatever the bindings named before, the
    result validates against that host, provided the id remap leads to its
    addresses. *)
Theorem reassigned_bindings_belong oips uips oports uports remap hid nid s :
  (∀ k v, remap !! k = Some v → v ∈ ip_id <$> uips) →
  validate_bindings_belong_to_host (list_to_set (p_id <$> uports)) (list_to_set (ip_id <$> uips))
    (bindings (sv_base (reassign_service_interface_bindings oips uips oports uports remap hid nid s)))
  = Ok tt.
Proof.
  intros Hremap. apply belong_spec. simpl. intros b' (b & _ & Hb)%list_elem_of_omap.
  by eapply reassign_binding_refs.
Qed.

(** ** Witnesses *)

Definition demo_binding (id : Uuid) (t : BindingType) : Binding := new_serviceless id 0 t.

Lemma demo_wf : wf_bindings [demo_binding 1 (BindPort 5 (Some 7%N)); demo_binding 2 (BindPort 6 None)].
Proof.
  constructor; simpl.
  - intros a b. rewrite !elem_of_cons.
    intros [->|[->|?%not_elem_of_nil]] [->|[->|?%not_elem_of_nil]]; done.
  - by apply (bool_decide_unpack (NoDup [BindPort 5 (Some 7%N); BindPort 6 None])).
  - intros p ip. rewrite !elem_of_cons.
    intros [[= -> ->]|[[=]|?%not_elem_of_nil]] [[=]|[[=]|?%not_elem_of_nil]]; done.
Qed.

Lemma upsert_bindings_witness :
  wf_bindings (upsert_bindings
    [demo_binding 1 (BindPort 5 (Some 7%N)); demo_binding 2 (BindPort 6 None)]
    [demo_binding 3 (BindPort 5 None); demo_binding 4 (BindIPAddress 7)]).1.
Proof.
  apply (upsert_bindings_spec
    [demo_binding 1 (BindPort 5 (Some 7%N)); demo_binding 2 (BindPort 6 None)]). apply demo_wf.
Defined.

Lemma partition_conflicting_bindings_witness :
  demo_binding 1 (BindPort 5 None)
  ∈ (partition_conflicting_bindings [] 9 [demo_binding 1 (BindPort 5 None)] [(5%N, Some 7%N)]).2.
Proof.
  apply (proj2 (proj2 (proj2 (partition_conflicting_bindings_spec [] 9
    [demo_binding 1 (BindPort 5 None)] [(5%N, Some 7%N)])))); [left|].
  exists (5%N, None), (5%N, Some 7%N). split_and!; [done|done|left; left].
Defined.

Lemma reassigned_bindings_witness :
  validate_bindings_belong_to_host (list_to_set (p_id <$> [new_hostless 9 0 Ssh]))
    (list_to_set (ip_id <$> [demo_ip 8 0]))
    (bindings (sv_base (reassign_service_interface_bindings [] [demo_ip 8 0] [new_hostless 5 0 Ssh]
       [new_hostless 9 0 Ssh] {[7%N := 8%N]} 1 1
       (service_new 3 0 {| sv_host_id := 2; sv_network_id := 1; service_definition := "SSH";
          sv_name := "ssh"; bindings := [demo_binding 1 (BindPort 5 None); demo_binding 2 (BindIPAddress 7)];
          virtualization_metadata := None; virtualization_service_id := None;
          source := SourceDiscovery; sv_tags := []; sv_position := 0 |})))) = Ok tt.
Proof.
  apply (reassigned_bindings_belong [] [demo_ip 8 0] [new_hostless 5 0 Ssh] [new_hostless 9 0 Ssh]
    {[7%N := 8%N]} 1 1). intros k v [<- <-]%lookup_singleton_Some. left.
Defined.
