(* ===== verification/Services.v ===== *)
(** The service store: create, merge, update, delete.

    [ServiceService] of [server/services/service/{mod,upsert,dependencies,
    binding_mutation}.rs] and [ChildCrudService::save_for_parent] of
    [server/shared/services/traits.rs].  The state is the live rows (with their
    bindings, as the queries hydrate them), the ports and addresses each host
    owns, the dependencies and the events published.  Storage failures are not
    modelled; every error below is one the code itself raises. *)

From S2P Require Import Prelude Net Ports Position Entities ServiceIdentity Bindings.
Local Open Scope Z_scope.

(** ** Dependencies *)

Inductive DependencyMembers :=
| DepServices (service_ids : list Uuid)
| DepBindings (binding_ids : list Uuid).

Inductive DependencyType := RequestPath | HubAndSpoke.

Record Dependency := { d_id : Uuid; d_network_id : Uuid; dep_name : string; dependency_type : DependencyType;
                       members : DependencyMembers }.

(** The members left after [current] was changed to [updates] or deleted. *)
Definition prune_members (current : Service) (updates : option Service) (m : DependencyMembers)
    : DependencyMembers :=
  let current_ids := b_id <$> bindings (sv_base current) in
  match m, updates with
  | DepServices ids, None =>
      DepServices (List.filter (λ id, negb (id =? sv_id current)%N) ids)
  | DepServices ids, Some _ => DepServices ids
  | DepBindings ids, None =>
      DepBindings (List.filter (λ id, negb (bool_decide (id ∈ current_ids))) ids)
  | DepBindings ids, Some u =>
      let updated_ids := b_id <$> bindings (sv_base u) in
      DepBindings (List.filter (λ id, if bool_decide (id ∈ current_ids)
                                      then bool_decide (id ∈ updated_ids) else true) ids)
  end.

Definition update_dependency_members (current : Service) (updates : option Service)
    (deps : list Dependency) : list Dependency :=
  (λ d, if (d_network_id d =? sv_network_id (sv_base current))%N
        then {| d_id := d_id d; d_network_id := d_network_id d; dep_name := dep_name d;
                dependency_type := dependency_type d;
                members := prune_members current updates (members d) |}
        else d) <$> deps.

(** ** State, errors *)

Inductive ServiceEvent := SvCreated (id : Uuid) | SvUpdated (id : Uuid) (stale : bool) | SvDeleted (id : Uuid).

Record ServiceStore := {
  rows : list Service;
  ports_of : Uuid → gset Uuid;
  ips_of : Uuid → gset Uuid;
  deps : list Dependency;
  sv_events : list ServiceEvent
}.

Inductive ServiceError :=
| BindingsConflict (c : BindingConflict)
| ForeignBinding (f : ForeignRef)
| PortTaken (port owner : Uuid)
| ServiceNotFound (id : Uuid).

Definition on_host (w : ServiceStore) (host : Uuid) : list Service :=
  List.filter (λ s, (sv_host_id (sv_base s) =? host)%N) (rows w).

Definition service_by_id (w : ServiceStore) (id : Uuid) : option Service :=
  List.find (λ s, (sv_id s =? id)%N) (rows w).

(** Replace the row with the id of [s]. *)
Definition store_row (s : Service) (l : list Service) : list Service :=
  (λ r, if (sv_id r =? sv_id s)%N then s else r) <$> l.

(** ** [save_for_parent]: the rows a set of bindings is stored as

    [fresh i] is the id minted for the [i]-th binding when it has none. *)

Definition set_b_created_at (t : DateTime) (m : RowMeta) : RowMeta := {|
  created_at := t; updated_at := updated_at m; valid_from := valid_from m; valid_to := valid_to m;
  lineage_id := lineage_id m; last_seen_at := last_seen_at m;
  last_discovery_id := last_discovery_id m; first_discovery_id := first_discovery_id m |}.

Definition save_binding (fresh : nat → Uuid) (existing : list Binding) (i : nat) (c : Binding)
    : Binding :=
  if (b_id c =? uuid_nil)%N then {| b_id := fresh i; b_meta := b_meta c; b_base := b_base c |}
  else match List.find (λ e, (b_id e =? b_id c)%N) existing with
       | Some e => {| b_id := b_id c; b_meta := set_b_created_at (created_at (b_meta e)) (b_meta c);
                      b_base := b_base c |}
       | None => c
       end.

Definition save_for_parent (fresh : nat → Uuid) (existing children : list Binding) : list Binding :=
  imap (save_binding fresh existing) children.

Definition with_bindings (bs : list Binding) (s : Service) : Service :=
  let b := sv_base s in
  {| sv_id := sv_id s; sv_meta := sv_meta s;
     sv_base := {| sv_host_id := sv_host_id b; sv_network_id := sv_network_id b;
                   service_definition := service_definition b; sv_name := sv_name b;
                   bindings := bs; virtualization_metadata := virtualization_metadata b;
                   virtualization_service_id := virtualization_service_id b;
                   source := source b; sv_tags := sv_tags b; sv_position := sv_position b |} |}.

(** The bindings as written: owned by the service, saved over [existing]. *)
Definition saved (fresh : nat → Uuid) (existing : list Binding) (s : Service) : Service :=
  with_bindings (save_for_parent fresh existing
    (with_service (sv_id s) (sv_network_id (sv_base s)) <$> bindings (sv_base s))) s.

(** ** [upsert_service] *)

Definition merge_service_source (existing new : EntitySource) : EntitySource :=
  match existing, new with
  | SourceDiscoveryWithMatch e, SourceDiscoveryWithMatch n =>
      SourceDiscoveryWithMatch
        {| confidence := if confidence_rank (confidence e) <=? confidence_rank (confidence n)
                         then confidence n else confidence e;
           reason := if confidence_rank (confidence e) <? confidence_rank (confidence n)
                     then reason n else reason e |}
  | _, SourceDiscoveryWithMatch n => SourceDiscoveryWithMatch n
  | _, _ => existing
  end.

Definition sv_touch (t : DateTime) (m : RowMeta) : RowMeta := {|
  created_at := created_at m; updated_at := updated_at m; valid_from := valid_from m;
  valid_to := valid_to m; lineage_id := lineage_id m; last_seen_at := t;
  last_discovery_id := last_discovery_id m; first_discovery_id := first_discovery_id m |}.

(** The merged row before its bindings are saved, with the count of changes. *)
Definition merge_service (existing new : Service) : Service * nat :=
  let e := sv_base existing in
  let n := sv_base new in
  let m := upsert_bindings (bindings e) (bindings n) in
  ({| sv_id := sv_id existing;
      sv_meta := sv_touch (last_seen_at (sv_meta new)) (sv_meta existing);
      sv_base := {| sv_host_id := sv_host_id e; sv_network_id := sv_network_id e;
                    service_definition := service_definition e; sv_name := sv_name e;
                    bindings := m.1;
                    virtualization_metadata :=
                      match virtualization_metadata n with
                      | Some v => Some v | None => virtualization_metadata e end;
                    virtualization_service_id :=
                      match virtualization_service_id n with
                      | Some v => Some v | None => virtualization_service_id e end;
                    source := merge_service_source (source e) (source n);
                    sv_tags := sv_tags e; sv_position := sv_position e |} |}, m.2).

Definition upsert_service (fresh : nat → Uuid) (existing new : Service) (w : ServiceStore)
    : Service * ServiceStore :=
  let m := merge_service existing new in
  let s := saved fresh (bindings (sv_base existing)) m.1 in
  (s, {| rows := store_row s (rows w); ports_of := ports_of w; ips_of := ips_of w; deps := deps w;
         sv_events := if (0 <? m.2)%nat
                      then sv_events w ++ [SvUpdated (sv_id s) (service_triggers_staleness s (Some existing))]
                      else sv_events w |}).

(** ** [create] *)

Definition originate (s : Service) : Service :=
  let t := last_seen_at (sv_meta s) in
  let m := sv_meta s in
  {| sv_id := sv_id s;
     sv_meta := {| created_at := t; updated_at := updated_at m; valid_from := t;
                   valid_to := valid_to m; lineage_id := lineage_id m; last_seen_at := last_seen_at m;
                   last_discovery_id := last_discovery_id m;
                   first_discovery_id := first_discovery_id m |};
     sv_base := sv_base s |}.

Definition check {E} (ok : result unit E) (wrap : E → ServiceError) : result unit ServiceError :=
  match ok with Ok u => Ok u | Err e => Err (wrap e) end.

(** The validations in front of a write. *)
Definition validate_own (w : ServiceStore) (s : Service) : result unit ServiceError :=
  result_bind (check (validate_bindings_no_conflicts (bindings (sv_base s))) BindingsConflict) (λ _,
  check (validate_bindings_belong_to_host (ports_of w (sv_host_id (sv_base s)))
           (ips_of w (sv_host_id (sv_base s))) (bindings (sv_base s))) ForeignBinding).

Definition validate_available (w : ServiceStore) (s : Service) : result unit ServiceError :=
  check (validate_bindings_available (on_host w (sv_host_id (sv_base s))) (sv_id s)
           (bindings (sv_base s))) (λ e, PortTaken e.1 e.2).

Definition insert_service (fresh : nat → Uuid) (next_pos : Z) (s : Service) (w : ServiceStore)
    : result (Service * ServiceStore) ServiceError :=
  let s := set_sv_position next_pos s in
  result_bind (validate_own w s) (λ _,
  result_bind (if is_from_discovery (source (sv_base s)) then Ok tt else validate_available w s) (λ _,
  let s := saved fresh [] (originate s) in
  Ok (s, {| rows := rows w ++ [s]; ports_of := ports_of w; ips_of := ips_of w; deps := deps w;
            sv_events := sv_events w ++ [SvCreated (sv_id s)] |}))).

Section Create.
Context `{DefinitionFacts}.

Definition create_service (new_id : Uuid) (now : DateTime) (fresh : nat → Uuid) (s : Service)
    (w : ServiceStore) : result (Service * ServiceStore) ServiceError :=
  let s := if (sv_id s =? uuid_nil)%N then service_new new_id now (sv_base s) else s in
  let s := with_bindings (deduplicate_bindings (bindings (sv_base s))) s in
  let existing := on_host w (sv_host_id (sv_base s)) in
  match List.find (λ e, service_eqb e s) existing with
  | Some e =>
      if (is_from_discovery (source (sv_base s)) && is_from_discovery (source (sv_base e)))
         || (sv_id s =? sv_id e)%N
      then Ok (upsert_service fresh e s w)
      else insert_service fresh (next_position existing) s w
  | None => insert_service fresh (next_position existing) s w
  end.
End Create.

(** ** [update] and [delete] *)

Definition update_service (fresh : nat → Uuid) (s : Service) (w : ServiceStore)
    : result (Service * ServiceStore) ServiceError :=
  match service_by_id w (sv_id s) with
  | None => Err (ServiceNotFound (sv_id s))
  | Some current =>
      let s := with_bindings (deduplicate_bindings (bindings (sv_base s))) s in
      result_bind (validate_own w s) (λ _,
      result_bind (validate_available w s) (λ _,
      let u := saved fresh (bindings (sv_base current)) s in
      Ok (u, {| rows := store_row u (rows w); ports_of := ports_of w; ips_of := ips_of w;
                deps := update_dependency_members current (Some s) (deps w);
                sv_events := sv_events w
                  ++ [SvUpdated (sv_id u) (service_triggers_staleness u (Some current))] |})))
  end.

Definition delete_service (id : Uuid) (w : ServiceStore) : result ServiceStore ServiceError :=
  match service_by_id w id with
  | None => Err (ServiceNotFound id)
  | Some s =>
      Ok {| rows := List.filter (λ r, negb (sv_id r =? id)%N) (rows w);
            ports_of := ports_of w; ips_of := ips_of w;
            deps := update_dependency_members s None (deps w);
            sv_events := sv_events w ++ [SvDeleted id] |}
  end.

(** [remove_port_bindings] *)
Definition remove_port_bindings (fresh : nat → Uuid) (id : Uuid) (claims : list (Uuid * option Uuid))
    (w : ServiceStore) : result (list Binding * ServiceStore) ServiceError :=
  match service_by_id w id with
  | None => Err (ServiceNotFound id)
  | Some s =>
      let bs := save_for_parent fresh (bindings (sv_base s))
                  (remaining_bindings claims (bindings (sv_base s))) in
      Ok (bs, {| rows := store_row (with_bindings bs s) (rows w); ports_of := ports_of w;
                 ips_of := ips_of w; deps := deps w; sv_events := sv_events w |})
  end.

(** ** The invariant of the store *)

Definition claims_of (s : Service) : list (Uuid * option Uuid) := omap port_claim (bindings (sv_base s)).

Definition disjoint_claims (s1 s2 : Service) : Prop :=
  ∀ c d, c ∈ claims_of s1 → d ∈ claims_of s2 → claims_overlap c d = false.

Definition row_ok (w : ServiceStore) (s : Service) : Prop :=
  wf_bindings (bindings (sv_base s))
  ∧ ∀ t, t ∈ bt <$> bindings (sv_base s) →
         refs_on (ports_of w (sv_host_id (sv_base s))) (ips_of w (sv_host_id (sv_base s))) t.

(** Ids are unique, every row's bindings are well formed and stay on its host,
    and no two services of a host claim the same port on overlapping addresses. *)
Record wf_store (w : ServiceStore) : Prop := {
  wf_ids : NoDup (sv_id <$> rows w);
  wf_rows : ∀ s, s ∈ rows w → row_ok w s;
  wf_disjoint : ∀ s1 s2, s1 ∈ rows w → s2 ∈ rows w → sv_id s1 ≠ sv_id s2 →
    sv_host_id (sv_base s1) = sv_host_id (sv_base s2) → disjoint_claims s1 s2
}.

Lemma disjoint_claims_sym s1 s2 : disjoint_claims s1 s2 → disjoint_claims s2 s1.
Proof. intros H c d Hc Hd. rewrite claims_overlap_sym. by apply H. Qed.

(** What a write of [s] has to satisfy. *)
Definition fits (w : ServiceStore) (s : Service) : Prop :=
  row_ok w s ∧ ∀ r, r ∈ rows w → sv_id r ≠ sv_id s →
    sv_host_id (sv_base r) = sv_host_id (sv_base s) → disjoint_claims s r.

(** Two stores with the same hosts. *)
Definition same_hosts (w w' : ServiceStore) : Prop :=
  ports_of w' = ports_of w ∧ ips_of w' = ips_of w.

Lemma row_ok_same w w' s : same_hosts w w' → row_ok w s → row_ok w' s.
Proof. intros [H1 H2]. unfold row_ok. by rewrite H1, H2. Qed.

Lemma store_row_ids s l : sv_id <$> store_row s l = sv_id <$> l.
Proof.
  unfold store_row. rewrite <- list_fmap_compose. apply list_fmap_ext. intros i r _. simpl.
  destruct (N.eqb_spec (sv_id r) (sv_id s)); congruence.
Qed.

Lemma store_row_elem s l r :
  r ∈ store_row s l → r = s ∨ (r ∈ l ∧ sv_id r ≠ sv_id s).
Proof.
  unfold store_row. intros (x & -> & Hx)%list_elem_of_fmap.
  destruct (N.eqb_spec (sv_id x) (sv_id s)); [by left|by right].
Qed.

(** Every write whose rows are the fitting row and rows with other ids. *)
Lemma wf_store_write w w' s :
  wf_store w → same_hosts w w' → fits w s → NoDup (sv_id <$> rows w') →
  (∀ r, r ∈ rows w' → r = s ∨ (r ∈ rows w ∧ sv_id r ≠ sv_id s)) →
  wf_store w'.
Proof.
  intros Hwf Hh [Hok Hfit] Hnd Hrows. constructor; [done| |].
  - intros r [->|[Hr _]]%Hrows; eapply row_ok_same; eauto using wf_rows.
  - intros r1 r2 [->|[H1 N1]]%Hrows [->|[H2 N2]]%Hrows Hne Hhost; try done.
    + by apply Hfit.
    + apply disjoint_claims_sym, Hfit; auto.
    + by eapply wf_disjoint.
Qed.

Lemma wf_store_put w w' s :
  wf_store w → same_hosts w w' → fits w s → rows w' = store_row s (rows w) → wf_store w'.
Proof.
  intros Hwf Hh Hfit E. eapply wf_store_write; eauto; rewrite E.
  - rewrite store_row_ids. by apply wf_ids.
  - apply store_row_elem.
Qed.

Lemma wf_store_append w w' s :
  wf_store w → same_hosts w w' → fits w s → sv_id s ∉ sv_id <$> rows w →
  rows w' = rows w ++ [s] → wf_store w'.
Proof.
  intros Hwf Hh Hfit Hnew E. eapply wf_store_write; eauto; rewrite E.
  - rewrite fmap_app. apply list.NoDup_app. split_and!; [by apply wf_ids| |apply list.NoDup_singleton].
    by intros x Hx ->%list_elem_of_singleton.
  - intros r [Hr| ->%list_elem_of_singleton]%elem_of_app; [right|by left].
    split; [done|]. intros E'. apply Hnew. rewrite <- E'. apply list_elem_of_fmap. eauto.
Qed.

(** *** Saving keeps the binding types *)

Lemma save_for_parent_types fresh existing bs :
  bt <$> save_for_parent fresh existing bs = bt <$> bs.
Proof.
  unfold save_for_parent. revert fresh. induction bs as [|b bs IH]; intros fresh; [done|].
  rewrite imap_cons, !fmap_cons. f_equal.
  - unfold save_binding. by repeat case_match.
  - specialize (IH (λ i, fresh (S i))). rewrite <- IH. f_equal.
Qed.

Lemma saved_types fresh existing s :
  bt <$> bindings (sv_base (saved fresh existing s)) = bt <$> bindings (sv_base s).
Proof.
  unfold saved. simpl. rewrite save_for_parent_types, <- list_fmap_compose. by apply list_fmap_ext.
Qed.

Lemma claims_types s :
  claims_of s = omap (λ t, match t with BindPort p i => Some (p, i) | _ => None end)
                  (bt <$> bindings (sv_base s)).
Proof.
  unfold claims_of. induction (bindings (sv_base s)) as [|b l IH]; [done|].
  cbn. unfold port_claim at 1. destruct (bt b); [exact IH|]. f_equal. exact IH.
Qed.

(** Whether a row fits depends on its id, its host and its binding types. *)
Lemma fits_types w s s' :
  sv_id s' = sv_id s → sv_host_id (sv_base s') = sv_host_id (sv_base s) →
  bt <$> bindings (sv_base s') = bt <$> bindings (sv_base s) → fits w s → fits w s'.
Proof.
  intros Hid Hh Hb [[Hwf Hrefs] Hd]. unfold fits, row_ok, disjoint_claims.
  setoid_rewrite (claims_types s'). rewrite Hid, Hh, Hb. split.
  - split; [|done]. destruct Hwf. constructor; by rewrite Hb.
  - intros r Hr Hne Hhost. rewrite <- claims_types. by apply Hd.
Qed.

Lemma on_host_elem w h r : r ∈ on_host w h ↔ r ∈ rows w ∧ sv_host_id (sv_base r) = h.
Proof. unfold on_host. rewrite elem_of_list_filter_bool, N.eqb_eq. tauto. Qed.

Lemma check_ok {E} (r : result unit E) wrap : check r wrap = Ok tt ↔ r = Ok tt.
Proof. destruct r as [[]|]; simpl; naive_solver. Qed.

Lemma result_bind_ok {A B E} (r : result A E) (k : A → result B E) b :
  result_bind r k = Ok b ↔ ∃ a, r = Ok a ∧ k a = Ok b.
Proof. destruct r; simpl; naive_solver. Qed.

Lemma validate_own_spec w s :
  validate_own w s = Ok tt ↔
  compatible (bt <$> bindings (sv_base s)) ∧
  ∀ b, b ∈ bindings (sv_base s) →
    refs_on (ports_of w (sv_host_id (sv_base s))) (ips_of w (sv_host_id (sv_base s))) (bt b).
Proof.
  unfold validate_own. rewrite result_bind_ok. split.
  - intros ([] & Hc & Hb). rewrite check_ok, no_conflicts_spec in Hc.
    by rewrite check_ok, belong_spec in Hb.
  - intros [Hc Hb]. exists tt. by rewrite !check_ok, no_conflicts_spec, belong_spec.
Qed.

Lemma validate_available_spec w s :
  validate_available w s = Ok tt ↔
  ∀ r, r ∈ rows w → sv_id r ≠ sv_id s → sv_host_id (sv_base r) = sv_host_id (sv_base s) →
       disjoint_claims s r.
Proof.
  unfold validate_available. rewrite check_ok.
  assert (∀ r : result unit (Uuid * Uuid), r = Ok tt ↔ is_ok r = true) as ->
    by (intros [[]|]; simpl; naive_solver).
  rewrite bindings_available_spec. setoid_rewrite service_claims_elem.
  setoid_rewrite on_host_elem. unfold disjoint_claims, claims_of. setoid_rewrite list_elem_of_omap.
  split.
  - intros H r Hr Hid Hh c d (b & Hb & Hc) (b' & Hb' & Hd). eapply H; [exact Hb|exact Hc|].
    by exists r, b'.
  - intros H b c d Hb Hc (r & b' & [Hr Hh] & Hid & Hb' & Hd). eapply H; eauto.
Qed.

(** The validations establish the fit of deduplicated bindings. *)
Lemma validated_fits w s bs :
  bindings (sv_base s) = deduplicate_bindings bs →
  validate_own w s = Ok tt → validate_available w s = Ok tt → fits w s.
Proof.
  intros Hb [Hc Hrefs]%validate_own_spec Hav. rewrite validate_available_spec in Hav.
  destruct (deduplicate_wf bs) as [Hnd Hus]. rewrite <- Hb in Hnd, Hus.
  split; [split|done].
  - by constructor.
  - intros t (b & Hin & <-)%elem_of_bt. by apply Hrefs.
Qed.

(** What an accepted update did. *)
Lemma update_service_ok fresh s w u w' :
  update_service fresh s w = Ok (u, w') →
  (∃ cur, service_by_id w (sv_id s) = Some cur)
  ∧ rows w' = store_row u (rows w) ∧ same_hosts w w' ∧ fits w u
  ∧ sv_id u = sv_id s ∧ sv_host_id (sv_base u) = sv_host_id (sv_base s).
Proof.
  unfold update_service. destruct (service_by_id w (sv_id s)) as [cur|]; [|done]. cbv zeta.
  set (s1 := with_bindings _ s).
  intros ([] & Hown & ([] & Hav & E)%result_bind_ok)%result_bind_ok. injection E as <- <-.
  do 3 (split; [eauto; done|]). split; [|done].
  apply (fits_types w s1); [done|done|apply saved_types|]. by eapply validated_fits.
Qed.

(** C24. Updating a service keeps the store consistent: whatever the request
    binds, an accepted update leaves every service's bindings well formed and on
    its own host, and no port claimed by two services of a host on overlapping
    addresses.  The row stored is the one returned. *)
Theorem update_service_invariant fresh s w u w' :
  wf_store w → update_service fresh s w = Ok (u, w') → wf_store w' ∧ u ∈ rows w'.
Proof.
  intros Hwf ((cur & Hcur) & Hrows & Hh & Hfit & Hid & _)%update_service_ok. split.
  - by eapply wf_store_put.
  - rewrite Hrows. unfold store_row. apply list_elem_of_fmap. exists cur.
    apply find_elem in Hcur as [Hin Hc]. by rewrite Hid, Hc.
Qed.

(** *** Creation *)

(** Merged bindings are bindings of one of the two sides. *)
Lemma upsert_bindings_subset existing new t :
  t ∈ bt <$> (upsert_bindings existing new).1 → t ∈ bt <$> existing ∨ t ∈ bt <$> new.
Proof.
  unfold upsert_bindings. generalize 0%nat as n. revert existing.
  induction new as [|b new IH]; intros existing n; simpl; [by left|].
  destruct (upsert_binding (existing, n) b) as [ex1 n1] eqn:E.
  intros [H|H]%IH; [|right; by right].
  assert (ex1 = (upsert_binding (existing, n) b).1) as -> by (by rewrite E).
  destruct (upsert_binding_cases existing n b)
    as [[E' _]|(_ & _ & [[_ E']|[_ E']])]; rewrite E' in H; simpl in H.
  - by left.
  - apply kept_by_elem in H as [H _]. by left.
  - rewrite fmap_app in H. apply elem_of_app in H as [H|H].
    + apply kept_by_elem in H as [H _]. by left.
    + apply list_elem_of_singleton in H as ->. right. by left.
Qed.

(** Merging a service that fits into the row it matches fits. *)
Lemma merge_service_fits w e n :
  wf_store w → e ∈ rows w → sv_id n = sv_id e →
  sv_host_id (sv_base n) = sv_host_id (sv_base e) →
  (∀ t, t ∈ bt <$> bindings (sv_base n) →
     refs_on (ports_of w (sv_host_id (sv_base n))) (ips_of w (sv_host_id (sv_base n))) t) →
  (∀ r, r ∈ rows w → sv_id r ≠ sv_id n → sv_host_id (sv_base r) = sv_host_id (sv_base n) →
     disjoint_claims n r) →
  fits w (merge_service e n).1.
Proof.
  intros Hwf He Hid Hh Hrefs Hdis.
  destruct (wf_rows w Hwf e He) as [Hwfe Hrefse].
  destruct (upsert_fold_spec (bindings (sv_base n)) (bindings (sv_base e)) 0 Hwfe) as (Hwfm & _).
  split; [split|].
  - exact Hwfm.
  - intros t Ht. simpl in Ht. apply upsert_bindings_subset in Ht as [Ht|Ht]; simpl.
    + by apply Hrefse.
    + rewrite <- Hh. by apply Hrefs.
  - intros r Hr Hne Hhost c d Hc Hd. simpl in Hne, Hhost.
    rewrite claims_types in Hc. simpl in Hc. apply list_elem_of_omap in Hc as (t & Ht & Hc).
    assert (∀ s, t ∈ bt <$> bindings (sv_base s) → c ∈ claims_of s) as Hcl
      by (intros s Hs; rewrite claims_types; apply list_elem_of_omap; eauto).
    apply upsert_bindings_subset in Ht as [Ht|Ht].
    + by apply (wf_disjoint w Hwf e r); auto.
    + apply (Hdis r Hr); [congruence|congruence|by apply Hcl|done].
Qed.

(** Deduplication keeps the ports a service is bound to, so it keeps its identity. *)
Lemma dedup_port_ids s :
  port_id_set (with_bindings (deduplicate_bindings (bindings (sv_base s))) s) = port_id_set s.
Proof.
  assert (∀ (l : list Binding) p, p ∈ omap port_id l ↔ ∃ i, BindPort p i ∈ bt <$> l) as Hids.
  { intros l p. rewrite list_elem_of_omap. setoid_rewrite elem_of_bt. split.
    - intros (b & Hb & E). unfold port_id in E. destruct (binding_type (b_base b)) as [|q i] eqn:Eb; [done|].
      injection E as ->. by exists i, b.
    - intros (i & b & Hb & E). exists b. split; [done|]. unfold port_id. unfold bt in E. by rewrite E. }
  apply set_eq. intros p. unfold port_id_set, to_bound_port_ids.
  rewrite !elem_of_list_to_set, !Hids. simpl. setoid_rewrite deduplicate_elem. split.
  - intros (i & H & _). eauto.
  - intros (i & H). destruct (decide (BindPort p None ∈ bt <$> bindings (sv_base s))) as [Hn|Hn].
    + exists None. split; [done|congruence].
    + exists i. split; [done|]. intros q ip [= <- _]. done.
Qed.

Section CreateInvariant.
Context `{DefinitionFacts}.

(** What discovery arranges before it calls [create]: the id is the matched
    row's, the bindings name the host's own ports and addresses and none of them
    is claimed by another service. *)
Record prepared (w : ServiceStore) (s : Service) : Prop := {
  prep_id : sv_id s ≠ uuid_nil;
  prep_aligned : ∀ e, e ∈ rows w →
    (service_eqb e s = true ∧ sv_host_id (sv_base e) = sv_host_id (sv_base s)) ∨ sv_id e = sv_id s →
    sv_host_id (sv_base e) = sv_host_id (sv_base s) ∧ sv_id e = sv_id s;
  prep_refs : ∀ b, b ∈ bindings (sv_base s) →
    refs_on (ports_of w (sv_host_id (sv_base s))) (ips_of w (sv_host_id (sv_base s))) (bt b);
  prep_uncontested : ∀ r, r ∈ rows w → sv_id r ≠ sv_id s →
    sv_host_id (sv_base r) = sv_host_id (sv_base s) → disjoint_claims s r
}.

Lemma service_eqb_dedup e s :
  service_eqb e (with_bindings (deduplicate_bindings (bindings (sv_base s))) s) = service_eqb e s.
Proof.
  unfold service_eqb, generic_eqb, has_shared_ports. rewrite dedup_port_ids. done.
Qed.

Lemma prepared_dedup w s :
  prepared w s → prepared w (with_bindings (deduplicate_bindings (bindings (sv_base s))) s).
Proof.
  intros [Hid Hal Hrefs Hun].
  pose proof (dedup_loop_sublist (all_interface_port_ids (bindings (sv_base s))) []
                (bindings (sv_base s))) as Hsub.
  constructor; simpl.
  - done.
  - intros e He. rewrite service_eqb_dedup. by apply Hal.
  - intros b Hb. apply Hrefs. by eapply elem_of_sublist.
  - intros r Hr Hne Hh c d Hc. apply (Hun r Hr Hne Hh). unfold claims_of in *. simpl in *.
    apply list_elem_of_omap in Hc as (b & Hb & Hc). apply list_elem_of_omap. exists b.
    split; [|done]. by eapply elem_of_sublist.
Qed.

Lemma insert_service_inv fresh pos s bs w r w' :
  wf_store w → bindings (sv_base s) = deduplicate_bindings bs → sv_id s ∉ sv_id <$> rows w →
  (is_from_discovery (source (sv_base s)) = true → validate_available w s = Ok tt) →
  insert_service fresh pos s w = Ok (r, w') → wf_store w' ∧ r ∈ rows w'.
Proof.
  intros Hwf Hb Hnew Hdisc. unfold insert_service. cbv zeta.
  intros ([] & Hown & ([] & Hav & E)%result_bind_ok)%result_bind_ok. injection E as <- <-.
  split; [|apply elem_of_app; right; by left].
  eapply (wf_store_append w _ (saved fresh [] (originate (set_sv_position pos s))));
    [exact Hwf|by split| |exact Hnew|done].
  apply (fits_types w (set_sv_position pos s));
    [done|done|exact (saved_types fresh [] (originate (set_sv_position pos s)))|].
  eapply validated_fits; [exact Hb|done|]. simpl in Hav.
  destruct (is_from_discovery (source (sv_base s))) eqn:Ed; [by apply Hdisc|done].
Qed.

(** Creating a service keeps the store consistent, on both of its paths: for a
    service a person enters under a new id, with whatever bindings, and for a
    discovered service whose id was aligned with the row it matches and whose
    contested bindings were set aside, an accepted call leaves every row's
    bindings well formed and on its host and no port claimed twice. *)
Theorem create_service_invariant new_id now fresh s w r w' :
  wf_store w →
  (is_from_discovery (source (sv_base s)) = false
   ∧ (if (sv_id s =? uuid_nil)%N then new_id else sv_id s) ∉ sv_id <$> rows w)
  ∨ prepared w s →
  create_service new_id now fresh s w = Ok (r, w') → wf_store w' ∧ r ∈ rows w'.
Proof.
  intros Hwf Hcase. unfold create_service. cbv zeta.
  set (s0 := if (sv_id s =? uuid_nil)%N then _ else s).
  assert (sv_base s0 = sv_base s) as Hb0 by (unfold s0; by destruct (_ =? _)%N).
  assert (sv_id s0 = if (sv_id s =? uuid_nil)%N then new_id else sv_id s) as Hi0
    by (unfold s0; by destruct (_ =? _)%N).
  set (s1 := with_bindings (deduplicate_bindings (bindings (sv_base s0))) s0).
  destruct Hcase as [[Hsrc Hnew]|Hprep].
  - rewrite <- Hi0 in Hnew.
    assert (∀ pos, insert_service fresh pos s1 w = Ok (r, w') → wf_store w' ∧ r ∈ rows w') as Hins.
    { intros pos. apply (insert_service_inv _ _ _ (bindings (sv_base s0))); [done|done|exact Hnew|].
      simpl. rewrite Hb0, Hsrc. done. }
    destruct (List.find _ _) as [e|] eqn:Ef; [|apply Hins].
    apply find_elem in Ef as [[He _]%on_host_elem _]. simpl. rewrite Hb0, Hsrc. simpl.
    destruct (N.eqb_spec (sv_id s0) (sv_id e)) as [E|_]; [|apply Hins].
    exfalso. apply Hnew. rewrite E. apply list_elem_of_fmap. eauto.
  - assert (s0 = s) as Es0.
    { unfold s0. destruct (N.eqb_spec (sv_id s) uuid_nil) as [E|]; [|done]. by destruct (prep_id _ _ Hprep). }
    clearbody s0. subst s0. apply prepared_dedup in Hprep. fold s1 in Hprep.
    destruct (List.find _ _) as [e|] eqn:Ef.
    + apply find_elem in Ef as [[He Hh]%on_host_elem Heq].
      destruct (prep_aligned _ _ Hprep e He) as [_ Hid]; [by left|].
      assert (sv_id s1 =? sv_id e = true)%N as -> by (by apply N.eqb_eq).
      rewrite orb_true_r. intros [= <- <-]. split.
      * eapply wf_store_put; [exact Hwf|by split| |done].
        apply (fits_types w (merge_service e s1).1); [done|done|apply saved_types|].
        apply merge_service_fits; [done|done|done|done| |exact (prep_uncontested _ _ Hprep)].
        intros t (b & Hb & <-)%elem_of_bt. by apply (prep_refs _ _ Hprep).
      * simpl. unfold store_row. apply list_elem_of_fmap. exists e. simpl. by rewrite N.eqb_refl.
    + apply (insert_service_inv _ _ _ (bindings (sv_base s))); [done|done| |].
      * intros (e & E & He)%list_elem_of_fmap.
        destruct (prep_aligned _ _ Hprep e He) as [Hh _]; [by right|].
        eapply find_none in Ef; [|apply list_elem_of_In, on_host_elem; split; [exact He|exact Hh]].
        unfold service_eqb in Ef. simpl in *. by rewrite <- E, N.eqb_refl in Ef.
      * intros _. apply validate_available_spec. exact (prep_uncontested _ _ Hprep).
Qed.
End CreateInvariant.

(** *** Deletion, dependencies, rejections *)

Definition member_ids (m : DependencyMembers) : list Uuid :=
  match m with DepServices ids | DepBindings ids => ids end.

(** What a service leaves behind in a dependency: its own id, or ids of bindings
    it no longer has. *)
Definition dangling (current : Service) (updates : option Service) (m : DependencyMembers) : Prop :=
  ∃ id, id ∈ member_ids m ∧
  match m, updates with
  | DepServices _, None => id = sv_id current
  | DepServices _, Some _ => False
  | DepBindings _, None => id ∈ b_id <$> bindings (sv_base current)
  | DepBindings _, Some u => id ∈ b_id <$> bindings (sv_base current)
                             ∧ id ∉ b_id <$> bindings (sv_base u)
  end.

Lemma prune_members_clean current updates m : ¬ dangling current updates (prune_members current updates m).
Proof.
  intros (id & Hid & H). destruct m as [ids|ids], updates as [u|]; simpl in *; try done;
    apply elem_of_list_filter_bool in Hid as [Hf _].
  - subst id. by rewrite N.eqb_refl in Hf.
  - destruct H as [H1 H2]. rewrite (bool_decide_eq_true_2 _ H1) in Hf.
    by apply bool_decide_eq_true in Hf.
  - by rewrite (bool_decide_eq_true_2 _ H) in Hf.
Qed.

(** Pruning only removes what dangles. *)
Lemma prune_members_keeps current updates m :
  ¬ dangling current updates m →
  member_ids (prune_members current updates m) = member_ids m.
Proof.
  intros Hd. assert (∀ (f : Uuid → bool) l, (∀ x, x ∈ l → f x = true) → List.filter f l = l) as Hid.
  { intros f l. induction l as [|a l IH]; intros Hl; simpl; [done|]. rewrite (Hl a) by left.
    f_equal. apply IH. intros x Hx. apply Hl. by right. }
  destruct m as [ids|ids], updates as [u|]; simpl; try done; apply Hid; intros x Hx.
  - apply negb_true_iff, N.eqb_neq. intros ->. apply Hd. by exists (sv_id current).
  - case_bool_decide as Hc; [|done]. apply bool_decide_eq_true.
    destruct (decide (x ∈ b_id <$> bindings (sv_base u))); [done|]. destruct Hd. by exists x.
  - apply negb_true_iff, bool_decide_eq_false. intros Hc. apply Hd. by exists x.
Qed.

(** Deleting a service leaves nothing behind: the store stays consistent, the
    row is gone, every other row is untouched, and no dependency of its network
    names the service or one of its bindings. *)
Theorem delete_service_clean id w w' :
  wf_store w → delete_service id w = Ok w' →
  wf_store w' ∧ id ∉ sv_id <$> rows w'
  ∧ (∀ r, sv_id r ≠ id → r ∈ rows w ↔ r ∈ rows w')
  ∧ ∃ s, s ∈ rows w ∧ sv_id s = id
    ∧ ∀ d, d ∈ deps w' → d_network_id d = sv_network_id (sv_base s) → ¬ dangling s None (members d).
Proof.
  intros Hwf. unfold delete_service. destruct (service_by_id w id) as [s|] eqn:Es; [|done].
  apply find_elem in Es as [Hs Hid%N.eqb_eq]. intros [= <-]. simpl.
  assert (∀ r, r ∈ List.filter (λ r, negb (sv_id r =? id)%N) (rows w) ↔ sv_id r ≠ id ∧ r ∈ rows w) as Hel.
  { intros r. by rewrite elem_of_list_filter_bool, negb_true_iff, N.eqb_neq. }
  split_and!.
  - constructor; simpl.
    + eapply sublist_NoDup; [by apply wf_ids|]. apply sublist_fmap_of, filter_bool_sublist.
    + intros r [_ Hr]%Hel. by apply (wf_rows w).
    + intros r1 r2 [_ H1]%Hel [_ H2]%Hel. by apply (wf_disjoint w).
  - intros (r & E & [Hne _]%Hel)%list_elem_of_fmap. congruence.
  - intros r Hne. rewrite Hel. tauto.
  - exists s. split_and!; [done|done|]. intros d Hd Hn.
    unfold update_dependency_members in Hd. apply list_elem_of_fmap in Hd as (d0 & -> & Hd0).
    destruct (N.eqb_spec (d_network_id d0) (sv_network_id (sv_base s))) as [E|E]; [|done].
    simpl. apply prune_members_clean.
Qed.

(** An update is refused exactly for a reason: it succeeds if and only if the
    row exists, no two of its bindings exclude each other, every port and address
    it names is its host's, and no other service of the host claims one of its
    ports on an overlapping address.  Bindings that only repeat or refine another
    one of the request are no reason. *)
Theorem update_service_accepts fresh s w :
  is_ok (update_service fresh s w) = true ↔
  (∃ cur, service_by_id w (sv_id s) = Some cur)
  ∧ let s1 := with_bindings (deduplicate_bindings (bindings (sv_base s))) s in
    compatible (bt <$> bindings (sv_base s1))
    ∧ (∀ b, b ∈ bindings (sv_base s1) →
         refs_on (ports_of w (sv_host_id (sv_base s))) (ips_of w (sv_host_id (sv_base s))) (bt b))
    ∧ ∀ r, r ∈ rows w → sv_id r ≠ sv_id s → sv_host_id (sv_base r) = sv_host_id (sv_base s) →
         disjoint_claims s1 r.
Proof.
  unfold update_service. destruct (service_by_id w (sv_id s)) as [cur|]; [|naive_solver].
  cbv zeta. set (s1 := with_bindings _ s).
  pose proof (validate_own_spec w s1) as Hown. pose proof (validate_available_spec w s1) as Hav.
  simpl in Hown, Hav.
  destruct (validate_own w s1) as [[]|e1]; simpl.
  - destruct (validate_available w s1) as [[]|e2]; simpl.
    + split; [intros _|done]. split; [by exists cur|].
      destruct (proj1 Hown eq_refl). split_and!; [done|done|by apply Hav].
    + split; [done|]. intros (_ & _ & _ & H). by apply Hav in H.
  - split; [done|]. intros (_ & H1 & H2 & _). by assert (Err e1 = Ok tt) by (by apply Hown).
Qed.

(** ** Witnesses *)

Definition demo_svc (id host : Uuid) (src : EntitySource) (bs : list Binding) : Service :=
  service_new id 0 {| sv_host_id := host; sv_network_id := 1; service_definition := "SSH";
    sv_name := "ssh"; bindings := bs; virtualization_metadata := None;
    virtualization_service_id := None; source := src; sv_tags := []; sv_position := 0 |}.

Definition demo_store : ServiceStore := {|
  rows := [demo_svc 4 2 SourceDiscovery [demo_binding 1 (BindPort 5 (Some 7%N))]];
  ports_of _ := {[5%N; 6%N]}; ips_of _ := {[7%N]};
  deps := [{| d_id := 1; d_network_id := 1; dep_name := "web"; dependency_type := RequestPath;
              members := DepBindings [1%N; 9%N] |}]; sv_events := [] |}.

Lemma demo_store_wf : wf_store demo_store.
Proof.
  constructor; simpl.
  - apply list.NoDup_singleton.
  - intros s ->%list_elem_of_singleton. split; [|by intros t ->%list_elem_of_singleton; vm_compute].
    constructor; simpl.
    + by intros a b ->%list_elem_of_singleton ->%list_elem_of_singleton.
    + apply list.NoDup_singleton.
    + intros p ip [= -> ->]%list_elem_of_singleton. by intros [=]%list_elem_of_singleton.
  - by intros s1 s2 ->%list_elem_of_singleton ->%list_elem_of_singleton.
Qed.

Lemma update_service_invariant_witness :
  ∃ u w', update_service (λ _, 50%N) (demo_svc 4 2 SourceManual [demo_binding 3 (BindPort 6 None)])
            demo_store = Ok (u, w') ∧ wf_store w'.
Proof.
  eexists _, _. split; [reflexivity|].
  eapply (update_service_invariant (λ _, 50%N)
    (demo_svc 4 2 SourceManual [demo_binding 3 (BindPort 6 None)]) demo_store);
    [apply demo_store_wf|reflexivity].
Defined.

Lemma create_service_invariant_witness :
  ∃ r w', @create_service demo_facts 80 5 (λ _, 50%N)
            (demo_svc 0 2 SourceManual [demo_binding 3 (BindPort 6 None)]) demo_store = Ok (r, w')
          ∧ wf_store w'.
Proof.
  eexists _, _. split; [reflexivity|].
  eapply (@create_service_invariant demo_facts 80 5 (λ _, 50%N)
    (demo_svc 0 2 SourceManual [demo_binding 3 (BindPort 6 None)]) demo_store);
    [apply demo_store_wf| |reflexivity].
  left. split; [done|]. simpl. by intros [=]%list_elem_of_singleton.
Defined.

Lemma delete_service_clean_witness :
  ∃ w', delete_service 4 demo_store = Ok w' ∧ wf_store w'.
Proof.
  eexists. split; [reflexivity|].
  eapply (delete_service_clean 4 demo_store); [apply demo_store_wf|reflexivity].
Defined.
