(* ===== verification/Hosts.v ===== *)
(** Hosts: the naming ladder, the host row and the merge of a rediscovered host.

    [server/hosts/impl/name.rs] ([HostNameSource], [HostName]),
    [server/hosts/impl/base.rs] ([HostBase], [Host]) and
    [HostService::upsert_host] of [server/hosts/service/consolidate.rs]. *)

From S2P Require Import Prelude Net Ports Position Entities Lldp.
From Stdlib Require Import Ascii.
Local Open Scope Z_scope.

(** ** The naming ladder *)

Inductive HostNameSource :=
| Unspecified | NameIp | DetectedService | Hostname | Integration | Manual.

#[export] Instance HostNameSource_eq_dec : EqDecision HostNameSource.
Proof. solve_decision. Defined.

(** The derived [Ord]: declaration order. *)
Definition name_rank (s : HostNameSource) : Z :=
  match s with
  | Unspecified => 0 | NameIp => 1 | DetectedService => 2
  | Hostname => 3 | Integration => 4 | Manual => 5
  end.

Record HostName := { name_value : string; name_src : HostNameSource }.

(** The bytes of a string, as [str::trim] sees them. *)
Definition str_bytes (s : string) : bytes :=
  (λ c, Z.of_nat (nat_of_ascii c)) <$> String.list_ascii_of_string s.

Definition is_blank (s : string) : bool :=
  match trim (str_bytes s) with [] => true | _ :: _ => false end.

Definition non_blank (value : string) (src : HostNameSource) : option HostName :=
  if is_blank value then None else Some {| name_value := value; name_src := src |}.

Definition from_integration (v : string) : option HostName := non_blank v Integration.
Definition from_hostname (v : string) : option HostName := non_blank v Hostname.
Definition from_service (v : string) : option HostName := non_blank v DetectedService.
Definition manual (v : string) : option HostName := non_blank v Manual.
Definition from_parts (v : string) (src : HostNameSource) : option HostName := non_blank v src.

(** The text of an address, as the string it displays as. *)
Definition bytes_str (b : bytes) : string :=
  String.string_of_list_ascii ((λ z, ascii_of_nat (Z.to_nat z)) <$> b).
Definition from_ip (ip : IpAddr) : HostName :=
  {| name_value := bytes_str (ip_text ip); name_src := NameIp |}.

(** ** Host rows *)

Record VmInfo := { vm_name : option string; vm_id : option string }.

#[export] Instance VmInfo_eq_dec : EqDecision VmInfo.
Proof. solve_decision. Defined.

Inductive HostVirtualization :=
| Proxmox (v : VmInfo)
| VCenter (v : VmInfo)
| ESXi (v : VmInfo).

#[export] Instance HostVirtualization_eq_dec : EqDecision HostVirtualization.
Proof. solve_decision. Defined.

Record CredentialAssignment := {
  credential_id : Uuid;
  ip_address_ids : option (list Uuid)
}.

Record HostBase := {
  h_name : string;
  name_source : HostNameSource;
  h_network_id : Uuid;
  hostname : option string;
  h_description : option string;
  h_source : EntitySource;
  h_virtualization_metadata : option HostVirtualization;
  h_virtualization_service_id : option Uuid;
  hidden : bool;
  h_tags : list Uuid;
  sys_descr : option string;
  sys_object_id : option string;
  sys_location : option string;
  sys_contact : option string;
  management_url : option string;
  chassis_id : option string;
  sys_name : option string;
  manufacturer : option string;
  model : option string;
  serial_number : option string;
  credential_assignments : list CredentialAssignment
}.

Record HostRow := { h_id : Uuid; h_meta : RowMeta; h_base : HostBase }.

Definition default_host_base : HostBase := {|
  h_name := ""; name_source := Unspecified; h_network_id := uuid_nil; hostname := None;
  h_description := None; h_source := SourceUnknown; h_virtualization_metadata := None;
  h_virtualization_service_id := None; hidden := false; h_tags := []; sys_descr := None;
  sys_object_id := None; sys_location := None; sys_contact := None; management_url := None;
  chassis_id := None; sys_name := None; manufacturer := None; model := None;
  serial_number := None; credential_assignments := [] |}.

Definition host_new (id : Uuid) (now : DateTime) (base : HostBase) : HostRow :=
  {| h_id := id; h_meta := fresh_meta now; h_base := base |}.

(** [PartialEq] compares the id. *)
Definition host_eqb (a b : HostRow) : bool := (h_id a =? h_id b)%N.

Definition host_triggers_staleness (h : HostRow) (other : option HostRow) : bool :=
  match other with
  | Some o =>
      negb (bool_decide (hostname (h_base h) = hostname (h_base o)))
      || negb (bool_decide (h_virtualization_metadata (h_base h)
                            = h_virtualization_metadata (h_base o)))
      || negb (bool_decide (h_virtualization_service_id (h_base h)
                            = h_virtualization_service_id (h_base o)))
      || negb (Bool.eqb (hidden (h_base h)) (hidden (h_base o)))
  | None => true
  end.

Definition set_name (v : string) (src : HostNameSource) (b : HostBase) : HostBase := {|
  h_name := v; name_source := src; h_network_id := h_network_id b; hostname := hostname b;
  h_description := h_description b; h_source := h_source b;
  h_virtualization_metadata := h_virtualization_metadata b;
  h_virtualization_service_id := h_virtualization_service_id b; hidden := hidden b;
  h_tags := h_tags b; sys_descr := sys_descr b; sys_object_id := sys_object_id b;
  sys_location := sys_location b; sys_contact := sys_contact b;
  management_url := management_url b; chassis_id := chassis_id b; sys_name := sys_name b;
  manufacturer := manufacturer b; model := model b; serial_number := serial_number b;
  credential_assignments := credential_assignments b |}.

(** The new base and whether anything changed. *)
Definition apply_name (candidate : HostName) (b : HostBase) : bool * HostBase :=
  if name_rank (name_src candidate) <? name_rank (name_source b) then (false, b)
  else if bool_decide (h_name b = name_value candidate)
          && bool_decide (name_source b = name_src candidate) then (false, b)
  else (true, set_name (name_value candidate) (name_src candidate) b).

Definition clamp_name_source (ceiling : HostNameSource) (b : HostBase) : bool * HostBase :=
  if name_rank (name_source b) <=? name_rank ceiling then (false, b)
  else (true, set_name (h_name b) ceiling b).

Definition name_candidate (b : HostBase) : option HostName :=
  from_parts (h_name b) (name_source b).

(** ** [upsert_host] *)

(** "Update if not set": the filled value and whether it was filled. *)
Definition fill {A} (existing new : option A) : bool * option A :=
  match existing, new with
  | None, Some _ => (true, new)
  | _, _ => (false, existing)
  end.

(** The hostname is only filled by one that is not empty. *)
Definition fill_hostname (existing new : option string) : bool * option string :=
  match existing, new with
  | None, Some h => if bool_decide (h = ""%string) then (false, existing) else (true, new)
  | _, _ => (false, existing)
  end.

Definition set_hostname (v : option string) (b : HostBase) : HostBase := {|
  h_name := h_name b; name_source := name_source b; h_network_id := h_network_id b;
  hostname := v; h_description := h_description b; h_source := h_source b;
  h_virtualization_metadata := h_virtualization_metadata b;
  h_virtualization_service_id := h_virtualization_service_id b; hidden := hidden b;
  h_tags := h_tags b; sys_descr := sys_descr b; sys_object_id := sys_object_id b;
  sys_location := sys_location b; sys_contact := sys_contact b;
  management_url := management_url b; chassis_id := chassis_id b; sys_name := sys_name b;
  manufacturer := manufacturer b; model := model b; serial_number := serial_number b;
  credential_assignments := credential_assignments b |}.

Definition apply_candidate (c : option HostName) (b : HostBase) : bool * HostBase :=
  match c with Some n => apply_name n b | None => (false, b) end.

Definition merge_source (existing new : EntitySource) : bool * EntitySource :=
  match existing, new with
  | SourceDiscovery, SourceDiscovery => (false, SourceDiscovery)
  | _, SourceDiscovery => (true, SourceDiscovery)
  | _, _ => (false, existing)
  end.

Definition touch_last_seen (t : DateTime) (m : RowMeta) : RowMeta := {|
  created_at := created_at m; updated_at := updated_at m; Entities.valid_from := Entities.valid_from m;
  valid_to := valid_to m; lineage_id := lineage_id m; last_seen_at := t;
  last_discovery_id := last_discovery_id m; first_discovery_id := first_discovery_id m |}.

(** The ten fields that are filled when absent, and the source. *)
Definition fill_fields (b n : HostBase) : bool * HostBase :=
  let f1 := fill (sys_descr b) (sys_descr n) in
  let f2 := fill (sys_object_id b) (sys_object_id n) in
  let f3 := fill (sys_location b) (sys_location n) in
  let f4 := fill (sys_contact b) (sys_contact n) in
  let f5 := fill (management_url b) (management_url n) in
  let f6 := fill (chassis_id b) (chassis_id n) in
  let f7 := fill (sys_name b) (sys_name n) in
  let f8 := fill (manufacturer b) (manufacturer n) in
  let f9 := fill (model b) (model n) in
  let f10 := fill (serial_number b) (serial_number n) in
  let src := merge_source (h_source b) (h_source n) in
  (f1.1 || f2.1 || f3.1 || f4.1 || f5.1 || f6.1 || f7.1 || f8.1 || f9.1 || f10.1 || src.1,
   {| h_name := h_name b; name_source := name_source b; h_network_id := h_network_id b;
      hostname := hostname b; h_description := h_description b; h_source := src.2;
      h_virtualization_metadata := h_virtualization_metadata b;
      h_virtualization_service_id := h_virtualization_service_id b; hidden := hidden b;
      h_tags := h_tags b; sys_descr := f1.2; sys_object_id := f2.2; sys_location := f3.2;
      sys_contact := f4.2; management_url := f5.2; chassis_id := f6.2; sys_name := f7.2;
      manufacturer := f8.2; model := f9.2; serial_number := f10.2;
      credential_assignments := credential_assignments b |}).

Definition upsert_base (e n : HostBase) : bool * HostBase :=
  let hn := fill_hostname (hostname e) (hostname n) in
  let b1 := set_hostname hn.2 e in
  let r2 := apply_candidate (name_candidate n) b1 in
  let r3 := apply_candidate (hostname r2.2 ≫= from_hostname) r2.2 in
  let r4 := fill_fields r3.2 n in
  (hn.1 || r2.1 || r3.1 || r4.1, r4.2).

(** What [upsert_host] writes and announces: the row it stores (always), and
    an [Updated] event with its staleness flag when a field changed. *)
Record Upsert := { upserted : HostRow; updated_event : option bool }.

Definition upsert_host (existing new : HostRow) : Upsert :=
  let r := upsert_base (h_base existing) (h_base new) in
  let row := {| h_id := h_id existing;
                h_meta := touch_last_seen (last_seen_at (h_meta new)) (h_meta existing);
                h_base := r.2 |} in
  {| upserted := row;
     updated_event := if r.1 then Some (host_triggers_staleness row (Some existing)) else None |}.

(** ** What the merge guarantees *)

Lemma name_rank_inj a b : name_rank a = name_rank b → a = b.
Proof. by destruct a, b. Qed.

Lemma non_blank_parts v src c :
  non_blank v src = Some c → name_value c = v ∧ name_src c = src.
Proof. unfold non_blank. destruct (is_blank v); [done|]. by intros [= <-]. Qed.

(** A candidate only moves the name up the ladder, and only touches the name. *)
Lemma apply_name_rank c b : name_rank (name_source b) ≤ name_rank (name_source (apply_name c b).2).
Proof. unfold apply_name. repeat case_any; simpl; bool_hyps; lia. Qed.

Lemma apply_name_hostname c b : hostname (apply_name c b).2 = hostname b.
Proof. unfold apply_name. by repeat case_any. Qed.

Lemma apply_name_weaker c b :
  name_rank (name_src c) < name_rank (name_source b) → apply_name c b = (false, b).
Proof. intros H. unfold apply_name. by rewrite (proj2 (Z.ltb_lt _ _) H). Qed.

(** A candidate at least as strong as the stored name becomes the name. *)
Lemma apply_name_wins c b :
  name_rank (name_source b) ≤ name_rank (name_src c) →
  h_name (apply_name c b).2 = name_value c ∧ name_source (apply_name c b).2 = name_src c.
Proof.
  intros H. unfold apply_name. rewrite (proj2 (Z.ltb_ge _ _) H).
  case_any; bool_hyps; done.
Qed.

(** A different name of the same rung displaces the stored one. *)
Lemma apply_name_changes c b :
  h_name b ≠ name_value c → name_source b = name_src c →
  apply_name c b = (true, set_name (name_value c) (name_src c) b).
Proof.
  intros Hn Hs. unfold apply_name. by rewrite Hs, Z.ltb_irrefl, (bool_decide_eq_false_2 _ Hn).
Qed.

(** The name a candidate describes is applied silently. *)
Lemma apply_name_same c b :
  h_name b = name_value c → name_source b = name_src c → apply_name c b = (false, b).
Proof.
  intros H1 H2. unfold apply_name. rewrite H1, H2, Z.ltb_irrefl, !bool_decide_eq_true_2; done.
Qed.

Lemma apply_candidate_hostname c b : hostname (apply_candidate c b).2 = hostname b.
Proof. destruct c; [apply apply_name_hostname|done]. Qed.

Lemma apply_candidate_rank c b :
  name_rank (name_source b) ≤ name_rank (name_source (apply_candidate c b).2).
Proof. destruct c; [apply apply_name_rank|simpl; lia]. Qed.

Lemma fill_idem {A} (a b : option A) : fill (fill a b).2 b = (false, (fill a b).2).
Proof. by destruct a, b. Qed.

Lemma fill_keeps {A} (x : A) (b : option A) : fill (Some x) b = (false, Some x).
Proof. by destruct b. Qed.

Lemma fill_hostname_idem a b :
  fill_hostname (fill_hostname a b).2 b = (false, (fill_hostname a b).2).
Proof.
  destruct a, b as [h|]; simpl; try done. destruct (bool_decide (h = ""%string)) eqn:E; simpl; [|done].
  by rewrite E.
Qed.

Lemma merge_source_idem a b : merge_source (merge_source a b).2 b = (false, (merge_source a b).2).
Proof. by destruct a, b. Qed.

Lemma fill_fields_name b n :
  h_name (fill_fields b n).2 = h_name b ∧ name_source (fill_fields b n).2 = name_source b
  ∧ hostname (fill_fields b n).2 = hostname b.
Proof. done. Qed.

Lemma fill_fields_idem b n : fill_fields (fill_fields b n).2 n = (false, (fill_fields b n).2).
Proof. unfold fill_fields. cbn -[fill merge_source]. by rewrite !fill_idem, merge_source_idem. Qed.

Lemma fill_silent {A} (a b : option A) : (fill a b).1 = false → (fill a b).2 = a.
Proof. by destruct a, b. Qed.

Lemma merge_source_silent a b : (merge_source a b).1 = false → (merge_source a b).2 = a.
Proof. by destruct a, b. Qed.

Lemma fill_fields_silent b n : (fill_fields b n).1 = false → (fill_fields b n).2 = b.
Proof.
  unfold fill_fields. cbv zeta. cbn [fst snd]. intros H. bool_hyps.
  rewrite !fill_silent, merge_source_silent by done. by destruct b.
Qed.

(** Applying the same two candidates again. *)
Definition name_steps (c : option HostName) (b : HostBase) : bool * HostBase :=
  let r2 := apply_candidate c b in
  let r3 := apply_candidate (hostname r2.2 ≫= from_hostname) r2.2 in
  (r2.1 || r3.1, r3.2).

Lemma upsert_base_steps e n :
  upsert_base e n
  = let hn := fill_hostname (hostname e) (hostname n) in
    let r := name_steps (name_candidate n) (set_hostname hn.2 e) in
    let r4 := fill_fields r.2 n in
    (hn.1 || r.1 || r4.1, r4.2).
Proof. unfold upsert_base, name_steps. cbv zeta. cbn [fst snd]. by rewrite <- !orb_assoc. Qed.

(** The incoming name does not compete with the hostname for its rung. *)
Definition no_contest (c : option HostName) (h : option string) : Prop :=
  ∀ x y, c = Some x → h ≫= from_hostname = Some y →
         name_src x = Hostname → name_value x = name_value y.

(** Once a base carries the outcome of a candidate, the candidate leaves it alone. *)
Lemma apply_name_settled c b b' :
  h_name b' = h_name (apply_name c b).2 → name_source b' = name_source (apply_name c b).2 →
  apply_name c b' = (false, b').
Proof.
  intros Hn Hs. destruct (Z.lt_ge_cases (name_rank (name_src c)) (name_rank (name_source b))) as [L|L].
  - apply apply_name_weaker. by rewrite Hs, (apply_name_weaker _ _ L).
  - destruct (apply_name_wins c b L). apply apply_name_same; congruence.
Qed.

(** The same for a candidate that a second one, of the hostname's rung, followed. *)
Lemma apply_name_settled_below x y b b' :
  name_src y = Hostname → (name_src x = Hostname → name_value x = name_value y) →
  h_name b' = h_name (apply_name y (apply_name x b).2).2 →
  name_source b' = name_source (apply_name y (apply_name x b).2).2 →
  apply_name x b' = (false, b').
Proof.
  intros Ey Hxy Hn Hs.
  destruct (Z.lt_ge_cases (name_rank (name_src y)) (name_rank (name_source (apply_name x b).2))) as [L|L].
  { rewrite (apply_name_weaker _ _ L) in Hn, Hs. by eapply apply_name_settled. }
  destruct (apply_name_wins y _ L) as [V1 V2]. rewrite V1 in Hn. rewrite V2 in Hs.
  destruct (Z.lt_ge_cases (name_rank (name_src x)) (name_rank (name_source b'))) as [L'|L'].
  { by apply apply_name_weaker. }
  pose proof (apply_name_rank x b) as Hr.
  assert (name_src x = Hostname) as Ex.
  { apply name_rank_inj. apply Z.le_antisymm; [|congruence].
    destruct (Z.lt_ge_cases (name_rank (name_src x)) (name_rank (name_source b))) as [M|M].
    - rewrite Ey in L. simpl in *. lia.
    - destruct (apply_name_wins x b M) as [_ W]. rewrite W, Ey in L. done. }
  apply apply_name_same; [rewrite Hn; symmetry; by apply Hxy|congruence].
Qed.

Lemma name_steps_silent c b b' :
  no_contest c (hostname b) →
  h_name b' = h_name (name_steps c b).2 → name_source b' = name_source (name_steps c b).2 →
  hostname b' = hostname b → name_steps c b' = (false, b').
Proof.
  intros Hnc. unfold name_steps. simpl. rewrite apply_candidate_hostname. intros Hn Hs Hh.
  assert (∀ y, hostname b ≫= from_hostname = Some y → name_src y = Hostname) as Hsrc.
  { intros y. destruct (hostname b) as [h|]; [|done]. apply non_blank_parts. }
  destruct (hostname b ≫= from_hostname) as [y|] eqn:Hy; simpl in *; destruct c as [x|]; simpl in *.
  - rewrite (apply_name_settled_below x y b b' (Hsrc y eq_refl) (Hnc x y eq_refl Hy) Hn Hs).
    simpl. rewrite Hh, Hy. simpl. by rewrite (apply_name_settled y (apply_name x b).2 b').
  - rewrite Hh, Hy. simpl. by rewrite (apply_name_settled y b b').
  - rewrite (apply_name_settled x b b' Hn Hs). simpl. by rewrite Hh, Hy.
  - by rewrite Hh, Hy.
Qed.

(** A second scan that reports the same thing is silent.  Merging the
    payload of a scan into a host and then merging the same payload again
    leaves the row as the first merge wrote it and announces no update,
    provided the payload's own name does not sit on the hostname's rung with a
    value other than the stored hostname. *)
Theorem upsert_host_idempotent e n :
  no_contest (name_candidate (h_base n)) (hostname (h_base (upserted (upsert_host e n)))) →
  upsert_host (upserted (upsert_host e n)) n
  = {| upserted := upserted (upsert_host e n); updated_event := None |}.
Proof.
  destruct e as [id m e], n as [id' m' n]. unfold upsert_host. cbn [h_base h_id h_meta upserted].
  rewrite (upsert_base_steps e n). cbn zeta. cbn [fst snd].
  set (hn := fill_hostname (hostname e) (hostname n)).
  set (r := name_steps (name_candidate n) (set_hostname hn.2 e)).
  set (b := (fill_fields r.2 n).2). intros Hnc.
  assert (hostname b = hn.2) as Hb.
  { subst b r. unfold name_steps. simpl. by rewrite !apply_candidate_hostname. }
  rewrite upsert_base_steps, Hb. cbn zeta.
  assert (fill_hostname hn.2 (hostname n) = (false, hn.2)) as -> by apply fill_hostname_idem.
  cbn [fst snd]. assert (set_hostname hn.2 b = b) as -> by (rewrite <- Hb; by destruct b).
  rewrite (name_steps_silent _ (set_hostname hn.2 e) b); [| |done|done|done].
  - cbn [fst snd orb]. unfold b at 1 2 3. rewrite fill_fields_idem. done.
  - by rewrite <- Hb.
Qed.

(** Candidates write the name and its provenance, nothing else. *)
Lemma apply_candidate_set_name c b : ∃ v src, (apply_candidate c b).2 = set_name v src b.
Proof.
  destruct c as [c|]; simpl; [unfold apply_name; repeat case_any|]; simpl; eauto;
    exists (h_name b), (name_source b); by destruct b.
Qed.

Lemma name_steps_set_name c b : ∃ v src, (name_steps c b).2 = set_name v src b.
Proof.
  unfold name_steps. cbv zeta. cbn [snd].
  destruct (apply_candidate_set_name (hostname (apply_candidate c b).2 ≫= from_hostname)
              (apply_candidate c b).2) as (v & src & ->).
  destruct (apply_candidate_set_name c b) as (v' & src' & ->). by exists v, src.
Qed.

(** The row of a merge keeps its identity and everything a person or an earlier
    scan already recorded. *)
Definition keeps {A} (old new : option A) : Prop := ∀ x, old = Some x → new = Some x.

Lemma fill_keeps_set {A} (a b : option A) : keeps a (fill a b).2.
Proof. intros x ->. by rewrite fill_keeps. Qed.

Lemma upsert_base_name e n :
  name_rank (name_source e) ≤ name_rank (name_source (upsert_base e n).2)
  ∧ (name_source e = Manual → name_rank (name_source n) < name_rank Manual →
     h_name (upsert_base e n).2 = h_name e ∧ name_source (upsert_base e n).2 = Manual).
Proof.
  rewrite upsert_base_steps. cbv zeta. cbn [fst snd].
  destruct (fill_fields_name (name_steps (name_candidate n)
    (set_hostname (fill_hostname (hostname e) (hostname n)).2 e)).2 n) as (-> & -> & _).
  set (b := set_hostname _ e). unfold name_steps. cbv zeta. cbn [snd].
  split.
  - etransitivity; [|apply apply_candidate_rank]. etransitivity; [|apply apply_candidate_rank]. done.
  - intros He Hn. assert (apply_candidate (name_candidate n) b = (false, b)) as ->.
    { unfold name_candidate, from_parts. destruct (non_blank _ _) as [c|] eqn:Hc; [|done].
      apply non_blank_parts in Hc as [_ Hc]. apply apply_name_weaker. simpl. rewrite He. congruence. }
    cbn [snd]. destruct (hostname b ≫= from_hostname) as [c|] eqn:Hc; [|done].
    simpl. rewrite apply_name_weaker; [done|]. unfold b. simpl. rewrite He.
    destruct (hostname b) as [h|]; [|done]. apply non_blank_parts in Hc as [_ ->]. done.
Qed.

(** Discovery never overwrites what is already known.  The merged row keeps
    the id of the existing host, every identifying field that was set and the
    operator's own fields (description, tags, visibility, virtualization); its
    name never moves down the ladder, and a name a person typed survives every
    payload whose rank is below [Manual]. *)
Theorem upsert_host_preserves e n :
  let r := upserted (upsert_host e n) in let b := h_base e in let b' := h_base r in
  h_id r = h_id e ∧ created_at (h_meta r) = created_at (h_meta e)
  ∧ last_seen_at (h_meta r) = last_seen_at (h_meta n)
  ∧ (h_network_id b', h_description b', hidden b', h_tags b', h_virtualization_metadata b')
    = (h_network_id b, h_description b, hidden b, h_tags b, h_virtualization_metadata b)
  ∧ keeps (hostname b) (hostname b') ∧ keeps (sys_descr b) (sys_descr b')
  ∧ keeps (sys_object_id b) (sys_object_id b') ∧ keeps (sys_location b) (sys_location b')
  ∧ keeps (sys_contact b) (sys_contact b') ∧ keeps (management_url b) (management_url b')
  ∧ keeps (chassis_id b) (chassis_id b') ∧ keeps (sys_name b) (sys_name b')
  ∧ keeps (manufacturer b) (manufacturer b') ∧ keeps (model b) (model b')
  ∧ keeps (serial_number b) (serial_number b')
  ∧ name_rank (name_source b) ≤ name_rank (name_source b')
  ∧ (name_source b = Manual → name_rank (name_source (h_base n)) < name_rank Manual →
     h_name b' = h_name b ∧ name_source b' = Manual).
Proof.
  cbv zeta. pose proof (upsert_base_name (h_base e) (h_base n)) as [Hr Hm].
  unfold upsert_host. cbn [upserted h_id h_meta h_base] in *.
  do 3 (split; [done|]). revert Hr Hm. rewrite upsert_base_steps. cbv zeta. cbn [fst snd].
  destruct (name_steps_set_name (name_candidate (h_base n))
    (set_hostname (fill_hostname (hostname (h_base e)) (hostname (h_base n))).2 (h_base e)))
    as (v & src & ->).
  intros Hr Hm. cbn -[fill fill_hostname merge_source name_rank keeps] in *.
  split; [done|]. split.
  { intros x ->. by destruct (hostname (h_base n)). }
  repeat (split; [apply fill_keeps_set|]). done.
Qed.

(** A renamed device flaps.  When the stored hostname names the host and a
    scan reports a different, non-blank name of the same rung, the merge leaves
    every column of the row but [last_seen_at] as it was and still announces an
    [Updated] event: the new name is applied and then displaced by the stored
    hostname, on this scan and on every later one. *)
Theorem upsert_host_flaps e n h v :
  hostname (h_base e) = Some h → is_blank h = false →
  h_name (h_base e) = h → name_source (h_base e) = Hostname →
  h_name (h_base n) = v → is_blank v = false → name_source (h_base n) = Hostname → v ≠ h →
  (fill_fields (h_base e) (h_base n)).1 = false →
  upserted (upsert_host e n)
  = {| h_id := h_id e; h_meta := touch_last_seen (last_seen_at (h_meta n)) (h_meta e);
       h_base := h_base e |}
  ∧ updated_event (upsert_host e n) = Some false.
Proof.
  intros Hh Hb Hn Hs Hn' Hb' Hs' Hv Hf.
  assert (upsert_base (h_base e) (h_base n) = (true, h_base e)) as Hu.
  { rewrite upsert_base_steps. cbv zeta. rewrite Hh.
    assert (∀ o, fill_hostname (Some h) o = (false, Some h)) as -> by (by intros []).
    cbn [fst snd]. assert (set_hostname (Some h) (h_base e) = h_base e) as ->
      by (rewrite <- Hh; by destruct (h_base e)).
    assert (name_candidate (h_base n) = Some {| name_value := v; name_src := Hostname |}) as ->
      by (unfold name_candidate, from_parts, non_blank; by rewrite Hn', Hb', Hs').
    unfold name_steps. cbv zeta. cbn [apply_candidate]. rewrite apply_name_hostname, Hh. simpl.
    unfold from_hostname, non_blank. rewrite Hb. cbn [apply_candidate].
    rewrite apply_name_changes by (simpl; congruence). cbn [snd fst].
    rewrite apply_name_changes by (simpl; congruence). cbn [snd fst orb].
    assert (set_name h Hostname (set_name v Hostname (h_base e)) = h_base e) as E
      by (rewrite <- Hs, <- Hn; by destruct (h_base e)).
    cbn [name_value name_src]. rewrite E. f_equal. by apply fill_fields_silent. }
  unfold upsert_host. rewrite Hu. cbn [fst snd upserted updated_event]. split; [done|].
  unfold host_triggers_staleness. cbn [h_base].
  rewrite !bool_decide_eq_true_2 by done. by rewrite Bool.eqb_reflx.
Qed.

(** ** Witnesses *)

Definition demo_base (name host : string) (src : HostNameSource) : HostBase :=
  set_hostname (Some host) (set_name name src default_host_base).
Definition demo_host (id : Uuid) (seen : DateTime) (b : HostBase) : HostRow := host_new id seen b.

Lemma upsert_host_idempotent_witness :
  updated_event (upsert_host
    (upserted (upsert_host (demo_host 1 10 (demo_base "10.0.0.7" "sw.lan" NameIp))
                           (demo_host 2 20 (demo_base "Core Switch" "x.lan" Integration))))
    (demo_host 2 20 (demo_base "Core Switch" "x.lan" Integration))) = None.
Proof.
  rewrite (upsert_host_idempotent (demo_host 1 10 (demo_base "10.0.0.7" "sw.lan" NameIp))
             (demo_host 2 20 (demo_base "Core Switch" "x.lan" Integration))); [done|].
  intros x y [= <-] _ [=].
Defined.

Lemma upsert_host_flaps_witness :
  updated_event (upsert_host (demo_host 1 10 (demo_base "old.lan" "old.lan" Hostname))
                             (demo_host 2 20 (demo_base "new.lan" "new.lan" Hostname))) = Some false.
Proof.
  apply (upsert_host_flaps (demo_host 1 10 (demo_base "old.lan" "old.lan" Hostname))
           (demo_host 2 20 (demo_base "new.lan" "new.lan" Hostname)) "old.lan" "new.lan");
    vm_compute; congruence.
Defined.

Lemma upsert_host_preserves_witness :
  h_name (h_base (upserted (upsert_host (demo_host 1 10 (demo_base "Rack 4" "sw.lan" Manual))
    (demo_host 2 20 (demo_base "Core Switch" "x.lan" Integration))))) = "Rack 4"%string.
Proof.
  pose proof (upsert_host_preserves (demo_host 1 10 (demo_base "Rack 4" "sw.lan" Manual))
    (demo_host 2 20 (demo_base "Core Switch" "x.lan" Integration))) as H.
  cbv zeta in H. do 16 destruct H as [_ H]. by apply H.
Defined.
