(* ===== verification/HostMatch.v ===== *)
(** Host matching: which existing host a payload of IP addresses identifies.

    The pure decision code of [server/hosts/service/mod.rs]
    ([select_matching_host] and its helpers), [find_matching_host_by_ip_addresses]
    of [server/hosts/service/consolidate.rs] and the repairs of
    [server/hosts/service/create.rs] ([resolve_dangling_subnet_id],
    [remap_assignment_ip_ids], [resolve_owner_service_id],
    [should_prune_interfaces]). *)

From S2P Require Import Prelude Net Ports Position Entities Lldp Hosts.
Local Open Scope Z_scope.

(** ** Virtual-router MACs *)

(** Byte [i] of a MAC, the most significant first. *)
Definition mac_byte (m : MacAddress) (i : Z) : Z := Z.land (Z.shiftr m (40 - 8 * i)) 255.
Definition mac_bytes (m : MacAddress) : list Z := mac_byte m <$> [0; 1; 2; 3; 4; 5].

Definition is_virtual_router_mac (m : MacAddress) : bool :=
  let b := mac_bytes m in
  bool_decide (take 5 b = [0x00; 0x00; 0x5e; 0x00; 0x01])
  || bool_decide (take 5 b = [0x00; 0x00; 0x5e; 0x00; 0x02])
  || bool_decide (take 5 b = [0x00; 0x00; 0x0c; 0x07; 0xac])
  || (bool_decide (take 4 b = [0x00; 0x00; 0x0c; 0x9f])
      && (Z.land (mac_byte m 4) 0xf0 =? 0xf0)).

Definition has_virtual_router_mac (ip : IPAddress) : bool :=
  match mac_address (ip_base ip) with Some m => is_virtual_router_mac m | None => false end.

Definition has_real_mac (ip : IPAddress) : bool :=
  match mac_address (ip_base ip) with Some m => negb (is_virtual_router_mac m) | None => false end.

Definition is_loopback (ip : IpAddr) : bool :=
  match ip with V4 b => v4_is_loopback b | V6 b => v6_is_loopback b end.

Definition row_loopback (ip : IPAddress) : bool := is_loopback (ip_address (ip_base ip)).

Definition should_skip_for_matching (ip : IPAddress) : bool :=
  row_loopback ip || has_virtual_router_mac ip.

(** ** Row comparison *)

Definition mac_counts_for_payload (payload : list IPAddress) : gmap Z nat :=
  foldl (λ acc mac, <[mac := S (default 0%nat (acc !! mac))]> acc) ∅
    (omap (λ i, mac_address (ip_base i)) payload).

Definition ip_addresses_share_address (a b : IPAddress) : bool :=
  bool_decide (ip_address (ip_base a) = ip_address (ip_base b))
  && (subnet_id (ip_base a) =? subnet_id (ip_base b))%N.

Definition ip_addresses_match (incoming existing : IPAddress) (counts : gmap Z nat) : bool :=
  ip_addresses_share_address incoming existing
  || ((ip_id incoming =? ip_id existing)%N && negb (ip_id incoming =? uuid_nil)%N
      && negb (ip_id existing =? uuid_nil)%N)
  || match mac_address (ip_base incoming) with
     | Some mac =>
         bool_decide (mac_address (ip_base incoming) = mac_address (ip_base existing))
         && (default 0%nat (counts !! mac) =? 1)%nat
     | None => false
     end.

(** ** [select_matching_host] *)

Definition physical_rows (incoming : list IPAddress) : list IPAddress :=
  List.filter (λ i, negb (should_skip_for_matching i)) incoming.

Definition virtual_rows (incoming : list IPAddress) : list IPAddress :=
  List.filter (λ i, negb (row_loopback i) && has_virtual_router_mac i) incoming.

Definition physical_hit (incoming : list IPAddress) (c : Uuid * list IPAddress) : bool :=
  let counts := mac_counts_for_payload incoming in
  existsb (λ i, existsb (λ e, negb (should_skip_for_matching e)
                              && ip_addresses_match i e counts) c.2) incoming.

Definition host_is_physical (rows : list IPAddress) : bool :=
  existsb (λ ip, negb (row_loopback ip) && has_real_mac ip) rows.

Definition virtual_hit (incoming : list IPAddress) (c : Uuid * list IPAddress) : bool :=
  negb (host_is_physical c.2)
  && existsb (λ i, existsb (λ e, negb (row_loopback e)
                                 && ip_addresses_share_address i e) c.2) incoming.

Definition select_matching_host (incoming : list IPAddress)
    (candidates : list (Uuid * list IPAddress)) : option Uuid :=
  match incoming, candidates with
  | [], _ | _, [] => None
  | _, _ =>
      match physical_rows incoming with
      | _ :: _ => fst <$> List.find (physical_hit (physical_rows incoming)) candidates
      | [] =>
          match virtual_rows incoming with
          | [] => None
          | _ :: _ => fst <$> List.find (virtual_hit (virtual_rows incoming)) (rev candidates)
          end
      end
  end.

(** ** [find_matching_host_by_ip_addresses]

    [live_hosts] and [ip_addresses_of] are what the two queries return. *)

Definition host_leb (a b : HostRow) : bool :=
  (created_at (h_meta a) <? created_at (h_meta b))
  || ((created_at (h_meta a) =? created_at (h_meta b)) && (h_id a <=? h_id b)%N).

Section Find.
Context (live_hosts : list HostRow) (ip_addresses_of : Uuid → list IPAddress).

Definition host_candidates : list (Uuid * list IPAddress) :=
  (λ h, (h_id h, ip_addresses_of (h_id h))) <$> sort_by host_leb live_hosts.

Definition find_matching_host_by_ip_addresses (incoming : list IPAddress)
    : option (HostRow * list IPAddress) :=
  match incoming, live_hosts with
  | [], _ | _, [] => None
  | _, _ =>
      matched_id ← select_matching_host incoming host_candidates;
      let rows := default [] (snd <$> List.find (λ c, (c.1 =? matched_id)%N) host_candidates) in
      h ← List.find (λ h, (h_id h =? matched_id)%N) (sort_by host_leb live_hosts);
      Some (h, rows)
  end.
End Find.

(** ** Repairs of incoming references *)

Definition should_prune_interfaces (interfaces_complete : bool) (persisted skipped : nat) : bool :=
  interfaces_complete && (0 <? persisted)%nat && (skipped =? 0)%nat.

Definition resolve_owner_service_id (incoming : option Uuid) (remap : gmap Uuid Uuid)
    (live : gset Uuid) : option Uuid :=
  id ← incoming;
  match remap !! id with
  | Some remapped => Some remapped
  | None => if bool_decide (id ∈ live) then Some id else None
  end.

(** [Iterator::max_by_key]: the last of the maximal elements. *)
Fixpoint max_by_key_from {A} (key : A → Z) (best : A) (l : list A) : A :=
  match l with
  | [] => best
  | x :: l' => max_by_key_from key (if key best <=? key x then x else best) l'
  end.

Definition max_by_key {A} (key : A → Z) (l : list A) : option A :=
  match l with [] => None | x :: l' => Some (max_by_key_from key x l') end.

Definition resolve_dangling_subnet_id (live_subnets : list Subnet) (sid : Uuid) (ip : IpAddr)
    : option Uuid :=
  if existsb (λ s, (s_id s =? sid)%N) live_subnets then None
  else s_id <$> max_by_key (λ s, cidr_prefix (cidr (s_base s)))
                  (List.filter (λ s, cidr_contains (cidr (s_base s)) ip) live_subnets).

Definition remap_ip_id (daemon_ips : list (Uuid * IpAddr)) (created : list IPAddress)
    (daemon_id : Uuid) : option Uuid :=
  ip ← snd <$> List.find (λ p, (p.1 =? daemon_id)%N) daemon_ips;
  ip_id <$> List.find (λ i, bool_decide (ip_address (ip_base i) = ip)) created.

Definition remap_assignment_ip_ids (daemon_ips : list (Uuid * IpAddr)) (created : list IPAddress)
    (a : CredentialAssignment) : CredentialAssignment :=
  match ip_address_ids a with
  | None => a
  | Some ids =>
      let remapped := omap (remap_ip_id daemon_ips created) ids in
      {| credential_id := credential_id a;
         ip_address_ids := match remapped, ids with [], _ :: _ => None | _, _ => Some remapped end |}
  end.

(** ** What a match means *)

(** Some physical row of the payload matches some physical row of the host. *)
Definition physical_match (incoming rows : list IPAddress) : Prop :=
  ∃ i e, i ∈ incoming ∧ e ∈ rows
    ∧ should_skip_for_matching i = false ∧ should_skip_for_matching e = false
    ∧ ip_addresses_match i e (mac_counts_for_payload (physical_rows incoming)) = true.

(** The host has no real MAC outside loopback, and a floating address of the
    payload is one of its addresses. *)
Definition floating_match (incoming rows : list IPAddress) : Prop :=
  (∀ e, e ∈ rows → row_loopback e = false → has_real_mac e = false)
  ∧ ∃ i e, i ∈ incoming ∧ e ∈ rows
      ∧ row_loopback i = false ∧ has_virtual_router_mac i = true ∧ row_loopback e = false
      ∧ ip_addresses_share_address i e = true.

Definition is_physical (incoming : list IPAddress) : Prop :=
  ∃ i, i ∈ incoming ∧ should_skip_for_matching i = false.

Lemma physical_rows_elem incoming i :
  i ∈ physical_rows incoming ↔ i ∈ incoming ∧ should_skip_for_matching i = false.
Proof. unfold physical_rows. rewrite elem_of_list_filter_bool, negb_true_iff. tauto. Qed.

Lemma physical_rows_nil incoming : physical_rows incoming = [] ↔ ¬ is_physical incoming.
Proof.
  split.
  - intros H (i & Hi & Hs). assert (i ∈ physical_rows incoming) as Hin by (by apply physical_rows_elem).
    rewrite H in Hin. by apply not_elem_of_nil in Hin.
  - intros H. destruct (physical_rows incoming) as [|i l] eqn:E; [done|]. exfalso. apply H.
    exists i. apply physical_rows_elem. rewrite E. by left.
Qed.

Lemma physical_hit_spec incoming c :
  physical_hit (physical_rows incoming) c = true ↔ physical_match incoming c.2.
Proof.
  unfold physical_hit, physical_match. rewrite existsb_elem. setoid_rewrite existsb_elem.
  setoid_rewrite andb_true_iff. setoid_rewrite negb_true_iff. setoid_rewrite physical_rows_elem.
  naive_solver.
Qed.

Lemma host_is_physical_false rows :
  host_is_physical rows = false ↔ ∀ e, e ∈ rows → row_loopback e = false → has_real_mac e = false.
Proof.
  unfold host_is_physical. rewrite existsb_elem_false.
  split; intros H e He; specialize (H e He); destruct (row_loopback e), (has_real_mac e);
    simpl in *; auto; discriminate.
Qed.

Lemma virtual_hit_spec incoming c :
  virtual_hit (virtual_rows incoming) c = true ↔ floating_match incoming c.2.
Proof.
  unfold virtual_hit, floating_match, virtual_rows.
  rewrite andb_true_iff, negb_true_iff, host_is_physical_false, existsb_elem.
  setoid_rewrite existsb_elem. setoid_rewrite elem_of_list_filter_bool.
  setoid_rewrite andb_true_iff. setoid_rewrite negb_true_iff.
  split; intros [Hp H]; (split; [done|]).
  - destruct H as (i & [[Hl Hv] Hi] & e & He & Hle & Hs).
    apply andb_true_iff in Hs. by exists i, e.
  - destruct H as (i & e & Hi & He & Hl & Hv & Hle & Hs). apply andb_true_iff in Hs.
    exists i. split; [done|]. by exists e.
Qed.

Lemma floating_match_rows incoming rows : floating_match incoming rows → virtual_rows incoming ≠ [].
Proof.
  intros (_ & i & e & Hi & _ & Hl & Hv & _) E.
  assert (i ∈ virtual_rows incoming) as Hin.
  { unfold virtual_rows. rewrite elem_of_list_filter_bool, Hl, Hv. done. }
  rewrite E in Hin. by apply not_elem_of_nil in Hin.
Qed.

(** The two passes as one rule: the payload's identity decides which relation
    is used and in which order the candidates are tried. *)
Definition selects (incoming : list IPAddress) (cands : list (Uuid * list IPAddress)) (h : Uuid)
    : Prop :=
  ∃ pre rows post, cands = pre ++ (h, rows) :: post ∧
    ((is_physical incoming ∧ physical_match incoming rows
      ∧ ∀ c, c ∈ pre → ¬ physical_match incoming c.2)
     ∨ (¬ is_physical incoming ∧ floating_match incoming rows
        ∧ ∀ c, c ∈ post → ¬ floating_match incoming c.2)).

Lemma find_physical incoming cands h :
  fst <$> List.find (physical_hit (physical_rows incoming)) cands = Some h ↔
  ∃ pre rows post, cands = pre ++ (h, rows) :: post ∧ physical_match incoming rows
    ∧ ∀ c, c ∈ pre → ¬ physical_match incoming c.2.
Proof.
  rewrite fmap_Some. setoid_rewrite find_Some_split. setoid_rewrite physical_hit_spec.
  setoid_rewrite Forall_forall. setoid_rewrite <- list_elem_of_In.
  setoid_rewrite <- not_true_iff_false. setoid_rewrite physical_hit_spec.
  split.
  - intros ([h' rows] & (pre & post & -> & Hm & Hp) & ->). by exists pre, rows, post.
  - intros (pre & rows & post & -> & Hm & Hp). exists (h, rows). split; [|done]. by exists pre, post.
Qed.

Lemma find_floating incoming cands h :
  fst <$> List.find (virtual_hit (virtual_rows incoming)) (rev cands) = Some h ↔
  ∃ pre rows post, cands = pre ++ (h, rows) :: post ∧ floating_match incoming rows
    ∧ ∀ c, c ∈ post → ¬ floating_match incoming c.2.
Proof.
  rewrite fmap_Some. setoid_rewrite find_Some_split. setoid_rewrite virtual_hit_spec.
  setoid_rewrite Forall_forall. setoid_rewrite <- list_elem_of_In.
  setoid_rewrite <- not_true_iff_false. setoid_rewrite virtual_hit_spec.
  split.
  - intros ([h' rows] & (pre & post & Hr & Hm & Hp) & ->).
    exists (rev post), rows, (rev pre). split_and!; [|done|].
    + apply (f_equal (@rev _)) in Hr. rewrite rev_involutive, rev_app_distr in Hr. simpl in Hr.
      by rewrite <- app_assoc in Hr.
    + intros c Hc. apply Hp. by rewrite list_elem_of_In, in_rev, <- list_elem_of_In.
  - intros (pre & rows & post & -> & Hm & Hp). exists (h, rows). split; [|done].
    exists (rev post), (rev pre). split_and!; [|done|].
    + rewrite rev_app_distr. simpl. by rewrite <- app_assoc.
    + intros c Hc. apply Hp. by rewrite list_elem_of_In, in_rev, <- list_elem_of_In.
Qed.

Lemma select_matching_host_selects incoming cands h :
  select_matching_host incoming cands = Some h ↔ selects incoming cands h.
Proof.
  assert (selects incoming cands h → incoming ≠ [] ∧ cands ≠ []) as Hne.
  { intros (pre & rows & post & -> & [((i & Hi & _) & _)|(_ & (_ & i & _ & Hi & _) & _)]);
      (split; [intros ->; by apply not_elem_of_nil in Hi|by destruct pre]). }
  unfold select_matching_host.
  destruct incoming as [|i0 inc0]; [split; [done|by intros [? _]%Hne]|].
  destruct cands as [|c0 cs0]; [split; [done|by intros [_ ?]%Hne]|].
  clear Hne. generalize (i0 :: inc0) (c0 :: cs0). clear. intros incoming cands.
  pose proof (physical_rows_nil incoming) as Hphys.
  destruct (physical_rows incoming) as [|p ps] eqn:Ep.
  - assert (¬ is_physical incoming) as Hn by (by apply Hphys).
    assert ((match virtual_rows incoming with
             | [] => None
             | _ :: _ => fst <$> List.find (virtual_hit (virtual_rows incoming)) (rev cands)
             end) = Some h ↔
            ∃ pre rows post, cands = pre ++ (h, rows) :: post ∧ floating_match incoming rows
              ∧ ∀ c, c ∈ post → ¬ floating_match incoming c.2) as ->.
    { destruct (virtual_rows incoming) as [|v vs] eqn:Ev; [|rewrite <- Ev; apply find_floating].
      split; [done|]. intros (? & ? & ? & _ & Hf & _). by apply floating_match_rows in Hf. }
    unfold selects. naive_solver.
  - rewrite <- Ep, find_physical. assert (is_physical incoming) as Hy.
    { exists p. apply physical_rows_elem. rewrite Ep. by left. }
    unfold selects. naive_solver.
Qed.

(** C23. The matcher implements its two-pass rule, both ways: it returns a host
    exactly when the payload has a physical identity and that host is the oldest
    candidate one of its physical rows matches, or the payload is only floating
    virtual addresses and that host is the newest candidate without a real MAC
    that owns one of them. *)
Theorem select_matching_host_spec incoming cands h :
  select_matching_host incoming cands = Some h ↔
  ∃ pre rows post, cands = pre ++ (h, rows) :: post ∧
    ((is_physical incoming ∧ physical_match incoming rows
      ∧ ∀ c, c ∈ pre → ¬ physical_match incoming c.2)
     ∨ (¬ is_physical incoming ∧ floating_match incoming rows
        ∧ ∀ c, c ∈ post → ¬ floating_match incoming c.2)).
Proof. apply select_matching_host_selects. Qed.

(** The two physical peers of a redundancy group never merge.  A host that
    carries a real MAC outside loopback is never selected for a payload whose
    only agreements with it are on rows with a shared virtual-router MAC or on
    loopback rows, whatever the other candidates are. *)
Theorem peers_never_merge incoming cands h rows :
  NoDup cands.*1 → (h, rows) ∈ cands → host_is_physical rows = true →
  (∀ i e, i ∈ incoming → e ∈ rows →
     ip_addresses_match i e (mac_counts_for_payload (physical_rows incoming)) = true →
     should_skip_for_matching i = true ∨ should_skip_for_matching e = true) →
  select_matching_host incoming cands ≠ Some h.
Proof.
  intros Hnd Hin Hphys Hskip.
  intros (pre & rows' & post & E & Hcase)%select_matching_host_selects.
  assert (rows' = rows) as ->.
  { assert ((h, rows') ∈ cands) as Hin' by (rewrite E; apply elem_of_app; right; left).
    by injection (NoDup_key_inj fst cands _ _ Hnd Hin' Hin eq_refl). }
  destruct Hcase as [(_ & (i & e & Hi & He & Si & Se & Hm) & _)|(_ & (Hreal & _) & _)].
  - destruct (Hskip i e Hi He Hm); congruence.
  - apply host_is_physical_false in Hreal. congruence.
Qed.

(** ** The MAC counts *)

Lemma mac_counts_fold (macs : list Z) (acc : gmap Z nat) m :
  default 0%nat (foldl (λ (acc : gmap Z nat) mac, <[mac := S (default 0%nat (acc !! mac))]> acc) acc macs !! m)
  = (default 0%nat (acc !! m) + length (List.filter (Z.eqb m) macs))%nat.
Proof.
  revert acc. induction macs as [|x macs IH]; intros acc; simpl; [lia|].
  rewrite IH. destruct (Z.eqb_spec m x) as [->|Hne].
  - rewrite lookup_insert_eq. simpl. lia.
  - rewrite lookup_insert_ne by done. simpl. lia.
Qed.

Lemma mac_counts_spec payload m :
  default 0%nat (mac_counts_for_payload payload !! m)
  = length (List.filter (Z.eqb m) (omap (λ i, mac_address (ip_base i)) payload)).
Proof. unfold mac_counts_for_payload. rewrite mac_counts_fold, lookup_empty. done. Qed.

(** ** The candidate order *)

Lemma host_leb_total a b : host_leb a b = true ∨ host_leb b a = true.
Proof.
  unfold host_leb. rewrite !orb_true_iff, !andb_true_iff, !Z.ltb_lt, !Z.eqb_eq, !N.leb_le. lia.
Qed.

Lemma host_leb_trans a b c : host_leb a b = true → host_leb b c = true → host_leb a c = true.
Proof.
  unfold host_leb. rewrite !orb_true_iff, !andb_true_iff, !Z.ltb_lt, !Z.eqb_eq, !N.leb_le. lia.
Qed.

Lemma host_leb_antisym a b : host_leb a b = true → host_leb b a = true → h_id a = h_id b.
Proof.
  unfold host_leb. rewrite !orb_true_iff, !andb_true_iff, !Z.ltb_lt, !Z.eqb_eq, !N.leb_le. lia.
Qed.

Lemma sort_hosts_perm l1 l2 :
  NoDup (h_id <$> l1) → l1 ≡ₚ l2 → sort_by host_leb l1 = sort_by host_leb l2.
Proof.
  intros Hnd Hp. apply sort_by_perm_eq; eauto using host_leb_total, host_leb_trans.
  intros x y Hx Hy H1 H2. rewrite <- Hp in Hy. pose proof (host_leb_antisym _ _ H1 H2) as E.
  by eapply (NoDup_key_inj h_id).
Qed.

(** Which host a payload matches does not depend on the order the database
    returns the live hosts in: two enumerations of the same hosts give the same
    answer, hosts created at the same instant included. *)
Theorem find_matching_host_deterministic hosts1 hosts2 rows_of incoming :
  NoDup (h_id <$> hosts1) → hosts1 ≡ₚ hosts2 →
  find_matching_host_by_ip_addresses hosts1 rows_of incoming
  = find_matching_host_by_ip_addresses hosts2 rows_of incoming.
Proof.
  intros Hnd Hp. unfold find_matching_host_by_ip_addresses, host_candidates.
  rewrite (sort_hosts_perm hosts1 hosts2 Hnd Hp).
  destruct hosts1, hosts2; try done.
  - by apply Permutation_nil_l in Hp.
  - by apply Permutation_nil_r in Hp.
Qed.

(** A match is a live host with all of its rows: the host returned is one of
    the live hosts, the rows are exactly the rows stored for it, and it is the
    host the matcher selects among the candidates, oldest first. *)
Theorem find_matching_host_sound hosts rows_of incoming h rows :
  NoDup (h_id <$> hosts) →
  find_matching_host_by_ip_addresses hosts rows_of incoming = Some (h, rows) →
  h ∈ hosts ∧ rows = rows_of (h_id h) ∧ selects incoming (host_candidates hosts rows_of) (h_id h).
Proof.
  intros Hnd H. unfold find_matching_host_by_ip_addresses in H.
  assert (select_matching_host incoming (host_candidates hosts rows_of) ≫= (λ m,
    h ← List.find (λ h, (h_id h =? m)%N) (sort_by host_leb hosts);
    Some (h, default [] (snd <$> List.find (λ c, (c.1 =? m)%N) (host_candidates hosts rows_of))))
    = Some (h, rows)) as H'.
  { destruct incoming; [done|]. by destruct hosts. }
  clear H. apply bind_Some in H' as (m & Hm & (h' & Hf & [= -> <-])%bind_Some).
  apply find_some in Hf as [Hin Hid%N.eqb_eq]. subst m.
  rewrite <- list_elem_of_In, sort_by_perm in Hin.
  split_and!; [done| |by apply select_matching_host_selects].
  destruct (List.find _ (host_candidates hosts rows_of)) as [[x r]|] eqn:Ef; simpl.
  - apply find_some in Ef as [Hc Hx%N.eqb_eq]. simpl in Hx. subst x.
    apply list_elem_of_In, list_elem_of_fmap in Hc as (h'' & [= E ->] & _). by rewrite E.
  - exfalso. eapply find_none in Ef; [|apply list_elem_of_In, list_elem_of_fmap; exists h;
      split; [done|by rewrite sort_by_perm]]. simpl in Ef. by rewrite N.eqb_refl in Ef.
Qed.

(** ** Repairs *)

Lemma max_by_key_from_spec {A} (key : A → Z) best l :
  let x := max_by_key_from key best l in
  x ∈ best :: l ∧ ∀ y, y ∈ best :: l → key y ≤ key x.
Proof.
  revert best. induction l as [|a l IH]; intros best; simpl.
  - split; [by left|]. by intros y ->%list_elem_of_singleton.
  - destruct (IH (if key best <=? key a then a else best)) as [Hin Hmax]. split.
    + apply elem_of_cons in Hin as [->|Hin]; [|by do 2 right]. destruct (_ <=? _); [right|]; left.
    + intros y Hy. pose proof (Hmax _ (list_elem_of_here _ _)) as Hb.
      apply elem_of_cons in Hy as [->|[->|Hy]%elem_of_cons]; [| |apply Hmax; by right];
        (destruct (key best <=? key a) eqn:E; bool_hyps; lia).
Qed.

Lemma max_by_key_spec {A} (key : A → Z) l x :
  max_by_key key l = Some x → x ∈ l ∧ ∀ y, y ∈ l → key y ≤ key x.
Proof. destruct l as [|a l]; [done|]. intros [= <-]. apply max_by_key_from_spec. Qed.

(** A dangling subnet reference is repaired to the most specific live subnet:
    the repair happens exactly when the id names no live subnet and some live
    subnet contains the address, and it then picks one that contains the address
    and whose prefix no other containing subnet exceeds. *)
Theorem resolve_dangling_subnet_spec live sid ip :
  (resolve_dangling_subnet_id live sid ip ≠ None ↔
     (∀ s, s ∈ live → s_id s ≠ sid)
     ∧ ∃ s, s ∈ live ∧ cidr_contains (cidr (s_base s)) ip = true)
  ∧ ∀ r, resolve_dangling_subnet_id live sid ip = Some r →
      ∃ s, s ∈ live ∧ s_id s = r ∧ cidr_contains (cidr (s_base s)) ip = true
        ∧ ∀ s', s' ∈ live → cidr_contains (cidr (s_base s')) ip = true →
            cidr_prefix (cidr (s_base s')) ≤ cidr_prefix (cidr (s_base s)).
Proof.
  unfold resolve_dangling_subnet_id.
  destruct (existsb (λ s, (s_id s =? sid)%N) live) eqn:Ex.
  - split; [|done]. split; [done|]. intros [Hno _].
    apply existsb_elem in Ex as (s & Hs & E%N.eqb_eq). by destruct (Hno s Hs).
  - pose proof (proj1 (existsb_elem_false _ _) Ex) as Hno.
    setoid_rewrite N.eqb_neq in Hno.
    set (cs := List.filter (λ s, cidr_contains (cidr (s_base s)) ip) live).
    assert (∀ s, s ∈ cs ↔ cidr_contains (cidr (s_base s)) ip = true ∧ s ∈ live) as Hcs
      by (intros s; exact (elem_of_list_filter_bool _ _ _)).
    split.
    + split.
      * intros H. split; [done|]. destruct cs as [|s cs'] eqn:E; [done|].
        exists s. assert (s ∈ s :: cs') as Hs by left. apply Hcs in Hs. tauto.
      * intros [_ (s & Hs & Hc)]. destruct cs as [|s0 cs'] eqn:E; [|done].
        assert (s ∈ []) as Hin by (by apply Hcs). by apply not_elem_of_nil in Hin.
    + intros r (s & Hmax & ->)%fmap_Some. apply max_by_key_spec in Hmax as [Hin Hmax].
      apply Hcs in Hin as [Hc Hin]. exists s. split_and!; try done.
      intros s' Hs' Hc'. apply Hmax. by apply Hcs.
Qed.

Lemma remap_ip_id_elem daemon_ips created d x :
  remap_ip_id daemon_ips created d = Some x →
  ∃ ip row, (d, ip) ∈ daemon_ips ∧ row ∈ created ∧ ip_id row = x ∧ ip_address (ip_base row) = ip.
Proof.
  unfold remap_ip_id. intros (ip & Hip & Hrow)%bind_Some.
  apply fmap_Some in Hip as ([d' ip'] & Hf & ->). apply find_some in Hf as [Hin E%N.eqb_eq].
  apply fmap_Some in Hrow as (row & Hf & ->). apply find_some in Hf as [Hr Ea].
  apply bool_decide_eq_true in Ea. simpl in *. subst d'. exists ip', row.
  by rewrite !list_elem_of_In.
Qed.

(** A scoped credential assignment never ends up matching nothing.  After
    the remap a scope is empty only if it was empty before, an assignment without
    a scope keeps none, every id of the new scope is a stored row whose address
    is one the daemon reported under an id of the old scope, and each old id that
    resolves is represented. *)
Theorem remap_assignment_never_empties daemon_ips created a :
  let r := remap_assignment_ip_ids daemon_ips created a in
  credential_id r = credential_id a
  ∧ (ip_address_ids r = Some [] ↔ ip_address_ids a = Some [])
  ∧ (ip_address_ids a = None → ip_address_ids r = None)
  ∧ ∀ ids ids', ip_address_ids a = Some ids → ip_address_ids r = Some ids' →
      (∀ x, x ∈ ids' → ∃ d ip row, d ∈ ids ∧ (d, ip) ∈ daemon_ips ∧ row ∈ created
                       ∧ ip_id row = x ∧ ip_address (ip_base row) = ip)
      ∧ (∀ d x, d ∈ ids → remap_ip_id daemon_ips created d = Some x → x ∈ ids').
Proof.
  unfold remap_assignment_ip_ids. destruct a as [cid [ids|]]; simpl; [|by repeat split].
  assert (∀ x, x ∈ omap (remap_ip_id daemon_ips created) ids ↔
               ∃ d, d ∈ ids ∧ remap_ip_id daemon_ips created d = Some x) as Hom
    by (intros x; apply list_elem_of_omap).
  split; [done|]. split.
  { destruct ids as [|d ids]; simpl in *; [done|].
    destruct (match remap_ip_id daemon_ips created d with Some y => _ | None => _ end); naive_solver. }
  split; [done|]. intros ids0 ids' [= <-] E.
  assert (ids' = omap (remap_ip_id daemon_ips created) ids) as ->.
  { destruct (omap (remap_ip_id daemon_ips created) ids), ids; simpl in *; by simplify_eq. }
  split.
  - intros x (d & Hd & Hx)%Hom. apply remap_ip_id_elem in Hx as (ip & row & ? & ? & ? & ?).
    by exists d, ip, row.
  - intros d x Hd Hx. apply Hom. eauto.
Qed.

(** ** Witnesses *)

Definition demo_row (id host : Uuid) (last : Z) (mac : option MacAddress) : IPAddress :=
  {| ip_id := id; ip_meta := fresh_meta 0;
     ip_base := {| ip_network_id := 1; ip_host_id := host; subnet_id := 3;
                   ip_address := ipv4 10 0 0 last; mac_address := mac; ip_name := None;
                   ip_position := 0 |} |}.

(** Two routers share the virtual address 10.0.0.254; the second one reports. *)
Definition demo_vip (id host : Uuid) : IPAddress := demo_row id host 254 (Some 0x00005e000101).
Definition demo_peer : Uuid * list IPAddress :=
  (7%N, [demo_row 1 7 1 (Some 0x001122334455); demo_vip 2 7]).
Definition demo_payload : list IPAddress := [demo_row 3 8 2 (Some 0x001122334466); demo_vip 4 8].

Lemma peers_never_merge_witness : select_matching_host demo_payload [demo_peer] ≠ Some 7%N.
Proof.
  apply (peers_never_merge demo_payload [demo_peer] 7 (snd demo_peer)).
  - by apply (bool_decide_unpack (NoDup [7%N])).
  - left.
  - by vm_compute.
  - intros i e Hi He.
    repeat (apply elem_of_cons in Hi as [->|Hi]); [..|by apply not_elem_of_nil in Hi];
      repeat (apply elem_of_cons in He as [->|He]); try by apply not_elem_of_nil in He.
    all: vm_compute; intuition congruence.
Defined.

Definition demo_host_at (id : Uuid) : HostRow := host_new id 5 default_host_base.

Lemma find_matching_host_deterministic_witness :
  find_matching_host_by_ip_addresses [demo_host_at 9; demo_host_at 7] (λ _, [demo_row 1 7 1 None])
    [demo_row 3 8 1 None]
  = find_matching_host_by_ip_addresses [demo_host_at 7; demo_host_at 9] (λ _, [demo_row 1 7 1 None])
    [demo_row 3 8 1 None].
Proof.
  apply (find_matching_host_deterministic [demo_host_at 9; demo_host_at 7]
    [demo_host_at 7; demo_host_at 9]); [|apply perm_swap].
  by apply (bool_decide_unpack (NoDup [9%N; 7%N])).
Defined.

Lemma find_matching_host_sound_witness : demo_host_at 7 ∈ [demo_host_at 9; demo_host_at 7].
Proof.
  apply (find_matching_host_sound [demo_host_at 9; demo_host_at 7] (λ _, [demo_row 1 7 1 None])
    [demo_row 3 8 1 None] (demo_host_at 7) [demo_row 1 7 1 None]); [|by vm_compute].
  by apply (bool_decide_unpack (NoDup [9%N; 7%N])).
Defined.

Definition demo_subnet (id : Uuid) (prefix : Z) : Subnet :=
  {| s_id := id; s_meta := fresh_meta 0;
     s_base := {| cidr := {| cidr_addr := ipv4 10 0 0 0; cidr_prefix := prefix |}; s_network_id := 1;
                  s_name := "lan"; s_description := None; subnet_type := SLan;
                  s_virtualization_service_id := None; s_source := SourceManual; s_tags := [] |} |}.

Lemma resolve_dangling_subnet_witness :
  resolve_dangling_subnet_id [demo_subnet 1 8; demo_subnet 2 24] 77 (ipv4 10 0 0 9) = Some 2%N
  ∧ ∃ s, s ∈ [demo_subnet 1 8; demo_subnet 2 24] ∧ s_id s = 2%N.
Proof.
  split; [by vm_compute|].
  destruct (proj2 (resolve_dangling_subnet_spec [demo_subnet 1 8; demo_subnet 2 24] 77
    (ipv4 10 0 0 9)) 2%N ltac:(by vm_compute)) as (s & Hs & E & _). by exists s.
Defined.

Lemma remap_assignment_witness :
  ip_address_ids (remap_assignment_ip_ids [(5%N, ipv4 10 0 0 1)] [demo_row 1 7 1 None]
    {| credential_id := 1; ip_address_ids := Some [5%N; 6%N] |}) = Some [1%N]
  ∧ ∃ d ip row, d ∈ [5%N; 6%N] ∧ (d, ip) ∈ [(5%N, ipv4 10 0 0 1)] ∧ row ∈ [demo_row 1 7 1 None]
      ∧ ip_id row = 1%N ∧ ip_address (ip_base row) = ip.
Proof.
  split; [by vm_compute|].
  destruct (remap_assignment_never_empties [(5%N, ipv4 10 0 0 1)] [demo_row 1 7 1 None]
    {| credential_id := 1; ip_address_ids := Some [5%N; 6%N] |}) as (_ & _ & _ & H).
  apply (proj1 (H [5%N; 6%N] [1%N] eq_refl ltac:(by vm_compute))). left.
Defined.
