(* ===== verification/Subnets.v ===== *)
(** Subnets: classification, derivation from interfaces, and deduplication.

    [SubnetType] of [server/subnets/impl/types.rs], [Subnet] of
    [server/subnets/impl/base.rs] and [SubnetService::create] of
    [server/subnets/service.rs].  Interface names are byte strings; the full
    Unicode lower-casing of the source agrees with the ASCII one on what the
    classification reads (no other character lower-cases into a pattern followed
    by a digit or the end). *)

From Stdlib Require Import Ascii.
From S2P Require Import Prelude Net Entities Lldp Hosts.
Local Open Scope Z_scope.

#[export] Instance IpCidr_eq_dec : EqDecision IpCidr.
Proof. solve_decision. Defined.

(** ** [SubnetType] *)

Definition subnet_type_from_str (s : string) : SubnetType :=
  match s with
  | "Internet" => SInternet | "Remote" => SRemote | "Gateway" => SGateway
  | "VpnTunnel" => SVpnTunnel | "Dmz" => SDmz | "Lan" => SLan | "WiFi" => SWiFi | "IoT" => SIoT
  | "Guest" => SGuest | "DockerBridge" => SDockerBridge | "PodmanBridge" => SPodmanBridge
  | "MacVlan" => SMacVlan | "IpVlan" => SIpVlan | "Management" => SManagement
  | "Storage" => SStorage | "Loopback" => SLoopback
  | _ => SUnknown
  end%string.

(** The name a variant is stored under ([IntoStaticStr]). *)
Definition subnet_type_id (t : SubnetType) : string :=
  match t with
  | SInternet => "Internet" | SRemote => "Remote" | SGateway => "Gateway"
  | SVpnTunnel => "VpnTunnel" | SDmz => "Dmz" | SLan => "Lan" | SWiFi => "WiFi" | SIoT => "IoT"
  | SGuest => "Guest" | SDockerBridge => "DockerBridge" | SPodmanBridge => "PodmanBridge"
  | SMacVlan => "MacVlan" | SIpVlan => "IpVlan" | SManagement => "Management"
  | SStorage => "Storage" | SLoopback => "Loopback" | SUnknown => "Unknown"
  end%string.

Definition is_container_network (t : SubnetType) : bool :=
  match t with SDockerBridge | SPodmanBridge | SMacVlan | SIpVlan => true | _ => false end.
Definition is_container_bridge (t : SubnetType) : bool :=
  match t with SDockerBridge | SPodmanBridge => true | _ => false end.
Definition type_is_loopback (t : SubnetType) : bool :=
  match t with SLoopback => true | _ => false end.
Definition is_vlan_network (t : SubnetType) : bool :=
  match t with SMacVlan | SIpVlan => true | _ => false end.
Definition synthetic_categories : list SubnetType := [SInternet; SRemote; SLoopback].
Definition is_synthetic_category (t : SubnetType) : bool :=
  bool_decide (t ∈ synthetic_categories).
Definition container_runtime_label (t : SubnetType) : option string :=
  match t with SDockerBridge => Some "Docker" | SPodmanBridge => Some "Podman" | _ => None end%string.

(** The rest of a name after a pattern is empty or starts with a digit. *)
Definition ends_or_digit (rest : string) : bool :=
  match rest with
  | EmptyString => true
  | String c _ => let n := Ascii.nat_of_ascii c in (48 <=? n)%nat && (n <=? 57)%nat
  end.

Fixpoint strip_prefix (p s : string) : option string :=
  match p, s with
  | EmptyString, _ => Some s
  | String a p', String b s' => if Ascii.eqb a b then strip_prefix p' s' else None
  | _, _ => None
  end.

Definition match_interface_names (patterns : list string) (name_lower : string) : bool :=
  existsb (λ p, match strip_prefix p name_lower with
                | Some rest => ends_or_digit rest
                | None => false
                end) patterns.

Definition interface_patterns : list (list string * SubnetType) := [
  (["lo"], SLoopback);
  (["tun"; "utun"; "wg"; "tap"; "ppp"; "vpn"], SVpnTunnel);
  (["wlan"; "wifi"; "wl"], SWiFi);
  (["guest"], SGuest);
  (["iot"], SIoT);
  (["dmz"], SDmz);
  (["mgmt"; "ipmi"; "bmc"], SManagement);
  (["iscsi"; "san"; "storage"], SStorage);
  (["eth"; "en"; "eno"; "enp"; "ens"; "br"; "lan"], SLan)]%string.

Definition by_patterns (name_lower : string) : option SubnetType :=
  snd <$> List.find (λ e, match_interface_names e.1 name_lower) interface_patterns.

(** On a name already lower-cased; a [br-] prefix is skipped. *)
Fixpoint from_lower_name (s : string) : SubnetType :=
  match by_patterns s with
  | Some t => t
  | None =>
      match s with
      | String "b"%char (String "r"%char (String "-"%char bridged)) =>
          match bridged with EmptyString => SUnknown | _ => from_lower_name bridged end
      | _ => SUnknown
      end
  end.

Definition from_interface_name (name : string) : SubnetType := from_lower_name (to_lowercase name).

(** ** [Subnet] *)

Definition subnet_new (id : Uuid) (now : DateTime) (base : SubnetBase) : Subnet :=
  {| s_id := id; s_meta := fresh_meta now; s_base := base |}.

Definition subnet_eqb (a b : Subnet) : bool :=
  (bool_decide (cidr (s_base a) = cidr (s_base b)) && (s_network_id (s_base a) =? s_network_id (s_base b))%N)
  || (s_id a =? s_id b)%N.

Definition is_discovery (s : EntitySource) : bool :=
  match s with SourceDiscovery => true | _ => false end.

Definition corrects_container_bridge_guess (s existing : Subnet) : bool :=
  is_discovery (s_source (s_base existing)) && is_discovery (s_source (s_base s))
  && is_container_bridge (subnet_type (s_base existing))
  && bool_decide (s_virtualization_service_id (s_base existing) = None)
  && negb (is_container_bridge (subnet_type (s_base s))).

Definition is_organizational_subnet (s : Subnet) : bool :=
  bool_decide (cidr (s_base s) = {| cidr_addr := V4 0; cidr_prefix := 0 |}).

Definition is_user_managed (s : Subnet) : bool :=
  match s_source (s_base s) with SourceManual => true | _ => false end
  || negb (is_synthetic_category (subnet_type (s_base s))).

Definition has_interface_with_service (s : Subnet) (host_ips : list IPAddress) (sv : Service) : bool :=
  existsb (λ b, existsb (λ i,
    match ip_address_id b with Some id => (ip_id i =? id)%N | None => true end
    && (subnet_id (ip_base i) =? s_id s)%N) host_ips) (bindings (sv_base sv)).

(** [pnet]'s [IpNetwork]: an address with a prefix; the network address clears the
    host bits. *)
Inductive IpNetwork := NetV4 (ip prefix : Z) | NetV6 (ip prefix : Z).

Definition network_v4 (ip prefix : Z) : Z := Z.shiftl (Z.shiftr ip (32 - prefix)) (32 - prefix).

(** [Ipv4Cidr::new]: the prefix is a length and the host part is zero. *)
Definition ipv4_cidr_new (addr prefix : Z) : option IpCidr :=
  if (prefix <=? 32) && (network_v4 addr prefix =? addr)
  then Some {| cidr_addr := V4 addr; cidr_prefix := prefix |} else None.

Definition subnet_type_on (interface_name : string) (ip : Z) : SubnetType :=
  let t := from_interface_name interface_name in
  if type_is_loopback t && negb (octet ip 0 =? 127) then SUnknown else t.

Section FromDiscovery.
(** Display of a network, which names the subnet. *)
Context (cidr_text : IpCidr → string).

Definition subnet_from_discovery (id : Uuid) (now : DateTime) (interface_name : string)
    (net : IpNetwork) (network_id : Uuid) : option Subnet :=
  match net with
  | NetV6 _ _ => None
  | NetV4 ip prefix =>
      let t := subnet_type_on interface_name ip in
      let target :=
        if prefix =? 32 then
          match t with
          | SVpnTunnel => Some (octet ip 0 * 2 ^ 24 + octet ip 1 * 2 ^ 16 + octet ip 2 * 2 ^ 8, 24)
          | _ => None
          end
        else Some (network_v4 ip prefix, prefix) in
      '(addr, len) ← target;
      c ← ipv4_cidr_new addr len;
      Some (subnet_new id now {|
        cidr := c; s_network_id := network_id; s_name := cidr_text c; s_description := None;
        subnet_type := t; s_virtualization_service_id := None; s_source := SourceDiscovery;
        s_tags := [] |})
  end.
End FromDiscovery.

(** ** [SubnetService::create] *)

(** Whether an incoming subnet is the stored one. *)
Definition same_subnet (s existing : Subnet) : bool :=
  subnet_eqb s existing
  && match s_source (s_base existing), s_source (s_base s) with
     | SourceDiscovery, SourceDiscovery =>
         if is_container_bridge (subnet_type (s_base s))
            && is_container_bridge (subnet_type (s_base existing))
         then match s_virtualization_service_id (s_base s),
                    s_virtualization_service_id (s_base existing) with
              | Some a, Some b => (a =? b)%N
              | _, _ => true
              end
         else true
     | SourceSystem, _ | _, SourceSystem => false
     | _, _ => true
     end.

Definition set_subnet_type (t : SubnetType) (b : SubnetBase) : SubnetBase := {|
  cidr := cidr b; s_network_id := s_network_id b; s_name := s_name b;
  s_description := s_description b; subnet_type := t;
  s_virtualization_service_id := s_virtualization_service_id b; s_source := s_source b;
  s_tags := s_tags b |}.

(** What a match writes: freshness, and a repaired type. *)
Definition refresh_subnet (s existing : Subnet) : Subnet := {|
  s_id := s_id existing; s_meta := touch_last_seen (last_seen_at (s_meta s)) (s_meta existing);
  s_base := if corrects_container_bridge_guess s existing
            then set_subnet_type (subnet_type (s_base s)) (s_base existing) else s_base existing |}.

Definition originate_meta (m : RowMeta) : RowMeta := {|
  created_at := last_seen_at m; updated_at := updated_at m; Entities.valid_from := last_seen_at m;
  valid_to := valid_to m; lineage_id := lineage_id m; last_seen_at := last_seen_at m;
  last_discovery_id := last_discovery_id m; first_discovery_id := first_discovery_id m |}.

Definition store_subnet (s : Subnet) (l : list Subnet) : list Subnet :=
  (λ r, if (s_id r =? s_id s)%N then s else r) <$> l.

(** [rows] are the live subnets, as the query returns them. *)
Definition create_subnet (new_id : Uuid) (now : DateTime) (s : Subnet) (rows : list Subnet)
    : Subnet * list Subnet :=
  let all := List.filter (λ r, (s_network_id (s_base r) =? s_network_id (s_base s))%N) rows in
  let s := if (s_id s =? uuid_nil)%N then subnet_new new_id now (s_base s) else s in
  match List.find (same_subnet s) all with
  | Some existing => let r := refresh_subnet s existing in (r, store_subnet r rows)
  | None =>
      let s := {| s_id := s_id s; s_meta := originate_meta (s_meta s); s_base := s_base s |} in
      (s, rows ++ [s])
  end.

(** ** Classification *)

Lemma subnet_type_roundtrip t : subnet_type_from_str (subnet_type_id t) = t.
Proof. by destruct t. Qed.

Lemma by_patterns_elem s t : by_patterns s = Some t → t ∈ interface_patterns.*2.
Proof.
  unfold by_patterns. intros (e & [He _]%find_elem & ->)%fmap_Some.
  apply list_elem_of_fmap. eauto.
Qed.

(** Case analysis of the classifier: a pattern, or a bridge's suffix. *)
Lemma from_lower_bridge n : from_lower_name ("br-" +:+ n) = from_lower_name n.
Proof.
  transitivity (match n with EmptyString => SUnknown | _ => from_lower_name n end); [|by destruct n].
  simpl. unfold by_patterns, match_interface_names. simpl. done.
Qed.

Lemma to_lowercase_app a b : to_lowercase (a +:+ b) = to_lowercase a +:+ to_lowercase b.
Proof. induction a as [|c a IH]; [done|]. simpl. by rewrite IH. Qed.

Lemma from_interface_name_container name : is_container_network (from_interface_name name) = false.
Proof.
  unfold from_interface_name. generalize (to_lowercase name) as s. intros s.
  remember (String.length s) as n eqn:Hn. revert s Hn.
  induction n as [n IH] using lt_wf_ind. intros s ->.
  assert (∀ t, by_patterns s = Some t → is_container_network t = false) as Hp.
  { intros t Ht%by_patterns_elem. simpl in Ht. set_solver. }
  destruct s as [|c1 s]; [done|].
  cbn [from_lower_name]. destruct (by_patterns _) as [t|] eqn:E; [by apply Hp|].
  repeat (case_match; try done). subst. eapply IH; [|done]. simpl. lia.
Qed.

(** A name is only a guess: it never makes a subnet a container network, so
    that verdict comes from a container runtime alone; and a bridge [br-n] is
    classified as the network [n] it bridges, however often it is bridged. *)
Theorem from_interface_name_spec name :
  is_container_network (from_interface_name name) = false
  ∧ from_interface_name ("br-" +:+ name) = from_interface_name name.
Proof.
  split; [apply from_interface_name_container|].
  unfold from_interface_name. rewrite to_lowercase_app. apply from_lower_bridge.
Qed.

(** ** Deriving a subnet from an interface *)

Lemma network_v4_shiftr ip p : 0 ≤ p ≤ 32 → Z.shiftr (network_v4 ip p) (32 - p) = Z.shiftr ip (32 - p).
Proof.
  intros Hp. unfold network_v4. rewrite Z.shiftr_shiftl_l by lia. by rewrite Z.sub_diag, Z.shiftl_0_r.
Qed.

Lemma network_v4_idem ip p : 0 ≤ p ≤ 32 → network_v4 (network_v4 ip p) p = network_v4 ip p.
Proof. intros Hp. unfold network_v4 at 1. by rewrite network_v4_shiftr. Qed.

Lemma cut_low_octet ip : 0 ≤ ip < 2 ^ 32 →
  octet ip 0 * 2 ^ 24 + octet ip 1 * 2 ^ 16 + octet ip 2 * 2 ^ 8 = network_v4 ip 24.
Proof.
  intros Hip. unfold network_v4. rewrite !octet_div by lia.
  rewrite Z.shiftl_mul_pow2, Z.shiftr_div_pow2 by lia.
  change (2 ^ 32) with 4294967296 in Hip. change (2 ^ (24 - 8 * 0)) with 16777216.
  change (2 ^ (24 - 8 * 1)) with 65536. change (2 ^ (24 - 8 * 2)) with 256. change (2 ^ (32 - 24)) with 256.
  assert (ip / 65536 = ip / 256 / 256) as -> by (rewrite Z.div_div by lia; done).
  assert (ip / 16777216 = ip / 256 / 256 / 256) as -> by (rewrite !Z.div_div by lia; done).
  rewrite (Z.mod_small (ip / 256 / 256 / 256)) by (rewrite !Z.div_div by lia; split;
    [apply Z.div_pos; lia|apply Z.div_lt_upper_bound; lia]).
  pose proof (Z.div_mod (ip / 256) 256). pose proof (Z.div_mod (ip / 256 / 256) 256). lia.
Qed.

Lemma ipv4_cidr_new_network ip p : 0 ≤ p ≤ 32 →
  ipv4_cidr_new (network_v4 ip p) p = Some {| cidr_addr := V4 (network_v4 ip p); cidr_prefix := p |}.
Proof.
  intros Hp. unfold ipv4_cidr_new. rewrite network_v4_idem, Z.eqb_refl by done.
  by destruct (Z.leb_spec p 32); [|lia].
Qed.

(** The network an interface is on, as the classifier settles it. *)
Lemma subnet_from_discovery_eq cidr_text id now name ip prefix nid :
  0 ≤ ip < 2 ^ 32 → 0 ≤ prefix ≤ 32 →
  let len := if prefix =? 32 then 24 else prefix in
  subnet_from_discovery cidr_text id now name (NetV4 ip prefix) nid
  = if (prefix =? 32) && negb (bool_decide (subnet_type_on name ip = SVpnTunnel)) then None
    else let c := {| cidr_addr := V4 (network_v4 ip len); cidr_prefix := len |} in
         Some (subnet_new id now {| cidr := c; s_network_id := nid; s_name := cidr_text c;
           s_description := None; subnet_type := subnet_type_on name ip;
           s_virtualization_service_id := None; s_source := SourceDiscovery; s_tags := [] |}).
Proof.
  intros Hip Hp len. unfold subnet_from_discovery, len. cbv zeta. rewrite cut_low_octet by done.
  generalize (subnet_type_on name ip) as t. intros t. destruct (Z.eqb_spec prefix 32) as [->|Hne].
  - pose proof (ipv4_cidr_new_network ip 24 ltac:(lia)) as Hc.
    destruct t; cbn [andb negb]; try (rewrite bool_decide_eq_false_2 by done; reflexivity).
    rewrite bool_decide_eq_true_2 by done. cbn [negb mbind option_bind]. rewrite Hc. reflexivity.
  - cbn [andb mbind option_bind]. rewrite ipv4_cidr_new_network by done. reflexivity.
Qed.

Lemma subnet_type_on_loopback name ip : subnet_type_on name ip = SLoopback → octet ip 0 = 127.
Proof.
  unfold subnet_type_on. generalize (from_interface_name name) as t. intros t.
  destruct (Z.eqb_spec (octet ip 0) 127) as [|_]; [done|]. by destruct t.
Qed.

Lemma subnet_type_on_container name ip : is_container_network (subnet_type_on name ip) = false.
Proof. unfold subnet_type_on. destruct (_ && _); [done|apply from_interface_name_container]. Qed.

(** A subnet derived from an interface is a real network around its address:
    the address lies in it, its own address has no host bits and it is not a
    single address; only a tunnel is widened from one; a loopback subnet is in
    127.0.0.0/8.  The only interfaces that give none are single addresses that
    are not tunnels, and IPv6. *)
Theorem subnet_from_discovery_spec cidr_text id now name ip prefix nid :
  0 ≤ ip < 2 ^ 32 → 0 ≤ prefix ≤ 32 →
  (subnet_from_discovery cidr_text id now name (NetV4 ip prefix) nid = None
   ↔ prefix = 32 ∧ subnet_type_on name ip ≠ SVpnTunnel)
  ∧ ∀ s, subnet_from_discovery cidr_text id now name (NetV4 ip prefix) nid = Some s →
      let b := s_base s in
      cidr_contains (cidr b) (V4 ip) = true
      ∧ 0 ≤ cidr_prefix (cidr b) < 32
      ∧ (∃ a, cidr_addr (cidr b) = V4 a ∧ network_v4 a (cidr_prefix (cidr b)) = a)
      ∧ (prefix = 32 → subnet_type b = SVpnTunnel)
      ∧ (subnet_type b = SLoopback → octet ip 0 = 127)
      ∧ is_container_network (subnet_type b) = false
      ∧ s_network_id b = nid.
Proof.
  intros Hip Hp. rewrite subnet_from_discovery_eq by done.
  set (len := if prefix =? 32 then 24 else prefix).
  assert (0 ≤ len < 32) as Hlen by (unfold len; destruct (Z.eqb_spec prefix 32); lia).
  destruct ((prefix =? 32) && _) eqn:E; cbv zeta; (split; [split|]).
  - intros _. apply andb_true_iff in E as [E%Z.eqb_eq F%negb_true_iff%bool_decide_eq_false]. done.
  - done.
  - intros s [=].
  - intros [=].
  - intros [-> Ht]. by rewrite bool_decide_eq_false_2 in E.
  - intros s [= <-]. cbn [s_base cidr subnet_type s_network_id cidr_prefix cidr_addr subnet_new].
    split; [|split; [exact Hlen|split; [|split; [|split; [|split; [|reflexivity]]]]]].
    + apply Z.eqb_eq. symmetry. apply (network_v4_shiftr ip len). lia.
    + eexists. split; [reflexivity|]. apply (network_v4_idem ip len). lia.
    + intros ->. rewrite Z.eqb_refl in E. by apply negb_false_iff, bool_decide_eq_true in E.
    + apply subnet_type_on_loopback.
    + apply subnet_type_on_container.
Qed.

(** ** Deduplication *)

Lemma store_subnet_ids s l : s_id <$> store_subnet s l = s_id <$> l.
Proof.
  unfold store_subnet. rewrite <- list_fmap_compose. apply list_fmap_ext. intros i r _. simpl.
  destruct (N.eqb_spec (s_id r) (s_id s)); done.
Qed.

Lemma refresh_subnet_base s e :
  s_base (refresh_subnet s e)
  = if corrects_container_bridge_guess s e then set_subnet_type (subnet_type (s_base s)) (s_base e)
    else s_base e.
Proof. done. Qed.

(** The identity of a container bridge: network, range and owning runtime. *)
Definition bridge_key (s : Subnet) : option (Uuid * IpCidr * Uuid) :=
  let b := s_base s in
  if is_discovery (s_source b) && is_container_bridge (subnet_type b) then
    o ← s_virtualization_service_id b; Some (s_network_id b, cidr b, o)
  else None.

Lemma bridge_key_Some s k :
  bridge_key s = Some k ↔ is_discovery (s_source (s_base s)) = true
    ∧ is_container_bridge (subnet_type (s_base s)) = true
    ∧ s_virtualization_service_id (s_base s) = Some k.2
    ∧ s_network_id (s_base s) = k.1.1 ∧ cidr (s_base s) = k.1.2.
Proof.
  unfold bridge_key. destruct k as [[n c] o]. simpl.
  destruct (is_discovery _), (is_container_bridge _), (s_virtualization_service_id _); naive_solver.
Qed.

(** A match never changes which bridge a row is. *)
Lemma refresh_bridge_key s e : bridge_key (refresh_subnet s e) = bridge_key e.
Proof.
  unfold bridge_key. rewrite refresh_subnet_base.
  destruct (corrects_container_bridge_guess s e) eqn:E; [|done].
  unfold corrects_container_bridge_guess in E. repeat (apply andb_true_iff in E as [E ?]). simpl.
  assert (s_virtualization_service_id (s_base e) = None) as ->
    by (eapply bool_decide_eq_true; eassumption).
  by destruct (_ && _), (_ && _).
Qed.

Lemma same_key_same_subnet s e k : bridge_key s = Some k → bridge_key e = Some k → same_subnet s e = true.
Proof.
  intros (Hs & Bs & Os & Ns & Cs)%bridge_key_Some (He & Be & Oe & Ne & Ce)%bridge_key_Some.
  unfold same_subnet, subnet_eqb. rewrite Ns, Ne, N.eqb_refl, bool_decide_eq_true_2 by congruence. simpl.
  destruct (s_source (s_base e)); try done. destruct (s_source (s_base s)); try done.
  by rewrite Bs, Be, Os, Oe, N.eqb_refl.
Qed.

(** What one call does: it refreshes the first row that is the same subnet, or
    appends. *)
Lemma create_subnet_cases new_id now s rows :
  s_id s ≠ uuid_nil →
  let s' := {| s_id := s_id s; s_meta := originate_meta (s_meta s); s_base := s_base s |} in
  (∃ e, e ∈ rows ∧ s_network_id (s_base e) = s_network_id (s_base s) ∧ same_subnet s e = true
        ∧ create_subnet new_id now s rows
          = (refresh_subnet s e, store_subnet (refresh_subnet s e) rows))
  ∨ ((∀ e, e ∈ rows → s_network_id (s_base e) = s_network_id (s_base s) → same_subnet s e = false)
     ∧ create_subnet new_id now s rows = (s', rows ++ [s'])).
Proof.
  intros Hid s'. unfold create_subnet. cbv zeta.
  assert (s_id s =? uuid_nil = false)%N as -> by (by apply N.eqb_neq).
  destruct (List.find _ _) as [e|] eqn:Ef; [left|right].
  - apply find_elem in Ef as [[Hn%N.eqb_eq He]%elem_of_list_filter_bool Hs]. by exists e.
  - split; [|done]. intros e He Hn.
    rewrite find_None_Forall, Forall_forall in Ef.
    apply Ef, list_elem_of_In, elem_of_list_filter_bool. by rewrite N.eqb_eq.
Qed.

Lemma store_refresh_keys s e rows :
  NoDup (s_id <$> rows) → e ∈ rows →
  omap bridge_key (store_subnet (refresh_subnet s e) rows) = omap bridge_key rows.
Proof.
  intros Hnd He. unfold store_subnet. apply omap_fmap_same. intros x Hx. simpl.
  destruct (N.eqb_spec (s_id x) (s_id e)) as [E|]; [|done].
  rewrite (NoDup_key_inj s_id rows x e Hnd Hx He E). apply refresh_bridge_key.
Qed.

Lemma create_subnet_keys new_id now s rows :
  NoDup (s_id <$> rows) → NoDup (omap bridge_key rows) → s_id s ≠ uuid_nil →
  NoDup (omap bridge_key (create_subnet new_id now s rows).2).
Proof.
  intros Hnd Hk Hid.
  destruct (create_subnet_cases new_id now s rows Hid) as [(e & He & Hn & Hs & E)|[Hno E]];
    rewrite E; simpl; [by rewrite store_refresh_keys|].
  rewrite omap_app. simpl. destruct (bridge_key _) as [k|] eqn:Ek; simpl; [|by rewrite app_nil_r].
  apply list.NoDup_app. split; [done|]. split; [|apply list.NoDup_singleton].
  intros k' (e & He & Hke)%list_elem_of_omap ->%list_elem_of_singleton.
  assert (bridge_key s = Some k) as Eks by exact Ek.
  pose proof (same_key_same_subnet s e k Eks Hke) as Hs.
  rewrite Hno in Hs; [done|done|].
  apply bridge_key_Some in Eks as (_ & _ & _ & -> & _).
  by apply bridge_key_Some in Hke as (_ & _ & _ & -> & _).
Qed.

(** Rescans do not multiply bridges.  Whatever is reported, one row per network,
    range and owning runtime is kept; and a bridge whose owner is known is never
    merged into the bridge of another owner. *)
Theorem create_subnet_bridges new_id now s rows :
  NoDup (s_id <$> rows) → NoDup (omap bridge_key rows) → s_id s ≠ uuid_nil →
  let r := create_subnet new_id now s rows in
  NoDup (omap bridge_key r.2)
  ∧ ∀ k k', bridge_key s = Some k → bridge_key r.1 = Some k' → s_id r.1 ≠ s_id s → k' = k.
Proof.
  intros Hnd Hk Hid r. split; [by apply create_subnet_keys|].
  destruct (create_subnet_cases new_id now s rows Hid) as [(e & He & Hn & Hs & E)|[Hno E]];
    unfold r; rewrite E; simpl; [|done].
  intros k k' Hks. rewrite refresh_bridge_key. intros Hke Hne.
  apply bridge_key_Some in Hks as (Ds & Bs & Os & Ns & Cs).
  apply bridge_key_Some in Hke as (De & Be & Oe & Ne & Ce).
  unfold same_subnet, subnet_eqb in Hs. apply andb_true_iff in Hs as [Hc Ho].
  apply orb_true_iff in Hc as [[Hc%bool_decide_eq_true _]%andb_true_iff|Hc%N.eqb_eq]; [|by destruct Hne].
  destruct (s_source (s_base e)); try done. destruct (s_source (s_base s)); try done.
  rewrite Bs, Be, Os, Oe in Ho. apply N.eqb_eq in Ho.
  destruct k as [[n c] o], k' as [[n' c'] o']; simpl in *; congruence.
Qed.

(** ** What a report can change *)

(** Discovery never overwrites a subnet.  A report that matches a stored subnet
    changes nothing of it but the time it was last seen, except that a discovered
    bridge without owner, a guess from an interface name, takes the type of a
    discovered subnet that is no bridge; a subnet a person entered keeps its
    type; rows that are not matched are untouched; and a subnet of the system is
    never matched. *)
Theorem create_subnet_preserves new_id now s rows e :
  NoDup (s_id <$> rows) → s_id s ≠ uuid_nil → e ∈ rows →
  let r := create_subnet new_id now s rows in
  ∃ e', e' ∈ r.2 ∧ s_id e' = s_id e
    ∧ (e' = e ∨ (s_id r.1 = s_id e ∧ e' = r.1
         ∧ created_at (s_meta e') = created_at (s_meta e)
         ∧ s_source (s_base e) ≠ SourceSystem
         ∧ (s_base e' = s_base e
            ∨ s_base e' = set_subnet_type (subnet_type (s_base s)) (s_base e)
              ∧ s_source (s_base e) = SourceDiscovery ∧ s_source (s_base s) = SourceDiscovery
              ∧ is_container_bridge (subnet_type (s_base e)) = true
              ∧ s_virtualization_service_id (s_base e) = None))).
Proof.
  intros Hnd Hid He r.
  destruct (create_subnet_cases new_id now s rows Hid) as [(m & Hm & Hn & Hs & E)|[Hno E]];
    unfold r; rewrite E; simpl; [|exists e; split; [set_solver|by split; [|left]]].
  destruct (decide (s_id e = s_id m)) as [Em|Hne].
  - rewrite (NoDup_key_inj s_id rows e m Hnd He Hm Em) in *. exists (refresh_subnet s m).
    split; [|split; [done|]].
    + unfold store_subnet. apply list_elem_of_fmap. exists m. simpl. by rewrite N.eqb_refl.
    + right. split; [done|]. split; [done|]. split; [done|]. split.
      * intros Hsys. unfold same_subnet in Hs. rewrite Hsys in Hs.
        apply andb_true_iff in Hs as [_ Hs]. by destruct (s_source (s_base s)).
      * rewrite refresh_subnet_base. destruct (corrects_container_bridge_guess s m) eqn:Ec; [right|by left].
        unfold corrects_container_bridge_guess in Ec.
        repeat (apply andb_true_iff in Ec as [Ec ?]).
        repeat match goal with H : bool_decide _ = true |- _ => apply bool_decide_eq_true in H end.
        destruct (s_source (s_base m)), (s_source (s_base s)); done.
  - exists e. split; [|by split; [|left]]. unfold store_subnet. apply list_elem_of_fmap. exists e. simpl.
    by destruct (N.eqb_spec (s_id e) (s_id m)).
Qed.

(** ** Reporting a subnet again *)

(** Two reports of one subnet, under ids no row has, match the same rows. *)
Lemma same_subnet_report s s2 e :
  s_base s2 = s_base s → s_id s ≠ s_id e → s_id s2 ≠ s_id e → same_subnet s2 e = same_subnet s e.
Proof.
  intros Hb H1 H2. unfold same_subnet, subnet_eqb. rewrite Hb.
  by rewrite (proj2 (N.eqb_neq _ _) H1), (proj2 (N.eqb_neq _ _) H2).
Qed.

Lemma same_subnet_refreshed s s2 e :
  s_base s2 = s_base s → s_id s ≠ s_id e → same_subnet s e = true →
  same_subnet s2 (refresh_subnet s e) = true.
Proof.
  intros Hb H1 Hs. unfold same_subnet, subnet_eqb in *. rewrite Hb, refresh_subnet_base.
  rewrite (proj2 (N.eqb_neq _ _) H1), orb_false_r in Hs. apply andb_true_iff in Hs as [Hc Ho].
  destruct (corrects_container_bridge_guess s e) eqn:Ec; simpl; rewrite Hc; simpl; [|exact Ho].
  unfold corrects_container_bridge_guess in Ec. repeat (apply andb_true_iff in Ec as [Ec ?]).
  destruct (s_source (s_base e)), (s_source (s_base s)); try done.
  destruct (is_container_bridge (subnet_type (s_base s))); done.
Qed.

(** Reporting a subnet again stores nothing new: the second report of the same
    subnet, under whatever fresh id the daemon gave it, returns the row of the
    first. *)
Theorem create_subnet_again new_id now now' s s2 rows :
  s_id s ≠ uuid_nil → s_id s2 ≠ uuid_nil → s_id s ≠ s_id s2 →
  s_id s ∉ s_id <$> rows → s_id s2 ∉ s_id <$> rows → NoDup (s_id <$> rows) →
  s_base s2 = s_base s → s_source (s_base s) ≠ SourceSystem →
  let r := create_subnet new_id now s rows in
  let r2 := create_subnet new_id now' s2 r.2 in
  s_id r2.1 = s_id r.1 ∧ s_id <$> r2.2 = s_id <$> r.2.
Proof.
  intros Hid Hid2 Hne Hs Hs2 Hnd Hb Hsys r r2.
  assert (∀ i e, i ∉ s_id <$> rows → e ∈ rows → i ≠ s_id e) as Hfresh.
  { intros i e Hi He ->. apply Hi, list_elem_of_fmap. eauto. }
  set (net := λ r : Subnet, (s_network_id (s_base r) =? s_network_id (s_base s2))%N).
  assert (∀ x rows', List.find (same_subnet s2) (List.filter net rows') = Some x →
    s_id (create_subnet new_id now' s2 rows').1 = s_id x
    ∧ s_id <$> (create_subnet new_id now' s2 rows').2 = s_id <$> rows') as Hfound.
  { intros x rows' Hx. unfold create_subnet. cbv zeta. rewrite (proj2 (N.eqb_neq _ _) Hid2).
    fold net. rewrite Hx. split; [done|apply store_subnet_ids]. }
  assert (∀ x, x ∈ List.filter net rows → same_subnet s2 x = same_subnet s x) as Hrep.
  { intros x [_ Hx]%elem_of_list_filter_bool. apply same_subnet_report; auto. }
  assert (r = match List.find (same_subnet s) (List.filter net rows) with
    | Some e => (refresh_subnet s e, store_subnet (refresh_subnet s e) rows)
    | None => let s' := {| s_id := s_id s; s_meta := originate_meta (s_meta s); s_base := s_base s |} in
              (s', rows ++ [s']) end) as Er.
  { unfold r, create_subnet, net. cbv zeta. by rewrite (proj2 (N.eqb_neq _ _) Hid), Hb. }
  unfold r2. destruct (List.find _ _) as [e|] eqn:Ef; rewrite Er.
  - pose proof Ef as Ef0. apply find_elem in Ef0 as [[Hn He]%elem_of_list_filter_bool Hse].
    apply (Hfound (refresh_subnet s e)). simpl. unfold store_subnet.
    assert (∀ x, x ∈ rows → s_id x = s_id e → x = e) as Hkey
      by (intros x Hx; by apply (NoDup_key_inj s_id rows)).
    rewrite filter_fmap, find_fmap, (find_ext _ (same_subnet s)), Ef; simpl.
    + by rewrite N.eqb_refl.
    + intros x Hx. destruct (N.eqb_spec (s_id x) (s_id e)) as [E|]; [|by apply Hrep].
      apply elem_of_list_filter_bool in Hx as [_ Hx]. rewrite (Hkey x Hx E), Hse.
      apply same_subnet_refreshed; auto.
    + intros x Hx. destruct (N.eqb_spec (s_id x) (s_id e)) as [E|]; [|done].
      rewrite (Hkey x Hx E). unfold net. rewrite refresh_subnet_base.
      by destruct (corrects_container_bridge_guess s e).
  - simpl. set (s' := {| s_id := s_id s; s_meta := _; s_base := _ |}). apply (Hfound s').
    rewrite List.filter_app, find_app, (find_ext _ (same_subnet s)), Ef by done.
    assert (net s' = true) as Hn by (unfold net; rewrite Hb; apply N.eqb_refl).
    simpl. rewrite Hn. simpl.
    assert (same_subnet s2 s' = true) as ->; [|done].
    unfold same_subnet, subnet_eqb. rewrite Hb. simpl. rewrite N.eqb_refl, bool_decide_eq_true_2 by done.
    simpl. destruct (s_source (s_base s)); try done.
    destruct (is_container_bridge _); [|done]. simpl.
    destruct (s_virtualization_service_id _); [apply N.eqb_refl|done].
Qed.

(** ** Witnesses *)

Definition demo_bridge (id owner : Uuid) : Subnet := {|
  s_id := id; s_meta := fresh_meta 0;
  s_base := {| cidr := {| cidr_addr := ipv4 172 17 0 0; cidr_prefix := 16 |}; s_network_id := 1;
               s_name := "bridge"; s_description := None; subnet_type := SDockerBridge;
               s_virtualization_service_id := Some owner; s_source := SourceDiscovery;
               s_tags := [] |} |}.

Lemma create_subnet_bridges_witness :
  NoDup (omap bridge_key (create_subnet 9 0 (demo_bridge 2 8) [demo_bridge 1 7]).2).
Proof.
  apply (create_subnet_bridges 9 0 (demo_bridge 2 8) [demo_bridge 1 7]);
    [apply list.NoDup_singleton|apply list.NoDup_singleton|done].
Defined.

Lemma create_subnet_again_witness :
  s_id <$> (create_subnet 9 5 (demo_bridge 3 8) (create_subnet 9 0 (demo_bridge 2 8) [demo_bridge 1 7]).2).2
  = [1%N; 2%N].
Proof.
  rewrite (proj2 (create_subnet_again 9 0 5 (demo_bridge 2 8) (demo_bridge 3 8) [demo_bridge 1 7]
    ltac:(done) ltac:(done) ltac:(done) ltac:(set_solver) ltac:(set_solver)
    ltac:(apply list.NoDup_singleton) eq_refl ltac:(done))).
  reflexivity.
Defined.

Lemma create_subnet_preserves_witness :
  ∃ e', e' ∈ (create_subnet 9 0 (demo_bridge 2 8) [demo_bridge 1 7]).2 ∧ s_id e' = 1%N.
Proof.
  destruct (create_subnet_preserves 9 0 (demo_bridge 2 8) [demo_bridge 1 7] (demo_bridge 1 7))
    as (e' & He & Hid & _); [apply list.NoDup_singleton|done|left|].
  exists e'. by split.
Defined.

Lemma subnet_from_discovery_witness :
  subnet_from_discovery (λ _, "net"%string) 1 0 "br-guest" (NetV4 (10 * 2 ^ 24 + 5) 32) 4 = None.
Proof.
  apply (subnet_from_discovery_spec (λ _, "net"%string) 1 0 "br-guest" (10 * 2 ^ 24 + 5) 32 4);
    [lia|lia|]. split; [done|]. vm_compute. done.
Defined.
