(* ===== verification/Consolidate.v ===== *)
(** Merging two hosts by hand, and deleting one.

    [HostService::consolidate_hosts] of [server/hosts/service/consolidate.rs],
    [delete_host_inner] of [server/hosts/service/delete.rs] and
    [merge_host_credentials] of [server/credentials/service.rs].  Writes go to
    the tables one by one, with no transaction around them, so a step that fails
    leaves the writes before it: the monad below returns the state with the
    error. *)

From S2P Require Import Prelude Effects Net Ports Position Entities ServiceIdentity Bindings Services.
From S2P Require Import Lldp Hosts HostMatch.
Local Open Scope Z_scope.

(** ** Tables *)

Record World := {
  hosts : list HostRow;
  ip_rows : list IPAddress;
  port_rows : list Port;
  service_rows : list Service;
  dependencies : list Dependency;
  host_credentials : gmap Uuid (list CredentialAssignment);
  daemon_hosts : gset Uuid
}.

Inductive HostError :=
| SelfConsolidation
| DaemonOnOther
| DaemonOnDeleted
| HostNotFound (id : Uuid)
| ServiceFailed (id : Uuid) (e : ServiceError).

Abbreviation M := (SM World HostError).

Definition ips_of_host (w : World) (h : Uuid) : list IPAddress :=
  List.filter (λ i, (ip_host_id (ip_base i) =? h)%N) (ip_rows w).
Definition ports_of_host (w : World) (h : Uuid) : list Port :=
  List.filter (λ p, (p_host_id (p_base p) =? h)%N) (port_rows w).
Definition services_of_host (w : World) (h : Uuid) : list Service :=
  List.filter (λ s, (sv_host_id (sv_base s) =? h)%N) (service_rows w).

Definition set_ip_rows (l : list IPAddress) (w : World) : World :=
  {| hosts := hosts w; ip_rows := l; port_rows := port_rows w; service_rows := service_rows w;
     dependencies := dependencies w; host_credentials := host_credentials w;
     daemon_hosts := daemon_hosts w |}.
Definition set_port_rows (l : list Port) (w : World) : World :=
  {| hosts := hosts w; ip_rows := ip_rows w; port_rows := l; service_rows := service_rows w;
     dependencies := dependencies w; host_credentials := host_credentials w;
     daemon_hosts := daemon_hosts w |}.
Definition set_host_rows (l : list HostRow) (w : World) : World :=
  {| hosts := l; ip_rows := ip_rows w; port_rows := port_rows w; service_rows := service_rows w;
     dependencies := dependencies w; host_credentials := host_credentials w;
     daemon_hosts := daemon_hosts w |}.
Definition set_services (l : list Service) (ds : list Dependency) (w : World) : World :=
  {| hosts := hosts w; ip_rows := ip_rows w; port_rows := port_rows w; service_rows := l;
     dependencies := ds; host_credentials := host_credentials w; daemon_hosts := daemon_hosts w |}.
Definition set_credentials (m : gmap Uuid (list CredentialAssignment)) (w : World) : World :=
  {| hosts := hosts w; ip_rows := ip_rows w; port_rows := port_rows w;
     service_rows := service_rows w; dependencies := dependencies w; host_credentials := m;
     daemon_hosts := daemon_hosts w |}.

(** The part of the world the service store reads. *)
Definition service_store (w : World) : ServiceStore := {|
  rows := service_rows w;
  ports_of h := list_to_set (p_id <$> ports_of_host w h);
  ips_of h := list_to_set (ip_id <$> ips_of_host w h);
  deps := dependencies w;
  sv_events := [] |}.

(** ** Addresses and ports *)

Definition set_ip_host (h : Uuid) (i : IPAddress) : IPAddress :=
  let b := ip_base i in
  {| ip_id := ip_id i; ip_meta := ip_meta i;
     ip_base := {| ip_network_id := ip_network_id b; ip_host_id := h; subnet_id := subnet_id b;
                   ip_address := ip_address b; mac_address := mac_address b; ip_name := ip_name b;
                   ip_position := ip_position b |} |}.

Definition with_host (h n : Uuid) (p : Port) : Port :=
  {| p_id := p_id p; p_meta := p_meta p;
     p_base := {| p_host_id := h; p_network_id := n; port_type := port_type (p_base p) |} |}.

(** Replace the row that has the key of [r]. *)
Definition store_by {A} (key : A → Uuid) (r : A) (l : list A) : list A :=
  (λ x, if (key x =? key r)%N then r else x) <$> l.
Definition store_ip : IPAddress → list IPAddress → list IPAddress := store_by ip_id.
Definition store_port : Port → list Port → list Port := store_by p_id.
Definition store_host : HostRow → list HostRow → list HostRow := store_by h_id.

(** Same subnet and address, or the same MAC when both hosts carry it once. *)
Definition consolidation_conflict (dest_macs other_macs : gmap Z nat) (other dest : IPAddress) : bool :=
  ((subnet_id (ip_base dest) =? subnet_id (ip_base other))%N
   && bool_decide (ip_address (ip_base dest) = ip_address (ip_base other)))
  || match mac_address (ip_base dest) with
     | Some mac =>
         bool_decide (mac_address (ip_base dest) = mac_address (ip_base other))
         && (default 0%nat (dest_macs !! mac) =? 1)%nat && (default 0%nat (other_macs !! mac) =? 1)%nat
     | None => false
     end.

Definition move_ip (dest_id : Uuid) (dest_ips : list IPAddress) (dest_macs other_macs : gmap Z nat)
    (other : IPAddress) (map : gmap Uuid Uuid) : M (gmap Uuid Uuid) :=
  match List.find (consolidation_conflict dest_macs other_macs other) dest_ips with
  | Some d => mret (<[ip_id other := ip_id d]> map)
  | None =>
      put (λ w, set_ip_rows (store_ip (set_ip_host dest_id other) (ip_rows w)) w) ;;
      mret (<[ip_id other := ip_id other]> map)
  end.

Definition move_port (dest : HostRow) (dest_ports : list Port) (other : Port)
    (map : gmap Uuid Uuid) : M (gmap Uuid Uuid) :=
  match List.find (λ d, port_eqb (port_type (p_base d)) (port_type (p_base other))) dest_ports with
  | Some d => mret (<[p_id other := p_id d]> map)
  | None =>
      put (λ w, set_port_rows
        (store_port (with_host (h_id dest) (h_network_id (h_base dest)) other) (port_rows w)) w) ;;
      mret (<[p_id other := p_id other]> map)
  end.

(** ** Services *)

Definition remap_consolidated (ips ports : gmap Uuid Uuid) (t : BindingType) : BindingType :=
  match t with
  | BindIPAddress ip => BindIPAddress (default ip (ips !! ip))
  | BindPort p i => BindPort (default p (ports !! p)) (i ≫= λ ip, ips !! ip)
  end.

Definition is_duplicate_service (dest_services : list Service) (s : Service) : bool :=
  existsb (λ d, String.eqb (sv_name (sv_base d)) (sv_name (sv_base s))
                && String.eqb (service_definition (sv_base d)) (service_definition (sv_base s)))
    dest_services.

Definition rehome_service (dest : HostRow) (ips ports : gmap Uuid Uuid) (s : Service) : Service :=
  let b := sv_base s in
  {| sv_id := sv_id s; sv_meta := sv_meta s;
     sv_base := {| sv_host_id := h_id dest; sv_network_id := h_network_id (h_base dest);
                   service_definition := service_definition b; sv_name := sv_name b;
                   bindings := (λ x, set_binding_type (remap_consolidated ips ports (bt x)) x)
                               <$> bindings b;
                   virtualization_metadata := virtualization_metadata b;
                   virtualization_service_id := virtualization_service_id b;
                   source := source b; sv_tags := sv_tags b; sv_position := sv_position b |} |}.

Definition move_service (fresh : nat → Uuid) (dest : HostRow) (dest_services : list Service)
    (ips ports : gmap Uuid Uuid) (s : Service) (_ : unit) : M unit :=
  if is_duplicate_service dest_services s then mret tt
  else
    w ← get;
    match update_service fresh (rehome_service dest ips ports s) (service_store w) with
    | Ok (_, st) => put (set_services (rows st) (deps st))
    | Err e => throw (ServiceFailed (sv_id s) e)
    end.

(** ** Credential assignments *)

Definition merge_scopes (dest other : option (list Uuid)) : option (list Uuid) :=
  match dest, other with
  | None, _ | _, None => None
  | Some d, Some o => Some (foldl (λ u id, if bool_decide (id ∈ u) then u else u ++ [id]) d o)
  end.

(** Overwrite the scope of the first assignment of a credential. *)
Fixpoint set_scope (cid : Uuid) (scope : option (list Uuid)) (l : list CredentialAssignment)
    : list CredentialAssignment :=
  match l with
  | [] => []
  | a :: l' => if (credential_id a =? cid)%N
               then {| credential_id := credential_id a; ip_address_ids := scope |} :: l'
               else a :: set_scope cid scope l'
  end.

(** [dest_cred_map]: the last assignment of a credential wins. *)
Definition dest_assignment (dest : list CredentialAssignment) (cid : Uuid)
    : option CredentialAssignment :=
  List.find (λ a, (credential_id a =? cid)%N) (rev dest).

Definition merge_assignment (ips : gmap Uuid Uuid) (dest merged : list CredentialAssignment)
    (other : CredentialAssignment) : list CredentialAssignment :=
  let remapped : option (list Uuid) :=
    match ip_address_ids other with
    | None => None
    | Some ids => Some (omap (λ id, ips !! id) ids)
    end in
  match remapped with
  | Some [] => merged
  | _ =>
      match dest_assignment dest (credential_id other) with
      | Some d => set_scope (credential_id other) (merge_scopes (ip_address_ids d) remapped) merged
      | None => merged ++ [{| credential_id := credential_id other; ip_address_ids := remapped |}]
      end
  end.

Definition merge_assignments (ips : gmap Uuid Uuid) (dest others : list CredentialAssignment)
    : list CredentialAssignment :=
  foldl (merge_assignment ips dest) dest others.

Definition assignments_of (w : World) (h : Uuid) : list CredentialAssignment :=
  default [] (host_credentials w !! h).

(** [merge_host_credentials]: incoming assignments replace those of the same
    credential and leave the others. *)
Definition merge_host_credentials (existing incoming : list CredentialAssignment)
    : list CredentialAssignment :=
  List.filter (λ a, negb (bool_decide (credential_id a ∈ credential_id <$> incoming))) existing
  ++ incoming.

(** ** [delete_host_inner]: the row and, by the foreign keys, its children *)

Definition cascade (h : Uuid) (w : World) : World := {|
  hosts := List.filter (λ r, negb (h_id r =? h)%N) (hosts w);
  ip_rows := List.filter (λ r, negb (ip_host_id (ip_base r) =? h)%N) (ip_rows w);
  port_rows := List.filter (λ r, negb (p_host_id (p_base r) =? h)%N) (port_rows w);
  service_rows := List.filter (λ r, negb (sv_host_id (sv_base r) =? h)%N) (service_rows w);
  dependencies := dependencies w;
  host_credentials := delete h (host_credentials w);
  daemon_hosts := daemon_hosts w |}.

Definition delete_host_inner (h : Uuid) : M unit :=
  w ← get;
  if bool_decide (h ∈ daemon_hosts w) then throw DaemonOnDeleted
  else match List.find (λ r, (h_id r =? h)%N) (hosts w) with
       | None => throw (HostNotFound h)
       | Some _ => put (cascade h)
       end.

(** ** [consolidate_hosts] *)

Definition consolidate_hosts (fresh : nat → Uuid) (dest other : HostRow) : M HostRow :=
  w ← get;
  if (h_id dest =? h_id other)%N then throw SelfConsolidation
  else if bool_decide (h_id other ∈ daemon_hosts w) then throw DaemonOnOther
  else
    let dest_ips := ips_of_host w (h_id dest) in
    let other_ips := ips_of_host w (h_id other) in
    let dest_ports := ports_of_host w (h_id dest) in
    let other_ports := ports_of_host w (h_id other) in
    ips ← for_each (move_ip (h_id dest) dest_ips (mac_counts_for_payload dest_ips)
                       (mac_counts_for_payload other_ips)) other_ips ∅;
    ports ← for_each (move_port dest dest_ports) other_ports ∅;
    let updated := upserted (upsert_host dest other) in
    put (λ w, set_host_rows (store_host updated (hosts w)) w) ;;
    w2 ← get;
    for_each (move_service fresh updated (services_of_host w2 (h_id dest)) ips ports)
      (services_of_host w2 (h_id other)) tt ;;
    w3 ← get;
    (match assignments_of w3 (h_id other) with
     | [] => mret tt
     | others =>
         put (λ w, set_credentials
           (<[h_id updated := merge_assignments ips (assignments_of w3 (h_id updated)) others]>
              (host_credentials w)) w)
     end) ;;
    delete_host_inner (h_id other) ;;
    mret updated.

(** ** Running the steps *)

Lemma store_by_keys {A} (key : A → Uuid) r l : key <$> store_by key r l = key <$> l.
Proof.
  unfold store_by. rewrite <- list_fmap_compose. apply list_fmap_ext. intros j x _. simpl.
  by destruct (N.eqb_spec (key x) (key r)).
Qed.

(** Moving rows of a table to another owner: [taken] is the row of the owner that
    stands for a row, [upd] the change of owner. *)
Section Move.
Context {A : Type} (key : A → Uuid) (upd : A → A) (taken : A → option A).
Context (key_upd : ∀ a, key (upd a) = key a).

Definition rehomed (l rows : list A) : list A :=
  foldl (λ rows i, match taken i with Some _ => rows | None => store_by key (upd i) rows end) rows l.

Definition id_map (l : list A) (m : gmap Uuid Uuid) : gmap Uuid Uuid :=
  foldl (λ m i, <[key i := match taken i with Some d => key d | None => key i end]> m) m l.

(** Whether a row is one that moves. *)
Definition moves (l : list A) (r : A) : bool :=
  existsb (λ i, (key i =? key r)%N && bool_decide (taken i = None)) l.

Lemma id_map_other l m k : k ∉ key <$> l → id_map l m !! k = m !! k.
Proof.
  revert m. induction l as [|a l IH]; intros m Hk; [done|].
  apply not_elem_of_cons in Hk as [Hne Hk].
  change (id_map l (<[key a := match taken a with Some d => key d | None => key a end]> m) !! k = m !! k).
  rewrite IH by done. by rewrite lookup_insert_ne.
Qed.

Lemma id_map_lookup l m i :
  NoDup (key <$> l) → i ∈ l →
  id_map l m !! key i = Some (match taken i with Some d => key d | None => key i end).
Proof.
  revert m. induction l as [|a l IH]; intros m; simpl; [by intros _ ?%not_elem_of_nil|].
  intros [Ha Hl]%list.NoDup_cons [->|Hi]%elem_of_cons; [|by apply IH].
  change (id_map l (<[key a := match taken a with Some d => key d | None => key a end]> m) !! key a
          = Some (match taken a with Some d => key d | None => key a end)).
  rewrite id_map_other by done. by rewrite lookup_insert_eq.
Qed.

Lemma store_upd_eq rows i :
  NoDup (key <$> rows) → i ∈ rows →
  store_by key (upd i) rows = (λ x, if (key x =? key i)%N then upd x else x) <$> rows.
Proof.
  intros Hnd Hi. unfold store_by. apply list_fmap_ext. intros j x Hx%list_elem_of_lookup_2.
  rewrite key_upd. destruct (N.eqb_spec (key x) (key i)) as [E|]; [|done].
  by rewrite (NoDup_key_inj key rows x i).
Qed.

Lemma rehomed_eq l rows :
  NoDup (key <$> rows) → NoDup (key <$> l) → (∀ i, i ∈ l → i ∈ rows) →
  rehomed l rows = (λ r, if moves l r then upd r else r) <$> rows.
Proof.
  revert rows. induction l as [|a l IH]; intros rows Hnd Hndl Hsub; simpl.
  { symmetry. apply list_fmap_id. }
  apply list.NoDup_cons in Hndl as [Ha Hndl].
  change (rehomed l (match taken a with Some _ => rows | None => store_by key (upd a) rows end)
          = (λ r, if moves (a :: l) r then upd r else r) <$> rows).
  destruct (taken a) as [d|] eqn:Ea.
  - rewrite IH; [|done|done|intros i Hi; apply Hsub; by right].
    apply list_fmap_ext. intros j r _. unfold moves at 2. simpl. rewrite Ea.
    by rewrite andb_false_r.
  - rewrite IH; [|by rewrite store_by_keys|done|].
    + rewrite store_upd_eq; [|done|apply Hsub; left]. rewrite <- list_fmap_compose.
      apply list_fmap_ext. intros j r _. unfold compose, moves at 2. simpl. rewrite Ea.
      rewrite (N.eqb_sym (key a)). destruct (N.eqb_spec (key r) (key a)) as [E|E]; simpl; [|done].
      assert (moves l (upd r) = false) as ->; [|done].
      apply existsb_elem_false. intros i Hi. rewrite key_upd, E.
      destruct (N.eqb_spec (key i) (key a)) as [E'|]; [|done]. destruct Ha. rewrite <- E'.
      apply list_elem_of_fmap. eauto.
    + intros i Hi. rewrite store_upd_eq; [|done|apply Hsub; left].
      apply list_elem_of_fmap. exists i. split; [|apply Hsub; by right].
      destruct (N.eqb_spec (key i) (key a)) as [E|]; [|done]. destruct Ha. rewrite <- E.
      apply list_elem_of_fmap. eauto.
Qed.
End Move.

Lemma move_ips_run dest_id dips dm om l m w :
  for_each (move_ip dest_id dips dm om) l m w
  = (set_ip_rows (rehomed ip_id (set_ip_host dest_id)
       (λ i, List.find (consolidation_conflict dm om i) dips) l (ip_rows w)) w,
     Ok (id_map ip_id (λ i, List.find (consolidation_conflict dm om i) dips) l m)).
Proof.
  revert m w. induction l as [|i l IH]; intros m w; simpl; [by destruct w|].
  unfold mbind, SM_bind. unfold move_ip at 1.
  destruct (List.find (consolidation_conflict dm om i) dips) as [d|] eqn:E; simpl.
  - by rewrite IH.
  - unfold mbind, SM_bind, put. rewrite IH. by destruct w.
Qed.

Lemma move_ports_run dest dports l m w :
  for_each (move_port dest dports) l m w
  = (set_port_rows (rehomed p_id (with_host (h_id dest) (h_network_id (h_base dest)))
       (λ p, List.find (λ d, port_eqb (port_type (p_base d)) (port_type (p_base p))) dports) l
       (port_rows w)) w,
     Ok (id_map p_id
       (λ p, List.find (λ d, port_eqb (port_type (p_base d)) (port_type (p_base p))) dports) l m)).
Proof.
  revert m w. induction l as [|i l IH]; intros m w; simpl; [by destruct w|].
  unfold mbind, SM_bind. unfold move_port at 1.
  destruct (List.find (λ d, port_eqb (port_type (p_base d)) (port_type (p_base i))) dports)
    as [d|] eqn:E; simpl.
  - by rewrite IH.
  - unfold mbind, SM_bind, put. rewrite IH. by destruct w.
Qed.

Lemma set_services_frame l ds w :
  ip_rows (set_services l ds w) = ip_rows w ∧ port_rows (set_services l ds w) = port_rows w.
Proof. done. Qed.

(** A service either is a duplicate and stays, or is stored on the destination. *)
Lemma move_service_ok fresh dest ds ips ports s w w' :
  move_service fresh dest ds ips ports s tt w = (w', Ok tt) →
  (is_duplicate_service ds s = true ∧ w' = w)
  ∨ ∃ u st, sv_id u = sv_id s ∧ sv_host_id (sv_base u) = h_id dest
      ∧ fits (service_store w) u ∧ w' = set_services (rows st) (deps st) w
      ∧ rows st = store_row u (service_rows w)
      ∧ ∃ cur, cur ∈ service_rows w ∧ sv_id cur = sv_id u.
Proof.
  unfold move_service. destruct (is_duplicate_service ds s); [intros [= <-]; by left|].
  intros (w1 & w2 & [= <- <-] & H)%bind_ok. right.
  destruct (update_service fresh (rehome_service dest ips ports s) (service_store w))
    as [[u st]|e] eqn:E; [|done]. injection H as <-.
  apply update_service_ok in E as ((cur & Hcur) & Hrows & _ & Hfit & Hid & Hh).
  apply find_elem in Hcur as [Hin Hc%N.eqb_eq]. simpl in *.
  exists u, st. split_and!; try done. exists cur. split; [done|]. congruence.
Qed.

(** What the rows of the services are after the loop. *)
Lemma move_services_ok fresh dest ds ips ports l w w' :
  NoDup (sv_id <$> l) →
  for_each (move_service fresh dest ds ips ports) l tt w = (w', Ok tt) →
  hosts w' = hosts w ∧ ip_rows w' = ip_rows w ∧ port_rows w' = port_rows w
  ∧ host_credentials w' = host_credentials w ∧ daemon_hosts w' = daemon_hosts w
  ∧ (∀ r, r ∈ service_rows w → sv_id r ∉ sv_id <$> l → r ∈ service_rows w')
  ∧ ∀ s, s ∈ l → is_duplicate_service ds s = true ∨
      ∃ u, u ∈ service_rows w' ∧ sv_id u = sv_id s ∧ sv_host_id (sv_base u) = h_id dest
           ∧ row_ok (service_store w) u.
Proof.
  revert w. induction l as [|s l IH]; intros w Hnd.
  { intros [= <-]. split_and!; try done. by intros ? ?%not_elem_of_nil. }
  apply list.NoDup_cons in Hnd as [Hs Hnd].
  intros (w1 & [] & H1 & H2)%bind_ok.
  destruct (IH w1 Hnd H2) as (Hh & Hip & Hp & Hc & Hd & Hkeep & Hall). clear IH H2.
  apply move_service_ok in H1 as [[Hdup ->]|(u & st & Hid & Hhost & [Hok _] & -> & Hrows & cur & Hcur & Hcid)].
  - split_and!; try done.
    + intros r Hr [_ Hn]%not_elem_of_cons. by apply Hkeep.
    + intros x [->|Hx]%elem_of_cons; [by left|by apply Hall].
  - split_and!; try done.
    + intros r Hr [Hne Hn]%not_elem_of_cons. apply Hkeep; [|done]. simpl. rewrite Hrows.
      apply list_elem_of_fmap. exists r. destruct (N.eqb_spec (sv_id r) (sv_id u)); [congruence|done].
    + intros x [->|Hx]%elem_of_cons.
      * right. exists u. split_and!; try done. apply Hkeep; [|by rewrite Hid]. simpl. rewrite Hrows.
        apply list_elem_of_fmap. exists cur. by rewrite Hcid, N.eqb_refl.
      * destruct (Hall x Hx) as [?|(u' & H1 & H2 & H3 & H4)]; [by left|]. right. by exists u'.
Qed.

Lemma delete_host_ok h w w' :
  delete_host_inner h w = (w', Ok tt) → w' = cascade h w ∧ h ∉ daemon_hosts w.
Proof.
  unfold delete_host_inner. intros (w1 & w2 & [= <- <-] & H)%bind_ok.
  case_bool_decide; [done|]. destruct (List.find _ _); [|done]. by injection H as <-.
Qed.

Lemma cascade_empty h w :
  ips_of_host (cascade h w) h = [] ∧ ports_of_host (cascade h w) h = []
  ∧ services_of_host (cascade h w) h = [] ∧ h ∉ h_id <$> hosts (cascade h w).
Proof.
  assert (∀ A (f : A → Uuid) l, List.filter (λ x, (f x =? h)%N) (List.filter (λ x, negb (f x =? h)%N) l)
                               = []) as Hnil.
  { intros A f l. induction l as [|a l IH]; simpl; [done|].
    destruct (f a =? h)%N eqn:E; simpl; [done|]. by rewrite E. }
  split_and!; [apply Hnil|apply Hnil|apply Hnil|].
  intros (r & -> & Hr)%list_elem_of_fmap. apply elem_of_list_filter_bool in Hr as [Hr _].
  by rewrite N.eqb_refl in Hr.
Qed.

Lemma cascade_keeps h d w :
  d ≠ h →
  ips_of_host (cascade h w) d = ips_of_host w d ∧ ports_of_host (cascade h w) d = ports_of_host w d
  ∧ services_of_host (cascade h w) d = services_of_host w d.
Proof.
  intros Hne. assert (∀ A (f : A → Uuid) l,
    List.filter (λ x, (f x =? d)%N) (List.filter (λ x, negb (f x =? h)%N) l)
    = List.filter (λ x, (f x =? d)%N) l) as Hkeep.
  { intros A f l. induction l as [|a l IH]; simpl; [done|].
    destruct (N.eqb_spec (f a) h) as [E|E]; simpl.
    - destruct (N.eqb_spec (f a) d); [congruence|done].
    - by rewrite IH. }
  split_and!; apply Hkeep.
Qed.

Lemma of_host_elem {A} (f : A → Uuid) h l x :
  x ∈ List.filter (λ y, (f y =? h)%N) l ↔ x ∈ l ∧ f x = h.
Proof. rewrite elem_of_list_filter_bool, N.eqb_eq. tauto. Qed.

Lemma NoDup_key_filter {A} (key : A → Uuid) (f : A → bool) l :
  NoDup (key <$> l) → NoDup (key <$> List.filter f l).
Proof. intros H. eapply sublist_NoDup; [exact H|]. apply sublist_fmap_of, filter_bool_sublist. Qed.

(** The rows of the destination after a move: its own, and for each row of the
    other host the row that stands for it or the row itself, moved. *)
Lemma rehomed_owned {A} (key owner : A → Uuid) (upd : A → A) (taken : A → option A) dest other rows :
  (∀ a, key (upd a) = key a) → (∀ a, owner (upd a) = dest) → dest ≠ other →
  NoDup (key <$> rows) →
  (∀ i d, taken i = Some d → d ∈ List.filter (λ y, (owner y =? dest)%N) rows) →
  let l := List.filter (λ y, (owner y =? other)%N) rows in
  let rows' := rehomed key upd taken l rows in
  (∀ r, r ∈ List.filter (λ y, (owner y =? dest)%N) rows →
        r ∈ List.filter (λ y, (owner y =? dest)%N) rows')
  ∧ (∀ r, r ∈ l → (∃ d, taken r = Some d ∧ d ∈ List.filter (λ y, (owner y =? dest)%N) rows')
                  ∨ upd r ∈ List.filter (λ y, (owner y =? dest)%N) rows').
Proof.
  intros Hkey Hown Hne Hnd Htaken. cbv zeta. set (l := List.filter (λ y, (owner y =? other)%N) rows).
  assert (∀ i, i ∈ l → i ∈ rows ∧ owner i = other) as Hl by (intros i; apply of_host_elem).
  rewrite (rehomed_eq key upd taken Hkey l rows Hnd); [|by apply NoDup_key_filter|by intros i [? _]%Hl].
  assert (∀ r, r ∈ rows → moves key taken l r = true → r ∈ l ∧ taken r = None) as Hmoves.
  { intros r Hr Hm. apply existsb_elem in Hm as (i & Hi & Hm). apply andb_true_iff in Hm as [E Ht].
    apply N.eqb_eq in E. apply bool_decide_eq_true in Ht.
    pose proof (NoDup_key_inj key rows i r Hnd (proj1 (Hl i Hi)) Hr E) as ->. done. }
  assert (∀ r, r ∈ List.filter (λ y, (owner y =? dest)%N) rows →
    r ∈ List.filter (λ y, (owner y =? dest)%N) ((λ r, if moves key taken l r then upd r else r) <$> rows))
    as Hkeep.
  { intros r [Hr Ho]%of_host_elem. apply of_host_elem. split; [|done]. apply list_elem_of_fmap.
    exists r. split; [|done]. destruct (moves key taken l r) eqn:E; [|done].
    apply Hmoves in E as [[_ E]%Hl _]; [congruence|done]. }
  split; [exact Hkeep|]. intros r Hr. destruct (Hl r Hr) as [Hin Ho].
  destruct (taken r) as [d|] eqn:Et; [left; exists d; split; [done|]; by apply Hkeep, (Htaken r)|right].
  apply of_host_elem. split; [|apply Hown]. apply list_elem_of_fmap. exists r. split; [|done].
  assert (moves key taken l r = true) as ->; [|done].
  apply existsb_elem. exists r. split; [done|]. by rewrite N.eqb_refl, bool_decide_eq_true_2.
Qed.

(** Two rows stand for the same address: same address and subnet, or same MAC. *)
Definition same_endpoint (d i : IPAddress) : Prop :=
  (subnet_id (ip_base d) = subnet_id (ip_base i) ∧ ip_address (ip_base d) = ip_address (ip_base i))
  ∨ ∃ m, mac_address (ip_base d) = Some m ∧ mac_address (ip_base i) = Some m.

Lemma conflict_endpoint dm om i d : consolidation_conflict dm om i d = true → same_endpoint d i.
Proof.
  unfold consolidation_conflict. intros [H|H]%orb_true_iff.
  - apply andb_true_iff in H as [H1%N.eqb_eq H2]. apply bool_decide_eq_true in H2. by left.
  - destruct (mac_address (ip_base d)) as [m|] eqn:E; [|done]. right. exists m.
    apply andb_true_iff in H as [H _]. apply andb_true_iff in H as [H _].
    apply bool_decide_eq_true in H. done.
Qed.

(** The row of the destination that stands for a row of the other host. *)
Definition ip_standing (w : World) (dest other : HostRow) (i : IPAddress) : option IPAddress :=
  List.find (consolidation_conflict (mac_counts_for_payload (ips_of_host w (h_id dest)))
               (mac_counts_for_payload (ips_of_host w (h_id other))) i) (ips_of_host w (h_id dest)).
Definition port_standing (w : World) (dest : HostRow) (p : Port) : option Port :=
  List.find (λ d, port_eqb (port_type (p_base d)) (port_type (p_base p))) (ports_of_host w (h_id dest)).

(** A successful run, up to the deletion of the other host. *)
Lemma consolidate_ok fresh dest other w w' r :
  NoDup (sv_id <$> service_rows w) →
  consolidate_hosts fresh dest other w = (w', Ok r) →
  h_id dest ≠ h_id other ∧ r = upserted (upsert_host dest other)
  ∧ ∃ wg, w' = cascade (h_id other) wg
    ∧ ip_rows wg = rehomed ip_id (set_ip_host (h_id dest)) (ip_standing w dest other)
                     (ips_of_host w (h_id other)) (ip_rows w)
    ∧ port_rows wg = rehomed p_id (with_host (h_id dest) (h_network_id (h_base dest)))
                       (port_standing w dest) (ports_of_host w (h_id other)) (port_rows w)
    ∧ ∀ s, s ∈ services_of_host w (h_id other) →
        is_duplicate_service (services_of_host w (h_id dest)) s = true
        ∨ ∃ u, u ∈ service_rows wg ∧ sv_id u = sv_id s ∧ sv_host_id (sv_base u) = h_id dest
               ∧ row_ok (service_store wg) u.
Proof.
  intros Hsv. unfold consolidate_hosts. intros (w1 & w2 & [= <- <-] & H)%bind_ok.
  destruct (N.eqb_spec (h_id dest) (h_id other)) as [|Hne]; [done|].
  case_bool_decide; [done|]. cbv zeta in H. split; [done|].
  apply bind_ok in H as (wa & ips & Ha & H). rewrite move_ips_run in Ha. injection Ha as <- <-.
  apply bind_ok in H as (wb & ports & Hb & H). rewrite move_ports_run in Hb. injection Hb as <- <-.
  apply bind_ok in H as (wc & [] & [= <-] & H).
  apply bind_ok in H as (wd & wd' & [= <- <-] & H).
  apply bind_ok in H as (we & [] & He & H).
  apply bind_ok in H as (wf & wf' & [= <- <-] & H).
  apply bind_ok in H as (wg & [] & Hg & H).
  apply bind_ok in H as (wh & [] & [-> _]%delete_host_ok & [= <- <-]).
  split; [done|]. exists wg. split; [done|].
  apply move_services_ok in He; [|by apply NoDup_key_filter].
  destruct He as (_ & He1 & He2 & _ & _ & _ & He3). simpl in He1, He2, He3.
  assert (ip_rows wg = ip_rows we ∧ port_rows wg = port_rows we ∧ service_rows wg = service_rows we)
    as (Hg1 & Hg2 & Hg3) by (destruct (assignments_of we (h_id other)); injection Hg as <-; done).
  split; [by rewrite Hg1, He1|]. split; [by rewrite Hg2, He2|].
  intros s Hs. destruct (He3 s Hs) as [Hdup|(u & Hu & Huid & Huh & Hok)]; [by left|]. right.
  exists u. rewrite Hg3. split_and!; try done.
  eapply row_ok_same; [|exact Hok]. split; simpl; unfold ips_of_host, ports_of_host; simpl.
  - by rewrite Hg2, He2.
  - by rewrite Hg1, He1.
Qed.

(** C25. A merge of two hosts loses no endpoint.  When it succeeds, the other host
    and every row of it are gone, the destination keeps its id and all of its own
    addresses, every address of the other host is now the destination's or is one
    the destination already had (same address on the same subnet, or the same
    MAC), likewise every port, and every service of the other host either
    repeats the name and definition of one the destination had or is stored on
    the destination with bindings that name only its ports and addresses. *)
Theorem consolidate_hosts_spec fresh dest other w w' r :
  NoDup (ip_id <$> ip_rows w) → NoDup (p_id <$> port_rows w) → NoDup (sv_id <$> service_rows w) →
  consolidate_hosts fresh dest other w = (w', Ok r) →
  let D := h_id dest in let O := h_id other in
  h_id r = D ∧ O ≠ D
  ∧ (ips_of_host w' O = [] ∧ ports_of_host w' O = [] ∧ services_of_host w' O = []
     ∧ O ∉ h_id <$> hosts w')
  ∧ (∀ i, i ∈ ips_of_host w D → i ∈ ips_of_host w' D)
  ∧ (∀ i, i ∈ ips_of_host w O → ∃ d, d ∈ ips_of_host w' D ∧ same_endpoint d i)
  ∧ (∀ p, p ∈ ports_of_host w O → ∃ q, q ∈ ports_of_host w' D
          ∧ config (port_type (p_base q)) = config (port_type (p_base p)))
  ∧ (∀ s, s ∈ services_of_host w O →
       is_duplicate_service (services_of_host w D) s = true
       ∨ ∃ u, u ∈ services_of_host w' D ∧ sv_id u = sv_id s ∧ row_ok (service_store w') u).
Proof.
  intros Hip Hp Hsv (Hne & -> & wg & -> & E1 & E2 & Hs)%consolidate_ok; [|done]. cbv zeta.
  destruct (rehomed_owned ip_id (λ i, ip_host_id (ip_base i)) (set_ip_host (h_id dest))
    (ip_standing w dest other) (h_id dest) (h_id other) (ip_rows w)) as [Ik Im]; [done|done|done|done| |].
  { by intros i d [Hd _]%find_elem. }
  destruct (rehomed_owned p_id (λ p, p_host_id (p_base p))
    (with_host (h_id dest) (h_network_id (h_base dest))) (port_standing w dest)
    (h_id dest) (h_id other) (port_rows w)) as [Pk Pm]; [done|done|done|done| |].
  { by intros i d [Hd _]%find_elem. }
  destruct (cascade_keeps (h_id other) (h_id dest) wg Hne) as (K1 & K2 & K3).
  split; [done|]. split; [done|]. split; [apply cascade_empty|]. rewrite K1, K2, K3.
  unfold ips_of_host at 2 4, ports_of_host at 2. rewrite E1, E2.
  split; [exact Ik|]. split; [|split].
  - intros i [(d & [_ Hc]%find_elem & Hd)|Hi]%Im.
    + exists d. split; [done|]. by eapply conflict_endpoint.
    + eexists. split; [exact Hi|]. by left.
  - intros p [(d & [_ Hc]%find_elem & Hd)|Hq]%Pm.
    + exists d. split; [done|]. by apply port_eqb_config.
    + by eexists.
  - intros s [Hdup|(u & Hu & Huid & Huh & Hok)]%Hs; [by left|]. right.
    exists u. split_and!; [apply of_host_elem; by rewrite Huh|done|].
    destruct Hok as [Hwf Hrefs]. split; [exact Hwf|]. intros t Ht. specialize (Hrefs t Ht).
    rewrite Huh in *. simpl. rewrite K1, K2. exact Hrefs.
Qed.

(** ** Credential scopes *)

(** The scope a list of assignments gives a credential. *)
Definition scope_in (l : list CredentialAssignment) (c : Uuid) : option (option (list Uuid)) :=
  ip_address_ids <$> List.find (λ a, (credential_id a =? c)%N) l.

(** A scope after the move: gone when none of its addresses moved. *)
Definition remapped_scope (ips : gmap Uuid Uuid) (scope : option (list Uuid))
    : option (option (list Uuid)) :=
  match scope with
  | None => Some None
  | Some ids => match omap (λ id, ips !! id) ids with [] => None | l => Some (Some l) end
  end.

(** Both hosts' scopes of one credential, merged. *)
Definition merged_scope (dest other : option (option (list Uuid))) : option (option (list Uuid)) :=
  match dest, other with
  | Some d, Some o => Some (merge_scopes d o)
  | Some d, None => Some d
  | None, o => o
  end.

Lemma scope_in_set_scope c c' sc l :
  scope_in (set_scope c sc l) c'
  = if (c =? c')%N then (λ _, sc) <$> scope_in l c' else scope_in l c'.
Proof.
  unfold scope_in. induction l as [|a l IH]; simpl; [by destruct (_ =? _)%N|].
  destruct (N.eqb_spec (credential_id a) c) as [E|E]; simpl.
  - destruct (N.eqb_spec (credential_id a) c'); subst; simpl.
    + by rewrite N.eqb_refl.
    + destruct (N.eqb_spec (credential_id a) c'); done.
  - destruct (N.eqb_spec (credential_id a) c') as [E'|E']; simpl; [|done].
    destruct (N.eqb_spec c c'); [congruence|done].
Qed.

Lemma scope_in_cons a l c :
  scope_in (a :: l) c = if (credential_id a =? c)%N then Some (ip_address_ids a) else scope_in l c.
Proof. unfold scope_in. simpl. by destruct (_ =? _)%N. Qed.

Lemma scope_in_app l a c :
  scope_in (l ++ [a]) c
  = match scope_in l c with
    | Some s => Some s
    | None => if (credential_id a =? c)%N then Some (ip_address_ids a) else None
    end.
Proof.
  unfold scope_in. induction l as [|b l IH]; simpl; [by destruct (_ =? _)%N|].
  destruct (credential_id b =? c)%N; done.
Qed.

Lemma scope_in_None l c : scope_in l c = None ↔ c ∉ credential_id <$> l.
Proof.
  unfold scope_in. rewrite fmap_None, find_None_Forall, Forall_forall.
  setoid_rewrite N.eqb_neq. rewrite list_elem_of_fmap. setoid_rewrite list_elem_of_In. naive_solver.
Qed.

(** With distinct credentials the last assignment is the first. *)
Lemma dest_assignment_scope dest c :
  NoDup (credential_id <$> dest) → ip_address_ids <$> dest_assignment dest c = scope_in dest c.
Proof.
  unfold dest_assignment, scope_in. induction dest as [|a l IH]; simpl; [done|].
  intros [Ha Hl]%list.NoDup_cons. specialize (IH Hl).
  rewrite find_app. destruct (N.eqb_spec (credential_id a) c) as [E|E].
  - destruct (List.find _ (rev l)) as [x|] eqn:Ef; simpl; [|by destruct (N.eqb_spec (credential_id a) c)].
    exfalso. apply find_elem in Ef as [Hx Ex%N.eqb_eq]. apply Ha. rewrite E, <- Ex.
    apply list_elem_of_fmap. exists x. split; [done|].
    by rewrite list_elem_of_In, in_rev, <- list_elem_of_In.
  - rewrite <- IH. destruct (List.find _ (rev l)); simpl; [done|].
    by destruct (N.eqb_spec (credential_id a) c).
Qed.

(** One assignment changes its own credential, from the destination's scope. *)
Lemma merge_assignment_scope ips dest merged o c :
  NoDup (credential_id <$> dest) →
  (scope_in dest (credential_id o) = scope_in merged (credential_id o)) →
  scope_in (merge_assignment ips dest merged o) c
  = if (credential_id o =? c)%N
    then merged_scope (scope_in merged c) (remapped_scope ips (ip_address_ids o))
    else scope_in merged c.
Proof.
  intros Hnd Hsame. pose proof (dest_assignment_scope dest (credential_id o) Hnd) as Hd.
  rewrite Hsame in Hd. unfold merge_assignment.
  set (remapped := match ip_address_ids o with None => None | Some ids => _ end).
  assert (remapped_scope ips (ip_address_ids o)
          = match remapped with Some [] => None | x => Some x end) as ->.
  { unfold remapped, remapped_scope. destruct (ip_address_ids o); [|done]. by destruct (omap _ _). }
  assert (∀ X, remapped ≠ Some [] →
    match remapped with Some [] => merged | _ => X end = X) as Hm by (by destruct remapped as [[]|]).
  destruct (decide (remapped = Some [])) as [E|E].
  { rewrite E. simpl. destruct (N.eqb_spec (credential_id o) c) as [<-|]; [|done].
    by destruct (scope_in merged (credential_id o)). }
  cbv zeta. rewrite Hm by done.
  assert (match remapped with Some [] => None | x => Some x end = Some remapped) as ->
    by (by destruct remapped as [[]|]).
  destruct (dest_assignment dest (credential_id o)) as [d|] eqn:Ed; simpl in Hd.
  - rewrite scope_in_set_scope. destruct (N.eqb_spec (credential_id o) c) as [<-|]; [|done].
    rewrite <- Hd. done.
  - rewrite scope_in_app. simpl. destruct (N.eqb_spec (credential_id o) c) as [<-|].
    + by rewrite <- Hd.
    + by destruct (scope_in merged c).
Qed.

Lemma merge_assignments_scope ips dest others c :
  NoDup (credential_id <$> dest) → NoDup (credential_id <$> others) →
  scope_in (merge_assignments ips dest others) c
  = merged_scope (scope_in dest c) (scope_in others c ≫= remapped_scope ips).
Proof.
  intros Hd. unfold merge_assignments.
  assert (∀ merged, (∀ o, o ∈ others → scope_in dest (credential_id o) = scope_in merged (credential_id o)) →
    NoDup (credential_id <$> others) →
    scope_in (foldl (merge_assignment ips dest) merged others) c
    = merged_scope (scope_in merged c) (scope_in others c ≫= remapped_scope ips)) as Hgen;
    [|by apply Hgen].
  induction others as [|o others IH]; intros merged Hsame; simpl.
  { intros _. by destruct (scope_in merged c). }
  intros [Ho Hnd]%list.NoDup_cons.
  assert (∀ x, scope_in (merge_assignment ips dest merged o) x
    = if (credential_id o =? x)%N
      then merged_scope (scope_in merged x) (remapped_scope ips (ip_address_ids o))
      else scope_in merged x) as Hstep
    by (intros x; apply merge_assignment_scope; [done|apply Hsame; left]).
  rewrite IH; [| |done].
  - rewrite Hstep, (scope_in_cons o others).
    destruct (N.eqb_spec (credential_id o) c) as [<-|Hne]; simpl; [|done].
    rewrite (proj2 (scope_in_None others (credential_id o)) Ho). simpl.
    by destruct (scope_in merged (credential_id o)), (remapped_scope ips (ip_address_ids o)).
  - intros x Hx. rewrite Hstep. destruct (N.eqb_spec (credential_id o) (credential_id x)) as [E|_].
    + destruct Ho. rewrite E. apply list_elem_of_fmap. eauto.
    + apply Hsame. by right.
Qed.

(** The addresses a credential is used on: all of them, or those listed. *)
Definition covers (scope : option (list Uuid)) (a : Uuid) : Prop :=
  match scope with None => True | Some ids => a ∈ ids end.
Definition reaches (l : list CredentialAssignment) (c a : Uuid) : Prop :=
  ∃ scope, scope_in l c = Some scope ∧ covers scope a.

Lemma merge_scopes_covers d o a : covers (merge_scopes d o) a ↔ covers d a ∨ covers o a.
Proof.
  destruct d as [d|], o as [o|]; simpl; try tauto. revert d.
  induction o as [|x o IH]; intros d; simpl; [set_solver|].
  rewrite IH. case_bool_decide; set_solver.
Qed.

Lemma merge_scopes_None d o : merge_scopes d o = None ↔ d = None ∨ o = None.
Proof. destruct d, o; simpl; naive_solver. Qed.

Lemma remapped_scope_spec ips sc sc' :
  remapped_scope ips sc = Some sc' →
  (sc' = None ↔ sc = None)
  ∧ ∀ a, covers sc' a ↔ sc = None ∨ ∃ ids b, sc = Some ids ∧ b ∈ ids ∧ ips !! b = Some a.
Proof.
  destruct sc as [ids|]; simpl; [|naive_solver].
  intros H. assert (sc' = Some (omap (λ id, ips !! id) ids)) as -> by (by destruct (omap _ ids); simplify_eq).
  split; [done|]. intros a. simpl. rewrite list_elem_of_omap. naive_solver.
Qed.

Lemma remapped_scope_gone ips sc :
  remapped_scope ips sc = None → ∃ ids, sc = Some ids ∧ ∀ b a, b ∈ ids → ips !! b ≠ Some a.
Proof.
  destruct sc as [ids|]; simpl; [|done]. destruct (omap _ ids) eqn:E; [|done]. intros _.
  exists ids. split; [done|]. intros b a Hb Ha.
  assert (a ∈ omap (λ id, ips !! id) ids) as Hin by (apply list_elem_of_omap; eauto).
  rewrite E in Hin. by apply elem_of_nil in Hin.
Qed.

(** A merge of credential assignments loses no reach and grants none.  After
    it a credential is used on an address exactly when the destination used it
    there, or the other host used it on all addresses, or on an address that
    became this one; and it is used on all addresses exactly when one of the two
    hosts did so. *)
Theorem merge_assignments_spec ips dest others c :
  NoDup (credential_id <$> dest) → NoDup (credential_id <$> others) →
  let merged := merge_assignments ips dest others in
  (∀ a, reaches merged c a ↔
     reaches dest c a ∨ scope_in others c = Some None
     ∨ ∃ ids b, scope_in others c = Some (Some ids) ∧ b ∈ ids ∧ ips !! b = Some a)
  ∧ (scope_in merged c = Some None ↔ scope_in dest c = Some None ∨ scope_in others c = Some None).
Proof.
  intros Hd Ho merged. unfold reaches, merged. rewrite merge_assignments_scope by done.
  destruct (scope_in others c) as [o|]; simpl.
  2: { destruct (scope_in dest c); naive_solver. }
  destruct (remapped_scope ips o) as [o'|] eqn:E; simpl.
  - destruct (remapped_scope_spec _ _ _ E) as [Hn Hc]. destruct (scope_in dest c) as [d|]; simpl.
    + split; [|by rewrite !(inj_iff Some), merge_scopes_None, Hn].
      intros a. specialize (Hc a). pose proof (merge_scopes_covers d o' a) as Hm. split.
      * intros (sc & [= <-] & [H|H]%Hm); [left; eauto|]. apply Hc in H. naive_solver.
      * intros H. exists (merge_scopes d o'). split; [done|]. apply Hm.
        destruct H as [(sc & [= <-] & H)|H]; [by left|right]. apply Hc. naive_solver.
    + split; [|rewrite !(inj_iff Some), Hn; naive_solver].
      intros a. specialize (Hc a). split.
      * intros (sc & [= <-] & H%Hc). right. naive_solver.
      * intros H. exists o'. split; [done|]. apply Hc. naive_solver.
  - destruct (remapped_scope_gone _ _ E) as (ids & -> & Hids). destruct (scope_in dest c); naive_solver.
Qed.

(** ** Failure half-way *)

Lemma move_services_frame fresh dest ds ips ports l w w' res :
  for_each (move_service fresh dest ds ips ports) l tt w = (w', res) →
  hosts w' = hosts w ∧ ip_rows w' = ip_rows w ∧ port_rows w' = port_rows w.
Proof.
  revert w. induction l as [|s l IH]; intros w; simpl; [by intros [= <- _]|].
  unfold mbind, SM_bind. unfold move_service at 1.
  destruct (is_duplicate_service ds s); [apply IH|]. unfold get. unfold mbind at 1, SM_bind at 1.
  destruct (update_service _ _ _) as [[u st]|e]; simpl; [|by intros [= <- _]].
  intros (H1 & H2 & H3)%IH. done.
Qed.

Lemma consolidate_failed fresh dest other w w' sid e :
  consolidate_hosts fresh dest other w = (w', Err (ServiceFailed sid e)) →
  h_id dest ≠ h_id other ∧ h_id <$> hosts w' = h_id <$> hosts w
  ∧ ip_rows w' = rehomed ip_id (set_ip_host (h_id dest)) (ip_standing w dest other)
                   (ips_of_host w (h_id other)) (ip_rows w).
Proof.
  unfold consolidate_hosts. intros [[=]|(w1 & w2 & [= <- <-] & H)]%bind_err.
  destruct (N.eqb_spec (h_id dest) (h_id other)) as [|Hne]; [done|].
  case_bool_decide; [done|]. cbv zeta in H. split; [done|].
  apply bind_err in H as [H|(wa & ips & Ha & H)]; [by rewrite move_ips_run in H|].
  rewrite move_ips_run in Ha. injection Ha as <- <-.
  apply bind_err in H as [H|(wb & ports & Hb & H)]; [by rewrite move_ports_run in H|].
  rewrite move_ports_run in Hb. injection Hb as <- <-.
  apply bind_err in H as [[=]|(wc & [] & [= <-] & H)].
  apply bind_err in H as [[=]|(wd & wd' & [= <- <-] & H)].
  apply bind_err in H as [He|(we & [] & _ & H)].
  - apply move_services_frame in He as (Hh & Hip & _). simpl in Hh, Hip. split; [|done].
    rewrite Hh. apply store_by_keys.
  - exfalso. apply bind_err in H as [[=]|(wf & wf' & [= <- <-] & H)].
    apply bind_err in H as [H|(wg & [] & _ & H)].
    { by destruct (assignments_of we (h_id other)). }
    apply bind_err in H as [H|(wh & [] & _ & [=])].
    unfold delete_host_inner in H. apply bind_err in H as [[=]|(wi & wi' & [= <- <-] & H)].
    case_bool_decide; [done|]. by destruct (List.find _ _).
Qed.

(** A consolidation that fails on a service is left half done: the addresses of
    the other host that the destination lacked have moved to the destination, and
    the other host is still there. *)
Theorem consolidate_failure_half_done fresh dest other w w' sid e :
  NoDup (ip_id <$> ip_rows w) →
  consolidate_hosts fresh dest other w = (w', Err (ServiceFailed sid e)) →
  h_id <$> hosts w' = h_id <$> hosts w
  ∧ ∀ i, i ∈ ips_of_host w (h_id other) → ip_standing w dest other i = None →
      set_ip_host (h_id dest) i ∈ ips_of_host w' (h_id dest) ∧ i ∉ ips_of_host w' (h_id other).
Proof.
  intros Hnd (Hne & Hh & Hrows)%consolidate_failed. split; [done|]. intros i Hi Hst.
  apply of_host_elem in Hi as [Hin Hown].
  assert (moves ip_id (ip_standing w dest other) (ips_of_host w (h_id other)) i = true) as Hm.
  { apply existsb_elem. exists i. split; [by apply of_host_elem|].
    by rewrite N.eqb_refl, bool_decide_eq_true_2. }
  rewrite (rehomed_eq ip_id) in Hrows;
    [|done|done|by apply NoDup_key_filter|by intros x [? _]%of_host_elem].
  split.
  - apply of_host_elem. split; [|done]. rewrite Hrows. apply list_elem_of_fmap. exists i. by rewrite Hm.
  - intros [Hin' _]%of_host_elem. rewrite Hrows in Hin'.
    apply list_elem_of_fmap in Hin' as (r & E & Hr).
    destruct (moves ip_id (ip_standing w dest other) (ips_of_host w (h_id other)) r) eqn:Er.
    + rewrite E in Hown. simpl in Hown. done.
    + congruence.
Qed.

(** ** Witnesses *)

Definition demo_port (id host : Uuid) : Port :=
  {| p_id := id; p_meta := fresh_meta 0;
     p_base := {| p_host_id := host; p_network_id := 1; port_type := Ssh |} |}.

Definition demo_named (id host port : Uuid) (name : string) : Service :=
  service_new id 0 {| sv_host_id := host; sv_network_id := 1; service_definition := name;
    sv_name := name; bindings := [demo_binding (id + 100) (BindPort port None)];
    virtualization_metadata := None; virtualization_service_id := None; source := SourceDiscovery;
    sv_tags := []; sv_position := 0 |}.

(** Hosts 7 and 8, each with an address and SSH open; [other_name] is what the
    service on host 8 is called. *)
Definition demo_world (other_name : string) : World := {|
  hosts := [demo_host_at 7; demo_host_at 8];
  ip_rows := [demo_row 1 7 1 None; demo_row 2 8 2 None];
  port_rows := [demo_port 11 7; demo_port 12 8];
  service_rows := [demo_named 21 7 11 "SSH"; demo_named 22 8 12 other_name];
  dependencies := []; host_credentials := ∅; daemon_hosts := ∅ |}.

Lemma consolidate_hosts_witness :
  ∃ w' r, consolidate_hosts (λ _, 90%N) (demo_host_at 7) (demo_host_at 8) (demo_world "SSH") = (w', Ok r)
    ∧ ∃ d, d ∈ ips_of_host w' 7 ∧ same_endpoint d (demo_row 2 8 2 None).
Proof.
  eexists _, _. split; [vm_compute; reflexivity|].
  eapply (consolidate_hosts_spec (λ _, 90%N) (demo_host_at 7) (demo_host_at 8) (demo_world "SSH"));
    [by apply (bool_decide_unpack (NoDup [1%N; 2%N]))|by apply (bool_decide_unpack (NoDup [11%N; 12%N]))
    |by apply (bool_decide_unpack (NoDup [21%N; 22%N]))|vm_compute; reflexivity|].
  vm_compute. left.
Defined.

(** The destination's SSH service and the other host's unclaimed ports both hold
    port 22: the merge fails after the address has moved. *)
Lemma consolidate_failure_witness :
  ∃ w' e, consolidate_hosts (λ _, 90%N) (demo_host_at 7) (demo_host_at 8)
            (demo_world "Unclaimed Open Ports") = (w', Err (ServiceFailed 22 e))
    ∧ set_ip_host 7 (demo_row 2 8 2 None) ∈ ips_of_host w' 7.
Proof.
  eexists _, _. split; [vm_compute; reflexivity|].
  eapply (consolidate_failure_half_done (λ _, 90%N) (demo_host_at 7) (demo_host_at 8)
    (demo_world "Unclaimed Open Ports"));
    [by apply (bool_decide_unpack (NoDup [1%N; 2%N]))|vm_compute; reflexivity| |by vm_compute].
  vm_compute. left.
Defined.

Lemma merge_assignments_witness :
  reaches (merge_assignments {[5%N := 6%N]} [{| credential_id := 1; ip_address_ids := Some [4%N] |}]
    [{| credential_id := 1; ip_address_ids := Some [5%N] |}]) 1 6.
Proof.
  apply (merge_assignments_spec {[5%N := 6%N]} [{| credential_id := 1; ip_address_ids := Some [4%N] |}]
    [{| credential_id := 1; ip_address_ids := Some [5%N] |}]);
    [apply list.NoDup_singleton|apply list.NoDup_singleton|].
  right. right. exists [5%N], 5%N. split; [done|]. split; [left|done].
Defined.
