(* ===== verification/Interfaces.v ===== *)
(** Network interfaces of a device: identity across scans.

    [server/interfaces/impl/base.rs], [preserve_immutable_fields] of
    [server/interfaces/impl/storage.rs],
    [InterfaceService::create_or_update_from_discovery] with
    [match_existing_interface] of [server/interfaces/service.rs], the interface
    loop and prune of [HostService::create_with_children]
    ([server/hosts/service/create.rs]) and [plan_interface_ip_links] of
    [server/hosts/service/discovery.rs].  Text is a list of bytes. *)

From S2P Require Import Prelude Net Ports Position Entities Lldp Hosts HostMatch.
Local Open Scope Z_scope.

(** ** Data *)

Record InterfaceDataComplete := { c_lldp : bool; c_cdp : bool; c_fdb : bool; c_vlan_membership : bool }.

Definition complete_default : InterfaceDataComplete :=
  {| c_lldp := true; c_cdp := true; c_fdb := true; c_vlan_membership := true |}.
Definition complete_all (c : InterfaceDataComplete) : bool :=
  c_lldp c && c_cdp c && c_fdb c && c_vlan_membership c.
Definition complete_none : InterfaceDataComplete :=
  {| c_lldp := false; c_cdp := false; c_fdb := false; c_vlan_membership := false |}.

Inductive Neighbor := NeighborInterface (id : Uuid) | NeighborHost (id : Uuid).

#[export] Instance Neighbor_eq_dec : EqDecision Neighbor.
Proof. solve_decision. Defined.

Definition neighbor_interface_id (n : Neighbor) : option Uuid :=
  match n with NeighborInterface id => Some id | NeighborHost _ => None end.
Definition is_full_resolution (n : Neighbor) : bool :=
  match n with NeighborInterface _ => true | NeighborHost _ => false end.

Inductive InterfaceLinkState := Linked | Unlinked.
Definition classify (n : option Neighbor) (referenced : bool) : InterfaceLinkState :=
  match n, referenced with Some _, _ | _, true => Linked | None, false => Unlinked end.

Inductive IfAdminStatus := AdminUp | AdminDown | AdminTesting.
Definition if_admin_of_i32 (z : Z) : IfAdminStatus :=
  if z =? 1 then AdminUp else if z =? 2 then AdminDown else if z =? 3 then AdminTesting else AdminUp.
Definition if_admin_to_i32 (s : IfAdminStatus) : Z :=
  match s with AdminUp => 1 | AdminDown => 2 | AdminTesting => 3 end.

Inductive IfOperStatus :=
| OperUp | OperDown | OperTesting | OperUnknown | Dormant | NotPresent | LowerLayerDown.
Definition if_oper_of_i32 (z : Z) : IfOperStatus :=
  if z =? 1 then OperUp else if z =? 2 then OperDown else if z =? 3 then OperTesting
  else if z =? 4 then OperUnknown else if z =? 5 then Dormant else if z =? 6 then NotPresent
  else if z =? 7 then LowerLayerDown else OperUnknown.
Definition if_oper_to_i32 (s : IfOperStatus) : Z :=
  match s with
  | OperUp => 1 | OperDown => 2 | OperTesting => 3 | OperUnknown => 4 | Dormant => 5
  | NotPresent => 6 | LowerLayerDown => 7
  end.

Record LldpData := {
  lldp_chassis_id : option LldpChassisId;
  lldp_port_id : option LldpPortId;
  lldp_sys_name : option bytes;
  lldp_port_desc : option bytes;
  lldp_mgmt_addr : option IpAddr;
  lldp_sys_desc : option bytes
}.
Record CdpData := {
  cdp_device_id : option bytes;
  cdp_port_id : option bytes;
  cdp_platform : option bytes;
  cdp_address : option IpAddr
}.
Record VlanData := { native_vlan_id : option Uuid; vlan_ids : option (list Uuid) }.

(** The columns of a row; those of one SNMP walk are grouped. *)
Record InterfaceBase := {
  if_host_id : Uuid;
  if_network_id : Uuid;
  if_index : Z;
  if_descr : bytes;
  if_name : option bytes;
  if_alias : option bytes;
  if_type : Z;
  speed_bps : option Z;
  admin_status : IfAdminStatus;
  oper_status : IfOperStatus;
  if_mac : option MacAddress;
  if_ip_address_id : option Uuid;
  neighbor : option Neighbor;
  lldp : LldpData;
  cdp : CdpData;
  fdb_macs : option (list bytes);
  vlans : VlanData
}.
Record InterfaceRow := { if_id : Uuid; if_meta : RowMeta; if_base : InterfaceBase }.

Definition default_interface_base : InterfaceBase := {|
  if_host_id := uuid_nil; if_network_id := uuid_nil; if_index := 0; if_descr := []; if_name := None;
  if_alias := None; if_type := 1; speed_bps := None; admin_status := AdminUp; oper_status := OperUp;
  if_mac := None; if_ip_address_id := None; neighbor := None;
  lldp := {| lldp_chassis_id := None; lldp_port_id := None; lldp_sys_name := None;
             lldp_port_desc := None; lldp_mgmt_addr := None; lldp_sys_desc := None |};
  cdp := {| cdp_device_id := None; cdp_port_id := None; cdp_platform := None; cdp_address := None |};
  fdb_macs := None; vlans := {| native_vlan_id := None; vlan_ids := None |} |}.

Definition interface_new (id : Uuid) (now : DateTime) (base : InterfaceBase) : InterfaceRow :=
  {| if_id := id; if_meta := fresh_meta now; if_base := base |}.

Definition interface_triggers_staleness (i : InterfaceRow) (other : option InterfaceRow) : bool :=
  match other with
  | Some o =>
      negb (bool_decide (neighbor (if_base i) = neighbor (if_base o)))
      || negb (bool_decide (if_ip_address_id (if_base i) = if_ip_address_id (if_base o)))
      || negb (if_host_id (if_base i) =? if_host_id (if_base o))%N
  | None => true
  end.

Definition is_up (i : InterfaceRow) : bool :=
  match oper_status (if_base i) with OperUp => true | _ => false end.
Definition is_admin_up (i : InterfaceRow) : bool :=
  match admin_status (if_base i) with AdminUp => true | _ => false end.
Definition display_name (i : InterfaceRow) : bytes :=
  default (if_descr (if_base i)) (if_alias (if_base i)).
Definition has_neighbor (i : InterfaceRow) : bool := bool_decide (is_Some (neighbor (if_base i))).
Definition has_full_neighbor_resolution (i : InterfaceRow) : bool :=
  match neighbor (if_base i) with Some n => is_full_resolution n | None => false end.
Definition has_lldp_data (i : InterfaceRow) : bool :=
  bool_decide (is_Some (lldp_chassis_id (lldp (if_base i))))
  || bool_decide (is_Some (lldp_port_id (lldp (if_base i)))).
Definition has_cdp_data (i : InterfaceRow) : bool :=
  bool_decide (is_Some (cdp_device_id (cdp (if_base i))))
  || bool_decide (is_Some (cdp_port_id (cdp (if_base i)))).

Definition SOFTWARE_LOOPBACK : Z := 24.
Definition EXCLUDED_IF_TYPES : list Z := [24; 53; 71; 131; 135; 136; 209].

(** Whether a port could only have been matched on a MAC. *)
Definition port_bound_by_mac (i : InterfaceRow) : bool :=
  match lldp_port_id (lldp (if_base i)) with
  | Some (PortMacAddress _) => true
  | _ =>
      bool_decide (lldp_chassis_id (lldp (if_base i)) = None)
      && bool_decide (cdp_device_id (cdp (if_base i)) = None)
      && match fdb_macs (if_base i) with Some [_] => true | _ => false end
  end.

(** ** Updates of a row *)

Definition with_base (f : InterfaceBase → InterfaceBase) (i : InterfaceRow) : InterfaceRow :=
  {| if_id := if_id i; if_meta := if_meta i; if_base := f (if_base i) |}.

Definition blank_to_none (t : option bytes) : option bytes :=
  match t with Some s => match trim s with [] => None | _ => t end | None => None end.

Definition normalize_blank_identity : InterfaceRow → InterfaceRow := with_base (λ b, {|
  if_host_id := if_host_id b; if_network_id := if_network_id b; if_index := if_index b;
  if_descr := if_descr b; if_name := blank_to_none (if_name b); if_alias := blank_to_none (if_alias b);
  if_type := if_type b; speed_bps := speed_bps b; admin_status := admin_status b;
  oper_status := oper_status b; if_mac := if_mac b; if_ip_address_id := if_ip_address_id b;
  neighbor := neighbor b; lldp := lldp b; cdp := cdp b; fdb_macs := fdb_macs b; vlans := vlans b |}).

Definition keep_if_absent {A} (existing incoming : option A) : option A :=
  match incoming with Some _ => incoming | None => existing end.

Definition set_created_at (t : DateTime) (m : RowMeta) : RowMeta := {|
  created_at := t; updated_at := updated_at m; Entities.valid_from := Entities.valid_from m;
  valid_to := valid_to m; lineage_id := lineage_id m; last_seen_at := last_seen_at m;
  last_discovery_id := last_discovery_id m; first_discovery_id := first_discovery_id m |}.

Definition preserve_immutable_fields (existing i : InterfaceRow) : InterfaceRow :=
  let e := if_base existing in
  let b := if_base i in
  {| if_id := if_id i; if_meta := set_created_at (created_at (if_meta existing)) (if_meta i);
     if_base := {|
       if_host_id := if_host_id b; if_network_id := if_network_id b; if_index := if_index b;
       if_descr := if_descr b; if_name := keep_if_absent (if_name e) (if_name b);
       if_alias := if_alias b; if_type := if_type b; speed_bps := speed_bps b;
       admin_status := admin_status b; oper_status := oper_status b;
       if_mac := match if_mac e with Some m => Some m | None => if_mac b end;
       if_ip_address_id := if_ip_address_id b; neighbor := keep_if_absent (neighbor e) (neighbor b);
       lldp := lldp b; cdp := cdp b; fdb_macs := fdb_macs b; vlans := vlans b |} |}.

Definition preserve_uncollected_data (existing : InterfaceRow) (collected : InterfaceDataComplete)
    (i : InterfaceRow) : InterfaceRow :=
  let e := if_base existing in
  with_base (λ b, {|
    if_host_id := if_host_id b; if_network_id := if_network_id b; if_index := if_index b;
    if_descr := if_descr b; if_name := if_name b; if_alias := if_alias b; if_type := if_type b;
    speed_bps := speed_bps b; admin_status := admin_status b; oper_status := oper_status b;
    if_mac := if_mac b; if_ip_address_id := if_ip_address_id b; neighbor := neighbor b;
    lldp := if c_lldp collected then lldp b else lldp e;
    cdp := if c_cdp collected then cdp b else cdp e;
    fdb_macs := if c_fdb collected then fdb_macs b else fdb_macs e;
    vlans := if c_vlan_membership collected then vlans b else vlans e |}) i.

Definition set_id (id : Uuid) (i : InterfaceRow) : InterfaceRow :=
  {| if_id := id; if_meta := if_meta i; if_base := if_base i |}.

Definition originate_interface (i : InterfaceRow) : InterfaceRow :=
  let m := if_meta i in
  {| if_id := if_id i;
     if_meta := {| created_at := last_seen_at m; updated_at := updated_at m;
                   Entities.valid_from := last_seen_at m; valid_to := valid_to m;
                   lineage_id := lineage_id m; last_seen_at := last_seen_at m;
                   last_discovery_id := last_discovery_id m;
                   first_discovery_id := first_discovery_id m |};
     if_base := if_base i |}.

(** ** [match_existing_interface] *)

Definition match_existing_interface (entry : InterfaceRow) (existing : list InterfaceRow)
    (claimed : gset Uuid) : option Uuid :=
  let available := List.filter (λ e, negb (bool_decide (if_id e ∈ claimed))) existing in
  let by_name :=
    name ← if_name (if_base entry);
    if_id <$> List.find (λ e, bool_decide (if_name (if_base e) = Some name)) available in
  match by_name with
  | Some id => Some id
  | None =>
      match List.find (λ e, if_index (if_base e) =? if_index (if_base entry)) available with
      | Some e => Some (if_id e)
      | None =>
          match if_mac (if_base entry) with
          | Some mac =>
              match List.filter (λ e, bool_decide (if_mac (if_base e) = Some mac)) available with
              | [e] => Some (if_id e)
              | _ => None
              end
          | None => None
          end
      end
  end.

(** ** The batch

    [persists] stands for the database's verdict on a row (a unique index, a value
    it cannot store): rows it refuses are skipped.  [ids] are the rows of the host
    by id; [order] is [get_for_host]'s ORDER BY. *)

Definition store_if (r : InterfaceRow) (l : list InterfaceRow) : list InterfaceRow :=
  (λ x, if (if_id x =? if_id r)%N then r else x) <$> l.

Definition if_index_leb (a b : InterfaceRow) : bool := if_index (if_base a) <=? if_index (if_base b).

Definition for_host (h : Uuid) (rows : list InterfaceRow) : list InterfaceRow :=
  sort_by if_index_leb (List.filter (λ r, (if_host_id (if_base r) =? h)%N) rows).

Section Batch.
Context (persists : InterfaceRow → list InterfaceRow → bool).

(** The row stored and the table after; [None] when the write is refused. *)
Definition create_or_update_from_discovery (entry : InterfaceRow) (claimed : gset Uuid)
    (collected : InterfaceDataComplete) (rows : list InterfaceRow)
    : option (InterfaceRow * list InterfaceRow) :=
  let entry := normalize_blank_identity entry in
  let existing := for_host (if_host_id (if_base entry)) rows in
  match match_existing_interface entry existing claimed ≫= λ id, List.find (λ e, (if_id e =? id)%N) existing with
  | Some e =>
      let updated := preserve_uncollected_data e collected
                       (preserve_immutable_fields e (set_id (if_id e) entry)) in
      if persists updated rows then Some (updated, store_if updated rows) else None
  | None =>
      let created := originate_interface entry in
      if persists created rows then Some (created, rows ++ [created]) else None
  end.

Record Batch := {
  b_rows : list InterfaceRow;
  b_created : list InterfaceRow;
  b_skipped : nat;
  b_claimed : gset Uuid
}.

Definition set_if_host (h n : Uuid) : InterfaceRow → InterfaceRow := with_base (λ b, {|
  if_host_id := h; if_network_id := n; if_index := if_index b; if_descr := if_descr b;
  if_name := if_name b; if_alias := if_alias b; if_type := if_type b; speed_bps := speed_bps b;
  admin_status := admin_status b; oper_status := oper_status b; if_mac := if_mac b;
  if_ip_address_id := if_ip_address_id b; neighbor := neighbor b; lldp := lldp b; cdp := cdp b;
  fdb_macs := fdb_macs b; vlans := vlans b |}).

Definition batch_step (h n : Uuid) (collected : InterfaceDataComplete) (b : Batch) (entry : InterfaceRow)
    : Batch :=
  match create_or_update_from_discovery (set_if_host h n entry) (b_claimed b) collected (b_rows b) with
  | Some (created, rows) =>
      {| b_rows := rows; b_created := b_created b ++ [created]; b_skipped := b_skipped b;
         b_claimed := {[if_id created]} ∪ b_claimed b |}
  | None =>
      {| b_rows := b_rows b; b_created := b_created b; b_skipped := S (b_skipped b);
         b_claimed := b_claimed b |}
  end.

Definition ingest (h n : Uuid) (collected : InterfaceDataComplete) (rows incoming : list InterfaceRow)
    : Batch :=
  foldl (batch_step h n collected)
    {| b_rows := rows; b_created := []; b_skipped := 0; b_claimed := ∅ |} incoming.

(** The prune of interfaces no longer reported. *)
Definition prune (h : Uuid) (interfaces_complete : bool) (b : Batch) : list InterfaceRow :=
  if should_prune_interfaces interfaces_complete (length (b_created b)) (b_skipped b) then
    List.filter (λ r, negb (if_host_id (if_base r) =? h)%N
                      || bool_decide (if_id r ∈ if_id <$> b_created b)) (b_rows b)
  else b_rows b.
End Batch.

(** ** [plan_interface_ip_links] *)

Definition interfaces_per_mac (l : list InterfaceRow) : gmap Z nat :=
  foldl (λ acc mac, <[mac := S (default 0%nat (acc !! mac))]> acc) ∅ (omap (λ i, if_mac (if_base i)) l).

(** A [HashMap] collected from pairs: the last address of a MAC wins. *)
Definition ip_by_mac (ips : list IPAddress) : gmap Z Uuid :=
  foldl (λ m ip, match mac_address (ip_base ip) with Some mac => <[mac := ip_id ip]> m | None => m end)
    ∅ ips.

Definition link_target (ips : list IPAddress) (interfaces : list InterfaceRow) (i : InterfaceRow)
    : option Uuid :=
  if if_type (if_base i) =? SOFTWARE_LOOPBACK
  then ip_id <$> List.find row_loopback ips
  else mac ← if_mac (if_base i);
       if bool_decide (interfaces_per_mac interfaces !! mac = Some 1%nat)
       then ip_by_mac ips !! mac else None.

Definition plan_interface_ip_links (interfaces : list InterfaceRow) (ips : list IPAddress)
    : list (Uuid * Uuid) :=
  omap (λ i, match if_ip_address_id (if_base i) with
             | Some _ => None
             | None => (λ t, (if_id i, t)) <$> link_target ips interfaces i
             end) interfaces.

(** ** The matcher *)

(** How strongly an existing row is the same port as an incoming one. *)
Definition same_name (e entry : InterfaceRow) : Prop :=
  ∃ n, if_name (if_base entry) = Some n ∧ if_name (if_base e) = Some n.
Definition same_index (e entry : InterfaceRow) : Prop :=
  if_index (if_base e) = if_index (if_base entry).
Definition same_mac (e entry : InterfaceRow) : Prop :=
  ∃ m, if_mac (if_base entry) = Some m ∧ if_mac (if_base e) = Some m.

Lemma available_elem (existing : list InterfaceRow) (claimed : gset Uuid) e :
  e ∈ List.filter (λ e, negb (bool_decide (if_id e ∈ claimed))) existing ↔
  e ∈ existing ∧ if_id e ∉ claimed.
Proof. rewrite elem_of_list_filter_bool, negb_true_iff, bool_decide_eq_false. tauto. Qed.

(** A match is a free row, found by the strongest tier that has one. *)
Definition tier_match (entry : InterfaceRow) (avail : list InterfaceRow) (e : InterfaceRow) : Prop :=
  same_name e entry
  ∨ (same_index e entry ∧ ∀ x, x ∈ avail → ¬ same_name x entry)
  ∨ (same_mac e entry ∧ (∀ x, x ∈ avail → same_mac x entry → x = e)
     ∧ ∀ x, x ∈ avail → ¬ same_name x entry ∧ ¬ same_index x entry).

Definition free_rows (existing : list InterfaceRow) (claimed : gset Uuid) : list InterfaceRow :=
  List.filter (λ e, negb (bool_decide (if_id e ∈ claimed))) existing.

Lemma free_rows_elem existing claimed e :
  e ∈ free_rows existing claimed ↔ e ∈ existing ∧ if_id e ∉ claimed.
Proof.
  unfold free_rows. rewrite elem_of_list_filter_bool, negb_true_iff, bool_decide_eq_false. tauto.
Qed.

Lemma find_name_None entry avail :
  (name ← if_name (if_base entry);
   if_id <$> List.find (λ e, bool_decide (if_name (if_base e) = Some name)) avail) = None →
  ∀ x, x ∈ avail → ¬ same_name x entry.
Proof.
  intros H x Hx (n & Hn & Hx'). rewrite Hn in H. simpl in H. apply fmap_None in H.
  apply find_none with (x := x) in H; [|by apply list_elem_of_In].
  by apply bool_decide_eq_false in H.
Qed.

Lemma match_existing_tiers entry existing claimed id :
  match_existing_interface entry existing claimed = Some id →
  ∃ e, e ∈ free_rows existing claimed ∧ if_id e = id ∧ tier_match entry (free_rows existing claimed) e.
Proof.
  unfold match_existing_interface. fold (free_rows existing claimed).
  set (avail := free_rows existing claimed). destruct (_ ≫= _) as [x|] eqn:En.
  - intros [= <-]. apply bind_Some in En as (n & Hn & (e & Hf & ->)%fmap_Some).
    apply find_some in Hf as [He%list_elem_of_In Hb%bool_decide_eq_true].
    exists e. split_and!; [done|done|]. left. by exists n.
  - pose proof (find_name_None entry avail En) as Hno.
    destruct (List.find _ avail) as [e|] eqn:Ei.
    + intros [= <-]. apply find_some in Ei as [He%list_elem_of_In Hb%Z.eqb_eq].
      exists e. split_and!; [done|done|]. right. by left.
    + destruct (if_mac (if_base entry)) as [m|] eqn:Em; [|done].
      destruct (List.filter (λ e, bool_decide (if_mac (if_base e) = Some m)) avail)
        as [|e [|]] eqn:Ef; [done| |done]. intros [= <-].
      assert (∀ e', e' ∈ [e] ↔ if_mac (if_base e') = Some m ∧ e' ∈ avail) as Hel.
      { intros e'. by rewrite <- Ef, elem_of_list_filter_bool, bool_decide_eq_true. }
      destruct (proj1 (Hel e)) as [Hm He]; [left|].
      exists e. split_and!; [done|done|]. right. right. split_and!; [by exists m| |].
      * intros x Hx (m' & E & Hm'). apply list_elem_of_singleton, Hel. split; [congruence|done].
      * intros x Hx. split; [by apply Hno|]. unfold same_index. intros E.
        apply find_none with (x := x) in Ei; [|by apply list_elem_of_In].
        apply Z.eqb_neq in Ei. done.
Qed.

(** The interface matcher never reuses a row within a scan, prefers the
    stronger identity and treats a shared MAC as no identity.  A match is a row of
    the host that no earlier interface of the batch took; it has the incoming
    name, or has the incoming index while no free row has the name, or is the only
    free row with the incoming MAC while no free row has the name or the index.
    No match means no free row has the name or the index. *)
Theorem match_existing_interface_spec entry existing claimed :
  match match_existing_interface entry existing claimed with
  | Some id => ∃ e, e ∈ existing ∧ if_id e = id ∧ id ∉ claimed
                    ∧ tier_match entry (free_rows existing claimed) e
  | None => ∀ x, x ∈ existing → if_id x ∉ claimed → ¬ same_name x entry ∧ ¬ same_index x entry
  end.
Proof.
  destruct (match_existing_interface entry existing claimed) as [id|] eqn:E.
  - apply match_existing_tiers in E as (e & [He Hc]%free_rows_elem & <- & Ht). by exists e.
  - intros x Hx Hc. assert (x ∈ free_rows existing claimed) as Hf by (by apply free_rows_elem).
    revert E. unfold match_existing_interface. fold (free_rows existing claimed).
    destruct (_ ≫= _) as [y|] eqn:En; [done|]. destruct (List.find _ _) as [y|] eqn:Ei; [done|].
    intros _. split; [by eapply find_name_None|]. unfold same_index. intros E.
    apply find_none with (x := x) in Ei; [|by apply list_elem_of_In]. by apply Z.eqb_neq in Ei.
Qed.

(** ** The batch *)

Section BatchFacts.
Context (persists : InterfaceRow → list InterfaceRow → bool).

Lemma for_host_elem h rows r : r ∈ for_host h rows ↔ r ∈ rows ∧ if_host_id (if_base r) = h.
Proof.
  unfold for_host. rewrite sort_by_perm, elem_of_list_filter_bool, N.eqb_eq. tauto.
Qed.

(** What one interface does to the table. *)
Lemma create_or_update_cases entry claimed collected rows created rows' :
  create_or_update_from_discovery persists entry claimed collected rows = Some (created, rows') →
  (∃ e, e ∈ rows ∧ if_id e ∉ claimed ∧ if_host_id (if_base e) = if_host_id (if_base entry)
        ∧ created = preserve_uncollected_data e collected
                      (preserve_immutable_fields e (set_id (if_id e) (normalize_blank_identity entry)))
        ∧ rows' = store_if created rows)
  ∨ (created = originate_interface (normalize_blank_identity entry) ∧ rows' = rows ++ [created]).
Proof.
  unfold create_or_update_from_discovery. cbv zeta.
  destruct (_ ≫= _) as [e|] eqn:Em.
  - case_match; [|done]. intros [= <- <-]. left.
    apply bind_Some in Em as (id & Hm & Hf). apply find_some in Hf as [He%list_elem_of_In Hid%N.eqb_eq].
    apply match_existing_tiers in Hm as (e' & [_ Hc]%free_rows_elem & E & _).
    apply for_host_elem in He as [He Hh]. exists e. split_and!; try done. congruence.
  - case_match; [|done]. intros [= <- <-]. by right.
Qed.

Lemma store_if_ids r l : if_id <$> store_if r l = if_id <$> l.
Proof.
  unfold store_if. rewrite <- list_fmap_compose. apply list_fmap_ext. intros j x _. simpl.
  by destruct (N.eqb_spec (if_id x) (if_id r)).
Qed.

(** The invariant of the loop after the interfaces [ins] of a table [rows0]. *)
Record batch_ok (rows0 ins : list InterfaceRow) (b : Batch) : Prop := {
  bo_rows : NoDup (if_id <$> b_rows b);
  bo_created : NoDup (if_id <$> b_created b);
  bo_claimed : ∀ id, id ∈ b_claimed b ↔ id ∈ if_id <$> b_created b;
  bo_stored : ∀ r, r ∈ b_created b → r ∈ b_rows b;
  bo_ids : ∀ id, id ∈ if_id <$> b_rows b → id ∈ if_id <$> rows0 ∨ id ∈ if_id <$> ins;
  bo_kept : ∀ r, r ∈ rows0 → r ∈ b_rows b ∨ if_id r ∈ b_claimed b;
  bo_kept_ids : ∀ id, id ∈ if_id <$> rows0 → id ∈ if_id <$> b_rows b;
  bo_count : (length (b_created b) + b_skipped b = length ins)%nat
}.

(** The table after an interface was stored over a free row. *)
Lemma batch_update_ok rows0 ins b entry c e :
  batch_ok rows0 ins b → e ∈ b_rows b → if_id e ∉ b_claimed b → if_id c = if_id e →
  batch_ok rows0 (ins ++ [entry])
    {| b_rows := store_if c (b_rows b); b_created := b_created b ++ [c]; b_skipped := b_skipped b;
       b_claimed := {[if_id c]} ∪ b_claimed b |}.
Proof.
  intros [H1 H2 H3 H4 H5 H6 H7 H8] He Hc Hid.
  assert (∀ r, r ∈ b_rows b → if_id r ≠ if_id c → r ∈ store_if c (b_rows b)) as Hkeep.
  { intros r Hr Hne. apply list_elem_of_fmap. exists r. by destruct (N.eqb_spec (if_id r) (if_id c)). }
  assert (if_id c ∉ if_id <$> b_created b) as Hfree by (by rewrite Hid, <- H3).
  constructor; simpl; rewrite ?store_if_ids.
  - done.
  - by apply NoDup_fmap_snoc.
  - intros id. rewrite elem_of_fmap_snoc, elem_of_union, elem_of_singleton, H3. tauto.
  - intros r [Hr| ->%list_elem_of_singleton]%elem_of_app.
    + apply Hkeep; [auto|]. intros E. apply Hfree. rewrite <- E. apply list_elem_of_fmap. eauto.
    + apply list_elem_of_fmap. exists e. by rewrite Hid, N.eqb_refl.
  - intros id [?|?]%H5; rewrite elem_of_fmap_snoc; auto.
  - intros r Hr. rewrite elem_of_union, elem_of_singleton. destruct (H6 r Hr) as [Hx|Hx]; [|by auto].
    destruct (decide (if_id r = if_id c)); auto.
  - done.
  - rewrite !length_app. simpl. lia.
Qed.

(** The table after a row was inserted. *)
Lemma batch_insert_ok rows0 ins b entry c :
  batch_ok rows0 ins b → if_id c ∉ if_id <$> b_rows b → if_id c = if_id entry →
  batch_ok rows0 (ins ++ [entry])
    {| b_rows := b_rows b ++ [c]; b_created := b_created b ++ [c]; b_skipped := b_skipped b;
       b_claimed := {[if_id c]} ∪ b_claimed b |}.
Proof.
  intros [H1 H2 H3 H4 H5 H6 H7 H8] Hnew Hid. constructor; simpl.
  - by apply NoDup_fmap_snoc.
  - apply NoDup_fmap_snoc; [done|]. intros (r & E & Hr)%list_elem_of_fmap. apply Hnew.
    rewrite E. apply list_elem_of_fmap. eauto.
  - intros id. rewrite elem_of_fmap_snoc, elem_of_union, elem_of_singleton, H3. tauto.
  - intros r [Hr| ->%list_elem_of_singleton]%elem_of_app; apply elem_of_app; [left; auto|right; by left].
  - intros id. rewrite !elem_of_fmap_snoc, Hid. intros [Hx| ->]; [apply H5 in Hx|]; tauto.
  - intros r Hr. rewrite elem_of_app, elem_of_union. destruct (H6 r Hr); auto.
  - intros id Hx. rewrite elem_of_fmap_snoc. auto.
  - rewrite !length_app. simpl. lia.
Qed.

Lemma batch_step_ok h n collected rows0 ins b entry :
  batch_ok rows0 ins b → if_id entry ∉ if_id <$> rows0 → if_id entry ∉ if_id <$> ins →
  batch_ok rows0 (ins ++ [entry]) (batch_step persists h n collected b entry).
Proof.
  intros Hb Hn0 Hni. unfold batch_step.
  destruct (create_or_update_from_discovery persists _ _ _ _) as [[c rows']|] eqn:E.
  - apply create_or_update_cases in E as [(e & He & Hc & _ & -> & ->)|[-> ->]].
    + by eapply batch_update_ok.
    + apply batch_insert_ok; [done| |done]. by intros [?|?]%(bo_ids _ _ _ Hb).
  - destruct Hb as [H1 H2 H3 H4 H5 H6 H7 H8]. constructor; simpl; auto.
    + intros id [?|?]%H5; rewrite elem_of_fmap_snoc; auto.
    + rewrite length_app. simpl. lia.
Qed.

Lemma ingest_ok h n collected rows incoming :
  NoDup (if_id <$> rows ++ incoming) →
  batch_ok rows incoming (ingest persists h n collected rows incoming).
Proof.
  intros Hnd. rewrite fmap_app in Hnd. apply list.NoDup_app in Hnd as (Hr & Hdis & Hi).
  unfold ingest. induction incoming as [|x l IH] using rev_ind.
  - constructor; simpl; auto; try set_solver.
  - rewrite foldl_app. simpl. rewrite fmap_app in Hi.
    apply list.NoDup_app in Hi as (Hi & Hx & _). apply batch_step_ok.
    + apply IH; [|done]. intros y Hy Hy'. apply (Hdis y Hy), elem_of_fmap_snoc. by left.
    + intros H. apply (Hdis _ H), elem_of_fmap_snoc. by right.
    + intros H. apply (Hx _ H). by left.
Qed.

(** C26. A scan never collapses interfaces onto one another.  Every reported
    interface that the database accepts ends up as a row of its own (the rows of
    the batch have distinct ids, one per interface that was not skipped), no id of
    the table is lost, and every row the scan did not take is untouched, whatever
    the interfaces share: names, indices or one chassis MAC. *)
Theorem ingest_never_collapses h n collected rows incoming :
  NoDup (if_id <$> rows ++ incoming) →
  let b := ingest persists h n collected rows incoming in
  NoDup (if_id <$> b_rows b) ∧ NoDup (if_id <$> b_created b)
  ∧ (∀ r, r ∈ b_created b → r ∈ b_rows b)
  ∧ (length (b_created b) + b_skipped b = length incoming)%nat
  ∧ (∀ id, id ∈ if_id <$> rows → id ∈ if_id <$> b_rows b)
  ∧ (∀ r, r ∈ rows → if_id r ∉ if_id <$> b_created b → r ∈ b_rows b).
Proof.
  intros Hnd. destruct (ingest_ok h n collected rows incoming Hnd) as [H1 H2 H3 H4 H5 H6 H7 H8].
  cbv zeta. split_and!; auto. intros r Hr Hc. destruct (H6 r Hr) as [?|?%H3]; done.
Qed.

(** Pruning only acts on an authoritative scan.  Rows of other hosts survive;
    when the interface table was read in full, is not empty and every interface of
    it was stored, the host keeps exactly the rows of the scan; in every other
    case no row is removed. *)
Theorem prune_spec h n collected rows incoming complete r :
  NoDup (if_id <$> rows ++ incoming) →
  let b := ingest persists h n collected rows incoming in
  r ∈ b_rows b →
  (r ∈ prune h complete b ↔
   if_host_id (if_base r) ≠ h ∨ r ∈ b_created b
   ∨ complete = false ∨ b_created b = [] ∨ b_skipped b ≠ 0%nat).
Proof.
  intros Hnd b Hr. destruct (ingest_ok h n collected rows incoming Hnd) as [H1 H2 H3 H4 H5 H6 H7 H8].
  fold b in H1, H2, H3, H4, H5, H6, H7, H8.
  assert (if_id r ∈ if_id <$> b_created b ↔ r ∈ b_created b) as Hin.
  { rewrite list_elem_of_fmap. split; [|eauto]. intros (c & E & Hc).
    by rewrite (NoDup_key_inj if_id (b_rows b) r c H1 Hr (H4 c Hc) E). }
  unfold prune, should_prune_interfaces.
  destruct complete; simpl; [|tauto].
  destruct (b_created b) as [|c cs] eqn:Ec; simpl; [tauto|].
  destruct (Nat.eqb_spec (b_skipped b) 0) as [Es|Es]; simpl; [|tauto].
  rewrite elem_of_list_filter_bool, orb_true_iff, negb_true_iff, N.eqb_neq, bool_decide_eq_true.
  rewrite <- fmap_cons, Hin. naive_solver.
Qed.

(** Rediscovering an interface keeps what the scan could not see.  The row
    stored over an existing one keeps its id and its creation time, its MAC once
    set, its name and its resolved neighbour when the scan reports none, and every
    group of columns whose walk did not finish; a group that was read in full is
    taken from the scan, absent values included. *)
Theorem rediscovery_preserves entry claimed collected rows c rows' e :
  create_or_update_from_discovery persists entry claimed collected rows = Some (c, rows') →
  NoDup (if_id <$> rows) → e ∈ rows → if_id e = if_id c → if_id c ≠ if_id entry →
  let b := if_base c in
  created_at (if_meta c) = created_at (if_meta e)
  ∧ (∀ m, if_mac (if_base e) = Some m → if_mac b = Some m)
  ∧ (is_Some (if_name (if_base e)) → is_Some (if_name b))
  ∧ (neighbor (if_base entry) = None → neighbor b = neighbor (if_base e))
  ∧ lldp b = lldp (if_base (if c_lldp collected then entry else e))
  ∧ cdp b = cdp (if_base (if c_cdp collected then entry else e))
  ∧ fdb_macs b = fdb_macs (if_base (if c_fdb collected then entry else e))
  ∧ vlans b = vlans (if_base (if c_vlan_membership collected then entry else e)).
Proof.
  intros Hc Hnd He Hid Hne.
  apply create_or_update_cases in Hc as [(e' & He' & _ & _ & -> & _)|[-> _]]; [|done].
  rewrite (NoDup_key_inj if_id rows e e' Hnd He He' Hid) in *. cbv zeta. simpl.
  split_and!; [done|by intros m ->| | |by destruct (c_lldp collected)|by destruct (c_cdp collected)
    |by destruct (c_fdb collected)|by destruct (c_vlan_membership collected)].
  - intros [n ->]. by destruct (blank_to_none (if_name (if_base entry))).
  - by intros ->.
Qed.

(** Rediscovering an interface forgets its history.  Whatever row is written,
    its [first_discovery_id], [last_discovery_id], [lineage_id] and [valid_to] are
    those of the payload, so a payload from a daemon (which never carries them)
    clears the discovery that first observed the interface; and over an existing
    row its [valid_from] is the payload's too. *)
Theorem rediscovery_forgets_first_discovery entry claimed collected rows c rows' :
  create_or_update_from_discovery persists entry claimed collected rows = Some (c, rows') →
  first_discovery_id (if_meta c) = first_discovery_id (if_meta entry)
  ∧ last_discovery_id (if_meta c) = last_discovery_id (if_meta entry)
  ∧ lineage_id (if_meta c) = lineage_id (if_meta entry)
  ∧ (if_id c ≠ if_id entry → Entities.valid_from (if_meta c) = Entities.valid_from (if_meta entry)).
Proof. by intros [(e & _ & _ & _ & -> & _)|[-> _]]%create_or_update_cases. Qed.
End BatchFacts.

(** ** Links to addresses *)

Lemma ip_by_mac_sound ips m id :
  ip_by_mac ips !! m = Some id →
  ∃ ip, ip ∈ ips ∧ mac_address (ip_base ip) = Some m ∧ ip_id ip = id.
Proof.
  unfold ip_by_mac. induction ips as [|ip ips IH] using rev_ind; [done|].
  rewrite foldl_app. simpl. destruct (mac_address (ip_base ip)) as [m'|] eqn:E.
  - destruct (decide (m' = m)) as [->|Hne].
    + rewrite lookup_insert_eq. intros [= <-]. exists ip. split; [|done]. apply elem_of_app. right. by left.
    + rewrite lookup_insert_ne by done. intros (x & Hx & H)%IH. exists x. split; [|done].
      apply elem_of_app. by left.
  - intros (x & Hx & H)%IH. exists x. split; [|done]. apply elem_of_app. by left.
Qed.

Lemma interfaces_per_mac_spec l m :
  default 0%nat (interfaces_per_mac l !! m)
  = length (List.filter (Z.eqb m) (omap (λ i, if_mac (if_base i)) l)).
Proof. unfold interfaces_per_mac. by rewrite (mac_counts_fold _ ∅ m). Qed.

(** A link from an interface to an address is unambiguous: only unlinked
    interfaces are linked, a software loopback to a loopback address of the host,
    and any other interface to an address with its own MAC, and then only if no
    other interface of the host carries that MAC. *)
Theorem plan_interface_ip_links_sound interfaces ips i_id t :
  (i_id, t) ∈ plan_interface_ip_links interfaces ips →
  ∃ i ip, i ∈ interfaces ∧ if_id i = i_id ∧ if_ip_address_id (if_base i) = None
    ∧ ip ∈ ips ∧ ip_id ip = t
    ∧ ((if_type (if_base i) = SOFTWARE_LOOPBACK ∧ row_loopback ip = true)
       ∨ ∃ m, if_mac (if_base i) = Some m ∧ mac_address (ip_base ip) = Some m
              ∧ length (List.filter (Z.eqb m) (omap (λ i, if_mac (if_base i)) interfaces)) = 1%nat).
Proof.
  unfold plan_interface_ip_links. intros (i & Hi & E)%list_elem_of_omap.
  destruct (if_ip_address_id (if_base i)) eqn:Eip; [done|].
  apply fmap_Some in E as (t' & Ht & [= -> ->]). unfold link_target in Ht.
  destruct (Z.eqb_spec (if_type (if_base i)) SOFTWARE_LOOPBACK) as [El|_].
  - apply fmap_Some in Ht as (ip & Hf & ->). apply find_some in Hf as [Hin%list_elem_of_In Hl].
    exists i, ip. split_and!; try done. by left.
  - apply bind_Some in Ht as (m & Hm & Ht). case_bool_decide as Hc; [|done].
    apply ip_by_mac_sound in Ht as (ip & Hin & Hmac & <-). exists i, ip. split_and!; try done.
    right. exists m. split_and!; try done. by rewrite <- interfaces_per_mac_spec, Hc.
Qed.

(** ** Witnesses *)

Definition demo_if (id : Uuid) (index : Z) (name : option bytes) (mac : option MacAddress) : InterfaceRow :=
  interface_new id 0 {| if_host_id := 2; if_network_id := 1; if_index := index; if_descr := [];
    if_name := name; if_alias := None; if_type := 6; speed_bps := None; admin_status := AdminUp;
    oper_status := OperUp; if_mac := mac; if_ip_address_id := None; neighbor := None;
    lldp := lldp default_interface_base; cdp := cdp default_interface_base; fdb_macs := None;
    vlans := vlans default_interface_base |}.

(** A switch with one chassis MAC on every port. *)
Definition demo_switch : list InterfaceRow :=
  [demo_if 11 49153 None (Some 0x1122); demo_if 12 49154 None (Some 0x1122);
   demo_if 13 49155 None (Some 0x1122)].
Definition demo_mgmt : InterfaceRow := demo_if 1 1 (Some [118]) (Some 0x1122).

Lemma demo_switch_ids : NoDup (if_id <$> [demo_mgmt] ++ demo_switch).
Proof. by apply (bool_decide_unpack (NoDup [1%N; 11%N; 12%N; 13%N])). Qed.

Lemma ingest_never_collapses_witness :
  NoDup (if_id <$> b_created (ingest (λ _ _, true) 2 1 complete_default [demo_mgmt] demo_switch)).
Proof.
  apply (ingest_never_collapses (λ _ _, true) 2 1 complete_default [demo_mgmt] demo_switch).
  apply demo_switch_ids.
Defined.

Lemma prune_spec_witness :
  demo_if 11 49153 None (Some 0x1122)
  ∈ prune 2 false (ingest (λ _ _, false) 2 1 complete_default
                     [demo_if 11 49153 None (Some 0x1122)] [demo_mgmt]).
Proof.
  apply (prune_spec (λ _ _, false) 2 1 complete_default [demo_if 11 49153 None (Some 0x1122)]
           [demo_mgmt] false).
  - by apply (bool_decide_unpack (NoDup [11%N; 1%N])).
  - left.
  - by do 2 right; left.
Defined.

Lemma rediscovery_preserves_witness :
  ∃ c rows', create_or_update_from_discovery (λ _ _, true) (demo_if 20 1 None None) ∅ complete_none
               [demo_mgmt] = Some (c, rows') ∧ if_mac (if_base c) = Some 0x1122.
Proof.
  eexists _, _. split; [reflexivity|].
  eapply (rediscovery_preserves (λ _ _, true) (demo_if 20 1 None None) ∅ complete_none [demo_mgmt] _ _
            demo_mgmt);
    [reflexivity|by apply (bool_decide_unpack (NoDup [1%N]))|left|done|done|done].
Defined.

Definition demo_seen : InterfaceRow :=
  {| if_id := 1;
     if_meta := {| created_at := 5; updated_at := 5; Entities.valid_from := 5; valid_to := None;
                   lineage_id := None; last_seen_at := 5; last_discovery_id := Some 7%N;
                   first_discovery_id := Some 7%N |};
     if_base := if_base demo_mgmt |}.

Lemma rediscovery_forgets_witness :
  ∃ c rows', create_or_update_from_discovery (λ _ _, true) (demo_if 20 1 None None) ∅ complete_none
               [demo_seen] = Some (c, rows') ∧ if_id c = if_id demo_seen
             ∧ first_discovery_id (if_meta c) = None.
Proof.
  eexists _, _. split; [reflexivity|]. split; [reflexivity|].
  eapply (rediscovery_forgets_first_discovery (λ _ _, true) (demo_if 20 1 None None) ∅ complete_none
            [demo_seen]). reflexivity.
Defined.

Lemma plan_interface_ip_links_witness :
  ∃ i ip, i ∈ [demo_mgmt] ∧ if_id i = 1%N ∧ ip ∈ [demo_row 9 2 1 (Some 0x1122)] ∧ ip_id ip = 9%N.
Proof.
  destruct (plan_interface_ip_links_sound [demo_mgmt] [demo_row 9 2 1 (Some 0x1122)] 1 9)
    as (i & ip & ? & ? & _ & ? & ? & _); [vm_compute; left|]. by exists i, ip.
Defined.
