(* ===== verification/Neighbors.v ===== *)
(** Resolving LLDP/CDP neighbours to hosts and ports.

    [server/hosts/service/topology/{mod,reciprocal}.rs] and [LldpResolutionStats]
    of [server/hosts/service/mod.rs].  The resolver is the interface of [Lldp];
    [mac_text] is the text form of a MAC (the [mac_address] crate).  Rows read
    from the database are the arguments; what the pass writes is its result. *)

From S2P Require Import Prelude Net Ports Position Entities Lldp Hosts HostMatch Interfaces.
Local Open Scope Z_scope.

(** ** Statistics *)

Record LldpResolutionStats := {
  total : nat;
  hosts_resolved : nat;
  ports_resolved : nat;
  ports_resolved_reciprocal : nat;
  host_no_strategy : nat;
  host_not_found : nat;
  port_no_strategy : nat;
  port_not_found : nat;
  port_ambiguous : nat
}.

Definition stats0 : LldpResolutionStats := {|
  total := 0; hosts_resolved := 0; ports_resolved := 0; ports_resolved_reciprocal := 0;
  host_no_strategy := 0; host_not_found := 0; port_no_strategy := 0; port_not_found := 0;
  port_ambiguous := 0 |}.

(** Increments, by counter: total, hosts resolved, ports resolved, reciprocal,
    host without strategy, host not found, port without strategy, not found,
    ambiguous. *)
Definition bump (t hr pr rr hs hf ps pf pa : nat) (s : LldpResolutionStats) : LldpResolutionStats := {|
  total := total s + t; hosts_resolved := hosts_resolved s + hr;
  ports_resolved := ports_resolved s + pr;
  ports_resolved_reciprocal := ports_resolved_reciprocal s + rr;
  host_no_strategy := host_no_strategy s + hs; host_not_found := host_not_found s + hf;
  port_no_strategy := port_no_strategy s + ps; port_not_found := port_not_found s + pf;
  port_ambiguous := port_ambiguous s + pa |}.

Definition record_host (host : IdentityResolution) (s : LldpResolutionStats)
    : option Uuid * LldpResolutionStats :=
  match host with
  | Resolved h => (Some h, bump 0 1 0 0 0 0 0 0 0 s)
  | NoStrategy => (None, bump 0 0 0 0 1 0 0 0 0 s)
  | NotFound | Ambiguous => (None, bump 0 0 0 0 0 1 0 0 0 s)
  end.

Definition record_port (port : IdentityResolution) (host_id : Uuid) (s : LldpResolutionStats)
    : Neighbor * LldpResolutionStats :=
  match port with
  | Resolved i => (NeighborInterface i, bump 0 0 1 0 0 0 0 0 0 s)
  | NoStrategy => (NeighborHost host_id, bump 0 0 0 0 0 0 1 0 0 s)
  | NotFound => (NeighborHost host_id, bump 0 0 0 0 0 0 0 1 0 s)
  | Ambiguous => (NeighborHost host_id, bump 0 0 0 0 0 0 0 0 1 s)
  end.

(** ** The reciprocal tier *)

Definition pair_reciprocally (port : IdentityResolution) (interface_id host_id : Uuid)
    (reciprocal : gmap Uuid (Uuid * Uuid)) : option IdentityResolution :=
  match port with
  | Resolved _ => None
  | _ =>
      match reciprocal !! interface_id with
      | Some (paired_id, paired_host) =>
          if (paired_host =? host_id)%N then Some (Resolved paired_id) else None
      | None => None
      end
  end.

(** [entries] is the iteration of the map. *)
Definition reciprocal_step (ports_between : gmap (Uuid * Uuid) (list Uuid))
    (acc : gmap Uuid (Uuid * Uuid)) (e : (Uuid * Uuid) * list Uuid) : gmap Uuid (Uuid * Uuid) :=
  match e with
  | ((local_host, remote_host), [local_port]) =>
      match ports_between !! (remote_host, local_host) with
      | Some [remote_port] => <[local_port := (remote_port, remote_host)]> acc
      | _ => acc
      end
  | _ => acc
  end.

Definition reciprocal_pairs (ports_between : gmap (Uuid * Uuid) (list Uuid))
    (entries : list ((Uuid * Uuid) * list Uuid)) : gmap Uuid (Uuid * Uuid) :=
  foldl (reciprocal_step ports_between) ∅ entries.

Section Resolve.
Context (r : LldpResolver) (mac_text : Z → bytes) (network_id : Uuid).

(** The live interface rows, by id. *)
Context (live : Uuid → option InterfaceRow).

(** The far-end device an interface names. *)
Definition host_verdict (i : InterfaceRow) : IdentityResolution :=
  match neighbor (if_base i) with
  | Some (NeighborInterface bound) => found ((λ b, if_host_id (if_base b)) <$> live bound)
  | Some (NeighborHost h) => Resolved h
  | None =>
      match lldp_chassis_id (lldp (if_base i)) with
      | Some c => resolve_host_id r network_id (lldp_sys_name (lldp (if_base i))) c
      | None =>
          match cdp_device_id (cdp (if_base i)) with
          | Some d => found (find_host_by_sys_name r d network_id)
          | None => NoStrategy
          end
      end
  end.

Definition push_port (k : Uuid * Uuid) (p : Uuid) (m : gmap (Uuid * Uuid) (list Uuid))
    : gmap (Uuid * Uuid) (list Uuid) :=
  <[k := default [] (m !! k) ++ [p]]> m.

Definition adjacency_step (m : gmap (Uuid * Uuid) (list Uuid)) (i : InterfaceRow)
    : gmap (Uuid * Uuid) (list Uuid) :=
  match host_verdict i with
  | Resolved remote =>
      if (remote =? if_host_id (if_base i))%N then m
      else push_port (if_host_id (if_base i), remote) (if_id i) m
  | _ => m
  end.

Definition ports_between (interfaces : list InterfaceRow) : gmap (Uuid * Uuid) (list Uuid) :=
  foldl adjacency_step ∅ interfaces.

Record NeighborAdjacency := {
  host_of : gmap Uuid IdentityResolution;
  reciprocal : gmap Uuid (Uuid * Uuid)
}.

(** [order] is the iteration order of the hash map. *)
Definition build_neighbor_adjacency
    (order : gmap (Uuid * Uuid) (list Uuid) → list ((Uuid * Uuid) * list Uuid))
    (interfaces : list InterfaceRow) : NeighborAdjacency := {|
  host_of := foldl (λ m i, <[if_id i := host_verdict i]> m) ∅ interfaces;
  reciprocal := reciprocal_pairs (ports_between interfaces) (order (ports_between interfaces)) |}.

(** ** Re-examining a bound port *)

Inductive PortBinding := Stands | Rebind (id : Uuid) | Reopen (host : Uuid).

Definition re_examine_port_binding (i : InterfaceRow) (bound_id : Uuid)
    (recip : gmap Uuid (Uuid * Uuid)) : PortBinding :=
  match recip !! if_id i with
  | Some (paired_id, _) => if (paired_id =? bound_id)%N then Stands else Rebind paired_id
  | None =>
      if negb (port_bound_by_mac i) then Stands
      else match live bound_id with
           | None => Stands
           | Some bound =>
               match if_mac (if_base bound) with
               | None => Stands
               | Some mac =>
                   match find_if_entry_by_mac r (mac_text mac) (if_host_id (if_base bound)) with
                   | Ambiguous => Reopen (if_host_id (if_base bound))
                   | _ => Stands
                   end
               end
           end
  end.

(** ** The pass over one interface *)

Record Pass := { p_stats : LldpResolutionStats; reopened : nat; rebound : nat }.

Definition set_neighbor (n : option Neighbor) : InterfaceRow → InterfaceRow := with_base (λ b, {|
  if_host_id := if_host_id b; if_network_id := if_network_id b; if_index := if_index b;
  if_descr := if_descr b; if_name := if_name b; if_alias := if_alias b; if_type := if_type b;
  speed_bps := speed_bps b; admin_status := admin_status b; oper_status := oper_status b;
  if_mac := if_mac b; if_ip_address_id := if_ip_address_id b; neighbor := n; lldp := lldp b;
  cdp := cdp b; fdb_macs := fdb_macs b; vlans := vlans b |}).

Definition known_host (i : InterfaceRow) : option Uuid :=
  match neighbor (if_base i) with Some (NeighborHost h) => Some h | _ => None end.

Definition host_for (adj : NeighborAdjacency) (i : InterfaceRow) : IdentityResolution :=
  match known_host i with
  | Some h => Resolved h
  | None => default NoStrategy (host_of adj !! if_id i)
  end.

(** The port by the identifier the far end advertised, then its description. *)
Definition lldp_port (i : InterfaceRow) (host_id : Uuid) : IdentityResolution :=
  let port := match lldp_port_id (lldp (if_base i)) with
              | Some p => resolve_if_entry_id r host_id p
              | None => NoStrategy
              end in
  match port with
  | Resolved id => Resolved id
  | unresolved =>
      match lldp_port_desc (lldp (if_base i)) with
      | Some desc =>
          match trim desc with
          | [] => unresolved
          | _ => match find_if_entry_by_name r desc host_id with
                 | Some id => Resolved id
                 | None => unresolved
                 end
          end
      | None => unresolved
      end
  end.

Definition cdp_port (i : InterfaceRow) (host_id : Uuid) : IdentityResolution :=
  match cdp_port_id (cdp (if_base i)) with
  | Some p => found (find_if_entry_by_name r p host_id)
  | None => NoStrategy
  end.

(** The tiers of one protocol: the device, its port, the reciprocal pair. *)
Definition resolve_tiers (adj : NeighborAdjacency) (port_of : Uuid → IdentityResolution)
    (i : InterfaceRow) (s : LldpResolutionStats) : option Neighbor * LldpResolutionStats :=
  match record_host (host_for adj i) s with
  | (None, s) => (None, s)
  | (Some host_id, s) =>
      let port := port_of host_id in
      let '(port, s) :=
        match pair_reciprocally port (if_id i) host_id (reciprocal adj) with
        | Some paired => (paired, bump 0 0 0 1 0 0 0 0 0 s)
        | None => (port, s)
        end in
      let '(n, s) := record_port port host_id s in (Some n, s)
  end.

Definition resolve_neighbor (adj : NeighborAdjacency) (i : InterfaceRow) (s : LldpResolutionStats)
    : option Neighbor * LldpResolutionStats :=
  match lldp_chassis_id (lldp (if_base i)) with
  | Some _ => resolve_tiers adj (lldp_port i) i s
  | None =>
      match cdp_device_id (cdp (if_base i)) with
      | Some _ => resolve_tiers adj (cdp_port i) i s
      | None => (None, bump 0 0 0 0 1 0 0 0 0 s)
      end
  end.

Definition has_protocol_identity (i : InterfaceRow) : bool :=
  negb (bool_decide (lldp_chassis_id (lldp (if_base i)) = None)
        && bool_decide (cdp_device_id (cdp (if_base i)) = None)
        && bool_decide (cdp_address (cdp (if_base i)) = None)).

(** The row as the pass leaves it, and whether it was written. *)
Definition run_tiers (adj : NeighborAdjacency) (original : option Neighbor) (i : InterfaceRow) (p : Pass)
    : InterfaceRow * bool * Pass :=
  if negb (has_protocol_identity i) then (i, negb (bool_decide (neighbor (if_base i) = original)), p)
  else
    let '(n, s) := resolve_neighbor adj i (bump 1 0 0 0 0 0 0 0 0 (p_stats p)) in
    let i' := match n with Some n => set_neighbor (Some n) i | None => i end in
    (i', negb (bool_decide (neighbor (if_base i') = original)),
     {| p_stats := s; reopened := reopened p; rebound := rebound p |}).

Definition resolve_interface (adj : NeighborAdjacency) (i : InterfaceRow) (p : Pass)
    : InterfaceRow * bool * Pass :=
  let original := neighbor (if_base i) in
  match original with
  | Some (NeighborInterface bound_id) =>
      match re_examine_port_binding i bound_id (reciprocal adj) with
      | Stands => (i, false, p)
      | Rebind paired =>
          (set_neighbor (Some (NeighborInterface paired)) i, true,
           {| p_stats := p_stats p; reopened := reopened p; rebound := S (rebound p) |})
      | Reopen remote =>
          run_tiers adj original (set_neighbor (Some (NeighborHost remote)) i)
            {| p_stats := p_stats p; reopened := S (reopened p); rebound := rebound p |}
      end
  | _ => run_tiers adj original i p
  end.

(** [resolve_lldp_links]: the rows after the pass, those written, the counters. *)
Definition resolve_lldp_links
    (order : gmap (Uuid * Uuid) (list Uuid) → list ((Uuid * Uuid) * list Uuid))
    (interfaces : list InterfaceRow) : list (InterfaceRow * bool) * Pass :=
  let adj := build_neighbor_adjacency order interfaces in
  foldl (λ acc i, let '(i', w, p) := resolve_interface adj i acc.2 in (acc.1 ++ [(i', w)], p))
    ([], {| p_stats := stats0; reopened := 0; rebound := 0 |}) interfaces.

(** [resolve_fdb_links] on one interface. *)
Definition resolve_fdb_link (i : InterfaceRow) : option InterfaceRow :=
  match fdb_macs (if_base i) with
  | Some [mac] =>
      match find_host_by_mac r mac network_id with
      | None => None
      | Some host_id =>
          let n := match find_if_entry_by_mac r mac host_id with
                   | Resolved id => NeighborInterface id
                   | _ => NeighborHost host_id
                   end in
          Some (set_neighbor (Some n) i)
      end
  | _ => None
  end.
End Resolve.

(** ** Who names whom *)

(** Collecting pairs that agree on their keys into a map. *)
Lemma collect_lookup {E K V} `{Countable K} (give : E → option (K * V)) (l : list E) k v :
  (∀ e e' k v v', e ∈ l → e' ∈ l → give e = Some (k, v) → give e' = Some (k, v') → v = v') →
  foldl (λ (acc : gmap K V) e, match give e with Some (k, v) => <[k := v]> acc | None => acc end) ∅ l
    !! k = Some v ↔ ∃ e, e ∈ l ∧ give e = Some (k, v).
Proof.
  induction l as [|e l IH] using rev_ind; intros Hfun.
  { simpl. rewrite lookup_empty. split; [done|]. by intros (e & ?%not_elem_of_nil & _). }
  assert (∀ x, x ∈ l → x ∈ l ++ [e]) as Hl by (intros x Hx; apply elem_of_app; by left).
  assert (e ∈ l ++ [e]) as He by (apply elem_of_app; right; by left).
  specialize (IH (λ x x' k v v' Hx Hx', Hfun x x' k v v' (Hl x Hx) (Hl x' Hx'))).
  rewrite foldl_app. simpl. setoid_rewrite elem_of_app. setoid_rewrite list_elem_of_singleton.
  destruct (give e) as [[k' v']|] eqn:Eg.
  - destruct (decide (k' = k)) as [->|Hne].
    + rewrite lookup_insert_eq. split.
      * intros [= ->]. exists e. auto.
      * intros (x & Hx & Hg). f_equal. eapply (Hfun e x); eauto. destruct Hx as [Hx| ->]; auto.
    + rewrite lookup_insert_ne, IH by done. split; [naive_solver|].
      intros (x & [Hx| ->] & Hg); [eauto|]. congruence.
  - rewrite IH. split; [naive_solver|]. intros (x & [Hx| ->] & Hg); [eauto|]. congruence.
Qed.

Section ResolveFacts.
Context (r : LldpResolver) (mac_text : Z → bytes) (network_id : Uuid).
Context (live : Uuid → option InterfaceRow).

(** The interfaces of device [a] that name device [b]. *)
Definition names (l : list InterfaceRow) (a b : Uuid) : list Uuid :=
  if_id <$> List.filter (λ i, (if_host_id (if_base i) =? a)%N
    && match host_verdict r network_id live i with Resolved x => (x =? b)%N | _ => false end
    && negb (a =? b)%N) l.

Lemma ports_between_lookup l a b :
  ports_between r network_id live l !! (a, b)
  = match names l a b with [] => None | ps => Some ps end.
Proof.
  unfold ports_between, names. induction l as [|i l IH] using rev_ind; [done|].
  rewrite foldl_app, filter_app, fmap_app. simpl. unfold adjacency_step at 1.
  set (m := foldl _ ∅ l) in *. set (ns := if_id <$> List.filter _ l) in *.
  destruct (host_verdict r network_id live i) as [x| | |];
    try by rewrite !andb_false_r, app_nil_r.
  destruct (N.eqb_spec x (if_host_id (if_base i))) as [->|Hne].
  - assert (((if_host_id (if_base i) =? a)%N && (if_host_id (if_base i) =? b)%N && negb (a =? b)%N)
            = false) as ->; [|by rewrite app_nil_r].
    destruct (N.eqb_spec (if_host_id (if_base i)) a), (N.eqb_spec (if_host_id (if_base i)) b); try done.
    subst. by rewrite N.eqb_refl.
  - unfold push_port. destruct (decide ((if_host_id (if_base i), x) = (a, b))) as [[= Ea Eb]|Hk].
    + rewrite Ea, Eb, lookup_insert_eq, IH, !N.eqb_refl. simpl.
      destruct (N.eqb_spec a b) as [|_]; [congruence|]. simpl. by destruct ns.
    + rewrite lookup_insert_ne by done. rewrite IH.
      destruct (N.eqb_spec (if_host_id (if_base i)) a), (N.eqb_spec x b); try by rewrite app_nil_r.
      congruence.
Qed.

Lemma names_elem l a b p :
  p ∈ names l a b ↔ a ≠ b ∧ ∃ i, i ∈ l ∧ if_id i = p ∧ if_host_id (if_base i) = a
                               ∧ host_verdict r network_id live i = Resolved b.
Proof.
  unfold names. rewrite list_elem_of_fmap. setoid_rewrite elem_of_list_filter_bool.
  setoid_rewrite andb_true_iff. setoid_rewrite andb_true_iff. setoid_rewrite negb_true_iff.
  setoid_rewrite N.eqb_eq. setoid_rewrite N.eqb_neq. split.
  - intros (i & -> & [[Ha Hv] Hne] & Hi). split; [done|]. exists i. split_and!; try done.
    destruct (host_verdict r network_id live i); try done. by apply N.eqb_eq in Hv as ->.
  - intros (Hne & i & Hi & <- & Ha & Hv). exists i. rewrite Hv, N.eqb_refl. done.
Qed.

(** An interface names one device. *)
Lemma names_fun l a b a' b' p :
  NoDup (if_id <$> l) → p ∈ names l a b → p ∈ names l a' b' → a = a' ∧ b = b'.
Proof.
  intros Hnd (_ & i & Hi & Ei & Ha & Hb)%names_elem (_ & i' & Hi' & Ei' & Ha' & Hb')%names_elem.
  rewrite (NoDup_key_inj if_id l i i') in * by congruence. split; congruence.
Qed.

Definition pair_entry (m : gmap (Uuid * Uuid) (list Uuid)) (e : (Uuid * Uuid) * list Uuid)
    : option (Uuid * (Uuid * Uuid)) :=
  match e with
  | ((lh, rh), [lp]) => match m !! (rh, lh) with Some [rp] => Some (lp, (rp, rh)) | _ => None end
  | _ => None
  end.

Lemma pair_entry_Some m e p q h :
  pair_entry m e = Some (p, (q, h)) ↔ ∃ lh, e = ((lh, h), [p]) ∧ m !! (h, lh) = Some [q].
Proof.
  destruct e as [[lh rh] ps]. unfold pair_entry. split.
  - destruct ps as [|x [|]]; try done. destruct (m !! (rh, lh)) as [[|y [|]]|] eqn:E; try done.
    intros [= <- <- <-]. by exists lh.
  - intros (lh' & [= -> -> ->] & E). by rewrite E.
Qed.

Lemma reciprocal_lookup l order i j h :
  NoDup (if_id <$> l) → (∀ m, order m ≡ₚ map_to_list m) →
  reciprocal (build_neighbor_adjacency r network_id live order l) !! i = Some (j, h) ↔
  ∃ lh, names l lh h = [i] ∧ names l h lh = [j].
Proof.
  intros Hnd Hord. simpl. set (pb := ports_between r network_id live l).
  assert (∀ a b ps, pb !! (a, b) = Some ps ↔ names l a b = ps ∧ ps ≠ []) as Hpb.
  { intros a b ps. unfold pb. rewrite ports_between_lookup. destruct (names l a b); naive_solver. }
  assert (∀ e, e ∈ order pb ↔ pb !! e.1 = Some e.2) as Hel.
  { intros [k ps]. rewrite (Hord pb), elem_of_map_to_list. done. }
  assert (reciprocal_pairs pb (order pb)
    = foldl (λ acc e, match pair_entry pb e with Some (k, v) => <[k := v]> acc | None => acc end) ∅ (order pb))
    as ->.
  { unfold reciprocal_pairs. generalize (order pb) (∅ : gmap Uuid (Uuid * Uuid)).
    induction l0 as [|e l0 IH]; intros acc; simpl; [done|]. rewrite <- IH. f_equal.
    unfold reciprocal_step, pair_entry. repeat case_match; naive_solver. }
  rewrite collect_lookup.
  - setoid_rewrite pair_entry_Some. split.
    + intros (e & He & lh & -> & Hq). apply Hel, Hpb in He as [Hp _]. apply Hpb in Hq as [Hq _].
      by exists lh.
    + intros (lh & Hp & Hq). exists ((lh, h), [i]). split; [by apply Hel, Hpb|].
      exists lh. split; [done|]. by apply Hpb.
  - intros e e' k [q a] [q' a'] He He' (lh & -> & Hq)%pair_entry_Some (lh' & -> & Hq')%pair_entry_Some.
    apply Hel, Hpb in He as [He _]. apply Hel, Hpb in He' as [He' _]. simpl in *.
    destruct (names_fun l lh a lh' a' k) as [-> ->]; [done|rewrite He; by left|rewrite He'; by left|].
    congruence.
Qed.

(** C27. Reciprocal pairs are mutual and unambiguous, whatever the order the hash
    map is walked in: interface [i] is paired with interface [j] of device [h]
    exactly when [i] is the only interface of its device that names [h], and [j] is
    the only interface of [h] that names [i]'s device.  So [j] is then paired with
    [i], no interface of a link aggregate is paired, and no device with itself. *)
Theorem reciprocal_pairs_spec l order i j h :
  NoDup (if_id <$> l) → (∀ m, order m ≡ₚ map_to_list m) →
  let recip := reciprocal (build_neighbor_adjacency r network_id live order l) in
  (recip !! i = Some (j, h) ↔ ∃ lh, names l lh h = [i] ∧ names l h lh = [j])
  ∧ (recip !! i = Some (j, h) → ∃ lh, lh ≠ h ∧ recip !! j = Some (i, lh)).
Proof.
  intros Hnd Hord. cbv zeta. split; [by apply reciprocal_lookup|].
  rewrite reciprocal_lookup by done. intros (lh & Hi & Hj). exists lh. split.
  - assert (i ∈ names l lh h) as Hin by (rewrite Hi; by left). by apply names_elem in Hin as [? _].
  - apply reciprocal_lookup; [done|done|]. by exists h.
Qed.

(** ** The pass *)

(** Every neighbour examined is accounted for, device first, then port. *)
Record balanced (s : LldpResolutionStats) : Prop := {
  bal_hosts : total s = (hosts_resolved s + host_no_strategy s + host_not_found s)%nat;
  bal_ports : hosts_resolved s
              = (ports_resolved s + port_no_strategy s + port_not_found s + port_ambiguous s)%nat;
  bal_recip : (ports_resolved_reciprocal s ≤ ports_resolved s)%nat
}.

Lemma pair_reciprocally_Resolved port i h rc x :
  pair_reciprocally port i h rc = Some x → ∃ j, x = Resolved j.
Proof. unfold pair_reciprocally. repeat case_match; naive_solver. Qed.

Lemma resolve_tiers_balanced adj port_of i s n s' :
  balanced s → resolve_tiers adj port_of i (bump 1 0 0 0 0 0 0 0 0 s) = (n, s') → balanced s'.
Proof.
  intros [H1 H2 H3]. unfold resolve_tiers, record_host, record_port.
  destruct (host_for adj i) as [h| | |]; [|intros [= _ <-]; constructor; simpl; lia..].
  destruct (pair_reciprocally _ _ _ _) as [x|] eqn:Ep.
  - apply pair_reciprocally_Resolved in Ep as [j ->]. intros [= _ <-]. constructor; simpl; lia.
  - destruct (port_of h); intros [= _ <-]; constructor; simpl; lia.
Qed.

Lemma resolve_neighbor_balanced adj i s n s' :
  balanced s → resolve_neighbor r adj i (bump 1 0 0 0 0 0 0 0 0 s) = (n, s') → balanced s'.
Proof.
  intros Hb. unfold resolve_neighbor. repeat case_match; try by eapply resolve_tiers_balanced.
  intros [= _ <-]. destruct Hb. constructor; simpl; lia.
Qed.

Lemma run_tiers_balanced adj o i p i' w p' :
  balanced (p_stats p) → run_tiers r adj o i p = (i', w, p') → balanced (p_stats p').
Proof.
  intros Hb. unfold run_tiers. destruct (negb _); [by intros [= _ _ <-]|].
  destruct (resolve_neighbor _ _ _ _) as [n s] eqn:E. intros [= _ _ <-].
  by eapply resolve_neighbor_balanced.
Qed.

Lemma resolve_interface_balanced adj i p i' w p' :
  balanced (p_stats p) → resolve_interface r mac_text live adj i p = (i', w, p') →
  balanced (p_stats p').
Proof.
  intros Hb. unfold resolve_interface. repeat case_match;
    try (intros [= _ _ <-]; done); intros E; (eapply run_tiers_balanced; [|exact E]); done.
Qed.

(** A partial resolution is kept or refined. *)
Definition refines (old new : option Neighbor) : Prop :=
  match old with
  | None => True
  | Some (NeighborHost h) => new = Some (NeighborHost h) ∨ ∃ j, new = Some (NeighborInterface j)
  | Some (NeighborInterface _) => is_Some new
  end.

Lemma record_port_neighbor port h s n s' :
  record_port port h s = (n, s') → n = NeighborHost h ∨ ∃ j, n = NeighborInterface j.
Proof. destruct port; intros [= <- _]; eauto. Qed.

(** The tiers name the known device again, or a port. *)
Lemma resolve_tiers_known adj port_of i s n s' h :
  resolve_tiers adj port_of i s = (n, s') → known_host i = Some h →
  n = Some (NeighborHost h) ∨ ∃ j, n = Some (NeighborInterface j).
Proof.
  unfold resolve_tiers, host_for. intros H Hk. rewrite Hk in H. simpl in H.
  destruct (match pair_reciprocally _ _ _ _ with Some _ => _ | None => _ end) as [port s1].
  destruct (record_port port h s1) as [n' s2] eqn:E. injection H as <- _.
  apply record_port_neighbor in E as [->|[j ->]]; eauto.
Qed.

Lemma run_tiers_row adj o i p i' w p' :
  run_tiers r adj o i p = (i', w, p') →
  i' = set_neighbor (neighbor (if_base i')) i
  ∧ (w = true ↔ neighbor (if_base i') ≠ o)
  ∧ (∀ h, known_host i = Some h →
       neighbor (if_base i') = Some (NeighborHost h) ∨ ∃ j, neighbor (if_base i') = Some (NeighborInterface j)).
Proof.
  unfold run_tiers. destruct (negb (has_protocol_identity i)) eqn:Eid.
  - intros [= <- <- _]. split_and!.
    + by destruct i as [? ? []].
    + by rewrite negb_true_iff, bool_decide_eq_false.
    + intros h. unfold known_host. repeat case_match; naive_solver.
  - destruct (resolve_neighbor _ _ _ _) as [n s] eqn:E. intros [= <- <- _]. split_and!.
    + destruct n; simpl; [done|]. by destruct i as [? ? []].
    + by rewrite negb_true_iff, bool_decide_eq_false.
    + intros h Hk.
      assert (neighbor (if_base i) = Some (NeighborHost h)) as Hn.
      { unfold known_host in Hk. repeat case_match; naive_solver. }
      unfold resolve_neighbor in E. repeat case_match; simplify_eq; simpl; eauto;
        by eapply resolve_tiers_known in E; [|exact Hk]; destruct E as [[= ->]|[j [= ->]]]; eauto.
Qed.

(** A pass never loses a link.  It changes nothing of a row but the neighbour;
    a neighbour known to device level stays at that device or becomes a port, one
    known to port level stays resolved; and a row is written exactly when its
    neighbour differs from what it was. *)
Theorem resolve_interface_monotone adj i p i' w p' :
  resolve_interface r mac_text live adj i p = (i', w, p') →
  i' = set_neighbor (neighbor (if_base i')) i
  ∧ refines (neighbor (if_base i)) (neighbor (if_base i'))
  ∧ (w = true ↔ neighbor (if_base i') ≠ neighbor (if_base i)).
Proof.
  unfold resolve_interface. destruct (neighbor (if_base i)) as [[b|h]|] eqn:En; simpl.
  - destruct (re_examine_port_binding r mac_text live i b (reciprocal adj)) as [|q|q] eqn:Er.
    + intros [= <- <- _]. rewrite En. split_and!; [|done|done]. rewrite <- En. by destruct i as [? ? []].
    + intros [= <- <- _]. simpl. split_and!; [done|done|]. split; [|done]. intros _ [= ->].
      unfold re_examine_port_binding in Er. repeat case_match; simplify_eq. by rewrite N.eqb_refl in *.
    + intros (H1 & H2 & H3)%run_tiers_row. split_and!; [|by destruct (H3 q eq_refl) as [->|[j ->]]|done].
      rewrite H1. simpl. done.
  - intros (H1 & H2 & H3)%run_tiers_row. split_and!; [done| |done]. apply H3.
    unfold known_host. by rewrite En.
  - intros (H1 & H2 & _)%run_tiers_row. done.
Qed.

(** The counters of a resolution pass add up: every neighbour examined is
    counted once as a device resolved, without strategy or not found; every
    resolved device once as a port resolved, without strategy, not found or
    ambiguous; the reciprocal pairs are among the resolved ports; and the pass
    returns one row per interface. *)
Theorem resolve_lldp_links_counts order interfaces :
  let res := resolve_lldp_links r mac_text network_id live order interfaces in
  balanced (p_stats res.2) ∧ length res.1 = length interfaces
  ∧ if_id <$> res.1.*1 = if_id <$> interfaces.
Proof.
  unfold resolve_lldp_links. cbv zeta.
  set (adj := build_neighbor_adjacency r network_id live order interfaces). clearbody adj.
  induction interfaces as [|i l IH] using rev_ind; [by split|].
  rewrite foldl_app. simpl. set (acc := foldl _ _ l) in *. destruct IH as (IH1 & IH2 & IH3).
  destruct (resolve_interface r mac_text live adj i acc.2) as [[i' w] p'] eqn:E. simpl.
  split_and!.
  - by eapply resolve_interface_balanced.
  - rewrite !length_app, IH2. done.
  - rewrite !fmap_app, IH3. simpl. do 2 f_equal.
    assert (i' = set_neighbor (neighbor (if_base i')) i) as ->; [|done].
    revert E. unfold resolve_interface. repeat case_match.
    all: try (intros [= <- _ _]; simpl; done).
    all: try (intros (-> & _)%run_tiers_row; simpl; done).
    intros [= <- _ _]. by destruct i as [? ? []].
Qed.
End ResolveFacts.

(** ** Witnesses *)

(** A resolver that knows no identifier: only what is stored and the pairing place a port. *)
Definition blind_resolver : LldpResolver := {|
  find_host_by_mac _ _ := None; find_host_by_ip _ _ := None; find_host_by_if_name _ _ := None;
  find_host_by_chassis_id _ _ := None; find_host_by_sys_name _ _ := None;
  find_if_entry_by_mac _ _ := Ambiguous; find_if_entry_by_ip _ _ := None;
  find_if_entry_by_name _ _ := None; find_if_entry_by_if_index _ _ := None |}.

(** Interface [id] of device [h] that names device [far]. *)
Definition demo_naming (id h far : Uuid) : InterfaceRow :=
  set_neighbor (Some (NeighborHost far)) (set_if_host h 1 (demo_if id 1 None None)).

Lemma reciprocal_pairs_witness :
  reciprocal (build_neighbor_adjacency blind_resolver 1 (λ _, None) map_to_list
    [demo_naming 1 7 8; demo_naming 2 8 7; demo_naming 3 8 9]) !! 1%N = Some (2%N, 8%N).
Proof.
  apply (reciprocal_pairs_spec blind_resolver 1 (λ _, None)
    [demo_naming 1 7 8; demo_naming 2 8 7; demo_naming 3 8 9] map_to_list 1 2 8).
  - by apply (bool_decide_unpack (NoDup [1%N; 2%N; 3%N])).
  - done.
  - exists 7%N. by split; vm_compute.
Defined.

Lemma resolve_interface_monotone_witness :
  ∃ i' w p', resolve_interface blind_resolver (λ _, []) (λ _, None)
    {| host_of := ∅; reciprocal := {[1%N := (2%N, 8%N)]} |}
    (set_neighbor (Some (NeighborInterface 5)) (demo_naming 1 7 8))
    {| p_stats := stats0; reopened := 0; rebound := 0 |} = (i', w, p') ∧ w = true
    ∧ refines (Some (NeighborInterface 5)) (neighbor (if_base i')).
Proof.
  eexists _, _, _. split; [reflexivity|]. split; [done|].
  eapply (resolve_interface_monotone blind_resolver (λ _, []) (λ _, None)
    {| host_of := ∅; reciprocal := {[1%N := (2%N, 8%N)]} |}
    (set_neighbor (Some (NeighborInterface 5)) (demo_naming 1 7 8))
    {| p_stats := stats0; reopened := 0; rebound := 0 |}). reflexivity.
Defined.
