(* ===== verification/HostCreate.v ===== *)
(** Creating a host with its children, from a request or from a scan.

    [HostService::{create_unlocked, create_with_children}] of
    [server/hosts/service/create.rs] and [discover_host] of
    [server/hosts/service/discovery.rs], composed of the operations of [HostMatch],
    [Hosts], [Subnets], [Bindings], [Services], [Interfaces] and [Consolidate].
    The state is the tables.  The database's own refusals that matter here are
    part of the writes: the unique indexes on ports (host, number, protocol) and
    on addresses (host, subnet, address), primary keys, and the foreign keys of
    an address's subnet and of the runtime service a subnet or service names. *)

From S2P Require Import Prelude Effects Net Ports Position Entities ServiceIdentity Bindings.
From S2P Require Import Services Lldp Hosts HostMatch Subnets Consolidate Interfaces.
Local Open Scope Z_scope.

(** ** State, errors, effects *)

Record Inventory := {
  world : World;
  subnet_rows : list Subnet;
  if_rows : list InterfaceRow;
  subnet_vlans : gmap Uuid (list Uuid)
}.

Inductive CreateError :=
| HostExists (id : Uuid)
| HostLimitReached (current limit : Z)
| NetworkMismatch (id : Uuid)
| DuplicateKey
| UnknownSubnet (id : Uuid)
| UnknownOwner
| ServiceRefused (e : ServiceError).

Abbreviation CM := (SM Inventory CreateError).

Definition on_world (f : World → World) (w : Inventory) : Inventory :=
  {| world := f (world w); subnet_rows := subnet_rows w; if_rows := if_rows w;
     subnet_vlans := subnet_vlans w |}.
Definition set_subnet_rows (l : list Subnet) (w : Inventory) : Inventory :=
  {| world := world w; subnet_rows := l; if_rows := if_rows w; subnet_vlans := subnet_vlans w |}.
Definition set_if_rows (l : list InterfaceRow) (w : Inventory) : Inventory :=
  {| world := world w; subnet_rows := subnet_rows w; if_rows := l; subnet_vlans := subnet_vlans w |}.
Definition set_subnet_vlans (m : gmap Uuid (list Uuid)) (w : Inventory) : Inventory :=
  {| world := world w; subnet_rows := subnet_rows w; if_rows := if_rows w; subnet_vlans := m |}.

Inductive ConflictBehavior := ConflictError | ConflictUpsert.

Record HostLimitContext := { limit : Z; org_network_ids : list Uuid }.

(** ** Rows *)

Definition set_h_id (id : Uuid) (h : HostRow) : HostRow :=
  {| h_id := id; h_meta := h_meta h; h_base := h_base h |}.
Definition set_p_meta (m : RowMeta) (p : Port) : Port :=
  {| p_id := p_id p; p_meta := m; p_base := p_base p |}.
Definition set_ip_meta (m : RowMeta) (i : IPAddress) : IPAddress :=
  {| ip_id := ip_id i; ip_meta := m; ip_base := ip_base i |}.
Definition set_ip_subnet (sid : Uuid) (i : IPAddress) : IPAddress :=
  let b := ip_base i in
  {| ip_id := ip_id i; ip_meta := ip_meta i;
     ip_base := {| ip_network_id := ip_network_id b; ip_host_id := ip_host_id b; subnet_id := sid;
                   ip_address := ip_address b; mac_address := mac_address b; ip_name := ip_name b;
                   ip_position := ip_position b |} |}.
Definition set_ip_network (n : Uuid) (i : IPAddress) : IPAddress :=
  let b := ip_base i in
  {| ip_id := ip_id i; ip_meta := ip_meta i;
     ip_base := {| ip_network_id := n; ip_host_id := ip_host_id b; subnet_id := subnet_id b;
                   ip_address := ip_address b; mac_address := mac_address b; ip_name := ip_name b;
                   ip_position := ip_position b |} |}.
Definition set_owner (o : option Uuid) (s : Service) : Service :=
  let b := sv_base s in
  {| sv_id := sv_id s; sv_meta := sv_meta s;
     sv_base := {| sv_host_id := sv_host_id b; sv_network_id := sv_network_id b;
                   service_definition := service_definition b; sv_name := sv_name b;
                   bindings := bindings b; virtualization_metadata := virtualization_metadata b;
                   virtualization_service_id := o; source := source b; sv_tags := sv_tags b;
                   sv_position := sv_position b |} |}.
Definition set_virtualization (v : option ServiceVirtualization) (o : option Uuid) (s : Service)
    : Service :=
  let b := sv_base s in
  {| sv_id := sv_id s; sv_meta := sv_meta s;
     sv_base := {| sv_host_id := sv_host_id b; sv_network_id := sv_network_id b;
                   service_definition := service_definition b; sv_name := sv_name b;
                   bindings := bindings b; virtualization_metadata := v;
                   virtualization_service_id := o; source := source b; sv_tags := sv_tags b;
                   sv_position := sv_position b |} |}.
Definition set_sv_host (h n : Uuid) (s : Service) : Service :=
  let b := sv_base s in
  {| sv_id := sv_id s; sv_meta := sv_meta s;
     sv_base := {| sv_host_id := h; sv_network_id := n;
                   service_definition := service_definition b; sv_name := sv_name b;
                   bindings := bindings b; virtualization_metadata := virtualization_metadata b;
                   virtualization_service_id := virtualization_service_id b; source := source b;
                   sv_tags := sv_tags b; sv_position := sv_position b |} |}.
Definition set_sv_id (id : Uuid) (s : Service) : Service :=
  {| sv_id := id; sv_meta := sv_meta s; sv_base := sv_base s |}.
Definition set_subnet_scope (n : Uuid) (o : option Uuid) (s : Subnet) : Subnet :=
  let b := s_base s in
  {| s_id := s_id s; s_meta := s_meta s;
     s_base := {| cidr := cidr b; s_network_id := n; s_name := s_name b;
                  s_description := s_description b; subnet_type := subnet_type b;
                  s_virtualization_service_id := o; s_source := s_source b; s_tags := s_tags b |} |}.
Definition set_assignments (l : list CredentialAssignment) (h : HostRow) : HostRow :=
  let b := h_base h in
  {| h_id := h_id h; h_meta := h_meta h;
     h_base := {| h_name := h_name b; name_source := name_source b; h_network_id := h_network_id b;
       hostname := hostname b; h_description := h_description b; h_source := h_source b;
       h_virtualization_metadata := h_virtualization_metadata b;
       h_virtualization_service_id := h_virtualization_service_id b; hidden := hidden b;
       h_tags := h_tags b; sys_descr := sys_descr b; sys_object_id := sys_object_id b;
       sys_location := sys_location b; sys_contact := sys_contact b;
       management_url := management_url b; chassis_id := chassis_id b; sys_name := sys_name b;
       manufacturer := manufacturer b; model := model b; serial_number := serial_number b;
       credential_assignments := l |} |}.

(** The daemon-minted identifiers of a submission are arguments of [service_new]
    and [save_for_parent]; this is where the server's own come from. *)
Record Mint := {
  host_uuid : Uuid;
  open_ports_uuid : Uuid;
  service_uuid : Uuid;
  binding_uuid : Uuid → nat → Uuid;
  subnet_uuid : Uuid;
  clock : DateTime
}.

Section Create.
Context {facts : DefinitionFacts} (mint : Mint) (persists : InterfaceRow → list InterfaceRow → bool).

(** ** The host row *)

Definition hosts_in (w : World) (n : Uuid) : list HostRow :=
  List.filter (λ h, (h_network_id (h_base h) =? n)%N) (hosts w).

Definition insert_host (host : HostRow) : CM HostRow :=
  let host := {| h_id := h_id host; h_meta := originate_meta (h_meta host); h_base := h_base host |} in
  put (on_world (λ w, set_host_rows (hosts w ++ [host]) w)) ;; mret host.

Definition create_unlocked (host : HostRow) : CM HostRow :=
  let host := if (h_id host =? uuid_nil)%N then host_new (host_uuid mint) (clock mint) (h_base host)
              else host in
  w ← get;
  let refuse_or_insert :=
    match List.find (λ h, (h_id h =? h_id host)%N) (hosts (world w)) with
    | Some e => throw (NetworkMismatch (h_id e))
    | None => insert_host host
    end in
  match List.find (host_eqb host) (hosts_in (world w) (h_network_id (h_base host))) with
  | Some e =>
      if (is_discovery (h_source (h_base host)) && is_discovery (h_source (h_base e)))
         || (h_id host =? h_id e)%N
      then let u := upserted (upsert_host e host) in
           put (on_world (λ w, set_host_rows (store_host u (hosts w)) w)) ;; mret u
      else refuse_or_insert
  | None => refuse_or_insert
  end.

(** Which host the submission is about, and whether it may be stored. *)
Definition align_host (cb : ConflictBehavior) (host : HostRow) (ips : list IPAddress)
    (limit_ctx : option HostLimitContext) : CM HostRow :=
  w ← get;
  let n := h_network_id (h_base host) in
  match find_matching_host_by_ip_addresses (hosts_in (world w) n) (ips_of_host (world w)) ips with
  | Some (e, _) =>
      match cb with
      | ConflictError => throw (HostExists (h_id e))
      | ConflictUpsert => mret (set_h_id (h_id e) host)
      end
  | None =>
      match limit_ctx with
      | Some ctx =>
          let current := Z.of_nat (length (List.filter
            (λ h, bool_decide (h_network_id (h_base h) ∈ org_network_ids ctx)) (hosts (world w)))) in
          if limit ctx <=? current then throw (HostLimitReached current (limit ctx)) else mret host
      | None => mret host
      end
  end.

(** ** Ports *)

(** The row a reported port already has: by id, else by number and protocol. *)
Definition existing_port (w : World) (p : Port) : option Port :=
  match List.find (λ e, (p_id e =? p_id p)%N) (port_rows w) with
  | Some e => Some e
  | None => List.find (λ e, port_eqb (port_type (p_base e)) (port_type (p_base p)))
              (ports_of_host w (p_host_id (p_base p)))
  end.

Definition port_refused (w : World) (p : Port) : bool :=
  existsb (λ e, (p_id e =? p_id p)%N
                || ((p_host_id (p_base e) =? p_host_id (p_base p))%N
                    && port_eqb (port_type (p_base e)) (port_type (p_base p)))) (port_rows w).

Definition insert_port (p : Port) : CM Port :=
  let p := set_p_meta (originate_meta (p_meta p)) p in
  w ← get;
  if port_refused (world w) p then throw DuplicateKey
  else put (on_world (λ w, set_port_rows (port_rows w ++ [p]) w)) ;; mret p.

Definition port_step (cb : ConflictBehavior) (host : HostRow) (port : Port)
    (acc : list Port * list Port) : CM (list Port * list Port) :=
  let p := with_host (h_id host) (h_network_id (h_base host)) port in
  w ← get;
  match cb, existing_port (world w) p with
  | ConflictUpsert, Some e =>
      let e := set_p_meta (touch_last_seen (last_seen_at (p_meta p)) (p_meta e)) e in
      mret (acc.1 ++ [e], acc.2 ++ [e])
  | _, _ => created ← insert_port p; mret (acc.1 ++ [created], acc.2)
  end.

Definition create_ports (cb : ConflictBehavior) (host : HostRow) (ports : list Port)
    : CM (list Port) :=
  acc ← for_each (port_step cb host) ports ([], []);
  put (on_world (λ w, set_port_rows (foldl (flip store_port) (port_rows w) acc.2) w)) ;;
  mret acc.1.

(** ** Services, as the stages call them *)

(** The foreign key on the owning service. *)
Definition owner_known (w : World) (self : option Uuid) (o : option Uuid) : bool :=
  match o with
  | None => true
  | Some id => bool_decide (id ∈ sv_id <$> service_rows w) || bool_decide (self = Some id)
  end.

(** A call whose error the caller looks at. *)
Definition try_service {A} (self : Uuid) (owner : option Uuid)
    (op : ServiceStore → result (A * ServiceStore) ServiceError) : CM (result A CreateError) :=
  w ← get;
  match op (service_store (world w)) with
  | Err e => mret (Err (ServiceRefused e))
  | Ok (a, st) =>
      if owner_known (world w) (Some self) owner
      then put (on_world (set_services (rows st) (deps st))) ;; mret (Ok a)
      else mret (Err UnknownOwner)
  end.

Definition try_create (s : Service) : CM (result Service CreateError) :=
  try_service (sv_id s) (virtualization_service_id (sv_base s))
    (create_service (service_uuid mint) (clock mint) (binding_uuid mint (sv_id s)) s).
Definition try_update (s : Service) : CM (result Service CreateError) :=
  try_service (sv_id s) (virtualization_service_id (sv_base s))
    (update_service (binding_uuid mint (sv_id s)) s).

(** [?] on such a call. *)
Definition orfail {A} (m : CM (result A CreateError)) : CM A := r ← m; lift r.

(** ** Owners of bridge subnets *)

Definition owner_ids (subnets : list Subnet) : gset Uuid :=
  list_to_set (omap (λ s, s_virtualization_service_id (s_base s)) subnets).

Record Owners := {
  id_remap : gmap Uuid Uuid;
  live_ids : gset Uuid;
  matchable : list Service
}.

Definition remap_to (old new : Uuid) (m : gmap Uuid Uuid) : gmap Uuid Uuid :=
  if (old =? new)%N then m else <[old := new]> m.

Definition initial_owners (host : HostRow) (existing services : list Service) : Owners := {|
  id_remap := foldl (λ m s,
    match List.find (λ e, service_eqb e (set_sv_host (h_id host) (sv_network_id (sv_base s)) s)) existing with
    | Some e => remap_to (sv_id s) (sv_id e) m
    | None => m
    end) ∅ services;
  live_ids := list_to_set (sv_id <$> existing);
  matchable := existing |}.

Definition owner_step (host : HostRow) (owner_ids : gset Uuid) (s : Service) (o : Owners) : CM Owners :=
  if negb (bool_decide (sv_id s ∈ owner_ids)) || is_generic (service_definition (sv_base s))
  then mret o
  else
    let probe := set_sv_host (h_id host) (h_network_id (h_base host)) s in
    match List.find (λ e, service_eqb e probe) (matchable o) with
    | Some e => mret {| id_remap := remap_to (sv_id s) (sv_id e) (id_remap o);
                        live_ids := {[sv_id e]} ∪ live_ids o; matchable := matchable o |}
    | None =>
        r ← try_create (with_bindings [] (set_owner None probe));
        match r with
        | Ok c => mret {| id_remap := remap_to (sv_id s) (sv_id c) (id_remap o);
                          live_ids := {[sv_id c]} ∪ live_ids o; matchable := matchable o ++ [c] |}
        | Err _ => mret o
        end
    end.

(** ** Subnets *)

Record SubnetAcc := { subnet_remap : gmap Uuid Uuid; created_subnets : gset Uuid }.

Definition subnet_step (host : HostRow) (o : Owners) (s : Subnet) (acc : SubnetAcc) : CM SubnetAcc :=
  let s := set_subnet_scope (h_network_id (h_base host))
             (resolve_owner_service_id (s_virtualization_service_id (s_base s)) (id_remap o)
                (live_ids o)) s in
  w ← get;
  if negb (owner_known (world w) None (s_virtualization_service_id (s_base s))) then throw UnknownOwner
  else
  let '(created, rows) := create_subnet (subnet_uuid mint) (clock mint) s (subnet_rows w) in
  put (set_subnet_rows rows) ;;
  mret {| subnet_remap := remap_to (s_id s) (s_id created) (subnet_remap acc);
          created_subnets := {[s_id created]} ∪ created_subnets acc |}.

(** Owners first, so that a bridge is written with its final owner. *)
Definition create_subnets (host : HostRow) (existing services : list Service) (subnets : list Subnet)
    : CM (Owners * SubnetAcc) :=
  o ← for_each (owner_step host (owner_ids subnets)) services (initial_owners host existing services);
  sa ← for_each (subnet_step host o) subnets {| subnet_remap := ∅; created_subnets := ∅ |};
  mret (o, sa).

(** ** Addresses *)

(** The subnet an address is stored under: the row its subnet became, or the most
    specific live subnet around it when the reference names none. *)
Definition settle_subnet (w : Inventory) (host : HostRow) (acc : SubnetAcc) (i : IPAddress) : IPAddress :=
  let i := match subnet_remap acc !! subnet_id (ip_base i) with
           | Some n => set_ip_subnet n i | None => i end in
  if bool_decide (subnet_id (ip_base i) ∈ created_subnets acc) then i
  else match resolve_dangling_subnet_id
               (List.filter (λ s, (s_network_id (s_base s) =? h_network_id (h_base host))%N) (subnet_rows w))
               (subnet_id (ip_base i)) (ip_address (ip_base i)) with
       | Some r => set_ip_subnet r i
       | None => i
       end.

(** The row a reported address already has: by id, by subnet and address, or by a
    MAC that is unique on both sides. *)
Definition existing_ip (w : World) (counts : gmap Z nat) (i : IPAddress) : option IPAddress :=
  let own := ips_of_host w (ip_host_id (ip_base i)) in
  match List.find (λ e, (ip_id e =? ip_id i)%N) (ip_rows w) with
  | Some e => Some e
  | None =>
      match List.find (λ e, bool_decide (ip_address (ip_base e) = ip_address (ip_base i)))
              (List.filter (λ e, (subnet_id (ip_base e) =? subnet_id (ip_base i))%N) own) with
      | Some e => Some e
      | None =>
          mac ← mac_address (ip_base i);
          if (default 0%nat (counts !! mac) =? 1)%nat then
            match List.filter (λ e, bool_decide (mac_address (ip_base e) = Some mac)) own with
            | [e] => Some e
            | _ => None
            end
          else None
      end
  end.

Definition ip_refused (w : World) (i : IPAddress) : bool :=
  existsb (λ e, (ip_id e =? ip_id i)%N
                || ((ip_host_id (ip_base e) =? ip_host_id (ip_base i))%N
                    && (subnet_id (ip_base e) =? subnet_id (ip_base i))%N
                    && bool_decide (ip_address (ip_base e) = ip_address (ip_base i)))) (ip_rows w).

Definition insert_ip (i : IPAddress) : CM IPAddress :=
  let i := set_ip_meta (originate_meta (ip_meta i)) i in
  w ← get;
  if ip_refused (world w) i then throw DuplicateKey
  else if bool_decide (subnet_id (ip_base i) ∈ s_id <$> subnet_rows w)
  then put (on_world (λ w, set_ip_rows (ip_rows w ++ [i]) w)) ;; mret i
  else throw (UnknownSubnet (subnet_id (ip_base i))).

Definition ip_step (cb : ConflictBehavior) (host : HostRow) (sa : SubnetAcc) (counts : gmap Z nat)
    (reported : IPAddress) (acc : list IPAddress * list IPAddress)
    : CM (list IPAddress * list IPAddress) :=
  w ← get;
  let i := settle_subnet w host sa
             (set_ip_network (h_network_id (h_base host)) (set_ip_host (h_id host) reported)) in
  match cb, existing_ip (world w) counts i with
  | ConflictUpsert, Some e =>
      let e := set_ip_meta (touch_last_seen (last_seen_at (ip_meta i)) (ip_meta e)) e in
      mret (acc.1 ++ [e], acc.2 ++ [e])
  | _, _ => created ← insert_ip i; mret (acc.1 ++ [created], acc.2)
  end.

Definition create_ips (cb : ConflictBehavior) (host : HostRow) (sa : SubnetAcc) (ips : list IPAddress)
    : CM (list IPAddress) :=
  acc ← for_each (ip_step cb host sa (mac_counts_for_payload ips)) ips ([], []);
  put (on_world (λ w, set_ip_rows (foldl (flip store_ip) (ip_rows w) acc.2) w)) ;;
  mret acc.1.

(** Scanner ids to stored ids, by position. *)
Definition ip_id_remap (original created : list IPAddress) : gmap Uuid Uuid :=
  foldl (λ m p, remap_to (ip_id p.1) (ip_id p.2) m) ∅ (zip original created).

(** ** The service loop *)

Record ServiceLoop := {
  owners : Owners;
  batch_claimed : list (Uuid * option Uuid);
  orphaned : list Binding;
  created_services : list Service
}.

Definition with_owners (o : Owners) (l : ServiceLoop) : ServiceLoop := {|
  owners := o; batch_claimed := batch_claimed l; orphaned := orphaned l;
  created_services := created_services l |}.
Definition with_matchable (m : list Service) (o : Owners) : Owners :=
  {| id_remap := id_remap o; live_ids := live_ids o; matchable := m |}.
Definition with_id_remap (m : gmap Uuid Uuid) (o : Owners) : Owners :=
  {| id_remap := m; live_ids := live_ids o; matchable := matchable o |}.

(** Every contested claim overlaps a binding of an open-ports service. *)
Definition all_from_open_ports (existing : list Service) (claims : list (Uuid * option Uuid)) : bool :=
  negb (bool_decide (claims = []))
  && forallb (λ c, existsb (λ s, is_open_ports (service_definition (sv_base s))
                                 && existsb (λ b, match port_claim b with
                                                  | Some d => claims_overlap c d
                                                  | None => false
                                                  end) (bindings (sv_base s))) existing) claims.

(** Take the contested ports from the open-ports service. *)
Definition reclaim (claims : list (Uuid * option Uuid)) (o : Owners) : CM Owners :=
  match List.find (λ s, is_open_ports (service_definition (sv_base s))) (matchable o) with
  | None => mret o
  | Some op =>
      let remaining := remaining_bindings claims (bindings (sv_base op)) in
      (match remaining with
       | [] => try_service (sv_id op) None
                 (λ st, match delete_service (sv_id op) st with
                        | Ok st' => Ok (tt, st') | Err e => Err e end)
       | _ => try_service (sv_id op) None
                (λ st, match remove_port_bindings (binding_uuid mint (sv_id op)) (sv_id op) claims st with
                       | Ok (_, st') => Ok (tt, st') | Err e => Err e end)
       end) ;;
      mret (with_matchable ((λ s, if (sv_id s =? sv_id op)%N
                                  then with_bindings (remaining_bindings claims (bindings (sv_base s))) s
                                  else s) <$> matchable o) o)
  end.

(** Hand the container's metadata to the services that hold its ports. *)
Definition enrich (container : Service) (conflicting : list Binding) (o : Owners) : CM unit :=
  let port_ids := omap port_id conflicting in
  let enrichable := List.filter (λ s,
    negb (is_generic (service_definition (sv_base s)))
    && bool_decide (virtualization_metadata (sv_base s) = None)
    && existsb (λ b, match port_id b with Some p => bool_decide (p ∈ port_ids) | None => false end)
         (bindings (sv_base s))) (matchable o) in
  for_each (λ s _,
    try_update (set_virtualization (virtualization_metadata (sv_base container))
                  (virtualization_service_id (sv_base container)) s) ;; mret tt) enrichable tt.

(** Store the service and make it known to the rest of the batch. *)
Definition finish_service (s : Service) (l : ServiceLoop) : CM ServiceLoop :=
  let o := owners l in
  let s := set_owner (resolve_owner_service_id (virtualization_service_id (sv_base s))
                        (id_remap o) (live_ids o)) s in
  c ← orfail (try_create s);
  mret {| owners := {| id_remap := remap_to (sv_id s) (sv_id c) (id_remap o);
                       live_ids := {[sv_id c]} ∪ live_ids o; matchable := matchable o ++ [c] |};
          batch_claimed := batch_claimed l ++ omap port_claim (bindings (sv_base s));
          orphaned := orphaned l; created_services := created_services l ++ [c] |}.

Section Loop.
Context (host : HostRow) (original_ips created_ips : list IPAddress)
        (original_ports created_ports : list Port) (ip_remap : gmap Uuid Uuid).

Definition aligned (existing : list Service) (s : Service) : Service :=
  match List.find (λ e, service_eqb e s) existing with
  | Some e => set_sv_id (sv_id e) s
  | None => s
  end.

Definition service_step (service : Service) (l : ServiceLoop) : CM ServiceLoop :=
  let o := owners l in
  let s0 := reassign_service_interface_bindings original_ips created_ips original_ports created_ports
              ip_remap (h_id host) (h_network_id (h_base host)) service in
  let s := aligned (matchable o) s0 in
  let o := with_id_remap (remap_to (sv_id s0) (sv_id s) (id_remap o)) o in
  let l := with_owners o l in
  w ← get;
  let '(valid, conflicting) :=
    partition_conflicting_bindings (services_of_host (world w) (h_id host)) (sv_id s)
      (bindings (sv_base s)) (batch_claimed l) in
  match conflicting with
  | [] => finish_service s l
  | _ =>
      if existsb (λ e, (sv_id e =? sv_id s)%N) (matchable o) then
        finish_service (with_bindings valid s) l
      else if bool_decide (virtualization_metadata (sv_base s) ≠ None)
              && is_generic (service_definition (sv_base s)) then
        enrich s conflicting o ;; mret l
      else
        let claims := omap port_claim conflicting in
        if all_from_open_ports (matchable o) claims then
          o' ← reclaim claims o;
          finish_service (with_bindings (valid ++ conflicting) s) (with_owners o' l)
        else mret {| owners := o; batch_claimed := batch_claimed l;
                     orphaned := orphaned l ++ valid; created_services := created_services l |}
  end.

(** Orphaned bindings go to the open-ports service. *)
Definition assign_orphans (open_ports_definition : string) (l : ServiceLoop) : CM ServiceLoop :=
  match orphaned l with
  | [] => mret l
  | bs =>
      c ← orfail (try_create (service_new (open_ports_uuid mint) (clock mint) {|
            sv_host_id := h_id host; sv_network_id := h_network_id (h_base host);
            service_definition := open_ports_definition; sv_name := "Unclaimed Open Ports";
            bindings := bs; virtualization_metadata := None; virtualization_service_id := None;
            source := SourceDiscovery; sv_tags := []; sv_position := 0 |}));
      mret {| owners := owners l; batch_claimed := batch_claimed l; orphaned := orphaned l;
              created_services := created_services l ++ [c] |}
  end.

(** Owners that moved after a service was stored. *)
Definition repoint (o : Owners) (created : list Service) : CM unit :=
  for_each (λ s _,
    let r := resolve_owner_service_id (virtualization_service_id (sv_base s)) (id_remap o) (live_ids o) in
    if bool_decide (r = virtualization_service_id (sv_base s)) then mret tt
    else orfail (try_update (set_owner r s)) ;; mret tt) created tt.

(** Bindings that still name provisional ids. *)
Definition port_id_remap : gmap Uuid Uuid :=
  foldl (λ m p, match List.find (λ c, port_eqb (port_type (p_base c)) (port_type (p_base p))) created_ports with
                | Some c => remap_to (p_id p) (p_id c) m
                | None => m
                end) ∅ original_ports.

Definition fix_binding (b : Binding) : Binding :=
  match bt b with
  | BindIPAddress i => set_binding_type (BindIPAddress (default i (ip_remap !! i))) b
  | BindPort p i =>
      set_binding_type (BindPort (default p (port_id_remap !! p))
                          ((λ i, default i (ip_remap !! i)) <$> i)) b
  end.

Definition needs_fix (s : Service) : bool :=
  existsb (λ b, match ip_address_id b with
                | Some i => bool_decide (is_Some (ip_remap !! i)) | None => false end
                || match port_id b with
                   | Some p => bool_decide (is_Some (port_id_remap !! p)) | None => false end)
    (bindings (sv_base s)).

Definition fix_bindings (created : list Service) : CM unit :=
  for_each (λ s _,
    if needs_fix s
    then try_update (with_bindings (fix_binding <$> bindings (sv_base s)) s) ;; mret tt
    else mret tt) created tt.
End Loop.

(** ** [create_with_children] *)

Record Submission := {
  sub_host : HostRow;
  sub_ips : list IPAddress;
  sub_ports : list Port;
  sub_services : list Service;
  sub_interfaces : list InterfaceRow;
  sub_subnets : list Subnet;
  sub_interfaces_complete : bool;
  sub_data_complete : InterfaceDataComplete
}.

Record HostResponse := {
  r_host : HostRow;
  r_ips : list IPAddress;
  r_ports : list Port;
  r_services : list Service;
  r_interfaces : list InterfaceRow
}.

Definition create_interfaces (host : HostRow) (sub : Submission) : CM (list InterfaceRow) :=
  w ← get;
  let b := ingest persists (h_id host) (h_network_id (h_base host)) (sub_data_complete sub) (if_rows w)
             (sub_interfaces sub) in
  put (set_if_rows (prune (h_id host) (sub_interfaces_complete sub) b)) ;;
  mret (b_created b).

Definition create_credentials (host : HostRow) (assignments : list CredentialAssignment) : CM unit :=
  match assignments with
  | [] => mret tt
  | _ => put (on_world (λ w, set_credentials
           (<[h_id host := merge_host_credentials (assignments_of w (h_id host)) assignments]>
              (host_credentials w)) w))
  end.

Definition create_services (open_ports_definition : string) (host : HostRow) (sub : Submission)
    (o : Owners) (ports : list Port) (ips : list IPAddress) : CM (list Service) :=
  let remap := ip_id_remap (sub_ips sub) ips in
  l ← for_each (service_step host (sub_ips sub) ips (sub_ports sub) ports remap) (sub_services sub)
        {| owners := o; batch_claimed := []; orphaned := []; created_services := [] |};
  l ← assign_orphans host open_ports_definition l;
  repoint (owners l) (created_services l) ;;
  fix_bindings (sub_ports sub) ports remap (created_services l) ;;
  mret (created_services l).

Definition create_with_children (open_ports_definition : string) (cb : ConflictBehavior)
    (limit_ctx : option HostLimitContext) (sub : Submission) : CM HostResponse :=
  host ← align_host cb (sub_host sub) (sub_ips sub) limit_ctx;
  created ← create_unlocked host;
  ports ← create_ports cb created (sub_ports sub);
  w ← get;
  let existing := match cb with
                  | ConflictUpsert => services_of_host (world w) (h_id created)
                  | ConflictError => [] end in
  osa ← create_subnets created existing (sub_services sub) (sub_subnets sub);
  ips ← create_ips cb created osa.2 (sub_ips sub);
  services ← create_services open_ports_definition created sub osa.1 ports ips;
  interfaces ← create_interfaces created sub;
  let assignments := remap_assignment_ip_ids ((λ i, (ip_id i, ip_address (ip_base i))) <$> sub_ips sub) ips
                       <$> credential_assignments (h_base host) in
  create_credentials created assignments ;;
  mret {| r_host := set_assignments assignments created; r_ips := ips; r_ports := ports;
          r_services := services; r_interfaces := interfaces |}.

(** ** [discover_host] *)

Definition refresh_meta (t : DateTime) (m : RowMeta) : RowMeta := {|
  created_at := created_at m; updated_at := t; Entities.valid_from := Entities.valid_from m;
  valid_to := valid_to m; lineage_id := lineage_id m; last_seen_at := t;
  last_discovery_id := last_discovery_id m; first_discovery_id := first_discovery_id m |}.

(** What a daemon may not say about a host. *)
Definition sanitize_host (h : HostRow) : HostRow :=
  let b := (clamp_name_source Integration (h_base h)).2 in
  {| h_id := h_id h; h_meta := h_meta h;
     h_base := {| h_name := h_name b; name_source := name_source b; h_network_id := h_network_id b;
       hostname := hostname b; h_description := h_description b; h_source := h_source b;
       h_virtualization_metadata := h_virtualization_metadata b;
       h_virtualization_service_id := None; hidden := hidden b;
       h_tags := h_tags b; sys_descr := sys_descr b; sys_object_id := sys_object_id b;
       sys_location := sys_location b; sys_contact := sys_contact b;
       management_url := management_url b; chassis_id := chassis_id b; sys_name := sys_name b;
       manufacturer := manufacturer b; model := model b; serial_number := serial_number b;
       credential_assignments := credential_assignments b |} |}.

Definition stamp (scan_time : option DateTime) (sub : Submission) : Submission :=
  match scan_time with
  | None => sub
  | Some t =>
      let h := sub_host sub in
      {| sub_host := {| h_id := h_id h; h_meta := refresh_meta t (h_meta h); h_base := h_base h |};
         sub_ips := (λ i, set_ip_meta (refresh_meta t (ip_meta i)) i) <$> sub_ips sub;
         sub_ports := (λ p, set_p_meta (refresh_meta t (p_meta p)) p) <$> sub_ports sub;
         sub_services := (λ s, {| sv_id := sv_id s; sv_meta := refresh_meta t (sv_meta s);
                                  sv_base := sv_base s |}) <$> sub_services sub;
         sub_interfaces := (λ i, {| if_id := if_id i; if_meta := refresh_meta t (if_meta i);
                                    if_base := if_base i |}) <$> sub_interfaces sub;
         sub_subnets := (λ s, {| s_id := s_id s; s_meta := refresh_meta t (s_meta s);
                                 s_base := s_base s |}) <$> sub_subnets sub;
         sub_interfaces_complete := sub_interfaces_complete sub;
         sub_data_complete := sub_data_complete sub |}
  end.

Definition set_interface_ip (id : Uuid) : InterfaceRow → InterfaceRow := with_base (λ b, {|
  if_host_id := if_host_id b; if_network_id := if_network_id b; if_index := if_index b;
  if_descr := if_descr b; if_name := if_name b; if_alias := if_alias b; if_type := if_type b;
  speed_bps := speed_bps b; admin_status := admin_status b; oper_status := oper_status b;
  if_mac := if_mac b; if_ip_address_id := Some id; neighbor := neighbor b; lldp := lldp b;
  cdp := cdp b; fdb_macs := fdb_macs b; vlans := vlans b |}).

(** Addresses of a host and subnet, as the queries order them. *)
Definition ip_position_leb (a b : IPAddress) : bool := ip_position (ip_base a) <=? ip_position (ip_base b).

Definition link_interfaces_to_ip_addresses (host : Uuid) : CM unit :=
  w ← get;
  let planned : gmap Uuid Uuid := list_to_map (rev (plan_interface_ip_links (for_host host (if_rows w))
                   (sort_by ip_position_leb (ips_of_host (world w) host)))) in
  put (set_if_rows ((λ i, if (if_host_id (if_base i) =? host)%N then
                            match planned !! if_id i with Some t => set_interface_ip t i | None => i end
                          else i) <$> if_rows w)).

(** [reconcile_subnet_vlans_for_host]: the links of one subnet. *)
Definition fresh_vlan_ids (w : Inventory) (sid : Uuid) : list Uuid :=
  let ids := ip_id <$> List.filter (λ i, (subnet_id (ip_base i) =? sid)%N) (ip_rows (world w)) in
  let linked := List.filter (λ i, match if_ip_address_id (if_base i) with
                                  | Some a => bool_decide (a ∈ ids) | None => false end) (if_rows w) in
  dedup (λ a b, (a =? b)%N) (sort_by N.leb (omap (λ i, native_vlan_id (vlans (if_base i))) linked)).

Definition reconcile_subnet_vlans_for_host (host : Uuid) (previous : gset Uuid) : CM unit :=
  w ← get;
  let current : gset Uuid := list_to_set ((λ i, subnet_id (ip_base i)) <$> ips_of_host (world w) host) in
  for_each (λ sid _, put (λ w, set_subnet_vlans (<[sid := fresh_vlan_ids w sid]> (subnet_vlans w)) w))
    (elements (previous ∪ current)) tt.

Definition discover_host (open_ports_definition : string) (limit_ctx : option HostLimitContext)
    (scan_time : option DateTime) (sub : Submission) : CM HostResponse :=
  let sub := stamp scan_time {|
    sub_host := sanitize_host (sub_host sub); sub_ips := sub_ips sub; sub_ports := sub_ports sub;
    sub_services := sub_services sub; sub_interfaces := sub_interfaces sub;
    sub_subnets := sub_subnets sub; sub_interfaces_complete := sub_interfaces_complete sub;
    sub_data_complete := sub_data_complete sub |} in
  w ← get;
  let previous : gset Uuid :=
    match find_matching_host_by_ip_addresses
            (hosts_in (world w) (h_network_id (h_base (sub_host sub)))) (ips_of_host (world w))
            (sub_ips sub) with
    | Some (_, ips) => list_to_set ((λ i, subnet_id (ip_base i)) <$> ips)
    | None => ∅
    end in
  r ← create_with_children open_ports_definition ConflictUpsert limit_ctx sub;
  match sub_interfaces sub with
  | [] => mret r
  | _ =>
      link_interfaces_to_ip_addresses (h_id (r_host r)) ;;
      reconcile_subnet_vlans_for_host (h_id (r_host r)) previous ;;
      mret r
  end.

(** ** [seed_loopback] *)

Definition seed_loopback (cidr_text : IpCidr → string) (subnet_id ip_uuid : Uuid)
    (host network : Uuid) : CM unit :=
  match subnet_from_discovery cidr_text subnet_id (clock mint) "lo" (NetV4 (127 * 2 ^ 24 + 1) 8) network with
  | None => mret tt
  | Some s =>
      w ← get;
      let '(created, rows) := create_subnet (subnet_uuid mint) (clock mint) s (subnet_rows w) in
      put (set_subnet_rows rows) ;;
      w ← get;
      let i := {| ip_id := ip_uuid; ip_meta := fresh_meta (clock mint);
                  ip_base := {| ip_network_id := network; ip_host_id := host;
                                Entities.subnet_id := s_id created; ip_address := ipv4 127 0 0 1;
                                mac_address := None; ip_name := Some "lo"%string;
                                ip_position := 0 |} |} in
      if ip_refused (world w) i then throw DuplicateKey
      else if bool_decide (s_id created ∈ s_id <$> subnet_rows w)
      then put (on_world (λ w, set_ip_rows (ip_rows w ++ [i]) w))
      else throw (UnknownSubnet (s_id created))
  end.
End Create.
