(* ===== verification/HostCreateThms.v ===== *)
(** What a submission does to the inventory.

    Theorems on [HostCreate]: the stages that store ports and addresses merge
    reports into rows without tripping over the unique indexes, bridge subnets
    are written with owners that exist, and the whole operation stays on its
    host's network. *)

From S2P Require Import Prelude Effects Net Ports Position Entities ServiceIdentity Bindings.
From S2P Require Import Services Lldp Hosts HostMatch Subnets Consolidate Interfaces HostCreate.
Local Open Scope Z_scope.

Lemma fmap_factor {A B C} (core : A → C) (f : A → B) (l l' : list A) :
  (∀ a b, core a = core b → f a = f b) → core <$> l = core <$> l' → f <$> l = f <$> l'.
Proof.
  intros H. revert l'. induction l as [|x l IH]; intros [|y l'] E; simplify_eq/=; [done|].
  by rewrite (H x y), (IH l').
Qed.

(** ** Merging reports into a table

    Rows are known by an id and by a natural key, both unique.  [core] is what a
    refresh of [last_seen_at] keeps. *)
Section Absorb.
Context {A K C : Type} (idf : A → Uuid) (key : A → K) (core : A → C).
(** Which stored row may stand for a report, and what an inserted row is. *)
Context (stands from : A → A → Prop).

Definition wf_table (l : list A) : Prop := NoDup (idf <$> l) ∧ NoDup (key <$> l).

Record absorbed (l0 : list A) (reported created refresh l : list A) : Prop := {
  ab_wf : wf_table l;
  ab_prefix : ∃ new, l = l0 ++ new ∧ ∀ r, r ∈ new → ∃ p, p ∈ reported ∧ from p r;
  ab_created : Forall2 (λ p c, (∃ r, r ∈ l ∧ core r = core c) ∧ stands p c) reported created;
  ab_refresh : ∀ e, e ∈ refresh → ∃ r, r ∈ l ∧ core r = core e
}.

Lemma absorbed_nil l0 : wf_table l0 → absorbed l0 [] [] [] l0.
Proof.
  intros Hwf. constructor; [done| |by constructor|by intros e ?%not_elem_of_nil].
  exists []. split; [by rewrite app_nil_r|by intros r ?%not_elem_of_nil].
Qed.

Lemma absorbed_match l0 rep cr rf l p e e' :
  absorbed l0 rep cr rf l → e ∈ l → core e' = core e → stands p e' →
  absorbed l0 (rep ++ [p]) (cr ++ [e']) (rf ++ [e']) l.
Proof.
  intros [Hwf (new & Hl & Hnew) Hcr Hrf] He Hc Hs. constructor; [done| | |].
  - exists new. split; [done|]. intros r (p' & Hp & Hf)%Hnew. exists p'. set_solver.
  - apply Forall2_app; [done|]. constructor; [|done]. split; [by exists e|done].
  - intros x [Hx| ->%list_elem_of_singleton]%elem_of_app; [by apply Hrf|by exists e].
Qed.

Lemma absorbed_insert l0 rep cr rf l p r :
  absorbed l0 rep cr rf l → idf r ∉ idf <$> l → key r ∉ key <$> l → stands p r → from p r →
  absorbed l0 (rep ++ [p]) (cr ++ [r]) rf (l ++ [r]).
Proof.
  intros [[Hid Hkey] (new & -> & Hnew) Hcr Hrf] Hi Hk Hs Hf. constructor.
  - split; by apply NoDup_fmap_snoc.
  - exists (new ++ [r]). rewrite app_assoc. split; [done|].
    intros x [(p' & Hp & Hf')%Hnew| ->%list_elem_of_singleton]%elem_of_app;
      [exists p'; set_solver|exists p; set_solver].
  - apply Forall2_app.
    + eapply Forall2_impl; [|exact Hcr]. intros x c [(y & Hy & Ey) Hst]. split; [|done].
      exists y. set_solver.
    + constructor; [|done]. split; [exists r; set_solver|done].
  - intros x (y & Hy & Ey)%Hrf. exists y. set_solver.
Qed.

Context (core_id : ∀ a b, core a = core b → idf a = idf b).
Context (core_key : ∀ a b, core a = core b → key a = key b).

(** Writing the refreshed rows back keeps the cores. *)
Lemma refresh_cores l rf :
  NoDup (idf <$> l) → (∀ e, e ∈ rf → ∃ r, r ∈ l ∧ core r = core e) →
  core <$> foldl (flip (store_by idf)) l rf = core <$> l.
Proof.
  revert l. induction rf as [|e rf IH]; intros l Hnd Hrf; simpl; [done|].
  destruct (Hrf e) as (r & Hr & Er); [left|].
  assert (core <$> store_by idf e l = core <$> l) as Hc.
  { unfold store_by. rewrite <- list_fmap_compose. apply list_fmap_ext. intros i x Hx. simpl.
    destruct (N.eqb_spec (idf x) (idf e)) as [E|]; [|done].
    assert (x = r) as ->; [|done].
    apply (NoDup_key_inj idf l); [done|by eapply list_elem_of_lookup_2|done|].
    by rewrite E, (core_id r e Er). }
  change (flip (store_by idf) l e) with (store_by idf e l). rewrite IH; [done| |].
  - by rewrite store_by_keys.
  - intros x Hx. destruct (Hrf x) as (y & Hy & Ey); [by right|].
    assert (core y ∈ core <$> store_by idf e l) as (z & Ez & Hz)%list_elem_of_fmap
      by (rewrite Hc; apply list_elem_of_fmap; eauto).
    exists z. split; [done|congruence].
Qed.

(** The table after a batch. *)
Lemma absorbed_table l0 rep cr rf l :
  absorbed l0 rep cr rf l →
  let l' := foldl (flip (store_by idf)) l rf in
  wf_table l'
  ∧ (∀ a, a ∈ l0 → ∃ b, b ∈ l' ∧ core b = core a)
  ∧ (∀ b, b ∈ l' → (∃ a, a ∈ l0 ∧ core b = core a) ∨ ∃ p r, p ∈ rep ∧ from p r ∧ core b = core r)
  ∧ Forall2 (λ p c, (∃ b, b ∈ l' ∧ core b = core c) ∧ stands p c) rep cr.
Proof.
  intros [[Hid Hkey] (new & Hl & Hnew) Hcr Hrf] l'.
  assert (core <$> l' = core <$> l) as Hc by (by apply refresh_cores).
  assert (∀ a, a ∈ l → ∃ b, b ∈ l' ∧ core b = core a) as Hfw.
  { intros a Ha. assert (core a ∈ core <$> l') as (b & E & Hb)%list_elem_of_fmap
      by (rewrite Hc; apply list_elem_of_fmap; eauto). eauto. }
  assert (∀ b, b ∈ l' → ∃ a, a ∈ l ∧ core b = core a) as Hbw.
  { intros b Hb. assert (core b ∈ core <$> l) as (a & E & Ha)%list_elem_of_fmap
      by (rewrite <- Hc; apply list_elem_of_fmap; eauto). eauto. }
  split; [|split; [|split]].
  - by split; [rewrite (fmap_factor _ _ _ _ core_id Hc)|rewrite (fmap_factor _ _ _ _ core_key Hc)].
  - intros a Ha. apply Hfw. rewrite Hl. set_solver.
  - intros b (a & Ha & E)%Hbw. rewrite Hl in Ha. apply elem_of_app in Ha as [Ha|Ha]; [left; eauto|right].
    destruct (Hnew a Ha) as (p & Hp & Hf). eauto 6.
  - eapply Forall2_impl; [|exact Hcr]. intros x c [(r & Hr & E) Hs]. split; [|done].
    destruct (Hfw r Hr) as (b & Hb & Eb). exists b. split; [done|congruence].
Qed.
End Absorb.

(** ** Ports *)

Definition port_key (p : Port) : Uuid * PortConfig := (p_host_id (p_base p), config (port_type (p_base p))).
Definition port_core (p : Port) : Uuid * PortBase := (p_id p, p_base p).

(** A stored row that stands for a reported port: its own id, or its number and
    protocol on the host. *)
Definition port_stands (host : HostRow) (p c : Port) : Prop :=
  p_id c = p_id p ∨ port_key c = (h_id host, config (port_type (p_base p))).
Definition port_from (host : HostRow) (p c : Port) : Prop :=
  p_id c = p_id p ∧ p_base c = {| p_host_id := h_id host; p_network_id := h_network_id (h_base host);
                                   port_type := port_type (p_base p) |}.

(** [existing_port] finds a stored row that stands for the port, and finds none
    only when inserting it keeps both indexes. *)
Lemma existing_port_spec w host port :
  let p := with_host (h_id host) (h_network_id (h_base host)) port in
  match existing_port w p with
  | Some e => e ∈ port_rows w ∧ port_stands host port e
  | None => p_id p ∉ p_id <$> port_rows w ∧ port_key p ∉ port_key <$> port_rows w
            ∧ port_refused w p = false
  end.
Proof.
  intros p. unfold existing_port. destruct (List.find _ (port_rows w)) as [e|] eqn:E1.
  { apply find_elem in E1 as [He Hid%N.eqb_eq]. split; [done|by left]. }
  destruct (List.find _ (ports_of_host _ _)) as [e|] eqn:E2.
  { apply find_elem in E2 as [Hin Hc%port_eqb_config].
    apply of_host_elem in Hin as [He Hh]. split; [done|]. right. unfold port_key. by rewrite Hh, Hc. }
  rewrite find_None_Forall, Forall_forall in E1, E2.
  assert (∀ e, e ∈ port_rows w → p_id e ≠ p_id p) as Hid.
  { intros e He. apply N.eqb_neq, E1, list_elem_of_In. done. }
  assert (∀ e, e ∈ port_rows w → port_key e ≠ port_key p) as Hkey.
  { intros e He [= Hh Hc]. assert (e ∈ ports_of_host w (p_host_id (p_base p))) as Hin
      by (by apply of_host_elem).
    apply list_elem_of_In, E2, not_true_iff_false in Hin. by apply Hin, port_eqb_config. }
  split; [|split].
  - intros (e & E & He)%list_elem_of_fmap. by apply (Hid e).
  - intros (e & E & He)%list_elem_of_fmap. by apply (Hkey e).
  - apply existsb_elem_false. intros e He. apply orb_false_iff. split; [by apply N.eqb_neq, Hid|].
    apply andb_false_iff. destruct (N.eqb_spec (p_host_id (p_base e)) (p_host_id (p_base p))) as [Eh|];
      [right|by left].
    apply not_true_iff_false. intros Ec%port_eqb_config. apply (Hkey e He). unfold port_key. by rewrite Eh, Ec.
Qed.

Abbreviation ports_absorbed host l0 :=
  (absorbed p_id port_key port_core (port_stands host) (port_from host) l0).
Abbreviation wf_ports := (wf_table p_id port_key).

Lemma on_world_ports_id w : on_world (set_port_rows (port_rows (world w))) w = w.
Proof. by destruct w as [[] ? ? ?]. Qed.

(** ** Addresses *)

Definition ip_key (i : IPAddress) : Uuid * Uuid * IpAddr :=
  (ip_host_id (ip_base i), subnet_id (ip_base i), ip_address (ip_base i)).
Definition ip_core (i : IPAddress) : Uuid * IPAddressBase := (ip_id i, ip_base i).

(** A stored row that stands for a reported address: its own id, its address on
    the host, or its MAC on the host. *)
Definition ip_stands (host : HostRow) (i c : IPAddress) : Prop :=
  ip_id c = ip_id i
  ∨ ip_host_id (ip_base c) = h_id host
    ∧ (ip_address (ip_base c) = ip_address (ip_base i)
       ∨ is_Some (mac_address (ip_base i)) ∧ mac_address (ip_base c) = mac_address (ip_base i)).
Definition ip_from (host : HostRow) (subnets : list Subnet) (i c : IPAddress) : Prop :=
  ip_id c = ip_id i
  ∧ ∃ sid, sid ∈ s_id <$> subnets
    ∧ ip_base c = {| ip_network_id := h_network_id (h_base host); ip_host_id := h_id host;
                     subnet_id := sid; ip_address := ip_address (ip_base i);
                     mac_address := mac_address (ip_base i); ip_name := ip_name (ip_base i);
                     ip_position := ip_position (ip_base i) |}.

Lemma existing_ip_spec w counts i :
  match existing_ip w counts i with
  | Some e => e ∈ ip_rows w
      ∧ (ip_id e = ip_id i
         ∨ ip_host_id (ip_base e) = ip_host_id (ip_base i)
           ∧ (ip_address (ip_base e) = ip_address (ip_base i)
              ∨ is_Some (mac_address (ip_base i)) ∧ mac_address (ip_base e) = mac_address (ip_base i)))
  | None => ip_id i ∉ ip_id <$> ip_rows w ∧ ip_key i ∉ ip_key <$> ip_rows w ∧ ip_refused w i = false
  end.
Proof.
  unfold existing_ip. cbv zeta. destruct (List.find _ (ip_rows w)) as [e|] eqn:E1.
  { apply find_elem in E1 as [He Hid%N.eqb_eq]. split; [done|by left]. }
  destruct (List.find _ (List.filter _ _)) as [e|] eqn:E2.
  { apply find_elem in E2 as [[_ [He Hh]%of_host_elem]%elem_of_list_filter_bool
                              Ha%bool_decide_eq_true]. split; [done|]. right. split; [done|by left]. }
  rewrite find_None_Forall, Forall_forall in E1, E2.
  assert (∀ e, e ∈ ip_rows w → ip_id e ≠ ip_id i) as Hid.
  { intros e He. apply N.eqb_neq, E1, list_elem_of_In. done. }
  assert (∀ e, e ∈ ip_rows w → ip_key e ≠ ip_key i) as Hkey.
  { intros e He [= Hh Hs Ha].
    assert (bool_decide (ip_address (ip_base e) = ip_address (ip_base i)) = false) as Hf.
    { apply E2, list_elem_of_In, elem_of_list_filter_bool. split; [by apply N.eqb_eq|].
      by apply of_host_elem. }
    by apply bool_decide_eq_false in Hf. }
  assert (ip_id i ∉ ip_id <$> ip_rows w ∧ ip_key i ∉ ip_key <$> ip_rows w ∧ ip_refused w i = false) as Hnone.
  { split; [|split].
    - intros (e & E & He)%list_elem_of_fmap. by apply (Hid e).
    - intros (e & E & He)%list_elem_of_fmap. by apply (Hkey e).
    - apply existsb_elem_false. intros e He. apply orb_false_iff. split; [by apply N.eqb_neq, Hid|].
      apply not_true_iff_false. rewrite !andb_true_iff, !N.eqb_eq, bool_decide_eq_true.
      intros [[Eh Es] Ea]. apply (Hkey e He). unfold ip_key. by rewrite Eh, Es, Ea. }
  destruct (mac_address (ip_base i)) as [mac|] eqn:Em; simpl; [|exact Hnone].
  destruct (_ =? 1)%nat; [|exact Hnone]. clear E1 E2.
  destruct (List.filter _ _) as [|e [|]] eqn:Ef; [exact Hnone| |exact Hnone].
  assert (e ∈ [e]) as Hin by left. rewrite <- Ef in Hin.
  apply elem_of_list_filter_bool in Hin as [Hm%bool_decide_eq_true [He Hh]%of_host_elem].
  split; [done|]. right. split; [done|right]. rewrite Hm. eauto.
Qed.

Lemma settle_subnet_shape w host sa i : ∃ sid, settle_subnet w host sa i = set_ip_subnet sid i.
Proof.
  assert (i = set_ip_subnet (subnet_id (ip_base i)) i) as Hi by (by destruct i as [? ? []]).
  unfold settle_subnet. cbv zeta. destruct (subnet_remap sa !! _); case_bool_decide;
    try destruct (resolve_dangling_subnet_id _ _ _); eauto.
Qed.

(** Where an address ends up: a subnet that exists, or nowhere because no subnet
    of the network contains it. *)
Lemma settle_subnet_spec w host sa i :
  (∀ s, s ∈ created_subnets sa → s ∈ s_id <$> subnet_rows w) →
  let r := settle_subnet w host sa i in
  (∃ sid, r = set_ip_subnet sid i)
  ∧ (subnet_id (ip_base r) ∈ s_id <$> subnet_rows w
     ∨ ∀ s, s ∈ subnet_rows w → s_network_id (s_base s) = h_network_id (h_base host) →
            cidr_contains (cidr (s_base s)) (ip_address (ip_base i)) = false).
Proof.
  intros Hcr r. split; [apply settle_subnet_shape|]. unfold r, settle_subnet. cbv zeta.
  set (i1 := match subnet_remap sa !! _ with Some n => set_ip_subnet n i | None => i end).
  assert (ip_address (ip_base i1) = ip_address (ip_base i)) as Ha
    by (unfold i1; by destruct (subnet_remap sa !! _)).
  case_bool_decide as Hin; [left; by apply Hcr|].
  unfold resolve_dangling_subnet_id.
  set (live := List.filter _ (subnet_rows w)).
  destruct (existsb _ live) eqn:Ex.
  - left. apply existsb_elem in Ex as (s & [_ Hs]%elem_of_list_filter_bool & E%N.eqb_eq).
    apply list_elem_of_fmap. eauto.
  - destruct (max_by_key _ _) as [s|] eqn:Em; simpl.
    + apply max_by_key_spec in Em as [[_ [_ Hs]%elem_of_list_filter_bool]%elem_of_list_filter_bool _].
      left. apply list_elem_of_fmap. eauto.
    + right. intros s Hs Hn. apply not_true_iff_false. intros Hc.
      assert (s ∈ List.filter (λ s, cidr_contains (cidr (s_base s)) (ip_address (ip_base i1))) live) as Hin'.
      { apply elem_of_list_filter_bool. rewrite Ha. split; [done|]. apply elem_of_list_filter_bool.
        by rewrite N.eqb_eq. }
      destruct (List.filter _ live); [by apply elem_of_nil in Hin'|done].
Qed.

Abbreviation ips_absorbed host subnets l0 :=
  (absorbed ip_id ip_key ip_core (ip_stands host) (ip_from host subnets) l0).
Abbreviation wf_ips := (wf_table ip_id ip_key).

(** No subnet of the host's network contains the address. *)
Definition no_subnet_for (w : Inventory) (host : HostRow) (i : IPAddress) : Prop :=
  ∀ s, s ∈ subnet_rows w → s_network_id (s_base s) = h_network_id (h_base host) →
       cidr_contains (cidr (s_base s)) (ip_address (ip_base i)) = false.

Section Facts.
Context {facts : DefinitionFacts} (mint : Mint) (persists : InterfaceRow → list InterfaceRow → bool).

Lemma port_step_absorbs host w0 pre port acc :
  triple (λ w, ∃ l, w = on_world (set_port_rows l) w0
                    ∧ ports_absorbed host (port_rows (world w0)) pre acc.1 acc.2 l)
    (port_step ConflictUpsert host port acc)
    (λ acc w, ∃ l, w = on_world (set_port_rows l) w0
                   ∧ ports_absorbed host (port_rows (world w0)) (pre ++ [port]) acc.1 acc.2 l)
    (λ _ _, False).
Proof.
  intros w (l & -> & Hab). unfold port_step. cbv zeta.
  set (p := with_host (h_id host) (h_network_id (h_base host)) port).
  set (w1 := on_world (set_port_rows l) w0).
  pose proof (existing_port_spec (world w1) host port) as Hex. cbv zeta in Hex. fold p in Hex.
  run. destruct (existing_port (world w1) p) as [e|] eqn:Ee; simpl in Hex.
  - destruct Hex as [He Hs]. simpl. exists l. split; [done|].
    by eapply absorbed_match; [exact Hab|exact He| |].
  - destruct Hex as (Hid & Hkey & Hno). unfold insert_port. cbv zeta. unfold mbind at 1, SM_bind at 1. run.
    assert (port_refused (world w1) (set_p_meta (originate_meta (p_meta p)) p) = false) as -> by exact Hno.
    simpl. exists (l ++ [set_p_meta (originate_meta (p_meta p)) p]). split; [done|].
    apply absorbed_insert; [exact Hab|exact Hid|exact Hkey| |].
    + by left.
    + by split.
Qed.

(** Storing the ports of a scan always succeeds and merges.  Whatever ports are
    reported, under whatever ids, the unique index is never violated; the table
    afterwards has the old rows, with nothing but their freshness changed, and
    rows for the ports that were new, all on the host and its network; and each
    reported port is answered, in order, by a stored row: the row of its id or
    the row of its number and protocol on the host. *)
Theorem create_ports_spec host ports w :
  wf_ports (port_rows (world w)) →
  ∃ l created, create_ports ConflictUpsert host ports w = (on_world (set_port_rows l) w, Ok created)
    ∧ wf_ports l
    ∧ (∀ a, a ∈ port_rows (world w) → ∃ b, b ∈ l ∧ port_core b = port_core a)
    ∧ (∀ b, b ∈ l → (∃ a, a ∈ port_rows (world w) ∧ port_core b = port_core a)
                    ∨ ∃ p r, p ∈ ports ∧ port_from host p r ∧ port_core b = port_core r)
    ∧ Forall2 (λ p c, (∃ b, b ∈ l ∧ port_core b = port_core c) ∧ port_stands host p c) ports created.
Proof.
  intros Hwf. unfold create_ports.
  pose proof (triple_for_each (port_step ConflictUpsert host)
    (λ pre acc w', ∃ l, w' = on_world (set_port_rows l) w
                   ∧ ports_absorbed host (port_rows (world w)) pre acc.1 acc.2 l)
    (λ _ _, False) ports ([], [])
    (λ pre x post acc _, port_step_absorbs host w pre x acc) w) as Hloop.
  unfold mbind at 1, SM_bind at 1. destruct (for_each _ _ _ w) as [w1 [acc|e]].
  - destruct Hloop as (l & -> & Hab).
    { exists (port_rows (world w)). split; [by rewrite on_world_ports_id|by apply absorbed_nil]. }
    eexists _, acc.1. split; [reflexivity|]. simpl.
    apply (absorbed_table p_id port_key port_core) in Hab; [exact Hab| |].
    + by intros a b [= -> ?].
    + intros a b [= _ E]. unfold port_key. by rewrite E.
  - exfalso. apply Hloop. exists (port_rows (world w)).
    split; [by rewrite on_world_ports_id|by apply absorbed_nil].
Qed.

Lemma ip_step_absorbs host sa counts w0 pre i acc :
  (∀ s, s ∈ created_subnets sa → s ∈ s_id <$> subnet_rows w0) →
  triple (λ w, ∃ l, w = on_world (set_ip_rows l) w0
                    ∧ ips_absorbed host (subnet_rows w0) (ip_rows (world w0)) pre acc.1 acc.2 l)
    (ip_step ConflictUpsert host sa counts i acc)
    (λ acc w, ∃ l, w = on_world (set_ip_rows l) w0
                   ∧ ips_absorbed host (subnet_rows w0) (ip_rows (world w0)) (pre ++ [i]) acc.1 acc.2 l)
    (λ e _, ∃ sid, e = UnknownSubnet sid ∧ no_subnet_for w0 host i).
Proof.
  intros Hsa w (l & -> & Hab). unfold ip_step. run. cbv zeta.
  set (w1 := on_world (set_ip_rows l) w0). set (i0 := set_ip_network _ _).
  destruct (settle_subnet_spec w1 host sa i0 Hsa) as [[sid Ei] Hsub].
  set (j := settle_subnet w1 host sa i0) in *.
  pose proof (existing_ip_spec (world w1) counts j) as Hex.
  destruct (existing_ip (world w1) counts j) as [e|] eqn:Ee.
  - destruct Hex as [He Hs]. simpl. exists l. split; [done|].
    eapply absorbed_match; [exact Hab|exact He|done|].
    rewrite Ei in Hs. exact Hs.
  - destruct Hex as (Hid & Hkey & Hno). unfold insert_ip. cbv zeta. unfold mbind at 1, SM_bind at 1. run.
    assert (ip_refused (world w1) (set_ip_meta (originate_meta (ip_meta j)) j) = false) as -> by exact Hno.
    case_bool_decide as Hin.
    + simpl. exists (l ++ [set_ip_meta (originate_meta (ip_meta j)) j]). split; [done|].
      apply absorbed_insert; [exact Hab|exact Hid|exact Hkey| |].
      * left. by rewrite Ei.
      * rewrite Ei in Hin |- *. split; [done|]. by exists sid.
    + simpl. eexists. split; [done|]. destruct Hsub as [?|Hnone]; [done|]. exact Hnone.
Qed.

(** Storing the addresses of a scan merges, and fails for one reason only.  The
    unique index is never violated; the call fails exactly on an address whose
    subnet does not exist and that no subnet of the network contains.  Otherwise
    the table has the old rows, with nothing but their freshness changed, and
    rows for the new addresses, on the host, its network and a subnet that
    exists; and each reported address is answered, in order, by a stored row. *)
Theorem create_ips_spec host sa ips w :
  wf_ips (ip_rows (world w)) →
  (∀ s, s ∈ created_subnets sa → s ∈ s_id <$> subnet_rows w) →
  match create_ips ConflictUpsert host sa ips w with
  | (_, Err e) => ∃ sid i, e = UnknownSubnet sid ∧ i ∈ ips ∧ no_subnet_for w host i
  | (w', Ok created) =>
      ∃ l, w' = on_world (set_ip_rows l) w ∧ wf_ips l
        ∧ (∀ a, a ∈ ip_rows (world w) → ∃ b, b ∈ l ∧ ip_core b = ip_core a)
        ∧ (∀ b, b ∈ l → (∃ a, a ∈ ip_rows (world w) ∧ ip_core b = ip_core a)
             ∨ ∃ i r, i ∈ ips ∧ ip_from host (subnet_rows w) i r ∧ ip_core b = ip_core r)
        ∧ Forall2 (λ i c, (∃ b, b ∈ l ∧ ip_core b = ip_core c) ∧ ip_stands host i c) ips created
  end.
Proof.
  intros Hwf Hsa. unfold create_ips.
  assert (∀ pre x post acc, ips = pre ++ x :: post →
    triple (λ w', ∃ l, w' = on_world (set_ip_rows l) w
                   ∧ ips_absorbed host (subnet_rows w) (ip_rows (world w)) pre acc.1 acc.2 l)
      (ip_step ConflictUpsert host sa (mac_counts_for_payload ips) x acc)
      (λ acc w', ∃ l, w' = on_world (set_ip_rows l) w
                   ∧ ips_absorbed host (subnet_rows w) (ip_rows (world w)) (pre ++ [x]) acc.1 acc.2 l)
      (λ e _, ∃ sid i, e = UnknownSubnet sid ∧ i ∈ ips ∧ no_subnet_for w host i)) as Hstep.
  { intros pre x post acc Hips. eapply triple_weaken; [| | |by apply ip_step_absorbs]; [by intros s Hs; apply Hs|by intros a s Hs; apply Hs|].
    intros e _ (sid & -> & Hno). exists sid, x. split; [done|]. split; [|done]. rewrite Hips. set_solver. }
  pose proof (triple_for_each _ (λ pre acc w', ∃ l, w' = on_world (set_ip_rows l) w
                   ∧ ips_absorbed host (subnet_rows w) (ip_rows (world w)) pre acc.1 acc.2 l)
    _ ips ([], []) Hstep w) as Hloop.
  unfold mbind at 1, SM_bind at 1. destruct (for_each _ _ _ w) as [w1 [acc|e]].
  - destruct Hloop as (l & -> & Hab).
    { exists (ip_rows (world w)). split; [by destruct w as [[] ? ? ?]|by apply absorbed_nil]. }
    run. simpl. eexists. split; [reflexivity|].
    apply (absorbed_table ip_id ip_key ip_core) in Hab; [exact Hab| |].
    + by intros a b [= -> ?].
    + intros a b [= _ E]. unfold ip_key. by rewrite E.
  - apply Hloop. exists (ip_rows (world w)).
    split; [by destruct w as [[] ? ? ?]|by apply absorbed_nil].
Qed.

Lemma existing_ip_by_mac w i m e :
  mac_address (ip_base i) = Some m → ip_id i ∉ ip_id <$> ip_rows w →
  (∀ r, r ∈ ips_of_host w (ip_host_id (ip_base i)) → ip_address (ip_base r) ≠ ip_address (ip_base i)) →
  List.filter (λ r, bool_decide (mac_address (ip_base r) = Some m)) (ips_of_host w (ip_host_id (ip_base i)))
  = [e] →
  existing_ip w {[m := 1%nat]} i = Some e.
Proof.
  intros Hm Hid Haddr Hmac. unfold existing_ip. cbv zeta.
  assert (List.find (λ e, (ip_id e =? ip_id i)%N) (ip_rows w) = None) as ->.
  { apply find_None_Forall, Forall_forall. intros r Hr%list_elem_of_In. apply N.eqb_neq. intros E.
    apply Hid. rewrite <- E. apply list_elem_of_fmap. eauto. }
  assert (List.find (λ r, bool_decide (ip_address (ip_base r) = ip_address (ip_base i)))
    (List.filter (λ r, (subnet_id (ip_base r) =? subnet_id (ip_base i))%N)
      (ips_of_host w (ip_host_id (ip_base i)))) = None) as ->.
  { apply find_None_Forall, Forall_forall. intros r Hr%list_elem_of_In. apply bool_decide_eq_false.
    apply Haddr. by apply elem_of_list_filter_bool in Hr as [_ Hr]. }
  rewrite Hm. simpl. rewrite lookup_singleton_eq. simpl. by rewrite Hmac.
Qed.

(** An address that moved is never recorded.  When a host has exactly one row
    with the MAC of the one address reported, the row stands for the report and
    keeps its old address and subnet: the call succeeds, the only change is the
    row's freshness, and no row of the host has the reported address, on this
    scan or any other. *)
Theorem moved_address_not_recorded host sa i w e m :
  mac_address (ip_base i) = Some m → ip_id i ∉ ip_id <$> ip_rows (world w) →
  (∀ r, r ∈ ips_of_host (world w) (h_id host) → ip_address (ip_base r) ≠ ip_address (ip_base i)) →
  List.filter (λ r, bool_decide (mac_address (ip_base r) = Some m)) (ips_of_host (world w) (h_id host)) = [e] →
  let e' := set_ip_meta (touch_last_seen (last_seen_at (ip_meta i)) (ip_meta e)) e in
  let w' := on_world (set_ip_rows (store_ip e' (ip_rows (world w)))) w in
  create_ips ConflictUpsert host sa [i] w = (w', Ok [e'])
  ∧ ∀ r, r ∈ ips_of_host (world w') (h_id host) → ip_address (ip_base r) ≠ ip_address (ip_base i).
Proof.
  intros Hm Hid Haddr Hmac e' w'.
  assert (mac_counts_for_payload [i] = {[m := 1%nat]}) as Hc
    by (unfold mac_counts_for_payload; simpl; rewrite Hm; done).
  split.
  - unfold create_ips. rewrite Hc. simpl for_each. unfold ip_step.
    set (j := settle_subnet w host sa (set_ip_network (h_network_id (h_base host)) (set_ip_host (h_id host) i))).
    assert (existing_ip (world w) {[m := 1%nat]} j = Some e ∧ ip_meta j = ip_meta i) as [Hj Hjm].
    { assert (∃ sid, j = set_ip_subnet sid (set_ip_network (h_network_id (h_base host)) (set_ip_host (h_id host) i)))
        as [sid ->].
      { apply settle_subnet_shape. }
      split; [|done]. by apply existing_ip_by_mac. }
    unfold mbind, SM_bind, get. fold j. rewrite Hj. unfold e', w'. by rewrite Hjm.
  - intros r [Hr Hh]%of_host_elem. simpl in Hr. unfold store_ip, store_by in Hr.
    apply list_elem_of_fmap in Hr as (x & -> & Hx). simpl in *.
    assert (e ∈ ips_of_host (world w) (h_id host)) as He.
    { assert (e ∈ [e]) as Hin by left. rewrite <- Hmac in Hin.
      by apply elem_of_list_filter_bool in Hin as [_ Hin]. }
    destruct (ip_id x =? ip_id e)%N; [exact (Haddr e He)|]. apply Haddr. by apply of_host_elem.
Qed.

(** ** Subnets and their owners *)

Definition sv_ids (w : Inventory) : list Uuid := sv_id <$> service_rows (world w).

(** Every id the stage may write as an owner is a stored service. *)
Record owners_ok (w : Inventory) (o : Owners) : Prop := {
  ok_live : ∀ id, id ∈ live_ids o → id ∈ sv_ids w;
  ok_remap : ∀ k id, id_remap o !! k = Some id → id ∈ sv_ids w;
  ok_matchable : ∀ e, e ∈ matchable o → sv_id e ∈ sv_ids w
}.

Lemma remap_to_ok (m : gmap Uuid Uuid) (P : Uuid → Prop) old new :
  (∀ k id, m !! k = Some id → P id) → P new → ∀ k id, remap_to old new m !! k = Some id → P id.
Proof.
  intros Hm Hn k id. unfold remap_to. destruct (old =? new)%N; [apply Hm|].
  rewrite lookup_insert_Some. intros [[_ <-]|[_ ?]]; [done|by eapply Hm].
Qed.

Lemma resolve_owner_ok w o incoming id :
  owners_ok w o → resolve_owner_service_id incoming (id_remap o) (live_ids o) = Some id → id ∈ sv_ids w.
Proof.
  intros [Hl Hr _]. unfold resolve_owner_service_id. intros (i & _ & E)%bind_Some.
  destruct (id_remap o !! i) as [r|] eqn:Ei; [simplify_eq; by eapply Hr|].
  case_bool_decide; simplify_eq. by apply Hl.
Qed.

Lemma initial_owners_ok w host existing services :
  (∀ e, e ∈ existing → e ∈ service_rows (world w)) → owners_ok w (initial_owners host existing services).
Proof.
  intros He. assert (∀ e, e ∈ existing → sv_id e ∈ sv_ids w) as Hid.
  { intros e Hin. apply list_elem_of_fmap. eauto. }
  constructor; simpl; [| |done].
  - intros id. rewrite elem_of_list_to_set. intros (e & -> & Hin)%list_elem_of_fmap. auto.
  - assert (∀ m, (∀ k id, m !! k = Some id → id ∈ sv_ids w) → ∀ k id,
      foldl (λ m s, match List.find (λ e, service_eqb e
          (set_sv_host (h_id host) (sv_network_id (sv_base s)) s)) existing with
        | Some e => remap_to (sv_id s) (sv_id e) m | None => m end) m services !! k = Some id →
      id ∈ sv_ids w) as Hgen; [|apply Hgen; intros k id Hk; by rewrite lookup_empty in Hk].
    induction services as [|s services IH]; intros m Hm; simpl; [done|]. apply IH.
    destruct (List.find _ existing) as [e|] eqn:Ef; [|done].
    apply find_elem in Ef as [Hin _]. apply remap_to_ok; auto.
Qed.

(** Creating a service keeps every id and stores the one returned. *)
Lemma create_service_ids new_id now fresh s st r st' :
  create_service new_id now fresh s st = Ok (r, st') →
  (∀ id, id ∈ sv_id <$> rows st → id ∈ sv_id <$> rows st') ∧ sv_id r ∈ sv_id <$> rows st'.
Proof.
  unfold create_service. cbv zeta. set (s1 := with_bindings _ _).
  assert (∀ pos, insert_service fresh pos s1 st = Ok (r, st') →
    (∀ id, id ∈ sv_id <$> rows st → id ∈ sv_id <$> rows st') ∧ sv_id r ∈ sv_id <$> rows st') as Hins.
  { intros pos. unfold insert_service. intros (? & _ & Hi)%result_bind_ok.
    apply result_bind_ok in Hi as (? & _ & [= <- <-]). simpl. rewrite fmap_app. set_solver. }
  destruct (List.find _ _) as [e|] eqn:Ef; [|apply Hins]. destruct (_ || _); [|apply Hins].
  intros [= <- <-]. apply find_elem in Ef as [[He _]%on_host_elem _]. unfold upsert_service.
  cbn [fst snd rows]. rewrite store_row_ids. split; [done|].
  apply list_elem_of_fmap. by exists e.
Qed.

Lemma try_service_cases {A} self owner (op : ServiceStore → result (A * ServiceStore) ServiceError) w :
  (∃ e, try_service self owner op w = (w, Ok (Err e)))
  ∨ ∃ a st, op (service_store (world w)) = Ok (a, st)
      ∧ owner_known (world w) (Some self) owner = true
      ∧ try_service self owner op w = (on_world (set_services (rows st) (deps st)) w, Ok (Ok a)).
Proof.
  unfold try_service. run. destruct (op (service_store (world w))) as [[a st]|e]; [|left; by eexists].
  destruct (owner_known _ _ _) eqn:E; [right|left; by eexists]. exists a, st. by run.
Qed.

(** The tables a stage on services leaves alone. *)
Definition services_only (w w' : Inventory) : Prop :=
  subnet_rows w' = subnet_rows w ∧ if_rows w' = if_rows w ∧ subnet_vlans w' = subnet_vlans w
  ∧ hosts (world w') = hosts (world w) ∧ ip_rows (world w') = ip_rows (world w)
  ∧ port_rows (world w') = port_rows (world w)
  ∧ host_credentials (world w') = host_credentials (world w)
  ∧ daemon_hosts (world w') = daemon_hosts (world w).

#[local] Instance services_only_refl : Reflexive services_only.
Proof. by intros w. Qed.
#[local] Instance services_only_trans : Transitive services_only.
Proof. intros w1 w2 w3. unfold services_only. naive_solver congruence. Qed.

Lemma try_service_only {A} self owner (op : ServiceStore → result (A * ServiceStore) ServiceError) :
  steps services_only (try_service self owner op).
Proof.
  intros w. destruct (try_service_cases self owner op w) as [(e & ->)|(a & st & _ & _ & ->)]; done.
Qed.

Lemma owner_step_ok (w0 : list Uuid) host ids s o :
  triple (λ w, owners_ok w o ∧ w0 ⊆ sv_ids w) (owner_step mint host ids s o)
    (λ o' w, owners_ok w o' ∧ w0 ⊆ sv_ids w) (λ _ _, False).
Proof.
  intros w [Hok Hw0]. pose proof Hok as [Hl Hr Hm]. unfold owner_step. destruct (_ || _); [done|]. cbv zeta.
  set (probe := set_sv_host _ _ s). destruct (List.find _ _) as [e|] eqn:Ef.
  - apply find_elem in Ef as [He _]. simpl. split; [|done].
    constructor; simpl; [|apply remap_to_ok; auto|done].
    intros id [->%elem_of_singleton|]%elem_of_union; auto.
  - unfold mbind, SM_bind, try_create.
    match goal with |- context [try_service ?a ?b ?c w] =>
      destruct (try_service_cases a b c w) as [(e & ->)|(c' & st & Hc & _ & ->)] end; [done|].
    simpl. apply create_service_ids in Hc as [Hgrow Hin].
    assert (∀ id, id ∈ sv_ids w → id ∈ sv_ids (on_world (set_services (rows st) (deps st)) w)) as Hg
      by exact Hgrow.
    split; [|by intros id Hid; apply Hg, Hw0]. constructor; simpl.
    + intros id [->%elem_of_singleton|]%elem_of_union; auto.
    + apply remap_to_ok; [|exact Hin]. intros k id Hk. by eapply Hg, Hr.
    + intros x [Hx| ->%list_elem_of_singleton]%elem_of_app; [by apply Hg, Hm|exact Hin].
Qed.

Lemma owner_step_only host ids s o : steps services_only (owner_step mint host ids s o).
Proof.
  unfold owner_step. destruct (_ || _); [apply steps_ret; apply _|]. cbv zeta.
  destruct (List.find _ _); [apply steps_ret; apply _|].
  apply steps_bind; [apply _|apply try_service_only|]. intros [c|e]; apply steps_ret; apply _.
Qed.

(** Owners of the stored subnets exist. *)
Definition owners_live (w : Inventory) : Prop :=
  ∀ s o, s ∈ subnet_rows w → s_virtualization_service_id (s_base s) = Some o → o ∈ sv_ids w.

(** What the subnet loop maintains, from the state [w0] it starts in. *)
Record subnets_ok (w0 : Inventory) (host : HostRow) (pre : list Subnet) (acc : SubnetAcc) (w : Inventory)
    : Prop := {
  so_world : world w = world w0 ∧ if_rows w = if_rows w0 ∧ subnet_vlans w = subnet_vlans w0;
  so_ids : NoDup (s_id <$> subnet_rows w);
  so_sub : ∀ id, id ∈ s_id <$> subnet_rows w → id ∈ s_id <$> subnet_rows w0 ++ pre;
  so_keeps : ∀ id, id ∈ s_id <$> subnet_rows w0 → id ∈ s_id <$> subnet_rows w;
  so_keys : NoDup (omap bridge_key (subnet_rows w));
  so_owners : owners_live w;
  so_created : ∀ id, id ∈ created_subnets acc → id ∈ s_id <$> subnet_rows w;
  so_network : ∀ s, s ∈ subnet_rows w →
    s_network_id (s_base s) = h_network_id (h_base host)
    ∨ s ∈ subnet_rows w0
}.

Lemma elem_of_store_subnet r l x :
  x ∈ store_subnet r l → x = r ∨ x ∈ l.
Proof.
  unfold store_subnet. intros (y & -> & Hy)%list_elem_of_fmap. destruct (_ =? _)%N; auto.
Qed.

Lemma refresh_owner s e :
  s_virtualization_service_id (s_base (refresh_subnet s e)) = s_virtualization_service_id (s_base e)
  ∧ s_network_id (s_base (refresh_subnet s e)) = s_network_id (s_base e).
Proof. rewrite refresh_subnet_base. by destruct (corrects_container_bridge_guess s e). Qed.

Lemma subnet_step_ok w0 host o pre s acc :
  owners_ok w0 o → s_id s ≠ uuid_nil → s_id s ∉ s_id <$> subnet_rows w0 ++ pre →
  triple (subnets_ok w0 host pre acc) (subnet_step mint host o s acc)
    (subnets_ok w0 host (pre ++ [s])) (λ _ _, False).
Proof.
  intros Hok Hnil Hfresh w [(Hw & Hif & Hvl) Hids Hsub Hkeep Hkeys Hown Hcr Hnet].
  unfold subnet_step. cbv zeta. run.
  set (s1 := set_subnet_scope _ _ s).
  assert (∀ id, s_virtualization_service_id (s_base s1) = Some id → id ∈ sv_ids w) as Hres.
  { intros id Hid. unfold sv_ids. rewrite Hw. exact (resolve_owner_ok w0 o _ id Hok Hid). }
  assert (owner_known (world w) None (s_virtualization_service_id (s_base s1)) = true) as ->.
  { unfold owner_known. destruct (s_virtualization_service_id (s_base s1)) as [id|]; [|done].
    by rewrite bool_decide_eq_true_2 by (by apply Hres). }
  cbn [negb].
  pose proof (create_subnet_keys (subnet_uuid mint) (clock mint) s1 (subnet_rows w) Hids Hkeys Hnil) as Hkeys'.
  assert (s_id s1 ∉ s_id <$> subnet_rows w) as Hnew by (intros Hin%Hsub; by apply Hfresh).
  assert (∀ id, id ∈ s_id <$> subnet_rows w → id ∈ s_id <$> subnet_rows w0 ++ (pre ++ [s])) as Hsub'.
  { intros id Hid%Hsub. rewrite app_assoc, fmap_app. set_solver. }
  destruct (create_subnet_cases (subnet_uuid mint) (clock mint) s1 (subnet_rows w) Hnil)
    as [(e & He & Hn & _ & E)|[_ E]]; rewrite E in *; simpl in Hkeys'; run; constructor; simpl.
  - done.
  - by rewrite store_subnet_ids.
  - by rewrite store_subnet_ids.
  - by rewrite store_subnet_ids.
  - done.
  - intros x o' [->|Hx]%elem_of_store_subnet; [rewrite (proj1 (refresh_owner s1 e))|]; by apply Hown.
  - rewrite store_subnet_ids. intros id [->%elem_of_singleton|]%elem_of_union; [|by apply Hcr].
    apply list_elem_of_fmap. by exists e.
  - intros x [->|Hx]%elem_of_store_subnet; [|by apply Hnet]. left. by rewrite (proj2 (refresh_owner s1 e)).
  - done.
  - by apply NoDup_fmap_snoc.
  - intros id. rewrite fmap_app. intros [Hid| ->%list_elem_of_singleton]%elem_of_app; [by apply Hsub'|].
    rewrite app_assoc, fmap_app. set_solver.
  - intros id Hid%Hkeep. rewrite fmap_app. set_solver.
  - done.
  - intros x o' [Hx| ->%list_elem_of_singleton]%elem_of_app; [by apply Hown|apply Hres].
  - rewrite fmap_app. intros id [->%elem_of_singleton|Hid%Hcr]%elem_of_union; set_solver.
  - intros x [Hx| ->%list_elem_of_singleton]%elem_of_app; [by apply Hnet|by left].
Qed.

(** Bridges are written with owners that exist.  Storing the subnets of a scan
    never fails, whichever services the report names as their owners and under
    whatever provisional ids: afterwards every stored subnet that has an owner
    names a stored service, there is one row per bridge of a runtime, every row
    that is not on the host's network is as it was, and no row is gone. *)
Theorem create_subnets_spec host existing services subnets w :
  (∀ e, e ∈ existing → e ∈ service_rows (world w)) →
  Forall (λ s, s_id s ≠ uuid_nil) subnets → NoDup (s_id <$> subnet_rows w ++ subnets) →
  NoDup (omap bridge_key (subnet_rows w)) → owners_live w →
  ∃ w' o sa, create_subnets mint host existing services subnets w = (w', Ok (o, sa))
    ∧ owners_live w' ∧ NoDup (s_id <$> subnet_rows w') ∧ NoDup (omap bridge_key (subnet_rows w'))
    ∧ (∀ s, s ∈ subnet_rows w' →
         s_network_id (s_base s) = h_network_id (h_base host) ∨ s ∈ subnet_rows w)
    ∧ (∀ id, id ∈ s_id <$> subnet_rows w → id ∈ s_id <$> subnet_rows w')
    ∧ (∀ id, id ∈ created_subnets sa → id ∈ s_id <$> subnet_rows w')
    ∧ ip_rows (world w') = ip_rows (world w) ∧ port_rows (world w') = port_rows (world w).
Proof.
  intros Hex Hnil Hids Hkeys Hown. unfold create_subnets.
  pose proof (triple_for_each (owner_step mint host (owner_ids subnets))
    (λ _ o w', owners_ok w' o ∧ sv_ids w ⊆ sv_ids w') (λ _ _, False) services
    (initial_owners host existing services)
    (λ _ s _ o _, owner_step_ok (sv_ids w) host (owner_ids subnets) s o) w
    (conj (initial_owners_ok w host existing services Hex) (reflexivity _))) as H1.
  pose proof (steps_for_each services_only (owner_step mint host (owner_ids subnets)) services
    (initial_owners host existing services) (owner_step_only host (owner_ids subnets)) w) as H2.
  unfold mbind at 1, SM_bind at 1. destruct (for_each _ services _ w) as [w1 [o|]]; [|done].
  destruct H1 as [Hok Hgrow]. simpl in H2. destruct H2 as (Esub & _ & _ & _ & Eip & Ep & _).
  assert (∀ pre x post acc, subnets = pre ++ x :: post →
    triple (subnets_ok w1 host pre acc) (subnet_step mint host o x acc)
      (subnets_ok w1 host (pre ++ [x])) (λ _ _, False)) as Hstep.
  { intros pre x post acc ->. apply subnet_step_ok; [done| |].
    - rewrite Forall_forall in Hnil. apply Hnil, list_elem_of_In. set_solver.
    - rewrite Esub. rewrite app_assoc, fmap_app, fmap_cons in Hids.
      apply list.NoDup_app in Hids as (_ & Hd & _). intros Hin. apply (Hd _ Hin). left. }
  pose proof (triple_for_each _ (subnets_ok w1 host) _ subnets
    {| subnet_remap := ∅; created_subnets := ∅ |} Hstep w1) as H3.
  unfold mbind at 1, SM_bind at 1. destruct (for_each _ subnets _ w1) as [w2 [sa|]];
    [destruct H3 as [(Hw & _) Hi _ Hk Hky Hown' Hcr Hn]|exfalso; apply H3].
  2: exists w2, o, sa; split; [done|]; rewrite <- Esub, <- Eip, <- Ep, Hw; done.
  all: constructor; rewrite ?Esub, ?app_nil_r; try done.
  all: try (rewrite fmap_app in Hids; by apply list.NoDup_app in Hids as (? & _)).
  all: try (intros s o' Hs Ho; rewrite Esub in Hs; by apply Hgrow, (Hown s)).
  all: intros x Hx; by right.
Qed.

(** ** A submission stays on its network *)

Definition h_net (h : HostRow) : Uuid := h_network_id (h_base h).
Definition p_net (p : Port) : Uuid := p_network_id (p_base p).
Definition ip_net (i : IPAddress) : Uuid := ip_network_id (ip_base i).
Definition s_net (s : Subnet) : Uuid := s_network_id (s_base s).
Definition if_net (i : InterfaceRow) : Uuid := if_network_id (if_base i).

(** The rows of other networks, in their order. *)
Definition off {A} (n : Uuid) (net : A → Uuid) (l : list A) : list A := List.filter (λ r, negb (net r =? n)%N) l.

(** A row without the time it was last seen. *)
Definition port_unseen (p : Port) : Port := set_p_meta (touch_last_seen 0 (p_meta p)) p.
Definition ip_unseen (i : IPAddress) : IPAddress := set_ip_meta (touch_last_seen 0 (ip_meta i)) i.

(** The rows of other networks are the same rows: none is gone, none is new, none is
    changed, but for the time a port or an address was last seen. *)
Record same_off (n : Uuid) (w w' : Inventory) : Prop := {
  off_hosts : off n h_net (hosts (world w')) = off n h_net (hosts (world w));
  off_ports : port_unseen <$> off n p_net (port_rows (world w')) = port_unseen <$> off n p_net (port_rows (world w));
  off_ips : ip_unseen <$> off n ip_net (ip_rows (world w')) = ip_unseen <$> off n ip_net (ip_rows (world w));
  off_subnets : off n s_net (subnet_rows w') = off n s_net (subnet_rows w);
  off_interfaces : off n if_net (if_rows w') = off n if_net (if_rows w)
}.

#[local] Instance same_off_refl n : Reflexive (same_off n).
Proof. by constructor. Qed.
#[local] Instance same_off_trans n : Transitive (same_off n).
Proof. intros w1 w2 w3 [] []. constructor; congruence. Qed.

(** Ids tell rows of the network from rows of others. *)
Definition apart {A} (n : Uuid) (net idf : A → Uuid) (l : list A) (reserved : list Uuid) : Prop :=
  ∀ r, r ∈ l → net r ≠ n → idf r ∉ reserved ∧ ∀ r', r' ∈ l → net r' = n → idf r' ≠ idf r.

(** What the stages after the host's own rely on, for host [h] of network [n] and the ids
    [subs] and [ifs] new subnets and interfaces may get. *)
Record settled (n h : Uuid) (subs ifs : list Uuid) (w : Inventory) : Prop := {
  st_ports : NoDup (p_id <$> port_rows (world w));
  st_ips : NoDup (ip_id <$> ip_rows (world w));
  st_subnets : apart n s_net s_id (subnet_rows w) subs;
  st_interfaces : apart n if_net if_id (if_rows w) ifs;
  st_own : ∀ r, r ∈ if_rows w → if_host_id (if_base r) = h → if_net r = n
}.

Definition stays (n h : Uuid) (subs ifs : list Uuid) (w w' : Inventory) : Prop :=
  settled n h subs ifs w → settled n h subs ifs w' ∧ same_off n w w'.

#[local] Instance stays_refl n h subs ifs : Reflexive (stays n h subs ifs).
Proof. intros w Hw. split; [done|reflexivity]. Qed.
#[local] Instance stays_trans n h subs ifs : Transitive (stays n h subs ifs).
Proof.
  intros w1 w2 w3 H12 H23 H1. destruct (H12 H1) as [H2 E2]. destruct (H23 H2) as [H3 E3].
  split; [done|by etransitivity].
Qed.

Lemma off_app {A} n (net : A → Uuid) l l' : off n net (l ++ l') = off n net l ++ off n net l'.
Proof. apply List.filter_app. Qed.

Lemma off_snoc {A} n (net : A → Uuid) l x : net x = n → off n net (l ++ [x]) = off n net l.
Proof. intros Hx. rewrite off_app. cbn. by rewrite Hx, N.eqb_refl, app_nil_r. Qed.

(** Writing rows of the network: a new one under a reserved id, or over one of them. *)
Lemma apart_snoc {A} n (net key : A → Uuid) res l x :
  apart n net key l res → net x = n → key x ∈ res → apart n net key (l ++ [x]) res.
Proof.
  intros H Hx Hk r [Hr| ->%list_elem_of_singleton]%elem_of_app Hn; [|done].
  destruct (H r Hr Hn) as [Hi Ho]. split; [done|].
  intros r' [Hr'| ->%list_elem_of_singleton]%elem_of_app Hn'; [by apply Ho|]. congruence.
Qed.

Lemma apart_store {A} n (net key : A → Uuid) res l e x :
  apart n net key l res → e ∈ l → net e = n → key x = key e → net x = n →
  apart n net key (store_by key x l) res ∧ off n net (store_by key x l) = off n net l.
Proof.
  intros H He En Ek Ex. assert (∀ y, y ∈ l → key y = key x → net y = n) as Hl.
  { intros y Hy E. destruct (decide (net y = n)) as [|Hn]; [done|].
    destruct (H y Hy Hn) as [_ Ho]. destruct (Ho e He En). congruence. }
  split.
  - assert (∀ r, r ∈ store_by key x l → r = x ∨ r ∈ l) as Hin.
    { intros r (y & -> & Hy)%list_elem_of_fmap. destruct (_ =? _)%N; auto. }
    intros r [->|Hr]%Hin Hn; [done|]. destruct (H r Hr Hn) as [Hi Ho]. split; [done|].
    intros r' [->|Hr']%Hin Hn'; [rewrite Ek|]; by apply Ho.
  - clear H He. unfold off, store_by. induction l as [|y l IH]; [done|]. rewrite fmap_cons. cbn [List.filter].
    rewrite IH by (intros z Hz; apply Hl; by right). destruct (N.eqb_spec (key y) (key x)) as [E|_]; [|done].
    by rewrite Ex, (Hl y (list_elem_of_here _ _) E), N.eqb_refl.
Qed.

(** Overwriting a row with itself, up to what [u] forgets. *)
Lemma off_touch {A} n (net key : A → Uuid) (u : A → A) x l :
  (∀ a b, u a = u b → net a = net b) → (∀ y, y ∈ l → key y = key x → u y = u x) →
  u <$> off n net (store_by key x l) = u <$> off n net l.
Proof.
  intros Hnet. unfold off, store_by. induction l as [|y l IH]; intros Hl; [done|]. rewrite fmap_cons. cbn [List.filter].
  assert (∀ z, z ∈ l → key z = key x → u z = u x) as Hl' by (intros z Hz; apply Hl; by right).
  destruct (N.eqb_spec (key y) (key x)) as [E|_].
  - pose proof (Hl y (list_elem_of_here _ _) E) as Hu. rewrite <- (Hnet _ _ Hu).
    destruct (negb _); csimpl; rewrite IH by done; by rewrite ?Hu.
  - destruct (negb _); csimpl; by rewrite IH.
Qed.

Lemma off_touch_all {A} n (net key : A → Uuid) (u : A → A) xs l :
  (∀ a b, u a = u b → net a = net b ∧ key a = key b) → NoDup (key <$> l) →
  (∀ x, x ∈ xs → ∃ y, y ∈ l ∧ u y = u x) →
  let l' := foldl (flip (store_by key)) l xs in
  u <$> off n net l' = u <$> off n net l ∧ key <$> l' = key <$> l.
Proof.
  intros Hu. revert l. induction xs as [|x xs IH]; intros l Hnd Hxs; [done|]. cbn [foldl].
  change (flip (store_by key) l x) with (store_by key x l).
  destruct (Hxs x (list_elem_of_here _ _)) as (y & Hy & Ey).
  assert (∀ z, z ∈ l → key z = key x → u z = u x) as Hz.
  { intros z Hz Ez. rewrite (NoDup_key_inj key l z y Hnd Hz Hy); [done|]. destruct (Hu _ _ Ey). congruence. }
  destruct (IH (store_by key x l)) as [E1 E2].
  - by rewrite store_by_keys.
  - intros x' Hx'. destruct (Hxs x' (list_elem_of_further _ _ _ Hx')) as (y' & Hy' & Ey').
    exists (if (key y' =? key x)%N then x else y'). split; [by apply (list_elem_of_fmap_2 (λ a, if (key a =? key x)%N then x else a))|].
    destruct (N.eqb_spec (key y') (key x)) as [E|_]; [|done]. by rewrite <- (Hz y' Hy' E).
  - split; [rewrite E1|by rewrite E2, store_by_keys]. apply off_touch; [intros a b E; by apply Hu|done].
Qed.

Lemma port_unseen_spec a b : port_unseen a = port_unseen b → p_net a = p_net b ∧ p_id a = p_id b.
Proof. intros E. unfold p_net. split; [exact (f_equal (λ p, p_network_id (p_base p)) E)|exact (f_equal p_id E)]. Qed.
Lemma ip_unseen_spec a b : ip_unseen a = ip_unseen b → ip_net a = ip_net b ∧ ip_id a = ip_id b.
Proof. intros E. unfold ip_net. split; [exact (f_equal (λ p, ip_network_id (ip_base p)) E)|exact (f_equal ip_id E)]. Qed.

Lemma services_only_stays n h subs ifs w w' : services_only w w' → stays n h subs ifs w w'.
Proof.
  intros (E1 & E2 & E3 & E4 & E5 & E6 & E7 & E8) [].
  split; constructor; rewrite ?E1, ?E2, ?E4, ?E5, ?E6; done.
Qed.

Lemma upsert_host_net e n : h_net (upserted (upsert_host e n)) = h_net e.
Proof.
  unfold h_net, upsert_host. cbn [upserted h_base]. rewrite upsert_base_steps. cbv zeta. cbn [fst snd].
  destruct (name_steps_set_name (name_candidate (h_base n))
    (set_hostname (fill_hostname (hostname (h_base e)) (hostname (h_base n))).2 (h_base e)))
    as (v & src & ->). done.
Qed.

Lemma align_host_base cb h ips lim w :
  match align_host cb h ips lim w with
  | (w', Ok h') => w' = w ∧ h_base h' = h_base h
  | (w', Err _) => w' = w
  end.
Proof.
  unfold align_host. run. destruct (find_matching_host_by_ip_addresses _ _ _) as [[e ?]|].
  - by destruct cb.
  - destruct lim; [|done]. by destruct (_ <=? _).
Qed.

Lemma existing_port_elem w p e : existing_port w p = Some e → e ∈ port_rows w.
Proof.
  unfold existing_port. destruct (List.find _ (port_rows w)) as [e'|] eqn:E1.
  - intros [= ->]. by apply find_elem in E1 as [? _].
  - intros [[? _]%of_host_elem _]%find_elem. done.
Qed.

Lemma existing_ip_elem w counts i e : existing_ip w counts i = Some e → e ∈ ip_rows w.
Proof. intros He. pose proof (existing_ip_spec w counts i) as H. rewrite He in H. by destruct H. Qed.

#[local] Hint Resolve try_service_only : effects.
#[local] Hint Unfold try_create try_update orfail : effects.

Lemma finish_service_only s l : steps services_only (finish_service mint s l).
Proof. unfold finish_service, orfail, try_create. steps_tac. Qed.
#[local] Hint Resolve finish_service_only : effects.

Lemma service_step_only host oips ips oports ports remap s l :
  steps services_only (service_step mint host oips ips oports ports remap s l).
Proof. unfold service_step, enrich, reclaim, try_update. steps_tac. Qed.
#[local] Hint Resolve service_step_only : effects.

Lemma create_services_only def host sub o ports ips :
  steps services_only (create_services mint def host sub o ports ips).
Proof.
  unfold create_services, assign_orphans, repoint, fix_bindings, orfail, try_create, try_update.
  steps_tac.
Qed.

(** ** The stages *)

Section Stages.
Context (n h : Uuid) (subs ifs : list Uuid).
Abbreviation settled := (settled n h subs ifs).
Abbreviation stays := (stays n h subs ifs).

(** While children are merged: the rows collected for writing back are stored rows. *)
Definition merging {A} (rows : Inventory → list A) (u : A → A) (w0 : Inventory) (acc : list A * list A)
    (w : Inventory) : Prop :=
  settled w ∧ same_off n w0 w ∧ ∀ x, x ∈ acc.2 → ∃ y, y ∈ rows w ∧ u y = u x.

Lemma settled_world w f :
  settled w → NoDup (p_id <$> port_rows (f (world w))) → NoDup (ip_id <$> ip_rows (f (world w))) →
  settled (on_world f w).
Proof. intros [] Hp Hi. by constructor. Qed.

Lemma port_step_merging cb host w0 port acc :
  h_net host = n →
  triple (merging (λ w, port_rows (world w)) port_unseen w0 acc) (port_step cb host port acc)
    (merging (λ w, port_rows (world w)) port_unseen w0) (λ _ w, settled w ∧ same_off n w0 w).
Proof.
  intros Hn w (Hs & Ho & Hacc). unfold port_step. cbv zeta. run. set (p := with_host _ _ port).
  assert (match (created ← insert_port p; mret (acc.1 ++ [created], acc.2)) w with
    | (w', Ok acc') => merging (λ w, port_rows (world w)) port_unseen w0 acc' w'
    | (w', Err _) => settled w' ∧ same_off n w0 w' end) as Hins.
  { unfold insert_port. cbv zeta. unfold mbind at 1, SM_bind at 1. run.
    destruct (port_refused _ _) eqn:Hr; [done|]. run. simpl. split; [|split].
    - apply settled_world; simpl; [done| |apply Hs]. apply NoDup_fmap_snoc; [apply Hs|].
      intros (e & Ei & He)%list_elem_of_fmap. eapply existsb_elem_false in Hr; [|exact He].
      apply orb_false_iff in Hr as [Hr%N.eqb_neq _]. by apply Hr.
    - etransitivity; [exact Ho|]. constructor; simpl; try done. by rewrite off_snoc.
    - intros x (y & Hy & E)%Hacc. exists y. split; [apply elem_of_app; by left|done]. }
  destruct cb; [exact Hins|]. destruct (existing_port (world w) p) as [e|] eqn:Ee; [|exact Hins].
  simpl. split; [done|]. split; [done|].
  intros x [Hx| ->%list_elem_of_singleton]%elem_of_app; [by apply Hacc|].
  apply existing_port_elem in Ee. by exists e.
Qed.

Lemma create_ports_stays cb host ports w :
  h_net host = n → stays w (create_ports cb host ports w).1.
Proof.
  intros Hn Hs. unfold create_ports.
  pose proof (triple_for_each (port_step cb host)
    (λ _ acc, merging (λ w, port_rows (world w)) port_unseen w acc) (λ _ w', settled w' ∧ same_off n w w')
    ports ([], []) (λ pre x post acc _, port_step_merging cb host w x acc Hn) w) as Hl.
  unfold mbind, SM_bind. destruct (for_each _ _ _ w) as [w1 [acc|e]]; simpl.
  - destruct Hl as (Hs1 & Ho1 & Hacc). { split; [done|]. split; [reflexivity|]. by intros x ?%not_elem_of_nil. }
    destruct (off_touch_all n p_net p_id port_unseen acc.2 (port_rows (world w1)) port_unseen_spec
      (st_ports _ _ _ _ _ Hs1) Hacc) as [E1 E2].
    split; [apply settled_world; simpl; [done| |apply Hs1]|].
    + unfold store_port. rewrite E2. apply Hs1.
    + etransitivity; [exact Ho1|]. constructor; simpl; first [exact E1|done].
  - apply Hl. split; [done|]. split; [reflexivity|]. by intros x ?%not_elem_of_nil.
Qed.

Lemma ip_step_merging cb host sa counts w0 i acc :
  h_net host = n →
  triple (merging (λ w, ip_rows (world w)) ip_unseen w0 acc) (ip_step cb host sa counts i acc)
    (merging (λ w, ip_rows (world w)) ip_unseen w0) (λ _ w, settled w ∧ same_off n w0 w).
Proof.
  intros Hn w (Hs & Ho & Hacc). unfold ip_step. run. cbv zeta.
  destruct (settle_subnet_shape w host sa (set_ip_network (h_network_id (h_base host))
    (set_ip_host (h_id host) i))) as [sid ->]. set (j := set_ip_subnet sid _).
  assert (match (created ← insert_ip j; mret (acc.1 ++ [created], acc.2)) w with
    | (w', Ok acc') => merging (λ w, ip_rows (world w)) ip_unseen w0 acc' w'
    | (w', Err _) => settled w' ∧ same_off n w0 w' end) as Hins.
  { unfold insert_ip. cbv zeta. unfold mbind at 1, SM_bind at 1. run.
    destruct (ip_refused _ _) eqn:Hr; [done|]. case_bool_decide; [|done]. run. simpl. split; [|split].
    - apply settled_world; simpl; [done|apply Hs|]. apply NoDup_fmap_snoc; [apply Hs|].
      intros (e & Ei & He)%list_elem_of_fmap. eapply existsb_elem_false in Hr; [|exact He].
      apply orb_false_iff in Hr as [Hr%N.eqb_neq _]. by apply Hr.
    - etransitivity; [exact Ho|]. constructor; simpl; try done. by rewrite off_snoc.
    - intros x (y & Hy & E)%Hacc. exists y. split; [apply elem_of_app; by left|done]. }
  destruct cb; [exact Hins|]. destruct (existing_ip (world w) counts j) as [e|] eqn:Ee; [|exact Hins].
  simpl. split; [done|]. split; [done|].
  intros x [Hx| ->%list_elem_of_singleton]%elem_of_app; [by apply Hacc|].
  apply existing_ip_elem in Ee. by exists e.
Qed.

Lemma create_ips_stays cb host sa ips w :
  h_net host = n → stays w (create_ips cb host sa ips w).1.
Proof.
  intros Hn Hs. unfold create_ips.
  pose proof (triple_for_each (ip_step cb host sa (mac_counts_for_payload ips))
    (λ _ acc, merging (λ w, ip_rows (world w)) ip_unseen w acc) (λ _ w', settled w' ∧ same_off n w w')
    ips ([], []) (λ pre x post acc _, ip_step_merging cb host sa _ w x acc Hn) w) as Hl.
  unfold mbind, SM_bind. destruct (for_each _ _ _ w) as [w1 [acc|e]]; simpl.
  - destruct Hl as (Hs1 & Ho1 & Hacc). { split; [done|]. split; [reflexivity|]. by intros x ?%not_elem_of_nil. }
    destruct (off_touch_all n ip_net ip_id ip_unseen acc.2 (ip_rows (world w1)) ip_unseen_spec
      (st_ips _ _ _ _ _ Hs1) Hacc) as [E1 E2].
    split; [apply settled_world; simpl; [done|apply Hs1|]|].
    + unfold store_ip. rewrite E2. apply Hs1.
    + etransitivity; [exact Ho1|]. constructor; simpl; first [exact E1|done].
  - apply Hl. split; [done|]. split; [reflexivity|]. by intros x ?%not_elem_of_nil.
Qed.

Lemma create_subnet_apart new_id now s rows :
  s_net s = n → s_id s ∈ subs → new_id ∈ subs → apart n s_net s_id rows subs →
  apart n s_net s_id (create_subnet new_id now s rows).2 subs
  ∧ off n s_net (create_subnet new_id now s rows).2 = off n s_net rows.
Proof.
  intros Hn Hid Hnew Hap. unfold create_subnet. cbv zeta. set (s1 := if (s_id s =? uuid_nil)%N then _ else s).
  assert (s_net s1 = n ∧ s_id s1 ∈ subs) as [Hn1 Hid1] by (unfold s1; by destruct (_ =? _)%N). clearbody s1.
  destruct (List.find _ _) as [e|] eqn:Ef; simpl.
  - apply find_elem in Ef as [[He%N.eqb_eq Hin]%elem_of_list_filter_bool _].
    apply (apart_store n s_net s_id subs rows e); try done; unfold s_net in *; [congruence|].
    rewrite (proj2 (refresh_owner s1 e)). congruence.
  - split; [by apply apart_snoc|by apply off_snoc].
Qed.

Lemma create_subnets_stays host existing services subnets :
  h_net host = n → s_id <$> subnets ⊆ subs → subnet_uuid mint ∈ subs →
  steps stays (create_subnets mint host existing services subnets).
Proof.
  intros Hn Hsub Hnew. unfold create_subnets.
  apply steps_bind; [apply _| |intros o].
  { apply steps_for_each; [apply _|apply _|]. intros s o w. apply services_only_stays, owner_step_only. }
  apply steps_bind; [apply _| |intros sa; apply steps_ret; apply _].
  intros w Hs.
  pose proof (triple_for_each (subnet_step mint host o) (λ _ _ w', settled w' ∧ same_off n w w')
    (λ _ w', settled w' ∧ same_off n w w') subnets {| subnet_remap := ∅; created_subnets := ∅ |}) as Hl.
  assert (triple (λ w', settled w' ∧ same_off n w w')
    (for_each (subnet_step mint host o) subnets {| subnet_remap := ∅; created_subnets := ∅ |})
    (λ _ w', settled w' ∧ same_off n w w') (λ _ w', settled w' ∧ same_off n w w')) as Ht.
  { apply Hl. clear Hl Hs. intros pre s post acc El w1 [Hs Ho]. unfold subnet_step. cbv zeta. run.
    set (s1 := set_subnet_scope _ _ s). destruct (negb _); [done|].
    destruct (create_subnet_apart (subnet_uuid mint) (clock mint) s1 (subnet_rows w1)) as [E1 E2].
    + done.
    + apply Hsub, list_elem_of_fmap. exists s. split; [done|]. rewrite El. set_solver.
    + done.
    + apply Hs.
    + destruct (create_subnet _ _ _ _) as [c rows]. run. simpl in *. destruct Hs.
      split; [by constructor|]. etransitivity; [exact Ho|]. by constructor. }
  specialize (Ht w (conj Hs (reflexivity w))). by destruct (for_each _ _ _ w) as [w' [|]].
Qed.

(** Interfaces are matched, written and pruned on the host only. *)
Lemma ingest_apart collected rows incoming :
  if_id <$> incoming ⊆ ifs → apart n if_net if_id rows ifs →
  (∀ r, r ∈ rows → if_host_id (if_base r) = h → if_net r = n) →
  let b := ingest persists h n collected rows incoming in
  apart n if_net if_id (b_rows b) ifs
  ∧ (∀ r, r ∈ b_rows b → if_host_id (if_base r) = h → if_net r = n)
  ∧ off n if_net (b_rows b) = off n if_net rows.
Proof.
  intros Hin Hap Hown. cbv zeta. unfold ingest.
  set (b0 := {| b_rows := rows; b_created := []; b_skipped := 0; b_claimed := ∅ |}).
  change (off n if_net rows) with (off n if_net (b_rows b0)). change rows with (b_rows b0) in Hap, Hown.
  clearbody b0. revert b0 Hap Hown.
  induction incoming as [|i incoming IH]; intros b Hap Hown; [done|]. cbn [foldl].
  assert (if_id i ∈ ifs ∧ if_id <$> incoming ⊆ ifs) as [Hi Hin'] by set_solver.
  assert (let b' := batch_step persists h n collected b i in
    apart n if_net if_id (b_rows b') ifs ∧ (∀ r, r ∈ b_rows b' → if_host_id (if_base r) = h → if_net r = n)
    ∧ off n if_net (b_rows b') = off n if_net (b_rows b)) as (A1 & A2 & A3).
  { cbv zeta. unfold batch_step.
    destruct (create_or_update_from_discovery _ _ _ _ _) as [[c rows']|] eqn:E; [|done]. cbn [b_rows].
    apply create_or_update_cases in E as [(e & He & _ & Eh & -> & ->)|[-> ->]].
    - match goal with |- context [store_if ?c _] => set (x := c) end.
      destruct (apart_store n if_net if_id ifs (b_rows b) e x Hap He (Hown e He Eh) eq_refl eq_refl) as [E1 E2].
      change (store_if x (b_rows b)) with (store_by if_id x (b_rows b)). split; [done|]. split; [|done].
      intros r (y & -> & Hy)%list_elem_of_fmap. destruct (_ =? _)%N; [done|by apply Hown].
    - split; [by apply apart_snoc|]. split; [|by apply off_snoc].
      intros r [Hr| ->%list_elem_of_singleton]%elem_of_app; [by apply Hown|done]. }
  destruct (IH Hin' _ A1 A2) as (B1 & B2 & B3). split; [done|]. split; [done|]. congruence.
Qed.

Lemma create_interfaces_stays host sub :
  h_net host = n → h_id host = h → if_id <$> sub_interfaces sub ⊆ ifs →
  steps stays (create_interfaces persists host sub).
Proof.
  intros Hn Hh Hin w Hs. unfold create_interfaces. run. simpl. fold (h_net host). rewrite Hn, Hh.
  destruct (ingest_apart (sub_data_complete sub) (if_rows w) (sub_interfaces sub) Hin) as (A1 & A2 & A3);
    [apply Hs..|]. set (b := ingest _ _ _ _ _ _) in *.
  assert (∀ r, r ∈ prune h (sub_interfaces_complete sub) b → r ∈ b_rows b) as Hsub.
  { intros r. unfold prune. destruct (should_prune_interfaces _ _ _); [|done].
    by intros [_ ?]%elem_of_list_filter_bool. }
  assert (off n if_net (prune h (sub_interfaces_complete sub) b) = off n if_net (if_rows w)) as Hoff.
  { rewrite <- A3. unfold prune. destruct (should_prune_interfaces _ _ _); [|done]. clear A1 A3 Hsub. unfold off.
    induction (b_rows b) as [|r l IH]; [done|]. cbn [List.filter].
    destruct (N.eqb_spec (if_host_id (if_base r)) h) as [E|_]; cbn [negb orb].
    - rewrite (A2 r (list_elem_of_here _ _) E), N.eqb_refl. cbn [negb].
      rewrite <- IH by (intros x Hx; apply A2; by right).
      case_bool_decide; [|done]. cbn [List.filter].
      by rewrite (A2 r (list_elem_of_here _ _) E), N.eqb_refl.
    - cbn [List.filter]. by rewrite IH by (intros x Hx; apply A2; by right). }
  destruct Hs. split; [|by constructor]. constructor; simpl; try done.
  - intros r Hr%Hsub Hne. destruct (A1 r Hr Hne) as [? Ho]. split; [done|]. intros r' ?%Hsub. by apply Ho.
  - intros r Hr%Hsub. by apply A2.
Qed.

Lemma create_credentials_stays host l : steps stays (create_credentials host l).
Proof. intros w. destruct l; simpl; [reflexivity|]. intros []. split; by constructor. Qed.
End Stages.

(** ** The whole submission *)

(** What the schema guarantees: ids are primary keys, and an interface is on the network of
    its host, which exists. *)
Record inventory_ok (w : Inventory) : Prop := {
  ok_hosts : NoDup (h_id <$> hosts (world w));
  ok_ports : NoDup (p_id <$> port_rows (world w));
  ok_ips : NoDup (ip_id <$> ip_rows (world w));
  ok_subnets : NoDup (s_id <$> subnet_rows w);
  ok_interfaces : NoDup (if_id <$> if_rows w);
  ok_owner : ∀ r, r ∈ if_rows w → ∃ o, o ∈ hosts (world w) ∧ h_id o = if_host_id (if_base r) ∧ h_net o = if_net r
}.

(** The ids a submission may store subnets and interfaces under belong to no other network. *)
Record fresh_for (sub : Submission) (w : Inventory) : Prop := {
  fresh_subnets : ∀ s, s ∈ off (h_net (sub_host sub)) s_net (subnet_rows w) →
    s_id s ∉ subnet_uuid mint :: (s_id <$> sub_subnets sub);
  fresh_interfaces : ∀ r, r ∈ off (h_net (sub_host sub)) if_net (if_rows w) →
    if_id r ∉ if_id <$> sub_interfaces sub
}.

Lemma elem_of_off {A} n (net : A → Uuid) l r : r ∈ off n net l ↔ r ∈ l ∧ net r ≠ n.
Proof. unfold off. rewrite elem_of_list_filter_bool, negb_true_iff, N.eqb_neq. tauto. Qed.

Lemma apart_keys {A} n (net key : A → Uuid) l res :
  NoDup (key <$> l) → (∀ r, r ∈ off n net l → key r ∉ res) → apart n net key l res.
Proof.
  intros Hnd Hf r Hr Hn. split; [apply Hf; by apply elem_of_off|].
  intros r' Hr' Hn' E. by rewrite (NoDup_key_inj key l r' r Hnd Hr' Hr E) in Hn'.
Qed.

(** The host's own stage: its row is written on the network, and interfaces that carry its
    id are on the network too. *)
Lemma create_unlocked_stays n subs ifs h w :
  h_net h = n → inventory_ok w → apart n s_net s_id (subnet_rows w) subs →
  apart n if_net if_id (if_rows w) ifs →
  match create_unlocked mint h w with
  | (w', Ok c) => settled n (h_id c) subs ifs w' ∧ same_off n w w' ∧ h_net c = n
  | (w', Err _) => same_off n w w'
  end.
Proof.
  intros En Hok Has Hai. unfold create_unlocked. cbv zeta. set (h1 := if (h_id h =? uuid_nil)%N then _ else h).
  assert (h_net h1 = n) as En1 by (unfold h1; by destruct (_ =? _)%N). clearbody h1. run.
  assert (∀ r, r = match List.find (λ r, (h_id r =? h_id h1)%N) (hosts (world w)) with
      | Some e => throw (NetworkMismatch (h_id e)) | None => insert_host h1 end w →
    match r with
    | (w', Ok c) => settled n (h_id c) subs ifs w' ∧ same_off n w w' ∧ h_net c = n
    | (w', Err _) => same_off n w w' end) as Hins.
  { intros r ->. destruct (List.find _ _) eqn:Ef; [simpl; reflexivity|]. unfold insert_host. run. simpl.
    rewrite find_None_Forall, Forall_forall in Ef. split; [|split; [|exact En1]].
    - destruct Hok. constructor; simpl; try done. intros r Hr E.
      destruct (ok_owner0 r Hr) as (o & Ho & Eo & _). destruct (proj1 (N.eqb_neq (h_id o) (h_id h1))); [|congruence].
      by apply Ef, list_elem_of_In.
    - constructor; simpl; try done. by apply off_snoc. }
  destruct (List.find (host_eqb h1) _) as [e|] eqn:Ef; [|by apply Hins].
  destruct (_ || _); [|by apply Hins]. run. simpl. clear Hins.
  apply find_elem in Ef as [[Hn%N.eqb_eq He]%elem_of_list_filter_bool _].
  assert (h_net e = n) as Ee by (unfold h_net in *; congruence).
  assert (h_net (upserted (upsert_host e h1)) = n) as Eu by (by rewrite upsert_host_net).
  split; [|split; [|done]].
  - destruct Hok. constructor; simpl; try done. intros r Hr E.
    destruct (ok_owner0 r Hr) as (o & Ho & Eo & <-). rewrite (NoDup_key_inj h_id _ o e ok_hosts0 Ho He); [done|].
    by rewrite Eo, E.
  - constructor; simpl; try done.
    apply (apart_store n h_net h_id [] (hosts (world w)) e); try done.
    apply apart_keys; [apply Hok|]. by intros ? _ ?%not_elem_of_nil.
Qed.

(** C28. A submission cannot reach another network.  Over tables whose ids are keys and whose
    interfaces are on the network of their host, and whatever a daemon sends, as long as the
    ids it made up for new subnets and interfaces are not ids of other networks' rows:
    whether the call succeeds or stops half way, the hosts, subnets and interfaces of every
    other network are afterwards the same list of rows, and so are its ports and addresses
    but for the time they were last seen.  None is created, none is deleted by the pruning of
    interfaces the scan no longer reports, none is moved or overwritten, although the payload
    names networks, hosts, ports and subnets of its own. *)
Theorem submission_confined def cb lim sub w :
  inventory_ok w → fresh_for sub w →
  same_off (h_net (sub_host sub)) w (create_with_children mint persists def cb lim sub w).1.
Proof.
  intros Hok [Hfs Hfi]. set (n := h_net (sub_host sub)) in *.
  set (subs := subnet_uuid mint :: _) in *. set (ifs := if_id <$> sub_interfaces sub) in *.
  unfold create_with_children. unfold mbind at 1, SM_bind at 1.
  pose proof (align_host_base cb (sub_host sub) (sub_ips sub) lim w) as H1.
  destruct (align_host _ _ _ _ w) as [w1 [h|]]; [|by rewrite H1; simpl].
  destruct H1 as [-> Eb]. unfold mbind at 1, SM_bind at 1.
  pose proof (create_unlocked_stays n subs ifs h w (f_equal h_network_id Eb) Hok) as H2.
  destruct (create_unlocked mint h w) as [w1 [c|]].
  2: { apply H2; apply apart_keys; done || apply Hok. }
  destruct H2 as (Hs & Ho & En); [by apply apart_keys; done || apply Hok..|].
  etransitivity; [exact Ho|]. clear Ho.
  match goal with |- same_off _ _ (?m w1).1 => enough (steps (stays n (h_id c) subs ifs) m) as Hall by (by apply Hall) end.
  assert (∀ A (m : CM A), steps services_only m → steps (stays n (h_id c) subs ifs) m) as Hso
    by (intros A m Hm w'; apply services_only_stays, Hm).
  assert (∀ o p i, steps (stays n (h_id c) subs ifs) (create_services mint def c sub o p i)) as Hsv
    by (intros; apply Hso, create_services_only).
  assert (steps (stays n (h_id c) subs ifs) (create_ports cb c (sub_ports sub))) as Hp
    by (intros w'; by apply create_ports_stays).
  assert (∀ sa, steps (stays n (h_id c) subs ifs) (create_ips cb c sa (sub_ips sub))) as Hi
    by (intros sa w'; by apply create_ips_stays).
  assert (∀ ex, steps (stays n (h_id c) subs ifs) (create_subnets mint c ex (sub_services sub) (sub_subnets sub))) as Hsub.
  { intros ex. apply create_subnets_stays; [done|..]; unfold subs; set_solver. }
  assert (steps (stays n (h_id c) subs ifs) (create_interfaces persists c sub)) as Hif
    by (by apply create_interfaces_stays).
  pose proof (create_credentials_stays n (h_id c) subs ifs). clear Hfs Hfi Hs.
  steps_tac.
Qed.

(** ** Container metadata *)

(** Container metadata is lost on a rescan.  When a container could not be
    identified and its port belongs to a service that was, its metadata is to be
    stored on that service, together with the runtime service the daemon names.
    If that id is not a stored service, as on every scan after the first, the
    foreign key refuses each update, the refusals are ignored, and nothing is
    stored. *)
Theorem enrich_lost container conflicting o w owner :
  virtualization_service_id (sv_base container) = Some owner → owner ∉ sv_ids w →
  (∀ e, e ∈ matchable o → sv_id e ≠ owner) →
  enrich mint container conflicting o w = (w, Ok tt).
Proof.
  intros Hown Hnot Hself. unfold enrich. cbv zeta.
  match goal with |- for_each ?f ?l tt w = _ => set (step := f); set (targets := l) end.
  assert (∀ s, s ∈ targets → sv_id s ≠ owner) as Ht.
  { intros s [_ Hs]%elem_of_list_filter_bool. by apply Hself. }
  clearbody targets. induction targets as [|s targets IH]; [done|]. simpl.
  assert (step s tt w = (w, Ok tt)) as Hs.
  { unfold step, try_update, mbind, SM_bind.
    match goal with |- context [try_service ?a ?b ?c w] =>
      destruct (try_service_cases a b c w) as [(e & ->)|(a' & st & _ & Hk & ->)] end; [done|].
    exfalso. simpl in Hk. rewrite Hown in Hk. unfold owner_known in Hk.
    rewrite bool_decide_eq_false_2 in Hk by exact Hnot.
    apply bool_decide_eq_true in Hk as [= E]. apply (Ht s); [left|done]. }
  unfold mbind, SM_bind. rewrite Hs. apply IH. intros x Hx. apply Ht. by right.
Qed.

(** ** Names a person gave *)

(** Hosts with a name a person typed keep it. *)
Definition keeps_manual (w w' : Inventory) : Prop :=
  ∀ h, h ∈ hosts (world w) → name_source (h_base h) = Manual →
  ∃ h', h' ∈ hosts (world w') ∧ h_id h' = h_id h ∧ h_name (h_base h') = h_name (h_base h)
        ∧ name_source (h_base h') = Manual.

Definition same_hosts_rows (w w' : Inventory) : Prop := hosts (world w') = hosts (world w).

#[local] Instance same_hosts_rows_refl : Reflexive same_hosts_rows.
Proof. by intros w. Qed.
#[local] Instance same_hosts_rows_trans : Transitive same_hosts_rows.
Proof. intros w1 w2 w3. unfold same_hosts_rows. congruence. Qed.

Lemma create_unlocked_manual h w :
  NoDup (h_id <$> hosts (world w)) → name_rank (name_source (h_base h)) < name_rank Manual →
  keeps_manual w (create_unlocked mint h w).1.
Proof.
  intros Hnd Hrank. unfold create_unlocked. cbv zeta.
  set (h1 := if (h_id h =? uuid_nil)%N then _ else h).
  assert (h_base h1 = h_base h) as En by (unfold h1; by destruct (_ =? _)%N). clearbody h1. run.
  assert (∀ r, r = match List.find (λ r, (h_id r =? h_id h1)%N) (hosts (world w)) with
      | Some e => throw (NetworkMismatch (h_id e)) | None => insert_host h1 end w →
    keeps_manual w r.1) as Hins.
  { intros r ->. destruct (List.find _ _); simpl; intros x Hx Hm; exists x; set_solver. }
  destruct (List.find (host_eqb h1) _) as [e|] eqn:Ef; [|by apply Hins].
  destruct (_ || _); [|by apply Hins]. run. simpl.
  apply find_elem in Ef as [[_ He]%elem_of_list_filter_bool _].
  intros x Hx Hm. simpl. destruct (decide (h_id x = h_id e)) as [E|Hne].
  - rewrite (NoDup_key_inj h_id _ x e Hnd Hx He E) in *. exists (upserted (upsert_host e h1)).
    rewrite <- En in Hrank. destruct (proj2 (upsert_base_name (h_base e) (h_base h1)) Hm Hrank) as [Ev Es].
    split; [|done]. unfold store_host, store_by. apply list_elem_of_fmap. exists e. simpl.
    by rewrite N.eqb_refl.
  - exists x. split; [|done]. unfold store_host, store_by. apply list_elem_of_fmap. exists x. simpl.
    by destruct (N.eqb_spec (h_id x) (h_id e)).
Qed.

Lemma services_only_hosts {A} (m : CM A) : steps services_only m → steps same_hosts_rows m.
Proof. intros H w. by destruct (H w) as (_ & _ & _ & E & _). Qed.

#[local] Hint Extern 1 (steps same_hosts_rows (put _)) => (apply steps_put; intros ?; reflexivity) : effects.

(** No stage after the host's own writes a host. *)
Lemma create_ports_hosts cb host ports : steps same_hosts_rows (create_ports cb host ports).
Proof. unfold create_ports, port_step, insert_port. steps_tac. Qed.
Lemma create_ips_hosts cb host sa ips : steps same_hosts_rows (create_ips cb host sa ips).
Proof. unfold create_ips, ip_step, insert_ip. steps_tac. Qed.
Lemma create_subnets_hosts host existing services subnets :
  steps same_hosts_rows (create_subnets mint host existing services subnets).
Proof.
  pose proof (λ s o, services_only_hosts _ (owner_step_only host (owner_ids subnets) s o)).
  unfold create_subnets, subnet_step. steps_tac.
Qed.
#[local] Hint Resolve create_ports_hosts create_ips_hosts create_subnets_hosts : effects.

Lemma keeps_manual_bind {A B} (m : CM A) (k : A → CM B) w :
  keeps_manual w (m w).1 → (∀ a, steps same_hosts_rows (k a)) → keeps_manual w ((m ≫= k) w).1.
Proof.
  intros Hm Hk. unfold mbind, SM_bind. destruct (m w) as [w1 [a|e]]; [|done]. simpl in Hm.
  intros h Hh Hman. rewrite (Hk a w1). by apply Hm.
Qed.

Lemma create_with_children_manual def cb lim sub w :
  NoDup (h_id <$> hosts (world w)) → name_rank (name_source (h_base (sub_host sub))) < name_rank Manual →
  keeps_manual w (create_with_children mint persists def cb lim sub w).1.
Proof.
  intros Hnd Hr. unfold create_with_children. unfold mbind at 1, SM_bind at 1.
  pose proof (align_host_base cb (sub_host sub) (sub_ips sub) lim w) as H1.
  destruct (align_host _ _ _ _ w) as [w1 [h|]]; [|rewrite H1; intros x Hx Hm; by exists x].
  destruct H1 as [-> Eb]. apply keeps_manual_bind.
  - apply create_unlocked_manual; [done|]. by rewrite Eb.
  - intros c. pose proof (λ s o p i, services_only_hosts _ (create_services_only def c s o p i)).
    unfold create_interfaces, create_credentials. steps_tac.
Qed.

(** A name a person typed survives discovery.  Whatever a daemon claims about
    the name of a host, and whether the call succeeds or not, every host that has
    a manual name before has the same manual name afterwards; and no daemon can
    make a name manual, since the claim is lowered before it is looked at. *)
Theorem discovery_keeps_manual_names def lim scan sub w :
  NoDup (h_id <$> hosts (world w)) →
  keeps_manual w (discover_host mint persists def lim scan sub w).1
  ∧ name_source (h_base (sanitize_host (sub_host sub))) ≠ Manual.
Proof.
  intros Hnd. assert (name_rank (name_source (h_base (sanitize_host (sub_host sub)))) < name_rank Manual) as Hr.
  { unfold sanitize_host, clamp_name_source. simpl.
    destruct (Z.leb_spec (name_rank (name_source (h_base (sub_host sub)))) 4); simpl; lia. }
  split; [|intros E; rewrite E in Hr; lia].
  unfold discover_host. cbv zeta. set (sub1 := stamp scan _). run. apply keeps_manual_bind.
  - apply create_with_children_manual; [done|]. unfold sub1, stamp. by destruct scan.
  - intros r. unfold link_interfaces_to_ip_addresses, reconcile_subnet_vlans_for_host. steps_tac.
Qed.
End Facts.

(** ** Reclaiming ports *)

Section Example.
Definition open_facts : DefinitionFacts := {|
  is_generic d := String.eqb d "Unclaimed Open Ports"; is_gateway _ := false;
  is_open_ports d := String.eqb d "Unclaimed Open Ports" |}.

Definition demo_mint : Mint := {|
  host_uuid := 90; open_ports_uuid := 91; service_uuid := 92; binding_uuid _ _ := 93%N;
  subnet_uuid := 94; clock := 5 |}.

Definition demo_host_row : HostRow := host_new 1 0 (demo_base "web" "web" Hostname).
Definition demo_p : Port := {| p_id := 10; p_meta := fresh_meta 0;
  p_base := {| p_host_id := 1; p_network_id := 1; port_type := Ssh |} |}.
Definition demo_addr (id : Uuid) (last : Z) : IPAddress := demo_row id 1 last None.

Definition demo_claim (id : Uuid) (definition : string) (bs : list Binding) : Service :=
  service_new id 0 {| sv_host_id := 1; sv_network_id := 1; service_definition := definition;
    sv_name := definition; bindings := bs; virtualization_metadata := None;
    virtualization_service_id := None; source := SourceDiscovery; sv_tags := []; sv_position := 0 |}.

(** Port 10 is unclaimed on address 20 and held by a service on address 21. *)
Definition demo_services : list Service := [
  demo_claim 30 "Unclaimed Open Ports" [demo_binding 40 (BindPort 10 (Some 20%N))];
  demo_claim 31 "SSH" [demo_binding 41 (BindPort 10 (Some 21%N))]].

Definition demo_inventory : Inventory := {|
  world := {| hosts := [demo_host_row]; ip_rows := [demo_addr 20 1; demo_addr 21 2];
              port_rows := [demo_p]; service_rows := demo_services; dependencies := [];
              host_credentials := ∅; daemon_hosts := ∅ |};
  subnet_rows := []; if_rows := []; subnet_vlans := ∅ |}.

(** A service found on all addresses of that port. *)
Definition demo_incoming : Service := demo_claim 32 "Gitea" [demo_binding 42 (BindPort 10 None)].

Definition demo_step : Inventory * result ServiceLoop CreateError :=
  @service_step open_facts demo_mint demo_host_row [demo_addr 20 1; demo_addr 21 2]
    [demo_addr 20 1; demo_addr 21 2] [demo_p] [demo_p] ∅ demo_incoming
    {| owners := {| id_remap := ∅; live_ids := {[30%N; 31%N]}; matchable := demo_services |};
       batch_claimed := []; orphaned := []; created_services := [] |} demo_inventory.

Lemma wf_bindings_singleton b : conflict (bt b) (bt b) = false → wf_bindings [b].
Proof.
  intros Hc. constructor; simpl.
  - by intros x y ->%list_elem_of_singleton ->%list_elem_of_singleton.
  - apply list.NoDup_singleton.
  - intros p ip E%list_elem_of_singleton E'%list_elem_of_singleton. congruence.
Qed.

Lemma demo_inventory_wf : wf_store (service_store (world demo_inventory)).
Proof.
  constructor.
  - by apply (bool_decide_unpack (NoDup [30%N; 31%N])).
  - intros s Hs. repeat (apply elem_of_cons in Hs as [->|Hs]); [..|by apply elem_of_nil in Hs].
    all: split; [by apply wf_bindings_singleton|intros t ->%list_elem_of_singleton; split; vm_compute; set_solver].
  - intros s1 s2 H1 H2 Hne _ c d Hc Hd.
    repeat (apply elem_of_cons in H1 as [->|H1]); [..|by apply elem_of_nil in H1];
      repeat (apply elem_of_cons in H2 as [->|H2]); try (by apply elem_of_nil in H2); try done.
    all: apply list_elem_of_singleton in Hc as ->; apply list_elem_of_singleton in Hd as ->; done.
Qed.

(** A rescan can make two services of a host hold the same port.  A service whose
    claim covers all addresses takes a port from the open-ports service as soon as
    that service holds it on some address; the same port held by a third service
    on another address is not looked at, and storing a discovered service does
    not check again. *)
Theorem reclaim_double_claims :
  wf_store (service_store (world demo_inventory))
  ∧ is_ok demo_step.2 = true
  ∧ ¬ wf_store (service_store (world demo_step.1)).
Proof.
  split; [exact demo_inventory_wf|]. split; [by vm_compute|]. intros [_ _ Hdis].
  set (l := service_rows (world demo_step.1)).
  destruct (l !! 0%nat) as [s1|] eqn:E1; [|by vm_compute in E1].
  destruct (l !! 1%nat) as [s2|] eqn:E2; [|by vm_compute in E2].
  specialize (Hdis s1 s2 (list_elem_of_lookup_2 _ _ _ E1) (list_elem_of_lookup_2 _ _ _ E2)).
  vm_compute in E1, E2. injection E1 as <-. injection E2 as <-.
  assert (claims_overlap (10%N, Some 21%N) (10%N, None) = false) as Hd by (apply Hdis; [done|done|left|left]).
  done.
Qed.

(** ** Witnesses *)

Definition demo_port (id : Uuid) (t : PortType) : Port := {|
  p_id := id; p_meta := fresh_meta 0;
  p_base := {| p_host_id := 7; p_network_id := 1; port_type := t |} |}.

(** Port 22 is stored, a rescan reports it under another id together with 80. *)
Lemma create_ports_spec_witness :
  ∃ l created, create_ports ConflictUpsert demo_host_row [demo_port 11 Ssh; demo_port 12 Http]
                 demo_inventory = (on_world (set_port_rows l) demo_inventory, Ok created)
               ∧ wf_ports l.
Proof.
  destruct (create_ports_spec demo_host_row [demo_port 11 Ssh; demo_port 12 Http] demo_inventory)
    as (l & created & E & Hwf & _).
  { split; apply list.NoDup_singleton. }
  by exists l, created.
Defined.

Definition demo_lan : Subnet := {|
  s_id := 3; s_meta := fresh_meta 0;
  s_base := {| cidr := {| cidr_addr := ipv4 10 0 0 0; cidr_prefix := 24 |}; s_network_id := 0;
               s_name := "lan"; s_description := None; subnet_type := SLan;
               s_virtualization_service_id := None; s_source := SourceDiscovery; s_tags := [] |} |}.

Definition demo_site : Inventory := set_subnet_rows [demo_lan] demo_inventory.

(** An address of the stored subnet under a dangling reference. *)
Lemma create_ips_spec_witness :
  (create_ips ConflictUpsert demo_host_row {| subnet_remap := ∅; created_subnets := ∅ |}
     [demo_row 22 7 9 None] demo_site).2 = Ok [set_ip_meta (originate_meta (fresh_meta 0))
       (set_ip_network 0 (demo_row 22 1 9 None))]
  ∧ wf_ips (ip_rows (world (create_ips ConflictUpsert demo_host_row
       {| subnet_remap := ∅; created_subnets := ∅ |} [demo_row 22 7 9 None] demo_site).1)).
Proof.
  split; [by vm_compute|].
  pose proof (create_ips_spec demo_host_row {| subnet_remap := ∅; created_subnets := ∅ |}
    [demo_row 22 7 9 None] demo_site) as H.
  destruct (create_ips _ _ _ _ demo_site) as [w' [created|e]] eqn:E; [|by vm_compute in E].
  destruct H as (l & -> & Hl & _); [|by intros s ?%not_elem_of_empty|exact Hl].
  split; [by apply (bool_decide_unpack (NoDup [20%N; 21%N]))|].
  by apply (bool_decide_unpack (NoDup (ip_key <$> [demo_addr 20 1; demo_addr 21 2]))).
Defined.

(** The host of MAC 66 moved from 10.0.0.1 to 10.0.0.9. *)
Definition demo_moved : Inventory :=
  on_world (set_ip_rows [demo_row 20 1 1 (Some 66)]) demo_site.

Lemma moved_address_not_recorded_witness :
  Forall (λ r, ip_address (ip_base r) ≠ ipv4 10 0 0 9)
    (ips_of_host (world (create_ips ConflictUpsert demo_host_row
       {| subnet_remap := ∅; created_subnets := ∅ |} [demo_row 22 1 9 (Some 66)] demo_moved).1) 1).
Proof.
  destruct (moved_address_not_recorded demo_host_row {| subnet_remap := ∅; created_subnets := ∅ |}
    (demo_row 22 1 9 (Some 66)) demo_moved (demo_row 20 1 1 (Some 66)) 66) as [E Hr].
  - reflexivity.
  - by apply (bool_decide_unpack (22%N ∉ [20%N])).
  - intros r ->%list_elem_of_singleton. by vm_compute.
  - by vm_compute.
  - apply Forall_forall. intros r Hin%list_elem_of_In. rewrite E in Hin. exact (Hr r Hin).
Defined.

(** A bridge is reported with the service that owns it. *)
Definition demo_docker : Service := demo_claim 33 "Docker" [].
Definition demo_reported_bridge : Subnet := demo_bridge 5 33.

Lemma create_subnets_spec_witness :
  is_ok (create_subnets (facts := open_facts) demo_mint demo_host_row demo_services [demo_docker]
           [demo_reported_bridge] demo_site).2 = true.
Proof.
  destruct (create_subnets_spec (facts := open_facts) demo_mint demo_host_row demo_services [demo_docker]
    [demo_reported_bridge] demo_site) as (w' & o & sa & E & _).
  - done.
  - by constructor.
  - by apply (bool_decide_unpack (NoDup [3%N; 5%N])).
  - apply NoDup_nil_2.
  - intros s o ->%list_elem_of_singleton. done.
  - by rewrite E.
Defined.

Lemma enrich_lost_witness :
  enrich demo_mint (facts := open_facts)
    (set_virtualization (Some (VirtDocker {| info_name := None; info_id := None; info_compose_project := None |})) (Some 77%N) (demo_claim 34 "Docker Container" []))
    [demo_binding 43 (BindPort 10 None)]
    {| id_remap := ∅; live_ids := ∅; matchable := demo_services |} demo_site = (demo_site, Ok tt).
Proof.
  apply (enrich_lost (facts := open_facts) demo_mint _ _ _ _ 77%N).
  - done.
  - by apply (bool_decide_unpack (77%N ∉ [30%N; 31%N])).
  - intros e He. repeat (apply elem_of_cons in He as [->|He]); [done|done|by apply elem_of_nil in He].
Defined.

Definition demo_named : Inventory :=
  on_world (set_host_rows [host_new 1 0 (demo_base "core" "web" Manual)]) demo_site.

Definition foreign_base : HostBase := {|
  h_name := "branch"; name_source := Manual; h_network_id := 2; hostname := None;
  h_description := None; h_source := SourceUnknown; h_virtualization_metadata := None;
  h_virtualization_service_id := None; hidden := false; h_tags := []; sys_descr := None;
  sys_object_id := None; sys_location := None; sys_contact := None; management_url := None;
  chassis_id := None; sys_name := None; manufacturer := None; model := None;
  serial_number := None; credential_assignments := [] |}.

(** Host 1 has interfaces 50 and 51; host 9 of another network has interface 52. *)
Definition demo_foreign : InterfaceRow := set_if_host 9 2 (demo_if 52 1 None (Some 0x77)).
Definition demo_two_networks : Inventory :=
  set_if_rows [set_if_host 1 0 (demo_if 50 1 None (Some 0x11)); set_if_host 1 0 (demo_if 51 2 None (Some 0x12));
               demo_foreign]
    (on_world (set_host_rows [demo_host_row; host_new 9 0 foreign_base]) demo_site).

(** A complete scan of host 1 that reports interface 50 only. *)
Definition demo_rescan : Submission := {|
  sub_host := host_new 1 0 (demo_base "web" "web" Hostname); sub_ips := [demo_addr 20 1]; sub_ports := [demo_port 11 Http];
  sub_services := []; sub_interfaces := [demo_if 60 1 None (Some 0x11)]; sub_subnets := []; sub_interfaces_complete := true;
  sub_data_complete := complete_default |}.

Lemma submission_confined_witness :
  let w' := (create_with_children (facts := open_facts) demo_mint (λ _ _, true) "Unclaimed Open Ports" ConflictUpsert
               None demo_rescan demo_two_networks).1 in
  if_id <$> if_rows w' = [50%N; 52%N] ∧ off 0 if_net (if_rows w') = [demo_foreign].
Proof.
  cbv zeta. split; [by vm_compute|].
  refine (off_interfaces _ _ _ (submission_confined (facts := open_facts) demo_mint (λ _ _, true) "Unclaimed Open Ports"
    ConflictUpsert None demo_rescan demo_two_networks _ _)).
  - constructor; [by apply (bool_decide_unpack _); vm_compute..|].
    intros r Hr. repeat (apply elem_of_cons in Hr as [->|Hr]); [..|by apply elem_of_nil in Hr].
    1-2: exists demo_host_row. 3: exists (host_new 9 0 foreign_base).
    all: split; [vm_compute; set_solver|done].
  - constructor.
    + intros s [->%list_elem_of_singleton Hn]%elem_of_off. by destruct Hn.
    + intros r [Hr Hn]%elem_of_off. repeat (apply elem_of_cons in Hr as [->|Hr]); [by destruct Hn..| |by apply elem_of_nil in Hr].
      by apply (bool_decide_unpack (52%N ∉ [60%N])).
Defined.

Lemma discovery_keeps_manual_names_witness :
  keeps_manual demo_named
    (discover_host (facts := open_facts) demo_mint (λ _ _, true) "Unclaimed Open Ports" None (Some 9)
       {| sub_host := host_new 1 0 (demo_base "web" "web" Manual); sub_ips := [demo_addr 20 1]; sub_ports := [];
          sub_services := []; sub_interfaces := []; sub_subnets := []; sub_interfaces_complete := false;
          sub_data_complete := complete_default |} demo_named).1.
Proof.
  eapply (discovery_keeps_manual_names (facts := open_facts)). apply list.NoDup_singleton.
Defined.
End Example.
