(* ===== verification/RustFloat.v ===== *)
(** [f32] and [f64] as the code uses them.

    IEEE 754 numbers as the Standard Library's [spec_float], with the format as
    an argument: 24 bits of precision for [f32], 53 for [f64].  Arithmetic is
    correctly rounded, to nearest even; [round] is Rust's, half away from zero;
    a cast to an integer truncates and saturates. *)

From Stdlib Require Import SpecFloat.
From S2P Require Import Prelude.
Local Open Scope Z_scope.

Record FloatFormat := { prec : Z; emax : Z }.
Definition f32 : FloatFormat := {| prec := 24; emax := 128 |}.
Definition f64 : FloatFormat := {| prec := 53; emax := 1024 |}.

Section Format.
Context (f : FloatFormat).

(** [z as f32]. *)
Definition of_int (z : Z) : spec_float := binary_normalize (prec f) (emax f) z 0 false.

Definition fmul : spec_float → spec_float → spec_float := SFmul (prec f) (emax f).
Definition fdiv : spec_float → spec_float → spec_float := SFdiv (prec f) (emax f).
Definition fsub : spec_float → spec_float → spec_float := SFsub (prec f) (emax f).

(** The literal [n/d]: the division of two exact numbers is correctly rounded. *)
Definition literal (n d : Z) : spec_float := fdiv (of_int n) (of_int d).

(** [round]: to the nearest integer, half away from zero. *)
Definition fround (x : spec_float) : spec_float :=
  match x with
  | S754_finite s m e =>
      if 0 <=? e then x
      else let q := (Z.pos m + 2 ^ (- e - 1)) / 2 ^ (- e) in
           if q =? 0 then S754_zero s
           else binary_normalize (prec f) (emax f) (if s then - q else q) 0 s
  | _ => x
  end.
End Format.

(** [x as i64], [x as u64]. *)
Definition truncate (x : spec_float) : option Z :=
  match x with
  | S754_finite s m e =>
      let q := if 0 <=? e then Z.pos m * 2 ^ e else Z.pos m / 2 ^ (- e) in
      Some (if s then - q else q)
  | S754_zero _ => Some 0
  | _ => None
  end.

Definition saturate (lo hi : Z) (x : spec_float) : Z :=
  match truncate x with
  | Some z => Z.max lo (Z.min hi z)
  | None => match x with S754_infinity false => hi | S754_infinity true => lo | _ => 0 end
  end.

Definition as_i64 : spec_float → Z := saturate (- 2 ^ 63) (2 ^ 63 - 1).
Definition as_u64 : spec_float → Z := saturate 0 (2 ^ 64 - 1).

(** A property of all numbers below a bound, by evaluation. *)
Fixpoint all_below (n : nat) (z : Z) (p : Z → bool) : bool :=
  match n with
  | O => true
  | S n => p z && all_below n (z + 1) p
  end.

Lemma all_below_spec n z p x :
  all_below n z p = true → z <= x < z + Z.of_nat n → p x = true.
Proof.
  revert z. induction n as [|n IH]; intros z; [lia|]. simpl.
  intros [Hp Hn]%andb_true_iff Hx. destruct (decide (x = z)) as [->|]; [done|].
  apply (IH (z + 1)); [done|lia].
Qed.
