(* ===== verification/Plans.v ===== *)
(** Billing plans: tiers, prices, limits and features.

    [server/billing/types/base/plans.rs], [server/billing/types/features.rs] and
    the catalogue of [server/billing/plans.rs].  Prices are cents; the yearly
    price is computed in [f32], as the code does. *)

From Stdlib Require Import Ascii.
From stdpp Require Import pretty.
From S2P Require Import Prelude RustFloat.
Local Open Scope Z_scope.

(** ** Plans *)

Inductive BillingRate := Month | Year.

Record PlanConfig := {
  base_cents : Z;
  rate : BillingRate;
  trial_days : Z;
  seat_cents : option Z;
  network_cents : option Z;
  host_cents : option Z;
  included_seats : option Z;
  included_networks : option Z;
  included_hosts : option Z;
  included_orgs : option Z
}.

#[export] Instance BillingRate_eq_dec : EqDecision BillingRate.
Proof. solve_decision. Defined.
#[export] Instance PlanConfig_eq_dec : EqDecision PlanConfig.
Proof. solve_decision. Defined.

Inductive BillingPlan :=
| Community (c : PlanConfig) | Free (c : PlanConfig) | Starter (c : PlanConfig)
| Pro (c : PlanConfig) | Team (c : PlanConfig) | Business (c : PlanConfig)
| Enterprise (c : PlanConfig) | Demo (c : PlanConfig) | CommercialSelfHosted (c : PlanConfig)
| SelfHostedStandard (c : PlanConfig) | SelfHostedPlus (c : PlanConfig).

Inductive BillingPlanDiscriminants :=
| DCommunity | DFree | DStarter | DPro | DTeam | DBusiness | DEnterprise | DDemo
| DCommercialSelfHosted | DSelfHostedStandard | DSelfHostedPlus.

#[export] Instance BillingPlan_eq_dec : EqDecision BillingPlan.
Proof. solve_decision. Defined.
#[export] Instance BillingPlanDiscriminants_eq_dec : EqDecision BillingPlanDiscriminants.
Proof. solve_decision. Defined.

Definition discriminant (p : BillingPlan) : BillingPlanDiscriminants :=
  match p with
  | Community _ => DCommunity | Free _ => DFree | Starter _ => DStarter | Pro _ => DPro
  | Team _ => DTeam | Business _ => DBusiness | Enterprise _ => DEnterprise | Demo _ => DDemo
  | CommercialSelfHosted _ => DCommercialSelfHosted
  | SelfHostedStandard _ => DSelfHostedStandard | SelfHostedPlus _ => DSelfHostedPlus
  end.

Definition config (p : BillingPlan) : PlanConfig :=
  match p with
  | Community c | Free c | Starter c | Pro c | Team c | Business c | Enterprise c | Demo c
  | CommercialSelfHosted c | SelfHostedStandard c | SelfHostedPlus c => c
  end.

Definition set_config (c : PlanConfig) (p : BillingPlan) : BillingPlan :=
  match p with
  | Community _ => Community c | Free _ => Free c | Starter _ => Starter c | Pro _ => Pro c
  | Team _ => Team c | Business _ => Business c | Enterprise _ => Enterprise c | Demo _ => Demo c
  | CommercialSelfHosted _ => CommercialSelfHosted c
  | SelfHostedStandard _ => SelfHostedStandard c | SelfHostedPlus _ => SelfHostedPlus c
  end.

(** Equality of plans is equality of their configurations. *)
Definition plan_eqb (p q : BillingPlan) : bool := bool_decide (config p = config q).

Definition cloud_tier (d : BillingPlanDiscriminants) : option Z :=
  match d with
  | DFree => Some 0 | DStarter => Some 1 | DPro => Some 2 | DTeam => Some 3 | DBusiness => Some 4
  | DEnterprise => Some 5 | _ => None
  end.
Definition self_hosted_tier (d : BillingPlanDiscriminants) : option Z :=
  match d with
  | DCommunity => Some 0 | DSelfHostedStandard => Some 1 | DSelfHostedPlus => Some 2 | _ => None
  end.

Definition partial_cmp (d e : BillingPlanDiscriminants) : option comparison :=
  match cloud_tier d, cloud_tier e with
  | Some a, Some b => Some (a ?= b)
  | _, _ =>
      match self_hosted_tier d, self_hosted_tier e with
      | Some a, Some b => Some (a ?= b)
      | _, _ => if decide (d = e) then Some Eq else None
      end
  end.

Definition is_commercial (p : BillingPlan) : bool :=
  match p with
  | Pro _ | Team _ | Business _ | Enterprise _ | CommercialSelfHosted _ | SelfHostedStandard _
  | SelfHostedPlus _ | Demo _ => true
  | _ => false
  end.
Definition is_free (p : BillingPlan) : bool := match p with Free _ => true | _ => false end.
Definition is_demo (p : BillingPlan) : bool := match p with Demo _ => true | _ => false end.
Definition is_self_hosted (p : BillingPlan) : bool :=
  match p with
  | Community _ | CommercialSelfHosted _ | SelfHostedStandard _ | SelfHostedPlus _ => true
  | _ => false
  end.
Definition is_stripe_managed (p : BillingPlan) : bool :=
  match p with
  | Starter _ | Pro _ | Team _ | Business _ | Enterprise _ => true
  | Free _ | Community _ | Demo _ | CommercialSelfHosted _ | SelfHostedStandard _
  | SelfHostedPlus _ => false
  end.
Definition is_enterprise (p : BillingPlan) : bool := match p with Enterprise _ => true | _ => false end.

Definition host_limit (p : BillingPlan) : option Z := included_hosts (config p).
Definition network_limit (p : BillingPlan) : option Z := included_networks (config p).
Definition seat_limit (p : BillingPlan) : option Z := included_seats (config p).

Definition can_invite_users (p : BillingPlan) : bool :=
  match included_seats (config p) with
  | None => true
  | Some n => (1 <? n) || bool_decide (is_Some (seat_cents (config p)))
  end.

Inductive Hosting := SelfHosted | AnyHosting | Cloud.
Definition hosting (p : BillingPlan) : Hosting :=
  match p with
  | Community _ | CommercialSelfHosted _ | SelfHostedStandard _ | SelfHostedPlus _ => SelfHosted
  | Enterprise _ => AnyHosting
  | _ => Cloud
  end.

Inductive PurchaseFlow := FlowStripe | FlowContact | FlowNone.
Definition purchase_flow (p : BillingPlan) : PurchaseFlow :=
  match p with
  | Starter _ | Pro _ | Team _ | Business _ => FlowStripe
  | Enterprise _ | CommercialSelfHosted _ | SelfHostedStandard _ | SelfHostedPlus _ => FlowContact
  | Community _ | Free _ | Demo _ => FlowNone
  end.

(** The name shown to people. *)
Definition plan_name (p : BillingPlan) : string :=
  match p with
  | Community _ => "Community Edition" | Free _ => "Free" | Starter _ => "Starter" | Pro _ => "Pro"
  | Team _ => "Team" | Business _ => "Business" | Enterprise _ => "Enterprise" | Demo _ => "Demo"
  | CommercialSelfHosted _ => "Commercial Edition" | SelfHostedStandard _ => "Self-Hosted Standard"
  | SelfHostedPlus _ => "Self-Hosted Plus"
  end.

(** The variant's name, as [Display] prints it. *)
Definition plan_id (p : BillingPlan) : string :=
  match p with
  | Community _ => "Community" | Free _ => "Free" | Starter _ => "Starter" | Pro _ => "Pro"
  | Team _ => "Team" | Business _ => "Business" | Enterprise _ => "Enterprise" | Demo _ => "Demo"
  | CommercialSelfHosted _ => "CommercialSelfHosted" | SelfHostedStandard _ => "SelfHostedStandard"
  | SelfHostedPlus _ => "SelfHostedPlus"
  end.
Definition rate_name (r : BillingRate) : string := match r with Month => "Month" | Year => "Year" end.

Definition custom_price (p : BillingPlan) : option string :=
  match p with
  | Enterprise _ => Some "Custom"%string
  | Community _ | Free _ => Some "Free"%string
  | CommercialSelfHosted _ => Some "Custom"%string
  | _ => None
  end.

Definition stripe_product_id (p : BillingPlan) : string := to_lowercase (plan_id p).
Definition stripe_base_price_lookup_key (p : BillingPlan) : string :=
  stripe_product_id p +:+ "_" +:+ pretty (base_cents (config p)) +:+ "_" +:+ rate_name (rate (config p)).
Definition stripe_seat_addon_price_lookup_key (p : BillingPlan) : option string :=
  (λ c, stripe_product_id p +:+ "_seats_" +:+ pretty c +:+ "_" +:+ rate_name (rate (config p)))
    <$> seat_cents (config p).
Definition stripe_network_addon_price_lookup_key (p : BillingPlan) : option string :=
  (λ c, stripe_product_id p +:+ "_networks_" +:+ pretty c +:+ "_" +:+ rate_name (rate (config p)))
    <$> network_cents (config p).

(** ** Yearly prices *)

Definition YEARLY_DISCOUNT := literal f32 2 10.

Definition round_to_dollar (cents : SpecFloat.spec_float) : Z :=
  as_i64 (fmul f32 (fround f32 (fdiv f32 cents (of_int f32 100))) (of_int f32 100)).
Definition round_to_99 (cents : SpecFloat.spec_float) : Z := round_to_dollar cents - 1.

Definition discounted (discount : SpecFloat.spec_float) (cents : Z) : SpecFloat.spec_float :=
  fmul f32 (of_int f32 cents) (fsub f32 (of_int f32 1) discount).

Definition to_yearly (discount : SpecFloat.spec_float) (p : BillingPlan) : BillingPlan :=
  let c := config p in
  let addon := λ cents, round_to_dollar (discounted discount cents) * 12 in
  set_config {|
    base_cents := round_to_99 (discounted discount (base_cents c)) * 12;
    rate := Year; trial_days := trial_days c;
    seat_cents := addon <$> seat_cents c; network_cents := addon <$> network_cents c;
    host_cents := addon <$> host_cents c; included_seats := included_seats c;
    included_networks := included_networks c; included_hosts := included_hosts c;
    included_orgs := included_orgs c |} p.

(** ** The catalogue *)

Definition plan_config (base : Z) (r : BillingRate) (trial : Z) (seat network : option Z)
    (seats networks hosts orgs : option Z) : PlanConfig := {|
  base_cents := base; rate := r; trial_days := trial; seat_cents := seat; network_cents := network;
  host_cents := None; included_seats := seats; included_networks := networks;
  included_hosts := hosts; included_orgs := orgs |}.

Definition get_default_plans : list BillingPlan := [
  Starter (plan_config 1499 Month 14 None None (Some 1) (Some 1) None None);
  Pro (plan_config 4999 Month 14 None (Some 1000) (Some 1) (Some 3) None None);
  Business (plan_config 9999 Month 14 (Some 1000) (Some 700) (Some 5) (Some 15) None None)].

Definition get_enterprise_plan : BillingPlan :=
  Enterprise (plan_config 0 Month 0 None None None None None None).
Definition get_free_plan : BillingPlan :=
  Free (plan_config 0 Month 0 None None (Some 1) (Some 1) (Some 25) None).
Definition get_community_plan : BillingPlan :=
  Community (plan_config 0 Month 0 None None (Some 1) (Some 1) None (Some 1)).
Definition get_commercial_self_hosted_plan : BillingPlan :=
  CommercialSelfHosted (plan_config 0 Month 0 None None None None None None).
Definition get_self_hosted_standard_plan : BillingPlan :=
  SelfHostedStandard (plan_config 300000 Year 0 None None (Some 25) (Some 50) None (Some 1)).
Definition get_self_hosted_plus_plan : BillingPlan :=
  SelfHostedPlus (plan_config 600000 Year 0 None None (Some 50) (Some 100) None (Some 5)).

Inductive LicensePlan := LicenseStandard | LicensePlus.
Definition plan_for_license (claim : option LicensePlan) : BillingPlan :=
  match claim with
  | Some LicenseStandard => get_self_hosted_standard_plan
  | Some LicensePlus => get_self_hosted_plus_plan
  | None => get_commercial_self_hosted_plan
  end.

Definition get_purchasable_plans : list BillingPlan :=
  get_default_plans ++ (to_yearly YEARLY_DISCOUNT <$> get_default_plans) ++ [get_free_plan].

Definition get_website_fixture_plans : list BillingPlan :=
  let non_saas := [get_enterprise_plan; get_community_plan] in
  get_purchasable_plans ++ non_saas ++ (to_yearly YEARLY_DISCOUNT <$> non_saas)
  ++ [to_yearly YEARLY_DISCOUNT get_free_plan; get_self_hosted_standard_plan; get_self_hosted_plus_plan].

Definition default_for_discriminant (d : BillingPlanDiscriminants) : option BillingPlan :=
  match d with
  | DFree => Some get_free_plan
  | DCommunity => Some get_community_plan
  | DEnterprise => Some get_enterprise_plan
  | DCommercialSelfHosted => Some get_commercial_self_hosted_plan
  | DSelfHostedStandard => Some get_self_hosted_standard_plan
  | DSelfHostedPlus => Some get_self_hosted_plus_plan
  | _ => List.find (λ p, bool_decide (discriminant p = d)) get_purchasable_plans
  end.

(** ** Features *)

Record BillingPlanFeatures := {
  share_views : bool; remove_created_with : bool; audit_logs : bool; webhooks : bool;
  api_access : bool; onboarding_call : bool; custom_sso : bool; saml : bool;
  air_gapped_deployment : bool; managed_deployment : bool; whitelabeling : bool;
  live_chat_support : bool; embeds : bool; email_support : bool; priority_support : bool;
  network_mapping : bool; png_export : bool; svg_export : bool; mermaid_export : bool;
  confluence_export : bool; pdf_export : bool; html_export : bool; scheduled_discovery : bool;
  discovery_integrations : bool; csv_export : bool; snapshot_retention_days : Z
}.

(** One record per plan. *)
Definition community_features : BillingPlanFeatures := {|
  share_views := true; remove_created_with := false; audit_logs := false; webhooks := false;
  api_access := true; onboarding_call := false; custom_sso := true; saml := false;
  air_gapped_deployment := false; managed_deployment := false; whitelabeling := false;
  live_chat_support := false; embeds := true; email_support := false;
  priority_support := false; network_mapping := true; png_export := true; svg_export := true;
  mermaid_export := true; confluence_export := false; pdf_export := true;
  html_export := true; scheduled_discovery := true; discovery_integrations := true;
  csv_export := true; snapshot_retention_days := 90 |}.
Definition free_features : BillingPlanFeatures := {|
  share_views := false; remove_created_with := false; audit_logs := false; webhooks := false;
  api_access := false; onboarding_call := false; custom_sso := false; saml := false;
  air_gapped_deployment := false; managed_deployment := false; whitelabeling := false;
  live_chat_support := false; embeds := false; email_support := false;
  priority_support := false; network_mapping := true; png_export := true;
  svg_export := false; mermaid_export := false; confluence_export := false;
  pdf_export := false; html_export := false; scheduled_discovery := false;
  discovery_integrations := true; csv_export := true; snapshot_retention_days := 0 |}.
Definition starter_features : BillingPlanFeatures := {|
  share_views := true; remove_created_with := true; audit_logs := false; webhooks := false;
  api_access := false; onboarding_call := false; custom_sso := false; saml := false;
  air_gapped_deployment := false; managed_deployment := false; whitelabeling := false;
  live_chat_support := false; embeds := false; email_support := true;
  priority_support := false; network_mapping := true; png_export := true; svg_export := true;
  mermaid_export := false; confluence_export := false; pdf_export := false;
  html_export := false; scheduled_discovery := true; discovery_integrations := true;
  csv_export := true; snapshot_retention_days := 7 |}.
Definition pro_features : BillingPlanFeatures := {|
  share_views := true; remove_created_with := true; audit_logs := false; webhooks := false;
  api_access := true; onboarding_call := false; custom_sso := false; saml := false;
  air_gapped_deployment := false; managed_deployment := false; whitelabeling := false;
  live_chat_support := false; embeds := true; email_support := true;
  priority_support := false; network_mapping := true; png_export := true; svg_export := true;
  mermaid_export := true; confluence_export := false; pdf_export := true;
  html_export := true; scheduled_discovery := true; discovery_integrations := true;
  csv_export := true; snapshot_retention_days := 30 |}.
Definition team_features : BillingPlanFeatures := {|
  share_views := true; remove_created_with := true; audit_logs := false; webhooks := false;
  api_access := true; onboarding_call := true; custom_sso := false; saml := false;
  air_gapped_deployment := false; managed_deployment := false; whitelabeling := false;
  live_chat_support := false; embeds := true; email_support := true;
  priority_support := true; network_mapping := true; png_export := true; svg_export := true;
  mermaid_export := true; confluence_export := true; pdf_export := true; html_export := true;
  scheduled_discovery := true; discovery_integrations := true; csv_export := true;
  snapshot_retention_days := 90 |}.
Definition business_features : BillingPlanFeatures := {|
  share_views := true; remove_created_with := true; audit_logs := true; webhooks := true;
  api_access := true; onboarding_call := true; custom_sso := false; saml := false;
  air_gapped_deployment := false; managed_deployment := false; whitelabeling := false;
  live_chat_support := false; embeds := true; email_support := true;
  priority_support := true; network_mapping := true; png_export := true; svg_export := true;
  mermaid_export := true; confluence_export := true; pdf_export := true; html_export := true;
  scheduled_discovery := true; discovery_integrations := true; csv_export := true;
  snapshot_retention_days := 90 |}.
Definition enterprise_features : BillingPlanFeatures := {|
  share_views := true; remove_created_with := true; audit_logs := true; webhooks := true;
  api_access := true; onboarding_call := true; custom_sso := true; saml := true;
  air_gapped_deployment := true; managed_deployment := true; whitelabeling := true;
  live_chat_support := true; embeds := true; email_support := true; priority_support := true;
  network_mapping := true; png_export := true; svg_export := true; mermaid_export := true;
  confluence_export := true; pdf_export := true; html_export := true;
  scheduled_discovery := true; discovery_integrations := true; csv_export := true;
  snapshot_retention_days := 90 |}.
Definition demo_features : BillingPlanFeatures := {|
  share_views := true; remove_created_with := true; audit_logs := true; webhooks := true;
  api_access := true; onboarding_call := true; custom_sso := true; saml := true;
  air_gapped_deployment := true; managed_deployment := true; whitelabeling := true;
  live_chat_support := true; embeds := true; email_support := true; priority_support := true;
  network_mapping := true; png_export := true; svg_export := true; mermaid_export := true;
  confluence_export := true; pdf_export := true; html_export := true;
  scheduled_discovery := true; discovery_integrations := true; csv_export := true;
  snapshot_retention_days := 90 |}.
Definition commercial_self_hosted_features : BillingPlanFeatures := {|
  share_views := true; remove_created_with := true; audit_logs := true; webhooks := true;
  api_access := true; onboarding_call := true; custom_sso := true; saml := true;
  air_gapped_deployment := true; managed_deployment := false; whitelabeling := false;
  live_chat_support := false; embeds := true; email_support := true;
  priority_support := true; network_mapping := true; png_export := true; svg_export := true;
  mermaid_export := true; confluence_export := true; pdf_export := true; html_export := true;
  scheduled_discovery := true; discovery_integrations := true; csv_export := true;
  snapshot_retention_days := 90 |}.
Definition self_hosted_standard_features : BillingPlanFeatures := {|
  share_views := true; remove_created_with := true; audit_logs := true; webhooks := true;
  api_access := true; onboarding_call := false; custom_sso := true; saml := true;
  air_gapped_deployment := false; managed_deployment := false; whitelabeling := false;
  live_chat_support := false; embeds := true; email_support := true;
  priority_support := false; network_mapping := true; png_export := true; svg_export := true;
  mermaid_export := true; confluence_export := true; pdf_export := true; html_export := true;
  scheduled_discovery := true; discovery_integrations := true; csv_export := true;
  snapshot_retention_days := 90 |}.
Definition self_hosted_plus_features : BillingPlanFeatures := {|
  share_views := true; remove_created_with := true; audit_logs := true; webhooks := true;
  api_access := true; onboarding_call := true; custom_sso := true; saml := true;
  air_gapped_deployment := true; managed_deployment := false; whitelabeling := true;
  live_chat_support := false; embeds := true; email_support := true;
  priority_support := true; network_mapping := true; png_export := true; svg_export := true;
  mermaid_export := true; confluence_export := true; pdf_export := true; html_export := true;
  scheduled_discovery := true; discovery_integrations := true; csv_export := true;
  snapshot_retention_days := 90 |}.

Definition features (p : BillingPlan) : BillingPlanFeatures :=
  match p with
  | Community _ => community_features
  | Free _ => free_features
  | Starter _ => starter_features
  | Pro _ => pro_features
  | Team _ => team_features
  | Business _ => business_features
  | Enterprise _ => enterprise_features
  | Demo _ => demo_features
  | CommercialSelfHosted _ => commercial_self_hosted_features
  | SelfHostedStandard _ => self_hosted_standard_features
  | SelfHostedPlus _ => self_hosted_plus_features
  end.

(** The fields as [serde_json] writes them. *)
Inductive JsonValue := JBool (b : bool) | JNumber (n : Z).

Definition feature_fields (f : BillingPlanFeatures) : list (string * JsonValue) := [
  ("share_views", JBool (share_views f)); ("remove_created_with", JBool (remove_created_with f));
  ("audit_logs", JBool (audit_logs f)); ("webhooks", JBool (webhooks f));
  ("api_access", JBool (api_access f)); ("onboarding_call", JBool (onboarding_call f));
  ("custom_sso", JBool (custom_sso f)); ("saml", JBool (saml f));
  ("air_gapped_deployment", JBool (air_gapped_deployment f));
  ("managed_deployment", JBool (managed_deployment f));
  ("whitelabeling", JBool (whitelabeling f)); ("live_chat_support", JBool (live_chat_support f));
  ("embeds", JBool (embeds f)); ("email_support", JBool (email_support f));
  ("priority_support", JBool (priority_support f));
  ("network_mapping", JBool (network_mapping f)); ("png_export", JBool (png_export f));
  ("svg_export", JBool (svg_export f)); ("mermaid_export", JBool (mermaid_export f));
  ("confluence_export", JBool (confluence_export f)); ("pdf_export", JBool (pdf_export f));
  ("html_export", JBool (html_export f)); ("scheduled_discovery", JBool (scheduled_discovery f));
  ("discovery_integrations", JBool (discovery_integrations f));
  ("csv_export", JBool (csv_export f));
  ("snapshot_retention_days", JNumber (snapshot_retention_days f))].

Definition json_bool (v : JsonValue) : bool := match v with JBool b => b | JNumber _ => false end.

Definition enabled_feature_ids (p : BillingPlan) : gset string :=
  list_to_set ((List.filter (λ kv, json_bool kv.2) (feature_fields (features p))).*1).

Definition has_feature (p : BillingPlan) (feature_id : string) : bool :=
  match List.find (λ kv, String.eqb kv.1 feature_id) (feature_fields (features p)) with
  | None => false
  | Some (_, JBool b) => b
  | Some (_, JNumber n) => 0 <? n
  end.

Definition snapshot_retention (env_override : option Z) (p : BillingPlan) : Z :=
  default (snapshot_retention_days (features p)) env_override.

Inductive Feature :=
| ShareViews | OnboardingCall | AuditLogs | Webhooks | RemoveCreatedWith | ApiAccess
| CustomSso | Saml | AirGappedDeployment | ManagedDeployment | Whitelabeling | EmailSupport
| LiveChatSupport | PrioritySupport | Embeds | NetworkMapping | PngExport | SvgExport
| MermaidExport | ConfluenceExport | PdfExport | HtmlExport | ScheduledDiscovery
| DiscoveryIntegrations | CsvExport | SnapshotRetentionDays.

#[export] Instance Feature_eq_dec : EqDecision Feature.
Proof. solve_decision. Defined.

Definition feature_id (f : Feature) : string :=
  match f with
  | Webhooks => "webhooks" | AuditLogs => "audit_logs" | ShareViews => "share_views"
  | OnboardingCall => "onboarding_call" | RemoveCreatedWith => "remove_created_with"
  | CustomSso => "custom_sso" | Saml => "saml" | AirGappedDeployment => "air_gapped_deployment"
  | ManagedDeployment => "managed_deployment" | Whitelabeling => "whitelabeling"
  | LiveChatSupport => "live_chat_support" | Embeds => "embeds" | EmailSupport => "email_support"
  | PrioritySupport => "priority_support" | ApiAccess => "api_access"
  | NetworkMapping => "network_mapping" | PngExport => "png_export" | SvgExport => "svg_export"
  | MermaidExport => "mermaid_export" | ConfluenceExport => "confluence_export"
  | PdfExport => "pdf_export" | HtmlExport => "html_export"
  | ScheduledDiscovery => "scheduled_discovery"
  | DiscoveryIntegrations => "discovery_integrations" | CsvExport => "csv_export"
  | SnapshotRetentionDays => "snapshot_retention_days"
  end.

Definition push_if (b : bool) (f : Feature) : list Feature := if b then [f] else [].
Definition into_features (f : BillingPlanFeatures) : list Feature :=
  concat [
    push_if (share_views f) ShareViews; push_if (custom_sso f) CustomSso; push_if (saml f) Saml;
    push_if (air_gapped_deployment f) AirGappedDeployment; push_if (api_access f) ApiAccess;
    push_if (managed_deployment f) ManagedDeployment; push_if (embeds f) Embeds;
    push_if (whitelabeling f) Whitelabeling; push_if (live_chat_support f) LiveChatSupport;
    push_if (priority_support f) PrioritySupport; push_if (email_support f) EmailSupport;
    push_if (onboarding_call f) OnboardingCall; push_if (webhooks f) Webhooks;
    push_if (audit_logs f) AuditLogs; push_if (remove_created_with f) RemoveCreatedWith;
    push_if (network_mapping f) NetworkMapping; push_if (png_export f) PngExport;
    push_if (svg_export f) SvgExport; push_if (mermaid_export f) MermaidExport;
    push_if (confluence_export f) ConfluenceExport; push_if (pdf_export f) PdfExport;
    push_if (html_export f) HtmlExport; push_if (scheduled_discovery f) ScheduledDiscovery;
    push_if (discovery_integrations f) DiscoveryIntegrations; push_if (csv_export f) CsvExport;
    push_if (0 <? snapshot_retention_days f) SnapshotRetentionDays].

Definition ladders : list (list BillingPlanDiscriminants) := [
  [DFree; DStarter; DPro; DBusiness; DEnterprise];
  [DCommunity; DSelfHostedStandard; DSelfHostedPlus]].

(** The element before [d]; [Some None] when [d] is the first. *)
Fixpoint predecessor {A} (eqb : A → bool) (before : option A) (l : list A) : option (option A) :=
  match l with
  | [] => None
  | x :: l => if eqb x then Some before else predecessor eqb (Some x) l
  end.

Definition previous_tier (p : BillingPlan) : option BillingPlanDiscriminants :=
  default None (head (omap (predecessor (λ d, bool_decide (d = discriminant p)) None) ladders)).

Definition universal_feature_ids : gset string := enabled_feature_ids get_free_plan.

Definition incremental_features (p : BillingPlan) : gset string :=
  let enabled := enabled_feature_ids p in
  match previous_tier p with
  | Some d => match default_for_discriminant d with
              | Some q => enabled ∖ enabled_feature_ids q
              | None => enabled
              end
  | None => if is_free p then enabled else enabled ∖ universal_feature_ids
  end.

Definition minimum_plan (f : Feature) : option string :=
  plan_id <$> List.find (λ p, has_feature p (feature_id f))
    (omap default_for_discriminant [DFree; DStarter; DPro; DBusiness; DEnterprise]).

(** ** The order of tiers *)

(** The comparison of tiers is a strict partial order on the discriminants: it
    says equal only of equal ones, reverses when its arguments are exchanged and
    is transitive. *)
Theorem partial_cmp_order d e f :
  (partial_cmp d e = Some Eq ↔ d = e)
  ∧ partial_cmp e d = CompOpp <$> partial_cmp d e
  ∧ (partial_cmp d e = Some Lt → partial_cmp e f = Some Lt → partial_cmp d f = Some Lt).
Proof. by destruct d, e, f; vm_compute; repeat split. Qed.

(** A higher tier never takes a feature away. *)
Lemma enabled_monotone p q :
  partial_cmp (discriminant p) (discriminant q) = Some Lt →
  enabled_feature_ids p ⊆ enabled_feature_ids q
  ∧ snapshot_retention_days (features p) <= snapshot_retention_days (features q).
Proof.
  intros H. destruct p, q; vm_compute in H; try discriminate H.
  all: split; [eapply bool_decide_unpack; by vm_compute|by vm_compute].
Qed.

Definition json_on (v : JsonValue) : bool := match v with JBool b => b | JNumber n => 0 <? n end.

(** Two tables with the same keys in which the second allows more. *)
Definition fields_le (l m : list (string * JsonValue)) : bool :=
  forallb (λ ab, String.eqb ab.1.1 ab.2.1 && implb (json_on ab.1.2) (json_on ab.2.2)) (zip l m)
  && (length l =? length m)%nat.

Lemma fields_le_spec l m id :
  fields_le l m = true →
  match List.find (λ kv, String.eqb kv.1 id) l with
  | None => List.find (λ kv, String.eqb kv.1 id) m = None
  | Some a => ∃ b, List.find (λ kv, String.eqb kv.1 id) m = Some b ∧ implb (json_on a.2) (json_on b.2) = true
  end.
Proof.
  unfold fields_le. revert m. induction l as [|[k v] l IH]; intros [|[k' v'] m]; simpl; try done.
  rewrite !andb_true_iff, String.eqb_eq. intros [[[-> Hi] Hl] Hn]. destruct (String.eqb k' id); [eauto|].
  apply IH. by rewrite Hl, Hn.
Qed.

Lemma has_feature_on p id :
  has_feature p id = match List.find (λ kv, String.eqb kv.1 id) (feature_fields (features p)) with
                     | None => false | Some a => json_on a.2 end.
Proof. unfold has_feature. by destruct (List.find _ _) as [[? []]|]. Qed.

(** Upgrading never loses a feature: between two tiers of a ladder, the higher one
    has every feature of the lower. *)
Theorem features_monotone p q id :
  partial_cmp (discriminant p) (discriminant q) = Some Lt →
  has_feature p id = true → has_feature q id = true.
Proof.
  intros H. assert (fields_le (feature_fields (features p)) (feature_fields (features q)) = true) as Hle.
  { destruct p, q; vm_compute in H; try discriminate H; by vm_compute. }
  rewrite !has_feature_on. clear H. revert Hle.
  generalize (feature_fields (features p)) (feature_fields (features q)). intros l m Hle.
  pose proof (fields_le_spec l m id Hle) as Hf. destruct (List.find _ l) as [a|]; [|discriminate].
  destruct Hf as (b & -> & Hab). intros Ha. by rewrite Ha in Hab.
Qed.

Lemma default_for_discriminant_disc d q : default_for_discriminant d = Some q → discriminant q = d.
Proof.
  destruct d; cbn [default_for_discriminant]; try (by intros [= <-]).
  all: by intros [_ H%bool_decide_eq_true]%find_elem.
Qed.

Lemma difference_split (A B : gset string) : B ⊆ A → A = B ∪ (A ∖ B) ∧ B ## A ∖ B.
Proof. intros H. split; [by apply union_difference_L|set_solver]. Qed.

(** What a tier adds: the features of a plan are those of the tier before it and,
    apart from them, the incremental ones; only the retired Team plan lies between
    a plan and its predecessor. *)
Theorem incremental_features_spec p d q :
  previous_tier p = Some d → default_for_discriminant d = Some q →
  enabled_feature_ids p = enabled_feature_ids q ∪ incremental_features p
  ∧ enabled_feature_ids q ## incremental_features p
  ∧ partial_cmp d (discriminant p) = Some Lt
  ∧ ∀ e, partial_cmp d e = Some Lt → partial_cmp e (discriminant p) = Some Lt → e = DTeam.
Proof.
  intros Hp Hq. pose proof (default_for_discriminant_disc d q Hq) as Hd.
  assert (partial_cmp d (discriminant p) = Some Lt) as Hlt
    by (revert Hp; clear; destruct p; vm_compute; by intros [= <-]).
  rewrite <- Hd in Hlt. pose proof (proj1 (enabled_monotone q p Hlt)) as Hsub.
  assert (incremental_features p = enabled_feature_ids p ∖ enabled_feature_ids q) as ->
    by (unfold incremental_features; by rewrite Hp, Hq).
  destruct (difference_split _ _ Hsub) as [H1 H2]. rewrite Hd in Hlt.
  refine (conj H1 (conj H2 (conj Hlt _))).
  intros e. revert Hp. clear. destruct p; vm_compute; intros [= <-]; destruct e; congruence.
Qed.

(** The list of features and the lookup by name agree, on every plan. *)
Theorem into_features_spec p f :
  f ∈ into_features (features p) ↔ has_feature p (feature_id f) = true.
Proof.
  assert (f ∈ into_features (features p) ↔ bool_decide (f ∈ into_features (features p)) = true) as ->
    by (by rewrite bool_decide_eq_true).
  destruct p, f; vm_compute; done.
Qed.

Definition cloud_plans : list BillingPlan :=
  omap default_for_discriminant [DFree; DStarter; DPro; DBusiness; DEnterprise].

(** The minimum plan of a feature: a plan of the cloud ladder has the feature iff
    the feature names a minimum plan and the plan is not below it. *)
Theorem minimum_plan_spec f q :
  q ∈ cloud_plans →
  has_feature q (feature_id f) = true
  ↔ ∃ m, m ∈ cloud_plans ∧ minimum_plan f = Some (plan_id m)
         ∧ partial_cmp (discriminant m) (discriminant q) ≠ Some Gt.
Proof.
  intros Hq. transitivity (existsb (λ m, bool_decide (minimum_plan f = Some (plan_id m))
    && bool_decide (partial_cmp (discriminant m) (discriminant q) ≠ Some Gt)) cloud_plans = true).
  - revert Hq. unfold cloud_plans. cbn [omap list_omap].
    intros Hq. repeat (apply elem_of_cons in Hq as [->|Hq]); [..|by apply elem_of_nil in Hq].
    all: destruct f; vm_compute; done.
  - rewrite existsb_elem. setoid_rewrite andb_true_iff. by setoid_rewrite bool_decide_eq_true.
Qed.

(** ** Prices *)

(** The yearly price in exact arithmetic: a fifth off, to the nearest dollar, less
    one cent, times twelve. *)
Definition yearly_exact (cents : Z) : Z := 12 * (100 * ((8 * cents + 500) / 1000) - 1).

Lemma yearly_table :
  all_below (Z.to_nat 10001) 0 (λ c, round_to_99 (discounted YEARLY_DISCOUNT c) * 12 =? yearly_exact c) = true.
Proof. by vm_compute. Qed.

(** The yearly price computed in [f32] is the exact one, for every monthly price of
    up to a hundred dollars: rounding errors never show. *)
Theorem to_yearly_exact p :
  0 <= base_cents (config p) <= 10000 →
  base_cents (config (to_yearly YEARLY_DISCOUNT p)) = yearly_exact (base_cents (config p)).
Proof.
  intros H. assert (base_cents (config (to_yearly YEARLY_DISCOUNT p))
    = round_to_99 (discounted YEARLY_DISCOUNT (base_cents (config p))) * 12) as -> by (by destruct p).
  apply Z.eqb_eq, (all_below_spec _ _ _ (base_cents (config p)) yearly_table). lia.
Qed.

(** The yearly variants of the plans without a price, which the website lists, cost
    minus twelve cents. *)
Theorem yearly_price_negative :
  (λ p, (plan_id p, base_cents (config p)))
    <$> List.filter (λ p, base_cents (config p) <? 0) get_website_fixture_plans
  = [("Enterprise", -12); ("Community", -12); ("Free", -12)]%string.
Proof. by vm_compute. Qed.

(** ** Keys and equality *)

Fixpoint chars (s : string) : list Ascii.ascii :=
  match s with "" => [] | String a s => a :: chars s end.

Lemma chars_app a b : chars (a +:+ b) = chars a ++ chars b.
Proof. induction a as [|x a IH]; simpl; [done|by rewrite IH]. Qed.

Lemma chars_inj a b : chars a = chars b → a = b.
Proof. revert b. induction a as [|x a IH]; intros [|y b]; simpl; intros [=]; [done|]. subst. f_equal. auto. Qed.

(** What stands before the first separator is determined. *)
Lemma split_at_separator {A} (x : A) (a b r t : list A) :
  x ∉ a → x ∉ b → a ++ x :: r = b ++ x :: t → a = b ∧ r = t.
Proof.
  revert b. induction a as [|y a IH]; intros [|z b]; simpl; intros Ha Hb [=]; subst; [done|set_solver..|].
  destruct (IH b) as [-> ->]; [set_solver|set_solver|done|done].
Qed.

Lemma product_id_plain p : "_"%char ∉ chars (stripe_product_id p).
Proof. eapply bool_decide_unpack. by destruct p; vm_compute. Qed.

Lemma product_id_inj p q : stripe_product_id p = stripe_product_id q → discriminant p = discriminant q.
Proof. destruct p, q; vm_compute; congruence. Qed.

(** A base price key names one price: plans with the same key are the same tier at
    the same price and rate. *)
Theorem lookup_key_injective p q :
  stripe_base_price_lookup_key p = stripe_base_price_lookup_key q →
  discriminant p = discriminant q ∧ base_cents (config p) = base_cents (config q)
  ∧ rate (config p) = rate (config q).
Proof.
  unfold stripe_base_price_lookup_key. generalize (rate (config p)) (rate (config q)). intros r r' H.
  apply (f_equal chars) in H. rewrite !chars_app in H. cbn [chars app] in H.
  apply split_at_separator in H as [Hid H]; [|apply product_id_plain..].
  split; [by apply product_id_inj, chars_inj|].
  assert (r = r') as ->.
  { apply (f_equal reverse) in H. rewrite !reverse_app in H. destruct r, r'; [done| |..|done]; done. }
  split; [|done]. change ("_"%char :: chars (rate_name r')) with (chars ("_" +:+ rate_name r')) in H.
  rewrite <- !chars_app in H. rewrite !chars_app in H. apply app_inv_tail, chars_inj in H.
  by apply (inj pretty).
Qed.

(** Equality of plans looks at the configuration alone: it tells the published
    plans apart, and confuses the enterprise plan with the commercial edition. *)
Theorem plan_eqb_spec p q :
  (p ∈ get_website_fixture_plans → q ∈ get_website_fixture_plans → plan_eqb p q = true → p = q)
  ∧ plan_eqb get_enterprise_plan get_commercial_self_hosted_plan = true.
Proof.
  split; [|done]. intros Hp Hq Heq.
  assert (forallb (λ p, forallb (λ q, implb (plan_eqb p q) (bool_decide (p = q))) get_website_fixture_plans)
            get_website_fixture_plans = true) as Hall by (by vm_compute).
  rewrite forallb_forall in Hall. specialize (Hall p (proj1 (list_elem_of_In _ _) Hp)).
  rewrite forallb_forall in Hall. specialize (Hall q (proj1 (list_elem_of_In _ _) Hq)).
  rewrite Heq in Hall. by apply bool_decide_eq_true in Hall.
Qed.

(** ** Witnesses *)

Lemma features_monotone_witness : has_feature get_enterprise_plan "csv_export" = true.
Proof. apply (features_monotone get_free_plan get_enterprise_plan); vm_compute; reflexivity. Defined.

Lemma to_yearly_exact_witness :
  (λ p, base_cents (config (to_yearly YEARLY_DISCOUNT p))) <$> get_default_plans = [14388; 47988; 95988]
  ∧ ∀ p, p ∈ get_default_plans → base_cents (config (to_yearly YEARLY_DISCOUNT p)) = yearly_exact (base_cents (config p)).
Proof.
  split; [vm_compute; reflexivity|]. intros p Hp. apply (to_yearly_exact p).
  repeat (apply elem_of_cons in Hp as [->|Hp]; [vm_compute; split; discriminate|]). by apply elem_of_nil in Hp.
Defined.
