(* ===== verification/Billing.v ===== *)
(** Subscriptions: billing events, the organization row they maintain, and the
    payment provider's webhooks.

    [BillingOperation] and [implied_status] of [server/shared/events/types.rs], the
    subscriber of [server/organizations/subscriber.rs] that is the only writer of
    an organization's plan and status, the webhook handlers of
    [server/billing/service/{webhooks,plan_changes,lifecycle,mod}.rs] and the
    metadata they exchange with the provider ([server/billing/types/
    stripe_metadata.rs]).  The provider's own enumerations are kept as the strings
    it sends where the code only passes them on.  Publishing an event runs the
    subscriber at once ([TypedChannel::publish] with a debounce of zero), while a
    handler keeps the row it read. *)

From stdpp Require Import pretty.
From S2P Require Import Prelude Effects RustFloat Plans.
Local Open Scope Z_scope.

(** ** Data *)

Inductive PlanStatus := Active | Trialing | PastDue | Paused | PendingCancellation | Cancelled.
#[export] Instance PlanStatus_eq_dec : EqDecision PlanStatus.
Proof. solve_decision. Defined.

Inductive CancelReason :=
| TooExpensive | MissingFeatures | SwitchedService | Unused | CustomerService | LowQuality
| TooComplex | OtherReason.
Inductive SaveOffer := OfferPause | OfferDiscount | OfferDowngrade.
Inductive LimitType := LimitNetworks | LimitHosts | LimitSeats | LimitSnapshots.
Inductive LimitSource := SourceApi | SourceDiscoveryRun.

Inductive OnboardingStep :=
| OrgCreated | OnboardingModalCompleted | PlanSelected | DaemonPromptDismissed
| DaemonPromptAccepted | FirstDaemonRegistered | FirstTopologyRebuild | FirstDiscoveryCompleted
| FirstHostDiscovered | SecondNetworkCreated | FirstTagCreated | FirstDependencyCreated
| FirstUserApiKeyCreated | FirstSnmpCredentialCreated | FirstApplicationTagCreated
| FirstCredentialCreated | FirstSnapshotCreated | InviteSent | InviteAccepted | ProfileCompleted
| ReferralSourceCompleted.
#[export] Instance OnboardingStep_eq_dec : EqDecision OnboardingStep.
Proof. solve_decision. Defined.

(** An operation that publishes; the invoice of a payment is kept by its id. *)
Inductive BillingOperation :=
| CheckoutStarted (p : BillingPlan) (has_trial : bool)
| CheckoutCompleted (p : BillingPlan) (networks seats : option Z) (mrr_amount_cents : Z)
    (is_trialing : bool) (next_renewal : option DateTime)
| TrialStarted (p : BillingPlan) (trial_end : DateTime) (trial_days : Z)
| TrialWillEnd (p : BillingPlan) (payment_method : bool)
| TrialEnded (p : BillingPlan) (converted : bool) (next_renewal : option DateTime)
| PlanChanged (from to : BillingPlan) (is_downgrade : bool) (next_renewal : option DateTime)
| SubscriptionCancelled (p : BillingPlan) (reason_code : option CancelReason)
    (feedback reason internal_reason comment : option string) (period_end : DateTime)
    (was_trialing : bool) (mrr_amount_cents tenure_days : Z)
| PaymentSucceeded (invoice_id : string)
| PaymentFailed (invoice_id : string) (amount_cents : Z) (p : BillingPlan) (attempt_count : Z)
| PaymentActionRequired (invoice_id : string) (hosted_invoice_url : option string)
| PaymentRecovered (invoice_id : string) (amount_cents : Z) (p : BillingPlan) (attempt_count : Z)
    (next_renewal : option DateTime)
| FeatureLimitHit (t : LimitType) (current_count limit : Z) (p : BillingPlan) (s : LimitSource)
| SubPaused (p : BillingPlan) (duration_days : Z) (resumes_at : DateTime)
| Resumed (was_early : bool)
| TrialExtended (days_added : Z) (new_trial_end : DateTime)
| CancellationInitiated (reason_code : option CancelReason) (feedback reason comment : option string)
    (save_offer_shown : list SaveOffer) (save_offer_redeemed : option SaveOffer)
    (planned_period_end : DateTime)
| CancellationFeedbackProvided (feedback reason comment : option string)
| Reactivated (trialing : bool) (next_renewal : option DateTime)
| DiscountApplied (percent_off : Z) (expires_at : DateTime)
| PaymentMethodAdded
| PaymentMethodRemoved
| StripeCustomerCreated (customer_id : string)
| LicenseReconciled (from to : BillingPlan).

Definition operation_plan (op : BillingOperation) : option BillingPlan :=
  match op with
  | CheckoutStarted p _ | CheckoutCompleted p _ _ _ _ _ | TrialStarted p _ _ | TrialWillEnd p _
  | TrialEnded p _ _ | SubscriptionCancelled p _ _ _ _ _ _ _ _ _ | FeatureLimitHit _ _ _ p _
  | SubPaused p _ _ | PaymentFailed _ _ p _ | PaymentRecovered _ _ p _ _ => Some p
  | PlanChanged _ to _ _ | LicenseReconciled _ to => Some to
  | _ => None
  end.

Definition resulting_plan_name (op : BillingOperation) : option string :=
  match op with
  | SubscriptionCancelled _ _ _ _ _ _ _ _ _ _ | TrialEnded _ false _ => Some (plan_name get_free_plan)
  | _ => plan_name <$> operation_plan op
  end.

Definition implied_status (op : BillingOperation) : option PlanStatus :=
  match op with
  | CheckoutCompleted _ _ _ _ _ _ | PaymentRecovered _ _ _ _ _ | Resumed _ | Reactivated false _
  | SubscriptionCancelled _ _ _ _ _ _ _ _ _ _ | TrialEnded _ false _ => Some Active
  | Reactivated true _ | TrialStarted _ _ _ | TrialExtended _ _ => Some Trialing
  | TrialEnded _ true _ => Some Active
  | PaymentFailed _ _ _ _ | PaymentActionRequired _ _ => Some PastDue
  | SubPaused _ _ _ => Some Paused
  | CancellationInitiated _ _ _ _ _ _ _ => Some PendingCancellation
  | CheckoutStarted _ _ | PlanChanged _ _ _ _ | LicenseReconciled _ _ | TrialWillEnd _ _
  | FeatureLimitHit _ _ _ _ _ | PaymentSucceeded _ | DiscountApplied _ _
  | CancellationFeedbackProvided _ _ _ | StripeCustomerCreated _ | PaymentMethodAdded
  | PaymentMethodRemoved => None
  end.

Inductive LimitNotificationLevel := LevelNone | Approaching | Reached.
#[export] Instance LimitNotificationLevel_eq_dec : EqDecision LimitNotificationLevel.
Proof. solve_decision. Defined.
Record OrgNotifications := {
  n_hosts : LimitNotificationLevel; n_networks : LimitNotificationLevel;
  n_seats : LimitNotificationLevel
}.

Record OrganizationBase := {
  stripe_customer_id : option string;
  o_name : string;
  plan : option BillingPlan;
  plan_status : option PlanStatus;
  onboarding : list OnboardingStep;
  has_payment_method : bool;
  trial_end_date : option DateTime;
  last_paused_at : option DateTime;
  trial_extended_used : bool;
  last_downgrade_at : option DateTime;
  last_downgrade_from_plan : option BillingPlan;
  last_discount_at : option DateTime;
  discount_percent_off : option Z;
  discount_active_until : option DateTime;
  next_renewal_at : option DateTime;
  notifications : OrgNotifications
}.

Record Organization := { o_id : Uuid; o_created_at : DateTime; o_base : OrganizationBase }.

Definition with_org (f : OrganizationBase → OrganizationBase) (o : Organization) : Organization :=
  {| o_id := o_id o; o_created_at := o_created_at o; o_base := f (o_base o) |}.

Definition set_stripe_customer_id (v : option string) (b : OrganizationBase) : OrganizationBase := {|
  stripe_customer_id := v; o_name := o_name b; plan := plan b; plan_status := plan_status b;
  onboarding := onboarding b; has_payment_method := has_payment_method b;
  trial_end_date := trial_end_date b; last_paused_at := last_paused_at b;
  trial_extended_used := trial_extended_used b; last_downgrade_at := last_downgrade_at b;
  last_downgrade_from_plan := last_downgrade_from_plan b; last_discount_at := last_discount_at b;
  discount_percent_off := discount_percent_off b;
  discount_active_until := discount_active_until b; next_renewal_at := next_renewal_at b;
  notifications := notifications b |}.
Definition set_plan (v : option BillingPlan) (b : OrganizationBase) : OrganizationBase := {|
  stripe_customer_id := stripe_customer_id b; o_name := o_name b; plan := v;
  plan_status := plan_status b; onboarding := onboarding b;
  has_payment_method := has_payment_method b; trial_end_date := trial_end_date b;
  last_paused_at := last_paused_at b; trial_extended_used := trial_extended_used b;
  last_downgrade_at := last_downgrade_at b;
  last_downgrade_from_plan := last_downgrade_from_plan b; last_discount_at := last_discount_at b;
  discount_percent_off := discount_percent_off b;
  discount_active_until := discount_active_until b; next_renewal_at := next_renewal_at b;
  notifications := notifications b |}.
Definition set_plan_status (v : option PlanStatus) (b : OrganizationBase) : OrganizationBase := {|
  stripe_customer_id := stripe_customer_id b; o_name := o_name b; plan := plan b;
  plan_status := v; onboarding := onboarding b; has_payment_method := has_payment_method b;
  trial_end_date := trial_end_date b; last_paused_at := last_paused_at b;
  trial_extended_used := trial_extended_used b; last_downgrade_at := last_downgrade_at b;
  last_downgrade_from_plan := last_downgrade_from_plan b; last_discount_at := last_discount_at b;
  discount_percent_off := discount_percent_off b;
  discount_active_until := discount_active_until b; next_renewal_at := next_renewal_at b;
  notifications := notifications b |}.
Definition set_onboarding (v : list OnboardingStep) (b : OrganizationBase) : OrganizationBase := {|
  stripe_customer_id := stripe_customer_id b; o_name := o_name b; plan := plan b;
  plan_status := plan_status b; onboarding := v; has_payment_method := has_payment_method b;
  trial_end_date := trial_end_date b; last_paused_at := last_paused_at b;
  trial_extended_used := trial_extended_used b; last_downgrade_at := last_downgrade_at b;
  last_downgrade_from_plan := last_downgrade_from_plan b; last_discount_at := last_discount_at b;
  discount_percent_off := discount_percent_off b;
  discount_active_until := discount_active_until b; next_renewal_at := next_renewal_at b;
  notifications := notifications b |}.
Definition set_has_payment_method (v : bool) (b : OrganizationBase) : OrganizationBase := {|
  stripe_customer_id := stripe_customer_id b; o_name := o_name b; plan := plan b;
  plan_status := plan_status b; onboarding := onboarding b; has_payment_method := v;
  trial_end_date := trial_end_date b; last_paused_at := last_paused_at b;
  trial_extended_used := trial_extended_used b; last_downgrade_at := last_downgrade_at b;
  last_downgrade_from_plan := last_downgrade_from_plan b; last_discount_at := last_discount_at b;
  discount_percent_off := discount_percent_off b;
  discount_active_until := discount_active_until b; next_renewal_at := next_renewal_at b;
  notifications := notifications b |}.
Definition set_trial_end_date (v : option DateTime) (b : OrganizationBase) : OrganizationBase := {|
  stripe_customer_id := stripe_customer_id b; o_name := o_name b; plan := plan b;
  plan_status := plan_status b; onboarding := onboarding b;
  has_payment_method := has_payment_method b; trial_end_date := v;
  last_paused_at := last_paused_at b; trial_extended_used := trial_extended_used b;
  last_downgrade_at := last_downgrade_at b;
  last_downgrade_from_plan := last_downgrade_from_plan b; last_discount_at := last_discount_at b;
  discount_percent_off := discount_percent_off b;
  discount_active_until := discount_active_until b; next_renewal_at := next_renewal_at b;
  notifications := notifications b |}.
Definition set_last_paused_at (v : option DateTime) (b : OrganizationBase) : OrganizationBase := {|
  stripe_customer_id := stripe_customer_id b; o_name := o_name b; plan := plan b;
  plan_status := plan_status b; onboarding := onboarding b;
  has_payment_method := has_payment_method b; trial_end_date := trial_end_date b;
  last_paused_at := v; trial_extended_used := trial_extended_used b;
  last_downgrade_at := last_downgrade_at b;
  last_downgrade_from_plan := last_downgrade_from_plan b; last_discount_at := last_discount_at b;
  discount_percent_off := discount_percent_off b;
  discount_active_until := discount_active_until b; next_renewal_at := next_renewal_at b;
  notifications := notifications b |}.
Definition set_trial_extended_used (v : bool) (b : OrganizationBase) : OrganizationBase := {|
  stripe_customer_id := stripe_customer_id b; o_name := o_name b; plan := plan b;
  plan_status := plan_status b; onboarding := onboarding b;
  has_payment_method := has_payment_method b; trial_end_date := trial_end_date b;
  last_paused_at := last_paused_at b; trial_extended_used := v;
  last_downgrade_at := last_downgrade_at b;
  last_downgrade_from_plan := last_downgrade_from_plan b; last_discount_at := last_discount_at b;
  discount_percent_off := discount_percent_off b;
  discount_active_until := discount_active_until b; next_renewal_at := next_renewal_at b;
  notifications := notifications b |}.
Definition set_last_downgrade_at (v : option DateTime) (b : OrganizationBase) : OrganizationBase := {|
  stripe_customer_id := stripe_customer_id b; o_name := o_name b; plan := plan b;
  plan_status := plan_status b; onboarding := onboarding b;
  has_payment_method := has_payment_method b; trial_end_date := trial_end_date b;
  last_paused_at := last_paused_at b; trial_extended_used := trial_extended_used b;
  last_downgrade_at := v; last_downgrade_from_plan := last_downgrade_from_plan b;
  last_discount_at := last_discount_at b; discount_percent_off := discount_percent_off b;
  discount_active_until := discount_active_until b; next_renewal_at := next_renewal_at b;
  notifications := notifications b |}.
Definition set_last_downgrade_from_plan (v : option BillingPlan) (b : OrganizationBase) : OrganizationBase := {|
  stripe_customer_id := stripe_customer_id b; o_name := o_name b; plan := plan b;
  plan_status := plan_status b; onboarding := onboarding b;
  has_payment_method := has_payment_method b; trial_end_date := trial_end_date b;
  last_paused_at := last_paused_at b; trial_extended_used := trial_extended_used b;
  last_downgrade_at := last_downgrade_at b; last_downgrade_from_plan := v;
  last_discount_at := last_discount_at b; discount_percent_off := discount_percent_off b;
  discount_active_until := discount_active_until b; next_renewal_at := next_renewal_at b;
  notifications := notifications b |}.
Definition set_last_discount_at (v : option DateTime) (b : OrganizationBase) : OrganizationBase := {|
  stripe_customer_id := stripe_customer_id b; o_name := o_name b; plan := plan b;
  plan_status := plan_status b; onboarding := onboarding b;
  has_payment_method := has_payment_method b; trial_end_date := trial_end_date b;
  last_paused_at := last_paused_at b; trial_extended_used := trial_extended_used b;
  last_downgrade_at := last_downgrade_at b;
  last_downgrade_from_plan := last_downgrade_from_plan b; last_discount_at := v;
  discount_percent_off := discount_percent_off b;
  discount_active_until := discount_active_until b; next_renewal_at := next_renewal_at b;
  notifications := notifications b |}.
Definition set_discount_percent_off (v : option Z) (b : OrganizationBase) : OrganizationBase := {|
  stripe_customer_id := stripe_customer_id b; o_name := o_name b; plan := plan b;
  plan_status := plan_status b; onboarding := onboarding b;
  has_payment_method := has_payment_method b; trial_end_date := trial_end_date b;
  last_paused_at := last_paused_at b; trial_extended_used := trial_extended_used b;
  last_downgrade_at := last_downgrade_at b;
  last_downgrade_from_plan := last_downgrade_from_plan b; last_discount_at := last_discount_at b;
  discount_percent_off := v; discount_active_until := discount_active_until b;
  next_renewal_at := next_renewal_at b; notifications := notifications b |}.
Definition set_discount_active_until (v : option DateTime) (b : OrganizationBase) : OrganizationBase := {|
  stripe_customer_id := stripe_customer_id b; o_name := o_name b; plan := plan b;
  plan_status := plan_status b; onboarding := onboarding b;
  has_payment_method := has_payment_method b; trial_end_date := trial_end_date b;
  last_paused_at := last_paused_at b; trial_extended_used := trial_extended_used b;
  last_downgrade_at := last_downgrade_at b;
  last_downgrade_from_plan := last_downgrade_from_plan b; last_discount_at := last_discount_at b;
  discount_percent_off := discount_percent_off b; discount_active_until := v;
  next_renewal_at := next_renewal_at b; notifications := notifications b |}.
Definition set_next_renewal_at (v : option DateTime) (b : OrganizationBase) : OrganizationBase := {|
  stripe_customer_id := stripe_customer_id b; o_name := o_name b; plan := plan b;
  plan_status := plan_status b; onboarding := onboarding b;
  has_payment_method := has_payment_method b; trial_end_date := trial_end_date b;
  last_paused_at := last_paused_at b; trial_extended_used := trial_extended_used b;
  last_downgrade_at := last_downgrade_at b;
  last_downgrade_from_plan := last_downgrade_from_plan b; last_discount_at := last_discount_at b;
  discount_percent_off := discount_percent_off b;
  discount_active_until := discount_active_until b; next_renewal_at := v;
  notifications := notifications b |}.
Definition set_notifications (v : OrgNotifications) (b : OrganizationBase) : OrganizationBase := {|
  stripe_customer_id := stripe_customer_id b; o_name := o_name b; plan := plan b;
  plan_status := plan_status b; onboarding := onboarding b;
  has_payment_method := has_payment_method b; trial_end_date := trial_end_date b;
  last_paused_at := last_paused_at b; trial_extended_used := trial_extended_used b;
  last_downgrade_at := last_downgrade_at b;
  last_downgrade_from_plan := last_downgrade_from_plan b; last_discount_at := last_discount_at b;
  discount_percent_off := discount_percent_off b;
  discount_active_until := discount_active_until b; next_renewal_at := next_renewal_at b;
  notifications := v |}.

Definition not_onboarded (o : Organization) (s : OnboardingStep) : bool :=
  negb (bool_decide (s ∈ onboarding (o_base o))).

(** ** The subscriber *)

(** [if x != new { x = new; changed = true }] *)
Definition assign {A} (same : A → A → bool) (read : OrganizationBase → A)
    (write : A → OrganizationBase → OrganizationBase) (v : A)
    (r : OrganizationBase * bool) : OrganizationBase * bool :=
  if same (read r.1) v then r else (write v r.1, true).

(** Plans are compared by configuration. *)
Definition same_plan (p q : option BillingPlan) : bool :=
  match p, q with Some a, Some b => plan_eqb a b | None, None => true | _, _ => false end.
Definition same {A} `{EqDecision A} (x y : A) : bool := bool_decide (x = y).

Definition assign_plan (p : BillingPlan) := assign same_plan plan set_plan (Some p).
Definition assign_renewal (t : option DateTime) (r : OrganizationBase * bool) : OrganizationBase * bool :=
  match t with None => r | Some _ => assign same next_renewal_at set_next_renewal_at t r end.

(** The arm of one operation: the new row and whether it has to be written. *)
Definition apply_arm (now : DateTime) (op : BillingOperation) (b : OrganizationBase)
    : OrganizationBase * bool :=
  let r := (b, false) in
  match op with
  | SubPaused _ _ _ => (set_last_paused_at (Some now) b, true)
  | CheckoutCompleted p _ _ _ _ t => assign_renewal t (assign_plan p r)
  | TrialStarted p trial_end _ =>
      assign same next_renewal_at set_next_renewal_at (Some trial_end)
        (assign same trial_end_date set_trial_end_date (Some trial_end) (assign_plan p r))
  | TrialExtended _ e =>
      assign same next_renewal_at set_next_renewal_at (Some e)
        (assign same trial_end_date set_trial_end_date (Some e)
           (assign same trial_extended_used set_trial_extended_used true r))
  | TrialEnded _ true t => assign_renewal t r
  | PlanChanged from to is_downgrade t =>
      let r := assign_plan to r in
      let r := if is_downgrade
               then (set_last_downgrade_from_plan (Some from) (set_last_downgrade_at (Some now) r.1), true)
               else r in
      assign_renewal t r
  | LicenseReconciled _ to => assign_plan to r
  | Reactivated _ t => assign_renewal t r
  | PaymentRecovered _ _ _ _ t => assign_renewal t r
  | SubscriptionCancelled p _ _ _ _ _ _ _ _ _ | TrialEnded p false _ =>
      let b := set_last_downgrade_from_plan (Some p) (set_last_downgrade_at (Some now) b) in
      let b := (assign_plan get_free_plan (b, false)).1 in
      let b := set_next_renewal_at None b in
      (set_discount_percent_off None (set_discount_active_until None b), true)
  | DiscountApplied percent_off expires_at =>
      (set_discount_active_until (Some expires_at)
         (set_discount_percent_off (Some percent_off) (set_last_discount_at (Some now) b)), true)
  | PaymentMethodAdded => assign same has_payment_method set_has_payment_method true r
  | PaymentMethodRemoved => assign same has_payment_method set_has_payment_method false r
  | StripeCustomerCreated id => assign same stripe_customer_id set_stripe_customer_id (Some id) r
  | _ => r
  end.

Definition apply_operation (now : DateTime) (op : BillingOperation) (b : OrganizationBase)
    : OrganizationBase * bool :=
  let r := apply_arm now op b in
  match implied_status op with
  | Some s => assign same plan_status set_plan_status (Some s) r
  | None => r
  end.

(** One event on the stored rows: read, apply, write when something changed. *)
Definition handle_billing (now : DateTime) (id : Uuid) (op : BillingOperation)
    (orgs : gmap Uuid Organization) : gmap Uuid Organization :=
  match orgs !! id with
  | None => orgs
  | Some o =>
      let '(b, changed) := apply_operation now op (o_base o) in
      if changed then <[id := with_org (λ _, b) o]> orgs else orgs
  end.

Definition handle_onboarding (id : Uuid) (s : OnboardingStep) (orgs : gmap Uuid Organization)
    : gmap Uuid Organization :=
  match orgs !! id with
  | None => orgs
  | Some o => if not_onboarded o s
              then <[id := with_org (λ b, set_onboarding (onboarding b ++ [s]) b) o]> orgs
              else orgs
  end.

(** ** The provider's subscription *)

(** The states the code tells apart; any other one by its name. *)
Inductive SubscriptionStatus := SubActive | SubTrialing | SubPausedState | SubPastDue | SubOther (raw : string).
#[export] Instance SubscriptionStatus_eq_dec : EqDecision SubscriptionStatus.
Proof. solve_decision. Defined.

Record CancellationDetails := { cd_feedback : option string; cd_comment : option string; cd_reason : option string }.
Record SubscriptionItem := {
  item_price_id : string; unit_amount : option Z; is_yearly : bool; quantity : option Z;
  current_period_start : Z; current_period_end : Z
}.
Record Subscription := {
  sub_id : string;
  status : SubscriptionStatus;
  metadata : gmap string string;
  cancel_at : option Z;
  cancel_at_period_end : bool;
  cancellation_details : option CancellationDetails;
  items : list SubscriptionItem;
  (** [Some r] when collection is paused, until [r] *)
  pause_collection : option (option Z);
  trial_end : option Z;
  ended_at : option Z;
  canceled_at : option Z
}.

Definition extract_cancellation_details (d : option CancellationDetails)
    : option string * option string * option string :=
  (d ≫= cd_feedback, d ≫= cd_comment, d ≫= cd_reason).

Definition line_monthly_cents (unit_amount quantity : option Z) (is_yearly : bool) : Z :=
  let line := default 0 unit_amount * default 0 quantity in
  if is_yearly then line `quot` 12 else line.

Definition mrr_from_subscription (s : Subscription) : Z :=
  foldr Z.add 0 ((λ i, line_monthly_cents (unit_amount i) (quantity i) (is_yearly i)) <$> items s).

(** ** Metadata *)

Record StripeSubscriptionMetadata := {
  m_organization_id : option Uuid;
  m_plan : option BillingPlan;
  pause_duration_days : option Z;
  paused_at : option Z;
  trial_extended_days : option Z;
  cancel_reason : option CancelReason;
  cancel_save_offer_shown : option (list SaveOffer);
  cancel_save_offer_redeemed : option SaveOffer
}.

Definition default_metadata : StripeSubscriptionMetadata := {|
  m_organization_id := None; m_plan := None; pause_duration_days := None; paused_at := None;
  trial_extended_days := None; cancel_reason := None; cancel_save_offer_shown := None;
  cancel_save_offer_redeemed := None |}.

Definition cancel_reason_id (r : CancelReason) : string :=
  match r with
  | TooExpensive => "too_expensive" | MissingFeatures => "missing_features"
  | SwitchedService => "switched_service" | Unused => "unused"
  | CustomerService => "customer_service" | LowQuality => "low_quality"
  | TooComplex => "too_complex" | OtherReason => "other"
  end.
Definition save_offer_id (o : SaveOffer) : string :=
  match o with OfferPause => "pause" | OfferDiscount => "discount" | OfferDowngrade => "downgrade" end.

Definition all_reasons : list CancelReason := [
  TooExpensive; MissingFeatures; SwitchedService; Unused; CustomerService; LowQuality; TooComplex;
  OtherReason].
Definition all_offers : list SaveOffer := [OfferPause; OfferDiscount; OfferDowngrade].

(** [parse_simple_enum]: the variant with that name. *)
Definition parse_simple_enum {A} (name : A → string) (all : list A) (s : string) : option A :=
  List.find (λ a, String.eqb (name a) s) all.

(** [str::parse] for integers: an optional sign and digits. *)
Definition digit_value (c : Ascii.ascii) : option N :=
  let n := Ascii.N_of_ascii c in
  if ((48 <=? n) && (n <=? 57))%N then Some (n - 48)%N else None.

Fixpoint parse_digits (acc : N) (s : string) : option N :=
  match s with
  | EmptyString => Some acc
  | String c s => d ← digit_value c; parse_digits (10 * acc + d)%N s
  end.
Definition parse_nat (s : string) : option N :=
  match s with EmptyString => None | _ => parse_digits 0 s end.

Definition plus_sign : Ascii.ascii := Ascii.Ascii true true false true false true false false.
Definition minus_sign : Ascii.ascii := Ascii.Ascii true false true true false true false false.

Definition parse_unsigned (max : Z) (s : string) : option Z :=
  n ← match s with
      | String c s' => if decide (c = plus_sign) then parse_nat s' else parse_nat s
      | EmptyString => None
      end;
  if Z.of_N n <=? max then Some (Z.of_N n) else None.
Definition parse_signed (max : Z) (s : string) : option Z :=
  match s with
  | String c s' =>
      if decide (c = minus_sign) then
        n ← parse_nat s'; if Z.of_N n <=? max + 1 then Some (- Z.of_N n) else None
      else parse_unsigned max s
  | EmptyString => None
  end.
Definition parse_u32 : string → option Z := parse_unsigned (2 ^ 32 - 1).
Definition parse_i64 : string → option Z := parse_signed (2 ^ 63 - 1).

(** Printing and parsing of uuids and of JSON are the libraries'. *)
Record Codec := {
  print_uuid : Uuid → string; parse_uuid : string → option Uuid;
  print_plan : BillingPlan → string; parse_plan : string → option BillingPlan;
  print_offers : list SaveOffer → string; parse_offers : string → option (list SaveOffer);
  (** [DateTime::from_timestamp] *)
  from_timestamp : Z → option DateTime
}.

Definition insert_some (k : string) (v : option string) (m : gmap string string) : gmap string string :=
  match v with Some x => <[k := x]> m | None => m end.

Section Metadata.
Context (codec : Codec).

Definition to_stripe (m : StripeSubscriptionMetadata) : gmap string string :=
  insert_some "scanopy_cancel_save_offer_redeemed" (save_offer_id <$> cancel_save_offer_redeemed m)
  (insert_some "scanopy_cancel_save_offer_shown" (print_offers codec <$> cancel_save_offer_shown m)
  (insert_some "scanopy_cancel_reason" (cancel_reason_id <$> cancel_reason m)
  (insert_some "scanopy_trial_extended_days" (pretty <$> trial_extended_days m)
  (insert_some "scanopy_paused_at" (pretty <$> paused_at m)
  (insert_some "scanopy_pause_duration_days" (pretty <$> pause_duration_days m)
  (insert_some "plan" (print_plan codec <$> m_plan m)
  (insert_some "organization_id" (print_uuid codec <$> m_organization_id m) ∅))))))).

Definition from_stripe (m : gmap string string) : StripeSubscriptionMetadata := {|
  m_organization_id := m !! "organization_id" ≫= parse_uuid codec;
  m_plan := m !! "plan" ≫= parse_plan codec;
  pause_duration_days := m !! "scanopy_pause_duration_days" ≫= parse_u32;
  paused_at := m !! "scanopy_paused_at" ≫= parse_i64;
  trial_extended_days := m !! "scanopy_trial_extended_days" ≫= parse_u32;
  cancel_reason := m !! "scanopy_cancel_reason" ≫= parse_simple_enum cancel_reason_id all_reasons;
  cancel_save_offer_shown := m !! "scanopy_cancel_save_offer_shown" ≫= parse_offers codec;
  cancel_save_offer_redeemed :=
    m !! "scanopy_cancel_save_offer_redeemed" ≫= parse_simple_enum save_offer_id all_offers |}.

Definition contains_scanopy_keys (m : StripeSubscriptionMetadata) : bool :=
  bool_decide (is_Some (pause_duration_days m)) || bool_decide (is_Some (paused_at m))
  || bool_decide (is_Some (trial_extended_days m)) || bool_decide (is_Some (cancel_reason m))
  || bool_decide (is_Some (cancel_save_offer_shown m))
  || bool_decide (is_Some (cancel_save_offer_redeemed m)).

Definition next_renewal_from_subscription (s : Subscription) : option DateTime :=
  match items s with [] => None | i :: _ => from_timestamp codec (current_period_end i) end.
End Metadata.

(** ** Credit for a pause *)

Record PauseCredit := { credit_cents : Z; actual_paused_secs : Z }.

(** The price of a period after the save-offer discount, in [f64]. *)
Definition discounted_price (gross percent_off : Z) : Z :=
  as_i64 (fround f64 (fmul f64 (of_int f64 gross)
    (fsub f64 (of_int f64 1) (fdiv f64 (of_int f64 percent_off) (of_int f64 100))))).

Definition effective_price (now : DateTime) (o : Organization) (gross : Z) : Z :=
  match discount_percent_off (o_base o), discount_active_until (o_base o) with
  | Some percent_off, Some active_until =>
      if now <? active_until then discounted_price gross percent_off else gross
  | _, _ => gross
  end.

Definition compute_pause_credit (codec : Codec) (now : DateTime) (s : Subscription) (o : Organization)
    : option PauseCredit :=
  let meta := from_stripe codec (metadata s) in
  paused_at_ts ← paused_at meta;
  item ← head (items s);
  let raw_elapsed := Z.max (now / 1000 - paused_at_ts) 0 in
  let cap_secs := match pause_duration_days meta with Some d => d * 86400 | None => raw_elapsed end in
  let actual := Z.min raw_elapsed cap_secs in
  let period_secs := current_period_end item - current_period_start item in
  if period_secs <=? 0 then None
  else
    let effective := effective_price now o (default 0 (unit_amount item)) in
    let credit := (effective * actual) `quot` period_secs in
    let credit := if (- 2 ^ 63 <=? credit) && (credit <? 2 ^ 63) then credit else 0 in
    if 0 <? credit then Some {| credit_cents := credit; actual_paused_secs := actual |} else None.

(** ** Webhooks *)

Record BillingState := {
  orgs : gmap Uuid Organization;
  published : list (Uuid * BillingOperation);
  cancelled_subs : list string;
  credits : list (string * Z)
}.

Inductive BillingError := NoOrganizationId | NoPlan | BadPlan | BadOrganizationId | ProviderError.

Abbreviation BM := (SM BillingState BillingError).

(** What a handler gets from outside: the clock, the owners of an organization,
    and the provider's answers. *)
Record WebhookEnv := {
  now : DateTime;
  has_owner : Uuid → bool;
  subscriptions_of : string → option (list Subscription);
  cancel_ok : string → bool;
  credit_ok : bool;
  has_payment_methods : string → option bool
}.

Section Webhooks.
Context (codec : Codec) (env : WebhookEnv).

Definition publish (id : Uuid) (op : BillingOperation) : BM unit :=
  put (λ st, {| orgs := handle_billing (now env) id op (orgs st);
                published := published st ++ [(id, op)];
                cancelled_subs := cancelled_subs st; credits := credits st |}).

Definition publish_onboarding (id : Uuid) (s : OnboardingStep) : BM unit :=
  put (λ st, {| orgs := handle_onboarding id s (orgs st); published := published st;
                cancelled_subs := cancelled_subs st; credits := credits st |}).

Definition when {A} (b : bool) (m : BM A) : BM unit := if b then m ;; mret tt else mret tt.

Definition orfail {A} (e : BillingError) (o : option A) : BM A :=
  match o with Some a => mret a | None => throw e end.

Definition timestamp_or_now (t : option Z) : DateTime := default (now env) (t ≫= from_timestamp codec).

Definition live_status (s : SubscriptionStatus) : bool :=
  match s with SubActive | SubTrialing => true | _ => false end.

(** A scheduled cancellation. *)
Definition cancellation_scheduled (id : Uuid) (prior_status : option PlanStatus)
    (meta : StripeSubscriptionMetadata) (s : Subscription) (period_end_ts : Z) : BM unit :=
  let '(feedback, comment, reason) := extract_cancellation_details (cancellation_details s) in
  let has_user_feedback := bool_decide (is_Some feedback) || bool_decide (is_Some comment) in
  if negb (same prior_status (Some PendingCancellation)) then
    when (has_owner env id) (
      publish id (CancellationInitiated (cancel_reason meta) feedback reason comment
        (default [] (cancel_save_offer_shown meta)) (cancel_save_offer_redeemed meta)
        (timestamp_or_now (Some period_end_ts))) ;;
      when has_user_feedback (publish id (CancellationFeedbackProvided feedback reason comment)))
  else when (has_user_feedback && has_owner env id)
         (publish id (CancellationFeedbackProvided feedback reason comment)).

(** Checkout, trial start and trial end. *)
Definition lifecycle_events (id : Uuid) (prior_status : option PlanStatus) (prior_was_free : bool)
    (p : BillingPlan) (s : Subscription) : BM unit :=
  let is_trialing := same (status s) SubTrialing in
  when (bool_decide (prior_status = None) || prior_was_free) (
    publish id (CheckoutCompleted p (included_networks (config p)) (included_seats (config p))
      (mrr_from_subscription s) is_trialing (next_renewal_from_subscription codec s)) ;;
    when is_trialing (publish id (TrialStarted p (timestamp_or_now (trial_end s)) (trial_days (config p))))) ;;
  when (same prior_status (Some Trialing) && same (status s) SubActive)
    (publish id (TrialEnded p true (next_renewal_from_subscription codec s))).

(** Other live subscriptions of the customer are cancelled. *)
Definition cancel_duplicates (o : Organization) (s : Subscription) : BM unit :=
  match stripe_customer_id (o_base o) with
  | None => mret tt
  | Some customer =>
      all ← orfail ProviderError (subscriptions_of env customer);
      for_each (λ old _,
        if cancel_ok env (sub_id old)
        then put (λ st, {| orgs := orgs st; published := published st;
                           cancelled_subs := cancelled_subs st ++ [sub_id old]; credits := credits st |})
        else throw ProviderError)
        (List.filter (λ x, negb (String.eqb (sub_id x) (sub_id s)) && live_status (status x)) all) tt
  end.

(** A failure of the credit is logged. *)
Definition apply_pause_credit_if_due (s : Subscription) (o : Organization) : BM unit :=
  match compute_pause_credit codec (now env) s o, stripe_customer_id (o_base o) with
  | Some c, Some customer =>
      when (credit_ok env)
        (put (λ st, {| orgs := orgs st; published := published st; cancelled_subs := cancelled_subs st;
                       credits := credits st ++ [(customer, credit_cents c)] |}))
  | _, _ => mret tt
  end.

(** Transitions of the subscription against the row as it was read. *)
Definition transition_events (o : Organization) (p : BillingPlan) (meta : StripeSubscriptionMetadata)
    (s : Subscription) : BM unit :=
  let id := o_id o in
  let prior_status := plan_status (o_base o) in
  let owner := has_owner env id in
  match pause_collection s with
  | Some resumes_at =>
      when (negb (same prior_status (Some Paused)) && owner)
        (publish id (SubPaused p (default 0 (pause_duration_days meta)) (timestamp_or_now resumes_at)))
  | None =>
      when (same prior_status (Some Paused) && owner)
        (apply_pause_credit_if_due s o ;; publish id (Resumed false))
  end ;;
  match trial_extended_days meta with
  | Some days =>
      when (negb (trial_extended_used (o_base o)) && owner)
        (publish id (TrialExtended days (timestamp_or_now (trial_end s))))
  | None => mret tt
  end ;;
  when (same prior_status (Some PendingCancellation) && bool_decide (cancel_at s = None) && owner)
    (publish id (Reactivated (same (status s) SubTrialing) (next_renewal_from_subscription codec s))).

Definition handle_subscription_update (s : Subscription) : BM unit :=
  org_id ← orfail NoOrganizationId (metadata s !! "organization_id");
  plan_str ← orfail NoPlan (metadata s !! "plan");
  p ← orfail BadPlan (parse_plan codec plan_str);
  id ← orfail BadOrganizationId (parse_uuid codec org_id);
  st ← get;
  match orgs st !! id with
  | None => mret tt
  | Some o =>
      let prior_plan := default get_free_plan (plan (o_base o)) in
      let prior_status := plan_status (o_base o) in
      let meta := from_stripe codec (metadata s) in
      match cancel_at s with
      | Some t => cancellation_scheduled id prior_status meta s t
      | None =>
          when (has_owner env id && (is_free prior_plan || bool_decide (prior_status = None))
                && not_onboarded o PlanSelected) (publish_onboarding id PlanSelected) ;;
          when (has_owner env id) (lifecycle_events id prior_status (is_free prior_plan) p s) ;;
          cancel_duplicates o s ;;
          when (bool_decide (is_Some prior_status) && negb (String.eqb (plan_name prior_plan) (plan_name p))
                && has_owner env id)
            (publish id (PlanChanged prior_plan p (is_free p) (next_renewal_from_subscription codec s))) ;;
          transition_events o p meta s
      end
  end.

Definition handle_trial_will_end (s : Subscription) : BM unit :=
  if bool_decide (is_Some (cancel_at s)) then mret tt
  else
    let meta := from_stripe codec (metadata s) in
    id ← orfail NoOrganizationId (m_organization_id meta);
    p ← orfail NoPlan (m_plan meta);
    st ← get;
    match orgs st !! id with
    | None => mret tt
    | Some o => when (has_owner env id) (publish id (TrialWillEnd p (has_payment_method (o_base o))))
    end.

(** The organization of a customer; ids are unique. *)
Definition org_of_customer (customer : string) (st : BillingState) : option Organization :=
  snd <$> head (List.filter (λ kv, same (stripe_customer_id (o_base kv.2)) (Some customer))
                  (map_to_list (orgs st))).

Definition handle_payment_method_attached (customer : string) : BM unit :=
  st ← get;
  match org_of_customer customer st with
  | None => mret tt
  | Some o => publish (o_id o) PaymentMethodAdded
  end.

Definition handle_payment_method_detached (customer : string) : BM unit :=
  st ← get;
  match org_of_customer customer st with
  | None => mret tt
  | Some o =>
      remaining ← orfail ProviderError (has_payment_methods env customer);
      if (remaining : bool) then mret tt else publish (o_id o) PaymentMethodRemoved
  end.

(** The deletion of a subscription, with the side effects the handler spawns. *)
Definition handle_subscription_deleted (s : Subscription) : BM unit :=
  org_id ← orfail NoOrganizationId (metadata s !! "organization_id");
  id ← orfail BadOrganizationId (parse_uuid codec org_id);
  if bool_decide (is_Some (pause_collection s)) then mret tt
  else
    st ← get;
    match orgs st !! id with
    | None => mret tt
    | Some o =>
        let '(feedback, comment, reason) := extract_cancellation_details (cancellation_details s) in
        let tenure_days := Z.max ((now env - o_created_at o) `quot` 86400000) 0 in
        let cancelled := when (has_owner env id)
          (publish id (SubscriptionCancelled (default get_free_plan (plan (o_base o))) None feedback reason
             None comment
             (timestamp_or_now (Some (match ended_at s, canceled_at s, cancel_at s with
                | Some t, _, _ | None, Some t, _ | None, None, Some t => t
                | None, None, None => now env / 1000 end)))
             (same (plan_status (o_base o)) (Some Trialing)) (mrr_from_subscription s) tenure_days)) in
        match stripe_customer_id (o_base o) with
        | None => cancelled
        | Some customer =>
            match subscriptions_of env customer with
            | None => mret tt
            | Some all =>
                if existsb (λ x, negb (String.eqb (sub_id x) (sub_id s)) && live_status (status x)) all
                then mret tt else cancelled
            end
        end
    end.

(** ** Invoices *)

Record Invoice := { invoice_id : string; invoice_customer : option string; amount_due : Z;
                    amount_paid : Z; attempt_count : Z; hosted_url : option string }.

Definition org_of_invoice (i : Invoice) (st : BillingState) : option Organization :=
  c ← invoice_customer i; org_of_customer c st.

(** Dunning is for organizations that pay. *)
Definition billable (o : Organization) : bool :=
  match plan (o_base o) with Some p => negb (is_free p) | None => false end
  && has_payment_method (o_base o).

Definition handle_invoice_payment_failed (i : Invoice) : BM unit :=
  st ← get;
  match org_of_invoice i st with
  | None => mret tt
  | Some o => when (billable o)
      (publish (o_id o) (PaymentFailed (invoice_id i) (amount_due i)
         (default get_free_plan (plan (o_base o))) (attempt_count i)))
  end.

Definition handle_invoice_payment_action_required (i : Invoice) : BM unit :=
  st ← get;
  match org_of_invoice i st with
  | None => mret tt
  | Some o => when (billable o) (publish (o_id o) (PaymentActionRequired (invoice_id i) (hosted_url i)))
  end.

Definition handle_invoice_paid (i : Invoice) : BM unit :=
  st ← get;
  match org_of_invoice i st with
  | None => mret tt
  | Some o =>
      when (same (plan_status (o_base o)) (Some PastDue))
        (publish (o_id o) (PaymentRecovered (invoice_id i) (amount_paid i)
           (default get_free_plan (plan (o_base o))) (attempt_count i) None)) ;;
      publish (o_id o) (PaymentSucceeded (invoice_id i))
  end.

Inductive WebhookEvent :=
| SubscriptionCreatedOrUpdated (s : Subscription)
| SubscriptionTrialWillEnd (s : Subscription)
| SubscriptionPausedOrDeleted (s : Subscription)
| MethodAttached (customer : option string)
| MethodDetached (previous_customer : option string)
| InvoiceFailed (i : Invoice)
| InvoiceActionRequired (i : Invoice)
| InvoicePaid (i : Invoice)
| Unhandled.

Definition handle_webhook (e : WebhookEvent) : BM unit :=
  match e with
  | SubscriptionCreatedOrUpdated s => handle_subscription_update s
  | SubscriptionTrialWillEnd s => handle_trial_will_end s
  | SubscriptionPausedOrDeleted s => handle_subscription_deleted s
  | MethodAttached (Some c) => handle_payment_method_attached c
  | MethodDetached (Some c) => handle_payment_method_detached c
  | MethodAttached None | MethodDetached None | Unhandled => mret tt
  | InvoiceFailed i => handle_invoice_payment_failed i
  | InvoiceActionRequired i => handle_invoice_payment_action_required i
  | InvoicePaid i => handle_invoice_paid i
  end.
End Webhooks.

(** ** Requests of the user *)

Inductive GateError :=
| NoCustomer | ListFailed | NoSubscription | PauseCooldown (until : DateTime)
| MustBeActive | NotPaused | AlreadyExtended | OnlyDuringTrial | NoTrialEnd
| NotCancellable | AlreadyPending | NotPending | DiscountUsed | PriceNotFound | NoItems.

(** What the endpoint asks of the provider, on which subscription. *)
Inductive ProviderRequest :=
| PauseCollection (resumes_at : Z) (m : StripeSubscriptionMetadata)
| ClearPause
| ExtendTrial (trial_end : Z) (m : StripeSubscriptionMetadata)
| CancelAtPeriodEnd (feedback comment : option string) (m : StripeSubscriptionMetadata)
| ClearCancellation
| ApplyCoupon
| ChangePrice (item_price price : string) (p : BillingPlan) (prorate : bool).

Section Requests.
Context (codec : Codec) (env : WebhookEnv) (prices : string → option string).
Local Open Scope rust_scope.

Definition current_status (s : SubscriptionStatus) : bool :=
  match s with SubActive | SubTrialing | SubPausedState | SubPastDue => true | SubOther _ => false end.

Definition subscription_with (accepts : SubscriptionStatus → bool) (o : Organization)
    : result Subscription GateError :=
  match stripe_customer_id (o_base o) with
  | None => Err NoCustomer
  | Some customer =>
      match subscriptions_of env customer with
      | None => Err ListFailed
      | Some l => match List.find (λ s, accepts (status s)) l with
                  | Some s => Ok s
                  | None => Err NoSubscription
                  end
      end
  end.
Definition find_current_subscription : Organization → result Subscription GateError :=
  subscription_with current_status.

Definition days_ms (d : Z) : Z := d * 86400000.

Definition pause_subscription (duration_days : Z) (o : Organization)
    : result (string * ProviderRequest) GateError :=
  let cooldown := match last_paused_at (o_base o) with
                  | Some last => if now env <? last + days_ms 180 then Some (last + days_ms 180) else None
                  | None => None
                  end in
  match cooldown with
  | Some t => Err (PauseCooldown t)
  | None =>
      if negb (same (plan_status (o_base o)) (Some Active)) then Err MustBeActive
      else let? s := find_current_subscription o in
           Ok (sub_id s, PauseCollection ((now env + days_ms duration_days) / 1000)
                {| m_organization_id := None; m_plan := None; pause_duration_days := Some duration_days;
                   paused_at := Some (now env / 1000); trial_extended_days := None;
                   cancel_reason := None; cancel_save_offer_shown := None;
                   cancel_save_offer_redeemed := None |})
  end.

Definition resume_subscription (o : Organization) : result (string * ProviderRequest) GateError :=
  let? s := find_current_subscription o in
  if bool_decide (pause_collection s = None) then Err NotPaused else Ok (sub_id s, ClearPause).

Definition extend_trial (o : Organization) : result (string * ProviderRequest) GateError :=
  if trial_extended_used (o_base o) then Err AlreadyExtended
  else if negb (same (plan_status (o_base o)) (Some Trialing)) then Err OnlyDuringTrial
  else match trial_end_date (o_base o) with
       | None => Err NoTrialEnd
       | Some t =>
           let? s := find_current_subscription o in
           Ok (sub_id s, ExtendTrial ((t + days_ms 7) / 1000)
                {| m_organization_id := None; m_plan := None; pause_duration_days := None;
                   paused_at := None; trial_extended_days := Some 7; cancel_reason := None;
                   cancel_save_offer_shown := None; cancel_save_offer_redeemed := None |})
       end.

Definition cancel_subscription (reason : CancelReason) (comment : option string) (shown : list SaveOffer)
    (redeemed : option SaveOffer) (o : Organization) : result (string * ProviderRequest) GateError :=
  let? s := find_current_subscription o in
  if negb (live_status (status s)) then Err NotCancellable
  else if cancel_at_period_end s then Err AlreadyPending
  else Ok (sub_id s, CancelAtPeriodEnd (Some (cancel_reason_id reason)) comment
        {| m_organization_id := None; m_plan := None; pause_duration_days := None; paused_at := None;
           trial_extended_days := None; cancel_reason := Some reason;
           cancel_save_offer_shown := Some shown; cancel_save_offer_redeemed := redeemed |}).

Definition reactivate_subscription (o : Organization) : result (string * ProviderRequest) GateError :=
  let? s := find_current_subscription o in
  if bool_decide (cancel_at s = None) then Err NotPending else Ok (sub_id s, ClearCancellation).

(** Where the coupon of the offer is configured ([STRIPE_SAVE_OFFER_COUPON_ID]); without it the
    call fails before anything is read. *)
Definition apply_discount_save_offer (o : Organization) : result (string * ProviderRequest) GateError :=
  if bool_decide (is_Some (last_discount_at (o_base o))) then Err DiscountUsed
  else match plan_status (o_base o) with
       | Some Active | Some Trialing => let? s := find_current_subscription o in Ok (sub_id s, ApplyCoupon)
       | _ => Err MustBeActive
       end.

Definition change_plan (target : BillingPlan) (o : Organization)
    : result (string * ProviderRequest) GateError :=
  match stripe_customer_id (o_base o) with
  | None => Err NoCustomer
  | Some _ =>
      match prices (stripe_base_price_lookup_key target) with
      | None => Err PriceNotFound
      | Some price =>
          let? s := subscription_with live_status o in
          match items s with
          | [] => Err NoItems
          | i :: _ => Ok (sub_id s, ChangePrice (item_price_id i) price target
                            (negb (same (status s) SubTrialing)))
          end
      end
  end.

Definition schedule_downgrade (o : Organization) : result (string * ProviderRequest) GateError :=
  let? s := subscription_with live_status o in
  Ok (sub_id s, CancelAtPeriodEnd None None default_metadata).

Definition has_active_paid_subscription (o : option Organization) : bool :=
  match o with
  | None => false
  | Some o =>
      let p := default get_free_plan (plan (o_base o)) in
      if is_free p || is_self_hosted p then false
      else match plan_status (o_base o) with
           | Some Active | Some Trialing | Some PastDue => true
           | _ => false
           end
  end.
End Requests.

(** ** Limits *)

Definition excess (limit : option Z) (count : Z) : Z :=
  match limit with Some l => Z.max (count - l) 0 | None => 0 end.

Record ChangePlanPreview := { excess_hosts : Z; excess_networks : Z; excess_seats : Z }.
Definition preview_plan_change (hosts networks seats : Z) (target : BillingPlan) : ChangePlanPreview := {|
  excess_hosts := excess (included_hosts (config target)) hosts;
  excess_networks := excess (included_networks (config target)) networks;
  excess_seats := excess (included_seats (config target)) seats |}.

(** One limit of [check_plan_limits]: the new level, and the mail to send ([true]
    when the limit is reached). *)
Definition threshold_80 (limit : Z) : Z := as_u64 (fmul f64 (of_int f64 limit) (literal f64 8 10)).

Definition check_limit (limit : option Z) (count : Z) (level : LimitNotificationLevel)
    : LimitNotificationLevel * option bool :=
  match limit with
  | Some l =>
      if 1 <? l then
        if l <=? count then (Reached, if decide (level = Reached) then None else Some true)
        else if threshold_80 l <=? count
        then (Approaching, if decide (level = Approaching) then None else Some false)
        else (LevelNone, None)
      else (level, None)
  | None => (level, None)
  end.

(** The mails go to the owner [owner], unless the check follows a deletion. *)
Definition check_plan_limits (suppress_emails : bool) (owner : option string) (hosts networks seats : Z)
    (b : OrganizationBase) : OrganizationBase * list (LimitType * bool) :=
  let p := default get_free_plan (plan b) in
  let n := notifications b in
  let h := check_limit (host_limit p) hosts (n_hosts n) in
  let w := check_limit (network_limit p) networks (n_networks n) in
  let s := check_limit (seat_limit p) seats (n_seats n) in
  let mail t (m : option bool) := match m with Some r => [(t, r)] | None => [] end in
  (set_notifications {| n_hosts := h.1; n_networks := w.1; n_seats := s.1 |} b,
   match suppress_emails, owner with
   | false, Some _ => mail LimitHosts h.2 ++ mail LimitNetworks w.2 ++ mail LimitSeats s.2
   | _, _ => []
   end).
