(* ===== verification/BillingData.v ===== *)
(** The values billing exchanges.

    Theorems on the data of [Billing]: the metadata a request writes are the ones
    the webhook reads back, the credit for a pause is the unused share of the
    period, and the notifications of plan limits. *)

From stdpp Require Import pretty.
From S2P Require Import Prelude Effects RustFloat Plans Billing.
Local Open Scope Z_scope.

(** ** Integers in metadata *)

Lemma digit_value_char d : (d < 10)%N → digit_value (pretty_N_char d) = Some d.
Proof.
  intros H. assert (d = 0 ∨ d = 1 ∨ d = 2 ∨ d = 3 ∨ d = 4 ∨ d = 5 ∨ d = 6 ∨ d = 7 ∨ d = 8 ∨ d = 9)%N as Hd by lia.
  by repeat destruct Hd as [->|Hd]; try subst d.
Qed.

(** The digits of [x] push [x] on the accumulator. *)
Lemma parse_pretty_go x s : parse_digits 0 (pretty_N_go x s) = parse_digits x s.
Proof.
  revert s. induction (N.lt_wf_0 x) as [x _ IH]. intros s.
  destruct (decide (0 < x)%N) as [Hx|]; [|by assert (x = 0)%N as -> by lia].
  rewrite pretty_N_go_step by done. rewrite IH by (apply N.div_lt; lia).
  simpl. rewrite digit_value_char by (apply N.mod_lt; lia). simpl. f_equal.
  pose proof (N.div_mod x 10). lia.
Qed.

Lemma parse_digits_sign c s : digit_value c = None → parse_digits 0 (String c s) = None.
Proof. simpl. by intros ->. Qed.

(** A printed natural number starts with a digit. *)
Lemma pretty_N_head (x : N) : ∃ c s d, pretty x = String c s ∧ digit_value c = Some d.
Proof.
  unfold pretty, pretty_N. destruct (decide (x = 0%N)) as [->|Hx]; [by do 3 eexists|].
  assert (parse_digits 0 (pretty_N_go x "") = Some x) as H by (by rewrite parse_pretty_go).
  destruct (pretty_N_go x "") as [|c s]; [by injection H as ?|].
  destruct (digit_value c) as [d|] eqn:Hc; [by eauto|]. by rewrite parse_digits_sign in H.
Qed.

Lemma parse_nat_pretty (x : N) : parse_nat (pretty x) = Some x.
Proof.
  destruct (pretty_N_head x) as (c & s & d & Hs & _). rewrite Hs. change (parse_nat (String c s)) with (parse_digits 0 (String c s)).
  rewrite <- Hs. unfold pretty, pretty_N. destruct (decide (x = 0%N)) as [->|Hx]; [done|].
  by rewrite parse_pretty_go.
Qed.

Lemma parse_unsigned_pretty max (x : N) : Z.of_N x <= max → parse_unsigned max (pretty x) = Some (Z.of_N x).
Proof.
  intros Hmax. destruct (pretty_N_head x) as (c & s & d & Hs & Hd). unfold parse_unsigned. rewrite Hs.
  destruct (decide (c = plus_sign)) as [->|]; [done|]. rewrite <- Hs, parse_nat_pretty. simpl.
  by rewrite (proj2 (Z.leb_le _ _) Hmax).
Qed.

Lemma pretty_Z_of_N x : pretty (Z.of_N x) = pretty x.
Proof. by destruct x. Qed.

Lemma parse_u32_pretty z : 0 <= z < 2 ^ 32 → parse_u32 (pretty z) = Some z.
Proof.
  intros Hz. rewrite <- (Z2N.id z) by lia. rewrite pretty_Z_of_N. unfold parse_u32.
  apply parse_unsigned_pretty. lia.
Qed.

Lemma parse_i64_pretty z : - 2 ^ 63 <= z < 2 ^ 63 → parse_i64 (pretty z) = Some z.
Proof.
  intros Hz. unfold parse_i64, parse_signed. destruct (decide (0 <= z)).
  - rewrite <- (Z2N.id z) by lia. rewrite pretty_Z_of_N.
    destruct (pretty_N_head (Z.to_N z)) as (c & s & d & Hs & Hd). rewrite Hs.
    destruct (decide (c = minus_sign)) as [->|]; [done|]. rewrite <- Hs. apply parse_unsigned_pretty. lia.
  - destruct z as [|z|z]; try lia. change (pretty (Z.neg z)) with (String minus_sign (pretty (N.pos z))).
    cbn [decide]. rewrite decide_True by done. rewrite parse_nat_pretty. cbn [mbind option_bind].
    by rewrite (proj2 (Z.leb_le _ _)) by lia.
Qed.

(** ** The metadata *)

Lemma parse_reason r : parse_simple_enum cancel_reason_id all_reasons (cancel_reason_id r) = Some r.
Proof. by destruct r. Qed.
Lemma parse_offer r : parse_simple_enum save_offer_id all_offers (save_offer_id r) = Some r.
Proof. by destruct r. Qed.

Lemma lookup_insert_some k v m : m !! k = None → insert_some k v m !! k = v.
Proof. intros H. destruct v; [apply lookup_insert_eq|exact H]. Qed.
Lemma lookup_insert_some_ne k k' v m : k ≠ k' → insert_some k v m !! k' = m !! k'.
Proof. intros H. destruct v; [by apply lookup_insert_ne|done]. Qed.

Lemma bind_fmap_parse {A B} (print : A → B) (parse : B → option A) (v : option A) :
  (∀ a, v = Some a → parse (print a) = Some a) → (print <$> v) ≫= parse = v.
Proof. destruct v; simpl; auto. Qed.

(** C30. The metadata that a request stores with the provider are the ones that the
    webhooks read back: every field survives, none is invented, for every value
    the types can hold, given that the libraries parse the uuid and the JSON they
    printed. *)
Theorem metadata_roundtrip codec m :
  (∀ u, m_organization_id m = Some u → parse_uuid codec (print_uuid codec u) = Some u) →
  (∀ p, m_plan m = Some p → parse_plan codec (print_plan codec p) = Some p) →
  (∀ l, cancel_save_offer_shown m = Some l → parse_offers codec (print_offers codec l) = Some l) →
  (∀ d, pause_duration_days m = Some d → 0 <= d < 2 ^ 32) →
  (∀ d, trial_extended_days m = Some d → 0 <= d < 2 ^ 32) →
  (∀ t, paused_at m = Some t → - 2 ^ 63 <= t < 2 ^ 63) →
  from_stripe codec (to_stripe codec m) = m.
Proof.
  intros Hu Hpl Ho Hp Ht Ha. destruct m. unfold from_stripe, to_stripe. cbn in *. f_equal.
  all: repeat (rewrite lookup_insert_some_ne by done); rewrite lookup_insert_some by
    (repeat (rewrite lookup_insert_some_ne by done); apply lookup_empty).
  all: apply bind_fmap_parse; eauto using parse_reason, parse_offer, parse_u32_pretty, parse_i64_pretty.
Qed.

(** A codec to run examples with. *)
Definition sample_codec (p : BillingPlan) : Codec := {|
  print_uuid := pretty; parse_uuid := parse_nat;
  print_plan := λ _, "{}"%string; parse_plan := λ _, Some p;
  print_offers := λ _, "[]"%string; parse_offers := λ _, Some [OfferPause; OfferDiscount];
  from_timestamp := λ t, Some (1000 * t) |}.

Definition sample_metadata : StripeSubscriptionMetadata := {|
  m_organization_id := Some 7%N; m_plan := Some get_free_plan; pause_duration_days := Some 30;
  paused_at := Some (-86400); trial_extended_days := Some 7; cancel_reason := Some TooExpensive;
  cancel_save_offer_shown := Some [OfferPause; OfferDiscount];
  cancel_save_offer_redeemed := Some OfferDiscount |}.

Lemma metadata_roundtrip_witness :
  to_stripe (sample_codec get_free_plan) sample_metadata !! "scanopy_paused_at" = Some "-86400"%string
  ∧ from_stripe (sample_codec get_free_plan) (to_stripe (sample_codec get_free_plan) sample_metadata)
    = sample_metadata.
Proof.
  split; [vm_compute; reflexivity|].
  apply (metadata_roundtrip (sample_codec get_free_plan) sample_metadata); cbn; intros ? [= <-];
    try reflexivity; lia.
Defined.

(** ** Credit for a pause *)

Lemma parse_u32_nonneg s d : parse_u32 s = Some d → 0 <= d.
Proof.
  unfold parse_u32, parse_unsigned. intros (n & _ & H)%bind_Some. destruct (_ <=? _); simplify_eq. lia.
Qed.

Lemma quot_bounds a b : 0 < b → 0 < a `quot` b → (a `quot` b) * b <= a < (a `quot` b + 1) * b.
Proof.
  intros Hb Hq. assert (0 <= a).
  { destruct (decide (0 <= a)); [done|]. pose proof (Z.quot_opp_l a b). pose proof (Z.quot_pos (- a) b). lia. }
  rewrite !Z.quot_div_nonneg in * by lia. pose proof (Z.div_mod a b). pose proof (Z.mod_pos_bound a b). lia.
Qed.

(** The last steps of the computation. *)
Lemma credit_bounds price secs period c :
  (if period <=? 0 then None
   else
     let credit := (price * secs) `quot` period in
     let credit := if (- 2 ^ 63 <=? credit) && (credit <? 2 ^ 63) then credit else 0 in
     if 0 <? credit then Some {| credit_cents := credit; actual_paused_secs := secs |} else None) = Some c →
  actual_paused_secs c = secs ∧ 0 < period ∧ 0 < credit_cents c < 2 ^ 63 ∧ secs ≠ 0
  ∧ credit_cents c * period <= price * secs < (credit_cents c + 1) * period
  ∧ (0 <= secs <= period → credit_cents c <= price).
Proof.
  cbv zeta. destruct (Z.leb_spec period 0); [done|].
  destruct ((_ <=? _) && (_ <? _)) eqn:Hr; [|done].
  destruct (Z.ltb_spec 0 ((price * secs) `quot` period)) as [Hq|]; intros [= <-].
  simpl. apply andb_true_iff in Hr as [Hr1%Z.leb_le Hr2%Z.ltb_lt].
  pose proof (quot_bounds _ _ H Hq) as Hb.
  assert (secs ≠ 0) by (intros E; rewrite E, Z.mul_0_r in Hq; by rewrite Z.quot_0_l in Hq by lia).
  split_and!; try lia. intros Hp. nia.
Qed.

(** C31. The credit granted for a pause is the share of the price of the period that
    the paused time is, rounded down: the time counts from the recorded start of
    the pause, never exceeds what was asked for, and a pause within one period is
    never credited with more than the price. *)
Theorem pause_credit_share codec now s o c :
  compute_pause_credit codec now s o = Some c →
  ∃ item start, head (items s) = Some item ∧ paused_at (from_stripe codec (metadata s)) = Some start
  ∧ let period := current_period_end item - current_period_start item in
    let price := effective_price now o (default 0 (unit_amount item)) in
    0 < period ∧ 0 < credit_cents c < 2 ^ 63
    ∧ 0 < actual_paused_secs c <= now / 1000 - start
    ∧ (∀ d, pause_duration_days (from_stripe codec (metadata s)) = Some d → actual_paused_secs c <= d * 86400)
    ∧ credit_cents c * period <= price * actual_paused_secs c < (credit_cents c + 1) * period
    ∧ (actual_paused_secs c <= period → credit_cents c <= price).
Proof.
  unfold compute_pause_credit. intros (start & Hs & (item & Hi & H)%bind_Some)%bind_Some.
  exists item, start. split; [done|]. split; [done|]. cbv zeta in *.
  assert (∀ d, pause_duration_days (from_stripe codec (metadata s)) = Some d → 0 <= d) as Hd.
  { intros d (v & _ & Hv)%bind_Some. by eapply parse_u32_nonneg. }
  destruct (pause_duration_days (from_stripe codec (metadata s))) as [days|] eqn:Ed.
  1: specialize (Hd days eq_refl).
  all: apply credit_bounds in H as (? & ? & ? & ? & ? & Hle); split_and!; try done; try lia.
  intros d [= <-]. lia.
Qed.

(** ** Limits *)

(** The [f64] threshold is four fifths of the limit, rounded down. *)
Lemma threshold_table : all_below 10000 0 (λ n, threshold_80 n =? 4 * n / 5) = true.
Proof. vm_compute. reflexivity. Qed.

Lemma threshold_exact l : 0 <= l < 10000 → threshold_80 l = 4 * l / 5.
Proof.
  intros H. apply Z.eqb_eq. apply (all_below_spec _ _ _ _ threshold_table).
  replace (Z.of_nat 10000) with 10000 by (vm_compute; reflexivity). lia.
Qed.

(** The checks of one limit over time: the level, and the mails sent. *)
Fixpoint check_limits (limit : option Z) (counts : list Z) (level : LimitNotificationLevel)
    : LimitNotificationLevel * list bool :=
  match counts with
  | [] => (level, [])
  | c :: counts =>
      let '(level, mail) := check_limit limit c level in
      let '(level, mails) := check_limits limit counts level in
      (level, option_list mail ++ mails)
  end.

Definition level_rank (l : LimitNotificationLevel) : Z :=
  match l with LevelNone => 0 | Approaching => 1 | Reached => 2 end.

(** What is left to send at a level. *)
Definition mails_left (l : LimitNotificationLevel) : list (list bool) :=
  match l with
  | LevelNone => [[]; [false]; [true]; [false; true]]
  | Approaching => [[]; [true]]
  | Reached => [[]]
  end.

(** A count whose level is at least the recorded one moves to its own level. *)
Lemma check_limit_up l c level :
  1 < l → level_rank level <= level_rank (check_limit (Some l) c LevelNone).1 →
  check_limit (Some l) c level =
    ((check_limit (Some l) c LevelNone).1,
     if decide (level = (check_limit (Some l) c LevelNone).1) then None
     else Some (bool_decide ((check_limit (Some l) c LevelNone).1 = Reached))).
Proof.
  intros Hl. unfold check_limit. rewrite (proj2 (Z.ltb_lt _ _) Hl).
  destruct (l <=? c), (threshold_80 l <=? c), level; simpl; intros; try done; lia.
Qed.

Lemma level_monotone l c c' :
  c <= c' → level_rank (check_limit (Some l) c LevelNone).1 <= level_rank (check_limit (Some l) c' LevelNone).1.
Proof.
  intros H. unfold check_limit. destruct (1 <? l); [|simpl; lia].
  destruct (Z.leb_spec l c), (Z.leb_spec l c'), (Z.leb_spec (threshold_80 l) c), (Z.leb_spec (threshold_80 l) c');
    simpl; lia.
Qed.

(** A growing organization hears of a limit at most twice: over any sequence of
    counts that does not decrease, starting from the first one's level or below,
    at most one mail says that the limit is near, then at most one that it is
    reached. *)
Theorem growth_mails_once l counts level :
  1 < l → StronglySorted Z.le counts →
  (∀ c, head counts = Some c → level_rank level <= level_rank (check_limit (Some l) c LevelNone).1) →
  (check_limits (Some l) counts level).2 ∈ mails_left level.
Proof.
  intros Hl. revert level. induction counts as [|c counts IH]; intros level Hs Hh.
  { destruct level; simpl; set_solver. }
  apply StronglySorted_inv in Hs as [Hs Hc]. cbn [check_limits].
  rewrite check_limit_up by auto. set (lv := (check_limit (Some l) c LevelNone).1).
  assert ((check_limits (Some l) counts lv).2 ∈ mails_left lv) as H.
  { apply IH; [done|]. intros c' Hc'. destruct counts; simplify_eq/=. inversion Hc; subst.
    by apply level_monotone. }
  specialize (Hh c eq_refl). fold lv in Hh. destruct (check_limits _ _ lv) as [lv' mails]. simpl in H |- *.
  destruct level, lv; cbn in Hh, H |- *; try lia; set_solver.
Qed.

(** Checking the limits twice sends nothing the second time, also when the first
    check had nobody to write to or followed a deletion. *)
Theorem limits_settle suppress suppress' owner owner' hosts networks seats b :
  let b' := (check_plan_limits suppress owner hosts networks seats b).1 in
  check_plan_limits suppress' owner' hosts networks seats b' = (b', []).
Proof.
  assert (∀ l c v, check_limit l c (check_limit l c v).1 = ((check_limit l c v).1, None)) as H.
  { intros [l|] c v; [|done]. unfold check_limit.
    destruct (1 <? l) eqn:H1, (l <=? c) eqn:H2, (threshold_80 l <=? c) eqn:H3; simpl; try done. }
  unfold check_plan_limits. cbv zeta. cbn -[check_limit host_limit network_limit seat_limit get_free_plan].
  rewrite !H. by destruct suppress', owner'.
Qed.

Lemma growth_mails_once_witness :
  check_limits (Some 10) [3; 8; 9; 10; 12] LevelNone = (Reached, [false; true])
  ∧ (check_limits (Some 10) [3; 8; 9; 10; 12] LevelNone).2 ∈ mails_left LevelNone.
Proof.
  split; [vm_compute; reflexivity|].
  apply (growth_mails_once 10 [3; 8; 9; 10; 12] LevelNone); [lia| |].
  - repeat (constructor; [|repeat (constructor; [lia|]); constructor]). constructor.
  - intros c [= <-]. vm_compute. discriminate.
Defined.

(** ** Sample values *)

Definition sample_base (p : option BillingPlan) (s : option PlanStatus) : OrganizationBase := {|
  stripe_customer_id := Some "cus_1"%string; o_name := "Acme"; plan := p; plan_status := s; onboarding := [];
  has_payment_method := true; trial_end_date := None; last_paused_at := None;
  trial_extended_used := false; last_downgrade_at := None; last_downgrade_from_plan := None;
  last_discount_at := None; discount_percent_off := None; discount_active_until := None;
  next_renewal_at := None;
  notifications := {| n_hosts := LevelNone; n_networks := LevelNone; n_seats := LevelNone |} |}.

Definition sample_org (b : OrganizationBase) : Organization := {| o_id := 7%N; o_created_at := 0; o_base := b |}.

(** Thirty days at 15 dollars. *)
Definition sample_item : SubscriptionItem := {|
  item_price_id := "price_1"; unit_amount := Some 1500; is_yearly := false; quantity := Some 1;
  current_period_start := 0; current_period_end := 2592000 |}.

Definition sample_subscription (st : SubscriptionStatus) (pause : option (option Z)) : Subscription := {|
  sub_id := "sub_1"; status := st;
  metadata := <["organization_id" := "7"%string]> (<["plan" := "{}"%string]>
                (<["scanopy_paused_at" := "864000"%string]> (<["scanopy_pause_duration_days" := "14"%string]> ∅)));
  cancel_at := None; cancel_at_period_end := false; cancellation_details := None; items := [sample_item];
  pause_collection := pause; trial_end := None; ended_at := None; canceled_at := None |}.

Definition sample_env : WebhookEnv := {|
  now := 2592000000; has_owner := λ _, true; subscriptions_of := λ _, Some []; cancel_ok := λ _, true;
  credit_ok := true; has_payment_methods := λ _, Some true |}.

Definition sample_state (o : Organization) : BillingState := {|
  orgs := {[7%N := o]}; published := []; cancelled_subs := []; credits := [] |}.

(** Paused for twenty of the thirty days, of which fourteen were asked for. *)
Lemma pause_credit_share_witness :
  let s := sample_subscription SubActive None in
  let o := sample_org (sample_base (Some get_free_plan) (Some Active)) in
  compute_pause_credit (sample_codec get_free_plan) 2592000000 s o
    = Some {| credit_cents := 700; actual_paused_secs := 1209600 |}
  ∧ ∃ item start, head (items s) = Some item
    ∧ paused_at (from_stripe (sample_codec get_free_plan) (metadata s)) = Some start
    ∧ let period := current_period_end item - current_period_start item in
      let price := effective_price 2592000000 o (default 0 (unit_amount item)) in
      0 < period ∧ 0 < 700 < 2 ^ 63 ∧ 0 < 1209600 <= 2592000000 / 1000 - start
      ∧ (∀ d, pause_duration_days (from_stripe (sample_codec get_free_plan) (metadata s)) = Some d → 1209600 <= d * 86400)
      ∧ 700 * period <= price * 1209600 < (700 + 1) * period ∧ (1209600 <= period → 700 <= price).
Proof.
  intros s o. assert (compute_pause_credit (sample_codec get_free_plan) 2592000000 s o
    = Some {| credit_cents := 700; actual_paused_secs := 1209600 |}) as H by (vm_compute; reflexivity).
  split; [exact H|]. exact (pause_credit_share _ _ _ _ _ H).
Defined.
