(* ===== verification/BillingThms.v ===== *)
(** What the billing events make of an organization.

    Theorems on [Billing]: the row is a function of the event log, a webhook
    concerns one organization and settles after one delivery, perks are granted
    once, the credit for a pause is bounded; and the updates that are missed. *)

From stdpp Require Import pretty.
From S2P Require Import Prelude Effects RustFloat Plans Billing BillingData.
Local Open Scope Z_scope.

(** ** The row as a function of the log *)

Definition replay (log : list (DateTime * BillingOperation)) (b : OrganizationBase) : OrganizationBase :=
  foldl (λ b e, (apply_operation e.1 e.2 b).1) b log.

(** What one operation writes. *)
Definition plan_written (op : BillingOperation) : option BillingPlan :=
  match op with
  | CheckoutCompleted p _ _ _ _ _ | TrialStarted p _ _ | PlanChanged _ p _ _ | LicenseReconciled _ p => Some p
  | SubscriptionCancelled _ _ _ _ _ _ _ _ _ _ | TrialEnded _ false _ => Some get_free_plan
  | _ => None
  end.
Definition method_written (op : BillingOperation) : option bool :=
  match op with PaymentMethodAdded => Some true | PaymentMethodRemoved => Some false | _ => None end.
Definition is_extension (op : BillingOperation) : bool :=
  match op with TrialExtended _ _ => true | _ => false end.
Definition is_discount (op : BillingOperation) : bool :=
  match op with DiscountApplied _ _ => true | _ => false end.
Definition pause_written (e : DateTime * BillingOperation) : option DateTime :=
  match e.2 with SubPaused _ _ _ => Some e.1 | _ => None end.
Definition discount_written (e : DateTime * BillingOperation) : option DateTime :=
  match e.2 with DiscountApplied _ _ => Some e.1 | _ => None end.

(** The last value written, or the one before. *)
Definition latest {A} (old : A) (l : list A) : A := foldl (λ _ x, x) old l.

Lemma same_plan_refl p : same_plan p p = true.
Proof. destruct p; [by apply bool_decide_eq_true|done]. Qed.

Lemma same_plan_trans p q r : same_plan p q = true → same_plan q r = true → same_plan p r = true.
Proof. destruct p, q, r; simpl; try done. unfold plan_eqb. rewrite !bool_decide_eq_true. congruence. Qed.

Ltac arms := cbn -[get_free_plan same_plan]; unfold assign_plan, assign_renewal, assign;
  repeat (case_match; cbn -[get_free_plan same_plan] in *).

(** One operation, field by field. *)
Lemma apply_fields t op b :
  let b' := (apply_operation t op b).1 in
  plan_status b' = match implied_status op with Some s => Some s | None => plan_status b end
  ∧ has_payment_method b' = default (has_payment_method b) (method_written op)
  ∧ trial_extended_used b' = is_extension op || trial_extended_used b
  ∧ last_paused_at b' = match pause_written (t, op) with Some x => Some x | None => last_paused_at b end
  ∧ last_discount_at b' = match discount_written (t, op) with Some x => Some x | None => last_discount_at b end
  ∧ same_plan (plan b') (match plan_written op with Some p => Some p | None => plan b end) = true.
Proof.
  unfold apply_operation. destruct op; arms; unfold same in *;
    repeat match goal with H : bool_decide _ = true |- _ => apply bool_decide_eq_true in H end;
    split_and!; try done; try apply same_plan_refl.
Qed.

(** The row is what the log says: after any sequence of events the status is the
    last one implied, the payment method flag the last one announced, the plan
    the last one written (as far as plans can be told apart), the trial was
    extended iff it was before or an extension was announced, and the last pause
    and the last discount are those of the log. *)
Lemma row_fields log b :
  let ops := log.*2 in
  let b' := replay log b in
  plan_status b' = latest (plan_status b) (Some <$> omap implied_status ops)
  ∧ has_payment_method b' = latest (has_payment_method b) (omap method_written ops)
  ∧ trial_extended_used b' = existsb is_extension ops || trial_extended_used b
  ∧ last_paused_at b' = latest (last_paused_at b) (Some <$> omap pause_written log)
  ∧ last_discount_at b' = latest (last_discount_at b) (Some <$> omap discount_written log)
  ∧ same_plan (plan b') (latest (plan b) (Some <$> omap plan_written ops)) = true.
Proof.
  cbv zeta. revert b. induction log as [|[t op] log IH]; intros b.
  { split_and!; try done. apply same_plan_refl. }
  cbn [replay foldl fst snd fmap list_fmap]. fold (replay log (apply_operation t op b).1).
  destruct (apply_fields t op b) as (H1 & H2 & H3 & H4 & H5 & H6).
  destruct (IH (apply_operation t op b).1) as (I1 & I2 & I3 & I4 & I5 & I6).
  rewrite I1, I2, I3, I4, I5, H1, H2, H3, H4, H5. cbn [omap list_omap existsb]. split_and!.
  - by destruct (implied_status op).
  - by destruct (method_written op).
  - destruct (is_extension op), (existsb is_extension log.*2); done.
  - by destruct (pause_written (t, op)).
  - by destruct (discount_written (t, op)).
  - eapply same_plan_trans; [exact I6|]. clear -H6. destruct (plan_written op) as [p|]; cbn.
    + unfold latest. destruct (Some <$> omap plan_written log.*2); [exact H6|apply same_plan_refl].
    + unfold latest. destruct (Some <$> omap plan_written log.*2); [exact H6|apply same_plan_refl].
Qed.

(** ** Perks are granted once *)

Lemma latest_app {A} (old : A) l m : latest old (l ++ m) = latest (latest old l) m.
Proof. apply foldl_app. Qed.

Lemma latest_Some {A} (old : option A) l : l ≠ [] → is_Some (latest old (Some <$> l)).
Proof. destruct l as [|x l] using rev_ind; [done|]. intros _. rewrite fmap_app, latest_app. by eexists. Qed.

(** C29. Whatever happened since, also after a cancellation and a new subscription: an
    organization whose log has a trial extension is refused another one, one whose
    log has a discount is refused another one, and a pause within 180 days of the
    last one is refused with the date it becomes possible. *)
Theorem perks_once env log b o :
  o_base o = replay log b →
  (existsb is_extension log.*2 = true → extend_trial env o = Err AlreadyExtended)
  ∧ (existsb is_discount log.*2 = true → apply_discount_save_offer env o = Err DiscountUsed)
  ∧ ∀ l1 l2 t p d r days, log = l1 ++ (t, SubPaused p d r) :: l2 → omap pause_written l2 = [] →
      now env < t + days_ms 180 → pause_subscription env days o = Err (PauseCooldown (t + days_ms 180)).
Proof.
  intros Ho. destruct (row_fields log b) as (_ & _ & H3 & H4 & H5 & _). split_and!.
  - intros Hx. unfold extend_trial. by rewrite Ho, H3, Hx.
  - intros (op & (e & -> & He)%list_elem_of_fmap & Hd)%existsb_elem. unfold apply_discount_save_offer.
    rewrite Ho, H5, bool_decide_eq_true_2; [done|]. apply latest_Some. intros Hnil.
    assert (e.1 ∈ omap discount_written log) as Hin.
    { apply list_elem_of_omap. exists e. split; [done|]. unfold discount_written. by destruct e as [? []]. }
    rewrite Hnil in Hin. by apply elem_of_nil in Hin.
  - intros l1 l2 t p d r days -> Hl2 Hnow. unfold pause_subscription. rewrite Ho, H4.
    replace (omap pause_written (l1 ++ (t, SubPaused p d r) :: l2)) with (omap pause_written l1 ++ [t])
      by (rewrite omap_app; f_equal; symmetry; exact (f_equal (cons t) Hl2)).
    rewrite fmap_app, latest_app. cbn.
    by rewrite (proj2 (Z.ltb_lt _ _) Hnow).
Qed.

(** ** The effect of publishing *)

Lemma apply_unchanged t op b : (apply_operation t op b).2 = false → (apply_operation t op b).1 = b.
Proof. unfold apply_operation. destruct op; arms; done. Qed.

Lemma handle_billing_some t id op os o :
  os !! id = Some o →
  handle_billing t id op os = <[id := with_org (λ _, (apply_operation t op (o_base o)).1) o]> os.
Proof.
  intros H. unfold handle_billing. rewrite H. pose proof (apply_unchanged t op (o_base o)) as Hu.
  destruct (apply_operation t op (o_base o)) as [b' []]; [done|]. simpl in *. rewrite Hu by done.
  symmetry. apply insert_id. rewrite H. by destruct o.
Qed.

Lemma handle_billing_other t id op os j : j ≠ id → handle_billing t id op os !! j = os !! j.
Proof.
  intros Hj. unfold handle_billing. destruct (os !! id) as [o|]; [|done].
  destruct (apply_operation _ _ _) as [b' []]; [|done]. by apply lookup_insert_ne.
Qed.

(** Publishing a list of operations about one organization. *)
Definition publish_all (env : WebhookEnv) (id : Uuid) (ops : list BillingOperation) (st : BillingState)
    : BillingState := {|
  orgs := foldl (λ os op, handle_billing (now env) id op os) (orgs st) ops;
  published := published st ++ ((λ op, (id, op)) <$> ops);
  cancelled_subs := cancelled_subs st; credits := credits st |}.

Lemma publish_all_nil env id st : publish_all env id [] st = st.
Proof. unfold publish_all. simpl. rewrite app_nil_r. by destruct st. Qed.

Lemma publish_all_app env id l m st :
  publish_all env id (l ++ m) st = publish_all env id m (publish_all env id l st).
Proof. unfold publish_all. simpl. by rewrite foldl_app, fmap_app, app_assoc. Qed.

Lemma publish_all_row env id ops st o :
  orgs st !! id = Some o →
  orgs (publish_all env id ops st)
  = <[id := with_org (replay ((now env,.) <$> ops)) o]> (orgs st).
Proof.
  unfold publish_all. simpl. generalize (orgs st). intros os. revert os o.
  induction ops as [|op ops IH]; intros os o H; simpl.
  - symmetry. apply insert_id. rewrite H. by destruct o.
  - rewrite (handle_billing_some _ _ _ _ _ H).
    rewrite (IH _ (with_org (λ _, (apply_operation (now env) op (o_base o)).1) o)) by apply lookup_insert_eq.
    rewrite insert_insert_eq. f_equal.
Qed.

Lemma publish_run {A} env id op (k : unit → BM A) st :
  (publish env id op ≫= k) st = k tt (publish_all env id [op] st).
Proof. done. Qed.

(** ** What a computation publishes *)

(** When [m] succeeds it has published [ops] about [id], in order, and the rows are
    what the subscriber makes of them. *)
Definition emits {A} (env : WebhookEnv) (id : Uuid) (ops : list BillingOperation) (m : BM A) : Prop :=
  ∀ st, is_ok (m st).2 = true →
    published (m st).1 = published (publish_all env id ops st)
    ∧ orgs (m st).1 = orgs (publish_all env id ops st).

(** Effects on the provider alone. *)
Definition quiet (st st' : BillingState) : Prop := published st' = published st ∧ orgs st' = orgs st.
#[export] Instance quiet_preorder : PreOrder quiet.
Proof. unfold quiet. split; [by intros|]. intros x y z [? ?] [? ?]. split; congruence. Qed.

Section Emits.
Context (codec : Codec) (env : WebhookEnv) (id : Uuid).

Lemma emits_ret {A} (a : A) : emits env id [] (mret a : BM A).
Proof. intros st _. by rewrite publish_all_nil. Qed.

Lemma emits_publish op : emits env id [op] (publish env id op).
Proof. by intros st _. Qed.

Lemma emits_seq {A B} ops ops' (m : BM A) (k : BM B) :
  emits env id ops m → emits env id ops' k → emits env id (ops ++ ops') (m ;; k).
Proof.
  intros Hm Hk st. unfold mbind, SM_bind. specialize (Hm st).
  destruct (m st) as [st1 [a|e]]; [|done]. intros Hok. destruct (Hm eq_refl) as [P1 O1].
  destruct (Hk st1 Hok) as [P2 O2]. rewrite P2, O2, publish_all_app. unfold publish_all in *. simpl in *.
  by rewrite P1, O1.
Qed.

Lemma emits_when {A} (b : bool) ops (m : BM A) :
  emits env id ops m → emits env id (if b then ops else []) (when b m).
Proof.
  intros Hm. destruct b; [|apply emits_ret]. rewrite <- (app_nil_r ops). apply emits_seq; [done|apply emits_ret].
Qed.

Lemma emits_quiet {A} (m : BM A) : steps quiet m → emits env id [] m.
Proof. intros H st _. rewrite publish_all_nil. apply H. Qed.

Lemma cancel_duplicates_quiet o s : steps quiet (cancel_duplicates env o s).
Proof.
  unfold cancel_duplicates. destruct (stripe_customer_id _); [|steps_tac].
  unfold orfail. destruct (subscriptions_of env _); steps_tac.
  match goal with x : Subscription |- _ => destruct (cancel_ok env (sub_id x)) end; steps_tac; done.
Qed.

Lemma credit_quiet s o : steps quiet (apply_pause_credit_if_due codec env s o).
Proof.
  unfold apply_pause_credit_if_due, when. repeat case_match; steps_tac; done.
Qed.

(** The events of an update, given the row as it was read. *)
Definition checkout_due (o : Organization) : bool :=
  bool_decide (plan_status (o_base o) = None) || is_free (default get_free_plan (plan (o_base o))).

Definition lifecycle_ops (o : Organization) (p : BillingPlan) (s : Subscription) : list BillingOperation :=
  (if checkout_due o then
     CheckoutCompleted p (included_networks (config p)) (included_seats (config p))
       (mrr_from_subscription s) (same (status s) SubTrialing) (next_renewal_from_subscription codec s)
     :: (if same (status s) SubTrialing
         then [TrialStarted p (timestamp_or_now codec env (trial_end s)) (trial_days (config p))] else [])
   else [])
  ++ (if same (plan_status (o_base o)) (Some Trialing) && same (status s) SubActive
      then [TrialEnded p true (next_renewal_from_subscription codec s)] else []).

Definition change_ops (o : Organization) (p : BillingPlan) (s : Subscription) : list BillingOperation :=
  let prior := default get_free_plan (plan (o_base o)) in
  if bool_decide (is_Some (plan_status (o_base o))) && negb (String.eqb (plan_name prior) (plan_name p))
  then [PlanChanged prior p (is_free p) (next_renewal_from_subscription codec s)] else [].

Definition pause_ops (o : Organization) (p : BillingPlan) (s : Subscription) : list BillingOperation :=
  match pause_collection s with
  | Some r => if negb (same (plan_status (o_base o)) (Some Paused))
              then [SubPaused p (default 0 (pause_duration_days (from_stripe codec (metadata s))))
                      (timestamp_or_now codec env r)] else []
  | None => if same (plan_status (o_base o)) (Some Paused) then [Resumed false] else []
  end.

Definition extension_due (o : Organization) (s : Subscription) : option Z :=
  if trial_extended_used (o_base o) then None else trial_extended_days (from_stripe codec (metadata s)).

Definition extension_ops (o : Organization) (s : Subscription) : list BillingOperation :=
  match extension_due o s with
  | Some d => [TrialExtended d (timestamp_or_now codec env (trial_end s))]
  | None => []
  end.

Definition reactivation_ops (o : Organization) (s : Subscription) : list BillingOperation :=
  if same (plan_status (o_base o)) (Some PendingCancellation)
  then [Reactivated (same (status s) SubTrialing) (next_renewal_from_subscription codec s)] else [].

Definition update_ops (o : Organization) (p : BillingPlan) (s : Subscription) : list BillingOperation :=
  lifecycle_ops o p s ++ change_ops o p s ++ pause_ops o p s ++ extension_ops o s ++ reactivation_ops o s.

Lemma transition_emits o p s :
  o_id o = id → has_owner env id = true → cancel_at s = None →
  emits env id (pause_ops o p s ++ extension_ops o s ++ reactivation_ops o s)
    (transition_events codec env o p (from_stripe codec (metadata s)) s).
Proof.
  intros Hid Ho Hc. unfold transition_events. cbv zeta. rewrite Hid.
  rewrite Ho, (bool_decide_eq_true_2 (cancel_at s = None) Hc), !andb_true_r.
  apply emits_seq; [|apply emits_seq].
  - unfold pause_ops. destruct (pause_collection s).
    + apply emits_when, emits_publish.
    + apply (emits_when _ [_]). change [Resumed false] with ([] ++ [Resumed false]).
      apply emits_seq; [apply emits_quiet, credit_quiet|apply emits_publish].
  - unfold extension_ops, extension_due. destruct (trial_extended_days _) as [d|].
    + destruct (trial_extended_used (o_base o)); [apply emits_ret|].
      apply (emits_when true), emits_publish.
    + destruct (trial_extended_used _); apply emits_ret.
  - unfold reactivation_ops. apply emits_when, emits_publish.
Qed.
End Emits.

(** ** A subscription update *)

Section Update.
Context (codec : Codec) (env : WebhookEnv) (id : Uuid) (p : BillingPlan) (s : Subscription).

(** The metadata name the organization and the plan. *)
Definition addressed : Prop :=
  ∃ u v, metadata s !! "organization_id" = Some u ∧ metadata s !! "plan" = Some v
         ∧ parse_plan codec v = Some p ∧ parse_uuid codec u = Some id.

(** The body of the handler, once the row is read. *)
Definition update_rest (o : Organization) : BM unit :=
  when (has_owner env id) (lifecycle_events codec env id (plan_status (o_base o))
                             (is_free (default get_free_plan (plan (o_base o)))) p s) ;;
  cancel_duplicates env o s ;;
  when (bool_decide (is_Some (plan_status (o_base o)))
        && negb (String.eqb (plan_name (default get_free_plan (plan (o_base o)))) (plan_name p))
        && has_owner env id)
    (publish env id (PlanChanged (default get_free_plan (plan (o_base o))) p (is_free p)
                       (next_renewal_from_subscription codec s))) ;;
  transition_events codec env o p (from_stripe codec (metadata s)) s.

Definition onboarding_due (o : Organization) : bool :=
  has_owner env id && (is_free (default get_free_plan (plan (o_base o)))
                       || bool_decide (plan_status (o_base o) = None)) && not_onboarded o PlanSelected.

Definition update_body (o : Organization) : BM unit :=
  when (onboarding_due o) (publish_onboarding id PlanSelected) ;; update_rest o.

Lemma update_is_body o st :
  addressed → orgs st !! id = Some o → cancel_at s = None →
  handle_subscription_update codec env s st = update_body o st.
Proof.
  intros (u & v & Hu & Hv & Hp & Hid) Ho Hc. unfold handle_subscription_update.
  rewrite Hu, Hv. cbn [orfail]. run. rewrite Hp. cbn [orfail]. run. rewrite Hid. cbn [orfail]. run.
  by rewrite Ho, Hc.
Qed.

Lemma lifecycle_emits o :
  emits env id (lifecycle_ops codec env o p s)
    (lifecycle_events codec env id (plan_status (o_base o))
       (is_free (default get_free_plan (plan (o_base o)))) p s).
Proof.
  unfold lifecycle_events, lifecycle_ops, checkout_due. cbv zeta. apply emits_seq.
  - apply emits_when. change (?x :: ?l) with ([x] ++ l). apply emits_seq; [apply emits_publish|].
    apply emits_when, emits_publish.
  - apply emits_when, emits_publish.
Qed.

Lemma rest_emits o :
  o_id o = id → has_owner env id = true → cancel_at s = None →
  emits env id (update_ops codec env o p s) (update_rest o).
Proof.
  intros Hid Ho Hc. unfold update_rest, update_ops. rewrite Ho, andb_true_r.
  apply emits_seq; [apply (emits_when env id true), lifecycle_emits|].
  apply (emits_seq env id []); [apply emits_quiet, cancel_duplicates_quiet|].
  apply emits_seq; [apply emits_when, emits_publish|by apply transition_emits].
Qed.

Lemma set_onboarding_id o : with_org (λ b, set_onboarding (onboarding b) b) o = o.
Proof. by destruct o as [? ? []]. Qed.

(** What a successful update leaves behind. *)
Lemma update_run st o :
  addressed → orgs st !! id = Some o → o_id o = id → has_owner env id = true → cancel_at s = None →
  let r := handle_subscription_update codec env s st in
  is_ok r.2 = true →
  let ops := update_ops codec env o p s in
  ∃ steps_taken,
    published r.1 = published st ++ ((λ op, (id, op)) <$> ops)
    ∧ orgs r.1 = <[id := with_org (λ b, replay ((now env,.) <$> ops) (set_onboarding steps_taken b)) o]>
                   (orgs st).
Proof.
  intros Ha Hrow Hid Ho Hc. cbv zeta. rewrite (update_is_body o st Ha Hrow Hc). unfold update_body.
  assert (∃ l, orgs (when (onboarding_due o) (publish_onboarding id PlanSelected) st).1
                 = <[id := with_org (set_onboarding l) o]> (orgs st)
               ∧ published (when (onboarding_due o) (publish_onboarding id PlanSelected) st).1 = published st
               ∧ (when (onboarding_due o) (publish_onboarding id PlanSelected) st).2 = Ok tt)
    as (l & Ho1 & Hp1 & Hr1).
  { unfold when. destruct (onboarding_due o) eqn:Hd.
    - exists (onboarding (o_base o) ++ [PlanSelected]). split; [|done]. simpl. unfold handle_onboarding.
      rewrite Hrow. unfold onboarding_due in Hd. apply andb_true_iff in Hd as [_ ->].
      f_equal.
    - exists (onboarding (o_base o)). split; [|done]. simpl. symmetry. apply insert_id. rewrite Hrow.
      f_equal. symmetry. apply (set_onboarding_id o). }
  unfold mbind, SM_bind. destruct (when _ _ st) as [st1 [[]|]]; [|done]. simpl in Ho1, Hp1. intros Hok.
  destruct (rest_emits o Hid Ho Hc st1 Hok) as [P O]. exists l. split.
  - rewrite P. unfold publish_all. simpl. by rewrite Hp1.
  - rewrite O, (publish_all_row _ _ _ _ (with_org (set_onboarding l) o)), Ho1, insert_insert_eq
      by (rewrite Ho1; apply lookup_insert_eq). done.
Qed.

(** ** Redelivery *)

Lemma apply_plan t op b :
  plan (apply_operation t op b).1 = plan b
  ∨ ∃ q, plan_written op = Some q ∧ plan (apply_operation t op b).1 = Some q.
Proof. unfold apply_operation. destruct op; arms; eauto. Qed.

Lemma replay_plan t ops b q :
  (∀ op r, op ∈ ops → plan_written op = Some r → r = q) →
  plan (replay ((t,.) <$> ops) b) = plan b ∨ plan (replay ((t,.) <$> ops) b) = Some q.
Proof.
  revert b. induction ops as [|op ops IH]; intros b H; [by left|].
  change (replay ((t,.) <$> op :: ops) b) with (replay ((t,.) <$> ops) (apply_operation t op b).1).
  destruct (IH (apply_operation t op b).1) as [->|E]; [set_solver| |by right].
  destruct (apply_plan t op b) as [->|(r & Hr & ->)]; [by left|]. right. f_equal. apply (H op); [left|done].
Qed.

(** The organization can tell the plan of the subscription from its own, and no
    two transitions that imply different states are reported at once. *)
Record single_transition (o : Organization) : Prop := {
  plan_told_apart : ∀ q, plan (o_base o) = Some q → plan_eqb q p = true → q = p;
  extension_alone : is_Some (extension_due codec o s) → status s = SubTrialing ∧ pause_collection s = None;
  pause_alone : is_Some (pause_collection s) → plan_status (o_base o) ≠ Some PendingCancellation
    ∧ ¬ (is_free (default get_free_plan (plan (o_base o))) = true ∧ plan_status (o_base o) = Some Paused)
}.

Lemma settled_status o :
  single_transition o →
  let s2 := latest (plan_status (o_base o)) (Some <$> omap implied_status (update_ops codec env o p s)) in
  s2 ≠ None ∧ s2 ≠ Some PendingCancellation ∧ (s2 = Some Paused ↔ is_Some (pause_collection s))
  ∧ ¬ (s2 = Some Trialing ∧ status s = SubActive).
Proof.
  intros [_ Hext Hpause]. unfold update_ops, lifecycle_ops, change_ops, pause_ops, extension_ops,
    reactivation_ops, checkout_due, same. cbv zeta. revert Hext Hpause.
  destruct (extension_due codec o s) as [d|]; [intros Hext; destruct (Hext ltac:(eauto)) as [Hs Hp]; rewrite Hs, Hp|intros _];
    [|destruct (status s)]; [|destruct (pause_collection s)..];
    intros Hpause; destruct (String.eqb _ (plan_name p)), (is_free _), (plan_status (o_base o)) as [[]|];
    vm_compute in Hpause |- *; split_and!; naive_solver.
Qed.

Lemma if_nil {A} (b : bool) (x : A) l : (if b then x :: l else []) = [] → b = false.
Proof. by destruct b. Qed.

(** An update with nothing to publish leaves rows and log alone. *)
Lemma update_quiet st o :
  addressed → orgs st !! id = Some o → o_id o = id → has_owner env id = true → cancel_at s = None →
  onboarding_due o = false → update_ops codec env o p s = [] →
  quiet st (handle_subscription_update codec env s st).1.
Proof.
  intros Ha Hrow Hid Ho Hc Hon Hops. rewrite (update_is_body o st Ha Hrow Hc). unfold update_body. rewrite Hon.
  apply app_nil in Hops as [[L1%if_nil L2%if_nil]%app_nil [C%if_nil [P [E R%if_nil]%app_nil]%app_nil]%app_nil].
  unfold checkout_due in L1. enough (steps quiet (update_rest o)) as H by apply H.
  unfold update_rest, lifecycle_events, transition_events. cbv zeta.
  rewrite Hid, Ho, L1, L2, C, R, !andb_true_r. cbn [when andb]. pose proof cancel_duplicates_quiet as Hdup.
  unfold pause_ops in P. unfold extension_ops, extension_due in E.
  destruct (pause_collection s); apply if_nil in P; rewrite P; cbn [when andb].
  all: destruct (trial_extended_days _), (trial_extended_used _); cbn [when negb andb]; try done.
  all: repeat first [apply Hdup | apply steps_ret; apply _ | apply steps_bind; [apply _| |intros ?]].
Qed.

Lemma update_ops_plans o op r : op ∈ update_ops codec env o p s → plan_written op = Some r → r = p.
Proof.
  unfold update_ops, lifecycle_ops, change_ops, pause_ops, extension_ops, reactivation_ops. cbv zeta.
  rewrite !elem_of_app. intros Hin Hw.
  repeat match goal with
  | H : _ ∨ _ |- _ => destruct H
  | H : op ∈ (if ?b then _ else _) |- _ => destruct b
  | H : op ∈ match ?x with _ => _ end |- _ => destruct x
  | H : op ∈ _ :: _ |- _ => apply elem_of_cons in H as [->|H]
  | H : op ∈ [] |- _ => by apply elem_of_nil in H
  end; simpl in Hw; congruence.
Qed.

(** The plan of the row after an update. *)
Lemma settled_plan o b :
  single_transition o → is_free p = false →
  (plan b = plan (o_base o) ∨ plan b = Some p) →
  same_plan (plan b) (latest (plan (o_base o)) (Some <$> omap plan_written (update_ops codec env o p s))) = true →
  String.eqb (plan_name (default get_free_plan (plan b))) (plan_name p) = true
  ∧ is_free (default get_free_plan (plan b)) = false.
Proof.
  intros [Htold _ _] Hp [Hb| ->] Hlast; [|by rewrite String.eqb_refl].
  destruct (omap plan_written (update_ops codec env o p s)) as [|q l] eqn:E using rev_ind.
  - clear Hlast. rewrite Hb. unfold update_ops, lifecycle_ops, change_ops, checkout_due in E. cbv zeta in E.
    rewrite !omap_app in E. apply app_nil in E as [[E1 _]%app_nil [E2 _]%app_nil].
    destruct (bool_decide (plan_status (o_base o) = None)) eqn:Hn; [discriminate E1|].
    destruct (is_free (default get_free_plan (plan (o_base o)))) eqn:Hf; [discriminate E1|].
    split; [|reflexivity]. apply bool_decide_eq_false in Hn.
    rewrite bool_decide_eq_true_2 in E2 by (by apply not_eq_None_Some).
    destruct (String.eqb _ _); [done|]. discriminate E2.
  - clear IHl. rewrite fmap_app, latest_app in Hlast. cbn in Hlast.
    assert (q = p) as ->.
    { assert (q ∈ omap plan_written (update_ops codec env o p s)) as Hin
        by (rewrite E; apply elem_of_app; right; left).
      apply list_elem_of_omap in Hin as (op & Hop & Hw). by apply (update_ops_plans o op). }
    rewrite Hb in Hlast |- *. destruct (plan (o_base o)) as [r|] eqn:Hr; [|done].
    rewrite (Htold r eq_refl Hlast). simpl. by rewrite String.eqb_refl.
Qed.

Lemma extension_done l o :
  (if existsb is_extension (update_ops codec env o p s) || trial_extended_used (set_onboarding l (o_base o))
   then None else trial_extended_days (from_stripe codec (metadata s))) = None.
Proof.
  change (trial_extended_used (set_onboarding l (o_base o))) with (trial_extended_used (o_base o)).
  destruct (trial_extended_used (o_base o)) eqn:E; [by rewrite orb_true_r|].
  destruct (trial_extended_days _) as [d|] eqn:Ed; [|by destruct (_ || _)].
  assert (existsb is_extension (update_ops codec env o p s) = true) as ->; [|done].
  apply existsb_elem. exists (TrialExtended d (timestamp_or_now codec env (trial_end s))). split; [|done].
  unfold update_ops, extension_ops, extension_due. rewrite E, Ed, !elem_of_app. right. right. right. left. left.
Qed.

(** A subscription update settles: after one successful delivery, delivering the
    same update again publishes nothing and changes no row.  The plan is a paid
    one that the organization can tell from its own, and the update does not
    report two transitions at once that imply different states. *)
Theorem update_settles st o :
  addressed → orgs st !! id = Some o → o_id o = id → has_owner env id = true →
  cancel_at s = None → is_free p = false → single_transition o →
  let r := handle_subscription_update codec env s st in
  is_ok r.2 = true → quiet r.1 (handle_subscription_update codec env s r.1).1.
Proof.
  intros Ha Hrow Hid Ho Hc Hp Hst r Hok.
  destruct (update_run st o Ha Hrow Hid Ho Hc Hok) as (l & _ & Hr). fold r in Hr.
  set (ops := update_ops codec env o p s) in *.
  set (b := replay ((now env,.) <$> ops) (set_onboarding l (o_base o))) in *.
  set (o2 := with_org (λ b, replay ((now env,.) <$> ops) (set_onboarding l b)) o) in *.
  assert (((now env,.) <$> ops).*2 = ops) as Eops by (rewrite <- list_fmap_compose; apply list_fmap_id).
  destruct (row_fields ((now env,.) <$> ops) (set_onboarding l (o_base o)))
    as (Hs & _ & Hx & _ & _ & Hpl). fold b in Hs, Hx, Hpl. rewrite Eops in Hs, Hx, Hpl.
  change (plan_status (set_onboarding l (o_base o))) with (plan_status (o_base o)) in Hs.
  change (plan (set_onboarding l (o_base o))) with (plan (o_base o)) in Hpl.
  pose proof (settled_status o Hst) as HS. cbv zeta in HS. fold ops in HS. rewrite <- Hs in HS.
  destruct HS as (S1 & S2 & S3 & S4).
  pose proof (replay_plan (now env) ops (set_onboarding l (o_base o)) p
    (λ op r Hin, update_ops_plans o op r Hin)) as Hplan. fold b in Hplan.
  assert (String.eqb (plan_name (default get_free_plan (plan b))) (plan_name p) = true
          ∧ is_free (default get_free_plan (plan b)) = false) as [Hname Hfree].
  { apply (settled_plan o b Hst Hp); [exact Hplan|exact Hpl]. }
  apply (update_quiet r.1 o2 Ha); [rewrite Hr; apply lookup_insert_eq|done|done|done| |].
  - unfold onboarding_due. change (plan (o_base o2)) with (plan b).
    change (plan_status (o_base o2)) with (plan_status b).
    rewrite Hfree, bool_decide_eq_false_2 by done. by rewrite andb_false_r.
  - unfold update_ops, lifecycle_ops, change_ops, pause_ops, extension_ops, extension_due,
      reactivation_ops, checkout_due, same. cbv zeta. change (o_base o2) with b.
    rewrite Hname, Hfree, andb_false_r, (bool_decide_eq_false_2 _ S1), (bool_decide_eq_false_2 _ S2).
    rewrite Hx. cbn [orb app]. rewrite app_nil_r.
    assert (bool_decide (plan_status b = Some Trialing) && bool_decide (status s = SubActive) = false) as ->
      by (apply andb_false_iff; rewrite !bool_decide_eq_false; destruct (decide (status s = SubActive)); tauto).
    assert (bool_decide (plan_status b = Some Paused) = bool_decide (is_Some (pause_collection s))) as ->
      by (by apply bool_decide_ext).
    pose proof (extension_done l o) as Hext. fold ops in Hext. rewrite Hext. by destruct (pause_collection s).
Qed.

(** ** What an update misses and what it grants *)

(** A change of the billing period is not recorded: when the subscription of an
    active organization moves to another price of the same tier, for instance from
    monthly to yearly, nothing is published and the row keeps the old plan. *)
Theorem rate_change_missed st o q :
  addressed → orgs st !! id = Some o → o_id o = id → has_owner env id = true → cancel_at s = None →
  plan (o_base o) = Some q → plan_status (o_base o) = Some Active →
  discriminant q = discriminant p → is_free p = false →
  pause_collection s = None → extension_due codec o s = None →
  quiet st (handle_subscription_update codec env s st).1.
Proof.
  intros Ha Hrow Hid Ho Hc Hq Hs Hd Hp Hpause Hext.
  assert (is_free q = false ∧ plan_name q = plan_name p) as [Hf Hn] by (by destruct q, p).
  apply (update_quiet st o Ha Hrow Hid Ho Hc).
  - unfold onboarding_due. rewrite Hq, Hs. simpl. by rewrite Hf, andb_false_r.
  - unfold update_ops, lifecycle_ops, change_ops, pause_ops, extension_ops, reactivation_ops, checkout_due.
    rewrite Hq, Hs, Hpause, Hext. simpl. by rewrite Hf, Hn, String.eqb_refl.
Qed.

(** A subscription that was never paid for grants its plan: whatever state of the
    provider the update reports, other than a trial, an organization without a
    plan or on the free one becomes active on the plan of the subscription. *)
Theorem unpaid_checkout st o raw :
  addressed → orgs st !! id = Some o → o_id o = id → has_owner env id = true → cancel_at s = None →
  status s = SubOther raw → plan_status (o_base o) = None → pause_collection s = None →
  extension_due codec o s = None →
  let r := handle_subscription_update codec env s st in
  is_ok r.2 = true →
  ∃ o2, orgs r.1 !! id = Some o2 ∧ plan_status (o_base o2) = Some Active
        ∧ same_plan (plan (o_base o2)) (Some p) = true.
Proof.
  intros Ha Hrow Hid Ho Hc Hraw Hs Hpause Hext r Hok.
  destruct (update_run st o Ha Hrow Hid Ho Hc Hok) as (l & _ & Hr). fold r in Hr.
  eexists. split; [rewrite Hr; apply lookup_insert_eq|]. simpl.
  destruct (row_fields ((now env,.) <$> update_ops codec env o p s) (set_onboarding l (o_base o)))
    as (H1 & _ & _ & _ & _ & H6). cbv zeta in H1, H6. revert H1 H6.
  assert (((now env,.) <$> update_ops codec env o p s).*2 = update_ops codec env o p s) as ->
    by (rewrite <- list_fmap_compose; apply list_fmap_id).
  unfold update_ops, lifecycle_ops, change_ops, pause_ops, extension_ops, reactivation_ops, checkout_due.
  rewrite Hs, Hpause, Hext, Hraw. cbv zeta. cbn -[get_free_plan same_plan replay]. intros -> H6. by split.
Qed.
End Update.

(** ** One organization per webhook *)

(** The row of [j] is the same. *)
Definition same_row (j : Uuid) (st st' : BillingState) : Prop := orgs st' !! j = orgs st !! j.
#[export] Instance same_row_preorder j : PreOrder (same_row j).
Proof. unfold same_row. split; [done|]. intros x y z. congruence. Qed.

Lemma quiet_same_row {A} j (m : BM A) : steps quiet m → steps (same_row j) m.
Proof. intros H st. unfold same_row. by rewrite (proj2 (H st)). Qed.

Section Confined.
Context (codec : Codec) (env : WebhookEnv) (j : Uuid).

Lemma publish_same_row id op : id ≠ j → steps (same_row j) (publish env id op).
Proof. intros Hj st. unfold same_row. simpl. by apply handle_billing_other. Qed.

Lemma onboarding_same_row id op : id ≠ j → steps (same_row j) (publish_onboarding id op).
Proof.
  intros Hj st. unfold same_row. simpl. unfold handle_onboarding. destruct (orgs st !! id); [|done].
  destruct (not_onboarded _ _); [by rewrite lookup_insert_ne|done].
Qed.

Lemma when_same_row {A} b (m : BM A) : steps (same_row j) m → steps (same_row j) (when b m).
Proof. intros H. unfold when. destruct b; steps_tac. Qed.
End Confined.

#[export] Hint Resolve publish_same_row onboarding_same_row when_same_row quiet_same_row
  cancel_duplicates_quiet credit_quiet : effects.

Lemma orfail_elim {A B} e (o : option A) (k : A → BM B) st (Q : BillingState * result B BillingError → Prop) :
  (∀ a, o = Some a → Q (k a st)) → Q (st, Err e) → Q ((orfail e o ≫= k) st).
Proof. intros H1 H2. destruct o; [by apply H1|exact H2]. Qed.

Lemma update_same_row codec env s st j :
  (∀ k o, orgs st !! k = Some o → o_id o = k) →
  metadata s !! "organization_id" ≫= parse_uuid codec ≠ Some j →
  orgs (handle_subscription_update codec env s st).1 !! j = orgs st !! j.
Proof.
  intros Hkey Hj. unfold handle_subscription_update.
  apply (orfail_elim _ _ _ _ (λ r, orgs r.1 !! j = orgs st !! j)); [intros u Hu|done].
  apply (orfail_elim _ _ _ _ (λ r, orgs r.1 !! j = orgs st !! j)); [intros v _|done].
  apply (orfail_elim _ _ _ _ (λ r, orgs r.1 !! j = orgs st !! j)); [intros p _|done].
  apply (orfail_elim _ _ _ _ (λ r, orgs r.1 !! j = orgs st !! j)); [intros id Hid|done].
  rewrite Hu in Hj. simpl in Hj. rewrite Hid in Hj. assert (id ≠ j) as Hne by congruence. run.
  destruct (orgs st !! id) as [o|] eqn:Ho; [|done]. apply Hkey in Ho.
  match goal with |- orgs (?m st).1 !! j = _ => enough (steps (same_row j) m) as H by apply H end.
  unfold cancellation_scheduled, lifecycle_events, transition_events, extract_cancellation_details. cbv zeta.
  rewrite Ho. destruct (cancel_at s); repeat case_match; repeat first [apply when_same_row | progress steps_tac].
Qed.

Lemma deleted_same_row codec env s st j :
  metadata s !! "organization_id" ≫= parse_uuid codec ≠ Some j →
  orgs (handle_subscription_deleted codec env s st).1 !! j = orgs st !! j.
Proof.
  intros Hj. unfold handle_subscription_deleted.
  apply (orfail_elim _ _ _ _ (λ r, orgs r.1 !! j = orgs st !! j)); [intros u Hu|done].
  apply (orfail_elim _ _ _ _ (λ r, orgs r.1 !! j = orgs st !! j)); [intros id Hid|done].
  rewrite Hu in Hj. simpl in Hj. rewrite Hid in Hj. assert (id ≠ j) as Hne by congruence.
  case_bool_decide; [done|]. run. destruct (orgs st !! id) as [o|]; [|done].
  match goal with |- orgs (?m st).1 !! j = _ => enough (steps (same_row j) m) as H' by apply H' end.
  unfold extract_cancellation_details. repeat case_match; repeat first [apply when_same_row | progress steps_tac].
Qed.

(** A subscription webhook concerns the organization its metadata name: when the
    handler of an update or of a deletion changes the row of an organization, the
    metadata carry that organization's id. *)
Theorem webhook_confined codec env s st j :
  (∀ k o, orgs st !! k = Some o → o_id o = k) →
  orgs (handle_subscription_update codec env s st).1 !! j ≠ orgs st !! j
  ∨ orgs (handle_subscription_deleted codec env s st).1 !! j ≠ orgs st !! j →
  ∃ u, metadata s !! "organization_id" = Some u ∧ parse_uuid codec u = Some j.
Proof.
  intros Hkey H. apply bind_Some.
  destruct (decide (metadata s !! "organization_id" ≫= parse_uuid codec = Some j)) as [|Hj]; [done|].
  exfalso. destruct H as [H|H]; apply H; [by apply update_same_row|by apply deleted_same_row].
Qed.

(** ** The end of a subscription *)

(** The customer still has another subscription that pays, or cannot be asked. *)
Definition superseded (env : WebhookEnv) (o : Organization) (s : Subscription) : bool :=
  match stripe_customer_id (o_base o) with
  | None => false
  | Some c =>
      match subscriptions_of env c with
      | None => true
      | Some all => existsb (λ x, negb (String.eqb (sub_id x) (sub_id s)) && live_status (status x)) all
      end
  end.

(** When a subscription ends, an organization that has another live one keeps its
    row; one that has none falls back to the free plan, active, without a renewal
    date or a running discount, and remembers the plan it came from; the perks it
    used up stay used up and its payment method stays. *)
Theorem deletion_spec codec env s st id o u :
  metadata s !! "organization_id" = Some u → parse_uuid codec u = Some id → orgs st !! id = Some o →
  pause_collection s = None → has_owner env id = true →
  let st' := (handle_subscription_deleted codec env s st).1 in
  if superseded env o s then st' = st
  else ∃ b, orgs st' !! id = Some (with_org (λ _, b) o)
    ∧ same_plan (plan b) (Some get_free_plan) = true ∧ plan_status b = Some Active
    ∧ next_renewal_at b = None ∧ discount_percent_off b = None ∧ discount_active_until b = None
    ∧ last_downgrade_from_plan b = Some (default get_free_plan (plan (o_base o)))
    ∧ last_discount_at b = last_discount_at (o_base o) ∧ last_paused_at b = last_paused_at (o_base o)
    ∧ trial_extended_used b = trial_extended_used (o_base o)
    ∧ has_payment_method b = has_payment_method (o_base o).
Proof.
  intros Hu Hid Hrow Hp Ho. cbv zeta. unfold handle_subscription_deleted. rewrite Hu. simpl orfail. run.
  rewrite Hid. simpl orfail. run. rewrite Hp, bool_decide_false by (by intros [? ?]). run. rewrite Hrow.
  unfold superseded, extract_cancellation_details. rewrite Ho. cbn [when].
  assert (∀ op, handle_billing (now env) id op (orgs st) !! id
    = Some (with_org (λ _, (apply_operation (now env) op (o_base o)).1) o)) as Hrun.
  { intros op. by rewrite (handle_billing_some _ _ _ _ _ Hrow), lookup_insert_eq. }
  repeat (case_match; try done).
  all: eexists; split; [apply Hrun|].
  all: unfold apply_operation; arms; unfold same in *; split_and!; try done; try apply same_plan_refl.
  all: by eapply bool_decide_eq_true_1.
Qed.

(** ** The rows as a function of the log *)

Definition handle_all (log : list (Uuid * (DateTime * BillingOperation))) (os : gmap Uuid Organization)
    : gmap Uuid Organization :=
  foldl (λ os e, handle_billing e.2.1 e.1 e.2.2 os) os log.

(** The events of one organization. *)
Definition log_of (j : Uuid) (log : list (Uuid * (DateTime * BillingOperation)))
    : list (DateTime * BillingOperation) :=
  omap (λ e, if decide (e.1 = j) then Some e.2 else None) log.

Lemma handle_all_row log os j o :
  os !! j = Some o → handle_all log os !! j = Some (with_org (replay (log_of j log)) o).
Proof.
  revert os o. induction log as [|[i [t op]] log IH]; intros os o H.
  { cbn. rewrite H. by destruct o. }
  cbn [handle_all foldl fst snd]. fold (handle_all log (handle_billing t i op os)).
  unfold log_of. cbn [omap list_omap fst snd]. destruct (decide (i = j)) as [->|Hij].
  - rewrite (IH _ (with_org (λ _, (apply_operation t op (o_base o)).1) o)); [done|].
    by rewrite (handle_billing_some _ _ _ _ _ H), lookup_insert_eq.
  - apply IH. by rewrite handle_billing_other.
Qed.

(** C4. The rows refine the event log.  However the events of different organizations
    interleave, each row is a function of its own events: its status is the last
    one implied, its payment method flag the last one announced, its plan the last
    one written (as far as plans can be told apart), its trial was extended iff it
    was before or an extension was announced, and the last pause and the last
    discount are those of the log. *)
Theorem row_refines_log log os j o :
  os !! j = Some o →
  let l := log_of j log in
  let old := o_base o in
  ∃ b, handle_all log os !! j = Some (with_org (λ _, b) o)
  ∧ plan_status b = latest (plan_status old) (Some <$> omap implied_status l.*2)
  ∧ has_payment_method b = latest (has_payment_method old) (omap method_written l.*2)
  ∧ trial_extended_used b = existsb is_extension l.*2 || trial_extended_used old
  ∧ last_paused_at b = latest (last_paused_at old) (Some <$> omap pause_written l)
  ∧ last_discount_at b = latest (last_discount_at old) (Some <$> omap discount_written l)
  ∧ same_plan (plan b) (latest (plan old) (Some <$> omap plan_written l.*2)) = true.
Proof.
  intros H l old. exists (replay l old). rewrite (handle_all_row _ _ _ _ H). split; [done|].
  apply row_fields.
Qed.

(** ** Witnesses *)

(** Two organizations, interleaved: the events of 8 do not touch 7. *)
Lemma row_refines_log_witness :
  let log := [(7%N, (1, PaymentMethodRemoved)); (8%N, (2, PaymentMethodAdded));
              (7%N, (3, SubPaused get_free_plan 30 9)); (8%N, (4, PaymentMethodRemoved))] in
  let o := sample_org (sample_base (Some get_free_plan) (Some Active)) in
  ∃ b, handle_all log {[7%N := o]} !! 7%N = Some (with_org (λ _, b) o)
    ∧ plan_status b = Some Paused ∧ has_payment_method b = false ∧ last_paused_at b = Some 3.
Proof.
  intros log o. destruct (row_refines_log log {[7%N := o]} 7%N o (lookup_singleton_eq _ _))
    as (b & Hb & H1 & H2 & _ & H4 & _). exists b. split; [exact Hb|]. split_and!; [rewrite H1|rewrite H2|rewrite H4]; vm_compute; reflexivity.
Defined.

Lemma perks_once_witness :
  let log := [(1, TrialExtended 7 5); (3, SubPaused get_free_plan 30 9)] in
  let b := sample_base (Some get_free_plan) (Some Active) in
  extend_trial sample_env (sample_org (replay log b)) = Err AlreadyExtended
  ∧ pause_subscription sample_env 30 (sample_org (replay log b)) = Err (PauseCooldown (3 + days_ms 180)).
Proof.
  intros log b. destruct (perks_once sample_env log b (sample_org (replay log b)) eq_refl) as (H1 & _ & H3).
  split; [apply H1; vm_compute; reflexivity|].
  apply (H3 [(1, TrialExtended 7 5)] [] 3 get_free_plan 30 9); vm_compute; reflexivity.
Defined.

Definition sample_plan : BillingPlan := default get_free_plan (get_default_plans !! 2%nat).

(** The first paid plan of a new organization, delivered twice. *)
Lemma update_settles_witness :
  let st := sample_state (sample_org (sample_base None None)) in
  let s := sample_subscription SubActive None in
  let r := handle_subscription_update (sample_codec sample_plan) sample_env s st in
  (length (published r.1) = 1)%nat
  ∧ quiet r.1 (handle_subscription_update (sample_codec sample_plan) sample_env s r.1).1.
Proof.
  intros st s r. split; [vm_compute; reflexivity|].
  apply (update_settles (sample_codec sample_plan) sample_env 7%N sample_plan s st (sample_org (sample_base None None))); try (vm_compute; reflexivity).
  - do 2 eexists. split_and!; vm_compute; reflexivity.
  - split; [discriminate|intros [? [=]]|intros [? [=]]].
Defined.

(** The same plan, moved from monthly to yearly billing. *)
Lemma rate_change_missed_witness :
  let yearly := to_yearly YEARLY_DISCOUNT sample_plan in
  let st := sample_state (sample_org (sample_base (Some sample_plan) (Some Active))) in
  plan_eqb sample_plan yearly = false
  ∧ quiet st (handle_subscription_update (sample_codec yearly) sample_env (sample_subscription SubActive None) st).1.
Proof.
  intros yearly st. split; [vm_compute; reflexivity|].
  apply (rate_change_missed (sample_codec yearly) sample_env 7%N yearly (sample_subscription SubActive None) st
           (sample_org (sample_base (Some sample_plan) (Some Active))) sample_plan); try (vm_compute; reflexivity).
  do 2 eexists. split_and!; vm_compute; reflexivity.
Defined.

(** A subscription whose first payment failed. *)
Lemma unpaid_checkout_witness :
  let st := sample_state (sample_org (sample_base None None)) in
  let s := sample_subscription (SubOther "incomplete") None in
  let r := handle_subscription_update (sample_codec sample_plan) sample_env s st in
  ∃ o2, orgs r.1 !! 7%N = Some o2 ∧ plan_status (o_base o2) = Some Active
        ∧ same_plan (plan (o_base o2)) (Some sample_plan) = true.
Proof.
  intros st s r.
  apply (unpaid_checkout (sample_codec sample_plan) sample_env 7%N sample_plan s st
           (sample_org (sample_base None None)) "incomplete"); try (vm_compute; reflexivity).
  do 2 eexists. split_and!; vm_compute; reflexivity.
Defined.

Lemma deletion_spec_witness :
  let o := sample_org (sample_base (Some sample_plan) (Some PendingCancellation)) in
  let st' := (handle_subscription_deleted (sample_codec sample_plan) sample_env
                (sample_subscription SubActive None) (sample_state o)).1 in
  ∃ b, orgs st' !! 7%N = Some (with_org (λ _, b) o) ∧ plan_status b = Some Active
       ∧ last_downgrade_from_plan b = Some sample_plan.
Proof.
  intros o st'. assert (H := deletion_spec (sample_codec sample_plan) sample_env (sample_subscription SubActive None)
    (sample_state o) 7%N o "7" ltac:(vm_compute; reflexivity) ltac:(vm_compute; reflexivity)
    ltac:(vm_compute; reflexivity) eq_refl eq_refl). cbv zeta in H.
  assert (superseded sample_env o (sample_subscription SubActive None) = false) as E by (vm_compute; reflexivity).
  rewrite E in H. destruct H as (b & H1 & _ & H3 & _ & _ & _ & H7 & _). exists b.
  split; [exact H1|]. split; [exact H3|]. rewrite H7. vm_compute. reflexivity.
Defined.

Lemma webhook_confined_witness :
  let st := sample_state (sample_org (sample_base None None)) in
  let s := sample_subscription SubActive None in
  ∃ u, metadata s !! "organization_id" = Some u ∧ parse_uuid (sample_codec sample_plan) u = Some 7%N.
Proof.
  intros st s. apply (webhook_confined (sample_codec sample_plan) sample_env s st 7%N).
  - intros k o. unfold st. simpl. rewrite lookup_singleton_Some. intros [<- <-]. reflexivity.
  - left. vm_compute. discriminate.
Defined.
