(* ===== verification/Topology.v ===== *)
(** The topology graph: data, grouping rules, views and the context of a build.

    [server/topology/types/{nodes,edges,grouping,views,base}.rs],
    [server/topology/service/context.rs] and
    [server/topology/service/metadata_filter.rs].

    Left out of the data are what a build sets to constants or draws at random:
    positions, sizes and handles, the icon and colour of a container, and the
    random id of an edge.  The ids of containers that a build derives from a name
    ([Uuid::new_v5]) and the text of a [Uuid] are the library's. *)

From Stdlib Require Import Ascii.
From stdpp Require Import pretty.
From S2P Require Import Prelude Net Ports Position Entities ServiceIdentity Patterns Services Hosts HostMatch Locks Lldp Interfaces Subnets.
Local Open Scope Z_scope.

(** ** Libraries *)

Class UuidLib : Type := {
  uuid_text : Uuid → string;
  (** the namespace and the name *)
  new_v5 : Uuid → string → Uuid
}.

Definition uuid_char (c : ascii) : bool :=
  let n := nat_of_ascii c in
  ((48 <=? n) && (n <=? 57) || (97 <=? n) && (n <=? 102) || (n =? 45))%nat.

(** What the builders rely on: the text of a uuid is hexadecimal digits and
    hyphens and tells uuids apart, and names do not collide. *)
Class UuidLaws `{UuidLib} : Prop := {
  uuid_text_inj : ∀ a b, uuid_text a = uuid_text b → a = b;
  uuid_text_chars : ∀ a, forallb uuid_char (String.list_ascii_of_string (uuid_text a)) = true;
  new_v5_inj : ∀ n m s t, new_v5 n s = new_v5 m t → n = m ∧ s = t
}.

(** A [HashMap] is iterated in some order. *)
Class MapOrder : Type := {
  map_iter : ∀ {K : Type} `{Countable K} {V : Type}, gmap K V → list (K * V);
  map_iter_perm : ∀ {K : Type} `{Countable K} {V : Type} (m : gmap K V), map_iter m ≡ₚ map_to_list m
}.

#[export] Program Instance stored_order : MapOrder := {|
  map_iter K _ _ V m := map_to_list m
|}.
Next Obligation. done. Qed.

Lemma list_bind_assoc {A B C} (f : A → list B) (g : B → list C) (l : list A) :
  (l ≫= f) ≫= g = l ≫= λ x, f x ≫= g.
Proof. induction l as [|x l IH]; [done|]. csimpl. rewrite bind_app, IH. done. Qed.

(** [HashSet::iter]. *)
Definition set_iter `{MapOrder} `{Countable K} (X : gset K) : list K := (map_iter (gset_to_gmap tt X)).*1.

(** ** Views *)

Inductive TopologyView := L2Physical | L3Logical | Workloads | ApplicationView.
#[export] Instance TopologyView_eq_dec : EqDecision TopologyView.
Proof. solve_decision. Defined.
Definition all_views : list TopologyView := [L2Physical; L3Logical; Workloads; ApplicationView].

Record TopologyViewSupport := { sup_l2_physical : bool; sup_application : bool }.
Definition is_supported (support : TopologyViewSupport) (v : TopologyView) : bool :=
  match v with
  | L3Logical | Workloads => true
  | L2Physical => sup_l2_physical support
  | ApplicationView => sup_application support
  end.

(** [Topology::resolve_available_views]. *)
Definition resolve_available_views (configured : option (list TopologyView)) (support : TopologyViewSupport)
    : list TopologyView :=
  let data_supported := List.filter (is_supported support) all_views in
  match configured with
  | None | Some [] => data_supported
  | Some l => List.filter (λ v, bool_decide (v ∈ data_supported)) l
  end.

(** ** Nodes *)

Inductive ContainerType :=
| CT_Subnet | CT_ServiceCategory | CT_Application | CT_ApplicationUngrouped | CT_Root | CT_Host
| CT_NestedTag | CT_NestedServiceCategory | CT_Hypervisor | CT_ContainerRuntime | CT_Stack
| CT_TrunkPort | CT_VLAN | CT_PortOpStatus.
#[export] Instance ContainerType_eq_dec : EqDecision ContainerType.
Proof. solve_decision. Defined.

Definition is_subcontainer (t : ContainerType) : bool :=
  match t with
  | CT_NestedTag | CT_NestedServiceCategory | CT_Hypervisor | CT_ContainerRuntime | CT_Stack
  | CT_TrunkPort | CT_VLAN | CT_PortOpStatus => true
  | _ => false
  end.
Definition collapsed_by_default (t : ContainerType) : bool :=
  match t with CT_PortOpStatus | CT_ApplicationUngrouped => true | _ => false end.

Inductive ElementEntityType :=
| El_IPAddress (subnet : Uuid) (ip : option Uuid)
| El_Service
| El_Host
| El_Interface (interface : Uuid).
Definition element_entity (e : ElementEntityType) : EntityDiscriminants :=
  match e with
  | El_IPAddress _ _ => E_IPAddress | El_Service => E_Service | El_Host => E_Host
  | El_Interface _ => E_Interface
  end.

Inductive InlineGroupRole := GroupHeader | GroupMember.
Record InlineGroup := { ig_entity : Uuid; ig_group : Uuid; ig_role : InlineGroupRole }.

Record ContainerData := {
  container_type : ContainerType;
  parent_container : option Uuid;
  entity : option Uuid;
  associated_service_definition : option string;
  element_rule_id : option Uuid;
  will_accept_edges : bool
}.
Record ElementData := {
  in_container : Uuid;
  on_host : Uuid;
  element : ElementEntityType;
  inline_groups : list InlineGroup
}.
Inductive NodeType := Container (c : ContainerData) | Element (e : ElementData).
Record Node := { n_id : Uuid; node_type : NodeType; header : option string }.

Definition node_element (id container host : Uuid) (e : ElementEntityType) (h : option string) : Node :=
  {| n_id := id; header := h;
     node_type := Element {| in_container := container; on_host := host; element := e; inline_groups := [] |} |}.

Definition top_container (id : Uuid) (t : ContainerType) (e : option Uuid) (accept : bool) (h : option string) : Node :=
  {| n_id := id; header := h;
     node_type := Container {| container_type := t; parent_container := None; entity := e;
       associated_service_definition := None; element_rule_id := None; will_accept_edges := accept |} |}.

Definition is_element (n : Node) : bool := match node_type n with Element _ => true | Container _ => false end.

(** The [vertical_order] of a subnet type, a layer. *)
Definition vertical_order (t : SubnetType) : Z :=
  match t with
  | SInternet | SRemote => 0
  | SGateway | SDmz | SVpnTunnel => 1
  | SLan | SWiFi | SGuest | SIoT => 2
  | SDockerBridge | SPodmanBridge | SMacVlan | SIpVlan | SManagement | SStorage => 3
  | SLoopback | SUnknown => 999
  end.
Definition exclude_from_topology (t : SubnetType) : bool := match t with SLoopback => true | _ => false end.
Definition show_label (t : SubnetType) : bool := match t with SUnknown | SLoopback => false | _ => true end.

(** ** Edges *)

Inductive DiscoveryProtocol := ByLLDP | ByCDP.

Inductive EdgeType :=
| ET_SameHost (host : Uuid)
| ET_Hypervisor (service : Uuid)
| ET_ContainerRuntime (host service : Uuid) (subnets containers : list Uuid)
| ET_SameContainer (service : Uuid)
| ET_RequestPath (dependency source target : Uuid)
| ET_HubAndSpoke (dependency source target : Uuid)
| ET_PhysicalLink (source target : Uuid) (p : DiscoveryProtocol)
| ET_NeighborLink (source target : Uuid) (p : DiscoveryProtocol).

Inductive EdgeTypeDiscriminants :=
| D_SameHost | D_Hypervisor | D_ContainerRuntime | D_SameContainer | D_RequestPath | D_HubAndSpoke
| D_PhysicalLink | D_NeighborLink.
Definition edge_discriminant (t : EdgeType) : EdgeTypeDiscriminants :=
  match t with
  | ET_SameHost _ => D_SameHost | ET_Hypervisor _ => D_Hypervisor
  | ET_ContainerRuntime _ _ _ _ => D_ContainerRuntime | ET_SameContainer _ => D_SameContainer
  | ET_RequestPath _ _ _ => D_RequestPath | ET_HubAndSpoke _ _ _ => D_HubAndSpoke
  | ET_PhysicalLink _ _ _ => D_PhysicalLink | ET_NeighborLink _ _ _ => D_NeighborLink
  end.

Inductive EdgeDefaultVisibility := Visible | Hidden.
Inductive EdgeStroke := Solid | Dashed | Dotted.
Inductive EdgeHighlightBehavior := WhenVisible | Always | Never.
Inductive EdgeViewConfig :=
| EdgeDisabled
| EdgeActive (affects_layout : bool) (v : EdgeDefaultVisibility) (s : EdgeStroke) (h : EdgeHighlightBehavior)
    (will_target_container show_directionality : bool).

Inductive EdgeSelectionScope := ConnectedNodes | Segment.
Definition selection_scope (t : EdgeType) : EdgeSelectionScope :=
  match t with
  | ET_RequestPath _ _ _ | ET_HubAndSpoke _ _ _ | ET_SameHost _ | ET_SameContainer _ => ConnectedNodes
  | ET_ContainerRuntime _ _ _ _ | ET_Hypervisor _ | ET_PhysicalLink _ _ _ | ET_NeighborLink _ _ _ => Segment
  end.

Record Edge := {
  e_source : Uuid;
  e_target : Uuid;
  edge_type : EdgeType;
  label : option string;
  is_multi_hop : bool;
  view_config : EdgeViewConfig;
  relation : option string
}.

(** An edge as the builders construct it. *)
Definition new_edge (source target : Uuid) (t : EdgeType) (l : option string) (multi_hop : bool) : Edge :=
  {| e_source := source; e_target := target; edge_type := t; label := l; is_multi_hop := multi_hop;
     view_config := EdgeDisabled; relation := None |}.

Section RelationKey.
Context `{UuidLib}.

Definition pair_key (a b : Uuid) : string :=
  if (a <? b)%N then uuid_text a +:+ ":" +:+ uuid_text b else uuid_text b +:+ ":" +:+ uuid_text a.

Definition relation_key (t : EdgeType) : option string :=
  match t with
  | ET_RequestPath d _ _ | ET_HubAndSpoke d _ _ => Some (uuid_text d)
  | ET_SameHost h => Some (uuid_text h)
  | ET_SameContainer s => Some (uuid_text s)
  | ET_PhysicalLink a b _ | ET_NeighborLink a b _ => Some (pair_key a b)
  | ET_Hypervisor _ | ET_ContainerRuntime _ _ _ _ => None
  end.
End RelationKey.

(** [TopologyView::edge_view_config]. *)
Definition edge_view_config (v : TopologyView) (t : EdgeTypeDiscriminants) : EdgeViewConfig :=
  match v, t with
  | L3Logical, D_SameHost => EdgeActive true Visible Solid WhenVisible false false
  | L3Logical, D_ContainerRuntime => EdgeActive true Visible Solid WhenVisible true false
  | L3Logical, (D_RequestPath | D_HubAndSpoke) => EdgeActive false Visible Dashed WhenVisible false true
  | L3Logical, D_Hypervisor => EdgeActive false Hidden Dashed WhenVisible true false
  | L3Logical, (D_PhysicalLink | D_NeighborLink) => EdgeDisabled
  | L3Logical, D_SameContainer => EdgeActive false Hidden Dotted WhenVisible false false
  | L2Physical, D_PhysicalLink => EdgeActive true Visible Solid WhenVisible false false
  | L2Physical, D_NeighborLink => EdgeActive true Visible Dashed WhenVisible false false
  | L2Physical, D_SameHost => EdgeActive false Hidden Dashed WhenVisible false false
  | L2Physical, _ => EdgeDisabled
  | Workloads, (D_PhysicalLink | D_NeighborLink) => EdgeActive false Hidden Dashed WhenVisible false false
  | Workloads, (D_RequestPath | D_HubAndSpoke) => EdgeActive false Hidden Dashed WhenVisible false true
  | Workloads, _ => EdgeDisabled
  | ApplicationView, (D_RequestPath | D_HubAndSpoke) => EdgeActive true Visible Solid WhenVisible false true
  | ApplicationView, D_ContainerRuntime => EdgeActive true Hidden Dashed Always true false
  | ApplicationView, _ => EdgeDisabled
  end.

(** ** Grouping rules *)

Inductive ContainerRule := BySubnet | MergeContainerBridges | ByApplication (tags : list Uuid) | ByHost.
Inductive ElementRule :=
| ByServiceCategory (categories : list ServiceCategory) (title : option string) (is_infra_rule : bool)
| ByTag (tags : list Uuid) (title : option string)
| ByHypervisor | ByContainerRuntime | ByStack | ByTrunkPort | ByVLAN | ByPortOpStatus.

Definition container_rule_views (r : ContainerRule) : list TopologyView :=
  match r with
  | BySubnet | MergeContainerBridges => [L3Logical]
  | ByApplication _ => [ApplicationView]
  | ByHost => [L2Physical; Workloads]
  end.
Definition element_rule_views (r : ElementRule) : list TopologyView :=
  match r with
  | ByServiceCategory _ _ _ => [ApplicationView; Workloads]
  | ByTag _ _ => [L3Logical; L2Physical; Workloads; ApplicationView]
  | ByHypervisor | ByContainerRuntime => [Workloads]
  | ByStack => [L3Logical; ApplicationView]
  | ByTrunkPort | ByVLAN | ByPortOpStatus => [L2Physical]
  end.
Definition rule_accepts_edges (r : ElementRule) : bool :=
  match r with ByHypervisor | ByContainerRuntime | ByStack => true | _ => false end.
Definition rule_allow_multiple (r : ElementRule) : bool :=
  match r with ByServiceCategory _ _ _ | ByTag _ _ => true | _ => false end.
Definition rule_is_reorderable (r : ElementRule) : bool :=
  match r with ByTrunkPort | ByVLAN | ByPortOpStatus => false | _ => true end.

Record IdentifiedRule (T : Type) := { rule_id : Uuid; rule : T }.
Arguments rule_id {_}. Arguments rule {_}. Arguments Build_IdentifiedRule {_}.

Inductive PlacementDecision :=
| PlaceElement
| BecomeSubcontainer (container : Uuid)
| PlaceInContainer (container : Uuid)
| InlineOn (node : Uuid) (group : option InlineGroup).

Record GroupingConfig := {
  container_rules : list (IdentifiedRule ContainerRule);
  element_rules : list (IdentifiedRule ElementRule)
}.

(** ** Metadata filters *)

Inductive MetadataFilterType := FilterCategory | FilterVirtualization | FilterLinkState | FilterStaleness.
#[export] Instance MetadataFilterType_eq_dec : EqDecision MetadataFilterType.
Proof. solve_decision. Defined.
Inductive FilterApplication := ClientSide | ServerSide.
#[export] Instance FilterApplication_eq_dec : EqDecision FilterApplication.
Proof. solve_decision. Defined.

(** A filter without its label and choices, which are for display. *)
Record MetadataFilter := { filter_type : MetadataFilterType; applies : FilterApplication }.

Record ViewElementConfig := {
  container_entity : option EntityDiscriminants;
  element_entities : list (EntityDiscriminants * list EntityDiscriminants);
  metadata_filters : list (EntityDiscriminants * list MetadataFilter)
}.

(** [entry(k).or_default()], then a change: of an association list. *)
Fixpoint entry_modify {K V} `{EqDecision K} (k : K) (d : V) (f : V → V) (l : list (K * V)) : list (K * V) :=
  match l with
  | [] => [(k, f d)]
  | (k', v) :: l => if decide (k = k') then (k', f v) :: l else (k', v) :: entry_modify k d f l
  end.
Definition assoc {K V} `{EqDecision K} (k : K) (l : list (K * V)) : option V :=
  snd <$> List.find (λ kv, bool_decide (kv.1 = k)) l.

Definition base_element_config (v : TopologyView) : ViewElementConfig :=
  let by_category := {| filter_type := FilterCategory; applies := ClientSide |} in
  match v with
  | L3Logical => {| container_entity := Some E_Subnet; element_entities := [(E_IPAddress, [E_Port; E_Service])];
                    metadata_filters := [(E_Service, [by_category])] |}
  | L2Physical => {| container_entity := Some E_Host; element_entities := [(E_Interface, [])];
                     metadata_filters :=
                       [(E_Interface, [{| filter_type := FilterLinkState; applies := ServerSide |}])] |}
  | Workloads => {| container_entity := Some E_Host;
                    element_entities := [(E_Service, []); (E_Host, [E_Service])];
                    metadata_filters := [(E_Service, [by_category]);
                      (E_Host, [{| filter_type := FilterVirtualization; applies := ClientSide |}])] |}
  | ApplicationView => {| container_entity := None; element_entities := [(E_Service, [])];
                          metadata_filters := [(E_Service, [by_category])] |}
  end.

Definition add_staleness_filters (c : ViewElementConfig) : ViewElementConfig :=
  let used e := existsb (λ x, bool_decide (x.1 = e) || bool_decide (e ∈ x.2)) (element_entities c) in
  {| container_entity := container_entity c; element_entities := element_entities c;
     metadata_filters := foldl (λ fs e,
       if used e
       then entry_modify e [] (λ l, l ++ [{| filter_type := FilterStaleness; applies := ClientSide |}]) fs
       else fs) (metadata_filters c) [E_Host; E_Service] |}.

Definition element_config (v : TopologyView) : ViewElementConfig := add_staleness_filters (base_element_config v).

(** What is hidden, by view, entity and filter; [None] when nothing was chosen. *)
Definition HideSet := TopologyView → EntityDiscriminants → MetadataFilterType → option (list string).

Definition default_hidden_values : HideSet := λ v e f,
  match e, f with
  | E_Service, FilterCategory => Some ["OpenPorts"%string]
  | E_Interface, FilterLinkState => match v with L2Physical => Some ["Unlinked"%string] | _ => None end
  | _, _ => None
  end.

Record TopologyRequestOptions := {
  hide_metadata_values : HideSet;
  view_container_rules : TopologyView → list (IdentifiedRule ContainerRule);
  request_element_rules : list (IdentifiedRule ElementRule)
}.

Definition merge_missing_hide_defaults (h : HideSet) : HideSet := λ v e f,
  match h v e f with Some l => Some l | None => default_hidden_values v e f end.

(** [GroupingConfig::from_request_options]. *)
Definition from_request_options (o : TopologyRequestOptions) (v : TopologyView) : GroupingConfig := {|
  container_rules := view_container_rules o v;
  element_rules := List.filter (λ r, bool_decide (v ∈ element_rule_views (rule r))) (request_element_rules o) |}.

Definition should_group_container_bridges (g : GroupingConfig) : bool :=
  existsb (λ r, match rule r with MergeContainerBridges => true | _ => false end) (container_rules g).
Definition subnets_are_containers (g : GroupingConfig) : bool :=
  existsb (λ r, match rule r with BySubnet => true | _ => false end) (container_rules g).

(** Categories that no use case cares about: the default infrastructure rule. *)
Definition application_irrelevant (c : ServiceCategory) : bool :=
  match c with
  | NetworkCore | NetworkAccess | RemoteAccess | Workstation | Mobile | Printer | OpenPorts => true
  | _ => false
  end.

Record ServerHideSet := {
  by_filter : list (MetadataFilterType * list (string * nat));
  rendering_views : nat
}.

Definition hides (s : ServerHideSet) (values : list (MetadataFilterType * string)) : bool :=
  if (rendering_views s =? 0)%nat then false
  else existsb (λ fv, match assoc fv.1 (by_filter s) ≫= assoc fv.2 with
                      | Some hiding => (rendering_views s <=? hiding)%nat
                      | None => false
                      end) values.

(** One filter of a view: count the values it hides. *)
Definition count_hidden (hidden : MetadataFilterType → option (list string)) (s : ServerHideSet) (f : MetadataFilter)
    : ServerHideSet :=
  match hidden (filter_type f) with
  | None => s
  | Some values =>
      {| rendering_views := rendering_views s;
         by_filter := entry_modify (filter_type f) []
           (λ counts, foldl (λ c v, entry_modify v 0%nat S c) counts values) (by_filter s) |}
  end.

Definition hide_entity (h : HideSet) (v : TopologyView) (out : list (EntityDiscriminants * ServerHideSet))
    (ef : EntityDiscriminants * list MetadataFilter) : list (EntityDiscriminants * ServerHideSet) :=
  match List.filter (λ f, bool_decide (applies f = ServerSide)) ef.2 with
  | [] => out
  | server_filters =>
      entry_modify ef.1 {| by_filter := []; rendering_views := 0 |}
        (λ s, foldl (count_hidden (h v ef.1))
                {| by_filter := by_filter s; rendering_views := S (rendering_views s) |} server_filters) out
  end.

Definition server_hide_sets (h : HideSet) : list (EntityDiscriminants * ServerHideSet) :=
  List.filter (λ es, match by_filter es.2 with [] => false | _ => true end)
    (foldl (λ out v, foldl (hide_entity h v) out (metadata_filters (element_config v))) [] all_views).

Definition referenced_neighbour_interfaces (l : list InterfaceRow) : gset Uuid :=
  list_to_set (omap (λ i, neighbor (if_base i) ≫= neighbor_interface_id) l).

Definition link_state_id (s : InterfaceLinkState) : string :=
  match s with Linked => "Linked" | Unlinked => "Unlinked" end.

Definition interface_filter_values (referenced : gset Uuid) (i : InterfaceRow) : list (MetadataFilterType * string) :=
  [(FilterLinkState, link_state_id (classify (neighbor (if_base i)) (bool_decide (if_id i ∈ referenced))))].

Definition retain_visible {A} (s : option ServerHideSet) (values : A → list (MetadataFilterType * string))
    (l : list A) : list A :=
  match s with None => l | Some s => List.filter (λ x, negb (hides s (values x))) l end.

Definition category_id (c : ServiceCategory) : string :=
  match c with
  | NetworkCore => "NetworkCore" | NetworkAccess => "NetworkAccess" | NetworkAppliance => "NetworkAppliance"
  | RemoteAccess => "RemoteAccess" | CatStorage => "Storage" | Backup => "Backup" | Media => "Media"
  | HomeAutomation => "HomeAutomation" | Patterns.Hypervisor => "Hypervisor"
  | Patterns.ContainerRuntime => "ContainerRuntime" | CatContainer => "Container" | Orchestrator => "Orchestrator"
  | DNS => "DNS" | VPN => "VPN" | Monitoring => "Monitoring" | AdBlock => "AdBlock"
  | ReverseProxy => "ReverseProxy" | Workstation => "Workstation" | Mobile => "Mobile" | CatIoT => "IoT"
  | Printer => "Printer" | Database => "Database" | Development => "Development" | Dashboard => "Dashboard"
  | MessageQueue => "MessageQueue" | IdentityAndAccess => "IdentityAndAccess"
  | Patterns.Integration => "Integration" | Office => "Office" | ProjectManagement => "ProjectManagement"
  | Messaging => "Messaging" | Conferencing => "Conferencing" | Telephony => "Telephony" | Email => "Email"
  | Publishing => "Publishing" | CatUnknown => "Unknown" | CatCustom => "Custom" | Scanopy => "Scanopy"
  | OpenPorts => "OpenPorts"
  end%string.

(** ** The context of a build *)

Record VlanRow := { vlan_id : Uuid; vlan_number : Z; vlan_name : string }.
Record TagRow := { tag_id : Uuid; tag_name : string; is_application : bool }.

Record TopologyContext := {
  c_hosts : list HostRow;
  c_ip_addresses : list IPAddress;
  c_subnets : list Subnet;
  c_services : list Service;
  c_dependencies : list Dependency;
  c_interfaces : list InterfaceRow;
  c_tags : list TagRow;
  c_vlans : list VlanRow;
  c_request : TopologyRequestOptions;
  c_view : TopologyView
}.

Section Context_.
Context (registry : list ServiceDefinition) (ctx : TopologyContext).

Definition service_category (s : Service) : ServiceCategory :=
  def_category (resolve_definition registry (service_definition (sv_base s))).

(** [virtualization_role] of a definition is set. *)
Definition is_virtualizer (s : Service) : bool :=
  existsb (String.eqb (def_name (resolve_definition registry (service_definition (sv_base s)))))
    ["Proxmox VE"; "vCenter"; "ESXi"; "Docker"; "Podman"]%string.

Definition host_filter_values (h : HostRow) : list (MetadataFilterType * string) :=
  [(FilterVirtualization,
    match h_virtualization_metadata (h_base h) with Some _ => "Virtualized" | None => "BareMetal" end%string)].
Definition service_filter_values (s : Service) : list (MetadataFilterType * string) :=
  [(FilterCategory, category_id (service_category s))].

(** [apply_server_metadata_filters]: the rows the views are built from. *)
Definition apply_server_metadata_filters : TopologyContext :=
  let sets := server_hide_sets (hide_metadata_values (c_request ctx)) in
  match sets with
  | [] => ctx
  | _ =>
      let referenced := referenced_neighbour_interfaces (c_interfaces ctx) in
      {| c_interfaces := retain_visible (assoc E_Interface sets) (interface_filter_values referenced) (c_interfaces ctx);
         c_hosts := retain_visible (assoc E_Host sets) host_filter_values (c_hosts ctx);
         c_services := retain_visible (assoc E_Service sets) service_filter_values (c_services ctx);
         c_ip_addresses := c_ip_addresses ctx; c_subnets := c_subnets ctx; c_dependencies := c_dependencies ctx;
         c_tags := c_tags ctx; c_vlans := c_vlans ctx; c_request := c_request ctx; c_view := c_view ctx |}
  end.

Definition get_subnet_by_id (id : Uuid) : option Subnet := List.find (λ s, (s_id s =? id)%N) (c_subnets ctx).
Definition get_host_by_id (id : Uuid) : option HostRow := List.find (λ h, (h_id h =? id)%N) (c_hosts ctx).
Definition get_service_by_id (id : Uuid) : option Service := List.find (λ s, (sv_id s =? id)%N) (c_services ctx).
Definition get_ip_address_by_id (id : Uuid) : option IPAddress :=
  List.find (λ i, (ip_id i =? id)%N) (c_ip_addresses ctx).
Definition get_interface_by_id (id : Uuid) : option InterfaceRow :=
  List.find (λ i, (if_id i =? id)%N) (c_interfaces ctx).
Definition get_vlan_by_id (id : Uuid) : option VlanRow := List.find (λ v, (vlan_id v =? id)%N) (c_vlans ctx).

Definition get_ip_addresses_for_host (h : Uuid) : list IPAddress :=
  List.filter (λ i, (ip_host_id (ip_base i) =? h)%N) (c_ip_addresses ctx).
Definition get_services_for_host (h : Uuid) : list Service :=
  List.filter (λ s, (sv_host_id (sv_base s) =? h)%N) (c_services ctx).
Definition get_interfaces_for_host (h : Uuid) : list InterfaceRow :=
  List.filter (λ i, (if_host_id (if_base i) =? h)%N) (c_interfaces ctx).

Definition get_first_non_container_bridge_ip_address_for_host (h : Uuid) : option IPAddress :=
  List.find (λ i, (ip_host_id (ip_base i) =? h)%N
    && match get_subnet_by_id (subnet_id (ip_base i)) with
       | Some s => negb (is_container_bridge (subnet_type (s_base s))) && negb (type_is_loopback (subnet_type (s_base s)))
       | None => false
       end) (c_ip_addresses ctx).

Definition get_services_bound_to_ip_address (ip : Uuid) : list Service :=
  List.filter (λ s, existsb (λ i, bool_decide (i = Some ip)) (to_bound_ip_address_ids s)) (c_services ctx).

Definition get_subnet_from_ip_address_id (ip : Uuid) : option Subnet :=
  i ← get_ip_address_by_id ip; get_subnet_by_id (subnet_id (ip_base i)).

Definition resolve_ip_address_for_interface (i : InterfaceRow) : option Uuid :=
  match if_ip_address_id (if_base i) with
  | Some ip => Some ip
  | None => match get_ip_addresses_for_host (if_host_id (if_base i)) with
            | [a] => Some (ip_id a)
            | _ => None
            end
  end.

Definition get_interfaces_with_neighbor : list InterfaceRow :=
  List.filter (λ i, match neighbor (if_base i) with Some (NeighborInterface _) => true | _ => false end) (c_interfaces ctx).
Definition get_interfaces_with_host_neighbor : list InterfaceRow :=
  List.filter (λ i, match neighbor (if_base i) with Some (NeighborHost _) => true | _ => false end) (c_interfaces ctx).

Definition get_host_is_virtualized_by (h : Uuid) : option Service :=
  host ← get_host_by_id h; s ← h_virtualization_service_id (h_base host); get_service_by_id s.

Definition edge_is_multi_hop (source target : Uuid) : bool :=
  match get_subnet_from_ip_address_id source, get_subnet_from_ip_address_id target with
  | Some a, Some b => 1 <? Z.abs (vertical_order (subnet_type (s_base a)) - vertical_order (subnet_type (s_base b)))
  | _, _ => false
  end.

(** The service of each binding; of a binding that occurs twice, the last. *)
Definition build_binding_to_service_map : gmap Uuid Uuid :=
  foldl (λ m s, foldl (λ m b, <[b_id b := sv_id s]> m) m (bindings (sv_base s))) ∅ (c_services ctx).
End Context_.

(** Names of devices as text. *)
Definition display_text (i : InterfaceRow) : string := bytes_str (display_name i).

(** " ↔ " in UTF-8. *)
Definition arrow : string :=
  " " +:+ String (ascii_of_nat 226) (String (ascii_of_nat 134) (String (ascii_of_nat 148) " ")).

Definition compose_project_of (s : Service) : option string := virtualization_metadata (sv_base s) ≫= compose_project.

(** ** Grouping into maps *)

(** [collect] into a map: of two entries with one key the last stays. *)
Definition collect_map {V} (l : list (Uuid * V)) : gmap Uuid V := foldl (λ m kv, <[kv.1 := kv.2]> m) ∅ l.

(** [entry(k).or_default().push(x)]. *)
Definition map_push {K A} `{Countable K} (k : K) (x : A) (m : gmap K (list A)) : gmap K (list A) :=
  <[k := default [] (m !! k) ++ [x]]> m.

(** Push every element that has a key under its key. *)
Definition group_by {K A} `{Countable K} (key : A → option K) (l : list A) : gmap K (list A) :=
  foldl (λ m x, match key x with Some k => map_push k x m | None => m end) ∅ l.

Definition has_key {K A} `{Countable K} (key : A → option K) (k : K) (x : A) : bool := bool_decide (key x = Some k).

Section GroupBy.
Context {K A : Type} `{Countable K} (key : A → option K).

Lemma foldl_group_by l m k :
  foldl (λ m x, match key x with Some k => map_push k x m | None => m end) m l !! k
  = match List.filter (has_key key k) l with [] => m !! k | g => Some (default [] (m !! k) ++ g) end.
Proof.
  revert m. induction l as [|x l IH]; intros m; [done|]. simpl. rewrite IH. unfold has_key at 2, map_push.
  destruct (key x) as [k'|] eqn:Hk.
  - case_bool_decide as E; [injection E as ->|].
    + rewrite lookup_insert_eq. simpl. destruct (List.filter (has_key key k) l); [done|].
      by rewrite <- app_assoc.
    + rewrite lookup_insert_ne by congruence. done.
  - rewrite bool_decide_false by done. done.
Qed.

Lemma lookup_group_by l k :
  group_by key l !! k = match List.filter (has_key key k) l with [] => None | g => Some g end.
Proof. unfold group_by. rewrite foldl_group_by, lookup_empty. by destruct (List.filter _ _). Qed.

(** A group is what has its key, in order, and is not empty. *)
Lemma group_by_Some l k g :
  group_by key l !! k = Some g ↔ g = List.filter (has_key key k) l ∧ g ≠ [].
Proof.
  rewrite lookup_group_by. destruct (List.filter (has_key key k) l); naive_solver.
Qed.

Lemma group_by_elem l x k :
  x ∈ l → key x = Some k → ∃ g, group_by key l !! k = Some g ∧ x ∈ g.
Proof.
  intros Hx Hk. exists (List.filter (has_key key k) l).
  assert (x ∈ List.filter (has_key key k) l).
  { apply elem_of_list_filter_bool. split; [|done]. unfold has_key. by apply bool_decide_eq_true. }
  split; [|done]. apply group_by_Some. split; [done|]. intros E. rewrite E in H0. by apply elem_of_nil in H0.
Qed.
End GroupBy.

Lemma lookup_collect_map {V} (l : list (Uuid * V)) k v :
  NoDup l.*1 → collect_map l !! k = Some v ↔ (k, v) ∈ l.
Proof.
  unfold collect_map.
  assert (∀ m : gmap Uuid V, NoDup l.*1 → foldl (λ m kv, <[kv.1 := kv.2]> m) m l !! k = Some v
            ↔ (k, v) ∈ l ∨ m !! k = Some v ∧ k ∉ l.*1) as Hgen.
  { induction l as [|[k' v'] l IH]; intros m Hnd; csimpl; [set_solver|]. csimpl in Hnd.
    inversion Hnd as [|? ? Hk' Hnd']; subst. rewrite (IH _ Hnd'), !elem_of_cons. clear IH.
    assert ((k, v) ∈ l → k ∈ l.*1) by (intros ?; by apply (list_elem_of_fmap_2 fst) in H).
    destruct (decide (k = k')) as [->|Hne].
    - rewrite lookup_insert_eq. naive_solver.
    - rewrite lookup_insert_ne by done. naive_solver. }
  intros Hnd. rewrite (Hgen ∅ Hnd), lookup_empty. naive_solver.
Qed.

(** Ids are unique: a row is found by its own id. *)
Lemma find_by_key {A} (f : A → Uuid) (l : list A) x :
  NoDup (f <$> l) → x ∈ l → List.find (λ y, (f y =? f x)%N) l = Some x.
Proof.
  intros Hnd Hx. destruct (List.find _ l) as [y|] eqn:E.
  - apply find_elem in E as [Hy Hf]. apply N.eqb_eq in Hf. f_equal. by eapply NoDup_key_inj.
  - rewrite find_None_Forall in E. pose proof (proj1 (Forall_forall _ _) E x) as Hc. exfalso.
    rewrite <- list_elem_of_In in Hc. specialize (Hc Hx). simpl in Hc. by rewrite N.eqb_refl in Hc.
Qed.

Section Iteration.
Context `{MapOrder} {K : Type} `{Countable K} {V : Type}.

Lemma elem_of_map_iter (m : gmap K V) k v : (k, v) ∈ map_iter m ↔ m !! k = Some v.
Proof. rewrite (map_iter_perm m). apply elem_of_map_to_list. Qed.

Lemma NoDup_map_iter (m : gmap K V) : NoDup (map_iter m).*1.
Proof. rewrite (map_iter_perm m). apply NoDup_fst_map_to_list. Qed.
End Iteration.

Lemma elem_of_set_iter `{MapOrder} `{Countable K} (X : gset K) k : k ∈ set_iter X ↔ k ∈ X.
Proof.
  unfold set_iter. rewrite list_elem_of_fmap. split.
  - intros ([k' []] & -> & [? ?]%elem_of_map_iter%lookup_gset_to_gmap_Some). done.
  - intros Hk. exists (k, tt). split; [done|]. apply elem_of_map_iter, lookup_gset_to_gmap_Some. done.
Qed.

Lemma NoDup_set_iter `{MapOrder} `{Countable K} (X : gset K) : NoDup (set_iter X).
Proof. apply NoDup_map_iter. Qed.
