(* ===== verification/TopologySample.v ===== *)
(** Sample networks: rows for the witnesses of the topology theorems, and an
    instance of the uuid library that satisfies its laws. *)

From Stdlib Require Import Ascii.
From S2P Require Import Prelude Net Ports Position Entities ServiceIdentity Patterns Services Hosts HostMatch Locks Lldp Interfaces Subnets Topology.
Local Open Scope Z_scope.

(** ** A uuid library: derived ids are even *)

Fixpoint pos_text (p : positive) : string :=
  match p with
  | xH => "f"
  | xO p => String "0" (pos_text p)
  | xI p => String "1" (pos_text p)
  end.
Definition n_text (n : N) : string := match n with N0 => "a" | Npos p => pos_text p end.

Lemma pos_text_inj p q : pos_text p = pos_text q → p = q.
Proof. revert q. induction p; intros [?|?|]; simpl; intros [=]; f_equal; auto. Qed.

#[export] Instance sample_uuid : UuidLib := {|
  uuid_text := n_text;
  new_v5 n s := N.pos (encode (n, s))~0
|}.

#[export] Instance sample_uuid_laws : UuidLaws.
Proof.
  split.
  - intros [|p] [|q]; cbn; [done|by destruct q|by destruct p|]. by intros ->%pos_text_inj.
  - intros [|p]; [done|]. cbn. induction p; done.
  - intros n m s t. cbn. intros [= E%(inj encode)]. by injection E.
Qed.

(** ** Rows *)

Definition sample_meta : RowMeta := fresh_meta 0.
Definition sample_host (id : Uuid) (vm : option Uuid) : HostRow := {|
  h_id := id; h_meta := sample_meta;
  h_base := {| h_name := "host"; name_source := Manual; h_network_id := 1%N; hostname := None; h_description := None;
               h_source := SourceDiscovery; h_virtualization_metadata := None; h_virtualization_service_id := vm;
               hidden := false; h_tags := []; sys_descr := None; sys_object_id := None; sys_location := None;
               sys_contact := None; management_url := None; chassis_id := None; sys_name := None;
               manufacturer := None; model := None; serial_number := None; credential_assignments := [] |} |}.

Definition sample_ip (id host subnet : Uuid) (ip : IpAddr) : IPAddress := {|
  ip_id := id; ip_meta := sample_meta;
  ip_base := {| ip_network_id := 1%N; ip_host_id := host; subnet_id := subnet; ip_address := ip; mac_address := None;
                ip_name := None; ip_position := 0 |} |}.

Definition sample_subnet (id : Uuid) (t : SubnetType) : Subnet := {|
  s_id := id; s_meta := sample_meta;
  s_base := {| cidr := {| cidr_addr := ipv4 10 0 0 0; cidr_prefix := 8 |}; s_network_id := 1%N; s_name := "net";
               s_description := None; subnet_type := t; s_virtualization_service_id := None;
               s_source := SourceDiscovery; s_tags := [] |} |}.

Definition sample_container : ServiceVirtualization :=
  VirtDocker {| info_name := Some "c"%string; info_id := Some "c1"%string; info_compose_project := Some "shop"%string |}.

Definition sample_service (id host : Uuid) (def : string) (bs : list Binding) (virt : option Uuid)
    (tags : list Uuid) : Service := {|
  sv_id := id; sv_meta := sample_meta;
  sv_base := {| sv_host_id := host; sv_network_id := 1%N; service_definition := def; sv_name := def; bindings := bs;
                virtualization_metadata := match virt with Some _ => Some sample_container | None => None end;
                virtualization_service_id := virt; source := SourceDiscovery; sv_tags := tags; sv_position := 0 |} |}.

Definition sample_binding (id service ip : Uuid) : Binding :=
  binding_new id 0 {| b_service_id := service; b_network_id := 1%N; binding_type := BindIPAddress ip |}.

Definition sample_interface (id host : Uuid) (type : Z) (n : option Neighbor) : InterfaceRow := {|
  if_id := id; if_meta := sample_meta;
  if_base := {| if_host_id := host; if_network_id := 1%N; if_index := 1; if_descr := [112]; if_name := None;
    if_alias := None; if_type := type; speed_bps := None; admin_status := AdminUp; oper_status := OperUp;
    if_mac := None; if_ip_address_id := None; neighbor := n;
    lldp := lldp default_interface_base; cdp := cdp default_interface_base;
    fdb_macs := None; vlans := vlans default_interface_base |} |}.

Definition no_hiding : HideSet := λ _ _ _, None.
Definition sample_request (crules : TopologyView → list (IdentifiedRule ContainerRule))
    (erules : list (IdentifiedRule ElementRule)) : TopologyRequestOptions := {|
  hide_metadata_values := no_hiding; view_container_rules := crules; request_element_rules := erules |}.

Definition sample_context (v : TopologyView) (r : TopologyRequestOptions) (hosts : list HostRow) (ips : list IPAddress)
    (subnets : list Subnet) (services : list Service) (deps : list Dependency) (interfaces : list InterfaceRow)
    (tags : list TagRow) : TopologyContext := {|
  c_hosts := hosts; c_ip_addresses := ips; c_subnets := subnets; c_services := services; c_dependencies := deps;
  c_interfaces := interfaces; c_tags := tags; c_vlans := []; c_request := r; c_view := v |}.

Definition sample_definition (name : string) (c : ServiceCategory) : ServiceDefinition := {|
  def_name := name; description := ""; def_category := c; discovery_pattern := NoPattern; def_is_generic := false;
  logo_url := ""; logo_needs_white_background := false |}.
Definition sample_registry : list ServiceDefinition :=
  [sample_definition "Docker" Patterns.ContainerRuntime; sample_definition "Proxmox VE" Patterns.Hypervisor;
   sample_definition "PostgreSQL" Database].

Lemma derived_even n s : N.even (new_v5 n s) = true.
Proof. done. Qed.

(** No derived id is among odd ones. *)
Lemma derived_not_odd n s l : forallb N.odd l = true → new_v5 n s ∉ l.
Proof.
  rewrite forallb_elem. intros Hl Hin. specialize (Hl _ Hin). rewrite <- N.negb_even, derived_even in Hl. done.
Qed.

(** ** Networks *)

Definition boxes_by_view (v : TopologyView) : list (IdentifiedRule ContainerRule) :=
  match v with L3Logical => [{| rule_id := 91%N; rule := BySubnet |}] | _ => [] end.
Definition merged_boxes (v : TopologyView) : list (IdentifiedRule ContainerRule) :=
  match v with
  | L3Logical => [{| rule_id := 91%N; rule := BySubnet |}; {| rule_id := 93%N; rule := MergeContainerBridges |}]
  | _ => []
  end.

(** A container of Docker on two bridges of its host. *)
Definition docker_network : TopologyContext :=
  sample_context L3Logical (sample_request boxes_by_view [{| rule_id := 95%N; rule := ByStack |}])
    [sample_host 1%N None]
    [sample_ip 21%N 1%N 11%N (ipv4 10 0 0 1); sample_ip 23%N 1%N 13%N (ipv4 172 17 0 9);
     sample_ip 25%N 1%N 15%N (ipv4 172 18 0 2)]
    [sample_subnet 11%N SLan; sample_subnet 13%N SDockerBridge; sample_subnet 15%N SDockerBridge]
    [sample_service 31%N 1%N "Docker" [sample_binding 45%N 31%N 21%N] None [];
     sample_service 33%N 1%N "PostgreSQL" [sample_binding 41%N 33%N 23%N; sample_binding 43%N 33%N 25%N] (Some 31%N) []]
    [] [] [].

(** Two switches; [far] is the type of the far port. *)
Definition switches (far : Z) (hosts : list HostRow) (extra : list InterfaceRow) : TopologyContext :=
  sample_context L2Physical (sample_request (λ _, []) []) hosts [] [] [] []
    ([sample_interface 51%N 1%N 6 (Some (NeighborInterface 53%N)); sample_interface 53%N 3%N far None;
      sample_interface 57%N 3%N 6 None] ++ extra) [].

(** A hypervisor, a virtual machine and what runs on it. *)
Definition vm_network (rules : list (IdentifiedRule ElementRule)) (hypervisor_on : Uuid) (deps : list Dependency)
    : TopologyContext :=
  sample_context Workloads (sample_request (λ _, []) rules)
    [sample_host 1%N None; sample_host 3%N (Some 31%N)] [] []
    [sample_service 31%N hypervisor_on "Proxmox VE" [] None [];
     sample_service 33%N 3%N "PostgreSQL" [sample_binding 41%N 33%N 21%N] None [];
     sample_service 35%N 3%N "PostgreSQL" [sample_binding 43%N 35%N 21%N] None []]
    deps [] [].
Definition vm_rules : list (IdentifiedRule ElementRule) := [{| rule_id := 95%N; rule := ByHypervisor |}].

(** Closed facts about the samples, by evaluation. *)
Ltac by_evaluation := apply (bool_decide_unpack _); vm_compute; exact I.
