(* ===== verification/ElementRules.v ===== *)
(** Element rules: how the elements of a container are grouped further.

    [server/topology/service/element_rules.rs].  Every rule groups the elements
    that no earlier rule has claimed, container by container; the groups become
    subcontainers. *)

From stdpp Require Import pretty.
From S2P Require Import Prelude Net Ports Position Entities ServiceIdentity Patterns Services Hosts HostMatch Locks Lldp Interfaces Subnets Topology.
Local Open Scope Z_scope.

(** ** Tags of an element *)

Definition is_taggable (e : EntityDiscriminants) : bool :=
  match e with
  | E_Host | E_Service | E_Subnet | E_Dependency | E_Network | E_Discovery | E_Daemon | E_DaemonApiKey
  | E_UserApiKey | E_Credential => true
  | _ => false
  end.
Definition parent_taggable_entity (e : EntityDiscriminants) : option EntityDiscriminants :=
  match e with E_Interface | E_IPAddress | E_Port => Some E_Host | _ => None end.

Record TaggableLookups := {
  tl_hosts : option (Uuid → option HostRow);
  tl_services : option (Uuid → option Service);
  tl_subnets : option (Uuid → option Subnet)
}.

Definition resolve_element_tag_ids (e : EntityDiscriminants) (ancestor_id : Uuid) (l : TaggableLookups) : list Uuid :=
  match (if is_taggable e then Some e else parent_taggable_entity e) with
  | Some E_Host => default [] ((λ h, h_tags (h_base h)) <$> (tl_hosts l ≫= λ m, m ancestor_id))
  | Some E_Service => default [] ((λ s, sv_tags (sv_base s)) <$> (tl_services l ≫= λ m, m ancestor_id))
  | Some E_Subnet => default [] ((λ s, s_tags (s_base s)) <$> (tl_subnets l ≫= λ m, m ancestor_id))
  | _ => []
  end.

(** ** What a rule sees *)

Record ElementMatchData := {
  md_categories : list ServiceCategory;
  md_tags : list Uuid;
  md_entity : EntityDiscriminants;
  md_virtualizer : option Uuid;
  md_deployment_group : option string;
  md_native_vlan : option Uuid;
  md_vlan_number : option Z;
  md_vlan_name : option string;
  md_is_trunk_port : bool;
  md_oper_status : option IfOperStatus
}.

Record InlineContext := {
  ic_hosts : gmap Uuid HostRow;
  ic_services : gmap Uuid Service;
  (** virtualizer to the container services it manages *)
  ic_containers : gmap Uuid (list Uuid)
}.

Record PlacementContext := {
  pc_rule_id : Uuid;
  pc_elements : gmap Uuid (list Uuid);
  pc_match_data : gmap Uuid ElementMatchData;
  pc_claimed : gset Uuid;
  pc_titles : option (gmap Uuid string);
  pc_inline : option InlineContext
}.

Record RulePlacement := {
  rp_containers : list Node;
  rp_placements : gmap Uuid PlacementDecision;
  rp_claimed : gset Uuid
}.
Definition empty_placement : RulePlacement := {| rp_containers := []; rp_placements := ∅; rp_claimed := ∅ |}.

(** A subcontainer with its members; [g_become] is the entity it stands for. *)
Record Group := { g_node : Node; g_become : option Uuid; g_ids : list Uuid }.

Definition add_group (r : RulePlacement) (g : Group) : RulePlacement :=
  let p := match g_become g with
           | Some v => <[v := BecomeSubcontainer (n_id (g_node g))]> (rp_placements r)
           | None => rp_placements r
           end in
  {| rp_containers := rp_containers r ++ [g_node g];
     rp_placements := foldl (λ m id, <[id := PlaceInContainer (n_id (g_node g))]> m) p (g_ids g);
     rp_claimed := rp_claimed r ∪ list_to_set (g_ids g) |}.

Definition subcontainer (id : Uuid) (t : ContainerType) (parent : Uuid) (rule : Uuid) (definition : option string)
    (accept : bool) (h : option string) : Node :=
  {| n_id := id; header := h;
     node_type := Container {| container_type := t; parent_container := Some parent; entity := None;
       associated_service_definition := definition; element_rule_id := Some rule; will_accept_edges := accept |} |}.

(** [Uuid::NAMESPACE_OID]. *)
Definition NAMESPACE_OID : Uuid := 0x6ba7b8129dad11d180b400c04fd430c8%N.

#[export] Instance IfOperStatus_eq_dec : EqDecision IfOperStatus.
Proof. solve_decision. Defined.
#[export] Program Instance IfOperStatus_countable : Countable IfOperStatus :=
  inj_countable' if_oper_to_i32 if_oper_of_i32 _.
Next Obligation. by intros []. Qed.

Section Rules.
Context `{UuidLib, MapOrder} (ctx : PlacementContext).
Local Open Scope string_scope.

Definition group_name (parent : Uuid) (suffix : string) : string :=
  uuid_text parent +:+ ":" +:+ uuid_text (pc_rule_id ctx) +:+ suffix.

Definition unclaimed (ids : list Uuid) : list Uuid :=
  List.filter (λ id, negb (bool_decide (id ∈ pc_claimed ctx))) ids.

(** Per container, the elements that satisfy a test form one group. *)
Definition matching_groups (test : ElementMatchData → bool) (mk : Uuid → Node) : list Group :=
  '(parent, ids) ← map_iter (pc_elements ctx);
  match List.filter (λ id, match pc_match_data ctx !! id with Some d => test d | None => false end) (unclaimed ids) with
  | [] => []
  | matched => [{| g_node := mk parent; g_become := None; g_ids := matched |}]
  end.

(** Per container, the elements that have a key form one group per key. *)
Definition keyed_groups {K} `{Countable K} (key : ElementMatchData → option K)
    (mk : Uuid → K → list Uuid → option (Node * option Uuid)) : list Group :=
  '(parent, ids) ← map_iter (pc_elements ctx);
  '(k, members) ← map_iter (group_by (λ id, pc_match_data ctx !! id ≫= key) (unclaimed ids));
  match mk parent k members with
  | Some (n, become) => [{| g_node := n; g_become := become; g_ids := members |}]
  | None => []
  end.

Definition service_category_groups (categories : list ServiceCategory) (title : option string) : list Group :=
  matching_groups (λ d, existsb (λ c, bool_decide (c ∈ md_categories d)) categories)
    (λ parent, subcontainer (new_v5 NAMESPACE_OID (group_name parent "")) CT_NestedServiceCategory parent
                 (pc_rule_id ctx) None false title).

Definition tag_groups (tags : list Uuid) (title : option string) : list Group :=
  matching_groups (λ d, existsb (λ t, bool_decide (t ∈ md_tags d)) tags)
    (λ parent, subcontainer (new_v5 NAMESPACE_OID (group_name parent "")) CT_NestedTag parent
                 (pc_rule_id ctx) None false title).

Definition trunk_port_groups : list Group :=
  matching_groups md_is_trunk_port
    (λ parent, subcontainer (new_v5 NAMESPACE_OID (group_name parent ":trunk")) CT_TrunkPort parent
                 (pc_rule_id ctx) None false (Some "Trunk Ports")).

Definition stack_groups : list Group :=
  keyed_groups md_deployment_group
    (λ parent project _,
       Some (subcontainer (new_v5 NAMESPACE_OID ("stack:" +:+ project +:+ ":" +:+ uuid_text parent)) CT_Stack parent
               (pc_rule_id ctx) None true (Some project), None)).

Definition vlan_groups : list Group :=
  keyed_groups md_vlan_number
    (λ parent number ids,
       let name := head ids ≫= λ id, pc_match_data ctx !! id ≫= md_vlan_name in
       Some (subcontainer (new_v5 NAMESPACE_OID (group_name parent (":vlan:" +:+ pretty number))) CT_VLAN parent
               (pc_rule_id ctx) None false
               (Some ("VLAN " +:+ pretty number +:+ match name with Some n => " (" +:+ n +:+ ")" | None => "" end)),
             None)).

Definition oper_status_name (s : IfOperStatus) : string :=
  match s with
  | OperUp => "Up" | OperDown => "Down" | OperTesting => "Testing" | OperUnknown => "Unknown"
  | Dormant => "Dormant" | NotPresent => "NotPresent" | LowerLayerDown => "LowerLayerDown"
  end.

Definition port_op_status_groups : list Group :=
  keyed_groups md_oper_status
    (λ parent status _,
       Some (subcontainer (new_v5 NAMESPACE_OID (group_name parent (":status:" +:+ pretty (if_oper_to_i32 status))))
               CT_PortOpStatus parent (pc_rule_id ctx) None false (Some (oper_status_name status)), None)).

Definition on_vm (ic : InlineContext) (host : Uuid) : bool :=
  match ic_hosts ic !! host with
  | Some h => bool_decide (is_Some (h_virtualization_service_id (h_base h)))
  | None => false
  end.

(** A virtualizer on a VM gets no subcontainer. *)
Definition virtualizer_skipped (v : Uuid) : bool :=
  match pc_inline ctx with
  | Some ic => match ic_services ic !! v with Some s => on_vm ic (sv_host_id (sv_base s)) | None => false end
  | None => false
  end.

Definition virtualizer_groups (t : ContainerType) (target : EntityDiscriminants) : list Group :=
  keyed_groups (λ d, if decide (md_entity d = target) then md_virtualizer d else None)
    (λ parent v _,
       if virtualizer_skipped v then None
       else
         let title := pc_titles ctx ≫= λ t, t !! v in
         Some (subcontainer (new_v5 NAMESPACE_OID (group_name parent (":" +:+ uuid_text v))) t parent
                 (pc_rule_id ctx) title true title, Some v)).

(** Services on a VM are shown on the VM. *)
Definition inline_hypervisor (ic : InlineContext) (p : gmap Uuid PlacementDecision) : gmap Uuid PlacementDecision :=
  foldl (λ p hh,
    if bool_decide (h_virtualization_service_id (h_base hh.2) = None) then p
    else foldl (λ p s,
      if (sv_host_id (sv_base s) =? hh.1)%N && bool_decide (virtualization_service_id (sv_base s) = None)
         && bool_decide (p !! sv_id s = None)
      then <[sv_id s := InlineOn hh.1 None]> p else p) p (map_iter (ic_services ic)).*2)
    p (map_iter (ic_hosts ic)).

(** A runtime on a VM and its containers are shown on the VM as one group. *)
Definition inline_runtime (ic : InlineContext) (p : gmap Uuid PlacementDecision) : gmap Uuid PlacementDecision :=
  foldl (λ p vc,
    match ic_services ic !! vc.1 with
    | None => p
    | Some s =>
        let host := sv_host_id (sv_base s) in
        if on_vm ic host then
          let p := <[vc.1 := InlineOn host (Some {| ig_entity := vc.1; ig_group := vc.1; ig_role := GroupHeader |})]> p in
          foldl (λ p c,
            <[c := InlineOn host (Some {| ig_entity := c; ig_group := vc.1; ig_role := GroupMember |})]> p) p vc.2
        else p
    end) p (map_iter (ic_containers ic)).

Definition with_inline (f : InlineContext → gmap Uuid PlacementDecision → gmap Uuid PlacementDecision)
    (r : RulePlacement) : RulePlacement :=
  match pc_inline ctx with
  | None => r
  | Some ic => {| rp_containers := rp_containers r; rp_placements := f ic (rp_placements r); rp_claimed := rp_claimed r |}
  end.

Definition place (gs : list Group) : RulePlacement := foldl add_group empty_placement gs.

Definition compute_placements (r : ElementRule) : RulePlacement :=
  match r with
  | ByHypervisor => with_inline inline_hypervisor (place (virtualizer_groups CT_Hypervisor E_Host))
  | ByContainerRuntime => with_inline inline_runtime (place (virtualizer_groups CT_ContainerRuntime E_Service))
  | ByStack => place stack_groups
  | ByServiceCategory categories title _ => place (service_category_groups categories title)
  | ByTag tags title => place (tag_groups tags title)
  | ByTrunkPort => place trunk_port_groups
  | ByVLAN => place vlan_groups
  | ByPortOpStatus => place port_op_status_groups
  end.
End Rules.

(** ** Applying the rules *)

Definition element_container (n : Node) : option Uuid :=
  match node_type n with Element e => Some (in_container e) | Container _ => None end.

Definition elements_by_container (nodes : list Node) : gmap Uuid (list Uuid) :=
  (fmap n_id : list Node → list Uuid) <$> (group_by element_container nodes : gmap Uuid (list Node)).

Record RuleState := {
  rs_claimed : gset Uuid;
  rs_placements : gmap Uuid PlacementDecision;
  rs_containers : list Node;
  rs_reassign : gmap Uuid Uuid
}.
Definition no_rules : RuleState :=
  {| rs_claimed := ∅; rs_placements := ∅; rs_containers := []; rs_reassign := ∅ |}.

Definition new_container (d : PlacementDecision) : option Uuid :=
  match d with PlaceInContainer c => Some c | _ => None end.

Section Apply.
Context `{UuidLib, MapOrder}.
Context (nodes : list Node) (resolve : Node → option ElementMatchData)
        (titles : option (gmap Uuid string)) (inline : option InlineContext).

Definition match_data : gmap Uuid ElementMatchData :=
  collect_map (omap (λ n, if is_element n then (λ d, (n_id n, d)) <$> resolve n else None) nodes).

Definition rule_context (s : RuleState) (r : IdentifiedRule ElementRule) : PlacementContext := {|
  pc_rule_id := rule_id r; pc_elements := elements_by_container nodes; pc_match_data := match_data;
  pc_claimed := rs_claimed s; pc_titles := titles; pc_inline := inline |}.

Definition apply_rule (s : RuleState) (r : IdentifiedRule ElementRule) : RuleState :=
  let p := compute_placements (rule_context s r) (rule r) in
  {| rs_containers := rs_containers s ++ rp_containers p;
     rs_claimed := rs_claimed s ∪ rp_claimed p;
     rs_reassign := omap new_container (rp_placements p) ∪ rs_reassign s;
     rs_placements := rp_placements p ∪ rs_placements s |}.

Definition apply_rules (rules : list (IdentifiedRule ElementRule)) : RuleState := foldl apply_rule no_rules rules.

(** An element in its new container. *)
Definition move (reassign : gmap Uuid Uuid) (n : Node) : Node :=
  match node_type n with
  | Element e =>
      {| n_id := n_id n; header := header n;
         node_type := Element {| in_container := default (in_container e) (reassign !! n_id n); on_host := on_host e;
                                 element := element e; inline_groups := inline_groups e |} |}
  | Container _ => n
  end.

Definition apply_element_rules (rules : list (IdentifiedRule ElementRule))
    : list Node * gmap Uuid PlacementDecision :=
  match rules with
  | [] => (nodes, ∅)
  | _ => let s := apply_rules rules in
         ((move (rs_reassign s) <$> nodes) ++ rs_containers s, rs_placements s)
  end.
End Apply.

(** ** Logos of stacks *)

Definition stack_runtime_logos (services : list Service) : gmap string (option string) :=
  foldl (λ m s,
    match virtualization_metadata (sv_base s) with
    | None => m
    | Some v =>
        match compose_project v with
        | None => m
        | Some project =>
            let runtime := runtime_service_definition_id v in
            match m !! project with
            | Some existing => if decide (existing = Some runtime) then m else <[project := None]> m
            | None => <[project := Some runtime]> m
            end
        end
    end) ∅ services.

Definition stamp_logo (logos : gmap string (option string)) (n : Node) : Node :=
  match node_type n with
  | Container c =>
      if decide (container_type c = CT_Stack)
      then {| n_id := n_id n; header := header n;
              node_type := Container {| container_type := container_type c; parent_container := parent_container c;
                entity := entity c; element_rule_id := element_rule_id c; will_accept_edges := will_accept_edges c;
                associated_service_definition := header n ≫= λ h, default None (logos !! h) |} |}
      else n
  | Element _ => n
  end.

Definition apply_stack_runtime_logos (services : list Service) (nodes : list Node) : list Node :=
  stamp_logo (stack_runtime_logos services) <$> nodes.
