(* ===== verification/ElementRulesThms.v ===== *)
(** What the element rules guarantee.

    Theorems on [ElementRules]: elements stay what they are and are moved at most
    one level down, into a subcontainer of the container they were in; every
    subcontainer has a member; the first rule that claims an element decides. *)

From Stdlib Require Import Ascii.
From stdpp Require Import pretty.
From S2P Require Import Prelude Net Ports Position Entities ServiceIdentity Patterns Services Hosts HostMatch Locks Lldp Interfaces Subnets Topology TopologySample ElementRules.
Local Open Scope Z_scope.

(** ** The elements of each container *)

Definition parent_of (n : Node) : option Uuid :=
  match node_type n with Container c => parent_container c | Element _ => None end.
Definition rule_of (n : Node) : option Uuid :=
  match node_type n with Container c => element_rule_id c | Element _ => None end.

(** No element is listed twice. *)
Record elements_disjoint (m : gmap Uuid (list Uuid)) : Prop := {
  ed_nodup : ∀ p ids, m !! p = Some ids → NoDup ids;
  ed_one : ∀ p q ids ids' id, m !! p = Some ids → m !! q = Some ids' → id ∈ ids → id ∈ ids' → p = q
}.

Lemma elements_by_container_spec nodes p ids :
  elements_by_container nodes !! p = Some ids →
  ids = n_id <$> List.filter (has_key element_container p) nodes ∧ ids ≠ [].
Proof.
  unfold elements_by_container. rewrite lookup_fmap, fmap_Some. intros (l & (-> & Hne)%group_by_Some & ->).
  split; [done|]. by destruct (List.filter _ _).
Qed.

Lemma elements_by_container_elem nodes p ids id :
  elements_by_container nodes !! p = Some ids →
  id ∈ ids ↔ ∃ n, n ∈ nodes ∧ n_id n = id ∧ element_container n = Some p.
Proof.
  intros (-> & _)%elements_by_container_spec. rewrite list_elem_of_fmap. unfold has_key.
  setoid_rewrite elem_of_list_filter_bool. setoid_rewrite bool_decide_eq_true. naive_solver.
Qed.

Lemma elements_by_container_lookup nodes n p :
  n ∈ nodes → element_container n = Some p →
  ∃ ids, elements_by_container nodes !! p = Some ids ∧ n_id n ∈ ids.
Proof.
  intros Hn Hp. destruct (group_by_elem element_container nodes n p Hn Hp) as (g & Hg & Hin).
  exists (n_id <$> g). unfold elements_by_container. rewrite lookup_fmap, Hg. split; [done|].
  by apply list_elem_of_fmap_2.
Qed.

Definition element_ids (nodes : list Node) : list Uuid := n_id <$> List.filter is_element nodes.

Lemma element_container_is_element n p : element_container n = Some p → is_element n = true.
Proof. unfold element_container, is_element. by destruct (node_type n). Qed.

Lemma element_unique nodes n n' p q :
  NoDup (element_ids nodes) → n ∈ nodes → n' ∈ nodes → element_container n = Some p → element_container n' = Some q →
  n_id n = n_id n' → n = n'.
Proof.
  intros Hnd Hn Hn' ?%element_container_is_element ?%element_container_is_element E.
  eapply (NoDup_key_inj n_id); [exact Hnd|..|done]; by apply elem_of_list_filter_bool.
Qed.

Lemma elements_by_container_disjoint nodes :
  NoDup (element_ids nodes) → elements_disjoint (elements_by_container nodes).
Proof.
  intros Hnd. split.
  - intros p ids (-> & _)%elements_by_container_spec.
    eapply sublist_NoDup; [done|apply sublist_fmap_of].
    clear. induction nodes as [|n nodes IH]; simpl; [constructor|]. unfold has_key at 1.
    case_bool_decide as E; [rewrite (element_container_is_element _ _ E)|destruct (is_element n)]; by try constructor.
  - intros p q ids ids' id Hp Hq (n & Hn & <- & Ep)%(elements_by_container_elem _ _ _ _ Hp)
      (n' & Hn' & E & Eq)%(elements_by_container_elem _ _ _ _ Hq).
    assert (n' = n) as -> by (by eapply element_unique). congruence.
Qed.

(** ** Groups *)

Record groups_ok (ctx : PlacementContext) (gs : list Group) : Prop := {
  go_member : ∀ g id, g ∈ gs → id ∈ g_ids g →
    ∃ p ids, pc_elements ctx !! p = Some ids ∧ id ∈ ids ∧ id ∉ pc_claimed ctx ∧ parent_of (g_node g) = Some p;
  go_data : ∀ g id, g ∈ gs → id ∈ g_ids g → is_Some (pc_match_data ctx !! id);
  go_nonempty : ∀ g, g ∈ gs → g_ids g ≠ [];
  go_disjoint : NoDup (gs ≫= g_ids);
  go_rule : ∀ g, g ∈ gs → rule_of (g_node g) = Some (pc_rule_id ctx) ∧ is_Some (parent_of (g_node g)) ∧ g_become g = None
}.

Section Groups.
Context `{UuidLib, MapOrder} (ctx : PlacementContext) (Hdis : elements_disjoint (pc_elements ctx)).

Lemma elem_of_unclaimed ids id : id ∈ unclaimed ctx ids ↔ id ∈ ids ∧ id ∉ pc_claimed ctx.
Proof.
  unfold unclaimed. rewrite elem_of_list_filter_bool, negb_true_iff, bool_decide_eq_false. tauto.
Qed.

Lemma matching_groups_elem test mk g :
  g ∈ matching_groups ctx test mk →
  ∃ p ids, pc_elements ctx !! p = Some ids ∧ g_node g = mk p ∧ g_become g = None ∧ g_ids g ≠ []
    ∧ g_ids g = List.filter (λ id, match pc_match_data ctx !! id with Some d => test d | None => false end)
                  (unclaimed ctx ids).
Proof.
  unfold matching_groups. intros ([p ids] & Hg & Hp%elem_of_map_iter)%list_elem_of_bind.
  destruct (List.filter _ _) eqn:E; [by apply elem_of_nil in Hg|].
  apply list_elem_of_singleton in Hg as ->. exists p, ids. simpl. by rewrite E.
Qed.

(** Both shapes of rule come as a list over the containers. *)
Lemma groups_over_containers_ok (per : Uuid → list Uuid → list Group) :
  (∀ p ids g id, g ∈ per p ids → id ∈ g_ids g →
     id ∈ unclaimed ctx ids ∧ parent_of (g_node g) = Some p ∧ is_Some (pc_match_data ctx !! id)) →
  (∀ p ids, NoDup ids → NoDup (per p ids ≫= g_ids)) →
  (∀ p ids g, g ∈ per p ids → g_ids g ≠ [] ∧ rule_of (g_node g) = Some (pc_rule_id ctx)
     ∧ is_Some (parent_of (g_node g)) ∧ g_become g = None) →
  groups_ok ctx ('(p, ids) ← map_iter (pc_elements ctx); per p ids).
Proof.
  intros Hmem Hnd Hwf. split.
  - intros g id ([p ids] & Hg & Hp%elem_of_map_iter)%list_elem_of_bind Hid.
    destruct (Hmem p ids g id Hg Hid) as ([? ?]%elem_of_unclaimed & ? & _). eauto 10.
  - intros g id ([p ids] & Hg & _)%list_elem_of_bind Hid. apply (Hmem p ids g id Hg Hid).
  - intros g ([p ids] & Hg & _)%list_elem_of_bind. apply (Hwf p ids g Hg).
  - rewrite list_bind_assoc. apply NoDup_bind.
    + intros [p ids] [q ids'] id Hp%elem_of_map_iter Hq%elem_of_map_iter
        (g & Hid & Hg)%list_elem_of_bind (g' & Hid' & Hg')%list_elem_of_bind.
      destruct (Hmem p ids g id Hg Hid) as [[Hin _]%elem_of_unclaimed _].
      destruct (Hmem q ids' g' id Hg' Hid') as [[Hin' _]%elem_of_unclaimed _].
      assert (p = q) as -> by (by eapply (ed_one _ Hdis)). congruence.
    + intros [p ids] Hp%elem_of_map_iter. apply Hnd. by eapply (ed_nodup _ Hdis).
    + eapply NoDup_fmap_1, NoDup_map_iter.
  - intros g ([p ids] & Hg & _)%list_elem_of_bind. apply (Hwf p ids g Hg).
Qed.

Lemma matching_groups_ok test mk :
  (∀ p, parent_of (mk p) = Some p ∧ rule_of (mk p) = Some (pc_rule_id ctx)) →
  groups_ok ctx (matching_groups ctx test mk).
Proof.
  intros Hmk. unfold matching_groups. apply groups_over_containers_ok.
  - intros p ids g id. set (l := List.filter _ _). destruct l eqn:E; [by intros ?%elem_of_nil|].
    rewrite <- E. intros ->%list_elem_of_singleton [Ht Hid]%elem_of_list_filter_bool.
    split; [done|]. split; [apply Hmk|]. destruct (pc_match_data ctx !! id); by eauto.
  - intros p ids Hnd. set (l := List.filter _ _). destruct l eqn:E; [constructor|]. rewrite <- E.
    csimpl. rewrite app_nil_r. eapply sublist_NoDup; [done|].
    etrans; [apply filter_bool_sublist|apply filter_bool_sublist].
  - intros p ids g. set (l := List.filter _ _). destruct l eqn:E; [by intros ?%elem_of_nil|].
    rewrite <- E. intros ->%list_elem_of_singleton. simpl. rewrite E. destruct (Hmk p) as [-> ->]. by eauto.
Qed.

Lemma keyed_groups_ok {K} `{Countable K} (key : ElementMatchData → option K) mk :
  (∀ p k ids n b, mk p k ids = Some (n, b) → parent_of n = Some p ∧ rule_of n = Some (pc_rule_id ctx) ∧ b = None) →
  groups_ok ctx (keyed_groups ctx key mk).
Proof.
  intros Hmk. unfold keyed_groups. apply groups_over_containers_ok.
  - intros p ids g id ([k members] & Hg & Hk%elem_of_map_iter)%list_elem_of_bind Hid.
    destruct (mk p k members) as [[n b]|] eqn:E; [|by apply elem_of_nil in Hg].
    apply list_elem_of_singleton in Hg as ->. simpl in *. apply group_by_Some in Hk as [-> _].
    apply elem_of_list_filter_bool in Hid as [Hkey Hid]. split; [done|]. split; [by eapply Hmk|].
    unfold has_key in Hkey. apply bool_decide_eq_true, bind_Some in Hkey as (d & Hd & _). eauto.
  - intros p ids Hnd. rewrite list_bind_assoc. apply NoDup_bind.
    + intros [k l] [k' l'] id Hk%elem_of_map_iter Hk'%elem_of_map_iter Hid Hid'.
      apply group_by_Some in Hk as [-> _], Hk' as [-> _].
      destruct (mk p k _) as [[n b]|]; [|by apply elem_of_nil in Hid].
      destruct (mk p k' _) as [[n' b']|]; [|by apply elem_of_nil in Hid'].
      csimpl in *. rewrite app_nil_r in Hid, Hid'. unfold has_key in *.
      apply elem_of_list_filter_bool in Hid as [E%bool_decide_eq_true _], Hid' as [E'%bool_decide_eq_true _].
      by assert (k = k') as -> by congruence.
    + intros [k l] Hk%elem_of_map_iter. apply group_by_Some in Hk as [-> _].
      destruct (mk p k _) as [[n b]|]; [|constructor]. csimpl. rewrite app_nil_r.
      eapply sublist_NoDup; [done|]. etrans; [apply filter_bool_sublist|apply filter_bool_sublist].
    + eapply NoDup_fmap_1, NoDup_map_iter.
  - intros p ids g ([k members] & Hg & Hk%elem_of_map_iter)%list_elem_of_bind.
    destruct (mk p k members) as [[n b]|] eqn:E; [|by apply elem_of_nil in Hg].
    apply list_elem_of_singleton in Hg as ->. simpl. apply group_by_Some in Hk as [_ Hne].
    destruct (Hmk _ _ _ _ _ E) as (-> & -> & ->). eauto.
Qed.
End Groups.

(** The rules of the views without virtualizers. *)
Definition plain_rule (r : ElementRule) : bool :=
  match r with ByHypervisor | ByContainerRuntime => false | _ => true end.

Definition rule_groups `{UuidLib, MapOrder} (ctx : PlacementContext) (r : ElementRule) : list Group :=
  match r with
  | ByHypervisor => virtualizer_groups ctx CT_Hypervisor E_Host
  | ByContainerRuntime => virtualizer_groups ctx CT_ContainerRuntime E_Service
  | ByStack => stack_groups ctx
  | ByServiceCategory categories title _ => service_category_groups ctx categories title
  | ByTag tags title => tag_groups ctx tags title
  | ByTrunkPort => trunk_port_groups ctx
  | ByVLAN => vlan_groups ctx
  | ByPortOpStatus => port_op_status_groups ctx
  end.

Lemma rule_groups_ok `{UuidLib, MapOrder} ctx r :
  elements_disjoint (pc_elements ctx) → plain_rule r = true → groups_ok ctx (rule_groups ctx r).
Proof.
  intros Hdis Hr. destruct r; try done.
  1, 2, 4: by apply matching_groups_ok.
  all: apply keyed_groups_ok; [done|]. all: by intros p k ids n b [= <- <-].
Qed.

Lemma compute_plain `{UuidLib, MapOrder} ctx r :
  plain_rule r = true → compute_placements ctx r = place (rule_groups ctx r).
Proof. by destruct r. Qed.

(** ** What a rule places *)

Lemma lookup_insert_all {V} (v : V) ids (m : gmap Uuid V) id :
  foldl (λ m id, <[id := v]> m) m ids !! id = if decide (id ∈ ids) then Some v else m !! id.
Proof.
  revert m. induction ids as [|x ids IH]; intros m; [done|]. cbn [foldl]. rewrite IH.
  destruct (decide (id ∈ ids)), (decide (id ∈ x :: ids)) as [Hin|Hin]; try set_solver.
  - assert (id = x) as -> by set_solver. by rewrite lookup_insert_eq.
  - by rewrite lookup_insert_ne by set_solver.
Qed.

Lemma place_spec gs r :
  Forall (λ g, g_become g = None) gs → NoDup (gs ≫= g_ids) →
  let r' := foldl add_group r gs in
  rp_containers r' = rp_containers r ++ (g_node <$> gs)
  ∧ rp_claimed r' = rp_claimed r ∪ list_to_set (gs ≫= g_ids)
  ∧ ∀ id d, rp_placements r' !! id = Some d ↔
      (∃ g, g ∈ gs ∧ id ∈ g_ids g ∧ d = PlaceInContainer (n_id (g_node g)))
      ∨ (id ∉ gs ≫= g_ids) ∧ rp_placements r !! id = Some d.
Proof.
  revert r. induction gs as [|g gs IH]; intros r Hb Hnd.
  { cbn. rewrite app_nil_r, union_empty_r_L. split_and!; [done|done|]. intros id d. set_solver. }
  inversion Hb as [|? ? Hg Hb']; subst. rewrite bind_cons in Hnd. apply list.NoDup_app in Hnd as (Hn1 & Hsep & Hn2).
  cbn [foldl]. destruct (IH (add_group r g) Hb' Hn2) as (H1 & H2 & H3). cbv zeta. rewrite H1, H2. split_and!.
  - unfold add_group. cbn. by rewrite <- app_assoc.
  - unfold add_group. cbn. rewrite list_to_set_app_L. set_solver.
  - intros id d. rewrite H3. unfold add_group. cbn [rp_placements]. rewrite Hg, lookup_insert_all. csimpl.
    setoid_rewrite elem_of_cons. setoid_rewrite elem_of_app. destruct (decide (id ∈ g_ids g)) as [Hin|Hin].
    + split.
      * intros [(g' & ? & ? & ?)|[? [= <-]]]; left; eauto.
      * intros [(g' & [->|Hg'] & Hid & ->)|[Hno _]]; [|left; eauto|tauto].
        right. split; [|done]. by apply Hsep.
    + split.
      * intros [(g' & ? & ? & ?)|[? ?]]; [left; eauto|right; tauto].
      * intros [(g' & [->|Hg'] & Hid & ->)|[Hno ?]]; [done|left; eauto|right; tauto].
Qed.

(** ** The state after some rules *)

(** The last entry of a key is one of the list. *)
Lemma collect_map_elem {V} (l : list (Uuid * V)) k v : collect_map l !! k = Some v → (k, v) ∈ l.
Proof.
  unfold collect_map. induction l as [|[k' v'] l IH] using rev_ind; [cbn; by rewrite lookup_empty|].
  rewrite foldl_app, elem_of_app, list_elem_of_singleton. cbn. destruct (decide (k = k')) as [->|Hne].
  - rewrite lookup_insert_eq. intros [= ->]. by right.
  - rewrite lookup_insert_ne by done. intros ?%IH. by left.
Qed.

Lemma match_data_Some nodes resolve id d :
  match_data nodes resolve !! id = Some d →
  ∃ n, n ∈ nodes ∧ is_element n = true ∧ n_id n = id ∧ resolve n = Some d.
Proof.
  intros (n & Hn & E)%collect_map_elem%list_elem_of_omap. destruct (is_element n) eqn:He; [|done].
  apply fmap_Some in E as (d' & Hd & [= -> ->]). eauto.
Qed.

Section State.
Context `{UuidLib, MapOrder}.
Context (nodes : list Node) (resolve : Node → option ElementMatchData) (titles : option (gmap Uuid string))
        (Hnd : NoDup (element_ids nodes)).

(** The move of one element: to a new container of the one it is in. *)
Definition moved_ok (s : RuleState) (id c : Uuid) : Prop :=
  ∃ n g p, n ∈ nodes ∧ n_id n = id ∧ element_container n = Some p
    ∧ g ∈ rs_containers s ∧ n_id g = c ∧ parent_of g = Some p.

Record state_ok (rules : list (IdentifiedRule ElementRule)) (s : RuleState) : Prop := {
  so_moved : ∀ id c, rs_reassign s !! id = Some c → moved_ok s id c;
  so_data : ∀ id c, rs_reassign s !! id = Some c → is_Some (match_data nodes resolve !! id);
  so_claimed : ∀ id, id ∈ rs_claimed s ↔ is_Some (rs_reassign s !! id);
  so_member : ∀ g, g ∈ rs_containers s →
    (∃ n p, n ∈ nodes ∧ element_container n = Some p ∧ parent_of g = Some p
            ∧ rs_reassign s !! n_id n = Some (n_id g)) ∧ ∃ r, r ∈ rules ∧ rule_of g = Some (rule_id r)
}.

Lemma rule_placement s r :
  plain_rule (rule r) = true →
  let ctx := rule_context nodes resolve titles None s r in
  let gs := rule_groups ctx (rule r) in
  let s' := apply_rule nodes resolve titles None s r in
  groups_ok ctx gs
  ∧ rs_containers s' = rs_containers s ++ (g_node <$> gs)
  ∧ rs_claimed s' = rs_claimed s ∪ list_to_set (gs ≫= g_ids)
  ∧ ∀ id c, rs_reassign s' !! id = Some c ↔
      (∃ g, g ∈ gs ∧ id ∈ g_ids g ∧ c = n_id (g_node g))
      ∨ (id ∉ gs ≫= g_ids) ∧ rs_reassign s !! id = Some c.
Proof.
  intros Hr ctx gs s'. assert (groups_ok ctx gs) as Hok.
  { apply rule_groups_ok; [|done]. by apply elements_by_container_disjoint. }
  split; [done|]. unfold s', apply_rule. rewrite (compute_plain _ _ Hr). fold ctx gs.
  destruct (place_spec gs empty_placement) as (H1 & H2 & H3).
  { apply Forall_forall. intros g Hg. apply list_elem_of_In in Hg. by destruct (go_rule _ _ Hok g Hg) as (_ & _ & ?). }
  { by apply (go_disjoint _ _ Hok). }
  fold (place gs) in H1, H2, H3. cbn [rs_containers rs_claimed rs_reassign]. rewrite H1, H2.
  split; [done|]. split; [cbn; set_solver|]. intros id c. rewrite lookup_union_Some_raw, lookup_omap.
  destruct (rp_placements (place gs) !! id) as [d|] eqn:E.
  - apply H3 in E as [(g & Hg & Hid & ->)|[_ E]]; [|cbn in E; by rewrite lookup_empty in E]. simpl. split.
    + intros [[= <-]|[[=] _]]. left. eauto.
    + intros [(g' & Hg' & Hid' & ->)|[Hno _]].
      * left. assert (rp_placements (place gs) !! id = Some (PlaceInContainer (n_id (g_node g'))) ) as E1
          by (apply H3; left; eauto).
        assert (rp_placements (place gs) !! id = Some (PlaceInContainer (n_id (g_node g)))) as E2
          by (apply H3; left; eauto). congruence.
      * destruct Hno. apply list_elem_of_bind. eauto.
  - simpl. split.
    + intros [[=]|[_ Hc]]. right. split; [|done]. intros (g & Hid & Hg)%list_elem_of_bind.
      assert (rp_placements (place gs) !! id = Some (PlaceInContainer (n_id (g_node g)))) as E2
        by (apply H3; left; eauto). congruence.
    + intros [(g & Hg & Hid & ->)|[_ Hc]]; [|by right].
      assert (rp_placements (place gs) !! id = Some (PlaceInContainer (n_id (g_node g)))) as E2
        by (apply H3; left; eauto). congruence.
Qed.

(** A rule decides about unclaimed elements only. *)
Lemma apply_rule_keeps s r id c rules :
  plain_rule (rule r) = true → state_ok rules s → rs_reassign s !! id = Some c →
  rs_reassign (apply_rule nodes resolve titles None s r) !! id = Some c.
Proof.
  intros Hr Hs Hc. destruct (rule_placement s r Hr) as (Hok & _ & _ & Hre). apply Hre. right. split; [|done].
  intros (g & Hid & Hg)%list_elem_of_bind.
  destruct (go_member _ _ Hok g id Hg Hid) as (p & ids & _ & _ & Hno & _).
  apply Hno, (so_claimed _ _ Hs). eauto.
Qed.

Lemma apply_rule_ok rules s r :
  plain_rule (rule r) = true → state_ok rules s →
  state_ok (rules ++ [r]) (apply_rule nodes resolve titles None s r).
Proof.
  intros Hr Hs. pose proof (apply_rule_keeps s r) as Hkeep.
  destruct (rule_placement s r Hr) as (Hok & Hcont & Hcl & Hre).
  set (s' := apply_rule nodes resolve titles None s r) in *.
  set (gs := rule_groups (rule_context nodes resolve titles None s r) (rule r)) in *. split.
  - intros id c [(g & Hg & Hid & ->)|[_ Hc]]%Hre.
    + destruct (go_member _ _ Hok g id Hg Hid) as (p & ids & Hp & Hin & _ & Hpar).
      apply (elements_by_container_elem _ _ _ _ Hp) in Hin as (n & Hn & <- & Ec).
      exists n, (g_node g), p. split_and!; try done. rewrite Hcont. apply elem_of_app. right.
      by apply list_elem_of_fmap_2.
    + destruct (so_moved _ _ Hs id c Hc) as (n & g & p & ? & ? & ? & Hg & ? & ?). exists n, g, p.
      split_and!; try done. rewrite Hcont. apply elem_of_app. by left.
  - intros id c [(g & Hg & Hid & ->)|[_ Hc]]%Hre; [by apply (go_data _ _ Hok g id)|by eapply (so_data _ _ Hs)].
  - intros id. rewrite Hcl, elem_of_union, elem_of_list_to_set, (so_claimed _ _ Hs). split.
    + intros [[c Hc]|(g & Hid & Hg)%list_elem_of_bind].
      * exists c. by eapply Hkeep.
      * exists (n_id (g_node g)). apply Hre. left. eauto.
    + intros [c [(g & Hg & Hid & ->)|[_ Hc]]%Hre]; [right|left; eauto]. apply list_elem_of_bind. eauto.
  - intros g. rewrite Hcont, elem_of_app. intros [Hg|(x & -> & Hx)%list_elem_of_fmap].
    + destruct (so_member _ _ Hs g Hg) as ((n & p & ? & ? & ? & Hid) & r' & Hr' & E). split.
      { exists n, p. split_and!; try done. by eapply Hkeep. }
      exists r'. split; [|done]. apply elem_of_app. by left.
    + destruct (go_rule _ _ Hok x Hx) as [E _]. split.
      * destruct (g_ids x) as [|id ids] eqn:Hids; [by destruct (go_nonempty _ _ Hok x Hx)|].
        destruct (go_member _ _ Hok x id Hx) as (p & l & Hp & Hin & _ & Hpar); [rewrite Hids; left|].
        apply (elements_by_container_elem _ _ _ _ Hp) in Hin as (n & Hn & <- & Ec).
        exists n, p. split_and!; try done. apply Hre. left. exists x. rewrite Hids. split_and!; [done|left|done].
      * exists r. split; [|done]. apply elem_of_app. right. by apply list_elem_of_singleton.
Qed.

Lemma apply_rules_ok rules :
  Forall (λ r, plain_rule (rule r) = true) rules → state_ok rules (apply_rules nodes resolve titles None rules).
Proof.
  unfold apply_rules. induction rules as [|r rules IH] using rev_ind; intros Hp.
  - split; cbn; [by intros id c ?|by intros id c ?|intros id; split; [set_solver|by intros [? ?]]|by intros g ?%elem_of_nil].
  - apply Forall_app in Hp as [Hp Hr]. inversion Hr; subst. rewrite foldl_app. by apply apply_rule_ok, IH.
Qed.

Lemma apply_rules_app_keeps l1 l2 id c :
  Forall (λ r, plain_rule (rule r) = true) (l1 ++ l2) →
  rs_reassign (apply_rules nodes resolve titles None l1) !! id = Some c →
  rs_reassign (apply_rules nodes resolve titles None (l1 ++ l2)) !! id = Some c.
Proof.
  induction l2 as [|r l2 IH] using rev_ind; intros Hp Hc; [by rewrite app_nil_r|].
  rewrite app_assoc in *. apply Forall_app in Hp as [Hp Hr]. inversion Hr; subst.
  unfold apply_rules at 1. rewrite foldl_app. eapply apply_rule_keeps; [done|by apply apply_rules_ok|by apply IH].
Qed.
End State.

(** The rules only group: the elements are those there were, in order, each in the
    container it was in or in a new subcontainer of that container; and every
    subcontainer belongs to one of the rules and has a member. *)
Lemma element_rules_nest `{UuidLib, MapOrder} nodes resolve titles rules :
  NoDup (element_ids nodes) → Forall (λ r, plain_rule (rule r) = true) rules →
  let nodes' := (apply_element_rules nodes resolve titles None rules).1 in
  ∃ reassign subs,
    nodes' = (move reassign <$> nodes) ++ subs
    ∧ (∀ n p, n ∈ nodes → element_container n = Some p →
         element_container (move reassign n) = Some p
         ∨ ∃ g, g ∈ subs ∧ element_container (move reassign n) = Some (n_id g) ∧ parent_of g = Some p)
    ∧ (∀ n, n ∈ nodes → resolve n = None → move reassign n = n)
    ∧ ∀ g, g ∈ subs →
        (∃ n, n ∈ nodes' ∧ element_container n = Some (n_id g))
        ∧ (∃ p n, n ∈ nodes ∧ element_container n = Some p ∧ parent_of g = Some p)
        ∧ ∃ r, r ∈ rules ∧ rule_of g = Some (rule_id r).
Proof.
  intros Hnd Hp nodes'. pose proof (apply_rules_ok nodes resolve titles Hnd rules Hp) as Hs.
  exists (rs_reassign (apply_rules nodes resolve titles None rules)),
    (rs_containers (apply_rules nodes resolve titles None rules)).
  assert (nodes' = (move (rs_reassign (apply_rules nodes resolve titles None rules)) <$> nodes)
                   ++ rs_containers (apply_rules nodes resolve titles None rules)) as E.
  { unfold nodes'. destruct rules as [|r rules]; [|done]. cbn. rewrite app_nil_r. symmetry.
    rewrite <- (list_fmap_id nodes) at 2. apply list_fmap_ext. intros i n _. unfold move.
    destruct n as [? [] ?]; [done|]. cbn. rewrite lookup_empty. by destruct e. }
  set (s := apply_rules nodes resolve titles None rules) in *. split; [done|]. split; [|split].
  - intros n p Hn Hc. unfold move. unfold element_container in Hc |- *. destruct n as [id [c|e] h]; [done|]. cbn in *.
    destruct (rs_reassign s !! id) as [c|] eqn:Em; [|by left]. right.
    destruct (so_moved _ _ _ _ Hs id c Em) as (n' & g & p' & Hn' & Hid & Hc' & Hg & <- & Hpar).
    assert (n' = {| n_id := id; node_type := Element e; header := h |}) as ->.
    { by eapply (element_unique nodes n'). }
    cbn in Hc'. exists g. split_and!; [done|done|]. congruence.
  - intros n Hn Hres. unfold move. destruct n as [id [c|e] h]; [done|]. cbn.
    destruct (rs_reassign s !! id) as [c|] eqn:Em; [|by destruct e]. exfalso.
    destruct (so_data _ _ _ _ Hs id c Em) as [d (n' & Hn' & Hel & Hid & Hd)%match_data_Some].
    assert (n' = {| n_id := id; node_type := Element e; header := h |}) as ->; [|congruence].
    eapply (NoDup_key_inj n_id); [exact Hnd|..|done]; by apply elem_of_list_filter_bool.
  - intros g Hg. destruct (so_member _ _ _ _ Hs g Hg) as ((n & p & Hn & Hc & Hpar & Hid) & Hr). split_and!; [|eauto|done].
    exists (move (rs_reassign s) n). split; [rewrite E; apply elem_of_app; left; by apply list_elem_of_fmap_2|].
    unfold move, element_container in *. destruct n as [nid [c|e] h]; [done|]. cbn in *. by rewrite Hid.
Qed.

(** The first rule that claims an element decides: rules further down the list do
    not move it again. *)
Theorem first_rule_wins `{UuidLib, MapOrder} nodes resolve titles l1 l2 n :
  NoDup (element_ids nodes) → Forall (λ r, plain_rule (rule r) = true) (l1 ++ l2) →
  n_id n ∈ rs_claimed (apply_rules nodes resolve titles None l1) →
  move (rs_reassign (apply_rules nodes resolve titles None (l1 ++ l2))) n
  = move (rs_reassign (apply_rules nodes resolve titles None l1)) n.
Proof.
  intros Hnd Hp Hc. pose proof (proj1 (proj1 (Forall_app _ _ _) Hp)) as Hp1.
  apply (so_claimed _ _ _ _ (apply_rules_ok nodes resolve titles Hnd l1 Hp1)) in Hc as [c Hc].
  unfold move. by rewrite Hc, (apply_rules_app_keeps nodes resolve titles Hnd l1 l2 _ c Hp Hc).
Qed.

(** ** Names of subcontainers *)

Section Names.
Local Open Scope string_scope.

Definition colon : Ascii.ascii := ":"%char.
Fixpoint no_colon (s : string) : bool :=
  match s with "" => true | String c s => negb (Ascii.eqb c colon) && no_colon s end.

Lemma append_nil s : "" +:+ s = s.
Proof. done. Qed.
Lemma append_cons c s t : String c s +:+ t = String c (s +:+ t).
Proof. done. Qed.

Lemma colon_split s t x y :
  no_colon s = true → no_colon t = true → s +:+ String colon x = t +:+ String colon y → s = t ∧ x = y.
Proof.
  revert t. induction s as [|c s IH]; intros [|d t]; rewrite ?append_nil, ?append_cons; cbn -[colon]; intros Hs Ht E.
  - by injection E.
  - injection E as <- _. by rewrite Ascii.eqb_refl in Ht.
  - injection E as -> _. by rewrite Ascii.eqb_refl in Hs.
  - injection E as <- E. apply andb_true_iff in Hs as [_ Hs], Ht as [_ Ht].
    by destruct (IH t Hs Ht E) as [-> ->].
Qed.

Lemma no_colon_app s x : no_colon (s +:+ String colon x) = false.
Proof. induction s as [|c s IH]; [done|]. rewrite append_cons. cbn -[colon]. rewrite IH. by rewrite andb_false_r. Qed.

(** The last colon. *)
Lemma colon_split_last s t x y :
  no_colon x = true → no_colon y = true → s +:+ String colon x = t +:+ String colon y → s = t ∧ x = y.
Proof.
  intros Hx Hy. revert t. induction s as [|c s IH]; intros [|d t]; rewrite ?append_nil, ?append_cons; cbn -[colon]; intros E.
  - by injection E.
  - injection E as <- E. by rewrite E, no_colon_app in Hx.
  - injection E as -> E. by rewrite <- E, no_colon_app in Hy.
  - injection E as <- E. by destruct (IH t E) as [-> ->].
Qed.

Lemma uuid_text_plain `{UuidLaws} u : no_colon (uuid_text u) = true.
Proof.
  pose proof (uuid_text_chars u) as Hu. induction (uuid_text u) as [|c s IH]; [done|]. cbn -[colon] in *.
  apply andb_true_iff in Hu as [Hc Hs]. rewrite (IH Hs), andb_true_r. apply negb_true_iff.
  destruct (Ascii.eqb_spec c colon) as [->|]; [|done]. by vm_compute in Hc.
Qed.

(** What follows the rule in a name. *)
Definition suffix_ok (s : string) : Prop := s = "" ∨ ∃ r, s = String colon r.

Lemma app_empty_r s : s +:+ "" = s.
Proof. induction s as [|c s IH]; [done|]. by rewrite append_cons, IH. Qed.

Lemma group_name_inj `{UuidLaws} p q r r' s t :
  suffix_ok s → suffix_ok t →
  uuid_text p +:+ ":" +:+ uuid_text r +:+ s = uuid_text q +:+ ":" +:+ uuid_text r' +:+ t →
  p = q ∧ r = r' ∧ s = t.
Proof.
  intros Hs Ht E. apply colon_split in E as [E1%uuid_text_inj E]; [|apply uuid_text_plain..]. split; [done|].
  destruct Hs as [->|[s' ->]], Ht as [->|[t' ->]]; rewrite ?app_empty_r in E.
  - by apply uuid_text_inj in E as ->.
  - pose proof (uuid_text_plain r) as Hr. by rewrite E, no_colon_app in Hr.
  - pose proof (uuid_text_plain r') as Hr. by rewrite <- E, no_colon_app in Hr.
  - by apply colon_split in E as [->%uuid_text_inj ->]; [|apply uuid_text_plain..].
Qed.

Definition stack_name `{UuidLib} (project : string) (p : Uuid) : string := "stack:" +:+ project +:+ ":" +:+ uuid_text p.

Lemma stack_name_inj `{UuidLaws} a b p q : stack_name a p = stack_name b q → a = b ∧ p = q.
Proof.
  unfold stack_name. rewrite !append_cons, !append_nil. intros E. injection E as E.
  by apply colon_split_last in E as [-> ->%uuid_text_inj]; [|apply uuid_text_plain..].
Qed.

Lemma stack_name_fresh `{UuidLaws} a p q r s : stack_name a p ≠ uuid_text q +:+ ":" +:+ uuid_text r +:+ s.
Proof.
  unfold stack_name. pose proof (uuid_text_chars q) as Hq. destruct (uuid_text q) as [|c t]; rewrite ?append_nil, ?append_cons; [done|].
  intros E. injection E as <- _. by vm_compute in Hq.
Qed.
End Names.

(** ** Ids of subcontainers *)

Lemma fmap_bind_list {A B C} (f : B → C) (g : A → list B) (l : list A) : f <$> (l ≫= g) = l ≫= λ x, f <$> g x.
Proof. induction l as [|x l IH]; [done|]. csimpl. by rewrite fmap_app, IH. Qed.

Definition group_id (g : Group) : Uuid := n_id (g_node g).

Section GroupIds.
Context `{UuidLaws} `{MapOrder} (ctx : PlacementContext).

Lemma matching_groups_ids test mk :
  (∀ p q, n_id (mk p) = n_id (mk q) → p = q) → NoDup (group_id <$> matching_groups ctx test mk).
Proof.
  intros Hmk. unfold matching_groups. rewrite fmap_bind_list. apply NoDup_bind.
  - intros [p ids] [q ids'] id Hp%elem_of_map_iter Hq%elem_of_map_iter Hi Hi'.
    destruct (List.filter _ (unclaimed ctx ids)); [by apply elem_of_nil in Hi|].
    destruct (List.filter _ (unclaimed ctx ids')); [by apply elem_of_nil in Hi'|].
    apply list_elem_of_singleton in Hi, Hi'. subst id. apply Hmk in Hi' as ->. congruence.
  - intros [p ids] _. destruct (List.filter _ _); [constructor|apply NoDup_singleton].
  - eapply NoDup_fmap_1, NoDup_map_iter.
Qed.

Lemma keyed_groups_ids {K} `{Countable K} (key : ElementMatchData → option K) mk :
  (∀ p k ids n b p' k' ids' n' b', mk p k ids = Some (n, b) → mk p' k' ids' = Some (n', b') →
     n_id n = n_id n' → p = p' ∧ k = k') →
  NoDup (group_id <$> keyed_groups ctx key mk).
Proof.
  intros Hmk. unfold keyed_groups. rewrite fmap_bind_list. apply NoDup_bind.
  - intros [p ids] [q ids'] id Hp%elem_of_map_iter Hq%elem_of_map_iter
      (g & -> & ([k l] & Hg & _)%list_elem_of_bind)%list_elem_of_fmap
      (g' & E & ([k' l'] & Hg' & _)%list_elem_of_bind)%list_elem_of_fmap.
    destruct (mk p k l) as [[n b]|] eqn:E1; [|by apply elem_of_nil in Hg].
    destruct (mk q k' l') as [[n' b']|] eqn:E2; [|by apply elem_of_nil in Hg'].
    apply list_elem_of_singleton in Hg as ->, Hg' as ->.
    destruct (Hmk _ _ _ _ _ _ _ _ _ _ E1 E2 E) as [-> ->]. congruence.
  - intros [p ids] _. rewrite fmap_bind_list. apply NoDup_bind.
    + intros [k l] [k' l'] id Hk%elem_of_map_iter Hk'%elem_of_map_iter
        (g & -> & Hg)%list_elem_of_fmap (g' & E & Hg')%list_elem_of_fmap.
      destruct (mk p k l) as [[n b]|] eqn:E1; [|by apply elem_of_nil in Hg].
      destruct (mk p k' l') as [[n' b']|] eqn:E2; [|by apply elem_of_nil in Hg'].
      apply list_elem_of_singleton in Hg as ->, Hg' as ->.
      destruct (Hmk _ _ _ _ _ _ _ _ _ _ E1 E2 E) as [_ ->]. congruence.
    + intros [k l] _. destruct (mk p k l) as [[n b]|]; [apply NoDup_singleton|constructor].
    + eapply NoDup_fmap_1, NoDup_map_iter.
  - eapply NoDup_fmap_1, NoDup_map_iter.
Qed.
End GroupIds.

(** The names the groups of a rule get. *)
Definition name_of_rule `{UuidLib} (r : IdentifiedRule ElementRule) (id : Uuid) : Prop :=
  match rule r with
  | ByStack => ∃ a p, id = new_v5 NAMESPACE_OID (stack_name a p)
  | _ => ∃ p s, suffix_ok s ∧ id = new_v5 NAMESPACE_OID (uuid_text p +:+ ":" +:+ uuid_text (rule_id r) +:+ s)
  end.

Definition is_stack_rule (r : IdentifiedRule ElementRule) : bool := match rule r with ByStack => true | _ => false end.

Lemma names_apart `{UuidLaws} r r' id :
  rule_id r ≠ rule_id r' → is_stack_rule r = false ∨ is_stack_rule r' = false →
  name_of_rule r id → name_of_rule r' id → False.
Proof.
  assert (∀ q q' : IdentifiedRule ElementRule, rule_id q ≠ rule_id q' → is_stack_rule q = false →
            name_of_rule q id → name_of_rule q' id → False) as Hgen.
  { intros q q' Hne Hq Hn Hn'.
    assert (∃ p s, suffix_ok s ∧ id = new_v5 NAMESPACE_OID (uuid_text p +:+ ":" +:+ uuid_text (rule_id q) +:+ s))
      as (p & s & Hs & ->).
    { unfold name_of_rule in Hn. unfold is_stack_rule in Hq. by destruct (rule q). }
    unfold name_of_rule in Hn'. destruct (rule q'); destruct Hn' as (p' & s' & Hn').
    all: try (destruct Hn' as [Hs' [_ E]%new_v5_inj]; apply group_name_inj in E as (_ & ? & _); done).
    apply new_v5_inj in Hn' as [_ E]. symmetry in E. by eapply stack_name_fresh. }
  intros Hne [Hs|Hs] Hn Hn'; [by eapply (Hgen r r')|by eapply (Hgen r' r)].
Qed.

Lemma matching_groups_node `{UuidLib, MapOrder} ctx test mk g :
  g ∈ matching_groups ctx test mk → ∃ p, g_node g = mk p.
Proof. intros (p & _ & _ & E & _)%matching_groups_elem. eauto. Qed.

Lemma keyed_groups_node `{UuidLib, MapOrder} {K} `{Countable K} ctx (key : ElementMatchData → option K) mk g :
  g ∈ keyed_groups ctx key mk → ∃ p k ids b, mk p k ids = Some (g_node g, b).
Proof.
  intros ([p ids] & ([k l] & Hg & _)%list_elem_of_bind & _)%list_elem_of_bind.
  destruct (mk p k l) as [[n b]|] eqn:E; [|by apply elem_of_nil in Hg].
  apply list_elem_of_singleton in Hg as ->. eauto.
Qed.

Section SuffixedIds.
Context `{UuidLaws} `{MapOrder} (ctx : PlacementContext).

Definition suffixed (gs : list Group) : Prop :=
  NoDup (group_id <$> gs)
  ∧ ∀ g, g ∈ gs → ∃ p s, suffix_ok s ∧ group_id g = new_v5 NAMESPACE_OID (group_name ctx p s).

Lemma matching_groups_suffixed test mk s :
  suffix_ok s → (∀ p, n_id (mk p) = new_v5 NAMESPACE_OID (group_name ctx p s)) →
  suffixed (matching_groups ctx test mk).
Proof.
  intros Hs Hmk. split.
  - apply matching_groups_ids. intros p q. rewrite !Hmk. intros [_ E]%new_v5_inj.
    by apply group_name_inj in E as (? & _ & _).
  - intros g [p E]%matching_groups_node. exists p, s. unfold group_id. by rewrite E.
Qed.

Lemma keyed_groups_suffixed {K} `{Countable K} (key : ElementMatchData → option K) mk (suffix : K → string) :
  (∀ k, suffix_ok (suffix k)) → Inj (=) (=) suffix →
  (∀ p k ids n b, mk p k ids = Some (n, b) → n_id n = new_v5 NAMESPACE_OID (group_name ctx p (suffix k))) →
  suffixed (keyed_groups ctx key mk).
Proof.
  intros Hs Hinj Hmk. split.
  - apply keyed_groups_ids. intros p k ids n b p' k' ids' n' b' E E'. rewrite (Hmk _ _ _ _ _ E), (Hmk _ _ _ _ _ E').
    intros [_ En]%new_v5_inj. apply group_name_inj in En as (? & _ & ?); [|done..]. split; [done|by apply Hinj].
  - intros g (p & k & ids & b & E)%keyed_groups_node. exists p, (suffix k). split; [done|]. by eapply Hmk.
Qed.

Lemma virtualizer_groups_suffixed t target : suffixed (virtualizer_groups ctx t target).
Proof.
  apply keyed_groups_suffixed with (suffix := λ v : Uuid, String colon (uuid_text v)).
  - intros v. right. eauto.
  - intros a b [= E]. by apply uuid_text_inj.
  - intros p k ids n b. destruct (virtualizer_skipped ctx k); [done|]. by intros [= <- _].
Qed.

Lemma rule_groups_suffixed r : r ≠ ByStack → suffixed (rule_groups ctx r).
Proof.
  intros Hr. destruct r; try done; cbn [rule_groups].
  - apply matching_groups_suffixed with (s := ""%string); [by left|done].
  - apply matching_groups_suffixed with (s := ""%string); [by left|done].
  - apply virtualizer_groups_suffixed.
  - apply virtualizer_groups_suffixed.
  - apply matching_groups_suffixed with (s := ":trunk"%string); [right; by eexists|done].
  - apply keyed_groups_suffixed with (suffix := λ n, (":vlan:" +:+ pretty n)%string).
    + intros v. right. by eexists.
    + intros a b E. by apply (inj (String.append _)), (inj pretty) in E.
    + by intros p k ids n b [= <- _].
  - apply keyed_groups_suffixed with (suffix := λ st, (":status:" +:+ pretty (if_oper_to_i32 st))%string).
    + intros v. right. by eexists.
    + intros a b E. apply (inj (String.append _)), (inj pretty) in E. by destruct a, b.
    + by intros p k ids n b [= <- _].
Qed.

Lemma stack_groups_ids :
  NoDup (group_id <$> stack_groups ctx)
  ∧ ∀ g, g ∈ stack_groups ctx → ∃ a p, group_id g = new_v5 NAMESPACE_OID (stack_name a p).
Proof.
  split.
  - apply keyed_groups_ids. intros p k ids n b p' k' ids' n' b' [= <- <-] [= <- <-] [_ E]%new_v5_inj.
    by destruct (stack_name_inj _ _ _ _ E).
  - intros g (p & k & ids & b & [= E _])%keyed_groups_node. exists k, p. unfold group_id. by rewrite <- E.
Qed.

Lemma rule_group_ids r :
  pc_rule_id ctx = rule_id r →
  NoDup (group_id <$> rule_groups ctx (rule r)) ∧ ∀ g, g ∈ rule_groups ctx (rule r) → name_of_rule r (group_id g).
Proof.
  intros Hid. destruct (is_stack_rule r) eqn:E; unfold is_stack_rule in E.
  - unfold name_of_rule. destruct (rule r); try done. apply stack_groups_ids.
  - assert (rule r ≠ ByStack) as Hr by (intros Er; by rewrite Er in E). destruct (rule_groups_suffixed _ Hr) as [Hnd Hn].
    split; [done|]. intros g Hg. destruct (Hn g Hg) as (p & s & Hs & ->). unfold name_of_rule, group_name.
    rewrite Hid. destruct (rule r); try done; by exists p, s.
Qed.
End SuffixedIds.

Lemma place_containers gs r : rp_containers (foldl add_group r gs) = rp_containers r ++ (g_node <$> gs).
Proof.
  revert r. induction gs as [|g gs IH]; intros r; [by rewrite app_nil_r|]. cbn [foldl]. rewrite IH. simpl.
  by rewrite <- app_assoc.
Qed.

Lemma compute_containers `{UuidLib, MapOrder} ctx r :
  rp_containers (compute_placements ctx r) = g_node <$> rule_groups ctx r.
Proof.
  destruct r; cbn [compute_placements rule_groups]; unfold with_inline, place;
    try destruct (pc_inline ctx); cbn [rp_containers]; apply place_containers.
Qed.

(** Every subcontainer of a build has an id of its own, derived from its rule: rules
    have different ids and at most one rule groups by stack. *)
Lemma subcontainers_distinct `{UuidLaws} `{MapOrder} nodes resolve titles inline rules :
  NoDup (rule_id <$> rules) → (length (List.filter is_stack_rule rules) ≤ 1)%nat →
  NoDup (n_id <$> rs_containers (apply_rules nodes resolve titles inline rules))
  ∧ ∀ n, n ∈ rs_containers (apply_rules nodes resolve titles inline rules) →
      ∃ r, r ∈ rules ∧ name_of_rule r (n_id n).
Proof.
  unfold apply_rules. induction rules as [|r rules IH] using rev_ind; intros Hnd Hst.
  { split; [constructor|]. by intros n ?%elem_of_nil. }
  rewrite fmap_app in Hnd. apply list.NoDup_app in Hnd as (Hnd & Hsep & _).
  rewrite List.filter_app, length_app in Hst. destruct IH as [IHn IHr]; [done|lia|].
  rewrite foldl_app. cbn [foldl]. set (s := foldl _ _ rules) in *.
  unfold apply_rule. cbn [rs_containers]. rewrite compute_containers.
  destruct (rule_group_ids (rule_context nodes resolve titles inline s r) r eq_refl) as [Hg1 Hg2].
  set (gs := rule_groups _ _) in *. split.
  - rewrite fmap_app, <- list_fmap_compose. apply list.NoDup_app. split_and!; [done| |done].
    intros id (n & -> & Hn)%list_elem_of_fmap (g & E & Hg)%list_elem_of_fmap.
    destruct (IHr n Hn) as (r' & Hr' & Hname). specialize (Hg2 g Hg). change (n_id n = group_id g) in E.
    rewrite <- E in Hg2. eapply (names_apart r' r); [| |done|done].
    + intros Er. apply (Hsep (rule_id r')); [by apply list_elem_of_fmap_2|]. rewrite Er. by left.
    + destruct (is_stack_rule r) eqn:Er; [|by right]. left. destruct (is_stack_rule r') eqn:Er'; [|done]. exfalso.
      assert (r' ∈ List.filter is_stack_rule rules) as Hin by (by apply elem_of_list_filter_bool).
      simpl in Hst. rewrite Er in Hst. destruct (List.filter is_stack_rule rules); [by apply elem_of_nil in Hin|].
      simpl in Hst. lia.
  - intros n. rewrite elem_of_app. intros [Hn|(g & -> & Hg)%list_elem_of_fmap].
    + destruct (IHr n Hn) as (r' & ? & ?). exists r'. split; [apply elem_of_app; by left|done].
    + exists r. split; [apply elem_of_app; right; by apply list_elem_of_singleton|]. by apply Hg2.
Qed.

(** ** A sample *)

Definition sample_element (id : Uuid) : Node := node_element id 11%N 1%N El_Service None.
Definition sample_resolve (n : Node) : option ElementMatchData :=
  Some {| md_categories := [Database]; md_tags := [71%N]; md_entity := E_Service; md_virtualizer := None;
          md_deployment_group := None; md_native_vlan := None; md_vlan_number := None; md_vlan_name := None;
          md_is_trunk_port := false; md_oper_status := None |}.
Definition sample_rules : list (IdentifiedRule ElementRule) :=
  [{| rule_id := 95%N; rule := ByTag [71%N] None |}; {| rule_id := 97%N; rule := ByServiceCategory [Database] None false |}].

Lemma first_rule_wins_witness :
  move (rs_reassign (apply_rules [sample_element 33%N] sample_resolve None None sample_rules)) (sample_element 33%N)
  = move (rs_reassign (apply_rules [sample_element 33%N] sample_resolve None None (take 1 sample_rules))) (sample_element 33%N).
Proof.
  apply (first_rule_wins [sample_element 33%N] sample_resolve None (take 1 sample_rules) (drop 1 sample_rules)).
  - by_evaluation.
  - repeat constructor.
  - by_evaluation.
Defined.
