(* ===== verification/EdgeBuilder.v ===== *)
(** The edges of the topology graph.

    [server/topology/service/edge_builder.rs].  The edges of every view that
    come from addresses, bindings and neighbour data, and the step that keeps
    the edges whose two ends are nodes. *)

From S2P Require Import Prelude Net Ports Position Entities ServiceIdentity Patterns Services Hosts HostMatch Locks Lldp Interfaces Subnets Topology.
Local Open Scope Z_scope.

(** ** Order and iteration *)

(** [Ord] of [IpAddr]: version 4 before version 6, then by number. *)
Definition ip_ltb (a b : IpAddr) : bool :=
  match a, b with
  | V4 x, V4 y | V6 x, V6 y => x <? y
  | V4 _, V6 _ => true
  | V6 _, V4 _ => false
  end.

(** [Ord] of [(IpAddr, Uuid)]. *)
Definition target_ltb (a b : IpAddr * Uuid) : bool :=
  ip_ltb a.1 b.1 || (bool_decide (a.1 = b.1) && (a.2 <? b.2)%N).
Definition target_leb (a b : IpAddr * Uuid) : bool := negb (target_ltb b a).

Definition pair_leb (a b : Uuid * Uuid) : bool := (a.1 <? b.1)%N || ((a.1 =? b.1)%N && (a.2 <=? b.2)%N).

(** [BTreeMap::iter]: by key. *)
Definition btree_iter {K V} `{Countable K} (leb : K → K → bool) (m : gmap K V) : list (K * V) :=
  sort_by (λ a b, leb a.1 b.1) (map_to_list m).

(** [push] unless it is there. *)
Definition push_new (l : list Uuid) (x : Uuid) : list Uuid := if bool_decide (x ∈ l) then l else l ++ [x].

(** [entry(k).or_default()], then [push] unless it is there. *)
Definition map_push_new {K} `{Countable K} (k : K) (x : Uuid) (m : gmap K (list Uuid)) : gmap K (list Uuid) :=
  <[k := push_new (default [] (m !! k)) x]> m.

(** [Itertools::unique]. *)
Fixpoint unique_from (seen : list Uuid) (l : list Uuid) : list Uuid :=
  match l with
  | [] => []
  | x :: l => if bool_decide (x ∈ seen) then unique_from seen l else x :: unique_from (x :: seen) l
  end.

(** [Iterator::min]. *)
Definition min_target (l : list (IpAddr * Uuid)) : option (IpAddr * Uuid) :=
  match l with
  | [] => None
  | x :: l => Some (foldl (λ m y, if target_ltb y m then y else m) x l)
  end.

(** [slice::windows(2)]. *)
Fixpoint windows2 {A} (l : list A) : list (A * A) :=
  match l with
  | x :: ((y :: _) as rest) => (x, y) :: windows2 rest
  | _ => []
  end.

(** The elements that have a key, the first of every key: a loop that skips an
    element without a key and one whose key is in the set of those seen. *)
Fixpoint first_by_key {A K} `{Countable K} (key : A → option K) (seen : gset K) (l : list A) : list A :=
  match l with
  | [] => []
  | x :: l =>
      match key x with
      | Some k => if bool_decide (k ∈ seen) then first_by_key key seen l
                  else x :: first_by_key key ({[k]} ∪ seen) l
      | None => first_by_key key seen l
      end
  end.

(** An unordered pair. *)
Definition host_pair_key (a b : Uuid) : Uuid * Uuid := if (a <? b)%N then (a, b) else (b, a).

Section Edges.
Context (ctx : TopologyContext).

Definition is_bridge_subnet (id : Uuid) : bool :=
  match get_subnet_by_id ctx id with Some s => is_container_bridge (subnet_type (s_base s)) | None => false end.

(** ** Dependencies *)

Definition get_binding (s : Service) (id : Uuid) : option Binding :=
  List.find (λ b, (b_id b =? id)%N) (bindings (sv_base s)).

(** The address of the first binding of that id. *)
Definition binding_address (id : Uuid) : option Uuid :=
  head (omap (λ s, get_binding s id) (c_services ctx)) ≫= ip_address_id.

Definition dependency_edge_type (d : Dependency) (source target : Uuid) : EdgeType :=
  match dependency_type d with
  | HubAndSpoke => ET_HubAndSpoke (d_id d) source target
  | RequestPath => ET_RequestPath (d_id d) source target
  end.

Definition edge_from_service_bindings (source target : Uuid) (d : Dependency) : option Edge :=
  a ← binding_address source; b ← binding_address target;
  let same_subnet := bool_decide (s_id <$> get_subnet_from_ip_address_id ctx a
                                  = s_id <$> get_subnet_from_ip_address_id ctx b) in
  Some (new_edge a b (dependency_edge_type d source target) (if same_subnet then None else Some (dep_name d))
          (edge_is_multi_hop ctx a b)).

Definition binding_ids (d : Dependency) : list Uuid :=
  match members d with DepBindings ids => ids | DepServices _ => [] end.

Definition dependency_edges (d : Dependency) : list Edge :=
  match dependency_type d with
  | RequestPath => omap (λ w, edge_from_service_bindings w.1 w.2 d) (windows2 (binding_ids d))
  | HubAndSpoke =>
      match binding_ids d with
      | [] => []
      | hub :: spokes => omap (λ spoke, edge_from_service_bindings hub spoke d) (rev spokes)
      end
  end.
Definition create_dependency_edges : list Edge := c_dependencies ctx ≫= dependency_edges.

(** ** Container runtimes *)

(** The services each runtime manages. *)
Definition containerized_services : gmap Uuid (list Uuid) :=
  foldl (λ m s, match virtualization_service_id (sv_base s) with
                | Some runtime => map_push_new runtime (sv_id s) m
                | None => m
                end) ∅ (c_services ctx).

(** The bridge addresses of a host, with their subnet. *)
Definition bridge_entry (i : IPAddress) : option (Uuid * (Uuid * IpAddr)) :=
  s ← get_subnet_by_id ctx (subnet_id (ip_base i));
  if is_container_bridge (subnet_type (s_base s)) then Some (ip_id i, (s_id s, ip_address (ip_base i))) else None.
Definition bridge_ips (host : Uuid) : gmap Uuid (Uuid * IpAddr) :=
  collect_map (omap bridge_entry (get_ip_addresses_for_host ctx host)).

(** A container at an address of a bridge subnet. *)
Record Attachment := { at_container : Uuid; at_subnet : Uuid; at_ip : IpAddr; at_ip_id : Uuid }.

Definition attachments (ips : gmap Uuid (Uuid * IpAddr)) (containers : list Uuid) : list Attachment :=
  containers ≫= λ c,
    match get_service_by_id ctx c with
    | None => []
    | Some s =>
        omap (λ ip, '(sn, a) ← ips !! ip;
                    Some {| at_container := c; at_subnet := sn; at_ip := a; at_ip_id := ip |})
          (omap ip_address_id (bindings (sv_base s)))
    end.

Definition target_by_subnet (l : list Attachment) : gmap Uuid (IpAddr * Uuid) :=
  foldl (λ m a,
    let candidate := (at_ip a, at_ip_id a) in
    <[at_subnet a := match m !! at_subnet a with
                     | Some current => if target_ltb candidate current then candidate else current
                     | None => candidate
                     end]> m) ∅ l.
Definition containers_by_subnet (l : list Attachment) : gmap Uuid (list Uuid) :=
  foldl (λ m a, map_push_new (at_subnet a) (at_container a) m) ∅ l.
Definition containers_by_attachment (l : list Attachment) : gmap (Uuid * Uuid) (list Uuid) :=
  foldl (λ m a, map_push_new (at_subnet a, at_ip_id a) (at_container a) m) ∅ l.

(** What the edges of a runtime stand for: target, subnets and containers. *)
Definition per_edge (g : GroupingConfig) (l : list Attachment) : list (Uuid * list Uuid * list Uuid) :=
  let targets := btree_iter N.leb (target_by_subnet l) in
  if should_group_container_bridges g then
    match min_target targets.*2 with
    | None => []
    | Some (_, target) =>
        [(target, targets.*1,
          foldl push_new [] (mjoin (btree_iter N.leb (containers_by_subnet l)).*2))]
    end
  else if subnets_are_containers g then
    (λ st, (st.2.2, [st.1], default [] (containers_by_subnet l !! st.1))) <$> targets
  else (λ ac, (ac.1.2, [ac.1.1], ac.2)) <$> btree_iter pair_leb (containers_by_attachment l).

Definition runtime_edges (g : GroupingConfig) (s : Service) : list Edge :=
  match containerized_services !! sv_id s with
  | None => []
  | Some containers =>
      match get_host_by_id ctx (sv_host_id (sv_base s)) with
      | None => []
      | Some host =>
          match get_first_non_container_bridge_ip_address_for_host ctx (h_id host) with
          | None => []
          | Some origin =>
              (λ '(target, subnets, cs),
                 new_edge (ip_id origin) target (ET_ContainerRuntime (h_id host) (sv_id s) subnets cs)
                   (Some (sv_name (sv_base s) +:+ " on " +:+ h_name (h_base host)))
                   (edge_is_multi_hop ctx (ip_id origin) target))
              <$> per_edge g (attachments (bridge_ips (h_id host)) containers)
          end
      end
  end.

Definition create_containerized_service_edges (g : GroupingConfig) : list Edge :=
  c_services ctx ≫= runtime_edges g.

(** ** A container on several bridges *)

Definition bridge_addresses (s : Service) : list (IpAddr * Uuid) :=
  omap (λ id, i ← get_ip_address_by_id ctx id;
              if is_bridge_subnet (subnet_id (ip_base i)) then Some (ip_address (ip_base i), id) else None)
    (unique_from [] (omap ip_address_id (bindings (sv_base s)))).

Definition same_container_edges (s : Service) : list Edge :=
  match virtualization_metadata (sv_base s) with
  | None => []
  | Some _ =>
      match sort_by target_leb (bridge_addresses s) with
      | (_, anchor) :: rest =>
          (λ t, new_edge anchor t.2 (ET_SameContainer (sv_id s)) (Some (sv_name (sv_base s)))
                  (edge_is_multi_hop ctx anchor t.2)) <$> rest
      | [] => []
      end
  end.
Definition create_same_container_edges : list Edge := c_services ctx ≫= same_container_edges.

(** ** Virtual machines *)

(** The address a hypervisor's service has in a subnet, the first. *)
Definition hypervisor_addresses : gmap (Uuid * Uuid) Uuid :=
  foldl (λ m h,
    match h_virtualization_service_id (h_base h) ≫= get_service_by_id ctx with
    | None => m
    | Some s =>
        foldl (λ m i,
          match get_subnet_from_ip_address_id ctx i with
          | Some sn => match m !! (s_id sn, sv_id s) with
                       | None => <[(s_id sn, sv_id s) := i]> m
                       | Some _ => m
                       end
          | None => m
          end) m (omap ip_address_id (bindings (sv_base s)))
    end) ∅ (c_hosts ctx).

Definition vm_managers : gmap Uuid Uuid :=
  foldl (λ m h, match h_virtualization_service_id (h_base h) with
                | Some s => <[h_id h := s]> m
                | None => m
                end) ∅ (c_hosts ctx).

Definition vm_host_edges (h : HostRow) : list Edge :=
  match vm_managers !! h_id h with
  | None => []
  | Some s =>
      omap (λ i, a ← hypervisor_addresses !! (subnet_id (ip_base i), s);
                 Some (new_edge a (ip_id i) (ET_Hypervisor s) None (edge_is_multi_hop ctx a (ip_id i))))
        (get_ip_addresses_for_host ctx (h_id h))
  end.
Definition create_vm_host_edges : list Edge := c_hosts ctx ≫= vm_host_edges.

Definition create_vm_host_edges_by_host : list Edge :=
  omap (λ h, m ← h_virtualization_service_id (h_base h); s ← get_service_by_id ctx m;
             Some (new_edge (sv_host_id (sv_base s)) (h_id h) (ET_Hypervisor m) None false)) (c_hosts ctx).

(** ** Addresses of one host *)

Definition interface_edges (h : HostRow) : list Edge :=
  match get_first_non_container_bridge_ip_address_for_host ctx (h_id h) with
  | None => []
  | Some origin =>
      omap (λ i,
        if (ip_id i =? ip_id origin)%N || is_bridge_subnet (subnet_id (ip_base origin))
           || is_bridge_subnet (subnet_id (ip_base i))
        then None
        else Some (new_edge (ip_id origin) (ip_id i) (ET_SameHost (h_id h))
               (if (subnet_id (ip_base origin) =? subnet_id (ip_base i))%N then None else Some (h_name (h_base h)))
               (edge_is_multi_hop ctx (ip_id origin) (ip_id i))))
        (get_ip_addresses_for_host ctx (h_id h))
  end.
Definition create_interface_edges : list Edge := c_hosts ctx ≫= interface_edges.

(** ** Links *)

(** The interface a port's neighbour is. *)
Definition neighbor_target (i : InterfaceRow) : option Uuid := neighbor (if_base i) ≫= neighbor_interface_id.
Definition link_key (i : InterfaceRow) : option (Uuid * Uuid) := host_pair_key (if_id i) <$> neighbor_target i.

Definition link_label (a b : InterfaceRow) : option string := Some (display_text a +:+ arrow +:+ display_text b).

Definition physical_link_edge (i : InterfaceRow) : option Edge :=
  t ← neighbor_target i;
  a ← resolve_ip_address_for_interface ctx i;
  target ← get_interface_by_id ctx t;
  b ← resolve_ip_address_for_interface ctx target;
  Some (new_edge a b (ET_PhysicalLink (if_id i) (if_id target) ByLLDP) (link_label i target)
          (edge_is_multi_hop ctx a b)).
Definition create_physical_link_edges : list Edge :=
  omap physical_link_edge (first_by_key link_key ∅ (get_interfaces_with_neighbor ctx)).

(** The hosts a physical link joins. *)
Definition linked_hosts (e : Edge) : option (Uuid * Uuid) :=
  match edge_type e with
  | ET_PhysicalLink s t _ =>
      a ← get_interface_by_id ctx s; b ← get_interface_by_id ctx t;
      Some (host_pair_key (if_host_id (if_base a)) (if_host_id (if_base b)))
  | _ => None
  end.
Definition physical_link_host_pairs (edges : list Edge) : gset (Uuid * Uuid) := list_to_set (omap linked_hosts edges).

Definition neighbor_host (i : InterfaceRow) : option Uuid :=
  match neighbor (if_base i) with Some (NeighborHost h) => Some h | _ => None end.

(** The pair of hosts an adjacency joins, unless a link joins them already. *)
Definition adjacency_key (linked : gset (Uuid * Uuid)) (i : InterfaceRow) : option (Uuid * Uuid) :=
  t ← neighbor_host i;
  let s := if_host_id (if_base i) in
  if (s =? t)%N then None
  else
    _ ← get_host_by_id ctx s; _ ← get_host_by_id ctx t;
    let k := host_pair_key s t in
    if bool_decide (k ∈ linked) then None else Some k.

Definition neighbor_link_edge (node_for_host : Uuid → Uuid) (i : InterfaceRow) : option Edge :=
  t ← neighbor_host i;
  let s := if_host_id (if_base i) in
  a ← get_host_by_id ctx s; b ← get_host_by_id ctx t;
  Some (new_edge (node_for_host s) (node_for_host t)
          (ET_NeighborLink s t (if has_lldp_data i then ByLLDP else ByCDP))
          (Some (h_name (h_base a) +:+ arrow +:+ h_name (h_base b))) false).

Definition create_neighbor_link_edges (node_for_host : Uuid → Uuid) (linked : gset (Uuid * Uuid)) : list Edge :=
  omap (neighbor_link_edge node_for_host)
    (first_by_key (adjacency_key linked) ∅ (get_interfaces_with_host_neighbor ctx)).
End Edges.

(** Keep the edges whose ends are nodes. *)
Definition add_edges_to_graph (node_ids : list Uuid) (edges : list Edge) : list Edge :=
  List.filter (λ e, bool_decide (e_source e ∈ node_ids) && bool_decide (e_target e ∈ node_ids)) edges.
