(* ===== verification/EdgeThms.v ===== *)
(** What the edges of a topology guarantee.

    Theorems on [EdgeBuilder]: a container attached to its host's bridges is
    named by an edge of its runtime, whatever the grouping; the address a runtime
    edge ends at does not depend on the order of bindings; the addresses of one
    container form a star; links and adjacencies are drawn once per pair. *)

From S2P Require Import Prelude Net Ports Position Entities ServiceIdentity Patterns Services Hosts HostMatch Locks Lldp Interfaces Subnets Topology TopologySample ElementRules EdgeBuilder.
Local Open Scope Z_scope.

(** ** Collections *)

#[export] Instance filter_bool_Permutation {A} (f : A → bool) : Proper ((≡ₚ) ==> (≡ₚ)) (List.filter f).
Proof.
  induction 1 as [|x l l' _ IH|x y l|]; simpl; [done| | |by etrans].
  - destruct (f x); by rewrite IH.
  - destruct (f x), (f y); try done. apply Permutation_swap.
Qed.

Lemma elem_of_push_new l x y : y ∈ push_new l x ↔ y ∈ l ∨ y = x.
Proof.
  unfold push_new. case_bool_decide; [naive_solver|]. rewrite elem_of_app, list_elem_of_singleton. done.
Qed.

Lemma elem_of_push_all xs l y : y ∈ foldl push_new l xs ↔ y ∈ l ∨ y ∈ xs.
Proof.
  revert l. induction xs as [|x xs IH]; intros l; simpl; [rewrite elem_of_nil; tauto|].
  rewrite IH, elem_of_push_new, elem_of_cons. tauto.
Qed.

Lemma NoDup_push_all xs l : NoDup l → NoDup (foldl push_new l xs).
Proof.
  revert l. induction xs as [|x xs IH]; intros l Hnd; simpl; [done|]. apply IH. unfold push_new.
  case_bool_decide; [done|]. apply list.NoDup_app. split_and!; [done| |apply NoDup_singleton].
  intros y Hy ->%list_elem_of_singleton. done.
Qed.

Section PushBy.
Context {A K : Type} `{Countable K} (key : A → option K) (val : A → Uuid).

Definition push_by (m : gmap K (list Uuid)) (x : A) : gmap K (list Uuid) :=
  match key x with Some k => map_push_new k (val x) m | None => m end.

Lemma lookup_push_by l m k :
  foldl push_by m l !! k
  = match List.filter (has_key key k) l with
    | [] => m !! k
    | g => Some (foldl push_new (default [] (m !! k)) (val <$> g))
    end.
Proof.
  revert m. induction l as [|x l IH]; intros m; [done|]. simpl. rewrite IH.
  unfold has_key at 2, push_by, map_push_new. destruct (key x) as [k'|].
  - case_bool_decide as E; [injection E as ->|].
    + rewrite lookup_insert_eq. simpl. by destruct (List.filter (has_key key k) l).
    + by rewrite lookup_insert_ne by congruence.
  - by rewrite bool_decide_false by done.
Qed.

(** The values under a key are those of the elements that have it. *)
Lemma push_by_elem l k x y :
  foldl push_by ∅ l !! k = Some y → x ∈ y ↔ ∃ a, a ∈ l ∧ key a = Some k ∧ val a = x.
Proof.
  rewrite lookup_push_by, lookup_empty.
  assert (∀ a, a ∈ List.filter (has_key key k) l ↔ a ∈ l ∧ key a = Some k) as Hf.
  { intros a. rewrite elem_of_list_filter_bool. unfold has_key. rewrite bool_decide_eq_true. tauto. }
  destruct (List.filter (has_key key k) l) as [|b g]; [done|]. intros [= <-].
  change (x ∈ foldl push_new [] (val <$> b :: g) ↔ ∃ a, a ∈ l ∧ key a = Some k ∧ val a = x).
  rewrite elem_of_push_all, elem_of_nil, list_elem_of_fmap. setoid_rewrite Hf. naive_solver.
Qed.

Lemma push_by_has l k a : a ∈ l → key a = Some k → ∃ y, foldl push_by ∅ l !! k = Some y ∧ val a ∈ y.
Proof.
  intros Ha Hk. destruct (foldl push_by ∅ l !! k) as [y|] eqn:E.
  - exists y. split; [done|]. rewrite (push_by_elem _ _ _ _ E). eauto.
  - exfalso. rewrite lookup_push_by, lookup_empty in E.
    assert (a ∈ List.filter (has_key key k) l) as Hin.
    { rewrite elem_of_list_filter_bool. unfold has_key. by rewrite bool_decide_eq_true. }
    destruct (List.filter _ _); [by apply elem_of_nil in Hin|done].
Qed.

Lemma push_by_NoDup l k y : foldl push_by ∅ l !! k = Some y → NoDup y.
Proof.
  rewrite lookup_push_by, lookup_empty. destruct (List.filter _ _); [done|]. intros [= <-].
  change (NoDup (foldl push_new [] (val <$> a :: l0))). apply NoDup_push_all. constructor.
Qed.
End PushBy.

Lemma elem_of_btree_iter {K V} `{Countable K} leb (m : gmap K V) k v : (k, v) ∈ btree_iter leb m ↔ m !! k = Some v.
Proof. unfold btree_iter. rewrite sort_by_perm. apply elem_of_map_to_list. Qed.

Lemma NoDup_btree_iter {K V} `{Countable K} leb (m : gmap K V) : NoDup (btree_iter leb m).*1.
Proof. unfold btree_iter. rewrite sort_by_perm. apply NoDup_fst_map_to_list. Qed.

(** ** The first of every key *)

Section FirstByKey.
Context {A K : Type} `{Countable K} (key : A → option K).

Lemma first_by_key_elem l seen x :
  x ∈ first_by_key key seen l → x ∈ l ∧ ∃ k, key x = Some k ∧ k ∉ seen.
Proof.
  revert seen. induction l as [|y l IH]; intros seen; simpl; [by intros ?%elem_of_nil|].
  destruct (key y) as [k|] eqn:Hk; [case_bool_decide|].
  - intros (? & ? & ? & ?)%IH. set_solver.
  - rewrite !elem_of_cons. intros [->|(? & ? & ? & ?)%IH]; set_solver.
  - intros (? & ? & ? & ?)%IH. set_solver.
Qed.

Lemma first_by_key_NoDup l seen : NoDup (key <$> first_by_key key seen l).
Proof.
  revert seen. induction l as [|y l IH]; intros seen; simpl; [constructor|].
  destruct (key y) as [k|] eqn:Hk; [case_bool_decide|]; [done| |done].
  csimpl. rewrite Hk. constructor; [|done].
  intros (x & Hx & (_ & k' & Hk' & Hn)%first_by_key_elem)%list_elem_of_fmap.
  assert (k' = k) as -> by congruence. set_solver.
Qed.

Lemma first_by_key_covers l seen x k :
  x ∈ l → key x = Some k → k ∈ seen ∨ ∃ y, y ∈ first_by_key key seen l ∧ key y = Some k.
Proof.
  revert seen. induction l as [|y l IH]; intros seen; [by intros ?%elem_of_nil|]. simpl.
  intros [->|Hx]%elem_of_cons Hk.
  - rewrite Hk. case_bool_decide; [by left|]. right. exists y. split; [left|done].
  - destruct (key y) as [k'|] eqn:Hk'; [case_bool_decide|].
    + by apply IH.
    + destruct (IH ({[k']} ∪ seen) Hx Hk) as [[->%elem_of_singleton|?]%elem_of_union|(z & ? & ?)].
      * right. exists y. split; [left|done].
      * by left.
      * right. exists z. split; [by right|done].
    + by apply IH.
Qed.
End FirstByKey.

(** ** The lowest address *)

Lemma ip_ltb_irrefl a : ip_ltb a a = false.
Proof. destruct a; simpl; lia. Qed.
Lemma ip_ltb_trans a b c : ip_ltb a b = true → ip_ltb b c = true → ip_ltb a c = true.
Proof. destruct a, b, c; simpl; lia || done. Qed.
Lemma ip_ltb_total a b : ip_ltb a b = true ∨ a = b ∨ ip_ltb b a = true.
Proof.
  destruct a as [x|x], b as [y|y]; simpl; try tauto;
    (destruct (Z.lt_trichotomy x y) as [?|[->|?]]; [left; lia|right; left; done|right; right; lia]).
Qed.

Lemma target_ltb_spec a b :
  target_ltb a b = true ↔ ip_ltb a.1 b.1 = true ∨ a.1 = b.1 ∧ (a.2 < b.2)%N.
Proof.
  unfold target_ltb. rewrite orb_true_iff, andb_true_iff, bool_decide_eq_true, N.ltb_lt. done.
Qed.
Lemma target_ltb_trans a b c : target_ltb a b = true → target_ltb b c = true → target_ltb a c = true.
Proof.
  rewrite !target_ltb_spec. intros [Hab|[Eab Hab]] [Hbc|[Ebc Hbc]].
  - left. by eapply ip_ltb_trans.
  - left. by rewrite <- Ebc.
  - left. by rewrite Eab.
  - right. split; [congruence|lia].
Qed.
Lemma target_leb_antisym a b : target_leb a b = true → target_leb b a = true → a = b.
Proof.
  unfold target_leb. rewrite !negb_true_iff, <- !not_true_iff_false, !target_ltb_spec.
  destruct a as [x n], b as [y m]. simpl. intros H1 H2.
  destruct (ip_ltb_total x y) as [?|[->|?]]; [tauto| |tauto]. f_equal. destruct (N.lt_trichotomy n m) as [?|[?|?]]; tauto.
Qed.
Lemma target_leb_total a b : target_leb a b = true ∨ target_leb b a = true.
Proof.
  unfold target_leb. rewrite !negb_true_iff. destruct (target_ltb b a) eqn:E; [right|by left].
  apply not_true_iff_false. intros E'. pose proof (target_ltb_trans _ _ _ E E') as Hx.
  rewrite target_ltb_spec, ip_ltb_irrefl in Hx. destruct Hx as [?|[_ ?]]; [done|lia].
Qed.
Lemma target_leb_trans a b c : target_leb a b = true → target_leb b c = true → target_leb a c = true.
Proof.
  intros Hab Hbc. unfold target_leb in *. rewrite negb_true_iff in *. apply not_true_iff_false. intros Hca.
  destruct (decide (a = b)) as [->|Hne]; [congruence|].
  assert (target_ltb a b = true) as Hlt.
  { destruct (target_ltb a b) eqn:E; [done|]. exfalso. apply Hne, target_leb_antisym; unfold target_leb; by rewrite ?Hab, ?E. }
  by rewrite (target_ltb_trans _ _ _ Hca Hlt) in Hbc.
Qed.

Lemma min_target_spec l m : min_target l = Some m → m ∈ l ∧ ∀ y, y ∈ l → target_leb m y = true.
Proof.
  destruct l as [|x l]; [done|]. simpl. intros [= <-]. revert x.
  induction l as [|z l IH]; intros x; simpl.
  - split; [left|]. intros y ->%list_elem_of_singleton. by destruct (target_leb_total x x).
  - destruct (target_ltb z x) eqn:E.
    + destruct (IH z) as [Hin Hmin]. split; [set_solver|]. intros y [->|Hy]%elem_of_cons; [|by apply Hmin].
      apply (target_leb_trans _ z); [apply Hmin; left|]. unfold target_leb. rewrite negb_true_iff.
      apply not_true_iff_false. intros E'. pose proof (target_ltb_trans _ _ _ E E') as Hx.
      rewrite target_ltb_spec, ip_ltb_irrefl in Hx. destruct Hx as [?|[_ ?]]; [done|lia].
    + destruct (IH x) as [Hin Hmin]. split; [set_solver|]. intros y Hy.
      rewrite !elem_of_cons in Hy. destruct Hy as [->|[->|Hy]]; [apply Hmin; left| |apply Hmin; by right].
      apply (target_leb_trans _ x); [apply Hmin; left|]. unfold target_leb. by rewrite E.
Qed.

Lemma min_target_perm l l' : l ≡ₚ l' → min_target l = min_target l'.
Proof.
  intros Hp. destruct (min_target l) as [m|] eqn:E, (min_target l') as [m'|] eqn:E'.
  - apply min_target_spec in E as [Hin Hmin]. apply min_target_spec in E' as [Hin' Hmin'].
    f_equal. apply target_leb_antisym; [apply Hmin; by rewrite Hp|apply Hmin'; by rewrite <- Hp].
  - destruct l'; [|done]. symmetry in Hp. apply Permutation_nil in Hp as ->. done.
  - destruct l; [|done]. apply Permutation_nil in Hp as ->. done.
  - done.
Qed.

(** ** Runtime edges *)

Definition attachment_target (a : Attachment) : IpAddr * Uuid := (at_ip a, at_ip_id a).
Definition at_subnet_b (sn : Uuid) (a : Attachment) : bool := (at_subnet a =? sn)%N.

Lemma lookup_target_by_subnet l sn :
  target_by_subnet l !! sn = min_target (attachment_target <$> List.filter (at_subnet_b sn) l).
Proof.
  unfold target_by_subnet.
  assert (∀ m : gmap Uuid (IpAddr * Uuid), foldl (λ m a, <[at_subnet a := match m !! at_subnet a with
       | Some current => if target_ltb (at_ip a, at_ip_id a) current then (at_ip a, at_ip_id a) else current
       | None => (at_ip a, at_ip_id a) end]> m) m l !! sn
     = match m !! sn with
       | Some c => min_target (c :: (attachment_target <$> List.filter (at_subnet_b sn) l))
       | None => min_target (attachment_target <$> List.filter (at_subnet_b sn) l)
       end) as Hgen; [|by rewrite Hgen, lookup_empty].
  induction l as [|a l IH]; intros m.
  { simpl. destruct (m !! sn) eqn:E; reflexivity. }
  cbn [foldl List.filter]. rewrite IH. destruct (at_subnet_b sn a) eqn:E; unfold at_subnet_b in E.
  - apply N.eqb_eq in E as <-. rewrite lookup_insert_eq. by destruct (m !! at_subnet a).
  - apply N.eqb_neq in E. by rewrite lookup_insert_ne.
Qed.

(** The address that stands for a subnet does not follow the order of bindings. *)
Lemma target_by_subnet_perm l l' : l ≡ₚ l' → target_by_subnet l = target_by_subnet l'.
Proof.
  intros Hp. apply map_eq. intros sn. rewrite !lookup_target_by_subnet. apply min_target_perm.
  apply fmap_Permutation. by rewrite Hp.
Qed.

(** The maps of a runtime are lists of what has a key. *)
Lemma containers_by_subnet_push l :
  containers_by_subnet l = foldl (push_by (λ a, Some (at_subnet a)) at_container) ∅ l.
Proof. done. Qed.
Lemma containers_by_attachment_push l :
  containers_by_attachment l = foldl (push_by (λ a, Some (at_subnet a, at_ip_id a)) at_container) ∅ l.
Proof. done. Qed.
Lemma containerized_services_push ctx :
  containerized_services ctx
  = foldl (push_by (λ s, virtualization_service_id (sv_base s)) sv_id) ∅ (c_services ctx).
Proof. done. Qed.

Lemma target_by_subnet_has l a :
  a ∈ l → ∃ t, target_by_subnet l !! at_subnet a = Some t ∧ target_leb t (attachment_target a) = true.
Proof.
  intros Ha. assert (attachment_target a ∈ attachment_target <$> List.filter (at_subnet_b (at_subnet a)) l) as Hin.
  { apply list_elem_of_fmap_2, elem_of_list_filter_bool. unfold at_subnet_b. by rewrite N.eqb_refl. }
  rewrite lookup_target_by_subnet. destruct (min_target _) as [t|] eqn:E.
  - exists t. split; [done|]. by apply (min_target_spec _ _ E).
  - destruct (attachment_target <$> _) eqn:E'; [by apply elem_of_nil in Hin|done].
Qed.

Lemma target_by_subnet_from l sn t :
  target_by_subnet l !! sn = Some t → ∃ a, a ∈ l ∧ at_subnet a = sn ∧ attachment_target a = t.
Proof.
  rewrite lookup_target_by_subnet. intros [Hin _]%min_target_spec.
  apply list_elem_of_fmap in Hin as (a & -> & [Hs Ha]%elem_of_list_filter_bool).
  exists a. split_and!; [done|by apply N.eqb_eq|done].
Qed.

(** What an edge of a runtime stands for: containers attached in its subnets,
    ending at an address of one of them. *)
Definition edge_stands_for (l : list Attachment) (e : Uuid * list Uuid * list Uuid) : Prop :=
  (∃ a, a ∈ l ∧ at_ip_id a = e.1.1 ∧ at_subnet a ∈ e.1.2)
  ∧ (∀ c, c ∈ e.2 → ∃ a, a ∈ l ∧ at_container a = c ∧ at_subnet a ∈ e.1.2)
  ∧ NoDup e.2.

Lemma per_edge_sound g l e : e ∈ per_edge g l → edge_stands_for l e.
Proof.
  unfold per_edge. destruct (should_group_container_bridges g) eqn:Hg; [|destruct (subnets_are_containers g)].
  - destruct (min_target _) as [[ip target]|] eqn:E; [|by intros ?%elem_of_nil].
    intros ->%list_elem_of_singleton. apply min_target_spec in E as [Hin _]. split_and!; simpl.
    + apply list_elem_of_fmap in Hin as ([sn t] & E & Ht). simpl in E. subst t.
      pose proof Ht as Ht'. apply elem_of_btree_iter, target_by_subnet_from in Ht as (a & Ha & <- & E).
      exists a. split; [done|]. split; [by injection E|]. apply list_elem_of_fmap. by exists (at_subnet a, (ip, target)).
    + intros c. rewrite elem_of_push_all, elem_of_nil. intros [[]|(cs & Hc & Hcs)%list_elem_of_join].
      apply list_elem_of_fmap in Hcs as ([sn cs'] & -> & Hsn%elem_of_btree_iter).
      rewrite containers_by_subnet_push in Hsn. apply (push_by_elem _ _ _ _ _ _ Hsn) in Hc as (a & Ha & [= Es] & Ec).
      destruct (target_by_subnet_has l a Ha) as (t & Ht & _).
      exists a. split_and!; [done..|]. apply list_elem_of_fmap. exists (at_subnet a, t). split; [done|].
      by apply elem_of_btree_iter.
    + apply NoDup_push_all. constructor.
  - intros ([sn t] & -> & Ht%elem_of_btree_iter)%list_elem_of_fmap. simpl. split_and!.
    + apply target_by_subnet_from in Ht as (a & Ha & <- & <-). exists a. split_and!; [done..|]. by left.
    + intros c Hc. destruct (containers_by_subnet l !! sn) as [cs|] eqn:Hsn; [|by apply elem_of_nil in Hc].
      rewrite containers_by_subnet_push in Hsn. apply (push_by_elem _ _ _ _ _ _ Hsn) in Hc as (a & Ha & [= <-] & Ec).
      exists a. split_and!; [done..|]. by left.
    + destruct (containers_by_subnet l !! sn) eqn:Hsn; [|constructor].
      rewrite containers_by_subnet_push in Hsn. exact (push_by_NoDup _ _ _ _ _ Hsn).
  - intros ([[sn ip] cs] & -> & Hat%elem_of_btree_iter)%list_elem_of_fmap. simpl.
    rewrite containers_by_attachment_push in Hat. pose proof (push_by_NoDup _ _ _ _ _ Hat) as Hnd.
    split_and!; [| |done].
    + rewrite lookup_push_by, lookup_empty in Hat. destruct (List.filter _ l) as [|a f] eqn:Hf; [done|].
      assert (a ∈ List.filter (has_key (λ a, Some (at_subnet a, at_ip_id a)) (sn, ip)) l) as Ha by (rewrite Hf; left).
      apply elem_of_list_filter_bool in Ha as [Hk Ha]. unfold has_key in Hk. apply bool_decide_eq_true in Hk.
      injection Hk as <- <-. exists a. split_and!; [done..|]. by left.
    + intros c Hc. apply (push_by_elem _ _ _ _ _ _ Hat) in Hc as (a & Ha & [= <- <-] & Ec).
      exists a. split_and!; [done..|]. by left.
Qed.

(** The least target of the attachments that [P] selects. *)
Definition least_target (P : Attachment → Prop) (l : list Attachment) (t : Uuid) : Prop :=
  ∃ b, b ∈ l ∧ P b ∧ at_ip_id b = t
       ∧ ∀ a, a ∈ l → P a → target_leb (attachment_target b) (attachment_target a) = true.

Lemma target_by_subnet_least l sn t :
  target_by_subnet l !! sn = Some t → least_target (λ a, at_subnet a = sn) l t.2.
Proof.
  intros Ht. destruct (target_by_subnet_from _ _ _ Ht) as (b & Hb & <- & <-). exists b. split_and!; [done..|].
  intros a Ha Hs. destruct (target_by_subnet_has l a Ha) as (t' & Ht' & Hle). rewrite Hs in Ht'. by simplify_eq.
Qed.

Lemma min_of_targets_least l t :
  min_target (btree_iter N.leb (target_by_subnet l)).*2 = Some t → least_target (λ _, True) l t.2.
Proof.
  intros [Hin Hmin]%min_target_spec. apply list_elem_of_fmap in Hin as ([sn t'] & -> & Ht%elem_of_btree_iter).
  destruct (target_by_subnet_from _ _ _ Ht) as (b & Hb & <- & E). cbn [snd] in *. subst t'.
  exists b. split_and!; [done..|]. intros a Ha _. destruct (target_by_subnet_has l a Ha) as (t' & Ht' & Hle).
  eapply target_leb_trans; [|exact Hle]. apply Hmin, list_elem_of_fmap. exists (at_subnet a, t'). split; [done|].
  by apply elem_of_btree_iter.
Qed.

Lemma per_edge_complete g l a :
  a ∈ l → ∃ e, e ∈ per_edge g l ∧ at_subnet a ∈ e.1.2 ∧ at_container a ∈ e.2
    ∧ (should_group_container_bridges g = true → least_target (λ _, True) l e.1.1)
    ∧ (should_group_container_bridges g = false → subnets_are_containers g = true →
       least_target (λ b, at_subnet b = at_subnet a) l e.1.1)
    ∧ (should_group_container_bridges g = false → subnets_are_containers g = false → e.1.1 = at_ip_id a).
Proof.
  intros Ha. destruct (target_by_subnet_has l a Ha) as (t & Ht & Hle).
  destruct (push_by_has (λ a, Some (at_subnet a)) at_container l (at_subnet a) a Ha eq_refl) as (cs & Hcs & Hin).
  rewrite <- containers_by_subnet_push in Hcs. unfold per_edge.
  destruct (should_group_container_bridges g) eqn:Hg; [|destruct (subnets_are_containers g) eqn:Hb].
  - assert ((at_subnet a, t) ∈ btree_iter N.leb (target_by_subnet l)) as Hel by (by apply elem_of_btree_iter).
    destruct (min_target _) as [[ip target]|] eqn:E.
    + eexists. split; [by apply list_elem_of_singleton|]. simpl. split_and!; [| |intros _; apply (min_of_targets_least _ _ E)|done|done].
      * apply list_elem_of_fmap. by eexists (_, _).
      * rewrite elem_of_push_all. right. apply list_elem_of_join. exists cs. split; [done|].
        apply list_elem_of_fmap. exists (at_subnet a, cs). split; [done|]. by apply elem_of_btree_iter.
    + apply (list_elem_of_fmap_2 snd) in Hel. destruct ((btree_iter _ _).*2); [by apply elem_of_nil in Hel|done].
  - eexists. split; [apply list_elem_of_fmap; exists (at_subnet a, t); split; [done|by apply elem_of_btree_iter]|].
    simpl. rewrite Hcs. split_and!; [by left|done|done| |done].
    intros _ _. by apply target_by_subnet_least.
  - destruct (push_by_has (λ a, Some (at_subnet a, at_ip_id a)) at_container l _ a Ha eq_refl) as (cs' & Hcs' & Hin').
    rewrite <- containers_by_attachment_push in Hcs'.
    eexists. split; [apply list_elem_of_fmap; exists (at_subnet a, at_ip_id a, cs'); split; [done|by apply elem_of_btree_iter]|].
    simpl. split_and!; [by left|done|done|done|done].
Qed.

(** ** Containers are connected *)

Lemma get_subnet_by_id_id ctx id s : get_subnet_by_id ctx id = Some s → s_id s = id.
Proof. intros [_ E]%find_elem. by apply N.eqb_eq. Qed.
Lemma get_host_by_id_id ctx id h : get_host_by_id ctx id = Some h → h_id h = id.
Proof. intros [_ E]%find_elem. by apply N.eqb_eq. Qed.
Lemma get_interface_by_id_id ctx id i : get_interface_by_id ctx id = Some i → if_id i = id.
Proof. intros [_ E]%find_elem. by apply N.eqb_eq. Qed.

Lemma omap_keys_sublist {A B} (f : A → Uuid) (g : A → option (Uuid * B)) l :
  (∀ x kv, g x = Some kv → kv.1 = f x) → (omap g l).*1 `sublist_of` f <$> l.
Proof.
  intros Hg. induction l as [|x l IH]; csimpl; [constructor|]. destruct (g x) as [kv|] eqn:E; csimpl.
  - rewrite (Hg _ _ E). by constructor.
  - by constructor.
Qed.

Lemma bridge_entry_key ctx i kv : bridge_entry ctx i = Some kv → kv.1 = ip_id i.
Proof.
  unfold bridge_entry. intros (s & _ & E)%bind_Some. destruct (is_container_bridge _); [|done]. by injection E as <-.
Qed.

Lemma bridge_ips_has ctx host i :
  NoDup (ip_id <$> c_ip_addresses ctx) →
  i ∈ c_ip_addresses ctx → ip_host_id (ip_base i) = host → is_bridge_subnet ctx (subnet_id (ip_base i)) = true →
  bridge_ips ctx host !! ip_id i = Some (subnet_id (ip_base i), ip_address (ip_base i)).
Proof.
  intros Hnd Hi Hh Hb. apply lookup_collect_map.
  - eapply sublist_NoDup; [exact Hnd|]. etrans; [apply (omap_keys_sublist ip_id), bridge_entry_key|].
    apply sublist_fmap_of, filter_bool_sublist.
  - apply list_elem_of_omap. exists i. split.
    + apply elem_of_list_filter_bool. by rewrite Hh, N.eqb_refl.
    + unfold is_bridge_subnet in Hb. unfold bridge_entry.
      destruct (get_subnet_by_id ctx _) as [s|] eqn:E; [|done]. simpl. rewrite Hb.
      by rewrite (get_subnet_by_id_id _ _ _ E).
Qed.

Lemma attachments_has ctx ips containers c b ip sn a :
  NoDup (sv_id <$> c_services ctx) → c ∈ c_services ctx → sv_id c ∈ containers →
  b ∈ bindings (sv_base c) → ip_address_id b = Some ip → ips !! ip = Some (sn, a) →
  {| at_container := sv_id c; at_subnet := sn; at_ip := a; at_ip_id := ip |} ∈ attachments ctx ips containers.
Proof.
  intros Hnd Hc Hin Hb Hip Hlook. apply list_elem_of_bind. exists (sv_id c). split; [|done].
  unfold get_service_by_id. rewrite (find_by_key sv_id _ _ Hnd Hc).
  apply list_elem_of_omap. exists ip. split; [apply list_elem_of_omap; eauto|]. by rewrite Hlook.
Qed.

(** A bridge address of the host that a container of runtime [s] is bound to. *)
Definition attached (ctx : TopologyContext) (s : Service) (host : Uuid) (i : IPAddress) : Prop :=
  i ∈ c_ip_addresses ctx ∧ ip_host_id (ip_base i) = host ∧ is_bridge_subnet ctx (subnet_id (ip_base i)) = true
  ∧ ∃ c b, c ∈ c_services ctx ∧ virtualization_service_id (sv_base c) = Some (sv_id s)
           ∧ b ∈ bindings (sv_base c) ∧ ip_address_id b = Some (ip_id i).

(** [i] is attached and selected, and no attached and selected address is lower. *)
Definition lowest_attached (ctx : TopologyContext) (s : Service) (host : Uuid) (P : IPAddress → Prop) (i : IPAddress) : Prop :=
  attached ctx s host i ∧ P i
  ∧ ∀ j, attached ctx s host j → P j →
      target_leb (ip_address (ip_base i), ip_id i) (ip_address (ip_base j), ip_id j) = true.

Definition stands_at (i : IPAddress) (a : Attachment) : Prop :=
  at_subnet a = subnet_id (ip_base i) ∧ at_ip a = ip_address (ip_base i) ∧ at_ip_id a = ip_id i.

Lemma bridge_ips_sound ctx host id sn a :
  NoDup (ip_id <$> c_ip_addresses ctx) → bridge_ips ctx host !! id = Some (sn, a) →
  ∃ i, i ∈ c_ip_addresses ctx ∧ ip_host_id (ip_base i) = host ∧ is_bridge_subnet ctx (subnet_id (ip_base i)) = true
    ∧ ip_id i = id ∧ subnet_id (ip_base i) = sn ∧ ip_address (ip_base i) = a.
Proof.
  intros Hnd Hl. apply lookup_collect_map in Hl.
  - apply list_elem_of_omap in Hl as (i & [Hh%N.eqb_eq Hi]%elem_of_list_filter_bool & He). exists i.
    unfold bridge_entry in He. apply bind_Some in He as (sub & Hs & He). unfold is_bridge_subnet. rewrite Hs.
    pose proof (get_subnet_by_id_id _ _ _ Hs). destruct (is_container_bridge _); [|done]. by simplify_eq.
  - eapply sublist_NoDup; [exact Hnd|]. etrans; [apply (omap_keys_sublist ip_id), bridge_entry_key|].
    apply sublist_fmap_of, filter_bool_sublist.
Qed.

Section Attached.
Context (ctx : TopologyContext) (s : Service) (host : Uuid) (containers : list Uuid).
Hypothesis services_unique : NoDup (sv_id <$> c_services ctx).
Hypothesis addresses_unique : NoDup (ip_id <$> c_ip_addresses ctx).
Hypothesis listed : containerized_services ctx !! sv_id s = Some containers.

Let l : list Attachment := attachments ctx (bridge_ips ctx host) containers.

Lemma attached_in i : attached ctx s host i → ∃ a, a ∈ l ∧ stands_at i a.
Proof.
  intros (Hi & Hh & Hb & c & b & Hc & Hv & Hb' & Hip).
  destruct (push_by_has (λ s, virtualization_service_id (sv_base s)) sv_id (c_services ctx) (sv_id s) c Hc Hv)
    as (cs & Hcs & Hin). rewrite <- containerized_services_push in Hcs. simplify_eq.
  eexists. split; [eapply (attachments_has ctx); try done; by apply bridge_ips_has|done].
Qed.

Lemma attached_out a : a ∈ l → ∃ i, attached ctx s host i ∧ stands_at i a.
Proof.
  intros (cid & Ha & Hin)%list_elem_of_bind. destruct (get_service_by_id ctx cid) as [c|] eqn:Hc; [|by apply elem_of_nil in Ha].
  apply find_elem in Hc as [Hc <-%N.eqb_eq].
  apply list_elem_of_omap in Ha as (ip & (b & Hb & Hip)%list_elem_of_omap & ([sn x] & Hl & [= <-])%bind_Some).
  apply bridge_ips_sound in Hl as (i & Hi & Hh & Hbr & <- & <- & <-); [|done].
  exists i. split; [|done]. split_and!; [done..|]. exists c, b. split_and!; [done| |done|done].
  rewrite containerized_services_push in listed. apply (push_by_elem _ _ _ _ _ _ listed) in Hin as (c' & Hc' & Hv & E).
  by rewrite (NoDup_key_inj sv_id _ c c' services_unique Hc Hc' (eq_sym E)).
Qed.

Lemma least_lowest (P : Attachment → Prop) (Q : IPAddress → Prop) t :
  (∀ i a, stands_at i a → P a ↔ Q i) → least_target P l t →
  ∃ i, lowest_attached ctx s host Q i ∧ ip_id i = t.
Proof.
  intros HPQ (b & Hb & HP & <- & Hmin). destruct (attached_out b Hb) as (i & Hi & Hs). exists i.
  pose proof Hs as (_ & E1 & E2). split; [|done]. split_and!; [done|by apply (HPQ i b)|].
  intros j Hj HQ. destruct (attached_in j Hj) as (a & Ha & Hsa). specialize (Hmin a Ha).
  rewrite (HPQ j a Hsa) in Hmin. destruct Hsa as (_ & E3 & E4). unfold attachment_target in Hmin.
  rewrite E1, E2, E3, E4 in Hmin. by apply Hmin.
Qed.
End Attached.

(** C33. A container runtime reaches every container: when a container of [s] is bound
    to a bridge address [i] of the host of [s], an edge of [s] that starts at the host's
    first address outside the bridges names the container and the subnet.  Where the
    bridges are merged into one the edge ends at the lowest of all bridge addresses of the
    host that a container of [s] is bound to; where a subnet is drawn as a box, at the
    lowest such address of that subnet; where it is not, at [i] itself. *)
Theorem container_connected ctx g s host origin c b i :
  NoDup (sv_id <$> c_services ctx) → NoDup (ip_id <$> c_ip_addresses ctx) →
  s ∈ c_services ctx → get_host_by_id ctx (sv_host_id (sv_base s)) = Some host →
  get_first_non_container_bridge_ip_address_for_host ctx (h_id host) = Some origin →
  c ∈ c_services ctx → virtualization_service_id (sv_base c) = Some (sv_id s) →
  b ∈ bindings (sv_base c) → ip_address_id b = Some (ip_id i) →
  i ∈ c_ip_addresses ctx → ip_host_id (ip_base i) = h_id host → is_bridge_subnet ctx (subnet_id (ip_base i)) = true →
  ∃ e subnets cs, e ∈ create_containerized_service_edges ctx g
    ∧ e_source e = ip_id origin
    ∧ edge_type e = ET_ContainerRuntime (h_id host) (sv_id s) subnets cs
    ∧ subnet_id (ip_base i) ∈ subnets ∧ sv_id c ∈ cs ∧ NoDup cs
    ∧ (should_group_container_bridges g = true →
       ∃ j, lowest_attached ctx s (h_id host) (λ _, True) j ∧ ip_id j = e_target e)
    ∧ (should_group_container_bridges g = false → subnets_are_containers g = true →
       ∃ j, lowest_attached ctx s (h_id host) (λ j, subnet_id (ip_base j) = subnet_id (ip_base i)) j
            ∧ ip_id j = e_target e)
    ∧ (should_group_container_bridges g = false → subnets_are_containers g = false → e_target e = ip_id i).
Proof.
  intros Hnds Hndi Hs Hhost Horigin Hc Hv Hb Hip Hi Hih Hbr.
  destruct (push_by_has (λ s, virtualization_service_id (sv_base s)) sv_id (c_services ctx) (sv_id s) c Hc Hv)
    as (containers & Hcs & Hin). rewrite <- containerized_services_push in Hcs.
  pose proof (bridge_ips_has _ _ _ Hndi Hi Hih Hbr) as Hlook.
  pose proof (attachments_has _ _ _ _ _ _ _ _ Hnds Hc Hin Hb Hip Hlook) as Ha.
  destruct (per_edge_complete g _ _ Ha) as ([[target subnets] cs] & Hel & Hsn & Hcin & Hmerged & Hbox & Hown). simpl in *.
  eexists _, subnets, cs. split; [apply list_elem_of_bind; exists s; split; [|done]|].
  { unfold runtime_edges. rewrite Hcs, Hhost, Horigin. apply list_elem_of_fmap. by eexists (_, _, _). }
  split_and!; [done|done|done|done|apply (per_edge_sound _ _ _ Hel)| | |done].
  - intros Hg. by eapply (least_lowest ctx s _ containers Hnds Hndi Hcs), Hmerged.
  - intros Hg Hb'. eapply (least_lowest ctx s _ containers Hnds Hndi Hcs), Hbox; [|done|done].
    intros j a (E & _). by rewrite E.
Qed.

(** ** One container, several bridges *)

Lemma unique_from_NoDup seen l : NoDup (unique_from seen l) ∧ ∀ x, x ∈ unique_from seen l → x ∉ seen.
Proof.
  revert seen. induction l as [|x l IH]; intros seen; simpl; [split; [constructor|by intros ? ?%elem_of_nil]|].
  case_bool_decide as Hx; [apply IH|]. destruct (IH (x :: seen)) as [Hnd Hni]. split.
  - constructor; [|done]. intros Hin. apply (Hni x Hin). by left.
  - intros y [->|Hy]%elem_of_cons; [done|]. intros Hs. apply (Hni y Hy). by right.
Qed.

Lemma bridge_addresses_NoDup ctx s : NoDup (bridge_addresses ctx s).*2.
Proof.
  eapply sublist_NoDup; [apply (unique_from_NoDup [] (omap ip_address_id (bindings (sv_base s))))|].
  unfold bridge_addresses. induction (unique_from _ _) as [|x l IH]; csimpl; [constructor|].
  destruct (get_ip_address_by_id ctx x) as [i|]; csimpl; [|by constructor].
  destruct (is_bridge_subnet _ _); csimpl; by constructor.
Qed.

(** The bridge addresses of a container form a star around the lowest: every other
    address is the end of one edge. *)
Theorem same_container_star ctx s :
  virtualization_metadata (sv_base s) ≠ None →
  match same_container_edges ctx s with
  | [] => (length (bridge_addresses ctx s) < 2)%nat
  | (e :: _) as edges =>
      ∃ ip, (ip, e_source e) ∈ bridge_addresses ctx s
        ∧ (∀ t, t ∈ bridge_addresses ctx s → target_leb (ip, e_source e) t = true)
        ∧ Forall (λ e', e_source e' = e_source e ∧ edge_type e' = ET_SameContainer (sv_id s)) edges
        ∧ e_source e :: (e_target <$> edges) ≡ₚ (bridge_addresses ctx s).*2
        ∧ NoDup (e_source e :: (e_target <$> edges))
  end.
Proof.
  intros Hv. unfold same_container_edges. destruct (virtualization_metadata (sv_base s)); [|done]. clear Hv.
  pose proof (sort_by_perm target_leb (bridge_addresses ctx s)) as Hp.
  pose proof (sort_by_sorted _ target_leb_total target_leb_trans (bridge_addresses ctx s)) as Hs.
  destruct (sort_by target_leb (bridge_addresses ctx s)) as [|[ip anchor] [|t rest]]; csimpl.
  - rewrite <- Hp. simpl. lia.
  - rewrite <- Hp. simpl. lia.
  - exists ip. split_and!.
    + rewrite <- Hp. by left.
    + intros t'. rewrite <- Hp. inversion Hs as [|? ? _ Hall]; subst.
      intros [->|Ht]%elem_of_cons; [by destruct (target_leb_total (ip, anchor) (ip, anchor))|].
      rewrite Forall_forall in Hall. apply Hall. by apply list_elem_of_In.
    + constructor; [done|]. apply Forall_forall. intros e' He%list_elem_of_In.
      apply list_elem_of_fmap in He as (? & -> & _). done.
    + rewrite <- Hp. csimpl. do 2 f_equiv. rewrite <- list_fmap_compose. done.
    + pose proof (bridge_addresses_NoDup ctx s) as Hnd. rewrite <- Hp in Hnd. csimpl in Hnd.
      rewrite <- list_fmap_compose. exact Hnd.
Qed.

(** ** Adjacencies *)

(** The hosts an adjacency joins. *)
Definition adjacency_hosts (e : Edge) : option (Uuid * Uuid) :=
  match edge_type e with ET_NeighborLink s t _ => Some (host_pair_key s t) | _ => None end.

Lemma adjacency_key_Some ctx linked i k :
  adjacency_key ctx linked i = Some k ↔
  ∃ t a b, neighbor (if_base i) = Some (NeighborHost t) ∧ if_host_id (if_base i) ≠ t
    ∧ get_host_by_id ctx (if_host_id (if_base i)) = Some a ∧ get_host_by_id ctx t = Some b
    ∧ k = host_pair_key (if_host_id (if_base i)) t ∧ k ∉ linked.
Proof.
  unfold adjacency_key, neighbor_host. destruct (neighbor (if_base i)) as [[|t]|]; simpl; [naive_solver| |naive_solver].
  destruct (N.eqb_spec (if_host_id (if_base i)) t); [naive_solver|].
  destruct (get_host_by_id ctx (if_host_id (if_base i))); simpl; [|naive_solver].
  destruct (get_host_by_id ctx t) eqn:E; simpl; [|naive_solver].
  case_bool_decide; naive_solver.
Qed.

Section Adjacencies.
Context (ctx : TopologyContext) (node_for_host : Uuid → Uuid) (linked : gset (Uuid * Uuid)).

Lemma neighbor_link_edge_spec i k :
  adjacency_key ctx linked i = Some k →
  ∃ e s t p, neighbor_link_edge ctx node_for_host i = Some e ∧ edge_type e = ET_NeighborLink s t p ∧ s ≠ t
    ∧ host_pair_key s t = k ∧ k ∉ linked ∧ e_source e = node_for_host s ∧ e_target e = node_for_host t
    ∧ is_Some (get_host_by_id ctx s) ∧ is_Some (get_host_by_id ctx t).
Proof.
  intros (t & a & b & Hn & Hne & Ha & Hb & -> & Hl)%adjacency_key_Some.
  unfold neighbor_link_edge, neighbor_host. rewrite Hn. simpl. rewrite Ha. simpl. rewrite Hb. simpl.
  eexists _, _, _, _. split_and!; eauto.
Qed.

Lemma neighbor_links_sound e :
  e ∈ create_neighbor_link_edges ctx node_for_host linked →
  ∃ s t p, edge_type e = ET_NeighborLink s t p ∧ s ≠ t ∧ host_pair_key s t ∉ linked
    ∧ e_source e = node_for_host s ∧ e_target e = node_for_host t
    ∧ is_Some (get_host_by_id ctx s) ∧ is_Some (get_host_by_id ctx t).
Proof.
  intros (i & (_ & k & Hk & _)%first_by_key_elem & He)%list_elem_of_omap.
  destruct (neighbor_link_edge_spec _ _ Hk) as (e' & s & t & p & E & ? & ? & <- & ?).
  simplify_eq. exists s, t, p. tauto.
Qed.

Lemma neighbor_links_NoDup : NoDup (adjacency_hosts <$> create_neighbor_link_edges ctx node_for_host linked).
Proof.
  pose proof (first_by_key_NoDup (adjacency_key ctx linked) (get_interfaces_with_host_neighbor ctx) ∅) as Hnd.
  unfold create_neighbor_link_edges.
  assert (∀ i, i ∈ first_by_key (adjacency_key ctx linked) ∅ (get_interfaces_with_host_neighbor ctx) →
    ∃ k, adjacency_key ctx linked i = Some k) as Hk.
  { intros i (_ & k & Hk & _)%first_by_key_elem. eauto. }
  induction (first_by_key _ _ _) as [|i l IH]; csimpl; [constructor|].
  destruct (Hk i) as [k Hi]; [left|]. csimpl in Hnd. inversion Hnd as [|? ? Hni Hnd']; subst.
  destruct (neighbor_link_edge_spec _ _ Hi) as (e & s & t & p & -> & Ht & _ & Hkey & _). csimpl. constructor.
  - intros (e' & E & (j & Hj & He')%list_elem_of_omap)%list_elem_of_fmap. apply Hni.
    destruct (Hk j) as [k' Hj']; [by right|].
    destruct (neighbor_link_edge_spec _ _ Hj') as (e'' & s' & t' & p' & E' & Ht' & _ & Hkey' & _). simplify_eq.
    unfold adjacency_hosts in E. rewrite Ht, Ht' in E. apply list_elem_of_fmap. exists j. split; [|done]. congruence.
  - apply IH; [done|]. intros j Hj. apply Hk. by right.
Qed.

Lemma neighbor_links_complete i t :
  i ∈ c_interfaces ctx → neighbor (if_base i) = Some (NeighborHost t) → if_host_id (if_base i) ≠ t →
  is_Some (get_host_by_id ctx (if_host_id (if_base i))) → is_Some (get_host_by_id ctx t) →
  host_pair_key (if_host_id (if_base i)) t ∉ linked →
  ∃ e, e ∈ create_neighbor_link_edges ctx node_for_host linked
    ∧ adjacency_hosts e = Some (host_pair_key (if_host_id (if_base i)) t).
Proof.
  intros Hi Hn Hne [a Ha] [b Hb] Hl.
  assert (adjacency_key ctx linked i = Some (host_pair_key (if_host_id (if_base i)) t)) as Hk.
  { apply adjacency_key_Some. eauto 10. }
  assert (i ∈ get_interfaces_with_host_neighbor ctx) as Hi' by (apply elem_of_list_filter_bool; by rewrite Hn).
  destruct (first_by_key_covers _ _ ∅ _ _ Hi' Hk) as [?|(j & Hj & Hkj)]; [set_solver|].
  destruct (neighbor_link_edge_spec _ _ Hkj) as (e & s & t' & p & He & Ht & _ & <- & _).
  exists e. split; [apply list_elem_of_omap; eauto|]. unfold adjacency_hosts. by rewrite Ht.
Qed.
End Adjacencies.

(** ** Samples *)

Lemma container_connected_witness :
  ∃ e subnets cs, e ∈ create_containerized_service_edges docker_network {| container_rules := []; element_rules := [] |}
    ∧ edge_type e = ET_ContainerRuntime 1%N 31%N subnets cs ∧ 15%N ∈ subnets ∧ 33%N ∈ cs ∧ e_target e = 25%N.
Proof.
  destruct (container_connected docker_network {| container_rules := []; element_rules := [] |}
    (sample_service 31%N 1%N "Docker" [sample_binding 45%N 31%N 21%N] None [])
    (sample_host 1%N None) (sample_ip 21%N 1%N 11%N (ipv4 10 0 0 1))
    (sample_service 33%N 1%N "PostgreSQL" [sample_binding 41%N 33%N 23%N; sample_binding 43%N 33%N 25%N] (Some 31%N) [])
    (sample_binding 43%N 33%N 25%N) (sample_ip 25%N 1%N 15%N (ipv4 172 18 0 2)))
    as (e & sn & cs & He & _ & Et & Hs & Hc & _ & _ & _ & Ht).
  1, 2: by_evaluation.
  1: left.
  1, 2: reflexivity.
  1: right; left.
  1: reflexivity.
  1: right; left.
  1: reflexivity.
  1: right; right; left.
  1, 2: reflexivity.
  exists e, sn, cs. split_and!; [exact He|exact Et|exact Hs|exact Hc|exact (Ht eq_refl eq_refl)].
Defined.

Lemma same_container_star_witness :
  match same_container_edges docker_network
    (sample_service 33%N 1%N "PostgreSQL" [sample_binding 41%N 33%N 23%N; sample_binding 43%N 33%N 25%N] (Some 31%N) []) with
  | [e] => NoDup [e_source e; e_target e]
  | _ => False
  end.
Proof.
  pose proof (same_container_star docker_network
    (sample_service 33%N 1%N "PostgreSQL" [sample_binding 41%N 33%N 23%N; sample_binding 43%N 33%N 25%N] (Some 31%N) []))
    as Hw.
  destruct Hw as (ip & _ & _ & _ & _ & Hnd); [discriminate|]. exact Hnd.
Defined.
