(* ===== verification/L2Builder.v ===== *)
(** The physical view: ports in the boxes of their hosts.

    [server/topology/service/l2_builder.rs]. *)

From S2P Require Import Prelude Net Ports Position Entities ServiceIdentity Patterns Services Hosts HostMatch Locks Lldp Interfaces Subnets Topology ElementRules EdgeBuilder.
Local Open Scope Z_scope.

(** [iter().map(|x| (x.id, x)).collect()]. *)
Definition lookup_by {A} (f : A → Uuid) (l : list A) : gmap Uuid A := collect_map ((λ x, (f x, x)) <$> l).

(** The ends of an adjacency, and the far end of a link. *)
Definition neighbor_link_ends (e : Edge) : list Uuid :=
  match edge_type e with ET_NeighborLink s t _ => [s; t] | _ => [] end.

Section L2.
Context `{UuidLib, MapOrder} (ctx : TopologyContext).

Definition l2_container_id_for_host (host : Uuid) : Uuid := new_v5 NAMESPACE_OID ("l2:" +:+ uuid_text host).

(** A link between ports, unless both are on one host. *)
Definition l2_link_edge (i : InterfaceRow) : option Edge :=
  t ← neighbor_target i;
  target ← get_interface_by_id ctx t;
  if (if_host_id (if_base i) =? if_host_id (if_base target))%N then None
  else Some (new_edge (if_id i) (if_id target) (ET_PhysicalLink (if_id i) (if_id target) ByLLDP)
               (link_label i target) false).
Definition l2_links : list Edge := omap l2_link_edge (first_by_key link_key ∅ (get_interfaces_with_neighbor ctx)).

Definition l2_adjacencies : list Edge :=
  create_neighbor_link_edges ctx l2_container_id_for_host (physical_link_host_pairs ctx l2_links).

Definition l2_edges : list Edge := l2_links ++ l2_adjacencies.

Definition link_target_host (e : Edge) : option Uuid :=
  match edge_type e with
  | ET_PhysicalLink _ t _ => (λ i, if_host_id (if_base i)) <$> get_interface_by_id ctx t
  | _ => None
  end.

Definition qualifying_host_ids : gset Uuid :=
  list_to_set ((λ i, if_host_id (if_base i)) <$> get_interfaces_with_neighbor ctx)
  ∪ list_to_set (l2_adjacencies ≫= neighbor_link_ends)
  ∪ list_to_set (omap link_target_host l2_edges).

Definition l2_host_container (host : Uuid) : option Node :=
  h ← lookup_by h_id (c_hosts ctx) !! host;
  Some (top_container (l2_container_id_for_host host) CT_Host (Some host) false (Some (h_name (h_base h)))).

Definition excluded_if_type (i : InterfaceRow) : bool := bool_decide (if_type (if_base i) ∈ EXCLUDED_IF_TYPES).

Definition l2_port (host : Uuid) (i : InterfaceRow) : Node :=
  node_element (if_id i) (l2_container_id_for_host host) host (El_Interface (if_id i)) (Some (display_text i)).

Definition l2_nodes : list Node :=
  omap l2_host_container (set_iter qualifying_host_ids)
  ++ (host ← set_iter qualifying_host_ids;
      l2_port host <$> List.filter (λ i, negb (excluded_if_type i)) (get_interfaces_for_host ctx host)).

Definition l2_resolve (n : Node) : option ElementMatchData :=
  match node_type n with
  | Container _ => None
  | Element e =>
      let interface := lookup_by if_id (c_interfaces ctx) !! n_id n in
      let native := interface ≫= λ i, native_vlan_id (vlans (if_base i)) in
      let vlan := native ≫= get_vlan_by_id ctx in
      Some {| md_categories := [];
              md_tags := resolve_element_tag_ids E_Interface (on_host e)
                           {| tl_hosts := Some (λ h, lookup_by h_id (c_hosts ctx) !! h); tl_services := None;
                              tl_subnets := None |};
              md_entity := E_Interface; md_virtualizer := None; md_deployment_group := None;
              md_native_vlan := native;
              md_vlan_number := vlan_number <$> vlan;
              md_vlan_name := vlan_name <$> vlan;
              md_is_trunk_port := match interface ≫= λ i, vlan_ids (vlans (if_base i)) with
                                  | Some (_ :: _) => true
                                  | _ => false
                                  end;
              md_oper_status := (λ i, oper_status (if_base i)) <$> interface |}
  end.

Definition l2_build (g : GroupingConfig) : list Node * list Edge :=
  ((apply_element_rules l2_nodes l2_resolve None None (element_rules g)).1, l2_edges).
End L2.
