(* ===== verification/L3Builder.v ===== *)
(** The logical view: addresses in the boxes of their subnets.

    [server/topology/service/l3_builder.rs] and
    [server/topology/service/subnet_graph_builder.rs].  The icon and colour of a
    subnet are display data, and the handles an anchor planner would set are left
    to the client by the code. *)

From S2P Require Import Prelude Net Ports Position Entities ServiceIdentity Patterns Services Hosts HostMatch Locks Lldp Interfaces Subnets Topology ElementRules EdgeBuilder L2Builder.
Local Open Scope Z_scope.

Record SubnetChildData := {
  ch_id : Uuid;
  ch_header : option string;
  ch_host_id : Uuid;
  ch_ip_address_id : option Uuid
}.

(** [SubnetType::name]. *)
Definition subnet_type_name (t : SubnetType) : string :=
  match t with
  | SInternet => "Internet" | SRemote => "Remote" | SGateway => "Gateway" | SVpnTunnel => "VPN" | SDmz => "DMZ"
  | SLan => "LAN" | SIoT => "IoT" | SGuest => "Guest" | SWiFi => "WiFi" | SManagement => "Management"
  | SDockerBridge => "Docker Bridge" | SPodmanBridge => "Podman Bridge" | SMacVlan => "MacVLAN"
  | SIpVlan => "IpVLAN" | SStorage => "Storage" | SLoopback => "Loopback" | SUnknown => "Unknown"
  end%string.

Section L3.
Context `{UuidLib, MapOrder} (registry : list ServiceDefinition) (cidr_text : IpCidr → string)
        (ctx : TopologyContext).

(** The first bridge subnet of each host and runtime. *)
Definition compute_container_bridge_grouping : list ((Uuid * SubnetType) * Uuid) :=
  foldl (λ m i,
    match get_subnet_by_id ctx (subnet_id (ip_base i)) with
    | None => m
    | Some s =>
        let k := (ip_host_id (ip_base i), subnet_type (s_base s)) in
        if is_container_bridge (subnet_type (s_base s))
        then match assoc k m with Some _ => m | None => m ++ [(k, s_id s)] end
        else m
    end) [] (c_ip_addresses ctx).

Definition determine_subnet_child_header_text (i : IPAddress) (host : HostRow) (t : SubnetType) : option string :=
  let name := h_name (h_base host) in
  let host_interfaces := get_ip_addresses_for_host ctx (h_id host) in
  let host_has_name := negb (String.eqb name "Unknown Device") && negb (String.eqb name "") in
  match container_runtime_label t with
  | Some runtime =>
      if host_has_name then Some (runtime +:+ " @ " +:+ name)
      else (λ i, runtime +:+ " @ " +:+ bytes_str (ip_text (ip_address (ip_base i))))
           <$> List.find (λ i, match get_subnet_from_ip_address_id ctx (ip_id i) with
                               | Some s => negb (is_container_bridge (subnet_type (s_base s)))
                               | None => false
                               end) host_interfaces
  | None =>
      if bool_decide (is_Some (get_host_is_virtualized_by ctx (h_id host))) && host_has_name then Some name
      else
        let first_service_name_matches_host_name :=
          match get_services_for_host ctx (h_id host) with
          | s :: _ => String.eqb (sv_name (sv_base s)) name
          | [] => false
          end in
        let host_name_is_interface_ip := String.eqb (bytes_str (ip_text (ip_address (ip_base i)))) name in
        let ip_addresses_with_node :=
          List.filter (λ i, match get_services_bound_to_ip_address ctx (ip_id i) with [] => false | _ => true end)
            host_interfaces in
        if negb host_name_is_interface_ip && negb first_service_name_matches_host_name && host_has_name
           && (length ip_addresses_with_node <? 2)%nat
        then Some name else None
  end.

(** The type of the subnet of an address; a missing subnet has the default. *)
Definition subnet_type_of (i : IPAddress) : SubnetType :=
  match get_subnet_by_id ctx (subnet_id (ip_base i)) with Some s => subnet_type (s_base s) | None => SUnknown end.

(** The box an address is drawn in. *)
Definition box_of (merge : bool) (grouping : list ((Uuid * SubnetType) * Uuid)) (host : HostRow) (i : IPAddress)
    : option Uuid :=
  if merge && is_container_bridge (subnet_type_of i) then assoc (h_id host, subnet_type_of i) grouping
  else Some (subnet_id (ip_base i)).

Definition place_child (merge : bool) (grouping : list ((Uuid * SubnetType) * Uuid)) (i : IPAddress)
    : option (Uuid * SubnetChildData) :=
  host ← get_host_by_id ctx (ip_host_id (ip_base i));
  if exclude_from_topology (subnet_type_of i) then None
  else
    box ← box_of merge grouping host i;
    Some (box, {| ch_id := ip_id i; ch_header := determine_subnet_child_header_text i host (subnet_type_of i);
                  ch_host_id := h_id host; ch_ip_address_id := Some (ip_id i) |}).

Section Grouping.
Context (g : GroupingConfig).

Definition merge : bool := should_group_container_bridges g.
Definition bridge_grouping : list ((Uuid * SubnetType) * Uuid) :=
  if merge then compute_container_bridge_grouping else [].

Definition children : list (Uuid * SubnetChildData) := omap (place_child merge bridge_grouping) (c_ip_addresses ctx).

(** [group_children_by_subnet]. *)
Definition children_by_subnet : gmap Uuid (list SubnetChildData) :=
  (fmap snd : list (Uuid * SubnetChildData) → list SubnetChildData)
    <$> (group_by (λ kc : Uuid * SubnetChildData, Some kc.1) children : gmap Uuid _).

(** The bridge subnets each host merges into a box. *)
Definition container_bridge_subnets_by_host : gmap (Uuid * Uuid) (list Uuid) :=
  foldl (λ m i,
    match get_host_by_id ctx (ip_host_id (ip_base i)) with
    | None => m
    | Some host =>
        if negb (exclude_from_topology (subnet_type_of i)) && is_container_bridge (subnet_type_of i)
        then match assoc (h_id host, subnet_type_of i) bridge_grouping with
             | Some box => map_push (h_id host, box) (subnet_id (ip_base i)) m
             | None => m
             end
        else m
    end) ∅ (c_ip_addresses ctx).

Definition consolidated_container_bridge_subnets : gmap Uuid (list Uuid) :=
  if merge
  then foldl (λ m kv, <[kv.1.2 := dedup N.eqb (sort_by N.leb kv.2)]> m) ∅ (map_iter container_bridge_subnets_by_host)
  else ∅.

Definition child_node (box : Uuid) (c : SubnetChildData) : Node :=
  node_element (ch_id c) box (ch_host_id c) (El_IPAddress box (ch_ip_address_id c)) (ch_header c).

(** The stack of an address on a container network: its only one. *)
Definition child_deployment_group (box : Uuid) (c : SubnetChildData) : option string :=
  let is_container_subnet :=
    match get_subnet_by_id ctx box with Some s => is_container_network (subnet_type (s_base s)) | None => false end in
  if is_container_subnet then
    let on_host := get_services_for_host ctx (ch_host_id c) in
    let services := match ch_ip_address_id c with
                    | Some ip => List.filter (λ s, existsb (λ b, bool_decide (ip_address_id b = Some ip))
                                                     (bindings (sv_base s))) on_host
                    | None => on_host
                    end in
    match elements (list_to_set (omap compose_project_of services) : gset string) with
    | [p] => Some p
    | _ => None
    end
  else None.

Definition child_resolve (box : Uuid) (cs : list SubnetChildData) (n : Node) : option ElementMatchData :=
  c ← lookup_by ch_id cs !! n_id n;
  Some {| md_categories := service_category registry <$> get_services_for_host ctx (ch_host_id c);
          md_tags := resolve_element_tag_ids E_IPAddress (ch_host_id c)
                       {| tl_hosts := Some (λ h, lookup_by h_id (c_hosts ctx) !! h); tl_services := None;
                          tl_subnets := None |};
          md_entity := E_IPAddress; md_virtualizer := None;
          md_deployment_group := child_deployment_group box c;
          md_native_vlan := None; md_vlan_number := None; md_vlan_name := None; md_is_trunk_port := false;
          md_oper_status := None |}.

(** [create_nested_group_containers]. *)
Definition create_nested_group_containers (box : Uuid) (cs : list SubnetChildData) (nodes : list Node) : list Node :=
  apply_stack_runtime_logos (c_services ctx)
    (apply_element_rules nodes (child_resolve box cs) None None
       (element_rules (from_request_options (c_request ctx) (c_view ctx)))).1.

Definition create_child_nodes (nodes : list Node) (bc : Uuid * list SubnetChildData) : list Node :=
  create_nested_group_containers bc.1 bc.2 (nodes ++ (child_node bc.1 <$> bc.2)).

(** [create_subnet_child_nodes]: the boxes and the nodes in them. *)
Definition create_subnet_child_nodes : list Uuid * list Node :=
  (set_iter (dom children_by_subnet), foldl create_child_nodes [] (map_iter children_by_subnet)).

Fixpoint join_text (sep : string) (l : list string) : string :=
  match l with
  | [] => ""
  | [x] => x
  | x :: l => x +:+ sep +:+ join_text sep l
  end.

Definition subnet_header (box : Uuid) : option string :=
  match consolidated_container_bridge_subnets !! box with
  | Some cids =>
      let merged := List.filter (λ s, bool_decide (s_id s ∈ cids)) (c_subnets ctx) in
      let runtime := default "Container"%string (head merged ≫= λ s, container_runtime_label (subnet_type (s_base s))) in
      Some (runtime +:+ " Bridge: (" +:+ join_text ", " ((λ s, cidr_text (cidr (s_base s))) <$> merged) +:+ ")")
  | None =>
      (λ s, let c := cidr_text (cidr (s_base s)) in
            let name_or_type :=
              if negb (String.eqb (s_name (s_base s)) c) then s_name (s_base s)
              else if show_label (subnet_type (s_base s)) then subnet_type_name (subnet_type (s_base s)) else ""%string in
            if String.eqb name_or_type "" then c else name_or_type +:+ ": " +:+ c) <$> get_subnet_by_id ctx box
  end.

Definition subnet_node (box : Uuid) : Node :=
  top_container box CT_Subnet (Some box)
    (bool_decide (is_Some (consolidated_container_bridge_subnets !! box)) || is_bridge_subnet ctx box)
    (subnet_header box).
Definition create_subnet_nodes (boxes : list Uuid) : list Node := subnet_node <$> boxes.

Definition l3_edges : list Edge :=
  create_interface_edges ctx ++ create_dependency_edges ctx ++ create_vm_host_edges ctx
  ++ create_containerized_service_edges ctx g ++ create_same_container_edges ctx ++ create_physical_link_edges ctx.

Definition l3_build : list Node * list Edge :=
  let '(boxes, child_nodes) := create_subnet_child_nodes in
  (create_subnet_nodes boxes ++ child_nodes, l3_edges).
End Grouping.
End L3.
