(* ===== verification/L3Thms.v ===== *)
(** What the logical view guarantees.

    Theorems on [L3Builder]: every address of a shown host outside loopback is
    one element of the view, and it sits in the box of its subnet, or of a bridge
    subnet of its host and runtime where bridges are merged, or in a subcontainer
    of that box. *)

From S2P Require Import Prelude Net Ports Position Entities ServiceIdentity Patterns Services Hosts HostMatch Locks Lldp Interfaces Subnets Topology TopologySample ElementRules ElementRulesThms EdgeBuilder EdgeThms L2Builder L3Builder.
Local Open Scope Z_scope.

(** ** Rules of the views *)

Lemma view_rules_plain o v :
  v ≠ Workloads → Forall (λ r, plain_rule (rule r) = true) (element_rules (from_request_options o v)).
Proof.
  intros Hv. apply Forall_forall. intros r Hr%list_elem_of_In. cbn in Hr.
  apply elem_of_list_filter_bool in Hr as [Hr%bool_decide_eq_true _].
  destruct (rule r); try done; cbn in Hr; apply list_elem_of_singleton in Hr; congruence.
Qed.

Lemma lookup_by_elem {A} (f : A → Uuid) l k x : lookup_by f l !! k = Some x → x ∈ l ∧ f x = k.
Proof. intros (y & [= -> ->] & Hy)%collect_map_elem%list_elem_of_fmap. done. Qed.

Lemma lookup_by_has {A} (f : A → Uuid) l x : x ∈ l → is_Some (lookup_by f l !! f x).
Proof.
  unfold lookup_by, collect_map. induction l as [|y l IH] using rev_ind; [by intros ?%elem_of_nil|].
  rewrite fmap_app, foldl_app, elem_of_app, list_elem_of_singleton. cbn.
  destruct (decide (f y = f x)) as [->|Hne]; [rewrite lookup_insert_eq; eauto|].
  rewrite lookup_insert_ne by done. intros [?| ->]; [by apply IH|done].
Qed.

(** ** What moving and stamping keep *)

Lemma move_id r n : n_id (move r n) = n_id n.
Proof. unfold move. by destruct n as [? [] ?]. Qed.
Lemma move_is_element r n : is_element (move r n) = is_element n.
Proof. unfold move. by destruct n as [? [] ?]. Qed.
Lemma move_parent r n : parent_of (move r n) = parent_of n.
Proof. unfold move. by destruct n as [? [] ?]. Qed.
Lemma stamp_id l n : n_id (stamp_logo l n) = n_id n.
Proof. unfold stamp_logo. destruct n as [? [] ?]; [|done]. cbn. by case_decide. Qed.
Lemma stamp_is_element l n : is_element (stamp_logo l n) = is_element n.
Proof. unfold stamp_logo, is_element. destruct n as [? [] ?]; [|done]. cbn. by case_decide. Qed.
Lemma stamp_parent l n : parent_of (stamp_logo l n) = parent_of n.
Proof. unfold stamp_logo, parent_of. destruct n as [? [] ?]; [|done]. cbn. by case_decide. Qed.
Lemma stamp_container l n : element_container (stamp_logo l n) = element_container n.
Proof. unfold stamp_logo, element_container. destruct n as [? [] ?]; [|done]. cbn. by case_decide. Qed.

Lemma element_ids_app l1 l2 : element_ids (l1 ++ l2) = element_ids l1 ++ element_ids l2.
Proof. unfold element_ids. by rewrite List.filter_app, fmap_app. Qed.

(** A change of nodes that keeps ids and what is an element. *)
Lemma element_ids_fmap (f : Node → Node) l :
  (∀ n, n_id (f n) = n_id n) → (∀ n, is_element (f n) = is_element n) → element_ids (f <$> l) = element_ids l.
Proof.
  intros Hi He. unfold element_ids. induction l as [|n l IH]; [done|]. csimpl. rewrite He.
  destruct (is_element n); csimpl; by rewrite ?IH, ?Hi.
Qed.

Lemma element_ids_containers l : (∀ n, n ∈ l → is_element n = false) → element_ids l = [].
Proof.
  intros Hl. unfold element_ids. induction l as [|n l IH]; [done|]. simpl. rewrite (Hl n) by (by left).
  apply IH. intros m Hm. apply Hl. by right.
Qed.

Lemma parent_not_element n p : parent_of n = Some p → is_element n = false.
Proof. unfold parent_of, is_element. by destruct (node_type n). Qed.

(** ** Filling the boxes *)

Definition contents_ids (kvs : list (Uuid * list SubnetChildData)) : list Uuid := kvs ≫= λ bc, ch_id <$> bc.2.

(** An element is in its box or in a subcontainer of its box. *)
Definition in_box (nodes : list Node) (box c : Uuid) : Prop :=
  c = box ∨ ∃ sub, sub ∈ nodes ∧ n_id sub = c ∧ parent_of sub = Some box.

Record boxes_filled (kvs : list (Uuid * list SubnetChildData)) (nodes : list Node) : Prop := {
  bf_ids : element_ids nodes = contents_ids kvs;
  bf_in : ∀ n c, n ∈ nodes → element_container n = Some c →
    ∃ box cs ch, (box, cs) ∈ kvs ∧ ch ∈ cs ∧ n_id n = ch_id ch ∧ in_box nodes box c
}.

Section Fill.
Context `{UuidLib, MapOrder} (registry : list ServiceDefinition) (ctx : TopologyContext)
        (Hview : c_view ctx ≠ Workloads).

Lemma create_child_nodes_filled kvs nodes bc :
  NoDup (contents_ids (kvs ++ [bc])) → boxes_filled kvs nodes →
  boxes_filled (kvs ++ [bc]) (create_child_nodes registry ctx nodes bc).
Proof.
  intros Hnd [Hids Hin]. destruct bc as [box cs].
  assert (contents_ids (kvs ++ [(box, cs)]) = contents_ids kvs ++ (ch_id <$> cs)) as Hc.
  { unfold contents_ids. rewrite bind_app. csimpl. by rewrite app_nil_r. }
  set (nodes1 := nodes ++ (child_node box <$> cs)).
  assert (element_ids nodes1 = contents_ids (kvs ++ [(box, cs)])) as Hids1.
  { unfold nodes1. rewrite element_ids_app, Hids, Hc. f_equal.
    unfold element_ids. clear. induction cs as [|c cs IH]; [done|]. csimpl. by rewrite IH. }
  destruct (element_rules_nest nodes1 (child_resolve registry ctx box cs) None
              (element_rules (from_request_options (c_request ctx) (c_view ctx))))
    as (reassign & subs & E & Hmove & Hstay & Hsub); [by rewrite Hids1|by apply view_rules_plain|].
  unfold create_child_nodes, create_nested_group_containers, apply_stack_runtime_logos. cbn [fst snd].
  fold nodes1. rewrite E. set (logos := stack_runtime_logos (c_services ctx)).
  assert (∀ sub, sub ∈ subs → is_element sub = false) as Hnel.
  { intros sub Hs. destruct (Hsub sub Hs) as (_ & (p & n & _ & _ & Hp) & _). by eapply parent_not_element. }
  split.
  - rewrite element_ids_fmap; [|apply stamp_id|apply stamp_is_element].
    rewrite element_ids_app, element_ids_fmap; [|apply move_id|apply move_is_element].
    by rewrite Hids1, (element_ids_containers subs Hnel), app_nil_r.
  - intros n c (m & -> & Hm)%list_elem_of_fmap. rewrite stamp_container, stamp_id.
    setoid_rewrite elem_of_app. intros Hec.
    apply elem_of_app in Hm as [(n0 & -> & Hn0)%list_elem_of_fmap|Hm];
      [|apply element_container_is_element in Hec; by rewrite Hnel in Hec].
    rewrite move_id. unfold nodes1 in Hn0. apply elem_of_app in Hn0 as [Hold|(ch & -> & Hch)%list_elem_of_fmap].
    + assert (is_element n0 = true) as Hel0 by (rewrite <- (move_is_element reassign); by eapply element_container_is_element).
      assert (move reassign n0 = n0) as Em.
      { apply Hstay; [apply elem_of_app; by left|]. unfold child_resolve.
        destruct (lookup_by ch_id cs !! n_id n0) as [ch|] eqn:El; [|done]. exfalso.
        apply lookup_by_elem in El as [Hch Eid]. rewrite Hc in Hnd. apply list.NoDup_app in Hnd as (_ & Hsep & _).
        apply (Hsep (n_id n0)); [|rewrite <- Eid; by apply list_elem_of_fmap_2].
        rewrite <- Hids. apply list_elem_of_fmap_2. by apply elem_of_list_filter_bool. }
      rewrite Em in Hec. destruct (Hin n0 c Hold Hec) as (b & cs' & ch & Hb & Hch & Eid & Hbox).
      exists b, cs', ch. split_and!; [by left|done|done|].
      destruct Hbox as [->|(sub & Hs & Es & Ep)]; [by left|]. right. exists (stamp_logo logos (move reassign sub)).
      split_and!; [apply list_elem_of_fmap_2, elem_of_app; left; apply list_elem_of_fmap_2, elem_of_app; by left| |].
      * by rewrite stamp_id, move_id.
      * by rewrite stamp_parent, move_parent.
    + exists box, cs, ch. split_and!; [right; by apply list_elem_of_singleton|done|done|].
      destruct (Hmove (child_node box ch) box) as [Ec|(g & Hg & Ec & Hp)];
        [apply elem_of_app; right; by apply list_elem_of_fmap_2|done| |].
      * left. rewrite Ec in Hec. by injection Hec.
      * right. exists (stamp_logo logos g). rewrite Ec in Hec. injection Hec as <-. rewrite stamp_id, stamp_parent.
        split_and!; [|done|done]. apply list_elem_of_fmap_2, elem_of_app. by right.
Qed.

Lemma fill_boxes kvs : NoDup (contents_ids kvs) → boxes_filled kvs (foldl (create_child_nodes registry ctx) [] kvs).
Proof.
  induction kvs as [|bc kvs IH] using rev_ind; intros Hnd.
  - split; [done|]. by intros n c ?%elem_of_nil.
  - rewrite foldl_app. apply create_child_nodes_filled; [done|]. apply IH.
    unfold contents_ids in *. rewrite bind_app in Hnd. by apply list.NoDup_app in Hnd as (? & _ & _).
Qed.
End Fill.

(** ** Which box *)

Lemma assoc_snoc {K V} `{EqDecision K} (k k' : K) (v : V) m :
  assoc k (m ++ [(k', v)]) = match assoc k m with Some x => Some x | None => if decide (k' = k) then Some v else None end.
Proof.
  unfold assoc. rewrite find_app. destruct (List.find _ m); [done|]. cbn. case_bool_decide; by case_decide.
Qed.

(** A box stands for a host and a runtime: it is a bridge subnet of both. *)
Lemma bridge_grouping_spec ctx :
  (∀ i, i ∈ c_ip_addresses ctx → is_container_bridge (subnet_type_of ctx i) = true →
     is_Some (assoc (ip_host_id (ip_base i), subnet_type_of ctx i) (compute_container_bridge_grouping ctx)))
  ∧ ∀ k box, assoc k (compute_container_bridge_grouping ctx) = Some box →
     ∃ j, j ∈ c_ip_addresses ctx ∧ k = (ip_host_id (ip_base j), subnet_type_of ctx j)
       ∧ subnet_id (ip_base j) = box ∧ is_bridge_subnet ctx box = true.
Proof.
  unfold compute_container_bridge_grouping. induction (c_ip_addresses ctx) as [|i l IH] using rev_ind.
  { split; [by intros i ?%elem_of_nil|done]. }
  rewrite foldl_app. set (m := foldl _ [] l) in *. destruct IH as [IH1 IH2]. cbn [foldl].
  destruct (get_subnet_by_id ctx (subnet_id (ip_base i))) as [s|] eqn:Es.
  2:{ split.
      - intros j [Hj| ->%list_elem_of_singleton]%elem_of_app Hb; [by apply IH1|].
        unfold subnet_type_of in Hb. by rewrite Es in Hb.
      - intros k box (j & ? & ?)%IH2. exists j. set_solver. }
  assert (subnet_type_of ctx i = subnet_type (s_base s)) as Et by (unfold subnet_type_of; by rewrite Es).
  destruct (is_container_bridge (subnet_type (s_base s))) eqn:Hb.
  2:{ split.
      - intros j [Hj| ->%list_elem_of_singleton]%elem_of_app Hb'; [by apply IH1|]. congruence.
      - intros k box (j & ? & ?)%IH2. exists j. set_solver. }
  destruct (assoc (ip_host_id (ip_base i), subnet_type (s_base s)) m) eqn:Ea.
  - split.
    + intros j [Hj| ->%list_elem_of_singleton]%elem_of_app Hb'; [by apply IH1|]. rewrite Et, Ea. eauto.
    + intros k box (j & ? & ?)%IH2. exists j. set_solver.
  - split.
    + intros j [Hj| ->%list_elem_of_singleton]%elem_of_app Hb'; rewrite assoc_snoc.
      * destruct (IH1 j Hj Hb') as [x ->]. eauto.
      * rewrite Et, Ea, decide_True by done. eauto.
    + intros k box. rewrite assoc_snoc. destruct (assoc k m) as [x|] eqn:Ek.
      * intros [= ->]. destruct (IH2 k box Ek) as (j & ? & ?). exists j. set_solver.
      * case_decide as Hk; [|done]. intros [= <-]. exists i. rewrite Et, <- Hk.
        pose proof (get_subnet_by_id_id _ _ _ Es) as Hid. split_and!; [set_solver|done|done|].
        unfold is_bridge_subnet. by rewrite Hid, Es.
Qed.

Definition l3_visible (ctx : TopologyContext) (i : IPAddress) : bool :=
  bool_decide (is_Some (get_host_by_id ctx (ip_host_id (ip_base i)))) && negb (exclude_from_topology (subnet_type_of ctx i)).

(** The box of an address: its subnet, or where bridges are merged a bridge subnet
    of the same host and runtime. *)
Definition right_box (ctx : TopologyContext) (g : GroupingConfig) (i : IPAddress) (box : Uuid) : Prop :=
  if should_group_container_bridges g && is_container_bridge (subnet_type_of ctx i)
  then ∃ j, j ∈ c_ip_addresses ctx ∧ ip_host_id (ip_base j) = ip_host_id (ip_base i)
         ∧ subnet_type_of ctx j = subnet_type_of ctx i ∧ subnet_id (ip_base j) = box
  else box = subnet_id (ip_base i).

Section Boxes.
Context (ctx : TopologyContext) (g : GroupingConfig).

Lemma box_of_Some host i :
  i ∈ c_ip_addresses ctx → get_host_by_id ctx (ip_host_id (ip_base i)) = Some host →
  ∃ box, box_of ctx (merge g) (bridge_grouping ctx g) host i = Some box ∧ right_box ctx g i box.
Proof.
  intros Hi Hh. unfold box_of, right_box, bridge_grouping, merge.
  destruct (should_group_container_bridges g) eqn:Hg; [|by eexists].
  destruct (is_container_bridge (subnet_type_of ctx i)) eqn:Hb; [|by eexists].
  destruct (bridge_grouping_spec ctx) as [H1 H2]. destruct (H1 i Hi Hb) as [box Hbox].
  rewrite (get_host_by_id_id _ _ _ Hh). exists box. split; [done|].
  destruct (H2 _ _ Hbox) as (j & Hj & [= E1 E2] & E & _). exists j. eauto.
Qed.

(** An address is placed exactly when it is visible. *)
Lemma place_child_visible i :
  i ∈ c_ip_addresses ctx → l3_visible ctx i = true →
  ∃ box ch, place_child ctx (merge g) (bridge_grouping ctx g) i = Some (box, ch) ∧ ch_id ch = ip_id i
    ∧ right_box ctx g i box.
Proof.
  intros Hi Hv. unfold l3_visible in Hv. apply andb_true_iff in Hv as [[host Hh]%bool_decide_eq_true Hx].
  apply negb_true_iff in Hx. destruct (box_of_Some host i Hi Hh) as (box & Hbox & Hr).
  eexists box, _. unfold place_child. rewrite Hh. simpl. rewrite Hx, Hbox. simpl. split_and!; [done|done|done].
Qed.
Lemma place_child_hidden i :
  l3_visible ctx i = false → place_child ctx (merge g) (bridge_grouping ctx g) i = None.
Proof.
  unfold l3_visible, place_child. destruct (get_host_by_id ctx _); [|done].
  rewrite bool_decide_true by eauto. simpl. by intros ->%negb_false_iff.
Qed.

Lemma children_ids :
  (λ kc, ch_id kc.2) <$> children ctx g = ip_id <$> List.filter (l3_visible ctx) (c_ip_addresses ctx).
Proof.
  unfold children. pose proof (place_child_visible) as Hv.
  induction (c_ip_addresses ctx) as [|i l IH]; [done|]. simpl.
  destruct (l3_visible ctx i) eqn:E.
  - destruct (Hv i) as (box & ch & Hp & Hid & _); [left|done|]. simpl. rewrite Hp. csimpl. rewrite Hid. f_equal.
    apply IH. intros j Hj. apply Hv. by right.
  - rewrite place_child_hidden by done. apply IH. intros j Hj. apply Hv. by right.
Qed.

Lemma children_right box ch :
  (box, ch) ∈ children ctx g →
  ∃ i, i ∈ c_ip_addresses ctx ∧ l3_visible ctx i = true ∧ ch_id ch = ip_id i ∧ right_box ctx g i box.
Proof.
  intros (i & Hi & Hp)%list_elem_of_omap. destruct (l3_visible ctx i) eqn:E.
  - destruct (place_child_visible i Hi E) as (box' & ch' & Hp' & Hid & Hr). simplify_eq. eauto.
  - by rewrite place_child_hidden in Hp.
Qed.

Lemma children_by_subnet_Some box cs :
  children_by_subnet ctx g !! box = Some cs ↔
  cs = snd <$> List.filter (has_key (λ kc : Uuid * SubnetChildData, Some kc.1) box) (children ctx g) ∧ cs ≠ [].
Proof.
  unfold children_by_subnet. rewrite lookup_fmap, fmap_Some. setoid_rewrite group_by_Some. split.
  - intros (l & [-> Hne] & ->). split; [done|]. by destruct (List.filter _ _).
  - intros [-> Hne]. eexists. split; [split; [done|]|done]. by destruct (List.filter _ _).
Qed.

Lemma children_by_subnet_elem box cs ch :
  children_by_subnet ctx g !! box = Some cs → ch ∈ cs ↔ (box, ch) ∈ children ctx g.
Proof.
  intros [-> _]%children_by_subnet_Some. rewrite list_elem_of_fmap.
  setoid_rewrite elem_of_list_filter_bool. unfold has_key. setoid_rewrite bool_decide_eq_true. split.
  - intros ([k c] & -> & [= <-] & ?). done.
  - intros Hc. by exists (box, ch).
Qed.

Context `{MapOrder} (Hnd : NoDup (ip_id <$> c_ip_addresses ctx)).

Lemma children_NoDup : NoDup ((λ kc, ch_id kc.2) <$> children ctx g).
Proof. rewrite children_ids. eapply sublist_NoDup; [exact Hnd|]. apply sublist_fmap_of, filter_bool_sublist. Qed.

Lemma contents_perm :
  contents_ids (map_iter (children_by_subnet ctx g)) ≡ₚ ip_id <$> List.filter (l3_visible ctx) (c_ip_addresses ctx)
  ∧ NoDup (contents_ids (map_iter (children_by_subnet ctx g))).
Proof.
  assert (NoDup (contents_ids (map_iter (children_by_subnet ctx g)))) as Hc.
  { apply NoDup_bind.
    - intros [b cs] [b' cs'] id Hb%elem_of_map_iter Hb'%elem_of_map_iter
        (c & -> & Hcin)%list_elem_of_fmap (c' & E & Hc')%list_elem_of_fmap.
      apply (children_by_subnet_elem _ _ _ Hb) in Hcin. apply (children_by_subnet_elem _ _ _ Hb') in Hc'.
      pose proof (NoDup_key_inj _ _ _ _ children_NoDup Hcin Hc' E) as Ep. injection Ep as -> _. congruence.
    - intros [b cs] Hb%elem_of_map_iter. cbn. apply children_by_subnet_Some in Hb as [-> _].
      eapply sublist_NoDup; [apply children_NoDup|]. rewrite <- list_fmap_compose.
      apply sublist_fmap_of, filter_bool_sublist.
    - eapply NoDup_fmap_1, NoDup_map_iter. }
  split; [|done]. apply NoDup_Permutation; [done|rewrite <- children_ids; apply children_NoDup|].
  intros id. rewrite <- children_ids. unfold contents_ids. rewrite list_elem_of_bind. split.
  - intros ([b cs] & (c & -> & Hcin)%list_elem_of_fmap & Hb%elem_of_map_iter).
    apply (children_by_subnet_elem _ _ _ Hb) in Hcin. apply list_elem_of_fmap. by exists (b, c).
  - intros ([b c] & -> & Hbc)%list_elem_of_fmap.
    destruct (children_by_subnet ctx g !! b) as [cs|] eqn:Hb.
    + exists (b, cs). split; [|by apply elem_of_map_iter]. apply list_elem_of_fmap. exists c. split; [done|].
      by apply (children_by_subnet_elem _ _ _ Hb).
    + exfalso. unfold children_by_subnet in Hb. rewrite lookup_fmap, fmap_None in Hb.
      destruct (group_by_elem (λ kc : Uuid * SubnetChildData, Some kc.1) _ _ b Hbc eq_refl) as (l & Hl & _). congruence.
Qed.
End Boxes.

(** C3. No address is lost and none is shown twice: the elements of the logical view
    are the addresses of shown hosts outside loopback subnets, each once, in a box
    that is a node of the view, the right one, or in a subcontainer of it. *)
Theorem l3_addresses_placed `{UuidLib, MapOrder} registry cidr_text ctx g :
  NoDup (ip_id <$> c_ip_addresses ctx) → c_view ctx = L3Logical →
  let nodes := (l3_build registry cidr_text ctx g).1 in
  element_ids nodes ≡ₚ ip_id <$> List.filter (l3_visible ctx) (c_ip_addresses ctx)
  ∧ ∀ n c, n ∈ nodes → element_container n = Some c →
      ∃ i box b, i ∈ c_ip_addresses ctx ∧ n_id n = ip_id i ∧ right_box ctx g i box
        ∧ b ∈ nodes ∧ n_id b = box ∧ is_element b = false ∧ parent_of b = None ∧ in_box nodes box c.
Proof.
  intros Hnd Hview nodes. destruct (contents_perm ctx g Hnd) as [Hperm Hndc].
  assert (c_view ctx ≠ Workloads) as Hw by congruence.
  destruct (fill_boxes registry ctx Hw _ Hndc) as [Hids Hin].
  set (filled := foldl _ [] _) in *.
  assert (nodes = create_subnet_nodes cidr_text ctx g (set_iter (dom (children_by_subnet ctx g))) ++ filled) as E by done.
  assert (∀ n, n ∈ create_subnet_nodes cidr_text ctx g (set_iter (dom (children_by_subnet ctx g))) → is_element n = false) as Hbox.
  { intros n (b & -> & _)%list_elem_of_fmap. done. }
  split.
  - rewrite E, element_ids_app, (element_ids_containers _ Hbox), Hids. done.
  - intros n c. rewrite E, elem_of_app. intros [Hn|Hn] Hc.
    { apply element_container_is_element in Hc. by rewrite Hbox in Hc. }
    destruct (Hin n c Hn Hc) as (box & cs & ch & Hb%elem_of_map_iter & Hch & Hid & Hbx).
    pose proof Hch as Hch'. apply (children_by_subnet_elem _ _ _ _ _ Hb) in Hch'.
    destruct (children_right _ _ _ _ Hch') as (i & Hi & _ & Eid & Hr).
    exists i, box, (subnet_node cidr_text ctx g box). split_and!; [done|congruence|done| |done|done|done|].
    + apply elem_of_app. left. apply list_elem_of_fmap_2, elem_of_set_iter, elem_of_dom. eauto.
    + destruct Hbx as [->|(sub & ? & ? & ?)]; [by left|]. right. exists sub. split_and!; [|done..].
      apply elem_of_app. by right.
Qed.

(** ** A sample *)

Lemma l3_addresses_placed_witness :
  element_ids (l3_build sample_registry (λ _, "10.0.0.0/8"%string) docker_network
    (from_request_options (sample_request merged_boxes []) L3Logical)).1 ≡ₚ [21%N; 23%N; 25%N].
Proof.
  apply (l3_addresses_placed sample_registry (λ _, "10.0.0.0/8"%string) docker_network
    (from_request_options (sample_request merged_boxes []) L3Logical)); [by_evaluation|reflexivity].
Defined.
