(* ===== verification/L2Thms.v ===== *)
(** What the physical view guarantees.

    Theorems on [L2Builder]: every resolved link between two hosts is drawn once;
    the ports shown are the physical ports of the hosts the links join; an
    adjacency always finds its boxes; a link is drawn exactly when both its ports
    are shown, and a pair of hosts that has a link has no adjacency. *)

From S2P Require Import Prelude Net Ports Position Entities ServiceIdentity Patterns Services Hosts HostMatch Locks Lldp Interfaces Subnets Topology TopologySample ElementRules ElementRulesThms EdgeBuilder EdgeThms L2Builder L3Builder L3Thms.
Local Open Scope Z_scope.

Lemma host_pair_key_sym a b : host_pair_key a b = host_pair_key b a.
Proof.
  unfold host_pair_key. destruct (N.ltb_spec a b), (N.ltb_spec b a); try done; try lia.
  assert (a = b) as -> by lia. done.
Qed.

Lemma host_pair_key_inj a b c d : host_pair_key a b = host_pair_key c d → a = c ∧ b = d ∨ a = d ∧ b = c.
Proof. unfold host_pair_key. destruct (a <? b)%N, (c <? d)%N; intros [= -> ->]; tauto. Qed.

(** The ports a link joins. *)
Definition link_ports (e : Edge) : option (Uuid * Uuid) :=
  match edge_type e with ET_PhysicalLink s t _ => Some (host_pair_key s t) | _ => None end.

Section Links.
Context (ctx : TopologyContext) (Hnd : NoDup (if_id <$> c_interfaces ctx)).

Lemma get_interface_has i : i ∈ c_interfaces ctx → get_interface_by_id ctx (if_id i) = Some i.
Proof. by apply find_by_key. Qed.

Lemma l2_link_edge_Some i e :
  l2_link_edge ctx i = Some e ↔
  ∃ t, neighbor_target i = Some (if_id t) ∧ get_interface_by_id ctx (if_id t) = Some t
    ∧ if_host_id (if_base i) ≠ if_host_id (if_base t)
    ∧ e = new_edge (if_id i) (if_id t) (ET_PhysicalLink (if_id i) (if_id t) ByLLDP) (link_label i t) false.
Proof.
  unfold l2_link_edge. destruct (neighbor_target i) as [x|]; simpl; [|naive_solver].
  destruct (get_interface_by_id ctx x) as [t|] eqn:E; simpl.
  - pose proof (get_interface_by_id_id _ _ _ E) as <-.
    destruct (N.eqb_spec (if_host_id (if_base i)) (if_host_id (if_base t))).
    + split; [done|]. intros (t' & [= E'] & Ht & Hne & _). rewrite <- E', E in Ht. by simplify_eq.
    + split; [intros [= <-]; eauto 10|]. intros (t' & [= E'] & Ht & Hne & ->). rewrite <- E', E in Ht. by simplify_eq.
  - split; [done|]. intros (t' & [= ->] & Ht & _). congruence.
Qed.

(** A link joins two interfaces of different hosts. *)
Lemma l2_links_sound e :
  e ∈ l2_links ctx →
  ∃ i t, i ∈ c_interfaces ctx ∧ t ∈ c_interfaces ctx ∧ neighbor_target i = Some (if_id t)
    ∧ if_host_id (if_base i) ≠ if_host_id (if_base t)
    ∧ e = new_edge (if_id i) (if_id t) (ET_PhysicalLink (if_id i) (if_id t) ByLLDP) (link_label i t) false.
Proof.
  intros (i & [Hi _]%first_by_key_elem & (t & Hn & Ht & Hne & ->)%l2_link_edge_Some)%list_elem_of_omap.
  apply elem_of_list_filter_bool in Hi as [_ Hi]. apply find_elem in Ht as [Ht _]. exists i, t. done.
Qed.

Lemma neighbor_target_listed i t :
  i ∈ c_interfaces ctx → neighbor_target i = Some t → i ∈ get_interfaces_with_neighbor ctx.
Proof.
  intros Hi Hn. apply elem_of_list_filter_bool. split; [|done]. unfold neighbor_target in Hn.
  by destruct (neighbor (if_base i)) as [[]|].
Qed.

Lemma l2_links_complete i t :
  i ∈ c_interfaces ctx → t ∈ c_interfaces ctx → neighbor_target i = Some (if_id t) →
  if_host_id (if_base i) ≠ if_host_id (if_base t) →
  ∃ e, e ∈ l2_links ctx ∧ link_ports e = Some (host_pair_key (if_id i) (if_id t)).
Proof.
  intros Hi Ht Hn Hne. assert (link_key i = Some (host_pair_key (if_id i) (if_id t))) as Hk.
  { unfold link_key. by rewrite Hn. }
  destruct (first_by_key_covers link_key _ ∅ i _ (neighbor_target_listed _ _ Hi Hn) Hk) as [?|(j & Hj & Hkj)];
    [set_solver|].
  pose proof Hj as [Hj'%elem_of_list_filter_bool _]%first_by_key_elem. destruct Hj' as [_ Hj'].
  unfold link_key in Hkj. apply fmap_Some in Hkj as (u & Hu & E). symmetry in E.
  assert (∃ e, l2_link_edge ctx j = Some e ∧ link_ports e = Some (host_pair_key (if_id i) (if_id t))) as (e & He & Hp).
  { apply host_pair_key_inj in E as [[E ->]|[E ->]].
    - assert (j = i) as -> by (by eapply (NoDup_key_inj if_id)). eexists. rewrite l2_link_edge_Some.
      split; [exists t; split_and!; [done|by apply get_interface_has|done|done]|done].
    - assert (j = t) as -> by (by eapply (NoDup_key_inj if_id)). eexists. rewrite l2_link_edge_Some.
      split; [exists i; split_and!; [done|by apply get_interface_has|congruence|done]|].
      unfold link_ports. cbn. by rewrite host_pair_key_sym. }
  exists e. split; [|done]. apply list_elem_of_omap. eauto.
Qed.

Lemma l2_links_NoDup : NoDup (link_ports <$> l2_links ctx).
Proof.
  pose proof (first_by_key_NoDup link_key (get_interfaces_with_neighbor ctx) ∅) as Hn. unfold l2_links.
  induction (first_by_key _ _ _) as [|i l IH]; csimpl; [constructor|].
  csimpl in Hn. inversion Hn as [|? ? Hni Hn']; subst.
  destruct (l2_link_edge ctx i) as [e|] eqn:He; [|by apply IH]. csimpl. constructor; [|by apply IH].
  apply l2_link_edge_Some in He as (t & Ht & _ & _ & ->).
  intros (e' & E & (j & Hj & (t' & Ht' & _ & _ & ->)%l2_link_edge_Some)%list_elem_of_omap)%list_elem_of_fmap.
  apply Hni. apply list_elem_of_fmap. exists j. split; [|done]. unfold link_key. rewrite Ht, Ht'. exact E.
Qed.
End Links.

(** Links are built once: every pair of ports on different hosts of which one names
    the other as its neighbour has a link, no pair has two, and there is no other. *)
Lemma l2_links_exact ctx :
  NoDup (if_id <$> c_interfaces ctx) →
  NoDup (link_ports <$> l2_links ctx)
  ∧ ∀ k, Some k ∈ link_ports <$> l2_links ctx ↔
      ∃ i t, i ∈ c_interfaces ctx ∧ t ∈ c_interfaces ctx ∧ neighbor_target i = Some (if_id t)
        ∧ if_host_id (if_base i) ≠ if_host_id (if_base t) ∧ k = host_pair_key (if_id i) (if_id t).
Proof.
  intros Hnd. split; [by apply l2_links_NoDup|]. intros k. rewrite list_elem_of_fmap. split.
  - intros (e & E & (i & t & ? & ? & ? & ? & ->)%l2_links_sound). exists i, t. cbn in E. injection E as ->. done.
  - intros (i & t & Hi & Ht & Hn & Hne & ->). destruct (l2_links_complete ctx Hnd i t Hi Ht Hn Hne) as (e & ? & ?).
    by exists e.
Qed.

(** ** Ports and boxes *)

Definition l2_shown `{UuidLib} (ctx : TopologyContext) (i : InterfaceRow) : bool :=
  bool_decide (if_host_id (if_base i) ∈ qualifying_host_ids ctx) && negb (excluded_if_type i).

Definition on_host_b (h : Uuid) (i : InterfaceRow) : bool := (if_host_id (if_base i) =? h)%N.

Section Shown.
Context `{UuidLib, MapOrder} (ctx : TopologyContext) (g : GroupingConfig)
        (Hnd : NoDup (if_id <$> c_interfaces ctx))
        (Hplain : Forall (λ r, plain_rule (rule r) = true) (element_rules g)).

Definition port_ids (h : Uuid) : list Uuid :=
  if_id <$> List.filter (λ i, negb (excluded_if_type i)) (get_interfaces_for_host ctx h).

Lemma l2_nodes_elements : element_ids (l2_nodes ctx) = set_iter (qualifying_host_ids ctx) ≫= port_ids.
Proof.
  unfold l2_nodes. rewrite element_ids_app, element_ids_containers.
  - cbn [app]. induction (set_iter _) as [|h l IH]; [done|]. csimpl. rewrite element_ids_app, IH. f_equal.
    unfold port_ids. induction (List.filter _ _) as [|i k IHk]; [done|]. csimpl.
    unfold element_ids in *. csimpl. by rewrite IHk.
  - intros n (h & _ & (x & _ & [= <-])%bind_Some)%list_elem_of_omap. done.
Qed.

Lemma elem_of_port_ids h id :
  id ∈ port_ids h ↔ ∃ i, i ∈ c_interfaces ctx ∧ if_id i = id ∧ if_host_id (if_base i) = h ∧ excluded_if_type i = false.
Proof.
  unfold port_ids, get_interfaces_for_host. rewrite list_elem_of_fmap. setoid_rewrite elem_of_list_filter_bool.
  setoid_rewrite elem_of_list_filter_bool. setoid_rewrite negb_true_iff. setoid_rewrite N.eqb_eq. naive_solver.
Qed.

Lemma l2_ports_perm : element_ids (l2_nodes ctx) ≡ₚ if_id <$> List.filter (l2_shown ctx) (c_interfaces ctx).
Proof.
  rewrite l2_nodes_elements. apply NoDup_Permutation.
  - apply NoDup_bind.
    + intros h h' id _ _ (i & Hi & <- & <- & _)%elem_of_port_ids (j & Hj & E & <- & _)%elem_of_port_ids.
      by assert (j = i) as -> by (by eapply (NoDup_key_inj if_id)).
    + intros h _. eapply sublist_NoDup; [exact Hnd|]. apply sublist_fmap_of.
      etrans; apply filter_bool_sublist.
    + apply NoDup_set_iter.
  - eapply sublist_NoDup; [exact Hnd|]. apply sublist_fmap_of, filter_bool_sublist.
  - intros id. rewrite list_elem_of_bind, list_elem_of_fmap. setoid_rewrite elem_of_set_iter.
    setoid_rewrite elem_of_port_ids. setoid_rewrite elem_of_list_filter_bool. unfold l2_shown.
    setoid_rewrite andb_true_iff. setoid_rewrite bool_decide_eq_true. setoid_rewrite negb_true_iff. naive_solver.
Qed.

Lemma l2_nodes_NoDup : NoDup (element_ids (l2_nodes ctx)).
Proof.
  rewrite l2_ports_perm. eapply sublist_NoDup; [exact Hnd|]. apply sublist_fmap_of, filter_bool_sublist.
Qed.

(** What is in the list before the rules has its id in the view. *)
Lemma l2_build_nodes :
  ∃ reassign subs,
    (l2_build ctx g).1 = (move reassign <$> l2_nodes ctx) ++ subs
    ∧ (∀ n p, n ∈ l2_nodes ctx → element_container n = Some p →
         element_container (move reassign n) = Some p
         ∨ ∃ s, s ∈ subs ∧ element_container (move reassign n) = Some (n_id s) ∧ parent_of s = Some p)
    ∧ ∀ s, s ∈ subs → is_element s = false.
Proof.
  destruct (element_rules_nest (l2_nodes ctx) (l2_resolve ctx) None (element_rules g) l2_nodes_NoDup Hplain)
    as (reassign & subs & E & Hmove & _ & Hsub).
  exists reassign, subs. split_and!; [done|done|]. intros s Hs.
  destruct (Hsub s Hs) as (_ & (p & n & _ & _ & Hp) & _). by eapply parent_not_element.
Qed.

Lemma l2_build_ids id : id ∈ n_id <$> l2_nodes ctx → id ∈ n_id <$> (l2_build ctx g).1.
Proof.
  destruct l2_build_nodes as (reassign & subs & -> & _). rewrite fmap_app, <- list_fmap_compose.
  intros (n & -> & Hn)%list_elem_of_fmap. apply elem_of_app. left. apply list_elem_of_fmap. exists n.
  split; [by rewrite <- (move_id reassign)|done].
Qed.

Lemma l2_build_elements : element_ids (l2_build ctx g).1 = element_ids (l2_nodes ctx).
Proof.
  destruct l2_build_nodes as (reassign & subs & -> & _ & Hs).
  rewrite element_ids_app, (element_ids_containers subs Hs), app_nil_r.
  apply element_ids_fmap; [apply move_id|apply move_is_element].
Qed.

Lemma l2_host_box h :
  h ∈ qualifying_host_ids ctx → is_Some (get_host_by_id ctx h) →
  ∃ b, b ∈ l2_nodes ctx ∧ n_id b = l2_container_id_for_host h ∧ is_element b = false ∧ parent_of b = None.
Proof.
  intros Hq [x [Hx E%N.eqb_eq]%find_elem]. destruct (lookup_by_has h_id _ _ Hx) as [y Hy]. rewrite E in Hy.
  exists (top_container (l2_container_id_for_host h) CT_Host (Some h) false (Some (h_name (h_base y)))).
  split; [|done]. apply elem_of_app. left. apply list_elem_of_omap. exists h.
  split; [by apply elem_of_set_iter|]. unfold l2_host_container. by rewrite Hy.
Qed.

(** Both hosts of a link or an adjacency qualify. *)
Lemma l2_link_qualifies i t :
  i ∈ c_interfaces ctx → t ∈ c_interfaces ctx → neighbor_target i = Some (if_id t) →
  if_host_id (if_base i) ≠ if_host_id (if_base t) →
  if_host_id (if_base i) ∈ qualifying_host_ids ctx ∧ if_host_id (if_base t) ∈ qualifying_host_ids ctx.
Proof.
  intros Hi Ht Hn Hne. unfold qualifying_host_ids.
  assert (∀ j u, j ∈ c_interfaces ctx → neighbor_target j = Some u →
    if_host_id (if_base j) ∈ (list_to_set ((λ i, if_host_id (if_base i)) <$> get_interfaces_with_neighbor ctx) : gset Uuid))
    as Hsrc.
  { intros j u Hj Hu. apply elem_of_list_to_set, list_elem_of_fmap. exists j. split; [done|].
    by eapply neighbor_target_listed. }
  split; [do 2 (apply elem_of_union; left); by eapply Hsrc|].
  destruct (l2_links_complete ctx Hnd i t Hi Ht Hn Hne) as (e & He & Hp).
  pose proof He as (j & u & Hj & Hu & Hnj & _ & ->)%l2_links_sound. cbn in Hp. injection Hp as Hp.
  apply host_pair_key_inj in Hp as [[E1 E2]|[E1 E2]].
  - apply elem_of_union. right. apply elem_of_list_to_set, list_elem_of_omap. eexists.
    split; [apply elem_of_app; left; exact He|]. unfold link_target_host. cbn.
    rewrite (get_interface_has ctx Hnd u Hu). simpl.
    assert (u = t) as -> by (by eapply (NoDup_key_inj if_id)). done.
  - assert (j = t) as -> by (by eapply (NoDup_key_inj if_id)). do 2 (apply elem_of_union; left). by eapply Hsrc.
Qed.

Lemma l2_adjacency_qualifies e s t p :
  e ∈ l2_adjacencies ctx → edge_type e = ET_NeighborLink s t p →
  s ∈ qualifying_host_ids ctx ∧ t ∈ qualifying_host_ids ctx.
Proof.
  clear Hplain Hnd. intros He Et. unfold qualifying_host_ids.
  split; apply elem_of_union; left; apply elem_of_union; right; apply elem_of_list_to_set, list_elem_of_bind;
    exists e; (split; [|done]); unfold neighbor_link_ends; rewrite Et; set_solver.
Qed.
End Shown.

(** Every port shown is where it belongs: when the hosts of all interfaces are shown,
    the elements are the ports of qualifying hosts that are not of an excluded type,
    each once, in the box of their host or in a subcontainer of it. *)
Theorem l2_ports_placed `{UuidLib, MapOrder} ctx g :
  NoDup (if_id <$> c_interfaces ctx) → Forall (λ r, plain_rule (rule r) = true) (element_rules g) →
  Forall (λ i, is_Some (get_host_by_id ctx (if_host_id (if_base i)))) (c_interfaces ctx) →
  let nodes := (l2_build ctx g).1 in
  element_ids nodes ≡ₚ if_id <$> List.filter (l2_shown ctx) (c_interfaces ctx)
  ∧ ∀ n c, n ∈ nodes → element_container n = Some c →
      ∃ i b, i ∈ c_interfaces ctx ∧ n_id n = if_id i ∧ b ∈ nodes ∧ is_element b = false ∧ parent_of b = None
        ∧ n_id b = l2_container_id_for_host (if_host_id (if_base i)) ∧ in_box nodes (n_id b) c.
Proof.
  intros Hnd Hplain Hhosts nodes. split; [unfold nodes; rewrite l2_build_elements by done; by apply l2_ports_perm|].
  destruct (l2_build_nodes ctx g Hnd Hplain) as (reassign & subs & E & Hmove & Hsub).
  fold nodes in E. intros n c. rewrite E, elem_of_app.
  intros [(m & -> & Hm)%list_elem_of_fmap|Hn] Hc;
    [|apply element_container_is_element in Hc; by rewrite Hsub in Hc].
  unfold l2_nodes in Hm. apply elem_of_app in Hm as [Hm|Hm].
  { apply list_elem_of_omap in Hm as (h & _ & (x & _ & [= <-])%bind_Some). done. }
  pose proof Hm as Hm'. apply list_elem_of_bind in Hm as (h & (i & -> & Hi)%list_elem_of_fmap & Hh%elem_of_set_iter).
  apply elem_of_list_filter_bool in Hi as [_ [Eh%N.eqb_eq Hi]%elem_of_list_filter_bool].
  assert (is_Some (get_host_by_id ctx h)) as Hsome.
  { rewrite Forall_forall in Hhosts. rewrite <- Eh. apply Hhosts. by apply list_elem_of_In. }
  destruct (l2_host_box ctx h Hh Hsome) as (b & Hb & Ebid & Hbel & Hbp). exists i, (move reassign b).
  rewrite !move_id, move_is_element, move_parent, Eh. split_and!; [done|done| |done|done|done|].
  { apply elem_of_app. left. by apply list_elem_of_fmap_2. }
  rewrite Ebid. destruct (Hmove (l2_port h i) (l2_container_id_for_host h)) as [Ec|(s & Hs & Ec & Hp)];
    [unfold l2_nodes; apply elem_of_app; by right|done| |]; rewrite Ec in Hc; injection Hc as <-; [by left|].
  right. exists s. split_and!; [apply elem_of_app; by right|done|done].
Qed.

(** ** Which edges are drawn *)

Lemma add_edges_to_graph_elem ids edges e :
  e ∈ add_edges_to_graph ids edges ↔ e ∈ edges ∧ e_source e ∈ ids ∧ e_target e ∈ ids.
Proof.
  unfold add_edges_to_graph. rewrite elem_of_list_filter_bool, andb_true_iff, !bool_decide_eq_true. tauto.
Qed.

Lemma element_ids_nodes nodes id : id ∈ element_ids nodes → id ∈ n_id <$> nodes.
Proof.
  intros (n & -> & [_ Hn]%elem_of_list_filter_bool)%list_elem_of_fmap. by apply list_elem_of_fmap_2.
Qed.

(** An adjacency is always drawn.  A link is drawn exactly when neither port is of an
    excluded type.  A pair of hosts that has a link, drawn or not, has no adjacency. *)
Theorem l2_edges_kept `{UuidLib, MapOrder} ctx g :
  NoDup (if_id <$> c_interfaces ctx) → Forall (λ r, plain_rule (rule r) = true) (element_rules g) →
  Forall (λ n, is_element n = false → n_id n ∉ if_id <$> c_interfaces ctx) (l2_build ctx g).1 →
  let kept := add_edges_to_graph (n_id <$> (l2_build ctx g).1) (l2_build ctx g).2 in
  (∀ e, e ∈ l2_adjacencies ctx → e ∈ kept)
  ∧ (∀ e i t p, e ∈ l2_links ctx → edge_type e = ET_PhysicalLink (if_id i) (if_id t) p →
       i ∈ c_interfaces ctx → t ∈ c_interfaces ctx →
       e ∈ kept ↔ excluded_if_type i = false ∧ excluded_if_type t = false)
  ∧ ∀ e a i t p, e ∈ l2_links ctx → edge_type e = ET_PhysicalLink (if_id i) (if_id t) p →
       i ∈ c_interfaces ctx → t ∈ c_interfaces ctx → a ∈ kept →
       adjacency_hosts a ≠ Some (host_pair_key (if_host_id (if_base i)) (if_host_id (if_base t))).
Proof.
  intros Hnd Hplain Hfresh kept. split_and!.
  - intros e He. apply add_edges_to_graph_elem. split; [apply elem_of_app; by right|].
    pose proof He as (s & t & p & Et & _ & _ & -> & -> & Hs & Ht)%neighbor_links_sound.
    destruct (l2_adjacency_qualifies ctx e s t p He Et) as [Qs Qt].
    split; (apply l2_build_ids; [done..|]); [destruct (l2_host_box ctx s Qs Hs) as (b & Hb & <- & _)
      |destruct (l2_host_box ctx t Qt Ht) as (b & Hb & <- & _)]; by apply list_elem_of_fmap_2.
  - assert (∀ i, i ∈ c_interfaces ctx → if_host_id (if_base i) ∈ qualifying_host_ids ctx →
      if_id i ∈ n_id <$> (l2_build ctx g).1 ↔ excluded_if_type i = false) as Hport.
    { intros i Hi Hq.
      assert (if_id i ∈ element_ids (l2_build ctx g).1 ↔ excluded_if_type i = false) as Hel.
      { rewrite l2_build_elements, l2_ports_perm, list_elem_of_fmap by done.
        setoid_rewrite elem_of_list_filter_bool. unfold l2_shown. setoid_rewrite andb_true_iff.
        setoid_rewrite bool_decide_eq_true. setoid_rewrite negb_true_iff. split; [|by exists i].
        intros (j & E & (_ & Hx) & Hj). by assert (i = j) as -> by (by eapply (NoDup_key_inj if_id)). }
      rewrite <- Hel. split; [|apply element_ids_nodes]. intros (n & E & Hn)%list_elem_of_fmap.
      destruct (is_element n) eqn:Hne; [rewrite E; apply list_elem_of_fmap_2; by apply elem_of_list_filter_bool|].
      rewrite Forall_forall in Hfresh. destruct (Hfresh n); [by apply list_elem_of_In|done|].
      rewrite <- E. by apply list_elem_of_fmap_2. }
    intros e i t p He Et Hi Ht. pose proof He as (j & u & Hj & Hu & Hn & Hne & ->)%l2_links_sound.
    cbn in Et. injection Et as E1 E2 _.
    assert (j = i) as -> by (by eapply (NoDup_key_inj if_id)). assert (u = t) as -> by (by eapply (NoDup_key_inj if_id)).
    destruct (l2_link_qualifies ctx Hnd i t Hi Ht Hn Hne) as [Qi Qt].
    unfold kept. rewrite add_edges_to_graph_elem. cbn [new_edge e_source e_target].
    rewrite (Hport i Hi Qi), (Hport t Ht Qt). split; [tauto|]. intros [? ?]. split; [|done]. apply elem_of_app. by left.
  - intros e a i t p He Et Hi Ht [Ha _]%add_edges_to_graph_elem Hadj.
    unfold adjacency_hosts in Hadj. destruct (edge_type a) as [| | | | | | |s t' p'] eqn:Ea; try done.
    injection Hadj as Hadj. apply elem_of_app in Ha as [(j & u & _ & _ & _ & _ & ->)%l2_links_sound|Ha]; [done|].
    apply neighbor_links_sound in Ha as (s0 & t0 & p0 & Ea' & _ & Hno & _). rewrite Ea in Ea'. simplify_eq.
    apply Hno. rewrite Hadj. apply elem_of_list_to_set, list_elem_of_omap. exists e. split; [done|].
    unfold linked_hosts. rewrite Et. by rewrite (get_interface_has ctx Hnd i Hi), (get_interface_has ctx Hnd t Ht).
Qed.

(** ** Samples *)

Definition two_hosts : list HostRow := [sample_host 1%N None; sample_host 3%N None].
Definition no_grouping : GroupingConfig := {| container_rules := []; element_rules := [] |}.

Lemma l2_ports_placed_witness :
  element_ids (l2_build (switches 6 two_hosts []) no_grouping).1 ≡ₚ [51%N; 53%N; 57%N].
Proof.
  destruct (l2_ports_placed (switches 6 two_hosts []) no_grouping) as [Hids _];
    [by_evaluation|constructor|repeat (constructor; [by eexists|]); constructor|exact Hids].
Defined.

Lemma l2_edges_kept_witness :
  l2_links (switches 6 two_hosts []) ≠ []
  ∧ Forall (λ e, edge_type e = ET_PhysicalLink 51%N 53%N ByLLDP →
                 e ∈ add_edges_to_graph (n_id <$> (l2_build (switches 6 two_hosts []) no_grouping).1)
                       (l2_build (switches 6 two_hosts []) no_grouping).2)
      (l2_links (switches 6 two_hosts [])).
Proof.
  split; [discriminate|].
  destruct (l2_edges_kept (switches 6 two_hosts []) no_grouping) as (_ & Hk & _);
    [by_evaluation|constructor|by_evaluation|].
  apply Forall_forall. intros e He%list_elem_of_In Et.
  apply (Hk e (sample_interface 51%N 1%N 6 (Some (NeighborInterface 53%N)))
    (sample_interface 53%N 3%N 6 None) ByLLDP He Et); [left|right; left|done].
Defined.

(** An adjacency lost: one port of the link is of an excluded type, so the link is not
    drawn, and because there is a link the adjacency of the hosts is not drawn either. *)
Theorem l2_adjacency_lost :
  ∃ ctx i t, i ∈ c_interfaces ctx ∧ neighbor (if_base i) = Some (NeighborHost t)
    ∧ if_host_id (if_base i) ≠ t ∧ is_Some (get_host_by_id ctx (if_host_id (if_base i))) ∧ is_Some (get_host_by_id ctx t)
    ∧ add_edges_to_graph (n_id <$> (l2_build ctx no_grouping).1) (l2_build ctx no_grouping).2 = [].
Proof.
  exists (switches 53 two_hosts [sample_interface 55%N 1%N 6 (Some (NeighborHost 3%N))]),
    (sample_interface 55%N 1%N 6 (Some (NeighborHost 3%N))), 3%N.
  split_and!; [do 3 right; left|done|done|by eexists|by eexists|by vm_compute].
Qed.

(** The ports of a host that is not shown are elements of a box that is no node. *)
Theorem l2_hidden_host_ports :
  ∃ ctx n c, n ∈ (l2_build ctx no_grouping).1 ∧ element_container n = Some c
    ∧ c ∉ n_id <$> (l2_build ctx no_grouping).1.
Proof.
  set (i := sample_interface 53%N 3%N 6 None).
  exists (switches 6 [sample_host 1%N None] []), (l2_port 3%N i), (l2_container_id_for_host 3%N).
  split_and!; [|done|].
  - vm_compute. right. left.
  - by_evaluation.
Qed.
