(* ===== verification/ApplicationBuilder.v ===== *)
(** The application view: services in the boxes of their applications.

    [server/topology/service/application_builder.rs]. *)

From Stdlib Require Import Ascii.
From S2P Require Import Prelude Net Ports Position Entities ServiceIdentity Patterns Services Hosts HostMatch Locks Lldp Interfaces Subnets Topology ElementRules EdgeBuilder L2Builder.
Local Open Scope Z_scope.

Definition UNGROUPED_CONTAINER_ID : Uuid := 0x00000000000040008000000000000001%N.
Definition TOPOLOGY_CONTAINER_NAMESPACE : Uuid := 0xa1b2c3d4e5f647899abcdef012345678%N.

(** [Uuid::as_bytes]: sixteen bytes, the highest first. *)
Fixpoint low_bytes (n : nat) (u : N) (rest : string) : string :=
  match n with
  | O => rest
  | S n => low_bytes n (u / 256)%N (String (ascii_of_N (u mod 256)) rest)
  end.
Definition uuid_bytes (u : Uuid) : string := low_bytes 16 u "".

(** Consecutive duplicates are not pushed. *)
Definition push_unless_last (l : list Uuid) (x : Uuid) : list Uuid :=
  if bool_decide (head (rev l) = Some x) then l else l ++ [x].

(** The pairs a dependency joins: consecutive ones, or the first with the rest. *)
Definition dependency_pairs (t : DependencyType) (ids : list Uuid) : list (Uuid * Uuid) :=
  match t with
  | RequestPath => windows2 ids
  | HubAndSpoke => match ids with [] => [] | hub :: spokes => (λ s, (hub, s)) <$> spokes end
  end.

(** An edge of a dependency between services: the binding ids are nil. *)
Definition service_dependency_edge (d : Dependency) (st : Uuid * Uuid) : Edge :=
  new_edge st.1 st.2 (dependency_edge_type d uuid_nil uuid_nil) (Some (dep_name d)) false.

Section Application.
Context `{UuidLib, MapOrder} (registry : list ServiceDefinition) (ctx : TopologyContext).

Definition container_id_for_tag (tag : Uuid) : Uuid := new_v5 TOPOLOGY_CONTAINER_NAMESPACE (uuid_bytes tag).

Definition app_tags : gmap Uuid TagRow := lookup_by tag_id (List.filter is_application (c_tags ctx)).

(** The first application tag of the service, else of its host. *)
Definition find_app_tag (s : Service) : option TagRow :=
  match omap (λ t, app_tags !! t) (sv_tags (sv_base s)) with
  | tag :: _ => Some tag
  | [] => host ← get_host_by_id ctx (sv_host_id (sv_base s));
          head (omap (λ t, app_tags !! t) (h_tags (h_base host)))
  end.

Definition eligible_services : list Service :=
  List.filter (λ s, negb (bool_decide (service_category registry s = OpenPorts)))
    (List.filter (λ s, match bindings (sv_base s) with [] => false | _ => true end) (c_services ctx)).

Definition services_by_tag : gmap Uuid (list Service) := group_by (λ s, tag_id <$> find_app_tag s) eligible_services.
Definition ungrouped_services : list Service :=
  List.filter (λ s, bool_decide (find_app_tag s = None)) eligible_services.

Definition service_element (container : Uuid) (s : Service) : Node :=
  node_element (sv_id s) container (sv_host_id (sv_base s)) El_Service (Some (sv_name (sv_base s))).

Definition application_container (tag : Uuid) (services : list Service) : list Node :=
  top_container (container_id_for_tag tag) CT_Application (Some tag) false (tag_name <$> app_tags !! tag)
  :: (service_element (container_id_for_tag tag) <$> services).

Definition app_nodes : list Node :=
  ('(tag, services) ← map_iter services_by_tag; application_container tag services)
  ++ match ungrouped_services with
     | [] => []
     | l => top_container UNGROUPED_CONTAINER_ID CT_ApplicationUngrouped None false (Some "Ungrouped"%string)
            :: (service_element UNGROUPED_CONTAINER_ID <$> l)
     end.

(** The services that have a node. *)
Definition service_node_ids : gset Uuid :=
  list_to_set (('(_, services) ← map_iter services_by_tag; sv_id <$> services) ++ (sv_id <$> ungrouped_services)).

Definition app_resolve (n : Node) : option ElementMatchData :=
  s ← lookup_by sv_id eligible_services !! n_id n;
  Some {| md_categories := [service_category registry s];
          md_tags := resolve_element_tag_ids E_Service (sv_id s)
                       {| tl_hosts := None; tl_services := Some (λ x, lookup_by sv_id eligible_services !! x);
                          tl_subnets := None |};
          md_entity := E_Service; md_virtualizer := None; md_deployment_group := compose_project_of s;
          md_native_vlan := None; md_vlan_number := None; md_vlan_name := None; md_is_trunk_port := false;
          md_oper_status := None |}.

(** The services of a dependency, in order. *)
Definition dependency_services (d : Dependency) : list Uuid :=
  match members d with
  | DepServices ids => ids
  | DepBindings ids => foldl push_unless_last [] (omap (λ b, build_binding_to_service_map ctx !! b) ids)
  end.

Definition app_dependency_edges (d : Dependency) : list Edge :=
  service_dependency_edge d <$>
    List.filter (λ st, bool_decide (st.1 ∈ service_node_ids) && bool_decide (st.2 ∈ service_node_ids))
      (dependency_pairs (dependency_type d) (dependency_services d)).

Definition app_runtime_edge (s : Service) : option Edge :=
  r ← virtualization_service_id (sv_base s);
  if bool_decide (sv_id s ∈ service_node_ids) && bool_decide (r ∈ service_node_ids)
  then Some (new_edge r (sv_id s) (ET_ContainerRuntime (sv_host_id (sv_base s)) r [] [sv_id s]) None false)
  else None.

Definition app_edges : list Edge :=
  (c_dependencies ctx ≫= app_dependency_edges) ++ omap app_runtime_edge (c_services ctx).

Definition app_build (g : GroupingConfig) : list Node * list Edge :=
  (apply_stack_runtime_logos (c_services ctx)
     (apply_element_rules app_nodes app_resolve None None (element_rules g)).1, app_edges).
End Application.
