(* ===== verification/AppThms.v ===== *)
(** What the application view guarantees.

    Theorems on [ApplicationBuilder]: every service with a binding that is not an
    open-ports one is one element, in the box of its application or in the
    ungrouped box, and every edge joins two elements. *)

From S2P Require Import Prelude Net Ports Position Entities ServiceIdentity Patterns Services Hosts HostMatch Locks Lldp Interfaces Subnets Topology TopologySample ElementRules ElementRulesThms EdgeBuilder EdgeThms L2Builder L3Builder L3Thms L2Thms ApplicationBuilder.
Local Open Scope Z_scope.

Section App.
Context `{UuidLib, MapOrder} (registry : list ServiceDefinition) (ctx : TopologyContext).

(** The box of a service. *)
Definition application_box (s : Service) : Uuid :=
  match find_app_tag ctx s with Some t => container_id_for_tag (tag_id t) | None => UNGROUPED_CONTAINER_ID end.

Definition grouped_ids : list Uuid := '(_, services) ← map_iter (services_by_tag registry ctx); sv_id <$> services.

Lemma services_by_tag_elem tag l s :
  services_by_tag registry ctx !! tag = Some l →
  s ∈ l ↔ s ∈ eligible_services registry ctx ∧ tag_id <$> find_app_tag ctx s = Some tag.
Proof.
  intros [-> _]%group_by_Some. rewrite elem_of_list_filter_bool. unfold has_key. rewrite bool_decide_eq_true. tauto.
Qed.

Lemma elem_of_ungrouped s :
  s ∈ ungrouped_services registry ctx ↔ s ∈ eligible_services registry ctx ∧ find_app_tag ctx s = None.
Proof. unfold ungrouped_services. rewrite elem_of_list_filter_bool, bool_decide_eq_true. tauto. Qed.

Lemma element_ids_services box l : element_ids (service_element box <$> l) = sv_id <$> l.
Proof. unfold element_ids. induction l as [|s l IH]; [done|]. csimpl. by rewrite IH. Qed.

Lemma app_nodes_elements :
  element_ids (app_nodes registry ctx) = grouped_ids ++ (sv_id <$> ungrouped_services registry ctx).
Proof.
  unfold app_nodes, grouped_ids. rewrite element_ids_app. f_equal.
  - induction (map_iter _) as [|[tag l] m IH]; [done|]. csimpl. rewrite <- IH.
    change (application_container ctx tag l ++ ?x) with
      (top_container (container_id_for_tag tag) CT_Application (Some tag) false (tag_name <$> app_tags ctx !! tag)
       :: (service_element (container_id_for_tag tag) <$> l) ++ x).
    unfold element_ids at 1. simpl. fold (element_ids ((service_element (container_id_for_tag tag) <$> l) ++
      (m ≫= λ '(tag, services), application_container ctx tag services))).
    by rewrite element_ids_app, element_ids_services.
  - destruct (ungrouped_services registry ctx) as [|s l]; [done|].
    by rewrite <- (element_ids_services UNGROUPED_CONTAINER_ID (s :: l)).
Qed.

Context (Hnd : NoDup (sv_id <$> c_services ctx)).

Lemma eligible_sublist : eligible_services registry ctx `sublist_of` c_services ctx.
Proof. unfold eligible_services. etrans; apply filter_bool_sublist. Qed.

Lemma eligible_NoDup : NoDup (sv_id <$> eligible_services registry ctx).
Proof. eapply sublist_NoDup; [exact Hnd|]. apply sublist_fmap_of, eligible_sublist. Qed.

Lemma app_elements_perm :
  element_ids (app_nodes registry ctx) ≡ₚ sv_id <$> eligible_services registry ctx
  ∧ NoDup (element_ids (app_nodes registry ctx)).
Proof.
  rewrite app_nodes_elements.
  assert (NoDup (grouped_ids ++ (sv_id <$> ungrouped_services registry ctx))) as Hn.
  { apply list.NoDup_app. split_and!.
    - apply NoDup_bind.
      + intros [t l] [t' l'] id Ht%elem_of_map_iter Ht'%elem_of_map_iter
          (s & -> & Hs)%list_elem_of_fmap (s' & E & Hs')%list_elem_of_fmap.
        apply (services_by_tag_elem _ _ _ Ht) in Hs as [Hs1 Hs2].
        apply (services_by_tag_elem _ _ _ Ht') in Hs' as [Hs1' Hs2'].
        assert (s = s') as <- by (by eapply NoDup_key_inj; [apply eligible_NoDup|..]). congruence.
      + intros [t l] Ht%elem_of_map_iter. apply group_by_Some in Ht as [-> _].
        eapply sublist_NoDup; [apply eligible_NoDup|]. apply sublist_fmap_of, filter_bool_sublist.
      + eapply NoDup_fmap_1, NoDup_map_iter.
    - intros id ([t l] & (s & -> & Hs)%list_elem_of_fmap & Ht%elem_of_map_iter)%list_elem_of_bind
        (s' & E & Hs')%list_elem_of_fmap.
      apply (services_by_tag_elem _ _ _ Ht) in Hs as [Hs1 Hs2]. apply elem_of_ungrouped in Hs' as [Hs1' Hs2'].
      assert (s = s') as <- by (by eapply NoDup_key_inj; [apply eligible_NoDup|..]). by rewrite Hs2' in Hs2.
    - eapply sublist_NoDup; [apply eligible_NoDup|]. apply sublist_fmap_of, filter_bool_sublist. }
  split; [|done]. apply NoDup_Permutation; [done|apply eligible_NoDup|]. intros id.
  unfold grouped_ids. rewrite elem_of_app, list_elem_of_bind, !list_elem_of_fmap.
  setoid_rewrite elem_of_ungrouped. split.
  - intros [([t l] & (s & -> & Hs)%list_elem_of_fmap & Ht%elem_of_map_iter)|(s & -> & Hs & _)]; [|eauto].
    apply (services_by_tag_elem _ _ _ Ht) in Hs as [Hs _]. eauto.
  - intros (s & -> & Hs). destruct (find_app_tag ctx s) as [t|] eqn:Et; [left|right; eauto].
    destruct (group_by_elem (λ s, tag_id <$> find_app_tag ctx s) _ s (tag_id t) Hs) as (l & Hl & Hin);
      [by rewrite Et|]. exists (tag_id t, l). split; [by apply list_elem_of_fmap_2|by apply elem_of_map_iter].
Qed.

(** An element is the service's, in its box, and the box is a node. *)
Lemma app_nodes_in n c :
  n ∈ app_nodes registry ctx → element_container n = Some c →
  ∃ s b, s ∈ eligible_services registry ctx ∧ n = service_element c s ∧ c = application_box s
    ∧ b ∈ app_nodes registry ctx ∧ n_id b = c ∧ is_element b = false ∧ parent_of b = None.
Proof.
  unfold app_nodes. intros [([tag l] & Hn & Ht%elem_of_map_iter)%list_elem_of_bind|Hn]%elem_of_app Hc.
  - pose proof Hn as Hn'. apply elem_of_cons in Hn as [->|(s & -> & Hs)%list_elem_of_fmap]; [done|].
    injection Hc as <-. apply (services_by_tag_elem _ _ _ Ht) in Hs as [Hs (t & Et & ->)%fmap_Some].
    eexists s, _. split_and!; [done|done|unfold application_box; by rewrite Et| | | |].
    { apply elem_of_app. left. apply list_elem_of_bind. exists (tag_id t, l).
      split; [by left|by apply elem_of_map_iter]. }
    all: done.
  - destruct (ungrouped_services registry ctx) as [|s0 l] eqn:Eu; [by apply elem_of_nil in Hn|].
    apply elem_of_cons in Hn as [->|(s & -> & Hs)%list_elem_of_fmap]; [done|]. injection Hc as <-.
    rewrite <- Eu in Hs. apply elem_of_ungrouped in Hs as [Hs Et].
    eexists s, _. split_and!; [done|done|unfold application_box; by rewrite Et|apply elem_of_app; right; by left|done..].
Qed.
End App.

(** Every service with a binding that is not an open-ports one is shown once, in the
    box of its application (its own tag before its host's), or in the ungrouped box,
    or in a subcontainer of that box. *)
Theorem app_services_placed `{UuidLib, MapOrder} registry ctx g :
  NoDup (sv_id <$> c_services ctx) → Forall (λ r, plain_rule (rule r) = true) (element_rules g) →
  let nodes := (app_build registry ctx g).1 in
  element_ids nodes ≡ₚ sv_id <$> eligible_services registry ctx
  ∧ ∀ n c, n ∈ nodes → element_container n = Some c →
      ∃ s b, s ∈ eligible_services registry ctx ∧ n_id n = sv_id s
        ∧ b ∈ nodes ∧ n_id b = application_box ctx s ∧ is_element b = false ∧ parent_of b = None
        ∧ in_box nodes (n_id b) c.
Proof.
  intros Hnd Hplain nodes. destruct (app_elements_perm registry ctx Hnd) as [Hperm Hn].
  destruct (element_rules_nest (app_nodes registry ctx) (app_resolve registry ctx) None (element_rules g) Hn Hplain)
    as (reassign & subs & E & Hmove & _ & Hsub).
  assert (nodes = stamp_logo (stack_runtime_logos (c_services ctx)) <$> ((move reassign <$> app_nodes registry ctx) ++ subs))
    as En by (unfold nodes, app_build, apply_stack_runtime_logos; cbn [fst]; by rewrite E).
  set (logos := stack_runtime_logos (c_services ctx)) in *.
  assert (∀ s, s ∈ subs → is_element s = false) as Hnel.
  { intros s Hs. destruct (Hsub s Hs) as (_ & (p & n & _ & _ & Hp) & _). by eapply parent_not_element. }
  split.
  - rewrite En, element_ids_fmap; [|apply stamp_id|apply stamp_is_element].
    rewrite element_ids_app, (element_ids_containers subs Hnel), app_nil_r, element_ids_fmap;
      [done|apply move_id|apply move_is_element].
  - intros n c. rewrite En. intros (m & -> & Hm)%list_elem_of_fmap. rewrite stamp_container, stamp_id. intros Hc.
    apply elem_of_app in Hm as [(n0 & -> & Hn0)%list_elem_of_fmap|Hm];
      [|apply element_container_is_element in Hc; by rewrite Hnel in Hc].
    rewrite move_id. assert (is_element n0 = true) as Hel.
    { rewrite <- (move_is_element reassign). by eapply element_container_is_element. }
    destruct (element_container n0) as [p|] eqn:Ep; [|unfold is_element, element_container in *; by destruct (node_type n0)].
    destruct (app_nodes_in registry ctx n0 p Hn0 Ep) as (s & b & Hs & E0 & Ebox & Hb & Eb & Hbel & Hbp).
    exists s, (stamp_logo logos (move reassign b)).
    rewrite !stamp_id, !move_id, stamp_is_element, move_is_element, stamp_parent, move_parent.
    split_and!; [done|by rewrite E0| |congruence|done|done|].
    { apply list_elem_of_fmap_2, elem_of_app. left. by apply list_elem_of_fmap_2. }
    rewrite Eb. destruct (Hmove n0 p Hn0 Ep) as [Ec|(sub & Hsb & Ec & Hpar)]; rewrite Ec in Hc; injection Hc as <-; [by left|].
    right. exists (stamp_logo logos sub). rewrite stamp_id, stamp_parent. split_and!; [|done|done].
    apply list_elem_of_fmap_2, elem_of_app. by right.
Qed.

(** Every edge of the application view joins two services that are shown. *)
Theorem app_edges_joined `{UuidLib, MapOrder} registry ctx e :
  e ∈ app_edges registry ctx →
  e_source e ∈ element_ids (app_nodes registry ctx) ∧ e_target e ∈ element_ids (app_nodes registry ctx).
Proof.
  rewrite app_nodes_elements.
  assert (∀ id, id ∈ service_node_ids registry ctx →
    id ∈ grouped_ids registry ctx ++ (sv_id <$> ungrouped_services registry ctx)) as Hids.
  { intros id Hid. by apply elem_of_list_to_set in Hid. }
  unfold app_edges. intros [(d & He & _)%list_elem_of_bind|(s & _ & He)%list_elem_of_omap]%elem_of_app.
  - apply list_elem_of_fmap in He as (st & -> & [Hb _]%elem_of_list_filter_bool).
    apply andb_true_iff in Hb as [H1%bool_decide_eq_true H2%bool_decide_eq_true]. split; by apply Hids.
  - unfold app_runtime_edge in He. apply bind_Some in He as (r & _ & He).
    destruct (bool_decide _ && bool_decide _) eqn:Hb; [|done]. injection He as <-.
    apply andb_true_iff in Hb as [H1%bool_decide_eq_true H2%bool_decide_eq_true]. split; by apply Hids.
Qed.

(** ** Samples *)

Lemma app_services_placed_witness :
  element_ids (app_build sample_registry docker_network no_grouping).1 ≡ₚ [31%N; 33%N].
Proof.
  apply (app_services_placed sample_registry docker_network no_grouping); [by_evaluation|constructor].
Defined.

Lemma app_edges_joined_witness :
  Forall (λ e, e_target e ∈ element_ids (app_nodes sample_registry docker_network)) (app_edges sample_registry docker_network).
Proof.
  apply Forall_forall. intros e He%list_elem_of_In.
  exact (proj2 (app_edges_joined sample_registry docker_network e He)).
Defined.
