(* ===== verification/WorkloadsBuilder.v ===== *)
(** The workloads view: virtual machines, containers and services in the boxes of
    the machines they run on.

    [server/topology/service/workloads_builder.rs]. *)

From S2P Require Import Prelude Net Ports Position Entities ServiceIdentity Patterns Services Hosts HostMatch Locks Lldp Interfaces Subnets Topology ElementRules EdgeBuilder L2Builder ApplicationBuilder.
Local Open Scope Z_scope.

(** [while let Some(parent)]: up the parents until [stop] or the top; [None] when
    the fuel is used up. *)
Fixpoint climb (fuel : nat) (parents : gmap Uuid (option Uuid)) (stop : Uuid → bool) (c : Uuid) : option Uuid :=
  match fuel with
  | O => None
  | S fuel => if stop c then Some c
              else match parents !! c with
                   | Some (Some p) => climb fuel parents stop p
                   | _ => Some c
                   end
  end.

Section Workloads.
Context `{UuidLib, MapOrder} (registry : list ServiceDefinition) (ctx : TopologyContext).

Definition wl_container_id_for_host (host : Uuid) : Uuid := new_v5 NAMESPACE_OID ("workloads:host:" +:+ uuid_text host).

Definition build_virtualizer_titles : gmap Uuid string :=
  collect_map ((λ s, (sv_id s, def_name (resolve_definition registry (service_definition (sv_base s)))))
               <$> List.filter (is_virtualizer registry) (c_services ctx)).

(** *** Phase 1: lookups *)

Definition virt_to_vm_hosts : gmap Uuid (list Uuid) :=
  (fmap h_id : list HostRow → list Uuid)
    <$> (group_by (λ h, h_virtualization_service_id (h_base h)) (c_hosts ctx) : gmap Uuid (list HostRow)).
Definition virt_to_container_svcs : gmap Uuid (list Uuid) :=
  (fmap sv_id : list Service → list Uuid)
    <$> (group_by (λ s, virtualization_service_id (sv_base s)) (c_services ctx) : gmap Uuid (list Service)).
Definition virtualizer_service_ids : gset Uuid :=
  list_to_set (sv_id <$> List.filter (is_virtualizer registry) (c_services ctx)).
Definition managed_service_ids : gset Uuid := list_to_set (mjoin (map_iter virt_to_container_svcs).*2).
Definition host_lookup : gmap Uuid HostRow := lookup_by h_id (c_hosts ctx).
Definition service_lookup : gmap Uuid Service := lookup_by sv_id (c_services ctx).

(** *** Phase 2 *)

Definition inline_ctx : InlineContext :=
  {| ic_hosts := host_lookup; ic_services := service_lookup; ic_containers := virt_to_container_svcs |}.

(** *** Phase 3: boxes of hosts that are not virtual machines *)

Definition wl_host_container (h : HostRow) : Node :=
  top_container (wl_container_id_for_host (h_id h)) CT_Host (Some (h_id h)) false (Some (h_name (h_base h))).
Definition wl_host_containers : list Node :=
  wl_host_container <$> List.filter (λ h, bool_decide (h_virtualization_service_id (h_base h) = None)) (c_hosts ctx).

(** *** Phase 4: elements *)

Definition vm_elements : list Node :=
  '(virt, vms) ← map_iter virt_to_vm_hosts;
  match service_lookup !! virt with
  | None => []
  | Some s =>
      omap (λ vm, h ← host_lookup !! vm;
                  Some (node_element vm (wl_container_id_for_host (sv_host_id (sv_base s))) vm El_Host
                          (Some (h_name (h_base h))))) vms
  end.

Definition is_vm (host : Uuid) : bool :=
  match host_lookup !! host with
  | Some h => bool_decide (is_Some (h_virtualization_service_id (h_base h)))
  | None => false
  end.

(** The host of the hypervisor of a virtual machine. *)
Definition hypervisor_host_id (vm : Uuid) : option Uuid :=
  kv ← List.find (λ kv, bool_decide (vm ∈ kv.2)) (map_iter virt_to_vm_hosts);
  s ← service_lookup !! kv.1;
  Some (sv_host_id (sv_base s)).

(** The box of what runs on a host: the host's, or its hypervisor's. *)
Definition box_for_host (host : Uuid) : option Uuid :=
  if is_vm host then wl_container_id_for_host <$> hypervisor_host_id host else Some (wl_container_id_for_host host).

Definition container_elements : list Node :=
  '(virt, svcs) ← map_iter virt_to_container_svcs;
  match s ← service_lookup !! virt; box_for_host (sv_host_id (sv_base s)) with
  | None => []
  | Some box => omap (λ id, service_element box <$> service_lookup !! id) svcs
  end.

Definition plain_element (s : Service) : option Node :=
  if bool_decide (sv_id s ∈ virtualizer_service_ids) || bool_decide (sv_id s ∈ managed_service_ids) then None
  else if bool_decide (service_category registry s = OpenPorts) then None
  else if bool_decide (host_lookup !! sv_host_id (sv_base s) = None) then None
  else box ← box_for_host (sv_host_id (sv_base s)); Some (service_element box s).

Definition wl_nodes : list Node :=
  wl_host_containers ++ vm_elements ++ container_elements ++ omap plain_element (c_services ctx).

(** *** Phase 5: element rules *)

Definition wl_lookups : TaggableLookups :=
  {| tl_hosts := Some (λ h, host_lookup !! h); tl_services := Some (λ s, service_lookup !! s); tl_subnets := None |}.

Definition wl_resolve (n : Node) : option ElementMatchData :=
  match node_type n with
  | Element e =>
      match element e with
      | El_Host =>
          h ← host_lookup !! n_id n;
          Some {| md_categories := []; md_tags := resolve_element_tag_ids E_Host (n_id n) wl_lookups;
                  md_entity := E_Host; md_virtualizer := h_virtualization_service_id (h_base h);
                  md_deployment_group := None; md_native_vlan := None; md_vlan_number := None;
                  md_vlan_name := None; md_is_trunk_port := false; md_oper_status := None |}
      | El_Service =>
          s ← service_lookup !! n_id n;
          Some {| md_categories := [service_category registry s];
                  md_tags := resolve_element_tag_ids E_Service (n_id n) wl_lookups;
                  md_entity := E_Service; md_virtualizer := virtualization_service_id (sv_base s);
                  md_deployment_group := None; md_native_vlan := None; md_vlan_number := None;
                  md_vlan_name := None; md_is_trunk_port := false; md_oper_status := None |}
      | _ => None
      end
  | Container _ => None
  end.

Definition wl_ruled (g : GroupingConfig) : list Node * gmap Uuid PlacementDecision :=
  apply_element_rules wl_nodes wl_resolve (Some build_virtualizer_titles) (Some inline_ctx) (element_rules g).

(** *** Phase 5.5: what is shown on another node *)

Definition is_inlined (placements : gmap Uuid PlacementDecision) (n : Node) : bool :=
  match placements !! n_id n with Some (InlineOn _ _) => true | _ => false end.

Definition add_inline_group (group : InlineGroup) (n : Node) : Node :=
  match node_type n with
  | Element e => {| n_id := n_id n; header := header n;
                    node_type := Element {| in_container := in_container e; on_host := on_host e; element := element e;
                                            inline_groups := inline_groups e ++ [group] |} |}
  | Container _ => n
  end.

(** The first node of that id. *)
Fixpoint attach_inline (node : Uuid) (group : InlineGroup) (nodes : list Node) : list Node :=
  match nodes with
  | [] => []
  | n :: nodes => if (n_id n =? node)%N then add_inline_group group n :: nodes else n :: attach_inline node group nodes
  end.

Definition attach_decision (nodes : list Node) (d : PlacementDecision) : list Node :=
  match d with InlineOn node (Some group) => attach_inline node group nodes | _ => nodes end.

Definition inline_elements (placements : gmap Uuid PlacementDecision) (nodes : list Node) : list Node :=
  foldl attach_decision (List.filter (λ n, negb (is_inlined placements n)) nodes) (map_iter placements).*2.

(** *** Phase 6: no empty boxes of hosts *)

Definition container_parents (nodes : list Node) : gmap Uuid (option Uuid) :=
  collect_map (omap (λ n, match node_type n with
                          | Container c => Some (n_id n, parent_container c)
                          | Element _ => None
                          end) nodes).

Definition is_host_container (n : Node) : bool :=
  match node_type n with Container c => bool_decide (container_type c = CT_Host) | Element _ => false end.
Definition host_container_ids (nodes : list Node) : gset Uuid :=
  list_to_set (n_id <$> List.filter is_host_container nodes).

Section Prune.
Context (nodes : list Node).

Definition fuel : nat := S (S (length nodes)).
Definition in_host_containers (c : Uuid) : bool := bool_decide (c ∈ host_container_ids nodes).

(** The host box an element ends in. *)
Definition root_box (n : Node) : option Uuid :=
  c ← element_container n;
  r ← climb fuel (container_parents nodes) in_host_containers c;
  if in_host_containers r then Some r else None.
Definition occupied_hosts : gset Uuid := list_to_set (omap root_box nodes).

Definition to_remove (n : Node) : bool :=
  match node_type n with
  | Element _ => false
  | Container c =>
      if bool_decide (container_type c = CT_Host) && negb (bool_decide (n_id n ∈ occupied_hosts)) then true
      else match parent_container c with
           | None => false
           | Some _ =>
               match climb fuel (container_parents nodes) (λ _, false) (n_id n) with
               | Some root => in_host_containers root && negb (bool_decide (root ∈ occupied_hosts))
               | None => false
               end
           end
  end.
Definition ids_to_remove : gset Uuid := list_to_set (n_id <$> List.filter to_remove nodes).
Definition pruned : list Node := List.filter (λ n, negb (bool_decide (n_id n ∈ ids_to_remove))) nodes.
End Prune.

(** *** Edges *)

Section WorkloadEdges.
Context (removed : gset Uuid).

Definition box_removed (host : Uuid) : bool := bool_decide (wl_container_id_for_host host ∈ removed).

Definition wl_link_target (i : InterfaceRow) : option InterfaceRow :=
  t ← neighbor_target i;
  target ← get_interface_by_id ctx t;
  if (if_host_id (if_base i) =? if_host_id (if_base target))%N then None
  else if box_removed (if_host_id (if_base i)) || box_removed (if_host_id (if_base target)) then None
  else Some target.
Definition wl_link_key (i : InterfaceRow) : option (Uuid * Uuid) :=
  target ← wl_link_target i; host_pair_key (if_id i) <$> neighbor_target i.
Definition wl_link_edge (i : InterfaceRow) : option Edge :=
  target ← wl_link_target i;
  Some (new_edge (wl_container_id_for_host (if_host_id (if_base i)))
          (wl_container_id_for_host (if_host_id (if_base target)))
          (ET_PhysicalLink (if_id i) (if_id target) ByLLDP) (link_label i target) false).
Definition wl_links : list Edge :=
  omap wl_link_edge (first_by_key wl_link_key ∅ (get_interfaces_with_neighbor ctx)).

Definition wl_adjacencies : list Edge :=
  List.filter (λ e, negb (bool_decide (e_source e ∈ removed)) && negb (bool_decide (e_target e ∈ removed)))
    (create_neighbor_link_edges ctx wl_container_id_for_host (physical_link_host_pairs ctx wl_links)).
End WorkloadEdges.

Section Dependencies.
Context (placements : gmap Uuid PlacementDecision) (nodes : list Node).

Definition element_node_ids : gset Uuid := list_to_set (n_id <$> List.filter is_element nodes).

(** The node a service is shown at. *)
Definition node_of_service (s : Service) : option Uuid :=
  match placements !! sv_id s with
  | Some (PlaceElement | PlaceInContainer _) =>
      if bool_decide (sv_id s ∈ element_node_ids) then Some (sv_id s) else None
  | Some (BecomeSubcontainer c) => Some c
  | Some (InlineOn node _) => if bool_decide (node ∈ element_node_ids) then Some node else None
  | None => if bool_decide (sv_id s ∈ element_node_ids) then Some (sv_id s) else None
  end.
Definition service_to_node : gmap Uuid Uuid :=
  collect_map (omap (λ s, (λ n, (sv_id s, n)) <$> node_of_service s) (c_services ctx)).

Definition dependency_nodes (d : Dependency) : list Uuid :=
  match members d with
  | DepServices ids => omap (λ id, service_to_node !! id) ids
  | DepBindings ids =>
      foldl push_unless_last []
        (omap (λ b, s ← build_binding_to_service_map ctx !! b; service_to_node !! s) ids)
  end.
Definition wl_dependency_edges (d : Dependency) : list Edge :=
  let ids := dependency_nodes d in
  if (length ids <? 2)%nat then []
  else service_dependency_edge d <$> dependency_pairs (dependency_type d) ids.
End Dependencies.

Definition wl_build (g : GroupingConfig) : list Node * list Edge :=
  let '(ruled, placements) := wl_ruled g in
  let shown := inline_elements placements ruled in
  let nodes := pruned shown in
  let removed := ids_to_remove shown in
  (nodes, wl_links removed ++ wl_adjacencies removed ++ (c_dependencies ctx ≫= wl_dependency_edges placements nodes)).
End Workloads.
