(* ===== verification/WorkloadThms.v ===== *)
(** What the workloads view guarantees.

    Theorems on [WorkloadsBuilder]: the climb to a host's box ends; pruning takes
    the boxes of hosts that nothing runs on, with what is in them, and no other
    node; every node has an id of its own. *)

From S2P Require Import Prelude Net Ports Position Entities ServiceIdentity Patterns Services Hosts HostMatch Locks Lldp Interfaces Subnets Topology TopologySample ElementRules ElementRulesThms EdgeBuilder EdgeThms L2Builder L3Builder L3Thms L2Thms ApplicationBuilder AppThms WorkloadsBuilder.
Local Open Scope Z_scope.

(** ** Pruning *)

(** Ids are unique and a box in a box is in no further one. *)
Record nested_once (nodes : list Node) : Prop := {
  no_ids : NoDup (n_id <$> nodes);
  no_depth : ∀ c q, c ∈ nodes → q ∈ nodes → parent_of c = Some (n_id q) → parent_of q = None;
  no_host_top : ∀ c, c ∈ nodes → is_host_container c = true → parent_of c = None
}.

Section Prune.
Context (nodes : list Node) (Hok : nested_once nodes).

Lemma container_parents_Some id p :
  container_parents nodes !! id = Some p ↔ ∃ n, n ∈ nodes ∧ n_id n = id ∧ is_element n = false ∧ parent_of n = p.
Proof.
  unfold container_parents. rewrite lookup_collect_map.
  - rewrite list_elem_of_omap. unfold is_element, parent_of. split.
    + intros (n & Hn & E). exists n. destruct (node_type n); [|done]. by injection E as -> ->.
    + intros (n & Hn & <- & He & <-). exists n. split; [done|]. by destruct (node_type n).
  - eapply sublist_NoDup; [apply (no_ids _ Hok)|]. apply omap_keys_sublist. intros n [k v] E.
    destruct (node_type n); [|done]. by injection E as -> _.
Qed.

Lemma parent_climb n q :
  n ∈ nodes → parent_of n = Some q → ∀ p, container_parents nodes !! q = Some p → p = None.
Proof.
  intros Hn Hp p (m & Hm & Em & _ & <-)%container_parents_Some. rewrite <- Em in Hp.
  by apply (no_depth _ Hok n m).
Qed.

(** Two steps reach the top. *)
Lemma climb_two f stop c :
  climb (S (S f)) (container_parents nodes) stop c
  = Some (if stop c then c else match container_parents nodes !! c with Some (Some p) => p | _ => c end).
Proof.
  simpl. destruct (stop c); [done|]. destruct (container_parents nodes !! c) as [[p|]|] eqn:E; [|done|done].
  destruct (stop p); [done|]. apply container_parents_Some in E as (n & Hn & _ & _ & Hp).
  destruct (container_parents nodes !! p) as [o|] eqn:Eo; [|done].
  by rewrite (parent_climb n p Hn Hp o Eo).
Qed.

#[local] Arguments climb : simpl never.

Lemma host_container_ids_elem id :
  in_host_containers nodes id = true ↔ ∃ b, b ∈ nodes ∧ n_id b = id ∧ is_host_container b = true.
Proof.
  unfold in_host_containers, host_container_ids. rewrite bool_decide_eq_true, elem_of_list_to_set, list_elem_of_fmap.
  setoid_rewrite elem_of_list_filter_bool. naive_solver.
Qed.

Lemma host_container_not_element b : is_host_container b = true → is_element b = false.
Proof. unfold is_host_container, is_element. by destruct (node_type b). Qed.

Lemma unique_node n m : n ∈ nodes → m ∈ nodes → n_id n = n_id m → n = m.
Proof. intros. by eapply (NoDup_key_inj n_id); [apply (no_ids _ Hok)|..]. Qed.

Lemma to_remove_container n : to_remove nodes n = true → is_element n = false.
Proof. unfold to_remove, is_element. by destruct (node_type n). Qed.

Lemma elem_of_pruned n : n ∈ pruned nodes ↔ n ∈ nodes ∧ to_remove nodes n = false.
Proof.
  unfold pruned, ids_to_remove.
  rewrite elem_of_list_filter_bool, negb_true_iff, bool_decide_eq_false, elem_of_list_to_set, list_elem_of_fmap.
  setoid_rewrite elem_of_list_filter_bool. split.
  - intros [Hno Hn]. split; [done|]. apply not_true_iff_false. intros Hr. apply Hno. eauto.
  - intros [Hn Hr]. split; [|done]. intros (m & E & Hm & Hin).
    assert (n = m) as -> by (by apply unique_node). congruence.
Qed.

Lemma occupied_elem r : r ∈ occupied_hosts nodes ↔ ∃ n, n ∈ nodes ∧ root_box nodes n = Some r.
Proof. unfold occupied_hosts. by rewrite elem_of_list_to_set, list_elem_of_omap. Qed.

Lemma to_remove_host b :
  b ∈ nodes → is_host_container b = true →
  to_remove nodes b = negb (bool_decide (n_id b ∈ occupied_hosts nodes)).
Proof.
  intros Hb Hh. pose proof (no_host_top _ Hok b Hb Hh) as Hp. unfold to_remove, is_host_container, parent_of in *.
  destruct (node_type b) as [c|]; [|done]. rewrite Hh, Hp. simpl. by destruct (negb _).
Qed.

(** A box in a box goes with it. *)
Lemma to_remove_sub q p :
  q ∈ nodes → parent_of q = Some p →
  to_remove nodes q = in_host_containers nodes p && negb (bool_decide (p ∈ occupied_hosts nodes)).
Proof.
  intros Hq Hp. assert (is_host_container q = false) as Hnh.
  { apply not_true_iff_false. intros Hh. pose proof (no_host_top _ Hok q Hq Hh). congruence. }
  assert (container_parents nodes !! n_id q = Some (Some p)) as E.
  { apply container_parents_Some. exists q. split_and!; [done|done|by eapply parent_not_element|done]. }
  unfold to_remove, is_host_container, parent_of in *. destruct (node_type q) as [c|]; [|done].
  rewrite Hnh, Hp. simpl. unfold fuel. rewrite climb_two. cbn. by rewrite E.
Qed.

(** The box of an element is kept. *)
Lemma element_box_kept n q :
  n ∈ nodes → q ∈ nodes → element_container n = Some (n_id q) → to_remove nodes q = false.
Proof.
  intros Hn Hq Hc. destruct (is_element q) eqn:Eq.
  { apply not_true_iff_false. intros ?%to_remove_container. congruence. }
  assert (∀ r, in_host_containers nodes r = true →
            (if in_host_containers nodes (n_id q) then n_id q
             else match container_parents nodes !! n_id q with Some (Some p) => p | _ => n_id q end) = r →
            r ∈ occupied_hosts nodes) as Hocc.
  { intros r Hr E. apply occupied_elem. exists n. split; [done|]. unfold root_box. rewrite Hc. simpl. unfold fuel.
    rewrite climb_two, E. simpl. by rewrite Hr. }
  destruct (is_host_container q) eqn:Hh.
  { rewrite to_remove_host by done. apply negb_false_iff, bool_decide_eq_true.
    assert (in_host_containers nodes (n_id q) = true) as Hi by (apply host_container_ids_elem; eauto).
    apply Hocc; [done|]. by rewrite Hi. }
  destruct (parent_of q) as [p|] eqn:Hp.
  - rewrite (to_remove_sub q p) by done. destruct (in_host_containers nodes p) eqn:Hi; [|done]. simpl.
    apply negb_false_iff, bool_decide_eq_true. apply Hocc; [done|].
    assert (in_host_containers nodes (n_id q) = false) as ->.
    { apply not_true_iff_false. intros (b & Hb & Eb & Hbh)%host_container_ids_elem.
      assert (b = q) as -> by (by apply unique_node). congruence. }
    assert (container_parents nodes !! n_id q = Some (Some p)) as ->; [|done].
    apply container_parents_Some. eauto 10.
  - unfold to_remove, is_host_container, parent_of in *. destruct (node_type q) as [c|]; [|done]. by rewrite Hh, Hp.
Qed.

Lemma pruned_elements : List.filter is_element (pruned nodes) = List.filter is_element nodes.
Proof.
  unfold pruned. assert (∀ n, n ∈ nodes → is_element n = true →
    negb (bool_decide (n_id n ∈ ids_to_remove nodes)) = true) as Hk.
  { intros n Hn He. apply negb_true_iff, bool_decide_eq_false. unfold ids_to_remove.
    rewrite elem_of_list_to_set, list_elem_of_fmap. intros (m & E & [Hr Hm]%elem_of_list_filter_bool).
    assert (n = m) as -> by (by apply unique_node). apply to_remove_container in Hr. congruence. }
  clear Hok. revert Hk. generalize (ids_to_remove nodes). intros ids.
  induction nodes as [|n l IH]; intros Hk; [done|]. simpl. assert (List.filter is_element
    (List.filter (λ n, negb (bool_decide (n_id n ∈ ids))) l) = List.filter is_element l) as IH'.
  { apply IH. intros m Hm. apply Hk. by right. }
  destruct (is_element n) eqn:He.
  - rewrite (Hk n) by (done || left). simpl. by rewrite He, IH'.
  - destruct (negb _); simpl; [by rewrite He|done].
Qed.
End Prune.

(** ** Ids of the elements *)

Lemma sublist_elem {A} (l1 l2 : list A) x : l1 `sublist_of` l2 → x ∈ l1 → x ∈ l2.
Proof. induction 1; rewrite ?elem_of_cons; naive_solver. Qed.

Section Grouped.
Context `{MapOrder} {A : Type} (key : A → option Uuid) (f : A → Uuid) (l : list A).

Definition grouped : gmap Uuid (list Uuid) :=
  (fmap f : list A → list Uuid) <$> (group_by key l : gmap Uuid (list A)).

Lemma grouped_elem k v id :
  grouped !! k = Some v → id ∈ v ↔ ∃ x, x ∈ l ∧ f x = id ∧ key x = Some k.
Proof.
  unfold grouped. rewrite lookup_fmap, fmap_Some. intros (g & [-> _]%group_by_Some & ->).
  rewrite list_elem_of_fmap. setoid_rewrite elem_of_list_filter_bool. unfold has_key.
  setoid_rewrite bool_decide_eq_true. naive_solver.
Qed.

Lemma grouped_has x k : x ∈ l → key x = Some k → ∃ v, grouped !! k = Some v ∧ f x ∈ v.
Proof.
  intros Hx Hk. destruct (group_by_elem key l x k Hx Hk) as (g & Hg & Hin). exists (f <$> g). unfold grouped.
  rewrite lookup_fmap, Hg. split; [done|]. by apply list_elem_of_fmap_2.
Qed.

(** What is taken from the groups, at most once each, has no repetition. *)
Lemma grouped_NoDup (sel : Uuid → list Uuid → list Uuid) :
  NoDup (f <$> l) → (∀ k v, sel k v `sublist_of` v) → NoDup (map_iter grouped ≫= λ kv, sel kv.1 kv.2).
Proof.
  intros Hnd Hsel.
  assert (∀ k v id, id ∈ sel k v → id ∈ v) as Hin.
  { intros k v id Hid. eapply sublist_elem; [apply Hsel|exact Hid]. }
  apply NoDup_bind.
  - intros [k v] [k' v'] id Hk%elem_of_map_iter Hk'%elem_of_map_iter Hi%Hin Hi'%Hin.
    apply (grouped_elem _ _ _ Hk) in Hi as (x & Hx & <- & Ex). apply (grouped_elem _ _ _ Hk') in Hi' as (y & Hy & E & Ey).
    assert (y = x) as -> by (by eapply (NoDup_key_inj f)). congruence.
  - intros [k v] Hk%elem_of_map_iter. eapply sublist_NoDup; [|apply Hsel]. unfold grouped in Hk.
    rewrite lookup_fmap, fmap_Some in Hk. destruct Hk as (g & [-> _]%group_by_Some & ->).
    eapply sublist_NoDup; [exact Hnd|]. apply sublist_fmap_of, filter_bool_sublist.
  - eapply NoDup_fmap_1, NoDup_map_iter.
Qed.
End Grouped.

(** Ids of hosts and services are unique, and no derived id is one of them. *)
Record rows_ok `{UuidLib} (ctx : TopologyContext) : Prop := {
  ro_ids : NoDup ((h_id <$> c_hosts ctx) ++ (sv_id <$> c_services ctx));
  ro_derived : ∀ n s, new_v5 n s ∉ (h_id <$> c_hosts ctx) ++ (sv_id <$> c_services ctx)
}.

Lemma omap_sublist {B} (g : Uuid → option B) (f : B → Uuid) l :
  (∀ x y, g x = Some y → f y = x) → f <$> omap g l `sublist_of` l.
Proof.
  intros Hg. induction l as [|x l IH]; csimpl; [constructor|]. destruct (g x) as [y|] eqn:E; csimpl.
  - rewrite (Hg _ _ E). by constructor.
  - by constructor.
Qed.

Section Elements.
Context `{UuidLib, MapOrder} (registry : list ServiceDefinition) (ctx : TopologyContext) (Hro : rows_ok ctx).

Lemma hosts_NoDup : NoDup (h_id <$> c_hosts ctx).
Proof. by destruct (proj1 (list.NoDup_app _ _) (ro_ids _ Hro)). Qed.
Lemma services_NoDup : NoDup (sv_id <$> c_services ctx).
Proof. by destruct (proj1 (list.NoDup_app _ _) (ro_ids _ Hro)) as (_ & _ & ?). Qed.
Lemma host_not_service id : id ∈ h_id <$> c_hosts ctx → id ∈ sv_id <$> c_services ctx → False.
Proof. destruct (proj1 (list.NoDup_app _ _) (ro_ids _ Hro)) as (_ & Hsep & _). apply Hsep. Qed.

Definition vm_ids (virt : Uuid) (vms : list Uuid) : list Uuid :=
  match service_lookup ctx !! virt with
  | None => []
  | Some _ => List.filter (λ vm, bool_decide (is_Some (host_lookup ctx !! vm))) vms
  end.
Definition container_ids (virt : Uuid) (svcs : list Uuid) : list Uuid :=
  match s ← service_lookup ctx !! virt; box_for_host ctx (sv_host_id (sv_base s)) with
  | None => []
  | Some _ => List.filter (λ id, bool_decide (is_Some (service_lookup ctx !! id))) svcs
  end.

Lemma vm_elements_ids : n_id <$> vm_elements ctx = map_iter (virt_to_vm_hosts ctx) ≫= λ kv, vm_ids kv.1 kv.2.
Proof.
  unfold vm_elements. rewrite fmap_bind_list. apply list_bind_ext; [|done]. intros [virt vms]. cbn.
  unfold vm_ids. destruct (service_lookup ctx !! virt); [|done].
  induction vms as [|vm vms IH]; [done|]. csimpl. destruct (host_lookup ctx !! vm); csimpl.
  - by rewrite ?bool_decide_true, ?IH by eauto.
  - by rewrite ?bool_decide_false by (by intros []).
Qed.

Lemma container_elements_ids :
  n_id <$> container_elements ctx = map_iter (virt_to_container_svcs ctx) ≫= λ kv, container_ids kv.1 kv.2.
Proof.
  unfold container_elements. rewrite fmap_bind_list. apply list_bind_ext; [|done]. intros [virt svcs]. cbn.
  unfold container_ids. destruct (_ ≫= _) as [box|]; [|done].
  induction svcs as [|id svcs IH]; [done|]. csimpl. destruct (service_lookup ctx !! id) as [s|] eqn:E; csimpl.
  - apply lookup_by_elem in E as [_ ->]. by rewrite ?bool_decide_true, ?IH by eauto.
  - by rewrite ?bool_decide_false by (by intros []).
Qed.

Lemma vm_elements_NoDup : NoDup (n_id <$> vm_elements ctx).
Proof.
  rewrite vm_elements_ids. apply (grouped_NoDup (λ h, h_virtualization_service_id (h_base h)) h_id); [apply hosts_NoDup|].
  intros k v. unfold vm_ids. destruct (service_lookup ctx !! k); [apply filter_bool_sublist|apply sublist_nil_l].
Qed.
Lemma container_elements_NoDup : NoDup (n_id <$> container_elements ctx).
Proof.
  rewrite container_elements_ids.
  apply (grouped_NoDup (λ s, virtualization_service_id (sv_base s)) sv_id); [apply services_NoDup|].
  intros k v. unfold container_ids. destruct (_ ≫= _); [apply filter_bool_sublist|apply sublist_nil_l].
Qed.

Lemma vm_elements_host id : id ∈ n_id <$> vm_elements ctx → id ∈ h_id <$> c_hosts ctx.
Proof.
  rewrite vm_elements_ids. intros ([k v] & Hid & Hk%elem_of_map_iter)%list_elem_of_bind. cbn in Hid. unfold vm_ids in Hid.
  destruct (service_lookup ctx !! k); [|by apply elem_of_nil in Hid].
  apply elem_of_list_filter_bool in Hid as [_ Hid].
  apply (grouped_elem (λ h, h_virtualization_service_id (h_base h)) h_id _ _ _ _ Hk) in Hid as (h & Hh & <- & _).
  by apply list_elem_of_fmap_2.
Qed.
Lemma container_elements_service id :
  id ∈ n_id <$> container_elements ctx → id ∈ sv_id <$> c_services ctx ∧ id ∈ managed_service_ids ctx.
Proof.
  rewrite container_elements_ids. intros ([k v] & Hid & Hk)%list_elem_of_bind. cbn in Hid. unfold container_ids in Hid.
  destruct (_ ≫= _); [|by apply elem_of_nil in Hid].
  apply elem_of_list_filter_bool in Hid as [_ Hid]. split.
  - apply elem_of_map_iter in Hk.
    apply (grouped_elem (λ s, virtualization_service_id (sv_base s)) sv_id _ _ _ _ Hk) in Hid as (s & Hs & <- & _).
    by apply list_elem_of_fmap_2.
  - apply elem_of_list_to_set, list_elem_of_join. exists v. split; [done|]. by apply (list_elem_of_fmap_2 snd) in Hk.
Qed.

Lemma plain_element_id s n : plain_element registry ctx s = Some n → n_id n = sv_id s ∧ sv_id s ∉ managed_service_ids ctx.
Proof.
  unfold plain_element. destruct (bool_decide (sv_id s ∈ virtualizer_service_ids registry ctx)); [done|].
  destruct (bool_decide (sv_id s ∈ managed_service_ids ctx)) eqn:E; [done|]. apply bool_decide_eq_false in E.
  simpl. do 2 (destruct (bool_decide _); [done|]). by intros (box & _ & [= <-])%bind_Some.
Qed.

Lemma plain_elements_sublist :
  n_id <$> omap (plain_element registry ctx) (c_services ctx) `sublist_of` sv_id <$> c_services ctx.
Proof.
  induction (c_services ctx) as [|s l IH]; csimpl; [constructor|].
  destruct (plain_element registry ctx s) as [n|] eqn:E; csimpl; [|by constructor].
  apply plain_element_id in E as [-> _]. by constructor.
Qed.
End Elements.

Lemma wl_host_containers_elem `{UuidLib} ctx n :
  n ∈ wl_host_containers ctx → ∃ h, h ∈ c_hosts ctx ∧ n = wl_host_container h.
Proof. intros (h & -> & [_ Hh]%elem_of_list_filter_bool)%list_elem_of_fmap. eauto. Qed.

Section Ids.
Context `{UuidLaws} `{MapOrder} (registry : list ServiceDefinition) (ctx : TopologyContext) (Hro : rows_ok ctx).

Lemma wl_container_inj a b : wl_container_id_for_host a = wl_container_id_for_host b → a = b.
Proof.
  intros [_ E]%new_v5_inj. apply (inj (String.append _)) in E. by apply uuid_text_inj.
Qed.

Lemma wl_nodes_NoDup : NoDup (n_id <$> wl_nodes registry ctx).
Proof.
  unfold wl_nodes. rewrite !fmap_app.
  assert (∀ id, id ∈ n_id <$> wl_host_containers ctx → id ∉ (h_id <$> c_hosts ctx) ++ (sv_id <$> c_services ctx)) as Hbox.
  { intros id (n & -> & (h & _ & ->)%wl_host_containers_elem)%list_elem_of_fmap. apply (ro_derived _ Hro). }
  assert (∀ id, id ∈ n_id <$> omap (plain_element registry ctx) (c_services ctx) → id ∈ sv_id <$> c_services ctx) as Hpl.
  { intros id. apply sublist_elem, plain_elements_sublist. }
  apply list.NoDup_app. split_and!.
  - unfold wl_host_containers. rewrite <- list_fmap_compose. eapply NoDup_fmap_2_strong.
    + intros h h' [_ Hh]%elem_of_list_filter_bool [_ Hh']%elem_of_list_filter_bool E%wl_container_inj.
      by eapply (NoDup_key_inj h_id); [apply hosts_NoDup|..].
    + eapply sublist_NoDup; [eapply NoDup_fmap_1, (hosts_NoDup ctx Hro)|apply filter_bool_sublist].
  - intros id Hid%Hbox Hin. apply Hid. rewrite !elem_of_app in *. destruct Hin as [Hv|[Hc|Hp]].
    + left. by apply vm_elements_host.
    + right. by apply container_elements_service.
    + right. by apply Hpl.
  - apply list.NoDup_app. split_and!; [by apply vm_elements_NoDup| |].
    + intros id Hv%vm_elements_host. rewrite elem_of_app.
      intros [[Hc _]%container_elements_service|Hp%Hpl]; by eapply host_not_service.
    + apply list.NoDup_app. split_and!; [by apply container_elements_NoDup| |].
      * intros id [_ Hm]%container_elements_service (n & -> & (s & _ & [E Hnm]%plain_element_id)%list_elem_of_omap)%list_elem_of_fmap.
        congruence.
      * eapply sublist_NoDup; [apply (services_NoDup ctx Hro)|apply plain_elements_sublist].
Qed.
End Ids.

(** ** Boxes the rules add *)

Section RuleBoxes.
Context `{UuidLib, MapOrder}.

(** A subcontainer is in a container that has elements, and is no host's box. *)
Definition sub_shape (ctx : PlacementContext) (n : Node) : Prop :=
  (∃ p ids, pc_elements ctx !! p = Some ids ∧ parent_of n = Some p) ∧ is_host_container n = false.

Lemma matching_groups_shape ctx test mk :
  (∀ p, parent_of (mk p) = Some p ∧ is_host_container (mk p) = false) →
  ∀ g, g ∈ matching_groups ctx test mk → sub_shape ctx (g_node g).
Proof. intros Hmk g (p & ids & Hp & -> & _)%matching_groups_elem. destruct (Hmk p). split; eauto. Qed.

Lemma keyed_groups_shape {K} `{Countable K} ctx (key : ElementMatchData → option K) mk :
  (∀ p k ids n b, mk p k ids = Some (n, b) → parent_of n = Some p ∧ is_host_container n = false) →
  ∀ g, g ∈ keyed_groups ctx key mk → sub_shape ctx (g_node g).
Proof.
  intros Hmk g ([p ids] & ([k l] & Hg & _)%list_elem_of_bind & Hp%elem_of_map_iter)%list_elem_of_bind.
  destruct (mk p k l) as [[n b]|] eqn:E; [|by apply elem_of_nil in Hg].
  apply list_elem_of_singleton in Hg as ->. destruct (Hmk _ _ _ _ _ E). split; eauto.
Qed.

Lemma rule_groups_shape ctx r g : g ∈ rule_groups ctx r → sub_shape ctx (g_node g).
Proof.
  destruct r; cbn [rule_groups].
  1, 2, 6: by apply matching_groups_shape.
  1, 2: (apply keyed_groups_shape; intros p k ids n b; destruct (virtualizer_skipped ctx k); [done|]; by intros [= <- _]).
  all: apply keyed_groups_shape; by intros p k ids n b [= <- _].
Qed.

Context (nodes : list Node) (resolve : Node → option ElementMatchData) (titles : option (gmap Uuid string))
        (inline : option InlineContext).

Lemma apply_rules_sub rules sub :
  sub ∈ rs_containers (apply_rules nodes resolve titles inline rules) →
  (∃ n p, n ∈ nodes ∧ element_container n = Some p ∧ parent_of sub = Some p) ∧ is_host_container sub = false.
Proof.
  unfold apply_rules. induction rules as [|r rules IH] using rev_ind; [by intros ?%elem_of_nil|].
  rewrite foldl_app. cbn [foldl]. set (s := foldl _ _ rules). unfold apply_rule. cbn [rs_containers].
  rewrite compute_containers, elem_of_app. intros [Hs|(g & -> & Hg)%list_elem_of_fmap]; [by apply IH|].
  apply rule_groups_shape in Hg as [(p & ids & Hp & Hpar) Hh]. split; [|done]. cbn in Hp.
  apply elements_by_container_spec in Hp as [Hids Hne].
  destruct (List.filter (has_key element_container p) nodes) as [|n l] eqn:E; [by subst|].
  assert (n ∈ List.filter (has_key element_container p) nodes) as Hn by (rewrite E; left).
  apply elem_of_list_filter_bool in Hn as [Hk Hn]. unfold has_key in Hk. apply bool_decide_eq_true in Hk. eauto.
Qed.
End RuleBoxes.

Lemma apply_element_rules_split `{UuidLib, MapOrder} nodes resolve titles inline rules :
  ∃ reassign, (apply_element_rules nodes resolve titles inline rules).1
    = (move reassign <$> nodes) ++ rs_containers (apply_rules nodes resolve titles inline rules).
Proof.
  destruct rules as [|r rules]; [|by eexists]. exists ∅. cbn. rewrite app_nil_r. symmetry.
  rewrite <- (list_fmap_id nodes) at 2. apply list_fmap_ext. intros i n _. unfold move.
  destruct n as [? [] ?]; [done|]. cbn. rewrite lookup_empty. by destruct e.
Qed.

(** A change of nodes that keeps the tree. *)
Lemma nested_once_fmap nodes nodes' :
  nested_once nodes → (λ n, (n_id n, parent_of n, is_host_container n)) <$> nodes'
                      `sublist_of` (λ n, (n_id n, parent_of n, is_host_container n)) <$> nodes →
  nested_once nodes'.
Proof.
  intros Hok Hsub. assert (∀ n', n' ∈ nodes' → ∃ n, n ∈ nodes ∧ n_id n = n_id n' ∧ parent_of n = parent_of n'
                            ∧ is_host_container n = is_host_container n') as Hmap.
  { intros n' Hn'. apply (list_elem_of_fmap_2 (λ n, (n_id n, parent_of n, is_host_container n))) in Hn'.
    apply (sublist_elem _ _ _ Hsub), list_elem_of_fmap in Hn' as (n & [= E1 E2 E3] & Hn). eauto 10. }
  split.
  - eapply sublist_NoDup; [apply (no_ids _ Hok)|].
    apply (sublist_fmap_of (λ x : Uuid * option Uuid * bool, x.1.1)) in Hsub. by rewrite <- !list_fmap_compose in Hsub.
  - intros c q (c0 & Hc & Ec & Ep & _)%Hmap (q0 & Hq & Eq & Epq & _)%Hmap Hp. rewrite <- Epq.
    apply (no_depth _ Hok c0 q0); congruence.
  - intros c (c0 & Hc & Ec & Ep & Eh)%Hmap Hh. rewrite <- Ep. apply (no_host_top _ Hok c0); congruence.
Qed.

Lemma attach_inline_tree node g nodes :
  (λ n, (n_id n, parent_of n, is_host_container n)) <$> attach_inline node g nodes
  = (λ n, (n_id n, parent_of n, is_host_container n)) <$> nodes.
Proof.
  induction nodes as [|n nodes IH]; [done|]. simpl. destruct (n_id n =? node)%N; csimpl; [|by rewrite IH].
  f_equal. unfold add_inline_group, parent_of, is_host_container. by destruct n as [? [] ?].
Qed.

Lemma inline_elements_tree placements nodes `{MapOrder} :
  (λ n, (n_id n, parent_of n, is_host_container n)) <$> inline_elements placements nodes
  `sublist_of` (λ n, (n_id n, parent_of n, is_host_container n)) <$> nodes.
Proof.
  unfold inline_elements. assert (∀ ds l, (λ n, (n_id n, parent_of n, is_host_container n)) <$> foldl attach_decision l ds
    = (λ n, (n_id n, parent_of n, is_host_container n)) <$> l) as Hd.
  { induction ds as [|d ds IH]; intros l; [done|]. cbn [foldl]. rewrite IH. destruct d as [| | |? [g|]]; try done.
    apply attach_inline_tree. }
  rewrite Hd. apply sublist_fmap_of, filter_bool_sublist.
Qed.

(** ** The tree of the view *)

Section Tree.
Context `{UuidLaws} `{MapOrder} (registry : list ServiceDefinition) (ctx : TopologyContext) (g : GroupingConfig).
Context (Hro : rows_ok ctx) (Hrules : NoDup (rule_id <$> element_rules g))
        (Hstack : (length (List.filter is_stack_rule (element_rules g)) ≤ 1)%nat).

Lemma wl_name_fresh r id h : name_of_rule r id → id ≠ wl_container_id_for_host h.
Proof.
  intros Hn E. subst id.
  assert (∀ p s, new_v5 NAMESPACE_OID ("workloads:host:" +:+ uuid_text h)
                 ≠ new_v5 NAMESPACE_OID (uuid_text p +:+ ":" +:+ s)) as Hg.
  { intros p s [_ E]%new_v5_inj. pose proof (uuid_text_chars p) as Hp.
    destruct (uuid_text p) as [|c t]; rewrite ?append_nil, ?append_cons in E; [done|].
    injection E as <- _. by vm_compute in Hp. }
  unfold name_of_rule in Hn. destruct (rule r); destruct Hn as (p & s & Hn); try (destruct Hn as [_ Hn]; by eapply Hg).
  by apply new_v5_inj in Hn as [_ E].
Qed.

Lemma name_derived r id : name_of_rule r id → ∃ s, id = new_v5 NAMESPACE_OID s.
Proof. unfold name_of_rule. destruct (rule r); naive_solver. Qed.

Lemma box_for_host_box host box : box_for_host ctx host = Some box → ∃ h, box = wl_container_id_for_host h.
Proof.
  unfold box_for_host. destruct (is_vm ctx host); [|intros [= <-]; eauto]. intros (h & _ & ->)%fmap_Some. eauto.
Qed.

(** Before the rules every element is in the box of some host. *)
Lemma wl_nodes_container n p :
  n ∈ wl_nodes registry ctx → element_container n = Some p → ∃ h, p = wl_container_id_for_host h.
Proof.
  unfold wl_nodes. rewrite !elem_of_app. intros [Hn|[Hn|[Hn|Hn]]] Hp.
  - apply wl_host_containers_elem in Hn as (h & _ & ->). done.
  - apply list_elem_of_bind in Hn as ([virt vms] & Hn & _).
    destruct (service_lookup ctx !! virt); [|by apply elem_of_nil in Hn].
    apply list_elem_of_omap in Hn as (vm & _ & (h & _ & [= <-])%bind_Some). injection Hp as <-. eauto.
  - apply list_elem_of_bind in Hn as ([virt svcs] & Hn & _).
    destruct (_ ≫= _) as [box|] eqn:E; [|by apply elem_of_nil in Hn].
    apply list_elem_of_omap in Hn as (id & _ & (s & _ & ->)%fmap_Some). injection Hp as <-.
    apply bind_Some in E as (v & _ & E). by apply box_for_host_box in E.
  - apply list_elem_of_omap in Hn as (s & _ & E). unfold plain_element in E.
    do 3 (destruct (_ : bool); [done|]). apply bind_Some in E as (box & Hb & [= <-]). injection Hp as <-.
    by apply box_for_host_box in Hb.
Qed.

Lemma wl_nodes_parent n : n ∈ wl_nodes registry ctx → parent_of n = None.
Proof.
  destruct (element_container n) as [p|] eqn:E.
  - unfold parent_of, element_container in *. by destruct (node_type n).
  - unfold wl_nodes. rewrite !elem_of_app. intros [Hn|[Hn|[Hn|Hn]]].
    + apply wl_host_containers_elem in Hn as (h & _ & ->). done.
    + apply list_elem_of_bind in Hn as ([virt vms] & Hn & _).
      destruct (service_lookup ctx !! virt); [|by apply elem_of_nil in Hn].
      by apply list_elem_of_omap in Hn as (vm & _ & (h & _ & [= <-])%bind_Some).
    + apply list_elem_of_bind in Hn as ([virt svcs] & Hn & _).
      destruct (_ ≫= _) as [box|]; [|by apply elem_of_nil in Hn].
      by apply list_elem_of_omap in Hn as (id & _ & (s & _ & ->)%fmap_Some).
    + apply list_elem_of_omap in Hn as (s & _ & E'). unfold plain_element in E'.
      do 3 (destruct (_ : bool); [done|]). by apply bind_Some in E' as (box & Hb & [= <-]).
Qed.

(** Every id is derived for a host's box or is a row's. *)
Lemma wl_nodes_id n :
  n ∈ wl_nodes registry ctx →
  (∃ h, n_id n = wl_container_id_for_host h) ∨ n_id n ∈ (h_id <$> c_hosts ctx) ++ (sv_id <$> c_services ctx).
Proof.
  intros Hn%(list_elem_of_fmap_2 n_id). unfold wl_nodes in Hn. rewrite !fmap_app, !elem_of_app in Hn.
  destruct Hn as [(m & -> & (h & _ & ->)%wl_host_containers_elem)%list_elem_of_fmap|[Hn|[Hn|Hn]]].
  - left. by exists (h_id h).
  - right. apply elem_of_app. left. by apply vm_elements_host.
  - right. apply elem_of_app. right. by apply container_elements_service.
  - right. apply elem_of_app. right. eapply sublist_elem; [apply plain_elements_sublist|exact Hn].
Qed.

Lemma move_host_container r n : is_host_container (move r n) = is_host_container n.
Proof. unfold move, is_host_container. by destruct n as [? [] ?]. Qed.

Lemma wl_ruled_nested : nested_once (wl_ruled registry ctx g).1.
Proof.
  unfold wl_ruled. set (res := wl_resolve registry ctx). set (ti := Some (build_virtualizer_titles registry ctx)).
  set (il := Some (inline_ctx ctx)).
  destruct (apply_element_rules_split (wl_nodes registry ctx) res ti il (element_rules g)) as (reassign & ->).
  pose proof (apply_rules_sub (wl_nodes registry ctx) res ti il (element_rules g)) as Hsub.
  destruct (subcontainers_distinct (wl_nodes registry ctx) res ti il _ Hrules Hstack) as [Hnd Hname].
  set (subs := rs_containers _) in *. split.
  - rewrite fmap_app. apply list.NoDup_app. split_and!; [| |done].
    + rewrite <- list_fmap_compose. erewrite list_fmap_ext; [by apply (wl_nodes_NoDup registry ctx Hro)|].
      intros i n _. apply move_id.
    + intros id (n & -> & (m & -> & Hm)%list_elem_of_fmap)%list_elem_of_fmap (sub & E & Hs)%list_elem_of_fmap.
      destruct (Hname sub Hs) as (r & _ & Hr). rewrite move_id in E.
      destruct (wl_nodes_id m Hm) as [[h Eh]|Hrow].
      * rewrite Eh in E. by apply (wl_name_fresh r _ h Hr).
      * apply name_derived in Hr as [s Es]. apply (ro_derived _ Hro NAMESPACE_OID s). by rewrite <- Es, <- E.
  - intros c q [(m & -> & Hm)%list_elem_of_fmap|Hc]%elem_of_app Hq Hp.
    { rewrite move_parent, wl_nodes_parent in Hp by done. done. }
    apply elem_of_app in Hq as [(m & -> & Hm)%list_elem_of_fmap|Hq]; [by rewrite move_parent, wl_nodes_parent|].
    destruct (Hsub c Hc) as [(n & p & Hn & Hcont & Hpar) _]. rewrite Hpar in Hp. injection Hp as ->.
    destruct (wl_nodes_container n _ Hn Hcont) as [h Eh]. destruct (Hname q Hq) as (r & _ & Hr).
    exfalso. by apply (wl_name_fresh r _ h Hr).
  - intros c [(m & -> & Hm)%list_elem_of_fmap|Hc]%elem_of_app Hh; [by rewrite move_parent, wl_nodes_parent|].
    destruct (Hsub c Hc) as [_ Hnh]. congruence.
Qed.

Lemma wl_shown_nested : nested_once (inline_elements (wl_ruled registry ctx g).2 (wl_ruled registry ctx g).1).
Proof. eapply nested_once_fmap; [apply wl_ruled_nested|apply inline_elements_tree]. Qed.
End Tree.

(** The boxes of the workloads view are exactly those in use: every node has an id of
    its own, a box in a box is in no further one, so that the climb to a host's box
    ends; every element that is not shown on another node stays, with its box; and the
    box of a host is there exactly when an element ends in it. *)
Theorem workloads_boxes `{UuidLaws} `{MapOrder} registry ctx g :
  rows_ok ctx → NoDup (rule_id <$> element_rules g) →
  (length (List.filter is_stack_rule (element_rules g)) ≤ 1)%nat →
  let shown := inline_elements (wl_ruled registry ctx g).2 (wl_ruled registry ctx g).1 in
  let nodes := (wl_build registry ctx g).1 in
  NoDup (n_id <$> nodes)
  ∧ (∀ stop c, is_Some (climb (fuel shown) (container_parents shown) stop c))
  ∧ List.filter is_element nodes = List.filter is_element shown
  ∧ (∀ n q, n ∈ nodes → q ∈ shown → element_container n = Some (n_id q) → q ∈ nodes)
  ∧ ∀ b, b ∈ shown → is_host_container b = true → b ∈ nodes ↔ ∃ n, n ∈ nodes ∧ root_box shown n = Some (n_id b).
Proof.
  intros Hro Hrules Hstack shown nodes.
  pose proof (wl_shown_nested registry ctx g Hro Hrules Hstack) as Hok. fold shown in Hok.
  assert (nodes = pruned shown) as E.
  { unfold nodes, wl_build, shown. by destruct (wl_ruled registry ctx g). }
  rewrite E. split_and!.
  - eapply sublist_NoDup; [apply (no_ids _ Hok)|]. apply sublist_fmap_of, filter_bool_sublist.
  - intros stop c. unfold fuel. rewrite climb_two by done. eauto.
  - by apply pruned_elements.
  - intros n q [Hn _]%elem_of_pruned Hq Hc; [|done]. apply elem_of_pruned; [done|]. split; [done|].
    exact (element_box_kept shown Hok n q Hn Hq Hc).
  - intros b Hb Hh. rewrite elem_of_pruned, to_remove_host, negb_false_iff, bool_decide_eq_true, occupied_elem by done.
    split.
    + intros [_ (n & Hn & Hr)]. exists n. split; [|done]. apply elem_of_pruned; [done|]. split; [done|].
      apply not_true_iff_false. intros He%to_remove_container. unfold root_box in Hr.
      apply bind_Some in Hr as (c & Hc & _). apply element_container_is_element in Hc. congruence.
    + intros (n & [Hn _]%elem_of_pruned & Hr); [|done]. split; [done|]. eauto.
Qed.

(** ** Samples *)

Definition vm_grouping : GroupingConfig := {| container_rules := []; element_rules := vm_rules |}.

Lemma workloads_boxes_witness : NoDup (n_id <$> (wl_build sample_registry (vm_network vm_rules 1%N []) vm_grouping).1).
Proof.
  apply (workloads_boxes sample_registry (vm_network vm_rules 1%N []) vm_grouping).
  - split; [by_evaluation|]. intros n s. by apply derived_not_odd.
  - by_evaluation.
  - simpl. lia.
Defined.

(** A virtual machine whose hypervisor is a service on a virtual machine is an element
    of a box that is no node. *)
Theorem workloads_nested_vm :
  ∃ ctx n c, n ∈ (wl_build sample_registry ctx vm_grouping).1 ∧ element_container n = Some c
    ∧ c ∉ n_id <$> (wl_build sample_registry ctx vm_grouping).1.
Proof.
  exists (vm_network vm_rules 3%N []),
    (node_element 3%N (wl_container_id_for_host 3%N) 3%N El_Host (Some "host"%string)), (wl_container_id_for_host 3%N).
  split_and!; [|done|by_evaluation].
  vm_compute. left.
Qed.

(** A subcontainer whose elements are all shown on their machine stays, empty: the
    category rule claims the services of a machine before the hypervisor rule moves
    them onto it. *)
Theorem workloads_empty_group :
  ∃ ctx g n p, n ∈ (wl_build sample_registry ctx g).1 ∧ parent_of n = Some p
    ∧ Forall (λ m, element_container m ≠ Some (n_id n)) (wl_build sample_registry ctx g).1.
Proof.
  set (rules := {| rule_id := 97%N; rule := ByServiceCategory [Database] None false |} :: vm_rules).
  set (p := wl_container_id_for_host 1%N).
  exists (vm_network rules 1%N []), {| container_rules := []; element_rules := rules |},
    (subcontainer (new_v5 NAMESPACE_OID (uuid_text p +:+ ":" +:+ uuid_text 97%N)) CT_NestedServiceCategory p 97%N None false None), p.
  split_and!; [|done|by_evaluation]. vm_compute. right. right. left.
Qed.

Definition two_service_path (m : DependencyMembers) : Dependency :=
  {| d_id := 61%N; d_network_id := 1%N; dep_name := "path"; dependency_type := RequestPath; members := m |}.

(** A path between two services that are shown on one machine is an edge from the
    machine to itself when the members are services, and none when they are bindings. *)
Theorem workloads_self_edge :
  ∃ ctx ctx' e, c_dependencies ctx = [two_service_path (DepServices [33%N; 35%N])]
    ∧ c_dependencies ctx' = [two_service_path (DepBindings [41%N; 43%N])]
    ∧ e ∈ (wl_build sample_registry ctx vm_grouping).2 ∧ e_source e = e_target e
    ∧ (wl_build sample_registry ctx' vm_grouping).2 = [].
Proof.
  exists (vm_network vm_rules 1%N [two_service_path (DepServices [33%N; 35%N])]),
    (vm_network vm_rules 1%N [two_service_path (DepBindings [41%N; 43%N])]),
    (service_dependency_edge (two_service_path (DepServices [33%N; 35%N])) (3%N, 3%N)).
  split_and!; [done|done|vm_compute; left|done|by vm_compute].
Qed.
