(* ===== verification/Graph.v ===== *)
(** The topology of a network: from rows to the graph of every view.

    [server/topology/service/view.rs] and the pipeline of
    [server/topology/service/main.rs].  The rows of a network and the live tags
    are what the storage answered; the previous graph, which the code no longer
    uses, is left out. *)

From S2P Require Import Prelude Net Ports Position Entities ServiceIdentity Patterns Services Hosts HostMatch Locks Lldp Interfaces Subnets Topology ElementRules EdgeBuilder L2Builder L3Builder ApplicationBuilder WorkloadsBuilder.
Local Open Scope Z_scope.

Definition with_view (v : TopologyView) (ctx : TopologyContext) : TopologyContext := {|
  c_hosts := c_hosts ctx; c_ip_addresses := c_ip_addresses ctx; c_subnets := c_subnets ctx;
  c_services := c_services ctx; c_dependencies := c_dependencies ctx; c_interfaces := c_interfaces ctx;
  c_tags := c_tags ctx; c_vlans := c_vlans ctx; c_request := c_request ctx; c_view := v |}.
Definition with_tags (tags : list TagRow) (ctx : TopologyContext) : TopologyContext := {|
  c_hosts := c_hosts ctx; c_ip_addresses := c_ip_addresses ctx; c_subnets := c_subnets ctx;
  c_services := c_services ctx; c_dependencies := c_dependencies ctx; c_interfaces := c_interfaces ctx;
  c_tags := tags; c_vlans := c_vlans ctx; c_request := c_request ctx; c_view := c_view ctx |}.

(** ** Tags *)

(** The live tags of some ids. *)
Definition tags_by_ids (live_tags : list TagRow) (ids : list Uuid) : list TagRow :=
  List.filter (λ t, bool_decide (tag_id t ∈ ids)) live_tags.

Definition get_entity_tags (live_tags : list TagRow) (ctx : TopologyContext) : list TagRow :=
  let ids := (c_hosts ctx ≫= λ h, h_tags (h_base h)) ++ (c_services ctx ≫= λ s, sv_tags (sv_base s))
             ++ (c_subnets ctx ≫= λ s, s_tags (s_base s)) in
  match dedup N.eqb (sort_by N.leb ids) with [] => [] | ids => tags_by_ids live_tags ids end.

Definition rule_tag_ids (o : TopologyRequestOptions) : list Uuid :=
  (request_element_rules o ≫= λ r, match rule r with ByTag tags _ => tags | _ => [] end)
  ++ (all_views ≫= λ v, view_container_rules o v ≫= λ r, match rule r with ByApplication tags => tags | _ => [] end).

(** [augment_grouping_rule_tags]. *)
Definition augment_grouping_rule_tags (live_tags : list TagRow) (ctx : TopologyContext) : TopologyContext :=
  let present := tag_id <$> c_tags ctx in
  let missing := List.filter (λ id, negb (bool_decide (id ∈ present))) (rule_tag_ids (c_request ctx)) in
  match dedup N.eqb (sort_by N.leb missing) with
  | [] => ctx
  | missing => with_tags (c_tags ctx ++ tags_by_ids live_tags missing) ctx
  end.

(** ** Views that have data *)

Definition view_support (ctx : TopologyContext) : TopologyViewSupport := {|
  sup_l2_physical := existsb has_neighbor (c_interfaces ctx);
  sup_application := existsb is_application (c_tags ctx) |}.
Definition available_views (ctx : TopologyContext) : list TopologyView :=
  List.filter (is_supported (view_support ctx)) all_views.

(** ** Graphs *)

Section Graph.
Context `{UuidLib, MapOrder} (registry : list ServiceDefinition) (cidr_text : IpCidr → string).

(** [builder_for_view], then [build]. *)
Definition build_view (v : TopologyView) (ctx : TopologyContext) (g : GroupingConfig) : list Node * list Edge :=
  match v with
  | L3Logical => l3_build registry cidr_text ctx g
  | ApplicationView => app_build registry ctx g
  | Workloads => wl_build registry ctx g
  | L2Physical => l2_build ctx g
  end.

(** What the view makes of an edge, and its identity across views. *)
Definition configure_edge (v : TopologyView) (e : Edge) : Edge := {|
  e_source := e_source e; e_target := e_target e; edge_type := edge_type e; label := label e;
  is_multi_hop := is_multi_hop e;
  view_config := edge_view_config v (edge_discriminant (edge_type e));
  relation := relation_key (edge_type e) |}.

Definition build_graph (ctx : TopologyContext) (v : TopologyView) : list Node * list Edge :=
  let g := from_request_options (c_request ctx) v in
  let '(nodes, edges) := build_view v (with_view v ctx) g in
  (nodes, add_edges_to_graph (n_id <$> nodes) (configure_edge v <$> edges)).

Definition build_all_view_graphs (ctx : TopologyContext) : list (TopologyView * (list Node * list Edge)) :=
  (λ v, (v, build_graph ctx v)) <$> all_views.

(** [get_topology_render_data], from the rows that were read. *)
Definition get_topology_render_data (live_tags : list TagRow) (rows : TopologyContext)
    : list TopologyView * TopologyContext * list (TopologyView * (list Node * list Edge)) :=
  let data := with_tags (get_entity_tags live_tags rows) rows in
  let views := available_views data in
  let data := apply_server_metadata_filters registry (augment_grouping_rule_tags live_tags data) in
  (views, data, build_all_view_graphs data).
End Graph.
