(* ===== verification/GraphThms.v ===== *)
(** What the graphs of a topology guarantee.

    Theorems on [Graph] and the metadata filters of [Topology]: the edges of a
    graph end at its nodes and are ones its view shows; the relation key tells
    relations apart across views; hiding unlinked ports takes no link away. *)

From S2P Require Import Prelude Net Ports Position Entities ServiceIdentity Patterns Services Hosts HostMatch Locks Lldp Interfaces Subnets Topology TopologySample ElementRules ElementRulesThms EdgeBuilder EdgeThms L2Builder L3Builder L3Thms L2Thms ApplicationBuilder WorkloadsBuilder Graph.
Local Open Scope Z_scope.

(** ** Kinds of edges *)

Definition emits (ds : list EdgeTypeDiscriminants) (edges : list Edge) : Prop :=
  ∀ e, e ∈ edges → edge_discriminant (edge_type e) ∈ ds.

Lemma emits_app ds l1 l2 : emits ds l1 → emits ds l2 → emits ds (l1 ++ l2).
Proof. intros H1 H2 e [?|?]%elem_of_app; auto. Qed.
Lemma emits_sub ds ds' l : emits ds l → (∀ d, d ∈ ds → d ∈ ds') → emits ds' l.
Proof. intros Hl Hd e He. by apply Hd, Hl. Qed.

Lemma emits_dependency_edges ctx : emits [D_RequestPath; D_HubAndSpoke] (create_dependency_edges ctx).
Proof.
  intros e (d & He & _)%list_elem_of_bind.
  assert (∃ a b, edge_from_service_bindings ctx a b d = Some e) as (a & b & E).
  { unfold dependency_edges in He. destruct (dependency_type d); [|destruct (binding_ids d); [by apply elem_of_nil in He|]];
      apply list_elem_of_omap in He as (w & _ & E); eauto. }
  apply bind_Some in E as (x & _ & (y & _ & [= <-])%bind_Some). cbn. unfold dependency_edge_type.
  destruct (dependency_type d); set_solver.
Qed.
Lemma emits_interface_edges ctx : emits [D_SameHost] (create_interface_edges ctx).
Proof.
  intros e (h & He & _)%list_elem_of_bind. unfold interface_edges in He.
  destruct (get_first_non_container_bridge_ip_address_for_host ctx (h_id h)) as [o|]; [|by apply elem_of_nil in He].
  apply list_elem_of_omap in He as (i & _ & E). destruct (_ || _); [done|]. injection E as <-. by left.
Qed.
Lemma emits_vm_host_edges ctx : emits [D_Hypervisor] (create_vm_host_edges ctx).
Proof.
  intros e (h & He & _)%list_elem_of_bind. unfold vm_host_edges in He.
  destruct (vm_managers ctx !! h_id h); [|by apply elem_of_nil in He].
  apply list_elem_of_omap in He as (i & _ & (a & _ & [= <-])%bind_Some). by left.
Qed.
Lemma emits_runtime_edges ctx g : emits [D_ContainerRuntime] (create_containerized_service_edges ctx g).
Proof.
  intros e (s & He & _)%list_elem_of_bind. unfold runtime_edges in He.
  destruct (containerized_services ctx !! sv_id s); [|by apply elem_of_nil in He].
  destruct (get_host_by_id ctx _); [|by apply elem_of_nil in He].
  destruct (get_first_non_container_bridge_ip_address_for_host ctx _); [|by apply elem_of_nil in He].
  apply list_elem_of_fmap in He as ([[? ?] ?] & -> & _). by left.
Qed.
Lemma emits_same_container_edges ctx : emits [D_SameContainer] (create_same_container_edges ctx).
Proof.
  intros e (s & He & _)%list_elem_of_bind. unfold same_container_edges in He.
  destruct (virtualization_metadata (sv_base s)); [|by apply elem_of_nil in He].
  destruct (sort_by _ _) as [|[? ?] ?]; [by apply elem_of_nil in He|].
  apply list_elem_of_fmap in He as (? & -> & _). by left.
Qed.
Lemma emits_physical_link_edges ctx : emits [D_PhysicalLink] (create_physical_link_edges ctx).
Proof.
  intros e (i & _ & E)%list_elem_of_omap. unfold physical_link_edge in E.
  repeat apply bind_Some in E as (? & _ & E). injection E as <-. by left.
Qed.
Lemma emits_neighbor_links ctx f l : emits [D_NeighborLink] (create_neighbor_link_edges ctx f l).
Proof. intros e (s & t & p & -> & _)%neighbor_links_sound. by left. Qed.
Lemma emits_service_dependency d l : emits [D_RequestPath; D_HubAndSpoke] (service_dependency_edge d <$> l).
Proof.
  intros e (st & -> & _)%list_elem_of_fmap. cbn. unfold dependency_edge_type.
  destruct (dependency_type d); set_solver.
Qed.

Section Views.
Context `{UuidLib, MapOrder} (registry : list ServiceDefinition) (cidr_text : IpCidr → string).

(** The kinds of edges each view draws. *)
Definition view_emits (v : TopologyView) : list EdgeTypeDiscriminants :=
  match v with
  | L2Physical => [D_PhysicalLink; D_NeighborLink]
  | L3Logical => [D_SameHost; D_RequestPath; D_HubAndSpoke; D_Hypervisor; D_ContainerRuntime; D_SameContainer;
                  D_PhysicalLink]
  | Workloads => [D_PhysicalLink; D_NeighborLink; D_RequestPath; D_HubAndSpoke]
  | ApplicationView => [D_RequestPath; D_HubAndSpoke; D_ContainerRuntime]
  end.

Lemma view_edges_emitted v ctx g : emits (view_emits v) (build_view registry cidr_text v ctx g).2.
Proof.
  destruct v; cbn [build_view view_emits].
  - apply emits_app.
    + intros e (i & t & _ & _ & _ & _ & ->)%l2_links_sound. set_solver.
    + eapply emits_sub; [apply emits_neighbor_links|set_solver].
  - unfold l3_build. cbn. repeat apply emits_app; (eapply emits_sub;
      [first [apply emits_interface_edges | apply emits_dependency_edges | apply emits_vm_host_edges
             | apply emits_runtime_edges | apply emits_same_container_edges | apply emits_physical_link_edges]
      |set_solver]).
  - unfold wl_build. destruct (wl_ruled registry ctx g) as [ruled placements]. cbn.
    repeat apply emits_app.
    + intros e (i & _ & E)%list_elem_of_omap. apply bind_Some in E as (t & _ & [= <-]). set_solver.
    + intros e [_ He]%elem_of_list_filter_bool. apply emits_neighbor_links in He. set_solver.
    + intros e (d & He & _)%list_elem_of_bind. unfold wl_dependency_edges in He.
      destruct (_ <? 2)%nat; [by apply elem_of_nil in He|]. apply emits_service_dependency in He. set_solver.
  - cbn. apply emits_app.
    + intros e (d & He & _)%list_elem_of_bind. apply emits_service_dependency in He. set_solver.
    + intros e (s & _ & E)%list_elem_of_omap. apply bind_Some in E as (r & _ & E).
      destruct (_ && _); [|done]. injection E as <-. set_solver.
Qed.
End Views.

(** The edges of a graph end at its nodes and carry the view's settings and the
    relation's key; no view draws an edge it disables, but for the physical links
    the logical view computes and does not show. *)
Theorem graph_edges_shown `{UuidLib, MapOrder} registry cidr_text ctx v e :
  e ∈ (build_graph registry cidr_text ctx v).2 →
  e_source e ∈ n_id <$> (build_graph registry cidr_text ctx v).1
  ∧ e_target e ∈ n_id <$> (build_graph registry cidr_text ctx v).1
  ∧ relation e = relation_key (edge_type e)
  ∧ view_config e = edge_view_config v (edge_discriminant (edge_type e))
  ∧ (view_config e = EdgeDisabled ↔ v = L3Logical ∧ edge_discriminant (edge_type e) = D_PhysicalLink).
Proof.
  unfold build_graph. pose proof (view_edges_emitted registry cidr_text v (with_view v ctx)
    (from_request_options (c_request ctx) v)) as Hem.
  destruct (build_view _ _ _ _ _) as [nodes edges]. cbn [fst snd] in *.
  intros (He & Hs & Ht)%add_edges_to_graph_elem. apply list_elem_of_fmap in He as (e0 & -> & He0).
  split_and!; [done..|]. cbn. specialize (Hem e0 He0).
  destruct v, (edge_discriminant (edge_type e0)); cbn in *; try naive_solver; set_solver.
Qed.

(** ** Relation keys *)

(** What a key stands for: one row, or two in either order. *)
Definition relation_of (t : EdgeType) : option (Uuid + Uuid * Uuid) :=
  match t with
  | ET_RequestPath d _ _ | ET_HubAndSpoke d _ _ => Some (inl d)
  | ET_SameHost h => Some (inl h)
  | ET_SameContainer s => Some (inl s)
  | ET_PhysicalLink a b _ | ET_NeighborLink a b _ => Some (inr (host_pair_key a b))
  | ET_Hypervisor _ | ET_ContainerRuntime _ _ _ _ => None
  end.

Definition key_text `{UuidLib} (r : Uuid + Uuid * Uuid) : string :=
  match r with inl u => uuid_text u | inr p => uuid_text p.1 +:+ ":" +:+ uuid_text p.2 end.

Lemma relation_key_text `{UuidLib} t : relation_key t = key_text <$> relation_of t.
Proof. destruct t; cbn; try done; unfold pair_key, host_pair_key; by destruct (_ <? _)%N. Qed.

Lemma no_colon_pair s t : no_colon (s +:+ ":" +:+ t) = false.
Proof. exact (no_colon_app s t). Qed.

Lemma key_text_inj `{UuidLaws} r r' : key_text r = key_text r' → r = r'.
Proof.
  destruct r as [a|[a b]], r' as [c|[c d]]; cbn.
  - by intros ->%uuid_text_inj.
  - intros E. pose proof (uuid_text_plain a) as Ha. by rewrite E, no_colon_pair in Ha.
  - intros E. pose proof (uuid_text_plain c) as Hc. by rewrite <- E, no_colon_pair in Hc.
  - intros E. apply colon_split in E as [->%uuid_text_inj ->%uuid_text_inj]; [done|apply uuid_text_plain..].
Qed.

(** Two edges, of one view or of two, have one relation key exactly when they stand
    for the same rows, whichever end was found first. *)
Theorem relation_key_exact `{UuidLaws} t t' : relation_key t = relation_key t' ↔ relation_of t = relation_of t'.
Proof.
  rewrite !relation_key_text. split; [|by intros ->].
  destruct (relation_of t), (relation_of t'); cbn; intros E; try done. injection E as ->%key_text_inj. done.
Qed.

(** ** Hiding *)

Lemma assoc_entry_modify {K V} `{EqDecision K} (k k' : K) (d : V) f l :
  assoc k (entry_modify k' d f l) = if decide (k = k') then Some (f (default d (assoc k l))) else assoc k l.
Proof.
  unfold assoc. induction l as [|[x v] l IH]; cbn.
  - case_bool_decide; case_decide; naive_solver.
  - destruct (decide (k' = x)) as [->|Hne]; cbn.
    + case_bool_decide; case_decide; naive_solver.
    + case_bool_decide as E; [|done]. subst. by rewrite decide_False by congruence.
Qed.

(** Counted at least once. *)
Definition counted (v : string) (c : list (string * nat)) : bool :=
  match assoc v c with Some n => (1 <=? n)%nat | None => false end.

Lemma counted_values v l c :
  counted v (foldl (λ c v, entry_modify v 0%nat S c) c l) = bool_decide (v ∈ l) || counted v c.
Proof.
  revert c. induction l as [|x l IH]; intros c; [done|]. cbn [foldl]. rewrite IH. unfold counted.
  rewrite assoc_entry_modify. destruct (decide (v = x)) as [<-|E].
  - rewrite (bool_decide_true (v ∈ v :: l)) by (by left). by rewrite orb_true_r.
  - f_equal. apply bool_decide_ext. rewrite elem_of_cons. naive_solver.
Qed.

(** Only the link state of ports is filtered by the server. *)
Lemma server_hide_sets_eq h :
  server_hide_sets h
  = match h L2Physical E_Interface FilterLinkState with
    | None => []
    | Some values => [(E_Interface, {| by_filter := [(FilterLinkState, foldl (λ c v, entry_modify v 0%nat S c) [] values)];
                                       rendering_views := 1 |})]
    end.
Proof. destruct (h L2Physical E_Interface FilterLinkState) eqn:E; vm_compute; by rewrite E. Qed.

Definition hidden_link_states (ctx : TopologyContext) : list string :=
  default [] (hide_metadata_values (c_request ctx) L2Physical E_Interface FilterLinkState).

Definition link_state (ctx : TopologyContext) (i : InterfaceRow) : InterfaceLinkState :=
  classify (neighbor (if_base i)) (bool_decide (if_id i ∈ referenced_neighbour_interfaces (c_interfaces ctx))).

Lemma filter_true {A} (l : list A) : List.filter (λ _, true) l = l.
Proof. induction l as [|x l IH]; [done|]. simpl. by rewrite IH. Qed.

(** What the server's filters do: drop the ports of a hidden link state, nothing else. *)
Lemma filtered_context registry ctx :
  apply_server_metadata_filters registry ctx =
  {| c_interfaces := List.filter (λ i, negb (bool_decide (link_state_id (link_state ctx i) ∈ hidden_link_states ctx)))
                       (c_interfaces ctx);
     c_hosts := c_hosts ctx; c_services := c_services ctx; c_ip_addresses := c_ip_addresses ctx;
     c_subnets := c_subnets ctx; c_dependencies := c_dependencies ctx; c_tags := c_tags ctx; c_vlans := c_vlans ctx;
     c_request := c_request ctx; c_view := c_view ctx |}.
Proof.
  unfold apply_server_metadata_filters, hidden_link_states. rewrite server_hide_sets_eq.
  destruct (hide_metadata_values (c_request ctx) L2Physical E_Interface FilterLinkState) as [values|].
  - cbn [assoc]. f_equal. apply List.filter_ext. intros i. f_equal.
    pose proof (counted_values (link_state_id (link_state ctx i)) values []) as Hc. rewrite orb_false_r in Hc.
    etrans; [|exact Hc]. unfold hides, interface_filter_values, counted, link_state. cbn -[link_state_id classify].
    by rewrite orb_false_r.
  - cbn. rewrite filter_true. by destruct ctx.
Qed.

(** ** Hiding unlinked ports *)

Lemma find_filter_imp {A} (p q : A → bool) l :
  (∀ x, x ∈ l → p x = true → q x = true) → List.find p (List.filter q l) = List.find p l.
Proof.
  induction l as [|x l IH]; intros Hpq; [done|]. simpl. assert (∀ y, y ∈ l → p y = true → q y = true) as Hl.
  { intros y Hy. apply Hpq. by right. }
  destruct (q x) eqn:Eq; simpl.
  - by rewrite IH.
  - destruct (p x) eqn:Ep; [|by apply IH]. rewrite (Hpq x) in Eq; [done|left|done].
Qed.
Lemma omap_ext_elem {A B} (f g : A → option B) (l : list A) : (∀ x, x ∈ l → f x = g x) → omap f l = omap g l.
Proof.
  induction l as [|x l IH]; intros Hfg; [done|]. csimpl. rewrite (Hfg x) by (by left).
  rewrite IH; [done|]. intros y Hy. apply Hfg. by right.
Qed.

Section Unlinked.
Context `{UuidLib, MapOrder} (registry : list ServiceDefinition) (ctx : TopologyContext)
        (Hnd : NoDup (if_id <$> c_interfaces ctx)) (Hlinked : "Linked"%string ∉ hidden_link_states ctx).

Local Notation ctx' := (apply_server_metadata_filters registry ctx).

Lemma linked_stays i :
  i ∈ c_interfaces ctx → link_state ctx i = Linked →
  negb (bool_decide (link_state_id (link_state ctx i) ∈ hidden_link_states ctx)) = true.
Proof. intros _ ->. by rewrite bool_decide_false. Qed.

Lemma neighbor_linked i n : neighbor (if_base i) = Some n → link_state ctx i = Linked.
Proof. unfold link_state. by intros ->. Qed.

Lemma target_linked i t :
  i ∈ c_interfaces ctx → neighbor_target i = Some (if_id t) → link_state ctx t = Linked.
Proof.
  intros Hi Hn. unfold link_state. rewrite bool_decide_true; [by destruct (neighbor (if_base t))|].
  apply elem_of_list_to_set, list_elem_of_omap. eauto.
Qed.

Lemma unlinked_neighbors : get_interfaces_with_neighbor ctx' = get_interfaces_with_neighbor ctx.
Proof.
  rewrite filtered_context. unfold get_interfaces_with_neighbor. cbn. apply filter_filter_imp. intros i Hi Hn.
  apply linked_stays; [done|]. destruct (neighbor (if_base i)) eqn:E; [|done]. by eapply neighbor_linked.
Qed.
Lemma unlinked_host_neighbors : get_interfaces_with_host_neighbor ctx' = get_interfaces_with_host_neighbor ctx.
Proof.
  rewrite filtered_context. unfold get_interfaces_with_host_neighbor. cbn. apply filter_filter_imp. intros i Hi Hn.
  apply linked_stays; [done|]. destruct (neighbor (if_base i)) eqn:E; [|done]. by eapply neighbor_linked.
Qed.

Lemma unlinked_get i :
  i ∈ c_interfaces ctx → link_state ctx i = Linked → get_interface_by_id ctx' (if_id i) = get_interface_by_id ctx (if_id i).
Proof.
  intros Hi Hs. rewrite filtered_context. unfold get_interface_by_id. cbn. apply find_filter_imp.
  intros j Hj E%N.eqb_eq. assert (j = i) as -> by (by eapply (NoDup_key_inj if_id)). by apply linked_stays.
Qed.

(** A neighbour that is no row is none either way. *)
Lemma unlinked_get_target i t :
  i ∈ c_interfaces ctx → neighbor_target i = Some t → get_interface_by_id ctx' t = get_interface_by_id ctx t.
Proof.
  intros Hi Hn. rewrite filtered_context. unfold get_interface_by_id. cbn. apply find_filter_imp.
  intros j Hj E%N.eqb_eq. apply linked_stays; [done|]. eapply target_linked; [exact Hi|]. by rewrite E.
Qed.

Lemma unlinked_links : l2_links ctx' = l2_links ctx.
Proof.
  unfold l2_links. rewrite unlinked_neighbors. apply omap_ext_elem.
  intros i [[_ Hi]%elem_of_list_filter_bool _]%first_by_key_elem. unfold l2_link_edge.
  destruct (neighbor_target i) as [t|] eqn:Hn; [|done]. simpl. by rewrite (unlinked_get_target i t).
Qed.

Lemma unlinked_linked_hosts e : e ∈ l2_links ctx → linked_hosts ctx' e = linked_hosts ctx e.
Proof.
  intros (i & t & Hi & Ht & Hn & _ & ->)%l2_links_sound. unfold linked_hosts. cbn.
  rewrite (unlinked_get_target i _ Hi Hn), unlinked_get; [done|done|].
  unfold neighbor_target in Hn. destruct (neighbor (if_base i)) eqn:E; [|done]. by eapply neighbor_linked.
Qed.

Lemma unlinked_adjacencies : l2_adjacencies ctx' = l2_adjacencies ctx.
Proof.
  unfold l2_adjacencies, create_neighbor_link_edges. rewrite unlinked_links, unlinked_host_neighbors.
  assert (physical_link_host_pairs ctx' (l2_links ctx) = physical_link_host_pairs ctx (l2_links ctx)) as ->.
  { unfold physical_link_host_pairs. f_equal. apply omap_ext_elem, unlinked_linked_hosts. }
  rewrite filtered_context. done.
Qed.
End Unlinked.

(** C34. Hiding ports by link state takes no edge from the physical view unless linked
    ports are hidden too: the edges and the hosts shown are the same, and every
    port an edge ends at stays. *)
Theorem hiding_keeps_links `{UuidLib, MapOrder} registry ctx :
  NoDup (if_id <$> c_interfaces ctx) → "Linked"%string ∉ hidden_link_states ctx →
  let ctx' := apply_server_metadata_filters registry ctx in
  l2_edges ctx' = l2_edges ctx
  ∧ qualifying_host_ids ctx' = qualifying_host_ids ctx
  ∧ ∀ e i, e ∈ l2_links ctx → i ∈ c_interfaces ctx → if_id i = e_source e ∨ if_id i = e_target e →
      i ∈ c_interfaces ctx'.
Proof.
  intros Hnd Hl ctx'.
  assert (l2_edges ctx' = l2_edges ctx) as Ee by (unfold l2_edges, ctx'; by rewrite unlinked_links, unlinked_adjacencies).
  split; [done|]. split.
  - unfold qualifying_host_ids. rewrite Ee. unfold ctx'. rewrite unlinked_neighbors, unlinked_adjacencies by done.
    do 2 f_equal. apply omap_ext_elem. intros e [He|He]%elem_of_app.
    + apply l2_links_sound in He as (i & t & Hi & _ & Hn & _ & ->). unfold link_target_host. cbn.
      by rewrite (unlinked_get_target registry ctx Hl i _ Hi Hn).
    + apply neighbor_links_sound in He as (s & t & p & Et & _). unfold link_target_host. by rewrite Et.
  - intros e i (j & t & Hj & Ht & Hn & _ & ->)%l2_links_sound Hi Hid. unfold ctx'. rewrite filtered_context. cbn.
    apply elem_of_list_filter_bool. split; [|done]. apply linked_stays; [done..|]. cbn in Hid.
    destruct Hid as [E|E].
    + assert (i = j) as -> by (by eapply (NoDup_key_inj if_id)). unfold neighbor_target in Hn.
      destruct (neighbor (if_base j)) eqn:En; [|done]. by eapply neighbor_linked.
    + eapply target_linked; [exact Hj|]. by rewrite E.
Qed.

(** ** The links of the physical view *)

Lemma add_configured `{UuidLib} ids v edges :
  add_edges_to_graph ids (configure_edge v <$> edges) = configure_edge v <$> add_edges_to_graph ids edges.
Proof.
  unfold add_edges_to_graph. induction edges as [|e edges IH]; [done|]. csimpl.
  destruct (_ && _); csimpl; by rewrite IH.
Qed.

Lemma omap_link_ports_configured `{UuidLib} v (edges : list Edge) : omap link_ports (configure_edge v <$> edges) = omap link_ports edges.
Proof. induction edges as [|e edges IH]; [done|]. csimpl. by rewrite IH. Qed.

Lemma adjacencies_no_ports `{UuidLib} ctx : omap link_ports (l2_adjacencies ctx) = [].
Proof.
  apply elem_of_nil_inv. intros k (e & (s & t & p & Et & _)%neighbor_links_sound & E)%list_elem_of_omap.
  unfold link_ports in E. by rewrite Et in E.
Qed.

Lemma omap_NoDup_fmap {A B} (f : A → option B) (l : list A) : NoDup (f <$> l) → NoDup (omap f l).
Proof.
  induction l as [|x l IH]; [intros _; constructor|]. rewrite fmap_cons. intros [Hx Hl]%list.NoDup_cons. cbn.
  destruct (f x) as [y|] eqn:E; [|by apply IH]. constructor; [|by apply IH].
  intros (z & Hz & Ez)%list_elem_of_omap. apply Hx, list_elem_of_fmap. exists z. by rewrite Ez.
Qed.
Lemma sublist_omap_of {A B} (f : A → option B) (l l' : list A) : l `sublist_of` l' → omap f l `sublist_of` omap f l'.
Proof. induction 1 as [|x l l' _ IH|x l l' _ IH]; cbn; [done|destruct (f x)..]; by try constructor. Qed.

(** C32. The physical view shows each link once.  In the graph that is built for the
    physical view, after edges without a node are dropped, the links are exactly the
    unordered pairs of ports of different hosts of which one names the other as its
    neighbour and neither is of an excluded interface type, and no pair has two links.
    (Element rules that box by hypervisor or runtime, which this view does not have, and
    boxes whose id is that of an interface are excluded.) *)
Theorem l2_view_links `{UuidLib, MapOrder} registry cidr_text ctx :
  let view := build_graph registry cidr_text ctx L2Physical in
  NoDup (if_id <$> c_interfaces ctx) →
  Forall (λ r, plain_rule (rule r) = true) (element_rules (from_request_options (c_request ctx) L2Physical)) →
  Forall (λ n, is_element n = false → n_id n ∉ if_id <$> c_interfaces ctx) view.1 →
  NoDup (omap link_ports view.2)
  ∧ ∀ k, k ∈ omap link_ports view.2 ↔
      ∃ i t, i ∈ c_interfaces ctx ∧ t ∈ c_interfaces ctx ∧ neighbor (if_base i) = Some (NeighborInterface (if_id t))
        ∧ if_host_id (if_base i) ≠ if_host_id (if_base t)
        ∧ if_type (if_base i) ∉ EXCLUDED_IF_TYPES ∧ if_type (if_base t) ∉ EXCLUDED_IF_TYPES
        ∧ k = host_pair_key (if_id i) (if_id t).
Proof.
  cbv zeta. unfold build_graph. cbn [build_view]. set (ctx' := with_view L2Physical ctx). set (g := from_request_options _ _).
  destruct (l2_build ctx' g) as [nodes edges] eqn:Eb. cbn [fst snd].
  change (c_interfaces ctx) with (c_interfaces ctx'). intros Hnd Hplain Hfresh.
  rewrite add_configured, omap_link_ports_configured.
  pose proof (l2_edges_kept ctx' g Hnd Hplain) as Hk. rewrite Eb in Hk. cbn [fst snd] in Hk.
  destruct (Hk Hfresh) as (_ & Hlink & _). assert (edges = l2_edges ctx') as -> by (by injection Eb).
  assert (∀ i, excluded_if_type i = false ↔ if_type (if_base i) ∉ EXCLUDED_IF_TYPES) as Hex.
  { intros i. unfold excluded_if_type. by rewrite bool_decide_eq_false. }
  split.
  - unfold l2_edges, add_edges_to_graph. eapply sublist_NoDup.
    + apply (omap_NoDup_fmap link_ports (l2_links ctx')), l2_links_NoDup.
    + replace (omap link_ports (l2_links ctx')) with (omap link_ports (l2_links ctx' ++ l2_adjacencies ctx'))
        by (by rewrite omap_app, adjacencies_no_ports, app_nil_r).
      apply sublist_omap_of, filter_bool_sublist.
  - intros k. rewrite list_elem_of_omap. split.
    + intros (e & He & Ek). pose proof He as [[Hl|Ha]%elem_of_app _]%add_edges_to_graph_elem.
      * pose proof Hl as (i & t & Hi & Ht & Hn & Hne & ->)%l2_links_sound. cbn in Ek. injection Ek as <-.
        destruct (proj1 (Hlink _ i t ByLLDP Hl eq_refl Hi Ht) He) as [Xi%Hex Xt%Hex].
        exists i, t. split_and!; try done. unfold neighbor_target in Hn.
        destruct (neighbor (if_base i)) as [[]|]; naive_solver.
      * apply neighbor_links_sound in Ha as (s & t & p & Et & _). unfold link_ports in Ek. by rewrite Et in Ek.
    + intros (i & t & Hi & Ht & Hn & Hne & Xi%Hex & Xt%Hex & ->).
      assert (neighbor_target i = Some (if_id t)) as Hn' by (unfold neighbor_target; by rewrite Hn).
      destruct (l2_links_complete ctx' Hnd i t Hi Ht Hn' Hne) as (e & He & Ep). exists e. split; [|done].
      pose proof He as (j & u & Hj & Hu & _ & _ & ->)%l2_links_sound. cbn in Ep. injection Ep as Ep.
      apply (Hlink _ j u ByLLDP He eq_refl Hj Hu).
      apply host_pair_key_inj in Ep as [[E1 E2]|[E1 E2]].
      * assert (j = i) as -> by (by eapply (NoDup_key_inj if_id)). by assert (u = t) as -> by (by eapply (NoDup_key_inj if_id)).
      * assert (j = t) as -> by (by eapply (NoDup_key_inj if_id)). by assert (u = i) as -> by (by eapply (NoDup_key_inj if_id)).
Qed.

(** ** Samples *)

Lemma l2_view_links_witness :
  (51%N, 53%N) ∈ omap link_ports (build_graph sample_registry (λ _, ""%string) (switches 6 two_hosts []) L2Physical).2.
Proof.
  destruct (l2_view_links sample_registry (λ _, ""%string) (switches 6 two_hosts [])) as [_ Hex];
    [by_evaluation|by_evaluation|by_evaluation|].
  apply Hex. exists (sample_interface 51%N 1%N 6 (Some (NeighborInterface 53%N))), (sample_interface 53%N 3%N 6 None).
  split_and!; [left|right; left|reflexivity|discriminate|by_evaluation|by_evaluation|reflexivity].
Defined.

Lemma graph_edges_shown_witness :
  Forall (λ e, view_config e ≠ EdgeDisabled)
    (build_graph sample_registry (λ _, ""%string) (switches 6 two_hosts []) L2Physical).2.
Proof.
  apply Forall_forall. intros e He%list_elem_of_In Hd.
  destruct (graph_edges_shown sample_registry (λ _, ""%string) (switches 6 two_hosts []) L2Physical e He)
    as (_ & _ & _ & _ & Hiff).
  by destruct (proj1 Hiff Hd) as [[=] _].
Defined.

Lemma relation_key_exact_witness :
  relation_key (ET_PhysicalLink 51%N 53%N ByLLDP) = relation_key (ET_PhysicalLink 53%N 51%N ByCDP).
Proof. apply (relation_key_exact (ET_PhysicalLink 51%N 53%N ByLLDP) (ET_PhysicalLink 53%N 51%N ByCDP)). reflexivity. Defined.

(** The default hides unlinked ports. *)
Definition hiding_unlinked : TopologyContext :=
  sample_context L2Physical
    {| hide_metadata_values := merge_missing_hide_defaults no_hiding; view_container_rules := λ _, [];
       request_element_rules := [] |} two_hosts [] [] [] []
    [sample_interface 51%N 1%N 6 (Some (NeighborInterface 53%N)); sample_interface 53%N 3%N 6 None;
     sample_interface 57%N 3%N 6 None] [].

Lemma hiding_keeps_links_witness :
  l2_edges (apply_server_metadata_filters sample_registry hiding_unlinked) = l2_edges hiding_unlinked
  ∧ length (c_interfaces (apply_server_metadata_filters sample_registry hiding_unlinked)) = 2%nat.
Proof.
  split; [|reflexivity].
  apply (hiding_keeps_links sample_registry hiding_unlinked); by_evaluation.
Defined.
