(* ===== verification/Credentials.v ===== *)
(** Credentials: their kinds, their secrets and the payloads a daemon receives
    ([server/credentials/impl/types/], [server/credentials/impl/mapping.rs]).

    A secret is inline text or the path of a file on the daemon's host.  Files,
    and the parser of the [pem] crate, are parameters. *)

From Stdlib Require Import DecimalString.
From S2P Require Import Prelude Net Ports Discovery Entities ServiceIdentity Patterns Definitions Lldp Hosts Versions.
Local Open Scope Z_scope.
Local Open Scope string_scope.

(** ** Secrets ([types/secrets.rs]) *)

Definition REDACTED_SECRET_SENTINEL : string := "********".

Inductive SecretValue :=
| SecretInline (value : string)
| SecretFile (path : string).

#[export] Instance SecretValue_eq_dec : EqDecision SecretValue.
Proof. solve_decision. Defined.

Inductive FileOrInline :=
| Inline (value : string)
| InFile (path : string).

#[export] Instance FileOrInline_eq_dec : EqDecision FileOrInline.
Proof. solve_decision. Defined.

Definition is_redacted_sentinel (s : SecretValue) : bool :=
  match s with
  | SecretInline v => String.eqb v REDACTED_SECRET_SENTINEL
  | SecretFile _ => false
  end.

(** [serialize_secret_value] under the flag [EXPOSE_SECRETS]. *)
Definition serialize_secret (expose : bool) (s : SecretValue) : SecretValue :=
  match s with
  | SecretInline v => SecretInline (if expose then v else REDACTED_SECRET_SENTINEL)
  | SecretFile p => SecretFile p
  end.

(** [ExposeSecretsGuard::new] returns the guard, which holds the flag as it was;
    dropping the guard restores it. *)
Definition guard_new (flag : bool) : bool * bool := (flag, true).
Definition guard_drop (prev flag : bool) : bool := prev.

(** The optional fields are read with blank values as absent. *)
Definition deserialize_optional_file_or_inline (o : option FileOrInline) : option FileOrInline :=
  v ← o;
  match v with
  | Inline s | InFile s => if is_blank s then None else Some v
  end.

Definition deserialize_optional_secret_value (o : option SecretValue) : option SecretValue :=
  v ← o;
  match v with
  | SecretInline s | SecretFile s => if is_blank s then None else Some v
  end.

(** ** Credential types ([types/mod.rs]) *)

Inductive SnmpV3AuthProtocol := Sha1 | Sha256.
Inductive SnmpV3PrivProtocol := Aes128 | Aes256.
Inductive SnmpVersion := SnmpVersion1 | SnmpVersion2c | SnmpVersion3.

#[export] Instance SnmpV3AuthProtocol_eq_dec : EqDecision SnmpV3AuthProtocol.
Proof. solve_decision. Defined.
#[export] Instance SnmpV3PrivProtocol_eq_dec : EqDecision SnmpV3PrivProtocol.
Proof. solve_decision. Defined.
#[export] Instance SnmpVersion_eq_dec : EqDecision SnmpVersion.
Proof. solve_decision. Defined.

Record ProxyFields := {
  px_port : Z;
  px_path : option string;
  px_ssl_cert : option FileOrInline;
  px_ssl_key : option SecretValue;
  px_ssl_chain : option FileOrInline
}.

#[export] Instance ProxyFields_eq_dec : EqDecision ProxyFields.
Proof. solve_decision. Defined.

Inductive CredentialType :=
| SnmpV1 (community : SecretValue)
| SnmpV2c (community : SecretValue)
| SnmpV3 (security_name : string) (auth_protocol : SnmpV3AuthProtocol) (auth_password : SecretValue)
    (priv_protocol : SnmpV3PrivProtocol) (priv_password : SecretValue) (context_name : option string)
| DockerProxy (fields : ProxyFields)
| DockerSocket (socket_path : option string)
| PodmanProxy (fields : ProxyFields)
| PodmanSocket (socket_path : option string)
| UnifiApiKey (port : Z) (site : string) (api_key : SecretValue)
| UnifiLocalAdmin (port : Z) (site username : string) (password : SecretValue)
| InstantOnAccount (username : string) (password : SecretValue) (site : option string).

#[export] Instance CredentialType_eq_dec : EqDecision CredentialType.
Proof. solve_decision. Defined.

Inductive CredentialTypeDiscriminants :=
| DSnmpV1 | DSnmpV2c | DSnmpV3 | DDockerProxy | DDockerSocket | DPodmanProxy | DPodmanSocket
| DUnifiApiKey | DUnifiLocalAdmin | DInstantOnAccount.

#[export] Instance CredentialTypeDiscriminants_eq_dec : EqDecision CredentialTypeDiscriminants.
Proof. solve_decision. Defined.

Definition cred_discriminant (c : CredentialType) : CredentialTypeDiscriminants :=
  match c with
  | SnmpV1 _ => DSnmpV1 | SnmpV2c _ => DSnmpV2c | SnmpV3 _ _ _ _ _ _ => DSnmpV3
  | DockerProxy _ => DDockerProxy | DockerSocket _ => DDockerSocket
  | PodmanProxy _ => DPodmanProxy | PodmanSocket _ => DPodmanSocket
  | UnifiApiKey _ _ _ => DUnifiApiKey | UnifiLocalAdmin _ _ _ _ => DUnifiLocalAdmin
  | InstantOnAccount _ _ _ => DInstantOnAccount
  end.

(** A credential in JSON: its secrets go through [serialize_secret_value], every
    other field as it is. *)
Definition map_secrets (f : SecretValue → SecretValue) (c : CredentialType) : CredentialType :=
  let proxy p := {| px_port := px_port p; px_path := px_path p; px_ssl_cert := px_ssl_cert p;
                    px_ssl_key := f <$> px_ssl_key p; px_ssl_chain := px_ssl_chain p |} in
  match c with
  | SnmpV1 s => SnmpV1 (f s)
  | SnmpV2c s => SnmpV2c (f s)
  | SnmpV3 n ap a pp p ctx => SnmpV3 n ap (f a) pp (f p) ctx
  | DockerProxy p => DockerProxy (proxy p)
  | PodmanProxy p => PodmanProxy (proxy p)
  | DockerSocket _ | PodmanSocket _ => c
  | UnifiApiKey p s k => UnifiApiKey p s (f k)
  | UnifiLocalAdmin p s u k => UnifiLocalAdmin p s u (f k)
  | InstantOnAccount u k s => InstantOnAccount u (f k) s
  end.
Definition serialize_credential (expose : bool) : CredentialType → CredentialType :=
  map_secrets (serialize_secret expose).

(** What a credential is after it was read: the proxies' optional fields are
    normalized. *)
Definition deserialize_credential (c : CredentialType) : CredentialType :=
  let proxy p := {| px_port := px_port p; px_path := px_path p;
                    px_ssl_cert := deserialize_optional_file_or_inline (px_ssl_cert p);
                    px_ssl_key := deserialize_optional_secret_value (px_ssl_key p);
                    px_ssl_chain := deserialize_optional_file_or_inline (px_ssl_chain p) |} in
  match c with
  | DockerProxy p => DockerProxy (proxy p)
  | PodmanProxy p => PodmanProxy (proxy p)
  | _ => c
  end.

(** [merge_redacted_secrets]: a sentinel sent back by a client stands for the
    secret in store, where that is of the same type. *)
Definition merge_secret (s existing : SecretValue) : SecretValue :=
  if is_redacted_sentinel s then existing else s.
Definition merge_key (s existing : option SecretValue) : option SecretValue :=
  match s with
  | Some key => if is_redacted_sentinel key then existing else s
  | None => s
  end.
Definition merge_proxy (p e : ProxyFields) : ProxyFields := {|
  px_port := px_port p; px_path := px_path p; px_ssl_cert := px_ssl_cert p;
  px_ssl_key := merge_key (px_ssl_key p) (px_ssl_key e); px_ssl_chain := px_ssl_chain p |}.

Definition merge_redacted_secrets (c existing : CredentialType) : CredentialType :=
  match c, existing with
  | SnmpV1 s, SnmpV1 e => SnmpV1 (merge_secret s e)
  | SnmpV2c s, SnmpV2c e => SnmpV2c (merge_secret s e)
  | SnmpV3 n ap a pp p ctx, SnmpV3 _ _ ea _ ep _ =>
      SnmpV3 n ap (merge_secret a ea) pp (merge_secret p ep) ctx
  | DockerProxy p, DockerProxy e => DockerProxy (merge_proxy p e)
  | PodmanProxy p, PodmanProxy e => PodmanProxy (merge_proxy p e)
  | UnifiApiKey p s k, UnifiApiKey _ _ e => UnifiApiKey p s (merge_secret k e)
  | UnifiLocalAdmin p s u k, UnifiLocalAdmin _ _ _ e => UnifiLocalAdmin p s u (merge_secret k e)
  | InstantOnAccount u k s, InstantOnAccount _ e _ => InstantOnAccount u (merge_secret k e) s
  | _, _ => c
  end.

(** ** What a type says of itself *)

Inductive CredentialCategory := NetworkMonitoring | ContainerVirtualization | NetworkController.
Inductive CredentialStability := Stable | Beta.
Inductive UpstreamSupport := Vendor | Undocumented.

(** [Target], the scopes of an [IntegrationTarget]. *)
Inductive Target := ScopeDaemonHost | ScopeNetwork | ScopeHosts.

#[export] Instance Target_eq_dec : EqDecision Target.
Proof. solve_decision. Defined.

Definition target_scope (t : IntegrationTarget) : Target :=
  match t with
  | TargetDaemonHost _ => ScopeDaemonHost | TargetNetwork _ => ScopeNetwork | TargetHosts _ _ => ScopeHosts
  end.
Definition target_credential_id (t : IntegrationTarget) : Uuid :=
  match t with TargetDaemonHost c | TargetNetwork c | TargetHosts c _ => c end.

Definition credential_category (c : CredentialType) : CredentialCategory :=
  match c with
  | SnmpV1 _ | SnmpV2c _ | SnmpV3 _ _ _ _ _ _ => NetworkMonitoring
  | DockerProxy _ | DockerSocket _ | PodmanProxy _ | PodmanSocket _ => ContainerVirtualization
  | UnifiApiKey _ _ _ | UnifiLocalAdmin _ _ _ _ | InstantOnAccount _ _ _ => NetworkController
  end.

Definition cred_targets (c : CredentialType) : list Target :=
  match c with
  | SnmpV1 _ | SnmpV2c _ | SnmpV3 _ _ _ _ _ _ => [ScopeDaemonHost; ScopeHosts; ScopeNetwork]
  | DockerProxy _ | PodmanProxy _ => [ScopeDaemonHost; ScopeHosts]
  | DockerSocket _ | PodmanSocket _ => [ScopeDaemonHost]
  | UnifiApiKey _ _ _ | UnifiLocalAdmin _ _ _ _ => [ScopeDaemonHost; ScopeHosts]
  | InstantOnAccount _ _ _ => [ScopeHosts]
  end.

Definition single_endpoint_per_host (c : CredentialType) : bool :=
  match c with
  | DockerProxy _ | DockerSocket _ | PodmanProxy _ | PodmanSocket _
  | UnifiApiKey _ _ _ | UnifiLocalAdmin _ _ _ _ | InstantOnAccount _ _ _ => true
  | SnmpV1 _ | SnmpV2c _ | SnmpV3 _ _ _ _ _ _ => false
  end.

Definition associated_service (c : CredentialType) : ServiceDefinition :=
  match c with
  | SnmpV1 _ | SnmpV2c _ | SnmpV3 _ _ _ _ _ _ => Catalog.Snmp
  | DockerProxy _ | DockerSocket _ => Catalog.Docker
  | PodmanProxy _ | PodmanSocket _ => Catalog.Podman
  | UnifiApiKey _ _ _ | UnifiLocalAdmin _ _ _ _ => Catalog.UnifiController
  | InstantOnAccount _ _ _ => Catalog.InstantOn
  end.

Definition display_name (d : CredentialTypeDiscriminants) : string :=
  match d with
  | DSnmpV1 => "SNMP v1" | DSnmpV2c => "SNMP v2c" | DSnmpV3 => "SNMP v3"
  | DDockerProxy => "Docker Proxy" | DDockerSocket => "Docker Socket"
  | DPodmanProxy => "Podman Proxy" | DPodmanSocket => "Podman Socket"
  | DUnifiApiKey => "UniFi API Key" | DUnifiLocalAdmin => "UniFi Local Admin"
  | DInstantOnAccount => "Instant On Portal Account"
  end.

Definition upstream_support (d : CredentialTypeDiscriminants) : UpstreamSupport :=
  match d with
  | DUnifiApiKey | DUnifiLocalAdmin | DInstantOnAccount => Undocumented
  | _ => Vendor
  end.
Definition stability (d : CredentialTypeDiscriminants) : CredentialStability :=
  match d with DInstantOnAccount => Beta | _ => Stable end.

Definition default_docker_port : Z := port_number Ports.Docker.
Definition DEFAULT_UNIFI_PORT : Z := 443.
Definition DEFAULT_UNIFI_SITE : string := "default".

(** [to_credential_type]: the type with default fields. *)
Definition to_credential_type (d : CredentialTypeDiscriminants) : CredentialType :=
  let none := SecretInline "" in
  let proxy := {| px_port := default_docker_port; px_path := None; px_ssl_cert := None;
                  px_ssl_key := None; px_ssl_chain := None |} in
  match d with
  | DSnmpV1 => SnmpV1 none
  | DSnmpV2c => SnmpV2c none
  | DSnmpV3 => SnmpV3 "" Sha256 none Aes128 none None
  | DDockerProxy => DockerProxy proxy
  | DDockerSocket => DockerSocket None
  | DPodmanProxy => PodmanProxy proxy
  | DPodmanSocket => PodmanSocket None
  | DUnifiApiKey => UnifiApiKey DEFAULT_UNIFI_PORT DEFAULT_UNIFI_SITE none
  | DUnifiLocalAdmin => UnifiLocalAdmin DEFAULT_UNIFI_PORT DEFAULT_UNIFI_SITE "" none
  | DInstantOnAccount => InstantOnAccount "" none None
  end.

Section DaemonFloor.
Context {V : Type} `{SemVer V}.

Definition minimum_daemon_version (d : CredentialTypeDiscriminants) : V :=
  match d with
  | DSnmpV2c | DDockerProxy | DDockerSocket => ver_new 0 16 2
  | DSnmpV1 | DSnmpV3 => ver_new 0 17 0
  | DPodmanProxy | DPodmanSocket => ver_new 0 17 2
  | DUnifiApiKey | DUnifiLocalAdmin => ver_new 0 17 7
  | DInstantOnAccount => ver_new 0 17 11
  end.

Definition compatible_with_daemon (d : CredentialTypeDiscriminants) (daemon_version : option V) : bool :=
  match daemon_version with
  | Some v => ver_leb (minimum_daemon_version d) v
  | None => ver_leb (minimum_daemon_version d) (ver_new 0 16 2)
  end.
End DaemonFloor.

(** ** Payloads ([mapping.rs]) *)

Inductive ResolvableValue := RValue (value : string) | RFile (path : string).
Inductive ResolvableSecret := RSecret (value : string) | RSecretFile (path : string).

#[export] Instance ResolvableValue_eq_dec : EqDecision ResolvableValue.
Proof. solve_decision. Defined.
#[export] Instance ResolvableSecret_eq_dec : EqDecision ResolvableSecret.
Proof. solve_decision. Defined.

Record SnmpV3Params := {
  v3_security_name : string;
  v3_auth_protocol : SnmpV3AuthProtocol;
  v3_auth_password : ResolvableSecret;
  v3_priv_protocol : SnmpV3PrivProtocol;
  v3_priv_password : ResolvableSecret;
  v3_context_name : option string
}.
Record SnmpQueryCredential := {
  sq_version : SnmpVersion;
  sq_community : ResolvableSecret;
  sq_v3 : option SnmpV3Params
}.
Record ContainerProxyQueryCredential := {
  cp_port : Z;
  cp_path : option string;
  cp_ssl_cert : option ResolvableValue;
  cp_ssl_key : option ResolvableSecret;
  cp_ssl_chain : option ResolvableValue
}.
Record ContainerSocketQueryCredential := { cs_socket_path : option string }.
Inductive UnifiAuth :=
| ApiKey (api_key : ResolvableSecret)
| LocalAdmin (username : string) (password : ResolvableSecret).
Record UnifiQueryCredential := { uq_port : Z; uq_site : string; uq_auth : UnifiAuth }.
Record InstantOnQueryCredential := {
  io_username : string;
  io_password : ResolvableSecret;
  io_site : option string
}.

#[export] Instance SnmpV3Params_eq_dec : EqDecision SnmpV3Params.
Proof. solve_decision. Defined.
#[export] Instance SnmpQueryCredential_eq_dec : EqDecision SnmpQueryCredential.
Proof. solve_decision. Defined.
#[export] Instance ContainerProxyQueryCredential_eq_dec : EqDecision ContainerProxyQueryCredential.
Proof. solve_decision. Defined.
#[export] Instance ContainerSocketQueryCredential_eq_dec : EqDecision ContainerSocketQueryCredential.
Proof. solve_decision. Defined.
#[export] Instance UnifiAuth_eq_dec : EqDecision UnifiAuth.
Proof. solve_decision. Defined.
#[export] Instance UnifiQueryCredential_eq_dec : EqDecision UnifiQueryCredential.
Proof. solve_decision. Defined.
#[export] Instance InstantOnQueryCredential_eq_dec : EqDecision InstantOnQueryCredential.
Proof. solve_decision. Defined.

Inductive CredentialQueryPayload :=
| PSnmp (s : SnmpQueryCredential)
| PDockerProxy (p : ContainerProxyQueryCredential)
| PDockerSocket (s : ContainerSocketQueryCredential)
| PPodmanProxy (p : ContainerProxyQueryCredential)
| PPodmanSocket (s : ContainerSocketQueryCredential)
| PUnifiController (u : UnifiQueryCredential)
| PInstantOn (i : InstantOnQueryCredential)
| PUnknown.

#[export] Instance CredentialQueryPayload_eq_dec : EqDecision CredentialQueryPayload.
Proof. solve_decision. Defined.

(** [CredentialQueryPayloadDiscriminants]. *)
Inductive PayloadKind :=
| IntSnmp | IntDockerProxy | IntDockerSocket | IntPodmanProxy | IntPodmanSocket
| IntUnifiController | IntInstantOn | IntUnknown.

#[export] Instance PayloadKind_eq_dec : EqDecision PayloadKind.
Proof. solve_decision. Defined.

Definition payload_kind (p : CredentialQueryPayload) : PayloadKind :=
  match p with
  | PSnmp _ => IntSnmp | PDockerProxy _ => IntDockerProxy | PDockerSocket _ => IntDockerSocket
  | PPodmanProxy _ => IntPodmanProxy | PPodmanSocket _ => IntPodmanSocket
  | PUnifiController _ => IntUnifiController | PInstantOn _ => IntInstantOn | PUnknown => IntUnknown
  end.

(** [From<CredentialQueryPayloadDiscriminants> for CredentialTypeDiscriminants]. *)
Definition kind_credential_type (k : PayloadKind) : CredentialTypeDiscriminants :=
  match k with
  | IntSnmp => DSnmpV2c | IntDockerProxy => DDockerProxy | IntDockerSocket => DDockerSocket
  | IntPodmanProxy => DPodmanProxy | IntPodmanSocket => DPodmanSocket
  | IntUnifiController => DUnifiApiKey | IntInstantOn => DInstantOnAccount | IntUnknown => DSnmpV2c
  end.

Definition secret_to_resolvable (s : SecretValue) : ResolvableSecret :=
  match s with SecretInline v => RSecret v | SecretFile p => RSecretFile p end.
Definition file_or_inline (f : FileOrInline) : ResolvableValue :=
  match f with Inline v => RValue v | InFile p => RFile p end.

Definition container_proxy_query (p : ProxyFields) : ContainerProxyQueryCredential := {|
  cp_port := px_port p; cp_path := px_path p;
  cp_ssl_cert := file_or_inline <$> px_ssl_cert p;
  cp_ssl_key := secret_to_resolvable <$> px_ssl_key p;
  cp_ssl_chain := file_or_inline <$> px_ssl_chain p |}.

Definition to_query_payload (c : CredentialType) : CredentialQueryPayload :=
  match c with
  | SnmpV1 s => PSnmp {| sq_version := SnmpVersion1; sq_community := secret_to_resolvable s; sq_v3 := None |}
  | SnmpV2c s => PSnmp {| sq_version := SnmpVersion2c; sq_community := secret_to_resolvable s; sq_v3 := None |}
  | SnmpV3 n ap a pp p ctx =>
      PSnmp {| sq_version := SnmpVersion3; sq_community := RSecret "";
               sq_v3 := Some {| v3_security_name := n; v3_auth_protocol := ap;
                                v3_auth_password := secret_to_resolvable a; v3_priv_protocol := pp;
                                v3_priv_password := secret_to_resolvable p; v3_context_name := ctx |} |}
  | DockerProxy p => PDockerProxy (container_proxy_query p)
  | DockerSocket s => PDockerSocket {| cs_socket_path := s |}
  | PodmanProxy p => PPodmanProxy (container_proxy_query p)
  | PodmanSocket s => PPodmanSocket {| cs_socket_path := s |}
  | UnifiApiKey p s k =>
      PUnifiController {| uq_port := p; uq_site := s; uq_auth := ApiKey (secret_to_resolvable k) |}
  | UnifiLocalAdmin p s u k =>
      PUnifiController {| uq_port := p; uq_site := s; uq_auth := LocalAdmin u (secret_to_resolvable k) |}
  | InstantOnAccount u k s =>
      PInstantOn {| io_username := u; io_password := secret_to_resolvable k;
                    io_site := s ← s; if is_blank s then None else Some s |}
  end.

Definition as_container_proxy (p : CredentialQueryPayload) : option ContainerProxyQueryCredential :=
  match p with PDockerProxy c | PPodmanProxy c => Some c | _ => None end.

Definition required_scan_ports (p : CredentialQueryPayload) : list Z :=
  match p with
  | PSnmp _ => [161; 1161]
  | PDockerProxy d | PPodmanProxy d => [cp_port d]
  | PDockerSocket _ | PPodmanSocket _ => []
  | PUnifiController u => [uq_port u]
  | PInstantOn _ | PUnknown => []
  end.

Definition discovery_label (p : CredentialQueryPayload) : string :=
  match p with
  | PSnmp _ => "SNMP queries"
  | PDockerProxy _ => "Docker proxy connection"
  | PDockerSocket _ => "Docker socket connection"
  | PPodmanProxy _ => "Podman proxy connection"
  | PPodmanSocket _ => "Podman socket connection"
  | PUnifiController _ => "UniFi controller connection"
  | PInstantOn _ => "Instant On portal connection"
  | PUnknown => "unknown credential"
  end.

(** ** Form fields and validation ([types/fields.rs]) *)

Inductive InlineFormat := Plain | PemPrivateKey | PemCertificate.
Inductive PemTag := Certificate | PrivateKey | RsaPrivateKey | EcPrivateKey.
Inductive FieldType := FString | FText | FSelect | FSecretPathOrInline | FPathOrInline.

Record FieldDefinition := {
  fd_id : string;
  fd_label : string;
  field_type : FieldType;
  placeholder : option string;
  secret : bool;
  fd_optional : bool;
  help_text : option string;
  fd_options : option (list (string * string));
  default_value : option string;
  inline_format : option InlineFormat;
  fd_group : option string
}.

Definition auth_label (p : SnmpV3AuthProtocol) : string :=
  match p with Sha1 => "SHA-1" | Sha256 => "SHA-256" end.
Definition priv_label (p : SnmpV3PrivProtocol) : string :=
  match p with Aes128 => "AES-128" | Aes256 => "AES-256" end.
Definition AUTH_OPTIONS : list (string * string) := [("Sha1", "SHA-1"); ("Sha256", "SHA-256")].
Definition PRIV_OPTIONS : list (string * string) := [("Aes128", "AES-128"); ("Aes256", "AES-256")].

Definition unifi_connection_fields : list FieldDefinition :=
  [ {| fd_id := "port"; fd_label := "Controller Port"; field_type := FString; placeholder := (Some "443");
       secret := false; fd_optional := true;
       help_text := (Some "443 for a UniFi OS console (Dream Machine, Cloud Key, Cloud Gateway), 11443 for a self-hosted UniFi OS Server, or 8443 for the legacy self-hosted Network Application. Check the port in your controller's URL — the wrong port fails to connect.");
       fd_options := None; default_value := (Some "443"); inline_format := None; fd_group := (Some "Connection") |};
    {| fd_id := "site"; fd_label := "Site"; field_type := FString; placeholder := (Some "default");
       secret := false; fd_optional := true;
       help_text := (Some "Internal site name, taken from the controller URL (/manage/site/<name>) — not the site's display name. Most installations use 'default'.");
       fd_options := None; default_value := (Some "default"); inline_format := None; fd_group := (Some "Connection") |} ].

Definition socket_path_field (hint help : string) : FieldDefinition :=
  {| fd_id := "socket_path"; fd_label := "Socket Path"; field_type := FString; placeholder := Some hint;
       secret := false; fd_optional := true;
       help_text := Some help;
       fd_options := None; default_value := None; inline_format := None; fd_group := (Some "Connection") |}.

Definition container_proxy_field_definitions (port_label port_help : string) : list FieldDefinition :=
  [ {| fd_id := "port"; fd_label := port_label; field_type := FString; placeholder := (Some "2375");
       secret := false; fd_optional := true;
       help_text := (Some port_help);
       fd_options := None; default_value := (Some "2375"); inline_format := None; fd_group := (Some "Connection") |};
    {| fd_id := "path"; fd_label := "URL Path Prefix"; field_type := FString; placeholder := (Some "/");
       secret := false; fd_optional := true;
       help_text := (Some "Optional URL path prefix appended after the port");
       fd_options := None; default_value := None; inline_format := None; fd_group := (Some "Connection") |};
    {| fd_id := "ssl_cert"; fd_label := "SSL Certificate"; field_type := FPathOrInline; placeholder := (Some "-----BEGIN CERTIFICATE-----");
       secret := false; fd_optional := true;
       help_text := (Some "PEM-encoded client certificate. All three TLS fields (cert, key, CA chain) must be provided together.");
       fd_options := None; default_value := None; inline_format := (Some PemCertificate); fd_group := (Some "TLS") |};
    {| fd_id := "ssl_key"; fd_label := "SSL Private Key"; field_type := FSecretPathOrInline; placeholder := None;
       secret := true; fd_optional := true;
       help_text := (Some "PEM private key. All three TLS fields must be provided together.");
       fd_options := None; default_value := None; inline_format := (Some PemPrivateKey); fd_group := (Some "TLS") |};
    {| fd_id := "ssl_chain"; fd_label := "SSL CA Chain"; field_type := FPathOrInline; placeholder := (Some "-----BEGIN CERTIFICATE-----");
       secret := false; fd_optional := true;
       help_text := (Some "PEM-encoded CA certificate chain. All three TLS fields must be provided together.");
       fd_options := None; default_value := None; inline_format := (Some PemCertificate); fd_group := (Some "TLS") |} ].

Definition field_definitions (c : CredentialType) : list FieldDefinition :=
  match c with
  | SnmpV1 _ | SnmpV2c _ =>
    [ {| fd_id := "community"; fd_label := "Community String"; field_type := FSecretPathOrInline; placeholder := (Some "custom-community-string");
       secret := true; fd_optional := false;
       help_text := (Some "Custom SNMP community string. The default 'public' community is always tried automatically during scans.");
       fd_options := None; default_value := None; inline_format := (Some Plain); fd_group := None |} ]
  | SnmpV3 _ _ _ _ _ _ =>
    [ {| fd_id := "security_name"; fd_label := "Security Name"; field_type := FString; placeholder := (Some "snmp-user");
       secret := false; fd_optional := false;
       help_text := (Some "SNMPv3 USM user name (security name).");
       fd_options := None; default_value := None; inline_format := None; fd_group := (Some "Authentication") |};
    {| fd_id := "auth_protocol"; fd_label := "Auth Protocol"; field_type := FSelect; placeholder := None;
       secret := false; fd_optional := false;
       help_text := (Some "Authentication hash algorithm.");
       fd_options := (Some AUTH_OPTIONS); default_value := (Some "Sha256"); inline_format := None; fd_group := (Some "Authentication") |};
    {| fd_id := "auth_password"; fd_label := "Auth Password"; field_type := FSecretPathOrInline; placeholder := None;
       secret := true; fd_optional := false;
       help_text := (Some "Authentication password (minimum 8 characters).");
       fd_options := None; default_value := None; inline_format := (Some Plain); fd_group := (Some "Authentication") |};
    {| fd_id := "priv_protocol"; fd_label := "Privacy Protocol"; field_type := FSelect; placeholder := None;
       secret := false; fd_optional := false;
       help_text := (Some "Privacy (encryption) algorithm.");
       fd_options := (Some PRIV_OPTIONS); default_value := (Some "Aes128"); inline_format := None; fd_group := (Some "Privacy") |};
    {| fd_id := "priv_password"; fd_label := "Privacy Password"; field_type := FSecretPathOrInline; placeholder := None;
       secret := true; fd_optional := false;
       help_text := (Some "Privacy (encryption) password (minimum 8 characters).");
       fd_options := None; default_value := None; inline_format := (Some Plain); fd_group := (Some "Privacy") |};
    {| fd_id := "context_name"; fd_label := "Context Name"; field_type := FString; placeholder := (Some "(default)");
       secret := false; fd_optional := true;
       help_text := (Some "Optional SNMPv3 context name. Leave blank for the default context (used by interface and LLDP data).");
       fd_options := None; default_value := None; inline_format := None; fd_group := None |} ]
  | DockerProxy _ => container_proxy_field_definitions
    "Docker API Port"
    "Docker API port. Use 2375 for non-TLS proxies (Tecnativa, HAProxy) or 2376 for TLS."
  | PodmanProxy _ => container_proxy_field_definitions
    "Podman API Port"
    "Podman API port. Point at a TCP-exposed Podman service (e.g. `podman system service tcp:`) directly or behind a TLS proxy."
  | DockerSocket _ => [socket_path_field
    "/var/run/docker.sock"
    "Path to the Docker Unix socket. Leave blank to auto-detect (DOCKER_HOST or /var/run/docker.sock)."]
  | PodmanSocket _ => [socket_path_field
    "/run/podman/podman.sock"
    "Path to the Podman Unix socket. Leave blank to auto-detect (rootful /run/podman/podman.sock or the rootless $XDG_RUNTIME_DIR/podman/podman.sock)."]
  | UnifiApiKey _ _ _ => unifi_connection_fields ++[ {| fd_id := "api_key"; fd_label := "API Key"; field_type := FSecretPathOrInline; placeholder := None;
       secret := true; fd_optional := false;
       help_text := (Some "Network Application API key (Settings → Control Plane → Integrations → Create API Key). Requires UniFi OS; the legacy self-hosted Network Application on 8443 has no API keys — use a UniFi Local Admin credential there instead.");
       fd_options := None; default_value := None; inline_format := (Some Plain); fd_group := (Some "Authentication") |} ]
  | UnifiLocalAdmin _ _ _ _ => unifi_connection_fields ++[ {| fd_id := "username"; fd_label := "Username"; field_type := FString; placeholder := None;
       secret := false; fd_optional := false;
       help_text := (Some "Controller admin username. Use a local-only admin account so multi-factor authentication does not block the login.");
       fd_options := None; default_value := None; inline_format := None; fd_group := (Some "Authentication") |};
    {| fd_id := "password"; fd_label := "Password"; field_type := FSecretPathOrInline; placeholder := None;
       secret := true; fd_optional := false;
       help_text := (Some "Password for the local admin account.");
       fd_options := None; default_value := None; inline_format := (Some Plain); fd_group := (Some "Authentication") |} ]
  | InstantOnAccount _ _ _ =>
    [ {| fd_id := "username"; fd_label := "Portal Account"; field_type := FString; placeholder := (Some "scanopy@example.com");
       secret := false; fd_optional := false;
       help_text := (Some "Email address of an Instant On portal account with access to the site. Add a dedicated account with the read-only Viewer role (Site management → Accounts managing this site) rather than using your own administrator login, and make sure multi-factor authentication is disabled on it — the sign-in cannot answer an MFA prompt.");
       fd_options := None; default_value := None; inline_format := None; fd_group := (Some "Authentication") |};
    {| fd_id := "password"; fd_label := "Password"; field_type := FSecretPathOrInline; placeholder := None;
       secret := true; fd_optional := false;
       help_text := (Some "Password for that portal account.");
       fd_options := None; default_value := None; inline_format := (Some Plain); fd_group := (Some "Authentication") |};
    {| fd_id := "site"; fd_label := "Site"; field_type := FString; placeholder := (Some "(all sites)");
       secret := false; fd_optional := true;
       help_text := (Some "Limit the fetch to one Instant On site by name. Leave blank to read every site this account can see. Assign this credential to a single switch — each host it is assigned to fetches the whole site again.");
       fd_options := None; default_value := None; inline_format := None; fd_group := (Some "Scope") |} ]
  end%list.

Definition requires_config (c : CredentialType) : bool :=
  match field_definitions c with [] => false | _ :: _ => true end.

Definition tag_str (t : PemTag) : string :=
  match t with
  | Certificate => "CERTIFICATE" | PrivateKey => "PRIVATE KEY"
  | RsaPrivateKey => "RSA PRIVATE KEY" | EcPrivateKey => "EC PRIVATE KEY"
  end.
Definition allowed_pem_tags (f : InlineFormat) : list PemTag :=
  match f with
  | Plain => []
  | PemCertificate => [Certificate]
  | PemPrivateKey => [PrivateKey; RsaPrivateKey; EcPrivateKey]
  end.

Definition inline_secret (s : SecretValue) : option string :=
  match s with
  | SecretInline v => if String.eqb v REDACTED_SECRET_SENTINEL then None else Some v
  | SecretFile _ => None
  end.
Definition inline_text (f : FileOrInline) : option string :=
  match f with Inline v => Some v | InFile _ => None end.

(** [get_inline_value]. *)
Definition get_inline_value (c : CredentialType) (field_id : string) : option string :=
  match c with
  | SnmpV1 s | SnmpV2c s => if String.eqb field_id "community" then inline_secret s else None
  | SnmpV3 _ _ a _ p _ =>
      if String.eqb field_id "auth_password" then inline_secret a
      else if String.eqb field_id "priv_password" then inline_secret p else None
  | DockerProxy p | PodmanProxy p =>
      if String.eqb field_id "ssl_cert" then f ← px_ssl_cert p; inline_text f
      else if String.eqb field_id "ssl_key" then k ← px_ssl_key p; inline_secret k
      else if String.eqb field_id "ssl_chain" then f ← px_ssl_chain p; inline_text f
      else None
  | UnifiApiKey _ _ k => if String.eqb field_id "api_key" then inline_secret k else None
  | UnifiLocalAdmin _ _ _ k | InstantOnAccount _ k _ =>
      if String.eqb field_id "password" then inline_secret k else None
  | DockerSocket _ | PodmanSocket _ => None
  end.

Section Pem.
(** [pem::parse_many]: the tags of the blocks of a text, or the error's text. *)
Context (parse_many : string → result (list string) string).

(** [validate_pem]. *)
Definition validate_pem (value field_name : string) (allowed : list PemTag) : result unit string :=
  let trimmed := bytes_str (trim (str_bytes value)) in
  if String.eqb trimmed "" then Ok tt
  else
    match parse_many trimmed with
    | Err e => Err (field_name +:+ " is not valid PEM: " +:+ e)
    | Ok [] => Err (field_name +:+ " contains no PEM data")
    | Ok tags =>
        if existsb (λ t, existsb (λ a, String.eqb (tag_str a) t) allowed) tags then Ok tt
        else Err (field_name +:+ " must contain a " +:+ String.concat " or " (tag_str <$> allowed)
                    +:+ " PEM block, found: " +:+ String.concat ", " tags)
    end.

(** [InlineFormat::validate]. *)
Definition validate_inline (f : InlineFormat) (value field_name : string) : result unit string :=
  match allowed_pem_tags f with
  | [] => Ok tt
  | tags => validate_pem value field_name tags
  end.

(** [CredentialType::validate]. *)
Definition validate_field (c : CredentialType) (f : FieldDefinition) : result unit string :=
  match inline_format f, get_inline_value c (fd_id f) with
  | Some fmt, Some v => validate_inline fmt v (fd_label f)
  | _, _ => Ok tt
  end.
Fixpoint validate_fields (c : CredentialType) (fs : list FieldDefinition) : result unit string :=
  match fs with
  | [] => Ok tt
  | f :: fs' => match validate_field c f with Ok _ => validate_fields c fs' | Err e => Err e end
  end.
Definition validate (c : CredentialType) : result unit string := validate_fields c (field_definitions c).

(** ** Reading files on the daemon *)

(** [std::fs::read_to_string] and [Path::exists]. *)
Context (read_to_string : string → result string string) (path_exists : string → bool).

Definition read_error (field path label e : string) : string :=
  "Failed to read " +:+ field +:+ " from " +:+ path +:+ " for " +:+ label +:+ ": " +:+ e.

Definition resolve_value (field label : string) (v : ResolvableValue) : result ResolvableValue string :=
  match v with
  | RValue _ => Ok v
  | RFile p => match read_to_string p with Ok s => Ok (RValue s) | Err e => Err (read_error field p label e) end
  end.
Definition resolve_secret (field label : string) (v : ResolvableSecret) : result ResolvableSecret string :=
  match v with
  | RSecret _ => Ok v
  | RSecretFile p =>
      match read_to_string p with Ok s => Ok (RSecret s) | Err e => Err (read_error field p label e) end
  end.

(** [Option::map(..).transpose()]. *)
Definition transpose {A B} (f : A → result B string) (o : option A) : result (option B) string :=
  match o with
  | None => Ok None
  | Some a => match f a with Ok b => Ok (Some b) | Err e => Err e end
  end.

Definition check_value (f : InlineFormat) (name : string) (o : option ResolvableValue) : result unit string :=
  match o with Some (RValue v) => validate_inline f v name | _ => Ok tt end.
Definition check_secret (f : InlineFormat) (name : string) (o : option ResolvableSecret) : result unit string :=
  match o with Some (RSecret v) => validate_inline f v name | _ => Ok tt end.

Local Open Scope rust_scope.

Definition resolve_v3 (label : string) (v : SnmpV3Params) : result SnmpV3Params string :=
  let? a := resolve_secret "auth_password" label (v3_auth_password v) in
  let? p := resolve_secret "priv_password" label (v3_priv_password v) in
  Ok {| v3_security_name := v3_security_name v; v3_auth_protocol := v3_auth_protocol v;
        v3_auth_password := a; v3_priv_protocol := v3_priv_protocol v; v3_priv_password := p;
        v3_context_name := v3_context_name v |}.

Definition resolve_proxy (label : string) (d : ContainerProxyQueryCredential)
    : result ContainerProxyQueryCredential string :=
  let? cert := transpose (resolve_value "ssl_cert" label) (cp_ssl_cert d) in
  let? key := transpose (resolve_secret "ssl_key" label) (cp_ssl_key d) in
  let? chain := transpose (resolve_value "ssl_chain" label) (cp_ssl_chain d) in
  let? _u := check_value PemCertificate "SSL Certificate" cert in
  let? _u := check_secret PemPrivateKey "SSL Private Key" key in
  let? _u := check_value PemCertificate "SSL CA Chain" chain in
  Ok {| cp_port := cp_port d; cp_path := cp_path d; cp_ssl_cert := cert; cp_ssl_key := key;
        cp_ssl_chain := chain |}.

Definition resolve_file_paths (p : CredentialQueryPayload) : result CredentialQueryPayload string :=
  let label := discovery_label p in
  match p with
  | PSnmp s =>
      let? v3 := transpose (resolve_v3 label) (sq_v3 s) in
      let? c := resolve_secret "community" label (sq_community s) in
      Ok (PSnmp {| sq_version := sq_version s; sq_community := c; sq_v3 := v3 |})
  | PDockerProxy d => let? r := resolve_proxy label d in Ok (PDockerProxy r)
  | PPodmanProxy d => let? r := resolve_proxy label d in Ok (PPodmanProxy r)
  | PDockerSocket _ | PPodmanSocket _ | PUnknown => Ok p
  | PUnifiController u =>
      let? auth := match uq_auth u with
                   | ApiKey k => let? k := resolve_secret "api_key" label k in Ok (ApiKey k)
                   | LocalAdmin n k => let? k := resolve_secret "password" label k in Ok (LocalAdmin n k)
                   end in
      Ok (PUnifiController {| uq_port := uq_port u; uq_site := uq_site u; uq_auth := auth |})
  | PInstantOn i =>
      let? k := resolve_secret "password" label (io_password i) in
      Ok (PInstantOn {| io_username := io_username i; io_password := k; io_site := io_site i |})
  end.

(** ** The credential banner *)

Inductive BannerFieldValue :=
| BPlain (v : string) | InlineSummary (len : nat) | RedactedInline (len : nat)
| FileOk (path : string) | FileFailed (path : string).
Record BannerField := { bf_label : string; bf_value : BannerFieldValue }.

Definition num_text (n : Z) : string := NilZero.string_of_int (Z.to_int n).

Definition banner_text (b : BannerFieldValue) : string :=
  match b with
  | BPlain v => v
  | InlineSummary n => "<inline, " +:+ num_text (Z.of_nat n) +:+ " chars>"
  | RedactedInline n => "******** (" +:+ num_text (Z.of_nat n) +:+ " chars)"
  | FileOk p => "successfully read from " +:+ p
  | FileFailed p => "failed to read from " +:+ p
  end.
Definition is_failed (b : BannerFieldValue) : bool := match b with FileFailed _ => true | _ => false end.

Definition file_banner (p : string) : BannerFieldValue := if path_exists p then FileOk p else FileFailed p.
Definition value_banner (v : ResolvableValue) : BannerFieldValue :=
  match v with
  | RValue s => if (64 <? String.length s)%nat then InlineSummary (String.length s) else BPlain s
  | RFile p => file_banner p
  end.
Definition secret_banner (v : ResolvableSecret) : BannerFieldValue :=
  match v with
  | RSecret s => RedactedInline (String.length s)
  | RSecretFile p => file_banner p
  end.

Definition line (l : string) (v : BannerFieldValue) : BannerField := {| bf_label := l; bf_value := v |}.
Definition opt_line {A} (l : string) (f : A → BannerFieldValue) (o : option A) : list BannerField :=
  match o with Some a => [line l (f a)] | None => [] end.

Definition version_text (v : SnmpVersion) : string :=
  match v with SnmpVersion1 => "V1" | SnmpVersion2c => "V2c" | SnmpVersion3 => "V3" end.

Definition snmp_banner_lines (s : SnmpQueryCredential) : list BannerField :=
  line "Version" (BPlain (version_text (sq_version s))) ::
  match sq_version s, sq_v3 s with
  | SnmpVersion3, Some v =>
      [line "Security Name" (BPlain (v3_security_name v));
       line "Auth Protocol" (BPlain (auth_label (v3_auth_protocol v)));
       line "Auth Password" (secret_banner (v3_auth_password v));
       line "Priv Protocol" (BPlain (priv_label (v3_priv_protocol v)));
       line "Priv Password" (secret_banner (v3_priv_password v))]
  | _, _ => [line "Community" (secret_banner (sq_community s))]
  end.
Definition proxy_banner_lines (c : ContainerProxyQueryCredential) : list BannerField :=
  ((line "Port" (BPlain (num_text (cp_port c))) :: opt_line "Path" BPlain (cp_path c)) ++
  opt_line "SSL cert" value_banner (cp_ssl_cert c) ++
  opt_line "SSL key" secret_banner (cp_ssl_key c) ++
  opt_line "SSL chain" value_banner (cp_ssl_chain c))%list.
Definition unifi_banner_lines (u : UnifiQueryCredential) : list BannerField :=
  ([line "Port" (BPlain (num_text (uq_port u))); line "Site" (BPlain (uq_site u))] ++
  match uq_auth u with
  | ApiKey k => [line "API key" (secret_banner k)]
  | LocalAdmin n k => [line "Username" (BPlain n); line "Password" (secret_banner k)]
  end)%list.
Definition instant_on_banner_lines (i : InstantOnQueryCredential) : list BannerField :=
  ([line "Account" (BPlain (io_username i)); line "Password" (secret_banner (io_password i))] ++
   opt_line "Site" BPlain (io_site i))%list.

Definition banner_lines (p : CredentialQueryPayload) : list BannerField :=
  match p with
  | PSnmp s => snmp_banner_lines s
  | PDockerProxy c | PPodmanProxy c => proxy_banner_lines c
  | PDockerSocket _ | PPodmanSocket _ | PUnknown => []
  | PUnifiController u => unifi_banner_lines u
  | PInstantOn i => instant_on_banner_lines i
  end%list.
End Pem.

(** ** Mappings *)

Record IpOverride (T : Type) := { ov_ip : IpAddr; ov_credential : T; ov_credential_id : Uuid }.
Arguments ov_ip {T} _.
Arguments ov_credential {T} _.
Arguments ov_credential_id {T} _.
Arguments Build_IpOverride {T} _ _ _.

Record CredentialMapping (T : Type) := {
  default_credential : option T;
  ip_overrides : list (IpOverride T)
}.
Arguments default_credential {T} _.
Arguments ip_overrides {T} _.
Arguments Build_CredentialMapping {T} _ _.

Definition LOCALHOST : IpAddr := ipv4 127 0 0 1.
Definition is_localhost {T} (o : IpOverride T) : bool :=
  bool_decide (ov_ip o = LOCALHOST) || bool_decide (ov_ip o = V6 1).
Definition is_enabled {T} (m : CredentialMapping T) : bool :=
  bool_decide (is_Some (default_credential m)) || match ip_overrides m with [] => false | _ :: _ => true end.
Definition get_credential_for_ip {T} (m : CredentialMapping T) (ip : IpAddr) : option T :=
  match List.find (λ o, bool_decide (ov_ip o = ip)) (ip_overrides m) with
  | Some o => Some (ov_credential o)
  | None => default_credential m
  end.
(** The ids named by the overrides, as a set. *)
Definition mapping_credential_ids {T} (m : CredentialMapping T) : gset Uuid :=
  list_to_set (List.filter (λ i, negb (i =? uuid_nil)%N) (ov_credential_id <$> ip_overrides m)).

Record ResolvedCredential (T : Type) := { rc_credential : T; rc_credential_id : option Uuid }.
Arguments rc_credential {T} _.
Arguments rc_credential_id {T} _.
Arguments Build_ResolvedCredential {T} _ _.

Definition some_id (i : Uuid) : option Uuid := if (i =? uuid_nil)%N then None else Some i.

(** [SnmpCredentialMapping::get_credentials_by_specificity] of the daemons before
    0.15: the override, the default, then the community [public]. *)
Definition public_default : SnmpQueryCredential :=
  {| sq_version := SnmpVersion2c; sq_community := RSecret "public"; sq_v3 := None |}.
Definition push_community (id : option Uuid) (c : SnmpQueryCredential)
    (l : list (ResolvedCredential SnmpQueryCredential)) : list (ResolvedCredential SnmpQueryCredential) :=
  if existsb (λ r, bool_decide (sq_community (rc_credential r) = sq_community c)) l then l
  else (l ++ [{| rc_credential := c; rc_credential_id := id |}])%list.
Definition get_credentials_by_specificity (m : CredentialMapping SnmpQueryCredential) (ip : IpAddr)
    : list (ResolvedCredential SnmpQueryCredential) :=
  let own := match List.find (λ o, bool_decide (ov_ip o = ip)) (ip_overrides m) with
             | Some o => [{| rc_credential := ov_credential o; rc_credential_id := some_id (ov_credential_id o) |}]
             | None => []
             end in
  let with_default := match default_credential m with
                      | Some d => push_community None d own
                      | None => own
                      end in
  push_community None public_default with_default.

(** The plaintext view sent to those daemons. *)
Definition expose_snmp (c : SnmpQueryCredential) : SnmpVersion * string :=
  (sq_version c, match sq_community c with RSecret v => v | RSecretFile _ => "" end).
Definition expose_mapping (m : CredentialMapping SnmpQueryCredential)
    : option (SnmpVersion * string) * list (IpAddr * (SnmpVersion * string)) :=
  (expose_snmp <$> default_credential m, (λ o, (ov_ip o, expose_snmp (ov_credential o))) <$> ip_overrides m).
