(* ===== verification/CredentialStore.v ===== *)
(** Where credentials are assigned, and the mappings a daemon is sent
    ([server/credentials/service.rs], [server/credentials/impl/junction.rs],
    the checks of [server/credentials/handlers.rs]).

    The database is a record of tables.  The tables' constraints are those of
    the migration that creates them: the pair of ids is the primary key of a
    junction table, and both ids refer to rows. *)

From S2P Require Import Prelude Effects Net Entities Patterns Discovery Hosts Versions Credentials EdgeBuilder.
Local Open Scope Z_scope.

(** ** Tables *)

Record CredentialHostAssignment := { ha_host_id : Uuid; ha_ip_address_ids : option (list Uuid) }.

Record Credential := {
  cr_id : Uuid;
  cr_organization_id : Uuid;
  cr_name : string;
  credential_type : CredentialType;
  assigned_network_ids : list Uuid;
  host_assignments : list CredentialHostAssignment
}.

Record NetworkCredential := { nc_network_id : Uuid; nc_credential_id : Uuid }.
Record HostCredential := { hc_host_id : Uuid; hc_credential_id : Uuid; hc_ip_address_ids : option (list Uuid) }.

Record CredStore := {
  cs_credentials : list Credential;
  cs_networks : gmap Uuid Uuid;  (** the organization of a network *)
  cs_hosts : gmap Uuid Uuid;  (** the network of a host *)
  cs_host_order : list Uuid;  (** the hosts, as the database lists them *)
  cs_ips : list IPAddress;
  cs_daemon_hosts : list (Uuid * Uuid);  (** a daemon's network and host *)
  network_credentials : list NetworkCredential;
  host_credentials : list HostCredential
}.

Definition set_network_rows (l : list NetworkCredential) (w : CredStore) : CredStore := {|
  cs_credentials := cs_credentials w; cs_networks := cs_networks w; cs_hosts := cs_hosts w;
  cs_host_order := cs_host_order w; cs_ips := cs_ips w; cs_daemon_hosts := cs_daemon_hosts w;
  network_credentials := l; host_credentials := host_credentials w |}.
Definition set_host_rows (l : list HostCredential) (w : CredStore) : CredStore := {|
  cs_credentials := cs_credentials w; cs_networks := cs_networks w; cs_hosts := cs_hosts w;
  cs_host_order := cs_host_order w; cs_ips := cs_ips w; cs_daemon_hosts := cs_daemon_hosts w;
  network_credentials := network_credentials w; host_credentials := l |}.
Definition set_credentials_rows (l : list Credential) (w : CredStore) : CredStore := {|
  cs_credentials := l; cs_networks := cs_networks w; cs_hosts := cs_hosts w;
  cs_host_order := cs_host_order w; cs_ips := cs_ips w; cs_daemon_hosts := cs_daemon_hosts w;
  network_credentials := network_credentials w; host_credentials := host_credentials w |}.

Definition get_by_id (w : CredStore) (id : Uuid) : option Credential :=
  List.find (λ c, (cr_id c =? id)%N) (cs_credentials w).

(** ** Junction tables ([junction.rs]) *)

Definition id_leb (a b : Uuid) : bool := (a <=? b)%N.

(** [get_all_ordered]: the rows a filter selects, by a key. *)
Definition ordered {A} (key : A → Uuid) (sel : A → bool) (l : list A) : list A :=
  sort_by (λ a b, id_leb (key a) (key b)) (List.filter sel l).

(** [map.entry(k).or_default().push(v)], over a list of rows. *)
Definition group_rows {A B} (key : A → Uuid) (val : A → B) (l : list A) : gmap Uuid (list B) :=
  foldl (λ m a, <[key a := default [] (m !! key a) ++ [val a]]> m) ∅ l.

Definition get_credential_ids_for_network (w : CredStore) (n : Uuid) : list Uuid :=
  nc_credential_id <$> ordered nc_credential_id (λ r, (nc_network_id r =? n)%N) (network_credentials w).

Definition get_network_ids_for_credential (w : CredStore) (c : Uuid) : list Uuid :=
  nc_network_id <$> ordered nc_network_id (λ r, (nc_credential_id r =? c)%N) (network_credentials w).

Definition get_credential_ids_for_networks (w : CredStore) (ns : list Uuid) : gmap Uuid (list Uuid) :=
  match ns with
  | [] => ∅
  | _ => group_rows nc_network_id nc_credential_id
           (ordered nc_network_id (λ r, bool_decide (nc_network_id r ∈ ns)) (network_credentials w))
  end.

Definition get_network_ids_for_credentials (w : CredStore) (cs : list Uuid) : gmap Uuid (list Uuid) :=
  match cs with
  | [] => ∅
  | _ => group_rows nc_credential_id nc_network_id
           (ordered nc_credential_id (λ r, bool_decide (nc_credential_id r ∈ cs)) (network_credentials w))
  end.

Definition row_assignment (r : HostCredential) : CredentialAssignment :=
  {| credential_id := hc_credential_id r; ip_address_ids := hc_ip_address_ids r |}.
Definition row_host (r : HostCredential) : CredentialHostAssignment :=
  {| ha_host_id := hc_host_id r; ha_ip_address_ids := hc_ip_address_ids r |}.

Definition get_assignments_for_host (w : CredStore) (h : Uuid) : list CredentialAssignment :=
  row_assignment <$> ordered hc_credential_id (λ r, (hc_host_id r =? h)%N) (host_credentials w).

Definition get_assignments_for_hosts (w : CredStore) (hs : list Uuid) : gmap Uuid (list CredentialAssignment) :=
  match hs with
  | [] => ∅
  | _ => group_rows hc_host_id row_assignment
           (ordered hc_host_id (λ r, bool_decide (hc_host_id r ∈ hs)) (host_credentials w))
  end.

Definition get_host_assignments_for_credential (w : CredStore) (c : Uuid) : list CredentialHostAssignment :=
  row_host <$> ordered hc_host_id (λ r, (hc_credential_id r =? c)%N) (host_credentials w).

Definition get_host_assignments_for_credentials (w : CredStore) (cs : list Uuid)
    : gmap Uuid (list CredentialHostAssignment) :=
  match cs with
  | [] => ∅
  | _ => group_rows hc_credential_id row_host
           (ordered hc_credential_id (λ r, bool_decide (hc_credential_id r ∈ cs)) (host_credentials w))
  end.

(** ** Writes

    An insert fails on a pair that is there or an id that refers to nothing; a
    failed transaction leaves the tables as they were. *)
Inductive StoreError := DuplicateKey | ForeignKey.

Definition nc_ok (w : CredStore) (r : NetworkCredential) : bool :=
  bool_decide (is_Some (cs_networks w !! nc_network_id r)) && bool_decide (is_Some (get_by_id w (nc_credential_id r))).
Definition nc_same (a b : NetworkCredential) : bool :=
  (nc_network_id a =? nc_network_id b)%N && (nc_credential_id a =? nc_credential_id b)%N.
Fixpoint insert_networks (w : CredStore) (rows : list NetworkCredential) (l : list NetworkCredential)
    : result (list NetworkCredential) StoreError :=
  match rows with
  | [] => Ok l
  | r :: rows' =>
      if existsb (nc_same r) l then Err DuplicateKey
      else if nc_ok w r then insert_networks w rows' (l ++ [r]) else Err ForeignKey
  end.

Definition hc_ok (w : CredStore) (r : HostCredential) : bool :=
  bool_decide (is_Some (cs_hosts w !! hc_host_id r)) && bool_decide (is_Some (get_by_id w (hc_credential_id r))).
Definition hc_same (a b : HostCredential) : bool :=
  (hc_host_id a =? hc_host_id b)%N && (hc_credential_id a =? hc_credential_id b)%N.
Fixpoint insert_hosts (w : CredStore) (rows : list HostCredential) (l : list HostCredential)
    : result (list HostCredential) StoreError :=
  match rows with
  | [] => Ok l
  | r :: rows' =>
      if existsb (hc_same r) l then Err DuplicateKey
      else if hc_ok w r then insert_hosts w rows' (l ++ [r]) else Err ForeignKey
  end.

Definition replace_networks (gone : NetworkCredential → bool) (rows : list NetworkCredential) (w : CredStore)
    : CredStore * result unit StoreError :=
  match insert_networks w rows (List.filter (λ r, negb (gone r)) (network_credentials w)) with
  | Ok l => (set_network_rows l w, Ok tt)
  | Err e => (w, Err e)
  end.
Definition replace_hosts (gone : HostCredential → bool) (rows : list HostCredential) (w : CredStore)
    : CredStore * result unit StoreError :=
  match insert_hosts w rows (List.filter (λ r, negb (gone r)) (host_credentials w)) with
  | Ok l => (set_host_rows l w, Ok tt)
  | Err e => (w, Err e)
  end.

Definition save_for_network (n : Uuid) (cs : list Uuid) : CredStore → CredStore * result unit StoreError :=
  replace_networks (λ r, (nc_network_id r =? n)%N)
    ((λ c, {| nc_network_id := n; nc_credential_id := c |}) <$> cs).
Definition save_networks_for_credential (c : Uuid) (ns : list Uuid)
    : CredStore → CredStore * result unit StoreError :=
  replace_networks (λ r, (nc_credential_id r =? c)%N)
    ((λ n, {| nc_network_id := n; nc_credential_id := c |}) <$> ns).
Definition save_for_host (h : Uuid) (l : list CredentialAssignment) : CredStore → CredStore * result unit StoreError :=
  replace_hosts (λ r, (hc_host_id r =? h)%N)
    ((λ a, {| hc_host_id := h; hc_credential_id := credential_id a; hc_ip_address_ids := ip_address_ids a |}) <$> l).
Definition save_host_assignments_for_credential (c : Uuid) (l : list CredentialHostAssignment)
    : CredStore → CredStore * result unit StoreError :=
  replace_hosts (λ r, (hc_credential_id r =? c)%N)
    ((λ a, {| hc_host_id := ha_host_id a; hc_credential_id := c; hc_ip_address_ids := ha_ip_address_ids a |}) <$> l).

(** [merge_network_credentials], [merge_host_credentials]. *)
Definition merged_network (existing incoming : list Uuid) : list Uuid := foldl push_new existing incoming.
Definition merge_network_credentials (n : Uuid) (incoming : list Uuid) (w : CredStore)
    : CredStore * result unit StoreError :=
  save_for_network n (merged_network (get_credential_ids_for_network w n) incoming) w.

Definition merged_host (existing incoming : list CredentialAssignment) : list CredentialAssignment :=
  List.filter (λ a, negb (bool_decide (credential_id a ∈ credential_id <$> incoming))) existing ++ incoming.
Definition merge_host_credentials (h : Uuid) (incoming : list CredentialAssignment) (w : CredStore)
    : CredStore * result unit StoreError :=
  save_for_host h (merged_host (default [] (get_assignments_for_hosts w [h] !! h)) incoming) w.

(** ** One endpoint per host *)

Record CredentialTargets := {
  ct_networks : gset Uuid;
  ct_hosts : list (Uuid * option (gset Uuid))
}.

Definition targets_build (networks : list Uuid) (hosts : list CredentialHostAssignment) : CredentialTargets := {|
  ct_networks := list_to_set networks;
  ct_hosts := (λ h, (ha_host_id h, (list_to_set : list Uuid → gset Uuid) <$> ha_ip_address_ids h)) <$> hosts |}.
Definition for_host (h : Uuid) : CredentialTargets := {| ct_networks := ∅; ct_hosts := [(h, None)] |}.

(** [HashSet::is_disjoint]. *)
Definition is_disjoint (a b : gset Uuid) : bool := bool_decide (a ∩ b = ∅).

Definition scopes_meet (s1 s2 : option (gset Uuid)) : bool :=
  match s1, s2 with
  | Some a, Some b => negb (is_disjoint a b)
  | _, _ => true
  end.
Definition targets_overlap (a b : CredentialTargets) : bool :=
  negb (is_disjoint (ct_networks a) (ct_networks b))
  || existsb (λ x, existsb (λ y, (x.1 =? y.1)%N && scopes_meet x.2 y.2) (ct_hosts b)) (ct_hosts a).

Definition integration_name (c : CredentialType) : string := def_name (associated_service c).

Definition single_endpoint_targets_conflict (a : CredentialType) (ta : CredentialTargets)
    (b : CredentialType) (tb : CredentialTargets) : bool :=
  single_endpoint_per_host a && single_endpoint_per_host b
  && String.eqb (integration_name a) (integration_name b) && targets_overlap ta tb.

(** The targets a credential has in the junction tables. *)
Definition stored_targets (w : CredStore) (ids : list Uuid) (c : Uuid) : CredentialTargets :=
  targets_build (default [] (get_network_ids_for_credentials w ids !! c))
    (default [] (get_host_assignments_for_credentials w ids !! c)).

Definition find_single_endpoint_conflict (w : CredStore) (candidate : Credential) : option string :=
  let ct := credential_type candidate in
  if negb (single_endpoint_per_host ct) then None
  else
    let others := List.filter (λ c, String.eqb (integration_name (credential_type c)) (integration_name ct))
                    (List.filter (λ c, negb (cr_id c =? cr_id candidate)%N)
                       (List.filter (λ c, (cr_organization_id c =? cr_organization_id candidate)%N)
                          (cs_credentials w))) in
    let cand := targets_build (assigned_network_ids candidate) (host_assignments candidate) in
    let ids := cr_id <$> others in
    cr_name <$> List.find (λ o, single_endpoint_targets_conflict ct cand (credential_type o)
                                  (stored_targets w ids (cr_id o))) others.

Definition is_loopback (ip : IpAddr) : bool :=
  match ip with V4 b => v4_is_loopback b | V6 b => v6_is_loopback b end.

(** The credentials that target the daemon's own host. *)
Definition daemon_host_credential (t : IntegrationTarget) : option Uuid :=
  match t with
  | TargetDaemonHost c => Some c
  | TargetHosts c ips =>
      match ips with [] => None | _ => if forallb is_loopback ips then Some c else None end
  | TargetNetwork _ => None
  end.

Fixpoint first_conflict (h : Uuid) (items : list Credential) : option (string * string) :=
  match items with
  | [] => None
  | a :: items' =>
      match List.find (λ b, single_endpoint_targets_conflict (credential_type a) (for_host h)
                              (credential_type b) (for_host h)) items' with
      | Some b => Some (cr_name a, cr_name b)
      | None => first_conflict h items'
      end
  end.
Definition find_daemon_host_target_conflict (w : CredStore) (h : Uuid) (ts : list IntegrationTarget)
    : option (string * string) :=
  first_conflict h (omap (get_by_id w) (omap daemon_host_credential ts)).

(** ** The checks of the credential handlers ([handlers.rs]) *)

Inductive CredError :=
| Conflicts (integration existing : string)
| NotOnNetworks (integration : string)
| NotOnHosts (integration : string)
| DaemonHostsOnly (integration : string)
| InvalidType (message : string)
| InvalidEntity
| CredNotFound
| AccessDenied
| StoreFailed (e : StoreError).

Abbreviation CSM := (SM CredStore CredError).

Definition enforce_single_endpoint (w : CredStore) (c : Credential) : result unit CredError :=
  match find_single_endpoint_conflict w c with
  | Some existing => Err (Conflicts (integration_name (credential_type c)) existing)
  | None => Ok tt
  end.

Definition permits (c : CredentialType) (t : Target) : bool := bool_decide (t ∈ cred_targets c).
Definition nonempty {A} (l : list A) : bool := match l with [] => false | _ :: _ => true end.

Definition enforce_supported_targets (w : CredStore) (c : Credential) (user_networks : list Uuid)
    : result unit CredError :=
  let ct := credential_type c in
  let integration := integration_name ct in
  if nonempty (assigned_network_ids c) && negb (permits ct ScopeNetwork) then Err (NotOnNetworks integration)
  else if negb (nonempty (host_assignments c)) then Ok tt
  else if permits ct ScopeHosts then Ok tt
  else if negb (permits ct ScopeDaemonHost) then Err (NotOnHosts integration)
  else
    let daemon_host_ids := (List.filter (λ d, bool_decide (d.1 ∈ user_networks)) (cs_daemon_hosts w)).*2 in
    if existsb (λ a, negb (bool_decide (ha_host_id a ∈ daemon_host_ids))) (host_assignments c)
    then Err (DaemonHostsOnly integration) else Ok tt.

(** [validate_network_ids_access] and the hosts' [validate_ids_in_networks]. *)
Definition networks_accessible (ns user_networks : list Uuid) : bool :=
  forallb (λ n, bool_decide (n ∈ user_networks)) ns.
Definition hosts_accessible (w : CredStore) (hs user_networks : list Uuid) : bool :=
  forallb (λ h, match cs_hosts w !! h with Some n => bool_decide (n ∈ user_networks) | None => false end) hs.

Definition store {A} (m : CredStore → CredStore * result A StoreError) : CSM A :=
  λ w, let '(w', r) := m w in (w', match r with Ok a => Ok a | Err e => Err (StoreFailed e) end).

Definition with_assignments (ns : list Uuid) (hs : list CredentialHostAssignment) (c : Credential) : Credential := {|
  cr_id := cr_id c; cr_organization_id := cr_organization_id c; cr_name := cr_name c;
  credential_type := credential_type c; assigned_network_ids := ns; host_assignments := hs |}.

Definition save_assignments (c : Credential) (ns : list Uuid) (hs : list CredentialHostAssignment)
    (user_networks : list Uuid) : CSM Credential :=
  w ← get;
  if negb (networks_accessible ns user_networks) then throw AccessDenied
  else if negb (hosts_accessible w (ha_host_id <$> hs) user_networks) then throw AccessDenied
  else
    _ ← store (save_networks_for_credential (cr_id c) ns);
    _ ← store (save_host_assignments_for_credential (cr_id c) hs);
    mret (with_assignments ns hs c).

(** ** Writing a credential *)
Section Write.
Context (parse_many : string → result (list string) string).
(** [CrudHandlers::validate], derived by the [validator] crate. *)
Context (entity_valid : Credential → bool).
(** The caller. *)
Context (user_org : Uuid) (user_networks : list Uuid).

Definition set_identity (id : Uuid) (t : CredentialType) (c : Credential) : Credential := {|
  cr_id := id; cr_organization_id := cr_organization_id c; cr_name := cr_name c;
  credential_type := t; assigned_network_ids := assigned_network_ids c; host_assignments := host_assignments c |}.

Definition type_valid (c : Credential) : result unit CredError :=
  match validate parse_many (credential_type c) with Ok _ => Ok tt | Err e => Err (InvalidType e) end.

(** The storage keeps the credential without its assignments. *)
Definition stored_row (c : Credential) : Credential := with_assignments [] [] c.
Definition insert_credential (c : Credential) : CSM Credential :=
  w ← get;
  if existsb (λ o, (cr_id o =? cr_id c)%N) (cs_credentials w) then throw (StoreFailed DuplicateKey)
  else _ ← put (set_credentials_rows (cs_credentials w ++ [stored_row c])); mret c.

(** [create_handler] on a credential: [fresh] is the id [Storable::new] draws
    where the body names none. *)
Definition create_handler (fresh : Uuid) (c : Credential) : CSM Credential :=
  if negb (entity_valid c) then throw InvalidEntity
  else if negb (cr_organization_id c =? user_org)%N then throw AccessDenied
  else
    _ ← lift (type_valid c);
    insert_credential (set_identity (if (cr_id c =? uuid_nil)%N then fresh else cr_id c) (credential_type c) c).

Definition create_credential (fresh : Uuid) (c : Credential) : CSM Credential :=
  w ← get;
  _ ← lift (enforce_supported_targets w c user_networks);
  _ ← lift (enforce_single_endpoint w c);
  created ← create_handler fresh c;
  save_assignments created (assigned_network_ids c) (host_assignments c) user_networks.

(** [update_handler] on a credential: the path's id is the entity's, and the
    redacted secrets are those in store. *)
Definition update_handler (id : Uuid) (c : Credential) : CSM Credential :=
  w ← get;
  match get_by_id w id with
  | None => throw CredNotFound
  | Some existing =>
      let c := set_identity (cr_id existing)
                 (merge_redacted_secrets (credential_type c) (credential_type existing)) c in
      if negb (entity_valid c) then throw InvalidEntity
      else if negb (cr_organization_id existing =? user_org)%N then throw AccessDenied
      else if negb (cr_organization_id c =? user_org)%N then throw AccessDenied
      else
        _ ← put (set_credentials_rows
                   ((λ o, if (cr_id o =? cr_id c)%N then stored_row c else o) <$> cs_credentials w));
        mret c
  end.

Definition update_credential (id : Uuid) (c : Credential) : CSM Credential :=
  w ← get;
  _ ← lift (type_valid c);
  _ ← lift (enforce_supported_targets w c user_networks);
  _ ← lift (enforce_single_endpoint w c);
  updated ← update_handler id c;
  save_assignments updated (assigned_network_ids c) (host_assignments c) user_networks.
End Write.

(** ** The mappings of a scan *)

Abbreviation Mapping := (CredentialMapping CredentialQueryPayload).
Abbreviation Override := (IpOverride CredentialQueryPayload).

Record TypedCredentialMapping := { tm_discriminant : CredentialTypeDiscriminants; tm_mapping : Mapping }.

(** [mapping_for]: the credential's mapping, made on first use, then changed. *)
Definition mapping_for (id : Uuid) (t : CredentialType) (f : Mapping → Mapping)
    (m : gmap Uuid TypedCredentialMapping) : gmap Uuid TypedCredentialMapping :=
  let typed := default {| tm_discriminant := cred_discriminant t;
                          tm_mapping := {| default_credential := None; ip_overrides := [] |} |} (m !! id) in
  <[id := {| tm_discriminant := tm_discriminant typed; tm_mapping := f (tm_mapping typed) |}]> m.

Definition set_default {T} (p : T) (m : CredentialMapping T) : CredentialMapping T :=
  {| default_credential := Some p; ip_overrides := ip_overrides m |}.
Definition add_overrides {T} (l : list (IpOverride T)) (m : CredentialMapping T) : CredentialMapping T :=
  {| default_credential := default_credential m; ip_overrides := ip_overrides m ++ l |}.

(** [push_unique_override]. *)
Definition push_unique_override (ip : IpAddr) (p : CredentialQueryPayload) (id : Uuid) (m : Mapping) : Mapping :=
  if existsb (λ o, bool_decide (ov_ip o = ip) && (ov_credential_id o =? id)%N) (ip_overrides m) then m
  else add_overrides [{| ov_ip := ip; ov_credential := p; ov_credential_id := id |}] m.

Definition in_scope (scope : option (list Uuid)) (id : Uuid) : bool :=
  match scope with Some ids => bool_decide (id ∈ ids) | None => true end.

(** The addresses an assignment covers on its host. *)
Definition assigned_addresses (ips : list IPAddress) (host : Uuid) (a : CredentialAssignment) : list IPAddress :=
  List.filter (λ i, (ip_host_id (ip_base i) =? host)%N && in_scope (ip_address_ids a) (ip_id i)) ips.

Definition apply_host_assignment (host : Uuid) (a : CredentialAssignment) (c : Credential) (ips : list IPAddress)
    : gmap Uuid TypedCredentialMapping → gmap Uuid TypedCredentialMapping :=
  let payload := to_query_payload (credential_type c) in
  mapping_for (cr_id c) (credential_type c)
    (add_overrides ((λ i, {| ov_ip := ip_address (ip_base i); ov_credential := payload;
                            ov_credential_id := cr_id c |}) <$> assigned_addresses ips host a)).

Definition target_ips (t : IntegrationTarget) : list IpAddr :=
  match t with
  | TargetDaemonHost _ => [LOCALHOST]
  | TargetHosts _ ips => ips
  | TargetNetwork _ => []
  end.

Definition apply_integration_target (t : IntegrationTarget) (ct : CredentialType)
    (m : gmap Uuid TypedCredentialMapping) : gmap Uuid TypedCredentialMapping :=
  if negb (permits ct (target_scope t)) then m
  else
    let payload := to_query_payload ct in
    let id := target_credential_id t in
    match t with
    | TargetHosts _ [] => m
    | TargetNetwork _ => mapping_for id ct (set_default payload) m
    | _ => mapping_for id ct
             (λ mp, foldl (λ mp ip, push_unique_override ip payload id mp) mp (target_ips t)) m
    end.

(** [order_mappings_for_dispatch]. *)
Definition has_overrides {T} (m : CredentialMapping T) : bool := nonempty (ip_overrides m).
Definition order_mappings_for_dispatch (m : gmap Uuid TypedCredentialMapping) : list Mapping :=
  let l := tm_mapping <$> (btree_iter id_leb m).*2 in
  List.filter (λ mp, negb (has_overrides mp)) l ++ List.filter has_overrides l.

Section Build.
Context {V : Type} `{SemVer V}.
Context (w : CredStore) (network : Uuid).

Definition retain_daemon_compatible (v : option V) (m : gmap Uuid TypedCredentialMapping)
    : gmap Uuid TypedCredentialMapping :=
  filter (λ kt, compatible_with_daemon (tm_discriminant kt.2) v = true) m.

Definition owned_by_network_org (c : Credential) : bool :=
  match cs_networks w !! network with
  | Some org => (cr_organization_id c =? org)%N
  | None => true
  end.

Definition network_hosts : list Uuid :=
  List.filter (λ h, bool_decide (cs_hosts w !! h = Some network)) (cs_host_order w).
Definition network_ips : list IPAddress :=
  List.filter (λ i, (ip_network_id (ip_base i) =? network)%N) (cs_ips w).

Definition network_step (m : gmap Uuid TypedCredentialMapping) (id : Uuid) : gmap Uuid TypedCredentialMapping :=
  match get_by_id w id with
  | Some c =>
      if owned_by_network_org c
      then mapping_for (cr_id c) (credential_type c) (set_default (to_query_payload (credential_type c))) m
      else m
  | None => m
  end.

Definition assignment_step (m : gmap Uuid TypedCredentialMapping) (ha : Uuid * CredentialAssignment)
    : gmap Uuid TypedCredentialMapping :=
  match get_by_id w (credential_id ha.2) with
  | Some c => if owned_by_network_org c then apply_host_assignment ha.1 ha.2 c network_ips m else m
  | None => m
  end.

Definition target_step (m : gmap Uuid TypedCredentialMapping) (t : IntegrationTarget)
    : gmap Uuid TypedCredentialMapping :=
  match get_by_id w (target_credential_id t) with
  | Some c => apply_integration_target t (credential_type c) m
  | None => m
  end.

(** The assignments of the network's hosts, host by host. *)
Definition network_assignments : list (Uuid * CredentialAssignment) :=
  let by_host := get_assignments_for_hosts w network_hosts in
  h ← network_hosts; (λ a, (h, a)) <$> default [] (by_host !! h).

(** [build_all_credential_mappings], before and after the version gate. *)
Definition collect_mappings (ts : list IntegrationTarget) : gmap Uuid TypedCredentialMapping :=
  foldl target_step
    (foldl assignment_step
       (foldl network_step ∅ (get_credential_ids_for_network w network))
       network_assignments)
    ts.
Definition build_all_credential_mappings (ts : list IntegrationTarget) (v : option V) : list Mapping :=
  order_mappings_for_dispatch (retain_daemon_compatible v (collect_mappings ts)).

(** [build_snmp_credentials_for_discovery], for the daemons before 0.15: SNMPv2c only. *)
Definition v2c_payload (c : Credential) : option SnmpQueryCredential :=
  match to_query_payload (credential_type c) with
  | PSnmp s => if bool_decide (sq_version s = SnmpVersion2c) then Some s else None
  | _ => None
  end.
Definition legacy_host_overrides (l : list CredentialAssignment) (host : Uuid)
    : list (IpOverride SnmpQueryCredential) :=
  match list_find (λ o : option (CredentialAssignment * Credential * SnmpQueryCredential), is_Some o)
          ((λ a, c ← get_by_id w (credential_id a); s ← v2c_payload c; Some (a, c, s)) <$> l) with
  | Some (_, Some (a, c, s)) =>
      (λ i, {| ov_ip := ip_address (ip_base i); ov_credential := s; ov_credential_id := cr_id c |})
        <$> assigned_addresses network_ips host a
  | _ => []
  end.
Definition build_snmp_credentials_for_discovery : CredentialMapping SnmpQueryCredential := {|
  default_credential :=
    head (omap (λ id, c ← get_by_id w id; v2c_payload c) (get_credential_ids_for_network w network));
  ip_overrides :=
    let by_host := get_assignments_for_hosts w network_hosts in
    h ← network_hosts; legacy_host_overrides (default [] (by_host !! h)) h |}.
End Build.
