(* ===== verification/Warnings.v ===== *)
(** The warnings of a scan ([daemon/discovery/service/warnings.rs]): what the
    parts of a scan record, and the lines rendered from it when the session ends.

    A [BTreeSet<IpAddr>] is the sorted list of its members; a [BTreeMap] is a
    finite map read in the order of its keys; a [usize] is a natural number. *)

From S2P Require Import Prelude Net Ports Lldp Hosts Patterns Definitions Credentials Topology EdgeBuilder.
Local Open Scope string_scope.

(** ** Lists of addresses *)

Definition MAX_LISTED : nat := 10.

Definition ip_leb (a b : IpAddr) : bool := negb (ip_ltb b a).
Definition ip_set (l : list IpAddr) : list IpAddr :=
  dedup (λ a b, bool_decide (a = b)) (sort_by ip_leb l).

Definition nat_text (n : nat) : string := num_text (Z.of_nat n).
Definition ip_str (ip : IpAddr) : string := bytes_str (ip_text ip).

(** [list_addresses_prose]: the items, and how they are joined. *)
Definition address_parts (ips : list IpAddr) : list string :=
  let parts := ip_str <$> take MAX_LISTED ips in
  let elided := (length ips - length parts)%nat in
  if (0 <? elided)%nat then (parts ++ [nat_text elided +:+ " more"])%list else parts.
Definition join_with_word (word : string) (parts : list string) : string :=
  match parts with
  | [] => ""
  | [only] => only
  | [a; b] => a +:+ " " +:+ word +:+ " " +:+ b
  | _ => String.concat ", " (removelast parts) +:+ ", " +:+ word +:+ " " +:+ List.last parts ""
  end.
Definition list_addresses_prose (ips : list IpAddr) : string := join_with_word "and" (address_parts ips).
Definition join_prose (items : list string) : string := join_with_word "or" items.

(** ** SNMP walks *)

Inductive ShortfallReason :=
| EntryCap (limit : nat) | NoAnswer | Desynchronised | UnsupportedMib.

#[export] Instance ShortfallReason_eq_dec : EqDecision ShortfallReason.
Proof. solve_decision. Defined.

Inductive SnmpWalkGroup :=
| GLldp | GCdp | GBridgePortNumbering | GBridgeForwarding | GVlanMembership | GArpTable
| GDeviceInventory | GIpAddresses | GLldpLocalPorts | GVlanNames.

#[export] Instance SnmpWalkGroup_eq_dec : EqDecision SnmpWalkGroup.
Proof. solve_decision. Defined.

Definition group_label (g : SnmpWalkGroup) : string :=
  match g with
  | GLldp => "LLDP neighbours"
  | GCdp => "CDP neighbours"
  | GBridgePortNumbering => "SNMP bridge-port numbering"
  | GBridgeForwarding => "bridge forwarding"
  | GVlanMembership => "VLAN membership"
  | GArpTable => "the ARP table"
  | GDeviceInventory => "hardware inventory"
  | GIpAddresses => "device IP addresses"
  | GLldpLocalPorts => "LLDP local port numbering"
  | GVlanNames => "VLAN names"
  end.
Definition absence_means_unsupported (g : SnmpWalkGroup) : bool :=
  match g with GBridgePortNumbering => true | _ => false end.
Definition discards_malformed_records (g : SnmpWalkGroup) : bool :=
  match g with GLldp | GCdp => true | _ => false end.

(** *** Neighbours on no port *)

Record UnresolvedLldpPorts := { ul_ip : IpAddr; unresolved : nat; dropped : nat; total : nat }.

Definition plural (n : nat) : string := if (n =? 1)%nat then "" else "s".
Definition it_is (n : nat) : string := if (n =? 1)%nat then "it is" else "they are".

Definition dropped_by (l : list UnresolvedLldpPorts) : list IpAddr :=
  ip_set (ul_ip <$> List.filter (λ r, (0 <? dropped r)%nat) l).
Definition misplaced_by (l : list UnresolvedLldpPorts) : list IpAddr :=
  ip_set (ul_ip <$> List.filter (λ r, (dropped r <? unresolved r)%nat) l).

Definition render_unresolved_lldp_ports (l : list UnresolvedLldpPorts) : list string :=
  let n := sum_list_with dropped l in
  let t := sum_list_with total (List.filter (λ r, (0 <? dropped r)%nat) l) in
  let m := sum_list_with (λ r, unresolved r - dropped r)%nat l in
  ((match dropped_by l with
    | [] => []
    | ips => [list_addresses_prose ips +:+ " reported " +:+ nat_text n +:+ " of " +:+ nat_text t
              +:+ " LLDP neighbour" +:+ plural t
              +:+ " on a local port that matches no interface on the device, so " +:+ it_is n
              +:+ " discarded and draw no links — those devices will look as though they have no LLDP neighbours. This usually means the switch numbers its LLDP ports separately from its interfaces, or did not answer for its LLDP port table."]
    end) ++
   match misplaced_by l with
   | [] => []
   | ips => [list_addresses_prose ips +:+ " reported " +:+ nat_text m +:+ " LLDP neighbour" +:+ plural m
             +:+ " whose local port could not be identified but does match an interface number, so " +:+ it_is m
             +:+ " drawn against a port that may not be the right one."]
   end)%list.

(** *** Devices that returned nothing, or whose VLANs were not saved *)

Definition render_snmp_collected_nothing (l : list IpAddr) : list string :=
  match ip_set l with
  | [] => []
  | ips => [list_addresses_prose ips +:+ " answered SNMP but returned no interfaces, neighbours, addresses or forwarding data at all. The credential is working, so this is either a device that implements nothing beyond its system description, or one whose tables could not be read — the daemon log records which for each table."]
  end.
Definition render_vlan_recording_failures (l : list IpAddr) : list string :=
  match ip_set l with
  | [] => []
  | ips => ["The VLANs reported by " +:+ list_addresses_prose ips +:+ " could not be saved, so VLAN membership is missing from their interfaces. The devices answered correctly — this is a failure recording the result, and the daemon log has the underlying error."]
  end.

(** *** Records without an identifier *)

Inductive MalformedNeighbourReason :=
| WalkCutShort | GhostRows | IncompleteRecords | UnexpectedType | UnreadableIndex.

#[export] Instance MalformedNeighbourReason_eq_dec : EqDecision MalformedNeighbourReason.
Proof. solve_decision. Defined.

Record MalformedNeighbours := {
  mn_ip : IpAddr;
  mn_group : SnmpWalkGroup;
  discarded : nat;
  kept : nat;
  mn_reason : MalformedNeighbourReason
}.

Definition explanation (r : MalformedNeighbourReason) : string :=
  match r with
  | WalkCutShort => "The read of the column identifying the far end stopped before its end, so these records may come back on the next complete scan."
  | GhostRows => "The rows appeared only in the columns describing each neighbour, never in the one identifying it, so there was no identifier to lose. Rescanning will not change this."
  | IncompleteRecords => "These neighbours were listed and then no identifier was supplied for them. The read finished, so rescanning will not change this."
  | UnexpectedType => "The identifying column came back with a value of a type it cannot hold. Rescanning will not change this."
  | UnreadableIndex => "Their position in the neighbour table could not be read, so they could not be tied to a local port. Rescanning will not change this."
  end.

(** The derived [Ord] is the order of declaration. *)
Definition malformed_reasons : list MalformedNeighbourReason :=
  [WalkCutShort; GhostRows; IncompleteRecords; UnexpectedType; UnreadableIndex].

Definition malformed_of (l : list MalformedNeighbours) (r : MalformedNeighbourReason) : list MalformedNeighbours :=
  List.filter (λ m, bool_decide (mn_reason m = r)) (List.filter (λ m, (0 <? discarded m)%nat) l).
Definition malformed_line (r : MalformedNeighbourReason) (g : list MalformedNeighbours) : string :=
  let n := sum_list_with discarded g in
  let consequence := if (sum_list_with kept g =? 0)%nat
                     then "so those devices contribute no physical links at all"
                     else "so some of their physical links are missing" in
  list_addresses_prose (ip_set (mn_ip <$> g)) +:+ " reported " +:+ nat_text n +:+ " neighbour record" +:+ plural n
  +:+ " without the identifier needed to match the far end, " +:+ consequence +:+ ". " +:+ explanation r.
Definition render_malformed_neighbours (l : list MalformedNeighbours) : list string :=
  omap (λ r, match malformed_of l r with [] => None | g => Some (malformed_line r g) end) malformed_reasons.

(** *** Walks that fell short *)

Record IncompleteSnmpWalk := {
  iw_ip : IpAddr;
  iw_group : SnmpWalkGroup;
  iw_returned_any : bool;
  iw_reason : option ShortfallReason
}.
Record SnmpGroupOutcome := {
  go_complete : bool;
  go_returned_any : bool;
  go_reason : option ShortfallReason
}.

Definition walk_fell_short (o : SnmpGroupOutcome) (g : SnmpWalkGroup) : bool :=
  negb (go_complete o || (discards_malformed_records g && negb (bool_decide (is_Some (go_reason o))))).

(** [SnmpCollectionOutcome] has one field for each group. *)
Record SnmpCollectionOutcome := {
  o_lldp : SnmpGroupOutcome;
  o_cdp : SnmpGroupOutcome;
  bridge_port_numbering : SnmpGroupOutcome;
  bridge_forwarding : SnmpGroupOutcome;
  vlan_membership : SnmpGroupOutcome;
  arp_table : SnmpGroupOutcome;
  device_inventory : SnmpGroupOutcome;
  o_ip_addresses : SnmpGroupOutcome;
  lldp_local_ports : SnmpGroupOutcome;
  vlan_names : SnmpGroupOutcome
}.

Definition snmp_walk_shortfalls (ip : IpAddr) (o : SnmpCollectionOutcome) : list IncompleteSnmpWalk :=
  let root_failed := negb (go_complete (bridge_port_numbering o)) in
  (λ e : SnmpWalkGroup * SnmpGroupOutcome * bool,
     {| iw_ip := ip; iw_group := e.1.1; iw_returned_any := go_returned_any e.1.2; iw_reason := go_reason e.1.2 |})
  <$> List.filter (λ e, e.2 && walk_fell_short e.1.2 e.1.1)
        [(GLldp, o_lldp o, true);
         (GCdp, o_cdp o, true);
         (GBridgePortNumbering, bridge_port_numbering o, true);
         (GBridgeForwarding, bridge_forwarding o, negb root_failed);
         (GVlanMembership, vlan_membership o, negb root_failed);
         (GArpTable, arp_table o, true);
         (GDeviceInventory, device_inventory o, true);
         (GIpAddresses, o_ip_addresses o, true);
         (GLldpLocalPorts, lldp_local_ports o, true);
         (GVlanNames, vlan_names o, true)].

(** The derived orders: [false] before [true], [None] before [Some], the
    constructors as they are declared, a set by its members. *)
Definition reason_code (r : option ShortfallReason) : nat * nat :=
  match r with
  | None => (0, 0) | Some (EntryCap n) => (1, n) | Some NoAnswer => (2, 0)
  | Some Desynchronised => (3, 0) | Some UnsupportedMib => (4, 0)
  end.
Definition group_rank (g : SnmpWalkGroup) : nat :=
  match g with
  | GLldp => 0 | GCdp => 1 | GBridgePortNumbering => 2 | GBridgeForwarding => 3 | GVlanMembership => 4
  | GArpTable => 5 | GDeviceInventory => 6 | GIpAddresses => 7 | GLldpLocalPorts => 8 | GVlanNames => 9
  end.
Definition ip_code (ip : IpAddr) : nat * Z := match ip with V4 b => (0%nat, b) | V6 b => (1%nat, b) end.
Definition code_ip (c : nat * Z) : IpAddr := match c with (0, b) => V4 b | (_, b) => V6 b end.

#[export] Program Instance IpAddr_countable : Countable IpAddr := inj_countable' ip_code code_ip _.
Next Obligation. by intros []. Qed.

Definition code_reason (c : nat * nat) : option ShortfallReason :=
  match c with
  | (1, n) => Some (EntryCap n) | (2, _) => Some NoAnswer | (3, _) => Some Desynchronised
  | (4, _) => Some UnsupportedMib | _ => None
  end.

Definition WalkKey : Type := bool * (nat * nat) * nat.
Definition GroupsKey : Type := bool * (nat * nat) * list IpAddr.

Definition bool_rank (b : bool) : nat := if b then 1 else 0.
Definition pair_ltb (a b : nat * nat) : bool := ((a.1 <? b.1) || ((a.1 =? b.1) && (a.2 <? b.2)))%nat.
Definition pair_eqb (a b : nat * nat) : bool := ((a.1 =? b.1) && (a.2 =? b.2))%nat.
Fixpoint ips_ltb (a b : list IpAddr) : bool :=
  match a, b with
  | _, [] => false
  | [], _ :: _ => true
  | x :: a', y :: b' => ip_ltb x y || (bool_decide (x = y) && ips_ltb a' b')
  end.
Definition shape_ltb (a b : bool * (nat * nat)) : bool :=
  (bool_rank a.1 <? bool_rank b.1)%nat || ((bool_rank a.1 =? bool_rank b.1)%nat && pair_ltb a.2 b.2).
Definition shape_eqb (a b : bool * (nat * nat)) : bool :=
  (bool_rank a.1 =? bool_rank b.1)%nat && pair_eqb a.2 b.2.
Definition walk_leb (a b : WalkKey) : bool :=
  shape_ltb a.1 b.1 || (shape_eqb a.1 b.1 && (a.2 <=? b.2)%nat).
Definition groups_leb (a b : GroupsKey) : bool :=
  shape_ltb a.1 b.1 || (shape_eqb a.1 b.1 && negb (ips_ltb b.2 a.2)).

Definition walk_key (r : IncompleteSnmpWalk) : WalkKey :=
  (iw_returned_any r, reason_code (iw_reason r), group_rank (iw_group r)).

(** The devices of each group, then the groups of each set of devices. *)
Definition devices_by_group (l : list IncompleteSnmpWalk) : list (WalkKey * (SnmpWalkGroup * list IpAddr)) :=
  omap (λ kg : WalkKey * list IncompleteSnmpWalk,
          r ← head kg.2; Some (kg.1, (iw_group r, ip_set (iw_ip <$> kg.2))))
    (btree_iter walk_leb (group_by (λ r, Some (walk_key r)) l)).
Definition groups_by_devices (l : list IncompleteSnmpWalk) : list (GroupsKey * list SnmpWalkGroup) :=
  (λ kg : GroupsKey * list (WalkKey * (SnmpWalkGroup * list IpAddr)), (kg.1, (λ e, e.2.1) <$> kg.2))
  <$> btree_iter groups_leb (group_by (λ e : WalkKey * (SnmpWalkGroup * list IpAddr), Some (e.1.1, e.2.2))
                               (devices_by_group l)).

Definition incomplete_line (k : GroupsKey) (groups : list SnmpWalkGroup) : string :=
  let who := list_addresses_prose k.2 in
  let what := join_prose (group_label <$> groups) in
  match code_reason k.1.2 with
  | Some (EntryCap limit) => who +:+ " has more " +:+ what +:+ " than one scan reads — collection stops at " +:+ nat_text limit +:+ " entries per table, so the rest were not read. The data recorded is correct as far as it goes."
  | Some UnsupportedMib => who +:+ " does not implement " +:+ what +:+ " over SNMP, so it cannot be read from the device at all. Previously discovered values were kept."
  | Some Desynchronised => who +:+ " answered out of step with what was asked for " +:+ what +:+ ", which usually means the agent is under load. Previously discovered values were kept and refresh on the next complete scan."
  | _ =>
      if k.1.1 then who +:+ " did not finish reporting " +:+ what +:+ ", so previously discovered values were kept rather than overwritten and refresh on the next complete scan."
      else if forallb absence_means_unsupported groups then who +:+ " did not answer for " +:+ what +:+ ", which these switches commonly do not implement. Their MAC-address-table and VLAN membership cannot be read over SNMP; a UniFi controller integration reports the same data where one manages the device."
      else who +:+ " returned no " +:+ what +:+ " data at all — the device stopped answering rather than reporting that it has none. Previously discovered values were kept rather than overwritten and refresh on the next complete scan."
  end.
Definition render_incomplete_snmp_walks (l : list IncompleteSnmpWalk) : list string :=
  (λ kg, incomplete_line kg.1 kg.2) <$> groups_by_devices l.

(** *** Interface tables *)

Record IncompleteInterfaceWalk := { ii_ip : IpAddr; collected : nat; set_complete : bool }.

Definition render_incomplete_interface_walks (l : list IncompleteInterfaceWalk) : list string :=
  let missing := ip_set (ii_ip <$> List.filter (λ r, negb (set_complete r)) l) in
  let blank := ip_set (ii_ip <$> List.filter set_complete l) in
  ((match missing with
    | [] => []
    | ips => [list_addresses_prose ips +:+ " stopped responding partway through the SNMP interface list, so some interfaces are missing."]
    end) ++
   match blank with
   | [] => []
   | ips => [list_addresses_prose ips +:+ " returned every SNMP interface but stopped while reading their details, so some descriptions or speeds may be blank."]
   end)%list.

(** ** Credential issues *)

Inductive AttemptOutcome :=
| Rejected | Unreachable | TimedOut | NotThisService | TlsFailed | MalformedCredential
| CollectionFailed | CollectionTimedOut | Cancelled.

#[export] Instance AttemptOutcome_eq_dec : EqDecision AttemptOutcome.
Proof. solve_decision. Defined.

Inductive CredentialIssueReason :=
| TargetNotScanned
| TargetNotResponding
| GateClosed (ports : list PortType)
| Attempted (outcome : AttemptOutcome) (message : string).

Record CredentialIssue := { ci_label : string; ci_ip : IpAddr; ci_reason : CredentialIssueReason }.

Definition issue_for_attempt (label : string) (ip : IpAddr) (o : AttemptOutcome) (message : string)
    (user_assigned : bool) : option CredentialIssue :=
  if negb user_assigned || bool_decide (o = Cancelled) then None
  else Some {| ci_label := label; ci_ip := ip; ci_reason := Attempted o message |}.

Definition attempt_outcome (r : CredentialIssueReason) : option AttemptOutcome :=
  match r with Attempted o _ => Some o | _ => None end.
Definition attempt_message (r : CredentialIssueReason) : option string :=
  match r with Attempted _ m => Some m | _ => None end.

Definition not_scanned (i : CredentialIssue) : bool :=
  match ci_reason i with TargetNotScanned => true | _ => false end.
Definition not_responding (i : CredentialIssue) : bool :=
  match ci_reason i with TargetNotResponding => true | _ => false end.
Definition gate_closed (i : CredentialIssue) : bool :=
  match ci_reason i with GateClosed _ => true | _ => false end.

Definition already_covered_by_address_line (issues : list CredentialIssue) (i : CredentialIssue) : bool :=
  match attempt_outcome (ci_reason i) with
  | Some Unreachable | Some TimedOut =>
      existsb (λ o, bool_decide (ci_ip o = ci_ip i) && (not_scanned o || not_responding o)) issues
  | _ => false
  end.

(** A [BTreeSet] of labels, and of port numbers. *)
Definition label_set (l : list string) : list string := dedup String.eqb (sort_by String.leb l).
Definition port_set (l : list Z) : list Z := dedup Z.eqb (sort_by Z.leb l).

Definition describe_targets (issues : list CredentialIssue) (ips : list IpAddr) : string :=
  let labels := label_set (ci_label <$> List.filter (λ i, bool_decide (ci_ip i ∈ ips)) issues) in
  match labels with
  | [l] => "The " +:+ l +:+ " credential"
  | _ => nat_text (length labels) +:+ " credentials (" +:+ String.concat ", " labels +:+ ")"
  end +:+ " for " +:+ list_addresses_prose ips.

Definition ATTEMPT_ORDER : list AttemptOutcome :=
  [Rejected; MalformedCredential; TlsFailed; NotThisService; CollectionFailed; CollectionTimedOut;
   Unreachable; TimedOut; Cancelled].

Definition advice (o : AttemptOutcome) : option string :=
  match o with
  | Rejected => Some "was refused — check the username, password or community string"
  | MalformedCredential => Some "is incomplete and could not be used — re-enter it"
  | TlsFailed => Some ("could not negotiate TLS — if the appliance serves a self-signed certificate, turn on " +:+ Catalog.dq +:+ "accept invalid certificates" +:+ Catalog.dq +:+ " in the daemon's scan settings")
  | NotThisService => Some "reached something that is not the expected service — check the port on the credential"
  | CollectionFailed => Some "authenticated and then failed while collecting, so this host's data is missing rather than out of date"
  | CollectionTimedOut => Some "authenticated and then ran out of time before it finished collecting — rescan this host on its own, or narrow what the scan covers"
  | Cancelled => None
  | Unreachable | TimedOut => Some "could not be reached at that address — check the address, port and that the service is listening"
  end.

(** [render_credential_issues]: each line with the addresses it is about. *)
Definition address_line (issues : list CredentialIssue) (sel : CredentialIssue → bool)
    (text : list IpAddr → string) : list (list IpAddr * string) :=
  match ip_set (ci_ip <$> List.filter sel issues) with
  | [] => []
  | ips => [(ips, text ips)]
  end.
Definition gate_ports (issues : list CredentialIssue) : list Z :=
  port_set (issues ≫= λ i, match ci_reason i with GateClosed ps => port_number <$> ps | _ => [] end).
Definition outcome_issues (issues : list CredentialIssue) (o : AttemptOutcome) : list CredentialIssue :=
  List.filter (λ i, bool_decide (attempt_outcome (ci_reason i) = Some o)
                    && negb (already_covered_by_address_line issues i)) issues.
Definition outcome_line (issues : list CredentialIssue) (o : AttemptOutcome) : list (list IpAddr * string) :=
  match advice o with
  | None => []
  | Some a =>
      match outcome_issues issues o with
      | [] => []
      | matching =>
          let first := default "no further detail" (head (omap (λ i, attempt_message (ci_reason i)) matching)) in
          let ips := ip_set (ci_ip <$> matching) in
          [(ips, describe_targets issues ips +:+ " " +:+ a +:+ " (" +:+ first +:+ ")")]
      end
  end.
Definition issue_lines (issues : list CredentialIssue) : list (list IpAddr * string) :=
  (address_line issues not_scanned (λ ips, describe_targets issues ips +:+ " was never contacted because its address is not on any subnet this scan covers — add the subnet to the discovery, or move the credential to a host inside it") ++
   address_line issues not_responding (λ ips, describe_targets issues ips +:+ " was not tried because nothing answered at that address during the scan — check the address is right and the host is online") ++
   address_line issues gate_closed (λ ips, describe_targets issues ips +:+ " was not tried because port " +:+ String.concat " / " (num_text <$> gate_ports issues) +:+ " was not open on it — check the port configured on the credential") ++
   (ATTEMPT_ORDER ≫= outcome_line issues))%list.
Definition render_credential_issues (issues : list CredentialIssue) : list string :=
  (λ l : list IpAddr * string, l.2 +:+ ".") <$> issue_lines issues.
