(* ===== verification/Dispatch.v ===== *)
(** Trying credentials on a host ([daemon/discovery/credentials.rs],
    [daemon/discovery/integration/dispatch.rs], [daemon/discovery/integration/mod.rs]).

    An integration is code that talks to a device: its probe, its collection and
    the keep-alive state between the two are parameters.  The daemon's cancellation
    token is what each of its readers saw. *)

From S2P Require Import Prelude Net Ports Entities Patterns Discovery Hosts Credentials Topology EdgeBuilder CredentialStore Warnings.
Local Open Scope string_scope.

(** ** Which credentials apply ([credentials.rs]) *)

Definition resolve_credentials_for_ip (m : Mapping) (ip : IpAddr)
    : list (CredentialQueryPayload * option Uuid) :=
  (((λ o, (ov_credential o, some_id (ov_credential_id o)))
      <$> List.filter (λ o, bool_decide (ov_ip o = ip)) (ip_overrides m))
   ++ match default_credential m with Some d => [(d, None)] | None => [] end)%list.

(** What the runner makes of the list the server sent ([execute] of
    [daemon/discovery/service/runner.rs]): the community "public" is tried on every host. *)
Definition daemon_mappings (sent : list Mapping) : list Mapping :=
  (sent ++ [{| default_credential := Some (PSnmp public_default); ip_overrides := [] |}])%list.

(** [summarize_credential_assignments]: one entry for every override and default,
    under the name of its kind. *)
Definition kind_name (k : PayloadKind) : string :=
  match k with
  | IntSnmp => "Snmp" | IntDockerProxy => "DockerProxy" | IntDockerSocket => "DockerSocket"
  | IntPodmanProxy => "PodmanProxy" | IntPodmanSocket => "PodmanSocket"
  | IntUnifiController => "UnifiController" | IntInstantOn => "InstantOn" | IntUnknown => "Unknown"
  end.
(** The map is collected from a list: the last host of an address names it. *)
Definition host_name_by_ip (hosts : list (IpAddr * string)) (ip : IpAddr) : option string :=
  snd <$> List.find (λ h, bool_decide (h.1 = ip)) (rev hosts).
Definition summary_entries `{UuidLib} (names : IpAddr → option string) (m : Mapping) : list (string * string) :=
  (((λ o, (kind_name (payload_kind (ov_credential o)),
           uuid_text (ov_credential_id o) +:+ " → " +:+
           match names (ov_ip o) with
           | Some n => ip_str (ov_ip o) +:+ " (" +:+ n +:+ ")"
           | None => ip_str (ov_ip o)
           end)) <$> ip_overrides m)
   ++ match default_credential m with
      | Some d => [(kind_name (payload_kind d), "network default")]
      | None => []
      end)%list.
Definition summarize_credential_assignments `{UuidLib} (hosts : list (IpAddr * string)) (ms : list Mapping)
    : gmap string (list string) :=
  foldl (λ acc e, <[e.1 := (default [] (acc !! e.1) ++ [e.2])%list]> acc) ∅
    (ms ≫= summary_entries (host_name_by_ip hosts)).

(** ** What becomes of a mapping *)

Inductive Disposition :=
| Unresolved
| Probed
| Suppressed (reason : string)
| DFailed (outcome : AttemptOutcome) (message : string).

Record DispositionEntry := {
  de_label : string;
  de_discriminant : PayloadKind;
  de_user_assigned : bool;
  disposition : Disposition
}.

(** [resolve_ledger]. *)
Definition entry_issue (ip : IpAddr) (e : DispositionEntry) : option CredentialIssue :=
  match disposition e with
  | DFailed o m => issue_for_attempt (de_label e) ip o m (de_user_assigned e)
  | _ => None
  end.
Definition resolve_ledger (ledger : list DispositionEntry) (ip : IpAddr) : list CredentialIssue :=
  omap (entry_issue ip) ledger.

Definition set_disposition (d : Disposition) (e : DispositionEntry) : DispositionEntry := {|
  de_label := de_label e; de_discriminant := de_discriminant e; de_user_assigned := de_user_assigned e;
  disposition := d |}.

(** [mapping_discriminant]: the kind of the default, else of the first override. *)
Definition mapping_payload (m : Mapping) : option CredentialQueryPayload :=
  match default_credential m with
  | Some d => Some d
  | None => ov_credential <$> head (ip_overrides m)
  end.
Definition mapping_discriminant (m : Mapping) : option PayloadKind := payload_kind <$> mapping_payload m.

(** [IntegrationRegistry::get] finds an integration for every kind but one. *)
Definition registered (k : PayloadKind) : bool := match k with IntUnknown => false | _ => true end.

(** [probe_gate_ports], over the integrations. *)
Definition probe_gate_ports (k : PayloadKind) (p : CredentialQueryPayload) : list PortType :=
  match k, p with
  | IntDockerProxy, PDockerProxy d => [new_tcp (cp_port d)]
  | IntPodmanProxy, PPodmanProxy d => [new_tcp (cp_port d)]
  | IntUnifiController, PUnifiController u => [new_tcp (uq_port u)]
  | _, _ => []
  end.

Definition kind_rank (k : PayloadKind) : nat :=
  match k with
  | IntSnmp => 0 | IntDockerProxy => 1 | IntDockerSocket => 2 | IntPodmanProxy => 3 | IntPodmanSocket => 4
  | IntUnifiController => 5 | IntInstantOn => 6 | IntUnknown => 7
  end.
Definition rank_kind (n : nat) : PayloadKind :=
  match n with
  | 0 => IntSnmp | 1 => IntDockerProxy | 2 => IntDockerSocket | 3 => IntPodmanProxy | 4 => IntPodmanSocket
  | 5 => IntUnifiController | 6 => IntInstantOn | _ => IntUnknown
  end.
#[export] Program Instance PayloadKind_countable : Countable PayloadKind := inj_countable' kind_rank rank_kind _.
Next Obligation. by intros []. Qed.

Definition probe_rank (c : ClientProbe) : nat :=
  match c with
  | ProbeDocker => 0 | ProbePodman => 1 | ProbeSnmp => 2 | ProbeUnifiController => 3 | ProbeInstantOn => 4
  end.
Definition rank_probe (n : nat) : ClientProbe :=
  match n with 0 => ProbeDocker | 1 => ProbePodman | 2 => ProbeSnmp | 3 => ProbeUnifiController | _ => ProbeInstantOn end.
#[export] Instance ClientProbe_eq_dec : EqDecision ClientProbe.
Proof. solve_decision. Defined.
#[export] Program Instance ClientProbe_countable : Countable ClientProbe := inj_countable' probe_rank rank_probe _.
Next Obligation. by intros []. Qed.

Record ProbeSuccess (H : Type) := { ps_client_probe : ClientProbe; ps_ports : list PortType; ps_handle : option H }.
Arguments ps_client_probe {H} _.
Arguments ps_ports {H} _.
Arguments ps_handle {H} _.
Arguments Build_ProbeSuccess {H} _ _ _.

Record IntegrationProbeResults (H : Type) := {
  client_responses : gmap ClientProbe (list PortType);
  probe_handles : gmap PayloadKind H;
  working_credential_ids : gmap PayloadKind (option Uuid * CredentialQueryPayload);
  additional_ports : list PortType;
  credential_issues : list CredentialIssue
}.
Arguments client_responses {H} _.
Arguments probe_handles {H} _.
Arguments working_credential_ids {H} _.
Arguments additional_ports {H} _.
Arguments credential_issues {H} _.
Arguments Build_IntegrationProbeResults {H} _ _ _ _ _.

(** What the readers of the cancellation token saw: before the probes, before the
    [j]-th credential of the [i]-th task, after the probes. *)
Record CancelView := { cancel_before : bool; cancel_during : nat → nat → bool; cancel_after : bool }.

(** A token is never reset. *)
Definition cancel_monotone (v : CancelView) : Prop :=
  (cancel_before v = true → ∀ i j, cancel_during v i j = true)
  ∧ ∀ i j, cancel_during v i j = true → cancel_after v = true.

Section Probe.
Context {H : Type}.
(** [DiscoveryIntegration::probe] at the host: a success, or what went wrong. *)
Context (probe : PayloadKind → CredentialQueryPayload → option Uuid
                 → result (ProbeSuccess H) (AttemptOutcome * string)).
Context (ip : IpAddr) (open_ports : list PortType) (skip_gate : bool) (view : CancelView).

(** [attempt_credential]. *)
Definition attempt_credential (k : PayloadKind) (c : CredentialQueryPayload * option Uuid)
    : result (ProbeSuccess H) (option CredentialIssue) :=
  match probe k c.1 c.2 with
  | Ok s => Ok s
  | Err (o, m) => Err (issue_for_attempt (discovery_label c.1) ip o m (bool_decide (is_Some c.2)))
  end.

(** *** First pass: what to probe *)

Record Plan := {
  pl_entry : DispositionEntry;
  pl_issues : list CredentialIssue;
  pl_task : option (list (CredentialQueryPayload * option Uuid))
}.

Definition gate_open (gates : list PortType) : bool := forallb (λ g, existsb (port_eqb g) open_ports) gates.

Definition pinned_here (m : Mapping) : bool :=
  existsb (λ o, bool_decide (ov_ip o = ip) && negb (ov_credential_id o =? uuid_nil)%N) (ip_overrides m).

Definition plan (m : Mapping) : option Plan :=
  p ← mapping_payload m;
  let k := payload_kind p in
  let entry := {| de_label := discovery_label p; de_discriminant := k; de_user_assigned := pinned_here m;
                  disposition := Unresolved |} in
  let skip d issues := Some {| pl_entry := set_disposition d entry; pl_issues := issues; pl_task := None |} in
  if negb (registered k) then
    skip (DFailed MalformedCredential "this daemon is too old to use this credential type; upgrade it") []
  else
    match resolve_credentials_for_ip m ip with
    | [] => skip (Suppressed "no credential in this mapping applies to this address") []
    | (first :: _) as credentials =>
        let gates := probe_gate_ports k first.1 in
        if negb skip_gate && nonempty gates && negb (gate_open gates) then
          match List.find (λ c, bool_decide (is_Some c.2)) credentials with
          | Some c =>
              skip (Suppressed "gate closed; reported as GateClosed")
                [{| ci_label := discovery_label c.1; ci_ip := ip; ci_reason := GateClosed gates |}]
          | None => skip (Suppressed "gate closed on a network default, which is routine on a sweep") []
          end
        else Some {| pl_entry := entry; pl_issues := []; pl_task := Some credentials |}
    end.

(** *** Second pass: the probes, side by side *)

Definition Winner : Type := PayloadKind * option Uuid * CredentialQueryPayload * ProbeSuccess H.

(** One task: the first credential that works, else the failures worth reporting. *)
Fixpoint try_credentials (i j : nat) (k : PayloadKind) (cs : list (CredentialQueryPayload * option Uuid))
    (failures : list CredentialIssue) : option Winner * list CredentialIssue * Disposition :=
  match cs with
  | [] => (None, failures,
           match failures with
           | [] => Suppressed "every credential here is a network default; routine"
           | _ => Suppressed "reported by attempt_credential"
           end)
  | c :: cs' =>
      if cancel_during view i j then (None, [], Suppressed "the scan was cancelled")
      else
        match attempt_credential k c with
        | Ok s => (Some (k, c.2, c.1, s), [], Probed)
        | Err issue => try_credentials i (S j) k cs' (failures ++ option_list issue)
        end
  end.

Definition run_plan (i : nat) (p : Plan) : option Winner * list CredentialIssue * DispositionEntry :=
  match pl_task p with
  | None => (None, [], pl_entry p)
  | Some cs =>
      let '(w, failures, d) := try_credentials i 0 (de_discriminant (pl_entry p)) cs [] in
      (w, failures, set_disposition d (pl_entry p))
  end.

(** *** Merging the winners, in the order of the mappings *)

Definition add_port (acc : list PortType * list PortType) (p : PortType) : list PortType * list PortType :=
  if existsb (port_eqb p) acc.1 then acc else ((acc.1 ++ [p])%list, (acc.2 ++ [p])%list).

Definition merge_winner (acc : list PortType * IntegrationProbeResults H) (x : Winner)
    : list PortType * IntegrationProbeResults H :=
  let '(k, id, c, s) := x in
  let '(all_open, extra) := foldl add_port (acc.1, additional_ports acc.2) (ps_ports s) in
  (all_open, {|
     client_responses := <[ps_client_probe s := ps_ports s]> (client_responses acc.2);
     probe_handles := match ps_handle s with Some h => <[k := h]> (probe_handles acc.2)
                                           | None => probe_handles acc.2 end;
     working_credential_ids := <[k := (id, c)]> (working_credential_ids acc.2);
     additional_ports := extra;
     credential_issues := credential_issues acc.2 |}).

Definition plans (ms : list Mapping) : list Plan := omap plan ms.
Definition outcomes (ms : list Mapping) : list (option Winner * list CredentialIssue * DispositionEntry) :=
  imap run_plan (plans ms).

Definition final_ledger (ms : list Mapping) : list DispositionEntry := snd <$> outcomes ms.
Definition winners (ms : list Mapping) : list Winner := omap (λ o, o.1.1) (outcomes ms).
Definition reported_issues (ms : list Mapping) : list CredentialIssue :=
  ((plans ms ≫= pl_issues) ++ (outcomes ms ≫= λ o, o.1.2) ++ resolve_ledger (final_ledger ms) ip)%list.

Definition no_results : IntegrationProbeResults H := {|
  client_responses := ∅; probe_handles := ∅; working_credential_ids := ∅; additional_ports := [];
  credential_issues := [] |}.

Definition probe_integrations (ms : list Mapping) : result (IntegrationProbeResults H) string :=
  if cancel_before view || cancel_after view then Err "Discovery was cancelled"
  else
    let merged := foldl merge_winner (open_ports, no_results) (winners ms) in
    Ok {| client_responses := client_responses merged.2; probe_handles := probe_handles merged.2;
          working_credential_ids := working_credential_ids merged.2;
          additional_ports := additional_ports merged.2; credential_issues := reported_issues ms |}.
End Probe.

(** ** Collecting ([execute_integrations]) *)

Definition WorkingIds : Type := gmap PayloadKind (option Uuid * CredentialQueryPayload).

(** [dedup_execution_keys]. *)
Fixpoint execution_keys_from (seen : list (PayloadKind * option Uuid)) (working : WorkingIds) (ms : list Mapping)
    : list (PayloadKind * option Uuid) :=
  match ms with
  | [] => []
  | m :: ms' =>
      match k ← mapping_discriminant m; w ← working !! k; Some (k, w.1) with
      | Some key =>
          if bool_decide (key ∈ seen) then execution_keys_from seen working ms'
          else key :: execution_keys_from (key :: seen) working ms'
      | None => execution_keys_from seen working ms'
      end
  end.
Definition dedup_execution_keys (ms : list Mapping) (working : WorkingIds) : list (PayloadKind * option Uuid) :=
  execution_keys_from [] working ms.

(** [credential_assignments_from_probes]. *)
Definition credential_assignments_from_probes `{MapOrder} (working : WorkingIds) (ip_address_id : option Uuid)
    : list CredentialAssignment :=
  omap (λ e : PayloadKind * (option Uuid * CredentialQueryPayload),
          id ← e.2.1;
          Some {| credential_id := id; ip_address_ids := (λ i, [i]) <$> ip_address_id |})
    (List.filter (λ e, negb (bool_decide (e.1 = IntSnmp))) (map_iter working)).

Record CollectionShortfall := { sf_what : string; sf_collected : nat; sf_expected : nat }.
Inductive Completeness := Complete | Partial (s : CollectionShortfall).

(** How a collection ended. *)
Inductive ExecuteOutcome :=
| Finished (c : Completeness)
| ExecFailed (outcome : AttemptOutcome) (message : string)
| ExecTimedOut (after : string).

Record SurvivingCollection (HD : Type) := {
  sc_host_data : option HD;
  sc_shortfall : option CollectionShortfall;
  sc_result : result unit (AttemptOutcome * string)
}.
Arguments sc_host_data {HD} _.
Arguments sc_shortfall {HD} _.
Arguments sc_result {HD} _.
Arguments Build_SurvivingCollection {HD} _ _ _.

Definition surviving_collection {HD} (o : ExecuteOutcome) (scratch : HD) (committed : option HD)
    : SurvivingCollection HD :=
  match o with
  | Finished c => {| sc_host_data := Some scratch;
                     sc_shortfall := match c with Complete => None | Partial s => Some s end;
                     sc_result := Ok tt |}
  | ExecFailed o m => {| sc_host_data := committed; sc_shortfall := None; sc_result := Err (o, m) |}
  | ExecTimedOut d => {| sc_host_data := committed; sc_shortfall := None;
                         sc_result := Err (CollectionTimedOut, "timed out after " +:+ d +:+ " with nothing recorded") |}
  end.

Definition shortfall_message (s : CollectionShortfall) : string :=
  "recorded " +:+ nat_text (sf_collected s) +:+ " of " +:+ nat_text (sf_expected s) +:+ " " +:+ sf_what s
  +:+ " before the time limit; the rest were not read".

Section Execute.
Context `{MapOrder} {HD : Type}.
(** What the dispatch reads and writes of [HostData]. *)
Context (service_ids : HD → list string) (add_assignments : list CredentialAssignment → HD → HD).
(** [DiscoveryIntegration::execute] on the scratch copy it is given: how it ended,
    the copy as it was left, and what it committed. *)
Context (execute : PayloadKind → CredentialQueryPayload → option Uuid → HD → ExecuteOutcome * HD * option HD).
Context (ip : IpAddr).

(** [execute_with_progress_reporting]: the host, the issues recorded, the result. *)
Definition execute_with_progress_reporting (k : PayloadKind) (c : CredentialQueryPayload) (id : option Uuid) (h : HD)
    : HD * list CredentialIssue * result unit (AttemptOutcome * string) :=
  let '(o, scratch, committed) := execute k c id h in
  let s := surviving_collection o scratch committed in
  (default h (sc_host_data s),
   match sc_shortfall s with
   | Some sf => option_list (issue_for_attempt (discovery_label c) ip CollectionTimedOut (shortfall_message sf) true)
   | None => []
   end,
   sc_result s).

Definition execute_key (working : WorkingIds) (acc : HD * list CredentialIssue) (key : PayloadKind * option Uuid)
    : HD * list CredentialIssue :=
  if negb (registered key.1) then acc
  else
    match working !! key.1 with
    | None => acc
    | Some (id, c) =>
        let service := def_name (associated_service (to_credential_type (kind_credential_type key.1))) in
        if negb (bool_decide (service ∈ service_ids acc.1)) then
          (acc.1, (acc.2 ++ option_list (issue_for_attempt (discovery_label c) ip CollectionFailed
                     ("authenticated, but the " +:+ service +:+ " service was not identified on this host, so nothing was collected") true))%list)
        else
          let '(h, issues, r) := execute_with_progress_reporting key.1 c id acc.1 in
          (h, (acc.2 ++ issues ++ match r with
                                  | Ok _ => []
                                  | Err (o, m) => option_list (issue_for_attempt (discovery_label c) ip o m true)
                                  end)%list)
    end.

Definition execute_integrations (ms : list Mapping) (working : WorkingIds) (ip_address_id : option Uuid) (h : HD)
    : HD * list CredentialIssue :=
  let '(h', issues) := foldl (execute_key working) (h, []) (dedup_execution_keys ms working) in
  (add_assignments (credential_assignments_from_probes working ip_address_id) h', issues).
End Execute.

(** [merge_subnets]. *)
Definition merge_subnets (known : list Subnet) (scanning : option Subnet) (from_host : list Subnet) : list Subnet :=
  foldl (λ acc s, if existsb (λ t, (s_id t =? s_id s)%N) acc then acc else (acc ++ [s])%list)
    known (option_list scanning ++ from_host)%list.
