(* ===== verification/CredentialThms.v ===== *)
(** What credentials promise: redaction loses no secret, nothing shown depends on
    one, and a resolved payload is self-contained. *)

From S2P Require Import Prelude Net Ports Discovery Patterns Definitions Lldp Hosts Versions Credentials.
Local Open Scope Z_scope.
Local Open Scope string_scope.

#[local] Arguments deserialize_optional_secret_value : simpl never.
#[local] Arguments deserialize_optional_file_or_inline : simpl never.
#[local] Arguments serialize_secret : simpl never.
#[local] Arguments merge_key : simpl never.

(** ** Redaction *)

Lemma merge_redacted s : merge_secret (serialize_secret false s) s = s.
Proof. by destruct s. Qed.

Lemma merge_key_redacted (o : option SecretValue) : merge_key (serialize_secret false <$> o) o = o.
Proof. by destruct o as [[]|]. Qed.

Lemma deserialize_key_redacted o :
  deserialize_optional_secret_value o = o →
  deserialize_optional_secret_value (serialize_secret false <$> o) = serialize_secret false <$> o.
Proof. destruct o as [[v|p]|]; [done|done|done]. Qed.

Lemma serialize_exposed c : serialize_credential true c = c.
Proof.
  assert (∀ s, serialize_secret true s = s) as Hs by (by intros []).
  assert (∀ o : option SecretValue, serialize_secret true <$> o = o) as Ho by (intros [s|]; simpl; by rewrite ?Hs).
  destruct c as [| | |[]| |[]| | | |]; cbn; rewrite ?Hs, ?Ho; done.
Qed.

Lemma proxy_stored c p :
  deserialize_credential c = c → (c = DockerProxy p ∨ c = PodmanProxy p) →
  deserialize_optional_file_or_inline (px_ssl_cert p) = px_ssl_cert p
  ∧ deserialize_optional_secret_value (px_ssl_key p) = px_ssl_key p
  ∧ deserialize_optional_file_or_inline (px_ssl_chain p) = px_ssl_chain p.
Proof. intros E [->| ->]; destruct p; cbn in E; by injection E. Qed.

(** C19. What is stored reads back as it was written, and a credential a client reads
    (with its secrets redacted), edits nowhere and sends back is the one in store. *)
Theorem redaction_roundtrip (c : CredentialType) :
  deserialize_credential c = c →
  deserialize_credential (serialize_credential true c) = c
  ∧ merge_redacted_secrets (deserialize_credential (serialize_credential false c)) c = c.
Proof.
  intros E. split; [by rewrite serialize_exposed|].
  destruct c as [| | |p| |p| | | |]; try (cbn; by rewrite ?merge_redacted).
  all: destruct (proxy_stored _ p E ltac:(tauto)) as (Hc & Hk & Hch), p; cbn in *.
  all: unfold merge_proxy; cbn; by rewrite Hc, Hch, (deserialize_key_redacted _ Hk), merge_key_redacted.
Qed.

(** ** Nothing shown depends on a secret

    Two credentials are alike when they differ at most in the text of their inline
    secrets, and there only in texts of the same length. *)

Inductive secret_like : SecretValue → SecretValue → Prop :=
| like_inline v v' : String.length v = String.length v' → secret_like (SecretInline v) (SecretInline v')
| like_file p : secret_like (SecretFile p) (SecretFile p).

Definition proxy_like (p q : ProxyFields) : Prop :=
  px_port p = px_port q ∧ px_path p = px_path q ∧ px_ssl_cert p = px_ssl_cert q ∧ px_ssl_chain p = px_ssl_chain q
  ∧ option_Forall2 secret_like (px_ssl_key p) (px_ssl_key q).

Inductive cred_like : CredentialType → CredentialType → Prop :=
| like_v1 s t : secret_like s t → cred_like (SnmpV1 s) (SnmpV1 t)
| like_v2c s t : secret_like s t → cred_like (SnmpV2c s) (SnmpV2c t)
| like_v3 n ap a a' pp p p' ctx :
    secret_like a a' → secret_like p p' → cred_like (SnmpV3 n ap a pp p ctx) (SnmpV3 n ap a' pp p' ctx)
| like_docker p q : proxy_like p q → cred_like (DockerProxy p) (DockerProxy q)
| like_podman p q : proxy_like p q → cred_like (PodmanProxy p) (PodmanProxy q)
| like_docker_socket s : cred_like (DockerSocket s) (DockerSocket s)
| like_podman_socket s : cred_like (PodmanSocket s) (PodmanSocket s)
| like_unifi p s k l : secret_like k l → cred_like (UnifiApiKey p s k) (UnifiApiKey p s l)
| like_unifi_admin p s u k l : secret_like k l → cred_like (UnifiLocalAdmin p s u k) (UnifiLocalAdmin p s u l)
| like_instant_on u k l s : secret_like k l → cred_like (InstantOnAccount u k s) (InstantOnAccount u l s).

#[export] Instance secret_like_equiv : Equivalence secret_like.
Proof.
  split.
  - intros []; by constructor.
  - intros ? ? []; by constructor.
  - intros ? ? ? [] E; inversion E; subst; constructor; congruence.
Qed.

#[export] Instance proxy_like_equiv : Equivalence proxy_like.
Proof.
  split.
  - intros p. by repeat split.
  - intros p q (? & ? & ? & ? & ?). by repeat split.
  - intros p q r (? & ? & ? & ? & ?) (? & ? & ? & ? & ?). repeat split; try congruence. by etrans.
Qed.

#[export] Instance cred_like_equiv : Equivalence cred_like.
Proof.
  split.
  - intros []; constructor; reflexivity.
  - intros ? ? []; constructor; by symmetry.
  - intros ? ? ? H; inversion H; subst; intros H'; inversion H'; subst; constructor; by etrans.
Qed.

#[export] Instance serialize_like : Proper (secret_like ==> eq) (serialize_secret false).
Proof. by intros ? ? []. Qed.

#[export] Instance secret_banner_like path_exists :
  Proper (secret_like ==> eq) (λ s, secret_banner path_exists (secret_to_resolvable s)).
Proof. intros ? ? [v v' E|]; cbn; congruence. Qed.

Lemma key_serialize_like (a b : option SecretValue) :
  option_Forall2 secret_like a b → serialize_secret false <$> a = serialize_secret false <$> b.
Proof. intros [? ? E|]; [cbn; by rewrite E|done]. Qed.

Lemma key_banner_like path_exists l (a b : option SecretValue) :
  option_Forall2 secret_like a b →
  opt_line l (secret_banner path_exists) (secret_to_resolvable <$> a)
  = opt_line l (secret_banner path_exists) (secret_to_resolvable <$> b).
Proof. intros [? ? E|]; [cbn; by rewrite (secret_banner_like path_exists _ _ E)|done]. Qed.

(** No response and no banner tells two alike credentials apart: what a client reads,
    the row of an export and the daemon's log show of an inline secret at most its length. *)
Theorem secrets_never_shown (path_exists : string → bool) (c c' : CredentialType) :
  cred_like c c' →
  serialize_credential false c = serialize_credential false c'
  ∧ cred_discriminant c = cred_discriminant c'
  ∧ banner_lines path_exists (to_query_payload c) = banner_lines path_exists (to_query_payload c').
Proof.
  intros [s t E|s t E|n ap a a' pp p p' ctx Ea Ep|p q E|p q E|s|s|p s k l E|p s u k l E|u k l s E]; try done.
  4, 5: destruct p, q, E as (? & ? & ? & ? & E); cbn in *; subst; split_and!; [|done|];
    [by rewrite (key_serialize_like _ _ E)
    |unfold proxy_banner_lines; cbn; by rewrite (key_banner_like path_exists _ _ _ E)].
  3: split_and!; [cbn; by rewrite Ea, Ep|done|]; cbn; unfold snmp_banner_lines; cbn;
     pose proof (secret_banner_like path_exists _ _ Ea) as Ha;
     pose proof (secret_banner_like path_exists _ _ Ep) as Hp; cbn in Ha, Hp; by rewrite Ha, Hp.
  all: split_and!; [cbn; by rewrite E|done|].
  all: pose proof (secret_banner_like path_exists _ _ E) as Hb; cbn in Hb.
  all: cbn; unfold snmp_banner_lines, unifi_banner_lines, instant_on_banner_lines; cbn; by rewrite Hb.
Qed.

(** ** Reading the files a payload refers to *)

Definition value_files (v : ResolvableValue) : list string := match v with RValue _ => [] | RFile p => [p] end.
Definition secret_files (v : ResolvableSecret) : list string := match v with RSecret _ => [] | RSecretFile p => [p] end.
Definition opt_files {A} (f : A → list string) (o : option A) : list string :=
  match o with Some a => f a | None => [] end.

(** The files a payload still refers to. *)
Definition payload_files (p : CredentialQueryPayload) : list string :=
  (match p with
   | PSnmp s => secret_files (sq_community s)
                ++ opt_files (λ v, secret_files (v3_auth_password v) ++ secret_files (v3_priv_password v)) (sq_v3 s)
   | PDockerProxy d | PPodmanProxy d =>
       opt_files value_files (cp_ssl_cert d) ++ opt_files secret_files (cp_ssl_key d)
       ++ opt_files value_files (cp_ssl_chain d)
   | PUnifiController u => match uq_auth u with ApiKey k | LocalAdmin _ k => secret_files k end
   | PInstantOn i => secret_files (io_password i)
   | PDockerSocket _ | PPodmanSocket _ | PUnknown => []
   end)%list.

Section Resolve.
Context (pm : string → result (list string) string) (rd rd' : string → result string string).

Lemma bind_Ok {A B E} (r : result A E) (k : A → result B E) b :
  result_bind r k = Ok b → ∃ a, r = Ok a ∧ k a = Ok b.
Proof. destruct r; naive_solver. Qed.

Lemma resolve_secret_ok f l v w :
  resolve_secret rd f l v = Ok w → secret_files w = [] ∧ resolve_secret rd' f l w = Ok w
  ∧ Forall (λ p, is_ok (rd p) = true) (secret_files v).
Proof.
  destruct v as [v|p]; cbn; [intros [= <-]; by repeat constructor|].
  destruct (rd p) eqn:E; [intros [= <-]|done]. split_and!; [done|done|]. by repeat constructor; rewrite E.
Qed.

Lemma resolve_value_ok f l v w :
  resolve_value rd f l v = Ok w → value_files w = [] ∧ resolve_value rd' f l w = Ok w
  ∧ Forall (λ p, is_ok (rd p) = true) (value_files v).
Proof.
  destruct v as [v|p]; cbn; [intros [= <-]; by repeat constructor|].
  destruct (rd p) eqn:E; [intros [= <-]|done]. split_and!; [done|done|]. by repeat constructor; rewrite E.
Qed.

Lemma transpose_ok {A} (files : A → list string) (f g : A → result A string) (o o' : option A) :
  (∀ a b, f a = Ok b → files b = [] ∧ g b = Ok b ∧ Forall (λ p, is_ok (rd p) = true) (files a)) →
  transpose f o = Ok o' →
  opt_files files o' = [] ∧ transpose g o' = Ok o' ∧ Forall (λ p, is_ok (rd p) = true) (opt_files files o).
Proof.
  intros Hf. destruct o as [a|]; cbn; [|by intros [= <-]].
  destruct (f a) eqn:E; intros [= <-]. destruct (Hf _ _ E) as (? & Hg & ?). cbn. by rewrite Hg.
Qed.

Lemma resolve_v3_ok l v w :
  resolve_v3 rd l v = Ok w →
  (secret_files (v3_auth_password w) ++ secret_files (v3_priv_password w))%list = []
  ∧ resolve_v3 rd' l w = Ok w
  ∧ Forall (λ p, is_ok (rd p) = true)
      (secret_files (v3_auth_password v) ++ secret_files (v3_priv_password v))%list.
Proof.
  intros (a & Ha & (p & Hp & [= <-])%bind_Ok)%bind_Ok.
  apply resolve_secret_ok in Ha as (Fa & Ra & Oa), Hp as (Fp & Rp & Op). cbn.
  unfold resolve_v3. cbn. rewrite Fa, Fp, Ra. cbn. rewrite Rp. by split_and!; [| |apply Forall_app].
Qed.

Lemma resolve_proxy_ok l d e :
  resolve_proxy pm rd l d = Ok e →
  (opt_files value_files (cp_ssl_cert e) ++ opt_files secret_files (cp_ssl_key e)
   ++ opt_files value_files (cp_ssl_chain e))%list = []
  ∧ resolve_proxy pm rd' l e = Ok e
  ∧ Forall (λ p, is_ok (rd p) = true)
      (opt_files value_files (cp_ssl_cert d) ++ opt_files secret_files (cp_ssl_key d)
       ++ opt_files value_files (cp_ssl_chain d))%list.
Proof.
  intros (c & Hc & (k & Hk & (ch & Hch & ([] & V1 & ([] & V2 & ([] & V3 & [= <-])%bind_Ok)%bind_Ok)%bind_Ok)%bind_Ok)%bind_Ok)%bind_Ok.
  apply (transpose_ok value_files _ (resolve_value rd' "ssl_cert" l)) in Hc as (Fc & Rc & Oc); [|apply resolve_value_ok].
  apply (transpose_ok secret_files _ (resolve_secret rd' "ssl_key" l)) in Hk as (Fk & Rk & Ok); [|apply resolve_secret_ok].
  apply (transpose_ok value_files _ (resolve_value rd' "ssl_chain" l)) in Hch as (Fh & Rh & Oh); [|apply resolve_value_ok].
  cbn. rewrite Fc, Fk, Fh. split_and!; [done| |by rewrite !Forall_app].
  unfold resolve_proxy. cbn. rewrite Rc. cbn. rewrite Rk. cbn. rewrite Rh. cbn. rewrite V1. cbn. rewrite V2.
  cbn. by rewrite V3.
Qed.

(** A payload that was resolved needs no file any more (resolving it again, on any disk,
    gives it back), is of the same kind, and every file it referred to was readable. *)
Theorem resolved_payloads (p q : CredentialQueryPayload) :
  resolve_file_paths pm rd p = Ok q →
  payload_files q = [] ∧ resolve_file_paths pm rd' q = Ok q ∧ payload_kind q = payload_kind p
  ∧ Forall (λ f, is_ok (rd f) = true) (payload_files p).
Proof.
  destruct p as [s|d|s|d|s|u|i|]; cbn; try (by intros [= <-]).
  - intros (v3 & Hv & (c & Hc & [= <-])%bind_Ok)%bind_Ok.
    destruct (transpose_ok _ _ (resolve_v3 rd' "SNMP queries") _ _ (resolve_v3_ok _) Hv) as (Fv & Rv & Ov).
    destruct (resolve_secret_ok _ _ _ _ Hc) as (Fc & Rc & Oc).
    cbn. rewrite Fc, Fv, Rv. cbn. rewrite Rc. by split_and!; [| | |apply Forall_app].
  - intros (e & He & [= <-])%bind_Ok. apply resolve_proxy_ok in He as (F & R & O). cbn. by rewrite R.
  - intros (e & He & [= <-])%bind_Ok. apply resolve_proxy_ok in He as (F & R & O). cbn. by rewrite R.
  - intros (a & Ha & [= <-])%bind_Ok. destruct u as [po si [k|n k]]; cbn in *;
      apply bind_Ok in Ha as (k' & Hk & [= <-]); apply resolve_secret_ok in Hk as (F & R & O); cbn; by rewrite R.
  - intros (k & Hk & [= <-])%bind_Ok. apply resolve_secret_ok in Hk as (F & R & O). cbn. by rewrite R.
Qed.
End Resolve.

(** ** Validation *)

(** A text is fine for the tags when it is blank or its blocks parse and one has a tag. *)
Definition pem_fine (pm : string → result (list string) string) (tags : list PemTag) (v : string) : Prop :=
  let trimmed := bytes_str (trim (str_bytes v)) in
  trimmed = "" ∨ ∃ found, pm trimmed = Ok found ∧ ∃ t a, t ∈ found ∧ a ∈ tags ∧ tag_str a = t.

Lemma validate_pem_iff pm v name tags : validate_pem pm v name tags = Ok tt ↔ pem_fine pm tags v.
Proof.
  unfold validate_pem, pem_fine. destruct (String.eqb_spec (bytes_str (trim (str_bytes v))) "") as [E|E]; [naive_solver|].
  assert (∀ found, existsb (λ t, existsb (λ a, String.eqb (tag_str a) t) tags) found = true
                   ↔ ∃ t a, t ∈ found ∧ a ∈ tags ∧ tag_str a = t) as Hex.
  { intros found. rewrite existsb_elem. setoid_rewrite existsb_elem. setoid_rewrite String.eqb_eq. naive_solver. }
  destruct (pm _) as [[|t found]|e].
  - split; [done|]. intros [?|(found & [= <-] & t & a & Ht & _)]; [done|]. by apply elem_of_nil in Ht.
  - destruct (existsb _ (t :: found)) eqn:Eb.
    + split; [|done]. intros _. right. exists (t :: found). split; [done|]. by apply Hex.
    + split; [done|]. intros [?|(found' & [= <-] & Hf)]; [done|]. apply Hex in Hf. congruence.
  - split; [done|]. intros [?|(? & ? & _)]; done.
Qed.

Definition inline_fine pm (tags : list PemTag) (o : option string) : Prop :=
  ∀ v, o = Some v → pem_fine pm tags v.

Lemma validate_field_plain pm c f : inline_format f = Some Plain ∨ inline_format f = None → validate_field pm c f = Ok tt.
Proof. unfold validate_field. intros [->| ->]; [by destruct (get_inline_value _ _)|done]. Qed.

Lemma validate_cons pm c f fs :
  validate_fields pm c (f :: fs) = Ok tt ↔ validate_field pm c f = Ok tt ∧ validate_fields pm c fs = Ok tt.
Proof. cbn. destruct (validate_field pm c f) as [[]|]; naive_solver. Qed.

Lemma validate_field_pem pm c f fmt :
  inline_format f = Some fmt → fmt ≠ Plain →
  validate_field pm c f = Ok tt ↔ inline_fine pm (allowed_pem_tags fmt) (get_inline_value c (fd_id f)).
Proof.
  unfold validate_field, inline_fine. intros -> Hf. destruct (get_inline_value c (fd_id f)) as [v|]; [|naive_solver].
  assert (validate_inline pm fmt v (fd_label f) = validate_pem pm v (fd_label f) (allowed_pem_tags fmt)) as ->
    by (by destruct fmt).
  rewrite validate_pem_iff. naive_solver.
Qed.

Lemma validate_proxy_fields pm c l h :
  validate_fields pm c (container_proxy_field_definitions l h) = Ok tt ↔
  inline_fine pm [Certificate] (get_inline_value c "ssl_cert")
  ∧ inline_fine pm [PrivateKey; RsaPrivateKey; EcPrivateKey] (get_inline_value c "ssl_key")
  ∧ inline_fine pm [Certificate] (get_inline_value c "ssl_chain").
Proof.
  unfold container_proxy_field_definitions.
  repeat rewrite validate_cons. rewrite 2!(validate_field_plain pm) by (cbn; tauto).
  rewrite (validate_field_pem pm _ _ PemCertificate) by done.
  rewrite (validate_field_pem pm _ _ PemPrivateKey) by done.
  rewrite (validate_field_pem pm _ _ PemCertificate) by done. cbn [fd_id allowed_pem_tags]. naive_solver.
Qed.

(** The inline certificate, key and chain of a proxy credential, as validation reads
    them (a redacted key is not checked). *)
Definition proxy_of (c : CredentialType) : option ProxyFields :=
  match c with DockerProxy p | PodmanProxy p => Some p | _ => None end.

(** Validation accepts a credential exactly when the inline certificates and the key of a
    proxy are blank or hold a block with a tag of their kind; nothing else is checked. *)
Theorem validate_iff pm (c : CredentialType) :
  validate pm c = Ok tt ↔
  ∀ p, proxy_of c = Some p →
    inline_fine pm [Certificate] (px_ssl_cert p ≫= inline_text)
    ∧ inline_fine pm [PrivateKey; RsaPrivateKey; EcPrivateKey] (px_ssl_key p ≫= inline_secret)
    ∧ inline_fine pm [Certificate] (px_ssl_chain p ≫= inline_text).
Proof.
  unfold validate. destruct c as [| | |p| |p| | | |].
  4, 6: cbn [field_definitions proxy_of]; rewrite validate_proxy_fields; cbn; naive_solver.
  all: split; [by intros|]; intros _; cbn [field_definitions unifi_connection_fields app];
    repeat (apply validate_cons; split; [apply validate_field_plain; cbn; tauto|]); done.
Qed.

(** Help texts that promise more than validation checks: a v3 password of fewer than the
    [minimum 8 characters], a certificate without the key it [must be provided together] with. *)
Theorem validation_is_lenient pm :
  validate pm (SnmpV3 "user" Sha256 (SecretInline "short") Aes128 (SecretInline "") None) = Ok tt
  ∧ (pm "cert" = Ok ["CERTIFICATE"] →
     validate pm (DockerProxy {| px_port := 2376; px_path := None; px_ssl_cert := Some (Inline "cert");
                                 px_ssl_key := None; px_ssl_chain := None |}) = Ok tt).
Proof.
  split; [apply validate_iff; done|]. intros E. apply validate_iff. intros p [= <-]. cbn.
  split_and!; intros v; [|done|done]. intros [= <-]. right. exists ["CERTIFICATE"]. split; [done|].
  exists "CERTIFICATE", Certificate. by repeat constructor.
Qed.

(** ** Samples *)

Definition sample_proxy (key : string) : CredentialType :=
  DockerProxy {| px_port := 2376; px_path := Some "/v1.43"; px_ssl_cert := Some (InFile "/etc/cert.pem");
                 px_ssl_key := Some (SecretInline key); px_ssl_chain := None |}.

Lemma redaction_roundtrip_witness :
  serialize_credential false (sample_proxy "key one") = sample_proxy "********"
  ∧ merge_redacted_secrets (sample_proxy "********") (sample_proxy "key one") = sample_proxy "key one".
Proof.
  split; [reflexivity|]. destruct (redaction_roundtrip (sample_proxy "key one")) as [_ E]; [by vm_compute|exact E].
Defined.

Lemma secrets_never_shown_witness :
  banner_lines (λ _, true) (to_query_payload (sample_proxy "key one"))
  = banner_lines (λ _, true) (to_query_payload (sample_proxy "key two")).
Proof.
  apply (secrets_never_shown (λ _, true) (sample_proxy "key one") (sample_proxy "key two")).
  apply like_docker. split_and!; try reflexivity. by repeat constructor.
Defined.

Definition sample_disk (p : string) : result string string :=
  if String.eqb p "/run/secret" then Ok "s3cret" else Err "No such file or directory (os error 2)".

Lemma resolved_payloads_witness :
  resolve_file_paths (λ _, Ok []) (λ _, Err "gone") (PInstantOn {| io_username := "a"; io_password := RSecret "s3cret"; io_site := None |})
  = Ok (PInstantOn {| io_username := "a"; io_password := RSecret "s3cret"; io_site := None |}).
Proof.
  apply (resolved_payloads (λ _, Ok []) sample_disk (λ _, Err "gone")
    (PInstantOn {| io_username := "a"; io_password := RSecretFile "/run/secret"; io_site := None |})). reflexivity.
Defined.
