(* ===== verification/CredentialStoreThms.v ===== *)
(** What the credential tables promise: two credentials of a one-per-host
    integration never reach the same endpoint, and a scan is sent exactly the
    credentials assigned to it. *)

From S2P Require Import Prelude Effects Net Entities Patterns Discovery Hosts Versions Credentials Topology EdgeBuilder EdgeThms CredentialStore.
Local Open Scope Z_scope.

(** ** Rows *)

Lemma elem_of_ordered {A} (key : A → Uuid) sel l x : x ∈ ordered key sel l ↔ x ∈ l ∧ sel x = true.
Proof. unfold ordered. rewrite sort_by_perm. rewrite elem_of_list_filter_bool. tauto. Qed.

Lemma group_rows_lookup {A B} (key : A → Uuid) (val : A → B) l k :
  group_rows key val l !! k
  = match List.filter (λ a, (key a =? k)%N) l with [] => None | g => Some (val <$> g) end.
Proof.
  unfold group_rows.
  enough (∀ m : gmap Uuid (list B), foldl (λ m a, <[key a := default [] (m !! key a) ++ [val a]]> m) m l !! k
          = match List.filter (λ a, (key a =? k)%N) l with
            | [] => m !! k | g => Some (default [] (m !! k) ++ (val <$> g)) end) as H.
  { rewrite H, lookup_empty. by destruct (List.filter _ l). }
  induction l as [|a l IH]; intros m; [done|]. simpl. rewrite IH.
  destruct (N.eqb_spec (key a) k) as [->|Hne].
  - rewrite lookup_insert_eq. simpl. destruct (List.filter _ l); [done|]. by rewrite <- app_assoc.
  - by rewrite lookup_insert_ne.
Qed.

(** ** Overlapping targets *)

Definition same_targets (a b : CredentialTargets) : Prop :=
  ct_networks a = ct_networks b ∧ ∀ x, x ∈ ct_hosts a ↔ x ∈ ct_hosts b.

#[export] Instance same_targets_equiv : Equivalence same_targets.
Proof.
  split; [by intros a|intros a b [? H]; split; [done|]; intros x; by rewrite H|].
  intros a b c [? H] [? H']. split; [congruence|]. intros x. by rewrite H, H'.
Qed.

Lemma is_disjoint_false (a b : gset Uuid) : negb (is_disjoint a b) = true ↔ ∃ x, x ∈ a ∧ x ∈ b.
Proof.
  unfold is_disjoint. rewrite negb_true_iff, bool_decide_eq_false. split.
  - intros Hne. destruct (set_choose_L (a ∩ b) Hne) as [x Hx]. exists x. set_solver.
  - intros (x & ? & ?) E. set_solver.
Qed.

Lemma targets_overlap_iff a b :
  targets_overlap a b = true ↔
  (∃ n, n ∈ ct_networks a ∧ n ∈ ct_networks b)
  ∨ ∃ h s t, (h, s) ∈ ct_hosts a ∧ (h, t) ∈ ct_hosts b ∧ scopes_meet s t = true.
Proof.
  unfold targets_overlap. rewrite orb_true_iff, is_disjoint_false, existsb_elem. setoid_rewrite existsb_elem.
  setoid_rewrite andb_true_iff. setoid_rewrite N.eqb_eq.
  split; (intros [?|H]; [by left|right]).
  - destruct H as ([h s] & ? & [h' t] & ? & [= ->] & ?). by exists h', s, t.
  - destruct H as (h & s & t & ? & ? & ?). exists (h, s). split; [done|]. by exists (h, t).
Qed.

#[export] Instance targets_overlap_proper : Proper (same_targets ==> same_targets ==> eq) targets_overlap.
Proof.
  intros a a' [En Eh] b b' [En' Eh']. apply eq_true_iff_eq. rewrite !targets_overlap_iff, En, En'.
  by setoid_rewrite Eh; setoid_rewrite Eh'.
Qed.

Lemma scopes_meet_sym s t : scopes_meet s t = scopes_meet t s.
Proof. destruct s, t; [|done..]. cbn. unfold is_disjoint. by rewrite (comm_L (∩)). Qed.

Lemma targets_overlap_sym a b : targets_overlap a b = targets_overlap b a.
Proof.
  apply eq_true_iff_eq. rewrite !targets_overlap_iff.
  split; (intros [(n & ? & ?)|(h & s & t & ? & ? & ?)]; [left; by exists n|right; exists h, t, s]);
    by rewrite scopes_meet_sym.
Qed.

Lemma endpoint_conflict_sym a ta b tb :
  single_endpoint_targets_conflict a ta b tb = single_endpoint_targets_conflict b tb a ta.
Proof.
  unfold single_endpoint_targets_conflict. rewrite (targets_overlap_sym ta), String.eqb_sym.
  by rewrite (andb_comm (single_endpoint_per_host a)).
Qed.

#[export] Instance conflict_proper a :
  Proper (same_targets ==> eq ==> same_targets ==> eq) (single_endpoint_targets_conflict a).
Proof. intros t t' E b _ <- u u' E'. unfold single_endpoint_targets_conflict. by rewrite E, E'. Qed.

(** Fewer targets, fewer conflicts. *)
Lemma conflict_mono a t t' b u :
  ct_networks t ⊆ ct_networks t' → (∀ x, x ∈ ct_hosts t → x ∈ ct_hosts t') →
  single_endpoint_targets_conflict a t' b u = false → single_endpoint_targets_conflict a t b u = false.
Proof.
  intros Hn Hh. unfold single_endpoint_targets_conflict. rewrite !andb_false_iff. intros [?|Ho]; [by left|right].
  apply not_true_is_false. apply not_true_iff_false in Ho. contradict Ho.
  apply targets_overlap_iff in Ho. apply targets_overlap_iff.
  destruct Ho as [(n & ? & ?)|(h & s & v & ? & ? & ?)]; [left; exists n; set_solver|right].
  exists h, s, v. auto.
Qed.

(** ** What is in the tables *)

Definition network_rows (w : CredStore) (c : Uuid) : list NetworkCredential :=
  List.filter (λ r, (nc_credential_id r =? c)%N) (network_credentials w).
Definition host_rows (w : CredStore) (c : Uuid) : list HostCredential :=
  List.filter (λ r, (hc_credential_id r =? c)%N) (host_credentials w).

(** The targets of a credential. *)
Definition row_targets (w : CredStore) (c : Uuid) : CredentialTargets :=
  targets_build (nc_network_id <$> network_rows w c) (row_host <$> host_rows w c).

Lemma elem_of_group {A B} (key : A → Uuid) (val : A → B) sel l c y :
  (∀ x, sel x = true ↔ key x = c ∨ sel x = true) →
  y ∈ default [] (group_rows key val (ordered key sel l) !! c) ↔
  y ∈ val <$> List.filter (λ a, (key a =? c)%N) l.
Proof.
  intros Hsel. rewrite group_rows_lookup.
  trans (y ∈ val <$> List.filter (λ a, (key a =? c)%N) (ordered key sel l)).
  { by destruct (List.filter _ (ordered key sel l)). }
  rewrite !list_elem_of_fmap. setoid_rewrite elem_of_list_filter_bool. setoid_rewrite elem_of_ordered.
  setoid_rewrite N.eqb_eq. split; intros (x & -> & H); exists x; (split; [done|]); [tauto|].
  destruct H as [Hk Hx]. split; [done|]. split; [done|]. apply Hsel. by left.
Qed.

Lemma stored_targets_rows w ids c : c ∈ ids → same_targets (stored_targets w ids c) (row_targets w c).
Proof.
  intros Hc. unfold stored_targets, row_targets, get_network_ids_for_credentials, get_host_assignments_for_credentials.
  destruct ids as [|i ids']; [by apply elem_of_nil in Hc|]. set (ids := i :: ids') in *.
  assert (∀ {A} (key : A → Uuid) x, bool_decide (key x ∈ ids) = true ↔ key x = c ∨ bool_decide (key x ∈ ids) = true) as Hs.
  { intros A key x. rewrite bool_decide_eq_true. naive_solver. }
  split; cbn.
  - apply set_eq. intros n. rewrite !elem_of_list_to_set.
    rewrite (elem_of_group nc_credential_id nc_network_id _ _ c) by apply (Hs _ nc_credential_id). done.
  - intros x. rewrite !list_elem_of_fmap.
    setoid_rewrite (elem_of_group hc_credential_id row_host _ _ c); [done|apply (Hs _ hc_credential_id)].
Qed.


(** ** One credential per endpoint *)

(** No two credentials of an organization's one-per-host integration overlap. *)
Definition exclusive (w : CredStore) : Prop :=
  ∀ a b, a ∈ cs_credentials w → b ∈ cs_credentials w → cr_id a ≠ cr_id b →
  cr_organization_id a = cr_organization_id b →
  single_endpoint_targets_conflict (credential_type a) (row_targets w (cr_id a))
    (credential_type b) (row_targets w (cr_id b)) = false.

(** Ids are unique and not nil, and the junction rows refer to credentials that are there. *)
Record store_wf (w : CredStore) : Prop := {
  wf_ids : NoDup (cr_id <$> cs_credentials w);
  wf_nil : uuid_nil ∉ cr_id <$> cs_credentials w;
  wf_networks : ∀ r, r ∈ network_credentials w → nc_credential_id r ∈ cr_id <$> cs_credentials w;
  wf_hosts : ∀ r, r ∈ host_credentials w → hc_credential_id r ∈ cr_id <$> cs_credentials w
}.

Definition candidate_targets (c : Credential) : CredentialTargets :=
  targets_build (assigned_network_ids c) (host_assignments c).

Lemma find_conflict_None w c :
  find_single_endpoint_conflict w c = None →
  ∀ o, o ∈ cs_credentials w → cr_id o ≠ cr_id c → cr_organization_id o = cr_organization_id c →
  single_endpoint_targets_conflict (credential_type c) (candidate_targets c)
    (credential_type o) (row_targets w (cr_id o)) = false.
Proof.
  unfold find_single_endpoint_conflict. intros H o Ho Hid Horg.
  destruct (single_endpoint_per_host (credential_type c)) eqn:Hs; [|unfold single_endpoint_targets_conflict; by rewrite Hs].
  cbn [negb] in H. destruct (List.find _ _) as [?|] eqn:E in H; [done|]. clear H.
  destruct (String.eqb (integration_name (credential_type o)) (integration_name (credential_type c))) eqn:Hi;
    [|unfold single_endpoint_targets_conflict; rewrite String.eqb_sym, Hi; by rewrite andb_false_r].
  match type of E with List.find ?f ?l = None => assert (o ∈ l) as Hin; [|pose proof (find_none f l E o) as Hn] end.
  { repeat (apply elem_of_list_filter_bool; split); [done|by apply negb_true_iff, N.eqb_neq|by apply N.eqb_eq|done]. }
  rewrite <- list_elem_of_In in Hn. specialize (Hn Hin).
  rewrite stored_targets_rows in Hn; [done|]. by apply list_elem_of_fmap_2.
Qed.

(** What a type says of endpoints depends on its kind alone. *)
Lemma conflict_kind a a' ta b tb :
  cred_discriminant a = cred_discriminant a' →
  single_endpoint_targets_conflict a ta b tb = single_endpoint_targets_conflict a' ta b tb.
Proof. destruct a, a'; try discriminate; done. Qed.

Lemma merge_kind c e : cred_discriminant (merge_redacted_secrets c e) = cred_discriminant c.
Proof. by destruct c, e. Qed.

(** *** Writes to the junction tables *)

Lemma insert_networks_ok w rows l l' : insert_networks w rows l = Ok l' → l' = l ++ rows.
Proof.
  revert l. induction rows as [|r rows IH]; intros l; cbn; [intros [= <-]; by rewrite app_nil_r|].
  destruct (existsb _ _); [done|]. destruct (nc_ok w r); [|done]. intros ->%IH. by rewrite <- app_assoc.
Qed.

Lemma insert_hosts_ok w rows l l' : insert_hosts w rows l = Ok l' → l' = l ++ rows.
Proof.
  revert l. induction rows as [|r rows IH]; intros l; cbn; [intros [= <-]; by rewrite app_nil_r|].
  destruct (existsb _ _); [done|]. destruct (hc_ok w r); [|done]. intros ->%IH. by rewrite <- app_assoc.
Qed.

(** Replacing the rows of one key leaves the rows of the others. *)
Lemma filter_replaced {A} (key : A → Uuid) k k' l rows :
  (∀ r, r ∈ rows → key r = k) →
  List.filter (λ r, (key r =? k')%N) (List.filter (λ r, negb (key r =? k)%N) l ++ rows)
  = if (k =? k')%N then rows else List.filter (λ r, (key r =? k')%N) l.
Proof.
  intros Hr. rewrite List.filter_app. destruct (N.eqb_spec k k') as [<-|Hne].
  - rewrite (filter_all _ rows) by (intros r Hin; by apply N.eqb_eq, Hr).
    rewrite filter_none; [done|]. intros r [Hk%negb_true_iff _]%elem_of_list_filter_bool. done.
  - rewrite (filter_none _ rows) by (intros r Hin; apply N.eqb_neq; by rewrite (Hr r Hin)).
    rewrite app_nil_r. apply filter_filter_imp. intros r _ E%N.eqb_eq. by apply negb_true_iff, N.eqb_neq; rewrite E.
Qed.

(** What a write of a credential's assignments does to the tables. *)
Record writes (id : Uuid) (ns : list NetworkCredential) (hs : list HostCredential) (w w' : CredStore) : Prop := {
  wr_credentials : cs_credentials w' = cs_credentials w;
  wr_networks : ∀ c, network_rows w' c = if (id =? c)%N then ns else network_rows w c;
  wr_hosts : ∀ c, host_rows w' c = if (id =? c)%N then hs else host_rows w c;
  wr_network_rows : ∀ r, r ∈ network_credentials w' → r ∈ network_credentials w ∨ nc_credential_id r = id;
  wr_host_rows : ∀ r, r ∈ host_credentials w' → r ∈ host_credentials w ∨ hc_credential_id r = id
}.

Lemma writes_none id w : writes id (network_rows w id) (host_rows w id) w w.
Proof. split; try done; intros c; [|  |auto..]; by destruct (N.eqb_spec id c) as [<-|]. Qed.

Definition net_rows (id : Uuid) (ns : list Uuid) : list NetworkCredential :=
  (λ n, {| nc_network_id := n; nc_credential_id := id |}) <$> ns.
Definition hst_rows (id : Uuid) (hs : list CredentialHostAssignment) : list HostCredential :=
  (λ a, {| hc_host_id := ha_host_id a; hc_credential_id := id; hc_ip_address_ids := ha_ip_address_ids a |}) <$> hs.

Lemma save_networks_writes id ns w w' r :
  save_networks_for_credential id ns w = (w', r) →
  writes id (if is_ok r then net_rows id ns else network_rows w id) (host_rows w id) w w'.
Proof.
  unfold save_networks_for_credential, replace_networks. fold (net_rows id ns).
  destruct (insert_networks _ _ _) as [l|e] eqn:E; intros [= <- <-]; [|apply writes_none].
  apply insert_networks_ok in E as ->. cbn. split; cbn; [done| | | |by auto].
  - intros c. unfold network_rows. cbn. apply (filter_replaced nc_credential_id).
    by intros r (n & -> & _)%list_elem_of_fmap.
  - intros c. unfold host_rows. cbn. by destruct (N.eqb_spec id c) as [<-|].
  - intros r [[_ ?]%elem_of_list_filter_bool|(n & -> & _)%list_elem_of_fmap]%elem_of_app; auto.
Qed.

Lemma save_hosts_writes id hs w w' r :
  save_host_assignments_for_credential id hs w = (w', r) →
  writes id (network_rows w id) (if is_ok r then hst_rows id hs else host_rows w id) w w'.
Proof.
  unfold save_host_assignments_for_credential, replace_hosts. fold (hst_rows id hs).
  destruct (insert_hosts _ _ _) as [l|e] eqn:E; intros [= <- <-]; [|apply writes_none].
  apply insert_hosts_ok in E as ->. cbn. split; cbn; [done| | |by auto|].
  - intros c. unfold network_rows. cbn. by destruct (N.eqb_spec id c) as [<-|].
  - intros c. unfold host_rows. cbn. apply (filter_replaced hc_credential_id).
    by intros r (n & -> & _)%list_elem_of_fmap.
  - intros r [[_ ?]%elem_of_list_filter_bool|(n & -> & _)%list_elem_of_fmap]%elem_of_app; auto.
Qed.

Lemma writes_trans id ns hs hs' ns' w w1 w2 :
  writes id ns hs w w1 → writes id ns' hs' w1 w2 → writes id ns' hs' w w2.
Proof.
  intros [E1 N1 H1 A1 B1] [E2 N2 H2 A2 B2]. split; [congruence| | | |].
  - intros c. rewrite N2, N1. by destruct (id =? c)%N.
  - intros c. rewrite H2, H1. by destruct (id =? c)%N.
  - intros r [?|?]%A2; [by apply A1|by right].
  - intros r [?|?]%B2; [by apply B1|by right].
Qed.

(** Saving assignments writes those of the credential, all of them when it succeeds; on
    the way out of a failure the networks may be written and the hosts not. *)
Lemma save_assignments_writes c ns hs un w w' r :
  save_assignments c ns hs un w = (w', r) →
  ∃ ns' hs', writes (cr_id c) ns' hs' w w'
    ∧ match r with
      | Ok d => ns' = net_rows (cr_id c) ns ∧ hs' = hst_rows (cr_id c) hs
      | Err _ => (ns' = network_rows w (cr_id c) ∨ ns' = net_rows (cr_id c) ns) ∧ hs' = host_rows w (cr_id c)
      end.
Proof.
  unfold save_assignments. rewrite bind_get.
  destruct (networks_accessible ns un); cbn [negb];
    [|intros [= <- <-]; eexists _, _; split; [apply writes_none|auto]].
  destruct (hosts_accessible w _ un); cbn [negb];
    [|intros [= <- <-]; eexists _, _; split; [apply writes_none|auto]].
  unfold mbind, SM_bind, store.
  destruct (save_networks_for_credential _ _ w) as [w1 [[]|e]] eqn:E1; apply save_networks_writes in E1; cbn in E1.
  - destruct (save_host_assignments_for_credential _ _ w1) as [w2 [[]|e]] eqn:E2; apply save_hosts_writes in E2; cbn in E2;
      intros [= <- <-]; eexists _, _; (split; [by eapply writes_trans|]).
    + split; [|done]. rewrite (wr_networks _ _ _ _ _ E1). by rewrite N.eqb_refl.
    + rewrite (wr_networks _ _ _ _ _ E1), (wr_hosts _ _ _ _ _ E1), N.eqb_refl. auto.
  - intros [= <- <-]. eexists _, _. split; [apply E1|auto].
Qed.

Lemma targets_of_rows id ns hs :
  targets_build (nc_network_id <$> net_rows id ns) (row_host <$> hst_rows id hs) = targets_build ns hs.
Proof.
  unfold net_rows, hst_rows. rewrite <- !list_fmap_compose. f_equal; [by rewrite list_fmap_id|].
  rewrite <- (list_fmap_id hs) at 2. apply list_fmap_ext. by intros ? [].
Qed.

(** *** Creating *)

(** A credential that joins the others with targets no wider than the checked ones. *)
Lemma exclusive_join w w' c row id ns hs :
  exclusive w → store_wf w →
  find_single_endpoint_conflict w c = None →
  (∀ o, o ∈ cs_credentials w → cr_id o = id → False) →
  cs_credentials w' = cs_credentials w ++ [row] →
  cr_id row = id → cr_organization_id row = cr_organization_id c → credential_type row = credential_type c →
  (∀ o, o ∈ cs_credentials w → cr_id o ≠ cr_id c) →
  (∀ o, cr_id o ≠ id → row_targets w' (cr_id o) = row_targets w (cr_id o)) →
  row_targets w' id = targets_build ns hs →
  list_to_set ns ⊆@{gset Uuid} list_to_set (assigned_network_ids c) → (∀ x, x ∈ hs → x ∈ host_assignments c) →
  exclusive w'.
Proof.
  intros Hex Hwf Hc Hfresh Ecr Eid Eorg Ety Hcid Hoth Ht Hns Hhs.
  assert (∀ o, o ∈ cs_credentials w → cr_organization_id o = cr_organization_id c →
    single_endpoint_targets_conflict (credential_type row) (row_targets w' id)
      (credential_type o) (row_targets w' (cr_id o)) = false) as Hnew.
  { intros o Ho Horg. rewrite Hoth by (intros E; by apply (Hfresh o)). rewrite Ht, Ety.
    eapply conflict_mono; [| |by apply (find_conflict_None w c Hc o Ho (Hcid o Ho))]; [done|].
    intros x (y & -> & Hy)%list_elem_of_fmap. apply list_elem_of_fmap. exists y. auto. }
  intros a b. rewrite Ecr, !elem_of_app, !list_elem_of_singleton. intros [Ha| ->] [Hb| ->] Hne Ho.
  - rewrite (Hoth a), (Hoth b) by (intros E; first [exact (Hfresh a Ha E)|exact (Hfresh b Hb E)]). by apply Hex.
  - rewrite endpoint_conflict_sym, Eid. apply Hnew; [done|by rewrite Ho].
  - rewrite Eid. apply Hnew; [done|by rewrite <- Ho].
  - done.
Qed.

Lemma row_targets_ext w w' c c' :
  network_rows w' c' = network_rows w c → host_rows w' c' = host_rows w c → row_targets w' c' = row_targets w c.
Proof. unfold row_targets. by intros -> ->. Qed.

Lemma no_rows w id : store_wf w → id ∉ cr_id <$> cs_credentials w → network_rows w id = [] ∧ host_rows w id = [].
Proof.
  intros Hwf Hid. split; apply filter_none; intros r Hr; apply N.eqb_neq; intros E; apply Hid; rewrite <- E.
  - by apply wf_networks.
  - by apply wf_hosts.
Qed.

Section Writing.
Context (pm : string → result (list string) string) (valid : Credential → bool) (org : Uuid) (nets : list Uuid).

Lemma create_handler_run fresh c w w' r :
  create_handler pm valid org fresh c w = (w', r) →
  match r with
  | Err _ => w' = w
  | Ok d => cr_id d = (if (cr_id c =? uuid_nil)%N then fresh else cr_id c)
            ∧ cr_id d ∉ cr_id <$> cs_credentials w
            ∧ cr_organization_id d = cr_organization_id c ∧ credential_type d = credential_type c
            ∧ w' = set_credentials_rows (cs_credentials w ++ [stored_row d]) w
  end.
Proof.
  unfold create_handler. destruct (valid c); cbn [negb]; [|by intros [= <- <-]].
  destruct (cr_organization_id c =? org)%N; cbn [negb]; [|by intros [= <- <-]].
  unfold mbind, SM_bind, lift. destruct (type_valid pm c); [|by intros [= <- <-]].
  unfold insert_credential, mbind, SM_bind, get, put, mret, SM_ret.
  destruct (existsb _ (cs_credentials w)) eqn:E; [by intros [= <- <-]|]. intros [= <- <-]. split_and!; try done.
  intros (o & Eo & Ho)%list_elem_of_fmap. rewrite existsb_elem_false in E. specialize (E o Ho).
  apply N.eqb_neq in E. congruence.
Qed.

(** C15. Creating a credential keeps the credentials of a one-per-host integration apart,
    whether the request succeeds or fails on the way. *)
Theorem create_keeps_exclusive (fresh : Uuid) (c : Credential) (w : CredStore) :
  store_wf w → fresh ≠ uuid_nil → exclusive w →
  let w' := (create_credential pm valid org nets fresh c w).1 in
  store_wf w' ∧ exclusive w'.
Proof.
  intros Hwf Hfresh Hex. destruct (create_credential pm valid org nets fresh c w) as [w2 r] eqn:E2. cbn. revert E2.
  unfold create_credential. rewrite bind_get. unfold mbind at 1, SM_bind at 1, lift at 1.
  destruct (enforce_supported_targets w c nets); [|by intros [= <- <-]].
  unfold mbind at 1, SM_bind at 1, lift at 1, enforce_single_endpoint.
  destruct (find_single_endpoint_conflict w c) eqn:Hc; [by intros [= <- <-]|].
  unfold mbind, SM_bind.
  destruct (create_handler pm valid org fresh c w) as [w1 [d|e]] eqn:E1; apply create_handler_run in E1;
    [|intros [= <- <-]; by subst w1].
  destruct E1 as (Eid & Hnew & Eo & Et & ->). intros E2.
  destruct (no_rows w (cr_id d) Hwf Hnew) as [En Eh].
  apply save_assignments_writes in E2 as (ns' & hs' & Hw & Hr). cbn [cs_credentials set_credentials_rows] in *.
  change (network_rows _ (cr_id d)) with (network_rows w (cr_id d)) in Hr.
  change (host_rows _ (cr_id d)) with (host_rows w (cr_id d)) in Hr. rewrite En, Eh in Hr.
  destruct Hw as [Ec Hn Hh Hn' Hh']. cbn in Ec.
  split; [split|].
  - rewrite Ec. apply NoDup_fmap_snoc; [apply Hwf|done].
  - rewrite Ec, fmap_app, not_elem_of_app. split; [apply Hwf|]. intros E%list_elem_of_singleton. cbn in E.
    rewrite Eid in E. destruct (N.eqb_spec (cr_id c) uuid_nil); congruence.
  - intros x [Hx|Hx]%Hn'; rewrite Ec, fmap_app, elem_of_app; [left; by apply (wf_networks w Hwf)|right; rewrite Hx; cbn; left].
  - intros x [Hx|Hx]%Hh'; rewrite Ec, fmap_app, elem_of_app; [left; by apply (wf_hosts w Hwf)|right; rewrite Hx; cbn; left].
  - assert (∃ ns hs, ns' = net_rows (cr_id d) ns ∧ hs' = hst_rows (cr_id d) hs
              ∧ list_to_set ns ⊆@{gset Uuid} list_to_set (assigned_network_ids c)
              ∧ ∀ x, x ∈ hs → x ∈ host_assignments c) as (ns & hs & -> & -> & Hns & Hhs).
    { destruct r as [|e]; [destruct Hr as [-> ->]; by exists (assigned_network_ids c), (host_assignments c)|].
      destruct Hr as [[->| ->] ->]; [exists [], []|exists (assigned_network_ids c), []]; (split_and!; [done|done| |]);
        [set_solver|by intros ? ?%elem_of_nil|done|by intros ? ?%elem_of_nil]. }
    apply (exclusive_join w w2 c (stored_row d) (cr_id d) ns hs); try done.
    + intros o Ho E. apply Hnew. rewrite <- E. by apply list_elem_of_fmap_2.
    + intros o Ho E. destruct (N.eqb_spec (cr_id c) uuid_nil) as [En0|].
      * apply (wf_nil w Hwf). rewrite <- En0, <- E. by apply list_elem_of_fmap_2.
      * apply Hnew. rewrite Eid, <- E. by apply list_elem_of_fmap_2.
    + intros o Ho. apply row_targets_ext; [rewrite Hn|rewrite Hh]; by rewrite (proj2 (N.eqb_neq _ _)) by done.
    + unfold row_targets. by rewrite Hn, Hh, N.eqb_refl, targets_of_rows.
Qed.

Lemma update_handler_run id c w w' d :
  update_handler valid org id c w = (w', Ok d) →
  cr_id d = id ∧ cr_organization_id d = cr_organization_id c
  ∧ cred_discriminant (credential_type d) = cred_discriminant (credential_type c)
  ∧ w' = set_credentials_rows ((λ o, if (cr_id o =? id)%N then stored_row d else o) <$> cs_credentials w) w.
Proof.
  unfold update_handler. rewrite bind_get. destruct (get_by_id w id) as [e|] eqn:He; [|done].
  apply find_some in He as [_ Hid%N.eqb_eq]. cbn zeta.
  destruct (valid _); cbn [negb]; [|done]. destruct (cr_organization_id e =? org)%N; cbn [negb]; [|done].
  destruct (cr_organization_id _ =? org)%N; cbn [negb]; [|done].
  unfold mbind, SM_bind, put, mret, SM_ret. intros [= <- <-]. cbn. rewrite Hid, merge_kind. done.
Qed.

(** A successful update of the credential the body names keeps them apart too. *)
Theorem update_keeps_exclusive (id : Uuid) (c d : Credential) (w w' : CredStore) :
  exclusive w → cr_id c = id →
  update_credential pm valid org nets id c w = (w', Ok d) →
  exclusive w'.
Proof.
  intros Hex Hid. unfold update_credential. rewrite bind_get. unfold mbind at 1, SM_bind at 1, lift at 1.
  destruct (type_valid pm c) as [[]|]; [|done]. unfold mbind at 1, SM_bind at 1, lift at 1.
  destruct (enforce_supported_targets w c nets) as [[]|]; [|done].
  unfold mbind at 1, SM_bind at 1, lift at 1, enforce_single_endpoint.
  destruct (find_single_endpoint_conflict w c) eqn:Hc; [done|]. unfold mbind, SM_bind.
  destruct (update_handler valid org id c w) as [w1 [u|e]] eqn:E1; [|done].
  apply update_handler_run in E1 as (Eid & Eo & Ek & ->). intros E2.
  apply save_assignments_writes in E2 as (ns' & hs' & [Ec Hn Hh _ _] & -> & ->). cbn in Ec. rewrite Eid in *.
  assert (∀ o, o ∈ cs_credentials w' → o = stored_row u ∨ o ∈ cs_credentials w ∧ cr_id o ≠ id) as Hin.
  { intros o. rewrite Ec. intros (x & -> & Hx)%list_elem_of_fmap. destruct (N.eqb_spec (cr_id x) id); auto. }
  assert (∀ o, cr_id o ≠ id → row_targets w' (cr_id o) = row_targets w (cr_id o)) as Hoth.
  { intros o Ho. apply row_targets_ext; [rewrite Hn|rewrite Hh]; by rewrite (proj2 (N.eqb_neq _ _)) by done. }
  assert (row_targets w' id = candidate_targets c) as Ht.
  { unfold row_targets. by rewrite Hn, Hh, N.eqb_refl, targets_of_rows. }
  assert (∀ o, o ∈ cs_credentials w → cr_id o ≠ id → cr_organization_id o = cr_organization_id c →
    single_endpoint_targets_conflict (credential_type u) (row_targets w' id)
      (credential_type o) (row_targets w' (cr_id o)) = false) as Hnew.
  { intros o Ho Ho' Horg. rewrite Hoth, Ht by done. rewrite (conflict_kind _ (credential_type c)) by done.
    apply (find_conflict_None w c Hc o Ho); congruence. }
  intros a b [->|[Ha Hai]]%Hin [->|[Hb Hbi]]%Hin Hne Horg; cbn [stored_row with_assignments cr_id credential_type
    cr_organization_id] in *.
  - done.
  - rewrite Eid. apply Hnew; [done|done|by rewrite <- Horg].
  - rewrite endpoint_conflict_sym, Eid. apply Hnew; [done|done|by rewrite Horg].
  - rewrite !Hoth by done. by apply Hex.
Qed.
End Writing.

(** ** What a scan is sent *)



Section Sent.
Context {V : Type} `{SemVer V} (w : CredStore) (network : Uuid).










(** *** The steps *)




























End Sent.

(** ** Samples *)

Definition snmp_cred (id org : Uuid) (community : string) (ns : list Uuid) : Credential := {|
  cr_id := id; cr_organization_id := org; cr_name := "snmp"; credential_type := SnmpV2c (SecretInline community);
  assigned_network_ids := ns; host_assignments := [] |}.
Definition docker_cred (id : Uuid) (t : CredentialType) (hs : list Uuid) : Credential := {|
  cr_id := id; cr_organization_id := 1; cr_name := "docker"; credential_type := t; assigned_network_ids := [];
  host_assignments := (λ h, {| ha_host_id := h; ha_ip_address_ids := None |}) <$> hs |}.
Definition sample_store (creds : list Credential) (ns : list NetworkCredential) (hs : list HostCredential) : CredStore := {|
  cs_credentials := creds; cs_networks := {[ 10%N := 1%N; 20%N := 2%N ]}; cs_hosts := {[ 100%N := 10%N ]};
  cs_host_order := [100%N]; cs_ips := []; cs_daemon_hosts := [(10%N, 100%N)];
  network_credentials := ns; host_credentials := hs |}.
Definition proxy_type : CredentialType := to_credential_type DDockerProxy.
Definition socket_type : CredentialType := DockerSocket None.
Definition no_pem (s : string) : result (list string) string := Ok [].

#[local] Existing Instance Release.release_semver.

(** A target on a discovery of network 10 names a credential of another organization, and its
    community is sent; a junction row to the same credential is held back. *)
Theorem foreign_target_dispatched :
  let c := snmp_cred 5 2 "theirs" [] in
  let row := {| nc_network_id := 10; nc_credential_id := 5 |} in
  build_all_credential_mappings (sample_store [c] [row] []) 10 [] (Some Release.server) = []
  ∧ build_all_credential_mappings (sample_store [c] [] []) 10 [TargetNetwork 5] (Some Release.server)
    = [{| default_credential := Some (to_query_payload (credential_type c)); ip_overrides := [] |}].
Proof. split; vm_compute; reflexivity. Qed.

(** An update whose body leaves out the id, which the schema marks as read-only, is refused:
    the credential conflicts with itself. *)
Theorem update_without_id_conflicts :
  let row := {| hc_host_id := 100; hc_credential_id := 5; hc_ip_address_ids := None |} in
  let w := sample_store [docker_cred 5 proxy_type []] [] [row] in
  (update_credential no_pem (λ _, true) 1 [10%N] 5 (docker_cred uuid_nil proxy_type [100%N]) w).2
    = Err (Conflicts "Docker" "docker")
  ∧ is_ok (update_credential no_pem (λ _, true) 1 [10%N] 5 (docker_cred 5 proxy_type [100%N]) w).2 = true.
Proof. split; vm_compute; reflexivity. Qed.

(** The type is written before the assignments: an update that fails on the way leaves the new
    type on the old hosts, where another credential already serves the integration. *)
Definition half_updated : CredStore :=
  sample_store [snmp_cred 5 1 "public" []; docker_cred 6 proxy_type []] []
    [{| hc_host_id := 100; hc_credential_id := 5; hc_ip_address_ids := None |};
     {| hc_host_id := 100; hc_credential_id := 6; hc_ip_address_ids := None |}].
Theorem failed_update_breaks_exclusive :
  let after := update_credential no_pem (λ _, true) 1 [10%N] 5 (docker_cred 5 proxy_type [999%N]) half_updated in
  exclusive half_updated ∧ after.2 = Err AccessDenied ∧ ¬ exclusive after.1.
Proof.
  split_and!; [| vm_compute; reflexivity|].
  - intros a b Ha Hb. cbn in Ha, Hb. rewrite !elem_of_cons, elem_of_nil in Ha, Hb.
    destruct Ha as [->|[->|[]]], Hb as [->|[->|[]]]; intros Hne _; try done; by vm_compute.
  - intros H. assert (single_endpoint_targets_conflict proxy_type (for_host 100) proxy_type (for_host 100) = false) as E;
      [|by vm_compute in E].
    rewrite <- (H (docker_cred 5 proxy_type []) (docker_cred 6 proxy_type [])); [by vm_compute| | |done|done]; 
      vm_compute; [left|right; left].
Qed.

(** A store with one Docker credential on the host, which a second may not join. *)
Definition one_docker : CredStore :=
  sample_store [docker_cred 5 proxy_type []; snmp_cred 7 1 "public" []] []
    [{| hc_host_id := 100; hc_credential_id := 5; hc_ip_address_ids := None |}].

Lemma one_docker_wf : store_wf one_docker ∧ exclusive one_docker.
Proof.
  split; [split|].
  - apply (bool_decide_unpack _). by vm_compute.
  - apply (bool_decide_unpack _). by vm_compute.
  - intros r Hr. by apply elem_of_nil in Hr.
  - intros r ->%list_elem_of_singleton. by left.
  - intros a b Ha Hb. cbn in Ha, Hb. rewrite !elem_of_cons, elem_of_nil in Ha, Hb.
    destruct Ha as [->|[->|[]]], Hb as [->|[->|[]]]; intros Hne _; try done; by vm_compute.
Qed.

Lemma create_keeps_exclusive_witness :
  (create_credential no_pem (λ _, true) 1 [10%N] 8 (docker_cred uuid_nil socket_type [100%N]) one_docker).2
    = Err (Conflicts "Docker" "docker")
  ∧ is_ok (create_credential no_pem (λ _, true) 1 [10%N] 8 (snmp_cred uuid_nil 1 "public" [10%N]) one_docker).2 = true
  ∧ exclusive (create_credential no_pem (λ _, true) 1 [10%N] 8 (snmp_cred uuid_nil 1 "public" [10%N]) one_docker).1.
Proof.
  split; [vm_compute; reflexivity|]. split; [vm_compute; reflexivity|].
  apply (create_keeps_exclusive no_pem (λ _, true) 1 [10%N] 8); [apply one_docker_wf|done|apply one_docker_wf].
Defined.

Lemma update_keeps_exclusive_witness :
  exclusive (update_credential no_pem (λ _, true) 1 [10%N] 5 (docker_cred 5 socket_type [100%N]) one_docker).1.
Proof.
  eapply (update_keeps_exclusive no_pem (λ _, true) 1 [10%N] 5 (docker_cred 5 socket_type [100%N]));
    [apply one_docker_wf|reflexivity|vm_compute; reflexivity].
Defined.


