(* ===== verification/DispatchThms.v ===== *)
(** What trying credentials promises: no assigned credential goes quiet, the credential
    assigned to a host is preferred to a broadcast one, and a collection that does not
    finish leaves the host as it was. *)

From S2P Require Import Prelude Net Ports Entities Patterns Discovery Hosts Credentials Topology EdgeBuilder EdgeThms CredentialStore Warnings Dispatch.
Local Open Scope string_scope.
Local Open Scope list_scope.

Section Probing.
Context {H : Type}.
Context (probe : PayloadKind → CredentialQueryPayload → option Uuid
                 → result (ProbeSuccess H) (AttemptOutcome * string)).
Context (ip : IpAddr) (open_ports : list PortType) (skip_gate : bool) (view : CancelView).

(** ** One task *)

Definition works (k : PayloadKind) (c : CredentialQueryPayload * option Uuid) (s : ProbeSuccess H) : Prop :=
  probe k c.1 c.2 = Ok s.
Definition attempt_issues (k : PayloadKind) (c : CredentialQueryPayload * option Uuid) : list CredentialIssue :=
  match attempt_credential probe ip k c with Ok _ => [] | Err i => option_list i end.

Lemma attempt_ok k c s : attempt_credential probe ip k c = Ok s ↔ works k c s.
Proof. unfold attempt_credential, works. destruct (probe _ _ _) as [|[]]; naive_solver. Qed.

(** A task ends with the first credential that works, or with the failures of all. *)
Lemma try_credentials_cases i j k cs fs :
  (∀ i j, cancel_during view i j = false) →
  (∃ pre c post s, cs = pre ++ c :: post ∧ works k c s ∧ (∀ d s', d ∈ pre → ¬ works k d s')
     ∧ try_credentials probe ip view i j k cs fs = (Some (k, c.2, c.1, s), [], Probed))
  ∨ (∀ d s', d ∈ cs → ¬ works k d s')
    ∧ ∃ r, try_credentials probe ip view i j k cs fs
           = (None, (fs ++ (cs ≫= attempt_issues k))%list, Suppressed r).
Proof.
  intros Hc. revert j fs. induction cs as [|c cs IH]; intros j fs; cbn.
  - right. split; [set_solver|]. rewrite app_nil_r. by destruct fs; eexists.
  - rewrite Hc. unfold attempt_issues at 1. destruct (attempt_credential probe ip k c) as [s|issue] eqn:E.
    + left. exists [], c, cs, s. rewrite attempt_ok in E. split_and!; try done. set_solver.
    + assert (∀ s', ¬ works k c s') as Hn by (intros s' E'%attempt_ok; congruence).
      destruct (IH (S j) (fs ++ option_list issue)%list) as [(pre & d & post & s & -> & ? & ? & ->)|[Hall (r & ->)]].
      * left. exists (c :: pre), d, post, s. split_and!; try done. intros ? ?. rewrite elem_of_cons. naive_solver.
      * right. split; [intros ? ?; rewrite elem_of_cons; naive_solver|]. exists r. by rewrite <- app_assoc.
Qed.

(** ** The plan of a mapping *)

Lemma resolve_pinned m o :
  o ∈ ip_overrides m → ov_ip o = ip → ov_credential_id o ≠ uuid_nil →
  (ov_credential o, Some (ov_credential_id o)) ∈ resolve_credentials_for_ip m ip.
Proof.
  intros Ho E Hn. apply elem_of_app. left. apply list_elem_of_fmap. exists o.
  unfold some_id. rewrite (proj2 (N.eqb_neq _ _)) by done. split; [done|].
  apply elem_of_list_filter_bool. split; [by apply bool_decide_eq_true|done].
Qed.

Lemma resolve_payloads m c :
  c ∈ resolve_credentials_for_ip m ip → c.1 ∈ (ov_credential <$> ip_overrides m) ++ option_list (default_credential m).
Proof.
  unfold resolve_credentials_for_ip. rewrite !elem_of_app. intros [(o & -> & [_ Ho]%elem_of_list_filter_bool)%list_elem_of_fmap|Hd].
  - left. by apply (list_elem_of_fmap_2 ov_credential).
  - right. destruct (default_credential m); [|by apply elem_of_nil in Hd]. apply list_elem_of_singleton in Hd as ->. left.
Qed.

Definition mapping_payloads (m : Mapping) : list CredentialQueryPayload :=
  (ov_credential <$> ip_overrides m) ++ option_list (default_credential m).

Lemma mapping_payload_in m p : mapping_payload m = Some p → p ∈ mapping_payloads m.
Proof.
  unfold mapping_payload, mapping_payloads. rewrite elem_of_app.
  destruct (default_credential m); [intros [= ->]; right; left|].
  destruct (ip_overrides m); [done|]. intros [= <-]. left. left.
Qed.

Abbreviation planned := (plan ip open_ports skip_gate).
Abbreviation run := (run_plan probe ip view).

(** Every plan says what becomes of its mapping, or has a task that will. *)
Lemma plan_settled m p :
  planned m = Some p → disposition (pl_entry p) ≠ Unresolved ∨ is_Some (pl_task p).
Proof.
  unfold plan. destruct (mapping_payload m) as [q|]; [|done]. unfold mbind, option_bind. cbv beta zeta.
  destruct (registered _); cbn [negb]; [|intros [= <-]; by left].
  destruct (resolve_credentials_for_ip m ip) as [|c cs]; [intros [= <-]; by left|].
  destruct (_ && _ && _); [|intros [= <-]; right; by eexists].
  destruct (List.find _ _); intros [= <-]; by left.
Qed.

Lemma plan_is_Some m : is_Some (planned m) ↔ is_Some (mapping_payload m).
Proof.
  unfold plan. destruct (mapping_payload m) as [q|]; unfold mbind, option_bind; cbv beta zeta; [|done]. split; [by eexists|intros _].
  destruct (negb (registered _)); [by eexists|]. destruct (resolve_credentials_for_ip m ip); [by eexists|].
  destruct (_ && _ && _); [destruct (List.find _ _)|]; by eexists.
Qed.

Lemma try_settled i j k cs fs : (try_credentials probe ip view i j k cs fs).2 ≠ Unresolved.
Proof.
  revert j fs. induction cs as [|c cs IH]; intros j fs; cbn; [by destruct fs|].
  destruct (cancel_during _ _ _); [done|]. destruct (attempt_credential _ _ _ _); [done|apply IH].
Qed.

Lemma run_settled i m p : planned m = Some p → disposition (run i p).2 ≠ Unresolved.
Proof.
  intros Hp. unfold run_plan. destruct (pl_task p) as [cs|] eqn:Hcs.
  - pose proof (try_settled i 0 (de_discriminant (pl_entry p)) cs []) as Ht.
    by destruct (try_credentials _ _ _ _ _ _ _ _) as [[w fl] d].
  - destruct (plan_settled m p Hp) as [Hd|[? ?]]; [done|congruence].
Qed.

Lemma elem_of_outcomes ms m p :
  m ∈ ms → planned m = Some p → ∃ i, run i p ∈ outcomes probe ip open_ports skip_gate view ms.
Proof.
  intros Hm Hp. assert (p ∈ plans ip open_ports skip_gate ms) as [i Hi]%list_elem_of_lookup
    by (apply list_elem_of_omap; eauto).
  exists i. apply elem_of_lookup_imap. eauto.
Qed.

Lemma outcomes_from ms o :
  o ∈ outcomes probe ip open_ports skip_gate view ms → ∃ i m p, m ∈ ms ∧ planned m = Some p ∧ o = run i p.
Proof.
  intros (i & p & -> & Hp%list_elem_of_lookup_2)%elem_of_lookup_imap.
  apply list_elem_of_omap in Hp as (m & ? & ?). eauto 10.
Qed.

(** The failure of an assigned credential is reported. *)
Lemma pinned_issue k p id :
  (∀ k c id e, probe k c id ≠ Err (Cancelled, e)) → (∀ s, ¬ works k (p, Some id) s) →
  ∃ issue, issue ∈ attempt_issues k (p, Some id) ∧ ci_ip issue = ip ∧ ci_label issue = discovery_label p.
Proof.
  intros Hcan Hn. unfold attempt_issues, attempt_credential. cbn.
  destruct (probe k p (Some id)) as [s|[oc e]] eqn:E; [by destruct (Hn s)|].
  unfold issue_for_attempt. cbn. rewrite bool_decide_eq_false_2 by (intros ->; by apply (Hcan k p (Some id) e)).
  eexists. cbn. split; [left|done].
Qed.

(** A mapping with a credential for the address ends with a credential of its own that works, or
    with an issue that names one of its credentials. *)
Lemma plan_accounted i m p o :
  (∀ i j, cancel_during view i j = false) →
  (∀ k c id e, probe k c id ≠ Err (Cancelled, e)) →
  planned m = Some p → o ∈ ip_overrides m → ov_ip o = ip → ov_credential_id o ≠ uuid_nil →
  (∃ k c s, (run i p).1.1 = Some (k, c.2, c.1, s) ∧ c ∈ resolve_credentials_for_ip m ip ∧ works k c s)
  ∨ ∃ issue, issue ∈ pl_issues p ++ (run i p).1.2 ++ option_list (entry_issue ip (run i p).2)
      ∧ ci_ip issue = ip ∧ ci_label issue ∈ discovery_label <$> mapping_payloads m.
Proof.
  intros Hc Hcan Hp Ho Hip Hid. pose proof (resolve_pinned m o Ho Hip Hid) as Hin. revert Hp. unfold plan.
  destruct (mapping_payload m) as [q|] eqn:Hq; [|done]. unfold mbind, option_bind. cbv beta zeta.
  assert (pinned_here ip m = true) as Hpin.
  { apply existsb_elem. exists o. split; [done|]. apply andb_true_iff. split; [by apply bool_decide_eq_true|].
    by apply negb_true_iff, N.eqb_neq. }
  destruct (registered _); cbn [negb].
  2: { intros [= <-]. right. eexists. cbn. unfold entry_issue. cbn. rewrite Hpin. split; [left|].
       split; [done|]. by apply (list_elem_of_fmap_2 discovery_label), mapping_payload_in. }
  destruct (resolve_credentials_for_ip m ip) as [|c0 cs] eqn:Hr; [by apply elem_of_nil in Hin|].
  rewrite <- Hr in *. destruct (_ && _ && _).
  - destruct (List.find _ _) as [c|] eqn:Hf.
    + intros [= <-]. right. eexists. split; [left|]. split; [done|]. cbn. apply (list_elem_of_fmap_2 discovery_label).
      apply find_some in Hf as [Hf _]. apply (resolve_payloads). by apply list_elem_of_In.
    + exfalso. apply list_elem_of_In, (find_none _ _ Hf), bool_decide_eq_false in Hin. by apply Hin; eexists.
  - intros [= <-]. unfold run_plan. cbn [pl_task pl_entry de_discriminant pl_issues].
    destruct (try_credentials_cases i 0 (payload_kind q) (resolve_credentials_for_ip m ip) [] Hc)
      as [(pre & c & post & s & E & Hw & _ & ->)|[Hall (r & ->)]].
    + left. exists (payload_kind q), c, s. split_and!; [done| |done]. rewrite E. apply elem_of_app. right. left.
    + right. destruct (pinned_issue (payload_kind q) (ov_credential o) (ov_credential_id o)) as (issue & Hi & Ei & El);
        [done|by intros s; apply (Hall (_, _))|].
      exists issue. cbn. split; [|split; [done|]].
      * apply elem_of_app. left. apply list_elem_of_bind. eauto.
      * rewrite El. apply (list_elem_of_fmap_2 discovery_label). apply resolve_payloads in Hin. done.
Qed.

(** ** All of them *)

(** C16. Every mapping that holds a credential is accounted for in the ledger, and a credential
    assigned to the address either leads to a credential of its mapping that works or to an
    issue at the address that names it: none goes quiet. *)
Theorem every_mapping_accounted (ms : list Mapping) :
  (∀ i j, cancel_during view i j = false) →
  (∀ k c id e, probe k c id ≠ Err (Cancelled, e)) →
  Forall (λ e, disposition e ≠ Unresolved) (final_ledger probe ip open_ports skip_gate view ms)
  ∧ length (final_ledger probe ip open_ports skip_gate view ms)
    = length (List.filter (λ m, bool_decide (is_Some (mapping_payload m))) ms)
  ∧ ∀ m o, m ∈ ms → o ∈ ip_overrides m → ov_ip o = ip → ov_credential_id o ≠ uuid_nil →
      (∃ k c s, (k, c.2, c.1, s) ∈ winners probe ip open_ports skip_gate view ms
         ∧ c ∈ resolve_credentials_for_ip m ip ∧ works k c s)
      ∨ ∃ issue, issue ∈ reported_issues probe ip open_ports skip_gate view ms
          ∧ ci_ip issue = ip ∧ ci_label issue ∈ discovery_label <$> mapping_payloads m.
Proof.
  intros Hc Hcan. split_and!.
  - unfold final_ledger. apply Forall_fmap, list.Forall_forall. intros o (i & m & p & _ & Hp & ->)%outcomes_from. cbn.
    by eapply run_settled.
  - unfold final_ledger, outcomes, plans. rewrite length_fmap, length_imap.
    induction ms as [|m ms IH]; [done|]. destruct (plan_is_Some m) as [H1 H2].
    cbn [List.filter omap list_omap]. case_bool_decide as Hm; destruct (planned m) as [p|]; cbn.
    + by rewrite <- IH.
    + by destruct (H2 Hm).
    + by destruct Hm; apply H1.
    + done.
  - intros m o Hm Ho Hip Hid. assert (is_Some (planned m)) as [p Hp].
    { apply plan_is_Some. unfold mapping_payload. destruct (default_credential m); [by eexists|].
      destruct (ip_overrides m); [by apply elem_of_nil in Ho|by eexists]. }
    destruct (elem_of_outcomes ms m p Hm Hp) as [i Hi].
    destruct (plan_accounted i m p o Hc Hcan Hp Ho Hip Hid) as [(k & c & s & E & ? & ?)|(issue & Hin & ? & ?)].
    + left. exists k, c, s. split_and!; try done. apply list_elem_of_omap. eauto.
    + right. exists issue. split; [|done]. unfold reported_issues. rewrite !elem_of_app in *.
      destruct Hin as [Hin|[Hin|Hin]].
      * left. apply list_elem_of_bind. exists p. split; [done|]. apply list_elem_of_omap. eauto.
      * right. left. apply list_elem_of_bind. eauto.
      * right. right. apply list_elem_of_omap. exists (run i p).2.
        split; [by apply list_elem_of_fmap_2|]. by destruct (entry_issue _ _); [apply list_elem_of_singleton in Hin as ->|apply elem_of_nil in Hin].
Qed.

(** ** Which credential is recorded *)

Definition wkind (x : @Winner H) : PayloadKind := x.1.1.1.
Definition wcred (x : @Winner H) : option Uuid * CredentialQueryPayload := (x.1.1.2, x.1.2).

Lemma merge_working acc x :
  working_credential_ids (merge_winner acc x).2 = <[wkind x := wcred x]> (working_credential_ids acc.2).
Proof.
  unfold merge_winner. destruct x as [[[k id] c] s]. by destruct (foldl add_port _ _).
Qed.

(** The last credential that worked for a kind is the one recorded. *)
Lemma working_last acc ws k :
  (∃ x, x ∈ ws ∧ wkind x = k) →
  ∃ x, x ∈ ws ∧ wkind x = k ∧ working_credential_ids (foldl merge_winner acc ws).2 !! k = Some (wcred x).
Proof.
  induction ws as [|x ws IH] using rev_ind; [intros (? & E & _); by apply elem_of_nil in E|].
  intros (y & Hy & Ey). rewrite foldl_app. cbn [foldl]. rewrite merge_working.
  destruct (decide (wkind x = k)) as [<-|Hne].
  - exists x. rewrite lookup_insert_eq. split_and!; try done. apply elem_of_app. right. left.
  - rewrite lookup_insert_ne by done. destruct IH as (z & ? & ? & ?).
    + exists y. split; [|done]. apply elem_of_app in Hy as [?|E%list_elem_of_singleton]; [done|subst y; by destruct Hne].
    + exists z. split_and!; try done. apply elem_of_app. by left.
Qed.

(** A winner is a credential its mapping has for the address, of the mapping's kind. *)
Lemma try_winner i j k cs fs x :
  (try_credentials probe ip view i j k cs fs).1.1 = Some x → (x.1.2, x.1.1.2) ∈ cs ∧ wkind x = k.
Proof.
  revert j fs. induction cs as [|c cs IH]; intros j fs; cbn; [done|]. destruct (cancel_during _ _ _); [done|].
  destruct (attempt_credential _ _ _ _); [|intros [? ?]%IH; split; [by right|done]]. intros [= <-]. cbn. destruct c. split; [left|done].
Qed.

Lemma plan_task m p cs : planned m = Some p → pl_task p = Some cs →
  cs = resolve_credentials_for_ip m ip ∧ mapping_discriminant m = Some (de_discriminant (pl_entry p)).
Proof.
  unfold plan, mapping_discriminant. destruct (mapping_payload m) as [q|]; [|done]. unfold mbind, option_bind. cbv beta zeta.
  destruct (negb (registered _)); [by intros [= <-]|].
  destruct (resolve_credentials_for_ip m ip) as [|c l]; [by intros [= <-]|].
  destruct (_ && _ && _); [|by intros [= <-] [= <-]]. destruct (List.find _ _); by intros [= <-].
Qed.

Lemma winner_resolved (f : nat → nat) ms x :
  x ∈ omap (λ o : option Winner * list CredentialIssue * DispositionEntry, o.1.1)
        (imap (λ i, run (f i)) (plans ip open_ports skip_gate ms)) →
  ∃ m, m ∈ ms ∧ (x.1.2, x.1.1.2) ∈ resolve_credentials_for_ip m ip ∧ mapping_discriminant m = Some (wkind x).
Proof.
  intros (o & Ho & E)%list_elem_of_omap. apply elem_of_lookup_imap in Ho as (i & p & -> & Hp%list_elem_of_lookup_2).
  apply list_elem_of_omap in Hp as (m & Hm & Hp). exists m. split; [done|]. revert E. unfold run_plan.
  destruct (pl_task p) as [cs|] eqn:Et; [|done].
  pose proof (try_winner (f i) 0 (de_discriminant (pl_entry p)) cs [] x) as Ht.
  destruct (try_credentials _ _ _ _ _ _ _ _) as [[w fl] d]. cbn in *. intros E.
  destruct (plan_task m p cs Hp Et) as [<- ->]. destruct (Ht E) as [? <-]. done.
Qed.

Lemma winners_app ms ms' :
  ∃ ws', winners probe ip open_ports skip_gate view (ms ++ ms')
         = winners probe ip open_ports skip_gate view ms ++ ws'
    ∧ ∀ x, x ∈ ws' → ∃ m, m ∈ ms' ∧ (x.1.2, x.1.1.2) ∈ resolve_credentials_for_ip m ip
                          ∧ mapping_discriminant m = Some (wkind x).
Proof.
  unfold winners, outcomes, plans. rewrite omap_app, imap_app, omap_app. eexists. split; [done|].
  intros x Hx. by apply winner_resolved in Hx.
Qed.

(** Winners of other kinds change nothing. *)
Lemma working_other acc ws k : (∀ x, x ∈ ws → wkind x ≠ k) →
  working_credential_ids (foldl merge_winner acc ws).2 !! k = working_credential_ids acc.2 !! k.
Proof.
  revert acc. induction ws as [|x ws IH]; intros acc Hws; [done|]. cbn [foldl]. rewrite IH.
  - rewrite merge_working, lookup_insert_ne by (apply Hws; left). done.
  - intros y Hy. apply Hws. by right.
Qed.

(** What an override that works for the address makes of the record. *)
Definition recorded_assigned (ms : list Mapping) (k : PayloadKind) (r : IntegrationProbeResults H) : Prop :=
  ∃ m o, m ∈ ms ∧ o ∈ ip_overrides m ∧ ov_ip o = ip
    ∧ working_credential_ids r !! k = Some (Some (ov_credential_id o), ov_credential o).

(** C17. For every integration but SNMP: on the list the daemon tries, the server's ordered
    mappings followed by the SNMP community "public", and where no credential is both
    broadcast and assigned to addresses, a credential assigned to the address that works is
    recorded ahead of any broadcast one.  (For SNMP it is not: [public_beats_assigned].) *)
Theorem specific_beats_broadcast (M : gmap Uuid TypedCredentialMapping) (k : PayloadKind) (r : IntegrationProbeResults H) :
  let sent := order_mappings_for_dispatch M in
  k ≠ IntSnmp →
  (∀ m, m ∈ sent → default_credential m = None ∨ ip_overrides m = []) →
  (∀ m o, m ∈ sent → o ∈ ip_overrides m → ov_credential_id o ≠ uuid_nil) →
  probe_integrations probe ip open_ports skip_gate view (daemon_mappings sent) = Ok r →
  (∃ id c s, (k, Some id, c, s) ∈ winners probe ip open_ports skip_gate view (daemon_mappings sent)) →
  recorded_assigned sent k r.
Proof.
  cbv zeta. unfold recorded_assigned, daemon_mappings, order_mappings_for_dispatch.
  set (l := tm_mapping <$> _). set (B := List.filter (λ m, negb (has_overrides m)) l). set (O := List.filter has_overrides l).
  intros Hk Hpure Hnil Hr (id & c & s & Hx). unfold probe_integrations in Hr.
  destruct (cancel_before view || cancel_after view); [done|]. injection Hr as <-. cbn [working_credential_ids].
  match goal with |- context [winners _ _ _ _ _ ((B ++ O) ++ ?P)] => destruct (winners_app (B ++ O) P) as (wp & Ep & Hp) end.
  destruct (winners_app B O) as (ws' & E & Hws'). rewrite Ep, E in Hx. rewrite Ep, E, !foldl_app. clear E Ep.
  assert (∀ x, x ∈ wp → wkind x ≠ k) as Hpub.
  { intros x (m & ->%list_elem_of_singleton & _ & Em)%Hp. cbn in Em. congruence. }
  rewrite working_other by done.
  assert (∀ x, x ∈ ws' → ∃ m o, m ∈ B ++ O ∧ o ∈ ip_overrides m ∧ ov_ip o = ip ∧ wcred x = (Some (ov_credential_id o), ov_credential o)) as Hspec.
  { intros x (m & Hm & Hc & _)%Hws'. assert (m ∈ B ++ O) as Hm' by (apply elem_of_app; by right).
    apply elem_of_list_filter_bool in Hm as [Hh _]. unfold resolve_credentials_for_ip in Hc.
    destruct (Hpure m Hm') as [Hd|Ho]; [|unfold has_overrides in Hh; by rewrite Ho in Hh].
    rewrite Hd, app_nil_r in Hc. apply list_elem_of_fmap in Hc as (o & Eo & [Hip%bool_decide_eq_true Ho]%elem_of_list_filter_bool).
    exists m, o. split_and!; try done. unfold wcred. injection Eo as -> ->. unfold some_id.
    by rewrite (proj2 (N.eqb_neq _ _)) by (by apply (Hnil m)). }
  apply elem_of_app in Hx as [[Hx|Hx]%elem_of_app|Hx]; [| |by destruct (Hpub _ Hx)].
  - exfalso. pose proof (winner_resolved (λ i, i) B _ Hx) as (m & Hm & Hc & _).
    apply elem_of_list_filter_bool in Hm as [Hh _]. unfold resolve_credentials_for_ip in Hc.
    unfold has_overrides in Hh. destruct (ip_overrides m); [|done]. cbn in Hc.
    destruct (default_credential m); [apply list_elem_of_singleton in Hc; done|by apply elem_of_nil in Hc].
  - edestruct (working_last) as (y & Hy & Ey & ->); [by exists (k, Some id, c, s)|].
    destruct (Hspec y Hy) as (m & o & ? & ? & ? & ->). by exists m, o.
Qed.

End Probing.

(** ** Collecting *)

Definition key_of (working : WorkingIds) (m : Mapping) (key : PayloadKind * option Uuid) : Prop :=
  ∃ w, mapping_discriminant m = Some key.1 ∧ working !! key.1 = Some w ∧ key.2 = w.1.

Lemma key_of_iff (working : WorkingIds) m key :
  (mapping_discriminant m ≫= λ k, working !! k ≫= λ w, Some (k, w.1)) = Some key ↔ key_of working m key.
Proof.
  unfold key_of. destruct key as [k i]. destruct (mapping_discriminant m) as [k'|]; cbn; [|naive_solver].
  destruct (working !! k') as [w|] eqn:E; cbn; split; [intros [= <- <-]; eauto|naive_solver..].
Qed.

Lemma execution_keys_exact seen (working : WorkingIds) ms :
  NoDup (execution_keys_from seen working ms)
  ∧ ∀ key, key ∈ execution_keys_from seen working ms ↔ key ∉ seen ∧ ∃ m, m ∈ ms ∧ key_of working m key.
Proof.
  revert seen. induction ms as [|m ms IH]; intros seen; cbn; [split; [constructor|set_solver]|].
  assert (∀ key, (∃ m', m' ∈ m :: ms ∧ key_of working m' key) ↔
    key_of working m key ∨ ∃ m', m' ∈ ms ∧ key_of working m' key) as Hcons.
  { intros key. setoid_rewrite elem_of_cons. clear. naive_solver. }
  pose proof (key_of_iff working m) as Hk. destruct (mapping_discriminant m ≫= _) as [key|].
  - assert (∀ key', key_of working m key' ↔ key' = key) as Hm by (intros key'; rewrite <- Hk; clear; naive_solver).
    case_bool_decide as Hin; [destruct (IH seen) as [Hnd Hmem]|destruct (IH (key :: seen)) as [Hnd Hmem]].
    + split; [done|]. intros key'. rewrite Hmem, Hcons, Hm. clear -Hin. naive_solver.
    + split; [constructor; [|done]; rewrite Hmem; set_solver|].
      intros key'. rewrite elem_of_cons, Hmem, not_elem_of_cons, Hcons, Hm. clear -Hin.
      destruct (decide (key' = key)); naive_solver.
  - destruct (IH seen) as [Hnd Hmem]. split; [done|]. intros key'. rewrite Hmem, Hcons, <- Hk. clear. naive_solver.
Qed.

(** Each integration that answered is run once, with the credential that worked. *)
Theorem execution_keys_once (ms : list Mapping) (working : WorkingIds) :
  NoDup (dedup_execution_keys ms working).*1
  ∧ ∀ k id, (k, id) ∈ dedup_execution_keys ms working ↔
      (∃ m, m ∈ ms ∧ mapping_discriminant m = Some k) ∧ ∃ c, working !! k = Some (id, c).
Proof.
  destruct (execution_keys_exact [] working ms) as [Hnd Hmem]. unfold dedup_execution_keys. split.
  - apply NoDup_fmap_2_strong; [|done].
    intros [k i] [k' i'] (_ & m & _ & w & _ & E1 & E2)%Hmem (_ & m' & _ & w' & _ & E1' & E2')%Hmem E. cbn in *. congruence.
  - intros k id. rewrite Hmem. unfold key_of. cbn. split.
    + intros (_ & m & ? & [i c] & ? & ? & ?). cbn in *. subst. eauto.
    + intros [(m & ? & ?) (c & ?)]. split; [set_solver|]. exists m. split; [done|]. by eexists.
Qed.

Section Collecting.
Context `{MapOrder} {HD : Type} (service_ids : HD → list string) (add_assignments : list CredentialAssignment → HD → HD).
Context (execute : PayloadKind → CredentialQueryPayload → option Uuid → HD → ExecuteOutcome * HD * option HD).
Context (ip : IpAddr) (working : WorkingIds).

Definition service_of (k : PayloadKind) : string :=
  def_name (associated_service (to_credential_type (kind_credential_type k))).

(** Each integration in turn collects all of what it reads, from the host the one before left. *)
Inductive collected : list (PayloadKind * option Uuid) → HD → HD → Prop :=
| collected_nil h : collected [] h h
| collected_skip key ks h h' : registered key.1 = false → collected ks h h' → collected (key :: ks) h h'
| collected_run key ks id c h h1 kept h' :
    registered key.1 = true → working !! key.1 = Some (id, c) → service_of key.1 ∈ service_ids h →
    execute key.1 c id h = (Finished Complete, h1, kept) →
    collected ks h1 h' → collected (key :: ks) h h'.

Abbreviation step := (execute_key service_ids execute ip working).

Lemma step_cases key h issues :
  (∀ k c id h m, (execute k c id h).1.1 ≠ ExecFailed Cancelled m) →
  is_Some (working !! key.1) →
  (registered key.1 = false ∧ step (h, issues) key = (h, issues))
  ∨ (∃ id c h1 kept, registered key.1 = true ∧ working !! key.1 = Some (id, c) ∧ service_of key.1 ∈ service_ids h
       ∧ execute key.1 c id h = (Finished Complete, h1, kept) ∧ step (h, issues) key = (h1, issues))
  ∨ (∃ h1 i, registered key.1 = true ∧ step (h, issues) key = (h1, issues ++ [i])
       ∧ ¬ ∃ id c h1 kept, working !! key.1 = Some (id, c) ∧ service_of key.1 ∈ service_ids h
             ∧ execute key.1 c id h = (Finished Complete, h1, kept)).
Proof.
  intros Hcan [[id c] Hw]. unfold execute_key. cbn [fst snd]. destruct (registered key.1) eqn:Hr; cbn [negb]; [right|by left].
  rewrite Hw. fold (service_of key.1). case_bool_decide as Hs; cbn [negb];
    [|right; eexists _, _; split; [done|]; split; [done|naive_solver]].
  unfold execute_with_progress_reporting. specialize (Hcan key.1 c id h).
  destruct (execute key.1 c id h) as [[[[|sf]|oc m|d] scratch] kept] eqn:E; cbn in *.
  - left. exists id, c, scratch, kept. by rewrite app_nil_r.
  - right. eexists _, _. split; [done|]. split; [done|]. intros (? & ? & ? & ? & ? & ? & ?). congruence.
  - right. unfold issue_for_attempt. rewrite bool_decide_eq_false_2 by (by intros ->; apply (Hcan m)).
    eexists _, _. split; [done|]. split; [done|]. intros (? & ? & ? & ? & ? & ? & ?). congruence.
  - right. eexists _, _. split; [done|]. split; [done|]. intros (? & ? & ? & ? & ? & ? & ?). congruence.
Qed.

Lemma steps_silent ks h h' issues :
  (∀ k c id h m, (execute k c id h).1.1 ≠ ExecFailed Cancelled m) →
  Forall (λ key, is_Some (working !! key.1)) ks →
  foldl step (h, issues) ks = (h', issues) ↔ collected ks h h'.
Proof.
  intros Hcan Hks. revert h. induction Hks as [|key ks Hw Hks IH]; intros h; cbn [foldl].
  { split; [intros [= <-]; constructor|by inversion 1]. }
  assert (∀ h iss, ∃ h' l, foldl step (h, iss) ks = (h', iss ++ l)) as Hgrow.
  { clear -Hcan Hks. induction Hks as [|key ks Hw Hks IH]; intros h iss; cbn [foldl]; [exists h, []; by rewrite app_nil_r|].
    destruct (step_cases key h iss Hcan Hw) as [[_ ->]|[(? & ? & h1 & ? & _ & _ & _ & _ & ->)|(h1 & i & _ & -> & _)]]; [apply IH..|].
    destruct (IH h1 (iss ++ [i])) as (h' & l & ->). exists h', (i :: l). by rewrite <- app_assoc. }
  destruct (step_cases key h issues Hcan Hw) as [[Hr ->]|[(id & c & h1 & kept & Hr & Hw' & Hs & He & ->)|(h1 & i & Hr & -> & Hno)]].
  - rewrite IH. split; [by constructor|]. inversion 1; [done|congruence].
  - rewrite IH. split; [by eapply collected_run|]. inversion 1; [congruence|]. simplify_eq. by rewrite He in *; simplify_eq.
  - destruct (Hgrow h1 (issues ++ [i])) as (h2 & l & ->). split.
    + intros E%(f_equal (length ∘ snd)). cbn in E. rewrite !length_app in E. cbn in E. lia.
    + inversion 1; [congruence|]. destruct Hno. eauto 10.
Qed.

(** A run of the integrations reports nothing exactly when each of them answered that it was
    complete, one after the other; the working credentials are then assigned to the host. *)
Theorem silence_means_collected (ms : list Mapping) (ip_address_id : option Uuid) (h h' : HD) :
  (∀ k c id h m, (execute k c id h).1.1 ≠ ExecFailed Cancelled m) →
  execute_integrations service_ids add_assignments execute ip ms working ip_address_id h = (h', []) ↔
  ∃ h1, collected (dedup_execution_keys ms working) h h1
    ∧ h' = add_assignments (credential_assignments_from_probes working ip_address_id) h1.
Proof.
  intros Hcan. unfold execute_integrations. destruct (foldl _ _ _) as [h1 issues] eqn:E.
  assert (Forall (λ key, is_Some (working !! key.1)) (dedup_execution_keys ms working)) as Hks.
  { apply list.Forall_forall. intros key (_ & m & _ & w & _ & ? & _)%(execution_keys_exact [] working ms). by eexists. }
  pose proof (λ h', steps_silent _ h h' [] Hcan Hks) as Hss. rewrite E in Hss. split.
  - intros [= <- ->]. exists h1. split; [by apply Hss|done].
  - intros (h2 & [= -> ->]%Hss & ->). done.
Qed.

(** A collection that fails or runs out of time, with nothing committed, leaves the host as
    it was, however far its own copy had got; what it committed is all that stays. *)
Theorem unfinished_keeps_host (key : PayloadKind * option Uuid) (h : HD) (issues : list CredentialIssue) :
  (∀ c id, working !! key.1 = Some (id, c) → ∀ cm, (execute key.1 c id h).1.1 ≠ Finished cm) →
  let h' := (step (h, issues) key).1 in
  h' = h ∨ ∃ c id, working !! key.1 = Some (id, c) ∧ (execute key.1 c id h).2 = Some h'.
Proof.
  intros Hno. unfold execute_key. cbn [fst snd]. destruct (negb (registered key.1)); [by left|].
  destruct (working !! key.1) as [[id c]|] eqn:Hw; [|by left]. specialize (Hno c id eq_refl).
  destruct (negb _); [by left|]. unfold execute_with_progress_reporting.
  destruct (execute key.1 c id h) as [[o scratch] kept] eqn:E. destruct o as [cm|oc m|d]; [by destruct (Hno cm)|..];
    (destruct kept as [k|]; cbn; [right; exists c, id; by rewrite E|by left]).
Qed.
End Collecting.

(** A collection that committed a part and then ran out of time keeps the part, under a message
    that says nothing was recorded. *)
Theorem timeout_message_denies_checkpoint {HD} (after : string) (scratch kept : HD) :
  let s := surviving_collection (ExecTimedOut after) scratch (Some kept) in
  sc_host_data s = Some kept
  ∧ sc_result s = Err (CollectionTimedOut, "timed out after " +:+ after +:+ " with nothing recorded").
Proof. done. Qed.

(** ** Samples *)

Definition snmp_payload (community : string) : CredentialQueryPayload :=
  to_query_payload (SnmpV2c (SecretInline community)).
Definition at_ip (n : Z) : IpAddr := V4 n.
Definition over (n : Z) (id : Uuid) (c : string) : IpOverride CredentialQueryPayload :=
  {| ov_ip := at_ip n; ov_credential := snmp_payload c; ov_credential_id := id |}.
Definition typed (d : option string) (l : list (IpOverride CredentialQueryPayload)) : TypedCredentialMapping :=
  {| tm_discriminant := DSnmpV2c; tm_mapping := {| default_credential := snmp_payload <$> d; ip_overrides := l |} |}.
Definition calm : CancelView := {| cancel_before := false; cancel_during := λ _ _, false; cancel_after := false |}.
Definition answers (k : PayloadKind) (c : CredentialQueryPayload) (id : option Uuid)
    : result (ProbeSuccess unit) (AttemptOutcome * string) :=
  Ok {| ps_client_probe := ProbeSnmp; ps_ports := []; ps_handle := None |}.
Definition refuses (k : PayloadKind) (c : CredentialQueryPayload) (id : option Uuid)
    : result (ProbeSuccess unit) (AttemptOutcome * string) := Err (Rejected, "denied").

(** Credential 1 is assigned to address 7.  Credential 2 is the network's and is assigned to
    address 8 too, so its mapping is sent after the other, and at address 7 its broadcast
    is what is recorded. *)
Theorem broadcast_wins :
  let ms := order_mappings_for_dispatch {[ 1%N := typed None [over 7 1 "site"]; 2%N := typed (Some "public") [over 8 2 "public"] ]} in
  match probe_integrations answers (at_ip 7) [] false calm ms with
  | Ok r => working_credential_ids r !! IntSnmp = Some (None, snmp_payload "public")
  | Err _ => False
  end.
Proof. vm_compute. reflexivity. Qed.

(** Credential 1 is assigned to address 7 and answers there.  So does the community "public",
    which the daemon tries last: it, and not the assigned credential, is recorded. *)
Theorem public_beats_assigned :
  let ms := daemon_mappings (order_mappings_for_dispatch {[ 1%N := typed None [over 7 1 "site"] ]}) in
  match probe_integrations answers (at_ip 7) [] false calm ms with
  | Ok r => working_credential_ids r !! IntSnmp = Some (None, PSnmp public_default)
  | Err _ => False
  end.
Proof. vm_compute. reflexivity. Qed.

(** A container proxy that is the network's, and one assigned to address 7. *)
Definition proxy_payload : CredentialQueryPayload := to_query_payload (to_credential_type DDockerProxy).
Definition pinned_proxy : IpOverride CredentialQueryPayload :=
  {| ov_ip := at_ip 7; ov_credential := proxy_payload; ov_credential_id := 1%N |}.
Definition proxy_mappings : gmap Uuid TypedCredentialMapping :=
  {[ 1%N := {| tm_discriminant := DDockerProxy; tm_mapping := {| default_credential := None; ip_overrides := [pinned_proxy] |} |};
     2%N := {| tm_discriminant := DDockerProxy;
               tm_mapping := {| default_credential := Some proxy_payload; ip_overrides := [] |} |} ]}.

Lemma specific_beats_broadcast_witness :
  match probe_integrations answers (at_ip 7) [] true calm (daemon_mappings (order_mappings_for_dispatch proxy_mappings)) with
  | Ok r => recorded_assigned (at_ip 7) (order_mappings_for_dispatch proxy_mappings) IntDockerProxy r
  | Err _ => False
  end.
Proof.
  assert (order_mappings_for_dispatch proxy_mappings
    = [{| default_credential := Some proxy_payload; ip_overrides := [] |};
       {| default_credential := None; ip_overrides := [pinned_proxy] |}]) as E0 by (vm_compute; reflexivity).
  destruct (probe_integrations answers (at_ip 7) [] true calm (daemon_mappings (order_mappings_for_dispatch proxy_mappings)))
    as [r|] eqn:E; [|by vm_compute in E].
  apply (specific_beats_broadcast answers (at_ip 7) [] true calm proxy_mappings IntDockerProxy r); [discriminate| | |exact E|].
  - rewrite E0. intros m Hm. rewrite !elem_of_cons, elem_of_nil in Hm. destruct Hm as [->|[->|[]]]; [by right|by left].
  - rewrite E0. intros m o Hm. rewrite !elem_of_cons, elem_of_nil in Hm. destruct Hm as [->|[->|[]]]; cbn; intros Ho;
      [by apply elem_of_nil in Ho|]. by apply list_elem_of_singleton in Ho as ->.
  - exists 1%N, proxy_payload, {| ps_client_probe := ProbeSnmp; ps_ports := []; ps_handle := None |}.
    rewrite E0. right. left.
Defined.

Lemma every_mapping_accounted_witness :
  let ms := [{| default_credential := None; ip_overrides := [over 7 1 "site"] |}] in
  Forall (λ e, disposition e ≠ Unresolved) (final_ledger refuses (at_ip 7) [] false calm ms)
  ∧ reported_issues refuses (at_ip 7) [] false calm ms
    = [{| ci_label := discovery_label (snmp_payload "site"); ci_ip := at_ip 7; ci_reason := Attempted Rejected "denied" |}].
Proof.
  split; [|vm_compute; reflexivity].
  apply (every_mapping_accounted refuses (at_ip 7) [] false calm); [reflexivity|discriminate].
Defined.

(** The services of a host, and what each collection adds. *)
Definition sample_execute (o : ExecuteOutcome) (kept : option (list string))
    (k : PayloadKind) (c : CredentialQueryPayload) (id : option Uuid) (h : list string)
    : ExecuteOutcome * list string * option (list string) := (o, h ++ ["read"], kept).
Definition snmp_working : WorkingIds := {[ IntSnmp := (Some 1%N, snmp_payload "site") ]}.
Definition snmp_host : list string := [service_of IntSnmp].

Lemma unfinished_keeps_host_witness :
  (execute_key (λ h, h) (sample_execute (ExecTimedOut "30s") None) (at_ip 7) snmp_working (snmp_host, []) (IntSnmp, Some 1%N)).1
  = snmp_host.
Proof.
  destruct (unfinished_keeps_host (λ h, h) (sample_execute (ExecTimedOut "30s") None) (at_ip 7) snmp_working
    (IntSnmp, Some 1%N) snmp_host []) as [E|(c & id & _ & E)]; [discriminate|exact E|discriminate].
Defined.

Lemma silence_means_collected_witness :
  ∃ h1, collected (λ h, h) (sample_execute (Finished Complete) None) snmp_working
          (dedup_execution_keys [{| default_credential := None; ip_overrides := [over 7 1 "site"] |}] snmp_working) snmp_host h1
    ∧ snmp_host ++ ["read"] = h1.
Proof.
  apply (silence_means_collected (λ h, h) (λ _ h, h) (sample_execute (Finished Complete) None) (at_ip 7) snmp_working
    [{| default_credential := None; ip_overrides := [over 7 1 "site"] |}] None snmp_host (snmp_host ++ ["read"])).
  - discriminate.
  - vm_compute. reflexivity.
Defined.
