(* ===== verification/WarningThms.v ===== *)
(** What the warnings of a scan promise: nothing that was recorded is left out of the lines,
    and no line says more than was recorded. *)

From S2P Require Import Prelude Net Ports Lldp Hosts Patterns Definitions Credentials Topology EdgeBuilder EdgeThms Warnings.
Local Open Scope string_scope.
Local Open Scope list_scope.

Lemma elem_of_ip_set l ip : ip ∈ ip_set l ↔ ip ∈ l.
Proof.
  unfold ip_set. split.
  - intros Hi%dedup_subset. by rewrite sort_by_perm in Hi.
  - intros Hi. assert (ip ∈ sort_by ip_leb l) as Hs by (by rewrite sort_by_perm).
    apply (dedup_covers (λ a b, bool_decide (a = b))) in Hs as (x & Hx & ->%bool_decide_eq_true); [done|].
    intros a. by apply bool_decide_eq_true.
Qed.

(** ** Walks *)

(** A line speaks of a walk when it names the device and the group under how the walk ended. *)
Definition speaks_of (line : GroupsKey * list SnmpWalkGroup) (r : IncompleteSnmpWalk) : Prop :=
  line.1.1 = (iw_returned_any r, reason_code (iw_reason r)) ∧ iw_ip r ∈ line.1.2 ∧ iw_group r ∈ line.2.

Lemma group_rank_inj g g' : group_rank g = group_rank g' → g = g'.
Proof. by destruct g, g'. Qed.

(** The devices whose walk of a group ended one way. *)
Definition devices_at (l : list IncompleteSnmpWalk) (k : WalkKey) : list IpAddr :=
  ip_set (iw_ip <$> List.filter (has_key (λ r, Some (walk_key r)) k) l).

Lemma elem_of_devices l e :
  e ∈ devices_by_group l ↔ ∃ r, r ∈ l ∧ e = (walk_key r, (iw_group r, devices_at l (walk_key r))).
Proof.
  unfold devices_by_group. rewrite list_elem_of_omap. split.
  - intros ([k rs] & [-> Hne]%elem_of_btree_iter%group_by_Some & E). cbn in E.
    destruct (List.filter _ l) as [|r rs] eqn:Er; [done|]. cbn in E. injection E as <-.
    assert (r ∈ List.filter (has_key (λ r, Some (walk_key r)) k) l) as Hr by (rewrite Er; left).
    apply elem_of_list_filter_bool in Hr as [[= <-]%bool_decide_eq_true Hl].
    exists r. unfold devices_at. by rewrite Er.
  - intros (r & Hr & ->). destruct (group_by_elem (λ r, Some (walk_key r)) l r (walk_key r) Hr eq_refl) as (g & Hg & Hin).
    exists (walk_key r, g). split; [by apply elem_of_btree_iter|]. apply group_by_Some in Hg as [-> _]. cbn. unfold devices_at.
    destruct (List.filter _ l) as [|r' rs] eqn:Er; [by apply elem_of_nil in Hin|]. cbn. do 3 f_equal.
    assert (r' ∈ List.filter (has_key (λ r, Some (walk_key r)) (walk_key r)) l) as Hr' by (rewrite Er; left).
    apply elem_of_list_filter_bool in Hr' as [[= _ _ E]%bool_decide_eq_true _]. by apply group_rank_inj.
Qed.

Lemma elem_of_lines l line :
  line ∈ groups_by_devices l ↔
  ∃ es, group_by (λ e : WalkKey * (SnmpWalkGroup * list IpAddr), Some (e.1.1, e.2.2)) (devices_by_group l) !! line.1 = Some es
    ∧ line.2 = (λ e, e.2.1) <$> es.
Proof.
  unfold groups_by_devices. rewrite list_elem_of_fmap. destruct line as [k gs]. cbn. split.
  - intros ([k' es] & [= -> ->] & Hes%elem_of_btree_iter). eauto.
  - intros (es & Hes & ->). exists (k, es). split; [done|]. by apply elem_of_btree_iter.
Qed.

(** What a line lists is the walks of its devices that ended its way. *)
Lemma line_groups l line g :
  line ∈ groups_by_devices l → g ∈ line.2 →
  ∃ r, r ∈ l ∧ iw_group r = g ∧ line.1 = ((iw_returned_any r, reason_code (iw_reason r)), devices_at l (walk_key r)).
Proof.
  destruct line as [k gs]. cbn [fst snd]. intros (es & [-> _]%group_by_Some & E)%elem_of_lines.
  cbn in E. subst gs. intros (e & -> & [Hk He]%elem_of_list_filter_bool)%list_elem_of_fmap.
  apply elem_of_devices in He as (r & Hr & ->). exists r. split_and!; [done|done|].
  unfold has_key in Hk. rewrite bool_decide_eq_true in Hk. injection Hk as <-. done.
Qed.

(** Every walk that fell short is in exactly one line, under how it ended, and every device
    a line names next to a group is one whose walk of the group ended that way. *)
Theorem walk_lines_exact (l : list IncompleteSnmpWalk) :
  (∀ r, r ∈ l → ∃ line, line ∈ groups_by_devices l ∧ speaks_of line r
     ∧ ∀ line', line' ∈ groups_by_devices l → speaks_of line' r → line' = line)
  ∧ ∀ line ip g, line ∈ groups_by_devices l → ip ∈ line.1.2 → g ∈ line.2 →
      ∃ r, r ∈ l ∧ iw_ip r = ip ∧ iw_group r = g ∧ speaks_of line r.
Proof.
  split.
  - intros r Hr. set (e := (walk_key r, (iw_group r, devices_at l (walk_key r)))).
    assert (e ∈ devices_by_group l) as He by (apply elem_of_devices; eauto).
    destruct (group_by_elem (λ e : WalkKey * (SnmpWalkGroup * list IpAddr), Some (e.1.1, e.2.2)) _ e _ He eq_refl)
      as (es & Hes & Hin).
    exists ((e.1.1, e.2.2), (λ e, e.2.1) <$> es). unfold speaks_of at 1. split_and!.
    + apply elem_of_lines. by exists es.
    + done.
    + cbn. apply elem_of_ip_set. apply (list_elem_of_fmap_2 iw_ip). apply elem_of_list_filter_bool.
      split; [by apply bool_decide_eq_true|done].
    + cbn. by apply (list_elem_of_fmap_2 (λ e, e.2.1)) in Hin.
    + intros [k gs] Hl (Hs & _ & Hg). destruct (line_groups l _ (iw_group r) Hl Hg) as (r' & _ & Eg & E).
      cbn in Hs, E. subst k. cbn in Hs.
      assert (walk_key r' = walk_key r) as Ek by (unfold walk_key; rewrite Eg; congruence).
      apply elem_of_lines in Hl as (es' & Hes' & E2). cbn in E2, Hes, Hes'. subst gs.
      rewrite Ek, Hs in *. pose proof (eq_trans (eq_sym Hes) Hes') as E. by injection E as <-.
  - intros [k gs] ip g Hl Hip Hg. destruct (line_groups l _ g Hl Hg) as (r & Hr & Eg & E). cbn in E, Hip, Hg. subst k.
    apply elem_of_ip_set, list_elem_of_fmap in Hip as (r' & -> & [[= E1 E2 E3]%bool_decide_eq_true Hr']%elem_of_list_filter_bool).
    exists r'. split; [done|]. split; [done|]. apply group_rank_inj in E3. split; [congruence|].
    unfold speaks_of. cbn. split_and!; [congruence| |congruence].
    apply elem_of_ip_set, (list_elem_of_fmap_2 iw_ip), elem_of_list_filter_bool.
    split; [|done]. apply bool_decide_eq_true. unfold walk_key. congruence.
Qed.

(** ** Credential issues *)

Lemma elem_of_address_line issues sel text ips s :
  (ips, s) ∈ address_line issues sel text ↔
  ips = ip_set (ci_ip <$> List.filter sel issues) ∧ ips ≠ [] ∧ s = text ips.
Proof.
  unfold address_line. destruct (ip_set _) eqn:E; [set_solver|]. rewrite list_elem_of_singleton. naive_solver.
Qed.

Lemma selected_ip issues sel i :
  i ∈ issues → sel i = true → ci_ip i ∈ ip_set (ci_ip <$> List.filter sel issues).
Proof. intros Hi Hs. by apply elem_of_ip_set, (list_elem_of_fmap_2 ci_ip), elem_of_list_filter_bool. Qed.

Lemma address_line_covers issues sel text i :
  i ∈ issues → sel i = true →
  let ips := ip_set (ci_ip <$> List.filter sel issues) in (ips, text ips) ∈ address_line issues sel text.
Proof.
  intros Hi Hs. pose proof (selected_ip issues sel i Hi Hs) as Hin. apply elem_of_address_line. split_and!; [done| |done].
  intros E. rewrite E in Hin. by apply elem_of_nil in Hin.
Qed.

Lemma outcome_line_covers issues o a i :
  advice o = Some a → i ∈ outcome_issues issues o → ∃ line, line ∈ outcome_line issues o ∧ ci_ip i ∈ line.1.
Proof.
  intros Ha Hi. unfold outcome_line. rewrite Ha. destruct (outcome_issues issues o) as [|j l] eqn:E;
    [by apply elem_of_nil in Hi|]. rewrite <- E in *. eexists. split; [left|]. cbn.
  by apply elem_of_ip_set, (list_elem_of_fmap_2 ci_ip).
Qed.

Lemma line_from issues line ip :
  line ∈ issue_lines issues → ip ∈ line.1 → ∃ i, i ∈ issues ∧ ci_ip i = ip.
Proof.
  assert (∀ sel text line, line ∈ address_line issues sel text → ip ∈ line.1 → ∃ i, i ∈ issues ∧ ci_ip i = ip) as Ha.
  { intros sel text [ips s] (-> & _ & _)%elem_of_address_line. cbn.
    intros (i & -> & [_ Hi]%elem_of_list_filter_bool)%elem_of_ip_set%list_elem_of_fmap. eauto. }
  unfold issue_lines. rewrite !elem_of_app. intros [H|[H|[H|H]]]; [by eapply Ha..|].
  apply list_elem_of_bind in H as (o & H & _). unfold outcome_line in H. destruct (advice o); [|by apply elem_of_nil in H].
  destruct (outcome_issues issues o) as [|j l] eqn:E; [by apply elem_of_nil in H|]. rewrite <- E in H.
  apply list_elem_of_singleton in H as ->. cbn.
  intros (i & -> & [_ Hi]%elem_of_list_filter_bool)%elem_of_ip_set%list_elem_of_fmap. eauto.
Qed.

(** Every credential issue of a scan, other than an attempt that was cancelled, is at an
    address one of the lines is about, and the lines are about no other address. *)
Theorem issues_covered (issues : list CredentialIssue) :
  (∀ i, i ∈ issues → attempt_outcome (ci_reason i) ≠ Some Cancelled →
     ∃ line, line ∈ issue_lines issues ∧ ci_ip i ∈ line.1)
  ∧ ∀ line ip, line ∈ issue_lines issues → ip ∈ line.1 → ∃ i, i ∈ issues ∧ ci_ip i = ip.
Proof.
  split; [|intros line ip; apply line_from]. intros i Hi Hc. unfold issue_lines. setoid_rewrite elem_of_app.
  setoid_rewrite elem_of_app. setoid_rewrite elem_of_app.
  destruct (already_covered_by_address_line issues i) eqn:Hcov.
  - unfold already_covered_by_address_line in Hcov.
    assert (∃ o, o ∈ issues ∧ ci_ip o = ci_ip i ∧ (not_scanned o = true ∨ not_responding o = true)) as (o & Ho & <- & Hs).
    { destruct (attempt_outcome (ci_reason i)) as [[]|]; try done;
        apply existsb_elem in Hcov as (o & Ho & [E%bool_decide_eq_true Hs]%andb_true_iff);
        exists o; rewrite orb_true_iff in Hs; auto. }
    destruct Hs as [Hs|Hs]; eexists (_, _); (split; [|by apply (selected_ip issues _ o Ho Hs)]).
    + left. by apply (address_line_covers issues _ _ o).
    + right. left. by apply (address_line_covers issues _ _ o).
  - destruct (ci_reason i) as [| |ps|oc m] eqn:Hr.
    + assert (not_scanned i = true) as Hs by (unfold not_scanned; by rewrite Hr).
      eexists (_, _). split; [|by apply (selected_ip issues _ i Hi Hs)]. left. by apply (address_line_covers issues _ _ i).
    + assert (not_responding i = true) as Hs by (unfold not_responding; by rewrite Hr).
      eexists (_, _). split; [|by apply (selected_ip issues _ i Hi Hs)]. right. left. by apply (address_line_covers issues _ _ i).
    + assert (gate_closed i = true) as Hs by (unfold gate_closed; by rewrite Hr).
      eexists (_, _). split; [|by apply (selected_ip issues _ i Hi Hs)]. right. right. left. by apply (address_line_covers issues _ _ i).
    + assert (i ∈ outcome_issues issues oc) as Ho.
      { apply elem_of_list_filter_bool. split; [|done]. rewrite Hr, Hcov. cbn. by rewrite bool_decide_eq_true_2. }
      assert (is_Some (advice oc)) as [a Ha] by (destruct oc; cbn in *; first [by destruct Hc|by eexists]).
      destruct (outcome_line_covers issues oc a i Ha Ho) as (line & ? & ?). exists line. split; [|done]. right. right. right.
      apply list_elem_of_bind. exists oc. split; [done|]. destruct oc; cbn; set_solver.
Qed.

(** A line about one credential at an address names the others that have an issue there: here
    a refused community shares its line with the socket that was never tried. *)
Theorem line_names_other_credentials :
  let ip := V4 2130706433 in
  let issues := [{| ci_label := "SNMP queries"; ci_ip := ip; ci_reason := Attempted Rejected "no answer" |};
                 {| ci_label := "Docker proxy"; ci_ip := ip; ci_reason := GateClosed [new_tcp 2375] |}] in
  outcome_issues issues Rejected = [{| ci_label := "SNMP queries"; ci_ip := ip; ci_reason := Attempted Rejected "no answer" |}]
  ∧ describe_targets issues (ip_set (ci_ip <$> outcome_issues issues Rejected))
    = "2 credentials (Docker proxy, SNMP queries) for 127.0.0.1".
Proof. split; vm_compute; reflexivity. Qed.
