(* ===== verification/SnmpWalk.v ===== *)
(** SNMP tables ([daemon/discovery/integration/snmp/{values,oids,queries}.rs]): the
    values of the protocol, and the walk that reads one column of a table.

    An agent is whatever answers the two requests of a walk, as a class over the
    state of the session; nothing is assumed of it, so the theorems hold for an
    agent that lies, loops or falls silent. *)

From S2P Require Import Prelude Net Entities Lldp Hosts Credentials Warnings.
Local Open Scope Z_scope.

(** ** Object identifiers ([oids.rs]) *)

(** A [Vec<u64>] of sub-identifiers. *)
Abbreviation oid := (list Z) (only parsing).

(** [Ord for Vec<u64>]. *)
Fixpoint oid_leb (a b : oid) : bool :=
  match a, b with
  | [], _ => true
  | _ :: _, [] => false
  | x :: a', y :: b' => (x <? y) || ((x =? y) && oid_leb a' b')
  end.

(** [str::parse::<u64>]. *)
Definition parse_u64 (l : bytes) : option Z :=
  let body := match l with 43 :: (_ :: _) => tl l | _ => l end in
  match body with
  | [] => None
  | _ => match digits_value dec_digit 10 0 body with
         | Some v => if v <? 2 ^ 64 then Some v else None
         | None => None
         end
  end.

(** The parts of a dotted identifier, as [walk_subtree] reads its base. *)
Definition base_parts (s : string) : oid :=
  omap parse_u64 (List.filter (λ p, negb (length p =? 0)%nat) (split_on 46 (str_bytes s))).

(** ** Values ([values.rs]) *)

Inductive Value :=
| VBoolean (b : bool) | VNull | VInteger (n : Z) | VOctetString (b : bytes)
| VObjectIdentifier (parts : option oid) | VSequence | VSet | VConstructed
| VIpAddress (a b c d : Z) | VCounter32 (n : Z) | VUnsigned32 (n : Z) | VTimeticks (n : Z)
| VOpaque | VCounter64 (n : Z) | VEndOfMibView | VNoSuchObject | VNoSuchInstance | VPdu.

#[export] Instance Value_eq_dec : EqDecision Value.
Proof. solve_decision. Defined.

(** A decimal number of any size. *)
Definition int_text (n : Z) : bytes := str_bytes (num_text n).

Definition value_to_string (v : Value) : option bytes :=
  match v with
  | VOctetString b => strip_nuls <$> from_utf8 b
  | VObjectIdentifier p => (λ o, join_with 46 (int_text <$> o)) <$> p
  | _ => None
  end.

Definition value_type_name (v : Value) : string :=
  match v with
  | VBoolean _ => "Boolean" | VNull => "Null" | VInteger _ => "Integer" | VOctetString _ => "OctetString"
  | VObjectIdentifier _ => "ObjectIdentifier" | VSequence => "Sequence" | VSet => "Set"
  | VConstructed => "Constructed" | VIpAddress _ _ _ _ => "IpAddress" | VCounter32 _ => "Counter32"
  | VUnsigned32 _ => "Unsigned32" | VTimeticks _ => "Timeticks" | VOpaque => "Opaque"
  | VCounter64 _ => "Counter64" | VEndOfMibView => "EndOfMibView" | VNoSuchObject => "NoSuchObject"
  | VNoSuchInstance => "NoSuchInstance" | VPdu => "Pdu"
  end.

(** [TryFrom] between integers: the value, when it is in range. *)
Definition try_range (lo hi n : Z) : option Z := if (lo <=? n) && (n <? hi) then Some n else None.

Definition value_to_i32 (v : Value) : option Z :=
  match v with
  | VInteger n | VUnsigned32 n | VCounter32 n | VCounter64 n | VTimeticks n => try_range (- 2 ^ 31) (2 ^ 31) n
  | _ => None
  end.
Definition value_to_u64 (v : Value) : option Z :=
  match v with
  | VInteger n => try_range 0 (2 ^ 64) n
  | VUnsigned32 n | VCounter32 n | VCounter64 n | VTimeticks n => Some n
  | _ => None
  end.
Definition value_to_u16 (v : Value) : option Z :=
  match v with
  | VInteger n | VUnsigned32 n | VCounter32 n => try_range 0 (2 ^ 16) n
  | _ => None
  end.
Definition value_to_mac (v : Value) : option MacAddress :=
  match v with
  | VOctetString b => if (length b =? 6)%nat then Some (be_value 0 b) else None
  | _ => None
  end.
Definition value_to_ip (v : Value) : option IpAddr :=
  match v with
  | VIpAddress a b c d => Some (ipv4 a b c d)
  | VOctetString b => if (length b =? 4)%nat then Some (V4 (be_value 0 b)) else None
  | _ => None
  end.

(** [parse_portlist_bitmap]: the most significant bit of the first octet is port 1. *)
Definition octet_ports (i : nat) (byte : Z) : list Z :=
  omap (λ bit : nat, if Z.land byte (Z.shiftr 128 (Z.of_nat bit)) =? 0 then None
                     else Some (Z.of_nat i * 8 + Z.of_nat bit + 1)) (seq 0 8).
Definition parse_portlist_bitmap (l : bytes) : list Z := mjoin (imap octet_ports l).

Definition qbridge_fdb_index_to_mac (suffix : oid) : option MacAddress :=
  match suffix with
  | _ :: mac =>
      if negb (length suffix =? 7)%nat then None
      else if existsb (λ o, 255 <? o) mac then None else Some (be_value 0 mac)
  | [] => None
  end.

Definition parse_lldp_mgmt_addr (l : bytes) : option IpAddr :=
  if (length l =? 4)%nat then Some (V4 (be_value 0 l))
  else if (length l =? 16)%nat then Some (V6 (be_value 0 l))
  else match l with
       | family :: addr =>
           if (length l =? 5)%nat && (family =? 1) then Some (V4 (be_value 0 addr))
           else if (length l =? 17)%nat && (family =? 2) then Some (V6 (be_value 0 addr))
           else None
       | [] => None
       end.

(** ** Walking a column *)

Inductive WalkStop :=
| EndOfSubtree | EndOfMibView | EntryCapReached | Transport | EmptyResponse | NonAdvancingOid | StaleResponse.

#[export] Instance WalkStop_eq_dec : EqDecision WalkStop.
Proof. solve_decision. Defined.

Definition MAX_WALK_ENTRIES : N := 10000.
Definition MAX_DESYNC_RETRIES : N := 2.
Definition BULK_MAX_REPETITIONS : N := 20.

(** [From<WalkStop> for Option<ShortfallReason>]. *)
Definition stop_reason (s : WalkStop) : option ShortfallReason :=
  match s with
  | EndOfSubtree => None
  | EndOfMibView => Some UnsupportedMib
  | EntryCapReached => Some (EntryCap (N.to_nat MAX_WALK_ENTRIES))
  | NonAdvancingOid | StaleResponse => Some Desynchronised
  | Transport | EmptyResponse => Some NoAnswer
  end.
Definition is_truncation (s : WalkStop) : bool :=
  match s with EndOfSubtree | EndOfMibView => false | _ => true end.
Definition is_complete (s : WalkStop) : bool := negb (is_truncation s).
Definition is_unsupported (s : WalkStop) : bool := match s with EndOfMibView => true | _ => false end.

Abbreviation Varbinds := (list (oid * Value)) (only parsing).

Inductive WalkPage := Page (v : Varbinds) | BulkUnsupported.

(** An error is whether it is a desynchronised session ([is_desync]). *)
Class SnmpWalkTransport (T : Type) := {
  walk_getbulk : T → oid → N → T * result WalkPage bool;
  walk_getnext : T → oid → T * result Varbinds bool
}.

Definition is_end (v : Value) : bool :=
  match v with VEndOfMibView | VNoSuchObject | VNoSuchInstance => true | _ => false end.

(** What an identifier adds to the base, when it is below it. *)
Definition suffix_of (base resp : oid) : option oid :=
  match strip_prefix base resp with
  | Some (x :: s) => Some (x :: s)
  | _ => None
  end.

(** The rows taken so far: [on_entry] is called with each, in order. *)
Record Taken := {
  seen : gset oid;
  high_water : oid;
  taken_count : N;
  taken : list (oid * Value)
}.

Definition take_row (resp suffix : oid) (v : Value) (t : Taken) : Taken :=
  if bool_decide (resp ∈ seen t) then t
  else {| seen := {[resp]} ∪ seen t;
          high_water := if oid_leb resp (high_water t) then high_water t else resp;
          taken_count := taken_count t + 1;
          taken := taken t ++ [(suffix, v)] |}.

(** One page: the rows taken, the last identifier in the subtree, and the stop with
    whether to ask again, when the page ended the walk. *)
Fixpoint read_page (base : oid) (vs : Varbinds) (next : option oid) (t : Taken)
    : Taken * option oid * option (WalkStop * bool) :=
  match vs with
  | [] => (t, next, None)
  | (resp, value) :: vs' =>
      if is_end value then (t, next, Some (EndOfMibView, false))
      else
        match suffix_of base resp with
        | None =>
            (t, next, Some (if oid_leb resp (high_water t) then (StaleResponse, true) else (EndOfSubtree, false)))
        | Some suffix =>
            let t := take_row resp suffix value t in
            if (MAX_WALK_ENTRIES <=? taken_count t)%N then (t, Some resp, Some (EntryCapReached, false))
            else read_page base vs' (Some resp) t
        end
  end.

Section Walk.
Context {T : Type} `{SnmpWalkTransport T}.

Record WalkState := {
  session : T;
  cursor : oid;
  use_bulk : bool;
  desync_retries : N;
  rows : Taken
}.

Definition walk_start (s : T) (base : oid) : WalkState := {|
  session := s; cursor := base; use_bulk := true; desync_retries := 0;
  rows := {| seen := ∅; high_water := base; taken_count := 0; taken := [] |} |}.

Inductive Step := Continue (w : WalkState) | Stopped (w : WalkState) (s : WalkStop).

Definition after (s : T) (c : oid) (bulk : bool) (retries : N) (t : Taken) : WalkState :=
  {| session := s; cursor := c; use_bulk := bulk; desync_retries := retries; rows := t |}.

(** The page of a round, once it was read. *)
Definition turn_page (base : oid) (w : WalkState) (s : T) (vs : Varbinds) : Step :=
  let '(t, next, ended) := read_page base vs None (rows w) in
  let '(c, stop, retry) :=
    match ended with
    | Some (stop, retry) => (cursor w, Some stop, retry)
    | None =>
        match next with
        | Some parts =>
            if (taken_count t =? taken_count (rows w))%N then (cursor w, Some NonAdvancingOid, true)
            else (parts, None, false)
        | None => (cursor w, Some EmptyResponse, false)
        end
    end in
  if retry && (desync_retries w <? MAX_DESYNC_RETRIES)%N
  then Continue (after s c (use_bulk w) (desync_retries w + 1) t)
  else
    let w' := after s c (use_bulk w) (desync_retries w) t in
    match stop with Some x => Stopped w' x | None => Continue w' end.

(** One turn of the loop. *)
Definition walk_step (base : oid) (w : WalkState) : Step :=
  if (MAX_WALK_ENTRIES <=? taken_count (rows w))%N then Stopped w EntryCapReached
  else
    let '(s, answer) :=
      if use_bulk w then walk_getbulk (session w) (cursor w) BULK_MAX_REPETITIONS
      else let '(s, r) := walk_getnext (session w) (cursor w) in
           (s, match r with Ok v => Ok (Page v) | Err e => Err e end) in
    match answer with
    | Ok BulkUnsupported => Continue (after s (cursor w) false (desync_retries w) (rows w))
    | Err desync =>
        if desync && (desync_retries w <? MAX_DESYNC_RETRIES)%N
        then Continue (after s (cursor w) (use_bulk w) (desync_retries w + 1) (rows w))
        else Stopped (after s (cursor w) (use_bulk w) (desync_retries w) (rows w)) Transport
    | Ok (Page []) => Stopped (after s (cursor w) (use_bulk w) (desync_retries w) (rows w)) EmptyResponse
    | Ok (Page vs) => turn_page base w s vs
    end.

Fixpoint walk_loop (fuel : nat) (base : oid) (w : WalkState) : option (T * list (oid * Value) * WalkStop) :=
  match fuel with
  | O => None
  | S fuel' =>
      match walk_step base w with
      | Continue w' => walk_loop fuel' base w'
      | Stopped w' s => Some (session w', taken (rows w'), s)
      end
  end.

(** The turns a walk can take: each takes a row, or spends a retry, or gives up bulk
    requests, or is the last ([walk_returns]). *)
Definition walk_fuel : nat := N.to_nat (MAX_WALK_ENTRIES + MAX_DESYNC_RETRIES + 2).

Definition walk_subtree (s : T) (base : oid) : T * list (oid * Value) * WalkStop :=
  default (s, [], Transport) (walk_loop walk_fuel base (walk_start s base)).
End Walk.
Arguments WalkState T : clear implicits.
Arguments Step T : clear implicits.
