(* ===== verification/SnmpWalkThms.v ===== *)
(** What a walk promises of any agent: it returns, it hands over every row once and
    no row the agent did not send; and of an agent that serves a table in some order of
    its own: the walk reads all of it and says so. *)

From S2P Require Import Prelude Net Entities Lldp Hosts Credentials Warnings SnmpWalk.
Local Open Scope Z_scope.

(** ** Identifiers *)

Lemma strip_prefix_Some p l r : strip_prefix p l = Some r ↔ l = p ++ r.
Proof.
  revert l. induction p as [|x p IH]; intros l; cbn; [naive_solver|].
  destruct l as [|y l]; [naive_solver|]. destruct (Z.eqb_spec x y) as [->|Hne]; [|naive_solver].
  rewrite IH. naive_solver.
Qed.

Lemma suffix_of_Some base resp s : suffix_of base resp = Some s ↔ resp = base ++ s ∧ s ≠ [].
Proof.
  unfold suffix_of. destruct (strip_prefix base resp) as [[|x r]|] eqn:E.
  - apply strip_prefix_Some in E as ->. rewrite app_nil_r. split; [done|]. intros [E ?].
    by rewrite <- (app_nil_r base) in E at 1; apply app_inv_head in E as <-.
  - apply strip_prefix_Some in E as ->. split; [by intros [= <-]|]. intros [->%app_inv_head _]. done.
  - split; [done|]. intros [E' _]. by apply strip_prefix_Some in E'; rewrite E in E'.
Qed.

(** ** Termination *)

Section Returns.
Context {T : Type} `{SnmpWalkTransport T}.

Lemma take_row_count resp s v t : (taken_count t ≤ taken_count (take_row resp s v t))%N.
Proof. unfold take_row. case_bool_decide; cbn; lia. Qed.

Lemma read_page_count base vs next t : (taken_count t ≤ taken_count (read_page base vs next t).1.1)%N.
Proof.
  revert next t. induction vs as [|[resp v] vs IH]; intros next t; cbn; [lia|].
  destruct (is_end v); [cbn; lia|]. destruct (suffix_of base resp) as [s|]; [|cbn; lia].
  pose proof (take_row_count resp s v t). destruct (_ <=? _)%N; cbn; [lia|]. etrans; [done|apply IH].
Qed.

(** What is left of the rows, the retries and the bulk requests. *)
Definition measure (w : WalkState T) : nat :=
  N.to_nat ((MAX_WALK_ENTRIES - taken_count (rows w)) + (MAX_DESYNC_RETRIES - desync_retries w)
            + (if use_bulk w then 1 else 0)).

Lemma turn_page_measure base w s vs w' :
  (taken_count (rows w) < MAX_WALK_ENTRIES)%N →
  turn_page base w s vs = Continue w' → (measure w' < measure w)%nat.
Proof.
  intros Hcap. unfold turn_page. pose proof (read_page_count base vs None (rows w)) as Hc.
  destruct (read_page base vs None (rows w)) as [[t next] ended]. cbn in Hc.
  assert (∀ c, (desync_retries w <? MAX_DESYNC_RETRIES)%N = true →
    (measure (after s c (use_bulk w) (desync_retries w + 1) t) < measure w)%nat) as Hretry.
  { intros c E%N.ltb_lt. unfold measure. cbn. destruct (use_bulk w); lia. }
  destruct ended as [[stop retry]|].
  - destruct (retry && _) eqn:E; [|done]. intros [= <-]. apply Hretry. by apply andb_true_iff in E as [_ ?].
  - destruct next as [parts|]; [|done]. destruct (N.eqb_spec (taken_count t) (taken_count (rows w))) as [|Hne]; cbn [andb].
    + destruct (_ <? _)%N eqn:E; [|done]. intros [= <-]. by apply Hretry.
    + intros [= <-]. unfold measure. cbn. destruct (use_bulk w); lia.
Qed.

Lemma walk_step_measure base w w' : walk_step base w = Continue w' → (measure w' < measure w)%nat.
Proof.
  unfold walk_step. destruct (N.leb_spec MAX_WALK_ENTRIES (taken_count (rows w))) as [|Hcap]; [done|].
  destruct (use_bulk w) eqn:Hb.
  - destruct (walk_getbulk _ _ _) as [s [[[|vb vs]|]|desync]]; [done|by apply turn_page_measure| |].
    + intros [= <-]. unfold measure. rewrite Hb. cbn. lia.
    + destruct (desync && _) eqn:E; [|done]. intros [= <-]. apply andb_true_iff in E as [_ E%N.ltb_lt].
      unfold measure. rewrite ?Hb. cbn. lia.
  - destruct (walk_getnext _ _) as [s [[|vb vs]|desync]]; [done|by apply turn_page_measure|].
    destruct (desync && _) eqn:E; [|done]. intros [= <-]. apply andb_true_iff in E as [_ E%N.ltb_lt].
    unfold measure. rewrite ?Hb. cbn. lia.
Qed.

Lemma walk_loop_returns fuel base w : (measure w < fuel)%nat → is_Some (walk_loop fuel base w).
Proof.
  revert w. induction fuel as [|fuel IH]; intros w Hf; [lia|]. cbn.
  destruct (walk_step base w) as [w'|w' stop] eqn:E; [|by eexists].
  apply walk_step_measure in E. apply IH. lia.
Qed.

(** C35. A walk returns whatever the agent answers: within one turn for each row it may
    take, two retries, one change to single requests, and the last. *)
Theorem walk_returns (s : T) (base : oid) :
  ∃ r, walk_loop walk_fuel base (walk_start s base) = Some r ∧ walk_subtree s base = r.
Proof.
  destruct (walk_loop_returns walk_fuel base (walk_start s base)) as [r Hr]; [vm_compute; lia|].
  exists r. split; [done|]. unfold walk_subtree. by rewrite Hr.
Qed.
End Returns.

(** ** What is handed over *)

Section Sound.
Context {T : Type} `{SnmpWalkTransport T} (base : oid).
(** What an agent may answer with. *)
Context (P : oid → Value → Prop).

Record taken_ok (t : Taken) : Prop := {
  tk_count : taken_count t = N.of_nat (length (taken t));
  tk_cap : (taken_count t ≤ MAX_WALK_ENTRIES)%N;
  tk_once : NoDup (taken t).*1;
  tk_seen : ∀ s v, (s, v) ∈ taken t → base ++ s ∈ seen t;
  tk_rows : ∀ s v, (s, v) ∈ taken t → s ≠ [] ∧ is_end v = false ∧ P (base ++ s) v
}.

Lemma take_row_ok s v t :
  taken_ok t → (taken_count t < MAX_WALK_ENTRIES)%N → s ≠ [] → is_end v = false → P (base ++ s) v →
  taken_ok (take_row (base ++ s) s v t).
Proof.
  intros [Hc Hm Hn Hs Hr] Hcap Hne Hv HP. unfold take_row. case_bool_decide as Hin; [done|]. split; cbn.
  - rewrite length_app. cbn. lia.
  - lia.
  - apply NoDup_fmap_snoc; [done|]. cbn. intros ([s' v'] & -> & Hin')%list_elem_of_fmap. by apply Hs in Hin'.
  - intros s' v' [Hin'|[= -> ->]%list_elem_of_singleton]%elem_of_app; [apply Hs in Hin'|]; set_solver.
  - intros s' v' [Hin'|[= -> ->]%list_elem_of_singleton]%elem_of_app; [by apply Hr|done].
Qed.

Lemma read_page_ok vs next t :
  Forall (λ vb, P vb.1 vb.2) vs → taken_ok t → (taken_count t < MAX_WALK_ENTRIES)%N →
  let '(t', _, ended) := read_page base vs next t in
  taken_ok t' ∧ (∀ b, ended = Some (EntryCapReached, b) → taken_count t' = MAX_WALK_ENTRIES).
Proof.
  intros Hvs. revert next t. induction Hvs as [|[resp v] vs HP Hvs IH]; intros next t Ht Hcap; cbn; [done|].
  destruct (is_end v) eqn:Hv; [done|]. destruct (suffix_of base resp) as [s|] eqn:Es.
  - apply suffix_of_Some in Es as [-> Hs].
    pose proof (take_row_ok s v t Ht Hcap Hs Hv HP) as Ht'.
    destruct (N.leb_spec MAX_WALK_ENTRIES (taken_count (take_row (base ++ s) s v t))).
    + split; [done|]. intros _ _. pose proof (tk_cap _ Ht'). lia.
    + by apply IH.
  - split; [done|]. by destruct (oid_leb _ _).
Qed.

Definition honest : Prop :=
  (∀ s from n s' vs, walk_getbulk s from n = (s', Ok (Page vs)) → Forall (λ vb, P vb.1 vb.2) vs)
  ∧ ∀ s from s' vs, walk_getnext s from = (s', Ok vs) → Forall (λ vb, P vb.1 vb.2) vs.

Lemma walk_step_ok w :
  honest → taken_ok (rows w) →
  match walk_step base w with
  | Continue w' => taken_ok (rows w')
  | Stopped w' s => taken_ok (rows w') ∧ (s = EntryCapReached → taken_count (rows w') = MAX_WALK_ENTRIES)
  end.
Proof.
  intros [Hb Hn] Ht. unfold walk_step. destruct (N.leb_spec MAX_WALK_ENTRIES (taken_count (rows w))) as [Hge|Hlt].
  { split; [done|]. intros _. pose proof (tk_cap _ Ht). lia. }
  assert (∀ s vs, Forall (λ vb, P vb.1 vb.2) vs → match turn_page base w s vs with
    | Continue w' => taken_ok (rows w')
    | Stopped w' s => taken_ok (rows w') ∧ (s = EntryCapReached → taken_count (rows w') = MAX_WALK_ENTRIES) end) as Hturn.
  { intros s vs Hvs. pose proof (read_page_ok vs None (rows w) Hvs Ht Hlt) as Hp. unfold turn_page.
    destruct (read_page base vs None (rows w)) as [[t next] [[stop retry]|]]; destruct Hp as [Ht' Hcap].
    - destruct (retry && _); [done|]. split; [done|]. intros ->. by eapply Hcap.
    - destruct next as [parts|]; [|done]. destruct (_ =? _)%N; [|done]. by destruct (true && _). }
  destruct (use_bulk w).
  - destruct (walk_getbulk _ _ _) as [s [[[|vb vs]|]|desync]] eqn:E; [done|by eapply Hturn, Hb|done|].
    by destruct (desync && _).
  - destruct (walk_getnext _ _) as [s [[|vb vs]|desync]] eqn:E; [done|by eapply Hturn, Hn|].
    by destruct (desync && _).
Qed.

(** Every row a walk hands over is one the agent sent, below the base and with a value,
    each at most once and at most as many as the cap, which a walk reports when it is met. *)
Theorem walk_sound (s s' : T) (entries : list (oid * Value)) (stop : WalkStop) :
  honest → walk_subtree s base = (s', entries, stop) →
  NoDup entries.*1 ∧ (length entries ≤ N.to_nat MAX_WALK_ENTRIES)%nat
  ∧ (∀ suffix v, (suffix, v) ∈ entries → suffix ≠ [] ∧ is_end v = false ∧ P (base ++ suffix) v)
  ∧ (stop = EntryCapReached → length entries = N.to_nat MAX_WALK_ENTRIES).
Proof.
  intros Hh E. destruct (walk_returns s base) as (r & Hr & E'). rewrite E in E'. subst r.
  assert (taken_ok (rows (walk_start s base))) as Hok
    by (split; cbn; [done|vm_compute; done|constructor|by intros ? ? ?%elem_of_nil..]).
  revert Hr Hok. generalize walk_fuel as fuel, (walk_start s base) as w.
  induction fuel as [|fuel IH]; intros w; [done|]. cbn. intros Hr Hok.
  pose proof (walk_step_ok w Hh Hok) as Hs. destruct (walk_step base w) as [w'|w' x]; [by apply (IH w')|].
  injection Hr as <- <- <-. destruct Hs as [[Hc Hm Hn _ Hrows] Hcap]. split_and!; [done|lia|done|].
  intros Hx. specialize (Hcap Hx). lia.
Qed.
End Sound.

(** ** Reading a table in full *)

Section Table.
Context {T : Type} `{SnmpWalkTransport T} (base : oid).
(** The rows below the base in the order the agent has them, and what it answers after the last. *)
Context (table : list (oid * Value)) (beyond : oid * Value).

Definition varbind (r : oid * Value) : oid * Value := (base ++ r.1, r.2).
(** Where a walk asks from when it has read the rows [pre]. *)
Definition at_row (pre : list (oid * Value)) : oid :=
  match list.last pre with Some r => base ++ r.1 | None => base end.
Definition page_of (post : list (oid * Value)) (n : nat) : list (oid * Value) :=
  take (S n) ((varbind <$> post) ++ [beyond]).

(** An agent that answers bulk requests, with pages of any size, or only single ones. *)
Definition serves_bulk : Prop :=
  ∀ s pre post, table = pre ++ post →
    ∃ n s', walk_getbulk s (at_row pre) BULK_MAX_REPETITIONS = (s', Ok (Page (page_of post n))).
Definition serves_single : Prop :=
  ∀ s pre post, table = pre ++ post →
    (∃ s', walk_getbulk s (at_row pre) BULK_MAX_REPETITIONS = (s', Ok BulkUnsupported))
    ∧ ∃ s', walk_getnext s (at_row pre) = (s', Ok (page_of post 0)).

(** The rows are distinct, and what follows them is the end of the MIB or lies past them all. *)
Record table_ok : Prop := {
  tb_once : NoDup table.*1;
  tb_rows : ∀ s v, (s, v) ∈ table → s ≠ [] ∧ is_end v = false;
  tb_size : (length table < N.to_nat MAX_WALK_ENTRIES)%nat;
  tb_beyond : is_end beyond.2 = true
    ∨ suffix_of base beyond.1 = None ∧ oid_leb beyond.1 base = false
      ∧ ∀ s v, (s, v) ∈ table → oid_leb beyond.1 (base ++ s) = false
}.

Record read_rows (pre : list (oid * Value)) (t : Taken) : Prop := {
  rr_taken : taken t = pre;
  rr_count : taken_count t = N.of_nat (length pre);
  rr_seen : ∀ r, r ∈ seen t ↔ ∃ x, x ∈ pre ∧ r = base ++ x.1;
  rr_high : high_water t = base ∨ ∃ x, x ∈ pre ∧ high_water t = base ++ x.1
}.

Lemma take_row_reads pre s v t :
  s ∉ pre.*1 → read_rows pre t → read_rows (pre ++ [(s, v)]) (take_row (base ++ s) s v t).
Proof.
  intros Hn [Ht Hc Hs Hh]. unfold take_row. rewrite bool_decide_eq_false_2.
  2: { rewrite Hs. intros (x & Hx & E%app_inv_head). apply Hn. rewrite E. by apply list_elem_of_fmap_2. }
  split; cbn.
  - by rewrite Ht.
  - rewrite length_app, Hc. cbn. lia.
  - intros r. rewrite elem_of_union, elem_of_singleton, Hs. setoid_rewrite elem_of_app.
    setoid_rewrite list_elem_of_singleton. clear. naive_solver.
  - destruct (oid_leb _ _); [|right; exists (s, v); set_solver].
    destruct Hh as [?|(x & ? & ?)]; [by left|right; exists x; set_solver].
Qed.

Lemma read_page_reads pre post n next t :
  table_ok → table = pre ++ post → read_rows pre t →
  let '(t', next', ended) := read_page base (page_of post n) next t in
  if (S n <=? length post)%nat
  then read_rows (pre ++ take (S n) post) t' ∧ ended = None
       ∧ next' = Some (at_row (pre ++ take (S n) post))
  else read_rows table t' ∧ ∃ stop, ended = Some (stop, false) ∧ is_complete stop = true.
Proof.
  intros Hok. revert pre n next t. induction post as [|[s v] post IH]; intros pre n next t Et Hrr.
  - unfold page_of. cbn. rewrite firstn_nil. rewrite app_nil_r in Et. subst pre. destruct beyond as [bo bv] eqn:Eb.
    destruct (tb_beyond Hok) as [He|(Hs & Hb & Hr)]; rewrite Eb in *; cbn in *.
    + rewrite He. eauto.
    + destruct (is_end bv); [eauto|]. rewrite Hs.
      replace (oid_leb bo (high_water t)) with false; [eauto|]. symmetry.
      destruct (rr_high _ _ Hrr) as [->|([s v] & Hx & ->)]; [done|by eapply Hr].
  - destruct (tb_rows Hok s v) as [Hs Hv]; [rewrite Et; set_solver|].
    assert (s ∉ pre.*1) as Hn.
    { pose proof (tb_once Hok) as Hnd. rewrite Et, fmap_app in Hnd. apply list.NoDup_app in Hnd as (_ & Hd & _).
      intros Hin. apply (Hd s Hin). left. }
    unfold page_of. cbn. rewrite Hv.
    replace (suffix_of base (base ++ s)) with (Some s) by (symmetry; by apply suffix_of_Some).
    pose proof (take_row_reads pre s v t Hn Hrr) as Hrr'.
    assert (table = (pre ++ [(s, v)]) ++ post) as Et' by (by rewrite <- app_assoc).
    destruct (N.leb_spec MAX_WALK_ENTRIES (taken_count (take_row (base ++ s) s v t))) as [Hcap|_].
    { rewrite (rr_count _ _ Hrr') in Hcap. pose proof (tb_size Hok) as Hsz. rewrite Et', length_app in Hsz. lia. }
    destruct n as [|n].
    + cbn [Nat.leb length]. split; [done|]. split; [done|]. f_equal. symmetry. assert (at_row (pre ++ [(s, v)]) = base ++ s) as Ea by (unfold at_row; by rewrite list.last_snoc). exact Ea.
    + specialize (IH (pre ++ [(s, v)]) n (Some (base ++ s)) _ Et' Hrr'). unfold page_of in IH.
      destruct (read_page _ _ _ _) as [[t' next'] ended].
      change (S (S n) <=? length ((s, v) :: post))%nat with (S n <=? length post)%nat.
      destruct (S n <=? length post)%nat; [|done]. by rewrite <- app_assoc in IH.
Qed.

Record reading (pre post : list (oid * Value)) (w : WalkState T) : Prop := {
  rd_table : table = pre ++ post;
  rd_rows : read_rows pre (rows w);
  rd_cursor : cursor w = at_row pre;
  rd_agent : if use_bulk w then serves_bulk ∨ serves_single else serves_single
}.

Lemma turn_page_reads pre post w s n :
  table_ok → reading pre post w →
  match turn_page base w s (page_of post n) with
  | Continue w' => ∃ pre' post', reading pre' post' w'
  | Stopped w' x => taken (rows w') = table ∧ is_complete x = true
  end.
Proof.
  intros Hok [Et Hrr Hc Ha]. unfold turn_page.
  pose proof (read_page_reads pre post n None (rows w) Hok Et Hrr) as Hp.
  destruct (read_page _ _ _ _) as [[t next] ended]. destruct (Nat.leb_spec (S n) (length post)) as [Hle|_].
  - destruct Hp as (Hrr' & -> & ->). rewrite (rr_count _ _ Hrr), (rr_count _ _ Hrr').
    destruct (N.eqb_spec (N.of_nat (length (pre ++ take (S n) post))) (N.of_nat (length pre))) as [E|_].
    { rewrite length_app, length_take in E. lia. }
    exists (pre ++ take (S n) post), (drop (S n) post). split; cbn; [|done..].
    by rewrite <- app_assoc, take_drop.
  - destruct Hp as (Hrr' & stop & -> & Hcomp). cbn. split; [apply (rr_taken _ _ Hrr')|done].
Qed.

Lemma walk_step_reads pre post w :
  table_ok → reading pre post w →
  match walk_step base w with
  | Continue w' => ∃ pre' post', reading pre' post' w'
  | Stopped w' x => taken (rows w') = table ∧ is_complete x = true
  end.
Proof.
  intros Hok Hrd. pose proof Hrd as [Et Hrr Hc Ha]. unfold walk_step.
  destruct (N.leb_spec MAX_WALK_ENTRIES (taken_count (rows w))) as [Hcap|_].
  { rewrite (rr_count _ _ Hrr) in Hcap. pose proof (tb_size Hok) as Hsz. rewrite Et, length_app in Hsz. lia. }
  assert (∀ n, ∃ vb vs, page_of post n = vb :: vs) as Hpage by (intros n; unfold page_of; destruct post; cbn; eauto).
  rewrite Hc. destruct (use_bulk w) eqn:Hb; [destruct Ha as [Ha|Ha]|].
  - destruct (Ha (session w) pre post Et) as (n & s' & ->). destruct (Hpage n) as (vb & vs & E). rewrite E, <- E.
    by apply turn_page_reads with (pre := pre).
  - destruct (Ha (session w) pre post Et) as [(s' & ->) _]. exists pre, post. by split.
  - destruct (Ha (session w) pre post Et) as [_ (s' & ->)]. destruct (Hpage 0%nat) as (vb & vs & E). rewrite E, <- E.
    by apply turn_page_reads with (pre := pre).
Qed.

(** C36. A walk reads the whole of a table, in whatever order the agent serves it and with pages
    of whatever size, and reports it as complete. *)
Theorem walk_reads_table (s : T) :
  table_ok → serves_bulk ∨ serves_single →
  ∃ s' stop, walk_subtree s base = (s', table, stop) ∧ is_complete stop = true.
Proof.
  intros Hok Ha. destruct (walk_returns s base) as ([[s' e] stop] & Hr & ->). exists s', stop.
  enough (e = table ∧ is_complete stop = true) as [-> ?] by done.
  assert (∃ pre post, reading pre post (walk_start s base)) as Hrd.
  { exists [], table. split; cbn; [done| |done|done]. split; cbn; [done|done| |by left]. intros r. split; [set_solver|].
    intros (? & E & _). by apply elem_of_nil in E. }
  revert Hr Hrd. generalize walk_fuel as fuel, (walk_start s base) as w.
  induction fuel as [|fuel IH]; intros w; [done|]. cbn. intros Hr (pre & post & Hrd).
  pose proof (walk_step_reads pre post w Hok Hrd) as Hs. destruct (walk_step base w) as [w'|w' x]; [by apply (IH w')|].
  by injection Hr as <- <- <-.
Qed.
End Table.

(** ** Samples *)

(** An agent with an unsorted table, in pages of two. *)
Definition sample_base : oid := [1; 3; 6].
Definition sample_table : list (oid * Value) := [([3], VInteger 3); ([1], VInteger 1); ([2], VInteger 2)].
Definition sample_beyond : oid * Value := ([1; 3; 7], VNull).
Fixpoint rows_after (from : oid) (l : list (oid * Value)) : list (oid * Value) :=
  match l with
  | [] => []
  | r :: l' => if bool_decide (from = r.1) then l' else rows_after from l'
  end.
Definition sample_rest (from : oid) : list (oid * Value) :=
  let all := (varbind sample_base <$> sample_table) ++ [sample_beyond] in
  if bool_decide (from = sample_base) then all else rows_after from all.
Definition sample_agent : SnmpWalkTransport unit := {|
  walk_getbulk s from n := (s, Ok (Page (take 2 (sample_rest from))));
  walk_getnext s from := (s, Ok (take 1 (sample_rest from))) |}.

Lemma walk_reads_table_witness :
  ∃ s' stop, @walk_subtree _ sample_agent tt sample_base = (s', sample_table, stop) ∧ is_complete stop = true.
Proof.
  apply (@walk_reads_table _ sample_agent sample_base sample_table sample_beyond tt).
  - split.
    + apply (bool_decide_unpack _). by vm_compute.
    + intros s v Hin. unfold sample_table in Hin. rewrite !elem_of_cons, elem_of_nil in Hin. naive_solver.
    + vm_compute. lia.
    + right. split; [reflexivity|]. split; [reflexivity|]. intros s v Hin. unfold sample_table in Hin.
      rewrite !elem_of_cons, elem_of_nil in Hin. naive_solver.
  - left. intros s pre post E. unfold sample_table in E.
    destruct pre as [|r1 [|r2 [|r3 [|r4 pre]]]]; cbn in E; simplify_eq; exists 1%nat, s; reflexivity.
Defined.

Lemma walk_sound_witness :
  NoDup ((@walk_subtree _ sample_agent tt sample_base).1.2).*1.
Proof.
  destruct (@walk_subtree _ sample_agent tt sample_base) as [[s' e] stop] eqn:E.
  eapply (@walk_sound _ sample_agent sample_base (λ _ _, True) tt s' e stop); [|exact E].
  split; intros; by apply Forall_true.
Defined.
