(* ===== verification/SnmpQueries.v ===== *)
(** The tables an SNMP collection reads
    ([daemon/discovery/integration/snmp/{types,oids,queries}.rs]): each query walks its
    columns on one session, folds the rows it is handed into records and says whether it
    saw all of them.  A [HashMap] is a finite map iterated in some order; text is the
    octets of its encoding. *)

From S2P Require Import Prelude Net Entities Lldp Hosts Interfaces Topology Credentials Warnings SnmpWalk.
Local Open Scope Z_scope.

(** ** Object identifiers ([oids.rs]) *)

Module Oids.
Definition SYS_DESCR : string := "1.3.6.1.2.1.1.1.0".
Definition SYS_OBJECT_ID : string := "1.3.6.1.2.1.1.2.0".
Definition SYS_UPTIME : string := "1.3.6.1.2.1.1.3.0".
Definition SYS_CONTACT : string := "1.3.6.1.2.1.1.4.0".
Definition SYS_NAME : string := "1.3.6.1.2.1.1.5.0".
Definition SYS_LOCATION : string := "1.3.6.1.2.1.1.6.0".
Definition IF_INDEX : string := "1.3.6.1.2.1.2.2.1.1".
Definition IF_DESCR : string := "1.3.6.1.2.1.2.2.1.2".
Definition IF_TYPE : string := "1.3.6.1.2.1.2.2.1.3".
Definition IF_MTU : string := "1.3.6.1.2.1.2.2.1.4".
Definition IF_SPEED : string := "1.3.6.1.2.1.2.2.1.5".
Definition IF_PHYS_ADDRESS : string := "1.3.6.1.2.1.2.2.1.6".
Definition IF_ADMIN_STATUS : string := "1.3.6.1.2.1.2.2.1.7".
Definition IF_OPER_STATUS : string := "1.3.6.1.2.1.2.2.1.8".
Definition IF_NAME : string := "1.3.6.1.2.1.31.1.1.1.1".
Definition IF_HIGH_SPEED : string := "1.3.6.1.2.1.31.1.1.1.15".
Definition IF_ALIAS : string := "1.3.6.1.2.1.31.1.1.1.18".
Definition IP_AD_ENT_IF_INDEX : string := "1.3.6.1.2.1.4.20.1.2".
Definition IP_AD_ENT_NET_MASK : string := "1.3.6.1.2.1.4.20.1.3".
Definition LLDP_LOC_CHASSIS_ID_SUBTYPE : string := "1.0.8802.1.1.2.1.3.1.0".
Definition LLDP_LOC_CHASSIS_ID : string := "1.0.8802.1.1.2.1.3.2.0".
Definition LLDP_LOC_PORT_ID_SUBTYPE : string := "1.0.8802.1.1.2.1.3.7.1.2".
Definition LLDP_LOC_PORT_ID : string := "1.0.8802.1.1.2.1.3.7.1.3".
Definition LLDP_LOC_PORT_DESC : string := "1.0.8802.1.1.2.1.3.7.1.4".
Definition LLDP_REM_CHASSIS_ID_SUBTYPE : string := "1.0.8802.1.1.2.1.4.1.1.4".
Definition LLDP_REM_CHASSIS_ID : string := "1.0.8802.1.1.2.1.4.1.1.5".
Definition LLDP_REM_PORT_ID_SUBTYPE : string := "1.0.8802.1.1.2.1.4.1.1.6".
Definition LLDP_REM_PORT_ID : string := "1.0.8802.1.1.2.1.4.1.1.7".
Definition LLDP_REM_PORT_DESC : string := "1.0.8802.1.1.2.1.4.1.1.8".
Definition LLDP_REM_SYS_NAME : string := "1.0.8802.1.1.2.1.4.1.1.9".
Definition LLDP_REM_SYS_DESC : string := "1.0.8802.1.1.2.1.4.1.1.10".
Definition LLDP_REM_MAN_ADDR_IF_SUBTYPE : string := "1.0.8802.1.1.2.1.4.2.1.3".
Definition CDP_CACHE_ADDRESS : string := "1.3.6.1.4.1.9.9.23.1.2.1.1.4".
Definition CDP_CACHE_DEVICE_ID : string := "1.3.6.1.4.1.9.9.23.1.2.1.1.6".
Definition CDP_CACHE_DEVICE_PORT : string := "1.3.6.1.4.1.9.9.23.1.2.1.1.7".
Definition CDP_CACHE_PLATFORM : string := "1.3.6.1.4.1.9.9.23.1.2.1.1.8".
Definition ENT_PHYSICAL_DESCR : string := "1.3.6.1.2.1.47.1.1.1.1.2".
Definition ENT_PHYSICAL_CLASS : string := "1.3.6.1.2.1.47.1.1.1.1.5".
Definition ENT_PHYSICAL_NAME : string := "1.3.6.1.2.1.47.1.1.1.1.7".
Definition ENT_PHYSICAL_SERIAL_NUM : string := "1.3.6.1.2.1.47.1.1.1.1.11".
Definition ENT_PHYSICAL_MFG_NAME : string := "1.3.6.1.2.1.47.1.1.1.1.12".
Definition ENT_PHYSICAL_MODEL_NAME : string := "1.3.6.1.2.1.47.1.1.1.1.13".
Definition IP_NET_TO_MEDIA_IF_INDEX : string := "1.3.6.1.2.1.4.22.1.1".
Definition IP_NET_TO_MEDIA_PHYS_ADDRESS : string := "1.3.6.1.2.1.4.22.1.2".
Definition IP_NET_TO_MEDIA_NET_ADDRESS : string := "1.3.6.1.2.1.4.22.1.3".
Definition IP_NET_TO_MEDIA_TYPE : string := "1.3.6.1.2.1.4.22.1.4".
Definition DOT1D_BASE_PORT_IF_INDEX : string := "1.3.6.1.2.1.17.1.4.1.2".
Definition DOT1D_TP_FDB_ADDRESS : string := "1.3.6.1.2.1.17.4.3.1.1".
Definition DOT1D_TP_FDB_PORT : string := "1.3.6.1.2.1.17.4.3.1.2".
Definition DOT1D_TP_FDB_STATUS : string := "1.3.6.1.2.1.17.4.3.1.3".
Definition DOT1Q_TP_FDB_PORT : string := "1.3.6.1.2.1.17.7.1.2.2.1.2".
Definition DOT1Q_TP_FDB_STATUS : string := "1.3.6.1.2.1.17.7.1.2.2.1.3".
Definition DOT1Q_VLAN_STATIC_NAME : string := "1.3.6.1.2.1.17.7.1.4.3.1.1".
Definition DOT1Q_PVID : string := "1.3.6.1.2.1.17.7.1.4.5.1.1".
Definition DOT1Q_VLAN_CURRENT_EGRESS_PORTS : string := "1.3.6.1.2.1.17.7.1.4.2.1.4".
Definition DOT1Q_VLAN_CURRENT_UNTAGGED_PORTS : string := "1.3.6.1.2.1.17.7.1.4.2.1.5".
Definition VTP_VLAN_NAME : string := "1.3.6.1.4.1.9.9.46.1.3.1.1.4".
End Oids.

(** ** What a query managed *)

Record Shortfall := { sf_complete : bool; sf_reason : option ShortfallReason }.
Definition no_shortfall : Shortfall := {| sf_complete := true; sf_reason := None |}.

(** [Shortfall::record]: the first reason stays. *)
Definition record (stop : WalkStop) (f : Shortfall) : Shortfall :=
  if is_complete stop then f
  else {| sf_complete := false;
          sf_reason := match sf_reason f with None => stop_reason stop | r => r end |}.

(** ** Rows ([types.rs]) *)

Record SystemInfo := {
  si_descr : option bytes; si_object_id : option bytes; si_name : option bytes;
  si_location : option bytes; si_contact : option bytes; si_uptime : option Z
}.
Record IfTableEntry := {
  ie_if_index : Z; ie_if_descr : option bytes; ie_if_type : option Z; ie_if_mtu : option Z;
  ie_if_speed : option Z; ie_if_phys_address : option MacAddress; ie_if_admin_status : option Z;
  ie_if_oper_status : option Z; ie_if_name : option bytes; ie_if_alias : option bytes
}.
Record LldpNeighbor := {
  ln_local_port_index : Z; remote_chassis_id_subtype : option Z; remote_chassis_id_bytes : option bytes;
  remote_port_id_subtype : option Z; remote_port_id_bytes : option bytes; remote_port_desc : option bytes;
  remote_sys_name : option bytes; remote_sys_desc : option bytes; remote_mgmt_addr : option IpAddr
}.
Record LldpLocalPort := {
  port_id_subtype : option Z; port_id : option bytes; port_id_mac : option MacAddress; port_desc : option bytes
}.
Record IpAddrEntry := { ae_if_index : Z; ae_net_mask : option IpAddr }.
Record ArpEntry := { arp_if_index : Z; arp_mac : MacAddress; arp_ip : IpAddr }.
Record DeviceInventory := {
  di_description : option bytes; di_manufacturer : option bytes; di_model : option bytes; di_serial : option bytes
}.
Record BridgeFdbEntry := { fdb_mac : MacAddress; fdb_bridge_port : Z; fdb_if_index : option Z; fdb_status : Z }.
Record LldpLocalInfo := { chassis_id_subtype : Z; chassis_id_bytes : bytes }.
Record CdpNeighbor := {
  cn_local_port_index : Z; remote_device_id : option bytes; remote_port_id : option bytes;
  remote_platform : option bytes; remote_address : option IpAddr
}.
Record VlanInfo := { vi_vlan_id : Z; vi_name : bytes }.
Record PortVlanMembership := { pv_if_index : Z; pv_native_vlan : option Z; pv_tagged_vlans : list Z }.

(** ** Collections *)

Record SnmpCollection (R : Type) := {
  records : R;
  complete : bool;
  unsupported : bool;
  reason : option ShortfallReason;
  discarded : nat;
  discard_reason : option MalformedNeighbourReason
}.
Arguments records {R}. Arguments complete {R}. Arguments unsupported {R}.
Arguments reason {R}. Arguments discarded {R}. Arguments discard_reason {R}.

Definition skipped {R} (nothing : R) : SnmpCollection R := {|
  records := nothing; complete := true; unsupported := false; reason := None;
  discarded := 0; discard_reason := None |}.
Definition from_walk {R} (rs : R) (f : Shortfall) : SnmpCollection R := {|
  records := rs; complete := sf_complete f; unsupported := false; reason := sf_reason f;
  discarded := 0; discard_reason := None |}.
Definition collection_default {R} (nothing : R) : SnmpCollection R := {|
  records := nothing; complete := false; unsupported := false; reason := Some NoAnswer;
  discarded := 0; discard_reason := None |}.

(** [v as u8], and the last sub-identifier of an index. *)
Definition as_u8 (n : Z) : Z := wrap 8 n.
Definition as_u16 (n : Z) : Z := wrap 16 n.

(** [entry(key).or_insert(new)], then a change of the entry. *)
Definition upsert {K V} `{Countable K} (k : K) (new : V) (f : V → V) (m : gmap K V) : gmap K V :=
  <[k := f (default new (m !! k))]> m.

(** The dotted text of an index, the key of some tables. *)
Definition dotted (suffix : oid) : bytes := join_with 46 (int_text <$> suffix).

(** A field a column writes. *)
Definition on {C X} `{EqDecision C} (c column : C) (new old : X) : X := if bool_decide (c = column) then new else old.

(** ** Walking columns *)

Section Columns.
Context {T : Type} `{SnmpWalkTransport T}.

Definition walk_column {A} (on_entry : oid → Value → A → A) (base : string) (t : T) (f : Shortfall) (a : A)
    : T * Shortfall * A * WalkStop :=
  let '(t', entries, stop) := walk_subtree t (base_parts base) in
  (t', record stop f, foldl (λ a e, on_entry e.1 e.2 a) a entries, stop).

(** The loop over the columns of a table; the stops are kept for the queries that look
    at them. *)
Fixpoint walk_columns {C A} (on_entry : C → oid → Value → A → A) (columns : list (string * C))
    (t : T) (f : Shortfall) (a : A) : T * Shortfall * A * list (C * WalkStop) :=
  match columns with
  | [] => (t, f, a, [])
  | (base, c) :: columns' =>
      let '(t1, f1, a1, stop) := walk_column (on_entry c) base t f a in
      let '(t2, f2, a2, stops) := walk_columns on_entry columns' t1 f1 a1 in
      (t2, f2, a2, (c, stop) :: stops)
  end.
End Columns.

(** ** Interfaces ([walk_if_table]) *)

Inductive IfColumn :=
| IfIndex | IfDescr | IfType | IfMtu | IfSpeed | IfPhysAddress | IfAdmin | IfOper | IfName | IfHighSpeed | IfAlias.

#[export] Instance IfColumn_eq_dec : EqDecision IfColumn.
Proof. solve_decision. Defined.

Definition if_attribute_columns : list (string * IfColumn) :=
  [(Oids.IF_DESCR, IfDescr); (Oids.IF_TYPE, IfType); (Oids.IF_MTU, IfMtu); (Oids.IF_SPEED, IfSpeed);
   (Oids.IF_PHYS_ADDRESS, IfPhysAddress); (Oids.IF_ADMIN_STATUS, IfAdmin); (Oids.IF_OPER_STATUS, IfOper);
   (Oids.IF_NAME, IfName); (Oids.IF_HIGH_SPEED, IfHighSpeed); (Oids.IF_ALIAS, IfAlias)].
Definition if_columns : list (string * IfColumn) := (Oids.IF_INDEX, IfIndex) :: if_attribute_columns.

Definition empty_if_entry (i : Z) : IfTableEntry := {|
  ie_if_index := i; ie_if_descr := None; ie_if_type := None; ie_if_mtu := None; ie_if_speed := None;
  ie_if_phys_address := None; ie_if_admin_status := None; ie_if_oper_status := None; ie_if_name := None;
  ie_if_alias := None |}.

(** The speed: [ifSpeed] where nothing is known yet, [ifHighSpeed] times a million, which
    wraps at 64 bits as a release build does. *)
Definition if_speed_of (c : IfColumn) (v : Value) (old : option Z) : option Z :=
  match c with
  | IfSpeed => match old with None => value_to_u64 v | s => s end
  | IfHighSpeed => match value_to_u64 v with Some mbps => Some (wrap 64 (mbps * 1000000)) | None => old end
  | _ => old
  end.

Definition set_if_column (c : IfColumn) (v : Value) (e : IfTableEntry) : IfTableEntry := {|
  ie_if_index := ie_if_index e;
  ie_if_descr := on c IfDescr (value_to_string v) (ie_if_descr e);
  ie_if_type := on c IfType (value_to_i32 v) (ie_if_type e);
  ie_if_mtu := on c IfMtu (value_to_i32 v) (ie_if_mtu e);
  ie_if_speed := if_speed_of c v (ie_if_speed e);
  ie_if_phys_address := on c IfPhysAddress (value_to_mac v) (ie_if_phys_address e);
  ie_if_admin_status := on c IfAdmin (value_to_i32 v) (ie_if_admin_status e);
  ie_if_oper_status := on c IfOper (value_to_i32 v) (ie_if_oper_status e);
  ie_if_name := on c IfName (value_to_string v) (ie_if_name e);
  ie_if_alias := on c IfAlias (value_to_string v) (ie_if_alias e) |}.

(** What one column leaves: the entries, the indexes it named, and the rows of
    interfaces the index column never listed. *)
Record IfAcc := { if_rows : gmap Z IfTableEntry; column_indexes : gset Z; column_foreign : nat }.

Definition if_entry_row (known : option (gset Z)) (c : IfColumn) (suffix : oid) (v : Value) (a : IfAcc) : IfAcc :=
  match list.last suffix with
  | None => a
  | Some x =>
      let i := as_i32 x in
      let seen := {[i]} ∪ column_indexes a in
      if match known with Some k => negb (bool_decide (i ∈ k)) | None => false end
      then {| if_rows := if_rows a; column_indexes := seen; column_foreign := S (column_foreign a) |}
      else {| if_rows := upsert i (empty_if_entry i) (set_if_column c v) (if_rows a);
              column_indexes := seen; column_foreign := column_foreign a |}
  end.

Record IfTableWalk := { it_entries : list IfTableEntry; it_set_complete : bool; it_attributes_complete : bool }.
Definition if_walk_default : IfTableWalk :=
  {| it_entries := []; it_set_complete := false; it_attributes_complete := false |}.

(** The variables of the loop. *)
Record IfLoop := {
  il_rows : gmap Z IfTableEntry;
  il_complete : bool;
  index_column_complete : option bool;
  known_if_indexes : option (gset Z);
  foreign_rows : nat
}.

Section IfTable.
Context {T : Type} `{SnmpWalkTransport T}.

(** One turn: a column cut short or answering for a foreign interface spoils the
    attributes; the index column also says which interfaces there are. *)
Definition if_column_step (base : string) (c : IfColumn) (t : T) (s : IfLoop) : T * IfLoop :=
  let '(t', entries, stop) := walk_subtree t (base_parts base) in
  let a := foldl (λ a e, if_entry_row (known_if_indexes s) c e.1 e.2 a)
             {| if_rows := il_rows s; column_indexes := ∅; column_foreign := 0 |} entries in
  let walked := is_complete stop in
  (t', {| il_rows := if_rows a;
          il_complete := il_complete s && walked && (column_foreign a =? 0)%nat;
          index_column_complete := on c IfIndex (Some walked) (index_column_complete s);
          known_if_indexes :=
            if bool_decide (c = IfIndex) && negb (bool_decide (column_indexes a = ∅))
            then Some (column_indexes a) else known_if_indexes s;
          foreign_rows := foreign_rows s + column_foreign a |}).

Fixpoint if_columns_loop (columns : list (string * IfColumn)) (t : T) (s : IfLoop) : T * IfLoop :=
  match columns with
  | [] => (t, s)
  | (base, c) :: columns' => let '(t', s') := if_column_step base c t s in if_columns_loop columns' t' s'
  end.

Definition if_loop_start : IfLoop := {|
  il_rows := ∅; il_complete := true; index_column_complete := None; known_if_indexes := None; foreign_rows := 0 |}.

Definition if_entry_leb (a b : IfTableEntry) : bool := ie_if_index a <=? ie_if_index b.

Definition if_table_result `{MapOrder} (s : IfLoop) : IfTableWalk := {|
  it_entries := sort_by if_entry_leb (map_iter (il_rows s)).*2;
  it_set_complete := match index_column_complete s with
                  | Some true => (foreign_rows s =? 0)%nat
                  | Some false => false
                  | None => il_complete s
                  end;
  it_attributes_complete := il_complete s |}.

Definition walk_if_table `{MapOrder} (t : T) : T * IfTableWalk :=
  let '(t', s) := if_columns_loop if_columns t if_loop_start in (t', if_table_result s).
End IfTable.

(** ** LLDP neighbours ([query_lldp_neighbors]) *)

Inductive LldpColumn :=
| RemChassisIdSubtype | RemChassisId | RemPortIdSubtype | RemPortId | RemPortDesc | RemSysName | RemSysDesc.

#[export] Instance LldpColumn_eq_dec : EqDecision LldpColumn.
Proof. solve_decision. Defined.

Definition lldp_columns : list (string * LldpColumn) :=
  [(Oids.LLDP_REM_CHASSIS_ID_SUBTYPE, RemChassisIdSubtype); (Oids.LLDP_REM_CHASSIS_ID, RemChassisId);
   (Oids.LLDP_REM_PORT_ID_SUBTYPE, RemPortIdSubtype); (Oids.LLDP_REM_PORT_ID, RemPortId);
   (Oids.LLDP_REM_PORT_DESC, RemPortDesc); (Oids.LLDP_REM_SYS_NAME, RemSysName);
   (Oids.LLDP_REM_SYS_DESC, RemSysDesc)].

Definition empty_neighbor (port : Z) : LldpNeighbor := {|
  ln_local_port_index := port; remote_chassis_id_subtype := None; remote_chassis_id_bytes := None;
  remote_port_id_subtype := None; remote_port_id_bytes := None; remote_port_desc := None;
  remote_sys_name := None; remote_sys_desc := None; remote_mgmt_addr := None |}.

Definition octets_of (v : Value) : option bytes := match v with VOctetString b => Some b | _ => None end.

(** A chassis column and the port identifier keep what they had when the value is of
    the wrong type; the others take what the value reads as. *)
Definition keep {X} (new old : option X) : option X := match new with Some x => Some x | None => old end.

Definition set_lldp_column (c : LldpColumn) (v : Value) (n : LldpNeighbor) : LldpNeighbor := {|
  ln_local_port_index := ln_local_port_index n;
  remote_chassis_id_subtype :=
    on c RemChassisIdSubtype (keep (as_u8 <$> value_to_i32 v) (remote_chassis_id_subtype n)) (remote_chassis_id_subtype n);
  remote_chassis_id_bytes :=
    on c RemChassisId (keep (octets_of v) (remote_chassis_id_bytes n)) (remote_chassis_id_bytes n);
  remote_port_id_subtype := on c RemPortIdSubtype (as_u8 <$> value_to_i32 v) (remote_port_id_subtype n);
  remote_port_id_bytes := on c RemPortId (keep (octets_of v) (remote_port_id_bytes n)) (remote_port_id_bytes n);
  remote_port_desc := on c RemPortDesc (value_to_string v) (remote_port_desc n);
  remote_sys_name := on c RemSysName (value_to_string v) (remote_sys_name n);
  remote_sys_desc := on c RemSysDesc (value_to_string v) (remote_sys_desc n);
  remote_mgmt_addr := remote_mgmt_addr n |}.

Definition is_chassis (c : LldpColumn) : bool :=
  match c with RemChassisIdSubtype | RemChassisId => true | _ => false end.

(** A value of a chassis column that is not of its type. *)
Definition wrong_type (c : LldpColumn) (v : Value) : bool :=
  match c with
  | RemChassisIdSubtype => bool_decide (value_to_i32 v = None)
  | RemChassisId => bool_decide (octets_of v = None)
  | _ => false
  end.

Abbreviation NeighborKey := (Z * Z)%type (only parsing).

Record LldpAcc := {
  lldp_rows : gmap NeighborKey LldpNeighbor;
  chassis_keys : gset NeighborKey;
  unexpected_type : option string;
  short_index : nat
}.

(** The local port and the remote index are the last two sub-identifiers. *)
Definition neighbor_key (suffix : oid) : option NeighborKey :=
  match reverse suffix with
  | rem :: port :: _ => Some (as_i32 port, as_i32 rem)
  | _ => None
  end.

Definition lldp_row (c : LldpColumn) (suffix : oid) (v : Value) (a : LldpAcc) : LldpAcc :=
  match neighbor_key suffix with
  | None => {| lldp_rows := lldp_rows a; chassis_keys := chassis_keys a;
               unexpected_type := unexpected_type a; short_index := S (short_index a) |}
  | Some k =>
      {| lldp_rows := upsert k (empty_neighbor k.1) (set_lldp_column c v) (lldp_rows a);
         chassis_keys := if is_chassis c then {[k]} ∪ chassis_keys a else chassis_keys a;
         unexpected_type :=
           if wrong_type c v then keep (unexpected_type a) (Some (value_type_name v)) else unexpected_type a;
         short_index := short_index a |}
  end.

(** [split_lldp_man_addr_index] for one length of the key. *)
Definition split_at_prefix (suffix : oid) (prefix : nat) : option (Z * Z * bytes) :=
  match drop (prefix - 2) suffix with
  | port :: rem :: family :: addr_len :: addr =>
      if (addr_len =? 0) || negb (Z.of_nat (length addr) =? addr_len) then None
      else Some (as_i32 port, as_i32 rem, as_u8 family :: (as_u8 <$> addr))
  | _ => None
  end.
Definition split_lldp_man_addr_index (suffix : oid) : option (Z * Z * bytes) :=
  match split_at_prefix suffix 3 with
  | Some r => Some r
  | None => split_at_prefix suffix 2
  end.

Definition set_mgmt_addr (a : IpAddr) (n : LldpNeighbor) : LldpNeighbor := {|
  ln_local_port_index := ln_local_port_index n; remote_chassis_id_subtype := remote_chassis_id_subtype n;
  remote_chassis_id_bytes := remote_chassis_id_bytes n; remote_port_id_subtype := remote_port_id_subtype n;
  remote_port_id_bytes := remote_port_id_bytes n; remote_port_desc := remote_port_desc n;
  remote_sys_name := remote_sys_name n; remote_sys_desc := remote_sys_desc n; remote_mgmt_addr := Some a |}.

Definition mgmt_row (suffix : oid) (_ : Value) (m : gmap NeighborKey LldpNeighbor) : gmap NeighborKey LldpNeighbor :=
  match split_lldp_man_addr_index suffix with
  | Some (port, rem, buf) =>
      match parse_lldp_mgmt_addr buf with
      | Some addr => alter (set_mgmt_addr addr) (port, rem) m
      | None => m
      end
  | None => m
  end.

(** [dominant_discard_reason]: a cut read outranks the counts, then the largest count,
    the first of a tie. *)
Definition larger (best next : nat * MalformedNeighbourReason) : nat * MalformedNeighbourReason :=
  if (best.1 <? next.1)%nat then next else best.
Definition dominant_discard_reason (ghost_rows missing_chassis short : nat) (wrong cut_short : bool)
    : option MalformedNeighbourReason :=
  if (ghost_rows + missing_chassis + short =? 0)%nat then None
  else if cut_short then Some WalkCutShort
  else
    let missing_reason := if wrong then UnexpectedType else IncompleteRecords in
    match List.filter (λ e, (0 <? e.1)%nat)
            [(missing_chassis, missing_reason); (ghost_rows, GhostRows); (short, UnreadableIndex)] with
    | [] => None
    | best :: rest => Some (foldl larger best rest).2
    end.

Definition has_chassis (n : LldpNeighbor) : bool :=
  bool_decide (is_Some (remote_chassis_id_subtype n)) && bool_decide (is_Some (remote_chassis_id_bytes n)).

(** The filter at the end: what is kept, what no chassis column listed, and what one
    listed and left without an identifier. *)
Definition kept_neighbors (l : list (NeighborKey * LldpNeighbor)) : list LldpNeighbor :=
  (List.filter (λ e, has_chassis e.2) l).*2.
Definition count_lost (listed : bool) (keys : gset NeighborKey) (l : list (NeighborKey * LldpNeighbor)) : nat :=
  length (List.filter (λ e, negb (has_chassis e.2) && Bool.eqb (bool_decide (e.1 ∈ keys)) listed) l).

Definition lldp_result (f : Shortfall) (a : LldpAcc) (rows : list (NeighborKey * LldpNeighbor))
    (stops : list (LldpColumn * WalkStop)) : SnmpCollection (list LldpNeighbor) :=
  let result := kept_neighbors rows in
  let lost := (length rows - length result + short_index a)%nat in
  let cut := existsb (λ s, is_chassis s.1 && negb (is_complete s.2)) stops in
  {| records := result;
     complete := sf_complete f && (lost =? 0)%nat;
     unsupported := forallb (λ s, is_unsupported s.2) stops && bool_decide (result = []);
     reason := sf_reason f;
     discarded := lost;
     discard_reason := dominant_discard_reason (count_lost false (chassis_keys a) rows)
                         (count_lost true (chassis_keys a) rows) (short_index a)
                         (bool_decide (is_Some (unexpected_type a))) cut |}.

Definition lldp_acc_empty : LldpAcc :=
  {| lldp_rows := ∅; chassis_keys := ∅; unexpected_type := None; short_index := 0 |}.

Section Lldp.
Context {T : Type} `{SnmpWalkTransport T, MapOrder}.

Definition query_lldp_neighbors (t : T) : T * SnmpCollection (list LldpNeighbor) :=
  let '(t1, f, a, stops) := walk_columns lldp_row lldp_columns t no_shortfall lldp_acc_empty in
  let '(t2, _, m, _) := walk_column mgmt_row Oids.LLDP_REM_MAN_ADDR_IF_SUBTYPE t1 no_shortfall (lldp_rows a) in
  (t2, lldp_result f a (map_iter m) stops).
End Lldp.

(** ** Local ports of LLDP ([query_lldp_local_ports]) *)

Inductive LocPortColumn := LocSubtype | LocId | LocDesc.

#[export] Instance LocPortColumn_eq_dec : EqDecision LocPortColumn.
Proof. solve_decision. Defined.

Definition loc_port_columns : list (string * LocPortColumn) :=
  [(Oids.LLDP_LOC_PORT_ID_SUBTYPE, LocSubtype); (Oids.LLDP_LOC_PORT_ID, LocId); (Oids.LLDP_LOC_PORT_DESC, LocDesc)].

Definition local_port_default : LldpLocalPort :=
  {| port_id_subtype := None; port_id := None; port_id_mac := None; port_desc := None |}.

Section LocalPorts.
(** [str::parse::<mac_address::MacAddress>]. *)
Context (parse_mac : bytes → option bytes).

Definition mac_of_value (v : Value) : option MacAddress :=
  match value_to_mac v with
  | Some m => Some m
  | None => s ← value_to_string v; m ← canonical_mac parse_mac s; be_value 0 <$> parse_mac m
  end.

Definition set_loc_port_column (c : LocPortColumn) (v : Value) (p : LldpLocalPort) : LldpLocalPort := {|
  port_id_subtype := on c LocSubtype (as_u8 <$> value_to_i32 v) (port_id_subtype p);
  port_id := on c LocId (value_to_string v) (port_id p);
  port_id_mac := on c LocId (mac_of_value v) (port_id_mac p);
  port_desc := on c LocDesc (value_to_string v) (port_desc p) |}.

Definition loc_port_row (c : LocPortColumn) (suffix : oid) (v : Value) (m : gmap Z LldpLocalPort) : gmap Z LldpLocalPort :=
  match suffix with
  | [] => m
  | n :: _ => upsert (as_i32 n) local_port_default (set_loc_port_column c v) m
  end.

Definition query_lldp_local_ports {T} `{SnmpWalkTransport T} (t : T) : T * SnmpCollection (gmap Z LldpLocalPort) :=
  let '(t', f, m, _) := walk_columns loc_port_row loc_port_columns t no_shortfall ∅ in
  (t', from_walk m f).
End LocalPorts.

(** ** Addresses ([query_ip_addr_table]) *)

Definition address_of_index (suffix : oid) : option IpAddr :=
  match suffix with
  | [a; b; c; d] => Some (ipv4 (as_u8 a) (as_u8 b) (as_u8 c) (as_u8 d))
  | _ => None
  end.

(** A row whose index and value both read. *)
Definition put_row {K V} `{Countable K} (key : oid → option K) (val : Value → option V)
    (suffix : oid) (v : Value) (m : gmap K V) : gmap K V :=
  match key suffix, val v with Some k, Some x => <[k := x]> m | _, _ => m end.

Definition ip_addr_records (indexes : gmap IpAddr Z) (masks : gmap IpAddr IpAddr) : gmap IpAddr IpAddrEntry :=
  map_imap (λ addr i, Some {| ae_if_index := i; ae_net_mask := masks !! addr |}) indexes.

Definition query_ip_addr_table {T} `{SnmpWalkTransport T} (t : T) : T * SnmpCollection (gmap IpAddr IpAddrEntry) :=
  let '(t1, f1, indexes, _) :=
    walk_column (put_row address_of_index value_to_i32) Oids.IP_AD_ENT_IF_INDEX t no_shortfall ∅ in
  let '(t2, f2, masks, _) :=
    walk_column (put_row address_of_index value_to_ip) Oids.IP_AD_ENT_NET_MASK t1 f1 ∅ in
  (t2, from_walk (ip_addr_records indexes masks) f2).

(** ** CDP neighbours ([query_cdp_neighbors]) *)

Inductive CdpColumn := CdpDeviceId | CdpDevicePort | CdpPlatform | CdpAddress.

#[export] Instance CdpColumn_eq_dec : EqDecision CdpColumn.
Proof. solve_decision. Defined.

Definition cdp_columns : list (string * CdpColumn) :=
  [(Oids.CDP_CACHE_DEVICE_ID, CdpDeviceId); (Oids.CDP_CACHE_DEVICE_PORT, CdpDevicePort);
   (Oids.CDP_CACHE_PLATFORM, CdpPlatform); (Oids.CDP_CACHE_ADDRESS, CdpAddress)].

Definition empty_cdp (i : Z) : CdpNeighbor := {|
  cn_local_port_index := i; remote_device_id := None; remote_port_id := None; remote_platform := None;
  remote_address := None |}.

Definition cdp_address_of (v : Value) : option IpAddr :=
  match v with
  | VOctetString b => if (length b =? 4)%nat then Some (V4 (be_value 0 b)) else None
  | _ => None
  end.

Definition set_cdp_column (c : CdpColumn) (v : Value) (n : CdpNeighbor) : CdpNeighbor := {|
  cn_local_port_index := cn_local_port_index n;
  remote_device_id := on c CdpDeviceId (value_to_string v) (remote_device_id n);
  remote_port_id := on c CdpDevicePort (value_to_string v) (remote_port_id n);
  remote_platform := on c CdpPlatform (value_to_string v) (remote_platform n);
  remote_address := on c CdpAddress (keep (cdp_address_of v) (remote_address n)) (remote_address n) |}.

Definition cdp_row (c : CdpColumn) (suffix : oid) (v : Value) (m : gmap NeighborKey CdpNeighbor)
    : gmap NeighborKey CdpNeighbor :=
  match suffix with
  | i :: d :: _ => upsert (as_i32 i, as_i32 d) (empty_cdp (as_i32 i)) (set_cdp_column c v) m
  | _ => m
  end.

Definition has_device_id (n : CdpNeighbor) : bool := bool_decide (is_Some (remote_device_id n)).

Definition cdp_result (f : Shortfall) (rows : list CdpNeighbor) (stops : list (CdpColumn * WalkStop))
    : SnmpCollection (list CdpNeighbor) :=
  let result := List.filter has_device_id rows in
  let same := (length result =? length rows)%nat in
  {| records := result;
     complete := sf_complete f && same;
     unsupported := forallb (λ s, is_unsupported s.2) stops && bool_decide (result = []);
     reason := sf_reason f;
     discarded := length rows - length result;
     discard_reason := if same then None
                       else if bool_decide (is_Some (sf_reason f)) then Some WalkCutShort else Some GhostRows |}.

Definition query_cdp_neighbors {T} `{SnmpWalkTransport T, MapOrder} (t : T) : T * SnmpCollection (list CdpNeighbor) :=
  let '(t', f, m, stops) := walk_columns cdp_row cdp_columns t no_shortfall ∅ in
  (t', cdp_result f (map_iter m).*2 stops).

(** ** ARP ([query_arp_table]) *)

Inductive ArpColumn := ArpIfIndex | ArpPhysAddress | ArpNetAddress | ArpType.

#[export] Instance ArpColumn_eq_dec : EqDecision ArpColumn.
Proof. solve_decision. Defined.

Definition arp_columns : list (string * ArpColumn) :=
  [(Oids.IP_NET_TO_MEDIA_IF_INDEX, ArpIfIndex); (Oids.IP_NET_TO_MEDIA_PHYS_ADDRESS, ArpPhysAddress);
   (Oids.IP_NET_TO_MEDIA_NET_ADDRESS, ArpNetAddress); (Oids.IP_NET_TO_MEDIA_TYPE, ArpType)].

Record ArpEntryBuilder := {
  ab_if_index : option Z; ab_mac : option MacAddress; ab_ip : option IpAddr; ab_type : option Z
}.
Definition arp_builder_empty : ArpEntryBuilder := {| ab_if_index := None; ab_mac := None; ab_ip := None; ab_type := None |}.

Definition set_arp_column (c : ArpColumn) (v : Value) (b : ArpEntryBuilder) : ArpEntryBuilder := {|
  ab_if_index := on c ArpIfIndex (value_to_i32 v) (ab_if_index b);
  ab_mac := on c ArpPhysAddress (value_to_mac v) (ab_mac b);
  ab_ip := on c ArpNetAddress (value_to_ip v) (ab_ip b);
  ab_type := on c ArpType (value_to_i32 v) (ab_type b) |}.

Definition arp_row (c : ArpColumn) (suffix : oid) (v : Value) (m : gmap bytes ArpEntryBuilder) : gmap bytes ArpEntryBuilder :=
  if (length suffix <? 5)%nat then m else upsert (dotted suffix) arp_builder_empty (set_arp_column c v) m.

Definition arp_entry (b : ArpEntryBuilder) : option ArpEntry :=
  if default 0 (ab_type b) =? 2 then None
  else i ← ab_if_index b; m ← ab_mac b; a ← ab_ip b;
       Some {| arp_if_index := i; arp_mac := m; arp_ip := a |}.

Definition query_arp_table {T} `{SnmpWalkTransport T, MapOrder} (t : T) : T * SnmpCollection (list ArpEntry) :=
  let '(t', f, m, _) := walk_columns arp_row arp_columns t no_shortfall ∅ in
  (t', from_walk (omap arp_entry (map_iter m).*2) f).

(** ** Hardware ([query_entity_physical]) *)

Inductive EntityColumn := EntDescr | EntClass | EntName | EntSerial | EntMfg | EntModel.

#[export] Instance EntityColumn_eq_dec : EqDecision EntityColumn.
Proof. solve_decision. Defined.

Definition entity_columns : list (string * EntityColumn) :=
  [(Oids.ENT_PHYSICAL_DESCR, EntDescr); (Oids.ENT_PHYSICAL_CLASS, EntClass); (Oids.ENT_PHYSICAL_NAME, EntName);
   (Oids.ENT_PHYSICAL_SERIAL_NUM, EntSerial); (Oids.ENT_PHYSICAL_MFG_NAME, EntMfg);
   (Oids.ENT_PHYSICAL_MODEL_NAME, EntModel)].

Record PhysicalEntry := {
  pe_description : option bytes; pe_class : option Z; pe_name : option bytes; pe_serial : option bytes;
  pe_manufacturer : option bytes; pe_model : option bytes
}.
Definition physical_empty : PhysicalEntry := {|
  pe_description := None; pe_class := None; pe_name := None; pe_serial := None; pe_manufacturer := None;
  pe_model := None |}.

Definition non_empty (s : option bytes) : option bytes := match s with Some (b :: l) => Some (b :: l) | _ => None end.

Definition set_entity_column (c : EntityColumn) (v : Value) (e : PhysicalEntry) : PhysicalEntry := {|
  pe_description := on c EntDescr (value_to_string v) (pe_description e);
  pe_class := on c EntClass (value_to_i32 v) (pe_class e);
  pe_name := on c EntName (value_to_string v) (pe_name e);
  pe_serial := on c EntSerial (non_empty (value_to_string v)) (pe_serial e);
  pe_manufacturer := on c EntMfg (non_empty (value_to_string v)) (pe_manufacturer e);
  pe_model := on c EntModel (non_empty (value_to_string v)) (pe_model e) |}.

Definition entity_row (c : EntityColumn) (suffix : oid) (v : Value) (m : gmap Z PhysicalEntry) : gmap Z PhysicalEntry :=
  match list.last suffix with
  | None => m
  | Some x => upsert (as_i32 x) physical_empty (set_entity_column c v) m
  end.

Definition of_class (n : Z) (e : PhysicalEntry) : bool := bool_decide (pe_class e = Some n).

(** A chassis, else a stack, else a module. *)
Definition best_physical (l : list PhysicalEntry) : option PhysicalEntry :=
  keep (List.find (of_class 3) l) (keep (List.find (of_class 11) l) (List.find (of_class 9) l)).

Definition inventory_of (e : PhysicalEntry) : DeviceInventory := {|
  di_description := keep (pe_description e) (pe_name e); di_manufacturer := pe_manufacturer e;
  di_model := pe_model e; di_serial := pe_serial e |}.

Definition query_entity_physical {T} `{SnmpWalkTransport T, MapOrder} (t : T) : T * SnmpCollection (option DeviceInventory) :=
  let '(t', f, m, _) := walk_columns entity_row entity_columns t no_shortfall ∅ in
  (t', from_walk (inventory_of <$> best_physical (map_iter m).*2) f).

(** ** Bridges ([query_bridge_port_mapping], [query_bridge_fdb], [walk_qbridge_fdb]) *)

Definition last_index (suffix : oid) : option Z := as_i32 <$> list.last suffix.

Definition query_bridge_port_mapping {T} `{SnmpWalkTransport T} (t : T) : T * SnmpCollection (gmap Z Z) :=
  let '(t', f, m, _) :=
    walk_column (put_row last_index value_to_i32) Oids.DOT1D_BASE_PORT_IF_INDEX t no_shortfall ∅ in
  (t', from_walk m f).

Inductive FdbColumn := FdbAddress | FdbPort | FdbStatus.

#[export] Instance FdbColumn_eq_dec : EqDecision FdbColumn.
Proof. solve_decision. Defined.

Definition fdb_columns : list (string * FdbColumn) :=
  [(Oids.DOT1D_TP_FDB_ADDRESS, FdbAddress); (Oids.DOT1D_TP_FDB_PORT, FdbPort); (Oids.DOT1D_TP_FDB_STATUS, FdbStatus)].
Definition qfdb_columns : list (string * FdbColumn) :=
  [(Oids.DOT1Q_TP_FDB_PORT, FdbPort); (Oids.DOT1Q_TP_FDB_STATUS, FdbStatus)].

Record FdbBuilder := { fb_mac : option MacAddress; fb_port : option Z; fb_status : option Z }.
Definition fdb_builder_default : FdbBuilder := {| fb_mac := None; fb_port := None; fb_status := None |}.

Definition set_fdb_column (c : FdbColumn) (v : Value) (b : FdbBuilder) : FdbBuilder := {|
  fb_mac := on c FdbAddress (value_to_mac v) (fb_mac b);
  fb_port := on c FdbPort (value_to_i32 v) (fb_port b);
  fb_status := on c FdbStatus (value_to_i32 v) (fb_status b) |}.

Definition fdb_row (c : FdbColumn) (suffix : oid) (v : Value) (m : gmap bytes FdbBuilder) : gmap bytes FdbBuilder :=
  if negb (length suffix =? 6)%nat then m else upsert (dotted suffix) fdb_builder_default (set_fdb_column c v) m.

(** The MAC of a VLAN-aware row is in its index. *)
Definition with_index_mac (mac : MacAddress) (b : FdbBuilder) : FdbBuilder :=
  {| fb_mac := Some mac; fb_port := fb_port b; fb_status := fb_status b |}.

Definition qfdb_row (c : FdbColumn) (suffix : oid) (v : Value) (m : gmap bytes FdbBuilder) : gmap bytes FdbBuilder :=
  match qbridge_fdb_index_to_mac suffix with
  | Some mac =>
      upsert (dotted (tl suffix)) fdb_builder_default (λ b, set_fdb_column c v (with_index_mac mac b)) m
  | None => m
  end.

Definition walk_qbridge_fdb {T} `{SnmpWalkTransport T} (t : T) : T * SnmpCollection (gmap bytes FdbBuilder) :=
  let '(t', f, m, _) := walk_columns qfdb_row qfdb_columns t no_shortfall ∅ in
  (t', from_walk m f).

Definition fdb_entry (port_to_if_index : gmap Z Z) (b : FdbBuilder) : option BridgeFdbEntry :=
  let status := default 0 (fb_status b) in
  if negb (status =? 3) && negb (status =? 5) then None
  else p ← fb_port b; m ← fb_mac b;
       Some {| fdb_mac := m; fdb_bridge_port := p; fdb_if_index := port_to_if_index !! p; fdb_status := status |}.

(** The shortfall a query keyed by bridge port starts from. *)
Definition seeded (bridge_ports : SnmpCollection (gmap Z Z)) : Shortfall :=
  {| sf_complete := complete bridge_ports; sf_reason := reason bridge_ports |}.

Definition query_bridge_fdb {T} `{SnmpWalkTransport T, MapOrder} (bridge_ports : SnmpCollection (gmap Z Z)) (t : T)
    : T * SnmpCollection (list BridgeFdbEntry) :=
  let '(t1, f, legacy, _) := walk_columns fdb_row fdb_columns t (seeded bridge_ports) ∅ in
  let '(t2, qbridge) := walk_qbridge_fdb t1 in
  let merged := legacy ∪ records qbridge in
  (t2, from_walk (omap (fdb_entry (records bridge_ports)) (map_iter merged).*2)
         {| sf_complete := sf_complete f && complete qbridge; sf_reason := sf_reason f |}).

(** ** VLANs ([query_vlan_table], [query_port_vlan_membership]) *)

Definition vlan_row (suffix : oid) (v : Value) (l : list VlanInfo) : list VlanInfo :=
  match list.last suffix, value_to_string v with
  | Some x, Some name => l ++ [{| vi_vlan_id := as_u16 x; vi_name := name |}]
  | _, _ => l
  end.

Definition query_vlan_table {T} `{SnmpWalkTransport T} (t : T) : T * SnmpCollection (list VlanInfo) :=
  let '(t1, f, vlans, _) := walk_column vlan_row Oids.DOT1Q_VLAN_STATIC_NAME t no_shortfall [] in
  match vlans with
  | [] =>
      let '(t2, f, vlans, _) := walk_column vlan_row Oids.VTP_VLAN_NAME t1 no_shortfall [] in
      (t2, from_walk vlans f)
  | _ => (t1, from_walk vlans f)
  end.

(** The VLANs of a port list, added to each of its ports. *)
Definition add_vlan (vlan : Z) (m : gmap Z (list Z)) (port : Z) : gmap Z (list Z) :=
  upsert port [] (λ l, l ++ [vlan]) m.
Definition portlist_row (suffix : oid) (v : Value) (m : gmap Z (list Z)) : gmap Z (list Z) :=
  match list.last suffix, v with
  | Some x, VOctetString b => foldl (add_vlan (as_u16 x)) m (parse_portlist_bitmap b)
  | _, _ => m
  end.

Definition tagged_of (egress untagged : option (list Z)) : list Z :=
  List.filter (λ v, negb (bool_decide (v ∈ default [] untagged))) (default [] egress).

Definition port_membership (native : gmap Z Z) (egress untagged : gmap Z (list Z)) (port : Z * Z)
    : option PortVlanMembership :=
  let tagged := tagged_of (egress !! port.1) (untagged !! port.1) in
  match native !! port.1, tagged with
  | None, [] => None
  | n, _ => Some {| pv_if_index := port.2; pv_native_vlan := n; pv_tagged_vlans := tagged |}
  end.

Definition query_port_vlan_membership {T} `{SnmpWalkTransport T, MapOrder} (bridge_ports : SnmpCollection (gmap Z Z)) (t : T)
    : T * SnmpCollection (list PortVlanMembership) :=
  if bool_decide (records bridge_ports = ∅) then (t, from_walk [] (seeded bridge_ports))
  else
    let '(t1, f1, native, _) :=
      walk_column (put_row last_index value_to_u16) Oids.DOT1Q_PVID t (seeded bridge_ports) ∅ in
    let '(t2, f2, egress, _) := walk_column portlist_row Oids.DOT1Q_VLAN_CURRENT_EGRESS_PORTS t1 f1 ∅ in
    let '(t3, f3, untagged, _) := walk_column portlist_row Oids.DOT1Q_VLAN_CURRENT_UNTAGGED_PORTS t2 f2 ∅ in
    (t3, from_walk (omap (port_membership native egress untagged) (map_iter (records bridge_ports))) f3).

(** ** Scalars ([query_system_info], [query_lldp_local]) *)

(** A GET under its timeout: the first value of the answer, when there was one. *)
Class SnmpGet (T : Type) := snmp_get : T → oid → T * option Value.

Section Scalars.
Context {T : Type} `{SnmpGet T}.

Definition get_value (oid_str : string) (t : T) : T * option Value := snmp_get t (base_parts oid_str).

Definition query_system_info (t : T) : T * SystemInfo :=
  let '(t, descr) := get_value Oids.SYS_DESCR t in
  let '(t, object_id) := get_value Oids.SYS_OBJECT_ID t in
  let '(t, name) := get_value Oids.SYS_NAME t in
  let '(t, location) := get_value Oids.SYS_LOCATION t in
  let '(t, contact) := get_value Oids.SYS_CONTACT t in
  let '(t, uptime) := get_value Oids.SYS_UPTIME t in
  (t, {| si_descr := descr ≫= value_to_string; si_object_id := object_id ≫= value_to_string;
         si_name := name ≫= value_to_string; si_location := location ≫= value_to_string;
         si_contact := contact ≫= value_to_string; si_uptime := uptime ≫= value_to_u64 |}).

Definition query_lldp_local (t : T) : T * option LldpLocalInfo :=
  let '(t, subtype) := get_value Oids.LLDP_LOC_CHASSIS_ID_SUBTYPE t in
  let '(t, chassis) := get_value Oids.LLDP_LOC_CHASSIS_ID t in
  (t, match subtype ≫= value_to_i32, chassis ≫= octets_of with
      | Some s, Some b => Some {| chassis_id_subtype := as_u8 s; chassis_id_bytes := b |}
      | _, _ => None
      end).
End Scalars.
