(* ===== verification/SnmpCollect.v ===== *)
(** The SNMP integration ([daemon/discovery/integration/snmp/mod.rs]) and the host it
    fills in ([HostData], [daemon/discovery/service/ops.rs]): probing the two ports,
    collecting every table on one session, placing the neighbours on interfaces, and
    what a collection tells the server and the operator.

    The agent is a class ([SnmpWalk], [SnmpQueries]); the server behind [DiscoveryOps]
    and the clock of the queries are arguments. *)

From S2P Require Import Prelude Net Ports Entities Lldp Hosts HostMatch Interfaces Subnets Topology Credentials Warnings SnmpWalk SnmpQueries.
Local Open Scope Z_scope.

(** ** [HostData] *)

Record HostData := {
  hd_host : HostRow;
  hd_services : list Service;
  hd_ports : list Port;
  hd_ip_addresses : list IPAddress;
  hd_interfaces : list InterfaceRow;
  hd_subnets : list Subnet;
  hd_interfaces_complete : bool;
  hd_interface_data_complete : InterfaceDataComplete
}.

Definition host_data_new (h : HostRow) (svs : list Service) (ps : list Port) (ips : list IPAddress)
    (ifs : list InterfaceRow) (sns : list Subnet) : HostData := {|
  hd_host := h; hd_services := svs; hd_ports := ps; hd_ip_addresses := ips; hd_interfaces := ifs;
  hd_subnets := sns; hd_interfaces_complete := true; hd_interface_data_complete := complete_default |}.

Definition on_host_base (f : HostBase → HostBase) (d : HostData) : HostData := {|
  hd_host := {| h_id := h_id (hd_host d); h_meta := h_meta (hd_host d); h_base := f (h_base (hd_host d)) |};
  hd_services := hd_services d; hd_ports := hd_ports d; hd_ip_addresses := hd_ip_addresses d;
  hd_interfaces := hd_interfaces d; hd_subnets := hd_subnets d;
  hd_interfaces_complete := hd_interfaces_complete d;
  hd_interface_data_complete := hd_interface_data_complete d |}.

Definition on_ip_addresses (f : list IPAddress → list IPAddress) (d : HostData) : HostData := {|
  hd_host := hd_host d; hd_services := hd_services d; hd_ports := hd_ports d;
  hd_ip_addresses := f (hd_ip_addresses d); hd_interfaces := hd_interfaces d; hd_subnets := hd_subnets d;
  hd_interfaces_complete := hd_interfaces_complete d;
  hd_interface_data_complete := hd_interface_data_complete d |}.

(** The fields a collection may fill in; each is written once. *)
Inductive HostField :=
| FSysDescr | FSysName | FSysObjectId | FSysLocation | FSysContact | FChassisId | FManufacturer | FModel
| FSerialNumber | FManagementUrl.

#[export] Instance HostField_eq_dec : EqDecision HostField.
Proof. solve_decision. Defined.

Definition host_field (f : HostField) (b : HostBase) : option string :=
  match f with
  | FSysDescr => sys_descr b | FSysName => sys_name b | FSysObjectId => sys_object_id b
  | FSysLocation => sys_location b | FSysContact => sys_contact b | FChassisId => chassis_id b
  | FManufacturer => manufacturer b | FModel => model b | FSerialNumber => serial_number b
  | FManagementUrl => management_url b
  end.

(** [with_sys_descr], [with_sys_name] and so on: first write wins. *)
Definition first (f g : HostField) (v : string) (old : option string) : option string :=
  match old with Some x => Some x | None => on f g (Some v) None end.

Definition with_field (f : HostField) (v : string) : HostData → HostData := on_host_base (λ b, {|
  h_name := h_name b; name_source := name_source b; h_network_id := h_network_id b; hostname := hostname b;
  h_description := h_description b; h_source := h_source b;
  h_virtualization_metadata := h_virtualization_metadata b;
  h_virtualization_service_id := h_virtualization_service_id b; hidden := hidden b; h_tags := h_tags b;
  sys_descr := first f FSysDescr v (sys_descr b); sys_object_id := first f FSysObjectId v (sys_object_id b);
  sys_location := first f FSysLocation v (sys_location b); sys_contact := first f FSysContact v (sys_contact b);
  management_url := first f FManagementUrl v (management_url b); chassis_id := first f FChassisId v (chassis_id b);
  sys_name := first f FSysName v (sys_name b); manufacturer := first f FManufacturer v (manufacturer b);
  model := first f FModel v (model b); serial_number := first f FSerialNumber v (serial_number b);
  credential_assignments := credential_assignments b |}).

Definition with_optional (f : HostField) (v : option bytes) (d : HostData) : HostData :=
  match v with Some x => with_field f (bytes_str x) d | None => d end.

Definition set_hostname (v : string) (b : HostBase) : HostBase := {|
  h_name := h_name b; name_source := name_source b; h_network_id := h_network_id b; hostname := Some v;
  h_description := h_description b; h_source := h_source b;
  h_virtualization_metadata := h_virtualization_metadata b;
  h_virtualization_service_id := h_virtualization_service_id b; hidden := hidden b; h_tags := h_tags b;
  sys_descr := sys_descr b; sys_object_id := sys_object_id b; sys_location := sys_location b;
  sys_contact := sys_contact b; management_url := management_url b; chassis_id := chassis_id b;
  sys_name := sys_name b; manufacturer := manufacturer b; model := model b; serial_number := serial_number b;
  credential_assignments := credential_assignments b |}.

Definition with_hostname_fallback (v : string) : HostData → HostData := on_host_base (λ b,
  match hostname b with
  | Some _ => b
  | None => set_hostname v (match from_hostname v with Some c => (apply_name c b).2 | None => b end)
  end).

Definition set_mac (mac : MacAddress) (i : IPAddress) : IPAddress := {|
  ip_id := ip_id i; ip_meta := ip_meta i;
  ip_base := {| ip_network_id := ip_network_id (ip_base i); ip_host_id := ip_host_id (ip_base i);
                subnet_id := subnet_id (ip_base i); ip_address := ip_address (ip_base i);
                mac_address := keep (mac_address (ip_base i)) (Some mac); ip_name := ip_name (ip_base i);
                ip_position := ip_position (ip_base i) |} |}.

(** The first address that is the one given. *)
Fixpoint set_first_mac (ip : IpAddr) (mac : MacAddress) (l : list IPAddress) : list IPAddress :=
  match l with
  | [] => []
  | i :: l' => if bool_decide (ip_address (ip_base i) = ip) then set_mac mac i :: l' else i :: set_first_mac ip mac l'
  end.
Definition with_mac_for_ip (ip : IpAddr) (mac : MacAddress) : HostData → HostData :=
  on_ip_addresses (set_first_mac ip mac).

Definition add_ip_address (i : IPAddress) : HostData → HostData := on_ip_addresses (λ l, l ++ [i]).

Definition replace_interfaces (ifs : list InterfaceRow) (c : bool) (dc : InterfaceDataComplete) (d : HostData) : HostData := {|
  hd_host := hd_host d; hd_services := hd_services d; hd_ports := hd_ports d;
  hd_ip_addresses := hd_ip_addresses d; hd_interfaces := ifs; hd_subnets := hd_subnets d;
  hd_interfaces_complete := c; hd_interface_data_complete := dc |}.

Definition push_assignment (a : CredentialAssignment) (b : HostBase) : HostBase := {|
  h_name := h_name b; name_source := name_source b; h_network_id := h_network_id b; hostname := hostname b;
  h_description := h_description b; h_source := h_source b;
  h_virtualization_metadata := h_virtualization_metadata b;
  h_virtualization_service_id := h_virtualization_service_id b; hidden := hidden b; h_tags := h_tags b;
  sys_descr := sys_descr b; sys_object_id := sys_object_id b; sys_location := sys_location b;
  sys_contact := sys_contact b; management_url := management_url b; chassis_id := chassis_id b;
  sys_name := sys_name b; manufacturer := manufacturer b; model := model b; serial_number := serial_number b;
  credential_assignments := credential_assignments b ++ [a] |}.
Definition add_credential_assignment (a : CredentialAssignment) : HostData → HostData := on_host_base (push_assignment a).

Definition set_virtualization (v : HostVirtualization) (b : HostBase) : HostBase := {|
  h_name := h_name b; name_source := name_source b; h_network_id := h_network_id b; hostname := hostname b;
  h_description := h_description b; h_source := h_source b;
  h_virtualization_metadata := keep (h_virtualization_metadata b) (Some v);
  h_virtualization_service_id := h_virtualization_service_id b; hidden := hidden b; h_tags := h_tags b;
  sys_descr := sys_descr b; sys_object_id := sys_object_id b; sys_location := sys_location b;
  sys_contact := sys_contact b; management_url := management_url b; chassis_id := chassis_id b;
  sys_name := sys_name b; manufacturer := manufacturer b; model := model b; serial_number := serial_number b;
  credential_assignments := credential_assignments b |}.
Definition with_virtualization (v : HostVirtualization) : HostData → HostData := on_host_base (set_virtualization v).
Definition apply_host_name (candidate : HostName) : HostData → HostData := on_host_base (λ b, (apply_name candidate b).2).

(** [add_service], [add_port], [add_if_entry]; a subnet is offered once, by its equality. *)
Definition append_rows (svs : list Service) (ps : list Port) (ifs : list InterfaceRow) (sns : list Subnet) (d : HostData) : HostData := {|
  hd_host := hd_host d; hd_services := hd_services d ++ svs; hd_ports := hd_ports d ++ ps;
  hd_ip_addresses := hd_ip_addresses d; hd_interfaces := hd_interfaces d ++ ifs; hd_subnets := hd_subnets d ++ sns;
  hd_interfaces_complete := hd_interfaces_complete d; hd_interface_data_complete := hd_interface_data_complete d |}.
Definition add_service (s : Service) : HostData → HostData := append_rows [s] [] [] [].
Definition add_host_port (p : Port) : HostData → HostData := append_rows [] [p] [] [].
Definition add_if_entry (i : InterfaceRow) : HostData → HostData := append_rows [] [] [i] [].
Definition add_subnet (s : Subnet) (d : HostData) : HostData :=
  append_rows [] [] [] (if existsb (subnet_eqb s) (hd_subnets d) then [] else [s]) d.

(** ** Probing ([SnmpIntegration::probe]) *)

Definition probe_specificity (o : AttemptOutcome) : Z :=
  match o with Rejected => 3 | NotThisService | MalformedCredential => 2 | _ => 1 end.

Inductive SnmpProbeOutcome := Answered (port : Z) | Failed (o : AttemptOutcome) (message : string).

Section Probe.
(** What each port answered within its time, and whether the scan was cancelled before it. *)
Context (cancelled : Z → bool) (try_port : Z → SnmpProbeOutcome) (ip : IpAddr).

Definition more_specific (o : AttemptOutcome) (best : option (AttemptOutcome * string)) : bool :=
  match best with Some (seen, _) => probe_specificity seen <? probe_specificity o | None => true end.

Fixpoint probe_ports (ports : list Z) (best : option (AttemptOutcome * string)) : result Z (AttemptOutcome * string) :=
  match ports with
  | [] => Err (default (TimedOut, "SNMP not responding on " +:+ bytes_str (ip_text ip)) best)
  | p :: ports' =>
      if cancelled p then Err (Cancelled, "cancelled")
      else
        match try_port p with
        | Answered detected => Ok detected
        | Failed o message =>
            probe_ports ports'
              (if more_specific o best then Some (o, "port " +:+ num_text p +:+ ": " +:+ message) else best)
        end
  end.

Definition snmp_probe : result Z (AttemptOutcome * string) := probe_ports [161; 1161] None.
End Probe.

(** ** Placing neighbours on interfaces *)

Inductive LocalPortEvidence := InterfaceIndex | UniqueMac | PortIdName | PortIdSuffix | PortDescName | PortDescWord.

#[export] Instance LocalPortEvidence_eq_dec : EqDecision LocalPortEvidence.
Proof. solve_decision. Defined.

(** An address of two interfaces is nobody's, and the zero address is not one. *)
Definition unique_mac_step (m : gmap MacAddress (option Z)) (e : IfTableEntry) : gmap MacAddress (option Z) :=
  match ie_if_phys_address e with
  | Some mac =>
      if mac =? 0 then m
      else <[mac := match m !! mac with Some _ => None | None => Some (ie_if_index e) end]> m
  | None => m
  end.
Definition unique_interface_macs (l : list IfTableEntry) : gmap MacAddress Z := omap id (foldl unique_mac_step ∅ l).

Definition ends_with (suffix s : bytes) : bool := bool_decide (drop (length s - length suffix) s = suffix).

Definition is_named (text : bytes) (e : IfTableEntry) : bool :=
  bool_decide (ie_if_name e = Some text) || bool_decide (ie_if_descr e = Some text).

Definition named (l : list IfTableEntry) (text : bytes) (ev : LocalPortEvidence) : option (Z * LocalPortEvidence) :=
  match trim text with
  | [] => None
  | t => (λ e, (ie_if_index e, ev)) <$> List.find (is_named t) l
  end.

Definition ends_at_boundary (id : bytes) (name : option bytes) : bool :=
  match name with Some n => ends_with (58 :: id) n || ends_with (47 :: id) n | None => false end.

Definition suffixed (l : list IfTableEntry) (id : bytes) : option (Z * LocalPortEvidence) :=
  match trim id with
  | [] => None
  | i => (λ e, (ie_if_index e, PortIdSuffix))
         <$> List.find (λ e, ends_at_boundary i (ie_if_name e) || ends_at_boundary i (ie_if_descr e)) l
  end.

(** [str::split_whitespace]; a step consumes at least one octet. *)
Fixpoint words_from (fuel : nat) (word l : bytes) : list bytes :=
  let close := match word with [] => [] | _ => [word] end in
  match fuel, l with
  | S fuel', b :: l' =>
      match strip_any white_space l with
      | Some rest => close ++ words_from fuel' [] rest
      | None => words_from fuel' (word ++ [b]) l'
      end
  | _, _ => close
  end.
Definition split_whitespace (l : bytes) : list bytes := words_from (length l) [] l.

(** Every interface a word of the description names, once. *)
Definition matched_by_words (l : list IfTableEntry) (desc : bytes) : list Z :=
  foldl (λ acc word,
    foldl (λ acc e, if is_named word e && negb (bool_decide (ie_if_index e ∈ acc)) then acc ++ [ie_if_index e] else acc)
      acc l) [] (split_whitespace desc).

Definition resolve_lldp_local_port (port : Z) (loc_ports : gmap Z LldpLocalPort) (l : list IfTableEntry)
    (unique_macs : gmap MacAddress Z) : option (Z * LocalPortEvidence) :=
  entry ← loc_ports !! port;
  let by_index := if bool_decide (port_id_subtype entry = Some 2)
                  then (λ i, (i, InterfaceIndex)) <$> (port_id entry ≫= λ s, parse_i32 (trim s)) else None in
  let by_mac := if bool_decide (port_id_subtype entry = Some 3)
                then (λ i, (i, UniqueMac)) <$> (port_id_mac entry ≫= λ m, unique_macs !! m) else None in
  let by_name := port_id entry ≫= λ s, named l s PortIdName in
  let by_suffix := port_id entry ≫= suffixed l in
  let by_desc := port_desc entry ≫= λ s, named l s PortDescName in
  let by_word := port_desc entry ≫= λ s,
    match matched_by_words l s with [only] => Some (only, PortDescWord) | _ => None end in
  keep by_index (keep by_mac (keep by_name (keep by_suffix (keep by_desc by_word)))).

Definition set_local_port (i : Z) (n : LldpNeighbor) : LldpNeighbor := {|
  ln_local_port_index := i; remote_chassis_id_subtype := remote_chassis_id_subtype n;
  remote_chassis_id_bytes := remote_chassis_id_bytes n; remote_port_id_subtype := remote_port_id_subtype n;
  remote_port_id_bytes := remote_port_id_bytes n; remote_port_desc := remote_port_desc n;
  remote_sys_name := remote_sys_name n; remote_sys_desc := remote_sys_desc n;
  remote_mgmt_addr := remote_mgmt_addr n |}.

Definition count_step (if_indexes : gset Z) (acc : gset Z * nat) (n : LldpNeighbor) : gset Z * nat :=
  let port := ln_local_port_index n in
  if negb (bool_decide (port ∈ if_indexes)) then (acc.1, S acc.2)
  else if bool_decide (port ∈ acc.1) then (acc.1, S acc.2)
  else ({[port]} ∪ acc.1, acc.2).
Definition count_dropped_neighbours (neighbors : list LldpNeighbor) (l : list IfTableEntry) : nat :=
  (foldl (count_step (list_to_set (ie_if_index <$> l))) (∅, 0%nat) neighbors).2.

Record LocalPortOutcome := { lp_unmatched : nat; lp_dropped : nat }.

Definition place (loc_ports : gmap Z LldpLocalPort) (l : list IfTableEntry) (n : LldpNeighbor) : LldpNeighbor * bool :=
  match resolve_lldp_local_port (ln_local_port_index n) loc_ports l (unique_interface_macs l) with
  | Some (i, _) => (set_local_port i n, true)
  | None => (n, false)
  end.

Definition remap_lldp_local_ports (neighbors : list LldpNeighbor) (loc_ports : gmap Z LldpLocalPort)
    (l : list IfTableEntry) : list LldpNeighbor * LocalPortOutcome :=
  let placed := if bool_decide (loc_ports = ∅) then (λ n, (n, true)) <$> neighbors
                else place loc_ports l <$> neighbors in
  (placed.*1, {| lp_unmatched := length (List.filter (λ p, negb p.2) placed);
                 lp_dropped := count_dropped_neighbours placed.*1 l |}).

(** ** Interfaces ([convert_snmp_if_entry]) *)

(** [s as i64]. *)
Definition as_i64 (z : Z) : Z := let m := wrap 64 z in if m <? 2 ^ 63 then m else m - 2 ^ 64.

Definition on_port {X} (index : X → Z) (i : Z) (l : list X) : option X := List.find (λ x, index x =? i) l.

(** [Some] of a list that is not empty. *)
Definition some_list {X} (l : list X) : option (list X) := match l with [] => None | _ => Some l end.

Section Convert.
Context (parse_mac : bytes → option bytes) (mac_text : Z → bytes).

Definition lldp_data_of (n : option LldpNeighbor) : LldpData := {|
  lldp_chassis_id := n ← n; s ← remote_chassis_id_subtype n; b ← remote_chassis_id_bytes n; chassis_from_snmp parse_mac s b;
  lldp_port_id := n ← n; s ← remote_port_id_subtype n; b ← remote_port_id_bytes n; port_from_snmp parse_mac s b;
  lldp_sys_name := n ≫= remote_sys_name;
  lldp_port_desc := n ≫= remote_port_desc;
  lldp_mgmt_addr := n ≫= remote_mgmt_addr;
  lldp_sys_desc := n ≫= remote_sys_desc |}.

Definition cdp_data_of (n : option CdpNeighbor) : CdpData := {|
  cdp_device_id := n ≫= remote_device_id; cdp_port_id := n ≫= remote_port_id;
  cdp_platform := n ≫= remote_platform; cdp_address := n ≫= remote_address |}.

Definition vlan_data_of (uuids : gmap Z Uuid) (m : option PortVlanMembership) : VlanData := {|
  native_vlan_id := m ← m; v ← pv_native_vlan m; uuids !! v;
  vlan_ids := m ← m; some_list (omap (λ v, uuids !! v) (pv_tagged_vlans m)) |}.

(** Only a learned address is a neighbour's. *)
Definition learned_macs (i : Z) (fdb : list BridgeFdbEntry) : list bytes :=
  mac_text ∘ fdb_mac <$> List.filter (λ f, bool_decide (fdb_if_index f = Some i) && (fdb_status f =? 3)) fdb.

Definition convert_snmp_if_entry (network : Uuid) (lldps : list LldpNeighbor) (cdps : list CdpNeighbor)
    (fdb : list BridgeFdbEntry) (members : list PortVlanMembership) (uuids : gmap Z Uuid) (e : IfTableEntry)
    : InterfaceBase := {|
  if_host_id := uuid_nil;
  if_network_id := network;
  if_index := ie_if_index e;
  if_descr := default [] (ie_if_descr e);
  if_name := ie_if_name e;
  if_alias := ie_if_alias e;
  if_type := default 1 (ie_if_type e);
  speed_bps := as_i64 <$> ie_if_speed e;
  admin_status := if_admin_of_i32 (default 1 (ie_if_admin_status e));
  oper_status := if_oper_of_i32 (default 1 (ie_if_oper_status e));
  if_mac := ie_if_phys_address e;
  if_ip_address_id := None;
  neighbor := None;
  lldp := lldp_data_of (on_port ln_local_port_index (ie_if_index e) lldps);
  cdp := cdp_data_of (on_port cn_local_port_index (ie_if_index e) cdps);
  fdb_macs := some_list (learned_macs (ie_if_index e) fdb);
  vlans := vlan_data_of uuids (on_port pv_if_index (ie_if_index e) members) |}.
End Convert.

(** ** Collection ([SnmpIntegration::execute]) *)

Inductive SnmpQuery :=
| QSystemInfo | QIfTable | QLldp | QCdp | QLldpLocalPorts | QIpAddrTable | QArp | QEntity | QBridgePorts | QFdb
| QVlanTable | QVlanMembership | QLldpLocal.

Definition no_system_info : SystemInfo := {|
  si_descr := None; si_object_id := None; si_name := None; si_location := None; si_contact := None;
  si_uptime := None |}.

Record SnmpTables := {
  tb_if : IfTableWalk;
  tb_lldp : SnmpCollection (list LldpNeighbor);
  tb_cdp : SnmpCollection (list CdpNeighbor);
  tb_local_ports : SnmpCollection (gmap Z LldpLocalPort);
  tb_ip_addr : SnmpCollection (gmap IpAddr IpAddrEntry);
  tb_arp : SnmpCollection (list ArpEntry);
  tb_inventory : SnmpCollection (option DeviceInventory);
  tb_bridge_ports : SnmpCollection (gmap Z Z);
  tb_fdb : SnmpCollection (list BridgeFdbEntry);
  tb_vlans : SnmpCollection (list VlanInfo);
  tb_membership : SnmpCollection (list PortVlanMembership);
  tb_local : option LldpLocalInfo
}.

Section Tables.
Context {T : Type} `{SnmpWalkTransport T, SnmpGet T, MapOrder} (parse_mac : bytes → option bytes).
(** The session a query leaves when its time runs out, if it does. *)
Context (cut : SnmpQuery → T → option T).

Definition query_or_default {R} (q : SnmpQuery) (nothing : R) (run : T → T * R) (t : T) : T * R :=
  match cut q t with Some t' => (t', nothing) | None => run t end.

Definition read_tables (t : T) : T * SnmpTables :=
  let '(t, ifs) := query_or_default QIfTable if_walk_default walk_if_table t in
  let '(t, lldps) := query_or_default QLldp (collection_default []) query_lldp_neighbors t in
  let '(t, cdps) := query_or_default QCdp (collection_default []) query_cdp_neighbors t in
  let '(t, locals) :=
    match records lldps with
    | [] => (t, skipped ∅)
    | _ => query_or_default QLldpLocalPorts (collection_default ∅) (query_lldp_local_ports parse_mac) t
    end in
  let '(t, ips) := query_or_default QIpAddrTable (collection_default ∅) query_ip_addr_table t in
  let '(t, arps) := query_or_default QArp (collection_default []) query_arp_table t in
  let '(t, inventory) := query_or_default QEntity (collection_default None) query_entity_physical t in
  let '(t, bridges) := query_or_default QBridgePorts (collection_default ∅) query_bridge_port_mapping t in
  let '(t, fdb) := query_or_default QFdb (collection_default []) (query_bridge_fdb bridges) t in
  let '(t, vlan_table) := query_or_default QVlanTable (collection_default []) query_vlan_table t in
  let '(t, members) := query_or_default QVlanMembership (collection_default []) (query_port_vlan_membership bridges) t in
  let '(t, local) := query_or_default QLldpLocal None query_lldp_local t in
  (t, {| tb_if := ifs; tb_lldp := lldps; tb_cdp := cdps; tb_local_ports := locals; tb_ip_addr := ips;
         tb_arp := arps; tb_inventory := inventory; tb_bridge_ports := bridges; tb_fdb := fdb;
         tb_vlans := vlan_table; tb_membership := members; tb_local := local |}).

(** System information counts when the device described, named or identified itself. *)
Definition read_system_info (t : T) : T * option SystemInfo :=
  let '(t, i) := query_or_default QSystemInfo no_system_info query_system_info t in
  (t, match si_descr i, si_name i, si_object_id i with None, None, None => None | _, _, _ => Some i end).
End Tables.

(** What a collection reports besides the host. *)
Record SnmpReport := {
  rp_host : HostData;
  rp_checkpoint : HostData;
  rp_interface_shortfall : option IncompleteInterfaceWalk;
  rp_malformed : list MalformedNeighbours;
  rp_unresolved : option UnresolvedLldpPorts;
  rp_vlan_recording_failed : bool;
  rp_shortfalls : list IncompleteSnmpWalk;
  rp_collected_nothing : bool;
  rp_arp_hosts : list (HostRow * IPAddress)
}.

(** Ids and the clock of one collection. *)
Record SnmpMint := {
  mint_interface : bool → nat → Uuid;
  mint_address : IpAddr → Uuid;
  mint_subnet : IpAddr → Uuid;
  mint_host : nat → Uuid;
  mint_now : DateTime
}.

(** What the daemon asks of the server, and the crates' text and masks. *)
Record SnmpOutside := {
  out_upsert_vlans : list VlanInfo → option (gmap Z Uuid);
  out_create_subnet : Subnet → option Subnet;
  out_cidr_text : IpCidr → string;
  out_mask_prefix : Z → option Z;
  out_parse_mac : bytes → option bytes;
  out_mac_text : Z → bytes
}.

Section Report.
Context (o : SnmpOutside) (mint : SnmpMint) (ip : IpAddr) (scanning : option Subnet) (credential : option Uuid).

Definition group_outcome {R} (c : SnmpCollection R) (any : bool) : SnmpGroupOutcome :=
  {| go_complete := complete c; go_returned_any := any; go_reason := reason c |}.

Definition any {X} (l : list X) : bool := negb (length l =? 0)%nat.
Definition any_entry {K V} `{Countable K} (m : gmap K V) : bool := negb (bool_decide (m = ∅)).

Definition collection_outcome (tb : SnmpTables) : SnmpCollectionOutcome := {|
  o_lldp := group_outcome (tb_lldp tb) (any (records (tb_lldp tb)));
  o_cdp := group_outcome (tb_cdp tb) (any (records (tb_cdp tb)));
  bridge_port_numbering := group_outcome (tb_bridge_ports tb) (any_entry (records (tb_bridge_ports tb)));
  bridge_forwarding := group_outcome (tb_fdb tb) (any (records (tb_fdb tb)));
  vlan_membership := group_outcome (tb_membership tb) (any (records (tb_membership tb)));
  arp_table := group_outcome (tb_arp tb) (any (records (tb_arp tb)));
  device_inventory := group_outcome (tb_inventory tb) (bool_decide (is_Some (records (tb_inventory tb))));
  o_ip_addresses := group_outcome (tb_ip_addr tb) (any_entry (records (tb_ip_addr tb)));
  lldp_local_ports := group_outcome (tb_local_ports tb) (any_entry (records (tb_local_ports tb)));
  vlan_names := group_outcome (tb_vlans tb) (any (records (tb_vlans tb))) |}.

Definition interface_shortfall (w : IfTableWalk) : option IncompleteInterfaceWalk :=
  if any (it_entries w) && (negb (it_set_complete w) || negb (it_attributes_complete w))
  then Some {| ii_ip := ip; collected := length (it_entries w); set_complete := it_set_complete w |} else None.

Definition malformed_report {R} (g : SnmpWalkGroup) (c : SnmpCollection (list R)) : list MalformedNeighbours :=
  match discard_reason c with
  | Some r => [{| mn_ip := ip; mn_group := g; Warnings.discarded := discarded c; kept := length (records c); mn_reason := r |}]
  | None => []
  end.

(** Which groups the server may take as the device's last word. *)
Definition data_complete (tb : SnmpTables) : InterfaceDataComplete := {|
  c_lldp := complete (tb_lldp tb) && negb (unsupported (tb_lldp tb));
  c_cdp := complete (tb_cdp tb);
  c_fdb := complete (tb_fdb tb);
  c_vlan_membership := complete (tb_membership tb) |}.

Definition collected_nothing (tb : SnmpTables) : bool :=
  negb (any (it_entries (tb_if tb)) || any (records (tb_lldp tb)) || any (records (tb_cdp tb))
        || any (records (tb_arp tb)) || any (records (tb_fdb tb)) || any (records (tb_membership tb))
        || any (records (tb_vlans tb)) || any_entry (records (tb_ip_addr tb))
        || bool_decide (is_Some (records (tb_inventory tb)))).

Definition placed_neighbors (tb : SnmpTables) : list LldpNeighbor * LocalPortOutcome :=
  remap_lldp_local_ports (records (tb_lldp tb)) (records (tb_local_ports tb)) (it_entries (tb_if tb)).

Definition unresolved_ports (tb : SnmpTables) : option UnresolvedLldpPorts :=
  let p := (placed_neighbors tb).2 in
  if (0 <? lp_unmatched p)%nat || (0 <? lp_dropped p)%nat
  then Some {| ul_ip := ip; unresolved := lp_unmatched p; dropped := lp_dropped p;
               total := length (records (tb_lldp tb)) |} else None.

Definition vlan_uuids (tb : SnmpTables) : option (gmap Z Uuid) :=
  match records (tb_vlans tb) with [] => Some ∅ | l => out_upsert_vlans o l end.

(** The rows of a phase: [false] is the checkpoint, [true] the end. *)
Definition interface_rows (final : bool) (convert : IfTableEntry → InterfaceBase) (l : list IfTableEntry) : list InterfaceRow :=
  imap (λ i e, interface_new (mint_interface mint final i) (mint_now mint) (convert e)) l.

Definition checkpoint_of (tb : SnmpTables) (d : HostData) : HostData :=
  let network := h_network_id (h_base (hd_host d)) in
  replace_interfaces
    (interface_rows false (convert_snmp_if_entry (out_parse_mac o) (out_mac_text o) network [] [] [] [] ∅) (it_entries (tb_if tb)))
    (it_set_complete (tb_if tb)) complete_none d.

Definition enriched_interfaces (tb : SnmpTables) (network : Uuid) : list InterfaceRow :=
  interface_rows true
    (convert_snmp_if_entry (out_parse_mac o) (out_mac_text o) network (placed_neighbors tb).1 (records (tb_cdp tb)) (records (tb_fdb tb))
       (records (tb_membership tb)) (default ∅ (vlan_uuids tb))) (it_entries (tb_if tb)).

(** The MAC of the scanned address, by the interface it is on. *)
Definition own_mac (tb : SnmpTables) : option MacAddress :=
  a ← records (tb_ip_addr tb) !! ip;
  e ← on_port ie_if_index (ae_if_index a) (it_entries (tb_if tb));
  ie_if_phys_address e.

Definition enrich_host (info : option SystemInfo) (tb : SnmpTables) (d : HostData) : HostData :=
  let d := match info ≫= si_name with Some n => with_hostname_fallback (bytes_str n) d | None => d end in
  let d := match own_mac tb with Some m => with_mac_for_ip ip m d | None => d end in
  let d := with_optional FSysDescr (info ≫= si_descr) d in
  let d := with_optional FSysObjectId (info ≫= si_object_id) d in
  let d := with_optional FSysLocation (info ≫= si_location) d in
  let d := with_optional FSysContact (info ≫= si_contact) d in
  let d := with_optional FSysName (info ≫= si_name) d in
  let d := with_optional FChassisId
             (l ← tb_local tb; c ← chassis_from_snmp (out_parse_mac o) (chassis_id_subtype l) (chassis_id_bytes l); Some (identifier c)) d in
  let d := with_optional FManufacturer (records (tb_inventory tb) ≫= di_manufacturer) d in
  let d := with_optional FModel (records (tb_inventory tb) ≫= di_model) d in
  let d := with_optional FSerialNumber (records (tb_inventory tb) ≫= di_serial) d in
  match credential with
  | Some c => add_credential_assignment {| credential_id := c; ip_address_ids := None |} d
  | None => d
  end.

(** ** Remote subnets and hosts *)

Definition new_address (network subnet : Uuid) (a : IpAddr) (name : option string) (mac : option MacAddress) : IPAddress := {|
  ip_id := mint_address mint a; ip_meta := fresh_meta (mint_now mint);
  ip_base := {| ip_network_id := network; ip_host_id := uuid_nil; subnet_id := subnet; ip_address := a;
                mac_address := mac; ip_name := name; ip_position := 0 |} |}.

(** The network of one row of the address table. *)
Definition remote_network (a : IpAddr) (e : IpAddrEntry) : option IpNetwork :=
  match a, ae_net_mask e with
  | V4 x, Some (V4 mask) =>
      if (octet x 0 =? 127) || ((octet x 0 =? 169) && (octet x 1 =? 254)) then None
      else if (mask =? 2 ^ 32 - 1) || (mask =? 0) then None
      else
        p ← out_mask_prefix o mask;
        let text := bytes_str (ip_text (V4 (network_v4 x p))) +:+ "/" +:+ num_text p in
        if match scanning with Some s => bool_decide (text = out_cidr_text o (cidr (s_base s))) | None => false end
        then None else Some (NetV4 x p)
  | _, _ => None
  end.

Definition remote_step (network : Uuid) (ifs : list IfTableEntry) (acc : HostData * list Subnet) (row : IpAddr * IpAddrEntry)
    : HostData * list Subnet :=
  let e := on_port ie_if_index (ae_if_index row.2) ifs in
  match remote_network row.1 row.2 ≫= λ net,
          subnet_from_discovery (out_cidr_text o) (mint_subnet mint row.1) (mint_now mint)
            (bytes_str (default [] (e ≫= ie_if_name))) net network ≫= out_create_subnet o with
  | Some created =>
      (add_ip_address (new_address network (s_id created) row.1 None (e ≫= ie_if_phys_address)) acc.1, acc.2 ++ [created])
  | None => acc
  end.

Definition loopback : IpAddr := ipv4 127 0 0 1.

Definition add_loopback (network : Uuid) (ifs : list IfTableEntry) (d : HostData) : HostData :=
  if existsb (λ e, bool_decide (ie_if_type e = Some SOFTWARE_LOOPBACK)) ifs then
    match subnet_from_discovery (out_cidr_text o) (mint_subnet mint loopback) (mint_now mint) "lo"
            (NetV4 (127 * 2 ^ 24 + 1) 8) network ≫= out_create_subnet o with
    | Some created => add_ip_address (new_address network (s_id created) loopback (Some "lo"%string) None) d
    | None => d
    end
  else d.

(** A host for an ARP entry off the scanned subnet, on a subnet found above. *)
Definition arp_host (network : Uuid) (found : list Subnet) (i : nat) (e : ArpEntry) : option (HostRow * IPAddress) :=
  if match scanning with Some s => cidr_contains (cidr (s_base s)) (arp_ip e) | None => false end then None
  else
    s ← List.find (λ s, cidr_contains (cidr (s_base s)) (arp_ip e)) found;
    Some (host_new (mint_host mint i) (mint_now mint)
            {| h_name := ""; name_source := Unspecified; h_network_id := network; hostname := None;
               h_description := None; h_source := SourceDiscovery; h_virtualization_metadata := None;
               h_virtualization_service_id := None; hidden := false; h_tags := []; sys_descr := None;
               sys_object_id := None; sys_location := None; sys_contact := None; management_url := None;
               chassis_id := None; sys_name := None; manufacturer := None; model := None;
               serial_number := None; credential_assignments := [] |},
          new_address network (s_id s) (arp_ip e) None (Some (arp_mac e))).

Definition report `{MapOrder} (info : option SystemInfo) (tb : SnmpTables) (d : HostData) : SnmpReport :=
  let network := h_network_id (h_base (hd_host d)) in
  let ifs := it_entries (tb_if tb) in
  let ckpt := checkpoint_of tb d in
  let d := enrich_host info tb ckpt in
  let d := replace_interfaces (enriched_interfaces tb network) (it_set_complete (tb_if tb)) (data_complete tb) d in
  let '(d, found) := foldl (remote_step network ifs) (d, []) (map_iter (records (tb_ip_addr tb))) in
  {| rp_host := add_loopback network ifs d;
     rp_checkpoint := ckpt;
     rp_interface_shortfall := interface_shortfall (tb_if tb);
     rp_malformed := malformed_report GLldp (tb_lldp tb) ++ malformed_report GCdp (tb_cdp tb);
     rp_unresolved := unresolved_ports tb;
     rp_vlan_recording_failed := bool_decide (vlan_uuids tb = None);
     rp_shortfalls := snmp_walk_shortfalls ip (collection_outcome tb);
     rp_collected_nothing := collected_nothing tb;
     rp_arp_hosts := omap id (imap (arp_host network found) (records (tb_arp tb))) |}.

(** The handler: the session that could not be opened collects nothing and says nothing;
    the token is read once, after the system information. *)
Definition execute {T} `{SnmpWalkTransport T, SnmpGet T, MapOrder} (cut : SnmpQuery → T → option T) (cancelled : bool)
    (session : option T) (d : HostData) : result (option SnmpReport) AttemptOutcome :=
  match session with
  | None => Ok None
  | Some t =>
      let '(t, info) := read_system_info cut t in
      if cancelled then Err Cancelled
      else let '(_, tb) := read_tables (out_parse_mac o) cut t in Ok (Some (report info tb d))
  end.
End Report.
