(* ===== verification/SnmpThms.v ===== *)
(** What the tables of an SNMP collection are, for any agent: which interfaces a walk of
    the interface table may list, that every LLDP row is kept or accounted for, which
    VLANs a port carries, and that whatever a collection does not vouch for is reported. *)

From S2P Require Import Prelude Net Ports Entities Lldp Hosts HostMatch Interfaces Subnets Topology Credentials Warnings SnmpWalk SnmpQueries SnmpCollect.
Local Open Scope Z_scope.

(** ** Columns: a query is a fold over the rows its columns gave *)

Section Columns.
Context {T : Type} `{SnmpWalkTransport T} {C : Type}.

Fixpoint column_rows (columns : list (string * C)) (t : T) : list (C * oid * Value) :=
  match columns with
  | [] => []
  | (base, c) :: columns' =>
      let '(t', entries, _) := walk_subtree t (base_parts base) in
      ((λ e, (c, e.1, e.2)) <$> entries) ++ column_rows columns' t'
  end.

Fixpoint column_stops (columns : list (string * C)) (t : T) : list (C * WalkStop) :=
  match columns with
  | [] => []
  | (base, c) :: columns' =>
      let '(t', _, stop) := walk_subtree t (base_parts base) in (c, stop) :: column_stops columns' t'
  end.

Fixpoint column_session (columns : list (string * C)) (t : T) : T :=
  match columns with
  | [] => t
  | (base, _) :: columns' => column_session columns' (walk_subtree t (base_parts base)).1.1
  end.

Definition recorded (stops : list (C * WalkStop)) (f : Shortfall) : Shortfall := foldl (λ f s, record s.2 f) f stops.

Lemma walk_columns_eq {A} (on_entry : C → oid → Value → A → A) columns t f a :
  walk_columns on_entry columns t f a
  = (column_session columns t, recorded (column_stops columns t) f,
     foldl (λ a r, on_entry r.1.1 r.1.2 r.2 a) a (column_rows columns t), column_stops columns t).
Proof.
  revert t f a. induction columns as [|[b c] columns IH]; intros t f a; [done|].
  cbn [walk_columns column_rows column_stops column_session]. unfold walk_column.
  destruct (walk_subtree t (base_parts b)) as [[t1 es] stop] eqn:E. cbn [fst snd].
  rewrite IH, foldl_app, foldl_fmap. done.
Qed.

Lemma stop_has_reason stop : is_complete stop = false → is_Some (stop_reason stop).
Proof. destruct stop; naive_solver. Qed.

Lemma recorded_complete stops f :
  sf_complete (recorded stops f) = sf_complete f && forallb (λ s, is_complete s.2) stops.
Proof.
  revert f. induction stops as [|[c s] stops IH]; intros f; cbn; [by rewrite andb_true_r|].
  unfold recorded in IH. rewrite IH. unfold record. destruct (is_complete s); cbn; [done|by rewrite andb_false_r].
Qed.

(** A shortfall says why as soon as it is one. *)
Definition explained (f : Shortfall) : Prop := sf_complete f = false → is_Some (sf_reason f).

Lemma record_explained s f : explained f → explained (record s f).
Proof.
  unfold explained, record. intros Hf. destruct (is_complete s) eqn:E; [done|]. cbn. intros _.
  destruct (sf_reason f); [done|by apply stop_has_reason].
Qed.

Lemma recorded_explained stops f : explained f → explained (recorded stops f).
Proof. revert f. induction stops as [|s stops IH]; intros f Hf; [done|]. apply IH. by apply record_explained. Qed.
End Columns.

Create HintDb snmp.
#[export] Hint Resolve record_explained recorded_explained : snmp.

(** ** The interface table *)

Section IfTableThms.
Context {T : Type} `{SnmpWalkTransport T, MapOrder}.

Definition indexes (rows : list (oid * Value)) : list Z := omap (λ e, last_index e.1) rows.

(** The rows of interfaces a known set admits. *)
Definition admitted (known : option (gset Z)) (i : Z) : bool :=
  match known with Some k => bool_decide (i ∈ k) | None => true end.

Definition rows_wf (m : gmap Z IfTableEntry) : Prop := ∀ i e, m !! i = Some e → ie_if_index e = i.

Lemma upsert_wf i c v m : rows_wf m → rows_wf (upsert i (empty_if_entry i) (set_if_column c v) m).
Proof.
  intros Hm j e. unfold upsert. destruct (decide (i = j)) as [->|Hne]; [|rewrite lookup_insert_ne by done; apply Hm].
  rewrite lookup_insert_eq. intros [= <-]. cbn. destruct (m !! j) as [e'|] eqn:E; cbn; [by apply Hm|done].
Qed.

Lemma dom_upsert {K V} `{Countable K} (k : K) (new : V) f m : dom (upsert k new f m) = {[k]} ∪ dom m.
Proof. unfold upsert. by rewrite dom_insert_L. Qed.

Lemma filter_admitted_none l :
  List.filter (admitted None) l = l ∧ List.filter (λ i, negb (admitted None i)) l = [].
Proof. split; [by apply filter_all|by apply filter_none]. Qed.

Lemma if_entry_row_spec known c s v a :
  let a' := if_entry_row known c s v a in
  dom (if_rows a') = dom (if_rows a) ∪ list_to_set (List.filter (admitted known) (option_list (last_index s)))
  ∧ column_indexes a' = column_indexes a ∪ list_to_set (option_list (last_index s))
  ∧ column_foreign a' = (column_foreign a + length (List.filter (λ i, negb (admitted known i)) (option_list (last_index s))))%nat
  ∧ (rows_wf (if_rows a) → rows_wf (if_rows a')).
Proof.
  unfold if_entry_row, last_index. destruct (list.last s) as [x|]; cbn [fmap option_fmap option_map option_list];
    [|split_and!; [by apply symmetry, union_empty_r_L|by apply symmetry, union_empty_r_L|cbn; lia|done]].
  change (option_list (Some (as_i32 x))) with [as_i32 x]. cbn [List.filter]. unfold admitted.
  destruct known as [k|]; [destruct (bool_decide (as_i32 x ∈ k))|]; cbn [negb if_rows column_indexes column_foreign];
    rewrite ?dom_upsert; (split; [|split; [|split]]).
  all: try (cbn [length]; lia). all: try set_solver. all: auto using upsert_wf.
Qed.

Lemma indexes_cons s v rows : indexes ((s, v) :: rows) = option_list (last_index s) ++ indexes rows.
Proof. unfold indexes. cbn [omap list_omap fst]. by destruct (last_index s). Qed.

Lemma if_rows_fold known c rows a :
  let a' := foldl (λ a e, if_entry_row known c e.1 e.2 a) a rows in
  dom (if_rows a') = dom (if_rows a) ∪ list_to_set (List.filter (admitted known) (indexes rows))
  ∧ column_indexes a' = column_indexes a ∪ list_to_set (indexes rows)
  ∧ column_foreign a' = (column_foreign a + length (List.filter (λ i, negb (admitted known i)) (indexes rows)))%nat
  ∧ (rows_wf (if_rows a) → rows_wf (if_rows a')).
Proof.
  revert a. induction rows as [|[s v] rows IH]; intros a;
    [split_and!; [by apply symmetry, union_empty_r_L|by apply symmetry, union_empty_r_L|cbn; lia|done]|].
  rewrite indexes_cons. cbn [foldl fst snd].
  destruct (IH (if_entry_row known c s v a)) as (Hd & Hi & Hf & Hw).
  destruct (if_entry_row_spec known c s v a) as (Hd' & Hi' & Hf' & Hw').
  cbv zeta. rewrite !List.filter_app, !list_to_set_app_L, length_app, Hd, Hi, Hf, Hd', Hi', Hf'.
  split_and!; [set_solver|set_solver|lia|auto].
Qed.

(** One turn of the loop on a column of attributes. *)
Lemma if_column_step_spec base c t s :
  c ≠ IfIndex → rows_wf (il_rows s) →
  let rows := (walk_subtree t (base_parts base)).1.2 in
  let s' := (if_column_step base c t s).2 in
  (if_column_step base c t s).1 = (walk_subtree t (base_parts base)).1.1
  ∧ dom (il_rows s') = dom (il_rows s) ∪ list_to_set (List.filter (admitted (known_if_indexes s)) (indexes rows))
  ∧ foreign_rows s' = (foreign_rows s + length (List.filter (λ i, negb (admitted (known_if_indexes s) i)) (indexes rows)))%nat
  ∧ known_if_indexes s' = known_if_indexes s ∧ index_column_complete s' = index_column_complete s
  ∧ rows_wf (il_rows s').
Proof.
  intros Hc Hw. unfold if_column_step, on. destruct (walk_subtree t (base_parts base)) as [[t1 rows] stop]. cbn [fst snd].
  destruct (if_rows_fold (known_if_indexes s) c rows
    {| if_rows := il_rows s; column_indexes := ∅; column_foreign := 0 |}) as (Hd & _ & Hf & Hr).
  cbn [if_rows column_foreign] in *. rewrite (bool_decide_eq_false_2 (c = IfIndex)) by done.
  cbn [andb il_rows foreign_rows known_if_indexes index_column_complete]. rewrite Hf. eauto 10.
Qed.

Lemma indexes_column c (rows : list (oid * Value)) :
  omap (λ r : IfColumn * oid * Value, last_index r.1.2) ((λ e, (c, e.1, e.2)) <$> rows) = indexes rows.
Proof. unfold indexes. induction rows as [|[s v] rows IH]; [done|]. cbn. by destruct (last_index s); rewrite IH. Qed.

Definition row_indexes (rows : list (IfColumn * oid * Value)) : list Z := omap (λ r, last_index r.1.2) rows.

(** All columns of attributes together. *)
Lemma if_columns_loop_spec columns t s :
  Forall (λ c, c.2 ≠ IfIndex) columns → rows_wf (il_rows s) →
  let rows := row_indexes (column_rows columns t) in
  let s' := (if_columns_loop columns t s).2 in
  dom (il_rows s') = dom (il_rows s) ∪ list_to_set (List.filter (admitted (known_if_indexes s)) rows)
  ∧ foreign_rows s' = (foreign_rows s + length (List.filter (λ i, negb (admitted (known_if_indexes s) i)) rows))%nat
  ∧ index_column_complete s' = index_column_complete s
  ∧ rows_wf (il_rows s').
Proof.
  revert t s. induction columns as [|[base c] columns IH]; intros t s Hc Hw;
    [cbv zeta; split_and!; [by apply symmetry, union_empty_r_L|cbn; lia|done|done]|].
  apply Forall_cons_1 in Hc as [Hc Hcs]. cbn [if_columns_loop column_rows].
  pose proof (if_column_step_spec base c t s Hc Hw) as Hs. cbv zeta in Hs.
  destruct (if_column_step base c t s) as [t' s1], (walk_subtree t (base_parts base)) as [[t1 es] stop].
  cbn [fst snd] in Hs. destruct Hs as (-> & Hd & Hf & Hk & Hi & Hw1).
  destruct (IH t1 s1 Hcs Hw1) as (Hd' & Hf' & Hi' & Hw'). cbv zeta. unfold row_indexes in *.
  rewrite omap_app, indexes_column, !List.filter_app, list_to_set_app_L, length_app, Hd', Hf', Hi', Hk, Hd, Hf.
  split_and!; [set_solver|lia|done|done].
Qed.

(** The column of indexes, which is walked first. *)
Lemma if_index_step t :
  let rows := (walk_subtree t (base_parts Oids.IF_INDEX)).1.2 in
  let stop := (walk_subtree t (base_parts Oids.IF_INDEX)).2 in
  let s := (if_column_step Oids.IF_INDEX IfIndex t if_loop_start).2 in
  (if_column_step Oids.IF_INDEX IfIndex t if_loop_start).1 = (walk_subtree t (base_parts Oids.IF_INDEX)).1.1
  ∧ dom (il_rows s) = list_to_set (indexes rows) ∧ foreign_rows s = 0%nat ∧ rows_wf (il_rows s)
  ∧ index_column_complete s = Some (is_complete stop)
  ∧ known_if_indexes s = if bool_decide (indexes rows = []) then None else Some (list_to_set (indexes rows)).
Proof.
  unfold if_column_step, on. destruct (walk_subtree t (base_parts Oids.IF_INDEX)) as [[t1 rows] stop]. cbn [fst snd].
  destruct (if_rows_fold None IfIndex rows {| if_rows := ∅; column_indexes := ∅; column_foreign := 0 |})
    as (Hd & Hi & Hf & Hr).
  cbn [if_rows column_foreign column_indexes] in *. change (known_if_indexes if_loop_start) with (@None (gset Z)).
  cbn [if_loop_start il_rows il_complete foreign_rows known_if_indexes index_column_complete].
  rewrite (bool_decide_eq_true_2 (IfIndex = IfIndex)) by done. cbn [andb].
  rewrite Hi, !union_empty_l_L, Hf. rewrite dom_empty_L, union_empty_l_L in Hd.
  destruct (filter_admitted_none (indexes rows)) as [Ha Hb].
  rewrite Ha in Hd. rewrite Hb. split_and!; try done.
  - apply Hr. intros i e. by rewrite lookup_empty.
  - destruct (indexes rows) as [|x l] eqn:E; [by rewrite bool_decide_eq_true_2|].
    rewrite (bool_decide_eq_false_2 (_ = ∅)) by set_solver. done.
Qed.

Lemma if_entry_leb_total x y : if_entry_leb x y = true ∨ if_entry_leb y x = true.
Proof. unfold if_entry_leb. lia. Qed.
Lemma if_entry_leb_trans x y z : if_entry_leb x y = true → if_entry_leb y z = true → if_entry_leb x z = true.
Proof. unfold if_entry_leb. lia. Qed.

(** The entries of the result are those of the map, by index. *)
Lemma if_result_indexes (m : gmap Z IfTableEntry) :
  rows_wf m →
  let l := ie_if_index <$> sort_by if_entry_leb (map_iter m).*2 in
  NoDup l ∧ StronglySorted Z.le l ∧ ∀ i, i ∈ l ↔ i ∈ dom m.
Proof.
  intros Hw. cbv zeta.
  assert (ie_if_index <$> sort_by if_entry_leb (map_iter m).*2 ≡ₚ (map_iter m).*1) as Hp.
  { rewrite sort_by_perm, <- list_fmap_compose. erewrite list_fmap_ext; [reflexivity|].
    intros k [i e] Hk%list_elem_of_lookup_2%elem_of_map_iter. by apply Hw. }
  split_and!.
  - rewrite Hp. apply NoDup_map_iter.
  - pose proof (sort_by_sorted if_entry_leb if_entry_leb_total if_entry_leb_trans (map_iter m).*2) as Hs.
    revert Hs. generalize (sort_by if_entry_leb (map_iter m).*2) as l. clear.
    induction 1 as [|e l _ IH Hf]; [constructor|]. rewrite fmap_cons. constructor; [exact IH|].
    apply Forall_fmap. eapply Forall_impl; [|exact Hf]. intros x. unfold if_entry_leb, compose. cbn. lia.
  - intros i. rewrite Hp, elem_of_dom, list_elem_of_fmap. split.
    + intros ([k e] & -> & Hk%elem_of_map_iter). by eexists.
    + intros [e He]. exists (i, e). split; [done|by apply elem_of_map_iter].
Qed.

Lemma if_table_cases (t : T) :
  let '(t1, rows, stop) := walk_subtree t (base_parts Oids.IF_INDEX) in
  let listed := indexes rows in
  let others := row_indexes (column_rows if_attribute_columns t1) in
  let w := (walk_if_table t).2 in
  let found := ie_if_index <$> it_entries w in
  NoDup found ∧ StronglySorted Z.le found
  ∧ (listed ≠ [] →
       (∀ i, i ∈ found ↔ i ∈ listed)
       ∧ (it_set_complete w = true ↔ is_complete stop = true ∧ ∀ i, i ∈ others → i ∈ listed))
  ∧ (listed = [] → (∀ i, i ∈ found ↔ i ∈ others) ∧ it_set_complete w = is_complete stop).
Proof.
  pose proof (if_index_step t) as Hs. cbv zeta in Hs. unfold walk_if_table, if_columns. cbn [if_columns_loop].
  destruct (if_column_step Oids.IF_INDEX IfIndex t if_loop_start) as [t' s],
    (walk_subtree t (base_parts Oids.IF_INDEX)) as [[t1 rows] stop]. cbn [fst snd] in Hs.
  destruct Hs as (-> & Hd & Hf & Hw & Hi & Hk). cbv zeta.
  pose proof (if_columns_loop_spec if_attribute_columns t1 s ltac:(repeat constructor; done) Hw) as Hl. cbv zeta in Hl.
  destruct (if_columns_loop if_attribute_columns t1 s) as [t2 s']. cbn [fst snd] in *.
  destruct Hl as (Hd' & Hf' & Hi' & Hw'). destruct (if_result_indexes (il_rows s') Hw') as (Hn & Hso & Hin).
  unfold if_table_result. cbn [it_entries it_set_complete]. rewrite Hi', Hi, Hf', Hf, Hk. cbn [Nat.add].
  split; [done|]. split; [done|]. setoid_rewrite Hin. rewrite Hd', Hd, Hk. split.
  - intros Hne. rewrite (bool_decide_eq_false_2 (indexes rows = [])) by done. split.
    + intros i. rewrite elem_of_union, !elem_of_list_to_set, elem_of_list_filter_bool. cbn [admitted].
      rewrite bool_decide_eq_true, elem_of_list_to_set. tauto.
    + destruct (is_complete stop); [|naive_solver]. rewrite Nat.eqb_eq, length_zero_iff_nil. split.
      * intros Hnil. split; [done|]. intros i Hi0. destruct (decide (i ∈ indexes rows)) as [|Hout]; [done|exfalso].
        apply (not_elem_of_nil i). rewrite <- Hnil. apply elem_of_list_filter_bool. cbn [admitted].
        rewrite bool_decide_eq_false_2; [done|]. by rewrite elem_of_list_to_set.
      * intros [_ Hall]. apply filter_none. intros i Hi0%Hall. cbn [admitted].
        rewrite bool_decide_eq_true_2; [done|]. by rewrite elem_of_list_to_set.
  - intros ->. rewrite bool_decide_eq_true_2 by done. change (list_to_set [] : gset Z) with (∅ : gset Z). rewrite union_empty_l_L.
    destruct (filter_admitted_none (row_indexes (column_rows if_attribute_columns t1))) as [-> ->]. split.
    + intros i. by rewrite elem_of_list_to_set.
    + by destruct (is_complete stop).
Qed.

(** C37. For an agent whose index column named at least one interface: the interface table
    the walk returns lists each interface once, in order, and is exactly what the index
    column named, also where that column was cut short and whatever the other columns
    answered; and it is called complete exactly when the index column ran to its end and no
    other column answered for an interface outside it.  (An agent whose index column names
    nothing is [indexless_table_called_complete].) *)
Theorem if_table_listed (t t1 : T) rows stop :
  walk_subtree t (base_parts Oids.IF_INDEX) = (t1, rows, stop) → indexes rows ≠ [] →
  let others := row_indexes (column_rows if_attribute_columns t1) in
  let w := (walk_if_table t).2 in
  let found := ie_if_index <$> it_entries w in
  NoDup found ∧ StronglySorted Z.le found
  ∧ (∀ i, i ∈ found ↔ i ∈ indexes rows)
  ∧ (it_set_complete w = true ↔ is_complete stop = true ∧ ∀ i, i ∈ others → i ∈ indexes rows).
Proof.
  intros Hwalk Hne. pose proof (if_table_cases t) as Hc. rewrite Hwalk in Hc. cbv zeta in *.
  destruct Hc as (Hn & Hs & Hl & _). destruct (Hl Hne) as [Hin Hset]. done.
Qed.
End IfTableThms.

(** ** LLDP *)

Section LldpThms.
Context {T : Type} `{SnmpWalkTransport T, MapOrder}.

Definition row_key (r : LldpColumn * oid * Value) : option (Z * Z) := neighbor_key r.1.2.
Definition row_keys (rows : list (LldpColumn * oid * Value)) : list (Z * Z) := omap row_key rows.
Definition unreadable (rows : list (LldpColumn * oid * Value)) : nat :=
  length (List.filter (λ r, bool_decide (row_key r = None)) rows).

Definition lldp_wf (m : gmap (Z * Z) LldpNeighbor) : Prop := ∀ k n, m !! k = Some n → ln_local_port_index n = k.1.

Lemma row_keys_cons r rows : row_keys (r :: rows) = option_list (row_key r) ++ row_keys rows.
Proof. unfold row_keys. cbn [omap list_omap]. by destruct (row_key r). Qed.

Lemma unreadable_cons r rows :
  unreadable (r :: rows) = (match row_key r with Some _ => 0 | None => 1 end + unreadable rows)%nat.
Proof. unfold unreadable. cbn [List.filter]. by destruct (row_key r). Qed.

Lemma lldp_fold rows a :
  let a' := foldl (λ a r, lldp_row r.1.1 r.1.2 r.2 a) a rows in
  dom (lldp_rows a') = dom (lldp_rows a) ∪ list_to_set (row_keys rows)
  ∧ short_index a' = (short_index a + unreadable rows)%nat
  ∧ (lldp_wf (lldp_rows a) → lldp_wf (lldp_rows a')).
Proof.
  revert a. induction rows as [|[[c s] v] rows IH]; intros a;
    [cbv zeta; split_and!; [by apply symmetry, union_empty_r_L|cbn; lia|done]|].
  cbn [foldl fst snd]. destruct (IH (lldp_row c s v a)) as (Hd & Hs & Hw). cbv zeta. rewrite Hd, Hs. clear IH Hd Hs.
  rewrite row_keys_cons, unreadable_cons. change (row_key (c, s, v)) with (neighbor_key s).
  unfold lldp_row in *. destruct (neighbor_key s) as [k|] eqn:Ek; cbn [lldp_rows short_index] in *.
  - change (option_list (Some k)) with [k]. rewrite dom_upsert, list_to_set_app_L. split; [set_solver|]. split; [done|]. intros Hm. apply Hw. intros k' n. unfold upsert.
    destruct (decide (k = k')) as [->|Hne]; [|rewrite lookup_insert_ne by done; apply Hm].
    rewrite lookup_insert_eq. intros [= <-]. cbn. destruct (lldp_rows a !! k') as [n'|] eqn:E; cbn; [by apply Hm|done].
  - split; [done|]. split; [lia|done].
Qed.

Lemma mgmt_fold (rows : list (oid * Value)) m :
  let m' := foldl (λ m e, mgmt_row e.1 e.2 m) m rows in
  dom m' = dom m ∧ (lldp_wf m → lldp_wf m').
Proof.
  revert m. induction rows as [|[s v] rows IH]; intros m; [done|]. cbn [foldl fst snd].
  destruct (IH (mgmt_row s v m)) as [Hd Hw]. cbv zeta. rewrite Hd. clear IH Hd.
  assert (dom (mgmt_row s v m) = dom m ∧ (lldp_wf m → lldp_wf (mgmt_row s v m))) as [-> Hw'].
  { unfold mgmt_row. destruct (split_lldp_man_addr_index s) as [[[p r] buf]|]; [|done].
    destruct (parse_lldp_mgmt_addr buf) as [addr|]; [|done]. split; [by rewrite dom_alter_L|].
    intros Hm k n. rewrite lookup_alter_Some. intros [[<- (n' & Hn & ->)]|[_ Hn]]; [cbn; by apply (Hm _ _ Hn)|by apply Hm]. }
  auto.
Qed.

Lemma length_kept_lost keys (l : list (Z * Z * LldpNeighbor)) :
  (length (kept_neighbors l) + (count_lost false keys l + count_lost true keys l) = length l)%nat.
Proof.
  unfold kept_neighbors, count_lost. rewrite length_fmap. induction l as [|[k n] l IH]; [done|].
  cbn [List.filter fst snd]. destruct (has_chassis n), (bool_decide (k ∈ keys)); cbn [negb andb Bool.eqb length]; lia.
Qed.

Lemma all_kept (l : list (Z * Z * LldpNeighbor)) :
  (length l ≤ length (kept_neighbors l))%nat → ∀ e, e ∈ l → has_chassis e.2 = true.
Proof.
  unfold kept_neighbors. rewrite length_fmap. intros Hl e He.
  destruct (has_chassis e.2) eqn:E; [done|exfalso].
  pose proof (Permutation_length (filter_split_perm (λ e, has_chassis e.2) l)) as Hp. rewrite length_app in Hp.
  assert (length (List.filter (λ e, negb (has_chassis e.2)) l) = 0)%nat as Hz%nil_length_inv by lia.
  apply (not_elem_of_nil e). rewrite <- Hz. apply elem_of_list_filter_bool. by rewrite E.
Qed.

Lemma dominant_none g m s w cut : dominant_discard_reason g m s w cut = None ↔ (g + m + s)%nat = 0%nat.
Proof.
  unfold dominant_discard_reason. destruct (Nat.eqb_spec (g + m + s) 0) as [|Hne]; [done|].
  split; [|done]. destruct cut; [done|]. destruct g, m, s; try done; lia.
Qed.

Lemma dominant_cut g m s w cut :
  dominant_discard_reason g m s w cut = Some WalkCutShort ↔ (g + m + s)%nat ≠ 0%nat ∧ cut = true.
Proof.
  unfold dominant_discard_reason. destruct (Nat.eqb_spec (g + m + s) 0) as [E|Hne]; [naive_solver|].
  destruct cut; [naive_solver|]. split; [|naive_solver].
  destruct g, m, s; cbn; unfold larger; cbn; repeat case_match; naive_solver.
Qed.

(** C38. For every agent, an LLDP query accounts for every row it read: the neighbours it
    returns, all with a chassis id, and the records it says it discarded make up the
    distinct neighbours its rows named together with the rows it could not key.  A reason is
    given exactly when something was discarded, and it promises that a rescan may help
    exactly when a chassis column was cut short.  The result is called complete exactly when
    nothing was discarded and every column ran to its end; then each neighbour any row
    named is in it. *)
Theorem lldp_rows_accounted (t : T) :
  let rows := column_rows lldp_columns t in
  let stops := column_stops lldp_columns t in
  let c := (query_lldp_neighbors t).2 in
  Forall (λ n, is_Some (remote_chassis_id_subtype n) ∧ is_Some (remote_chassis_id_bytes n)) (records c)
  ∧ (length (records c) + discarded c)%nat = (size (list_to_set (row_keys rows) : gset (Z * Z)) + unreadable rows)%nat
  ∧ (discard_reason c = None ↔ discarded c = 0%nat)
  ∧ (discard_reason c = Some WalkCutShort
     ↔ discarded c ≠ 0%nat ∧ ∃ s, s ∈ stops ∧ is_chassis s.1 = true ∧ is_complete s.2 = false)
  ∧ (complete c = true ↔ discarded c = 0%nat ∧ ∀ s, s ∈ stops → is_complete s.2 = true)
  ∧ (complete c = true → ∀ k, k ∈ row_keys rows → ∃ n, n ∈ records c ∧ ln_local_port_index n = k.1).
Proof.
  cbv zeta. unfold query_lldp_neighbors. rewrite walk_columns_eq. set (rows := column_rows lldp_columns t).
  set (stops := column_stops lldp_columns t).
  pose proof (lldp_fold rows lldp_acc_empty) as Ha. cbv zeta in Ha.
  destruct (foldl _ lldp_acc_empty rows) as [m keys ty short] eqn:Ef. cbn [lldp_rows short_index lldp_acc_empty] in Ha.
  destruct Ha as (Hd & -> & Hw). specialize (Hw ltac:(intros ? ?; by rewrite lookup_empty)).
  unfold walk_column. cbn [lldp_rows].
  destruct (walk_subtree _ (base_parts Oids.LLDP_REM_MAN_ADDR_IF_SUBTYPE)) as [[t2 es] stop]. cbn [snd].
  pose proof (mgmt_fold es m) as Hm. cbv zeta in Hm. set (m' := foldl _ m es) in *. destruct Hm as [Hd' Hw'].
  specialize (Hw' Hw). clearbody m'. clear Ef Hw.
  assert (length (map_iter m') = size (list_to_set (row_keys rows) : gset (Z * Z))) as Hlen.
  { rewrite (map_iter_perm m'), length_map_to_list, <- size_dom, Hd', Hd, dom_empty_L, union_empty_l_L. done. }
  pose proof (length_kept_lost keys (map_iter m')) as Hk.
  unfold lldp_result. cbn [records discarded discard_reason complete chassis_keys short_index].
  rewrite dominant_none, dominant_cut, recorded_complete. cbn [no_shortfall sf_complete andb].
  split_and!.
  - apply Forall_forall. intros n (e & -> & [He _]%elem_of_list_filter_bool)%list_elem_of_In%list_elem_of_fmap.
    unfold has_chassis in He. apply andb_true_iff in He as [He1%bool_decide_eq_true He2%bool_decide_eq_true]. done.
  - lia.
  - lia.
  - rewrite existsb_exists. setoid_rewrite <- list_elem_of_In. setoid_rewrite andb_true_iff. setoid_rewrite negb_true_iff.
    split; intros [Hn Hx]; (split; [lia|done]).
  - rewrite andb_true_iff, forallb_forall, Nat.eqb_eq. setoid_rewrite <- list_elem_of_In. tauto.
  - intros [_ Hz%Nat.eqb_eq]%andb_true_iff k Hkey.
    assert (k ∈ dom m') as [n Hn]%elem_of_dom by (rewrite Hd', Hd; set_solver).
    exists n. split; [|by apply Hw'].
    unfold kept_neighbors. apply list_elem_of_fmap. exists (k, n). split; [done|].
    rewrite filter_all; [by apply elem_of_map_iter|]. apply all_kept. lia.
Qed.
End LldpThms.
