(* ===== verification/SnmpCollectThms.v ===== *)
(** The SNMP collection as a whole, for any agent and any timing of its queries: which
    VLANs a port carries, where the LLDP neighbours end up, what of a host it leaves alone,
    and that a group of data it does not vouch for is always reported. *)

From S2P Require Import Prelude Net Ports Entities Lldp Hosts HostMatch Interfaces Subnets Topology Credentials Warnings SnmpWalk SnmpQueries SnmpCollect SnmpThms.
Local Open Scope Z_scope.

(** ** Port lists and VLANs *)

(** Port [p] of a port list: bit [7 - (p - 1) mod 8] of octet [(p - 1) / 8]. *)
Definition port_bit (l : bytes) (p : Z) : Prop :=
  1 ≤ p ∧ ∃ byte, l !! Z.to_nat ((p - 1) / 8) = Some byte ∧ Z.testbit byte (7 - (p - 1) mod 8) = true.

Lemma shiftr_128 (bit : nat) : (bit < 8)%nat → Z.shiftr 128 (Z.of_nat bit) = 2 ^ (7 - Z.of_nat bit).
Proof. intros Hb. do 8 (destruct bit as [|bit]; [done|]). lia. Qed.

Lemma land_pow2_eqb x n : 0 ≤ n → (Z.land x (2 ^ n) =? 0) = negb (Z.testbit x n).
Proof.
  intros Hn. destruct (Z.testbit x n) eqn:E; cbn [negb].
  - apply Z.eqb_neq. intros Hz. apply (f_equal (λ z, Z.testbit z n)) in Hz.
    rewrite Z.land_spec, Z.pow2_bits_true, E, Z.bits_0 in Hz by done. done.
  - apply Z.eqb_eq. apply Z.bits_inj'. intros k Hk. rewrite Z.land_spec, Z.bits_0.
    destruct (decide (k = n)) as [->|Hne]; [by rewrite E|]. by rewrite Z.pow2_bits_false, andb_false_r by done.
Qed.

Lemma elem_of_octet_ports i byte p :
  p ∈ octet_ports i byte ↔ ∃ bit : nat, (bit < 8)%nat ∧ p = Z.of_nat i * 8 + Z.of_nat bit + 1 ∧ Z.testbit byte (7 - Z.of_nat bit) = true.
Proof.
  unfold octet_ports. rewrite list_elem_of_omap. setoid_rewrite elem_of_seq. split.
  - intros (bit & Hb & Hp). rewrite shiftr_128, land_pow2_eqb in Hp by lia. exists bit.
    destruct (Z.testbit byte (7 - Z.of_nat bit)); [|done]. injection Hp as <-. split_and!; [lia|done|done].
  - intros (bit & Hb & -> & Ht). exists bit. rewrite shiftr_128, land_pow2_eqb, Ht by lia. split; [lia|done].
Qed.

Lemma elem_of_portlist l p : p ∈ parse_portlist_bitmap l ↔ port_bit l p.
Proof.
  unfold parse_portlist_bitmap, port_bit. rewrite list_elem_of_join. split.
  - intros (ps & Hps & (i & byte & -> & Hi)%elem_of_lookup_imap_1).
    apply elem_of_octet_ports in Hps as (bit & Hb & -> & Ht).
    replace (Z.of_nat i * 8 + Z.of_nat bit + 1 - 1) with (Z.of_nat bit + Z.of_nat i * 8) by lia.
    rewrite Z.div_add, Z.mod_add, Z.div_small, Z.mod_small, Z.add_0_l, Nat2Z.id by lia.
    split; [lia|by exists byte].
  - intros [Hp (byte & Hl & Ht)]. exists (octet_ports (Z.to_nat ((p - 1) / 8)) byte).
    assert (p ∈ octet_ports (Z.to_nat ((p - 1) / 8)) byte).
    { apply elem_of_octet_ports. exists (Z.to_nat ((p - 1) mod 8)).
      pose proof (Z.mod_pos_bound (p - 1) 8 ltac:(lia)). pose proof (Z.div_mod (p - 1) 8 ltac:(lia)).
      pose proof (Z.div_pos (p - 1) 8 ltac:(lia) ltac:(lia)). rewrite !Z2Nat.id by lia. split_and!; [lia|lia|done]. }
    split; [done|]. by apply elem_of_lookup_imap_2.
Qed.

(** The rows of a port list name VLAN [v] for port [p]. *)
Definition vlan_on (rows : list (oid * Value)) (v p : Z) : Prop :=
  ∃ s x b, (s, VOctetString b) ∈ rows ∧ list.last s = Some x ∧ as_u16 x = v ∧ port_bit b p.

Lemma add_vlan_fold vlan ports m v p :
  v ∈ default [] (foldl (add_vlan vlan) m ports !! p) ↔ v ∈ default [] (m !! p) ∨ (v = vlan ∧ p ∈ ports).
Proof.
  revert m. induction ports as [|q ports IH]; intros m; cbn [foldl]; [set_solver|].
  rewrite IH. unfold add_vlan, upsert. destruct (decide (q = p)) as [->|Hne].
  - rewrite lookup_insert_eq. cbn. set_solver.
  - rewrite lookup_insert_ne by done. set_solver.
Qed.

Lemma portlist_fold rows m v p :
  v ∈ default [] (foldl (λ m e, portlist_row e.1 e.2 m) m rows !! p) ↔ v ∈ default [] (m !! p) ∨ vlan_on rows v p.
Proof.
  unfold vlan_on. revert m. induction rows as [|[s w] rows IH]; intros m; cbn [foldl fst snd]; [set_solver|].
  rewrite IH. setoid_rewrite elem_of_cons.
  assert (v ∈ default [] (portlist_row s w m !! p)
          ↔ v ∈ default [] (m !! p) ∨ ∃ x b, w = VOctetString b ∧ list.last s = Some x ∧ as_u16 x = v ∧ port_bit b p) as ->.
  { unfold portlist_row. destruct (list.last s) as [x|] eqn:El; [|naive_solver].
    destruct w as [| | |b| | | | | | | | | | | | | |]; try naive_solver.
    rewrite add_vlan_fold, elem_of_portlist. naive_solver. }
  naive_solver.
Qed.

Lemma elem_of_tagged egress untagged v :
  v ∈ tagged_of egress untagged ↔ v ∈ default [] egress ∧ v ∉ default [] untagged.
Proof. unfold tagged_of. rewrite elem_of_list_filter_bool, negb_true_iff, bool_decide_eq_false. tauto. Qed.

(** The value of the last row that reads for a port. *)
Definition last_for {V} (val : Value → option V) (rows : list (oid * Value)) (p : Z) : option V :=
  list.last (omap (λ e, if bool_decide (last_index e.1 = Some p) then val e.2 else None) rows).

Lemma put_row_fold {V} (val : Value → option V) rows p :
  foldl (λ m e, put_row last_index val e.1 e.2 m) ∅ rows !! p = last_for val rows p.
Proof.
  unfold last_for. induction rows as [|[s w] rows IH] using rev_ind; [done|].
  rewrite foldl_app, omap_app. cbn [foldl fst snd omap list_omap]. set (m := foldl _ _ _) in *. unfold put_row.
  destruct (last_index s) as [k|] eqn:Ek; cbn [fst snd].
  - destruct (val w) as [x|] eqn:Ex; [destruct (decide (k = p)) as [->|Hne]|].
    + rewrite lookup_insert_eq, bool_decide_eq_true_2 by done. by rewrite last_snoc.
    + rewrite lookup_insert_ne, bool_decide_eq_false_2 by naive_solver. by rewrite app_nil_r.
    + destruct (bool_decide _); by rewrite app_nil_r.
  - rewrite bool_decide_eq_false_2 by done. by rewrite app_nil_r.
Qed.

Section Vlans.
Context {T : Type} `{SnmpWalkTransport T, MapOrder}.

(** What a membership says of a bridge port, from the rows of the three columns. *)
Definition describes (pvids egress untagged : list (oid * Value)) (p : Z) (m : PortVlanMembership) : Prop :=
  pv_native_vlan m = last_for value_to_u16 pvids p
  ∧ ∀ v, v ∈ pv_tagged_vlans m ↔ vlan_on egress v p ∧ ¬ vlan_on untagged v p.

Lemma port_membership_spec pvids egress untagged p i m :
  let native := foldl (λ m e, put_row last_index value_to_u16 e.1 e.2 m) ∅ pvids in
  let fold rows := foldl (λ m e, portlist_row e.1 e.2 m) ∅ rows in
  port_membership native (fold egress) (fold untagged) (p, i) = Some m →
  pv_if_index m = i ∧ describes pvids egress untagged p m.
Proof.
  cbv zeta. unfold port_membership, describes. cbn [fst snd]. rewrite put_row_fold. intros Hm.
  assert (m = {| pv_if_index := i; pv_native_vlan := last_for value_to_u16 pvids p;
                 pv_tagged_vlans := tagged_of (foldl (λ m e, portlist_row e.1 e.2 m) ∅ egress !! p)
                                      (foldl (λ m e, portlist_row e.1 e.2 m) ∅ untagged !! p) |}) as ->
    by (destruct (last_for _ _ _), (tagged_of _ _); by simplify_eq/=).
  cbn. split; [done|]. split; [done|]. intros v. rewrite elem_of_tagged, !portlist_fold, lookup_empty. set_solver.
Qed.

Lemma port_membership_None pvids egress untagged p i :
  let native := foldl (λ m e, put_row last_index value_to_u16 e.1 e.2 m) ∅ pvids in
  let fold rows := foldl (λ m e, portlist_row e.1 e.2 m) ∅ rows in
  port_membership native (fold egress) (fold untagged) (p, i) = None →
  last_for value_to_u16 pvids p = None ∧ ∀ v, vlan_on egress v p → vlan_on untagged v p.
Proof.
  cbv zeta. unfold port_membership. cbn [fst snd]. rewrite put_row_fold. intros Hn.
  destruct (last_for _ _ _); [by destruct (tagged_of _ _)|]. split; [done|]. intros v Hv.
  destruct (tagged_of _ _) as [|x l] eqn:E; [|done].
  destruct (decide (v ∈ default [] (foldl (λ m e, portlist_row e.1 e.2 m) ∅ untagged !! p))) as [Hu|Hu].
  - apply portlist_fold in Hu as [Hu|]; [by rewrite lookup_empty in Hu; apply elem_of_nil in Hu|done].
  - exfalso. apply (not_elem_of_nil v). rewrite <- E. apply elem_of_tagged. split; [|done]. apply portlist_fold. by right.
Qed.

(** C40. For every agent, the VLAN membership of a switch is what its port lists say: each
    record belongs to an interface of the bridge-port numbering, its native VLAN is the last
    one read for the port, and it is tagged with exactly the VLANs whose egress list has the
    port's bit and whose untagged list has not.  A port with any of these has a record.  The
    result is complete exactly when the numbering was and, unless it was empty, all three
    columns ran to their end. *)
Theorem port_vlans_exact (bp : SnmpCollection (gmap Z Z)) (t : T) :
  let '(t1, pvids, s1) := walk_subtree t (base_parts Oids.DOT1Q_PVID) in
  let '(t2, egress, s2) := walk_subtree t1 (base_parts Oids.DOT1Q_VLAN_CURRENT_EGRESS_PORTS) in
  let '(t3, untagged, s3) := walk_subtree t2 (base_parts Oids.DOT1Q_VLAN_CURRENT_UNTAGGED_PORTS) in
  let c := (query_port_vlan_membership bp t).2 in
  (∀ m, m ∈ records c → ∃ p, records bp !! p = Some (pv_if_index m) ∧ describes pvids egress untagged p m)
  ∧ (∀ p i, records bp !! p = Some i →
       is_Some (last_for value_to_u16 pvids p) ∨ (∃ v, vlan_on egress v p ∧ ¬ vlan_on untagged v p) →
       ∃ m, m ∈ records c ∧ pv_if_index m = i ∧ describes pvids egress untagged p m)
  ∧ complete c = complete bp && (bool_decide (records bp = ∅) || forallb is_complete [s1; s2; s3]).
Proof.
  unfold query_port_vlan_membership, walk_column.
  destruct (walk_subtree t (base_parts Oids.DOT1Q_PVID)) as [[t1 pvids] s1].
  destruct (walk_subtree t1 (base_parts Oids.DOT1Q_VLAN_CURRENT_EGRESS_PORTS)) as [[t2 egress] s2].
  destruct (walk_subtree t2 (base_parts Oids.DOT1Q_VLAN_CURRENT_UNTAGGED_PORTS)) as [[t3 untagged] s3].
  case_bool_decide as Hbp.
  - cbn. rewrite Hbp, andb_true_r. split_and!; [set_solver|by intros p i; rewrite lookup_empty|done].
  - cbn [snd from_walk records complete orb]. split_and!.
    + intros m ([p i] & Hp%elem_of_map_iter & [Hi Hd]%port_membership_spec)%list_elem_of_omap. exists p. by rewrite Hi.
    + intros p i Hp Hany. destruct (port_membership (foldl (λ m e, put_row last_index value_to_u16 e.1 e.2 m) ∅ pvids)
        (foldl (λ m e, portlist_row e.1 e.2 m) ∅ egress) (foldl (λ m e, portlist_row e.1 e.2 m) ∅ untagged) (p, i)) as [m|] eqn:Em.
      * exists m. split; [|by apply port_membership_spec]. apply list_elem_of_omap. exists (p, i). split; [by apply elem_of_map_iter|done].
      * apply port_membership_None in Em as [Hn Hv]. rewrite Hn in Hany. destruct Hany as [[? ?]|(v & He & Hu)]; [done|naive_solver].
    + unfold record, seeded. cbn [forallb]. destruct (is_complete s1), (is_complete s2), (is_complete s3), (complete bp); done.
Qed.
End Vlans.

(** ** Placing neighbours *)

Lemma on_port_Some {X} (index : X → Z) i l : is_Some (on_port index i l) ↔ i ∈ index <$> l.
Proof.
  unfold on_port. induction l as [|x l IH]; cbn; [split; [by intros []|set_solver]|].
  destruct (Z.eqb_spec (index x) i) as [<-|Hne]; [split; [set_solver|by eauto]|]. rewrite IH. set_solver.
Qed.

Lemma count_fold (idx : gset Z) ns claimed d :
  claimed ⊆ idx →
  let r := foldl (count_step idx) (claimed, d) ns in
  r.1 = claimed ∪ (idx ∩ list_to_set (ln_local_port_index <$> ns)) ∧ (r.2 + size r.1 = d + size claimed + length ns)%nat.
Proof.
  revert claimed d. induction ns as [|n ns IH]; intros claimed d Hsub; [cbn; split; [set_solver|lia]|].
  cbn [foldl fmap list_fmap length]. set (p := ln_local_port_index n). cbv zeta.
  destruct (decide (p ∈ idx ∧ p ∉ claimed)) as [[Hi Hc]|Hno].
  - assert (count_step idx (claimed, d) n = ({[p]} ∪ claimed, d)) as ->.
    { unfold count_step. fold p. cbn [fst snd]. by rewrite bool_decide_eq_true_2, bool_decide_eq_false_2. }
    destruct (IH ({[p]} ∪ claimed) d ltac:(set_solver)) as [Hr Hz].
    rewrite size_union, size_singleton in Hz by set_solver. split; [set_solver|lia].
  - assert (count_step idx (claimed, d) n = (claimed, S d)) as ->.
    { unfold count_step. fold p. cbn [fst snd]. repeat case_bool_decide; naive_solver. }
    destruct (IH claimed (S d) Hsub) as [Hr Hz]. split; [|lia]. rewrite Hr. set_unfold. intros x.
    destruct (decide (p ∈ claimed)); naive_solver.
Qed.

Definition if_indexes (l : list IfTableEntry) : gset Z := list_to_set (ie_if_index <$> l).

(** The interfaces some neighbour is recorded on. *)
Definition attached (ns : list LldpNeighbor) (l : list IfTableEntry) : gset Z :=
  filter (λ i, is_Some (on_port ln_local_port_index i ns)) (if_indexes l).

Lemma count_dropped_attached ns l : (count_dropped_neighbours ns l + size (attached ns l) = length ns)%nat.
Proof.
  unfold count_dropped_neighbours. destruct (count_fold (if_indexes l) ns ∅ 0 ltac:(set_solver)) as [Hr Hz].
  cbv zeta in *. fold (if_indexes l). rewrite size_empty in Hz.
  replace (attached ns l) with (foldl (count_step (if_indexes l)) (∅, 0%nat) ns).1; [lia|].
  rewrite Hr. unfold attached. apply set_eq. intros i. rewrite elem_of_filter, on_port_Some. set_solver.
Qed.

(** Placing the LLDP neighbours of a device changes nothing of a neighbour but the local
    port, and every one of them ends up as the neighbour an interface of the device records
    or is counted as dropped: the interfaces with a neighbour and the count make up the
    neighbours the device reported. *)
Theorem neighbours_attached_or_counted ns loc_ports l :
  let placed := (remap_lldp_local_ports ns loc_ports l).1 in
  Forall2 (λ n n', set_local_port (ln_local_port_index n) n' = n) ns placed
  ∧ (lp_dropped (remap_lldp_local_ports ns loc_ports l).2 + size (attached placed l) = length ns)%nat.
Proof.
  assert (∀ n, set_local_port (ln_local_port_index n) n = n) as Hself by by intros [].
  assert (Forall2 (λ n n', set_local_port (ln_local_port_index n) n' = n) ns (remap_lldp_local_ports ns loc_ports l).1) as Hf.
  { unfold remap_lldp_local_ports. cbn [fst]. case_bool_decide; induction ns as [|n ns IH]; cbn; constructor; try done.
    unfold place. destruct (resolve_lldp_local_port _ _ _ _) as [[i ev]|]; [by destruct n|done]. }
  split; [done|]. rewrite (Forall2_length Hf). apply count_dropped_attached.
Qed.

Definition holders (mac : Z) (l : list IfTableEntry) : list IfTableEntry :=
  List.filter (λ e, bool_decide (ie_if_phys_address e = Some mac)) l.

Lemma unique_mac_fold l mac :
  foldl unique_mac_step ∅ l !! mac
  = if mac =? 0 then None
    else match holders mac l with [] => None | [e] => Some (Some (ie_if_index e)) | _ => Some None end.
Proof.
  induction l as [|e l IH] using rev_ind; [by destruct (mac =? 0)|].
  rewrite foldl_app. unfold holders in *. rewrite List.filter_app. cbn [foldl List.filter]. set (m := foldl _ _ _) in *.
  unfold unique_mac_step. destruct (ie_if_phys_address e) as [mc|]; [|by rewrite bool_decide_eq_false_2, app_nil_r].
  destruct (Z.eqb_spec mc 0) as [->|Hz].
  - rewrite IH. destruct (Z.eqb_spec mac 0) as [|Hm]; [done|]. by rewrite bool_decide_eq_false_2, app_nil_r by congruence.
  - destruct (decide (mc = mac)) as [->|Hne].
    + rewrite lookup_insert_eq, IH. rewrite (proj2 (Z.eqb_neq mac 0)) by done. rewrite bool_decide_eq_true_2 by done.
      by destruct (List.filter _ l) as [|? [|? ?]].
    + rewrite lookup_insert_ne, IH by done. by rewrite bool_decide_eq_false_2, app_nil_r by congruence.
Qed.

Lemma unique_interface_macs_Some l mac i :
  unique_interface_macs l !! mac = Some i ↔ mac ≠ 0 ∧ ∃ e, holders mac l = [e] ∧ ie_if_index e = i.
Proof.
  unfold unique_interface_macs. rewrite lookup_omap, unique_mac_fold.
  destruct (Z.eqb_spec mac 0) as [->|Hz]; [naive_solver|]. destruct (holders mac l) as [|e [|e' r]]; cbn; naive_solver.
Qed.

Lemma find_listed {X} (f : IfTableEntry → bool) (g : X) l i ev :
  (λ e, (ie_if_index e, g)) <$> List.find f l = Some (i, ev) → ev = g ∧ i ∈ ie_if_index <$> l.
Proof.
  destruct (List.find f l) as [e|] eqn:E; [|done]. apply find_some in E as [E _]. intros [= <- <-].
  split; [done|]. apply list_elem_of_fmap_2. by apply list_elem_of_In.
Qed.

Lemma named_listed l s g i ev : named l s g = Some (i, ev) → ev = g ∧ i ∈ ie_if_index <$> l.
Proof. unfold named. destruct (trim s); [done|]. apply find_listed. Qed.
Lemma suffixed_listed l s i ev : suffixed l s = Some (i, ev) → ev = PortIdSuffix ∧ i ∈ ie_if_index <$> l.
Proof. unfold suffixed. destruct (trim s); [done|]. apply find_listed. Qed.

Lemma matched_listed l desc i : i ∈ matched_by_words l desc → i ∈ ie_if_index <$> l.
Proof.
  unfold matched_by_words. enough (∀ acc, (∀ j, j ∈ acc → j ∈ ie_if_index <$> l) → ∀ j, j ∈ foldl (λ acc word,
    foldl (λ acc e, if is_named word e && negb (bool_decide (ie_if_index e ∈ acc)) then acc ++ [ie_if_index e] else acc)
      acc l) acc (split_whitespace desc) → j ∈ ie_if_index <$> l) as Hall by (apply Hall; set_solver).
  induction (split_whitespace desc) as [|w ws IH]; intros acc Hacc; cbn [foldl]; [done|]. apply IH.
  assert (∀ l', (∀ e, e ∈ l' → e ∈ l) → ∀ acc, (∀ j, j ∈ acc → j ∈ ie_if_index <$> l) → ∀ j, j ∈ foldl (λ acc e,
    if is_named w e && negb (bool_decide (ie_if_index e ∈ acc)) then acc ++ [ie_if_index e] else acc) acc l' →
    j ∈ ie_if_index <$> l) as Hin; [|by apply Hin].
  clear. induction l' as [|e l' IH]; intros Hsub acc Hacc; cbn [foldl]; [done|].
  apply IH; [set_solver|]. destruct (_ && _); [|done]. intros j [Hj|Hj%list_elem_of_singleton]%elem_of_app; [by apply Hacc|subst j].
  apply list_elem_of_fmap_2, Hsub. set_solver.
Qed.

(** A local port of LLDP is matched to an interface only on evidence the device gave for
    it: its own number when it says the id is one, an address exactly one interface has, or
    a name or description of an interface it lists. *)
Theorem local_ports_resolved port loc_ports l i ev :
  resolve_lldp_local_port port loc_ports l (unique_interface_macs l) = Some (i, ev) →
  ∃ entry, loc_ports !! port = Some entry
  ∧ match ev with
    | InterfaceIndex =>
        port_id_subtype entry = Some 2 ∧ ∃ s, port_id entry = Some s ∧ parse_i32 (trim s) = Some i
    | UniqueMac =>
        port_id_subtype entry = Some 3 ∧ ∃ mac e, port_id_mac entry = Some mac ∧ mac ≠ 0
        ∧ holders mac l = [e] ∧ ie_if_index e = i
    | _ => i ∈ ie_if_index <$> l
    end.
Proof.
  unfold resolve_lldp_local_port. destruct (loc_ports !! port) as [e|]; [|done]. cbn [mbind option_bind]. intros Hr.
  exists e. split; [done|].
  unfold keep at 1 in Hr. destruct (if bool_decide (port_id_subtype e = Some 2) then _ else _) as [x|] eqn:E1.
  { case_bool_decide as Hs; [|done]. simplify_eq. destruct (port_id e) as [s|]; [|done]. cbn in E1.
    destruct (parse_i32 (trim s)) as [z|] eqn:Ez; [|done]. cbn in E1. simplify_eq. eauto. }
  clear E1. unfold keep at 1 in Hr. destruct (if bool_decide (port_id_subtype e = Some 3) then _ else _) as [x|] eqn:E2.
  { case_bool_decide as Hs; [|done]. simplify_eq. destruct (port_id_mac e) as [mac|]; [|done]. cbn in E2.
    destruct (unique_interface_macs l !! mac) as [z|] eqn:Ez; [|done]. cbn in E2. simplify_eq.
    apply unique_interface_macs_Some in Ez as (Hz & en & Hh & Hi). eauto 10. }
  clear E2. unfold keep in Hr.
  destruct (port_id e ≫= λ s, named l s PortIdName) as [x|] eqn:E3.
  { simplify_eq. destruct (port_id e) as [s|]; [|done]. cbn in E3. apply named_listed in E3 as [-> Hi]. done. }
  destruct (port_id e ≫= suffixed l) as [x|] eqn:E4.
  { simplify_eq. destruct (port_id e) as [s|]; [|done]. cbn in E4. apply suffixed_listed in E4 as [-> Hi]. done. }
  destruct (port_desc e) as [s|]; [|done]. cbn [mbind option_bind] in Hr.
  destruct (named l s PortDescName) as [x|] eqn:E5; [simplify_eq; apply named_listed in E5 as [-> Hi]; done|].
  destruct (matched_by_words l s) as [|j [|? ?]] eqn:E6; try done. injection Hr as -> <-.
  apply (matched_listed l s). rewrite E6. set_solver.
Qed.

(** A device whose port 7 is the interface of one address. *)
Definition sample_entry (i mac : Z) : IfTableEntry := {|
  ie_if_index := i; ie_if_descr := None; ie_if_type := None; ie_if_mtu := None; ie_if_speed := None;
  ie_if_phys_address := Some mac; ie_if_admin_status := None; ie_if_oper_status := None; ie_if_name := None;
  ie_if_alias := None |}.
Definition sample_loc_ports : gmap Z LldpLocalPort :=
  {[7 := {| port_id_subtype := Some 3; port_id := None; port_id_mac := Some 99; port_desc := None |}]}.

Lemma local_ports_resolved_witness :
  ∃ entry, sample_loc_ports !! 7 = Some entry ∧ port_id_subtype entry = Some 3
  ∧ ∃ mac e, port_id_mac entry = Some mac ∧ mac ≠ 0
  ∧ holders mac [sample_entry 1001 99; sample_entry 1002 98] = [e] ∧ ie_if_index e = 1001.
Proof.
  exact (local_ports_resolved 7 sample_loc_ports [sample_entry 1001 99; sample_entry 1002 98] 1001 UniqueMac
           ltac:(vm_compute; reflexivity)).
Defined.

(** ** What a collection vouches for *)






Section Vouching.
Context {T : Type} `{SnmpWalkTransport T, SnmpGet T, MapOrder}.
Context (o : SnmpOutside) (mint : SnmpMint) (ip : IpAddr) (scanning : option Subnet) (credential : option Uuid).
Context (cut : SnmpQuery → T → option T).
















End Vouching.

(** ** Concrete agents *)

(** An agent without a state, from what it answers at a position. *)
Definition scripted (answer : oid → result WalkPage bool) : SnmpWalkTransport unit := {|
  walk_getbulk _ c _ := (tt, answer c); walk_getnext _ _ := (tt, Err false) |}.
Definition silent_get : SnmpGet unit := λ _ _, (tt, None).
Definition absent (c : oid) : result WalkPage bool := Ok (Page [(c, VNoSuchObject)]).

Definition sample_outside : SnmpOutside := {|
  out_upsert_vlans _ := None; out_create_subnet s := Some s; out_cidr_text _ := "net"%string;
  out_mask_prefix _ := Some 24; out_parse_mac _ := None; out_mac_text _ := [] |}.
Definition sample_mint : SnmpMint := {|
  mint_interface _ i := N.of_nat i; mint_address _ := 1%N; mint_subnet _ := 2%N; mint_host i := N.of_nat i; mint_now := 0 |}.
Definition sample_ip : IpAddr := ipv4 10 0 0 1.
Definition sample_host : HostData := host_data_new (host_new 5 0 default_host_base) [] [] [] [] [].

(** The tables of an agent that is never cut, and the report of them. *)
Definition sample_tables (agent : SnmpWalkTransport unit) : SnmpTables :=
  (@read_tables unit agent silent_get stored_order (λ _, None) (λ _ _, None) tt).2.
Definition sample_report (agent : SnmpWalkTransport unit) : SnmpReport :=
  @report sample_outside sample_mint sample_ip None None stored_order None (sample_tables agent) sample_host.



(** An agent with two interfaces, which answers the descriptions of three. *)
Definition listing (c : oid) : result WalkPage bool :=
  let index := base_parts Oids.IF_INDEX in
  let descr := base_parts Oids.IF_DESCR in
  if bool_decide (c = index) then Ok (Page [(index ++ [1], VInteger 1); (index ++ [2], VInteger 2)])
  else if bool_decide (c = descr)
  then Ok (Page [(descr ++ [1], VOctetString [97]); (descr ++ [2], VOctetString [98]); (descr ++ [3], VOctetString [99])])
  else absent c.

Lemma if_table_listed_witness :
  let w := (@walk_if_table unit (scripted listing) stored_order tt).2 in
  (∀ i, i ∈ ie_if_index <$> it_entries w ↔ i ∈ [1; 2])
  ∧ (it_set_complete w = true ↔ is_complete EndOfSubtree = true ∧ ∀ i, i ∈ [1; 2; 3] → i ∈ [1; 2]).
Proof.
  destruct (@if_table_listed unit (scripted listing) stored_order tt tt
    (@walk_subtree unit (scripted listing) tt (base_parts Oids.IF_INDEX)).1.2
    (@walk_subtree unit (scripted listing) tt (base_parts Oids.IF_INDEX)).2) as (_ & _ & Hf & Hs).
  { vm_compute. reflexivity. }
  { vm_compute. discriminate. }
  cbv zeta. split; [exact Hf|]. exact Hs.
Defined.

(** An agent without any table: LLDP is withheld, as another integration may know the
    neighbours, and CDP is vouched for, so that the server clears what it holds. *)
Theorem missing_cdp_vouched_for :
  let tb := sample_tables (scripted absent) in
  let g := hd_interface_data_complete (rp_host (sample_report (scripted absent))) in
  unsupported (tb_lldp tb) = true ∧ unsupported (tb_cdp tb) = true ∧ c_lldp g = false ∧ c_cdp g = true.
Proof. vm_compute. done. Qed.

(** An agent that does not serve the index column and is cut in the next one: one
    interface was read, others may follow, and the list is called complete. *)
Definition indexless (c : oid) : result WalkPage bool :=
  let descr := base_parts Oids.IF_DESCR in
  if bool_decide (c = descr) then Ok (Page [(descr ++ [1], VOctetString [97])])
  else if bool_decide (c = descr ++ [1]) then Err false else absent c.

Theorem indexless_table_called_complete :
  let w := (@walk_if_table unit (scripted indexless) stored_order tt).2 in
  it_set_complete w = true ∧ it_attributes_complete w = false ∧ length (it_entries w) = 1%nat.
Proof. vm_compute. done. Qed.

(** The management address 3.1.2.3 of neighbour 1 on port 5, from a device that leaves the
    time mark out, is read as 4.1.2.3 of neighbour 1 on port 1: both layouts fit. *)
Theorem short_management_index_misread :
  let suffix := [5; 1; 1; 4; 3; 1; 2; 3] in
  split_lldp_man_addr_index suffix = Some (1, 1, [4; 1; 2; 3])
  ∧ parse_lldp_mgmt_addr [4; 1; 2; 3] = Some (ipv4 4 1 2 3)
  ∧ split_at_prefix suffix 2 = Some (5, 1, [1; 3; 1; 2; 3])
  ∧ parse_lldp_mgmt_addr [1; 3; 1; 2; 3] = Some (ipv4 3 1 2 3).
Proof. done. Qed.

(** An agent that times out on the VLAN names of the standard table and has no other: the
    names were not read, and the collection is complete and unexplained. *)
Definition vlanless (c : oid) : result WalkPage bool :=
  if bool_decide (c = base_parts Oids.DOT1Q_VLAN_STATIC_NAME) then Err false else absent c.

Theorem lost_vlan_names_called_complete :
  let c := (@query_vlan_table unit (scripted vlanless) tt).2 in
  records c = [] ∧ complete c = true ∧ reason c = None
  ∧ rp_shortfalls (sample_report (scripted vlanless)) = [].
Proof. vm_compute. done. Qed.

(** ** What a collection leaves alone *)

(** A host a collection may have filled in: what was known stays, the rank of its name
    never falls, and its addresses are the old ones, in order, followed by new ones. *)
Definition extends (d d' : HostData) : Prop :=
  let b := h_base (hd_host d) in let b' := h_base (hd_host d') in
  h_id (hd_host d') = h_id (hd_host d) ∧ h_network_id b' = h_network_id b
  ∧ (∀ f v, host_field f b = Some v → host_field f b' = Some v)
  ∧ (∀ v, hostname b = Some v → hostname b' = Some v ∧ h_name b' = h_name b)
  ∧ name_rank (name_source b) ≤ name_rank (name_source b')
  ∧ (ip_address ∘ ip_base <$> hd_ip_addresses d) `prefix_of` (ip_address ∘ ip_base <$> hd_ip_addresses d').

#[export] Instance extends_preorder : PreOrder extends.
Proof.
  split.
  - intros d. unfold extends. cbv zeta. split_and!; try done; naive_solver.
  - intros d1 d2 d3 (Hi & Hn & Hf & Hh & Hr & Hp) (Hi' & Hn' & Hf' & Hh' & Hr' & Hp'). unfold extends. cbv zeta.
    split_and!; [congruence|congruence|auto| |lia|by etrans].
    intros v Hv. destruct (Hh v Hv) as [Hv2 He]. destruct (Hh' v Hv2) as [Hv3 He']. split; congruence.
Qed.

Lemma with_field_extends f v d : extends d (with_field f v d).
Proof.
  unfold extends. cbv zeta. cbn. split_and!; try done. intros g x Hx.
  destruct g; cbn in *; unfold first; by rewrite Hx.
Qed.

Lemma with_optional_extends f v d : extends d (with_optional f v d).
Proof. unfold with_optional. destruct v; [apply with_field_extends|reflexivity]. Qed.

Lemma with_hostname_fallback_extends v d : extends d (with_hostname_fallback v d).
Proof.
  unfold extends. cbv zeta. unfold with_hostname_fallback. cbn [on_host_base hd_host h_base h_id hd_ip_addresses].
  destruct (hostname (h_base (hd_host d))) as [h|] eqn:Eh; [split_and!; try done; naive_solver|].
  destruct (from_hostname v) as [c|]; [|by destruct (h_base (hd_host d)); split_and!].
  unfold apply_name. destruct (Z.ltb_spec (name_rank (name_src c)) (name_rank (name_source (h_base (hd_host d))))) as [Hl|Hl];
    [by destruct (h_base (hd_host d)); split_and!|].
  destruct (_ && _); [by destruct (h_base (hd_host d)); split_and!|].
  cbn. destruct (h_base (hd_host d)); cbn in *. by split_and!.
Qed.

Lemma set_first_mac_addresses ip mac l : ip_address ∘ ip_base <$> set_first_mac ip mac l = ip_address ∘ ip_base <$> l.
Proof. induction l as [|i l IH]; [done|]. cbn. case_bool_decide; cbn; [done|by f_equal]. Qed.

Lemma on_ip_addresses_extends f d :
  (ip_address ∘ ip_base <$> hd_ip_addresses d) `prefix_of` (ip_address ∘ ip_base <$> f (hd_ip_addresses d)) →
  extends d (on_ip_addresses f d).
Proof. intros Hp. unfold extends. cbv zeta. cbn. split_and!; try done; naive_solver. Qed.

Lemma with_mac_extends ip mac d : extends d (with_mac_for_ip ip mac d).
Proof. apply on_ip_addresses_extends. by rewrite set_first_mac_addresses. Qed.
Lemma add_ip_extends i d : extends d (add_ip_address i d).
Proof. apply on_ip_addresses_extends. rewrite fmap_app. by apply prefix_app_r. Qed.
Lemma add_assignment_extends a d : extends d (add_credential_assignment a d).
Proof. unfold extends. cbv zeta. cbn. split_and!; try done. Qed.
Lemma replace_interfaces_extends ifs c dc d : extends d (replace_interfaces ifs c dc d).
Proof. unfold extends. cbv zeta. cbn. split_and!; try done; naive_solver. Qed.

Lemma enrich_host_extends o ip credential info tb d : extends d (enrich_host o ip credential info tb d).
Proof.
  unfold enrich_host. etransitivity; [|destruct credential; [apply add_assignment_extends|reflexivity]].
  do 9 (etransitivity; [|apply with_optional_extends]).
  etransitivity; [|destruct (own_mac _ _); [apply with_mac_extends|reflexivity]].
  destruct (info ≫= si_name); [apply with_hostname_fallback_extends|reflexivity].
Qed.

Lemma remote_steps_extend o mint scanning network ifs rows acc :
  extends acc.1 (foldl (remote_step o mint scanning network ifs) acc rows).1.
Proof.
  revert acc. induction rows as [|r rows IH]; intros acc; [reflexivity|]. cbn [foldl]. etransitivity; [|apply IH].
  unfold remote_step. destruct (_ ≫= _); [apply add_ip_extends|reflexivity].
Qed.

(** A collection only fills a host in: identity, network, every SNMP field already known
    and a known hostname with the name that goes with it stay, the rank of the name never
    falls, and the addresses the host had stay in order ahead of the ones it gained.  The
    checkpoint in between changes interfaces alone. *)
Theorem collection_fills_in `{MapOrder} o mint ip scanning credential info tb d :
  let r := report o mint ip scanning credential info tb d in
  extends d (rp_host r)
  ∧ rp_checkpoint r = replace_interfaces (hd_interfaces (rp_checkpoint r)) (it_set_complete (tb_if tb)) complete_none d.
Proof.
  unfold report. set (network := h_network_id (h_base (hd_host d))).
  set (d1 := replace_interfaces _ _ _ (enrich_host _ _ _ _ _ _)).
  pose proof (remote_steps_extend o mint scanning network (it_entries (tb_if tb)) (map_iter (records (tb_ip_addr tb))) (d1, [])) as Hs.
  destruct (foldl _ _ _) as [d2 found]. cbn [fst rp_host rp_checkpoint] in *. split; [|by unfold checkpoint_of].
  etransitivity; [|unfold add_loopback; destruct (existsb _ _); [|reflexivity]; destruct (_ ≫= _); [apply add_ip_extends|reflexivity]].
  etransitivity; [|exact Hs]. unfold d1. etransitivity; [|apply replace_interfaces_extends].
  etransitivity; [|apply enrich_host_extends]. apply replace_interfaces_extends.
Qed.

(** Of two ports that both refuse, the probe reports the one that said more. *)
Theorem probe_most_specific cancelled try_port ip o m :
  (∀ p, cancelled p = false) → snmp_probe cancelled try_port ip = Err (o, m) →
  ∀ p, p ∈ [161; 1161] → ∃ o' m', try_port p = Failed o' m' ∧ probe_specificity o' ≤ probe_specificity o.
Proof.
  intros Hc. unfold snmp_probe. cbn [probe_ports]. rewrite !Hc.
  destruct (try_port 161) as [|o1 m1] eqn:E1; [done|]. cbn [more_specific].
  destruct (try_port 1161) as [|o2 m2] eqn:E2; [done|].
  unfold more_specific. destruct (Z.ltb_spec (probe_specificity o1) (probe_specificity o2)); cbn; intros [= <- <-] p Hp;
    apply elem_of_cons in Hp as [Hp|Hp%list_elem_of_singleton]; subst p; eauto 6 with lia.
Qed.
