(* ===== verification/Snapshots.v ===== *)
(** Snapshots ([server/snapshots/{service,handlers}.rs],
    [server/shared/storage/snapshot.rs] and the [Snapshotable] implementations of the
    entities): every live row of a network is copied under a new id, its references are
    turned to the copies, the copy is closed at the time of the snapshot and the live row
    goes on from there.

    A table is the list of its rows with the column [snapshot_id], which only the snapshot
    service writes.  Fields that are not columns (tags, hydrated bindings) play no part.
    The database checks references at the end of each statement; the only reference such a
    check can refuse here is one into the table being filled, see [insert_chunk]. *)

From S2P Require Import Prelude Net Ports Entities Hosts HostMatch Locks Lldp Interfaces Discovery Sessions Services.
Local Open Scope Z_scope.

(** ** [Snapshotable] *)

(** The columns [valid_from], [valid_to] and [lineage_id]. *)
Record Scd2 := { scd_from : DateTime; scd_to : option DateTime; scd_lineage : option Uuid }.

(** Live id to closed id, for each type. *)
Record FkMaps := {
  m_hosts : gmap Uuid Uuid; m_subnets : gmap Uuid Uuid; m_vlans : gmap Uuid Uuid; m_services : gmap Uuid Uuid;
  m_ip_addresses : gmap Uuid Uuid; m_ports : gmap Uuid Uuid; m_interfaces : gmap Uuid Uuid;
  m_bindings : gmap Uuid Uuid; m_dependencies : gmap Uuid Uuid
}.

Definition lookup_by_entity_type (m : FkMaps) (t : EntityDiscriminants) (live_id : Uuid) : option Uuid :=
  match t with
  | E_Host => m_hosts m !! live_id
  | E_Service => m_services m !! live_id
  | E_Subnet => m_subnets m !! live_id
  | E_Dependency => m_dependencies m !! live_id
  | _ => None
  end.

(** A reference after the renaming: the copy when there is one. *)
Definition renamed (m : gmap Uuid Uuid) (id : Uuid) : Uuid := default id (m !! id).

Class Snapshotable (R : Type) := {
  id_value : R → Uuid;
  set_id_value : Uuid → R → R;
  scd2 : R → Scd2;
  set_scd2 : Scd2 → R → R;
  remap_fks_for_clone : FkMaps → R → R;
  remap_own_clone_refs : gmap Uuid Uuid → R → R;
  column_count : nat;
  own_ref : R → option Uuid
}.

Section Generic.
Context {R : Type} `{Snapshotable R}.

Definition set_valid_from (t : DateTime) (r : R) : R :=
  set_scd2 {| scd_from := t; scd_to := scd_to (scd2 r); scd_lineage := scd_lineage (scd2 r) |} r.

Definition make_closed_copy (close_at : DateTime) (r : R) : R :=
  set_scd2 {| scd_from := scd_from (scd2 r); scd_to := Some close_at; scd_lineage := Some (id_value r) |} r.

Definition is_live (r : R) : bool := bool_decide (scd_to (scd2 r) = None).

(** The filters [as_of] and [id_or_lineage_in]: the rows that were live at [t], and the
    versions of some entities. *)
Definition as_of (t : DateTime) (r : R) : bool :=
  (scd_from (scd2 r) <=? t) && match scd_to (scd2 r) with None => true | Some u => t <? u end.
Definition id_or_lineage_in (ids : list Uuid) (r : R) : bool :=
  bool_decide (id_value r ∈ ids)
  || match scd_lineage (scd2 r) with Some l => bool_decide (l ∈ ids) | None => false end.

(** A row and its [snapshot_id]. *)
Abbreviation Table := (list (R * option Uuid)) (only parsing).

Definition table_ids (t : Table) : list Uuid := id_value ∘ fst <$> t.

(** ** Statements *)

Inductive SnapshotError := ForeignKeyViolation (id : Uuid).

(** One [INSERT]: a reference into the own table must name a row of it or of the batch. *)
Definition insert_chunk (t : Table) (chunk : list R) : result Table SnapshotError :=
  let t' := t ++ ((λ r, (r, None)) <$> chunk) in
  match omap (λ r, r' ← own_ref r; if bool_decide (r' ∈ table_ids t') then None else Some r') chunk with
  | [] => Ok t'
  | id :: _ => Err (ForeignKeyViolation id)
  end.

Definition MAX_BIND_PARAMS : nat := Z.to_nat 65535.
Definition chunk_size : nat := MAX_BIND_PARAMS / Nat.max column_count 1.

(** [slice::chunks]; a chunk is at least one row long. *)
Fixpoint chunks (fuel n : nat) (l : list R) : list (list R) :=
  match fuel, l with
  | S fuel', _ :: _ => take (Nat.max n 1) l :: chunks fuel' n (drop (Nat.max n 1) l)
  | _, _ => []
  end.

Fixpoint insert_chunks (t : Table) (l : list (list R)) : result Table SnapshotError :=
  match l with
  | [] => Ok t
  | c :: l' => result_bind (insert_chunk t c) (λ t', insert_chunks t' l')
  end.

Definition create_many_in_tx (l : list R) (t : Table) : result Table SnapshotError :=
  insert_chunks t (chunks (length l) chunk_size l).

(** [UPDATE ... WHERE id = $1], which leaves [snapshot_id] alone. *)
Definition update_row (e : R) (t : Table) : Table :=
  (λ p, if (id_value p.1 =? id_value e)%N then (e, p.2) else p) <$> t.
Definition update_many_in_tx (l : list R) (t : Table) : Table := foldl (λ t e, update_row e t) t l.

Definition stamp (snapshot : Uuid) (ids : list Uuid) (t : Table) : Table :=
  (λ p, if bool_decide (id_value p.1 ∈ ids) then (p.1, Some snapshot) else p) <$> t.

(** ** [close_and_clone_for] *)

Section Clone.
Context (mint : Uuid → Uuid) (taken_at : DateTime) (snapshot : Uuid) (maps : FkMaps).

Definition clone_row (r : R) : R :=
  remap_fks_for_clone maps (set_id_value (mint (id_value r)) (make_closed_copy taken_at r)).

Definition clone_map (live : list R) : gmap Uuid Uuid :=
  foldl (λ m r, <[id_value r := mint (id_value r)]> m) ∅ live.

Definition close_and_clone_for (selected : R → bool) (t : Table) : result (Table * gmap Uuid Uuid) SnapshotError :=
  match List.filter (λ r, selected r && is_live r) t.*1 with
  | [] => Ok (t, ∅)
  | live =>
      let mapping := clone_map live in
      let closed := remap_own_clone_refs mapping ∘ clone_row <$> live in
      result_bind (create_many_in_tx closed t) (λ t',
      Ok (update_many_in_tx (set_valid_from taken_at <$> live) (stamp snapshot (id_value <$> closed) t'), mapping))
  end.
End Clone.
End Generic.
Abbreviation Table R := (list (R * option Uuid)) (only parsing).

(** ** The entities *)

Definition meta_scd2 (m : RowMeta) : Scd2 := {| scd_from := Entities.valid_from m; scd_to := valid_to m; scd_lineage := lineage_id m |}.
Definition set_meta_scd2 (s : Scd2) (m : RowMeta) : RowMeta := {|
  created_at := created_at m; updated_at := updated_at m; Entities.valid_from := scd_from s; valid_to := scd_to s;
  lineage_id := scd_lineage s; last_seen_at := last_seen_at m; last_discovery_id := last_discovery_id m;
  first_discovery_id := first_discovery_id m |}.

(** Top-level rows: nothing to remap while they are cloned. *)
#[export] Instance Subnet_snapshotable : Snapshotable Subnet := {
  id_value := s_id;
  set_id_value i r := {| s_id := i; s_meta := s_meta r; s_base := s_base r |};
  scd2 r := meta_scd2 (s_meta r);
  set_scd2 x r := {| s_id := s_id r; s_meta := set_meta_scd2 x (s_meta r); s_base := s_base r |};
  remap_fks_for_clone _ r := r;
  remap_own_clone_refs _ r := r;
  column_count := 16;
  own_ref _ := None
}.

Record VlanBase := {
  vl_number : Z; vl_name : string; vl_description : option string; vl_network_id : Uuid; vl_organization_id : Uuid;
  vl_source : EntitySource
}.
Record Vlan := { vl_id : Uuid; vl_meta : RowMeta; vl_base : VlanBase }.

#[export] Instance Vlan_snapshotable : Snapshotable Vlan := {
  id_value := vl_id;
  set_id_value i r := {| vl_id := i; vl_meta := vl_meta r; vl_base := vl_base r |};
  scd2 r := meta_scd2 (vl_meta r);
  set_scd2 x r := {| vl_id := vl_id r; vl_meta := set_meta_scd2 x (vl_meta r); vl_base := vl_base r |};
  remap_fks_for_clone _ r := r;
  remap_own_clone_refs _ r := r;
  column_count := 15;
  own_ref _ := None
}.

#[export] Instance Host_snapshotable : Snapshotable HostRow := {
  id_value := h_id;
  set_id_value i r := {| h_id := i; h_meta := h_meta r; h_base := h_base r |};
  scd2 r := meta_scd2 (h_meta r);
  set_scd2 x r := {| h_id := h_id r; h_meta := set_meta_scd2 x (h_meta r); h_base := h_base r |};
  remap_fks_for_clone _ r := r;
  remap_own_clone_refs _ r := r;
  column_count := 28;
  own_ref _ := None
}.

Definition remap_ip_address (m : FkMaps) (b : IPAddressBase) : IPAddressBase := {|
  ip_network_id := ip_network_id b; ip_host_id := renamed (m_hosts m) (ip_host_id b);
  subnet_id := renamed (m_subnets m) (subnet_id b); ip_address := ip_address b; mac_address := mac_address b;
  ip_name := ip_name b; ip_position := ip_position b |}.

#[export] Instance IPAddress_snapshotable : Snapshotable IPAddress := {
  id_value := ip_id;
  set_id_value i r := {| ip_id := i; ip_meta := ip_meta r; ip_base := ip_base r |};
  scd2 r := meta_scd2 (ip_meta r);
  set_scd2 x r := {| ip_id := ip_id r; ip_meta := set_meta_scd2 x (ip_meta r); ip_base := ip_base r |};
  remap_fks_for_clone m r := {| ip_id := ip_id r; ip_meta := ip_meta r; ip_base := remap_ip_address m (ip_base r) |};
  remap_own_clone_refs _ r := r;
  column_count := 16;
  own_ref _ := None
}.

Definition remap_port (m : FkMaps) (b : PortBase) : PortBase :=
  {| p_host_id := renamed (m_hosts m) (p_host_id b); p_network_id := p_network_id b; port_type := port_type b |}.

#[export] Instance Port_snapshotable : Snapshotable Port := {
  id_value := p_id;
  set_id_value i r := {| p_id := i; p_meta := p_meta r; p_base := p_base r |};
  scd2 r := meta_scd2 (p_meta r);
  set_scd2 x r := {| p_id := p_id r; p_meta := set_meta_scd2 x (p_meta r); p_base := p_base r |};
  remap_fks_for_clone m r := {| p_id := p_id r; p_meta := p_meta r; p_base := remap_port m (p_base r) |};
  remap_own_clone_refs _ r := r;
  column_count := 14;
  own_ref _ := None
}.

(** A service with its host and its runtime. *)
Definition rebase_service (host : Uuid) (runtime : option Uuid) (b : ServiceBase) : ServiceBase := {|
  sv_host_id := host; sv_network_id := sv_network_id b; service_definition := service_definition b;
  sv_name := sv_name b; bindings := bindings b; virtualization_metadata := virtualization_metadata b;
  virtualization_service_id := runtime; source := source b; sv_tags := sv_tags b; sv_position := sv_position b |}.

#[export] Instance Service_snapshotable : Snapshotable Service := {
  id_value := sv_id;
  set_id_value i r := {| sv_id := i; sv_meta := sv_meta r; sv_base := sv_base r |};
  scd2 r := meta_scd2 (sv_meta r);
  set_scd2 x r := {| sv_id := sv_id r; sv_meta := set_meta_scd2 x (sv_meta r); sv_base := sv_base r |};
  remap_fks_for_clone m r :=
    {| sv_id := sv_id r; sv_meta := sv_meta r;
       sv_base := rebase_service (renamed (m_hosts m) (sv_host_id (sv_base r)))
                    (virtualization_service_id (sv_base r)) (sv_base r) |};
  remap_own_clone_refs _ r := r;
  column_count := 17;
  own_ref r := virtualization_service_id (sv_base r)
}.

(** An interface: the tagged VLANs are left as they are. *)
Definition remap_interface (m : FkMaps) (b : InterfaceBase) : InterfaceBase := {|
  if_host_id := renamed (m_hosts m) (if_host_id b); if_network_id := if_network_id b; if_index := if_index b;
  if_descr := if_descr b; if_name := if_name b; if_alias := if_alias b; if_type := if_type b;
  speed_bps := speed_bps b; admin_status := admin_status b; oper_status := oper_status b; if_mac := if_mac b;
  if_ip_address_id := renamed (m_ip_addresses m) <$> if_ip_address_id b;
  neighbor := match neighbor b with Some (NeighborHost h) => Some (NeighborHost (renamed (m_hosts m) h)) | n => n end;
  lldp := lldp b; cdp := cdp b; fdb_macs := fdb_macs b;
  vlans := {| Interfaces.native_vlan_id := renamed (m_vlans m) <$> Interfaces.native_vlan_id (vlans b);
              Interfaces.vlan_ids := Interfaces.vlan_ids (vlans b) |} |}.

Definition set_interface_neighbor (n : option Neighbor) (b : InterfaceBase) : InterfaceBase := {|
  if_host_id := if_host_id b; if_network_id := if_network_id b; if_index := if_index b; if_descr := if_descr b;
  if_name := if_name b; if_alias := if_alias b; if_type := if_type b; speed_bps := speed_bps b;
  admin_status := admin_status b; oper_status := oper_status b; if_mac := if_mac b;
  if_ip_address_id := if_ip_address_id b; neighbor := n; lldp := lldp b; cdp := cdp b; fdb_macs := fdb_macs b;
  vlans := vlans b |}.

Definition own_neighbor (own : gmap Uuid Uuid) (n : option Neighbor) : option Neighbor :=
  match n with Some (NeighborInterface i) => Some (NeighborInterface (renamed own i)) | _ => n end.

#[export] Instance Interface_snapshotable : Snapshotable InterfaceRow := {
  id_value := if_id;
  set_id_value i r := {| if_id := i; if_meta := if_meta r; if_base := if_base r |};
  scd2 r := meta_scd2 (if_meta r);
  set_scd2 x r := {| if_id := if_id r; if_meta := set_meta_scd2 x (if_meta r); if_base := if_base r |};
  remap_fks_for_clone m r := {| if_id := if_id r; if_meta := if_meta r; if_base := remap_interface m (if_base r) |};
  remap_own_clone_refs own r :=
    {| if_id := if_id r; if_meta := if_meta r;
       if_base := set_interface_neighbor (own_neighbor own (neighbor (if_base r))) (if_base r) |};
  column_count := 36;
  own_ref r := match neighbor (if_base r) with Some (NeighborInterface i) => Some i | _ => None end
}.

Definition remap_binding_type (m : FkMaps) (t : BindingType) : BindingType :=
  match t with
  | BindIPAddress ip => BindIPAddress (renamed (m_ip_addresses m) ip)
  | BindPort p ip => BindPort (renamed (m_ports m) p) (renamed (m_ip_addresses m) <$> ip)
  end.
Definition remap_binding (m : FkMaps) (b : BindingBase) : BindingBase := {|
  b_service_id := renamed (m_services m) (b_service_id b); b_network_id := b_network_id b;
  binding_type := remap_binding_type m (binding_type b) |}.

#[export] Instance Binding_snapshotable : Snapshotable Binding := {
  id_value := b_id;
  set_id_value i r := {| b_id := i; b_meta := b_meta r; b_base := b_base r |};
  scd2 r := meta_scd2 (b_meta r);
  set_scd2 x r := {| b_id := b_id r; b_meta := set_meta_scd2 x (b_meta r); b_base := b_base r |};
  remap_fks_for_clone m r := {| b_id := b_id r; b_meta := b_meta r; b_base := remap_binding m (b_base r) |};
  remap_own_clone_refs _ r := r;
  column_count := 14;
  own_ref _ := None
}.

(** Junction rows carry the three columns and nothing else of a row's history. *)
Record SubnetVlanRecord := { sl_id : Uuid; sl_created_at : DateTime; sl_scd2 : Scd2; sl_subnet_id : Uuid; sl_vlan_id : Uuid }.

#[export] Instance SubnetVlan_snapshotable : Snapshotable SubnetVlanRecord := {
  id_value := sl_id;
  set_id_value i r := {| sl_id := i; sl_created_at := sl_created_at r; sl_scd2 := sl_scd2 r; sl_subnet_id := sl_subnet_id r; sl_vlan_id := sl_vlan_id r |};
  scd2 := sl_scd2;
  set_scd2 x r := {| sl_id := sl_id r; sl_created_at := sl_created_at r; sl_scd2 := x; sl_subnet_id := sl_subnet_id r; sl_vlan_id := sl_vlan_id r |};
  remap_fks_for_clone m r := {| sl_id := sl_id r; sl_created_at := sl_created_at r; sl_scd2 := sl_scd2 r;
    sl_subnet_id := renamed (m_subnets m) (sl_subnet_id r); sl_vlan_id := renamed (m_vlans m) (sl_vlan_id r) |};
  remap_own_clone_refs _ r := r;
  column_count := 7;
  own_ref _ := None
}.

(** The columns of a dependency; its members are rows of their own. *)
Record DependencyRow := {
  dr_id : Uuid; dr_created_at : DateTime; dr_updated_at : DateTime; dr_scd2 : Scd2; dr_name : string;
  dr_description : option string; dr_network_id : Uuid; dr_source : EntitySource; dr_type : DependencyType;
  dr_color : string; dr_edge_style : string; dr_of_bindings : bool
}.

#[export] Instance Dependency_snapshotable : Snapshotable DependencyRow := {
  id_value := dr_id;
  set_id_value i r := {| dr_id := i; dr_created_at := dr_created_at r; dr_updated_at := dr_updated_at r; dr_scd2 := dr_scd2 r;
    dr_name := dr_name r; dr_description := dr_description r; dr_network_id := dr_network_id r; dr_source := dr_source r;
    dr_type := dr_type r; dr_color := dr_color r; dr_edge_style := dr_edge_style r; dr_of_bindings := dr_of_bindings r |};
  scd2 := dr_scd2;
  set_scd2 x r := {| dr_id := dr_id r; dr_created_at := dr_created_at r; dr_updated_at := dr_updated_at r; dr_scd2 := x;
    dr_name := dr_name r; dr_description := dr_description r; dr_network_id := dr_network_id r; dr_source := dr_source r;
    dr_type := dr_type r; dr_color := dr_color r; dr_edge_style := dr_edge_style r; dr_of_bindings := dr_of_bindings r |};
  remap_fks_for_clone _ r := r;
  remap_own_clone_refs _ r := r;
  column_count := 14;
  own_ref _ := None
}.

Record DependencyMemberRecord := {
  dm_id : Uuid; dm_created_at : DateTime; dm_scd2 : Scd2; dm_dependency_id : Uuid; dm_service_id : Uuid;
  dm_binding_id : option Uuid; dm_position : Z
}.

#[export] Instance DependencyMember_snapshotable : Snapshotable DependencyMemberRecord := {
  id_value := dm_id;
  set_id_value i r := {| dm_id := i; dm_created_at := dm_created_at r; dm_scd2 := dm_scd2 r; dm_dependency_id := dm_dependency_id r;
    dm_service_id := dm_service_id r; dm_binding_id := dm_binding_id r; dm_position := dm_position r |};
  scd2 := dm_scd2;
  set_scd2 x r := {| dm_id := dm_id r; dm_created_at := dm_created_at r; dm_scd2 := x; dm_dependency_id := dm_dependency_id r;
    dm_service_id := dm_service_id r; dm_binding_id := dm_binding_id r; dm_position := dm_position r |};
  remap_fks_for_clone m r := {| dm_id := dm_id r; dm_created_at := dm_created_at r; dm_scd2 := dm_scd2 r;
    dm_dependency_id := renamed (m_dependencies m) (dm_dependency_id r); dm_service_id := renamed (m_services m) (dm_service_id r);
    dm_binding_id := renamed (m_bindings m) <$> dm_binding_id r; dm_position := dm_position r |};
  remap_own_clone_refs _ r := r;
  column_count := 9;
  own_ref _ := None
}.

Record EntityTag := {
  et_id : Uuid; et_created_at : DateTime; et_scd2 : Scd2; et_entity_id : Uuid; et_entity_type : EntityDiscriminants; et_tag_id : Uuid
}.

#[export] Instance EntityTag_snapshotable : Snapshotable EntityTag := {
  id_value := et_id;
  set_id_value i r := {| et_id := i; et_created_at := et_created_at r; et_scd2 := et_scd2 r; et_entity_id := et_entity_id r;
    et_entity_type := et_entity_type r; et_tag_id := et_tag_id r |};
  scd2 := et_scd2;
  set_scd2 x r := {| et_id := et_id r; et_created_at := et_created_at r; et_scd2 := x; et_entity_id := et_entity_id r;
    et_entity_type := et_entity_type r; et_tag_id := et_tag_id r |};
  remap_fks_for_clone m r := {| et_id := et_id r; et_created_at := et_created_at r; et_scd2 := et_scd2 r;
    et_entity_id := default (et_entity_id r) (lookup_by_entity_type m (et_entity_type r) (et_entity_id r));
    et_entity_type := et_entity_type r; et_tag_id := et_tag_id r |};
  remap_own_clone_refs _ r := r;
  column_count := 8;
  own_ref _ := None
}.

(** ** [VirtualizationServiceRef] *)

Class VirtualizationServiceRef (R : Type) := {
  virt_service_id : R → option Uuid;
  set_virt_service_id : Uuid → R → R
}.

Definition set_host_runtime (v : option Uuid) (b : HostBase) : HostBase := {|
  h_name := h_name b; name_source := name_source b; h_network_id := h_network_id b; hostname := hostname b;
  h_description := h_description b; h_source := h_source b; h_virtualization_metadata := h_virtualization_metadata b;
  h_virtualization_service_id := v; hidden := hidden b; h_tags := h_tags b; sys_descr := sys_descr b;
  sys_object_id := sys_object_id b; sys_location := sys_location b; sys_contact := sys_contact b;
  management_url := management_url b; chassis_id := chassis_id b; sys_name := sys_name b; manufacturer := manufacturer b;
  model := model b; serial_number := serial_number b; credential_assignments := credential_assignments b |}.
Definition set_subnet_runtime (v : option Uuid) (b : SubnetBase) : SubnetBase := {|
  cidr := cidr b; s_network_id := s_network_id b; s_name := s_name b; s_description := s_description b;
  subnet_type := subnet_type b; s_virtualization_service_id := v; s_source := s_source b; s_tags := s_tags b |}.

#[export] Instance Host_virt : VirtualizationServiceRef HostRow := {
  virt_service_id r := h_virtualization_service_id (h_base r);
  set_virt_service_id i r := {| h_id := h_id r; h_meta := h_meta r; h_base := set_host_runtime (Some i) (h_base r) |}
}.
#[export] Instance Service_virt : VirtualizationServiceRef Service := {
  virt_service_id r := virtualization_service_id (sv_base r);
  set_virt_service_id i r := {| sv_id := sv_id r; sv_meta := sv_meta r; sv_base := rebase_service (sv_host_id (sv_base r)) (Some i) (sv_base r) |}
}.
#[export] Instance Subnet_virt : VirtualizationServiceRef Subnet := {
  virt_service_id r := s_virtualization_service_id (s_base r);
  set_virt_service_id i r := {| s_id := s_id r; s_meta := s_meta r; s_base := set_subnet_runtime (Some i) (s_base r) |}
}.

(** The row, when its reference is to a service that was cloned. *)
Definition remap_virtualization_service_id {R} `{VirtualizationServiceRef R} (services : gmap Uuid Uuid) (r : R) : option R :=
  live ← virt_service_id r; closed ← services !! live; Some (set_virt_service_id closed r).

Definition remap_virtualization_service_ids {R} `{Snapshotable R, VirtualizationServiceRef R} (snapshot : Uuid)
    (services : gmap Uuid Uuid) (t : Table R) : Table R :=
  update_many_in_tx (omap (remap_virtualization_service_id services) (List.filter (λ p, bool_decide (p.2 = Some snapshot)) t).*1) t.

(** ** [run_close_and_clone] *)

Record Snapshot := { sn_id : Uuid; sn_network_id : Uuid; sn_taken_at : DateTime; sn_created_by : option Uuid }.

Record Db := {
  t_subnets : Table Subnet; t_vlans : Table Vlan; t_hosts : Table HostRow; t_ip_addresses : Table IPAddress;
  t_ports : Table Port; t_services : Table Service; t_interfaces : Table InterfaceRow; t_bindings : Table Binding;
  t_subnet_vlans : Table SubnetVlanRecord; t_dependencies : Table DependencyRow;
  t_dependency_members : Table DependencyMemberRecord; t_entity_tags : Table EntityTag;
  t_snapshots : list Snapshot
}.

(** The tables in the order they are cloned, for the ids minted in each. *)
Inductive CloneTable :=
| CSubnets | CVlans | CHosts | CIpAddresses | CPorts | CServices | CInterfaces | CBindings | CSubnetVlans
| CDependencies | CDependencyMembers | CEntityTags.

(** A column filter: [IN] of a list of ids. *)
Definition among (m : gmap Uuid Uuid) (id : Uuid) : bool := bool_decide (is_Some (m !! id)).

Definition run_close_and_clone (mint : CloneTable → Uuid → Uuid) (network : Uuid) (taken_at : DateTime) (snapshot : Uuid)
    (db : Db) : result Db SnapshotError := (
  let clone {R} `{Snapshotable R} c maps (sel : R → bool) t := close_and_clone_for (mint c) taken_at snapshot maps sel t in
  let mk s v h i p sv ifc b d := {| m_hosts := h; m_subnets := s; m_vlans := v; m_services := sv; m_ip_addresses := i;
    m_ports := p; m_interfaces := ifc; m_bindings := b; m_dependencies := d |} in
  let? sub := clone CSubnets (mk ∅ ∅ ∅ ∅ ∅ ∅ ∅ ∅ ∅) (λ r, (s_network_id (s_base r) =? network)%N) (t_subnets db) in
  let? vl := clone CVlans (mk sub.2 ∅ ∅ ∅ ∅ ∅ ∅ ∅ ∅) (λ r, (vl_network_id (vl_base r) =? network)%N) (t_vlans db) in
  let? ho := clone CHosts (mk sub.2 vl.2 ∅ ∅ ∅ ∅ ∅ ∅ ∅) (λ r, (h_network_id (h_base r) =? network)%N) (t_hosts db) in
  let? ips := clone CIpAddresses (mk sub.2 vl.2 ho.2 ∅ ∅ ∅ ∅ ∅ ∅) (λ r, (ip_network_id (ip_base r) =? network)%N) (t_ip_addresses db) in
  let? po := clone CPorts (mk sub.2 vl.2 ho.2 ips.2 ∅ ∅ ∅ ∅ ∅) (λ r, among ho.2 (p_host_id (p_base r))) (t_ports db) in
  let? sv := clone CServices (mk sub.2 vl.2 ho.2 ips.2 po.2 ∅ ∅ ∅ ∅) (λ r, (sv_network_id (sv_base r) =? network)%N) (t_services db) in
  let hosts := remap_virtualization_service_ids snapshot sv.2 ho.1 in
  let services := remap_virtualization_service_ids snapshot sv.2 sv.1 in
  let subnets := remap_virtualization_service_ids snapshot sv.2 sub.1 in
  let? ifc := clone CInterfaces (mk sub.2 vl.2 ho.2 ips.2 po.2 sv.2 ∅ ∅ ∅) (λ r, among ho.2 (if_host_id (if_base r))) (t_interfaces db) in
  let? bi := clone CBindings (mk sub.2 vl.2 ho.2 ips.2 po.2 sv.2 ifc.2 ∅ ∅) (λ r, among sv.2 (b_service_id (b_base r))) (t_bindings db) in
  let? sl := clone CSubnetVlans (mk sub.2 vl.2 ho.2 ips.2 po.2 sv.2 ifc.2 bi.2 ∅) (λ r, among sub.2 (sl_subnet_id r)) (t_subnet_vlans db) in
  let? de := clone CDependencies (mk sub.2 vl.2 ho.2 ips.2 po.2 sv.2 ifc.2 bi.2 ∅) (λ r, (dr_network_id r =? network)%N) (t_dependencies db) in
  let? dm := clone CDependencyMembers (mk sub.2 vl.2 ho.2 ips.2 po.2 sv.2 ifc.2 bi.2 de.2) (λ r, among de.2 (dm_dependency_id r)) (t_dependency_members db) in
  let? et := clone CEntityTags (mk sub.2 vl.2 ho.2 ips.2 po.2 sv.2 ifc.2 bi.2 de.2)
               (λ r, among ho.2 (et_entity_id r) || among sv.2 (et_entity_id r) || among sub.2 (et_entity_id r)
                     || among de.2 (et_entity_id r)) (t_entity_tags db) in
  Ok {| t_subnets := subnets; t_vlans := vl.1; t_hosts := hosts; t_ip_addresses := ips.1; t_ports := po.1;
        t_services := services; t_interfaces := ifc.1; t_bindings := bi.1; t_subnet_vlans := sl.1;
        t_dependencies := de.1; t_dependency_members := dm.1; t_entity_tags := et.1; t_snapshots := t_snapshots db |})%rust.
