(* ===== verification/SnapshotTables.v ===== *)
(** One table of a snapshot: what [close_and_clone_for] and
    [remap_virtualization_service_ids] leave in it. *)

From S2P Require Import Prelude Net Ports Entities Hosts HostMatch Locks Lldp Interfaces Discovery Sessions Services Snapshots.
Local Open Scope Z_scope.

(** The accessors are those of a record, and remapping touches neither id nor history. *)
Class SnapshotLaws (R : Type) `{Snapshotable R} : Prop := {
  id_set_id i (r : R) : id_value (set_id_value i r) = i;
  id_set_scd2 x (r : R) : id_value (set_scd2 x r) = id_value r;
  id_remap m (r : R) : id_value (remap_fks_for_clone m r) = id_value r;
  id_remap_own m (r : R) : id_value (remap_own_clone_refs m r) = id_value r;
  scd2_set_scd2 x (r : R) : scd2 (set_scd2 x r) = x;
  scd2_set_id i (r : R) : scd2 (set_id_value i r) = scd2 r;
  scd2_remap m (r : R) : scd2 (remap_fks_for_clone m r) = scd2 r;
  scd2_remap_own m (r : R) : scd2 (remap_own_clone_refs m r) = scd2 r
}.
#[export] Hint Rewrite @id_set_id @id_set_scd2 @id_remap @id_remap_own @scd2_set_scd2 @scd2_set_id @scd2_remap
  @scd2_remap_own using typeclasses eauto : snap.

(** Projections of constructors, up to eta for the three columns. *)
Ltac record_laws := split; intros; try reflexivity; match goal with x : Scd2 |- _ => by destruct x end.

#[export] Instance Subnet_laws : SnapshotLaws Subnet.
Proof. record_laws. Qed.
#[export] Instance Vlan_laws : SnapshotLaws Vlan.
Proof. record_laws. Qed.
#[export] Instance Host_laws : SnapshotLaws HostRow.
Proof. record_laws. Qed.
#[export] Instance IPAddress_laws : SnapshotLaws IPAddress.
Proof. record_laws. Qed.
#[export] Instance Port_laws : SnapshotLaws Port.
Proof. record_laws. Qed.
#[export] Instance Service_laws : SnapshotLaws Service.
Proof. record_laws. Qed.
#[export] Instance Interface_laws : SnapshotLaws InterfaceRow.
Proof. record_laws. Qed.
#[export] Instance Binding_laws : SnapshotLaws Binding.
Proof. record_laws. Qed.
#[export] Instance SubnetVlan_laws : SnapshotLaws SubnetVlanRecord.
Proof. record_laws. Qed.
#[export] Instance Dependency_laws : SnapshotLaws DependencyRow.
Proof. record_laws. Qed.
#[export] Instance DependencyMember_laws : SnapshotLaws DependencyMemberRecord.
Proof. record_laws. Qed.
#[export] Instance EntityTag_laws : SnapshotLaws EntityTag.
Proof. record_laws. Qed.

(** ** Inserting *)

Section Insert.
Context {R : Type} `{Snapshotable R}.
Implicit Types (t : Table R) (l : list R).

Definition unstamped l : Table R := (λ r, (r, None)) <$> l.

(** The reference of each row is to a row of the table or of the batch. *)
Definition resolves t l : Prop :=
  ∀ r x, r ∈ l → own_ref r = Some x → x ∈ table_ids t ∨ x ∈ (id_value <$> l).

Lemma table_ids_app t1 t2 : table_ids (t1 ++ t2) = table_ids t1 ++ table_ids t2.
Proof. apply fmap_app. Qed.
Lemma table_ids_unstamped l : table_ids (unstamped l) = id_value <$> l.
Proof. unfold table_ids, unstamped. by rewrite <-list_fmap_compose. Qed.

Lemma insert_chunk_iff t l : insert_chunk t l = Ok (t ++ unstamped l) ↔ resolves t l.
Proof.
  unfold insert_chunk. fold (unstamped l). rewrite table_ids_app, table_ids_unstamped.
  destruct (omap _ l) as [|y ys] eqn:E; split; try done.
  - intros _ r x Hr Hx. apply elem_of_app, dec_stable. intros Hn.
    assert (x ∈ omap (λ r, r' ← own_ref r; if bool_decide (r' ∈ table_ids t ++ (id_value <$> l)) then None else Some r') l) as Hin.
    { apply list_elem_of_omap. exists r. split; [done|]. rewrite Hx. simpl. by rewrite bool_decide_false. }
    rewrite E in Hin. by apply elem_of_nil in Hin.
  - intros Hres. exfalso. assert (y ∈ y :: ys) as Hy by left. rewrite <-E in Hy.
    apply list_elem_of_omap in Hy as (r & Hr & Hy). destruct (own_ref r) as [x|] eqn:Hx; [|done].
    simpl in Hy. case_bool_decide as Hc; [done|]. apply Hc, elem_of_app. by eapply Hres.
Qed.

Lemma chunks_concat fuel n l : (length l ≤ fuel)%nat → concat (chunks fuel n l) = l.
Proof.
  revert l. induction fuel as [|fuel IH]; intros l Hl; [by destruct l; simpl in *; [|lia]|].
  destruct l as [|r l]; [done|]. cbn [chunks concat]. rewrite IH, take_drop; [done|].
  rewrite length_drop. simpl in *. lia.
Qed.

Lemma insert_chunks_resolved t (ls : list (list R)) :
  (∀ r x, r ∈ concat ls → own_ref r = Some x → x ∈ table_ids t) → insert_chunks t ls = Ok (t ++ unstamped (concat ls)).
Proof.
  revert t. induction ls as [|c ls IH]; intros t Hr; simpl; [by rewrite app_nil_r|].
  rewrite (proj2 (insert_chunk_iff t c)).
  - simpl. rewrite IH.
    + unfold unstamped. by rewrite fmap_app, app_assoc.
    + intros r x Hin Hx. rewrite table_ids_app. apply elem_of_app. left. apply (Hr r); [|done]. simpl. set_solver.
  - intros r x Hin Hx. left. apply (Hr r); [|done]. simpl. set_solver.
Qed.

(** A batch goes in when its references are to the table, or when it is a single statement. *)
Lemma create_many_ok t l :
  (∀ r x, r ∈ l → own_ref r = Some x → x ∈ table_ids t) ∨ (length l ≤ chunk_size (R := R))%nat ∧ resolves t l →
  create_many_in_tx l t = Ok (t ++ unstamped l).
Proof.
  unfold create_many_in_tx. intros [Hr|[Hle Hr]].
  - rewrite insert_chunks_resolved, chunks_concat; [done..|]. by rewrite chunks_concat.
  - destruct l as [|r l]; [by simpl; rewrite app_nil_r|]. cbn [length chunks].
    rewrite take_ge, drop_ge by (simpl in *; lia).
    replace (chunks (length l) chunk_size []) with (@nil (list R)) by by destruct (length l).
    simpl. by rewrite (proj2 (insert_chunk_iff t (r :: l)) Hr).
Qed.

(** ** Updating *)

Definition updated l (p : R * option Uuid) : R * option Uuid :=
  foldl (λ p e, if (id_value p.1 =? id_value e)%N then (e, p.2) else p) p l.

Lemma update_many_pointwise l t : update_many_in_tx l t = updated l <$> t.
Proof.
  revert t. induction l as [|e l IH]; intros t; simpl.
  - symmetry. apply list_fmap_id.
  - unfold update_many_in_tx. simpl. fold (update_many_in_tx l (update_row e t)). rewrite IH. unfold update_row.
    by rewrite <-list_fmap_compose.
Qed.

Lemma updated_other l p : id_value p.1 ∉ (id_value <$> l) → updated l p = p.
Proof.
  induction l as [|e l IH]; [done|]. intros Hn. unfold updated. simpl. fold (updated l).
  destruct (N.eqb_spec (id_value p.1) (id_value e)) as [E|_].
  - exfalso. apply Hn. rewrite E. left.
  - apply IH. intros Hin. apply Hn. by right.
Qed.

Lemma updated_this l p e : NoDup (id_value <$> l) → e ∈ l → id_value e = id_value p.1 → updated l p = (e, p.2).
Proof.
  revert p. induction l as [|e' l IH]; [by intros p _ ?%elem_of_nil|].
  intros p [Hni Hnd]%list.NoDup_cons Hin Hid. unfold updated. simpl. fold (updated l).
  apply elem_of_cons in Hin as [->|Hin].
  - rewrite (proj2 (N.eqb_eq _ _)) by done. by apply updated_other.
  - rewrite (proj2 (N.eqb_neq _ _)); [by apply IH|].
    intros E. apply Hni. rewrite <-E, <-Hid. by apply list_elem_of_fmap_2.
Qed.

(** The rows [g] rewrites among the selected ones; [g] keeps ids. *)
Section Rewrite.
Context (g : R → option R) (sel : R * option Uuid → bool).
Context (g_id : ∀ r r', g r = Some r' → id_value r' = id_value r).

Definition rewritten t : list R := omap g (List.filter sel t).*1.

Lemma elem_of_rewritten t e : e ∈ rewritten t ↔ ∃ q, q ∈ t ∧ sel q = true ∧ g q.1 = Some e.
Proof using Type.
  unfold rewritten. rewrite list_elem_of_omap. split.
  - intros (r & (q & -> & Hq)%list_elem_of_fmap & E).
    apply list_elem_of_In, filter_In in Hq as [Hq Hs]. exists q. by rewrite list_elem_of_In.
  - intros (q & Hq & Hs & E). exists q.1. split; [|done]. apply list_elem_of_fmap_2, list_elem_of_In, filter_In.
    by rewrite <-list_elem_of_In.
Qed.

Lemma rewritten_nodup t : NoDup (table_ids t) → NoDup (id_value <$> rewritten t).
Proof.
  unfold rewritten. induction t as [|q t IH]; [constructor|]. intros [Hni Hnd]%list.NoDup_cons.
  simpl. destruct (sel q) eqn:Es; simpl; [|by apply IH].
  destruct (g q.1) as [e|] eqn:Eg; simpl; [|by apply IH]. constructor; [|by apply IH].
  intros (e' & E & (q' & Hq' & _ & E')%elem_of_rewritten)%list_elem_of_fmap.
  apply Hni. apply g_id in Eg, E'. change (id_value q.1 ∈ table_ids t). rewrite <-Eg, E, E'.
  by apply (list_elem_of_fmap_2 (id_value ∘ fst)).
Qed.

Lemma same_row t p q : NoDup (table_ids t) → p ∈ t → q ∈ t → id_value q.1 = id_value p.1 → q = p.
Proof using Type.
  intros Hnd (i & Hi)%list_elem_of_lookup (j & Hj)%list_elem_of_lookup E. assert (i = j) as ->; [|congruence].
  eapply NoDup_lookup; [exact Hnd| |]; unfold table_ids; rewrite list_lookup_fmap; [by rewrite Hi|].
  rewrite Hj. simpl. by rewrite E.
Qed.

(** Each is replaced in place. *)
Lemma update_many_map t : NoDup (table_ids t) →
  update_many_in_tx (rewritten t) t = (λ p, if sel p then (default p.1 (g p.1), p.2) else p) <$> t.
Proof.
  intros Hnd. rewrite update_many_pointwise. apply list_fmap_ext. intros i p Hp%list_elem_of_lookup_2.
  assert (sel p = false ∨ g p.1 = None → updated (rewritten t) p = p) as Hkeep.
  { intros Hno. apply updated_other. intros (e & E & (q & Hq & Hs & Hgq)%elem_of_rewritten)%list_elem_of_fmap.
    assert (q = p) as ->; [|destruct Hno; congruence].
    apply (same_row t); [done..|]. rewrite E. symmetry. by apply g_id. }
  destruct (sel p) eqn:Es; [|by apply Hkeep; left].
  destruct (g p.1) as [e|] eqn:Eg; simpl; [|rewrite Hkeep by (by right); by destruct p].
  apply updated_this; [by apply rewritten_nodup| |by apply g_id]. apply elem_of_rewritten. by exists p.
Qed.
End Rewrite.
End Insert.

(** ** [close_and_clone_for] *)

Section CloneTables.
Context {R : Type} `{SnapshotLaws R}.
Context (mint : Uuid → Uuid) (taken_at : DateTime) (snapshot : Uuid) (maps : FkMaps) (selected : R → bool).
Implicit Types (t : Table R) (r : R).

Definition live_rows t : list R := List.filter (λ r, selected r && is_live r) t.*1.

Definition closed_copy (own : gmap Uuid Uuid) r : R := remap_own_clone_refs own (clone_row mint taken_at maps r).

(** The table after the snapshot: the selected live rows go on from [taken_at], and each
    has a closed copy. *)
Definition advanced t : Table R :=
  (λ p, if selected p.1 && is_live p.1 then (set_valid_from taken_at p.1, p.2) else p) <$> t.
Definition copies t : Table R :=
  (λ r, (closed_copy (clone_map mint (live_rows t)) r, Some snapshot)) <$> live_rows t.

Lemma closed_copy_id own r : id_value (closed_copy own r) = mint (id_value r).
Proof using H0. unfold closed_copy, clone_row. by autorewrite with snap. Qed.

Lemma closed_copy_scd2 own r :
  scd2 (closed_copy own r) = {| scd_from := scd_from (scd2 r); scd_to := Some taken_at; scd_lineage := Some (id_value r) |}.
Proof using H0. unfold closed_copy, clone_row, make_closed_copy. by autorewrite with snap. Qed.

Lemma set_valid_from_id r : id_value (set_valid_from taken_at r) = id_value r.
Proof using H0. unfold set_valid_from. by autorewrite with snap. Qed.

Lemma table_ids_copies t : table_ids (copies t) = mint ∘ id_value <$> live_rows t.
Proof using H0.
  unfold table_ids, copies. rewrite <-list_fmap_compose. apply list_fmap_ext. intros i r _. simpl. apply closed_copy_id.
Qed.

Lemma table_ids_advanced t : table_ids (advanced t) = table_ids t.
Proof using H0.
  unfold table_ids, advanced. rewrite <-list_fmap_compose. apply list_fmap_ext. intros i p _. simpl.
  case_match; simpl; [apply set_valid_from_id|done].
Qed.

Lemma live_row_id t r : r ∈ live_rows t → id_value r ∈ table_ids t.
Proof using Type.
  intros [Hr _]%list_elem_of_In%filter_In. apply list_elem_of_In, list_elem_of_fmap in Hr as (p & -> & Hp).
  by apply (list_elem_of_fmap_2 (id_value ∘ fst)).
Qed.

Lemma clone_map_lookup (l : list R) x : clone_map mint l !! x = if bool_decide (x ∈ id_value <$> l) then Some (mint x) else None.
Proof using Type.
  clear H0 selected taken_at snapshot maps. unfold clone_map. change (@None Uuid) with ((∅ : gmap Uuid Uuid) !! x). generalize (∅ : gmap Uuid Uuid).
  induction l as [|r l IH]; intros m; [done|]. cbn [foldl]. rewrite IH.
  destruct (decide (x = id_value r)) as [->|Hne].
  - rewrite lookup_insert_eq, (bool_decide_true (_ ∈ _ <$> r :: l)) by set_solver. by case_bool_decide.
  - rewrite lookup_insert_ne by done. repeat case_bool_decide; set_solver.
Qed.

(** References of the copies to other copies of the batch, or to rows that are there. *)
Definition insertable t : Prop :=
  let copies' := (closed_copy (clone_map mint (live_rows t))) <$> live_rows t in
  (∀ c x, c ∈ copies' → own_ref c = Some x → x ∈ table_ids t)
  ∨ (length (live_rows t) ≤ chunk_size (R := R))%nat ∧ resolves t copies'.

Context (mint_inj : Inj (=) (=) mint).

Lemma stamp_copies t :
  let closed := closed_copy (clone_map mint (live_rows t)) <$> live_rows t in
  (∀ x, mint x ∉ table_ids t) → stamp snapshot (id_value <$> closed) (t ++ unstamped closed) = t ++ copies t.
Proof using All.
  intros closed Hfresh. unfold stamp. rewrite fmap_app. f_equal.
  - rewrite <-(list_fmap_id t) at 2. apply list_fmap_ext. intros i p Hp%list_elem_of_lookup_2.
    rewrite bool_decide_false; [done|]. intros (c & E & Hc)%list_elem_of_fmap.
    apply list_elem_of_fmap in Hc as (r & -> & _). rewrite closed_copy_id in E. apply (Hfresh (id_value r)).
    rewrite <-E. by apply (list_elem_of_fmap_2 (id_value ∘ fst)).
  - unfold unstamped, copies, closed. rewrite <-!list_fmap_compose. apply list_fmap_ext. intros i r Hr%list_elem_of_lookup_2.
    simpl. rewrite bool_decide_true; [done|]. by apply (list_elem_of_fmap_2 (id_value ∘ closed_copy _)).
Qed.

Lemma advance_live t : NoDup (table_ids t) → (∀ x, mint x ∉ table_ids t) →
  update_many_in_tx (set_valid_from taken_at <$> live_rows t) (t ++ copies t) = advanced t ++ copies t.
Proof using All.
  intros Hnd Hfresh.
  assert (set_valid_from taken_at <$> live_rows t
          = rewritten (Some ∘ set_valid_from taken_at) (λ p, selected p.1 && is_live p.1) t) as E.
  { unfold live_rows, rewritten. clear. induction t as [|p t IH]; [done|]. simpl. case_match; simpl; [by f_equal|done]. }
  rewrite update_many_pointwise, fmap_app. f_equal.
  - rewrite <-update_many_pointwise, E, update_many_map; [done| |done]. intros r r' [= <-]. apply set_valid_from_id.
  - rewrite <-(list_fmap_id (copies t)) at 2. apply list_fmap_ext. intros i p Hp%list_elem_of_lookup_2.
    apply updated_other. intros (r' & Er & (r & -> & Hr)%list_elem_of_fmap)%list_elem_of_fmap.
    apply list_elem_of_fmap in Hp as (r0 & -> & _). simpl in Er. rewrite closed_copy_id, set_valid_from_id in Er.
    apply (Hfresh (id_value r0)). rewrite Er. by apply live_row_id.
Qed.

Theorem close_and_clone_for_spec t :
  NoDup (table_ids t) → (∀ x, mint x ∉ table_ids t) → insertable t →
  close_and_clone_for mint taken_at snapshot maps selected t
  = Ok (advanced t ++ copies t, clone_map mint (live_rows t)).
Proof using All.
  intros Hnd Hfresh Hins. unfold close_and_clone_for. fold (live_rows t).
  pose proof (stamp_copies t Hfresh) as Hs. pose proof (advance_live t Hnd Hfresh) as Ha. simpl in Hs.
  assert (create_many_in_tx (closed_copy (clone_map mint (live_rows t)) <$> live_rows t) t
    = Ok (t ++ unstamped (closed_copy (clone_map mint (live_rows t)) <$> live_rows t))) as Hc.
  { apply create_many_ok. destruct Hins as [Hi|[Hl Hi]]; [by left|right]. split; [by rewrite length_fmap|done]. }
  destruct (live_rows t) as [|r l] eqn:El.
  - simpl. rewrite <-Ha. simpl. unfold copies. by rewrite El, app_nil_r.
  - rewrite <-El in *. unfold closed_copy in *.
    change (remap_own_clone_refs (clone_map mint (live_rows t)) ∘ clone_row mint taken_at maps)
      with (λ r, remap_own_clone_refs (clone_map mint (live_rows t)) (clone_row mint taken_at maps r)).
    by rewrite Hc; simpl; rewrite Hs, Ha.
Qed.

Lemma cloned_nodup t : NoDup (table_ids t) → (∀ x, mint x ∉ table_ids t) → NoDup (table_ids (advanced t ++ copies t)).
Proof using All.
  intros Hnd Hfresh. rewrite table_ids_app, table_ids_advanced, table_ids_copies. apply list.NoDup_app. split_and!; [done| |].
  - intros x Hx (r & -> & _)%list_elem_of_fmap. by eapply Hfresh.
  - rewrite list_fmap_compose. apply (NoDup_fmap_2 mint). clear -Hnd. unfold live_rows, table_ids in *.
    induction t as [|p t IH]; [constructor|]. apply list.NoDup_cons in Hnd as [Hni Hnd]. simpl.
    case_match; simpl; [|by apply IH]. constructor; [|by apply IH].
    intros (r & E & [Hr _]%list_elem_of_In%filter_In)%list_elem_of_fmap. apply Hni.
    apply list_elem_of_In, list_elem_of_fmap in Hr as (q & -> & Hq). simpl. rewrite E.
    by apply (list_elem_of_fmap_2 (id_value ∘ fst)).
Qed.
End CloneTables.

(** ** [remap_virtualization_service_ids] *)

Class VirtLaws (R : Type) `{Snapshotable R, VirtualizationServiceRef R} : Prop := {
  id_set_virt i (r : R) : id_value (set_virt_service_id i r) = id_value r;
  scd2_set_virt i (r : R) : scd2 (set_virt_service_id i r) = scd2 r
}.
#[export] Instance Host_virt_laws : VirtLaws HostRow.
Proof. by split. Qed.
#[export] Instance Service_virt_laws : VirtLaws Service.
Proof. by split. Qed.
#[export] Instance Subnet_virt_laws : VirtLaws Subnet.
Proof. by split. Qed.

Section Runtime.
Context {R : Type} `{VirtLaws R}.

Definition rename_runtime (services : gmap Uuid Uuid) (r : R) : R :=
  default r (remap_virtualization_service_id services r).

Lemma remap_virtualization_spec snapshot services (t1 t2 : Table R) :
  NoDup (table_ids (t1 ++ t2)) → (∀ p, p ∈ t1 → p.2 ≠ Some snapshot) → (∀ p, p ∈ t2 → p.2 = Some snapshot) →
  remap_virtualization_service_ids snapshot services (t1 ++ t2)
  = t1 ++ ((λ p, (rename_runtime services p.1, p.2)) <$> t2).
Proof.
  intros Hnd Hold Hnew. unfold remap_virtualization_service_ids.
  pose proof (update_many_map (remap_virtualization_service_id services) (λ p, bool_decide (p.2 = Some snapshot))) as Hu.
  unfold rewritten in Hu. rewrite Hu; [| |done].
  - rewrite fmap_app. f_equal.
    + rewrite <-(list_fmap_id t1) at 2. apply list_fmap_ext. intros i p Hp%list_elem_of_lookup_2. by rewrite bool_decide_false by auto.
    + apply list_fmap_ext. intros i p Hp%list_elem_of_lookup_2. by rewrite bool_decide_true by auto.
  - intros r r'. unfold remap_virtualization_service_id. destruct (virt_service_id r) as [x|]; [|done]. simpl.
    destruct (services !! x); [|done]. intros [= <-]. apply id_set_virt.
Qed.

Lemma virt_rename_runtime services (r : R) : (∀ i, virt_service_id (set_virt_service_id i r) = Some i) →
  virt_service_id (rename_runtime services r) = renamed services <$> virt_service_id r.
Proof using Type.
  intros Hset. unfold rename_runtime, remap_virtualization_service_id, renamed.
  destruct (virt_service_id r) as [x|] eqn:E; simpl; [|done]. by destruct (services !! x); simpl; rewrite ?Hset.
Qed.
End Runtime.
