(* ===== verification/SnapshotThms.v ===== *)
(** The copying of a network, table after table, as one renaming with the complete maps. *)

From S2P Require Import Prelude Net Ports Entities Hosts HostMatch Locks Lldp Interfaces Discovery Sessions Services Snapshots SnapshotTables.
Local Open Scope Z_scope.

(** ** The renaming *)

Definition row_ids (c : CloneTable) (db : Db) : list Uuid :=
  match c with
  | CSubnets => table_ids (t_subnets db) | CVlans => table_ids (t_vlans db) | CHosts => table_ids (t_hosts db)
  | CIpAddresses => table_ids (t_ip_addresses db) | CPorts => table_ids (t_ports db)
  | CServices => table_ids (t_services db) | CInterfaces => table_ids (t_interfaces db)
  | CBindings => table_ids (t_bindings db) | CSubnetVlans => table_ids (t_subnet_vlans db)
  | CDependencies => table_ids (t_dependencies db) | CDependencyMembers => table_ids (t_dependency_members db)
  | CEntityTags => table_ids (t_entity_tags db)
  end.
Definition stamps (c : CloneTable) (db : Db) : list (option Uuid) :=
  match c with
  | CSubnets => (t_subnets db).*2 | CVlans => (t_vlans db).*2 | CHosts => (t_hosts db).*2
  | CIpAddresses => (t_ip_addresses db).*2 | CPorts => (t_ports db).*2
  | CServices => (t_services db).*2 | CInterfaces => (t_interfaces db).*2
  | CBindings => (t_bindings db).*2 | CSubnetVlans => (t_subnet_vlans db).*2
  | CDependencies => (t_dependencies db).*2 | CDependencyMembers => (t_dependency_members db).*2
  | CEntityTags => (t_entity_tags db).*2
  end.

Section Reference.
Context (mint : CloneTable → Uuid → Uuid) (network : Uuid) (taken_at : DateTime) (snapshot : Uuid) (db : Db).

(** The live rows of the network, table by table: by the column [network_id] or through
    the parent. *)
Definition sel_subnet (r : Subnet) := (s_network_id (s_base r) =? network)%N.
Definition sel_vlan (r : Vlan) := (vl_network_id (vl_base r) =? network)%N.
Definition sel_host (r : HostRow) := (h_network_id (h_base r) =? network)%N.
Definition sel_ip (r : IPAddress) := (ip_network_id (ip_base r) =? network)%N.
Definition sel_service (r : Service) := (sv_network_id (sv_base r) =? network)%N.
Definition sel_dependency (r : DependencyRow) := (dr_network_id r =? network)%N.
Definition subnet_map := clone_map (mint CSubnets) (live_rows sel_subnet (t_subnets db)).
Definition vlan_map := clone_map (mint CVlans) (live_rows sel_vlan (t_vlans db)).
Definition host_map := clone_map (mint CHosts) (live_rows sel_host (t_hosts db)).
Definition ip_map := clone_map (mint CIpAddresses) (live_rows sel_ip (t_ip_addresses db)).
Definition service_map := clone_map (mint CServices) (live_rows sel_service (t_services db)).
Definition dependency_map := clone_map (mint CDependencies) (live_rows sel_dependency (t_dependencies db)).
Definition sel_port (r : Port) := among host_map (p_host_id (p_base r)).
Definition sel_interface (r : InterfaceRow) := among host_map (if_host_id (if_base r)).
Definition sel_binding (r : Binding) := among service_map (b_service_id (b_base r)).
Definition sel_subnet_vlan (r : SubnetVlanRecord) := among subnet_map (sl_subnet_id r).
Definition sel_member (r : DependencyMemberRecord) := among dependency_map (dm_dependency_id r).
Definition sel_tag (r : EntityTag) :=
  among host_map (et_entity_id r) || among service_map (et_entity_id r) || among subnet_map (et_entity_id r)
  || among dependency_map (et_entity_id r).

(** The renaming, of every type at once. *)
Definition renaming : FkMaps := {|
  m_hosts := host_map; m_subnets := subnet_map; m_vlans := vlan_map; m_services := service_map; m_ip_addresses := ip_map;
  m_ports := clone_map (mint CPorts) (live_rows sel_port (t_ports db));
  m_interfaces := clone_map (mint CInterfaces) (live_rows sel_interface (t_interfaces db));
  m_bindings := clone_map (mint CBindings) (live_rows sel_binding (t_bindings db));
  m_dependencies := dependency_map |}.

(** A table with its live rows advanced and their renamed copies. *)
Definition snapped {R} `{Snapshotable R} (c : CloneTable) (sel : R → bool) (t : Table R) : Table R :=
  advanced taken_at sel t ++ copies (mint c) taken_at snapshot renaming sel t.

Definition snapped_runtime {R} `{Snapshotable R, VirtualizationServiceRef R} (c : CloneTable) (sel : R → bool)
    (t : Table R) : Table R :=
  advanced taken_at sel t
  ++ ((λ p, (rename_runtime service_map p.1, p.2)) <$> copies (mint c) taken_at snapshot renaming sel t).

Definition snapshot_db : Db := {|
  t_subnets := snapped_runtime CSubnets sel_subnet (t_subnets db); t_vlans := snapped CVlans sel_vlan (t_vlans db);
  t_hosts := snapped_runtime CHosts sel_host (t_hosts db); t_ip_addresses := snapped CIpAddresses sel_ip (t_ip_addresses db);
  t_ports := snapped CPorts sel_port (t_ports db); t_services := snapped_runtime CServices sel_service (t_services db);
  t_interfaces := snapped CInterfaces sel_interface (t_interfaces db); t_bindings := snapped CBindings sel_binding (t_bindings db);
  t_subnet_vlans := snapped CSubnetVlans sel_subnet_vlan (t_subnet_vlans db);
  t_dependencies := snapped CDependencies sel_dependency (t_dependencies db);
  t_dependency_members := snapped CDependencyMembers sel_member (t_dependency_members db);
  t_entity_tags := snapped CEntityTags sel_tag (t_entity_tags db); t_snapshots := t_snapshots db |}.
End Reference.

(** ** Hypotheses *)

(** Primary keys, and the two columns that refer into their own table. *)
Record DbWf (db : Db) : Prop := {
  wf_nodup c : NoDup (row_ids c db);
  wf_services p x : p ∈ t_services db → own_ref p.1 = Some x → x ∈ row_ids CServices db;
  wf_interfaces p x : p ∈ t_interfaces db → own_ref p.1 = Some x → x ∈ row_ids CInterfaces db
}.

(** [Uuid::new_v4] for the copies and for the snapshot. *)
Record Minted (mint : CloneTable → Uuid → Uuid) (snapshot : Uuid) (db : Db) : Prop := {
  minted_inj c : Inj (=) (=) (mint c);
  minted_fresh c x : mint c x ∉ row_ids c db;
  minted_stamp c : Some snapshot ∉ stamps c db
}.

Lemma live_rows_in {R} `{Snapshotable R} (sel : R → bool) (t : Table R) r : r ∈ live_rows sel t → r ∈ t.*1.
Proof. intros [Hr _]%list_elem_of_In%filter_In. by apply list_elem_of_In. Qed.

Section Insertable.
Context {R : Type} `{Snapshotable R} (mint : Uuid → Uuid) (taken_at : DateTime) (maps : FkMaps) (sel : R → bool) (t : Table R).

Lemma insertable_no_ref : (∀ r : R, own_ref r = None) → insertable mint taken_at maps sel t.
Proof. intros Hn. left. intros c x _. by rewrite Hn. Qed.
End Insertable.

Lemma insertable_services mint taken_at maps sel (t : Table Service) :
  (∀ p x, p ∈ t → own_ref p.1 = Some x → x ∈ table_ids t) → insertable mint taken_at maps sel t.
Proof.
  intros Hw. left. intros c x (r & -> & Hr)%list_elem_of_fmap Hx.
  apply live_rows_in, list_elem_of_fmap in Hr as (p & -> & Hp). by apply (Hw p).
Qed.

Lemma interface_copy_ref mint taken_at maps own (r : InterfaceRow) :
  own_ref (closed_copy mint taken_at maps own r) = renamed own <$> own_ref r.
Proof. destruct r as [i m b]. destruct b. cbn. by destruct neighbor as [[]|]. Qed.

Lemma insertable_interfaces mint taken_at maps sel (t : Table InterfaceRow) :
  (∀ p x, p ∈ t → own_ref p.1 = Some x → x ∈ table_ids t) →
  (length (live_rows sel t) ≤ chunk_size (R := InterfaceRow))%nat → insertable mint taken_at maps sel t.
Proof.
  intros Hw Hle. right. split; [done|]. intros c x (r & -> & Hr)%list_elem_of_fmap Hx.
  rewrite interface_copy_ref in Hx. destruct (own_ref r) as [y|] eqn:Ey; [|done]. injection Hx as <-.
  unfold renamed. rewrite clone_map_lookup. case_bool_decide as Hy; simpl.
  - right. apply list_elem_of_fmap in Hy as (r' & -> & Hr').
    rewrite <-(closed_copy_id mint taken_at maps (clone_map mint (live_rows sel t)) r').
    by apply list_elem_of_fmap_2, list_elem_of_fmap_2.
  - left. apply live_rows_in, list_elem_of_fmap in Hr as (p & -> & Hp). by apply (Hw p).
Qed.

(** ** The copying is the renaming *)

Section Run.
Context (mint : CloneTable → Uuid → Uuid) (network : Uuid) (taken_at : DateTime) (snapshot : Uuid) (db : Db).
Context (Hwf : DbWf db) (Hmint : Minted mint snapshot db).

(** One table of the sequence, for the maps at hand. *)
Lemma clone_step {R} `{SnapshotLaws R} c maps (sel : R → bool) (t : Table R) :
  row_ids c db = table_ids t → insertable (mint c) taken_at maps sel t →
  close_and_clone_for (mint c) taken_at snapshot maps sel t
  = Ok (advanced taken_at sel t ++ copies (mint c) taken_at snapshot maps sel t, clone_map (mint c) (live_rows sel t)).
Proof using All.
  intros E Hins. apply close_and_clone_for_spec; [|rewrite <-E; apply Hwf|rewrite <-E; apply Hmint|done]. apply Hmint.
Qed.

Lemma runtime_step {R} `{SnapshotLaws R, !VirtualizationServiceRef R, !VirtLaws R} c maps (sel : R → bool) (t : Table R) :
  row_ids c db = table_ids t → stamps c db = t.*2 →
  remap_virtualization_service_ids snapshot (service_map mint network db)
    (advanced taken_at sel t ++ copies (mint c) taken_at snapshot maps sel t)
  = advanced taken_at sel t
    ++ ((λ p, (rename_runtime (service_map mint network db) p.1, p.2)) <$> copies (mint c) taken_at snapshot maps sel t).
Proof using All.
  intros E Es. apply remap_virtualization_spec.
  - apply cloned_nodup; [apply Hmint|rewrite <-E; apply Hwf|rewrite <-E; apply Hmint].
  - intros p (q & -> & Hq)%list_elem_of_fmap Hp. apply (minted_stamp _ _ _ Hmint c). rewrite Es.
    apply list_elem_of_fmap. exists q. split; [|done]. by destruct (_ && _).
  - by intros p (r & -> & _)%list_elem_of_fmap.
Qed.

Lemma run_renames :
  (length (live_rows (sel_interface mint network db) (t_interfaces db)) ≤ chunk_size (R := InterfaceRow))%nat →
  run_close_and_clone mint network taken_at snapshot db = Ok (snapshot_db mint network taken_at snapshot db).
Proof using All.
  intros Hle. unfold run_close_and_clone. cbv zeta.
  pose proof (minted_inj _ _ _ Hmint). pose proof (wf_services _ Hwf). pose proof (wf_interfaces _ Hwf).
  repeat (erewrite clone_step; [cbn [result_bind fst snd]|reflexivity|first [by apply insertable_no_ref|by apply insertable_services|by apply insertable_interfaces]]).
  fold (service_map mint network db). do 3 (erewrite runtime_step; [|reflexivity..]). reflexivity.
Qed.
End Run.

(** ** The rows of the snapshot *)

Definition stamped {R} (snapshot : Uuid) (t : Table R) : list R := (List.filter (λ p, bool_decide (p.2 = Some snapshot)) t).*1.

Section Stamped.
Context {R : Type} `{SnapshotLaws R} (mint : Uuid → Uuid) (taken_at : DateTime) (snapshot : Uuid) (maps : FkMaps) (sel : R → bool).
Implicit Types t : Table R.

Lemma stamped_app (t1 t2 : Table R) : stamped snapshot (t1 ++ t2) = stamped snapshot t1 ++ stamped snapshot t2.
Proof. unfold stamped. by rewrite filter_app, fmap_app. Qed.

Lemma stamped_advanced t : Some snapshot ∉ t.*2 → stamped snapshot (advanced taken_at sel t) = [].
Proof.
  unfold stamped, advanced. induction t as [|p t IH]; [done|]. intros Hn. simpl.
  rewrite bool_decide_false; [apply IH; intros Hi; apply Hn; by right|]. intros E. apply Hn. simpl. rewrite <-E. by case_match; left.
Qed.

Lemma stamped_map {A} (f : A → R) (l : list A) : stamped snapshot ((λ r, (f r, Some snapshot)) <$> l) = f <$> l.
Proof.
  unfold stamped. induction l as [|r l IH]; [done|]. simpl. rewrite bool_decide_true by done. simpl. by f_equal.
Qed.
End Stamped.

(** ** A small network *)

(** A switch with two ports linked to each other, and a container host. *)
Definition demo_net_db : Db :=
  let meta := fresh_meta 5 in
  let live {R} (r : R) : R * option Uuid := (r, None) in
  let iface id other := {| if_id := id; if_meta := meta; if_base :=
    set_interface_neighbor (Some (NeighborInterface other))
      (remap_interface {| m_hosts := {[uuid_nil := 10%N]}; m_subnets := ∅; m_vlans := ∅; m_services := ∅; m_ip_addresses := ∅;
         m_ports := ∅; m_interfaces := ∅; m_bindings := ∅; m_dependencies := ∅ |} default_interface_base) |} in {|
  t_subnets := [live {| s_id := 20; s_meta := meta; s_base := set_subnet_runtime (Some 50%N)
    {| cidr := {| cidr_addr := ipv4 172 17 0 0; cidr_prefix := 16 |}; s_network_id := 0; s_name := "docker0"; s_description := None;
       subnet_type := SDockerBridge; s_virtualization_service_id := None; s_source := SourceManual; s_tags := [] |} |}];
  t_vlans := [live {| vl_id := 80; vl_meta := meta; vl_base := {| vl_number := 10; vl_name := "lab"; vl_description := None;
    vl_network_id := 0; vl_organization_id := 3; vl_source := SourceManual |} |}];
  t_hosts := [live {| h_id := 10; h_meta := meta; h_base := set_host_runtime (Some 50%N) default_host_base |}];
  t_ip_addresses := [live {| ip_id := 30; ip_meta := meta; ip_base := {| ip_network_id := 0; ip_host_id := 10; subnet_id := 20;
    ip_address := V4 7; mac_address := None; ip_name := None; ip_position := 0 |} |}];
  t_ports := [live {| p_id := 40; p_meta := meta; p_base := {| p_host_id := 10; p_network_id := 0; port_type := Ssh |} |}];
  t_services := [live {| sv_id := 50; sv_meta := meta; sv_base := {| sv_host_id := 10; sv_network_id := 0;
    service_definition := "Docker"; sv_name := "Docker"; bindings := []; virtualization_metadata := None;
    virtualization_service_id := None; source := SourceManual; sv_tags := []; sv_position := 0 |} |}];
  t_interfaces := [live (iface 60%N 61%N); live (iface 61%N 60%N)];
  t_bindings := [live {| b_id := 70; b_meta := meta; b_base := {| b_service_id := 50; b_network_id := 0;
    binding_type := BindPort 40 (Some 30%N) |} |}];
  t_subnet_vlans := [live {| sl_id := 90; sl_created_at := 5; sl_scd2 := meta_scd2 meta; sl_subnet_id := 20; sl_vlan_id := 80 |}];
  t_dependencies := [live {| dr_id := 100; dr_created_at := 5; dr_updated_at := 5; dr_scd2 := meta_scd2 meta; dr_name := "app";
    dr_description := None; dr_network_id := 0; dr_source := SourceManual; dr_type := RequestPath; dr_color := "Blue";
    dr_edge_style := "Straight"; dr_of_bindings := true |}];
  t_dependency_members := [live {| dm_id := 110; dm_created_at := 5; dm_scd2 := meta_scd2 meta; dm_dependency_id := 100;
    dm_service_id := 50; dm_binding_id := Some 70%N; dm_position := 0 |}];
  t_entity_tags := [live {| et_id := 120; et_created_at := 5; et_scd2 := meta_scd2 meta; et_entity_id := 10;
    et_entity_type := E_Host; et_tag_id := 130 |}];
  t_snapshots := [] |}.

Definition demo_mint (c : CloneTable) (x : Uuid) : Uuid := (x + 1000)%N.

Lemma demo_net_wf : DbWf demo_net_db.
Proof.
  split.
  - intros c. apply (bool_decide_unpack _). by destruct c; vm_compute.
  - intros p x [->|[]%elem_of_nil]%elem_of_cons. done.
  - intros p x Hp Hx. apply (bool_decide_unpack _).
    repeat (apply elem_of_cons in Hp as [->|Hp]; [by injection Hx as <-; vm_compute|]). by apply elem_of_nil in Hp.
Qed.

Lemma demo_mint_ok : Minted demo_mint 999 demo_net_db.
Proof.
  split.
  - intros c x y. unfold demo_mint. lia.
  - intros c x Hx. assert (Forall (λ y, y < 1000)%N (row_ids c demo_net_db)) as Hall by (destruct c; repeat constructor).
    rewrite list.Forall_forall in Hall. specialize (Hall _ Hx). unfold demo_mint in Hall. simpl in Hall. lia.
  - intros c. apply (bool_decide_unpack _). by destruct c; vm_compute.
Qed.
