(* ===== verification/SnapshotSpec.v ===== *)
(** What a snapshot is, row by row and field by field.

    The reference of [Snapshots], written without its functions: for each of the twelve
    tables which rows are copied, what a copy is and how the live row goes on.  A copy has
    the fields of its row, the id minted for it, its history closed at the time of the
    snapshot, and every reference to a copied row turned to the copy; the one exception is
    the list of tagged VLANs of an interface, which stays on the live VLANs. *)

From S2P Require Import Prelude Net Ports Entities Hosts HostMatch Locks Lldp Interfaces Discovery Sessions Services Snapshots SnapshotTables SnapshotThms.
Local Open Scope Z_scope.

Section Reference.
Context (mint : CloneTable → Uuid → Uuid) (network : Uuid) (taken_at : DateTime) (snapshot : Uuid) (db : Db).

(** ** History *)

Definition closed_meta (id : Uuid) (m : RowMeta) : RowMeta := {|
  created_at := created_at m; updated_at := updated_at m; Entities.valid_from := Entities.valid_from m;
  valid_to := Some taken_at; lineage_id := Some id; last_seen_at := last_seen_at m;
  last_discovery_id := last_discovery_id m; first_discovery_id := first_discovery_id m |}.
Definition later_meta (m : RowMeta) : RowMeta := {|
  created_at := created_at m; updated_at := updated_at m; Entities.valid_from := taken_at;
  valid_to := valid_to m; lineage_id := lineage_id m; last_seen_at := last_seen_at m;
  last_discovery_id := last_discovery_id m; first_discovery_id := first_discovery_id m |}.
Definition closed_scd (id : Uuid) (s : Scd2) : Scd2 :=
  {| scd_from := scd_from s; scd_to := Some taken_at; scd_lineage := Some id |}.
Definition later_scd (s : Scd2) : Scd2 := {| scd_from := taken_at; scd_to := scd_to s; scd_lineage := scd_lineage s |}.

(** ** Which rows are copied *)

Definition subnet_copied (r : Subnet) : Prop := s_network_id (s_base r) = network ∧ valid_to (s_meta r) = None.
Definition vlan_copied (r : Vlan) : Prop := vl_network_id (vl_base r) = network ∧ valid_to (vl_meta r) = None.
Definition host_copied (r : HostRow) : Prop := h_network_id (h_base r) = network ∧ valid_to (h_meta r) = None.
Definition ip_copied (r : IPAddress) : Prop := ip_network_id (ip_base r) = network ∧ valid_to (ip_meta r) = None.
Definition service_copied (r : Service) : Prop := sv_network_id (sv_base r) = network ∧ valid_to (sv_meta r) = None.
Definition dependency_copied (r : DependencyRow) : Prop := dr_network_id r = network ∧ scd_to (dr_scd2 r) = None.

Definition subnet_ids : list Uuid := s_id <$> filter subnet_copied (t_subnets db).*1.
Definition vlan_ids : list Uuid := vl_id <$> filter vlan_copied (t_vlans db).*1.
Definition host_ids : list Uuid := h_id <$> filter host_copied (t_hosts db).*1.
Definition ip_ids : list Uuid := ip_id <$> filter ip_copied (t_ip_addresses db).*1.
Definition service_ids : list Uuid := sv_id <$> filter service_copied (t_services db).*1.
Definition dependency_ids : list Uuid := dr_id <$> filter dependency_copied (t_dependencies db).*1.

(** Through the parent. *)
Definition port_copied (r : Port) : Prop := p_host_id (p_base r) ∈ host_ids ∧ valid_to (p_meta r) = None.
Definition interface_copied (r : InterfaceRow) : Prop := if_host_id (if_base r) ∈ host_ids ∧ valid_to (if_meta r) = None.
Definition binding_copied (r : Binding) : Prop := b_service_id (b_base r) ∈ service_ids ∧ valid_to (b_meta r) = None.
Definition subnet_vlan_copied (r : SubnetVlanRecord) : Prop := sl_subnet_id r ∈ subnet_ids ∧ scd_to (sl_scd2 r) = None.
Definition member_copied (r : DependencyMemberRecord) : Prop := dm_dependency_id r ∈ dependency_ids ∧ scd_to (dm_scd2 r) = None.
Definition tag_copied (r : EntityTag) : Prop :=
  (et_entity_id r ∈ host_ids ∨ et_entity_id r ∈ service_ids ∨ et_entity_id r ∈ subnet_ids ∨ et_entity_id r ∈ dependency_ids)
  ∧ scd_to (et_scd2 r) = None.

Definition port_ids : list Uuid := p_id <$> filter port_copied (t_ports db).*1.
Definition interface_ids : list Uuid := if_id <$> filter interface_copied (t_interfaces db).*1.
Definition copied_binding_ids : list Uuid := b_id <$> filter binding_copied (t_bindings db).*1.

(** ** Copies *)

(** A reference: to the copy, when the row it names was copied. *)
Definition turn (c : CloneTable) (ids : list Uuid) (x : Uuid) : Uuid := if decide (x ∈ ids) then mint c x else x.

Definition subnet_copy (r : Subnet) : Subnet := {|
  s_id := mint CSubnets (s_id r); s_meta := closed_meta (s_id r) (s_meta r);
  s_base := {| cidr := cidr (s_base r); s_network_id := s_network_id (s_base r); s_name := s_name (s_base r);
    s_description := s_description (s_base r); subnet_type := subnet_type (s_base r);
    s_virtualization_service_id := turn CServices service_ids <$> s_virtualization_service_id (s_base r);
    s_source := s_source (s_base r); s_tags := s_tags (s_base r) |} |}.
Definition vlan_copy (r : Vlan) : Vlan := {|
  vl_id := mint CVlans (vl_id r); vl_meta := closed_meta (vl_id r) (vl_meta r); vl_base := vl_base r |}.
Definition host_copy (r : HostRow) : HostRow := let b := h_base r in {|
  h_id := mint CHosts (h_id r); h_meta := closed_meta (h_id r) (h_meta r);
  h_base := {| h_name := h_name b; name_source := name_source b; h_network_id := h_network_id b; hostname := hostname b;
    h_description := h_description b; h_source := h_source b; h_virtualization_metadata := h_virtualization_metadata b;
    h_virtualization_service_id := turn CServices service_ids <$> h_virtualization_service_id b; hidden := hidden b;
    h_tags := h_tags b; sys_descr := sys_descr b; sys_object_id := sys_object_id b; sys_location := sys_location b;
    sys_contact := sys_contact b; management_url := management_url b; chassis_id := chassis_id b; sys_name := sys_name b;
    manufacturer := manufacturer b; model := model b; serial_number := serial_number b;
    credential_assignments := credential_assignments b |} |}.
Definition ip_copy (r : IPAddress) : IPAddress := let b := ip_base r in {|
  ip_id := mint CIpAddresses (ip_id r); ip_meta := closed_meta (ip_id r) (ip_meta r);
  ip_base := {| ip_network_id := ip_network_id b; ip_host_id := turn CHosts host_ids (ip_host_id b);
    subnet_id := turn CSubnets subnet_ids (subnet_id b); ip_address := ip_address b; mac_address := mac_address b;
    ip_name := ip_name b; ip_position := ip_position b |} |}.
Definition port_copy (r : Port) : Port := {|
  p_id := mint CPorts (p_id r); p_meta := closed_meta (p_id r) (p_meta r);
  p_base := {| p_host_id := turn CHosts host_ids (p_host_id (p_base r)); p_network_id := p_network_id (p_base r);
    port_type := port_type (p_base r) |} |}.
Definition service_copy (r : Service) : Service := let b := sv_base r in {|
  sv_id := mint CServices (sv_id r); sv_meta := closed_meta (sv_id r) (sv_meta r);
  sv_base := {| sv_host_id := turn CHosts host_ids (sv_host_id b); sv_network_id := sv_network_id b;
    service_definition := service_definition b; sv_name := sv_name b; bindings := bindings b;
    virtualization_metadata := virtualization_metadata b;
    virtualization_service_id := turn CServices service_ids <$> virtualization_service_id b; source := source b;
    sv_tags := sv_tags b; sv_position := sv_position b |} |}.
Definition neighbor_turned (n : Neighbor) : Neighbor :=
  match n with
  | NeighborHost h => NeighborHost (turn CHosts host_ids h)
  | NeighborInterface i => NeighborInterface (turn CInterfaces interface_ids i)
  end.
(** The tagged VLANs are the ones of the live row. *)
Definition interface_copy (r : InterfaceRow) : InterfaceRow := let b := if_base r in {|
  if_id := mint CInterfaces (if_id r); if_meta := closed_meta (if_id r) (if_meta r);
  if_base := {| if_host_id := turn CHosts host_ids (if_host_id b); if_network_id := if_network_id b; if_index := if_index b;
    if_descr := if_descr b; if_name := if_name b; if_alias := if_alias b; if_type := if_type b; speed_bps := speed_bps b;
    admin_status := admin_status b; oper_status := oper_status b; if_mac := if_mac b;
    if_ip_address_id := turn CIpAddresses ip_ids <$> if_ip_address_id b; neighbor := neighbor_turned <$> neighbor b;
    lldp := lldp b; cdp := cdp b; fdb_macs := fdb_macs b;
    vlans := {| Interfaces.native_vlan_id := turn CVlans vlan_ids <$> Interfaces.native_vlan_id (vlans b);
                Interfaces.vlan_ids := Interfaces.vlan_ids (vlans b) |} |} |}.
Definition binding_copy (r : Binding) : Binding := let b := b_base r in {|
  b_id := mint CBindings (b_id r); b_meta := closed_meta (b_id r) (b_meta r);
  b_base := {| b_service_id := turn CServices service_ids (b_service_id b); b_network_id := b_network_id b;
    binding_type := match binding_type b with
      | BindIPAddress ip => BindIPAddress (turn CIpAddresses ip_ids ip)
      | BindPort p ip => BindPort (turn CPorts port_ids p) (turn CIpAddresses ip_ids <$> ip)
      end |} |}.
Definition subnet_vlan_copy (r : SubnetVlanRecord) : SubnetVlanRecord := {|
  sl_id := mint CSubnetVlans (sl_id r); sl_created_at := sl_created_at r; sl_scd2 := closed_scd (sl_id r) (sl_scd2 r);
  sl_subnet_id := turn CSubnets subnet_ids (sl_subnet_id r); sl_vlan_id := turn CVlans vlan_ids (sl_vlan_id r) |}.
Definition dependency_copy (r : DependencyRow) : DependencyRow := {|
  dr_id := mint CDependencies (dr_id r); dr_created_at := dr_created_at r; dr_updated_at := dr_updated_at r;
  dr_scd2 := closed_scd (dr_id r) (dr_scd2 r); dr_name := dr_name r; dr_description := dr_description r;
  dr_network_id := dr_network_id r; dr_source := dr_source r; dr_type := dr_type r; dr_color := dr_color r;
  dr_edge_style := dr_edge_style r; dr_of_bindings := dr_of_bindings r |}.
Definition member_copy (r : DependencyMemberRecord) : DependencyMemberRecord := {|
  dm_id := mint CDependencyMembers (dm_id r); dm_created_at := dm_created_at r; dm_scd2 := closed_scd (dm_id r) (dm_scd2 r);
  dm_dependency_id := turn CDependencies dependency_ids (dm_dependency_id r);
  dm_service_id := turn CServices service_ids (dm_service_id r);
  dm_binding_id := turn CBindings copied_binding_ids <$> dm_binding_id r; dm_position := dm_position r |}.
Definition tag_copy (r : EntityTag) : EntityTag := {|
  et_id := mint CEntityTags (et_id r); et_created_at := et_created_at r; et_scd2 := closed_scd (et_id r) (et_scd2 r);
  et_entity_id := match et_entity_type r with
    | E_Host => turn CHosts host_ids (et_entity_id r) | E_Service => turn CServices service_ids (et_entity_id r)
    | E_Subnet => turn CSubnets subnet_ids (et_entity_id r)
    | E_Dependency => turn CDependencies dependency_ids (et_entity_id r)
    | _ => et_entity_id r
    end;
  et_entity_type := et_entity_type r; et_tag_id := et_tag_id r |}.

(** ** Live rows afterwards *)

Definition subnet_later (r : Subnet) : Subnet := {| s_id := s_id r; s_meta := later_meta (s_meta r); s_base := s_base r |}.
Definition vlan_later (r : Vlan) : Vlan := {| vl_id := vl_id r; vl_meta := later_meta (vl_meta r); vl_base := vl_base r |}.
Definition host_later (r : HostRow) : HostRow := {| h_id := h_id r; h_meta := later_meta (h_meta r); h_base := h_base r |}.
Definition ip_later (r : IPAddress) : IPAddress := {| ip_id := ip_id r; ip_meta := later_meta (ip_meta r); ip_base := ip_base r |}.
Definition port_later (r : Port) : Port := {| p_id := p_id r; p_meta := later_meta (p_meta r); p_base := p_base r |}.
Definition service_later (r : Service) : Service := {| sv_id := sv_id r; sv_meta := later_meta (sv_meta r); sv_base := sv_base r |}.
Definition interface_later (r : InterfaceRow) : InterfaceRow := {| if_id := if_id r; if_meta := later_meta (if_meta r); if_base := if_base r |}.
Definition binding_later (r : Binding) : Binding := {| b_id := b_id r; b_meta := later_meta (b_meta r); b_base := b_base r |}.
Definition subnet_vlan_later (r : SubnetVlanRecord) : SubnetVlanRecord := {| sl_id := sl_id r; sl_created_at := sl_created_at r;
  sl_scd2 := later_scd (sl_scd2 r); sl_subnet_id := sl_subnet_id r; sl_vlan_id := sl_vlan_id r |}.
Definition dependency_later (r : DependencyRow) : DependencyRow := {| dr_id := dr_id r; dr_created_at := dr_created_at r;
  dr_updated_at := dr_updated_at r; dr_scd2 := later_scd (dr_scd2 r); dr_name := dr_name r; dr_description := dr_description r;
  dr_network_id := dr_network_id r; dr_source := dr_source r; dr_type := dr_type r; dr_color := dr_color r;
  dr_edge_style := dr_edge_style r; dr_of_bindings := dr_of_bindings r |}.
Definition member_later (r : DependencyMemberRecord) : DependencyMemberRecord := {| dm_id := dm_id r;
  dm_created_at := dm_created_at r; dm_scd2 := later_scd (dm_scd2 r); dm_dependency_id := dm_dependency_id r;
  dm_service_id := dm_service_id r; dm_binding_id := dm_binding_id r; dm_position := dm_position r |}.
Definition tag_later (r : EntityTag) : EntityTag := {| et_id := et_id r; et_created_at := et_created_at r;
  et_scd2 := later_scd (et_scd2 r); et_entity_id := et_entity_id r; et_entity_type := et_entity_type r; et_tag_id := et_tag_id r |}.

(** ** The tables *)

(** The rows that are copied go on from the snapshot, the others stay; the copies follow,
    with the snapshot's id. *)
Definition taken {R} (copied : R → Prop) `{∀ r, Decision (copied r)} (later copy : R → R) (t : Table R) : Table R :=
  ((λ p, if decide (copied p.1) then (later p.1, p.2) else p) <$> t) ++ ((λ r, (copy r, Some snapshot)) <$> filter copied t.*1).

Definition renamed_db : Db := {|
  t_subnets := taken subnet_copied subnet_later subnet_copy (t_subnets db);
  t_vlans := taken vlan_copied vlan_later vlan_copy (t_vlans db);
  t_hosts := taken host_copied host_later host_copy (t_hosts db);
  t_ip_addresses := taken ip_copied ip_later ip_copy (t_ip_addresses db);
  t_ports := taken port_copied port_later port_copy (t_ports db);
  t_services := taken service_copied service_later service_copy (t_services db);
  t_interfaces := taken interface_copied interface_later interface_copy (t_interfaces db);
  t_bindings := taken binding_copied binding_later binding_copy (t_bindings db);
  t_subnet_vlans := taken subnet_vlan_copied subnet_vlan_later subnet_vlan_copy (t_subnet_vlans db);
  t_dependencies := taken dependency_copied dependency_later dependency_copy (t_dependencies db);
  t_dependency_members := taken member_copied member_later member_copy (t_dependency_members db);
  t_entity_tags := taken tag_copied tag_later tag_copy (t_entity_tags db);
  t_snapshots := t_snapshots db |}.
End Reference.

(** ** The reference and the renaming of [SnapshotThms] *)

Lemma filter_prop {A} (f : A → bool) (P : A → Prop) `{∀ x, Decision (P x)} (l : list A) :
  (∀ x, f x = true ↔ P x) → List.filter f l = filter P l.
Proof.
  intros Hf. induction l as [|x l IH]; [done|]. rewrite filter_cons. cbn [List.filter]. rewrite IH.
  specialize (Hf x). destruct (f x), (decide (P x)); try done; exfalso; naive_solver.
Qed.

Lemma live_rows_filter {R} `{Snapshotable R} (sel : R → bool) (P : R → Prop) `{∀ r, Decision (P r)} (t : Table R) :
  (∀ r, sel r && is_live r = true ↔ P r) → live_rows sel t = filter P t.*1.
Proof. apply filter_prop. Qed.

Lemma renamed_turn {R} `{Snapshotable R} (mint : CloneTable → Uuid → Uuid) c (l : list R) x :
  renamed (clone_map (mint c) l) x = turn mint c (id_value <$> l) x.
Proof.
  unfold renamed, turn. rewrite clone_map_lookup. destruct (decide _); [by rewrite bool_decide_eq_true_2|by rewrite bool_decide_eq_false_2].
Qed.

Lemma among_ids {R} `{Snapshotable R} (mint : CloneTable → Uuid → Uuid) c (l : list R) x : among (clone_map (mint c) l) x = true ↔ x ∈ id_value <$> l.
Proof.
  unfold among. rewrite bool_decide_eq_true, clone_map_lookup. case_bool_decide; [naive_solver|]. split; [by intros [? ?]|done].
Qed.

Section Equal.
Context (mint : CloneTable → Uuid → Uuid) (network : Uuid) (taken_at : DateTime) (snapshot : Uuid) (db : Db).
Local Abbreviation M := (renaming mint network db).

Lemma live_column {R} `{Snapshotable R} (own wanted : Uuid) (r : R) (to : option DateTime) : scd_to (scd2 r) = to →
  (own =? wanted)%N && is_live r = true ↔ own = wanted ∧ to = None.
Proof. intros <-. unfold is_live. by rewrite andb_true_iff, N.eqb_eq, bool_decide_eq_true. Qed.

Lemma subnet_ids_eq : id_value <$> live_rows (sel_subnet network) (t_subnets db) = subnet_ids network db.
Proof. unfold subnet_ids. erewrite live_rows_filter; [done|]. intros r. by apply live_column. Qed.
Lemma vlan_ids_eq : id_value <$> live_rows (sel_vlan network) (t_vlans db) = vlan_ids network db.
Proof. unfold vlan_ids. erewrite live_rows_filter; [done|]. intros r. by apply live_column. Qed.
Lemma host_ids_eq : id_value <$> live_rows (sel_host network) (t_hosts db) = host_ids network db.
Proof. unfold host_ids. erewrite live_rows_filter; [done|]. intros r. by apply live_column. Qed.
Lemma ip_ids_eq : id_value <$> live_rows (sel_ip network) (t_ip_addresses db) = ip_ids network db.
Proof. unfold ip_ids. erewrite live_rows_filter; [done|]. intros r. by apply live_column. Qed.
Lemma service_ids_eq : id_value <$> live_rows (sel_service network) (t_services db) = service_ids network db.
Proof. unfold service_ids. erewrite live_rows_filter; [done|]. intros r. by apply live_column. Qed.
Lemma dependency_ids_eq : id_value <$> live_rows (sel_dependency network) (t_dependencies db) = dependency_ids network db.
Proof. unfold dependency_ids. erewrite live_rows_filter; [done|]. intros r. by apply live_column. Qed.

(** The rows that are copied, through a parent. *)
Ltac through_parent lem := intros r; rewrite andb_true_iff; unfold is_live; rewrite bool_decide_eq_true;
  match goal with |- context [among ?m ?x = true] => idtac end; rewrite among_ids, lem; done.
Lemma port_selected r : sel_port mint network db r && is_live r = true ↔ port_copied network db r.
Proof. revert r. unfold sel_port, host_map, port_copied. through_parent host_ids_eq. Qed.
Lemma interface_selected r : sel_interface mint network db r && is_live r = true ↔ interface_copied network db r.
Proof. revert r. unfold sel_interface, host_map, interface_copied. through_parent host_ids_eq. Qed.
Lemma binding_selected r : sel_binding mint network db r && is_live r = true ↔ binding_copied network db r.
Proof. revert r. unfold sel_binding, service_map, binding_copied. through_parent service_ids_eq. Qed.
Lemma subnet_vlan_selected r : sel_subnet_vlan mint network db r && is_live r = true ↔ subnet_vlan_copied network db r.
Proof. revert r. unfold sel_subnet_vlan, subnet_map, subnet_vlan_copied. through_parent subnet_ids_eq. Qed.
Lemma member_selected r : sel_member mint network db r && is_live r = true ↔ member_copied network db r.
Proof. revert r. unfold sel_member, dependency_map, member_copied. through_parent dependency_ids_eq. Qed.
Lemma tag_selected r : sel_tag mint network db r && is_live r = true ↔ tag_copied network db r.
Proof.
  unfold sel_tag, host_map, service_map, subnet_map, dependency_map, tag_copied, is_live.
  rewrite andb_true_iff, !orb_true_iff, !among_ids, host_ids_eq, service_ids_eq, subnet_ids_eq, dependency_ids_eq, bool_decide_eq_true.
  tauto.
Qed.

Lemma port_ids_eq : id_value <$> live_rows (sel_port mint network db) (t_ports db) = port_ids network db.
Proof. unfold port_ids. erewrite live_rows_filter; [done|]. apply port_selected. Qed.
Lemma interface_ids_eq : id_value <$> live_rows (sel_interface mint network db) (t_interfaces db) = interface_ids network db.
Proof. unfold interface_ids. erewrite live_rows_filter; [done|]. apply interface_selected. Qed.
Lemma copied_binding_ids_eq : id_value <$> live_rows (sel_binding mint network db) (t_bindings db) = copied_binding_ids network db.
Proof. unfold copied_binding_ids. erewrite live_rows_filter; [done|]. apply binding_selected. Qed.

(** The maps are the references. *)
Lemma turn_host x : renamed (m_hosts M) x = turn mint CHosts (host_ids network db) x.
Proof. cbn. unfold host_map. by rewrite renamed_turn, host_ids_eq. Qed.
Lemma turn_subnet x : renamed (m_subnets M) x = turn mint CSubnets (subnet_ids network db) x.
Proof. cbn. unfold subnet_map. by rewrite renamed_turn, subnet_ids_eq. Qed.
Lemma turn_vlan x : renamed (m_vlans M) x = turn mint CVlans (vlan_ids network db) x.
Proof. cbn. unfold vlan_map. by rewrite renamed_turn, vlan_ids_eq. Qed.
Lemma turn_ip x : renamed (m_ip_addresses M) x = turn mint CIpAddresses (ip_ids network db) x.
Proof. cbn. unfold ip_map. by rewrite renamed_turn, ip_ids_eq. Qed.
Lemma turn_service x : renamed (m_services M) x = turn mint CServices (service_ids network db) x.
Proof. cbn. unfold service_map. by rewrite renamed_turn, service_ids_eq. Qed.
Lemma turn_dependency x : renamed (m_dependencies M) x = turn mint CDependencies (dependency_ids network db) x.
Proof. cbn. unfold dependency_map. by rewrite renamed_turn, dependency_ids_eq. Qed.
Lemma turn_port x : renamed (m_ports M) x = turn mint CPorts (port_ids network db) x.
Proof. cbn. by rewrite renamed_turn, port_ids_eq. Qed.
Lemma turn_interface x : renamed (m_interfaces M) x = turn mint CInterfaces (interface_ids network db) x.
Proof. cbn. by rewrite renamed_turn, interface_ids_eq. Qed.
Lemma turn_binding x : renamed (m_bindings M) x = turn mint CBindings (copied_binding_ids network db) x.
Proof. cbn. by rewrite renamed_turn, copied_binding_ids_eq. Qed.

(** A table is taken as the reference says when its rows are. *)
Lemma snapped_taken {R} `{Snapshotable R} c (sel : R → bool) (P : R → Prop) `{∀ r, Decision (P r)} later copy (t : Table R) :
  (∀ r, sel r && is_live r = true ↔ P r) → (∀ r, set_valid_from taken_at r = later r) →
  (∀ r, closed_copy (mint c) taken_at M (clone_map (mint c) (live_rows sel t)) r = copy r) →
  snapped mint network taken_at snapshot db c sel t = taken snapshot P later copy t.
Proof.
  intros Hsel Hlater Hcopy. unfold snapped, taken, advanced, copies. f_equal.
  - apply list_fmap_ext. intros i p _. rewrite Hlater. specialize (Hsel p.1).
    destruct (_ && _), (decide _); try done; exfalso; naive_solver.
  - rewrite <- (live_rows_filter sel P t Hsel). apply list_fmap_ext. intros i r _. by rewrite Hcopy.
Qed.

Lemma snapped_runtime_taken {R} `{Snapshotable R, VirtualizationServiceRef R} c (sel : R → bool) (P : R → Prop)
    `{∀ r, Decision (P r)} later copy (t : Table R) :
  (∀ r, sel r && is_live r = true ↔ P r) → (∀ r, set_valid_from taken_at r = later r) →
  (∀ r, rename_runtime (m_services M) (closed_copy (mint c) taken_at M (clone_map (mint c) (live_rows sel t)) r) = copy r) →
  snapped_runtime mint network taken_at snapshot db c sel t = taken snapshot P later copy t.
Proof.
  intros Hsel Hlater Hcopy. unfold snapped_runtime, taken, advanced, copies. f_equal.
  - apply list_fmap_ext. intros i p _. rewrite Hlater. specialize (Hsel p.1).
    destruct (_ && _), (decide _); try done; exfalso; naive_solver.
  - rewrite <- (live_rows_filter sel P t Hsel), <- list_fmap_compose. apply list_fmap_ext. intros i r _. cbn. by rewrite <- Hcopy.
Qed.

(** Renaming the runtime service. *)
Lemma runtime_turn {R} `{VirtualizationServiceRef R} (r r' : R) :
  match virt_service_id r with
  | Some x => set_virt_service_id (turn mint CServices (service_ids network db) x) r = r'
              ∧ (x ∉ service_ids network db → r = r')
  | None => r = r'
  end → rename_runtime (m_services M) r = r'.
Proof.
  unfold rename_runtime, remap_virtualization_service_id. destruct (virt_service_id r) as [x|]; cbn; [|done]. intros [E1 E2].
  pose proof (turn_service x) as Ht. unfold renamed in Ht. cbn in Ht. unfold service_map in *. rewrite clone_map_lookup in *.
  rewrite service_ids_eq in *. case_bool_decide as Hx; cbn in *; [by rewrite Ht|by apply E2].
Qed.

(** A reference that is not turned. *)
Lemma turn_out c ids x : x ∉ ids → turn mint c ids x = x.
Proof. intros Hx. unfold turn. by rewrite decide_False. Qed.

Section CopyOf.
Context (own : gmap Uuid Uuid).

Lemma subnet_copy_eq r :
  rename_runtime (m_services M) (closed_copy (mint CSubnets) taken_at M own r) = subnet_copy mint network taken_at db r.
Proof.
  apply runtime_turn. destruct r as [i m b]. destruct b as [? ? ? ? ? v]. destruct v as [x|]; cbn; [|done].
  split; [done|]. intros Hx. unfold subnet_copy. cbn. by rewrite turn_out.
Qed.
Lemma host_copy_eq r :
  rename_runtime (m_services M) (closed_copy (mint CHosts) taken_at M own r) = host_copy mint network taken_at db r.
Proof.
  apply runtime_turn. destruct r as [i m b]. destruct b as [? ? ? ? ? ? ? v]. destruct v as [x|]; cbn; [|done].
  split; [done|]. intros Hx. unfold host_copy. cbn. by rewrite turn_out.
Qed.
Lemma service_copy_eq r :
  rename_runtime (m_services M) (closed_copy (mint CServices) taken_at M own r) = service_copy mint network taken_at db r.
Proof.
  apply runtime_turn. destruct r as [i m b]. destruct b as [? ? ? ? ? ? v].
  unfold closed_copy, clone_row, service_copy. cbn -[m_hosts]. rewrite turn_host. destruct v as [x|]; cbn; [|done].
  split; [done|]. intros Hx. by rewrite (turn_out CServices).
Qed.
Lemma ip_copy_eq r : closed_copy (mint CIpAddresses) taken_at M own r = ip_copy mint network taken_at db r.
Proof. unfold closed_copy, clone_row, ip_copy. cbn -[m_hosts m_subnets]. unfold remap_ip_address. by rewrite turn_host, turn_subnet. Qed.
Lemma port_copy_eq r : closed_copy (mint CPorts) taken_at M own r = port_copy mint network taken_at db r.
Proof. unfold closed_copy, clone_row, port_copy. cbn -[m_hosts]. unfold remap_port. by rewrite turn_host. Qed.
Lemma binding_copy_eq r : closed_copy (mint CBindings) taken_at M own r = binding_copy mint network taken_at db r.
Proof.
  unfold closed_copy, clone_row, binding_copy. cbn -[m_services]. unfold remap_binding, remap_binding_type. rewrite turn_service.
  do 2 f_equal. destruct (binding_type _) as [x|x y]; rewrite ?turn_ip, ?turn_port; [done|]. f_equal.
  destruct y; cbn -[m_ip_addresses]; by rewrite ?turn_ip.
Qed.
Lemma subnet_vlan_copy_eq r : closed_copy (mint CSubnetVlans) taken_at M own r = subnet_vlan_copy mint network taken_at db r.
Proof. unfold closed_copy, clone_row, subnet_vlan_copy. cbn -[m_subnets m_vlans]. by rewrite turn_subnet, turn_vlan. Qed.
Lemma member_copy_eq r : closed_copy (mint CDependencyMembers) taken_at M own r = member_copy mint network taken_at db r.
Proof.
  unfold closed_copy, clone_row, member_copy. cbn -[m_dependencies m_services m_bindings]. rewrite turn_dependency, turn_service.
  f_equal. destruct (dm_binding_id r); cbn -[m_bindings]; by rewrite ?turn_binding.
Qed.
Lemma tag_copy_eq r : closed_copy (mint CEntityTags) taken_at M own r = tag_copy mint network taken_at db r.
Proof.
  unfold closed_copy, clone_row, tag_copy. cbn -[lookup_by_entity_type]. f_equal.
  destruct (et_entity_type r); cbn -[m_hosts m_subnets m_services m_dependencies]; try done;
    [exact (turn_host _)|exact (turn_service _)|exact (turn_subnet _)|exact (turn_dependency _)].
Qed.
End CopyOf.

Lemma interface_copy_eq r :
  closed_copy (mint CInterfaces) taken_at M (m_interfaces M) r = interface_copy mint network taken_at db r.
Proof.
  unfold closed_copy, clone_row, interface_copy. destruct r as [i m b]. destruct b as [? ? ? ? ? ? ? ? ? ? ? a n ? ? ? v].
  cbn -[m_hosts m_ip_addresses m_interfaces m_vlans]. unfold remap_interface, set_interface_neighbor, own_neighbor.
  cbn -[m_hosts m_ip_addresses m_interfaces m_vlans]. rewrite turn_host. do 2 f_equal.
  - destruct a; cbn -[m_ip_addresses]; by rewrite ?turn_ip.
  - destruct n as [[]|]; cbn -[m_hosts m_interfaces]; by rewrite ?turn_host, ?turn_interface.
  - f_equal. destruct (Interfaces.native_vlan_id v); cbn -[m_vlans]; by rewrite ?turn_vlan.
Qed.

Lemma snapshot_db_renamed : snapshot_db mint network taken_at snapshot db = renamed_db mint network taken_at snapshot db.
Proof.
  unfold snapshot_db, renamed_db. f_equal.
  - apply snapped_runtime_taken; [intros r; by apply live_column|done|apply subnet_copy_eq].
  - apply snapped_taken; [intros r; by apply live_column|done|done].
  - apply snapped_runtime_taken; [intros r; by apply live_column|done|apply host_copy_eq].
  - apply snapped_taken; [intros r; by apply live_column|done|apply ip_copy_eq].
  - apply snapped_taken; [apply port_selected|done|apply port_copy_eq].
  - apply snapped_runtime_taken; [intros r; by apply live_column|done|apply service_copy_eq].
  - apply snapped_taken; [apply interface_selected|done|apply interface_copy_eq].
  - apply snapped_taken; [apply binding_selected|done|apply binding_copy_eq].
  - apply snapped_taken; [apply subnet_vlan_selected|done|apply subnet_vlan_copy_eq].
  - apply snapped_taken; [intros r; by apply live_column|done|done].
  - apply snapped_taken; [apply member_selected|done|apply member_copy_eq].
  - apply snapped_taken; [apply tag_selected|done|apply tag_copy_eq].
Qed.
End Equal.

(** C6. A snapshot is the simultaneous renaming of the network's live rows.  The code copies
    twelve tables parents first, carries a map of ids from each to the next, patches the
    references to services afterwards and the references between interfaces in a second
    pass.  The outcome is the reference written out above: each live row of the network
    stays, with its history starting at the snapshot, and has one copy, with the minted id,
    all its fields, its history closed at the snapshot and its lineage the row, in which
    every reference to a copied row is to the copy, except the tagged VLANs of an interface,
    which are those of the live row.  Every other row is untouched.  (Unique ids, fresh ids
    for the copies, and interfaces that fit one INSERT.) *)
Theorem snapshot_is_renaming mint network taken_at snapshot db :
  DbWf db → Minted mint snapshot db →
  (length (filter (interface_copied network db) (t_interfaces db).*1) ≤ 1820)%nat →
  run_close_and_clone mint network taken_at snapshot db = Ok (renamed_db mint network taken_at snapshot db).
Proof.
  intros Hwf Hmint Hle. rewrite <- snapshot_db_renamed. apply run_renames; [done..|].
  rewrite (live_rows_filter _ _ _ (interface_selected mint network db)). exact Hle.
Qed.

Lemma snapshot_is_renaming_witness :
  run_close_and_clone demo_mint 0 1000 999 demo_net_db = Ok (renamed_db demo_mint 0 1000 999 demo_net_db).
Proof. apply snapshot_is_renaming; [apply demo_net_wf|apply demo_mint_ok|vm_compute; lia]. Defined.
