(* ===== verification/SnapshotRefs.v ===== *)
(** A snapshot stands by itself: its rows refer to its own rows, and taking it changes no
    answer about the past. *)

From S2P Require Import Prelude Net Ports Entities Hosts HostMatch Locks Lldp Interfaces Discovery Sessions Services Snapshots SnapshotTables SnapshotThms.
Local Open Scope Z_scope.

(** ** References *)

(** A reference is a column of its own, or an entry of an interface's list of tagged VLANs. *)
Inductive RefKind := Column | Tagged.
Definition Ref : Type := RefKind * CloneTable * Uuid.

(** All references of a row to tables that are cloned. *)
Class References (R : Type) := references : R → list Ref.

Definition opt_ref (c : CloneTable) (x : option Uuid) : list Ref := option_list ((λ i, (Column, c, i)) <$> x).
Definition tagged_vlans (r : InterfaceRow) : list Uuid := default [] (Interfaces.vlan_ids (vlans (if_base r))).

#[export] Instance Subnet_refs : References Subnet := λ r, opt_ref CServices (s_virtualization_service_id (s_base r)).
#[export] Instance Vlan_refs : References Vlan := λ _, [].
#[export] Instance Host_refs : References HostRow := λ r, opt_ref CServices (h_virtualization_service_id (h_base r)).
#[export] Instance IPAddress_refs : References IPAddress :=
  λ r, [(Column, CHosts, ip_host_id (ip_base r)); (Column, CSubnets, subnet_id (ip_base r))].
#[export] Instance Port_refs : References Port := λ r, [(Column, CHosts, p_host_id (p_base r))].
#[export] Instance Service_refs : References Service :=
  λ r, (Column, CHosts, sv_host_id (sv_base r)) :: opt_ref CServices (virtualization_service_id (sv_base r)).
#[export] Instance Interface_refs : References InterfaceRow := λ r,
  (Column, CHosts, if_host_id (if_base r)) :: opt_ref CIpAddresses (if_ip_address_id (if_base r))
  ++ opt_ref CVlans (Interfaces.native_vlan_id (vlans (if_base r)))
  ++ match neighbor (if_base r) with
     | Some (NeighborHost h) => [(Column, CHosts, h)] | Some (NeighborInterface i) => [(Column, CInterfaces, i)] | None => [] end
  ++ ((λ v, (Tagged, CVlans, v)) <$> tagged_vlans r).
#[export] Instance Binding_refs : References Binding := λ r,
  (Column, CServices, b_service_id (b_base r)) :: match binding_type (b_base r) with
  | BindIPAddress ip => [(Column, CIpAddresses, ip)] | BindPort p ip => (Column, CPorts, p) :: opt_ref CIpAddresses ip end.
#[export] Instance SubnetVlan_refs : References SubnetVlanRecord :=
  λ r, [(Column, CSubnets, sl_subnet_id r); (Column, CVlans, sl_vlan_id r)].
#[export] Instance Dependency_refs : References DependencyRow := λ _, [].
#[export] Instance DependencyMember_refs : References DependencyMemberRecord := λ r,
  (Column, CDependencies, dm_dependency_id r) :: (Column, CServices, dm_service_id r) :: opt_ref CBindings (dm_binding_id r).
#[export] Instance EntityTag_refs : References EntityTag := λ r,
  match et_entity_type r with
  | E_Host => [(Column, CHosts, et_entity_id r)] | E_Service => [(Column, CServices, et_entity_id r)]
  | E_Subnet => [(Column, CSubnets, et_entity_id r)] | E_Dependency => [(Column, CDependencies, et_entity_id r)] | _ => [] end.

(** The map of a table; nothing refers to a junction row. *)
Definition map_of (m : FkMaps) (c : CloneTable) : gmap Uuid Uuid :=
  match c with
  | CSubnets => m_subnets m | CVlans => m_vlans m | CHosts => m_hosts m | CIpAddresses => m_ip_addresses m
  | CPorts => m_ports m | CServices => m_services m | CInterfaces => m_interfaces m | CBindings => m_bindings m
  | CDependencies => m_dependencies m | _ => ∅
  end.
Definition rename_ref (m : FkMaps) (p : Ref) : Ref :=
  match p.1.1 with Column => (p.1, renamed (map_of m p.1.2) p.2) | Tagged => p end.

Lemma opt_ref_rename m c x : opt_ref c (renamed (map_of m c) <$> x) = rename_ref m <$> opt_ref c x.
Proof. by destruct x. Qed.

(** A copy's references are the renamed references of the row. *)
Definition renames {R} `{References R} (m : FkMaps) (f : R → R) : Prop := ∀ r, references (f r) = rename_ref m <$> references r.

Section Copies.
Context (mint : Uuid → Uuid) (taken_at : DateTime) (m : FkMaps) (own : gmap Uuid Uuid).
Local Abbreviation copy := (closed_copy mint taken_at m).

Lemma vlan_renames : renames m (copy own : Vlan → Vlan).
Proof. done. Qed.
Lemma ip_renames : renames m (copy own : IPAddress → IPAddress).
Proof. done. Qed.
Lemma port_renames : renames m (copy own : Port → Port).
Proof. done. Qed.
Lemma subnet_vlan_renames : renames m (copy own : SubnetVlanRecord → SubnetVlanRecord).
Proof. done. Qed.
Lemma dependency_renames : renames m (copy own : DependencyRow → DependencyRow).
Proof. done. Qed.
Lemma member_renames : renames m (copy own : DependencyMemberRecord → DependencyMemberRecord).
Proof. intros [i ca s d sv b p]. by destruct b. Qed.
Lemma tag_renames : renames m (copy own : EntityTag → EntityTag).
Proof. intros [i ca s e ty tg]. by destruct ty. Qed.
Lemma binding_renames : renames m (copy own : Binding → Binding).
Proof.
  intros [i me [sv nw ty]]. by destruct ty as [|p [ip|]].
Qed.
Lemma interface_renames : renames m (copy (m_interfaces m) : InterfaceRow → InterfaceRow).
Proof.
  intros [i me b]. destruct b. unfold references, Interface_refs. cbn. f_equal. rewrite !fmap_app, <-!opt_ref_rename. cbn. do 2 f_equal.
  f_equal; [by destruct neighbor as [[]|]|]. unfold tagged_vlans. cbn. by rewrite <-list_fmap_compose.
Qed.
Lemma subnet_renames : renames m (rename_runtime (m_services m) ∘ copy own : Subnet → Subnet).
Proof.
  intros r. unfold references, Subnet_refs. rewrite <-(opt_ref_rename m CServices). f_equal.
  exact (virt_rename_runtime (R := Subnet) (m_services m) (copy own r) (λ _, eq_refl)).
Qed.
Lemma host_renames : renames m (rename_runtime (m_services m) ∘ copy own : HostRow → HostRow).
Proof.
  intros r. unfold references, Host_refs. rewrite <-(opt_ref_rename m CServices). f_equal.
  exact (virt_rename_runtime (R := HostRow) (m_services m) (copy own r) (λ _, eq_refl)).
Qed.
Lemma service_renames : renames m (rename_runtime (m_services m) ∘ copy own : Service → Service).
Proof.
  intros r. unfold rename_runtime, remap_virtualization_service_id. cbn.
  destruct (virtualization_service_id (sv_base r)) as [x|] eqn:E; cbn; rewrite ?E; [|done].
  unfold rename_ref, renamed. cbn. destruct (m_services m !! x); cbn; by rewrite ?E.
Qed.
End Copies.

(** ** Self-containment *)

Definition refs_of {R} `{References R} (l : list R) : list Ref := l ≫= references.

(** All references of the rows of a snapshot, and of the network's live rows. *)
Definition snapshot_refs (snapshot : Uuid) (db : Db) : list Ref :=
  refs_of (stamped snapshot (t_subnets db)) ++ refs_of (stamped snapshot (t_vlans db))
  ++ refs_of (stamped snapshot (t_hosts db)) ++ refs_of (stamped snapshot (t_ip_addresses db))
  ++ refs_of (stamped snapshot (t_ports db)) ++ refs_of (stamped snapshot (t_services db))
  ++ refs_of (stamped snapshot (t_interfaces db)) ++ refs_of (stamped snapshot (t_bindings db))
  ++ refs_of (stamped snapshot (t_subnet_vlans db)) ++ refs_of (stamped snapshot (t_dependencies db))
  ++ refs_of (stamped snapshot (t_dependency_members db)) ++ refs_of (stamped snapshot (t_entity_tags db)).

Definition live_refs (mint : CloneTable → Uuid → Uuid) (network : Uuid) (db : Db) : list Ref :=
  refs_of (live_rows (sel_subnet network) (t_subnets db)) ++ refs_of (live_rows (sel_vlan network) (t_vlans db))
  ++ refs_of (live_rows (sel_host network) (t_hosts db)) ++ refs_of (live_rows (sel_ip network) (t_ip_addresses db))
  ++ refs_of (live_rows (sel_port mint network db) (t_ports db))
  ++ refs_of (live_rows (sel_service network) (t_services db))
  ++ refs_of (live_rows (sel_interface mint network db) (t_interfaces db))
  ++ refs_of (live_rows (sel_binding mint network db) (t_bindings db))
  ++ refs_of (live_rows (sel_subnet_vlan mint network db) (t_subnet_vlans db))
  ++ refs_of (live_rows (sel_dependency network) (t_dependencies db))
  ++ refs_of (live_rows (sel_member mint network db) (t_dependency_members db))
  ++ refs_of (live_rows (sel_tag mint network db) (t_entity_tags db)).

Definition snapshot_ids (snapshot : Uuid) (c : CloneTable) (db : Db) : list Uuid :=
  match c with
  | CSubnets => id_value <$> stamped snapshot (t_subnets db) | CVlans => id_value <$> stamped snapshot (t_vlans db)
  | CHosts => id_value <$> stamped snapshot (t_hosts db) | CIpAddresses => id_value <$> stamped snapshot (t_ip_addresses db)
  | CPorts => id_value <$> stamped snapshot (t_ports db) | CServices => id_value <$> stamped snapshot (t_services db)
  | CInterfaces => id_value <$> stamped snapshot (t_interfaces db) | CBindings => id_value <$> stamped snapshot (t_bindings db)
  | CSubnetVlans => id_value <$> stamped snapshot (t_subnet_vlans db)
  | CDependencies => id_value <$> stamped snapshot (t_dependencies db)
  | CDependencyMembers => id_value <$> stamped snapshot (t_dependency_members db)
  | CEntityTags => id_value <$> stamped snapshot (t_entity_tags db)
  end.

Lemma refs_of_renamed {R} `{References R} m (f : R → R) (l : list R) :
  renames m f → refs_of (f <$> l) = rename_ref m <$> refs_of l.
Proof.
  intros Hf. unfold refs_of. induction l as [|r l IH]; [done|]. cbn. by rewrite Hf, IH, fmap_app.
Qed.

Section Contained.
Context (mint : CloneTable → Uuid → Uuid) (network : Uuid) (taken_at : DateTime) (snapshot : Uuid) (db : Db).
Context (Hmint : Minted mint snapshot db).
Local Abbreviation M := (renaming mint network db).
Local Abbreviation db' := (snapshot_db mint network taken_at snapshot db).

Lemma stamped_snapped {R} `{SnapshotLaws R} c (sel : R → bool) (t : Table R) : stamps c db = t.*2 →
  stamped snapshot (snapped mint network taken_at snapshot db c sel t)
  = closed_copy (mint c) taken_at M (clone_map (mint c) (live_rows sel t)) <$> live_rows sel t.
Proof using Hmint.
  intros E. unfold snapped. rewrite stamped_app, stamped_advanced; [|rewrite <-E; apply Hmint]. apply stamped_map.
Qed.

Lemma stamped_snapped_runtime {R} `{SnapshotLaws R, !VirtualizationServiceRef R} c (sel : R → bool) (t : Table R) :
  stamps c db = t.*2 →
  stamped snapshot (snapped_runtime mint network taken_at snapshot db c sel t)
  = rename_runtime (m_services M) ∘ closed_copy (mint c) taken_at M (clone_map (mint c) (live_rows sel t)) <$> live_rows sel t.
Proof using Hmint.
  intros E. unfold snapped_runtime. rewrite stamped_app, stamped_advanced; [|rewrite <-E; apply Hmint].
  unfold copies. rewrite <-list_fmap_compose. apply (stamped_map snapshot (rename_runtime (m_services M) ∘ _)).
Qed.

Lemma snapshot_refs_renamed : snapshot_refs snapshot db' = rename_ref M <$> live_refs mint network db.
Proof using Hmint.
  unfold snapshot_refs, live_refs. rewrite !fmap_app. cbn [t_subnets t_vlans t_hosts t_ip_addresses t_ports t_services
    t_interfaces t_bindings t_subnet_vlans t_dependencies t_dependency_members t_entity_tags snapshot_db].
  rewrite !stamped_snapped, !stamped_snapped_runtime by done.
  rewrite (refs_of_renamed M _ _ (subnet_renames _ _ _ _)), (refs_of_renamed M _ _ (vlan_renames _ _ _ _)),
    (refs_of_renamed M _ _ (host_renames _ _ _ _)), (refs_of_renamed M _ _ (ip_renames _ _ _ _)),
    (refs_of_renamed M _ _ (port_renames _ _ _ _)), (refs_of_renamed M _ _ (service_renames _ _ _ _)),
    (refs_of_renamed M _ _ (interface_renames _ _ _)), (refs_of_renamed M _ _ (binding_renames _ _ _ _)),
    (refs_of_renamed M _ _ (subnet_vlan_renames _ _ _ _)), (refs_of_renamed M _ _ (dependency_renames _ _ _ _)),
    (refs_of_renamed M _ _ (member_renames _ _ _ _)), (refs_of_renamed M _ _ (tag_renames _ _ _ _)). done.
Qed.

Lemma rename_runtime_row {R} `{VirtLaws R} (services : gmap Uuid Uuid) (r : R) :
  id_value (rename_runtime services r) = id_value r ∧ scd2 (rename_runtime services r) = scd2 r.
Proof using Type.
  unfold rename_runtime, remap_virtualization_service_id. destruct (virt_service_id r) as [x|]; [|done]. simpl.
  destruct (services !! x); [|done]. simpl. by rewrite id_set_virt, scd2_set_virt.
Qed.

Lemma renamed_clone_map {R} `{SnapshotLaws R} c (f : R → R) (l : list R) x :
  (∀ r, id_value (f r) = mint c (id_value r)) → is_Some (clone_map (mint c) l !! x) →
  renamed (clone_map (mint c) l) x ∈ id_value <$> (f <$> l).
Proof using Type.
  intros Hf. unfold renamed. rewrite clone_map_lookup. case_bool_decide as Hx; [|by intros [? ?]]. intros _. simpl.
  apply list_elem_of_fmap in Hx as (r & -> & Hr). rewrite <-Hf. by apply list_elem_of_fmap_2, list_elem_of_fmap_2.
Qed.

Lemma renamed_in_snapshot c x : is_Some (map_of M c !! x) → renamed (map_of M c) x ∈ snapshot_ids snapshot c db'.
Proof using Hmint.
  assert (∀ {R} `{SnapshotLaws R, !VirtualizationServiceRef R, !VirtLaws R} c own (r : R),
    id_value (rename_runtime (m_services M) (closed_copy (mint c) taken_at M own r)) = mint c (id_value r)) as Hrt.
  { intros. by rewrite (proj1 (rename_runtime_row _ _)), closed_copy_id. }
  destruct c; try (by intros [? ?]); unfold snapshot_ids; cbn [t_subnets t_vlans t_hosts t_ip_addresses t_ports t_services
    t_interfaces t_bindings t_dependencies snapshot_db];
    rewrite ?stamped_snapped, ?stamped_snapped_runtime by done; apply renamed_clone_map; intros r;
    first [apply closed_copy_id|apply (Hrt _ _ _ _ _)].
Qed.
End Contained.

Lemma snapshot_id_minted mint network taken_at snapshot db c x : Minted mint snapshot db →
  x ∈ snapshot_ids snapshot c (snapshot_db mint network taken_at snapshot db) → ∃ y, x = mint c y.
Proof.
  intros Hmint. unfold snapshot_ids.
  destruct c; cbn [t_subnets t_vlans t_hosts t_ip_addresses t_ports t_services t_interfaces t_bindings t_subnet_vlans
    t_dependencies t_dependency_members t_entity_tags snapshot_db];
    (first [rewrite stamped_snapped|rewrite stamped_snapped_runtime]; [|(done || apply _)..]);
    rewrite <-list_fmap_compose; intros (r & -> & _)%list_elem_of_fmap; unfold compose;
    rewrite ?(proj1 (rename_runtime_row _ _)), closed_copy_id; eauto.
Qed.

Lemma map_of_row_ids mint network db c x : is_Some (map_of (renaming mint network db) c !! x) → x ∈ row_ids c db.
Proof.
  destruct c; cbn -[live_rows]; try (by intros [? ?]); unfold subnet_map, vlan_map, host_map, ip_map, service_map, dependency_map;
    rewrite clone_map_lookup; (case_bool_decide as Hx; [|by intros [? ?]]); intros _;
    apply list_elem_of_fmap in Hx as (r & -> & Hr); by eapply live_row_id.
Qed.

(** C7. Which references of a snapshot stay inside it.  When every reference of the network's
    live rows, tagged VLANs included, is to a live row of the network, every reference of
    the snapshot's rows that is a column (host, subnet, native VLAN, address, port, service,
    runtime service, neighbour, binding, dependency, tagged entity) is to a row of that same
    snapshot: none is left on a live row, whose content moves on, or on another snapshot,
    whose deletion would take the target away.  The references that are not columns, the
    tagged VLANs of its interfaces, are exactly the ones that name no row of the snapshot. *)
Theorem snapshot_self_contained mint network taken_at snapshot db db' :
  DbWf db → Minted mint snapshot db →
  (length (live_rows (sel_interface mint network db) (t_interfaces db)) ≤ chunk_size (R := InterfaceRow))%nat →
  (∀ k c x, (k, c, x) ∈ live_refs mint network db → is_Some (map_of (renaming mint network db) c !! x)) →
  run_close_and_clone mint network taken_at snapshot db = Ok db' →
  ∀ k c x, (k, c, x) ∈ snapshot_refs snapshot db' → x ∈ snapshot_ids snapshot c db' ↔ k = Column.
Proof.
  intros Hwf Hmint Hle Hclosed Hrun k c x. rewrite run_renames in Hrun by done. injection Hrun as <-.
  rewrite snapshot_refs_renamed by done. intros ([[[] c'] y] & E & Hy)%list_elem_of_fmap; cbn in E; simplify_eq.
  - split; [done|intros _]. by eapply renamed_in_snapshot, Hclosed.
  - split; [|done]. intros [z ->]%snapshot_id_minted; [|done]. exfalso. apply (minted_fresh _ _ _ Hmint c' z).
    by eapply map_of_row_ids, Hclosed.
Qed.

(** ** History *)

(** The versions of one entity that were live at [t]. *)
Definition versions {R} `{Snapshotable R} (entity : Uuid) (t : DateTime) (tb : Table R) : list R :=
  List.filter (λ r, id_or_lineage_in [entity] r && as_of t r) tb.*1.

Section History.
Context {R : Type} `{SnapshotLaws R} (mint : Uuid → Uuid) (taken_at : DateTime) (snapshot : Uuid) (maps : FkMaps) (sel : R → bool).
Context (finish : R → R).
Context (finish_id : ∀ r, id_value (finish r) = id_value r) (finish_scd2 : ∀ r, scd2 (finish r) = scd2 r).

(** Live rows have no lineage. *)
Definition live_lineage (tb : Table R) : Prop := ∀ p, p ∈ tb → is_live p.1 = true → scd_lineage (scd2 p.1) = None.

Abbreviation seen entity t := (λ r : R, id_or_lineage_in [entity] r && as_of t r).

(** A row that is closed at [taken_at] and goes on from there is seen as often as before. *)
Lemma seen_split own entity t (r : R) :
  is_live r = true → scd_lineage (scd2 r) = None → scd_from (scd2 r) ≤ taken_at → mint (id_value r) ≠ entity →
  (Nat.b2n (seen entity t (set_valid_from taken_at r)) + Nat.b2n (seen entity t (finish (closed_copy mint taken_at maps own r)))
   = Nat.b2n (seen entity t r))%nat.
Proof using All.
  intros Hlive%bool_decide_eq_true Hlin Hfrom Hne. unfold id_or_lineage_in, as_of.
  rewrite finish_id, finish_scd2, closed_copy_id, closed_copy_scd2, set_valid_from_id. unfold set_valid_from.
  rewrite scd2_set_scd2. cbn. rewrite Hlive, Hlin, !orb_false_r, !andb_true_r.
  rewrite (bool_decide_false (mint _ ∈ _)) by (rewrite list_elem_of_singleton; done). cbn.
  destruct (bool_decide _); cbn; [|done].
  destruct (Z.leb_spec taken_at t), (Z.leb_spec (scd_from (scd2 r)) t), (Z.ltb_spec t taken_at); cbn; lia.
Qed.

Lemma filter_cons_length {A} (f : A → bool) x l : length (List.filter f (x :: l)) = (Nat.b2n (f x) + length (List.filter f l))%nat.
Proof using Type. simpl. by destruct (f x). Qed.

Lemma versions_kept own entity t (tb : Table R) :
  live_lineage tb → (∀ p, p ∈ tb → scd_from (scd2 p.1) ≤ taken_at) → (∀ x, mint x ≠ entity) →
  length (versions entity t (advanced taken_at sel tb
    ++ ((λ r, (finish (closed_copy mint taken_at maps own r), Some snapshot)) <$> live_rows sel tb)))
  = length (versions entity t tb).
Proof using All.
  intros Hlin Hfrom Hfresh. unfold versions. rewrite fmap_app, filter_app, length_app.
  induction tb as [|p tb IH]; [done|]. unfold live_rows, advanced in *. rewrite !fmap_cons, !filter_cons_length.
  rewrite <-IH; [|intros q Hq; apply Hlin; by right|intros q Hq; apply Hfrom; by right].
  specialize (Hlin p (list_elem_of_here _ _)). specialize (Hfrom p (list_elem_of_here _ _)).
  cbn [List.filter]. destruct (sel p.1 && is_live p.1) eqn:Es; [|cbn; lia].
  apply andb_true_iff in Es as [_ Hl]. rewrite !fmap_cons, filter_cons_length. cbn [fst].
  rewrite <-(seen_split own entity t p.1 Hl (Hlin Hl) Hfrom (Hfresh _)). lia.
Qed.
End History.

Definition scds (c : CloneTable) (db : Db) : list Scd2 :=
  match c with
  | CSubnets => scd2 ∘ fst <$> t_subnets db | CVlans => scd2 ∘ fst <$> t_vlans db | CHosts => scd2 ∘ fst <$> t_hosts db
  | CIpAddresses => scd2 ∘ fst <$> t_ip_addresses db | CPorts => scd2 ∘ fst <$> t_ports db
  | CServices => scd2 ∘ fst <$> t_services db | CInterfaces => scd2 ∘ fst <$> t_interfaces db
  | CBindings => scd2 ∘ fst <$> t_bindings db | CSubnetVlans => scd2 ∘ fst <$> t_subnet_vlans db
  | CDependencies => scd2 ∘ fst <$> t_dependencies db | CDependencyMembers => scd2 ∘ fst <$> t_dependency_members db
  | CEntityTags => scd2 ∘ fst <$> t_entity_tags db
  end.

(** How many versions of an entity a reader sees at [t]. *)
Definition versions_seen (c : CloneTable) (entity : Uuid) (t : DateTime) (db : Db) : nat :=
  match c with
  | CSubnets => length (versions entity t (t_subnets db)) | CVlans => length (versions entity t (t_vlans db))
  | CHosts => length (versions entity t (t_hosts db)) | CIpAddresses => length (versions entity t (t_ip_addresses db))
  | CPorts => length (versions entity t (t_ports db)) | CServices => length (versions entity t (t_services db))
  | CInterfaces => length (versions entity t (t_interfaces db)) | CBindings => length (versions entity t (t_bindings db))
  | CSubnetVlans => length (versions entity t (t_subnet_vlans db))
  | CDependencies => length (versions entity t (t_dependencies db))
  | CDependencyMembers => length (versions entity t (t_dependency_members db))
  | CEntityTags => length (versions entity t (t_entity_tags db))
  end.

Section HistoryOf.
Context (mint : CloneTable → Uuid → Uuid) (network : Uuid) (taken_at : DateTime) (snapshot : Uuid) (db : Db).
Context (Hmint : Minted mint snapshot db) (c : CloneTable) (entity : Uuid) (t : DateTime) (Hentity : entity ∈ row_ids c db).
Context (Hlin : ∀ s, s ∈ scds c db → scd_to s = None → scd_lineage s = None) (Hfrom : ∀ s, s ∈ scds c db → scd_from s ≤ taken_at).

Lemma entity_not_minted x : mint c x ≠ entity.
Proof using Hmint Hentity. intros <-. by apply (minted_fresh _ _ _ Hmint c x). Qed.

Lemma versions_snapped {R} `{SnapshotLaws R} (sel : R → bool) (tb : Table R) : scds c db = scd2 ∘ fst <$> tb →
  length (versions entity t (snapped mint network taken_at snapshot db c sel tb)) = length (versions entity t tb).
Proof using All.
  intros E. rewrite E in Hlin, Hfrom. unfold snapped, copies. apply (versions_kept _ _ _ _ _ id); try done.
  - intros p Hp Hl%bool_decide_eq_true. by apply (Hlin _ (list_elem_of_fmap_2 _ _ _ Hp)).
  - intros p Hp. by apply (Hfrom _ (list_elem_of_fmap_2 _ _ _ Hp)).
  - apply entity_not_minted.
Qed.

Lemma versions_snapped_runtime {R} `{SnapshotLaws R, !VirtualizationServiceRef R, !VirtLaws R} (sel : R → bool) (tb : Table R) :
  scds c db = scd2 ∘ fst <$> tb →
  length (versions entity t (snapped_runtime mint network taken_at snapshot db c sel tb)) = length (versions entity t tb).
Proof using All.
  intros E. rewrite E in Hlin, Hfrom. unfold snapped_runtime, copies. rewrite <-list_fmap_compose.
  apply (versions_kept _ _ _ _ _ (rename_runtime (service_map mint network db))); try (intros r; apply rename_runtime_row).
  - intros p Hp Hl%bool_decide_eq_true. by apply (Hlin _ (list_elem_of_fmap_2 _ _ _ Hp)).
  - intros p Hp. by apply (Hfrom _ (list_elem_of_fmap_2 _ _ _ Hp)).
  - apply entity_not_minted.
Qed.
End HistoryOf.

(** C8. A snapshot changes no answer about any moment, past or future: for every entity of
    the twelve tables and every time, as many versions of it are seen ([as_of], by id or
    lineage) after the snapshot as before.  A row that was seen once at a time is seen
    once: the closed copy takes over exactly the time the live row gives up. *)
Theorem history_kept mint network taken_at snapshot db db' :
  DbWf db → Minted mint snapshot db →
  (length (live_rows (sel_interface mint network db) (t_interfaces db)) ≤ chunk_size (R := InterfaceRow))%nat →
  (∀ c s, s ∈ scds c db → scd_to s = None → scd_lineage s = None) →
  (∀ c s, s ∈ scds c db → scd_from s ≤ taken_at) →
  run_close_and_clone mint network taken_at snapshot db = Ok db' →
  ∀ c entity t, entity ∈ row_ids c db → versions_seen c entity t db' = versions_seen c entity t db.
Proof.
  intros Hwf Hmint Hle Hlin Hfrom Hrun c entity t Hin. rewrite run_renames in Hrun by done. injection Hrun as <-.
  specialize (Hlin c). specialize (Hfrom c).
  destruct c; (eapply versions_snapped || eapply versions_snapped_runtime); done || apply _.
Qed.

(** The tagged VLANs of an interface are not renamed: in a snapshot they name none of its
    VLANs. *)
Theorem tagged_vlans_lost mint network taken_at snapshot db db' r v :
  DbWf db → Minted mint snapshot db →
  (length (live_rows (sel_interface mint network db) (t_interfaces db)) ≤ chunk_size (R := InterfaceRow))%nat →
  (∀ p x, p ∈ t_interfaces db → x ∈ tagged_vlans p.1 → x ∈ row_ids CVlans db) →
  run_close_and_clone mint network taken_at snapshot db = Ok db' →
  r ∈ stamped snapshot (t_interfaces db') → v ∈ tagged_vlans r → v ∉ snapshot_ids snapshot CVlans db'.
Proof.
  intros Hwf Hmint Hle Hv Hrun Hr Hvr. rewrite run_renames in Hrun by done. injection Hrun as <-.
  unfold snapshot_ids. cbn [t_interfaces t_vlans snapshot_db] in *. rewrite stamped_snapped in Hr; [|done|apply _|done]. rewrite stamped_snapped; [|done|apply _|done].
  apply list_elem_of_fmap in Hr as (r0 & -> & Hr). apply live_rows_in, list_elem_of_fmap in Hr as (p & -> & Hp).
  rewrite <-list_fmap_compose. intros (vl & Ev & _)%list_elem_of_fmap.
  apply (minted_fresh _ _ _ Hmint CVlans (id_value vl)).
  change (v = mint CVlans (id_value vl)) in Ev. rewrite <-Ev. by apply (Hv p).
Qed.

(** ** Witnesses *)

Lemma snapshot_self_contained_witness :
  (Column, CServices, 1050%N) ∈ snapshot_refs 999 (snapshot_db demo_mint 0 1000 999 demo_net_db)
  ∧ 1050%N ∈ snapshot_ids 999 CServices (snapshot_db demo_mint 0 1000 999 demo_net_db).
Proof.
  assert ((Column, CServices, 1050%N) ∈ snapshot_refs 999 (snapshot_db demo_mint 0 1000 999 demo_net_db)) as Hin by (vm_compute; left).
  split; [exact Hin|].
  apply (snapshot_self_contained demo_mint 0 1000 999 demo_net_db (snapshot_db demo_mint 0 1000 999 demo_net_db)
    demo_net_wf demo_mint_ok ltac:(vm_compute; lia)) with (k := Column); [|by vm_compute|exact Hin|done].
  intros k c x Hx. apply list_elem_of_In in Hx. vm_compute in Hx.
  repeat (destruct Hx as [[= <- <- <-]|Hx]; [by vm_compute; eexists|]). destruct Hx.
Defined.

Lemma history_kept_witness :
  versions_seen CHosts 10 7 (snapshot_db demo_mint 0 1000 999 demo_net_db) = 1%nat
  ∧ versions_seen CHosts 10 2000 (snapshot_db demo_mint 0 1000 999 demo_net_db) = 1%nat.
Proof.
  assert (∀ c s, s ∈ scds c demo_net_db → s = {| scd_from := 5; scd_to := None; scd_lineage := None |}) as Hs.
  { intros c s Hin. destruct c; cbn in Hin; repeat (apply elem_of_cons in Hin as [->|Hin]; [done|]); by apply elem_of_nil in Hin. }
  split; (etransitivity; [apply (history_kept demo_mint 0 1000 999 demo_net_db);
    [apply demo_net_wf|apply demo_mint_ok|vm_compute; lia|by intros c s ->%Hs|by intros c s ->%Hs; cbn|by vm_compute|left]|by vm_compute]).
Defined.
