(* ===== verification/SnapshotOps.v ===== *)
(** The life of a snapshot around the copying of [Snapshots]: taking one
    ([create_snapshot] of [server/snapshots/handlers.rs], behind the plan's feature check
    of [server/auth/middleware/features.rs]), deleting one, and the daily retention sweep
    ([run_retention], [trim_org] of [server/snapshots/service.rs]). *)

From S2P Require Import Prelude Net Ports Entities Hosts HostMatch Locks Lldp Interfaces Discovery Sessions Services Plans Billing Snapshots.
Local Open Scope Z_scope.

(** ** Deleting *)

(** [ON DELETE CASCADE] of the columns [snapshot_id]. *)
Definition reap {R} (gone : Uuid → bool) (t : Table R) : Table R :=
  List.filter (λ p, match p.2 with Some s => negb (gone s) | None => true end) t.

(** [DELETE FROM snapshots WHERE ...] with its cascade. *)
Definition delete_snapshots (doomed : Snapshot → bool) (db : Db) : Db :=
  let gone id := existsb (λ s, (sn_id s =? id)%N && doomed s) (t_snapshots db) in {|
  t_subnets := reap gone (t_subnets db); t_vlans := reap gone (t_vlans db); t_hosts := reap gone (t_hosts db);
  t_ip_addresses := reap gone (t_ip_addresses db); t_ports := reap gone (t_ports db);
  t_services := reap gone (t_services db); t_interfaces := reap gone (t_interfaces db);
  t_bindings := reap gone (t_bindings db); t_subnet_vlans := reap gone (t_subnet_vlans db);
  t_dependencies := reap gone (t_dependencies db); t_dependency_members := reap gone (t_dependency_members db);
  t_entity_tags := reap gone (t_entity_tags db);
  t_snapshots := List.filter (λ s, negb (doomed s)) (t_snapshots db) |}.

(** ** Retention *)

Definition snapshot_retention_days (p : BillingPlan) (env_override : option Z) : Z :=
  default (Plans.snapshot_retention_days (features p)) env_override.

(** [Duration::days], in milliseconds. *)
Definition days (n : Z) : Z := n * 86400000.

(** The clock of the sweep, the networks of an organization and the first date there is:
    a subtraction below it panics, which ends the task the sweep runs in. *)
Record SweepEnv := { sw_now : DateTime; sw_min : DateTime; sw_networks : Uuid → list Uuid }.

Inductive Swept := Swept_ok (db : Db) | Swept_panic (db : Db).

Definition trim_org (env : SweepEnv) (org : Uuid) (retention_days : Z) (db : Db) : Swept :=
  match sw_networks env org with
  | [] => Swept_ok db
  | network_ids =>
      let cutoff := sw_now env - days retention_days in
      if cutoff <? sw_min env then Swept_panic db
      else Swept_ok (delete_snapshots
             (λ s, bool_decide (sn_network_id s ∈ network_ids) && (sn_taken_at s <? cutoff)) db)
  end.

Fixpoint run_retention (env : SweepEnv) (env_override : option Z) (orgs : list Organization) (db : Db) : Swept :=
  match orgs with
  | [] => Swept_ok db
  | org :: orgs' =>
      let p := default get_free_plan (plan (o_base org)) in
      match trim_org env (o_id org) (snapshot_retention_days p env_override) db with
      | Swept_ok db' => run_retention env env_override orgs' db'
      | Swept_panic db' => Swept_panic db'
      end
  end.

(** ** Taking a snapshot *)

Inductive ApiError := PaymentRequired | Forbidden | ApiConflict | InternalError.

(** [TakeSnapshotFeature::check]. *)
Definition take_snapshot_allowed (p : BillingPlan) (env_override : option Z) : bool :=
  negb (snapshot_retention_days p env_override =? 0).

(** The request, the caller and what the outside answers. *)
Record TakeEnv := {
  tk_plan : BillingPlan; tk_override : option Z; tk_network_ids : list Uuid; tk_user : option Uuid;
  tk_network : Uuid; tk_now : DateTime;
  (** the id of the new snapshot and of each copy *)
  tk_id : Uuid; tk_mint : CloneTable → Uuid → Uuid;
  (** whether the row is stored, and its event published *)
  tk_stored : bool; tk_published : bool;
  (** the caller's organization, when it can be read *)
  tk_org : option Organization;
  (** the discovery service's surroundings while the lock is released *)
  tk_release : Env
}.

Record Server := {
  sr_db : Db; sr_discovery : DiscoveryService;
  (** snapshots whose [FirstSnapshotCreated] was published *)
  sr_onboarding : list Uuid
}.

Definition with_snapshot (s : Snapshot) (db : Db) : Db := {|
  t_subnets := t_subnets db; t_vlans := t_vlans db; t_hosts := t_hosts db; t_ip_addresses := t_ip_addresses db;
  t_ports := t_ports db; t_services := t_services db; t_interfaces := t_interfaces db; t_bindings := t_bindings db;
  t_subnet_vlans := t_subnet_vlans db; t_dependencies := t_dependencies db;
  t_dependency_members := t_dependency_members db; t_entity_tags := t_entity_tags db;
  t_snapshots := t_snapshots db ++ [s] |}.

(** [CrudService::create_base]: the row, then its event. *)
Definition create_base (env : TakeEnv) (s : Snapshot) (db : Db) : result unit ApiError * Db :=
  if negb (tk_stored env) then (Err InternalError, db)
  else if negb (tk_published env) then (Err InternalError, with_snapshot s db)
  else (Ok tt, with_snapshot s db).

(** The block between the acquisition and the release of the lock. *)
Definition take_and_clone (env : TakeEnv) (db : Db) : result Snapshot ApiError * Db :=
  let s := {| sn_id := tk_id env; sn_network_id := tk_network env; sn_taken_at := tk_now env; sn_created_by := tk_user env |} in
  match create_base env s db with
  | (Err e, db') => (Err e, db')
  | (Ok _, db') =>
      match run_close_and_clone (tk_mint env) (sn_network_id s) (sn_taken_at s) (sn_id s) db' with
      | Ok db'' => (Ok s, db'')
      | Err _ => (Err InternalError, db')
      end
  end.

Definition create_snapshot `{HashOrder} (env : TakeEnv) (srv : Server) : result Snapshot ApiError * Server :=
  if negb (take_snapshot_allowed (tk_plan env) (tk_override env)) then (Err PaymentRequired, srv)
  else if negb (bool_decide (tk_network env ∈ tk_network_ids env)) then (Err Forbidden, srv)
  else
    let '(acquired, ds) := try_acquire_network_for_snapshot (tk_network env) (sr_discovery srv) in
    if negb acquired then (Err ApiConflict, srv)
    else
      let '(r, db) := take_and_clone env (sr_db srv) in
      let ds' := release_network_for_snapshot (tk_release env) (tk_network env) ds in
      match r with
      | Err e => (Err e, {| sr_db := db; sr_discovery := ds'; sr_onboarding := sr_onboarding srv |})
      | Ok s =>
          let told := match tk_org env with
                      | Some o => if not_onboarded o FirstSnapshotCreated then [sn_id s] else []
                      | None => []
                      end in
          (Ok s, {| sr_db := db; sr_discovery := ds'; sr_onboarding := sr_onboarding srv ++ told |})
      end.
