(* ===== verification/SnapshotOpsThms.v ===== *)
(** Taking, keeping and deleting snapshots. *)

From S2P Require Import Prelude Net Ports Entities Hosts HostMatch Locks Lldp Interfaces Discovery Sessions SessionInv SessionOps Services Plans Billing BillingData Snapshots SnapshotTables SnapshotThms SnapshotOps.
Local Open Scope Z_scope.

(** ** The lock *)

Section Take.
Context `{HashOrder}.

Lemma release_running env nid st :
  running_snapshots (release_network_for_snapshot env nid st) = running_snapshots st ∖ {[nid]}.
Proof.
  unfold release_network_for_snapshot, release_sessions. set (st1 := with_running _ st).
  assert (∀ l acc, running_snapshots (foldl (λ acc sid, release_one env sid acc) acc l).1 = running_snapshots acc.1) as Hl.
  { induction l as [|x l IH]; intros [a ps]; simpl; [done|]. rewrite IH. unfold release_one.
    destruct (sessions a !! x); [|done]. by destruct (daemon_has_active _ _ _). }
  specialize (Hl (awaiting_session_ids st1 nid) (st1, [])). destruct (foldl _ _ _) as [st2 ps]. simpl in Hl.
  destruct (same_core_publish_all env ps st2) as (_ & _ & _ & ->). by rewrite Hl.
Qed.

(** The row [create_snapshot] makes. *)
Definition new_snapshot (env : TakeEnv) : Snapshot :=
  {| sn_id := tk_id env; sn_network_id := tk_network env; sn_taken_at := tk_now env; sn_created_by := tk_user env |}.

(** What may be found after a request, for each answer. *)
Definition taken (env : TakeEnv) (srv : Server) (answer : result Snapshot ApiError) (srv' : Server) : Prop :=
  match answer with
  | Ok s => s = new_snapshot env
            ∧ run_close_and_clone (tk_mint env) (tk_network env) (tk_now env) (tk_id env) (with_snapshot s (sr_db srv)) = Ok (sr_db srv')
            ∧ take_snapshot_allowed (tk_plan env) (tk_override env) = true ∧ tk_network env ∈ tk_network_ids env
            ∧ tk_network env ∉ running_snapshots (sr_discovery srv)
            ∧ ∀ id s, sessions (sr_discovery srv) !! id = Some s → network_id s = tk_network env → is_terminal (phase s) = true
  | Err InternalError => sr_db srv' = sr_db srv ∨ sr_db srv' = with_snapshot (new_snapshot env) (sr_db srv)
  | Err _ => srv' = srv
  end.

Lemma take_and_clone_cases env db :
  (∃ s db', take_and_clone env db = (Ok s, db') ∧ s = new_snapshot env
     ∧ run_close_and_clone (tk_mint env) (tk_network env) (tk_now env) (tk_id env) (with_snapshot s db) = Ok db')
  ∨ take_and_clone env db = (Err InternalError, db)
  ∨ take_and_clone env db = (Err InternalError, with_snapshot (new_snapshot env) db).
Proof.
  unfold take_and_clone, create_base. fold (new_snapshot env). destruct (tk_stored env); simpl; [|by right; left].
  destruct (tk_published env); simpl; [|by right; right].
  destruct (run_close_and_clone _ _ _ _ _) as [db'|e] eqn:E; [|by right; right].
  left. by exists (new_snapshot env), db'.
Qed.

(** C9. Every answer to a request for a snapshot leaves the server as that answer says, and
    never holds the network: the networks under snapshot are the same after as before on
    every path.  A success is a copy of exactly the state found, on a network of the
    caller, by a plan that keeps snapshots, with no scan on it and no other snapshot; a
    refusal changes nothing; a failure changes no row of the inventory. *)
Theorem create_snapshot_outcomes env srv :
  let '(answer, srv') := create_snapshot env srv in
  running_snapshots (sr_discovery srv') = running_snapshots (sr_discovery srv) ∧ taken env srv answer srv'.
Proof.
  unfold create_snapshot. destruct (take_snapshot_allowed _ _) eqn:Ha; simpl; [|done].
  case_bool_decide as Hn; simpl; [|done]. unfold try_acquire_network_for_snapshot.
  case_bool_decide as Hr; simpl; [done|]. destruct (existsb _ _) eqn:Es; simpl; [done|].
  assert (∀ ds r, r = {[tk_network env]} ∪ running_snapshots ds → tk_network env ∉ running_snapshots ds →
    r ∖ {[tk_network env]} = running_snapshots ds) as Hset by (intros; set_solver).
  destruct (take_and_clone_cases env (sr_db srv)) as [(s & db' & -> & -> & Hrun)|[-> | ->]]; simpl.
  - split; [rewrite release_running; by apply Hset|]. split_and!; try done. intros id s Hs Hnet.
    destruct (is_terminal (phase s)) eqn:Et; [done|]. rewrite existsb_elem_false in Es.
    specialize (Es s (proj2 (elem_of_hash_values _ _) (ex_intro _ id Hs))). simpl in Es. by rewrite Hnet, N.eqb_refl, Et in Es.
  - split; [rewrite release_running; by apply Hset|by left].
  - split; [rewrite release_running; by apply Hset|by right].
Qed.
End Take.

(** ** Retention *)

Section Sweep.
Context (env : SweepEnv) (env_override : option Z).

Definition cutoff (o : Organization) : DateTime :=
  sw_now env - days (snapshot_retention_days (default get_free_plan (plan (o_base o))) env_override).

(** A snapshot of the organization taken before its cutoff. *)
Definition expired (s : Snapshot) (o : Organization) : bool :=
  bool_decide (sn_network_id s ∈ sw_networks env (o_id o)) && (sn_taken_at s <? cutoff o).

(** The subtraction has a date for an answer. *)
Definition dated (o : Organization) : Prop := sw_networks env (o_id o) = [] ∨ sw_min env ≤ cutoff o.

Lemma reap_reap {R} (g1 g2 : Uuid → bool) (t : Table R) : reap g2 (reap g1 t) = reap (λ x, g1 x || g2 x) t.
Proof using Type.
  unfold reap. induction t as [|[r [x|]] t IH]; [done|..]; simpl; [|by f_equal].
  destruct (g1 x); simpl; [done|]. destruct (g2 x); simpl; [done|by f_equal].
Qed.

Lemma reap_ext {R} (g1 g2 : Uuid → bool) (t : Table R) : (∀ x, g1 x = g2 x) → reap g1 t = reap g2 t.
Proof using Type. intros Hg. unfold reap. apply filter_ext. intros [r [x|]]; simpl; [by rewrite Hg|done]. Qed.

Lemma existsb_kept (d1 d2 : Snapshot → bool) x l :
  existsb (λ s, (sn_id s =? x)%N && d1 s) l || existsb (λ s, (sn_id s =? x)%N && d2 s) (List.filter (λ s, negb (d1 s)) l)
  = existsb (λ s, (sn_id s =? x)%N && (d1 s || d2 s)) l.
Proof using Type.
  induction l as [|s l IH]; [done|]. simpl. rewrite <-IH.
  destruct (d1 s), (sn_id s =? x)%N eqn:E; simpl; rewrite ?E; simpl; try done. by destruct (d2 s), (existsb _ l).
Qed.

Lemma delete_twice d1 d2 db : delete_snapshots d2 (delete_snapshots d1 db) = delete_snapshots (λ s, d1 s || d2 s) db.
Proof using Type.
  unfold delete_snapshots. cbn -[reap]. rewrite !reap_reap. f_equal; try (apply reap_ext; intros x; apply existsb_kept).
  induction (t_snapshots db) as [|s l IH]; [done|]. simpl. destruct (d1 s); simpl; [done|]. destruct (d2 s); simpl; [done|by f_equal].
Qed.

Lemma delete_none db : delete_snapshots (λ _, false) db = db.
Proof using Type.
  assert (∀ x, existsb (λ s, (sn_id s =? x)%N && false) (t_snapshots db) = false) as Hx.
  { intros x. apply existsb_elem_false. intros s _. apply andb_false_r. }
  assert (∀ {A} (l : list A), List.filter (λ _, true) l = l) as Hf by (intros; induction l; simpl; by f_equal).
  assert (∀ {R} (t : Table R), reap (λ x, existsb (λ s, (sn_id s =? x)%N && false) (t_snapshots db)) t = t) as Hr.
  { intros R t. rewrite (reap_ext _ (λ _, false)) by done. unfold reap.
    rewrite (filter_ext _ (λ _, true)) by (by intros [r []]). apply Hf. }
  unfold delete_snapshots. cbn -[reap]. rewrite !Hr, Hf. by destruct db.
Qed.

Lemma delete_ext d1 d2 db : (∀ s, d1 s = d2 s) → delete_snapshots d1 db = delete_snapshots d2 db.
Proof using Type.
  intros Hd. unfold delete_snapshots. f_equal; try (apply reap_ext; intros x; induction (t_snapshots db) as [|s l IH];
    simpl; rewrite ?Hd, ?IH; done). apply filter_ext. intros s. by rewrite Hd.
Qed.

Lemma trim_org_dated o db : dated o →
  trim_org env (o_id o) (snapshot_retention_days (default get_free_plan (plan (o_base o))) env_override) db
  = Swept_ok (delete_snapshots (λ s, expired s o) db).
Proof using Type.
  intros [Hn|Hc]; unfold trim_org, expired.
  - rewrite Hn. f_equal. rewrite <-(delete_none db) at 1. apply delete_ext. intros s. by rewrite bool_decide_false by apply not_elem_of_nil.
  - destruct (sw_networks env (o_id o)) as [|n ns] eqn:En; fold (cutoff o).
    + f_equal. rewrite <-(delete_none db) at 1. apply delete_ext. intros s. by rewrite bool_decide_false by apply not_elem_of_nil.
    + by rewrite (proj2 (Z.ltb_ge _ _) Hc).
Qed.

Lemma sweep_dated orgs db : Forall dated orgs →
  run_retention env env_override orgs db = Swept_ok (delete_snapshots (λ s, existsb (expired s) orgs) db).
Proof using Type.
  intros Hd. revert db. induction Hd as [|o orgs Ho _ IH]; intros db; cbn -[trim_org]; [by rewrite delete_none|].
  by rewrite (trim_org_dated o db Ho), IH, delete_twice.
Qed.

(** The sweep ends at the first organization whose cutoff is not a date; the
    organizations after it keep their snapshots. *)
Theorem sweep_stops before o after db : Forall dated before → ¬ dated o →
  run_retention env env_override (before ++ o :: after) db
  = Swept_panic (delete_snapshots (λ s, existsb (expired s) before) db).
Proof using Type.
  intros Hb Ho. revert db. induction Hb as [|o' before Ho' _ IH]; intros db; cbn -[trim_org].
  - rewrite delete_none. unfold trim_org. fold (cutoff o). destruct (sw_networks env (o_id o)) eqn:En; [by destruct Ho; left|].
    destruct (Z.ltb_spec (cutoff o) (sw_min env)); [done|]. by destruct Ho; right.
  - by rewrite (trim_org_dated o' db Ho'), IH, delete_twice.
Qed.
End Sweep.

(** The plan of an organization, and the plans with a retention of their own. *)
Definition org_plan (o : Organization) : BillingPlan := default get_free_plan (plan (o_base o)).
Definition fixed_days (p : BillingPlan) : option Z :=
  match p with
  | Free _ => Some 0 | Starter _ => Some 7 | Pro _ => Some 30 | Business _ | Team _ => Some 90
  | _ => None
  end.

(** The retention as the configuration documents it: the fixed window of a hosted plan;
    for the others the override, or ninety days. *)
Definition documented_days (env_override : option Z) (o : Organization) : Z :=
  default (default 90 env_override) (fixed_days (org_plan o)).

Lemma existsb_ext_in {A} (f g : A → bool) l : (∀ x, x ∈ l → f x = g x) → existsb f l = existsb g l.
Proof.
  induction l as [|x l IH]; intros H; [done|]. simpl. rewrite (H x) by left.
  by rewrite IH by (intros; apply H; by right).
Qed.

Lemma days_documented env_override o : env_override = None ∨ fixed_days (org_plan o) = None →
  snapshot_retention_days (org_plan o) env_override = documented_days env_override o.
Proof.
  unfold snapshot_retention_days, documented_days.
  destruct (org_plan o), env_override; cbn; intros [?|?]; done.
Qed.

(** C10. The retention sweep is one exact deletion.  Where the override is unset, or set and no
    organization has a hosted plan (Free, Starter, Pro, Business, Team), the sweep deletes
    exactly the snapshots of an organization's networks that are older than the documented
    number of days, with their rows; live rows, younger snapshots and those of other networks
    stay as they are, whatever the order of the organizations.  (With an override the code
    departs from the configuration's text for the hosted plans, which the hypothesis leaves
    out: [override_reaches_free_plan].) *)
Theorem retention_exact env env_override orgs db :
  (∀ o, o ∈ orgs → env_override = None ∨ fixed_days (org_plan o) = None) →
  (∀ o, o ∈ orgs → sw_networks env (o_id o) = [] ∨ sw_min env ≤ sw_now env - days (documented_days env_override o)) →
  run_retention env env_override orgs db = Swept_ok (delete_snapshots (λ s, existsb (λ o,
    bool_decide (sn_network_id s ∈ sw_networks env (o_id o))
    && (sn_taken_at s <? sw_now env - days (documented_days env_override o))) orgs) db).
Proof.
  intros Hdoc Hmin.
  assert (∀ o, o ∈ orgs → cutoff env env_override o = sw_now env - days (documented_days env_override o)) as Hc.
  { intros o Ho. unfold cutoff. fold (org_plan o). by rewrite (days_documented _ _ (Hdoc o Ho)). }
  rewrite sweep_dated.
  - f_equal. apply delete_ext. intros s. apply existsb_ext_in. intros o Ho. unfold expired. by rewrite Hc.
  - apply list.Forall_forall. intros o Ho. unfold dated. rewrite Hc by done. by apply Hmin.
Qed.

(** The override counts for every plan, also for those that grant no snapshots. *)
Example override_reaches_free_plan : take_snapshot_allowed get_free_plan None = false
  ∧ take_snapshot_allowed get_free_plan (Some 30) = true.
Proof. done. Qed.

(** ** A network with many interfaces *)

Definition empty_db : Db := {| t_subnets := []; t_vlans := []; t_hosts := []; t_ip_addresses := []; t_ports := [];
  t_services := []; t_interfaces := []; t_bindings := []; t_subnet_vlans := []; t_dependencies := [];
  t_dependency_members := []; t_entity_tags := []; t_snapshots := [] |}.

(** One switch with [n] interfaces, the first of which is linked to the last. *)
Definition switch_db (n : nat) : Db :=
  let link (i : Uuid) := if (i =? 100)%N then Some (NeighborInterface (100 + N.of_nat n - 1)%N) else None in
  let iface (i : Uuid) : InterfaceRow * option Uuid := ({| if_id := i; if_meta := fresh_meta 5;
    if_base := set_interface_neighbor (link i)
      (remap_interface {| m_hosts := {[uuid_nil := 10%N]}; m_subnets := ∅; m_vlans := ∅; m_services := ∅; m_ip_addresses := ∅;
         m_ports := ∅; m_interfaces := ∅; m_bindings := ∅; m_dependencies := ∅ |} default_interface_base) |}, None) in {|
  t_subnets := []; t_vlans := [];
  t_hosts := [({| h_id := 10; h_meta := fresh_meta 5; h_base := default_host_base |}, None)]; t_ip_addresses := []; t_ports := [];
  t_services := []; t_interfaces := (λ k, iface (100 + N.of_nat k)%N) <$> seq 0 n; t_bindings := []; t_subnet_vlans := [];
  t_dependencies := []; t_dependency_members := []; t_entity_tags := []; t_snapshots := [] |}.

Definition far_mint (c : CloneTable) (x : Uuid) : Uuid := (x + 1000000)%N.

(** 1820 interfaces fit one statement; with one more, a link from the first statement to
    the second breaks the foreign key and the network cannot be copied. *)
Theorem large_network_refused :
  chunk_size (R := InterfaceRow) = 1820%nat
  ∧ run_close_and_clone far_mint 0 1000 999 (switch_db 1821) = Err (ForeignKeyViolation 1001920)
  ∧ is_ok (run_close_and_clone far_mint 0 1000 999 (switch_db 100)) = true.
Proof. by vm_compute. Qed.

(** A request of a paying member for network 0. *)
Definition demo_take : TakeEnv := {|
  tk_plan := get_free_plan; tk_override := Some 30; tk_network_ids := [0%N]; tk_user := Some 7%N; tk_network := 0; tk_now := 1000;
  tk_id := 999; tk_mint := far_mint; tk_stored := true; tk_published := true; tk_org := None;
  tk_release := {| Sessions.now := 1001; fresh := λ n, N.of_nat n; db_ok := true; bus_ok := λ _, true; snmp_credentials_for := λ _, None;
    network_name := λ _, None; not_onboarded_org := λ _, None; network_promotable := λ _, true; merge_ok := true;
    daemon_exists := λ _, true |} |}.

(** The row of the snapshot is inserted before, and outside, the transaction of the copy: a
    failed request leaves a snapshot that is listed and holds nothing. *)
Theorem failed_snapshot_listed :
  let '(answer, srv) := create_snapshot demo_take {| sr_db := switch_db 1821; sr_discovery := empty_service; sr_onboarding := [] |} in
  answer = Err InternalError ∧ t_snapshots (sr_db srv) = [new_snapshot demo_take]
  ∧ stamped (tk_id demo_take) (t_hosts (sr_db srv)) = [].
Proof. by vm_compute. Qed.

(** ** Witness *)

(** Day 100 on the Pro plan, thirty days kept: of two snapshots the one of day 5 goes. *)
Definition demo_sweep : SweepEnv := {| sw_now := days 100; sw_min := 0; sw_networks := λ o, [(o + 10)%N] |}.
Definition demo_kept : Snapshot := {| sn_id := 2; sn_network_id := 17; sn_taken_at := days 80; sn_created_by := None |}.
Definition demo_sweep_db : Db :=
  with_snapshot demo_kept (with_snapshot {| sn_id := 1; sn_network_id := 17; sn_taken_at := days 5; sn_created_by := None |} empty_db).

Lemma retention_exact_witness :
  run_retention demo_sweep None [sample_org (sample_base (Some (Pro (config get_free_plan))) None)] demo_sweep_db
  = Swept_ok (with_snapshot demo_kept empty_db).
Proof.
  etransitivity; [apply retention_exact|by vm_compute].
  - intros o _. by left.
  - intros o ->%list_elem_of_singleton. right. by vm_compute.
Defined.
